(* ===== verification/_CoqProject ===== *)
-Q . S2P
Prelude.v
Text.v
BTree.v
Message.v
Events.v
LoopDetection.v
ControlPlane.v
Errors.v
TextBuffer.v
Mutation.v
PatchFreeform.v
Replay.v
Session.v
History.v
AgentSessions.v
WriteLease.v
HookEffects.v
SandboxPolicy.v
Tools.v
PathPolicy.v
PatchFiles.v
PatchFilesProps.v
SubagentPlan.v
SubagentPlanProps.v
Approval.v
RuntimeState.v
SubagentState.v
SubagentWorker.v
SubagentWorkerProps.v
SubagentExec.v
SubagentExecProps.v
HookFlow.v
ToolFlow.v
TurnLoop.v
DemoHost.v
RuntimeSteps.v
TurnSteps.v
RuntimeProps.v
LogProps.v
ProviderProps.v
StoreSearch.v
StoreExport.v
SessionStores.v
StoreProps.v
StoreOrder.v
StoreRefine.v
StoreClaims.v
StoreReports.v
Plugins.v
PluginPlan.v
PluginBoot.v
PluginProps.v
Float64.v
SchedMetrics.v
SchedExperiment.v
SchedCatalog.v
SchedProps.v
SchedScore.v
FileQueries.v
ReadTool.v
ReadProps.v
SearchTools.v
SearchProps.v
Notebooks.v
NotebookProps.v
Checkpoints.v
CheckpointProps.v
Crons.v
CronProps.v
MemoryFiles.v
MemoryOps.v
MemoryProps.v
MemoryRecords.v
MemoryCorpus.v
MemoryCache.v
MemoryIndex.v
MemoryIndexProps.v
MemorySearch.v
MemorySearchProps.v
