(* ===== verification/Prelude.v ===== *)
(** * nanoclaw: a verification of the agent runtime

    nanoclaw runs language-model agents.  A host (a terminal application, a
    scheduler) owns an [AgentRuntime]: it gives it user messages and control
    commands, and the runtime drives turns.  A turn sends the visible part of the
    transcript to a model provider, streams the response, persists it, handles
    the tool calls it contains (hooks, approval policy, approval handler, loop
    detector, sandbox policy, and then the tool), and repeats until the model
    stops and no hook objects.  Everything that happens is appended to an event
    log, from which a session can be resumed or forked; a long transcript is
    compacted into a summary.  The tools of the file system edit text by line,
    by exact match or by a patch.  An agent may spawn child agents with tasks that
    depend on each other; a child runs in a worker task with a mailbox, and agents
    that share a workspace take write leases.  The log is kept by a session store,
    in memory or in files.  Plugins add hooks, tools and memory within permissions the
    configuration grants them.  The memory of a workspace is a tree of Markdown notes that
    agents record to, promote, retire and search.  An application, sched-claw, records scheduler
    experiments in manifests and scores their candidates; another, code-agent, keeps checkpoints
    of the files its tools change and schedules automations.

    ** The files, in dependency order, and the sources they model

    Paths are under [src/crates/] unless they start with [apps/].  A comment of the form
    [crates/<file>, <symbol>] before a definition names what it translates.

    Shared:
    - [Prelude]: results, list and string functions of the Rust library, the
      automation and the lemmas the components share.
    - [Text]: lines, characters, searching and splitting of strings.
    - [BTree]: [BTreeMap] with string keys, in key order.

    Data:
    - [Message]: [types/src/message.rs], [tool.rs], [usage.rs]; the transcript.
    - [Events]: [types/src/hook.rs], [event.rs]; hooks and the event log.
    - [Errors]: the error enums of the modelled crates and their display.

    Components:
    - [LoopDetection]: [runtime/src/loop_detection/]; the tool loop detector.
    - [ControlPlane]: [runtime/src/control.rs]; the queue of prompts and steers.
    - [Replay]: [store/src/replay.rs]; the transcript a log stands for.
    - [Session]: [runtime/src/session.rs], [transcript.rs]; the live window,
      reconstruction, fork and seeding.
    - [History]: the pure part of [runtime/src/runtime/history.rs]; what is
      visible, where a compaction cuts, the rollback rounds.
    - [WriteLease]: [runtime/src/write_lease.rs]; the lease trie and its manager.
    - [HookEffects]: the pure part of [runtime/src/runtime/hook_effects.rs].
    - [SandboxPolicy]: [sandbox/src/policy.rs], [runtime/src/permissions.rs].
    - [Tools]: [tools/src/registry.rs], [context.rs].
    - [Approval]: [runtime/src/approval.rs].

    The file-system tools:
    - [TextBuffer]: [tools/src/fs/text_buffer.rs].
    - [Mutation]: [tools/src/fs/mutation.rs]; edit operations and their guards.
    - [PatchFreeform]: the parser of [tools/src/fs/patch_freeform.rs].
    - [PathPolicy]: [tools/src/fs/path_policy.rs], the disk.
    - [PatchFiles]: [tools/src/fs/patch.rs], [edit.rs], [write.rs] and the rest of
      [patch_freeform.rs]; [PatchFilesProps]: what they guarantee.

    Reading and searching ([tools/src/fs/]):
    - [Float64]: binary floating point; [FileQueries]: what the tools ask of the file
      system, and [view_image.rs].
    - [ReadTool]: [read.rs]; [SearchTools]: [list.rs], [glob.rs], [grep.rs]; [ReadProps],
      [SearchProps]: what they guarantee.
    - [Notebooks]: [notebook.rs]; [NotebookProps]: what the two tools guarantee.

    Child agents:
    - [AgentSessions]: [runtime/src/agent_session_manager.rs],
      [agent_mailbox.rs]; the records of the children, and waiting for them.
    - [SubagentPlan]: the pure part of [runtime/src/subagent_impl.rs]: the tools
      of a child, the dependency plan, the rollback of an interrupted turn, the
      result of a child; [SubagentPlanProps].
    - [SubagentState], [SubagentWorker], [SubagentExec]: the state of the
      executor, the worker of a child, and the executor itself;
      [SubagentWorkerProps], [SubagentExecProps].

    Managers of code-agent ([apps/code-agent/crates/backend/src/backend/]):
    - [Checkpoints]: [checkpoint_manager.rs] with the tools of
      [tools/src/agentic/checkpoint.rs]; [CheckpointProps]: what a restore brings back.
    - [Crons]: [cron_manager.rs] with [tools/src/agentic/cron.rs], segment by segment;
      [CronProps]: what the interleavings keep.

    The runtime, which calls all of them:
    - [RuntimeState]: the fields of [AgentRuntime], the monad its methods run in,
      [runtime/src/runtime/event_log.rs] and [provider_state.rs].
    - [HookFlow]: [runtime/src/hooks/], the stateful part of [hook_effects.rs].
    - [ToolFlow]: [runtime/src/runtime/tool_flow.rs].
    - [TurnLoop]: [runtime/src/runtime.rs], [turn_start.rs], [turn_loop.rs] and
      the compaction and rollback drivers of [history.rs].
    - [DemoHost]: a concrete host, for runs that compute.

    What holds of the runtime:
    - [RuntimeSteps], [TurnSteps]: the step relation [rt_step], the logic
      [triple] over it, and that every method only makes its steps.
    - [RuntimeProps], [LogProps], [ProviderProps]: the invariants of the steps and
      the guarantees they give to the host's calls ([run_calls]).

    The session stores ([store/src/]):
    - [StoreSearch]: summaries, token snapshots and the search of one log
      ([traits.rs]); [StoreExport]: token usage reports and memory export.
    - [SessionStores]: [memory.rs], [file.rs], [file/index_sidecar.rs].
    - [StoreProps]: the index of the file store, event by event; [StoreOrder]: the
      order of results and retention; [StoreRefine], [StoreClaims]: the file store
      implements the memory store; [StoreReports]: reports and exports.

    Plugins:
    - [Plugins]: [plugins/src/manifest.rs], [config.rs], [discovery.rs], [error.rs] and
      [mcp/src/config.rs]; [PluginPlan]: [plugins/src/resolution.rs]; [PluginBoot]:
      [core/src/plugin_boot.rs] and [core/src/plugin_boot/]; [PluginProps].

    The memory of a workspace ([memory/src/]):
    - [MemoryFiles]: [state.rs], [error.rs] and the pure part of [managed_files.rs]; the
      notes, their layout, front matter and text.
    - [MemoryOps]: [managed_files.rs], [auto_index.rs], [promotion.rs], [retention.rs]:
      recording, promoting, forgetting and the index note, over the disk.
    - [MemoryCorpus]: [config.rs], [corpus.rs]; discovery, the document cache, chunks.
    - [MemoryIndex]: [lexical_index.rs]; the full-text index and its manifest.
    - [MemorySearch]: [retrieval_policy.rs], [memory_core.rs], [backend.rs]; ranking,
      search, get and list.
    - [MemoryProps], [MemoryRecords], [MemoryCache], [MemoryIndexProps],
      [MemorySearchProps]: what they guarantee.

    The experiments of sched-claw ([apps/sched-claw/crates/domain/src/]):
    - [SchedMetrics]: [metrics.rs], [workload.rs]; [SchedExperiment]: the data, policies
      and scoring of [experiment.rs]; [SchedCatalog]: its catalog, [paths.rs].
    - [SchedProps]: what the catalog keeps true; [SchedScore]: what a score means.

    ** How the code is modelled

    A struct is a record, an enum an inductive type, with the source's names (a
    prefix keeps constructors and fields apart).  Pure functions are functions.
    An asynchronous method of the runtime is a computation of the monad [M]: it
    passes the runtime state on, may raise a [RuntimeError], keeping the state
    reached so far as [&mut self] does, and may run out of fuel.  What it awaits is
    an operation of the class [Host]; between two awaits the state it shares with
    other tasks ([Shared]: the control queue, the grants, the tool context, the
    tool registry) may have changed in any way.  Structures behind a lock are
    modelled by whole operations, since every method takes the lock once.

    The state also carries a trace of what the runtime asked of its host
    ([rt_trace]): appended events and whether the store took them, requests and
    the transcript visible when they were sent, the verdicts on a tool call, and
    executions.  No definition reads it; the theorems speak about it.

    Machine integers: token counts are [N] with the saturating [u64] operations
    written out ([saturating_add] and its like).  Indices and lengths are [nat]:
    they count items held in memory, far below the width of [usize], and a
    subtraction the source writes as saturating is the truncated one of [nat].  Numbers a
    caller chooses (limits, contexts, line numbers of the read and search tools) are [N],
    and a sum of them wraps around as in a release build ([FileQueries.usize_add]).

    An [f64] is a number of the Standard Library's [SpecFloat] with 53 bits of precision and
    exponents below 1024: its operations round to nearest, as the machine's do.

    Fuel: the loops that walk an index down start with that index, and the
    equations of the loops are proved ([History.expand_unfold],
    [History.adjust_unfold]).  The retry loop starts with twelve, which is proved
    to be enough for any backend ([ProviderProps.model_response_bounded]).  The
    turn loop and the control drain are bounded by nothing in the code: their fuel
    is an argument, and the invariants hold for every amount, run out or not.  A
    child worker makes a turn per input it gets, and fuel beyond the number of arrivals is
    enough: it ends, or goes on waiting for its first message, which is an
    argument ([SubagentWorker.Awaited]) because [recv] on an open and empty mailbox
    blocks ([SubagentWorkerProps.worker_ends_terminal]).  The dependency plan is
    visited with one step per task, which is enough ([SubagentPlanProps.visit_all]).
    A waiting parent and the calls that wake it interleave one lock at a time
    ([AgentSessions.reachable]); a waiter that can return does so after finitely many
    of its own steps ([AgentSessions.wait_returns]).

    ** Parameters and their hypotheses

    - [SerdeJson], [JsonBuild]: JSON values and the operations used on them.
    - [TextParsers]: URL parsing and shell splitting, for approval matchers.
    - [FileSystem]: [exists], [canonicalize], the current directory;
      [FileSystemLaws] states what they guarantee.
    - [Sha256], [JsonData]: digests of selections, and the JSON the tools report.
    - [Disk], [FileToolHost], [FileToolInputs]: reading, writing and removing files
      ([DiskLaws]: a write is read back, other paths keep their content), the
      checkpoint handler and the activity observer, decoded arguments.
    - [SubagentHost], [ChildPayloads]: the store, the worktree manager, profiles,
      identifiers ([UniqueIds]: a new id was not used) and the runtimes of the
      children; the structured payload of a child's answer.
    - [SessionFiles], [StoreCodec], [UnicodeCase]: the directory of the file store,
      the JSON of events and of the index, and lower case.  [SessionFilesLaws]: an
      operation that reports success did its work; [StoreCodecLaws]: an event is
      one line that decodes to it.
    - [FileQueries], [ReadInput], [SearchInputs]: reading files, walking directories
      ([ignore]), globs, regular expressions, base64, and the decoded arguments.
    - [NotebookJson]: the JSON of a notebook file ([NotebookJsonLaws]: what is put into a
      value is what it holds); [NotebookInputs]: decoded arguments.
    - [LogHost]: the log, identifiers and the clock of the managers ([LogHostLaws]: an event that is
      appended without an error is the last of its session); [CheckpointPayloads], [CronPayloads]:
      the JSON of their answers; [TaskCreation]: the task manager a schedule calls.
    - [TomlFiles], [TomlLeaf]: the files of plugins, their decoding, and the values of
      a TOML table that are not tables.
    - [MemoryText]: the YAML of a front matter and the text of a time stamp; [MemoryDisk]:
      the metadata of a file and the walk of the managed notes ([MemoryDiskLaws]: a file
      that can be read has metadata).  [CorpusWalk]: walking a workspace and compiling
      globs ([CorpusWalkLaws]: a walk stays below its root).  [IndexFaults]: which calls on
      the index fail; [FullText]: a full-text query ([FullTextLaws]: it answers rows of the
      index, within its limit); [Retrieval]: powers of two, days between dates,
      alphanumeric characters.
    - [ExperimentFiles]: the disk of the experiment catalog and the TOML of a manifest;
      [ExperimentFilesLaws]: a write is read back and changes one file, a rendered
      manifest parses to itself.
    - [Host]: the model backend (a stream is the list of what it yields), the
      store, hook executors, tools, the approval policy and handler, the
      compactor, the augmentor, the observer, identifiers and the clock.  Nothing
      is assumed of a host.  The theorems that compare the session with the log
      assume of the trace that every event was stored ([all_stored]) and of the
      log that message ids are not reused ([NoDup (appended_ids _)]).

    ** What the theorems show

    - Tool calls: every execution was let through by hooks, policy, handler and
      loop detector, for exactly the call that runs, under the host's sandbox
      policy widened by the current grants only; every call is answered; approval
      rules are first-match and a shell allowlist fails closed; the registry
      resolves names consistently.
    - The log: replaying it gives the live transcript; a resumed session shows
      what the live one shows; the replay refines a reference reading of the log
      and never indexes out of bounds; a fork resumes to the window of its parent.
    - The provider: every request, with what its continuation stands for, is the
      visible transcript; a response costs at most twelve requests.
    - Compaction and rollback: the cut leaves enough on both sides and does not
      separate a call from its result; a rollback removes what it announced.
    - Sandbox: grants only widen, never unlock a protected path, and are usable.
    - Write leases: leases of two agents never overlap, and claim, release and the
      write guard implement their contract over the set of owners.
    - Hooks: refusals are never overridden by a later effect, and a plugin's hook
      stays within its effect policy.
    - Control plane: nothing is lost, duplicated or reordered within a lane, and a
      safe point takes the oldest steer.
    - File tools: splitting and joining a text is the identity; a patch is all or
      nothing, has the effect of its operations one after another, and writes only
      where policy and leases allow; a printed patch parses back; edits made
      against stale text are refused.
    - Reading and searching: the pages of a file cover it and stay within the budget; what
      a read reports is accepted by an edit; a listing is the sorted listing cut at its
      limit; grep shows one row, with the line's text, per line around the matches within its limit.
    - Notebooks: an edit changes exactly the cells it names and refuses stale ones; the pages of a
      notebook cover its cells.
    - Checkpoints: after any changes of the tools, restoring to a checkpoint brings back the files
      as they were before it, and touches no other file.
    - Automations: whatever the interleaving of calls and run loops, no schedule has two
      loops, creates more tasks than it may, or counts more runs.
    - Child agents: a dependency plan is accepted exactly when an order exists; a
      child gets no tool its parent lacks; a failed spawn leaves nothing behind; a
      scheduler round starts workers for, fails and keeps exactly the right children and
      leaves every other record alone; a
      launch ends with a worker or a terminal record; a worker, unless it waits for a first
      message that never comes, ends with a terminal record and without leases; an
      interrupt takes back exactly the request in progress; a waiter misses no wake-up
      and returns; the registry lists exactly its agents, and a call writes one record;
      a parent cannot reach the children of another.
    - Session stores: appending to the file store is appending to the memory store
      and pruning exactly the sessions the retention policy names; both list the
      same summaries and, as far as the index lets a session through, find the same
      results; what a search finds; a token report does not depend on the order of
      arrival; the groups of an export hold the events they should.
    - Plugins: a plan of bundles activates exactly the ones the documented order enables, and
      collects what they contribute; what a plugin is
      granted is within what it asked for and inside the workspace; its hooks act within
      their capabilities; what discovery reads stays inside the plugin's root.
    - Memory: every write stays below the memory root; what is recorded accumulates in its
      note until the note is promoted or forgotten; the index note stays within its size;
      the chunks of a corpus are its lines, and every line is in one; a load through the cache
      is a load without it while fingerprints are honest and extra paths are watched; the
      full-text index holds the corpus or is rebuilt, whatever fails on the way; every hit
      of a search is a chunk of the corpus that meets the request, by falling score, and below
      the limit none is missing; a get returns the lines it names.
    - Experiments: manifests stay sound (unique ids, closed references but for deployments, valid
      policies), search budgets hold and end with a promotion where the policy says so; a
      candidate is promoted exactly when it should be, whatever the order of the runs.
    - Loop detector: bounded history, repeated calls are blocked, fresh ones not.
    - Defects, each as a theorem on a concrete run or state: a removed summary
      makes a session unresumable, a second compaction resumes with the summary
      of the first, a message a hook appends before a compaction is hidden, the
      split can orphan a tool result, a read grant can be lost under full access,
      inputs queued to a child can be lost, a worker can end with a running
      record, a cancelled child can come back, two spellings of a path lose an
      edit, the patch parser panics on a multi-byte change line, a search counts too
      few events and misses wide blanks, a token report fails for a child without a
      log and forgets what a child used before a compaction, a runtime module can
      leave its plugin, the memory slot enables a disabled plugin and does not turn off
      another memory plugin, a change of status undoes
      a note recorded meanwhile, a note that cannot be read is replaced by the next record
      and blocks the index, a promotion can fail after it wrote, retire its own result or
      read outside the workspace, the corpus cache misses an extra path that is ignored,
      the largest line numbers overflow in a memory get, a negative baseline
      turns a score around, the processor model is never found, an experiment can be
      written outside its root, a deployment can name no candidate, a candidate can be
      its own parent, a restore loses what was edited outside of the tools, mixes up two
      spellings of a path and leaves half of a refused restore, a notebook edit leaves no
      checkpoint and can show the wrong cell, an automation is lost when two calls load its
      session, returns after its cancellation or completes after it, and the largest limits and contexts overflow in read, list, glob and
      grep.

    ** What is not modelled

    Serde encodings, logging, [Debug] and lock poisoning.  The host's side: model
    providers over HTTP, process and network sandboxes, MCP, language servers,
    configuration files, terminal front ends.  Of the tools, those whose work is done by
    such a side: processes, the web, code intelligence, and the agentic tools that decode
    a call and hand it to a manager that is not modelled.  The Markdown of the memory exports. *)

From Stdlib Require Import Ascii String.
From stdpp Require Import base list gmap strings pretty.
From Stdlib Require Import Lia.

(** ** Notations of the development *)

Declare Scope nano_scope.
Delimit Scope nano_scope with nano.
Open Scope string_scope.
Open Scope list_scope.

(** Rust's [Result<T, E>]. *)
Inductive result (A E : Type) : Type :=
| Ok (a : A)
| Err (e : E).
Arguments Ok {A E} a.
Arguments Err {A E} e.

Definition result_bind {A B E} (m : result A E) (k : A -> result B E) : result B E :=
  match m with
  | Ok a => k a
  | Err e => Err e
  end.

(** [x <-? m ; k] is [let x = m?; k]. *)
Notation "x <-? m ; k" := (result_bind m (fun x => k))
  (at level 100, m at next level, right associativity) : nano_scope.
Open Scope nano_scope.

Definition is_ok {A E} (r : result A E) : bool :=
  match r with Ok _ => true | Err _ => false end.

(** [iter.map(f).collect::<Result<Vec<_>>>()]: stops at the first error. *)
Fixpoint map_result {A B E} (f : A -> result B E) (l : list A) : result (list B) E :=
  match l with
  | [] => Ok []
  | x :: l' => y <-? f x; ys <-? map_result f l'; Ok (y :: ys)
  end.

(** [Option::ok_or]. *)
Definition ok_or {A E} (o : option A) (e : E) : result A E :=
  match o with Some a => Ok a | None => Err e end.

(** [iter.find_map(f)]. *)
Fixpoint find_map {A B} (f : A -> option B) (l : list A) : option B :=
  match l with
  | [] => None
  | x :: l' => match f x with Some b => Some b | None => find_map f l' end
  end.

(** [iter.position(f)] and [iter.rposition(f)]. *)
Fixpoint position {A} (f : A -> bool) (l : list A) : option nat :=
  match l with
  | [] => None
  | x :: l' => if f x then Some 0%nat else S <$> position f l'
  end.

Fixpoint rposition {A} (f : A -> bool) (l : list A) : option nat :=
  match l with
  | [] => None
  | x :: l' =>
      match rposition f l' with
      | Some i => Some (S i)
      | None => if f x then Some 0%nat else None
      end
  end.

(** ** Automation *)

Create HintDb nano discriminated.

(** Case analysis on every [match]/[if] scrutinee in the goal or context. *)
Ltac crush_match :=
  repeat (case_match; simplify_eq/=; try done).

(** Invert equations between results and booleans produced by the models. *)
Ltac inv_result :=
  repeat match goal with
  | H : Ok _ = Ok _ |- _ => injection H as H; subst
  | H : Err _ = Err _ |- _ => injection H as H; subst
  | H : Ok _ = Err _ |- _ => discriminate H
  | H : Err _ = Ok _ |- _ => discriminate H
  | H : result_bind ?m _ = _ |- _ =>
      let E := fresh "E" in destruct m eqn:E; simpl in H
  end.

(** ** Machine integers *)

(** [u64] and [usize] counters are [N], with their saturating operations. *)
Definition u64_max : N := 18446744073709551615%N.
Definition u32_max : N := 4294967295%N.

Definition saturating_add (a b : N) : N := N.min u64_max (a + b).
Definition saturating_sub (a b : N) : N := (a - b)%N.
Definition saturating_mul (a b : N) : N := N.min u64_max (a * b).

Lemma saturating_add_le a b : (saturating_add a b <= u64_max)%N.
Proof. unfold saturating_add. lia. Qed.

Lemma saturating_add_exact a b : (a + b <= u64_max)%N -> saturating_add a b = (a + b)%N.
Proof. unfold saturating_add. lia. Qed.

Lemma saturating_add_mono a b : (a <= u64_max)%N -> (a <= saturating_add a b)%N.
Proof. unfold saturating_add. lia. Qed.

Lemma saturating_add_assoc a b c :
  saturating_add (saturating_add a b) c = saturating_add a (saturating_add b c).
Proof. unfold saturating_add. lia. Qed.

(** [usize::div_ceil] on [nat]. *)
Definition div_ceil (a b : nat) : nat := (a + b - 1) / b.

#[export] Hint Resolve saturating_add_le saturating_add_mono : nano.

(** ** Strings

    A Rust [String]/[&str] is its UTF-8 byte sequence: a [string] whose
    [ascii] cells are the bytes.  [str::len] is the number of bytes. *)

Definition str_is_empty (s : string) : bool :=
  match s with EmptyString => true | _ => false end.

Definition byte_at (n : nat) : ascii := ascii_of_nat n.

Fixpoint string_of_bytes (l : list nat) : string :=
  match l with [] => "" | b :: l' => String (byte_at b) (string_of_bytes l') end.

Definition newline : ascii := byte_at 10.
Definition nl : string := String newline "".
Definition dquote : string := String (byte_at 34) "".
(** The backtick used to quote names in messages. *)
Definition bt : string := String (byte_at 96) "".

(** [str::strip_prefix]. *)
Fixpoint strip_prefix (p s : string) : option string :=
  match p, s with
  | "", _ => Some s
  | String a p', String b s' => if Ascii.eqb a b then strip_prefix p' s' else None
  | String _ _, "" => None
  end.

Definition starts_with (s p : string) : bool :=
  match strip_prefix p s with Some _ => true | None => false end.

Definition str_rev (s : string) : string :=
  string_of_list_ascii (rev (list_ascii_of_string s)).

(** [str::strip_suffix] and [str::ends_with]. *)
Definition strip_suffix (suf s : string) : option string :=
  match strip_prefix (str_rev suf) (str_rev s) with
  | Some r => Some (str_rev r)
  | None => None
  end.

Definition ends_with (s suf : string) : bool :=
  match strip_suffix suf s with Some _ => true | None => false end.

(** [str::contains]. *)
Fixpoint str_contains (s p : string) : bool :=
  starts_with s p || match s with "" => false | String _ s' => str_contains s' p end.

(** [str::split(c)]: always at least one piece. *)
Fixpoint split_on (c : ascii) (s : string) : list string :=
  match s with
  | "" => [""]
  | String a s' =>
      if Ascii.eqb a c then "" :: split_on c s'
      else match split_on c s' with
           | [] => [String a ""]
           | p :: ps => String a p :: ps
           end
  end.

(** [str::split_once(c)]. *)
Fixpoint split_once (c : ascii) (s : string) : option (string * string) :=
  match s with
  | "" => None
  | String a s' =>
      if Ascii.eqb a c then Some ("", s')
      else match split_once c s' with
           | Some (l, r) => Some (String a l, r)
           | None => None
           end
  end.

(** [[T]::join(sep)] on strings. *)
Fixpoint str_join (sep : string) (l : list string) : string :=
  match l with
  | [] => ""
  | [x] => x
  | x :: l' => x +:+ sep +:+ str_join sep l'
  end.

(** [str::replace(c, with)] for a one-byte pattern. *)
Fixpoint replace_char (c : ascii) (w s : string) : string :=
  match s with
  | "" => ""
  | String a s' => (if Ascii.eqb a c then w else String a "") +:+ replace_char c w s'
  end.

(** [char::is_whitespace], on the UTF-8 encodings of the characters with the
    Unicode property White_Space: U+0009..U+000D, U+0020 in one byte, U+0085
    and U+00A0 in two, U+1680, U+2000..U+200A, U+2028, U+2029, U+202F, U+205F
    and U+3000 in three. *)
Definition ws1 (a : ascii) : bool :=
  let n := nat_of_ascii a in (((9 <=? n) && (n <=? 13)) || (n =? 32))%nat.
Definition ws2 (a b : ascii) : bool :=
  let m := nat_of_ascii a in let n := nat_of_ascii b in
  ((m =? 194) && ((n =? 133) || (n =? 160)))%nat.
Definition ws3 (a b c : ascii) : bool :=
  let l := nat_of_ascii a in let m := nat_of_ascii b in let n := nat_of_ascii c in
  (((l =? 225) && (m =? 154) && (n =? 128))
  || ((l =? 226) && (m =? 128) &&
      (((128 <=? n) && (n <=? 138)) || (n =? 168) || (n =? 169) || (n =? 175)))
  || ((l =? 226) && (m =? 129) && (n =? 159))
  || ((l =? 227) && (m =? 128) && (n =? 128)))%nat.

Fixpoint trim_start (s : string) : string :=
  match s with
  | "" => ""
  | String a s1 =>
      if ws1 a then trim_start s1
      else match s1 with
           | "" => s
           | String b s2 =>
               if ws2 a b then trim_start s2
               else match s2 with
                    | "" => s
                    | String c s3 => if ws3 a b c then trim_start s3 else s
                    end
           end
  end.

(** The same scan over the reversed bytes. *)
Fixpoint trim_start_rev (s : string) : string :=
  match s with
  | "" => ""
  | String c s1 =>
      if ws1 c then trim_start_rev s1
      else match s1 with
           | "" => s
           | String b s2 =>
               if ws2 b c then trim_start_rev s2
               else match s2 with
                    | "" => s
                    | String a s3 => if ws3 a b c then trim_start_rev s3 else s
                    end
           end
  end.

Definition trim_end (s : string) : string := str_rev (trim_start_rev (str_rev s)).
Definition trim (s : string) : string := trim_end (trim_start s).

(** [str::to_ascii_lowercase]. *)
Definition ascii_lower (a : ascii) : ascii :=
  let n := nat_of_ascii a in
  if ((65 <=? n) && (n <=? 90))%nat then ascii_of_nat (n + 32) else a.
Fixpoint to_ascii_lowercase (s : string) : string :=
  match s with "" => "" | String a s' => String (ascii_lower a) (to_ascii_lowercase s') end.

(** [s.chars().count()]: the bytes that are not UTF-8 continuation bytes. *)
Fixpoint chars_count (s : string) : nat :=
  match s with
  | "" => 0
  | String a s' =>
      let n := nat_of_ascii a in
      ((if (128 <=? n) && (n <=? 191) then 0 else 1) + chars_count s')%nat
  end.

(** Decimal rendering of an unsigned integer ([{}] in [format!]). *)
Definition fmt_nat (n : nat) : string := pretty (N.of_nat n).
Definition fmt_N (n : N) : string := pretty n.

Lemma sapp_nil_r (s : string) : s +:+ "" = s.
Proof. induction s as [|a s IH]; [done | exact (f_equal (String a) IH)]. Qed.

Lemma sapp_assoc (a b c : string) : (a +:+ b) +:+ c = a +:+ (b +:+ c).
Proof. induction a as [|x a IH]; [done | exact (f_equal (String x) IH)]. Qed.

Lemma sapp_inj_l (a b c : string) : a +:+ b = a +:+ c -> b = c.
Proof. induction a as [|x a IH]; simpl; [done | intros [= H]; by apply IH]. Qed.

Lemma slength_app (a b : string) :
  String.length (a +:+ b) = (String.length a + String.length b)%nat.
Proof. induction a as [|x a IH]; [done | exact (f_equal S IH)]. Qed.

Lemma strip_prefix_Some p s r : strip_prefix p s = Some r <-> s = p +:+ r.
Proof.
  revert s. induction p as [|a p IH]; intros s.
  - split; [by intros [= ->] | by intros ->].
  - cbn. destruct s as [|b s]; [split; discriminate|].
    destruct (Ascii.eqb_spec a b) as [->|Hne].
    + rewrite IH. split; [by intros -> | by intros [= ->]].
    + split; [discriminate | intros [= H _]; congruence].
Qed.

Lemma starts_with_spec s p : starts_with s p = true <-> exists r, s = p +:+ r.
Proof.
  unfold starts_with. destruct (strip_prefix p s) as [r|] eqn:E.
  - split; [intros _; exists r; by apply strip_prefix_Some | done].
  - split; [done | intros [r Hr]]. apply strip_prefix_Some in Hr. congruence.
Qed.

Lemma starts_with_app p r : starts_with (p +:+ r) p = true.
Proof. apply starts_with_spec. by exists r. Qed.

(** ** Lists *)

Lemma position_Some {A} (f : A -> bool) l i :
  position f l = Some i ->
  exists x, l !! i = Some x /\ f x = true /\ Forall (fun y => f y = false) (take i l).
Proof.
  revert i. induction l as [|x l IH]; intros i; simpl; [done|].
  destruct (f x) eqn:E; [intros [= <-]; by exists x|].
  destruct (position f l) as [j|]; [|done]. intros [= <-].
  destruct (IH j eq_refl) as (y & Hy & Hf & Hall). exists y. simpl. auto.
Qed.

Lemma position_None {A} (f : A -> bool) l :
  position f l = None <-> Forall (fun y => f y = false) l.
Proof.
  induction l as [|x l IH]; simpl; [done|]. rewrite Forall_cons.
  destruct (f x) eqn:E; [split; [done | intros [? _]; done]|].
  destruct (position f l); simpl; [|by rewrite <- IH; tauto].
  split; [done|]. intros [_ H]. by apply IH in H.
Qed.

Lemma rposition_Some {A} (f : A -> bool) l i :
  rposition f l = Some i ->
  exists x, l !! i = Some x /\ f x = true /\ Forall (fun y => f y = false) (drop (S i) l).
Proof.
  revert i. induction l as [|x l IH]; intros i; simpl; [done|].
  destruct (rposition f l) as [j|] eqn:Ej.
  - intros [= <-]. destruct (IH j eq_refl) as (y & Hy & Hf & Hall). by exists y.
  - destruct (f x) eqn:E; [|done]. intros [= <-]. exists x. repeat split; [done|].
    rewrite drop_0. clear -Ej. induction l as [|y l IH]; simpl in *; [done|].
    destruct (rposition f l); [done|]. destruct (f y) eqn:Ey; [done|]. auto.
Qed.

Lemma rposition_None {A} (f : A -> bool) l :
  rposition f l = None <-> Forall (fun y => f y = false) l.
Proof.
  induction l as [|x l IH]; simpl; [done|]. rewrite Forall_cons.
  destruct (rposition f l); [|destruct (f x) eqn:E]; simpl.
  - split; [done|]. intros [_ H]. by apply IH in H.
  - split; [done | by intros [? _]].
  - split; [|done]. intros _. by split; [|apply IH].
Qed.

Lemma find_map_Some {A B} (f : A -> option B) l b :
  find_map f l = Some b ->
  exists pre x post, l = pre ++ x :: post /\ f x = Some b /\ Forall (fun y => f y = None) pre.
Proof.
  induction l as [|x l IH]; simpl; [done|]. destruct (f x) as [c|] eqn:E.
  - intros [= <-]. by exists [], x, l.
  - intros (pre & y & post & -> & Hy & Hpre)%IH. exists (x :: pre), y, post. auto.
Qed.

Lemma map_result_Ok {A B E} (f : A -> result B E) l k :
  map_result f l = Ok k <-> Forall2 (fun x y => f x = Ok y) l k.
Proof.
  revert k. induction l as [|x l IH]; intros k; simpl.
  - split; [intros [= <-]; constructor | by inversion 1].
  - destruct (f x) as [y|e] eqn:Ef; simpl; [|split; [done | inversion 1; congruence]].
    destruct (map_result f l) as [ys|e]; simpl.
    + split; [intros [= <-]; constructor; [done | by apply IH]|].
      inversion 1 as [|? z ? zs Hz Hzs]; subst. apply IH in Hzs. congruence.
    + split; [done|]. inversion 1 as [|? z ? zs Hz Hzs]; subst. by apply IH in Hzs.
Qed.

Lemma foldl_inv {A B} (P : list A -> B -> Prop) (f : B -> A -> B) l b :
  P [] b -> (forall pre x post c, l = pre ++ x :: post -> P pre c -> P (pre ++ [x]) (f c x)) ->
  P l (foldl f b l).
Proof.
  intros H0 Hs.
  assert (H : forall pre post c, l = pre ++ post -> P pre c -> P l (foldl f c post)).
  { intros pre post. revert pre. induction post as [|x post IH]; intros pre c -> Hp; simpl.
    - by rewrite app_nil_r.
    - apply (IH (pre ++ [x])); [by rewrite <- app_assoc|]. by eapply Hs. }
  by apply (H []).
Qed.

#[export] Hint Rewrite sapp_nil_r sapp_assoc : nano.

Lemma elem_of_filter_b {A} (f : A -> bool) x l : x ∈ List.filter f l <-> x ∈ l /\ f x = true.
Proof. by rewrite !list_elem_of_In, filter_In. Qed.

Lemma NoDup_map_filter {A B} (g : A -> B) (t : A -> bool) l :
  NoDup (g <$> l) -> NoDup (g <$> List.filter t l).
Proof.
  induction l as [|x l IH]; simpl; [done|]. rewrite NoDup_cons. intros [Hx Hl].
  destruct (t x); simpl; [|auto]. apply NoDup_cons. split; [|auto].
  rewrite !list_elem_of_fmap in *. intros (y & Hy & [Hin _]%list_elem_of_In%filter_In).
  apply Hx. exists y. split; [done|]. by apply list_elem_of_In.
Qed.

Lemma Forall2_in_l {A B} (P : A -> B -> Prop) l k x :
  Forall2 P l k -> x ∈ l -> exists y, y ∈ k /\ P x y.
Proof.
  induction 1 as [|a b l k Hab _ IH]; [intros Hx; inversion Hx|].
  intros [->|Hx]%elem_of_cons; [exists b; split; [by left | done]|].
  destruct (IH Hx) as (y & Hy & Hp). exists y. split; [by right | done].
Qed.
