(* ===== verification/Text.v ===== *)
(** * Text functions

    The string functions of the Rust library that the text tools use beyond those
    of [Prelude], with the lemmas that relate splitting and joining. *)

From Stdlib Require Import Ascii String.
From stdpp Require Import base list strings.
From Stdlib Require Import Lia.
From S2P Require Import Prelude.

(** [str::split_terminator(c)]: a final empty piece is dropped. *)
Definition split_terminator (c : ascii) (s : string) : list string :=
  let parts := split_on c s in
  match last parts with Some "" => removelast parts | _ => parts end.

(** [str::split(pat)] for a non-empty pattern; [skip] bytes still belong to the
    occurrence found last. *)
Fixpoint split_str (pat : string) (skip : nat) (s : string) : list string :=
  match s with
  | "" => [""]
  | String a s' =>
      match skip with
      | S skip => split_str pat skip s'
      | O =>
          if starts_with s pat then "" :: split_str pat (String.length pat - 1) s'
          else match split_str pat O s' with
               | [] => [String a ""]
               | p :: ps => String a p :: ps
               end
      end
  end.

(** [s.is_char_boundary] before a byte: it does not continue a character. *)
Definition char_start (a : ascii) : bool :=
  let n := nat_of_ascii a in negb ((128 <=? n) && (n <=? 191))%nat.

(** [str::replace] of the empty pattern: at every character boundary. *)
Fixpoint replace_empty (w s : string) : string :=
  match s with
  | "" => w
  | String a s' => (if char_start a then w else "") +:+ String a (replace_empty w s')
  end.

(** [str::matches(pat).count()]. *)
Definition matches_count (pat s : string) : nat :=
  if str_is_empty pat then S (chars_count s) else pred (length (split_str pat O s)).

(** [str::replace]. *)
Definition str_replace (pat w s : string) : string :=
  if str_is_empty pat then replace_empty w s else str_join w (split_str pat O s).

(** The text around the first occurrence of a non-empty pattern. *)
Fixpoint split_first (pat s : string) : option (string * string) :=
  match strip_prefix pat s with
  | Some rest => Some ("", rest)
  | None =>
      match s with
      | "" => None
      | String a s' =>
          match split_first pat s' with
          | Some (l, r) => Some (String a l, r)
          | None => None
          end
      end
  end.

(** [str::replacen(pat, w, 1)]. *)
Definition str_replacen1 (pat w s : string) : string :=
  match split_first pat s with
  | Some (l, r) => l +:+ w +:+ r
  | None => s
  end.

(** [str::lines]: the line terminator is a newline or a carriage return and a
    newline. *)
Definition cr : string := String (byte_at 13) "".
Definition strip_cr (s : string) : string := default s (strip_suffix cr s).
Definition str_lines (s : string) : list string :=
  let parts := split_on newline s in
  match last parts with
  | Some l =>
      map strip_cr (removelast parts) ++ (if str_is_empty l then [] else [l])
  | None => []
  end.

(** ** Lemmas *)

Lemma list_ascii_app (a b : string) :
  list_ascii_of_string (a +:+ b) = (list_ascii_of_string a ++ list_ascii_of_string b)%list.
Proof. induction a as [|x a IH]; [done | exact (f_equal (cons x) IH)]. Qed.

Lemma string_of_list_app (a b : list ascii) :
  string_of_list_ascii (a ++ b)%list = string_of_list_ascii a +:+ string_of_list_ascii b.
Proof. induction a as [|x a IH]; [done | exact (f_equal (String x) IH)]. Qed.

Lemma str_rev_app a b : str_rev (a +:+ b) = str_rev b +:+ str_rev a.
Proof. unfold str_rev. by rewrite list_ascii_app, rev_app_distr, string_of_list_app. Qed.

Lemma str_rev_involutive s : str_rev (str_rev s) = s.
Proof.
  unfold str_rev. by rewrite list_ascii_of_string_of_list_ascii, rev_involutive,
    string_of_list_ascii_of_string.
Qed.

Lemma strip_suffix_Some suf s r : strip_suffix suf s = Some r <-> s = r +:+ suf.
Proof.
  unfold strip_suffix. destruct (strip_prefix (str_rev suf) (str_rev s)) as [t|] eqn:E.
  - apply strip_prefix_Some in E. apply (f_equal str_rev) in E.
    rewrite str_rev_app, !str_rev_involutive in E. subst s. split; [by intros [= <-]|].
    intros H. f_equal. apply (f_equal str_rev) in H. rewrite !str_rev_app in H.
    apply sapp_inj_l in H. by apply (f_equal str_rev) in H; rewrite !str_rev_involutive in H.
  - split; [done|]. intros ->. rewrite str_rev_app in E.
    destruct (strip_prefix_Some (str_rev suf) (str_rev suf +:+ str_rev r) (str_rev r)) as [_ H].
    rewrite H in E by done. discriminate E.
Qed.

Lemma ends_with_spec s suf : ends_with s suf = true <-> exists r, s = r +:+ suf.
Proof.
  unfold ends_with. destruct (strip_suffix suf s) as [r|] eqn:E.
  - apply strip_suffix_Some in E. split; [by exists r | done].
  - split; [done|]. intros [r Hr]. apply strip_suffix_Some in Hr. congruence.
Qed.

Lemma split_on_ne c s : split_on c s <> [].
Proof. destruct s as [|a s]; simpl; [done|]. destruct (Ascii.eqb a c); [done|]. by destruct (split_on c s). Qed.

Lemma split_on_app c a b :
  split_on c (a +:+ String c b) = (split_on c a ++ split_on c b)%list.
Proof.
  induction a as [|x a IH]; simpl; [by rewrite Ascii.eqb_refl|].
  destruct (Ascii.eqb x c); [exact (f_equal (cons "") IH)|].
  change ((fix append (s1 s2 : string) := match s1 with "" => s2 | String x0 s1' => String x0 (append s1' s2) end) a (String c b))
    with (a +:+ String c b). rewrite IH.
  pose proof (split_on_ne c a). by destruct (split_on c a).
Qed.

(** A string without the byte [c]. *)
Definition lacks (c : ascii) (s : string) : Prop := split_on c s = [s].

Lemma lacks_cons c a s : lacks c (String a s) <-> a <> c /\ lacks c s.
Proof.
  unfold lacks. simpl. destruct (Ascii.eqb_spec a c) as [->|Hne].
  - split; [discriminate | tauto].
  - pose proof (split_on_ne c s). destruct (split_on c s) as [|p ps]; [done|].
    split; [intros [= -> ->]; done | intros [_ [= -> ->]]; done].
Qed.

Lemma split_on_lacks c s : Forall (lacks c) (split_on c s).
Proof.
  induction s as [|a s IH]; simpl; [by repeat constructor|].
  destruct (Ascii.eqb_spec a c) as [->|Hne]; [by constructor|].
  pose proof (split_on_ne c s). destruct (split_on c s) as [|p ps]; [done|].
  apply Forall_cons in IH as [Hp Hps]. constructor; [by apply lacks_cons | done].
Qed.

Lemma join_cons sep x l : l <> [] -> str_join sep (x :: l) = x +:+ sep +:+ str_join sep l.
Proof. by destruct l. Qed.

Lemma join_app sep l k :
  l <> [] -> k <> [] -> str_join sep (l ++ k)%list = str_join sep l +:+ sep +:+ str_join sep k.
Proof.
  intros Hl Hk. induction l as [|x l IH]; [done|]. destruct l as [|y l]; [by apply join_cons|].
  change ((x :: y :: l) ++ k)%list with (x :: ((y :: l) ++ k))%list. rewrite join_cons by done.
  rewrite IH by done. rewrite (join_cons sep x (y :: l)) by done. by rewrite !sapp_assoc.
Qed.

Lemma join_split c s : str_join (String c "") (split_on c s) = s.
Proof.
  induction s as [|a s IH]; simpl; [done|].
  destruct (Ascii.eqb_spec a c) as [->|Hne].
  - rewrite join_cons by apply split_on_ne. by rewrite IH.
  - pose proof (split_on_ne c s). destruct (split_on c s) as [|p [|q ps]]; [done | by rewrite <- IH|].
    rewrite join_cons by done. rewrite join_cons in IH by done. by rewrite <- IH.
Qed.

Lemma split_join c l : l <> [] -> Forall (lacks c) l -> split_on c (str_join (String c "") l) = l.
Proof.
  intros Hl Hf. induction Hf as [|x l Hx Hf IH]; [done|]. destruct l as [|y l]; [done|].
  rewrite join_cons by done. change (String c "" +:+ ?t) with (String c t).
  rewrite split_on_app, Hx, IH by done. done.
Qed.

Lemma str_append_cons a s t : String a s +:+ t = String a (s +:+ t).
Proof. done. Qed.

Lemma split_str_ne pat k s : split_str pat k s <> [].
Proof.
  revert k. induction s as [|a s IH]; intros k; simpl; [done|]. destruct k as [|k]; [|apply IH].
  destruct (starts_with (String a s) pat); [done|]. by destruct (split_str pat 0 s).
Qed.

Lemma split_str_skip pat u s : split_str pat (String.length u) (u +:+ s) = split_str pat 0 s.
Proof. induction u as [|a u IH]; [done | exact IH]. Qed.

(** The two cases of a split. *)
Lemma split_str_hit pat r : pat <> "" -> split_str pat 0 (pat +:+ r) = "" :: split_str pat 0 r.
Proof.
  destruct pat as [|a p]; [done|]. intros _.
  pose proof (starts_with_app (String a p) r) as Hs. cbn [split_str].
  change (String a p +:+ r) with (String a (p +:+ r)) in *. cbn [split_str]. rewrite Hs.
  cbn [String.length]. by rewrite Nat.sub_1_r, Nat.pred_succ, split_str_skip.
Qed.

Lemma split_str_miss pat a s :
  starts_with (String a s) pat = false ->
  exists p ps, split_str pat 0 s = p :: ps /\ split_str pat 0 (String a s) = String a p :: ps.
Proof.
  intros Hs. cbn [split_str]. rewrite Hs. pose proof (split_str_ne pat 0 s).
  destruct (split_str pat 0 s) as [|p ps]; [done | by exists p, ps].
Qed.

(** Induction along the occurrences of a pattern. *)
Lemma split_str_ind pat (P : string -> list string -> Prop) :
  pat <> "" -> P "" [""] ->
  (forall r ps, split_str pat 0 r = ps -> P r ps -> P (pat +:+ r) ("" :: ps)) ->
  (forall a s p ps, starts_with (String a s) pat = false -> split_str pat 0 s = p :: ps ->
     P s (p :: ps) -> P (String a s) (String a p :: ps)) ->
  forall s, P s (split_str pat 0 s).
Proof.
  intros Hp H0 Hhit Hmiss s. remember (String.length s) as n eqn:Hn.
  revert s Hn. induction (lt_wf n) as [n _ IH]. intros s ->.
  destruct s as [|a s]; [exact H0|].
  destruct (starts_with (String a s) pat) eqn:E.
  - apply starts_with_spec in E as [r Hr]. rewrite Hr, split_str_hit by done.
    apply Hhit; [done|]. eapply IH; [|done]. rewrite Hr, slength_app.
    destruct pat; [done | simpl; lia].
  - destruct (split_str_miss pat a s E) as (p & ps & E1 & ->). apply Hmiss; [done..|].
    rewrite <- E1. eapply IH; [|done]. simpl. lia.
Qed.

Lemma join_split_str pat s : pat <> "" -> str_join pat (split_str pat 0 s) = s.
Proof.
  intros Hp. apply (split_str_ind pat (fun s ps => str_join pat ps = s)); [done..| |].
  - intros r ps Hps <-. rewrite join_cons; [done|]. rewrite <- Hps. apply split_str_ne.
  - intros a t p ps _ _ Hj. destruct ps as [|q ps]; [by subst|].
    rewrite join_cons in * by done. by rewrite <- Hj.
Qed.

Lemma str_contains_app s t p : str_contains s p = true -> str_contains (s +:+ t) p = true.
Proof.
  induction s as [|a s IH]; cbn [str_contains].
  - rewrite orb_false_r. intros H. apply starts_with_spec in H as [r Hr].
    destruct p; [by destruct t | done].
  - rewrite str_append_cons. cbn [str_contains]. intros [H|H]%orb_true_iff; apply orb_true_iff;
      [left | right; auto].
    apply starts_with_spec in H as [r Hr]. apply starts_with_spec. exists (r +:+ t).
    by rewrite <- str_append_cons, Hr, sapp_assoc.
Qed.

Lemma starts_with_mono s t p : starts_with s p = true -> starts_with (s +:+ t) p = true.
Proof.
  intros [r ->]%starts_with_spec. apply starts_with_spec. exists (r +:+ t). by rewrite sapp_assoc.
Qed.

(** No piece of a split contains the pattern. *)
Lemma split_str_clean pat s :
  pat <> "" -> Forall (fun p => str_contains p pat = false) (split_str pat 0 s).
Proof.
  intros Hp. assert (H0 : str_contains "" pat = false) by (by destruct pat).
  apply (split_str_ind pat (fun s ps => Forall (fun p => str_contains p pat = false) ps));
    [done | by repeat constructor | by constructor |].
  intros a t p ps Hs Hsplit [Hpp Hps]%Forall_cons. constructor; [|done].
  cbn [str_contains]. rewrite Hpp, orb_false_r. apply not_true_is_false. intros Hst.
  pose proof (join_split_str pat t Hp) as Hj. rewrite Hsplit in Hj.
  assert (Hpre : exists u, t = p +:+ u).
  { destruct ps as [|q ps]; [exists ""; by rewrite sapp_nil_r|].
    rewrite join_cons in Hj by done. by exists (pat +:+ str_join pat (q :: ps)). }
  destruct Hpre as [u ->]. rewrite <- str_append_cons in Hs.
  by rewrite (starts_with_mono _ u _ Hst) in Hs.
Qed.

Lemma split_first_split pat s :
  pat <> "" ->
  split_first pat s = match split_str pat 0 s with
                      | l :: (_ :: _) as ps => Some (l, str_join pat ps)
                      | _ => None
                      end.
Proof.
  intros Hp. apply (split_str_ind pat (fun s ps => split_first pat s = match ps with
      | l :: (_ :: _) as rest => Some (l, str_join pat rest) | _ => None end)); [done | | |].
  - destruct pat; done.
  - intros r ps Hps _. pose proof (split_str_ne pat 0 r) as Hne. rewrite Hps in Hne.
    destruct ps as [|q ps]; [done|].
    assert (E : strip_prefix pat (pat +:+ r) = Some r) by (by apply strip_prefix_Some).
    replace (split_first pat (pat +:+ r)) with (Some ("", r)).
    + by rewrite <- Hps, join_split_str.
    + destruct (pat +:+ r); simpl; by rewrite E.
  - intros a t p ps Hs Hsplit IH. cbn [split_first]. unfold starts_with in Hs.
    destruct (strip_prefix pat (String a t)); [done|]. rewrite IH. by destruct ps.
Qed.

(** [str::split_whitespace]. *)
Definition push_char (a : ascii) (l : list string) : list string :=
  match l with w :: l' => String a w :: l' | [] => [String a ""] end.
Fixpoint whitespace_pieces (s : string) : list string :=
  match s with
  | "" => [""]
  | String a s1 =>
      if ws1 a then "" :: whitespace_pieces s1
      else match s1 with
           | "" => [String a ""]
           | String b s2 =>
               if ws2 a b then "" :: whitespace_pieces s2
               else match s2 with
                    | "" => push_char a (whitespace_pieces s1)
                    | String c s3 =>
                        if ws3 a b c then "" :: whitespace_pieces s3
                        else push_char a (whitespace_pieces s1)
                    end
           end
  end.
Definition split_whitespace (s : string) : list string :=
  List.filter (fun w => negb (str_is_empty w)) (whitespace_pieces s).

(** [s.chars().take(n)]. *)
Fixpoint take_chars (n : nat) (s : string) : string :=
  match s with
  | "" => ""
  | String a s' =>
      if char_start a then match n with O => "" | S n' => String a (take_chars n' s') end
      else String a (take_chars n s')
  end.

Lemma chars_count_cons a s :
  chars_count (String a s) = ((if char_start a then 1 else 0) + chars_count s)%nat.
Proof. unfold char_start. cbn [chars_count]. by destruct (_ && _). Qed.

Lemma take_chars_count n s : (chars_count (take_chars n s) <= n)%nat.
Proof.
  revert n. induction s as [|a s IH]; intros n; cbn [take_chars]; [simpl; lia|].
  destruct (char_start a) eqn:E.
  - destruct n as [|n]; [simpl; lia|]. rewrite chars_count_cons, E. specialize (IH n). lia.
  - rewrite chars_count_cons, E. apply IH.
Qed.

Lemma take_chars_prefix n s : exists rest, s = take_chars n s +:+ rest.
Proof.
  revert n. induction s as [|a s IH]; intros n; cbn [take_chars]; [by exists ""|].
  destruct (char_start a).
  - destruct n as [|n]; [by exists (String a s)|]. destruct (IH n) as [rest Hr]. exists rest.
    exact (f_equal (String a) Hr).
  - destruct (IH n) as [rest Hr]. exists rest. exact (f_equal (String a) Hr).
Qed.

(** ** Trimming *)

(** Whether a string starts with white space; [rev] for reversed bytes. *)
Definition starts_ws (rev : bool) (s : string) : bool :=
  match s with
  | String a (String b (String c _)) =>
      ws1 a || (if rev then ws2 b a || ws3 c b a else ws2 a b || ws3 a b c)
  | String a (String b "") => ws1 a || (if rev then ws2 b a else ws2 a b)
  | String a "" => ws1 a
  | "" => false
  end.

Lemma string_ind3 (P : string -> Prop) :
  P "" -> (forall a, P (String a "")) -> (forall a b, P (String b "") -> P (String a (String b ""))) ->
  (forall a b c s, P s -> P (String c s) -> P (String b (String c s)) -> P (String a (String b (String c s)))) ->
  forall s, P s.
Proof.
  intros H0 H1 H2 H3 s.
  enough (H : P s /\ (forall a, P (String a s)) /\ (forall a b, P (String a (String b s)))) by tauto.
  induction s as [|c s (IH0 & IH1 & IH2)]; [by split_and!; auto|]. split_and!; [done | intros a; apply IH2|].
  intros a b. by apply H3.
Qed.

Lemma trim_start_clean s : starts_ws false (trim_start s) = false /\ (starts_ws false s = false -> trim_start s = s).
Proof.
  induction s as [|a|a b [IH _]|a b c s [IH0 _] [IH1 _] [IH2 _]] using string_ind3; [done| | |].
  - simpl. destruct (ws1 a) eqn:E; simpl; [done|]. by rewrite E.
  - cbn [trim_start] in *. destruct (ws1 a) eqn:E1; [split; [exact IH | simpl; by rewrite E1]|].
    destruct (ws2 a b) eqn:E2; [simpl; by rewrite E1, E2|]. simpl. by rewrite E1, E2.
  - change (trim_start (String a (String b (String c s)))) with
      (if ws1 a then trim_start (String b (String c s))
       else if ws2 a b then trim_start (String c s)
       else if ws3 a b c then trim_start s else String a (String b (String c s))).
    unfold starts_ws at 2. destruct (ws1 a) eqn:E1; [by split|]. destruct (ws2 a b) eqn:E2; [by split|].
    destruct (ws3 a b c) eqn:E3; [by split|]. split; [|done]. simpl. by rewrite E1, E2, E3.
Qed.

Lemma trim_start_rev_clean s :
  starts_ws true (trim_start_rev s) = false /\ (starts_ws true s = false -> trim_start_rev s = s).
Proof.
  induction s as [|a|a b [IH _]|a b c s [IH0 _] [IH1 _] [IH2 _]] using string_ind3; [done| | |].
  - simpl. destruct (ws1 a) eqn:E; simpl; [done|]. by rewrite E.
  - cbn [trim_start_rev] in *. destruct (ws1 a) eqn:E1; [split; [exact IH | simpl; by rewrite E1]|].
    destruct (ws2 b a) eqn:E2; [simpl; by rewrite E1, E2|]. simpl. by rewrite E1, E2.
  - change (trim_start_rev (String a (String b (String c s)))) with
      (if ws1 a then trim_start_rev (String b (String c s))
       else if ws2 b a then trim_start_rev (String c s)
       else if ws3 c b a then trim_start_rev s else String a (String b (String c s))).
    unfold starts_ws at 2. destruct (ws1 a) eqn:E1; [by split|]. destruct (ws2 b a) eqn:E2; [by split|].
    destruct (ws3 c b a) eqn:E3; [by split|]. split; [|done]. simpl. by rewrite E1, E2, E3.
Qed.

(** A prefix of a string that does not start with white space does not either. *)
Lemma starts_ws_prefix p s : starts_ws false (p +:+ s) = false -> starts_ws false p = false.
Proof.
  destruct p as [|a [|b [|c p]]]; simpl; try done; destruct s as [|d [|e s]]; simpl; try done;
    rewrite ?orb_false_iff; tauto.
Qed.

Lemma trim_start_rev_suffix s : exists p, s = p +:+ trim_start_rev s.
Proof.
  induction s as [|a|a b [p IH]|a b c s [p0 IH0] [p1 IH1] [p2 IH2]] using string_ind3; [by exists ""| | |].
  - simpl. destruct (ws1 a); [by exists (String a "") | by exists ""].
  - cbn [trim_start_rev] in *. destruct (ws1 a); [exists (String a p); exact (f_equal (String a) IH)|].
    destruct (ws2 b a); [by exists (String a (String b "")) | by exists ""].
  - change (trim_start_rev (String a (String b (String c s)))) with
      (if ws1 a then trim_start_rev (String b (String c s))
       else if ws2 b a then trim_start_rev (String c s)
       else if ws3 c b a then trim_start_rev s else String a (String b (String c s))).
    destruct (ws1 a); [exists (String a p2); exact (f_equal (String a) IH2)|].
    destruct (ws2 b a); [exists (String a (String b p1)); exact (f_equal (fun x => String a (String b x)) IH1)|].
    destruct (ws3 c b a); [exists (String a (String b (String c p0))); exact (f_equal (fun x => String a (String b (String c x))) IH0) | by exists ""].
Qed.

Lemma trim_idem s : trim (trim s) = trim s.
Proof.
  unfold trim. set (t := trim_start s).
  assert (Ht : trim_start (trim_end t) = trim_end t).
  { apply trim_start_clean. unfold trim_end. destruct (trim_start_rev_suffix (str_rev t)) as [p Hp].
    apply (f_equal str_rev) in Hp. rewrite str_rev_app, str_rev_involutive in Hp.
    apply (starts_ws_prefix _ (str_rev p)). rewrite <- Hp. apply trim_start_clean. }
  rewrite Ht. unfold trim_end. rewrite str_rev_involutive. f_equal. apply trim_start_rev_clean, trim_start_rev_clean.
Qed.
