(* ===== verification/BTree.v ===== *)
(** * Ordered maps

    [std::collections::BTreeMap] with string keys, for the components that
    iterate over one in key order or nest one in a recursive structure: an
    association list kept in key order.  (Maps whose order is not observed are
    stdpp's [gmap].) *)

From Stdlib Require Import String.
From stdpp Require Import base list strings.
From Stdlib Require Import Lia.
From S2P Require Import Prelude.

Section BTree.
Context {V : Type}.

Definition btree := list (string * V).

Fixpoint bt_get (k : string) (m : btree) : option V :=
  match m with
  | [] => None
  | (k', v) :: m' => if String.eqb k k' then Some v else bt_get k m'
  end.

Fixpoint bt_replace (k : string) (v : V) (m : btree) : btree :=
  match m with
  | [] => []
  | (k', v') :: m' => if String.eqb k k' then (k', v) :: m' else (k', v') :: bt_replace k v m'
  end.

Fixpoint bt_add (k : string) (v : V) (m : btree) : btree :=
  match m with
  | [] => [(k, v)]
  | (k', v') :: m' => if String.ltb k k' then (k, v) :: m else (k', v') :: bt_add k v m'
  end.

(** [BTreeMap::insert]. *)
Definition bt_insert (k : string) (v : V) (m : btree) : btree :=
  match bt_get k m with Some _ => bt_replace k v m | None => bt_add k v m end.

(** [BTreeMap::remove]. *)
Definition bt_remove (k : string) (m : btree) : btree :=
  List.filter (fun p => negb (String.eqb k p.1)) m.

Definition bt_ok (m : btree) : Prop := NoDup m.*1.

Lemma bt_get_replace k k' v m :
  bt_get k' (bt_replace k v m) =
  if String.eqb k' k then (fun _ => v) <$> bt_get k m else bt_get k' m.
Proof.
  induction m as [|[x w] m IH]; simpl; [by destruct (String.eqb k' k)|].
  destruct (String.eqb_spec k x) as [->|Hkx]; simpl.
  - destruct (String.eqb k' x); done.
  - destruct (String.eqb_spec k' x) as [->|]; [|done].
    destruct (String.eqb_spec x k); [congruence | done].
Qed.

Lemma bt_get_add k k' v m :
  bt_get k m = None ->
  bt_get k' (bt_add k v m) = if String.eqb k' k then Some v else bt_get k' m.
Proof.
  induction m as [|[x w] m IH]; simpl; [done|].
  destruct (String.eqb_spec k x) as [|Hkx]; [done|]. intros Hn.
  destruct (String.ltb k x); simpl; [done|].
  destruct (String.eqb_spec k' x) as [->|]; [|by apply IH].
  destruct (String.eqb_spec x k); [congruence | done].
Qed.

Lemma bt_get_insert k k' v m :
  bt_get k' (bt_insert k v m) = if String.eqb k' k then Some v else bt_get k' m.
Proof.
  unfold bt_insert. destruct (bt_get k m) eqn:E; [|by apply bt_get_add].
  rewrite bt_get_replace, E. done.
Qed.

Lemma bt_get_remove k k' m :
  bt_get k' (bt_remove k m) = if String.eqb k' k then None else bt_get k' m.
Proof.
  induction m as [|[x w] m IH]; simpl; [by destruct (String.eqb k' k)|].
  destruct (String.eqb_spec k x) as [->|Hkx]; simpl; rewrite IH.
  - by destruct (String.eqb k' x).
  - destruct (String.eqb_spec k' x) as [->|]; [|done].
    destruct (String.eqb_spec x k); [congruence | done].
Qed.

Lemma bt_get_In k v m : bt_get k m = Some v -> (k, v) ∈ m.
Proof.
  induction m as [|[x w] m IH]; simpl; [done|].
  destruct (String.eqb_spec k x) as [->|]; [intros [= ->]; by left | intros H; right; auto].
Qed.

Lemma bt_In_get k v m : bt_ok m -> (k, v) ∈ m -> bt_get k m = Some v.
Proof.
  unfold bt_ok. induction m as [|[x w] m IH]; simpl; [intros _ H; by inversion H|].
  rewrite NoDup_cons. intros [Hx Hnd] [H|H]%elem_of_cons.
  - injection H as -> ->. by rewrite String.eqb_refl.
  - destruct (String.eqb_spec k x) as [->|]; [|auto]. exfalso. apply Hx.
    apply list_elem_of_fmap. by exists (x, v).
Qed.

Lemma bt_get_None k m : bt_get k m = None -> k ∉ m.*1.
Proof.
  induction m as [|[x w] m IH]; simpl; [intros _ H; by inversion H|].
  destruct (String.eqb_spec k x); [done|]. intros H%IH [|]%elem_of_cons; auto.
Qed.

Lemma bt_add_perm k v m : bt_add k v m ≡ₚ (k, v) :: m.
Proof.
  induction m as [|[x w] m IH]; simpl; [done|]. destruct (String.ltb k x); [done|].
  rewrite IH. apply Permutation_swap.
Qed.

Lemma bt_replace_keys k v m : (bt_replace k v m).*1 = m.*1.
Proof.
  induction m as [|[x w] m IH]; simpl; [done|]. destruct (String.eqb k x); [done | by f_equal/=].
Qed.

Lemma bt_ok_insert k v m : bt_ok m -> bt_ok (bt_insert k v m).
Proof.
  unfold bt_ok, bt_insert. intros H. destruct (bt_get k m) eqn:E; [by rewrite bt_replace_keys|].
  rewrite bt_add_perm. simpl. apply NoDup_cons. split; [by apply bt_get_None | done].
Qed.

Lemma bt_ok_remove k m : bt_ok m -> bt_ok (bt_remove k m).
Proof.
  unfold bt_ok. induction m as [|[x w] m IH]; simpl; [done|]. rewrite NoDup_cons. intros [Hx Hnd].
  destruct (String.eqb k x); simpl; [auto|]. apply NoDup_cons. split; [|auto]. intros Hin. apply Hx.
  apply list_elem_of_fmap in Hin as ([y u] & -> & Hy). apply list_elem_of_In, filter_In in Hy as [Hy _].
  apply list_elem_of_fmap. exists (y, u). split; [done|]. by apply list_elem_of_In.
Qed.

(** Sums over the values. *)
Definition bt_sum (f : V -> nat) (m : btree) : nat := sum_list_with (fun p => f p.2) m.

Lemma bt_sum_insert f k v m :
  (bt_sum f (bt_insert k v m) + from_option f 0 (bt_get k m) = bt_sum f m + f v)%nat.
Proof.
  unfold bt_insert, bt_sum. destruct (bt_get k m) as [w|] eqn:E; simpl.
  - revert E. induction m as [|[x u] m IH]; simpl; [done|].
    destruct (String.eqb k x); simpl; [intros [= ->]; lia | intros E; specialize (IH E); lia].
  - rewrite (bt_add_perm k v m). simpl. lia.
Qed.

Lemma bt_remove_fresh k m : k ∉ m.*1 -> bt_remove k m = m.
Proof.
  induction m as [|[x w] m IH]; simpl; [done|]. rewrite not_elem_of_cons. intros [Hne Hm].
  destruct (String.eqb_spec k x); [done|]. simpl. by rewrite IH.
Qed.

Lemma bt_sum_remove f k m :
  bt_ok m -> (bt_sum f (bt_remove k m) + from_option f 0 (bt_get k m) = bt_sum f m)%nat.
Proof.
  unfold bt_ok, bt_sum. induction m as [|[x w] m IH]; simpl; [done|].
  rewrite NoDup_cons. intros [Hx Hnd]. destruct (String.eqb_spec k x) as [->|]; simpl.
  - fold (bt_remove x m). rewrite bt_remove_fresh by done. lia.
  - specialize (IH Hnd). fold (bt_remove k m). lia.
Qed.

Lemma bt_sum_get f k v m : bt_get k m = Some v -> (f v <= bt_sum f m)%nat.
Proof.
  unfold bt_sum. induction m as [|[x w] m IH]; simpl; [done|].
  destruct (String.eqb k x); [intros [= ->]; lia | intros H%IH; lia].
Qed.

End BTree.
Arguments btree : clear implicits.
