(* ===== verification/Message.v ===== *)
(** * Shared protocol types: messages, tools and token usage

    Models [crates/types/src/id.rs], [message.rs], [tool.rs] and [usage.rs]:
    the transcript data model ([Message], [MessagePart], [ToolCall],
    [ToolResult]), the text projections of a message, tool specifications with
    their model-visibility rules, and the token ledger arithmetic.

    Identifiers are the strings they wrap.  [serde_json::Value] is a third-party
    type: it is the class [SerdeJson], an abstract type with the operations the
    code uses. *)

From Stdlib Require Import Ascii String.
From stdpp Require Import base list gmap strings.
From Stdlib Require Import Lia.
From S2P Require Import Prelude.

(** ** Identifiers ([define_id!], [define_string_identifier!]) *)

Notation EventId := string (only parsing).
Notation EnvelopeId := string (only parsing).
Notation MessageId := string (only parsing).
Notation SessionId := string (only parsing).
Notation AgentSessionId := string (only parsing).
Notation TurnId := string (only parsing).
Notation ToolCallId := string (only parsing).
Notation CallId := string (only parsing).
Notation ResponseId := string (only parsing).
Notation ReasoningId := string (only parsing).
Notation AgentId := string (only parsing).
Notation TaskId := string (only parsing).
Notation CronId := string (only parsing).
Notation MonitorId := string (only parsing).
Notation BrowserId := string (only parsing).
Notation WorktreeId := string (only parsing).
Notation CheckpointId := string (only parsing).
Notation PluginId := string (only parsing).
Notation PluginDriverId := string (only parsing).
Notation HookName := string (only parsing).
Notation McpServerName := string (only parsing).
Notation ToolName := string (only parsing).

(** A [PathBuf] is its sequence of components; ["/"] is the root directory. *)
Notation PathBuf := (list string) (only parsing).

(** ** [serde_json::Value] *)

Class SerdeJson := {
  Value : Type;
  Value_eq_dec :: EqDecision Value;
  (** [Display]: the compact JSON text *)
  value_to_string : Value -> string;
  (** [Value::get] with a string key, [Value::as_str], [Value::pointer] *)
  value_get : Value -> string -> option Value;
  value_as_str : Value -> option string;
  value_pointer : Value -> string -> option Value;
  (** [json!({})] and [Value::default()] *)
  json_empty_object : Value
}.

Section Types.
Context {J : SerdeJson}.

(* crates/types/src/tool.rs, ToolOutputMode *)
Inductive ToolOutputMode :=
| OutputMode_Text
| OutputMode_ContentParts.

(* crates/types/src/tool.rs, ToolKind *)
Inductive ToolKind :=
| ToolKind_Function
| ToolKind_Freeform
| ToolKind_Native.

(* crates/types/src/tool.rs, ToolFreeformFormatKind *)
Inductive ToolFreeformFormatKind :=
| FreeformFormatKind_Grammar.

(* crates/types/src/tool.rs, ToolFreeformFormat *)
Record ToolFreeformFormat := mkToolFreeformFormat {
  freeform_kind : ToolFreeformFormatKind;
  freeform_syntax : string;
  freeform_definition : string
}.

(* crates/types/src/tool.rs, ToolOrigin *)
Inductive ToolOrigin :=
| Origin_Local
| Origin_Mcp (server_name : McpServerName)
| Origin_Provider (provider : string).

(* crates/types/src/tool.rs, ToolSource *)
Inductive ToolSource :=
| Source_Builtin
| Source_Dynamic
| Source_Plugin (plugin : PluginId)
| Source_McpTool (server_name : McpServerName)
| Source_McpResource (server_name : McpServerName)
| Source_ProviderBuiltin (provider : string).

(* crates/types/src/tool.rs, McpTransportKind *)
Inductive McpTransportKind :=
| Transport_Stdio
| Transport_StreamableHttp.

(* crates/types/src/tool.rs, McpToolBoundaryClass *)
Inductive McpToolBoundaryClass :=
| Boundary_LocalProcess
| Boundary_RemoteService.

(* crates/types/src/tool.rs, McpToolBoundary *)
Record McpToolBoundary := mkMcpToolBoundary {
  boundary_transport : McpTransportKind;
  boundary_boundary_class : McpToolBoundaryClass
}.

(* crates/types/src/tool.rs, ToolAvailability *)
Record ToolAvailability := mkToolAvailability {
  avail_feature_flags : list string;
  avail_provider_allowlist : list string;
  avail_model_allowlist : list string;
  avail_role_allowlist : list string;
  avail_hidden_from_model : bool
}.

(* crates/types/src/tool.rs, ToolVisibilityContext *)
Record ToolVisibilityContext := mkToolVisibilityContext {
  vis_provider : option string;
  vis_model : option string;
  vis_role : option string;
  vis_features : gset string
}.

(* crates/types/src/tool.rs, ToolApprovalProfile *)
Record ToolApprovalProfile := mkToolApprovalProfile {
  approval_read_only : bool;
  approval_mutates_state : bool;
  approval_idempotent : option bool;
  approval_open_world : bool;
  approval_needs_network : bool;
  approval_needs_host_escape : bool;
  approval_approval_message : option string
}.

(* crates/types/src/tool.rs, ToolSpec *)
Record ToolSpec := mkToolSpec {
  spec_name : ToolName;
  spec_description : string;
  spec_kind : ToolKind;
  spec_input_schema : option Value;
  spec_freeform_format : option ToolFreeformFormat;
  spec_freeform_availability : option ToolAvailability;
  spec_output_mode : ToolOutputMode;
  spec_output_schema : option Value;
  spec_defer_loading : bool;
  spec_origin : ToolOrigin;
  spec_source : ToolSource;
  spec_aliases : list ToolName;
  spec_supports_parallel_tool_calls : bool;
  spec_availability : ToolAvailability;
  spec_approval : ToolApprovalProfile;
  spec_mcp_boundary : option McpToolBoundary;
  spec_mcp_server_boundaries : gmap McpServerName McpToolBoundary
}.

(* crates/types/src/tool.rs, ToolCall *)
Record ToolCall := mkToolCall {
  call_id : ToolCallId;
  call_call_id : CallId;
  call_tool_name : ToolName;
  call_arguments : Value;
  call_origin : ToolOrigin
}.

(* crates/types/src/tool.rs, ToolContinuation *)
Inductive ToolContinuation :=
| Continuation_FileWindow (snapshot_id : string) (selection_hash : option string) (next_start_line : option nat)
| Continuation_StreamWindow (session_id : string) (stdout_start_char : option nat) (stderr_start_char : option nat)
| Continuation_DocumentWindow (document_id : string) (next_start_index : option nat).

(* crates/types/src/tool.rs, ToolAttachment *)
Record ToolAttachment := mkToolAttachment {
  attach_kind : string;
  attach_name : option string;
  attach_mime_type : option string;
  attach_uri : option string;
  attach_metadata : option Value
}.

(* crates/types/src/message.rs, MessageRole *)
Inductive MessageRole :=
| Role_System
| Role_User
| Role_Assistant
| Role_Tool.

(* crates/types/src/message.rs, ReasoningContent *)
Inductive ReasoningContent :=
| ReasoningContent_Text (text : string) (signature : option string)
| ReasoningContent_Encrypted (value : string)
| ReasoningContent_Redacted (data : string)
| ReasoningContent_Summary (value : string).

(* crates/types/src/message.rs, Reasoning *)
Record Reasoning := mkReasoning {
  reasoning_id : option ReasoningId;
  reasoning_content : list ReasoningContent
}.

(* crates/types/src/message.rs, MessagePart *)
Inductive MessagePart :=
| Part_Text (text : string)
| Part_InlineText (text : string)
| Part_Paste (label : string) (text : string)
| Part_Image (mime_type : string) (data_base64 : string)
| Part_ImageUrl (url : string) (mime_type : option string)
| Part_File (file_name : option string) (mime_type : option string) (data_base64 : option string) (uri : option string)
| Part_Reference (kind : string) (name : option string) (uri : option string) (text : option string)
| Part_ToolCall (call : ToolCall)
| Part_ToolResult (result : ToolResult)
| Part_Reasoning (reasoning : Reasoning)
| Part_Resource (uri : string) (mime_type : option string) (text : option string) (metadata : option Value)
| Part_Json (value : Value)
| Part_ProviderExtension (provider : string) (kind : string) (payload : Value)
(** [ToolResult] and [MessagePart] are mutually recursive. *)
with ToolResult :=
| mkToolResult (id : ToolCallId) (call_id : CallId) (tool_name : ToolName) (parts : list MessagePart) (attachments : list ToolAttachment) (structured_content : option Value) (continuation : option ToolContinuation) (metadata : option Value) (is_error : bool).

Definition result_id (r : ToolResult) : ToolCallId := match r with mkToolResult x _ _ _ _ _ _ _ _ => x end.
Definition result_call_id (r : ToolResult) : CallId := match r with mkToolResult _ x _ _ _ _ _ _ _ => x end.
Definition result_tool_name (r : ToolResult) : ToolName := match r with mkToolResult _ _ x _ _ _ _ _ _ => x end.
Definition result_parts (r : ToolResult) : list MessagePart := match r with mkToolResult _ _ _ x _ _ _ _ _ => x end.
Definition result_attachments (r : ToolResult) : list ToolAttachment := match r with mkToolResult _ _ _ _ x _ _ _ _ => x end.
Definition result_structured_content (r : ToolResult) : option Value := match r with mkToolResult _ _ _ _ _ x _ _ _ => x end.
Definition result_continuation (r : ToolResult) : option ToolContinuation := match r with mkToolResult _ _ _ _ _ _ x _ _ => x end.
Definition result_metadata (r : ToolResult) : option Value := match r with mkToolResult _ _ _ _ _ _ _ x _ => x end.
Definition result_is_error (r : ToolResult) : bool := match r with mkToolResult _ _ _ _ _ _ _ _ x => x end.

(* crates/types/src/message.rs, Message *)
Record Message := mkMessage {
  msg_role : MessageRole;
  msg_parts : list MessagePart;
  msg_name : option string;
  msg_id : MessageId;
  msg_metadata : gmap string Value
}.

(* crates/types/src/usage.rs, TokenUsage *)
Record TokenUsage := mkTokenUsage {
  usage_input_tokens : N;
  usage_output_tokens : N;
  usage_prefill_tokens : N;
  usage_decode_tokens : N;
  usage_cache_read_tokens : N;
  usage_reasoning_tokens : N
}.

(* crates/types/src/usage.rs, ContextWindowUsage *)
Record ContextWindowUsage := mkContextWindowUsage {
  window_used_tokens : nat;
  window_max_tokens : nat
}.

(* crates/types/src/usage.rs, TokenLedgerSnapshot *)
Record TokenLedgerSnapshot := mkTokenLedgerSnapshot {
  ledger_context_window : option ContextWindowUsage;
  ledger_last_usage : option TokenUsage;
  ledger_cumulative_usage : TokenUsage
}.

(* crates/types/src/usage.rs, TokenUsagePhase *)
Inductive TokenUsagePhase :=
| Phase_RequestStarted
| Phase_ResponseCompleted.


(** ** Decidable equality ([#[derive(PartialEq)]]) *)

#[global] Instance ToolOrigin_eq_dec : EqDecision ToolOrigin.
Proof. solve_decision. Defined.
#[global] Instance ToolSource_eq_dec : EqDecision ToolSource.
Proof. solve_decision. Defined.
#[global] Instance McpTransportKind_eq_dec : EqDecision McpTransportKind.
Proof. solve_decision. Defined.
#[global] Instance McpToolBoundaryClass_eq_dec : EqDecision McpToolBoundaryClass.
Proof. solve_decision. Defined.
#[global] Instance ToolCall_eq_dec : EqDecision ToolCall.
Proof. solve_decision. Defined.
#[global] Instance ToolContinuation_eq_dec : EqDecision ToolContinuation.
Proof. solve_decision. Defined.
#[global] Instance ToolAttachment_eq_dec : EqDecision ToolAttachment.
Proof. solve_decision. Defined.
#[global] Instance MessageRole_eq_dec : EqDecision MessageRole.
Proof. solve_decision. Defined.
#[global] Instance ReasoningContent_eq_dec : EqDecision ReasoningContent.
Proof. solve_decision. Defined.
#[global] Instance Reasoning_eq_dec : EqDecision Reasoning.
Proof. solve_decision. Defined.
#[global] Instance TokenUsage_eq_dec : EqDecision TokenUsage.
Proof. solve_decision. Defined.
#[global] Instance ContextWindowUsage_eq_dec : EqDecision ContextWindowUsage.
Proof. solve_decision. Defined.
#[global] Instance TokenLedgerSnapshot_eq_dec : EqDecision TokenLedgerSnapshot.
Proof. solve_decision. Defined.

(** The two mutually recursive types need their own decision procedure. *)
Fixpoint MessagePart_dec (x y : MessagePart) : {x = y} + {x <> y}
with ToolResult_dec (x y : ToolResult) : {x = y} + {x <> y}.
Proof.
  - assert (Sdec : forall a b : string, {a = b} + {a <> b}) by (intros; apply decide, _).
    assert (Odec : forall a b : option string, {a = b} + {a <> b}) by (intros; apply decide, _).
    assert (Vdec : forall a b : Value, {a = b} + {a <> b}) by (intros; apply decide, _).
    assert (OVdec : forall a b : option Value, {a = b} + {a <> b}) by (intros; apply decide, _).
    assert (Cdec : forall a b : ToolCall, {a = b} + {a <> b}) by (intros; apply decide, _).
    assert (Rdec : forall a b : Reasoning, {a = b} + {a <> b}) by (intros; apply decide, _).
    decide equality.
  - assert (Sdec : forall a b : string, {a = b} + {a <> b}) by (intros; apply decide, _).
    assert (Bdec : forall a b : bool, {a = b} + {a <> b}) by (intros; apply decide, _).
    assert (OVdec : forall a b : option Value, {a = b} + {a <> b}) by (intros; apply decide, _).
    assert (OCdec : forall a b : option ToolContinuation, {a = b} + {a <> b})
      by (intros; apply decide, _).
    assert (Adec : forall a b : list ToolAttachment, {a = b} + {a <> b})
      by (intros; apply decide, _).
    assert (Ldec : forall a b : list MessagePart, {a = b} + {a <> b}).
    { fix go 1. intros [|p ps] [|q qs].
      - left; reflexivity.
      - right; discriminate.
      - right; discriminate.
      - destruct (MessagePart_dec p q) as [->|n]; [|right; congruence].
        destruct (go ps qs) as [->|n]; [left; reflexivity | right; congruence]. }
    decide equality.
Defined.

#[global] Instance MessagePart_eq_dec : EqDecision MessagePart := MessagePart_dec.
#[global] Instance ToolResult_eq_dec : EqDecision ToolResult := ToolResult_dec.
#[global] Instance Message_eq_dec : EqDecision Message.
Proof. solve_decision. Defined.

(** ** Text projections of messages ([message.rs]) *)

(* crates/types/src/message.rs, Reasoning::display_text *)
Definition display_text (r : Reasoning) : string :=
  str_join nl (omap (fun item =>
    match item with
    | ReasoningContent_Text text _ => Some text
    | ReasoningContent_Redacted data => Some data
    | ReasoningContent_Summary summary => Some summary
    | ReasoningContent_Encrypted _ => None
    end) (reasoning_content r)).

(** [o.map(|value| format!(" {value}")).unwrap_or_default()]. *)
Definition opt_suffix (o : option string) : string :=
  match o with Some v => " " +:+ v | None => "" end.
(** The same with newlines of the value flattened to spaces. *)
Definition opt_flat_suffix (o : option string) : string :=
  match o with Some v => " " +:+ replace_char newline " " v | None => "" end.

(* crates/types/src/message.rs, file_display_text *)
Definition file_display_text (file_name mime_type uri : option string) : string :=
  "[file:" +:+ default "unnamed" file_name +:+ opt_suffix mime_type +:+ opt_suffix uri +:+ "]".

(* crates/types/src/message.rs, image_url_display_text *)
Definition image_url_display_text (url : string) (mime_type : option string) : string :=
  "[image_url:" +:+ url +:+ opt_suffix mime_type +:+ "]".

(* crates/types/src/message.rs, resource_display_text *)
Definition resource_display_text (uri : string) (mime_type text : option string) : string :=
  "[resource:" +:+ uri +:+ opt_suffix mime_type +:+ opt_flat_suffix text +:+ "]".

(* crates/types/src/message.rs, reference_display_text *)
Definition reference_display_text (kind : string) (name uri text : option string)
    : option string :=
  match text, name, uri with
  | Some text, Some name, _ => Some (name +:+ nl +:+ text)
  | Some text, None, Some uri => Some (uri +:+ nl +:+ text)
  | Some text, None, None => Some text
  | None, Some name, _ => Some name
  | None, None, Some uri => Some uri
  | None, None, None =>
      let kind := trim kind in
      if str_is_empty kind then None else Some ("[" +:+ kind +:+ "]")
  end.

(* crates/types/src/message.rs, reference_operator_text *)
Definition reference_operator_text (kind : string) (name uri text : option string) : string :=
  "[reference:" +:+ kind +:+ opt_suffix name +:+ opt_suffix uri +:+ opt_flat_suffix text +:+ "]".

(* crates/types/src/tool.rs, ToolResult::text_content *)
Definition tool_result_text_content (r : ToolResult) : string :=
  str_join nl (omap (fun part =>
    match part with Part_Text text => Some text | _ => None end) (result_parts r)).

(* crates/types/src/message.rs, message_part_display_text *)
Definition message_part_display_text (part : MessagePart) : option string :=
  match part with
  | Part_Text text | Part_InlineText text => Some text
  | Part_Paste _ text => Some text
  | Part_Reasoning reasoning =>
      let text := display_text reasoning in
      if str_is_empty text then None else Some text
  | Part_Image mime_type _ => Some ("[image:" +:+ mime_type +:+ "]")
  | Part_ImageUrl url mime_type => Some (image_url_display_text url mime_type)
  | Part_File file_name mime_type _ uri => Some (file_display_text file_name mime_type uri)
  | Part_Resource _ _ (Some text) _ => Some text
  | Part_Resource uri _ None _ => Some uri
  | Part_Reference kind name uri text => reference_display_text kind name uri text
  | Part_ToolResult result => Some (tool_result_text_content result)
  | Part_Json _ | Part_ProviderExtension _ _ _ | Part_ToolCall _ => None
  end.

(* crates/types/src/message.rs, message_part_operator_text *)
Definition message_part_operator_text (part : MessagePart) : string :=
  match part with
  | Part_Text text | Part_InlineText text => text
  | Part_Paste _ text => text
  | Part_Reasoning reasoning =>
      let text := display_text reasoning in
      if str_is_empty text then "[reasoning]" else "[reasoning] " +:+ text
  | Part_Image mime_type _ => "[image:" +:+ mime_type +:+ "]"
  | Part_ImageUrl url mime_type => image_url_display_text url mime_type
  | Part_File file_name mime_type _ uri => file_display_text file_name mime_type uri
  | Part_Reference kind name uri text => reference_operator_text kind name uri text
  | Part_ToolCall call => "[tool_call:" +:+ call_tool_name call +:+ "]"
  | Part_ToolResult result =>
      let text := tool_result_text_content result in
      if str_is_empty text then "[tool_result:" +:+ result_tool_name result +:+ "]"
      else "[tool_result:" +:+ result_tool_name result +:+ "] " +:+ text
  | Part_Resource uri mime_type text _ => resource_display_text uri mime_type text
  | Part_Json value => "[json] " +:+ value_to_string value
  | Part_ProviderExtension provider kind _ =>
      "[provider_extension:" +:+ provider +:+ ":" +:+ kind +:+ "]"
  end.

(* crates/types/src/message.rs, message_part_is_inline *)
Definition message_part_is_inline (part : MessagePart) : bool :=
  match part with Part_InlineText _ | Part_Paste _ _ => true | _ => false end.

(** The loop of [join_rendered_message_text]; its state is the text rendered so
    far, [previous_inline] and [has_previous]. *)
Fixpoint join_rendered_loop (rendered : string) (previous_inline has_previous : bool)
    (parts : list (string * bool)) : string :=
  match parts with
  | [] => rendered
  | (text, inline) :: rest =>
      if negb has_previous then join_rendered_loop (rendered +:+ text) inline true rest
      else
        let rendered' :=
          if previous_inline && inline then rendered +:+ text
          else rendered +:+ nl +:+ text in
        join_rendered_loop rendered' inline has_previous rest
  end.

(* crates/types/src/message.rs, join_rendered_message_text *)
Definition join_rendered_message_text (parts : list (string * bool)) : string :=
  join_rendered_loop "" false false parts.

(* crates/types/src/message.rs, message_operator_text *)
Definition message_operator_text (message : Message) : string :=
  join_rendered_message_text
    (map (fun part => (message_part_operator_text part, message_part_is_inline part))
         (msg_parts message)).

(* crates/types/src/message.rs, Message::text_content *)
Definition text_content (message : Message) : string :=
  join_rendered_message_text
    (omap (fun part =>
       match message_part_display_text part with
       | Some text => Some (text, message_part_is_inline part)
       | None => None
       end) (msg_parts message)).

(** ** Constructors.  A fresh identifier is an argument. *)

(* crates/types/src/message.rs, Message::new *)
Definition Message_new (message_id : MessageId) (role : MessageRole) (parts : list MessagePart)
    : Message :=
  mkMessage role parts None message_id ∅.

(* crates/types/src/message.rs, Message::text *)
Definition Message_text (message_id : MessageId) (role : MessageRole) (text : string) : Message :=
  Message_new message_id role [Part_Text text].

(* crates/types/src/message.rs, Message::system *)
Definition Message_system (message_id : MessageId) (text : string) : Message :=
  Message_text message_id Role_System text.
(* crates/types/src/message.rs, Message::user *)
Definition Message_user (message_id : MessageId) (text : string) : Message :=
  Message_text message_id Role_User text.
(* crates/types/src/message.rs, Message::assistant *)
Definition Message_assistant (message_id : MessageId) (text : string) : Message :=
  Message_text message_id Role_Assistant text.
(* crates/types/src/message.rs, Message::assistant_parts *)
Definition Message_assistant_parts (message_id : MessageId) (parts : list MessagePart) : Message :=
  Message_new message_id Role_Assistant parts.

(* crates/types/src/message.rs, Message::with_message_id *)
Definition with_message_id (m : Message) (message_id : MessageId) : Message :=
  mkMessage (msg_role m) (msg_parts m) (msg_name m) message_id (msg_metadata m).

(* crates/types/src/message.rs, Message::tool_result *)
Definition Message_tool_result (message_id : MessageId) (result : ToolResult) : Message :=
  mkMessage Role_Tool [Part_ToolResult result] (Some (result_tool_name result)) message_id ∅.

(* crates/types/src/tool.rs, ToolResult::text *)
Definition ToolResult_text (call_id : CallId) (id : ToolCallId) (tool_name : ToolName)
    (text : string) : ToolResult :=
  mkToolResult id call_id tool_name [Part_Text text] [] None None None false.

(* crates/types/src/tool.rs, ToolResult::error *)
Definition ToolResult_error (call_id : CallId) (id : ToolCallId) (tool_name : ToolName)
    (text : string) : ToolResult :=
  mkToolResult id call_id tool_name [Part_Text text] [] None None None true.

(* crates/types/src/tool.rs, ToolResult::with_call_id *)
Definition with_call_id (r : ToolResult) (call_id : CallId) : ToolResult :=
  match r with
  | mkToolResult id _ tool_name parts attachments structured continuation metadata is_error =>
      mkToolResult id call_id tool_name parts attachments structured continuation metadata is_error
  end.

(** ** Tool visibility ([tool.rs]) *)

(* crates/types/src/tool.rs, normalize_visibility_value *)
Definition normalize_visibility_value (value : option string) : option string :=
  match value with
  | Some value => let v := trim value in if str_is_empty v then None else Some v
  | None => None
  end.

(* crates/types/src/tool.rs, ToolVisibilityContext::with_feature *)
Definition with_feature (c : ToolVisibilityContext) (feature : string) : ToolVisibilityContext :=
  match normalize_visibility_value (Some feature) with
  | Some feature =>
      mkToolVisibilityContext (vis_provider c) (vis_model c) (vis_role c)
        ({[feature]} ∪ vis_features c)
  | None => c
  end.

(* crates/types/src/tool.rs, ToolVisibilityContext::set_feature_enabled *)
Definition set_feature_enabled (c : ToolVisibilityContext) (feature : string) (enabled : bool)
    : ToolVisibilityContext :=
  if negb enabled then
    mkToolVisibilityContext (vis_provider c) (vis_model c) (vis_role c)
      (vis_features c ∖ {[feature]})
  else
    match normalize_visibility_value (Some feature) with
    | Some feature =>
        mkToolVisibilityContext (vis_provider c) (vis_model c) (vis_role c)
          ({[feature]} ∪ vis_features c)
    | None => c
    end.

(* crates/types/src/tool.rs, ToolVisibilityContext::has_feature *)
Definition has_feature (c : ToolVisibilityContext) (feature : string) : bool :=
  bool_decide (feature ∈ vis_features c).

(* crates/types/src/tool.rs, matches_model_allowlist *)
Definition matches_model_allowlist (pattern model : string) : bool :=
  let pattern := trim pattern in
  if str_is_empty pattern then false
  else match strip_suffix "*" pattern with
       | Some prefix => starts_with model prefix
       | None => bool_decide (model = pattern)
       end.

Definition str_in (s : string) (l : list string) : bool :=
  existsb (fun x => bool_decide (x = s)) l.
Definition is_nil {A} (l : list A) : bool := match l with [] => true | _ => false end.

(* crates/types/src/tool.rs, availability_matches_context *)
Definition availability_matches_context (availability : ToolAvailability)
    (context : ToolVisibilityContext) (ignore_hidden : bool) : bool :=
  if negb ignore_hidden && avail_hidden_from_model availability then false
  else if negb (forallb (has_feature context) (avail_feature_flags availability)) then false
  else if negb (is_nil (avail_provider_allowlist availability))
       && match vis_provider context with
          | Some provider =>
              negb (bool_decide (provider = "unknown"))
              && negb (str_in provider (avail_provider_allowlist availability))
          | None => false
          end then false
  else if negb (is_nil (avail_model_allowlist availability))
       && match vis_model context with
          | Some model =>
              negb (existsb (fun allowed => matches_model_allowlist allowed model)
                            (avail_model_allowlist availability))
          | None => false
          end then false
  else if is_nil (avail_role_allowlist availability) then true
  else match vis_role context with
       | Some role => str_in role (avail_role_allowlist availability)
       | None => false
       end.

(* crates/types/src/tool.rs, ToolSpec::is_model_visible *)
Definition is_model_visible (spec : ToolSpec) (context : ToolVisibilityContext) : bool :=
  availability_matches_context (spec_availability spec) context false.

(* crates/types/src/tool.rs, ToolSpec::supports_freeform_transport *)
Definition supports_freeform_transport (spec : ToolSpec) (context : ToolVisibilityContext)
    : bool :=
  match spec_freeform_format spec with
  | None => false
  | Some _ =>
      match spec_kind spec with
      | ToolKind_Freeform => availability_matches_context (spec_availability spec) context false
      | ToolKind_Function =>
          match spec_freeform_availability spec with
          | Some availability => availability_matches_context availability context true
          | None => false
          end
      | ToolKind_Native => false
      end
  end.

(* crates/types/src/tool.rs, ToolSpec::effective_mcp_boundary *)
Definition effective_mcp_boundary (spec : ToolSpec) (call : ToolCall) : option McpToolBoundary :=
  match spec_mcp_boundary spec with
  | Some boundary => Some boundary
  | None =>
      let from_arguments :=
        match value_get (call_arguments call) "server_name" with
        | Some v =>
            match value_as_str v with
            | Some server_name => spec_mcp_server_boundaries spec !! server_name
            | None => None
            end
        | None => None
        end in
      match call_origin call with
      | Origin_Mcp server_name =>
          match spec_mcp_server_boundaries spec !! server_name with
          | Some boundary => Some boundary
          | None => from_arguments
          end
      | _ => from_arguments
      end
  end.

(* crates/types/src/tool.rs, ToolApprovalProfile::default *)
Definition ToolApprovalProfile_default : ToolApprovalProfile :=
  mkToolApprovalProfile false true None true false false None.

(* crates/types/src/tool.rs, ToolApprovalProfile::new *)
Definition ToolApprovalProfile_new (read_only mutates_state : bool) (idempotent : option bool)
    (open_world : bool) : ToolApprovalProfile :=
  mkToolApprovalProfile read_only mutates_state idempotent open_world false false None.

(** ** Token usage ([usage.rs]): saturating [u64] arithmetic *)

Definition TokenUsage_default : TokenUsage := mkTokenUsage 0 0 0 0 0 0.
Definition TokenLedgerSnapshot_default : TokenLedgerSnapshot :=
  mkTokenLedgerSnapshot None None TokenUsage_default.

(* crates/types/src/usage.rs, TokenUsage::from_input_output *)
Definition from_input_output (input output cache_read : N) : TokenUsage :=
  mkTokenUsage input output (saturating_sub input cache_read) output cache_read 0.

(* crates/types/src/usage.rs, TokenUsage::is_zero *)
Definition usage_is_zero (u : TokenUsage) : bool :=
  (usage_input_tokens u =? 0)%N && (usage_output_tokens u =? 0)%N
  && (usage_prefill_tokens u =? 0)%N && (usage_decode_tokens u =? 0)%N
  && (usage_cache_read_tokens u =? 0)%N && (usage_reasoning_tokens u =? 0)%N.

(* crates/types/src/usage.rs, TokenUsage::accumulate *)
Definition accumulate (u other : TokenUsage) : TokenUsage :=
  mkTokenUsage
    (saturating_add (usage_input_tokens u) (usage_input_tokens other))
    (saturating_add (usage_output_tokens u) (usage_output_tokens other))
    (saturating_add (usage_prefill_tokens u) (usage_prefill_tokens other))
    (saturating_add (usage_decode_tokens u) (usage_decode_tokens other))
    (saturating_add (usage_cache_read_tokens u) (usage_cache_read_tokens other))
    (saturating_add (usage_reasoning_tokens u) (usage_reasoning_tokens other)).

(* crates/types/src/usage.rs, TokenUsage::uncached_input_tokens *)
Definition uncached_input_tokens (u : TokenUsage) : N :=
  let derived := saturating_sub (usage_input_tokens u) (usage_cache_read_tokens u) in
  if (usage_prefill_tokens u =? 0)%N && (0 <? derived)%N then derived
  else usage_prefill_tokens u.

(* crates/types/src/usage.rs, TokenUsage::visible_total_tokens *)
Definition visible_total_tokens (u : TokenUsage) : N :=
  saturating_add (uncached_input_tokens u) (usage_output_tokens u).

(* crates/types/src/usage.rs, TokenUsage::visible_decode_tokens *)
Definition visible_decode_tokens (u : TokenUsage) : N :=
  if (usage_decode_tokens u =? 0)%N && (0 <? usage_output_tokens u)%N then usage_output_tokens u
  else usage_decode_tokens u.

(* crates/types/src/usage.rs, TokenUsage::prefix_cache_hit_rate_basis_points *)
Definition prefix_cache_hit_rate_basis_points (u : TokenUsage) : option N :=
  let total := usage_input_tokens u in
  if (total =? 0)%N then None
  else
    let numerator :=
      saturating_add (saturating_mul (usage_cache_read_tokens u) 10000) (total / 2) in
    Some (N.min (numerator / total) u32_max).

End Types.

(** ** Properties of the text projections and of the ledger *)

Section TypesFacts.
Context {J : SerdeJson}.

Lemma join_rendered_loop_app acc b h xs :
  join_rendered_loop acc b h xs = acc +:+ join_rendered_loop "" b h xs.
Proof.
  revert acc b h. induction xs as [|[t i] xs IH]; intros acc b h; cbn -[nl].
  - by rewrite sapp_nil_r.
  - destruct h; cbn -[nl]; [destruct (b && i)|];
      rewrite IH; symmetry; rewrite IH; cbn -[nl]; by rewrite ?sapp_assoc.
Qed.
End TypesFacts.

(** A concrete [SerdeJson]: JSON values as their compact text.  Used by the
    concrete runs that exercise the general theorems. *)
Definition json_text : SerdeJson := {|
  Value := string;
  value_to_string := fun v => v;
  value_get := fun _ _ => None;
  value_as_str := fun v => Some v;
  value_pointer := fun v p => if str_is_empty p then Some v else None;
  json_empty_object := "{}"
|}.
