(* ===== verification/Events.v ===== *)
(** * Hooks and session events

    Models [crates/types/src/hook.rs] and [crates/types/src/event.rs]: hook
    registrations, the effects hooks may return, and the append-only session
    event log with every record it carries.  Constructor and field names are
    the source's with the type's name (or an abbreviation) in front. *)

From Stdlib Require Import Ascii String.
From stdpp Require Import base list gmap strings.
From S2P Require Import Prelude Message.

Section Events.
Context {J : SerdeJson}.

(** ** Hooks ([hook.rs]) *)

(* crates/types/src/hook.rs, HookEvent *)
Inductive HookEvent :=
| HookEvent_SessionStart
| HookEvent_InstructionsLoaded
| HookEvent_UserPromptSubmit
| HookEvent_PreToolUse
| HookEvent_PermissionRequest
| HookEvent_PostToolUse
| HookEvent_PostToolUseFailure
| HookEvent_Notification
| HookEvent_SubagentStart
| HookEvent_SubagentStop
| HookEvent_Stop
| HookEvent_StopFailure
| HookEvent_ConfigChange
| HookEvent_PreCompact
| HookEvent_PostCompact
| HookEvent_SessionEnd
| HookEvent_Elicitation
| HookEvent_ElicitationResult.

(* crates/types/src/hook.rs, HookMatcher *)
Record HookMatcher := mkHookMatcher {
  matcher_pattern : string;
  matcher_field : option string
}.

(* crates/types/src/hook.rs, CommandHookHandler *)
Record CommandHookHandler := mkCommandHookHandler {
  command_hook_command : string;
  command_hook_asynchronous : bool
}.

(* crates/types/src/hook.rs, HttpHookHandler *)
Record HttpHookHandler := mkHttpHookHandler {
  http_hook_url : string;
  http_hook_method : string;
  http_hook_headers : gmap string string
}.

(* crates/types/src/hook.rs, PromptHookHandler *)
Record PromptHookHandler := mkPromptHookHandler {
  prompt_hook_prompt : string
}.

(* crates/types/src/hook.rs, AgentHookHandler *)
Record AgentHookHandler := mkAgentHookHandler {
  agent_hook_prompt : string;
  agent_hook_allowed_tools : list ToolName
}.

(* crates/types/src/hook.rs, WasmHookHandler *)
Record WasmHookHandler := mkWasmHookHandler {
  wasm_hook_module : string;
  wasm_hook_entrypoint : string
}.

(* crates/types/src/hook.rs, HookHandlerKind *)
Inductive HookHandlerKind :=
| HandlerKind_Command
| HandlerKind_Http
| HandlerKind_Prompt
| HandlerKind_Agent
| HandlerKind_Wasm.

(* crates/types/src/hook.rs, HookHandler *)
Inductive HookHandler :=
| Handler_Command (value : CommandHookHandler)
| Handler_Http (value : HttpHookHandler)
| Handler_Prompt (value : PromptHookHandler)
| Handler_Agent (value : AgentHookHandler)
| Handler_Wasm (value : WasmHookHandler).

(* crates/types/src/hook.rs, PermissionDecision *)
Inductive PermissionDecision :=
| Decision_Allow
| Decision_Deny
| Decision_Ask.

(* crates/types/src/hook.rs, PermissionBehavior *)
Inductive PermissionBehavior :=
| Behavior_Allow
| Behavior_Deny.

(* crates/types/src/hook.rs, GateDecision *)
Inductive GateDecision :=
| Gate_Allow
| Gate_Block.

(* crates/types/src/hook.rs, ElicitationAction *)
Inductive ElicitationAction :=
| Elicit_Accept
| Elicit_Decline
| Elicit_Cancel.

(* crates/types/src/hook.rs, HookMutationPermission *)
Inductive HookMutationPermission :=
| Mutation_Deny
| Mutation_Allow
| Mutation_ReviewRequired.

(* crates/types/src/hook.rs, HookHostApiGrant *)
Inductive HookHostApiGrant :=
| HostApi_GetHookContext
| HostApi_EmitHookEffect
| HostApi_Log
| HostApi_ReadFile
| HostApi_WriteFile
| HostApi_ListDir
| HostApi_SpawnMcp
| HostApi_ResolveSkill.

(* crates/types/src/hook.rs, HookEffectPolicy *)
Record HookEffectPolicy := mkHookEffectPolicy {
  effects_message_mutation : HookMutationPermission;
  effects_allow_context_injection : bool;
  effects_allow_instruction_injection : bool;
  effects_allow_tool_arg_rewrite : bool;
  effects_allow_permission_decision : bool;
  effects_allow_gate_decision : bool;
  effects_allow_tui_event_emission : bool
}.

(* crates/types/src/hook.rs, HookNetworkPolicy *)
Inductive HookNetworkPolicy :=
| HookNetwork_Deny
| HookNetwork_Allow
| HookNetwork_AllowDomains (domains : list string).

(* crates/types/src/hook.rs, HookExecutionPolicy *)
Record HookExecutionPolicy := mkHookExecutionPolicy {
  exec_plugin_id : option PluginId;
  exec_plugin_root : option PathBuf;
  exec_read_roots : list PathBuf;
  exec_write_roots : list PathBuf;
  exec_exec_roots : list PathBuf;
  exec_network : HookNetworkPolicy;
  exec_host_api_grants : list HookHostApiGrant;
  exec_effects : HookEffectPolicy
}.

(* crates/types/src/hook.rs, HookRegistration *)
Record HookRegistration := mkHookRegistration {
  hook_name : HookName;
  hook_event : HookEvent;
  hook_matcher : option HookMatcher;
  hook_handler : HookHandler;
  hook_timeout_ms : option N;
  hook_execution : option HookExecutionPolicy
}.

(* crates/types/src/hook.rs, MessageSelector *)
Inductive MessageSelector :=
| Selector_Current
| Selector_MessageId (message_id : MessageId)
| Selector_LastOfRole (role : MessageRole).

(* crates/types/src/hook.rs, MessagePatch *)
Record MessagePatch := mkMessagePatch {
  patch_role : option MessageRole;
  patch_replace_parts : option (list MessagePart);
  patch_append_parts : list MessagePart
}.

(* crates/types/src/hook.rs, HookEffect *)
Inductive HookEffect :=
| Effect_AppendMessage (role : MessageRole) (parts : list MessagePart)
| Effect_ReplaceMessage (selector : MessageSelector) (message : Message)
| Effect_PatchMessage (selector : MessageSelector) (patch : MessagePatch)
| Effect_RemoveMessage (selector : MessageSelector)
| Effect_AddContext (text : string)
| Effect_SetPermissionDecision (decision : PermissionDecision) (reason : option string)
| Effect_SetPermissionBehavior (behavior : PermissionBehavior) (reason : option string)
| Effect_SetGateDecision (decision : GateDecision) (reason : option string)
| Effect_Elicitation (action : ElicitationAction) (content : option string)
| Effect_RewriteToolArgs (tool_name : ToolName) (arguments : Value)
| Effect_InjectInstruction (text : string)
| Effect_ShowToast (variant : string) (message : string)
| Effect_AppendPrompt (text : string) (only_when_empty : bool)
| Effect_Stop (reason : string).

(* crates/types/src/hook.rs, HookResult *)
Record HookResult := mkHookResult {
  hook_result_effects : list HookEffect
}.

(* crates/types/src/hook.rs, HookContext *)
Record HookContext := mkHookContext {
  ctx_event : HookEvent;
  ctx_session_id : SessionId;
  ctx_agent_session_id : AgentSessionId;
  ctx_turn_id : option TurnId;
  ctx_fields : gmap string string;
  ctx_payload : Value
}.

(** ** Status enums and records of the event log ([event.rs]) *)

(* crates/types/src/event.rs, AgentStatus *)
Inductive AgentStatus :=
| AgentStatus_Queued
| AgentStatus_Running
| AgentStatus_WaitingApproval
| AgentStatus_WaitingMessage
| AgentStatus_Completed
| AgentStatus_Failed
| AgentStatus_Cancelled.

(* crates/types/src/event.rs, TaskStatus *)
Inductive TaskStatus :=
| TaskStatus_Open
| TaskStatus_Queued
| TaskStatus_Running
| TaskStatus_WaitingApproval
| TaskStatus_WaitingMessage
| TaskStatus_Completed
| TaskStatus_Failed
| TaskStatus_Cancelled.

(* crates/types/src/event.rs, MonitorStatus *)
Inductive MonitorStatus :=
| MonitorStatus_Running
| MonitorStatus_Completed
| MonitorStatus_Failed
| MonitorStatus_Cancelled.

(* crates/types/src/event.rs, CronStatus *)
Inductive CronStatus :=
| CronStatus_Scheduled
| CronStatus_Completed
| CronStatus_Cancelled
| CronStatus_Failed.

(* crates/types/src/event.rs, BrowserStatus *)
Inductive BrowserStatus :=
| BrowserStatus_Open
| BrowserStatus_Closed
| BrowserStatus_Failed.

(* crates/types/src/event.rs, MonitorStream *)
Inductive MonitorStream :=
| MonitorStream_Stdout
| MonitorStream_Stderr.

(* crates/types/src/event.rs, WorktreeScope *)
Inductive WorktreeScope :=
| WorktreeScope_Session
| WorktreeScope_ChildAgent.

(* crates/types/src/event.rs, WorktreeStatus *)
Inductive WorktreeStatus :=
| WorktreeStatus_Active
| WorktreeStatus_Inactive
| WorktreeStatus_Removed.

(* crates/types/src/event.rs, CheckpointScope *)
Inductive CheckpointScope :=
| CheckpointScope_Code
| CheckpointScope_Conversation
| CheckpointScope_Both.

(* crates/types/src/event.rs, CheckpointRestoreMode *)
Inductive CheckpointRestoreMode :=
| CheckpointRestoreMode_CodeOnly
| CheckpointRestoreMode_ConversationOnly
| CheckpointRestoreMode_Both.

(* crates/types/src/event.rs, TaskOrigin *)
Inductive TaskOrigin :=
| TaskOrigin_UserCreated
| TaskOrigin_AgentCreated
| TaskOrigin_ChildAgentBacked
| TaskOrigin_AutomationBacked.

(* crates/types/src/event.rs, AgentInputDelivery *)
Inductive AgentInputDelivery :=
| AgentInputDelivery_Queue
| AgentInputDelivery_Interrupt.

(* crates/types/src/event.rs, AgentHandle *)
Record AgentHandle := mkAgentHandle {
  AgentHandle_agent_id : AgentId;
  AgentHandle_parent_agent_id : option AgentId;
  AgentHandle_session_id : SessionId;
  AgentHandle_agent_session_id : AgentSessionId;
  AgentHandle_task_id : TaskId;
  AgentHandle_role : string;
  AgentHandle_status : AgentStatus;
  AgentHandle_worktree_id : option WorktreeId;
  AgentHandle_worktree_root : option PathBuf
}.

(* crates/types/src/event.rs, AgentArtifact *)
Record AgentArtifact := mkAgentArtifact {
  AgentArtifact_kind : string;
  AgentArtifact_uri : string;
  AgentArtifact_label : option string;
  AgentArtifact_metadata : option Value
}.

(* crates/types/src/event.rs, AgentTaskSpec *)
Record AgentTaskSpec := mkAgentTaskSpec {
  AgentTaskSpec_task_id : TaskId;
  AgentTaskSpec_role : string;
  AgentTaskSpec_prompt : string;
  AgentTaskSpec_origin : TaskOrigin;
  AgentTaskSpec_steer : option string;
  AgentTaskSpec_allowed_tools : list ToolName;
  AgentTaskSpec_requested_write_set : list string;
  AgentTaskSpec_dependency_ids : list TaskId;
  AgentTaskSpec_timeout_seconds : option N
}.

(* crates/types/src/event.rs, AgentResultEnvelope *)
Record AgentResultEnvelope := mkAgentResultEnvelope {
  AgentResultEnvelope_agent_id : AgentId;
  AgentResultEnvelope_task_id : TaskId;
  AgentResultEnvelope_status : AgentStatus;
  AgentResultEnvelope_summary : string;
  AgentResultEnvelope_text : string;
  AgentResultEnvelope_artifacts : list AgentArtifact;
  AgentResultEnvelope_claimed_files : list string;
  AgentResultEnvelope_structured_payload : option Value
}.

(* crates/types/src/event.rs, MonitorSummaryRecord *)
Record MonitorSummaryRecord := mkMonitorSummaryRecord {
  MonitorSummaryRecord_monitor_id : MonitorId;
  MonitorSummaryRecord_session_id : SessionId;
  MonitorSummaryRecord_agent_session_id : AgentSessionId;
  MonitorSummaryRecord_parent_agent_id : option AgentId;
  MonitorSummaryRecord_task_id : option TaskId;
  MonitorSummaryRecord_command : string;
  MonitorSummaryRecord_cwd : string;
  MonitorSummaryRecord_shell : string;
  MonitorSummaryRecord_login : bool;
  MonitorSummaryRecord_status : MonitorStatus;
  MonitorSummaryRecord_started_at_unix_s : N;
  MonitorSummaryRecord_finished_at_unix_s : option N
}.

(* crates/types/src/event.rs, CronScheduleRecord *)
Inductive CronScheduleRecord :=
| CronSchedule_Once (run_at_unix_s : N)
| CronSchedule_Recurring (interval_seconds : N) (next_run_unix_s : N) (max_runs : option N).

(* crates/types/src/event.rs, CronSummaryRecord *)
Record CronSummaryRecord := mkCronSummaryRecord {
  CronSummaryRecord_cron_id : CronId;
  CronSummaryRecord_session_id : SessionId;
  CronSummaryRecord_agent_session_id : AgentSessionId;
  CronSummaryRecord_parent_agent_id : option AgentId;
  CronSummaryRecord_latest_task_id : option TaskId;
  CronSummaryRecord_role : string;
  CronSummaryRecord_prompt_summary : string;
  CronSummaryRecord_status : CronStatus;
  CronSummaryRecord_schedule : CronScheduleRecord;
  CronSummaryRecord_created_at_unix_s : N;
  CronSummaryRecord_last_run_at_unix_s : option N;
  CronSummaryRecord_run_count : N
}.

(* crates/types/src/event.rs, CronTaskTemplateRecord *)
Record CronTaskTemplateRecord := mkCronTaskTemplateRecord {
  CronTaskTemplateRecord_role : string;
  CronTaskTemplateRecord_prompt : string;
  CronTaskTemplateRecord_steer : option string;
  CronTaskTemplateRecord_allowed_tools : list ToolName;
  CronTaskTemplateRecord_requested_write_set : list string;
  CronTaskTemplateRecord_timeout_seconds : option N;
  CronTaskTemplateRecord_summary : string;
  CronTaskTemplateRecord_task_id_prefix : option string;
  CronTaskTemplateRecord_active_worktree_id : option WorktreeId;
  CronTaskTemplateRecord_worktree_root : option PathBuf
}.

(* crates/types/src/event.rs, BrowserViewportRecord *)
Record BrowserViewportRecord := mkBrowserViewportRecord {
  BrowserViewportRecord_width : N;
  BrowserViewportRecord_height : N
}.

(* crates/types/src/event.rs, BrowserSummaryRecord *)
Record BrowserSummaryRecord := mkBrowserSummaryRecord {
  BrowserSummaryRecord_browser_id : BrowserId;
  BrowserSummaryRecord_session_id : SessionId;
  BrowserSummaryRecord_agent_session_id : AgentSessionId;
  BrowserSummaryRecord_parent_agent_id : option AgentId;
  BrowserSummaryRecord_task_id : option TaskId;
  BrowserSummaryRecord_status : BrowserStatus;
  BrowserSummaryRecord_current_url : string;
  BrowserSummaryRecord_headless : bool;
  BrowserSummaryRecord_title : option string;
  BrowserSummaryRecord_viewport : option BrowserViewportRecord;
  BrowserSummaryRecord_opened_at_unix_s : N;
  BrowserSummaryRecord_updated_at_unix_s : option N;
  BrowserSummaryRecord_closed_at_unix_s : option N
}.

(* crates/types/src/event.rs, WorktreeSummaryRecord *)
Record WorktreeSummaryRecord := mkWorktreeSummaryRecord {
  WorktreeSummaryRecord_worktree_id : WorktreeId;
  WorktreeSummaryRecord_session_id : SessionId;
  WorktreeSummaryRecord_agent_session_id : AgentSessionId;
  WorktreeSummaryRecord_scope : WorktreeScope;
  WorktreeSummaryRecord_status : WorktreeStatus;
  WorktreeSummaryRecord_root : PathBuf;
  WorktreeSummaryRecord_parent_agent_id : option AgentId;
  WorktreeSummaryRecord_task_id : option TaskId;
  WorktreeSummaryRecord_child_agent_id : option AgentId;
  WorktreeSummaryRecord_label : option string;
  WorktreeSummaryRecord_created_at_unix_s : N;
  WorktreeSummaryRecord_updated_at_unix_s : option N
}.

(* crates/types/src/event.rs, CheckpointFileRecord *)
Record CheckpointFileRecord := mkCheckpointFileRecord {
  CheckpointFileRecord_requested_path : string;
  CheckpointFileRecord_resolved_path : PathBuf;
  CheckpointFileRecord_before_text : option string;
  CheckpointFileRecord_after_text : option string
}.

(* crates/types/src/event.rs, CheckpointOrigin *)
Inductive CheckpointOrigin :=
| CheckpointOrigin_FileTool (tool_name : ToolName)
| CheckpointOrigin_Restore (restored_from : CheckpointId) (restore_mode : CheckpointRestoreMode).

(* crates/types/src/event.rs, CheckpointRecord *)
Record CheckpointRecord := mkCheckpointRecord {
  CheckpointRecord_checkpoint_id : CheckpointId;
  CheckpointRecord_session_id : SessionId;
  CheckpointRecord_agent_session_id : AgentSessionId;
  CheckpointRecord_scope : CheckpointScope;
  CheckpointRecord_origin : CheckpointOrigin;
  CheckpointRecord_summary : string;
  CheckpointRecord_created_at_unix_s : N;
  CheckpointRecord_rollback_message_id : option MessageId;
  CheckpointRecord_prompt_message_id : option MessageId;
  CheckpointRecord_changed_files : list CheckpointFileRecord
}.

(* crates/types/src/event.rs, MonitorEventKind *)
Inductive MonitorEventKind :=
| MonitorEventKind_Line (stream : MonitorStream) (text : string)
| MonitorEventKind_StateChanged (status : MonitorStatus)
| MonitorEventKind_Completed (exit_code : Z)
| MonitorEventKind_Failed (exit_code : option Z) (error : option string)
| MonitorEventKind_Cancelled (reason : option string).

(* crates/types/src/event.rs, MonitorEventRecord *)
Record MonitorEventRecord := mkMonitorEventRecord {
  MonitorEventRecord_monitor_id : MonitorId;
  MonitorEventRecord_timestamp_unix_s : N;
  MonitorEventRecord_kind : MonitorEventKind
}.

(* crates/types/src/event.rs, AgentEnvelopeKind *)
Inductive AgentEnvelopeKind :=
| EnvelopeKind_SpawnRequested (task : AgentTaskSpec)
| EnvelopeKind_Started (task : AgentTaskSpec)
| EnvelopeKind_StatusChanged (status : AgentStatus)
| EnvelopeKind_Input (message : Message) (delivery : AgentInputDelivery)
| EnvelopeKind_Artifact (artifact : AgentArtifact)
| EnvelopeKind_ClaimRequested (files : list string)
| EnvelopeKind_ClaimGranted (files : list string)
| EnvelopeKind_ClaimRejected (files : list string) (owner : AgentId)
| EnvelopeKind_Result (result : AgentResultEnvelope)
| EnvelopeKind_Failed (error : string)
| EnvelopeKind_Cancelled (reason : option string)
| EnvelopeKind_Heartbeat.

(* crates/types/src/event.rs, AgentEnvelope *)
Record AgentEnvelope := mkAgentEnvelope {
  AgentEnvelope_envelope_id : EnvelopeId;
  AgentEnvelope_agent_id : AgentId;
  AgentEnvelope_parent_agent_id : option AgentId;
  AgentEnvelope_session_id : SessionId;
  AgentEnvelope_agent_session_id : AgentSessionId;
  AgentEnvelope_timestamp_ms : N;
  AgentEnvelope_kind : AgentEnvelopeKind
}.

(* crates/types/src/event.rs, ProviderContinuation *)
Inductive ProviderContinuation :=
| Continuation_OpenAiResponses (response_id : ResponseId).

(* crates/types/src/event.rs, ModelRequest *)
Record ModelRequest := mkModelRequest {
  request_session_id : SessionId;
  request_agent_session_id : AgentSessionId;
  request_turn_id : TurnId;
  request_instructions : list string;
  request_messages : list Message;
  request_tools : list ToolSpec;
  request_additional_context : list string;
  request_continuation : option ProviderContinuation;
  request_metadata : Value
}.

(* crates/types/src/event.rs, SubmittedPromptAttachmentKind *)
Inductive SubmittedPromptAttachmentKind :=
| Attachment_Paste (text : string)
| Attachment_LocalImage (requested_path : string) (mime_type : option string)
| Attachment_RemoteImage (requested_url : string) (mime_type : option string)
| Attachment_LocalFile (requested_path : string) (file_name : option string) (mime_type : option string)
| Attachment_RemoteFile (requested_url : string) (file_name : option string) (mime_type : option string)
| Attachment_EmbeddedImage (mime_type : option string)
| Attachment_EmbeddedFile (file_name : option string) (mime_type : option string) (uri : option string).

(* crates/types/src/event.rs, SubmittedPromptAttachment *)
Record SubmittedPromptAttachment := mkSubmittedPromptAttachment {
  attachment_placeholder : option string;
  attachment_kind : SubmittedPromptAttachmentKind
}.

(* crates/types/src/event.rs, SubmittedPromptSnapshot *)
Record SubmittedPromptSnapshot := mkSubmittedPromptSnapshot {
  prompt_text : string;
  prompt_attachments : list SubmittedPromptAttachment
}.

(* crates/types/src/event.rs, ModelEvent *)
Inductive ModelEvent :=
| ModelEvent_TextDelta (delta : string)
| ModelEvent_ToolCallRequested (call : ToolCall)
| ModelEvent_ResponseComplete (stop_reason : option string) (message_id : option MessageId) (continuation : option ProviderContinuation) (usage : option TokenUsage) (reasoning : list Reasoning)
| ModelEvent_Error (message : string).

(* crates/types/src/event.rs, ToolLifecycleEventKind *)
Inductive ToolLifecycleEventKind :=
| Lifecycle_Started (call : ToolCall)
| Lifecycle_Completed (call : ToolCall) (output : ToolResult)
| Lifecycle_Failed (call : ToolCall) (error : string)
| Lifecycle_Cancelled (call : ToolCall) (reason : option string).

(* crates/types/src/event.rs, ToolLifecycleEventEnvelope *)
Record ToolLifecycleEventEnvelope := mkToolLifecycleEventEnvelope {
  lifecycle_id : EventId;
  lifecycle_session_id : SessionId;
  lifecycle_agent_session_id : AgentSessionId;
  lifecycle_turn_id : option TurnId;
  lifecycle_tool_call_id : ToolCallId;
  lifecycle_call_id : CallId;
  lifecycle_tool_name : ToolName;
  lifecycle_timestamp_ms : N;
  lifecycle_event : ToolLifecycleEventKind
}.

(* crates/types/src/event.rs, SessionEventKind *)
Inductive SessionEventKind :=
| Ev_SessionStart (reason : option string)
| Ev_InstructionsLoaded (count : nat)
| Ev_SteerApplied (message : string) (reason : option string)
| Ev_UserPromptSubmit (prompt : SubmittedPromptSnapshot)
| Ev_ModelRequestStarted (request : ModelRequest)
| Ev_CompactionCompleted (reason : string) (source_message_count : nat) (retained_message_count : nat) (summary_chars : nat) (summary_message_id : option MessageId) (retained_tail_message_ids : list MessageId)
| Ev_ModelResponseCompleted (assistant_text : string) (tool_calls : list ToolCall) (continuation : option ProviderContinuation)
| Ev_TokenUsageUpdated (phase : TokenUsagePhase) (ledger : TokenLedgerSnapshot)
| Ev_HookInvoked (hook_name : string) (event : HookEvent)
| Ev_HookCompleted (hook_name : string) (event : HookEvent) (output : HookResult)
| Ev_TranscriptMessage (message : Message)
| Ev_TranscriptMessagePatched (message_id : MessageId) (message : Message)
| Ev_TranscriptMessageRemoved (message_id : MessageId)
| Ev_ToolApprovalRequested (call : ToolCall) (reasons : list string)
| Ev_ToolApprovalResolved (call : ToolCall) (approved : bool) (reason : option string)
| Ev_ToolCallStarted (call : ToolCall)
| Ev_ToolCallCompleted (call : ToolCall) (output : ToolResult)
| Ev_ToolCallFailed (call : ToolCall) (error : string)
| Ev_Notification (source : string) (message : string)
| Ev_BrowserOpened (summary : BrowserSummaryRecord)
| Ev_BrowserUpdated (summary : BrowserSummaryRecord)
| Ev_MonitorStarted (summary : MonitorSummaryRecord)
| Ev_WorktreeEntered (summary : WorktreeSummaryRecord)
| Ev_WorktreeUpdated (summary : WorktreeSummaryRecord)
| Ev_CheckpointCreated (checkpoint : CheckpointRecord)
| Ev_CronCreated (summary : CronSummaryRecord) (task_template : CronTaskTemplateRecord)
| Ev_CronUpdated (summary : CronSummaryRecord)
| Ev_MonitorEvent (event : MonitorEventRecord)
| Ev_MonitorUpdated (summary : MonitorSummaryRecord)
| Ev_TaskCreated (task : AgentTaskSpec) (parent_agent_id : option AgentId) (status : TaskStatus) (summary : option string) (worktree_id : option WorktreeId) (worktree_root : option PathBuf)
| Ev_TaskUpdated (task_id : TaskId) (status : TaskStatus) (summary : option string)
| Ev_TaskCompleted (task_id : TaskId) (agent_id : AgentId) (status : TaskStatus)
| Ev_SubagentStart (handle : AgentHandle) (task : AgentTaskSpec)
| Ev_AgentEnvelope (envelope : AgentEnvelope)
| Ev_SubagentStop (handle : AgentHandle) (result : option AgentResultEnvelope) (error : option string)
| Ev_Stop (reason : option string)
| Ev_StopFailure (reason : option string)
| Ev_SessionEnd (reason : option string).

(* crates/types/src/event.rs, SessionEventEnvelope *)
Record SessionEventEnvelope := mkSessionEventEnvelope {
  env_id : EventId;
  env_session_id : SessionId;
  env_agent_session_id : AgentSessionId;
  env_turn_id : option TurnId;
  env_tool_call_id : option ToolCallId;
  env_timestamp_ms : N;
  env_event : SessionEventKind
}.

(** ** Operations *)

(* crates/types/src/hook.rs, HookEvent::default_match_field *)
Definition default_match_field (e : HookEvent) : option string :=
  match e with
  | HookEvent_PreToolUse | HookEvent_PermissionRequest
  | HookEvent_PostToolUse | HookEvent_PostToolUseFailure => Some "tool_name"
  | HookEvent_Elicitation | HookEvent_ElicitationResult => Some "mcp_server_name"
  | HookEvent_SessionStart | HookEvent_InstructionsLoaded | HookEvent_ConfigChange
  | HookEvent_Stop | HookEvent_StopFailure => Some "reason"
  | HookEvent_SubagentStart | HookEvent_SubagentStop => Some "agent_name"
  | HookEvent_Notification => Some "source"
  | HookEvent_UserPromptSubmit | HookEvent_PreCompact
  | HookEvent_PostCompact | HookEvent_SessionEnd => None
  end.

(* crates/types/src/hook.rs, HookHandler::kind *)
Definition handler_kind (h : HookHandler) : HookHandlerKind :=
  match h with
  | Handler_Command _ => HandlerKind_Command
  | Handler_Http _ => HandlerKind_Http
  | Handler_Prompt _ => HandlerKind_Prompt
  | Handler_Agent _ => HandlerKind_Agent
  | Handler_Wasm _ => HandlerKind_Wasm
  end.

(* crates/types/src/event.rs, AgentStatus::is_terminal *)
Definition AgentStatus_is_terminal (s : AgentStatus) : bool :=
  match s with
  | AgentStatus_Completed | AgentStatus_Failed | AgentStatus_Cancelled => true
  | _ => false
  end.

(* crates/types/src/event.rs, TaskStatus::is_terminal *)
Definition TaskStatus_is_terminal (s : TaskStatus) : bool :=
  match s with
  | TaskStatus_Completed | TaskStatus_Failed | TaskStatus_Cancelled => true
  | _ => false
  end.

(* crates/types/src/event.rs, TaskStatus::from *)
Definition TaskStatus_from (s : AgentStatus) : TaskStatus :=
  match s with
  | AgentStatus_Queued => TaskStatus_Queued
  | AgentStatus_Running => TaskStatus_Running
  | AgentStatus_WaitingApproval => TaskStatus_WaitingApproval
  | AgentStatus_WaitingMessage => TaskStatus_WaitingMessage
  | AgentStatus_Completed => TaskStatus_Completed
  | AgentStatus_Failed => TaskStatus_Failed
  | AgentStatus_Cancelled => TaskStatus_Cancelled
  end.

(* crates/types/src/event.rs, SubmittedPromptAttachment::from_message_part *)
Definition from_message_part (part : MessagePart) : option SubmittedPromptAttachment :=
  match part with
  | Part_Paste label text =>
      Some (mkSubmittedPromptAttachment (Some label) (Attachment_Paste text))
  | Part_Image mime_type _ =>
      Some (mkSubmittedPromptAttachment None (Attachment_EmbeddedImage (Some mime_type)))
  | Part_ImageUrl url mime_type =>
      Some (mkSubmittedPromptAttachment None (Attachment_RemoteImage url mime_type))
  | Part_File file_name mime_type _ uri =>
      Some (mkSubmittedPromptAttachment None
        match uri with
        | Some uri =>
            if starts_with uri "http://" || starts_with uri "https://"
            then Attachment_RemoteFile uri file_name mime_type
            else Attachment_LocalFile uri file_name mime_type
        | None => Attachment_EmbeddedFile file_name mime_type None
        end)
  | _ => None
  end.

(** [a.or(b)]. *)
Definition opt_or {A} (a b : option A) : option A :=
  match a with Some _ => a | None => b end.

(* crates/types/src/event.rs, SubmittedPromptAttachment::preview_text *)
Definition attachment_preview_text (a : SubmittedPromptAttachment) : string :=
  match attachment_kind a with
  | Attachment_Paste _ => default "[Paste]" (attachment_placeholder a)
  | Attachment_LocalImage requested_path _ => "image " +:+ requested_path
  | Attachment_RemoteImage requested_url _ => "image " +:+ requested_url
  | Attachment_LocalFile requested_path _ _ => "file " +:+ requested_path
  | Attachment_RemoteFile requested_url _ _ => "file " +:+ requested_url
  | Attachment_EmbeddedImage mime_type => "image " +:+ default "embedded" mime_type
  | Attachment_EmbeddedFile file_name mime_type uri =>
      "file " +:+ default "embedded" (opt_or (opt_or file_name uri) mime_type)
  end.

(* crates/types/src/event.rs, SubmittedPromptSnapshot::from_text *)
Definition snapshot_from_text (text : string) : SubmittedPromptSnapshot :=
  mkSubmittedPromptSnapshot text [].

(* crates/types/src/event.rs, SubmittedPromptSnapshot::from_message *)
Definition snapshot_from_message (message : Message) : SubmittedPromptSnapshot :=
  mkSubmittedPromptSnapshot (text_content message) (omap from_message_part (msg_parts message)).

(** The separator [" · "] of [preview_text]. *)
Definition middle_dot : string := string_of_bytes [32; 194; 183; 32].

(* crates/types/src/event.rs, SubmittedPromptSnapshot::preview_text *)
Definition snapshot_preview_text (s : SubmittedPromptSnapshot) : string :=
  let trimmed := trim (prompt_text s) in
  if negb (str_is_empty trimmed) then trimmed
  else str_join middle_dot (map attachment_preview_text (prompt_attachments s)).

(** The event id and the wall clock are arguments. *)
(* crates/types/src/event.rs, SessionEventEnvelope::new *)
Definition SessionEventEnvelope_new (id : EventId) (timestamp_ms : N) (session_id : SessionId)
    (agent_session_id : AgentSessionId) (turn_id : option TurnId)
    (tool_call_id : option ToolCallId) (event : SessionEventKind) : SessionEventEnvelope :=
  mkSessionEventEnvelope id session_id agent_session_id turn_id tool_call_id timestamp_ms event.

Definition lifecycle_call (k : ToolLifecycleEventKind) : ToolCall :=
  match k with
  | Lifecycle_Started call | Lifecycle_Completed call _
  | Lifecycle_Failed call _ | Lifecycle_Cancelled call _ => call
  end.

(* crates/types/src/event.rs, SessionEventEnvelope::tool_lifecycle_event *)
Definition tool_lifecycle_event (e : SessionEventEnvelope) : option ToolLifecycleEventEnvelope :=
  let lifecycle :=
    match env_event e with
    | Ev_ToolCallStarted call => Some (Lifecycle_Started call)
    | Ev_ToolCallCompleted call output => Some (Lifecycle_Completed call output)
    | Ev_ToolCallFailed call error => Some (Lifecycle_Failed call error)
    | _ => None
    end in
  match lifecycle with
  | None => None
  | Some lifecycle =>
      let call := lifecycle_call lifecycle in
      Some (mkToolLifecycleEventEnvelope (env_id e) (env_session_id e) (env_agent_session_id e)
              (env_turn_id e) (default (call_id call) (env_tool_call_id e)) (call_call_id call)
              (call_tool_name call) (env_timestamp_ms e) lifecycle)
  end.

#[global] Instance HookEvent_eq_dec : EqDecision HookEvent.
Proof. solve_decision. Defined.

End Events.
