(* ===== verification/LoopDetection.v ===== *)
(** * Tool loop detection

    Models [crates/runtime/src/loop_detection/]: the bounded history of tool
    call fingerprints with their outcomes, and the three signals computed from
    it ([same_pattern_no_progress_signal], [ping_pong_signal],
    [global_circuit_breaker_signal]).  [inspect] is stateful: it remembers the
    pattern it last warned about.  A [VecDeque] is a list, front first. *)

From Stdlib Require Import Ascii String.
From stdpp Require Import base list gmap strings.
From Stdlib Require Import Lia.
From S2P Require Import Prelude Message.

Section LoopDetection.
Context {J : SerdeJson}.

(* crates/runtime/src/loop_detection/types.rs, LoopDetectionConfig *)
Record LoopDetectionConfig := mkLoopDetectionConfig {
  enabled : bool;
  history_size : nat;
  warning_threshold : nat;
  critical_threshold : nat;
  global_circuit_breaker_threshold : nat
}.

(* crates/runtime/src/loop_detection/types.rs, LoopDetectionConfig::default *)
Definition LoopDetectionConfig_default : LoopDetectionConfig :=
  mkLoopDetectionConfig false 24 4 6 10.

(* crates/runtime/src/loop_detection/types.rs, LoopSignalSeverity *)
Inductive LoopSignalSeverity := Severity_Warning | Severity_Critical.

(* crates/runtime/src/loop_detection/types.rs, LoopSignal *)
Record LoopSignal := mkLoopSignal { severity : LoopSignalSeverity; reason : string }.

(* crates/runtime/src/loop_detection/types.rs, ToolLoopEntry *)
Record ToolLoopEntry := mkToolLoopEntry { pattern : string; outcome : string }.

(* crates/runtime/src/loop_detection/detector.rs, ToolLoopDetector *)
Record ToolLoopDetector := mkToolLoopDetector {
  config : LoopDetectionConfig;
  history : list ToolLoopEntry;
  last_warning_pattern : option string
}.

(* crates/runtime/src/loop_detection/pattern.rs, fingerprint_call *)
Definition fingerprint_call (call : ToolCall) : string :=
  call_tool_name call +:+ nl +:+ value_to_string (call_arguments call).

(* crates/runtime/src/loop_detection/pattern.rs, tool_name_from_pattern *)
Definition tool_name_from_pattern (pattern : string) : string :=
  match split_once newline pattern with Some (name, _) => name | None => pattern end.

(* crates/runtime/src/loop_detection/detector.rs, ToolLoopDetector::new *)
Definition ToolLoopDetector_new (config : LoopDetectionConfig) : ToolLoopDetector :=
  mkToolLoopDetector config [] None.

(** [while history.len() > cap { history.pop_front() }]. *)
Fixpoint pop_front_above (cap : nat) (h : list ToolLoopEntry) : list ToolLoopEntry :=
  match h with
  | [] => []
  | _ :: h' => if cap <? length h then pop_front_above cap h' else h
  end%nat.

(* crates/runtime/src/loop_detection/detector.rs, ToolLoopDetector::record_entry *)
Definition record_entry (d : ToolLoopDetector) (entry : ToolLoopEntry) : ToolLoopDetector :=
  let warned :=
    match last_warning_pattern d with
    | Some p => if bool_decide (p <> pattern entry) then None else Some p
    | None => None
    end in
  mkToolLoopDetector (config d)
    (pop_front_above (Nat.max (history_size (config d)) 1) (history d ++ [entry])) warned.

(* crates/runtime/src/loop_detection/detector.rs, ToolLoopDetector::record_result *)
Definition record_result (d : ToolLoopDetector) (call : ToolCall) (result : ToolResult)
    : ToolLoopDetector :=
  let outcome :=
    if result_is_error result then "error:" +:+ tool_result_text_content result
    else "ok:" +:+ tool_result_text_content result in
  record_entry d (mkToolLoopEntry (fingerprint_call call) outcome).

(* crates/runtime/src/loop_detection/detector.rs, ToolLoopDetector::record_error *)
Definition record_error (d : ToolLoopDetector) (call : ToolCall) (error : string)
    : ToolLoopDetector :=
  record_entry d (mkToolLoopEntry (fingerprint_call call) ("error:" +:+ error)).

(* crates/runtime/src/loop_detection/detector.rs, ToolLoopDetector::reset *)
Definition detector_reset (d : ToolLoopDetector) : ToolLoopDetector :=
  mkToolLoopDetector (config d) [] None.

(** [iter.take_while(f)]. *)
Fixpoint take_while {A} (f : A -> bool) (l : list A) : list A :=
  match l with [] => [] | x :: l' => if f x then x :: take_while f l' else [] end.

(** [windows(2).all(|pair| pair[0].outcome == pair[1].outcome)]. *)
Fixpoint adjacent_outcomes_equal (l : list ToolLoopEntry) : bool :=
  match l with
  | a :: ((b :: _) as l') => bool_decide (outcome a = outcome b) && adjacent_outcomes_equal l'
  | _ => true
  end.

Definition has_pattern (p : string) (e : ToolLoopEntry) : bool := bool_decide (pattern e = p).

Definition set_last_warning (d : ToolLoopDetector) (p : string) : ToolLoopDetector :=
  mkToolLoopDetector (config d) (history d) (Some p).

Definition streak_of (d : ToolLoopDetector) (p : string) : list ToolLoopEntry :=
  take_while (has_pattern p) (rev (history d)).

(* crates/runtime/src/loop_detection/detector.rs, ToolLoopDetector::same_pattern_no_progress_signal *)
Definition same_pattern_no_progress_signal (d : ToolLoopDetector) (p : string)
    : option LoopSignal * ToolLoopDetector :=
  let streak := streak_of d p in
  if is_nil streak then (None, d)
  else
    let attempts := (length streak + 1)%nat in
    let unchanged := adjacent_outcomes_equal streak in
    let reason :=
      if unchanged then
        "repeating " +:+ bt +:+ tool_name_from_pattern p +:+ bt +:+ " with unchanged outcomes for "
          +:+ fmt_nat attempts +:+ " consecutive attempts"
      else
        "repeating " +:+ bt +:+ tool_name_from_pattern p +:+ bt +:+ " with the same arguments for "
          +:+ fmt_nat attempts +:+ " consecutive attempts" in
    if (critical_threshold (config d) <=? attempts)%nat then
      (Some (mkLoopSignal Severity_Critical reason), set_last_warning d p)
    else if (warning_threshold (config d) <=? attempts)%nat
            && bool_decide (last_warning_pattern d <> Some p) then
      (Some (mkLoopSignal Severity_Warning reason), set_last_warning d p)
    else (None, d).

(** The [for] loop of [ping_pong_signal] over the history, newest first: how
    many entries follow the alternation that starts with [expected]. *)
Fixpoint alternate_length (last next expected : string) (l : list ToolLoopEntry) : nat :=
  match l with
  | [] => 0
  | entry :: l' =>
      if bool_decide (pattern entry <> expected) then 0
      else S (alternate_length last next
                (if bool_decide (expected = next) then last else next) l')
  end.

(* crates/runtime/src/loop_detection/detector.rs, ToolLoopDetector::ping_pong_signal *)
Definition ping_pong_signal (d : ToolLoopDetector) (next_pattern : string) : option LoopSignal :=
  match rev (history d) with
  | [] => None
  | last :: _ =>
      if bool_decide (pattern last = next_pattern) then None
      else
        let attempts :=
          (alternate_length (pattern last) next_pattern (pattern last) (rev (history d)) + 1)%nat in
        if (attempts <? warning_threshold (config d))%nat then None
        else
          let reason :=
            "alternating between repeated tool call patterns involving " +:+ bt
              +:+ tool_name_from_pattern next_pattern +:+ bt +:+ " for "
              +:+ fmt_nat attempts +:+ " attempts" in
          let sev :=
            if (critical_threshold (config d) <=? attempts)%nat
            then Severity_Critical else Severity_Warning in
          Some (mkLoopSignal sev reason)
  end.

(* crates/runtime/src/loop_detection/detector.rs, ToolLoopDetector::global_circuit_breaker_signal *)
Definition global_circuit_breaker_signal (d : ToolLoopDetector) : option LoopSignal :=
  let threshold := Nat.max (global_circuit_breaker_threshold (config d)) 1 in
  if (length (history d) + 1 <? threshold)%nat then None
  else
    match take (threshold - 1) (rev (history d)) with
    | [] => None
    | first :: rest =>
        if forallb (fun e => bool_decide (outcome e = outcome first)) (first :: rest) then
          Some (mkLoopSignal Severity_Critical
            ("recent tool activity produced the same outcome " +:+ fmt_nat threshold
               +:+ " times in a row"))
        else None
    end.

(* crates/runtime/src/loop_detection/detector.rs, ToolLoopDetector::inspect *)
Definition inspect (d : ToolLoopDetector) (call : ToolCall)
    : option LoopSignal * ToolLoopDetector :=
  if negb (enabled (config d)) then (None, d)
  else
    let p := fingerprint_call call in
    match same_pattern_no_progress_signal d p with
    | (Some signal, d') => (Some signal, d')
    | (None, d') =>
        match ping_pong_signal d' p with
        | Some signal => (Some signal, d')
        | None => (global_circuit_breaker_signal d', d')
        end
    end.

#[global] Instance LoopSignalSeverity_eq_dec : EqDecision LoopSignalSeverity.
Proof. solve_decision. Defined.

(** ** The detector as a state machine *)

Inductive detector_step : ToolLoopDetector -> ToolLoopDetector -> Prop :=
| step_record_result d call result : detector_step d (record_result d call result)
| step_record_error d call error : detector_step d (record_error d call error)
| step_inspect d call : detector_step d (snd (inspect d call))
| step_reset d : detector_step d (detector_reset d).

(** What holds of every reachable detector: the history respects the
    configured bound and a remembered warning belongs to the newest entry. *)
Definition detector_inv (d : ToolLoopDetector) : Prop :=
  (length (history d) <= Nat.max (history_size (config d)) 1)%nat
  /\ (forall p, last_warning_pattern d = Some p ->
        exists e, last (history d) = Some e /\ pattern e = p).

(** ** Lemmas *)

Lemma pop_front_above_length cap h : (length (pop_front_above cap h) <= cap)%nat.
Proof.
  induction h as [|e h IH]; simpl; [lia|].
  destruct (Nat.ltb_spec cap (S (length h))); [done|]. simpl. lia.
Qed.

Lemma pop_front_above_suffix cap h : exists dropped, h = dropped ++ pop_front_above cap h.
Proof.
  induction h as [|e h [k IH]]; simpl; [by exists []|].
  destruct (cap <? S (length h))%nat; [exists (e :: k) | by exists []].
  simpl. by rewrite <- IH.
Qed.

Lemma pop_front_above_last cap h e :
  (1 <= cap)%nat -> last (pop_front_above cap (h ++ [e])) = Some e.
Proof.
  intros Hcap. induction h as [|x h IH]; simpl.
  - destruct (Nat.ltb_spec cap 1); [lia | done].
  - destruct (cap <? S (length (h ++ [e])))%nat; [done|].
    by rewrite app_comm_cons, last_snoc.
Qed.

Lemma take_while_forall {A} (f : A -> bool) l : forallb f (take_while f l) = true.
Proof. induction l as [|x l IH]; simpl; [done|]. destruct (f x) eqn:E; simpl; [by rewrite E | done]. Qed.

Lemma take_while_ge {A} (f : A -> bool) k l :
  (k <= length l)%nat -> forallb f (take k l) = true -> (k <= length (take_while f l))%nat.
Proof.
  revert l. induction k as [|k IH]; intros [|x l] Hl Hf; simpl in *; try lia.
  apply andb_true_iff in Hf as [-> Hf]. simpl. apply le_n_S, IH; [lia | done].
Qed.

Lemma streak_nonempty_last d p :
  is_nil (streak_of d p) = false -> exists e, last (history d) = Some e /\ pattern e = p.
Proof.
  unfold streak_of. destruct (history d) as [|x h _] using rev_ind; [done|].
  rewrite rev_app_distr, last_snoc. simpl. unfold has_pattern.
  case_bool_decide; [intros _; by exists x | done].
Qed.

Lemma detector_config_step d d' : detector_step d d' -> config d' = config d.
Proof.
  destruct 1; try done. unfold inspect.
  destruct (negb _); [done|]. unfold same_pattern_no_progress_signal.
  crush_match.
Qed.

Lemma same_pattern_state d p d' o :
  same_pattern_no_progress_signal d p = (o, d') ->
  d' = d \/ (d' = set_last_warning d p /\ is_nil (streak_of d p) = false).
Proof.
  unfold same_pattern_no_progress_signal. intros H.
  destruct (is_nil (streak_of d p)); [left; congruence|]. crush_match; auto.
Qed.

Lemma record_entry_inv d e : detector_inv (record_entry d e).
Proof.
  split; simpl; [apply pop_front_above_length|].
  intros p Hp. exists e. split; [apply pop_front_above_last; lia|].
  destruct (last_warning_pattern d) as [q|]; [|done].
  case_bool_decide as Hq; [done|]. injection Hp as ->. by destruct (decide (p = pattern e)).
Qed.

Lemma inspect_inv d call : detector_inv d -> detector_inv (snd (inspect d call)).
Proof.
  intros [Hlen Hwarn]. unfold inspect. destruct (negb _); [done|].
  destruct (same_pattern_no_progress_signal d (fingerprint_call call)) as [o d'] eqn:E.
  assert (detector_inv d').
  { apply same_pattern_state in E as [-> | [-> Hs]]; [done|].
    split; [done|]. simpl. intros p [= <-]. by apply streak_nonempty_last. }
  crush_match.
Qed.

Lemma detector_step_inv d d' : detector_step d d' -> detector_inv d -> detector_inv d'.
Proof.
  destruct 1; intros Hinv; try apply record_entry_inv; [by apply inspect_inv|].
  split; simpl; [lia | done].
Qed.

Lemma detector_new_inv c : detector_inv (ToolLoopDetector_new c).
Proof. split; simpl; [lia | done]. Qed.

(** Trailing repetitions of a pattern in the history. *)
Lemma streak_of_replicate d p k pre es :
  history d = pre ++ es -> length es = k -> Forall (fun e => pattern e = p) es ->
  (k <= length (streak_of d p))%nat.
Proof.
  intros Hh Hk Hes. unfold streak_of. rewrite Hh, rev_app_distr. apply take_while_ge.
  - rewrite length_app, length_rev. lia.
  - rewrite take_app_length'; [|by rewrite length_rev].
    apply forallb_forall. intros e He%in_rev. apply list_elem_of_In in He.
    rewrite Forall_forall in Hes. by apply bool_decide_eq_true, Hes.
Qed.

Lemma same_pattern_critical d p :
  (1 <= length (streak_of d p))%nat ->
  (critical_threshold (config d) <= length (streak_of d p) + 1)%nat ->
  exists r, same_pattern_no_progress_signal d p
            = (Some (mkLoopSignal Severity_Critical r), set_last_warning d p).
Proof.
  intros H1 H2. unfold same_pattern_no_progress_signal.
  destruct (streak_of d p) as [|e l] eqn:E; [simpl in H1; lia|]. simpl is_nil.
  destruct (Nat.leb_spec (critical_threshold (config d)) (length (e :: l) + 1)); [|lia].
  by eexists.
Qed.

Lemma inspect_critical d call :
  enabled (config d) = true ->
  (1 <= length (streak_of d (fingerprint_call call)))%nat ->
  (critical_threshold (config d) <= length (streak_of d (fingerprint_call call)) + 1)%nat ->
  exists r, inspect d call
            = (Some (mkLoopSignal Severity_Critical r), set_last_warning d (fingerprint_call call)).
Proof.
  intros He H1 H2. unfold inspect. rewrite He. simpl.
  destruct (same_pattern_critical d (fingerprint_call call) H1 H2) as [r ->]. by exists r.
Qed.

(** Recording the same call [n] times leaves at least
    [min n (max history_size 1)] matching entries at the end of the history. *)
Lemma iter_record_entry d e n :
  exists pre k, history (Nat.iter n (fun d => record_entry d e) d) = pre ++ replicate k e
    /\ k = Nat.min n (Nat.max (history_size (config d)) 1)
    /\ config (Nat.iter n (fun d => record_entry d e) d) = config d.
Proof.
  induction n as [|n (pre & k & Hh & Hk & Hc)]; simpl.
  { exists (history d), 0%nat. by rewrite app_nil_r. }
  rewrite Hc, Hh, <- app_assoc, <- replicate_cons_app.
  set (cap := Nat.max (history_size (config d)) 1) in *.
  destruct (pop_front_above_suffix cap (pre ++ replicate (S k) e)) as [dr Hdr].
  assert (Hl := pop_front_above_length cap (pre ++ replicate (S k) e)).
  set (q := pop_front_above cap (pre ++ replicate (S k) e)) in *.
  assert (Hq : (Nat.min (S n) cap <= length q)%nat).
  { unfold q. clear -Hk. assert (Hlen : (Nat.min (S n) cap <= length (pre ++ replicate (S k) e))%nat)
      by (rewrite length_app, (length_replicate (S k) e); lia).
    revert Hlen. generalize (pre ++ replicate (S k) e) as l. intros l. induction l as [|x l IH]; simpl; [done|].
    intros Hlen. destruct (Nat.ltb_spec cap (S (length l))); [apply IH; lia | simpl; lia]. }
  set (m := Nat.min (S n) cap) in *.
  exists (take (length q - m) q), m. split; [|done].
  transitivity (take (length q - m) q ++ drop (length q - m) q); [by rewrite take_drop|].
  f_equal.
  apply list_eq_same_length with m; [apply length_replicate | rewrite length_drop; lia |].
  intros i x y Hi Hx Hy. apply lookup_replicate in Hy as [-> _].
  rewrite lookup_drop in Hx.
  assert (Hx' : (pre ++ replicate (S k) e) !! (length dr + (length q - m + i))%nat = Some x).
  { rewrite Hdr. rewrite lookup_app_r by lia. by replace (length dr + (length q - m + i) - length dr)%nat with (length q - m + i)%nat by lia. }
  assert (Hlen : length (pre ++ replicate (S k) e) = (length dr + length q)%nat)
    by (rewrite Hdr at 1; by rewrite length_app).
  rewrite length_app, length_replicate in Hlen.
  rewrite lookup_app_r in Hx' by lia. by apply lookup_replicate in Hx' as [-> _].
Qed.

Lemma alternate_length_fresh last next l :
  (forall e, In e l -> pattern e <> next) -> next <> last ->
  (alternate_length last next next l = 0)%nat.
Proof.
  intros Hl Hne. destruct l as [|e l]; simpl; [done|].
  rewrite bool_decide_eq_true_2; [done|]. apply Hl. by left.
Qed.

(** ** Properties *)

(** In every state the detector can reach, the history never exceeds
    [max(history_size, 1)] entries, and a remembered warning pattern is the
    pattern of the newest entry. *)
Theorem detector_reachable_inv c d :
  rtc detector_step (ToolLoopDetector_new c) d -> detector_inv d.
Proof.
  intros H. assert (Hi := detector_new_inv c). revert Hi.
  induction H as [|x y z Hs _ IH]; [done|]. intros Hx. apply IH.
  by apply (detector_step_inv x).
Qed.

(** A call repeated with the same result is blocked: once the call was
    recorded [n >= 1] times in a row and the recorded run that the bounded
    history can hold reaches [critical_threshold - 1], inspecting the call
    again is [Critical], and so is every further inspection, because a blocked
    call is not recorded. *)
Theorem repeated_call_is_blocked d call result n :
  enabled (config d) = true ->
  (1 <= n)%nat ->
  (critical_threshold (config d) <= Nat.min n (Nat.max (history_size (config d)) 1) + 1)%nat ->
  let d1 := Nat.iter n (fun d => record_result d call result) d in
  exists r1 d2 r2,
    inspect d1 call = (Some (mkLoopSignal Severity_Critical r1), d2)
    /\ inspect d2 call = (Some (mkLoopSignal Severity_Critical r2), d2).
Proof.
  intros He Hn Hc d1.
  set (e := mkToolLoopEntry (fingerprint_call call)
              (if result_is_error result then "error:" +:+ tool_result_text_content result
               else "ok:" +:+ tool_result_text_content result)).
  destruct (iter_record_entry d e n) as (pre & k & Hh & Hk & Hcfg).
  assert (Hs : (k <= length (streak_of d1 (fingerprint_call call)))%nat).
  { eapply streak_of_replicate; [exact Hh | by rewrite length_replicate|].
    apply Forall_replicate. done. }
  change (config d1 = config d) in Hcfg.
  destruct (inspect_critical d1 call) as [r1 E1]; rewrite ?Hcfg; [done | lia | lia |].
  destruct (inspect_critical (set_last_warning d1 (fingerprint_call call)) call) as [r2 E2].
  { simpl. by rewrite Hcfg. }
  { change (streak_of (set_last_warning d1 (fingerprint_call call)) (fingerprint_call call))
      with (streak_of d1 (fingerprint_call call)). lia. }
  { change (streak_of (set_last_warning d1 (fingerprint_call call)) (fingerprint_call call))
      with (streak_of d1 (fingerprint_call call)). simpl. rewrite Hcfg. lia. }
  by exists r1, (set_last_warning d1 (fingerprint_call call)), r2.
Qed.

(** No false alarm on progress: a call whose fingerprint does not occur in
    the history raises no signal and leaves the detector unchanged, provided the
    warning threshold is above 2 and the circuit breaker does not see
    [threshold - 1] equal outcomes. *)
Theorem fresh_call_not_flagged d call :
  (forall e, In e (history d) -> pattern e <> fingerprint_call call) ->
  (2 < warning_threshold (config d))%nat ->
  global_circuit_breaker_signal d = None ->
  inspect d call = (None, d).
Proof.
  intros Hfresh Hw Hg. unfold inspect. destruct (negb _); [done|].
  assert (Hs : streak_of d (fingerprint_call call) = []).
  { unfold streak_of. destruct (rev (history d)) as [|e l] eqn:E; [done|]. simpl.
    unfold has_pattern. rewrite bool_decide_eq_false_2; [done|].
    apply Hfresh, in_rev. rewrite E. by left. }
  unfold same_pattern_no_progress_signal. rewrite Hs. simpl is_nil. cbv iota.
  assert (Hp : ping_pong_signal d (fingerprint_call call) = None); [|by rewrite Hp, Hg].
  unfold ping_pong_signal. destruct (rev (history d)) as [|e l] eqn:E; [done|].
  assert (Hel : forall x, In x (e :: l) -> pattern x <> fingerprint_call call).
  { intros x Hx. apply Hfresh, in_rev. by rewrite E. }
  rewrite bool_decide_eq_false_2 by (apply Hel; by left). simpl.
  rewrite !bool_decide_eq_false_2; [| by apply Hel; left | by intros H; apply H].
  rewrite alternate_length_fresh; [| intros x Hx; apply Hel; by right | intros Hc].
  - destruct (Nat.ltb_spec (1 + 1) (warning_threshold (config d))); [done | lia].
  - apply (Hel e); [by left | done].
Qed.

End LoopDetection.

(** ** Concrete runs *)

Section Witnesses.
#[local] Existing Instance json_text.

Definition read_call : ToolCall := mkToolCall "id-1" "call-1" "read" "{}" Origin_Local.
Definition same_result : ToolResult := ToolResult_text "call-1" "id-1" "read" "same".
Definition strict_config : LoopDetectionConfig := mkLoopDetectionConfig true 24 3 4 10.

Lemma detector_reachable_inv_witness :
  detector_inv (record_result (ToolLoopDetector_new strict_config) read_call same_result).
Proof.
  apply (detector_reachable_inv strict_config). apply rtc_once. constructor.
Defined.

Lemma repeated_call_is_blocked_witness :
  exists r1 d2 r2,
    inspect (Nat.iter 3 (fun d => record_result d read_call same_result)
               (ToolLoopDetector_new strict_config)) read_call
      = (Some (mkLoopSignal Severity_Critical r1), d2)
    /\ inspect d2 read_call = (Some (mkLoopSignal Severity_Critical r2), d2).
Proof.
  apply (repeated_call_is_blocked (ToolLoopDetector_new strict_config) read_call same_result 3);
    [reflexivity | lia | simpl; lia].
Defined.

Lemma fresh_call_not_flagged_witness :
  inspect (record_result (ToolLoopDetector_new strict_config) read_call same_result)
    (mkToolCall "id-2" "call-2" "glob" "{}" Origin_Local)
  = (None, record_result (ToolLoopDetector_new strict_config) read_call same_result).
Proof.
  apply fresh_call_not_flagged; [| simpl; lia | reflexivity].
  intros e [<- | []]. discriminate.
Defined.

End Witnesses.
