(* ===== verification/ControlPlane.v ===== *)
(** * The runtime control plane

    Models [crates/runtime/src/control.rs]: the operator-visible queue of
    pending prompts and steers.  The [VecDeque] behind the mutex is a list,
    front first; every method takes the lock once, so a history of the shared
    queue is a sequence of whole operations ([cp_step]).  The opaque id of a new
    command is an argument of the operation that creates it. *)

From Stdlib Require Import String.
From stdpp Require Import base list sets strings.
From Stdlib Require Import Lia Permutation.
From S2P Require Import Prelude Message Events.

Section ControlPlane.
Context {J : SerdeJson}.

(* crates/runtime/src/control.rs, RuntimeCommand *)
Inductive RuntimeCommand :=
| Command_Prompt (message : Message) (submitted_prompt : option SubmittedPromptSnapshot)
| Command_Steer (message : string) (reason : option string).

(* crates/runtime/src/control.rs, RuntimeCommandLane *)
Inductive RuntimeCommandLane := Lane_Idle | Lane_SafePoint.

#[global] Instance RuntimeCommandLane_eq_dec : EqDecision RuntimeCommandLane.
Proof. solve_decision. Defined.

(* crates/runtime/src/control.rs, QueuedRuntimeCommand *)
Record QueuedRuntimeCommand := mkQueuedRuntimeCommand {
  queued_id : string;
  queued_command : RuntimeCommand;
  queued_lane : RuntimeCommandLane
}.

(* crates/runtime/src/control.rs, RuntimeControlPlane *)
Definition RuntimeControlPlane := list QueuedRuntimeCommand.

(* crates/runtime/src/control.rs, RuntimeControlPlane::new *)
Definition RuntimeControlPlane_new : RuntimeControlPlane := [].

(* crates/runtime/src/control.rs, RuntimeControlPlane::push *)
Definition push (inner : RuntimeControlPlane) (fresh_id : string)
    (command : RuntimeCommand) (lane : RuntimeCommandLane)
    : QueuedRuntimeCommand * RuntimeControlPlane :=
  let queued := mkQueuedRuntimeCommand fresh_id command lane in
  (queued, inner ++ [queued]).

(* crates/runtime/src/control.rs, RuntimeControlPlane::push_prompt_with_snapshot *)
Definition push_prompt_with_snapshot (inner : RuntimeControlPlane) (fresh_id : string)
    (message : Message) (submitted_prompt : option SubmittedPromptSnapshot)
    : QueuedRuntimeCommand * RuntimeControlPlane :=
  push inner fresh_id (Command_Prompt message submitted_prompt) Lane_Idle.

(* crates/runtime/src/control.rs, RuntimeControlPlane::push_prompt *)
Definition push_prompt (inner : RuntimeControlPlane) (fresh_id : string) (message : Message)
    : QueuedRuntimeCommand * RuntimeControlPlane :=
  push_prompt_with_snapshot inner fresh_id message None.

(* crates/runtime/src/control.rs, RuntimeControlPlane::push_steer *)
Definition push_steer (inner : RuntimeControlPlane) (fresh_id : string)
    (message : string) (reason : option string)
    : QueuedRuntimeCommand * RuntimeControlPlane :=
  push inner fresh_id (Command_Steer message reason) Lane_SafePoint.

(* crates/runtime/src/control.rs, RuntimeControlPlane::len *)
Definition len (inner : RuntimeControlPlane) : nat := length inner.

(* crates/runtime/src/control.rs, RuntimeControlPlane::is_empty *)
Definition is_empty (inner : RuntimeControlPlane) : bool := (len inner =? 0)%nat.

(* crates/runtime/src/control.rs, RuntimeControlPlane::snapshot *)
Definition snapshot (inner : RuntimeControlPlane) : list QueuedRuntimeCommand := inner.

(** [iter().position(f)] followed by [VecDeque::remove(index)]. *)
Fixpoint remove_first {A} (f : A -> bool) (l : list A) : option A * list A :=
  match l with
  | [] => (None, [])
  | x :: l' =>
      if f x then (Some x, l')
      else let (r, l'') := remove_first f l' in (r, x :: l'')
  end.

(* crates/runtime/src/control.rs, RuntimeControlPlane::remove *)
Definition remove (inner : RuntimeControlPlane) (id : string)
    : option QueuedRuntimeCommand * RuntimeControlPlane :=
  remove_first (fun queued => bool_decide (queued_id queued = id)) inner.

(* crates/runtime/src/control.rs, matches_runtime_command_kind *)
Definition matches_runtime_command_kind (left right : RuntimeCommand) : bool :=
  match left, right with
  | Command_Prompt _ _, Command_Prompt _ _ => true
  | Command_Steer _ _, Command_Steer _ _ => true
  | _, _ => false
  end.

(* crates/runtime/src/control.rs, RuntimeControlPlane::update *)
Fixpoint update (inner : RuntimeControlPlane) (id : string) (new_command : RuntimeCommand)
    : option QueuedRuntimeCommand * RuntimeControlPlane :=
  match inner with
  | [] => (None, [])
  | queued :: rest =>
      if bool_decide (queued_id queued = id) then
        if negb (matches_runtime_command_kind (queued_command queued) new_command)
        then (None, queued :: rest)
        else
          let queued' := mkQueuedRuntimeCommand (queued_id queued) new_command (queued_lane queued) in
          (Some queued', queued' :: rest)
      else let (r, rest') := update rest id new_command in (r, queued :: rest')
  end.

(* crates/runtime/src/control.rs, RuntimeControlPlane::clear *)
Definition clear (inner : RuntimeControlPlane) : nat * RuntimeControlPlane := (length inner, []).

(* crates/runtime/src/control.rs, RuntimeControlPlane::pop_next *)
Definition pop_next (inner : RuntimeControlPlane)
    : option QueuedRuntimeCommand * RuntimeControlPlane :=
  match inner with [] => (None, []) | queued :: rest => (Some queued, rest) end.

(* crates/runtime/src/control.rs, RuntimeControlPlane::pop_next_safe_point *)
Definition pop_next_safe_point (inner : RuntimeControlPlane)
    : option QueuedRuntimeCommand * RuntimeControlPlane :=
  remove_first (fun queued => bool_decide (queued_lane queued = Lane_SafePoint)) inner.

(** ** The queue as a state machine

    A label records what an operation did to the set of pending commands. *)

Inductive cp_label :=
| L_pushed (queued : QueuedRuntimeCommand)
| L_delivered (queued : QueuedRuntimeCommand)   (* consumed by the runtime *)
| L_withdrawn (gone : list QueuedRuntimeCommand) (* removed or cleared by an operator *)
| L_edited (id : string)
| L_none.

Inductive cp_step : RuntimeControlPlane -> cp_label -> RuntimeControlPlane -> Prop :=
| cp_push_prompt q id m s r q' :
    push_prompt_with_snapshot q id m s = (r, q') -> cp_step q (L_pushed r) q'
| cp_push_steer q id m s r q' :
    push_steer q id m s = (r, q') -> cp_step q (L_pushed r) q'
| cp_remove q id r q' :
    remove q id = (r, q') -> cp_step q (L_withdrawn (option_list r)) q'
| cp_update q id c r q' :
    update q id c = (r, q') -> cp_step q (if r then L_edited id else L_none) q'
| cp_clear q n q' :
    clear q = (n, q') -> cp_step q (L_withdrawn q) q'
| cp_pop_next q r q' :
    pop_next q = (r, q') -> cp_step q (from_option L_delivered L_none r) q'
| cp_pop_safe_point q r q' :
    pop_next_safe_point q = (r, q') -> cp_step q (from_option L_delivered L_none r) q'.

(** Histories, the latest operation last. *)
Inductive cp_run : list cp_label -> RuntimeControlPlane -> Prop :=
| cp_run_new : cp_run [] RuntimeControlPlane_new
| cp_run_step t q l q' : cp_run t q -> cp_step q l q' -> cp_run (t ++ [l]) q'.

(** A queue entry without its editable content. *)
Definition entry (queued : QueuedRuntimeCommand) : string * RuntimeCommandLane :=
  (queued_id queued, queued_lane queued).

Definition pushed_in (l : cp_label) : list (string * RuntimeCommandLane) :=
  match l with L_pushed c => [entry c] | _ => [] end.
Definition delivered_in (l : cp_label) : list (string * RuntimeCommandLane) :=
  match l with L_delivered c => [entry c] | _ => [] end.
Definition withdrawn_in (l : cp_label) : list (string * RuntimeCommandLane) :=
  match l with L_withdrawn cs => entry <$> cs | _ => [] end.

Definition pushed_of (t : list cp_label) := t ≫= pushed_in.
Definition delivered_of (t : list cp_label) := t ≫= delivered_in.
Definition withdrawn_of (t : list cp_label) := t ≫= withdrawn_in.

Definition on_lane (L : RuntimeCommandLane) (l : list (string * RuntimeCommandLane))
    : list (string * RuntimeCommandLane) :=
  base.filter (fun e => e.2 = L) l.

(** The lane a command kind travels in. *)
Definition lane_of (c : RuntimeCommand) : RuntimeCommandLane :=
  match c with Command_Prompt _ _ => Lane_Idle | Command_Steer _ _ => Lane_SafePoint end.

Definition lanes_ok (q : RuntimeControlPlane) : Prop :=
  Forall (fun queued => queued_lane queued = lane_of (queued_command queued)) q.

(** ** Lemmas *)

(** What [remove_first] does: the element is the first that matches, the others
    keep their order. *)
Lemma remove_first_spec {A} (f : A -> bool) l :
  match remove_first f l with
  | (Some x, l') => exists pre post, l = pre ++ x :: post /\ l' = pre ++ post
                      /\ f x = true /\ Forall (fun y => f y = false) pre
  | (None, l') => l' = l /\ Forall (fun y => f y = false) l
  end.
Proof.
  induction l as [|x l IH]; simpl; [by split|].
  destruct (f x) eqn:Ef; [by exists [], l|].
  destruct (remove_first f l) as [[y|] l'].
  - destruct IH as (pre & post & -> & -> & Hy & Hpre).
    exists (x :: pre), post. repeat split; auto.
  - destruct IH as [-> IH]. auto.
Qed.

Lemma update_spec q id c :
  match update q id c with
  | (None, q') => q' = q
  | (Some r, q') => exists pre old post,
      q = pre ++ old :: post /\ q' = pre ++ r :: post
      /\ r = mkQueuedRuntimeCommand (queued_id old) c (queued_lane old)
      /\ matches_runtime_command_kind (queued_command old) c = true
      /\ queued_id old = id /\ Forall (fun x => queued_id x <> id) pre
  end.
Proof.
  induction q as [|x q IH]; simpl; [done|]. case_bool_decide as Hid.
  - destruct (matches_runtime_command_kind _ _) eqn:Ek; simpl; [|done].
    exists [], x, q. repeat split; auto.
  - destruct (update q id c) as [[r|] q'].
    + destruct IH as (pre & old & post & -> & -> & Hr & Hk & Hi & Hpre).
      exists (x :: pre), old, post. repeat split; auto.
    + by rewrite IH.
Qed.

Lemma update_entries q id c : entry <$> (update q id c).2 = entry <$> q.
Proof.
  assert (H := update_spec q id c). destruct (update q id c) as [[r|] q']; simpl.
  - destruct H as (pre & old & post & -> & -> & -> & _). by rewrite !fmap_app.
  - by rewrite H.
Qed.

Lemma lane_of_kind c c' : matches_runtime_command_kind c c' = true -> lane_of c = lane_of c'.
Proof. by destruct c, c'. Qed.

(** Removing one element or none. *)
Lemma remove_first_parts {A} (f : A -> bool) l :
  exists pre post, l = pre ++ option_list (remove_first f l).1 ++ post
    /\ (remove_first f l).2 = pre ++ post
    /\ (forall x, (remove_first f l).1 = Some x -> f x = true /\ Forall (fun y => f y = false) pre)
    /\ ((remove_first f l).1 = None -> Forall (fun y => f y = false) l).
Proof.
  assert (H := remove_first_spec f l). destruct (remove_first f l) as [[x|] l']; simpl.
  - destruct H as (pre & post & -> & -> & Hx & Hpre). exists pre, post. by naive_solver.
  - destruct H as [-> H]. exists l, []. rewrite app_nil_r. by naive_solver.
Qed.

Lemma pop_next_parts q :
  q = option_list (pop_next q).1 ++ (pop_next q).2.
Proof. by destruct q. Qed.

(** The entries after a step, by its label. *)
Lemma cp_step_entries q l q' :
  cp_step q l q' ->
  (exists pre gone post, entry <$> q = pre ++ gone ++ post
     /\ entry <$> q' = pre ++ post ++ pushed_in l
     /\ gone = delivered_in l ++ withdrawn_in l
     /\ (forall e, delivered_in l = [e] -> on_lane e.2 pre = [])).
Proof.
  destruct 1 as [q id m s r q' E|q id m s r q' E|q id r q' E|q id c r q' E|q n q' E
                |q r q' E|q r q' E].
  1,2: injection E as <- <-; exists (entry <$> q), [], [];
    rewrite fmap_app, !app_nil_r; by repeat split.
  - destruct (remove_first_parts (fun x => bool_decide (queued_id x = id)) q)
      as (pre & post & Hq & Hq' & _). unfold remove in E. rewrite E in Hq, Hq'. simpl in *. subst q'.
    exists (entry <$> pre), (entry <$> option_list r), (entry <$> post).
    rewrite Hq, !fmap_app, !app_nil_r. by repeat split.
  - exists (entry <$> q), [], []. assert (Hu := update_entries q id c). rewrite E in Hu. simpl in Hu.
    rewrite Hu. destruct r; simpl; rewrite ?app_nil_r; by repeat split.
  - injection E as <- <-. exists [], (entry <$> q), []. simpl. rewrite app_nil_r. by repeat split.
  - assert (Hq := pop_next_parts q). rewrite E in Hq. simpl in Hq. subst q.
    exists [], (entry <$> option_list r), (entry <$> q').
    rewrite fmap_app. destruct r; simpl; rewrite ?app_nil_r; by repeat split.
  - destruct (remove_first_parts (fun x => bool_decide (queued_lane x = Lane_SafePoint)) q)
      as (pre & post & Hq & Hq' & Hs & _).
    unfold pop_next_safe_point in E. rewrite E in Hq, Hq', Hs. simpl in *. subst q'.
    exists (entry <$> pre), (entry <$> option_list r), (entry <$> post).
    rewrite Hq, !fmap_app. destruct r as [x|]; simpl; rewrite ?app_nil_r; [|by repeat split].
    repeat split. intros e [= <-]. destruct (Hs x eq_refl) as [Hx Hpre].
    apply bool_decide_eq_true in Hx. simpl. rewrite Hx. clear -Hpre.
    induction Hpre as [|y pre Hy _ IH]; [done|]. unfold on_lane in *. simpl.
    rewrite filter_cons_False; [done|]. by apply bool_decide_eq_false in Hy.
Qed.

Lemma run_parts_snoc {A} (f : cp_label -> list A) t l : (t ++ [l]) ≫= f = (t ≫= f) ++ f l.
Proof. rewrite bind_app. simpl. by rewrite app_nil_r. Qed.

Lemma on_lane_app L l k : on_lane L (l ++ k) = on_lane L l ++ on_lane L k.
Proof. apply filter_app. Qed.

#[local] Hint Rewrite on_lane_app : nano.

Lemma lanes_ok_step q l q' : cp_step q l q' -> lanes_ok q -> lanes_ok q'.
Proof.
  unfold lanes_ok. destruct 1 as [q id m s r q' E|q id m s r q' E|q id r q' E|q id c r q' E|q n q' E
                |q r q' E|q r q' E]; intros H.
  1,2: injection E as <- <-; apply Forall_app; auto.
  - destruct (remove_first_parts (fun x => bool_decide (queued_id x = id)) q)
      as (pre & post & Hq & Hq' & _). unfold remove in E. rewrite E in *. simpl in *. subst q'.
    rewrite Hq, !Forall_app in H. apply Forall_app. tauto.
  - assert (Hu := update_spec q id c). rewrite E in Hu. destruct r as [r|]; [|by subst].
    destruct Hu as (pre & old & post & -> & -> & -> & Hk & _).
    apply Forall_app in H as [H1 H2]. inversion H2 as [|? ? Hold Hpost]; subst.
    apply Forall_app. split; [done|]. constructor; [|done]. simpl. by rewrite <- (lane_of_kind _ _ Hk).
  - by injection E as <- <-.
  - rewrite (pop_next_parts q), E in H. simpl in H. apply Forall_app in H. tauto.
  - destruct (remove_first_parts (fun x => bool_decide (queued_lane x = Lane_SafePoint)) q)
      as (pre & post & Hq & Hq' & _). unfold pop_next_safe_point in E. rewrite E in *. simpl in *.
    subst q'. rewrite Hq, !Forall_app in H. apply Forall_app. tauto.
Qed.

Lemma cp_run_lanes t q : cp_run t q -> lanes_ok q.
Proof. induction 1 as [|t q l q' _ IH Hs]; [by constructor | by eapply lanes_ok_step]. Qed.

(** ** Properties *)

(** Nothing is lost or duplicated: in every history, the commands pushed are
    exactly the commands delivered to the runtime, withdrawn by the operator and
    still pending, each as often as it was pushed. *)
Theorem control_plane_conserves t q :
  cp_run t q ->
  pushed_of t ≡ₚ delivered_of t ++ withdrawn_of t ++ (entry <$> q).
Proof.
  induction 1 as [|t q l q' _ IH Hs]; [done|].
  unfold pushed_of, delivered_of, withdrawn_of. rewrite !run_parts_snoc.
  apply cp_step_entries in Hs as (pre & gone & post & Hq & Hq' & -> & _).
  fold (pushed_of t) (delivered_of t) (withdrawn_of t). rewrite Hq', IH, Hq.
  solve_Permutation.
Qed.

(** Per-lane FIFO: on each lane, what the runtime consumed followed by what
    is still pending is a subsequence of the push order; commands overtake each
    other only across lanes. *)
Theorem control_plane_lane_fifo t q L :
  cp_run t q ->
  on_lane L (delivered_of t) ++ on_lane L (entry <$> q) `sublist_of` on_lane L (pushed_of t).
Proof.
  induction 1 as [|t q l q' _ IH Hs]; [done|].
  unfold pushed_of, delivered_of. rewrite !run_parts_snoc. fold (pushed_of t) (delivered_of t).
  apply cp_step_entries in Hs as (pre & gone & post & Hq & Hq' & -> & Hd).
  rewrite Hq', !on_lane_app. rewrite Hq, !on_lane_app in IH.
  rewrite !app_assoc. apply sublist_app; [|done]. rewrite <- IH, <- !app_assoc.
  apply sublist_app; [done|].
  destruct (delivered_in l) as [|e []] eqn:El; [| |by destruct l].
  - simpl. apply sublist_app; [done|]. by apply sublist_inserts_l.
  - destruct (decide (e.2 = L)) as [<-|Hne].
    + rewrite (Hd e eq_refl). simpl. apply sublist_app; [done|]. by apply sublist_inserts_l.
    + assert (H0 : on_lane L [e] = []) by (unfold on_lane; by rewrite filter_cons_False).
      rewrite H0. simpl. apply sublist_app; [done|]. by apply sublist_inserts_l.
Qed.

(** At a safe point the runtime only ever receives a steer: in every
    reachable queue [pop_next_safe_point] returns the oldest pending steer, skips
    the prompts before it and leaves the others in order; it returns [None]
    exactly when no steer is pending. *)
Theorem safe_point_takes_oldest_steer t q :
  cp_run t q ->
  match pop_next_safe_point q with
  | (Some r, q') => exists pre post,
      q = pre ++ r :: post /\ q' = pre ++ post
      /\ lane_of (queued_command r) = Lane_SafePoint
      /\ Forall (fun x => lane_of (queued_command x) = Lane_Idle) pre
  | (None, q') => q' = q /\ Forall (fun x => lane_of (queued_command x) = Lane_Idle) q
  end.
Proof.
  intros Hl%cp_run_lanes. unfold lanes_ok in Hl. rewrite Forall_forall in Hl.
  assert (Hidle : forall l, (forall x, x ∈ l -> x ∈ q) ->
    Forall (fun x => bool_decide (queued_lane x = Lane_SafePoint) = false) l ->
    Forall (fun x => lane_of (queued_command x) = Lane_Idle) l).
  { intros l Hin. rewrite !Forall_forall. intros H x Hx. specialize (H x Hx).
    rewrite <- Hl by auto. apply bool_decide_eq_false in H. by destruct (queued_lane x). }
  assert (Hs := remove_first_spec (fun x => bool_decide (queued_lane x = Lane_SafePoint)) q).
  unfold pop_next_safe_point. destruct (remove_first _ q) as [[r|] q'].
  - destruct Hs as (pre & post & -> & -> & Hr & Hpre). exists pre, post. repeat split.
    + rewrite <- Hl by set_solver. by apply bool_decide_eq_true in Hr.
    + apply Hidle; [set_solver | done].
  - destruct Hs as [-> Hs]. split; [done|]. by apply Hidle.
Qed.

(** An edit replaces the content of exactly the entry it names, and only by
    a command of the same kind; otherwise the queue is unchanged and the caller
    is told so.  The id, the lane and the position of every entry are kept. *)
Theorem update_in_place q id c :
  entry <$> (update q id c).2 = entry <$> q
  /\ match update q id c with
     | (None, q') => q' = q
     | (Some r, q') => exists pre old post,
         q = pre ++ old :: post /\ q' = pre ++ r :: post
         /\ queued_id old = id /\ Forall (fun x => queued_id x <> id) pre
         /\ queued_command r = c
         /\ lane_of (queued_command old) = lane_of c
     end.
Proof.
  split; [apply update_entries|]. assert (H := update_spec q id c).
  destruct (update q id c) as [[r|] q']; [|done].
  destruct H as (pre & old & post & -> & -> & -> & Hk & Hid & Hpre).
  exists pre, old, post. repeat split; auto. by apply lane_of_kind.
Qed.

End ControlPlane.

Section Witnesses.
#[local] Existing Instance json_text.

Definition prompt_one : QueuedRuntimeCommand :=
  mkQueuedRuntimeCommand "c1" (Command_Prompt (Message_user "m1" "one") None) Lane_Idle.
Definition steer_two : QueuedRuntimeCommand :=
  mkQueuedRuntimeCommand "c2" (Command_Steer "be terse" None) Lane_SafePoint.

Lemma demo_run : cp_run [L_pushed prompt_one; L_pushed steer_two] [prompt_one; steer_two].
Proof.
  apply (cp_run_step [L_pushed prompt_one] [prompt_one]).
  - apply (cp_run_step [] []); [constructor | by eapply cp_push_prompt].
  - by eapply cp_push_steer.
Defined.

Lemma control_plane_conserves_witness :
  [("c1", Lane_Idle); ("c2", Lane_SafePoint)] ≡ₚ
  [("c1", Lane_Idle); ("c2", Lane_SafePoint)].
Proof. exact (control_plane_conserves _ _ demo_run). Defined.

Lemma control_plane_lane_fifo_witness :
  on_lane Lane_Idle [("c1", Lane_Idle); ("c2", Lane_SafePoint)] `sublist_of` [("c1", Lane_Idle)].
Proof. exact (control_plane_lane_fifo _ _ Lane_Idle demo_run). Defined.

Lemma safe_point_takes_oldest_steer_witness :
  exists pre post, [prompt_one; steer_two] = pre ++ steer_two :: post
    /\ [prompt_one] = pre ++ post
    /\ lane_of (queued_command steer_two) = Lane_SafePoint
    /\ Forall (fun x => lane_of (queued_command x) = Lane_Idle) pre.
Proof. exact (safe_point_takes_oldest_steer _ _ demo_run). Defined.

End Witnesses.
