(* ===== verification/Errors.v ===== *)
(** * Error types

    The error enums of the modelled crates with their [Display].  The error of a
    foreign library ([std::io::Error], [serde_json::Error], ...) is the text it
    displays; the boxed diagnostic chain of [RuntimeError] is the text of its
    source. *)

From Stdlib Require Import String.
From stdpp Require Import base strings.
From S2P Require Import Prelude Message.

(* crates/types/src/error.rs, AgentCoreError *)
Inductive AgentCoreError :=
| Core_HookBlocked (reason : string)
| Core_ToolDenied (reason : string)
| Core_PermissionDenied (reason : string)
| Core_ModelBackend (message : string)
| Core_ProviderContinuationLost (message : string)
| Core_Tool (message : string).

(* crates/sandbox/src/error.rs, SandboxError *)
Inductive SandboxError :=
| SandboxErr_InvalidState (message : string)
| SandboxErr_Io (message : string).

(* crates/tools/src/error.rs, ToolError *)
Inductive ToolError :=
| ToolErr_InvalidInput (message : string)
| ToolErr_InvalidState (message : string)
| ToolErr_Io (error : string)
| ToolErr_Json (error : string)
| ToolErr_Regex (error : string)
| ToolErr_Glob (error : string)
| ToolErr_IgnoreWalk (error : string)
| ToolErr_Base64 (error : string)
| ToolErr_StripPrefix (error : string)
| ToolErr_Http (error : string)
| ToolErr_Sandbox (error : SandboxError).

(* crates/store/src/traits.rs, SessionStoreError *)
Inductive SessionStoreError :=
| StoreErr_SessionNotFound (session_id : SessionId)
| StoreErr_Io (error : string)
| StoreErr_Json (error : string).

(* crates/skills/src/error.rs, SkillError *)
Inductive SkillError :=
| SkillErr_Io (error : string)
| SkillErr_Yaml (error : string)
| SkillErr_Toml (error : string)
| SkillErr_Regex (error : string)
| SkillErr_ReadPath (path : string) (source : string)
| SkillErr_InvalidFormat (message : string).

(** [std::time::Duration], in milliseconds. *)
Definition Duration := N.

(* crates/runtime/src/error.rs, RuntimeError *)
Inductive RuntimeError :=
| RtErr_AgentCore (error : AgentCoreError)
| RtErr_Skills (error : SkillError)
| RtErr_Store (error : SessionStoreError)
| RtErr_Tools (error : ToolError)
| RtErr_Io (error : string)
| RtErr_Json (error : string)
| RtErr_Regex (error : string)
| RtErr_Http (error : string)
| RtErr_InvalidState (message : string) (source : option string)
| RtErr_Hook (message : string) (source : option string)
| RtErr_ModelBackend (message : string) (source : option string) (status_code : option N)
    (retryable : bool) (retry_after : option Duration).

(* crates/types/src/error.rs, AgentCoreError *)
Definition AgentCoreError_display (e : AgentCoreError) : string :=
  match e with
  | Core_HookBlocked r => "hook blocked execution: " +:+ r
  | Core_ToolDenied r => "tool denied: " +:+ r
  | Core_PermissionDenied r => "permission denied: " +:+ r
  | Core_ModelBackend m => "model backend error: " +:+ m
  | Core_ProviderContinuationLost m => "provider continuation lost: " +:+ m
  | Core_Tool m => "tool error: " +:+ m
  end.

(* crates/sandbox/src/error.rs, SandboxError *)
Definition SandboxError_display (e : SandboxError) : string :=
  match e with
  | SandboxErr_InvalidState m => "sandbox state error: " +:+ m
  | SandboxErr_Io m => "sandbox I/O error: " +:+ m
  end.

(* crates/tools/src/error.rs, ToolError *)
Definition ToolError_display (e : ToolError) : string :=
  match e with
  | ToolErr_InvalidInput m => "tool input error: " +:+ m
  | ToolErr_InvalidState m => "tool state error: " +:+ m
  | ToolErr_Io m => "tool I/O error: " +:+ m
  | ToolErr_Json m => "tool JSON error: " +:+ m
  | ToolErr_Regex m => "tool regex error: " +:+ m
  | ToolErr_Glob m => "tool glob error: " +:+ m
  | ToolErr_IgnoreWalk m => "tool ignore-walk error: " +:+ m
  | ToolErr_Base64 m => "tool base64 error: " +:+ m
  | ToolErr_StripPrefix m => "tool path error: " +:+ m
  | ToolErr_Http m => "tool HTTP error: " +:+ m
  | ToolErr_Sandbox e => "tool sandbox error: " +:+ SandboxError_display e
  end.

(* crates/store/src/traits.rs, SessionStoreError *)
Definition SessionStoreError_display (e : SessionStoreError) : string :=
  match e with
  | StoreErr_SessionNotFound id => "session not found: " +:+ id
  | StoreErr_Io m => "session store IO error: " +:+ m
  | StoreErr_Json m => "session store JSON error: " +:+ m
  end.

(* crates/skills/src/error.rs, SkillError *)
Definition SkillError_display (e : SkillError) : string :=
  match e with
  | SkillErr_Io m => "skill I/O error: " +:+ m
  | SkillErr_Yaml m => "skill YAML error: " +:+ m
  | SkillErr_Toml m => "skill TOML error: " +:+ m
  | SkillErr_Regex m => "skill regex error: " +:+ m
  | SkillErr_ReadPath path source => "failed to read " +:+ path +:+ ": " +:+ source
  | SkillErr_InvalidFormat m => "invalid skill format: " +:+ m
  end.

(* crates/runtime/src/error.rs, RuntimeError *)
Definition RuntimeError_display (e : RuntimeError) : string :=
  match e with
  | RtErr_AgentCore e => AgentCoreError_display e
  | RtErr_Skills e => SkillError_display e
  | RtErr_Store e => SessionStoreError_display e
  | RtErr_Tools e => ToolError_display e
  | RtErr_Io m => "runtime I/O error: " +:+ m
  | RtErr_Json m => "runtime JSON error: " +:+ m
  | RtErr_Regex m => "runtime regex error: " +:+ m
  | RtErr_Http m => "runtime HTTP error: " +:+ m
  | RtErr_InvalidState m _ => "runtime state error: " +:+ m
  | RtErr_Hook m _ => "runtime hook error: " +:+ m
  | RtErr_ModelBackend m _ _ _ _ => "model backend error: " +:+ m
  end.

(* crates/runtime/src/error.rs, RuntimeError::invalid_state *)
Definition invalid_state (message : string) : RuntimeError := RtErr_InvalidState message None.

(* crates/runtime/src/error.rs, RuntimeError::hook *)
Definition hook_error (message : string) : RuntimeError := RtErr_Hook message None.

(* crates/runtime/src/error.rs, RuntimeError::model_backend *)
Definition model_backend (message : string) : RuntimeError :=
  RtErr_ModelBackend message None None false None.

(* crates/runtime/src/error.rs, RuntimeError::model_backend_request *)
Definition model_backend_request (message : string) (status_code : N) (retryable : bool)
    (retry_after : option Duration) : RuntimeError :=
  RtErr_ModelBackend message None (Some status_code) retryable retry_after.

(* crates/runtime/src/error.rs, RuntimeError::model_backend_status_code *)
Definition model_backend_status_code (e : RuntimeError) : option N :=
  match e with
  | RtErr_ModelBackend _ _ status_code _ _ => status_code
  | _ => None
  end.

(* crates/runtime/src/error.rs, ModelBackendRetryHint *)
Record ModelBackendRetryHint := mkModelBackendRetryHint {
  hint_status_code : N;
  hint_retry_after : option Duration
}.

(* crates/runtime/src/error.rs, RuntimeError::model_backend_retry_hint *)
Definition model_backend_retry_hint (e : RuntimeError) : option ModelBackendRetryHint :=
  match e with
  | RtErr_ModelBackend _ _ (Some status_code) true retry_after =>
      Some (mkModelBackendRetryHint status_code retry_after)
  | _ => None
  end.
