(* ===== verification/TextBuffer.v ===== *)
(** * Text buffers

    Models [crates/tools/src/fs/text_buffer.rs]: a file as logical lines, the
    line-oriented edits, the short content hash and the numbered view.  The
    SHA-256 function is a parameter. *)

From Stdlib Require Import Ascii String.
From stdpp Require Import base list strings.
From Stdlib Require Import Lia.
From S2P Require Import Prelude Text Message Errors.

(** [Sha256::digest]: the bytes of the digest. *)
Class Sha256 := { sha256_digest : string -> list nat }.

(* crates/tools/src/fs/text_buffer.rs, TextBuffer *)
Record TextBuffer := mkTextBuffer {
  buf_lines : list string;
  buf_trailing_newline : bool
}.

(* crates/tools/src/fs/text_buffer.rs, TextBuffer::parse *)
Definition TextBuffer_parse (text : string) : TextBuffer :=
  if str_is_empty text then mkTextBuffer [] false
  else mkTextBuffer (split_terminator newline text) (ends_with text nl).

(* crates/tools/src/fs/text_buffer.rs, TextBuffer::line_count *)
Definition line_count (b : TextBuffer) : nat := length (buf_lines b).

(* crates/tools/src/fs/text_buffer.rs, TextBuffer::is_empty *)
Definition buffer_is_empty (b : TextBuffer) : bool := is_nil (buf_lines b).

(* crates/tools/src/fs/text_buffer.rs, TextBuffer::to_text *)
Definition to_text (b : TextBuffer) : string :=
  let text := str_join nl (buf_lines b) in
  if buf_trailing_newline b && negb (is_nil (buf_lines b)) then text +:+ nl else text.

(* crates/tools/src/fs/text_buffer.rs, normalize_line_range *)
Definition normalize_line_range (line_count start_line end_line : nat)
    : result (nat * nat) ToolError :=
  if (start_line =? 0)%nat then Err (ToolErr_InvalidInput "line numbers are 1-indexed")
  else if (end_line <? start_line)%nat then
    Err (ToolErr_InvalidInput ("end_line " +:+ fmt_nat end_line +:+ " is before start_line "
                                 +:+ fmt_nat start_line))
  else if (line_count <? end_line)%nat then
    Err (ToolErr_InvalidInput ("end_line " +:+ fmt_nat end_line +:+ " is beyond end of file ("
                                 +:+ fmt_nat line_count +:+ " lines total)"))
  else Ok (start_line - 1, end_line)%nat.

(* crates/tools/src/fs/text_buffer.rs, parse_replacement_lines *)
Definition parse_replacement_lines (text : string) : list string :=
  if str_is_empty text then []
  else
    let parts := split_on newline text in
    if ends_with text nl then removelast parts else parts.

(** [Vec::splice(start..end, new)] with the range in bounds. *)
Definition splice {A} (l : list A) (start_index end_index : nat) (new : list A) : list A :=
  take start_index l ++ new ++ drop end_index l.

(* crates/tools/src/fs/text_buffer.rs, TextBuffer::line_slice_text *)
Definition line_slice_text (b : TextBuffer) (start_line end_line : nat) : result string ToolError :=
  range <-? normalize_line_range (line_count b) start_line end_line;
  let '(start_index, end_index) := range in
  Ok (str_join nl (take (end_index - start_index) (drop start_index (buf_lines b)))).

(* crates/tools/src/fs/text_buffer.rs, TextBuffer::replace_lines *)
Definition replace_lines (b : TextBuffer) (start_line end_line : nat) (text : string)
    : result TextBuffer ToolError :=
  range <-? normalize_line_range (line_count b) start_line end_line;
  let '(start_index, end_index) := range in
  Ok (mkTextBuffer (splice (buf_lines b) start_index end_index (parse_replacement_lines text))
        (buf_trailing_newline b)).

(* crates/tools/src/fs/text_buffer.rs, TextBuffer::insert_after *)
Definition insert_after (b : TextBuffer) (after_line : nat) (text : string)
    : result TextBuffer ToolError :=
  if (line_count b <? after_line)%nat then
    Err (ToolErr_InvalidInput ("after_line " +:+ fmt_nat after_line +:+ " is beyond end of file ("
                                 +:+ fmt_nat (line_count b) +:+ " lines total)"))
  else
    Ok (mkTextBuffer (splice (buf_lines b) after_line after_line (parse_replacement_lines text))
          (buf_trailing_newline b)).

(** [format!("{byte:02x}")]. *)
Definition hex_digit (n : nat) : string :=
  String (ascii_of_nat (if (n <? 10)%nat then 48 + n else 87 + n)) "".
Definition hex_byte (n : nat) : string := hex_digit (n / 16) +:+ hex_digit (n mod 16).

(* crates/tools/src/fs/text_buffer.rs, stable_text_hash *)
Definition stable_text_hash `{Sha256} (text : string) : string :=
  str_join "" (map hex_byte (take 6 (sha256_digest text))).

(** [format!("{:>width$}", s)] for a string of ASCII characters. *)
Fixpoint spaces (n : nat) : string := match n with O => "" | S n => String " " (spaces n) end.
Definition pad_left (width : nat) (s : string) : string :=
  spaces (width - String.length s) +:+ s.

(* crates/tools/src/fs/text_buffer.rs, format_numbered_lines *)
Definition format_numbered_lines (lines : list string) (start_line : nat) : string :=
  let width := Nat.max (String.length (fmt_nat (start_line + (length lines - 1)))) 2 in
  str_join nl (imap (fun index line =>
    pad_left width (fmt_nat (start_line + index)) +:+ " | " +:+ line) lines).

(** ** Lemmas *)

Lemma split_ends_newline text :
  text <> "" ->
  if ends_with text nl then exists l, split_on newline text = (l ++ [""])%list /\ l <> []
  else last (split_on newline text) <> Some "".
Proof.
  intros Hne. destruct (ends_with text nl) eqn:E.
  - apply ends_with_spec in E as [r ->]. unfold nl. rewrite split_on_app.
    exists (split_on newline r). split; [done | apply split_on_ne].
  - intros Hl. apply last_Some in Hl as [l Hl]. destruct (decide (l = [])) as [->|Hn].
    + pose proof (join_split newline text) as Hj. rewrite Hl in Hj. simpl in Hj. congruence.
    + assert (exists r, text = r +:+ nl) as Hr; [|apply ends_with_spec in Hr; congruence].
      exists (str_join nl l). rewrite <- (join_split newline text), Hl.
      rewrite join_app by done. by rewrite !sapp_nil_r.
Qed.

Lemma split_terminator_ends text :
  text <> "" ->
  split_terminator newline text
  = if ends_with text nl then removelast (split_on newline text) else split_on newline text.
Proof.
  intros Hne. unfold split_terminator. pose proof (split_ends_newline text Hne) as He.
  destruct (ends_with text nl).
  - destruct He as (l & -> & _). by rewrite last_snoc.
  - destruct (last (split_on newline text)) as [[|a s]|] eqn:El; done.
Qed.

(** Both readings of a text agree: what a line edit inserts is what parsing the
    inserted text as a file gives. *)
Lemma parse_replacement_parse text :
  parse_replacement_lines text = buf_lines (TextBuffer_parse text).
Proof.
  unfold parse_replacement_lines, TextBuffer_parse. destruct text as [|a s]; [done|].
  change (str_is_empty (String a s)) with false. cbv iota. cbn [buf_lines].
  by rewrite split_terminator_ends.
Qed.

Lemma join_replacement text :
  str_join nl (parse_replacement_lines text)
  = if ends_with text nl then default text (strip_suffix nl text) else text.
Proof.
  unfold parse_replacement_lines. destruct (decide (text = "")) as [->|Hne]; [done|].
  replace (str_is_empty text) with false by (by destruct text).
  destruct (ends_with text nl) eqn:E; [|apply join_split].
  apply ends_with_spec in E as [r ->].
  rewrite (proj2 (strip_suffix_Some nl (r +:+ nl) r) eq_refl). simpl.
  unfold nl. rewrite split_on_app. change (split_on newline "") with [""].
  rewrite removelast_last. apply join_split.
Qed.

Lemma removelast_ne_nil {A} (l : list A) x : l <> [] -> removelast (l ++ [x]) <> [].
Proof. by rewrite removelast_last. Qed.

Lemma normalize_ok n s e i j :
  normalize_line_range n s e = Ok (i, j) <-> (1 <= s <= e /\ e <= n /\ i = s - 1 /\ j = e)%nat.
Proof.
  unfold normalize_line_range.
  destruct (Nat.eqb_spec s 0), (Nat.ltb_spec e s), (Nat.ltb_spec n e);
    (split; [try done; intros [= <- <-]; lia | try (intros; exfalso; lia)]).
  intros (? & ? & -> & ->). done.
Qed.

(** Opening a file and saving it unchanged gives the same bytes, whatever the
    file holds: empty lines, a missing final newline, only newlines. *)
Theorem text_buffer_roundtrip text : to_text (TextBuffer_parse text) = text.
Proof.
  destruct (decide (text = "")) as [->|Hne]; [done|].
  unfold to_text, TextBuffer_parse. replace (str_is_empty text) with false by (by destruct text).
  cbn [buf_lines buf_trailing_newline]. rewrite split_terminator_ends by done.
  pose proof (split_ends_newline text Hne) as He. pose proof (join_split newline text) as Hj.
  destruct (ends_with text nl); [|exact Hj].
  destruct He as (l & El & Hl). rewrite El, removelast_last in *.
  rewrite join_app in Hj by done. rewrite sapp_nil_r in Hj.
  replace (is_nil l) with false by (by destruct l). exact Hj.
Qed.

(** A line edit changes the selected lines and nothing else: the lines before
    the range stay where they are, the lines after it move by the difference in
    length, and the range now reads as the given text. *)
Theorem replace_lines_is_local b s e text b' :
  replace_lines b s e text = Ok b' ->
  let n := length (parse_replacement_lines text) in
  (forall i, i < s - 1 -> buf_lines b' !! i = buf_lines b !! i)%nat
  /\ (forall i, buf_lines b' !! (s - 1 + n + i) = buf_lines b !! (e + i))%nat
  /\ buf_trailing_newline b' = buf_trailing_newline b
  /\ (n <> 0%nat -> line_slice_text b' s (s - 1 + n)
       = Ok (if ends_with text nl then default text (strip_suffix nl text) else text)).
Proof.
  unfold replace_lines. destruct (normalize_line_range _ _ _) as [[i j]|] eqn:E; [|done].
  apply normalize_ok in E as (Hs & He & -> & ->). unfold line_count in He.
  cbn [result_bind]. intros [= <-]. cbn [buf_lines buf_trailing_newline].
  assert (Hlen : length (take (s - 1) (buf_lines b)) = (s - 1)%nat) by (rewrite length_take; lia).
  split; [|split; [|split]].
  - intros i Hi. unfold splice. rewrite lookup_app_l by lia. by apply lookup_take_lt.
  - intros i. unfold splice. rewrite lookup_app_r by lia. rewrite lookup_app_r by lia.
    rewrite lookup_drop. f_equal. lia.
  - done.
  - intros Hn. unfold line_slice_text.
    destruct (normalize_line_range _ s _) as [[i j]|err] eqn:E2.
    + apply normalize_ok in E2 as (_ & _ & -> & ->). cbn [result_bind buf_lines]. f_equal.
      rewrite <- join_replacement. f_equal. unfold splice.
      rewrite drop_app_ge by lia. rewrite Hlen, Nat.sub_diag, drop_0.
      apply take_app_length'. lia.
    + exfalso. assert (Hok : normalize_line_range
        (line_count (mkTextBuffer (splice (buf_lines b) (s - 1) e (parse_replacement_lines text))
           (buf_trailing_newline b))) s (s - 1 + length (parse_replacement_lines text))
        = Ok (s - 1, s - 1 + length (parse_replacement_lines text))%nat); [|congruence].
      apply normalize_ok. unfold line_count, splice. cbn [buf_lines].
      rewrite !length_app, length_take. lia.
Qed.

Lemma replace_lines_is_local_witness :
  exists b', replace_lines (TextBuffer_parse ("a" +:+ nl +:+ "b" +:+ nl)) 2 2 "x" = Ok b'
    /\ to_text b' = "a" +:+ nl +:+ "x" +:+ nl
    /\ line_slice_text b' 2 2 = Ok "x".
Proof.
  eexists. split; [reflexivity|]. split; [reflexivity|].
  apply (replace_lines_is_local (TextBuffer_parse ("a" +:+ nl +:+ "b" +:+ nl)) 2 2 "x" _ eq_refl).
  discriminate.
Defined.
