(* ===== verification/Mutation.v ===== *)
(** * Text mutations

    Models [crates/tools/src/fs/mutation.rs]: the write, edit and delete operations
    on the text of one file, with their snapshot guards, and the diff preview.
    The file-system calls of [load_optional_text_file] and [commit_text_file] are
    in [PathPolicy]. *)

From Stdlib Require Import Ascii String.
From stdpp Require Import base list strings.
From Stdlib Require Import Lia.
From S2P Require Import Prelude Text Message Errors TextBuffer.

(** [json!] at the types the tool metadata uses. *)
Class JsonData (J : SerdeJson) := {
  jd_object : list (string * Value) -> Value;
  jd_string : string -> Value;
  jd_usize : nat -> Value;
  jd_bool : bool -> Value;
  jd_null : Value;
  jd_array : list Value -> Value
}.

Section Mutation.
Context {J : SerdeJson} {D : JsonData J} {S256 : Sha256}.

Definition jd_option {A} (f : A -> Value) (o : option A) : Value :=
  match o with Some a => f a | None => jd_null end.

(* crates/tools/src/fs/mutation.rs, DIFF_PREVIEW_LINE_LIMIT *)
Definition DIFF_PREVIEW_LINE_LIMIT : nat := 12.

(* crates/tools/src/fs/mutation.rs, WriteExistingBehavior *)
Inductive WriteExistingBehavior := IfExists_Error | IfExists_Overwrite.

(* crates/tools/src/fs/mutation.rs, WriteMissingBehavior *)
Inductive WriteMissingBehavior := IfMissing_Create | IfMissing_Error.

(** [#[serde(rename_all = "snake_case")]]. *)
Definition existing_behavior_json (b : WriteExistingBehavior) : Value :=
  jd_string (match b with IfExists_Error => "error" | IfExists_Overwrite => "overwrite" end).
Definition missing_behavior_json (b : WriteMissingBehavior) : Value :=
  jd_string (match b with IfMissing_Create => "create" | IfMissing_Error => "error" end).

(* crates/tools/src/fs/mutation.rs, TextEditOperation *)
Inductive TextEditOperation :=
| Edit_StrReplace (old_text new_text : string) (replace_all : bool)
| Edit_ReplaceLines (start_line end_line : nat) (text : string)
    (expected_selection_hash : option string)
| Edit_Insert (after_line : nat) (text : string).

(* crates/tools/src/fs/mutation.rs, MutationOutcome *)
Record MutationOutcome := mkMutationOutcome {
  next_content : option string;
  mut_summary : string;
  mut_metadata : Value;
  mut_is_error : bool;
  snapshot_before : option string;
  snapshot_after : option string
}.

(* crates/tools/src/fs/mutation.rs, WriteRequest *)
Record WriteRequest := mkWriteRequest {
  wr_content : string;
  wr_if_exists : WriteExistingBehavior;
  wr_if_missing : WriteMissingBehavior;
  wr_expected_snapshot : option string
}.

(* crates/tools/src/fs/mutation.rs, error_outcome *)
Definition error_outcome (before : option string) (summary : string) (metadata : Value)
    : MutationOutcome := mkMutationOutcome None summary metadata true before None.

(** [if let Some(expected) = expected && found != Some(expected)]. *)
Definition snapshot_mismatch (expected found : option string) : option string :=
  match expected with
  | Some e => if bool_decide (found = Some e) then None else Some e
  | None => None
  end.

(* crates/tools/src/fs/mutation.rs, apply_write *)
Definition apply_write (existing : option string) (path : string) (request : WriteRequest)
    : MutationOutcome :=
  let before := stable_text_hash <$> existing in
  match snapshot_mismatch (wr_expected_snapshot request) before with
  | Some expected =>
      error_outcome before
        ("Snapshot mismatch for " +:+ path +:+ ". Expected " +:+ expected
           +:+ ", re-read before overwriting.")
        (jd_object [("command", jd_string "write"); ("path", jd_string path);
                    ("expected_snapshot", jd_string expected)])
  | None =>
      match existing, wr_if_exists request, wr_if_missing request with
      | Some _, IfExists_Error, _ =>
          error_outcome before
            (path +:+ " already exists. Re-run with if_exists=overwrite or use edit/patch for partial changes.")
            (jd_object [("command", jd_string "write"); ("path", jd_string path);
                        ("if_exists", existing_behavior_json (wr_if_exists request))])
      | None, _, IfMissing_Error =>
          error_outcome before (path +:+ " does not exist. Re-run with if_missing=create.")
            (jd_object [("command", jd_string "write"); ("path", jd_string path);
                        ("if_missing", missing_behavior_json (wr_if_missing request))])
      | _, _, _ =>
          let bytes := String.length (wr_content request) in
          mkMutationOutcome (Some (wr_content request))
            (match existing with
             | Some _ => "Wrote " +:+ fmt_nat bytes +:+ " bytes to " +:+ path
             | None => "Created " +:+ path +:+ " with " +:+ fmt_nat bytes +:+ " bytes"
             end)
            (jd_object [("command", jd_string "write"); ("path", jd_string path);
                        ("created", jd_bool (negb (bool_decide (is_Some existing))));
                        ("bytes_written", jd_usize bytes);
                        ("if_exists", existing_behavior_json (wr_if_exists request));
                        ("if_missing", missing_behavior_json (wr_if_missing request));
                        ("used_expected_snapshot",
                         jd_bool (bool_decide (is_Some (wr_expected_snapshot request))))])
            false before (Some (stable_text_hash (wr_content request)))
      end
  end.

(** The loops that count the common prefix and the common suffix of two lists of
    lines; the suffix is counted in what follows the prefix. *)
Fixpoint common_prefix (before after : list string) : nat :=
  match before, after with
  | b :: before, a :: after => if String.eqb b a then S (common_prefix before after) else 0
  | _, _ => 0
  end.

Definition common_suffix (prefix : nat) (before after : list string) : nat :=
  common_prefix (rev (drop prefix before)) (rev (drop prefix after)).

(* crates/tools/src/fs/mutation.rs, collapse_diff_preview_body *)
Definition collapse_diff_preview_body (lines : list string) : list string :=
  if (length lines <=? DIFF_PREVIEW_LINE_LIMIT)%nat then lines
  else
    let tail := ((DIFF_PREVIEW_LINE_LIMIT - 1) / 2)%nat in
    let head := (DIFF_PREVIEW_LINE_LIMIT - tail - 1)%nat in
    let hidden := (length lines - (head + tail))%nat in
    take head lines
      ++ [string_of_bytes [226; 128; 166] +:+ " +" +:+ fmt_nat hidden +:+ " lines"]
      ++ drop (length lines - tail) lines.

(** The changed region: what was removed and what was added. *)
Definition changed_region (before_lines after_lines : list string)
    : nat * list string * list string :=
  let prefix := common_prefix before_lines after_lines in
  let suffix := common_suffix prefix before_lines after_lines in
  (prefix, take (length before_lines - suffix - prefix) (drop prefix before_lines),
   take (length after_lines - suffix - prefix) (drop prefix after_lines)).

(* crates/tools/src/fs/mutation.rs, compute_diff_preview *)
Definition compute_diff_preview (path : string) (before after : option string) : option Value :=
  if bool_decide (before = after) then None
  else
    let before_lines := str_lines (default "" before) in
    let after_lines := str_lines (default "" after) in
    let '(prefix, removed, added) := changed_region before_lines after_lines in
    if is_nil removed && is_nil added then None
    else
      let old_start := if is_nil removed then 0%nat else S prefix in
      let new_start := if is_nil added then 0%nat else S prefix in
      let body_lines := map (fun line => "-" +:+ line) removed
                          ++ map (fun line => "+" +:+ line) added in
      let preview_lines :=
        ["--- " +:+ path; "+++ " +:+ path;
         "@@ -" +:+ fmt_nat old_start +:+ "," +:+ fmt_nat (length removed) +:+ " +"
           +:+ fmt_nat new_start +:+ "," +:+ fmt_nat (length added) +:+ " @@"]
        ++ collapse_diff_preview_body body_lines in
      Some (jd_object [("path", jd_string path); ("before_lines", jd_usize (length before_lines));
                       ("after_lines", jd_usize (length after_lines));
                       ("preview", jd_string (str_join nl preview_lines))]).

(* crates/tools/src/fs/mutation.rs, run_string_replace *)
Definition run_string_replace (path content old_text new_text : string) (replace_all : bool)
    : result MutationOutcome ToolError :=
  let occurrences := matches_count old_text content in
  if (occurrences =? 0)%nat then
    Ok (error_outcome (Some (stable_text_hash content)) ("No exact match found in " +:+ path)
          (jd_object [("command", jd_string "str_replace"); ("path", jd_string path);
                      ("occurrences", jd_usize 0); ("replace_all", jd_bool replace_all)]))
  else if (1 <? occurrences)%nat && negb replace_all then
    Ok (error_outcome (Some (stable_text_hash content))
          ("Found " +:+ fmt_nat occurrences +:+ " matches in " +:+ path
             +:+ ". Re-run with replace_all=true or provide a more specific old_text.")
          (jd_object [("command", jd_string "str_replace"); ("path", jd_string path);
                      ("occurrences", jd_usize occurrences); ("replace_all", jd_bool false)]))
  else
    let updated := if replace_all then str_replace old_text new_text content
                   else str_replacen1 old_text new_text content in
    Ok (mkMutationOutcome (Some updated)
          ("Edited " +:+ path +:+ " using str_replace ("
             +:+ fmt_nat (if replace_all then occurrences else 1) +:+ " replacement"
             +:+ (if replace_all && negb (occurrences =? 1)%nat then "s" else "") +:+ ")")
          (jd_object [("command", jd_string "str_replace"); ("path", jd_string path);
                      ("occurrences", jd_usize occurrences); ("replace_all", jd_bool replace_all)])
          false (Some (stable_text_hash content)) None).

(* crates/tools/src/fs/mutation.rs, run_line_replace *)
Definition run_line_replace (path content : string) (start_line end_line : nat)
    (replacement_text : string) (expected_selection_hash : option string)
    : result MutationOutcome ToolError :=
  let buffer := TextBuffer_parse content in
  current_slice <-? line_slice_text buffer start_line end_line;
  let current_slice_hash := stable_text_hash current_slice in
  match snapshot_mismatch expected_selection_hash (Some current_slice_hash) with
  | Some expected =>
      Ok (error_outcome (Some (stable_text_hash content))
            ("Slice mismatch for " +:+ path +:+ " lines " +:+ fmt_nat start_line +:+ "-"
               +:+ fmt_nat end_line +:+ ". Expected " +:+ expected +:+ ", found "
               +:+ current_slice_hash +:+ ". Re-read that range before editing.")
            (jd_object [("command", jd_string "replace_lines"); ("path", jd_string path);
                        ("start_line", jd_usize start_line); ("end_line", jd_usize end_line);
                        ("current_slice_hash", jd_string current_slice_hash)]))
  | None =>
      buffer <-? replace_lines buffer start_line end_line replacement_text;
      Ok (mkMutationOutcome (Some (to_text buffer))
            ("Edited " +:+ path +:+ " using replace_lines (" +:+ fmt_nat start_line +:+ "-"
               +:+ fmt_nat end_line +:+ ")")
            (jd_object [("command", jd_string "replace_lines"); ("path", jd_string path);
                        ("start_line", jd_usize start_line); ("end_line", jd_usize end_line);
                        ("previous_slice_hash", jd_string current_slice_hash)])
            false (Some (stable_text_hash content)) None)
  end.

(* crates/tools/src/fs/mutation.rs, run_insert *)
Definition run_insert (path content : string) (after_line : nat) (insert_text : string)
    : result MutationOutcome ToolError :=
  buffer <-? insert_after (TextBuffer_parse content) after_line insert_text;
  Ok (mkMutationOutcome (Some (to_text buffer))
        ("Edited " +:+ path +:+ " using insert (after line " +:+ fmt_nat after_line +:+ ")")
        (jd_object [("command", jd_string "insert"); ("path", jd_string path);
                    ("after_line", jd_usize after_line)])
        false (Some (stable_text_hash content)) None).

(* crates/tools/src/fs/mutation.rs, apply_single_edit *)
Definition apply_single_edit (path content : string) (operation : TextEditOperation)
    : result MutationOutcome ToolError :=
  match operation with
  | Edit_StrReplace old_text new_text replace_all =>
      run_string_replace path content old_text new_text replace_all
  | Edit_ReplaceLines start_line end_line text expected_selection_hash =>
      run_line_replace path content start_line end_line text expected_selection_hash
  | Edit_Insert after_line text => run_insert path content after_line text
  end.

(** The loop over the operations of an edit, from the text [working] and the
    metadata of the operations done. *)
(* crates/tools/src/fs/mutation.rs, apply_text_edits@let mut working ~~ let snapshot_after *)
Fixpoint edit_loop (path : string) (before : string) (working : string)
    (edits : list TextEditOperation) (operations : list Value)
    : result (MutationOutcome + string * list Value) ToolError :=
  match edits with
  | [] => Ok (inr (working, operations))
  | operation :: rest =>
      outcome <-? apply_single_edit path working operation;
      if mut_is_error outcome then
        Ok (inl (mkMutationOutcome (Some working) (mut_summary outcome)
                   (jd_object [("command", jd_string "edit"); ("path", jd_string path);
                               ("operations", jd_array operations);
                               ("failed_operation", mut_metadata outcome)])
                   true (Some before) None))
      else
        working <-? ok_or (next_content outcome)
                      (ToolErr_InvalidState "text edit unexpectedly removed file content");
        edit_loop path before working rest (operations ++ [mut_metadata outcome])
  end.

(* crates/tools/src/fs/mutation.rs, apply_text_edits *)
Definition apply_text_edits (existing : option string) (path : string)
    (expected_snapshot : option string) (edits : list TextEditOperation)
    : result MutationOutcome ToolError :=
  match existing with
  | None =>
      Ok (error_outcome None
            (path +:+ " does not exist. Use write or patch/write to create it first.")
            (jd_object [("command", jd_string "edit"); ("path", jd_string path)]))
  | Some existing =>
      if is_nil edits then Err (ToolErr_InvalidInput "edit requires at least one operation")
      else
        let before := stable_text_hash existing in
        match snapshot_mismatch expected_snapshot (Some before) with
        | Some expected =>
            Ok (error_outcome (Some before)
                  ("Snapshot mismatch for " +:+ path +:+ ". Expected " +:+ expected +:+ ", found "
                     +:+ before +:+ ". Re-read the file before editing.")
                  (jd_object [("command", jd_string "edit"); ("path", jd_string path);
                              ("expected_snapshot", jd_string expected)]))
        | None =>
            done <-? edit_loop path before existing edits [];
            match done with
            | inl failed => Ok failed
            | inr (working, operations) =>
                Ok (mkMutationOutcome (Some working)
                      ("Edited " +:+ path +:+ " with " +:+ fmt_nat (length edits)
                         +:+ " operation(s)")
                      (jd_object [("command", jd_string "edit"); ("path", jd_string path);
                                  ("operations", jd_array operations)])
                      false (Some before) (Some (stable_text_hash working)))
            end
        end
  end.

(* crates/tools/src/fs/mutation.rs, apply_delete *)
Definition apply_delete (existing : option string) (path : string)
    (expected_snapshot : option string) (ignore_missing : bool) : MutationOutcome :=
  let before := stable_text_hash <$> existing in
  match existing with
  | None =>
      if ignore_missing then
        mkMutationOutcome None ("Skipped delete for missing file " +:+ path)
          (jd_object [("command", jd_string "delete"); ("path", jd_string path);
                      ("deleted", jd_bool false); ("ignore_missing", jd_bool true)])
          false None None
      else
        error_outcome None
          (path +:+ " does not exist. Re-run with ignore_missing=true to treat it as a no-op.")
          (jd_object [("command", jd_string "delete"); ("path", jd_string path);
                      ("ignore_missing", jd_bool false)])
  | Some _ =>
      match snapshot_mismatch expected_snapshot before with
      | Some expected =>
          error_outcome before
            ("Snapshot mismatch for " +:+ path +:+ ". Expected " +:+ expected
               +:+ ", re-read before deleting.")
            (jd_object [("command", jd_string "delete"); ("path", jd_string path);
                        ("expected_snapshot", jd_string expected)])
      | None =>
          mkMutationOutcome None ("Deleted " +:+ path)
            (jd_object [("command", jd_string "delete"); ("path", jd_string path);
                        ("deleted", jd_bool true); ("ignore_missing", jd_bool ignore_missing)])
            false before None
      end
  end.

(** ** Properties *)

Lemma common_prefix_take b a : take (common_prefix b a) b = take (common_prefix b a) a.
Proof.
  revert a. induction b as [|x b IH]; intros [|y a]; simpl; try done.
  destruct (String.eqb_spec x y) as [->|]; [|done]. simpl. by rewrite IH.
Qed.

Lemma common_prefix_le b a : (common_prefix b a <= length b /\ common_prefix b a <= length a)%nat.
Proof.
  revert a. induction b as [|x b IH]; intros [|y a]; simpl; try lia.
  destruct (String.eqb x y); [|lia]. specialize (IH a). lia.
Qed.

Lemma common_suffix_drop n b a (m := common_suffix n b a) :
  drop (length b - n - m) (drop n b) = drop (length a - n - m) (drop n a)
  /\ (m <= length b - n /\ m <= length a - n)%nat.
Proof.
  unfold m, common_suffix. pose proof (common_prefix_le (rev (drop n b)) (rev (drop n a))) as Hle.
  rewrite !length_rev, !length_drop in Hle. split; [|lia].
  pose proof (common_prefix_take (rev (drop n b)) (rev (drop n a))) as Ht.
  apply (f_equal (@rev _)) in Ht.
  rewrite !firstn_rev, !rev_involutive, !length_drop in Ht. exact Ht.
Qed.

(** The preview shows exactly the difference: both texts are the region between
    the same lines before and the same lines after. *)
Lemma changed_region_exact b a p removed added :
  changed_region b a = (p, removed, added) ->
  exists pre post, length pre = p /\ b = pre ++ removed ++ post /\ a = pre ++ added ++ post.
Proof.
  unfold changed_region. intros [= <- <- <-].
  set (p := common_prefix b a). set (m := common_suffix p b a).
  destruct (common_suffix_drop p b a) as (Hs & Hb & Ha). fold m in Hs, Hb, Ha.
  pose proof (common_prefix_le b a) as [Hpb Hpa]. fold p in Hpb, Hpa.
  exists (take p b), (drop (length b - p - m) (drop p b)).
  split; [rewrite length_take; lia|]. replace (length b - m - p)%nat with (length b - p - m)%nat by lia.
  split; [by rewrite take_drop, take_drop|]. rewrite Hs. unfold p at 1. rewrite common_prefix_take. fold p.
  replace (length a - m - p)%nat with (length a - p - m)%nat by lia. by rewrite take_drop, take_drop.
Qed.

Lemma snapshot_guard expected found :
  snapshot_mismatch expected found = None -> forall e, expected = Some e -> found = Some e.
Proof. intros H e ->. simpl in H. by case_bool_decide. Qed.

(** A string edit is exact: when it succeeds, the text was cut at occurrences
    of the old text, none is left in the pieces, and the pieces are joined by the
    new text; without [replace_all] there was exactly one occurrence. *)
Theorem str_replace_is_exact path content old_text new_text replace_all o :
  old_text <> "" ->
  run_string_replace path content old_text new_text replace_all = Ok o ->
  mut_is_error o = false ->
  exists pieces, content = str_join old_text pieces
    /\ next_content o = Some (str_join new_text pieces)
    /\ Forall (fun p => str_contains p old_text = false) pieces
    /\ (2 <= length pieces)%nat /\ (replace_all = false -> length pieces = 2%nat).
Proof.
  intros Hne. unfold run_string_replace, matches_count, str_replace, str_replacen1.
  replace (str_is_empty old_text) with false by (by destruct old_text).
  rewrite split_first_split by done.
  pose proof (split_str_ne old_text 0 content) as Hnn.
  pose proof (join_split_str old_text content Hne) as Hj.
  pose proof (split_str_clean old_text content Hne) as Hc.
  destruct (split_str old_text 0 content) as [|p [|q ps]]; [done | intros [= <-]; done|].
  cbn [length pred Nat.eqb]. destruct replace_all; rewrite ?andb_false_r; cbn [negb].
  - intros [= <-] _. exists (p :: q :: ps). cbn [next_content length]. repeat split; [done.. | lia | done].
  - destruct ps as [|x ps]; [|intros [= <-]; done]. intros [= <-] _.
    exists [p; q]. cbn [next_content length]. repeat split; [done.. | lia].
Qed.

(** Stale writes are refused: when a write, an edit or a delete names the
    snapshot it was prepared against and is not refused, the file has that
    snapshot (or the delete skips a file that is not there). *)
Theorem stale_mutations_refused existing path expected :
  (forall request, wr_expected_snapshot request = Some expected ->
     mut_is_error (apply_write existing path request) = false ->
     stable_text_hash <$> existing = Some expected)
  /\ (forall edits o, apply_text_edits existing path (Some expected) edits = Ok o ->
     mut_is_error o = false -> stable_text_hash <$> existing = Some expected)
  /\ (forall ignore_missing,
     mut_is_error (apply_delete existing path (Some expected) ignore_missing) = false ->
     stable_text_hash <$> existing = Some expected \/ (existing = None /\ ignore_missing = true)).
Proof.
  split; [|split].
  - intros request Hr. unfold apply_write. rewrite Hr. cbn [snapshot_mismatch].
    case_bool_decide; [done | simpl; done].
  - intros edits o. unfold apply_text_edits. destruct existing as [t|]; [|by intros [= <-]].
    destruct (is_nil edits); [done|]. cbn [snapshot_mismatch].
    case_bool_decide; [done | by intros [= <-]].
  - intros im. unfold apply_delete. destruct existing as [t|]; [|destruct im; simpl; auto].
    cbn [snapshot_mismatch]. case_bool_decide; [auto | simpl; done].
Qed.

(** One edit that is not refused leaves a text. *)
Lemma single_edit_text path t op o :
  apply_single_edit path t op = Ok o -> mut_is_error o = false -> exists t', next_content o = Some t'.
Proof.
  destruct op; simpl.
  - unfold run_string_replace. repeat case_match; intros [= <-]; simpl; try done; by eexists.
  - unfold run_line_replace. destruct (line_slice_text _ _ _); [|done]. cbn [result_bind].
    destruct (snapshot_mismatch _ _); [by intros [= <-]|].
    destruct (replace_lines _ _ _ _); [|done]. intros [= <-] _. by eexists.
  - unfold run_insert. destruct (insert_after _ _ _); [|done]. intros [= <-] _. by eexists.
Qed.

(** The texts an edit passes through, one operation at a time. *)
Inductive edited (path : string) : string -> list TextEditOperation -> string -> Prop :=
| edited_nil t : edited path t [] t
| edited_cons t op o t' rest t'' :
    apply_single_edit path t op = Ok o -> mut_is_error o = false -> next_content o = Some t' ->
    edited path t' rest t'' -> edited path t (op :: rest) t''.

Lemma edit_loop_edited path before edits t ops r :
  edit_loop path before t edits ops = Ok r ->
  match r with
  | inr (t', ops') => edited path t edits t' /\ length ops' = (length ops + length edits)%nat
  | inl failed => mut_is_error failed = true /\ exists done op rest t',
      edits = done ++ op :: rest /\ edited path t done t' /\ next_content failed = Some t'
      /\ exists o, apply_single_edit path t' op = Ok o /\ mut_is_error o = true
  end.
Proof.
  revert t ops. induction edits as [|op edits IH]; intros t ops; simpl.
  { intros [= <-]. split; [constructor | lia]. }
  destruct (apply_single_edit path t op) as [o|] eqn:E; [|done]. cbn [result_bind].
  destruct (mut_is_error o) eqn:Ee.
  - intros [= <-]. split; [done|]. exists [], op, edits, t. repeat split; [constructor|]. by exists o.
  - destruct (single_edit_text _ _ _ _ E Ee) as [t' Ht']. rewrite Ht'. cbn [ok_or result_bind].
    intros Hl. specialize (IH _ _ Hl). destruct r as [failed|[t'' ops']].
    + destruct IH as (Hf & dn & op' & rest & u & -> & Hd & Hn & Ho). split; [done|].
      exists (op :: dn), op', rest, u. repeat split; try done. by econstructor.
    + destruct IH as [Hd Hlen]. split; [by econstructor|]. rewrite Hlen, length_app. simpl. lia.
Qed.

End Mutation.

(** ** Concrete runs *)

#[local] Existing Instance json_text.

(** JSON values as text, and a digest that is the text itself. *)
#[export] Instance text_data : JsonData json_text := {|
  jd_object := fun l => "{" +:+ str_join "," (map (fun p => p.1 +:+ ":" +:+ p.2) l) +:+ "}";
  jd_string := fun s => s;
  jd_usize := fmt_nat;
  jd_bool := fun b => if b then "true" else "false";
  jd_null := "null";
  jd_array := fun l => "[" +:+ str_join "," l +:+ "]"
|}.
#[export] Instance bytes_digest : Sha256 :=
  {| sha256_digest := fun text => map (fun c => nat_of_ascii c) (list_ascii_of_string text) |}.

Lemma str_replace_is_exact_witness :
  exists pieces, "a-b-c" = str_join "-" pieces /\ Some "a+b+c" = Some (str_join "+" pieces)
    /\ Forall (fun p => str_contains p "-" = false) pieces
    /\ (2 <= length pieces)%nat /\ (true = false -> length pieces = 2%nat).
Proof.
  pose proof (fun H => str_replace_is_exact "f" "a-b-c" "-" "+" true _ H eq_refl eq_refl) as Hex.
  apply Hex. discriminate.
Defined.

Lemma stale_mutations_refused_witness :
  stable_text_hash <$> Some "old" = Some (stable_text_hash "old").
Proof.
  destruct (stale_mutations_refused (Some "old") "f" (stable_text_hash "old")) as [Hw _].
  apply (Hw (mkWriteRequest "new" IfExists_Overwrite IfMissing_Create (Some (stable_text_hash "old"))));
    reflexivity.
Defined.
