(* ===== verification/PatchFreeform.v ===== *)
(** * Freeform patches

    Models the pure part of [crates/tools/src/fs/patch_freeform.rs]: the parser of
    the [*** Begin Patch] format and the way the chunks of an update are located
    in a file and applied.  The lines [lines[index..end_index]] a loop of the
    source still has to read are passed as a list.  Operations that panic in Rust
    (a split inside a character, a splice out of range) are the failure
    [Fail_Panic]. *)

From Stdlib Require Import Ascii String.
From stdpp Require Import base list strings.
From Stdlib Require Import Lia.
From S2P Require Import Prelude Text Message Errors TextBuffer.

(** How a computation fails: with an error value, with a panic, or (for a loop of
    the model only) without fuel. *)
Inductive Failure := Fail_Error (e : ToolError) | Fail_Panic | Fail_Fuel.

Definition invalid {A} (message : string) : result A Failure :=
  Err (Fail_Error (ToolErr_InvalidInput message)).

(* crates/tools/src/fs/patch_freeform.rs, UpdateChunk *)
Record UpdateChunk := mkUpdateChunk {
  change_context : option string;
  old_lines : list string;
  new_lines : list string;
  is_end_of_file : bool
}.

(* crates/tools/src/fs/patch_freeform.rs, PatchHunk *)
Inductive PatchHunk :=
| Hunk_Add (path contents : string)
| Hunk_Delete (path : string)
| Hunk_Update (path : string) (move_path : option string) (chunks : list UpdateChunk).

(* crates/tools/src/fs/patch_freeform.rs, parse_non_empty_path *)
Definition parse_non_empty_path (raw label : string) : result string Failure :=
  let path := trim raw in
  if str_is_empty path then
    invalid ("patch_files freeform " +:+ label +:+ " path must not be empty")
  else Ok path.

(** The [+] lines of an added file, and what follows them. *)
Fixpoint take_add_lines (lines : list string) : result (list string * list string) Failure :=
  match lines with
  | [] => Ok ([], [])
  | line :: rest =>
      if starts_with line "***" then Ok ([], lines)
      else
        match strip_prefix "+" line with
        | None => invalid "patch_files freeform add hunks may only contain `+` lines"
        | Some content =>
            more <-? take_add_lines rest; Ok (content :: more.1, more.2)
        end
  end.

(* crates/tools/src/fs/patch_freeform.rs, parse_add_contents *)
Definition parse_add_contents (lines : list string) : result (string * list string) Failure :=
  taken <-? take_add_lines lines;
  if is_nil taken.1 then
    invalid "patch_files freeform add file hunks must contain at least one `+` line"
  else Ok (str_join nl taken.1, taken.2).

(** [str::split_at(1)] of a non-empty string: a panic unless the first character
    is one byte long. *)
Definition split_at_1 (s : string) : result (string * string) Failure :=
  match s with
  | "" => Err Fail_Panic
  | String a rest =>
      match rest with
      | String b _ => if char_start b then Ok (String a "", rest) else Err Fail_Panic
      | "" => Ok (String a "", "")
      end
  end.

(** A line that ends the chunks of an update. *)
Definition ends_update (line : string) : bool :=
  starts_with line "***" && negb (String.eqb line "*** End of File").

(** The inner loop of [parse_update_chunks]: the change lines of one chunk. *)
(* crates/tools/src/fs/patch_freeform.rs, parse_update_chunks@let mut old_lines ~~ chunks.push *)
Fixpoint parse_change_lines (lines old new : list string)
    : result (list string * list string * bool * list string) Failure :=
  match lines with
  | [] => Ok (old, new, false, [])
  | change_line :: rest =>
      if starts_with change_line "@@" || ends_update change_line then Ok (old, new, false, lines)
      else if String.eqb change_line "*** End of File" then Ok (old, new, true, rest)
      else if str_is_empty change_line then
        invalid "patch_files freeform change lines must begin with ` `, `+`, or `-`"
      else
        split <-? split_at_1 change_line;
        let '(prefix, content) := split in
        if String.eqb prefix " " then parse_change_lines rest (old ++ [content]) (new ++ [content])
        else if String.eqb prefix "-" then parse_change_lines rest (old ++ [content]) new
        else if String.eqb prefix "+" then parse_change_lines rest old (new ++ [content])
        else invalid ("unsupported patch_files freeform change line " +:+ bt +:+ change_line +:+ bt)
  end.

(* crates/tools/src/fs/patch_freeform.rs, parse_update_chunks *)
Fixpoint parse_update_chunks (fuel : nat) (lines : list string)
    : result (list UpdateChunk * list string) Failure :=
  match lines, fuel with
  | [], _ => Ok ([], [])
  | line :: rest, S fuel =>
      if ends_update line then Ok ([], lines)
      else
        match strip_prefix "@@" line with
        | None =>
            invalid ("patch_files freeform update hunks must start each chunk with `@@`; found "
                       +:+ bt +:+ line +:+ bt)
        | Some context =>
            parsed <-? parse_change_lines rest [] [];
            let '(old, new, eof, rest) := parsed in
            more <-? parse_update_chunks fuel rest;
            let change_context := if str_is_empty (trim context) then None else Some (trim context) in
            Ok (mkUpdateChunk change_context old new eof :: more.1, more.2)
        end
  | _ :: _, O => Err Fail_Fuel
  end.

(** The lines between the markers, one hunk after the other. *)
(* crates/tools/src/fs/patch_freeform.rs, parse_patch_files@while index < end_index *)
Fixpoint parse_hunks (fuel : nat) (lines : list string) : result (list PatchHunk) Failure :=
  match lines, fuel with
  | [], _ => Ok []
  | _ :: _, O => Err Fail_Fuel
  | line :: rest, S fuel =>
      match strip_prefix "*** Add File: " line with
      | Some path =>
          path <-? parse_non_empty_path path "add file";
          added <-? parse_add_contents rest;
          more <-? parse_hunks fuel added.2;
          Ok (Hunk_Add path added.1 :: more)
      | None =>
      match strip_prefix "*** Delete File: " line with
      | Some path =>
          path <-? parse_non_empty_path path "delete file";
          more <-? parse_hunks fuel rest;
          Ok (Hunk_Delete path :: more)
      | None =>
      match strip_prefix "*** Update File: " line with
      | Some path =>
          path <-? parse_non_empty_path path "update file";
          moved <-? match rest with
                    | next :: rest' =>
                        match strip_prefix "*** Move to: " next with
                        | Some value =>
                            target <-? parse_non_empty_path value "move target";
                            Ok (Some target, rest')
                        | None => Ok (None, rest)
                        end
                    | [] => Ok (None, [])
                    end;
          let '(move_path, rest) := moved in
          parsed <-? parse_update_chunks (length rest) rest;
          let '(chunks, rest) := parsed in
          if is_nil chunks && negb (bool_decide (is_Some move_path)) then
            invalid ("update hunk for " +:+ bt +:+ path +:+ bt
                       +:+ " must include at least one change or a move target")
          else
            more <-? parse_hunks fuel rest;
            Ok (Hunk_Update path move_path chunks :: more)
      | None =>
          if str_is_empty (trim line) then parse_hunks fuel rest
          else invalid ("unexpected patch_files freeform line " +:+ bt +:+ line +:+ bt)
      end
      end
      end
  end.

(* crates/tools/src/fs/patch_freeform.rs, parse_patch_files *)
Definition parse_patch_files (patch_text : string) : result (list PatchHunk) Failure :=
  let normalized := str_replace cr nl (str_replace (cr +:+ nl) nl patch_text) in
  let lines := split_on newline (trim normalized) in
  match position (fun line => String.eqb line "*** Begin Patch") lines with
  | None => invalid "patch_files freeform input is missing `*** Begin Patch`"
  | Some begin_index =>
      match rposition (fun line => String.eqb line "*** End Patch") lines with
      | None => invalid "patch_files freeform input is missing `*** End Patch`"
      | Some end_index =>
          if (end_index <=? begin_index)%nat then
            invalid "patch_files freeform markers are malformed; `*** End Patch` must come after `*** Begin Patch`"
          else
            let between := take (end_index - S begin_index) (drop (S begin_index) lines) in
            hunks <-? parse_hunks (length between) between;
            if is_nil hunks then
              invalid "patch_files freeform input requires at least one file hunk between the begin/end markers"
            else Ok hunks
      end
  end.

(** ** Locating and applying the chunks *)

(* crates/tools/src/fs/patch_freeform.rs, normalize_unicode *)
Definition normalize_unicode (input : string) : string :=
  let replace_all (codes : list (list nat)) (w s : string) :=
    foldl (fun s code => str_replace (string_of_bytes code) w s) s codes in
  let s := replace_all [[226; 128; 152]; [226; 128; 153]; [226; 128; 154]; [226; 128; 155]] "'" input in
  let s := replace_all [[226; 128; 156]; [226; 128; 157]; [226; 128; 158]; [226; 128; 159]] dquote s in
  let s := replace_all [[226; 128; 144]; [226; 128; 145]; [226; 128; 146]; [226; 128; 147];
                        [226; 128; 148]; [226; 128; 149]] "-" s in
  let s := replace_all [[226; 128; 166]] "..." s in
  replace_all [[194; 160]] " " s.

(** [pattern.iter().enumerate().all(|(i, expected)| compare(&lines[start + i], expected))]
    for a block that fits. *)
Definition block_matches (compare : string -> string -> bool) (lines pattern : list string)
    (start : nat) : bool :=
  forallb (fun p => compare p.1 p.2) (zip (drop start lines) pattern).

(* crates/tools/src/fs/patch_freeform.rs, try_match *)
Definition try_match (lines pattern : list string) (start_index : nat) (end_of_file : bool)
    (compare : string -> string -> bool) : option nat :=
  if (length lines <? length pattern)%nat then None
  else
    let from_end := (length lines - length pattern)%nat in
    if end_of_file && (start_index <=? from_end)%nat && block_matches compare lines pattern from_end
    then Some from_end
    else
      find_map (fun index => if block_matches compare lines pattern index then Some index else None)
        (seq start_index (S from_end - start_index)).

(** The comparisons tried one after the other. *)
Definition line_comparisons : list (string -> string -> bool) :=
  [ (fun actual expected => String.eqb actual expected);
    (fun actual expected => String.eqb (trim_end actual) (trim_end expected));
    (fun actual expected => String.eqb (trim actual) (trim expected));
    (fun actual expected =>
       String.eqb (normalize_unicode (trim actual)) (normalize_unicode (trim expected))) ].

(* crates/tools/src/fs/patch_freeform.rs, seek_sequence *)
Definition seek_sequence (lines pattern : list string) (start_index : nat) (end_of_file : bool)
    : option nat :=
  if is_nil pattern || (length lines <? length pattern)%nat then None
  else find_map (try_match lines pattern start_index end_of_file) line_comparisons.

(* crates/tools/src/fs/patch_freeform.rs, Replacement *)
Definition Replacement : Type := nat * nat * list string.

(** [pop] when the last line is empty. *)
Definition pop_empty (l : list string) : list string :=
  match last l with Some "" => removelast l | _ => l end.

(** One iteration of [compute_replacements]: the replacement and the next
    [line_index]. *)
(* crates/tools/src/fs/patch_freeform.rs, compute_replacements@for chunk in chunks *)
Definition locate_chunk (original_lines : list string) (path : string) (line_index : nat)
    (chunk : UpdateChunk) : result (Replacement * nat) Failure :=
  line_index <-?
    match change_context chunk with
    | None => Ok line_index
    | Some context =>
        match seek_sequence original_lines [context] line_index false with
        | None => invalid ("failed to find context " +:+ bt +:+ context +:+ bt +:+ " in "
                             +:+ bt +:+ path +:+ bt)
        | Some context_index => Ok (S context_index)
        end
    end;
  if is_nil (old_lines chunk) then
    Ok ((length original_lines, 0%nat, new_lines chunk), line_index)
  else
    let seek pattern := seek_sequence original_lines pattern line_index (is_end_of_file chunk) in
    let '(found, pattern, replacement) :=
      match seek (old_lines chunk) with
      | Some index => (Some index, old_lines chunk, new_lines chunk)
      | None =>
          if bool_decide (last (old_lines chunk) = Some "") then
            (seek (removelast (old_lines chunk)), removelast (old_lines chunk),
             pop_empty (new_lines chunk))
          else (None, old_lines chunk, new_lines chunk)
      end in
    match found with
    | None => invalid ("failed to find expected lines in " +:+ bt +:+ path +:+ bt +:+ ":" +:+ nl
                         +:+ str_join nl (old_lines chunk))
    | Some found_index =>
        Ok ((found_index, length pattern, replacement), (found_index + length pattern)%nat)
    end.

Fixpoint locate_chunks (original_lines : list string) (path : string) (line_index : nat)
    (chunks : list UpdateChunk) : result (list Replacement) Failure :=
  match chunks with
  | [] => Ok []
  | chunk :: rest =>
      located <-? locate_chunk original_lines path line_index chunk;
      more <-? locate_chunks original_lines path located.2 rest;
      Ok (located.1 :: more)
  end.

(** [sort_by_key(|entry| entry.0)]: a stable sort. *)
Fixpoint insert_by_start (r : Replacement) (l : list Replacement) : list Replacement :=
  match l with
  | [] => [r]
  | x :: l' => if (r.1.1 <=? x.1.1)%nat then r :: l else x :: insert_by_start r l'
  end.
Definition sort_by_start (l : list Replacement) : list Replacement := foldr insert_by_start [] l.

(* crates/tools/src/fs/patch_freeform.rs, compute_replacements *)
Definition compute_replacements (original_lines : list string) (path : string)
    (chunks : list UpdateChunk) : result (list Replacement) Failure :=
  replacements <-? locate_chunks original_lines path 0 chunks;
  Ok (sort_by_start replacements).

(** [Vec::splice]: a panic when the range is out of bounds. *)
Definition splice_checked (l : list string) (start len : nat) (new : list string)
    : result (list string) Failure :=
  if (length l <? start + len)%nat then Err Fail_Panic else Ok (splice l start (start + len) new).

(* crates/tools/src/fs/patch_freeform.rs, apply_replacements *)
Definition apply_replacements (lines : list string) (replacements : list Replacement)
    : result (list string) Failure :=
  foldr (fun '(start_index, removed_len, inserted_lines) result =>
    result <-? result; splice_checked result start_index removed_len inserted_lines)
    (Ok lines) replacements.

(* crates/tools/src/fs/patch_freeform.rs, derive_new_content *)
Definition derive_new_content (path original_content : string) (chunks : list UpdateChunk)
    : result string Failure :=
  let original_lines := pop_empty (split_on newline original_content) in
  replacements <-? compute_replacements original_lines path chunks;
  new_lines <-? apply_replacements original_lines replacements;
  let new_lines :=
    match last new_lines with
    | Some "" => new_lines
    | _ => new_lines ++ [""]
    end in
  Ok (str_join nl new_lines).

(** ** How the chunks change a file *)

(** Replacements applied in one pass from the left; [pos] is where [lines]
    starts. *)
Fixpoint subst_from (pos : nat) (lines : list string) (rs : list Replacement) : list string :=
  match rs with
  | [] => lines
  | (i, n, new) :: rest =>
      take (i - pos) lines ++ new ++ subst_from (i + n) (drop (i - pos + n) lines) rest
  end.

(** In order, without overlap, and within [len] lines. *)
Fixpoint ordered (pos len : nat) (rs : list Replacement) : Prop :=
  match rs with
  | [] => (pos <= len)%nat
  | (i, n, _) :: rest => (pos <= i)%nat /\ (i + n <= len)%nat /\ ordered (i + n) len rest
  end.

(** Where a chunk applies: at the end when it removes nothing, otherwise at a
    block of the file that equals its old lines up to one of the comparisons. *)
Inductive chunk_located (lines : list string) (chunk : UpdateChunk) : Replacement -> Prop :=
| located_append :
    old_lines chunk = [] -> chunk_located lines chunk (length lines, 0%nat, new_lines chunk)
| located_block i pattern new compare :
    (pattern, new) = (old_lines chunk, new_lines chunk)
    \/ (last (old_lines chunk) = Some ""
        /\ (pattern, new) = (removelast (old_lines chunk), pop_empty (new_lines chunk))) ->
    pattern <> [] -> (i + length pattern <= length lines)%nat ->
    compare ∈ line_comparisons -> block_matches compare lines pattern i = true ->
    chunk_located lines chunk (i, length pattern, new).

Definition is_block (r : Replacement) : bool := negb (r.1.2 =? 0)%nat.

Lemma ordered_le pos len rs : ordered pos len rs -> (pos <= len)%nat.
Proof.
  revert pos. induction rs as [|[[i n] new] rs IH]; intros pos; simpl; [done|].
  intros (H1 & H2 & H3). lia.
Qed.

Lemma apply_cons lines i n new rs :
  apply_replacements lines ((i, n, new) :: rs)
  = (done <-? apply_replacements lines rs; splice_checked done i n new).
Proof. done. Qed.

Lemma apply_ordered pos lines rs :
  ordered pos (length lines) rs ->
  apply_replacements lines rs = Ok (take pos lines ++ subst_from pos (drop pos lines) rs).
Proof.
  revert pos. induction rs as [|[[i n] new] rs IH]; intros pos; cbn [subst_from ordered].
  { intros _. by rewrite take_drop. }
  intros (Hp & Hn & Ho). rewrite apply_cons, (IH _ Ho). cbn [result_bind]. unfold splice_checked.
  set (tl := subst_from (i + n) (drop (i + n) lines) rs).
  assert (Hl : length (take (i + n) lines) = (i + n)%nat) by (rewrite length_take; lia).
  destruct (Nat.ltb_spec (length (take (i + n) lines ++ tl)) (i + n));
    [rewrite length_app, Hl in *; lia|].
  f_equal. unfold splice. rewrite take_app_le by lia. rewrite take_take, Nat.min_l by lia.
  rewrite drop_app_ge by lia. rewrite Hl, Nat.sub_diag, drop_0, drop_drop.
  replace (pos + (i - pos + n))%nat with (i + n)%nat by lia. fold tl.
  rewrite (app_assoc (take pos lines)). f_equal.
  rewrite <- (take_drop pos (take i lines)), take_take, Nat.min_l by lia.
  by rewrite skipn_firstn_comm.
Qed.

Lemma try_match_Some lines pattern k eof compare i :
  try_match lines pattern k eof compare = Some i ->
  (k <= i)%nat /\ (i + length pattern <= length lines)%nat
  /\ block_matches compare lines pattern i = true.
Proof.
  unfold try_match. destruct (Nat.ltb_spec (length lines) (length pattern)); [done|].
  destruct (eof && _ && _) eqn:E.
  - intros [= <-]. apply andb_true_iff in E as [[_ Hk]%andb_true_iff Hb].
    apply Nat.leb_le in Hk. split; [done|]. split; [lia | done].
  - intros (pre & x & post & Hs & Hx & _)%find_map_Some.
    destruct (block_matches compare lines pattern x) eqn:Eb; [|done]. injection Hx as ->.
    assert (Hin : i ∈ seq k (S (length lines - length pattern) - k))
      by (rewrite Hs; apply elem_of_app; right; left).
    apply elem_of_seq in Hin. split; [lia|]. split; [lia | done].
Qed.

Lemma seek_Some lines pattern k eof i :
  seek_sequence lines pattern k eof = Some i ->
  pattern <> [] /\ (k <= i)%nat /\ (i + length pattern <= length lines)%nat
  /\ exists compare, compare ∈ line_comparisons /\ block_matches compare lines pattern i = true.
Proof.
  unfold seek_sequence. destruct pattern as [|x p]; [done|]. simpl is_nil. cbn [orb].
  destruct (_ <? _)%nat; [done|]. intros (pre & c & post & Hl & Hc & _)%find_map_Some.
  apply try_match_Some in Hc as (Hk & Hi & Hb). split; [done|]. split; [done|]. split; [done|].
  exists c. split; [|done]. rewrite Hl. apply elem_of_app. right. left.
Qed.

Lemma locate_chunk_Ok lines path k chunk r k' :
  locate_chunk lines path k chunk = Ok (r, k') ->
  chunk_located lines chunk r
  /\ if is_block r then (k <= r.1.1 /\ k' = r.1.1 + r.1.2)%nat else (k <= k')%nat.
Proof.
  unfold locate_chunk.
  set (start := match change_context chunk with None => _ | Some _ => _ end).
  assert (Hs : forall k1, start = Ok k1 -> (k <= k1)%nat).
  { unfold start. destruct (change_context chunk) as [c|]; [|by intros ? [= ->]].
    destruct (seek_sequence _ _ _ _) as [i|] eqn:E; [|done]. intros k1 [= <-].
    apply seek_Some in E as (_ & Hk & _). lia. }
  destruct start as [k1|]; [|done]. specialize (Hs k1 eq_refl). cbn [result_bind].
  destruct (old_lines chunk) as [|o os] eqn:Eo.
  { intros [= <- <-]. split; [by constructor | done]. }
  cbn [is_nil]. rewrite <- Eo.
  assert (Hblock : forall pattern new i, seek_sequence lines pattern k1 (is_end_of_file chunk) = Some i ->
    (pattern, new) = (old_lines chunk, new_lines chunk)
    \/ (last (old_lines chunk) = Some ""
        /\ (pattern, new) = (removelast (old_lines chunk), pop_empty (new_lines chunk))) ->
    chunk_located lines chunk (i, length pattern, new)
    /\ if is_block (i, length pattern, new) then (k <= i /\ i + length pattern = i + length pattern)%nat
       else (k <= i + length pattern)%nat).
  { intros pattern new i (Hp & Hk & Hi & c & Hc & Hb)%seek_Some Hpn. split; [by econstructor|].
    destruct (is_block _); lia. }
  destruct (seek_sequence lines (old_lines chunk) k1 (is_end_of_file chunk)) as [i|] eqn:E1.
  { intros [= <- <-]. apply Hblock; auto. }
  case_bool_decide as Hlast; [|done].
  destruct (seek_sequence lines (removelast _) _ _) as [i|] eqn:E2; [|done].
  intros [= <- <-]. apply Hblock; auto.
Qed.

(** The replacements of the chunks, with where the search stands. *)
Fixpoint located_from (k len : nat) (rs : list Replacement) : Prop :=
  match rs with
  | [] => True
  | r :: rest =>
      if is_block r then (k <= r.1.1 /\ r.1.1 + r.1.2 <= len)%nat /\ located_from (r.1.1 + r.1.2) len rest
      else r.1.1 = len /\ located_from k len rest
  end.

Lemma located_from_mono k k' len rs : (k' <= k)%nat -> located_from k len rs -> located_from k' len rs.
Proof.
  revert k k'. induction rs as [|r rs IH]; intros k k' Hk; simpl; [done|].
  destruct (is_block r); [intros [? ?]; split; [lia | done]|].
  intros [? ?]. split; [done|]. by eapply IH.
Qed.

Lemma chunk_located_bounds lines chunk r :
  chunk_located lines chunk r ->
  if is_block r then (r.1.1 + r.1.2 <= length lines)%nat else r.1.1 = length lines.
Proof.
  intros [Ho|i pattern new c Hpn Hp Hi Hc Hb]; [done|]. unfold is_block. cbn.
  by destruct pattern.
Qed.

Lemma locate_chunks_Ok lines path k chunks rs :
  locate_chunks lines path k chunks = Ok rs ->
  Forall2 (chunk_located lines) chunks rs /\ located_from k (length lines) rs.
Proof.
  revert k rs. induction chunks as [|c chunks IH]; intros k rs; simpl.
  { intros [= <-]. split; constructor. }
  destruct (locate_chunk lines path k c) as [[r k']|] eqn:E; [|done]. cbn [result_bind fst snd].
  destruct (locate_chunks lines path k' chunks) as [more|] eqn:Em; [|done]. intros [= <-].
  apply locate_chunk_Ok in E as [Hc Hk]. destruct (IH _ _ Em) as [Hf Hl].
  split; [by constructor|]. simpl. pose proof (chunk_located_bounds _ _ _ Hc) as Hb.
  destruct (is_block r).
  - destruct Hk as [Hk ->]. by split.
  - split; [done|]. by eapply located_from_mono.
Qed.

Lemma located_ordered k len rs :
  (k <= len)%nat -> located_from k len rs -> ordered k len (List.filter is_block rs).
Proof.
  revert k. induction rs as [|r rs IH]; intros k Hk; simpl; [done|].
  destruct (is_block r) eqn:E; [|intros [_ Hr]; by apply IH].
  destruct r as [[i n] new]. cbn. intros [[Hi Hn] Hr]. split; [done|]. split; [done|]. apply IH; [lia | done].
Qed.

Lemma insert_first r l :
  Forall (fun x => (r.1.1 <= x.1.1)%nat) l -> insert_by_start r l = r :: l.
Proof.
  intros [|x l' Hx _]; simpl; [done|]. by rewrite (proj2 (Nat.leb_le _ _) Hx).
Qed.

Lemma insert_after_smaller r l k :
  Forall (fun x => (x.1.1 < r.1.1)%nat) l -> Forall (fun x => (r.1.1 <= x.1.1)%nat) k ->
  insert_by_start r (l ++ k) = l ++ r :: k.
Proof.
  intros Hl Hk. induction Hl as [|x l Hx _ IH]; simpl; [by apply insert_first|].
  destruct (Nat.leb_spec r.1.1 x.1.1); [lia|]. by rewrite IH.
Qed.

Lemma located_starts k len rs :
  located_from k len rs ->
  Forall (fun x => (k <= x.1.1 /\ x.1.1 < len)%nat) (List.filter is_block rs)
  /\ Forall (fun x => x.1.1 = len /\ x.1.2 = 0%nat) (List.filter (fun r => negb (is_block r)) rs).
Proof.
  revert k. induction rs as [|r rs IH]; intros k; simpl; [by repeat constructor|].
  destruct (is_block r) eqn:E; unfold is_block in E.
  - intros [Hb Hr]. destruct (IH _ Hr) as [H1 H2]. simpl. split; [|done].
    destruct (Nat.eqb_spec r.1.2 0); [done|]. constructor; [lia|].
    eapply Forall_impl; [exact H1|]. simpl. intros x Hx. lia.
  - intros [Hb Hr]. destruct (IH _ Hr) as [H1 H2]. simpl. split; [done|].
    destruct (Nat.eqb_spec r.1.2 0); [|done]. by constructor.
Qed.

(** Sorting puts the blocks, which are in order, before the appended lines. *)
Lemma sort_located k len rs :
  located_from k len rs ->
  sort_by_start rs = List.filter is_block rs ++ List.filter (fun r => negb (is_block r)) rs.
Proof.
  revert k. induction rs as [|r rs IH]; intros k Hl; [done|]. simpl. simpl in Hl.
  destruct (is_block r) eqn:E; simpl.
  - destruct Hl as [Hb Hr]. rewrite (IH _ Hr). destruct (located_starts _ _ _ Hr) as [H1 H2].
    apply insert_first, Forall_app. split.
    + eapply Forall_impl; [exact H1|]. simpl. lia.
    + eapply Forall_impl; [exact H2|]. simpl. lia.
  - destruct Hl as [Hb Hr]. rewrite (IH _ Hr). destruct (located_starts _ _ _ Hr) as [H1 H2].
    apply insert_after_smaller.
    + eapply Forall_impl; [exact H1|]. simpl. lia.
    + eapply Forall_impl; [exact H2|]. simpl. lia.
Qed.

Lemma subst_append pos len rs ins lines :
  ordered pos len rs -> length lines = (len - pos)%nat ->
  Forall (fun x => x.1.1 = len /\ x.1.2 = 0%nat) ins ->
  subst_from pos lines (rs ++ ins) = subst_from pos lines rs ++ concat (snd <$> ins)
  /\ ordered pos len (rs ++ ins).
Proof.
  revert pos lines. induction rs as [|[[i n] new] rs IH]; intros pos lines Ho Hlen Hi.
  - revert pos lines Ho Hlen. induction Hi as [|[[i n] new] ins [E1 E2] _ IH]; intros pos lines Ho Hlen.
    { split; [symmetry; apply app_nil_r | done]. }
    simpl in E1, E2, Ho. subst i n. cbn [app subst_from ordered fmap list_fmap concat snd] in *.
    rewrite Nat.add_0_r. rewrite take_ge, drop_ge by lia.
    destruct (IH len []) as [IH1 IH2]; [simpl; lia | simpl; lia|].
    cbn [app subst_from] in IH1. split; [by rewrite IH1 | split; [lia|]; by split; [lia|]].
  - cbn [app subst_from ordered] in *. destruct Ho as (Hp & Hn & Ho).
    destruct (IH (i + n) (drop (i - pos + n) lines) Ho) as [-> H2]; [rewrite length_drop; lia | done|].
    rewrite <- !app_assoc. done.
Qed.

Lemma locate_never_panics lines path k chunks e :
  locate_chunks lines path k chunks = Err e -> exists t, e = Fail_Error t.
Proof.
  revert k. induction chunks as [|c chunks IH]; intros k; simpl; [done|].
  destruct (locate_chunk lines path k c) as [[r k']|e'] eqn:E; cbn [result_bind].
  - destruct (locate_chunks _ _ _ _) eqn:Em; [done|]. cbn [result_bind]. intros [= <-]. by eapply IH.
  - intros [= ->]. unfold locate_chunk in E.
    destruct (match change_context c with None => _ | Some _ => _ end) as [k1|e1] eqn:E1.
    + cbn [result_bind] in E. destruct (is_nil _); [done|].
      destruct (seek_sequence _ (old_lines c) _ _); [done|]. case_bool_decide;
        [destruct (seek_sequence _ (removelast _) _ _); [done|]|]; injection E as <-; by eexists.
    + cbn [result_bind] in E. injection E as ->. destruct (change_context c); [|done].
      destruct (seek_sequence _ _ _ _); [done|]. injection E1 as <-. by eexists.
Qed.

(** Applying the chunks of an update never panics, and when it succeeds every
    chunk was found: its old lines match a block of the file, the blocks are in
    the order of the chunks and do not overlap, and the new text is the file with
    exactly these blocks replaced, the chunks without old lines appended, and a
    final newline. *)
Theorem freeform_update_exact path content chunks :
  let lines := pop_empty (split_on newline content) in
  match derive_new_content path content chunks with
  | Ok text => exists rs,
      Forall2 (chunk_located lines) chunks rs
      /\ let blocks := List.filter is_block rs in
         let appended := List.filter (fun r => negb (is_block r)) rs in
         let new_lines := subst_from 0 lines blocks ++ concat (snd <$> appended) in
         ordered 0 (length lines) blocks
         /\ text = str_join nl (match last new_lines with
                                | Some "" => new_lines | _ => new_lines ++ [""] end)
  | Err (Fail_Error _) => True
  | Err _ => False
  end.
Proof.
  intros lines. unfold derive_new_content. fold lines. unfold compute_replacements.
  destruct (locate_chunks lines path 0 chunks) as [rs|e] eqn:E; cbn [result_bind];
    [|by destruct (locate_never_panics _ _ _ _ _ E) as [t ->]].
  apply locate_chunks_Ok in E as [Hf Hl]. rewrite (sort_located _ _ _ Hl).
  pose proof (located_ordered 0 (length lines) rs (Nat.le_0_l _) Hl) as Ho.
  destruct (located_starts _ _ _ Hl) as [_ Hi].
  destruct (subst_append 0 (length lines) _ _ lines Ho (eq_sym (Nat.sub_0_r _)) Hi) as [Hs Ho'].
  rewrite (apply_ordered 0 lines _ Ho'). cbn [result_bind]. rewrite take_0, drop_0, Hs.
  exists rs. split; [done|]. split; [done|]. done.
Qed.

(** ** The parser *)

#[local] Arguments strip_prefix : simpl never.
#[local] Arguments starts_with : simpl never.
#[local] Arguments ends_update : simpl never.

Lemma strip_prefix_app p s : strip_prefix p (p +:+ s) = Some s.
Proof. by apply strip_prefix_Some. Qed.

(** The loops of the parser never run out of fuel, and what they leave is not
    longer than what they were given. *)
Definition consumes {A} (lines : list string) (r : result (A * list string) Failure) : Prop :=
  match r with
  | Ok (_, rest) => (length rest <= length lines)%nat
  | Err e => e <> Fail_Fuel
  end.

Lemma consumes_invalid {A} lines m : consumes (A := A) lines (invalid m).
Proof. discriminate. Qed.
#[local] Hint Resolve consumes_invalid : core.

Lemma take_add_consumes lines : consumes lines (take_add_lines lines).
Proof.
  induction lines as [|l lines IH]; simpl; [lia|].
  destruct (starts_with l "***"); [simpl; lia|]. destruct (strip_prefix "+" l); [|auto].
  destruct (take_add_lines lines) as [[a r]|e]; simpl in *; [lia | done].
Qed.

Lemma parse_add_consumes lines : consumes lines (parse_add_contents lines).
Proof.
  unfold parse_add_contents. pose proof (take_add_consumes lines) as H.
  destruct (take_add_lines lines) as [[a r]|e]; simpl in *; [|done]. destruct (is_nil a); [discriminate | done].
Qed.

Lemma split_at_1_Err l e : split_at_1 l = Err e -> e = Fail_Panic.
Proof.
  unfold split_at_1. repeat case_match; intros H'; try discriminate H'; by injection H' as <-.
Qed.

Lemma change_lines_consumes lines old new : consumes lines (parse_change_lines lines old new).
Proof.
  revert old new. induction lines as [|l lines IH]; intros old new; simpl; [lia|].
  destruct (_ || _); [simpl; lia|]. destruct (String.eqb l _); [simpl; lia|].
  destruct (str_is_empty l); [auto|].
  destruct (split_at_1 l) as [[p c]|e] eqn:Hs; cbn [result_bind]; [|by rewrite (split_at_1_Err l e Hs)].
  assert (Hstep : forall o n, consumes (l :: lines) (parse_change_lines lines o n)).
  { intros o n. specialize (IH o n). destruct (parse_change_lines lines o n) as [[x r]|]; simpl in *; [lia | done]. }
  repeat case_match; auto.
Qed.

Lemma update_chunks_consumes fuel lines :
  (length lines <= fuel)%nat -> consumes lines (parse_update_chunks fuel lines).
Proof.
  revert lines. induction fuel as [|fuel IH]; intros [|l lines]; simpl; intros Hf; try lia.
  destruct (ends_update l); [simpl; lia|]. destruct (strip_prefix "@@" l) as [ctx|]; [|auto].
  pose proof (change_lines_consumes lines [] []) as Hc.
  destruct (parse_change_lines lines [] []) as [[[[o n] eof] rest]|e]; simpl in *; [|done].
  specialize (IH rest ltac:(lia)).
  destruct (parse_update_chunks fuel rest) as [[cs rest']|e]; simpl in *; [lia | done].
Qed.

Lemma non_empty_path_no_fuel raw label : parse_non_empty_path raw label <> Err Fail_Fuel.
Proof. unfold parse_non_empty_path. by destruct (str_is_empty _); [discriminate|]. Qed.

Lemma parse_hunks_no_fuel fuel lines :
  (length lines <= fuel)%nat -> parse_hunks fuel lines <> Err Fail_Fuel.
Proof.
  revert lines. induction fuel as [|fuel IH]; intros [|l lines]; cbn [length parse_hunks]; intros Hf; try (done || lia).
  assert (Hpath : forall raw label (k : string -> result (list PatchHunk) Failure),
    (forall p, k p <> Err Fail_Fuel) -> result_bind (parse_non_empty_path raw label) k <> Err Fail_Fuel).
  { intros raw label k Hk. pose proof (non_empty_path_no_fuel raw label).
    destruct (parse_non_empty_path raw label); cbn [result_bind]; [apply Hk | congruence]. }
  assert (Hmore : forall rest h, (length rest <= length lines)%nat ->
    (more <-? parse_hunks fuel rest; Ok (h :: more)) <> Err Fail_Fuel).
  { intros rest h Hr. specialize (IH rest ltac:(lia)). destruct (parse_hunks fuel rest); cbn; congruence. }
  destruct (strip_prefix "*** Add File: " l) as [p|].
  { apply Hpath. intros path. pose proof (parse_add_consumes lines) as Hc.
    destruct (parse_add_contents lines) as [[c rest]|e]; simpl in *; [by apply Hmore | congruence]. }
  destruct (strip_prefix "*** Delete File: " l) as [p|]; [by apply Hpath; intros; apply Hmore|].
  destruct (strip_prefix "*** Update File: " l) as [p|].
  2: { destruct (str_is_empty _); [apply IH; lia | discriminate]. }
  apply Hpath. intros path. set (moved := match lines with [] => _ | _ => _ end).
  assert (Hm : consumes lines moved).
  { unfold moved. destruct lines as [|nx rest]; [simpl; lia|].
    destruct (strip_prefix _ nx) as [v|]; [|simpl; lia].
    pose proof (non_empty_path_no_fuel v "move target").
    destruct (parse_non_empty_path v "move target"); simpl; [lia | congruence]. }
  destruct moved as [[mv rest]|e]; simpl in *; [|congruence].
  pose proof (update_chunks_consumes (length rest) rest (le_n _)) as Hc.
  destruct (parse_update_chunks _ rest) as [[cs rest']|e]; simpl in *; [|congruence].
  destruct (is_nil cs && _); [discriminate|]. apply Hmore. lia.
Qed.

(** The text of a patch, as the format describes it. *)
Definition render_chunk (c : UpdateChunk) : list string :=
  ("@@" +:+ match change_context c with Some ctx => " " +:+ ctx | None => "" end)
  :: map (fun l => "-" +:+ l) (old_lines c) ++ map (fun l => "+" +:+ l) (new_lines c)
  ++ (if is_end_of_file c then ["*** End of File"] else []).

Definition render_hunk (h : PatchHunk) : list string :=
  match h with
  | Hunk_Add path contents =>
      ("*** Add File: " +:+ path) :: map (fun l => "+" +:+ l) (split_on newline contents)
  | Hunk_Delete path => ["*** Delete File: " +:+ path]
  | Hunk_Update path move_path chunks =>
      ("*** Update File: " +:+ path)
      :: option_list ((fun p => "*** Move to: " +:+ p) <$> move_path)
      ++ concat (map render_chunk chunks)
  end.

Definition render_patch (hunks : list PatchHunk) : string :=
  str_join nl (["*** Begin Patch"] ++ concat (map render_hunk hunks) ++ ["*** End Patch"]).

(** What the format can express: names without surrounding blanks, lines without
    line breaks. *)
Definition plain_text (s : string) : Prop := lacks newline s /\ lacks (byte_at 13) s.
Definition name_ok (s : string) : Prop := trim s = s /\ s <> "" /\ plain_text s.
(** A Rust string starts at a character. *)
Definition line_ok (s : string) : Prop :=
  plain_text s /\ match s with String a _ => char_start a = true | "" => True end.
Definition chunk_ok (c : UpdateChunk) : Prop :=
  from_option name_ok True (change_context c) /\ Forall line_ok (old_lines c)
  /\ Forall line_ok (new_lines c).
Definition hunk_ok (h : PatchHunk) : Prop :=
  match h with
  | Hunk_Add path contents => name_ok path /\ lacks (byte_at 13) contents
  | Hunk_Delete path => name_ok path
  | Hunk_Update path move_path chunks =>
      name_ok path /\ from_option name_ok True move_path /\ Forall chunk_ok chunks
      /\ (chunks <> [] \/ is_Some move_path)
  end.

(** What can follow a hunk: nothing, or the header of another one. *)
Definition starts_hunk (lines : list string) : Prop :=
  match lines with [] => True | l :: _ => ends_update l = true end.

Lemma render_starts hunks : starts_hunk (concat (map render_hunk hunks)).
Proof. destruct hunks as [|[]]; done. Qed.

Lemma take_add_render ls rest :
  starts_hunk rest -> take_add_lines (map (fun l => "+" +:+ l) ls ++ rest) = Ok (ls, rest).
Proof.
  intros Hr. induction ls as [|l ls IH]; cbn [map app].
  - destruct rest as [|r rest]; [done|]. cbn [take_add_lines]. simpl in Hr. unfold ends_update in Hr.
    apply andb_true_iff in Hr as [-> _]. done.
  - cbn [take_add_lines]. change (starts_with ("+" +:+ l) "***") with false. cbv iota.
    by rewrite strip_prefix_app, IH.
Qed.

Lemma split_at_render c l :
  match l with String a _ => char_start a = true | "" => True end ->
  split_at_1 (String c l) = Ok (String c "", l).
Proof. destruct l as [|b l]; simpl; [done | by intros ->]. Qed.

Lemma change_old_render ls rest old new :
  Forall line_ok ls ->
  parse_change_lines (map (fun l => "-" +:+ l) ls ++ rest) old new
  = parse_change_lines rest (old ++ ls) new.
Proof.
  intros Hl. revert old. induction Hl as [|l ls [_ Hc] _ IH]; intros old; [by rewrite app_nil_r|].
  change ("-" +:+ l) with (String "-" l). cbn [map app parse_change_lines].
  change ("-" +:+ l) with (String "-" l). rewrite split_at_render by done. cbn.
  rewrite IH. by rewrite <- app_assoc.
Qed.

Lemma change_new_render ls rest old new :
  Forall line_ok ls ->
  parse_change_lines (map (fun l => "+" +:+ l) ls ++ rest) old new
  = parse_change_lines rest old (new ++ ls).
Proof.
  intros Hl. revert new. induction Hl as [|l ls [_ Hc] _ IH]; intros new; [by rewrite app_nil_r|].
  cbn [map app parse_change_lines]. change ("+" +:+ l) with (String "+" l).
  rewrite split_at_render by done. cbn. rewrite IH. by rewrite <- app_assoc.
Qed.

(** What can follow a chunk. *)
Definition ends_chunk (lines : list string) : Prop :=
  match lines with [] => True | l :: _ => starts_with l "@@" || ends_update l = true end.

Lemma change_lines_render c rest :
  chunk_ok c -> ends_chunk rest ->
  parse_change_lines (tail (render_chunk c) ++ rest) [] []
  = Ok (old_lines c, new_lines c, is_end_of_file c, rest).
Proof.
  intros (_ & Ho & Hn) Hr. cbn [tail render_chunk]. rewrite <- !app_assoc.
  rewrite change_old_render, change_new_render by done. cbn [app].
  destruct (is_end_of_file c); [done|]. destruct rest as [|r rest]; [done|].
  cbn [app parse_change_lines]. simpl in Hr. by rewrite Hr.
Qed.

Lemma trim_context ctx : trim ctx = ctx -> ctx <> "" -> trim (" " +:+ ctx) = ctx.
Proof. intros Ht Hne. unfold trim in *. simpl trim_start. exact Ht. Qed.

Lemma update_chunks_render chunks rest fuel :
  Forall chunk_ok chunks -> starts_hunk rest ->
  (length (concat (map render_chunk chunks) ++ rest) <= fuel)%nat ->
  parse_update_chunks fuel (concat (map render_chunk chunks) ++ rest) = Ok (chunks, rest).
Proof.
  intros Hc Hr. revert fuel. induction Hc as [|c chunks Hc Hcs IH]; intros fuel Hf.
  - simpl. destruct rest as [|r rest]; [by destruct fuel|]. destruct fuel; [simpl in Hf; lia|].
    simpl in *. by rewrite Hr.
  - cbn [map concat] in *. rewrite <- app_assoc in *.
    set (more := concat (map render_chunk chunks) ++ rest) in *.
    assert (He : ends_chunk more).
    { unfold more. destruct chunks as [|d ds]; [|done]. destruct rest; [done|].
      simpl in Hr |- *. by rewrite Hr, orb_true_r. }
    pose proof (change_lines_render c more Hc He) as Hp. cbn [render_chunk tail app] in Hp, Hf |- *.
    destruct fuel as [|fuel]; [simpl in Hf; lia|]. cbn [parse_update_chunks].
    change (ends_update ("@@" +:+ ?x)) with false. cbv iota.
    rewrite strip_prefix_app.
    rewrite Hp. cbn [result_bind]. rewrite IH.
    + cbn [result_bind fst snd]. f_equal. f_equal. destruct Hc as (Hctx & _).
      destruct c as [[ctx|] o n eof]; [|done]. cbn [change_context old_lines new_lines is_end_of_file] in *.
      destruct Hctx as (Ht & Hne & _). rewrite trim_context by done. by destruct ctx.
    + cbn [length] in Hf. rewrite length_app in Hf. lia.
Qed.

Lemma path_render p label : name_ok p -> parse_non_empty_path p label = Ok p.
Proof. intros (Ht & Hne & _). unfold parse_non_empty_path. rewrite Ht. by destruct p. Qed.

Lemma parse_hunks_render hunks fuel :
  Forall hunk_ok hunks -> (length (concat (map render_hunk hunks)) <= fuel)%nat ->
  parse_hunks fuel (concat (map render_hunk hunks)) = Ok hunks.
Proof.
  intros Hh. revert fuel. induction Hh as [|h hunks Hh Hhs IH]; intros fuel Hf; [by destruct fuel|].
  cbn [map concat] in *. set (rest := concat (map render_hunk hunks)) in *.
  pose proof (render_starts hunks : starts_hunk rest) as Hr.
  rewrite length_app in Hf. assert (Hrec : forall n, (length rest <= n)%nat -> parse_hunks n rest = Ok hunks)
    by (intros; by apply IH). clear IH.
  destruct fuel as [|fuel]; [destruct h; simpl in Hf; lia|].
  destruct h as [path contents|path|path mv chunks]; cbn [render_hunk app length] in *.
  - destruct Hh as [Hp Hc]. cbn [parse_hunks]. rewrite strip_prefix_app, path_render by done.
    cbn [result_bind]. unfold parse_add_contents. rewrite take_add_render by done.
    cbn [result_bind fst snd]. pose proof (split_on_ne newline contents) as Hne.
    destruct (split_on newline contents) as [|x xs] eqn:Es; [done|]. cbn [is_nil].
    rewrite <- Es. cbn [result_bind fst snd]. rewrite Hrec by (rewrite length_map in Hf; lia).
    cbn [result_bind]. unfold nl. by rewrite join_split.
  - cbn [parse_hunks]. change (strip_prefix "*** Add File: " ("*** Delete File: " +:+ path)) with (None (A := string)).
    cbv iota. rewrite strip_prefix_app, path_render by done. cbn [result_bind]. rewrite Hrec by lia. done.
  - destruct Hh as (Hp & Hm & Hc & Hsome). cbn [parse_hunks].
    change (strip_prefix "*** Add File: " ("*** Update File: " +:+ path)) with (None (A := string)).
    change (strip_prefix "*** Delete File: " ("*** Update File: " +:+ path)) with (None (A := string)).
    cbv iota. rewrite strip_prefix_app, path_render by done. cbn [result_bind]. rewrite <- app_assoc.
    set (body := concat (map render_chunk chunks) ++ rest).
    assert (Hmove : (match option_list ((fun p => "*** Move to: " +:+ p) <$> mv) ++ body with
       | next :: rest' => match strip_prefix "*** Move to: " next with
                          | Some value => target <-? parse_non_empty_path value "move target"; Ok (Some target, rest')
                          | None => Ok (None, next :: rest') end
       | [] => Ok (None, []) end) = Ok (mv, body)).
    { destruct mv as [m|].
      - change (option_list ((fun p => "*** Move to: " +:+ p) <$> Some m) ++ body)
          with (("*** Move to: " +:+ m) :: body). cbv iota beta.
        by rewrite strip_prefix_app, path_render.
      - unfold body. destruct chunks as [|c cs]; [destruct Hsome as [|[? ?]]; done|]. done. }
    destruct (option_list _ ++ body) as [|nx rs] eqn:Eo; rewrite Hmove; cbn [result_bind];
      (unfold body; rewrite update_chunks_render by done; cbn [result_bind];
       replace (is_nil chunks && negb (bool_decide (is_Some mv))) with false;
       [rewrite Hrec; [done|] |
        destruct chunks as [|c cs]; [destruct Hsome as [|Hs]; [done|]; by rewrite bool_decide_true | done]];
       rewrite !length_app in Hf; lia).
Qed.

Lemma lacks_app c a b : lacks c a -> lacks c b -> lacks c (a +:+ b).
Proof.
  intros Ha Hb. induction a as [|x a IH]; [done|]. apply lacks_cons in Ha as [Hx Ha].
  rewrite str_append_cons. apply lacks_cons. auto.
Qed.

Lemma lacks_join c sep l : lacks c sep -> Forall (lacks c) l -> lacks c (str_join sep l).
Proof.
  intros Hs Hl. induction Hl as [|x l Hx Hl IH]; [done|]. destruct l as [|y l]; [done|].
  rewrite join_cons by done. by repeat apply lacks_app.
Qed.

Lemma replace_absent pat w s a p : pat = String a p -> lacks a s -> str_replace pat w s = s.
Proof.
  intros -> Hl. unfold str_replace. cbn [str_is_empty].
  assert (Hs : split_str (String a p) 0 s = [s]); [|by rewrite Hs].
  induction s as [|x s IH]; [done|]. apply lacks_cons in Hl as [Hx Hl].
  destruct (split_str_miss (String a p) x s) as (q & qs & E1 & ->).
  - unfold starts_with, strip_prefix. destruct (Ascii.eqb_spec a x); congruence.
  - rewrite IH in E1 by done. by injection E1 as <- <-.
Qed.

(** Every line of a rendered patch is free of line breaks. *)
Lemma prefixed_plain (p : string) l :
  plain_text p -> Forall plain_text l -> Forall plain_text (map (fun x => p +:+ x) l).
Proof.
  intros [Hp1 Hp2] Hl. apply Forall_map. eapply Forall_impl; [exact Hl|].
  intros x [H1 H2]. split; by apply lacks_app.
Qed.

Lemma plain_app (p x : string) : plain_text p -> plain_text x -> plain_text (p +:+ x).
Proof. intros [] []. split; by apply lacks_app. Qed.

Lemma render_chunk_plain c : chunk_ok c -> Forall plain_text (render_chunk c).
Proof.
  intros (Hctx & Ho & Hn). unfold render_chunk. constructor.
  { destruct (change_context c) as [ctx|]; [|done].
    destruct Hctx as (_ & _ & Hp). by apply plain_app, plain_app. }
  apply Forall_app. split; [apply prefixed_plain; [done|]; by eapply Forall_impl; [exact Ho | intros ? []]|].
  apply Forall_app. split; [apply prefixed_plain; [done|]; by eapply Forall_impl; [exact Hn | intros ? []]|].
  destruct (is_end_of_file c); by repeat constructor.
Qed.

Lemma split_plain s : lacks (byte_at 13) s -> Forall plain_text (split_on newline s).
Proof.
  intros Hc. pose proof (split_on_lacks newline s) as Hn.
  assert (Hcr : Forall (lacks (byte_at 13)) (split_on newline s)).
  { clear Hn. induction s as [|a s IH]; [by repeat constructor|].
    apply lacks_cons in Hc as [Ha Hs]. specialize (IH Hs). cbn [split_on].
    destruct (Ascii.eqb a newline); [by constructor|].
    destruct (split_on newline s) as [|p ps]; [by repeat constructor; apply lacks_cons|].
    apply Forall_cons in IH as [Hp Hps]. constructor; [by apply lacks_cons | done]. }
  apply Forall_and. done.
Qed.

Lemma render_hunk_plain h : hunk_ok h -> Forall plain_text (render_hunk h).
Proof.
  destruct h as [p c|p|p mv cs]; cbn [render_hunk hunk_ok].
  - intros [(_ & _ & Hp) Hc]. constructor; [by apply plain_app|].
    apply prefixed_plain; [done | by apply split_plain].
  - intros (_ & _ & Hp). repeat constructor; by apply plain_app.
  - intros ((_ & _ & Hp) & Hm & Hc & _). constructor; [by apply plain_app|]. apply Forall_app. split.
    + destruct mv as [m|]; [|constructor]. destruct Hm as (_ & _ & Hm). repeat constructor; by apply plain_app.
    + apply Forall_concat, Forall_map. eapply Forall_impl; [exact Hc|]. apply render_chunk_plain.
Qed.

Lemma rposition_last {A} (f : A -> bool) l x : f x = true -> rposition f (l ++ [x]) = Some (length l).
Proof.
  intros Hx. induction l as [|y l IH]; simpl; [by rewrite Hx|]. by rewrite IH.
Qed.

Lemma trim_render t : trim ("*** Begin Patch" +:+ t +:+ "*** End Patch") = "*** Begin Patch" +:+ t +:+ "*** End Patch".
Proof.
  unfold trim. change (trim_start ("*** Begin Patch" +:+ ?x)) with ("*** Begin Patch" +:+ x).
  unfold trim_end. rewrite <- sapp_assoc, str_rev_app.
  change (str_rev "*** End Patch") with "hctaP dnE ***".
  change (trim_start_rev ("hctaP dnE ***" +:+ ?x)) with ("hctaP dnE ***" +:+ x).
  rewrite str_rev_app, str_rev_involutive. done.
Qed.


Definition sample_hunks : list PatchHunk :=
  [Hunk_Add "new.txt" "hello"; Hunk_Delete "old.txt";
   Hunk_Update "a.txt" (Some "b.txt") [mkUpdateChunk (Some "fn main") ["x"] ["y"; "z"] true]].


(** Two defects of the parser: a change line that starts with a character
    outside ASCII is split inside that character, a panic where other malformed
    lines are rejected; and change lines without a context line, which the
    grammar given to the model allows, are refused. *)
Theorem freeform_parser_panics_and_rejects :
  let patch line := "*** Begin Patch" +:+ nl +:+ "*** Update File: a.txt" +:+ nl
    +:+ line +:+ nl +:+ "*** End Patch" in
  parse_patch_files (patch ("@@" +:+ nl +:+ string_of_bytes [195; 169])) = Err Fail_Panic
  /\ parse_patch_files (patch ("-old" +:+ nl +:+ "+new"))
     = invalid ("patch_files freeform update hunks must start each chunk with `@@`; found "
                  +:+ bt +:+ "-old" +:+ bt).
Proof. split; vm_compute; reflexivity. Qed.
