(* ===== verification/Replay.v ===== *)
(** * Replaying the event log

    Models [crates/store/src/replay.rs]: the transcript rebuilt from the
    append-only event log, and the projection of it that is visible after a
    compaction.  [replay_transcript] keeps tombstones ([None]) and an index from
    message ids to slots; [transcript_of_log] is the reference reading of the
    log, without tombstones or index. *)

From Stdlib Require Import String.
From stdpp Require Import base list gmap strings.
From Stdlib Require Import Lia.
From S2P Require Import Prelude Message Events.

Section Replay.
Context {J : SerdeJson}.

(** The body of the [for event in events] loop of [replay_transcript]. *)
(* crates/store/src/replay.rs, replay_transcript@for event in events *)
Definition replay_step (st : list (option Message) * gmap MessageId nat)
    (event : SessionEventEnvelope) : list (option Message) * gmap MessageId nat :=
  let (transcript, by_message_id) := st in
  match env_event event with
  | Ev_TranscriptMessage message =>
      (transcript ++ [Some message], <[msg_id message := length transcript]> by_message_id)
  | Ev_TranscriptMessagePatched message_id message =>
      match by_message_id !! message_id with
      | None => (transcript, by_message_id)
      | Some index =>
          (<[index := Some (with_message_id message message_id)]> transcript, by_message_id)
      end
  | Ev_TranscriptMessageRemoved message_id =>
      match by_message_id !! message_id with
      | None => (transcript, by_message_id)
      | Some index => (<[index := None]> transcript, delete message_id by_message_id)
      end
  | _ => (transcript, by_message_id)
  end.

(* crates/store/src/replay.rs, replay_transcript *)
Definition replay_transcript (events : list SessionEventEnvelope) : list Message :=
  omap id (foldl replay_step ([], ∅) events).1.

(* crates/store/src/replay.rs, starts_request_round *)
Definition starts_request_round (transcript : list Message) (index : nat) : bool :=
  match transcript !! index with
  | None => false
  | Some message =>
      match msg_role message with
      | Role_User | Role_System =>
          match index with
          | 0%nat => true
          | S previous =>
              match msg_role <$> transcript !! previous with
              | Some Role_Assistant | Some Role_Tool => true
              | _ => false
              end
          end
      | _ => false
      end
  end.

(** [while start > 0 && !starts_request_round(transcript, start) { start -= 1 }]. *)
Fixpoint rewind_to_round (transcript : list Message) (start : nat) : nat :=
  match start with
  | 0%nat => 0%nat
  | S previous =>
      if starts_request_round transcript start then start
      else rewind_to_round transcript previous
  end.

(* crates/store/src/replay.rs, upgrade_retained_tail_indices_for_request_rounds *)
Definition upgrade_retained_tail_indices_for_request_rounds (transcript : list Message)
    (retained_tail_indices : list nat) (summary_index : nat) : list nat :=
  match retained_tail_indices with
  | [] => retained_tail_indices
  | first_retained_index :: _ =>
      if (summary_index <=? first_retained_index)%nat then retained_tail_indices
      else
        let upgraded_start := rewind_to_round transcript first_retained_index in
        if (upgraded_start =? first_retained_index)%nat then retained_tail_indices
        else seq upgraded_start (first_retained_index - upgraded_start) ++ retained_tail_indices
  end.

(** The closure of the [find_map] in [latest_compaction_checkpoint]. *)
Definition compaction_of (event : SessionEventEnvelope)
    : option (option MessageId * list MessageId) :=
  match env_event event with
  | Ev_CompactionCompleted _ _ _ _ summary_message_id retained_tail_message_ids =>
      Some (summary_message_id, retained_tail_message_ids)
  | _ => None
  end.

(* crates/store/src/replay.rs, latest_compaction_checkpoint *)
Definition latest_compaction_checkpoint (events : list SessionEventEnvelope)
    : option (MessageId * list MessageId) :=
  match find_map compaction_of (rev events) with
  | Some (Some summary_message_id, retained) => Some (summary_message_id, retained)
  | _ => None
  end.

(** [transcript.iter().enumerate().map(...).collect::<BTreeMap<_, _>>()]: a later
    message with the same id wins. *)
Definition message_index (transcript : list Message) : gmap MessageId nat :=
  foldl (fun m p => <[msg_id p.2 := p.1]> m) ∅ (imap pair transcript).

(** [indices.filter_map(|index| transcript.get(index).cloned())]. *)
Definition messages_at (transcript : list Message) (indices : list nat) : list Message :=
  omap (fun index => transcript !! index) indices.

(* crates/store/src/replay.rs, visible_agent_session_transcript *)
Definition visible_agent_session_transcript (events : list SessionEventEnvelope) : list Message :=
  let transcript := replay_transcript events in
  match latest_compaction_checkpoint events with
  | None => transcript
  | Some (summary_message_id, retained_tail_message_ids) =>
      let index := message_index transcript in
      match index !! summary_message_id with
      | None => transcript
      | Some summary_index =>
          let retained :=
            base.filter (fun i => i < summary_index)%nat
              (omap (fun message_id => index !! message_id) retained_tail_message_ids) in
          let retained :=
            upgrade_retained_tail_indices_for_request_rounds transcript retained summary_index in
          messages_at transcript
            (summary_index :: retained
               ++ seq (summary_index + 1) (length transcript - (summary_index + 1)))
      end
  end.

(** [agent_session_ids] of [visible_transcript]: distinct ids in log order. *)
Definition distinct_agent_sessions (events : list SessionEventEnvelope) : list AgentSessionId :=
  foldl (fun ids event =>
           if bool_decide (env_agent_session_id event ∈ ids) then ids
           else ids ++ [env_agent_session_id event]) [] events.

(* crates/store/src/replay.rs, visible_transcript *)
Definition visible_transcript (events : list SessionEventEnvelope) : list Message :=
  let agent_session_ids := distinct_agent_sessions events in
  if (length agent_session_ids <=? 1)%nat then visible_agent_session_transcript events
  else
    agent_session_ids ≫= fun agent_session_id =>
      visible_agent_session_transcript
        (base.filter (fun event => env_agent_session_id event = agent_session_id) events).

(** ** The reference reading of the log *)

Definition apply_log_event (transcript : list Message) (event : SessionEventEnvelope)
    : list Message :=
  match env_event event with
  | Ev_TranscriptMessage message => transcript ++ [message]
  | Ev_TranscriptMessagePatched message_id message =>
      (fun m => if decide (msg_id m = message_id) then with_message_id message message_id else m)
        <$> transcript
  | Ev_TranscriptMessageRemoved message_id =>
      base.filter (fun m => msg_id m <> message_id) transcript
  | _ => transcript
  end.

Definition transcript_of_log (events : list SessionEventEnvelope) : list Message :=
  foldl apply_log_event [] events.

Definition appended_id (event : SessionEventEnvelope) : option MessageId :=
  match env_event event with
  | Ev_TranscriptMessage message => Some (msg_id message)
  | _ => None
  end.

(** The ids of the messages the log appends; message ids are fresh UUIDs. *)
Definition appended_ids (events : list SessionEventEnvelope) : list MessageId :=
  omap appended_id events.

(** ** Lemmas: replay *)

(** The index only names live slots. *)
Definition index_ok (st : list (option Message) * gmap MessageId nat) : Prop :=
  forall k i, st.2 !! k = Some i <-> exists m, st.1 !! i = Some (Some m) /\ msg_id m = k.

Definition slot_ids (t : list (option Message)) : list MessageId := msg_id <$> omap id t.

Lemma omap_id_insert (t : list (option Message)) i v w :
  t !! i = Some w ->
  omap id (<[i := v]> t) = omap id (take i t) ++ option_list v ++ omap id (drop (S i) t).
Proof.
  intros H. rewrite insert_take_drop by (by eapply lookup_lt_Some).
  rewrite omap_app. by destruct v.
Qed.

Lemma omap_id_split (t : list (option Message)) i m :
  t !! i = Some (Some m) -> omap id t = omap id (take i t) ++ m :: omap id (drop (S i) t).
Proof. intros H. rewrite <- (take_drop_middle t i _ H) at 1. by rewrite omap_app. Qed.

Lemma elem_of_omap_id (t : list (option Message)) m :
  m ∈ omap id t <-> exists i, t !! i = Some (Some m).
Proof.
  rewrite list_elem_of_omap. split.
  - intros (x & Hx & Hm). unfold id in Hm. subst x. by apply list_elem_of_lookup.
  - intros [i Hi]. exists (Some m). split; [by eapply list_elem_of_lookup_2 | done].
Qed.

(** Around the slot an id is indexed at, no other live message has that id. *)
Lemma index_ok_others t by_id k i :
  index_ok (t, by_id) -> by_id !! k = Some i ->
  Forall (fun m => msg_id m <> k) (omap id (take i t))
  /\ Forall (fun m => msg_id m <> k) (omap id (drop (S i) t)).
Proof.
  intros Hok Hk. split; apply Forall_forall; intros m [j Hj]%elem_of_omap_id Hm.
  - apply lookup_take_Some in Hj as [Hj Hlt]. assert (by_id !! k = Some j) by (apply Hok; eauto).
    simplify_eq; lia.
  - rewrite lookup_drop in Hj. assert (by_id !! k = Some (S i + j)%nat) by (apply Hok; eauto).
    simplify_eq; lia.
Qed.

Lemma fmap_patch_others k (g : Message -> Message) (l : list Message) :
  Forall (fun m => msg_id m <> k) l ->
  (fun m => if decide (msg_id m = k) then g m else m) <$> l = l.
Proof.
  induction 1 as [|m l Hm _ IH]; [done|]. rewrite fmap_cons, IH.
  by rewrite decide_False.
Qed.

Lemma fmap_ids_patch k (g : Message -> Message) (l : list Message) :
  (forall m, msg_id (g m) = k) ->
  msg_id <$> ((fun m => if decide (msg_id m = k) then g m else m) <$> l) = msg_id <$> l.
Proof.
  intros Hg. induction l as [|m l IH]; [done|]. rewrite !fmap_cons, IH.
  f_equal. destruct (decide (msg_id m = k)); [rewrite Hg|]; done.
Qed.

Lemma filter_others k (l : list Message) :
  Forall (fun m => msg_id m <> k) l -> base.filter (fun m => msg_id m <> k) l = l.
Proof. induction 1 as [|m l Hm _ IH]; [done|]. by rewrite filter_cons_True, IH. Qed.

Lemma not_indexed_absent t by_id k :
  index_ok (t, by_id) -> by_id !! k = None -> Forall (fun m => msg_id m <> k) (omap id t).
Proof.
  intros Hok Hk. apply Forall_forall. intros m [i Hi]%elem_of_omap_id Hm.
  assert (by_id !! k = Some i) by (apply Hok; eauto). congruence.
Qed.

Lemma msg_id_with m k : msg_id (with_message_id m k) = k.
Proof. done. Qed.
#[local] Hint Resolve msg_id_with : nano.

(** The three events that change the transcript keep the index exact. *)
Lemma index_ok_append t by_id m :
  index_ok (t, by_id) -> msg_id m ∉ (msg_id <$> omap id t) ->
  index_ok (t ++ [Some m], <[msg_id m := length t]> by_id).
Proof.
  intros Hok Hfresh k i. simpl. rewrite lookup_insert_Some. split.
  - intros [[<- <-]|[Hne Hk]].
    + exists m. by rewrite list_lookup_middle.
    + apply Hok in Hk as (x & Hx & Hid). exists x. split; [|done]. by apply lookup_app_l_Some.
  - intros (x & Hx & <-). apply lookup_app_Some in Hx as [Hx|[Hle Hx]].
    + right. split; [|apply Hok; eauto]. intros Heq. apply Hfresh. rewrite Heq.
      apply list_elem_of_fmap. exists x. split; [done|]. apply elem_of_omap_id. eauto.
    + left. destruct (i - length t)%nat as [|n] eqn:Ei; [|by destruct n]. simpl in Hx. simplify_eq.
      split; [done | lia].
Qed.

Lemma index_ok_patch t by_id k i m :
  index_ok (t, by_id) -> by_id !! k = Some i -> msg_id m = k ->
  index_ok (<[i := Some m]> t, by_id).
Proof.
  intros Hok Hk Hm. destruct (proj1 (Hok _ _) Hk) as (x & Hx & Hid). simpl in Hx.
  intros k' j. simpl. destruct (decide (j = i)) as [->|Hji].
  - rewrite list_lookup_insert_eq by (by eapply lookup_lt_Some). split.
    + intros Hk'. exists m. split; [done|].
      apply Hok in Hk' as (x' & Hx' & Hid'). simpl in *. simplify_eq. done.
    + intros (x' & [= <-] & <-). by rewrite Hm.
  - rewrite list_lookup_insert_ne by done. apply Hok.
Qed.

Lemma index_ok_remove t by_id k i :
  index_ok (t, by_id) -> by_id !! k = Some i ->
  index_ok (<[i := None]> t, delete k by_id).
Proof.
  intros Hok Hk. destruct (proj1 (Hok _ _) Hk) as (x & Hx & Hid). simpl in Hx.
  intros k' j. simpl. rewrite lookup_delete_Some. destruct (decide (j = i)) as [->|Hji].
  - rewrite list_lookup_insert_eq by (by eapply lookup_lt_Some). split; [|intros (x' & ? & ?); done].
    intros [Hne Hk']. apply Hok in Hk' as (x' & Hx' & Hid'). simpl in *. simplify_eq.
  - rewrite list_lookup_insert_ne by done. rewrite <- (Hok k' j). simpl. split; [tauto|].
    intros Hkj. split; [|done]. intros ->. simplify_eq.
Qed.

(** One step of the replay refines one step of the reference reading. *)
Lemma replay_step_refines st spec event :
  index_ok st -> omap id st.1 = spec ->
  (forall k, appended_id event = Some k -> k ∉ (msg_id <$> spec)) ->
  index_ok (replay_step st event) /\ omap id (replay_step st event).1 = apply_log_event spec event.
Proof.
  destruct st as [t by_id]. simpl. intros Hok <- Hfresh.
  unfold replay_step, apply_log_event, appended_id in *.
  destruct (env_event event) as [ | | | | | | | | | | m | k m | k | | | | | | | | | | | | | | | | | | | | | | | | | ];
    try done.
  - split; [by apply index_ok_append; auto | simpl; by rewrite omap_app].
  - destruct (by_id !! k) as [i|] eqn:Hk.
    + split; [by eapply index_ok_patch|].
      destruct (index_ok_others t by_id _ _ Hok Hk) as [Hl Hr].
      destruct (proj1 (Hok _ _) Hk) as (x & Hx & Hid). simpl in Hx. simpl.
      rewrite (omap_id_insert t i _ (Some x)), (omap_id_split t i x) by done.
      rewrite fmap_app, fmap_cons, decide_True by done.
      by rewrite (fmap_patch_others k (fun _ => with_message_id m k) _ Hl),
        (fmap_patch_others k (fun _ => with_message_id m k) _ Hr).
    + split; [done|].
      by rewrite (fmap_patch_others k (fun _ => with_message_id m k)
                    _ (not_indexed_absent t by_id _ Hok Hk)).
  - destruct (by_id !! k) as [i|] eqn:Hk.
    + split; [by apply index_ok_remove|].
      destruct (index_ok_others t by_id _ _ Hok Hk) as [Hl Hr].
      destruct (proj1 (Hok _ _) Hk) as (x & Hx & Hid). simpl in Hx. simpl.
      rewrite (omap_id_insert t i _ (Some x)), (omap_id_split t i x) by done.
      rewrite filter_app, filter_cons_False by (by intros []). by rewrite !filter_others.
    + split; [done|]. by rewrite (filter_others _ _ (not_indexed_absent t by_id _ Hok Hk)).
Qed.

Lemma apply_log_event_ids (t : list Message) event k :
  k ∈ (msg_id <$> apply_log_event t event) -> k ∈ (msg_id <$> t) \/ appended_id event = Some k.
Proof.
  unfold apply_log_event, appended_id. destruct (env_event event); auto.
  - rewrite fmap_app; simpl; rewrite elem_of_app, list_elem_of_singleton. intros [?| ->]; auto.
  - rewrite (fmap_ids_patch message_id (fun _ => with_message_id message message_id)); auto.
  - rewrite list_elem_of_fmap. intros (m & -> & [_ Hm]%list_elem_of_filter). left.
    apply list_elem_of_fmap. eauto.
Qed.

Lemma appended_ids_app l k : appended_ids (l ++ k) = appended_ids l ++ appended_ids k.
Proof. apply omap_app. Qed.

(** Replay computes the reference reading. *)
Lemma replay_refines events :
  NoDup (appended_ids events) ->
  index_ok (foldl replay_step ([], ∅) events)
  /\ replay_transcript events = transcript_of_log events
  /\ (forall k, k ∈ (msg_id <$> transcript_of_log events) -> k ∈ appended_ids events).
Proof.
  unfold replay_transcript. induction events as [|event events IH] using rev_ind; intros Hnd.
  { split; [|split; [done|set_solver]]. intros k i. simpl. rewrite lookup_empty. naive_solver. }
  rewrite appended_ids_app in *. apply NoDup_app in Hnd as (Hnd & Hdis & _).
  destruct (IH Hnd) as (Hok & Heq & Hids). unfold transcript_of_log in *. rewrite !foldl_app. simpl.
  assert (Hfresh : forall k, appended_id event = Some k ->
            k ∉ (msg_id <$> foldl apply_log_event [] events)).
  { intros k Hk Hin. apply (Hdis k); [auto|]. unfold appended_ids. simpl. rewrite Hk. set_solver. }
  destruct (replay_step_refines _ _ event Hok Heq Hfresh) as [Hok' Heq'].
  split; [done|]. split; [done|]. intros k [Hk|Hk]%apply_log_event_ids.
  - apply elem_of_app. auto.
  - apply elem_of_app. right. unfold appended_ids. simpl. rewrite Hk. set_solver.
Qed.

Lemma apply_log_event_NoDup (t : list Message) event :
  NoDup (msg_id <$> t) -> (forall k, appended_id event = Some k -> k ∉ (msg_id <$> t)) ->
  NoDup (msg_id <$> apply_log_event t event).
Proof.
  intros Hnd Hf. unfold apply_log_event, appended_id in *. destruct (env_event event); auto.
  - rewrite fmap_app. apply NoDup_app. split; [done|]. split; [|apply NoDup_singleton].
    intros k Hk Hin. apply list_elem_of_singleton in Hin as ->. by apply (Hf _ eq_refl).
  - rewrite (fmap_ids_patch message_id (fun _ => with_message_id message message_id)); auto.
  - clear Hf. induction t as [|m t IH]; [done|]. rewrite fmap_cons, NoDup_cons in Hnd.
    destruct Hnd as [Hm Hnd]. destruct (decide (msg_id m = message_id)) as [He|He].
    + rewrite filter_cons_False by (by intros []). auto.
    + rewrite filter_cons_True, fmap_cons by done. apply NoDup_cons. split; [|auto].
      rewrite list_elem_of_fmap. intros (x & Hx & [_ Hin]%list_elem_of_filter). apply Hm.
      rewrite Hx. apply list_elem_of_fmap. eauto.
Qed.

Lemma transcript_of_log_NoDup events :
  NoDup (appended_ids events) -> NoDup (msg_id <$> transcript_of_log events).
Proof.
  induction events as [|event events IH] using rev_ind; intros Hnd; [constructor|].
  assert (Hr := replay_refines events). rewrite appended_ids_app in Hnd.
  apply NoDup_app in Hnd as (Hnd & Hdis & _).
  unfold transcript_of_log in *. rewrite foldl_app. simpl. apply apply_log_event_NoDup; [auto|].
  intros k Hk Hin. destruct (Hr Hnd) as (_ & _ & Hids). apply (Hdis k); [auto|].
  unfold appended_ids. simpl. rewrite Hk. set_solver.
Qed.

(** ** Lemmas: request rounds and the visible projection *)

Lemma starts_request_round_lt t i : starts_request_round t i = true -> (i < length t)%nat.
Proof.
  unfold starts_request_round. intros H. apply lookup_lt_is_Some.
  destruct (t !! i); [by eexists | done].
Qed.

Lemma rewind_to_round_spec t i :
  (rewind_to_round t i <= i)%nat
  /\ (rewind_to_round t i = 0%nat \/ starts_request_round t (rewind_to_round t i) = true)
  /\ (forall j, (rewind_to_round t i < j <= i)%nat -> starts_request_round t j = false).
Proof.
  induction i as [|i IH]; cbn [rewind_to_round].
  - split; [lia | split; [by left | lia]].
  - destruct (starts_request_round t (S i)) eqn:E.
    + split; [lia | split; [by right | lia]].
    + destruct IH as (IH1 & IH2 & IH3). split; [lia | split; [done|]].
      intros j Hj. destruct (decide (j = S i)) as [->|]; [done|]. apply IH3. lia.
Qed.

Lemma rewind_to_round_fix t i :
  i = 0%nat \/ starts_request_round t i = true -> rewind_to_round t i = i.
Proof. destruct i; simpl; [done|]. by intros [| ->]. Qed.

Lemma rewind_to_round_idem t i :
  rewind_to_round t (rewind_to_round t i) = rewind_to_round t i.
Proof. apply rewind_to_round_fix, rewind_to_round_spec. Qed.

Lemma upgrade_cons t f l s :
  (f < s)%nat ->
  upgrade_retained_tail_indices_for_request_rounds t (f :: l) s
  = seq (rewind_to_round t f) (f - rewind_to_round t f) ++ f :: l.
Proof.
  intros H. unfold upgrade_retained_tail_indices_for_request_rounds.
  destruct (Nat.leb_spec s f); [lia|].
  destruct (Nat.eqb_spec (rewind_to_round t f) f) as [->|]; [|done].
  by rewrite Nat.sub_diag.
Qed.

Lemma upgrade_bound t l s :
  Forall (fun i => i < s)%nat l ->
  Forall (fun i => i < s)%nat (upgrade_retained_tail_indices_for_request_rounds t l s).
Proof.
  destruct l as [|f l]; [done|]. intros H. inversion H as [|? ? Hf Hl]; subst.
  rewrite upgrade_cons by done. apply Forall_app. split; [|done].
  apply Forall_forall. intros i Hi%elem_of_seq. lia.
Qed.

(** Upgrading twice is upgrading once. *)
Lemma upgrade_idem t l s :
  Forall (fun i => i < s)%nat l ->
  upgrade_retained_tail_indices_for_request_rounds t
    (upgrade_retained_tail_indices_for_request_rounds t l s) s
  = upgrade_retained_tail_indices_for_request_rounds t l s.
Proof.
  destruct l as [|f l]; [done|]. intros H. inversion H as [|? ? Hf Hl]; subst.
  rewrite upgrade_cons by done.
  destruct (rewind_to_round_spec t f) as (Hle & Hor & _).
  destruct (f - rewind_to_round t f)%nat as [|n] eqn:En; cbn [seq app].
  - assert (Hfix : rewind_to_round t f = f) by lia.
    by rewrite upgrade_cons, Hfix, Nat.sub_diag by done.
  - rewrite upgrade_cons by lia. by rewrite rewind_to_round_idem, Nat.sub_diag.
Qed.

Lemma message_index_snoc t m :
  message_index (t ++ [m]) = <[msg_id m := length t]> (message_index t).
Proof.
  unfold message_index. rewrite imap_app. simpl. rewrite foldl_app. simpl.
  by rewrite Nat.add_0_r.
Qed.

Lemma message_index_sound t k i :
  message_index t !! k = Some i -> exists m, t !! i = Some m /\ msg_id m = k.
Proof.
  induction t as [|m t IH] using rev_ind; [done|].
  rewrite message_index_snoc, lookup_insert_Some. intros [[<- <-]|[Hne Hk]].
  - exists m. by rewrite list_lookup_middle.
  - destruct (IH Hk) as (x & Hx & Hid). exists x. split; [by apply lookup_app_l_Some | done].
Qed.

Lemma message_index_complete t m i :
  NoDup (msg_id <$> t) -> t !! i = Some m -> message_index t !! msg_id m = Some i.
Proof.
  revert i. induction t as [|x t IH] using rev_ind; intros i; [done|].
  rewrite fmap_app, NoDup_app. intros (Hnd & Hdis & _) Hi. rewrite message_index_snoc.
  apply lookup_app_Some in Hi as [Hi|[Hle Hi]].
  - rewrite lookup_insert_ne; [by apply IH|]. intros Heq. apply (Hdis (msg_id m)).
    + apply list_elem_of_fmap. exists m. split; [done|]. by eapply list_elem_of_lookup_2.
    + simpl. rewrite Heq. set_solver.
  - destruct (i - length t)%nat as [|n] eqn:En; [|by destruct n]. simpl in Hi. simplify_eq.
    rewrite lookup_insert_eq. f_equal. lia.
Qed.

Lemma messages_at_app t l k : messages_at t (l ++ k) = messages_at t l ++ messages_at t k.
Proof. apply omap_app. Qed.

Lemma messages_at_seq t a n :
  (a + n <= length t)%nat -> messages_at t (seq a n) = take n (drop a t).
Proof.
  revert a. induction n as [|n IH]; intros a H; simpl; [done|].
  destruct (lookup_lt_is_Some_2 t a) as [m Hm]; [lia|]. unfold messages_at in *. simpl. rewrite Hm.
  rewrite IH by lia. by rewrite (drop_S t m a) by done.
Qed.

Lemma messages_at_after t a :
  messages_at t (seq a (length t - a)) = drop a t.
Proof.
  destruct (decide (a <= length t)%nat) as [H|H].
  - rewrite messages_at_seq by lia. apply take_ge. rewrite length_drop. lia.
  - replace (length t - a)%nat with 0%nat by lia. simpl. by rewrite drop_ge by lia.
Qed.

#[local] Hint Rewrite messages_at_app messages_at_after : nano.

(** The indices of a checkpoint, as both the store and the runtime compute them. *)
Definition retained_positions (t : list Message) (tail : list MessageId) (summary_index : nat)
    : list nat :=
  base.filter (fun i => i < summary_index)%nat (omap (fun k => message_index t !! k) tail).

Lemma retained_positions_bound t tail s :
  Forall (fun i => i < s)%nat (retained_positions t tail s).
Proof. apply Forall_forall. intros i Hi. by apply list_elem_of_filter in Hi as [Hi _]. Qed.

Lemma visible_checkpoint events s tail si :
  latest_compaction_checkpoint events = Some (s, tail) ->
  message_index (replay_transcript events) !! s = Some si ->
  visible_agent_session_transcript events =
    messages_at (replay_transcript events)
      (si :: upgrade_retained_tail_indices_for_request_rounds (replay_transcript events)
               (retained_positions (replay_transcript events) tail si) si)
    ++ drop (S si) (replay_transcript events).
Proof.
  intros Hc Hs. unfold visible_agent_session_transcript. rewrite Hc, Hs, Nat.add_1_r.
  rewrite <- (messages_at_after _ (S si)), <- messages_at_app. done.
Qed.

(** Every slot the index of the replay names exists. *)
Definition slots_in_bounds (st : list (option Message) * gmap MessageId nat) : Prop :=
  forall k i, st.2 !! k = Some i -> (i < length st.1)%nat.

Lemma replay_step_in_bounds st event :
  slots_in_bounds st -> slots_in_bounds (replay_step st event).
Proof.
  destruct st as [t by_id]. unfold slots_in_bounds, replay_step. simpl. intros H k i.
  destruct (env_event event); simpl; eauto.
  - rewrite length_app, lookup_insert_Some. simpl. intros [[_ <-]|[_ Hk]]; [lia|].
    specialize (H _ _ Hk). lia.
  - destruct (by_id !! message_id); simpl; rewrite ?length_insert; eauto.
  - destruct (by_id !! message_id) eqn:E; simpl; rewrite ?length_insert; eauto.
    rewrite lookup_delete_Some. intros [_ Hk]. eauto.
Qed.

(** ** Properties *)


(** Replaying never indexes out of bounds, whatever the log holds (duplicate,
    unknown or already removed ids included): the slot a patch or a removal
    writes to exists. *)
Theorem replay_never_out_of_bounds events :
  slots_in_bounds (foldl replay_step ([], ∅) events).
Proof.
  apply (foldl_inv (fun _ => slots_in_bounds)); [by intros k i|].
  intros pre x post c _ H. by apply replay_step_in_bounds.
Qed.

(** After a compaction the visible transcript is the summary, then the
    retained tail extended back to the start of its request round, then every
    message after the summary; nothing that was appended before the retained
    round shows. *)
Theorem visible_after_compaction events s tail si first rest :
  NoDup (appended_ids events) ->
  latest_compaction_checkpoint events = Some (s, tail) ->
  msg_id <$> transcript_of_log events !! si = Some s ->
  retained_positions (transcript_of_log events) tail si = first :: rest ->
  exists start summary, (start <= first)%nat
    /\ (start = 0%nat \/ starts_request_round (transcript_of_log events) start = true)
    /\ (forall j, (start < j <= first)%nat ->
          starts_request_round (transcript_of_log events) j = false)
    /\ transcript_of_log events !! si = Some summary
    /\ visible_agent_session_transcript events =
         summary :: take (first - start) (drop start (transcript_of_log events))
           ++ messages_at (transcript_of_log events) (first :: rest)
           ++ drop (S si) (transcript_of_log events).
Proof.
  intros Hnd Hc Hs Hr. destruct (replay_refines events Hnd) as (_ & Ht & _).
  assert (Hids := transcript_of_log_NoDup events Hnd). rewrite <- Ht in *.
  set (t := replay_transcript events) in *. apply fmap_Some in Hs as (m & Hm & ->).
  assert (Hb := retained_positions_bound t tail si). rewrite Hr in Hb.
  inversion Hb as [|? ? Hf _]; subst. apply lookup_lt_Some in Hm as Hlt.
  destruct (rewind_to_round_spec t first) as (H1 & H2 & H3).
  exists (rewind_to_round t first), m. do 4 (split; [done|]).
  rewrite (visible_checkpoint events (msg_id m) tail si Hc) by (by apply message_index_complete).
  fold t. rewrite Hr, upgrade_cons by done.
  unfold messages_at at 1. simpl. rewrite Hm. simpl. f_equal.
  rewrite app_assoc. f_equal.
  change (messages_at t (seq (rewind_to_round t first) (first - rewind_to_round t first) ++ first :: rest)
    = take (first - rewind_to_round t first) (drop (rewind_to_round t first) t)
      ++ messages_at t (first :: rest)).
  rewrite messages_at_app, messages_at_seq by lia. done.
Qed.

End Replay.

(** ** Concrete logs *)

Section Witnesses.
#[local] Existing Instance json_text.

Definition logged (n : string) (agent : string) (kind : SessionEventKind) : SessionEventEnvelope :=
  SessionEventEnvelope_new n 0 "session" agent None None kind.

Definition older : Message := Message_user "m0" "draft one".
Definition answer : Message := Message_assistant "m1" "draft two".
Definition recall : Message := Message_user "m2" "recalled memory".
Definition kept : Message := Message_user "m3" "keep this".
Definition summary_msg : Message := Message_system "m4" "summary".
Definition follow_up : Message := Message_assistant "m5" "after compaction".

Definition compaction_event (ids : list string) : SessionEventKind :=
  Ev_CompactionCompleted "manual" 2 1 7 (Some "m4") ids.

Definition compacted_log : list SessionEventEnvelope :=
  [ logged "e0" "a" (Ev_TranscriptMessage older);
    logged "e1" "a" (Ev_TranscriptMessage answer);
    logged "e2" "a" (Ev_TranscriptMessage recall);
    logged "e3" "a" (Ev_TranscriptMessage kept);
    logged "e4" "a" (Ev_TranscriptMessage summary_msg);
    logged "e5" "a" (compaction_event ["m3"]);
    logged "e6" "a" (Ev_TranscriptMessage follow_up) ].

Lemma compacted_log_fresh : NoDup (appended_ids compacted_log).
Proof. apply (bool_decide_unpack _). vm_compute. exact I. Qed.


Lemma visible_after_compaction_witness :
  exists start summary, (start <= 3)%nat
    /\ (start = 0%nat \/ starts_request_round (transcript_of_log compacted_log) start = true)
    /\ (forall j, (start < j <= 3)%nat ->
          starts_request_round (transcript_of_log compacted_log) j = false)
    /\ transcript_of_log compacted_log !! 4%nat = Some summary
    /\ visible_agent_session_transcript compacted_log =
         summary :: take (3 - start) (drop start (transcript_of_log compacted_log))
           ++ messages_at (transcript_of_log compacted_log) [3%nat]
           ++ drop 5 (transcript_of_log compacted_log).
Proof.
  apply (visible_after_compaction compacted_log "m4" ["m3"] 4 3 []);
    [apply compacted_log_fresh | reflexivity | reflexivity | reflexivity].
Defined.

(** The shipped example: the request round of the retained message is shown
    whole. *)
Example visible_compacted_log :
  msg_id <$> visible_transcript compacted_log = ["m4"; "m2"; "m3"; "m5"].
Proof. reflexivity. Qed.

End Witnesses.
