(* ===== verification/Session.v ===== *)
(** * Runtime sessions

    Models [crates/runtime/src/session.rs] and [transcript.rs]: the in-memory
    session window, its reconstruction from a persisted event log, and the
    seeding of a forked child's log.  The id and the timestamp of a new event
    are arguments ([stamp n] for the [n]-th event a function creates). *)

From Stdlib Require Import String.
From stdpp Require Import base list gmap strings.
From Stdlib Require Import Lia.
From S2P Require Import Prelude Message Events Errors Replay.

Section Session.
Context {J : SerdeJson}.

(* crates/runtime/src/session.rs, RuntimeSession *)
Record RuntimeSession := mkRuntimeSession {
  ses_session_id : SessionId;
  ses_agent_session_id : AgentSessionId;
  ses_transcript : list Message;
  ses_provider_continuation : option ProviderContinuation;
  ses_provider_transcript_cursor : nat;
  ses_compaction_summary_index : option nat;
  ses_retained_tail_indices : list nat;
  ses_post_summary_start : nat;
  ses_removed_message_ids : gset MessageId;
  ses_agent_session_started : bool;
  ses_token_ledger : TokenLedgerSnapshot
}.

(* crates/runtime/src/session.rs, RuntimeSession::new *)
Definition RuntimeSession_new (session_id : SessionId) (agent_session_id : AgentSessionId)
    : RuntimeSession :=
  mkRuntimeSession session_id agent_session_id [] None 0 None [] 0 ∅ false
    TokenLedgerSnapshot_default.

(* crates/runtime/src/session.rs, RuntimeSession::has_activity *)
Definition has_activity (s : RuntimeSession) : bool :=
  ses_agent_session_started s
  || negb (is_nil (ses_transcript s))
  || bool_decide (is_Some (ses_provider_continuation s))
  || (0 <? ses_provider_transcript_cursor s)%nat
  || bool_decide (is_Some (ses_compaction_summary_index s))
  || negb (is_nil (ses_retained_tail_indices s))
  || (0 <? ses_post_summary_start s)%nat
  || bool_decide (ses_removed_message_ids s <> ∅)
  || bool_decide (ses_token_ledger s <> TokenLedgerSnapshot_default).

(* crates/runtime/src/session.rs, CompactionCheckpoint *)
Record CompactionCheckpoint := mkCompactionCheckpoint {
  checkpoint_summary_message_id : MessageId;
  checkpoint_retained_tail_message_ids : list MessageId
}.

(* crates/runtime/src/session.rs, HISTORY_ONLY_RESUME_REASON *)
Definition HISTORY_ONLY_RESUME_REASON : string :=
  "This persisted agent session predates resume checkpoints for compacted history.".

(* crates/runtime/src/session.rs, latest_compaction_checkpoint *)
Definition latest_compaction_checkpoint (events : list SessionEventEnvelope)
    : result (option CompactionCheckpoint) RuntimeError :=
  match find_map compaction_of (rev events) with
  | None => Ok None
  | Some (Some summary_message_id, retained_tail_message_ids) =>
      Ok (Some (mkCompactionCheckpoint summary_message_id retained_tail_message_ids))
  | Some (None, _) => Err (invalid_state HISTORY_ONLY_RESUME_REASON)
  end.

(** The two helpers below have the same text as the store's. *)
(* crates/runtime/src/session.rs, starts_request_round *)
Definition session_starts_request_round (transcript : list Message) (index : nat) : bool :=
  starts_request_round transcript index.

(* crates/runtime/src/session.rs, upgrade_retained_tail_indices_for_request_rounds *)
Definition session_upgrade_retained_tail_indices (transcript : list Message)
    (retained_tail_indices : list nat) (summary_index : nat) : list nat :=
  upgrade_retained_tail_indices_for_request_rounds transcript retained_tail_indices summary_index.

(** The window fields [reconstruct_runtime_session] fills in from a checkpoint. *)
Definition with_window (s : RuntimeSession) (summary_index : nat) (retained : list nat)
    : RuntimeSession :=
  mkRuntimeSession (ses_session_id s) (ses_agent_session_id s) (ses_transcript s)
    (ses_provider_continuation s) (ses_provider_transcript_cursor s) (Some summary_index) retained
    (summary_index + 1) (ses_removed_message_ids s) (ses_agent_session_started s)
    (ses_token_ledger s).

Definition with_transcript (s : RuntimeSession) (t : list Message) : RuntimeSession :=
  mkRuntimeSession (ses_session_id s) (ses_agent_session_id s) t
    (ses_provider_continuation s) (ses_provider_transcript_cursor s)
    (ses_compaction_summary_index s) (ses_retained_tail_indices s)
    (ses_post_summary_start s) (ses_removed_message_ids s) (ses_agent_session_started s)
    (ses_token_ledger s).

(** The body of [reconstruct_runtime_session] on the events up to the cutoff. *)
(* crates/runtime/src/session.rs, reconstruct_runtime_session@let session_id = slice *)
Definition reconstruct_slice (slice : list SessionEventEnvelope)
    (agent_session_id : AgentSessionId) : result RuntimeSession RuntimeError :=
  let session_id := from_option env_session_id "" (last slice) in
  let transcript := replay_transcript slice in
  let session := with_transcript (RuntimeSession_new session_id agent_session_id) transcript in
  checkpoint <-? latest_compaction_checkpoint slice;
  match checkpoint with
  | None => Ok session
  | Some checkpoint =>
      let index := message_index transcript in
      summary_index <-?
        ok_or (index !! checkpoint_summary_message_id checkpoint)
          (invalid_state
             ("compaction summary message missing from reconstructed transcript: "
                +:+ checkpoint_summary_message_id checkpoint));
      let retained :=
        base.filter (fun i => i < summary_index)%nat
          (omap (fun message_id => index !! message_id)
             (checkpoint_retained_tail_message_ids checkpoint)) in
      Ok (with_window session summary_index
            (session_upgrade_retained_tail_indices transcript retained summary_index))
  end.

(* crates/runtime/src/session.rs, reconstruct_runtime_session *)
Definition reconstruct_runtime_session (events : list SessionEventEnvelope)
    (agent_session_id : AgentSessionId) : result RuntimeSession RuntimeError :=
  cutoff <-?
    ok_or (rposition (fun event => bool_decide (env_agent_session_id event = agent_session_id)) events)
      (invalid_state ("agent session missing from persisted event log: " +:+ agent_session_id));
  reconstruct_slice (take (S cutoff) events) agent_session_id.

(* crates/runtime/src/session.rs, fork_runtime_session *)
Definition fork_runtime_session (parent : RuntimeSession) (session_id : SessionId)
    (agent_session_id : AgentSessionId) : RuntimeSession :=
  mkRuntimeSession session_id agent_session_id (ses_transcript parent)
    None 0 (ses_compaction_summary_index parent) (ses_retained_tail_indices parent)
    (ses_post_summary_start parent) (ses_removed_message_ids parent) false
    TokenLedgerSnapshot_default.

(* crates/runtime/src/session.rs, seed_runtime_session_events *)
Definition seed_runtime_session_events (stamp : nat -> EventId * N) (session : RuntimeSession)
    : result (list SessionEventEnvelope) RuntimeError :=
  let envelope n kind :=
    SessionEventEnvelope_new (stamp n).1 (stamp n).2 (ses_session_id session)
      (ses_agent_session_id session) None None kind in
  let events := imap (fun n message => envelope n (Ev_TranscriptMessage message))
                  (ses_transcript session) in
  match ses_compaction_summary_index session with
  | None => Ok events
  | Some summary_index =>
      summary_message <-?
        ok_or (ses_transcript session !! summary_index)
          (invalid_state ("forked session summary index out of bounds: " +:+ fmt_nat summary_index));
      retained_tail_message_ids <-?
        map_result (fun index =>
          ok_or (msg_id <$> ses_transcript session !! index)
            (invalid_state ("forked session retained tail index out of bounds: " +:+ fmt_nat index)))
          (ses_retained_tail_indices session);
      let retained_before_summary :=
        length (base.filter (fun i => i < summary_index)%nat (ses_retained_tail_indices session)) in
      Ok (events ++
            [envelope (length events)
               (Ev_CompactionCompleted "fork_context"
                  (summary_index - retained_before_summary)
                  (length retained_tail_message_ids)
                  (chars_count (text_content summary_message))
                  (Some (msg_id summary_message)) retained_tail_message_ids)])
  end.

(* crates/runtime/src/session.rs, load_runtime_session *)
Definition load_runtime_session (store_events : SessionId -> result (list SessionEventEnvelope) SessionStoreError)
    (session_id : SessionId) (agent_session_id : AgentSessionId)
    : result RuntimeSession RuntimeError :=
  match store_events session_id with
  | Ok events => reconstruct_runtime_session events agent_session_id
  | Err e => Err (RtErr_Store e)
  end.

(* crates/runtime/src/transcript.rs, append_transcript_message *)
Definition append_transcript_message (transcript : list Message) (message : Message)
    (event_id : EventId) (timestamp_ms : N) (session_id : SessionId)
    (agent_session_id : AgentSessionId) (turn_id : TurnId)
    : SessionEventEnvelope * list Message :=
  (SessionEventEnvelope_new event_id timestamp_ms session_id agent_session_id (Some turn_id) None
     (Ev_TranscriptMessage message),
   transcript ++ [message]).

(** ** Well-formed windows *)

(** What a window must satisfy for its indices to mean what the runtime takes
    them to mean. *)
Definition window_ok (s : RuntimeSession) : Prop :=
  NoDup (msg_id <$> ses_transcript s)
  /\ match ses_compaction_summary_index s with
     | None => ses_retained_tail_indices s = [] /\ ses_post_summary_start s = 0%nat
     | Some si =>
         (si < length (ses_transcript s))%nat
         /\ ses_post_summary_start s = (si + 1)%nat
         /\ Forall (fun i => i < si)%nat (ses_retained_tail_indices s)
         /\ upgrade_retained_tail_indices_for_request_rounds (ses_transcript s)
              (ses_retained_tail_indices s) si = ses_retained_tail_indices s
     end.

Lemma rposition_all {A} (f : A -> bool) l :
  l <> [] -> Forall (fun x => f x = true) l -> rposition f l = Some (length l - 1)%nat.
Proof.
  intros Hne H. induction H as [|x l Hx Hl IH]; [done|]. simpl. rewrite Nat.sub_0_r.
  destruct l as [|y l]; [by rewrite Hx|]. rewrite IH by done. simpl. by rewrite Nat.sub_0_r.
Qed.

Lemma NoDup_appended_take n events :
  NoDup (appended_ids events) -> NoDup (appended_ids (take n events)).
Proof.
  intros H. rewrite <- (take_drop n events), appended_ids_app in H. by apply NoDup_app in H as [H _].
Qed.

(** The log of a reconstruction that succeeded. *)
Lemma reconstruct_Ok events a s :
  reconstruct_runtime_session events a = Ok s ->
  exists n, let slice := take n events in
    slice <> [] /\ ses_transcript s = replay_transcript slice
    /\ ses_agent_session_id s = a
    /\ ses_provider_continuation s = None /\ ses_provider_transcript_cursor s = 0%nat
    /\ ses_removed_message_ids s = ∅
    /\ ses_agent_session_started s = false
    /\ ses_token_ledger s = TokenLedgerSnapshot_default
    /\ match find_map compaction_of (rev slice) with
       | None => ses_compaction_summary_index s = None
                 /\ ses_retained_tail_indices s = [] /\ ses_post_summary_start s = 0%nat
       | Some (None, _) => False
       | Some (Some k, tail) => exists si,
           message_index (replay_transcript slice) !! k = Some si
           /\ ses_compaction_summary_index s = Some si
           /\ ses_post_summary_start s = (si + 1)%nat
           /\ ses_retained_tail_indices s =
                upgrade_retained_tail_indices_for_request_rounds (replay_transcript slice)
                  (retained_positions (replay_transcript slice) tail si) si
       end.
Proof.
  unfold reconstruct_runtime_session, reconstruct_slice, latest_compaction_checkpoint.
  destruct (rposition _ events) as [cut|] eqn:Ec; [|done].
  cbn [ok_or result_bind]. intros H. exists (S cut). apply rposition_Some in Ec as (ev & Hev & _ & _).
  assert (Hne : take (S cut) events <> []) by (by destruct events).
  set (slice := take (S cut) events) in *. simpl. split; [done|].
  destruct (find_map compaction_of (rev slice)) as [[[k|] tail]|] eqn:Ef;
    cbn [result_bind checkpoint_summary_message_id] in H.
  - destruct (message_index (replay_transcript slice) !! k) as [si|] eqn:Ek; simpl in H; [|done]. injection H as <-. simpl. repeat split; try done. by exists si.
  - done.
  - injection H as <-. by repeat split.
Qed.

Lemma window_ok_reconstruct events a s :
  NoDup (appended_ids events) -> reconstruct_runtime_session events a = Ok s -> window_ok s.
Proof.
  intros Hnd (n & Hne & Ht & _ & _ & _ & _ & _ & _ & Hc)%reconstruct_Ok.
  apply (NoDup_appended_take n) in Hnd. destruct (replay_refines _ Hnd) as (_ & Hr & _).
  unfold window_ok. rewrite Ht. split; [rewrite Hr; by apply transcript_of_log_NoDup|].
  destruct (find_map compaction_of _) as [[[k|] tail]|]; [|done|].
  - destruct Hc as (si & Hk & -> & Hp & ->). apply message_index_sound in Hk as (m & Hm & _).
    split; [by eapply lookup_lt_Some|]. split; [done|].
    split; [apply upgrade_bound | apply upgrade_idem]; apply retained_positions_bound.
  - by destruct Hc as (-> & Hc).
Qed.

(** ** Seeding a forked log *)

(** The events that replay a transcript, as [seed_runtime_session_events] lays
    them out. *)
Definition seeds (envelope : nat -> SessionEventKind -> SessionEventEnvelope)
    (t : list Message) : list SessionEventEnvelope :=
  imap (fun n message => envelope n (Ev_TranscriptMessage message)) t.

Section Seeds.
Variable envelope : nat -> SessionEventKind -> SessionEventEnvelope.
Hypothesis envelope_event : forall n kind, env_event (envelope n kind) = kind.

Lemma seeds_snoc t m :
  seeds envelope (t ++ [m]) = seeds envelope t ++ [envelope (length t) (Ev_TranscriptMessage m)].
Proof. unfold seeds. rewrite imap_app. simpl. by rewrite Nat.add_0_r. Qed.

Lemma appended_ids_seeds t : appended_ids (seeds envelope t) = msg_id <$> t.
Proof.
  induction t as [|m t IH] using rev_ind; [done|].
  rewrite seeds_snoc, appended_ids_app, IH, fmap_app. unfold appended_ids, appended_id. simpl.
  by rewrite envelope_event.
Qed.

Lemma transcript_of_log_seeds t : transcript_of_log (seeds envelope t) = t.
Proof.
  unfold transcript_of_log. induction t as [|m t IH] using rev_ind; [done|].
  rewrite seeds_snoc, foldl_app, IH. simpl. unfold apply_log_event. by rewrite envelope_event.
Qed.

Lemma replay_seeds t :
  NoDup (msg_id <$> t) -> replay_transcript (seeds envelope t) = t.
Proof.
  intros H. destruct (replay_refines (seeds envelope t)) as (_ & -> & _).
  - by rewrite appended_ids_seeds.
  - apply transcript_of_log_seeds.
Qed.

Lemma seeds_no_compaction t : find_map compaction_of (rev (seeds envelope t)) = None.
Proof.
  induction t as [|m t IH] using rev_ind; [done|].
  rewrite seeds_snoc, rev_app_distr. simpl. unfold compaction_of at 1. by rewrite envelope_event.
Qed.

End Seeds.

(** Looking up the ids of retained positions gives the positions back. *)
Lemma retained_positions_ids t l ids si :
  NoDup (msg_id <$> t) -> Forall (fun i => i < si)%nat l ->
  Forall2 (fun i k => msg_id <$> t !! i = Some k) l ids ->
  retained_positions t ids si = l.
Proof.
  intros Hnd Hb H. unfold retained_positions.
  induction H as [|i k l ids Hi _ IH]; [done|]. inversion Hb as [|? ? Hlt Hb']; subst.
  apply fmap_Some in Hi as (m & Hm & ->). simpl.
  rewrite (message_index_complete t m i Hnd Hm), filter_cons_True by done. f_equal. by apply IH.
Qed.

Lemma replay_transcript_snoc_other events event :
  appended_id event = None -> is_Some (compaction_of event) ->
  replay_transcript (events ++ [event]) = replay_transcript events.
Proof.
  intros _ [c Hc]. unfold replay_transcript. rewrite foldl_app. simpl.
  destruct (foldl replay_step _ events) as [t ix]. unfold replay_step, compaction_of in *.
  by destruct (env_event event).
Qed.

(** Every event belongs to the session and the agent session. *)
Definition owned (sid : SessionId) (aid : AgentSessionId) (e : SessionEventEnvelope) : Prop :=
  env_session_id e = sid /\ env_agent_session_id e = aid.

Lemma reconstruct_last event events aid :
  env_agent_session_id event = aid ->
  reconstruct_runtime_session (events ++ [event]) aid = reconstruct_slice (events ++ [event]) aid.
Proof.
  intros Ha. unfold reconstruct_runtime_session.
  assert (Hr : rposition (fun e => bool_decide (env_agent_session_id e = aid)) (events ++ [event])
               = Some (length events)).
  { induction events as [|e events IH]; simpl; [by rewrite bool_decide_eq_true_2 | by rewrite IH]. }
  rewrite Hr. simpl. rewrite take_ge; [done|]. rewrite length_app. simpl. lia.
Qed.

Lemma reconstruct_owned events sid aid :
  events <> [] -> Forall (owned sid aid) events ->
  reconstruct_runtime_session events aid = reconstruct_slice events aid
  /\ from_option env_session_id "" (last events) = sid.
Proof.
  destruct events as [|e events _] using rev_ind; [done|]. intros _ H.
  apply Forall_app in H as [_ H]. inversion H as [|? ? [Hs Ha] _]; subst.
  rewrite last_snoc. split; [by apply reconstruct_last | done].
Qed.

Lemma seed_retained_ids t l :
  Forall (fun i => i < length t)%nat l ->
  exists ids, Forall2 (fun i k => msg_id <$> t !! i = Some k) l ids
    /\ map_result (fun index => ok_or (msg_id <$> t !! index)
         (invalid_state ("forked session retained tail index out of bounds: " +:+ fmt_nat index))) l
       = Ok ids.
Proof.
  induction 1 as [|i l Hi _ (ids & H1 & H2)]; [by exists []; split; [constructor|]|].
  apply lookup_lt_is_Some in Hi as [m Hm]. exists (msg_id m :: ids). simpl. rewrite Hm. simpl.
  rewrite H2. split; [|done]. constructor; [by rewrite Hm | done].
Qed.

(** A log of seeds followed by one compaction event. *)
Lemma reconstruct_seeded envelope sid aid t c k tail si :
  (forall n kind, env_event (envelope n kind) = kind /\ owned sid aid (envelope n kind)) ->
  NoDup (msg_id <$> t) -> owned sid aid c -> compaction_of c = Some (Some k, tail) ->
  message_index t !! k = Some si ->
  reconstruct_runtime_session (seeds envelope t ++ [c]) aid
  = Ok (with_window (with_transcript (RuntimeSession_new sid aid) t) si
          (upgrade_retained_tail_indices_for_request_rounds t (retained_positions t tail si) si)).
Proof.
  intros He Hnd [Hsid Haid] Hc Hsi. rewrite reconstruct_last by done. unfold reconstruct_slice.
  assert (Henv : forall n kind, env_event (envelope n kind) = kind) by (intros; apply He).
  assert (Hid : appended_id c = None).
  { unfold appended_id, compaction_of in *. by destruct (env_event c). }
  rewrite replay_transcript_snoc_other, replay_seeds by (rewrite ?Hc; done).
  rewrite last_snoc. unfold latest_compaction_checkpoint. rewrite rev_app_distr. simpl.
  rewrite Hc. simpl. rewrite Hsi. simpl. by rewrite Hsid.
Qed.

Lemma reconstruct_seeds envelope sid aid t :
  (forall n kind, env_event (envelope n kind) = kind /\ owned sid aid (envelope n kind)) ->
  NoDup (msg_id <$> t) -> t <> [] ->
  reconstruct_runtime_session (seeds envelope t) aid
  = Ok (with_transcript (RuntimeSession_new sid aid) t).
Proof.
  intros He Hnd Hne.
  destruct (reconstruct_owned (seeds envelope t) sid aid) as [-> Hs].
  { unfold seeds. by destruct t. }
  { apply Forall_forall. intros e Hin. apply elem_of_lookup_imap in Hin as (n & m & -> & _).
    apply He. }
  assert (Henv : forall n kind, env_event (envelope n kind) = kind) by (intros; apply He).
  unfold reconstruct_slice, latest_compaction_checkpoint.
  by rewrite seeds_no_compaction, replay_seeds, Hs.
Qed.

(** Seeding a well-formed fork and reconstructing it gives the fork back. *)
Lemma seed_reconstruct stamp s :
  window_ok s -> ses_transcript s <> [] -> ses_removed_message_ids s = ∅ ->
  exists events, seed_runtime_session_events stamp s = Ok events
    /\ reconstruct_runtime_session events (ses_agent_session_id s)
       = Ok (fork_runtime_session s (ses_session_id s) (ses_agent_session_id s)).
Proof.
  intros [Hnd Hw] Hne Hrm. unfold seed_runtime_session_events.
  set (envelope := fun n kind => SessionEventEnvelope_new (stamp n).1 (stamp n).2
        (ses_session_id s) (ses_agent_session_id s) None None kind).
  change (imap _ (ses_transcript s)) with (seeds envelope (ses_transcript s)).
  assert (Henv : forall n k, env_event (envelope n k) = k
    /\ owned (ses_session_id s) (ses_agent_session_id s) (envelope n k)) by done.
  destruct (ses_compaction_summary_index s) as [si|] eqn:Esi.
  - destruct Hw as (Hlt & Hpost & Hb & Hup).
    apply lookup_lt_is_Some in Hlt as [m Hm]. rewrite Hm. cbn [ok_or result_bind].
    destruct (seed_retained_ids (ses_transcript s) (ses_retained_tail_indices s)) as (ids & Hids & ->).
    { eapply Forall_impl; [exact Hb|]. simpl. intros i Hi. apply lookup_lt_Some in Hm. lia. }
    cbn [result_bind]. eexists. split; [done|].
    rewrite (reconstruct_seeded envelope (ses_session_id s) _ _ _ (msg_id m) ids si);
      [|done..| by apply message_index_complete].
    rewrite (retained_positions_ids _ (ses_retained_tail_indices s)), Hup by done.
    unfold with_window, fork_runtime_session. simpl. by rewrite Esi, Hpost, Hrm.
  - destruct Hw as [Hr Hp]. eexists. split; [done|].
    rewrite (reconstruct_seeds envelope (ses_session_id s)) by done.
    unfold with_transcript, fork_runtime_session. simpl. by rewrite Esi, Hr, Hp, Hrm.
Qed.

Lemma seed_empty stamp s : window_ok s -> ses_transcript s = [] -> seed_runtime_session_events stamp s = Ok [].
Proof.
  intros [_ Hw] He. unfold seed_runtime_session_events. rewrite He.
  destruct (ses_compaction_summary_index s) as [si|]; [|done]. destruct Hw as (Hlt & _).
  rewrite He in Hlt. simpl in Hlt. lia.
Qed.

(** ** Properties *)

(** C18.  Forking round trip: a session reconstructed from a log whose message
    ids are fresh, forked under new ids, can be seeded into the child's log.  If the
    parent has messages, the child is resumed from that log as exactly the forked
    session: same transcript, same summary, same retained tail.  A parent without
    messages seeds nothing, and an empty log has no session to resume. *)
Theorem forked_session_resumes events a parent stamp session_id agent_session_id :
  NoDup (appended_ids events) ->
  reconstruct_runtime_session events a = Ok parent ->
  exists seeded,
    seed_runtime_session_events stamp (fork_runtime_session parent session_id agent_session_id)
      = Ok seeded
    /\ (ses_transcript parent <> [] ->
        reconstruct_runtime_session seeded agent_session_id
        = Ok (fork_runtime_session parent session_id agent_session_id))
    /\ (ses_transcript parent = [] ->
        seeded = [] /\ reconstruct_runtime_session seeded agent_session_id
          = Err (invalid_state ("agent session missing from persisted event log: " +:+ agent_session_id))).
Proof.
  intros Hnd Hrec. assert (Hw := window_ok_reconstruct _ _ _ Hnd Hrec).
  destruct (reconstruct_Ok _ _ _ Hrec) as (n & _ & _ & _ & _ & _ & Hrm & _).
  destruct (decide (ses_transcript parent = [])) as [He|Hne].
  - exists []. split_and!; [|done | done]. by apply seed_empty.
  - destruct (seed_reconstruct stamp (fork_runtime_session parent session_id agent_session_id)) as (seeded & Hs & Hr);
      [done..|]. by exists seeded.
Qed.

(** Removing the compaction summary makes a session unresumable: once the
    log of a compacted session records the removal of its summary message,
    reconstruction fails instead of giving the history that is left. *)
Theorem removed_summary_not_resumable events e a s si summary removal :
  NoDup (appended_ids (events ++ [e])) ->
  env_agent_session_id e = a ->
  reconstruct_runtime_session (events ++ [e]) a = Ok s ->
  ses_compaction_summary_index s = Some si ->
  ses_transcript s !! si = Some summary ->
  env_agent_session_id removal = a ->
  env_event removal = Ev_TranscriptMessageRemoved (msg_id summary) ->
  reconstruct_runtime_session ((events ++ [e]) ++ [removal]) a =
    Err (invalid_state
           ("compaction summary message missing from reconstructed transcript: "
              +:+ msg_id summary)).
Proof.
  set (log := events ++ [e]). intros Hnd He Hrec Hsi Hsum Hra Hre.
  assert (Hnd' : NoDup (appended_ids (log ++ [removal]))).
  { rewrite appended_ids_app. unfold appended_ids at 2, appended_id. simpl. rewrite Hre.
    by rewrite app_nil_r. }
  unfold log in Hrec. rewrite reconstruct_last in Hrec by done. fold log in Hrec.
  rewrite reconstruct_last by done. unfold reconstruct_slice, latest_compaction_checkpoint in *.
  rewrite rev_app_distr. simpl rev. cbn [app find_map]. unfold compaction_of at 1. rewrite Hre.
  destruct (find_map compaction_of (rev log)) as [[[k|] tail]|]; cbn [result_bind] in *;
    [|done | injection Hrec as <-; discriminate Hsi].
  cbn [checkpoint_summary_message_id checkpoint_retained_tail_message_ids] in *.
  destruct (message_index (replay_transcript log) !! k) as [i|] eqn:Ek; simpl in Hrec; [|done].
  injection Hrec as <-. simpl in Hsi, Hsum. injection Hsi as ->.
  apply message_index_sound in Ek as (m & Hm & <-). assert (m = summary) as -> by congruence.
  destruct (replay_refines _ Hnd') as (_ & -> & _).
  unfold transcript_of_log. rewrite foldl_app. simpl. unfold apply_log_event. rewrite Hre.
  destruct (message_index _ !! msg_id summary) as [j|] eqn:Ej; [|done].
  apply message_index_sound in Ej as (x & Hx & Hid).
  apply list_elem_of_lookup_2, list_elem_of_filter in Hx as [Hx _]. done.
Qed.

End Session.

(** ** Concrete sessions *)

Section Witnesses.
#[local] Existing Instance json_text.

Definition demo_session : RuntimeSession :=
  mkRuntimeSession "session" "a"
    [older; answer; recall; kept; summary_msg; follow_up] None 0 (Some 4%nat) [2; 3]%nat 5 ∅ false
    TokenLedgerSnapshot_default.

Lemma demo_reconstruct : reconstruct_runtime_session compacted_log "a" = Ok demo_session.
Proof. reflexivity. Qed.

Lemma forked_session_resumes_witness :
  exists seeded,
    seed_runtime_session_events (fun n => (fmt_nat n, 0%N))
      (fork_runtime_session demo_session "child" "b") = Ok seeded
    /\ reconstruct_runtime_session seeded "b" = Ok (fork_runtime_session demo_session "child" "b").
Proof.
  destruct (forked_session_resumes compacted_log "a" demo_session (fun n => (fmt_nat n, 0%N)) "child" "b")
    as (seeded & Hs & Hr & _); [apply compacted_log_fresh | reflexivity |].
  exists seeded. split; [exact Hs | by apply Hr].
Defined.

Lemma removed_summary_not_resumable_witness :
  reconstruct_runtime_session
    (compacted_log ++ [logged "e7" "a" (Ev_TranscriptMessageRemoved "m4")]) "a"
  = Err (invalid_state
           "compaction summary message missing from reconstructed transcript: m4").
Proof.
  apply (removed_summary_not_resumable (take 6 compacted_log)
           (logged "e6" "a" (Ev_TranscriptMessage follow_up)) "a" demo_session 4 summary_msg
           (logged "e7" "a" (Ev_TranscriptMessageRemoved "m4")));
    try reflexivity. apply compacted_log_fresh.
Defined.

(** The store's projection of the same log shows the whole uncompacted history
    again. *)
Example removed_summary_resurfaces :
  msg_id <$> visible_transcript
    (compacted_log ++ [logged "e7" "a" (Ev_TranscriptMessageRemoved "m4")])
  = ["m0"; "m1"; "m2"; "m3"; "m5"].
Proof. reflexivity. Qed.

End Witnesses.
