(* ===== verification/History.v ===== *)
(** * Visible history, compaction split and rollback rounds

    Models the pure part of [crates/runtime/src/runtime/history.rs] and the
    prompt estimate of [compaction.rs]: which messages of a session are visible
    to the model, where a compaction cuts the visible history, and the rounds a
    rollback can return to.  The loops that walk the split backwards are
    [Fixpoint]s on a fuel that starts at the split index; every iteration
    strictly lowers the index, so the fuel never runs out ([expand_unfold],
    [adjust_unfold] are the loops' own equations). *)

From Stdlib Require Import String.
From stdpp Require Import base list gmap strings.
From Stdlib Require Import Lia.
From S2P Require Import Prelude Message Events Errors Replay Session.

Section History.
Context {J : SerdeJson}.

(** ** The visible window *)

(* crates/runtime/src/runtime/history.rs, AgentRuntime::visible_message_indices *)
Definition visible_message_indices (s : RuntimeSession) : list nat :=
  let indices :=
    match ses_compaction_summary_index s with
    | Some summary_index =>
        summary_index
          :: base.filter (fun index => index < summary_index)%nat (ses_retained_tail_indices s)
          ++ seq (ses_post_summary_start s) (length (ses_transcript s) - ses_post_summary_start s)
    | None => seq 0 (length (ses_transcript s))
    end in
  List.filter (fun index =>
      from_option (fun message => negb (bool_decide (msg_id message ∈ ses_removed_message_ids s)))
        false (ses_transcript s !! index)) indices.

(* crates/runtime/src/runtime/history.rs, AgentRuntime::visible_transcript *)
Definition session_visible_transcript (s : RuntimeSession) : list Message :=
  messages_at (ses_transcript s) (visible_message_indices s).

(* crates/runtime/src/runtime/history.rs, AgentRuntime::visible_transcript_index_for_message_id *)
Definition visible_transcript_index_for_message_id (s : RuntimeSession) (message_id : MessageId)
    : option nat :=
  List.find (fun index =>
      from_option (fun message => bool_decide (msg_id message = message_id)) false
        (ses_transcript s !! index)) (visible_message_indices s).

(* crates/runtime/src/runtime/history.rs, AgentRuntime::visible_transcript_last_index_for_role *)
Definition visible_transcript_last_index_for_role (s : RuntimeSession) (role : MessageRole)
    : option nat :=
  List.find (fun index =>
      from_option (fun message => bool_decide (msg_role message = role)) false
        (ses_transcript s !! index)) (rev (visible_message_indices s)).

(* crates/runtime/src/runtime/history.rs, AgentRuntime::transcript_contains_message_id *)
Definition transcript_contains_message_id (s : RuntimeSession) (message_id : MessageId) : bool :=
  existsb (fun message => bool_decide (msg_id message = message_id)) (ses_transcript s).

(* crates/runtime/src/runtime/history.rs, AgentRuntime::transcript_contains_role *)
Definition transcript_contains_role (s : RuntimeSession) (role : MessageRole) : bool :=
  existsb (fun message => bool_decide (msg_role message = role)) (ses_transcript s).

(** ** Token estimates *)

(* crates/runtime/src/runtime/history.rs, RETAINED_TAIL_MIN_TOKENS *)
Definition RETAINED_TAIL_MIN_TOKENS : nat := N.to_nat 10000.

(* crates/runtime/src/runtime/history.rs, RETAINED_TAIL_MIN_TEXT_MESSAGES *)
Definition RETAINED_TAIL_MIN_TEXT_MESSAGES : nat := 5.

(* crates/runtime/src/runtime/history.rs, estimate_message_tokens *)
Definition estimate_message_tokens (message : Message) : nat :=
  div_ceil (String.length (text_content message) + 32) 4.

(* crates/runtime/src/runtime/history.rs, estimate_messages_tokens *)
Definition estimate_messages_tokens (messages : list Message) : nat :=
  sum_list_with estimate_message_tokens messages.

(* crates/runtime/src/runtime/history.rs, message_has_text_content *)
Definition message_has_text_content (message : Message) : bool :=
  match msg_role message with
  | Role_User | Role_Assistant => negb (str_is_empty (trim (text_content message)))
  | _ => false
  end.

(* crates/runtime/src/runtime/history.rs, count_text_messages *)
Definition count_text_messages (messages : list Message) : nat :=
  length (base.filter (fun message => message_has_text_content message = true) messages).

(* crates/runtime/src/compaction.rs, estimate_prompt_tokens *)
Definition estimate_prompt_tokens (instructions : list string) (messages : list Message)
    (tools : list ToolSpec) (additional_context : list string) : nat :=
  let chars :=
    (sum_list_with String.length instructions
     + sum_list_with String.length additional_context
     + sum_list_with (fun message => String.length (text_content message) + 32) messages
     + sum_list_with (fun tool =>
         String.length (spec_name tool) + String.length (spec_description tool)
         + from_option (fun schema => String.length (value_to_string schema)) 0
             (spec_input_schema tool)) tools)%nat in
  div_ceil chars 4.

(** ** The compaction split *)

(** The text of [starts_request_round] is the same as the store's. *)
(* crates/runtime/src/runtime/history.rs, starts_request_round *)
Definition history_starts_request_round (visible_messages : list Message) (index : nat) : bool :=
  starts_request_round visible_messages index.

(* crates/runtime/src/runtime/history.rs, message_tool_call_ids *)
Definition message_tool_call_ids (message : Message) : list ToolCallId :=
  omap (fun part => match part with Part_ToolCall call => Some (call_id call) | _ => None end)
    (msg_parts message).

(* crates/runtime/src/runtime/history.rs, message_tool_result_ids *)
Definition message_tool_result_ids (message : Message) : list ToolCallId :=
  omap (fun part => match part with Part_ToolResult r => Some (result_id r) | _ => None end)
    (msg_parts message).

(* crates/runtime/src/runtime/history.rs, missing_tool_call_ids *)
Definition missing_tool_call_ids (messages : list Message) : gset ToolCallId :=
  let tool_call_ids : gset ToolCallId := list_to_set (messages ≫= message_tool_call_ids) in
  list_to_set (base.filter (fun id => id ∉ tool_call_ids) (messages ≫= message_tool_result_ids)).

(** [(lo..hi).rev().find(f)]. *)
Definition find_rev_range (lo hi : nat) (f : nat -> bool) : option nat :=
  List.find f (rev (seq lo (hi - lo))).

(* crates/runtime/src/runtime/history.rs, find_previous_tool_call_index *)
Definition find_previous_tool_call_index (visible_messages : list Message) (split_at : nat)
    (required_call_ids : gset ToolCallId) : option nat :=
  find_rev_range 0 split_at (fun index =>
    from_option (fun message =>
        existsb (fun id => bool_decide (id ∈ required_call_ids)) (message_tool_call_ids message))
      false (visible_messages !! index)).

(* crates/runtime/src/runtime/history.rs, previous_request_round_start *)
Definition previous_request_round_start (visible_messages : list Message) (split_at : nat)
    : option nat :=
  find_rev_range 2 split_at (history_starts_request_round visible_messages).

(* crates/runtime/src/runtime/history.rs, align_split_at_to_request_round_boundary *)
Definition align_split_at_to_request_round_boundary (visible_messages : list Message)
    (split_at : nat) : option nat :=
  let split_at := rewind_to_round visible_messages split_at in
  if (2 <=? split_at)%nat then Some split_at else None.

(** [&messages[from..to]]. *)
Definition slice {A} (l : list A) (from to : nat) : list A := take (to - from) (drop from l).

(** The [while] loop of [expand_retained_tail_for_context_floor]. *)
(* crates/runtime/src/runtime/history.rs, expand_retained_tail_for_context_floor@while split_at > 2 *)
Fixpoint expand_loop (fuel : nat) (visible_messages : list Message)
    (split_at retained_tokens retained_text_messages : nat) : option nat :=
  match fuel with
  | 0%nat => Some split_at
  | S fuel =>
      if (2 <? split_at)%nat
         && ((retained_tokens <? RETAINED_TAIL_MIN_TOKENS)%nat
             || (retained_text_messages <? RETAINED_TAIL_MIN_TEXT_MESSAGES)%nat)
      then
        match previous_request_round_start visible_messages split_at with
        | None => None
        | Some start =>
            expand_loop fuel visible_messages start
              (retained_tokens + estimate_messages_tokens (slice visible_messages start split_at))
              (retained_text_messages + count_text_messages (slice visible_messages start split_at))
        end
      else Some split_at
  end.

(* crates/runtime/src/runtime/history.rs, expand_retained_tail_for_context_floor *)
Definition expand_retained_tail_for_context_floor (visible_messages : list Message)
    (split_at : nat) : option nat :=
  if (estimate_messages_tokens visible_messages <? RETAINED_TAIL_MIN_TOKENS)%nat
  then Some split_at
  else
    expand_loop split_at visible_messages split_at
      (estimate_messages_tokens (drop split_at visible_messages))
      (count_text_messages (drop split_at visible_messages)).

(** The [loop] of [adjust_split_at_for_tool_pairs]. *)
(* crates/runtime/src/runtime/history.rs, adjust_split_at_for_tool_pairs *)
Fixpoint adjust_loop (fuel : nat) (visible_messages : list Message) (split_at : nat)
    : option nat :=
  let missing_call_ids := missing_tool_call_ids (drop split_at visible_messages) in
  if bool_decide (missing_call_ids = ∅) then Some split_at
  else
    match find_previous_tool_call_index visible_messages split_at missing_call_ids with
    | None => None
    | Some previous_call_index =>
        if (previous_call_index <? 2)%nat then None
        else
          match fuel with
          | 0%nat => None
          | S fuel => adjust_loop fuel visible_messages previous_call_index
          end
    end.

(* crates/runtime/src/runtime/history.rs, adjust_split_at_for_tool_pairs *)
Definition adjust_split_at_for_tool_pairs (visible_messages : list Message) (split_at : nat)
    : option nat :=
  adjust_loop split_at visible_messages split_at.

(* crates/runtime/src/runtime/history.rs, select_compaction_split_index *)
Definition select_compaction_split_index (visible_messages : list Message)
    (preserve_recent_messages : nat) : option nat :=
  if (length visible_messages <? 2)%nat then None
  else
    let retain_count := Nat.min preserve_recent_messages (length visible_messages - 1) in
    let split_at := (length visible_messages - retain_count)%nat in
    if (split_at <? 2)%nat then None
    else if (split_at =? length visible_messages)%nat then Some split_at
    else
      split_at ← align_split_at_to_request_round_boundary visible_messages split_at;
      split_at ← expand_retained_tail_for_context_floor visible_messages split_at;
      split_at ← adjust_split_at_for_tool_pairs visible_messages split_at;
      align_split_at_to_request_round_boundary visible_messages split_at.

(** ** Rollback rounds *)

(* crates/runtime/src/runtime.rs, VisibleHistoryRollbackRound *)
Record VisibleHistoryRollbackRound := mkVisibleHistoryRollbackRound {
  rollback_message_id : MessageId;
  prompt_message_id : MessageId;
  round_messages : list Message;
  removed_turn_count : nat;
  removed_message_count : nat
}.

Definition is_response_side (message : Message) : bool :=
  match msg_role message with Role_Assistant | Role_Tool => true | _ => false end.

(* crates/runtime/src/runtime/history.rs, primary_prompt_offset *)
Definition primary_prompt_offset (round : list Message) : option nat :=
  let request_side_end := default (length round) (position is_response_side round) in
  find_rev_range 0 request_side_end (fun offset =>
    from_option (fun message => bool_decide (msg_role message = Role_User)) false
      (round !! offset)).

(** The closure of the [filter_map] in [visible_history_rollback_round_starts]. *)
Definition rollback_round_start (visible_messages : list Message) (has_compaction_summary : bool)
    (index : nat) (message : Message) : bool :=
  match msg_role message with
  | Role_User | Role_System =>
      match index with
      | 0%nat => negb has_compaction_summary
      | S previous =>
          if (index =? 1)%nat && has_compaction_summary then true
          else from_option is_response_side false (visible_messages !! previous)
      end
  | _ => false
  end.

(* crates/runtime/src/runtime/history.rs, visible_history_rollback_round_starts *)
Definition visible_history_rollback_round_starts (visible_messages : list Message)
    (has_compaction_summary : bool) : list nat :=
  omap (fun p =>
      if rollback_round_start visible_messages has_compaction_summary p.1 p.2
      then Some p.1 else None) (imap pair visible_messages).

(** The [provisional] list of [build_visible_history_rollback_rounds]. *)
(* crates/runtime/src/runtime/history.rs, build_visible_history_rollback_rounds@let provisional *)
Definition provisional_rounds (visible_messages : list Message) (round_starts : list nat)
    : list (nat * MessageId * MessageId * list Message) :=
  omap (fun p =>
      let '(round_index, round_start) := p in
      let round_end := default (length visible_messages) (round_starts !! S round_index) in
      if (round_start <=? round_end)%nat && (round_end <=? length visible_messages)%nat then
        let round := slice visible_messages round_start round_end in
        prompt_offset ← primary_prompt_offset round;
        head ← round !! 0%nat;
        prompt ← round !! prompt_offset;
        Some (round_start, msg_id head, msg_id prompt, round)
      else None) (imap pair round_starts).

(* crates/runtime/src/runtime/history.rs, build_visible_history_rollback_rounds *)
Definition build_visible_history_rollback_rounds (visible_messages : list Message)
    (has_compaction_summary : bool) : list VisibleHistoryRollbackRound :=
  let round_starts :=
    visible_history_rollback_round_starts visible_messages has_compaction_summary in
  let provisional := provisional_rounds visible_messages round_starts in
  let total_rounds := length provisional in
  imap (fun round_index p =>
      let '(round_start, rollback_id, prompt_id, messages) := p in
      mkVisibleHistoryRollbackRound rollback_id prompt_id messages
        (total_rounds - round_index) (length visible_messages - round_start)) provisional.

(* crates/runtime/src/runtime/history.rs, AgentRuntime::visible_history_rollback_rounds *)
Definition visible_history_rollback_rounds (s : RuntimeSession)
    : list VisibleHistoryRollbackRound :=
  build_visible_history_rollback_rounds (session_visible_transcript s)
    (bool_decide (is_Some (ses_compaction_summary_index s))).

(** The ids [rollback_visible_history_from_message] removes, or [None] when the
    message is not visible. *)
(* crates/runtime/src/runtime/history.rs, AgentRuntime::rollback_visible_history_from_message@let visible_indices ~~ let turn_id *)
Definition rollback_removed_message_ids (s : RuntimeSession) (message_id : MessageId)
    : option (list MessageId) :=
  let visible_indices := visible_message_indices s in
  match position (fun index =>
          from_option (fun message => bool_decide (msg_id message = message_id)) false
            (ses_transcript s !! index)) visible_indices with
  | None => None
  | Some start_at =>
      Some (omap (fun index => msg_id <$> ses_transcript s !! index) (drop start_at visible_indices))
  end.

(** ** Lemmas: ranges and slices *)

Lemma find_rev_range_S lo n f :
  List.find f (rev (seq lo (S n)))
  = if f (lo + n)%nat then Some (lo + n)%nat else List.find f (rev (seq lo n)).
Proof. rewrite seq_S, rev_app_distr. done. Qed.

Lemma find_rev_range_Some lo hi f i :
  find_rev_range lo hi f = Some i ->
  (lo <= i < hi)%nat /\ f i = true /\ (forall j, (i < j < hi)%nat -> f j = false).
Proof.
  assert (H : forall n, List.find f (rev (seq lo n)) = Some i ->
    (lo <= i < lo + n)%nat /\ f i = true /\ (forall j, (i < j < lo + n)%nat -> f j = false)).
  { induction n as [|n IH]; [done|]. rewrite find_rev_range_S. destruct (f (lo + n)%nat) eqn:E.
    - intros [= <-]. split; [lia|]. split; [done | lia].
    - intros (H1 & H2 & H3)%IH. split; [lia|]. split; [done|]. intros j Hj.
      destruct (decide (j = lo + n)%nat) as [->|]; [done|]. apply H3. lia. }
  intros (H1 & H2 & H3)%H. split; [lia|]. split; [done|]. intros j Hj. apply H3. lia.
Qed.

Lemma find_rev_range_None lo hi f :
  find_rev_range lo hi f = None -> forall j, (lo <= j < hi)%nat -> f j = false.
Proof.
  unfold find_rev_range. intros H j Hj.
  apply (List.find_none _ _ H). apply -> in_rev. apply in_seq. lia.
Qed.

Lemma drop_slice {A} (l : list A) a b : (a <= b)%nat -> drop a l = slice l a b ++ drop b l.
Proof.
  intros H. unfold slice. rewrite <- (take_drop (b - a) (drop a l)) at 1. f_equal.
  rewrite drop_drop. f_equal. lia.
Qed.

Lemma estimate_messages_tokens_app l k :
  estimate_messages_tokens (l ++ k) = (estimate_messages_tokens l + estimate_messages_tokens k)%nat.
Proof. apply sum_list_with_app. Qed.

Lemma count_text_messages_app l k :
  count_text_messages (l ++ k) = (count_text_messages l + count_text_messages k)%nat.
Proof. unfold count_text_messages. by rewrite filter_app, length_app. Qed.

(** The floors of [expand_retained_tail_for_context_floor], as a property of the
    retained tail. *)
Definition floors_met (tail : list Message) : Prop :=
  (RETAINED_TAIL_MIN_TOKENS <= estimate_messages_tokens tail)%nat
  /\ (RETAINED_TAIL_MIN_TEXT_MESSAGES <= count_text_messages tail)%nat.

Lemma floors_met_mono msgs a b :
  (a <= b)%nat -> floors_met (drop b msgs) -> floors_met (drop a msgs).
Proof.
  intros H [H1 H2]. unfold floors_met.
  rewrite (drop_slice msgs a b), estimate_messages_tokens_app, count_text_messages_app by done. lia.
Qed.

(** ** Lemmas: the split *)

(** The loops satisfy their own equations: fuel is never what stops them. *)
Lemma expand_unfold msgs n split tokens texts :
  (split <= n)%nat ->
  expand_loop n msgs split tokens texts =
  if (2 <? split)%nat
     && ((tokens <? RETAINED_TAIL_MIN_TOKENS)%nat || (texts <? RETAINED_TAIL_MIN_TEXT_MESSAGES)%nat)
  then start ← previous_request_round_start msgs split;
       expand_loop split msgs start
         (tokens + estimate_messages_tokens (slice msgs start split))
         (texts + count_text_messages (slice msgs start split))
  else Some split.
Proof.
  assert (Hind : forall a b split tokens texts, (split <= a)%nat -> (split <= b)%nat ->
    expand_loop a msgs split tokens texts = expand_loop b msgs split tokens texts).
  { clear n split tokens texts. induction a as [|a IH]; intros [|b] split tokens texts Ha Hb; simpl.
    - done.
    - destruct (Nat.ltb_spec 2 split); [lia | done].
    - destruct (Nat.ltb_spec 2 split); [lia | done].
    - destruct (_ && _); [|done].
      destruct (previous_request_round_start msgs split) as [st|] eqn:E; [|done].
      apply find_rev_range_Some in E as (E & _). apply IH; lia. }
  destruct n as [|n]; intros H; simpl.
  - destruct (Nat.ltb_spec 2 split); [lia | done].
  - destruct (_ && _); [|done].
    destruct (previous_request_round_start msgs split) as [st|] eqn:E; [|done]. simpl.
    apply find_rev_range_Some in E as (E & _). apply Hind; lia.
Qed.

Lemma adjust_unfold msgs n split :
  (split <= n)%nat ->
  adjust_loop n msgs split =
  if bool_decide (missing_tool_call_ids (drop split msgs) = ∅) then Some split
  else call ← find_previous_tool_call_index msgs split (missing_tool_call_ids (drop split msgs));
       if (call <? 2)%nat then None else adjust_loop split msgs call.
Proof.
  assert (Hind : forall a b split, (split <= a)%nat -> (split <= b)%nat ->
    adjust_loop a msgs split = adjust_loop b msgs split).
  { clear n split. induction a as [|a IH]; intros [|b] split Ha Hb; simpl; try done;
      case_bool_decide; try done;
      destruct (find_previous_tool_call_index _ _ _) as [c|] eqn:E; try done;
      apply find_rev_range_Some in E as (E & _); destruct (Nat.ltb_spec c 2); try done; try lia.
    apply IH; lia. }
  intros H. destruct n as [|n]; simpl; case_bool_decide; try done;
    destruct (find_previous_tool_call_index _ _ _) as [c|] eqn:E; try done; simpl;
    apply find_rev_range_Some in E as (E & _); destruct (Nat.ltb_spec c 2); try done; try lia.
  apply Hind; lia.
Qed.

Lemma align_spec msgs n s :
  align_split_at_to_request_round_boundary msgs n = Some s ->
  (2 <= s <= n)%nat /\ starts_request_round msgs s = true.
Proof.
  unfold align_split_at_to_request_round_boundary.
  destruct (Nat.leb_spec 2 (rewind_to_round msgs n)); [|done]. intros [= <-].
  destruct (rewind_to_round_spec msgs n) as (H1 & [H2|H2] & _); [lia | by split].
Qed.

Lemma expand_loop_spec msgs n split s :
  (split <= n)%nat ->
  expand_loop n msgs split (estimate_messages_tokens (drop split msgs))
    (count_text_messages (drop split msgs)) = Some s ->
  (s <= split)%nat /\ ((s <= 2)%nat \/ floors_met (drop s msgs)) /\ ((2 <= split)%nat -> (2 <= s)%nat).
Proof.
  revert split. induction n as [|n IH]; intros split Hle; cbn [expand_loop].
  { intros [= <-]. lia. }
  destruct (Nat.ltb_spec 2 split); cbn [andb].
  2: { intros [= <-]. lia. }
  destruct (_ || _) eqn:Ef.
  - destruct (previous_request_round_start msgs split) as [st|] eqn:E; [|done].
    apply find_rev_range_Some in E as (E & _). intros H1.
    destruct (IH st) as (I1 & I2 & I3); [lia| |split; [lia | split; [done | lia]]].
    rewrite (drop_slice msgs st split), estimate_messages_tokens_app, count_text_messages_app by lia.
    rewrite (Nat.add_comm (estimate_messages_tokens (slice _ _ _))),
      (Nat.add_comm (count_text_messages (slice _ _ _))). done.
  - intros [= <-]. apply orb_false_iff in Ef as [E1%Nat.ltb_ge E2%Nat.ltb_ge].
    split; [lia|]. split; [by right | lia].
Qed.

Lemma expand_spec msgs split s :
  expand_retained_tail_for_context_floor msgs split = Some s ->
  (s <= split)%nat /\ ((2 <= split)%nat -> (2 <= s)%nat)
  /\ ((RETAINED_TAIL_MIN_TOKENS <= estimate_messages_tokens msgs)%nat ->
       (s <= 2)%nat \/ floors_met (drop s msgs)).
Proof.
  unfold expand_retained_tail_for_context_floor.
  destruct (Nat.ltb_spec (estimate_messages_tokens msgs) RETAINED_TAIL_MIN_TOKENS) as [Hlt|Hge].
  - intros [= <-]. repeat split; lia.
  - intros (H1 & H2 & H3)%expand_loop_spec; [by auto | lia].
Qed.

Lemma adjust_spec msgs n split s :
  adjust_loop n msgs split = Some s ->
  (s <= split)%nat /\ missing_tool_call_ids (drop s msgs) = ∅.
Proof.
  revert split. induction n as [|n IH]; intros split; simpl; case_bool_decide as Hm;
    try (by intros [= <-]);
    destruct (find_previous_tool_call_index _ _ _) as [c|] eqn:E; try done;
    destruct (Nat.ltb_spec c 2); try done.
  apply find_rev_range_Some in E as (E & _). intros [H1 H2]%IH. split; [lia | done].
Qed.

(** The ids of results whose call is not among the messages. *)
Lemma elem_of_missing msgs k :
  k ∈ missing_tool_call_ids msgs <->
  k ∈ (msgs ≫= message_tool_result_ids) /\ k ∉ (msgs ≫= message_tool_call_ids).
Proof.
  unfold missing_tool_call_ids. rewrite elem_of_list_to_set, list_elem_of_filter, elem_of_list_to_set.
  tauto.
Qed.

(** Tool results stay in the request round of their call. *)
Definition pairs_in_rounds (msgs : list Message) : Prop :=
  forall j m k, msgs !! j = Some m -> k ∈ message_tool_result_ids m ->
    exists i c, msgs !! i = Some c /\ k ∈ message_tool_call_ids c
      /\ (i <= j)%nat /\ (forall r, (i < r <= j)%nat -> starts_request_round msgs r = false).

Lemma round_start_keeps_pairs msgs s :
  pairs_in_rounds msgs -> starts_request_round msgs s = true ->
  missing_tool_call_ids (drop s msgs) = ∅.
Proof.
  intros Hp Hs. apply set_eq. intros k. rewrite elem_of_missing.
  split; [|set_solver]. intros [Hr Hc]. exfalso. apply Hc. clear Hc.
  apply list_elem_of_bind in Hr as (m & Hk & Hm).
  apply list_elem_of_lookup in Hm as [j Hj]. rewrite lookup_drop in Hj.
  destruct (Hp _ _ _ Hj Hk) as (i & c & Hi & Hc & Hij & Hno).
  destruct (decide (i < s)%nat) as [Hlt|Hge].
  - rewrite (Hno s) in Hs by lia. done.
  - apply list_elem_of_bind. exists c. split; [done|]. apply list_elem_of_lookup.
    exists (i - s)%nat. rewrite lookup_drop. by replace (s + (i - s))%nat with i by lia.
Qed.

(** The split, case by case. *)
Lemma select_split_cases msgs preserve s :
  select_compaction_split_index msgs preserve = Some s ->
  (2 <= s)%nat
  /\ ((s = length msgs /\ Nat.min preserve (length msgs - 1) = 0%nat)
      \/ ((s <= length msgs - Nat.min preserve (length msgs - 1))%nat
          /\ starts_request_round msgs s = true
          /\ ((RETAINED_TAIL_MIN_TOKENS <= estimate_messages_tokens msgs)%nat ->
              s = 2%nat \/ floors_met (drop s msgs)))).
Proof.
  unfold select_compaction_split_index. set (k := Nat.min preserve (length msgs - 1)).
  destruct (Nat.ltb_spec (length msgs) 2); [done|].
  destruct (Nat.ltb_spec (length msgs - k) 2); [done|].
  destruct (Nat.eqb_spec (length msgs - k) (length msgs)).
  { intros [= <-]. split; [lia|]. left. lia. }
  destruct (align_split_at_to_request_round_boundary msgs _) as [s1|] eqn:E1; [|done]. simpl.
  destruct (expand_retained_tail_for_context_floor msgs s1) as [s2|] eqn:E2; [|done]. simpl.
  destruct (adjust_split_at_for_tool_pairs msgs s2) as [s3|] eqn:E3; [|done]. simpl.
  intros E4. apply align_spec in E1 as [E1 _]. apply expand_spec in E2 as (E2 & _ & Ef).
  apply adjust_spec in E3 as [E3 _]. apply align_spec in E4 as [E4 Hs].
  split; [lia|]. right. split; [lia|]. split; [done|]. intros Hbig.
  destruct (Ef Hbig) as [Hs2|Hfl]; [left; lia|]. right. apply (floors_met_mono msgs s s2); [lia | done].
Qed.

(** ** Lemmas: the visible window *)

Lemma visible_indices_live s :
  Forall (fun i => is_Some (ses_transcript s !! i)) (visible_message_indices s).
Proof.
  apply Forall_forall. intros i Hi. unfold visible_message_indices in Hi.
  apply list_elem_of_In, filter_In in Hi as [_ Hi]. destruct (ses_transcript s !! i); [by eexists | done].
Qed.

Lemma messages_at_lookup t l k :
  Forall (fun i => is_Some (t !! i)) l ->
  messages_at t l !! k = l !! k ≫= fun i => t !! i.
Proof.
  intros H. revert k. induction H as [|i l [m Hm] _ IH]; intros k; [done|].
  unfold messages_at in *. simpl. rewrite Hm. destruct k as [|k]; simpl; [by rewrite Hm | apply IH].
Qed.

Lemma messages_at_length t l :
  Forall (fun i => is_Some (t !! i)) l -> length (messages_at t l) = length l.
Proof.
  induction 1 as [|i l [m Hm] _ IH]; [done|]. unfold messages_at in *. simpl. rewrite Hm. simpl. by f_equal.
Qed.

Lemma messages_at_drop t l k :
  Forall (fun i => is_Some (t !! i)) l ->
  messages_at t (drop k l) = drop k (messages_at t l).
Proof.
  intros H. revert k. induction H as [|i l [m Hm] _ IH]; intros [|k]; try done.
  unfold messages_at in *. simpl. rewrite Hm. apply IH.
Qed.

Lemma messages_at_ids t l :
  omap (fun i => msg_id <$> t !! i) l = msg_id <$> messages_at t l.
Proof.
  unfold messages_at. induction l as [|i l IH]; [done|]. simpl. destruct (t !! i); [by f_equal/= | done].
Qed.

Lemma position_first {A} (f : A -> bool) l k :
  from_option f false (l !! k) = true ->
  (forall j, (j < k)%nat -> from_option f false (l !! j) = false) -> position f l = Some k.
Proof.
  revert k. induction l as [|x l IH]; intros k Hk Hlt; [done|]. destruct k as [|k]; simpl in *.
  - by rewrite Hk.
  - assert (H0 := Hlt 0%nat). simpl in H0. rewrite H0 by lia.
    rewrite (IH k); [done | done|]. intros j Hj. apply (Hlt (S j)). lia.
Qed.

(** Rolling back from the [k]-th visible message removes it and everything
    visible after it. *)
Lemma rollback_removes_suffix s k m :
  NoDup (msg_id <$> session_visible_transcript s) ->
  session_visible_transcript s !! k = Some m ->
  rollback_removed_message_ids s (msg_id m) = Some (msg_id <$> drop k (session_visible_transcript s)).
Proof.
  intros Hnd Hk. unfold session_visible_transcript in *. assert (Hl := visible_indices_live s).
  set (l := visible_message_indices s) in *. set (t := ses_transcript s) in *.
  unfold rollback_removed_message_ids. fold l t.
  rewrite (position_first _ l k).
  - f_equal. by rewrite messages_at_ids, messages_at_drop.
  - rewrite messages_at_lookup in Hk by done. destruct (l !! k) as [i|]; [|done]. simpl in *.
    rewrite Hk. simpl. by apply bool_decide_eq_true.
  - intros j Hj. destruct (l !! j) as [i|] eqn:Ej; [|done]. simpl.
    destruct (t !! i) as [x|] eqn:Ex; [|done]. simpl. apply bool_decide_eq_false. intros Heq.
    assert (Hx : messages_at t l !! j = Some x).
    { rewrite messages_at_lookup by done. by rewrite Ej. }
    assert (Hjk : j = k); [|lia]. apply (NoDup_lookup _ j k (msg_id m) Hnd).
    + by rewrite list_lookup_fmap, Hx, <- Heq.
    + by rewrite list_lookup_fmap, Hk.
Qed.

Lemma elem_of_omap_imap {A B} (f : nat * A -> option B) (l : list A) b :
  b ∈ omap f (imap pair l) -> exists i x, l !! i = Some x /\ f (i, x) = Some b.
Proof.
  rewrite list_elem_of_omap. intros ([i x] & Hin & Hf).
  apply elem_of_lookup_imap in Hin as (j & y & [= <- <-] & Hy). eauto.
Qed.

Lemma slice_lookup {A} (l : list A) a b k x :
  slice l a b !! k = Some x -> (a + k < b)%nat /\ l !! (a + k)%nat = Some x.
Proof.
  unfold slice. intros H. apply lookup_take_Some in H as [H Hlt]. rewrite lookup_drop in H.
  split; [lia | done].
Qed.

Lemma provisional_rounds_spec msgs starts st rid pid round :
  (st, rid, pid, round) ∈ provisional_rounds msgs starts ->
  exists head o prompt,
    msgs !! st = Some head /\ rid = msg_id head
    /\ msgs !! (st + o)%nat = Some prompt /\ pid = msg_id prompt /\ msg_role prompt = Role_User
    /\ prompt ∈ round.
Proof.
  unfold provisional_rounds. intros (i & x & Hx & H)%elem_of_omap_imap.
  destruct (_ && _); [|done].
  set (rd := slice _ _ _) in H.
  destruct (primary_prompt_offset rd) as [o|] eqn:Eo; simpl in H; [|done].
  destruct (rd !! 0%nat) as [head|] eqn:Eh; simpl in H; [|done].
  destruct (rd !! o) as [prompt|] eqn:Ep; simpl in H; [|done].
  injection H as <- <- <- <-.
  apply find_rev_range_Some in Eo as (_ & Eo & _). rewrite Ep in Eo. simpl in Eo.
  apply bool_decide_eq_true in Eo. exists head, o, prompt.
  assert (Hr := list_elem_of_lookup_2 _ _ _ Ep).
  apply slice_lookup in Eh as [_ Eh]. apply slice_lookup in Ep as [_ Ep].
  rewrite Nat.add_0_r in Eh. by repeat split.
Qed.

(** A live index list is shown whole when nothing was removed. *)
Lemma visible_indices_no_removal s :
  ses_removed_message_ids s = ∅ ->
  session_visible_transcript s =
  match ses_compaction_summary_index s with
  | Some si => messages_at (ses_transcript s)
      (si :: base.filter (fun i => i < si)%nat (ses_retained_tail_indices s)
         ++ seq (ses_post_summary_start s) (length (ses_transcript s) - ses_post_summary_start s))
  | None => ses_transcript s
  end.
Proof.
  intros Hr. unfold session_visible_transcript, visible_message_indices.
  assert (Hf : forall l, messages_at (ses_transcript s) (List.filter (fun index =>
      from_option (fun message => negb (bool_decide (msg_id message ∈ ses_removed_message_ids s)))
        false (ses_transcript s !! index)) l) = messages_at (ses_transcript s) l).
  { intros l. unfold messages_at. induction l as [|i l IH]; [done|]. simpl.
    destruct (ses_transcript s !! i) as [m|] eqn:E; simpl; [|done].
    rewrite bool_decide_eq_false_2 by (rewrite Hr; set_solver). simpl. rewrite E. by f_equal. }
  rewrite Hf. destruct (ses_compaction_summary_index s); [done|].
  rewrite messages_at_seq by lia. rewrite drop_0. by apply take_ge.
Qed.

Lemma distinct_agent_sessions_same events a :
  Forall (fun e => env_agent_session_id e = a) events ->
  (length (distinct_agent_sessions events) <= 1)%nat.
Proof.
  intros H. unfold distinct_agent_sessions.
  assert (Hl : forall ids, ids = [] \/ ids = [a] ->
    (length (foldl (fun ids event => if bool_decide (env_agent_session_id event ∈ ids) then ids
             else ids ++ [env_agent_session_id event]) ids events) <= 1)%nat).
  { induction H as [|e events He _ IH]; intros ids [-> | ->]; cbn [foldl]; [simpl; lia | simpl; lia | |];
      apply IH; rewrite He.
    - rewrite bool_decide_eq_false_2 by set_solver. by right.
    - rewrite bool_decide_eq_true_2 by set_solver. by right. }
  apply Hl. by left.
Qed.

Lemma list_filter_all {A} (P : A -> Prop) `{!forall x, Decision (P x)} (l : list A) :
  Forall P l -> base.filter P l = l.
Proof. induction 1 as [|x l Hx _ IH]; [done|]. by rewrite filter_cons_True, IH. Qed.

Lemma reconstruct_slice_visible log a s :
  reconstruct_slice log a = Ok s ->
  session_visible_transcript s = visible_agent_session_transcript log.
Proof.
  unfold reconstruct_slice, Session.latest_compaction_checkpoint.
  unfold visible_agent_session_transcript, Replay.latest_compaction_checkpoint.
  destruct (find_map compaction_of (rev log)) as [[[k|] tail]|]; cbn [result_bind]; [|done|].
  - cbn [checkpoint_summary_message_id checkpoint_retained_tail_message_ids].
    destruct (message_index (replay_transcript log) !! k) as [si|]; simpl; [|done].
    intros [= <-]. rewrite visible_indices_no_removal by done.
    cbn [with_window ses_compaction_summary_index ses_retained_tail_indices ses_transcript
         with_transcript ses_post_summary_start].
    rewrite list_filter_all; [done|]. apply upgrade_bound, retained_positions_bound.
  - intros [= <-]. by rewrite visible_indices_no_removal.
Qed.

(** ** Properties *)

(** Where a compaction cuts: the split leaves at least two messages to
    summarise; it keeps at least the configured number of recent messages (one
    message excepted when the history is that short); unless everything is
    summarised the kept tail starts at a request round; and for a large history
    the tail carries the context floor of 10,000 tokens and 5 text messages, or
    reaches back as far as it may. *)
Theorem compaction_split_bounds msgs preserve s :
  select_compaction_split_index msgs preserve = Some s ->
  (2 <= s <= length msgs)%nat
  /\ (Nat.min preserve (length msgs - 1) <= length (drop s msgs))%nat
  /\ (s = length msgs \/ starts_request_round msgs s = true)
  /\ ((s < length msgs)%nat ->
      (RETAINED_TAIL_MIN_TOKENS <= estimate_messages_tokens msgs)%nat ->
      s = 2%nat \/ floors_met (drop s msgs)).
Proof.
  intros [H2 [[-> H0]|(Hle & Hs & Hf)]]%select_split_cases; rewrite length_drop.
  - split; [lia|]. split; [lia|]. split; [by left | lia].
  - apply starts_request_round_lt in Hs as Hlt.
    split; [lia|]. split; [lia|]. split; [by right | auto].
Qed.

(** A compaction never separates a tool result from its call: when every
    result lies in the request round of its call, no result of the retained tail
    answers a call that was summarised away. *)
Theorem compaction_keeps_tool_pairs msgs preserve s :
  pairs_in_rounds msgs ->
  select_compaction_split_index msgs preserve = Some s ->
  missing_tool_call_ids (drop s msgs) = ∅.
Proof.
  intros Hp [_ [[-> _]|(_ & Hs & _)]]%select_split_cases.
  - by rewrite drop_all.
  - by apply round_start_keeps_pairs.
Qed.

(** A rollback round does what it announces: rolling back from its message
    id succeeds and removes exactly [removed_message_count] messages, a suffix
    of the visible transcript that starts at that message and contains the
    round's prompt, which is a user message. *)
Theorem rollback_round_is_honest s r :
  NoDup (msg_id <$> session_visible_transcript s) ->
  r ∈ visible_history_rollback_rounds s ->
  exists k prompt,
    rollback_removed_message_ids s (rollback_message_id r)
      = Some (msg_id <$> drop k (session_visible_transcript s))
    /\ removed_message_count r = length (drop k (session_visible_transcript s))
    /\ prompt ∈ drop k (session_visible_transcript s)
    /\ prompt ∈ round_messages r
    /\ msg_id prompt = prompt_message_id r /\ msg_role prompt = Role_User.
Proof.
  intros Hnd Hr. unfold visible_history_rollback_rounds, build_visible_history_rollback_rounds in Hr.
  apply elem_of_lookup_imap in Hr as (i & [[[st rid] pid] round] & -> & Hp).
  apply list_elem_of_lookup_2, provisional_rounds_spec in Hp
    as (head & o & prompt & Hh & -> & Ho & -> & Hu & Hin).
  exists st, prompt. simpl. split; [by apply rollback_removes_suffix|].
  split; [by rewrite length_drop|]. split; [|done].
  apply list_elem_of_lookup. exists o. by rewrite lookup_drop.
Qed.

(** The runtime and the store agree on what is visible: on the log of one
    agent session, a resumed session shows the model exactly the store's visible
    transcript. *)
Theorem resumed_visible_is_stored_visible events a s :
  Forall (fun e => env_agent_session_id e = a) events ->
  reconstruct_runtime_session events a = Ok s ->
  session_visible_transcript s = visible_transcript events.
Proof.
  intros Ha Hrec. destruct events as [|e events _] using rev_ind; [done|].
  assert (He : env_agent_session_id e = a).
  { rewrite Forall_app, Forall_singleton in Ha. tauto. }
  rewrite reconstruct_last in Hrec by done. set (log := events ++ [e]) in *.
  assert (Hd : visible_transcript log = visible_agent_session_transcript log).
  { unfold visible_transcript. rewrite (proj2 (Nat.leb_le _ _)); [done|].
    apply (distinct_agent_sessions_same _ _ Ha). }
  rewrite Hd. by apply (reconstruct_slice_visible log a).
Qed.

End History.

(** ** Concrete histories *)

Section Witnesses.
#[local] Existing Instance json_text.

Definition call_part (k : string) : MessagePart :=
  Part_ToolCall (mkToolCall k k "read" "{}" Origin_Local).
Definition tool_answer (n k : string) : Message :=
  Message_tool_result n (ToolResult_text k k "read" "ok").

Definition tool_history : list Message :=
  [ Message_user "u0" "older prompt"; Message_assistant "a1" "older answer";
    Message_user "u2" "recalled"; Message_user "u3" "prompt";
    Message_assistant_parts "a4" [call_part "k1"]; tool_answer "t5" "k1";
    Message_assistant "a6" "reply" ].

(** Pairing, as a test on the positions of a history. *)
Definition pairs_in_roundsb (msgs : list Message) : bool :=
  forallb (fun p : nat * Message =>
    forallb (fun k =>
      existsb (fun i =>
        from_option (fun c => bool_decide (k ∈ message_tool_call_ids c)) false (msgs !! i)
        && forallb (fun r => negb (starts_request_round msgs r)) (seq (S i) (p.1 - i)))
        (seq 0 (S p.1)))
      (message_tool_result_ids p.2)) (imap pair msgs).

Lemma pairs_in_roundsb_sound msgs : pairs_in_roundsb msgs = true -> pairs_in_rounds msgs.
Proof.
  unfold pairs_in_roundsb. intros H j m k Hj Hk. rewrite forallb_forall in H.
  specialize (H (j, m)). cbn [fst snd] in H. rewrite forallb_forall in H.
  assert (Hin : In (j, m) (imap pair msgs)).
  { apply list_elem_of_In, elem_of_lookup_imap. eauto. }
  specialize (H Hin k). apply list_elem_of_In in Hk. apply H in Hk as Hex.
  apply existsb_exists in Hex as (i & Hi & Hb). apply andb_true_iff in Hb as [Hc Hno].
  destruct (msgs !! i) as [c|] eqn:Ec; [|done]. simpl in Hc. apply bool_decide_eq_true in Hc.
  exists i, c. apply (in_seq (S j) 0 i) in Hi. repeat split; [done | done | lia|].
  intros r Hr. rewrite forallb_forall in Hno. apply negb_true_iff, Hno, in_seq. lia.
Qed.

Lemma tool_history_paired : pairs_in_rounds tool_history.
Proof. apply pairs_in_roundsb_sound. vm_compute. reflexivity. Qed.

Lemma compaction_split_bounds_witness :
  (2 <= 2 <= length tool_history)%nat
  /\ (Nat.min 1 (length tool_history - 1) <= length (drop 2 tool_history))%nat
  /\ (2%nat = length tool_history \/ starts_request_round tool_history 2 = true)
  /\ ((2 < length tool_history)%nat ->
      (RETAINED_TAIL_MIN_TOKENS <= estimate_messages_tokens tool_history)%nat ->
      2%nat = 2%nat \/ floors_met (drop 2 tool_history)).
Proof. apply compaction_split_bounds. vm_compute. reflexivity. Defined.

Lemma compaction_keeps_tool_pairs_witness :
  missing_tool_call_ids (drop 2 tool_history) = ∅.
Proof.
  apply (compaction_keeps_tool_pairs tool_history 1 2);
    [apply tool_history_paired | vm_compute; reflexivity].
Defined.

Definition demo_round : VisibleHistoryRollbackRound :=
  mkVisibleHistoryRollbackRound "m2" "m3" [recall; kept; follow_up] 1 3.

Lemma rollback_round_is_honest_witness :
  exists k prompt,
    rollback_removed_message_ids demo_session "m2"
      = Some (msg_id <$> drop k (session_visible_transcript demo_session))
    /\ 3%nat = length (drop k (session_visible_transcript demo_session))
    /\ prompt ∈ drop k (session_visible_transcript demo_session)
    /\ prompt ∈ [recall; kept; follow_up]
    /\ msg_id prompt = "m3" /\ msg_role prompt = Role_User.
Proof.
  apply (rollback_round_is_honest demo_session demo_round).
  - apply (bool_decide_unpack _). vm_compute. exact I.
  - replace (visible_history_rollback_rounds demo_session) with [demo_round] by reflexivity.
    constructor.
Defined.

Lemma resumed_visible_is_stored_visible_witness :
  session_visible_transcript demo_session = visible_transcript compacted_log.
Proof.
  apply (resumed_visible_is_stored_visible compacted_log "a");
    [repeat constructor | reflexivity].
Defined.

(** A hook that appends a message before each of two consecutive tool calls puts
    a round boundary between a call and its result. *)
Definition hooked_history : list Message :=
  [ Message_user "u0" "older"; Message_assistant "a1" "older answer";
    Message_user "u2" "prompt"; Message_assistant_parts "a3" [call_part "k1"];
    Message_system "s4" "hook note"; tool_answer "t5" "k1";
    Message_assistant_parts "a6" [call_part "k2"];
    Message_system "s7" "hook note"; tool_answer "t8" "k2" ].

(** Realigning after the pair adjustment can separate a pair again: on a
    history where a system message stands between each call and its result, the
    retained tail starts with a tool result whose call was summarised away. *)
Theorem split_can_orphan_tool_result :
  select_compaction_split_index hooked_history 1 = Some 4%nat
  /\ adjust_split_at_for_tool_pairs hooked_history 7 = Some 6%nat
  /\ missing_tool_call_ids (drop 4 hooked_history) = {["k1"]}.
Proof. vm_compute. split; [|split]; reflexivity. Qed.

End Witnesses.
