(* ===== verification/AgentSessions.v ===== *)
(** * Agent sessions

    Models [crates/runtime/src/agent_mailbox.rs] and [agent_session_manager.rs]: the
    registry of child agents, and the protocol by which a parent waits for them.
    Every method that changes a record does so under that record's lock and then
    calls [notify_waiters]; the two are separate steps here, and a waiter reads one
    record at a time, so the interleavings of [wait] with the other methods are the
    ones of the code.  A mailbox and a join handle are numbers. *)

From Stdlib Require Import String.
From stdpp Require Import base list gmap sorting strings.
From Stdlib Require Import Lia.
From S2P Require Import Prelude Message Events Errors.

(* crates/types/src/event.rs, AgentWaitMode *)
Inductive AgentWaitMode := Wait_Any | Wait_All.

(* crates/types/src/event.rs, AgentWaitRequest *)
Record AgentWaitRequest := mkAgentWaitRequest {
  wait_agent_ids : list AgentId;
  wait_mode : AgentWaitMode
}.

#[global] Instance AgentStatus_eq_dec : EqDecision AgentStatus.
Proof. solve_decision. Defined.

(* crates/types/src/event.rs, AgentStatus::is_terminal *)
Definition status_is_terminal (s : AgentStatus) : bool :=
  match s with
  | AgentStatus_Completed | AgentStatus_Failed | AgentStatus_Cancelled => true
  | _ => false
  end.

(* crates/types/src/event.rs, AgentStatus::fmt *)
Definition AgentStatus_display (s : AgentStatus) : string :=
  match s with
  | AgentStatus_Queued => "queued"
  | AgentStatus_Running => "running"
  | AgentStatus_WaitingApproval => "waiting_approval"
  | AgentStatus_WaitingMessage => "waiting_message"
  | AgentStatus_Completed => "completed"
  | AgentStatus_Failed => "failed"
  | AgentStatus_Cancelled => "cancelled"
  end.

Section AgentSessions.
Context {J : SerdeJson}.

(* crates/runtime/src/agent_mailbox.rs, AgentControlMessage *)
Inductive AgentControlMessage :=
| Control_Input (message : Message)
| Control_Cancel (reason : option string).

(* crates/types/src/event.rs, AgentWaitResponse *)
Record AgentWaitResponse := mkAgentWaitResponse {
  wait_completed : list AgentHandle;
  wait_pending : list AgentHandle;
  wait_results : list AgentResultEnvelope
}.

(* crates/runtime/src/agent_session_manager.rs, AgentRecord *)
Record AgentRecord := mkAgentRecord {
  ar_handle : AgentHandle;
  ar_task : AgentTaskSpec;
  ar_mailbox : nat;
  ar_result : option AgentResultEnvelope;
  ar_error : option string;
  ar_join_handle : option nat
}.

(* crates/runtime/src/agent_session_manager.rs, AgentRecordSnapshot *)
Record AgentRecordSnapshot := mkAgentRecordSnapshot {
  snap_handle : AgentHandle;
  snap_task : AgentTaskSpec;
  snap_result : option AgentResultEnvelope;
  snap_error : option string
}.

(** [am_updates] counts the calls of [notify_waiters]; [am_aborted] are the join
    handles that were aborted. *)
(* crates/runtime/src/agent_session_manager.rs, AgentSessionManager *)
Record AgentSessionManager := mkAgentSessionManager {
  am_records : gmap AgentId AgentRecord;
  am_updates : nat;
  am_aborted : list nat
}.

(* crates/runtime/src/agent_session_manager.rs, AgentSessionManager::new *)
Definition AgentSessionManager_new : AgentSessionManager := mkAgentSessionManager ∅ 0 [].

Definition refuse_state {A} (message : string) : result A RuntimeError :=
  Err (RtErr_InvalidState message None).

(** [Notify::notify_waiters]. *)
Definition notify_waiters (m : AgentSessionManager) : AgentSessionManager :=
  mkAgentSessionManager (am_records m) (S (am_updates m)) (am_aborted m).

Definition put_record (m : AgentSessionManager) (agent_id : AgentId) (r : AgentRecord)
    (aborted : list nat) : AgentSessionManager :=
  mkAgentSessionManager (<[agent_id := r]> (am_records m)) (am_updates m) (am_aborted m ++ aborted).

Definition with_status (h : AgentHandle) (status : AgentStatus) : AgentHandle :=
  mkAgentHandle (AgentHandle_agent_id h) (AgentHandle_parent_agent_id h) (AgentHandle_session_id h)
    (AgentHandle_agent_session_id h) (AgentHandle_task_id h) (AgentHandle_role h) status
    (AgentHandle_worktree_id h) (AgentHandle_worktree_root h).

Definition terminal (h : AgentHandle) : bool := status_is_terminal (AgentHandle_status h).

(** ** Reading *)

(* crates/runtime/src/agent_session_manager.rs, AgentSessionManager::record *)
Definition record (m : AgentSessionManager) (agent_id : AgentId) : result AgentRecord RuntimeError :=
  match am_records m !! agent_id with
  | Some r => Ok r
  | None => refuse_state ("unknown child agent: " +:+ agent_id)
  end.

(* crates/runtime/src/agent_session_manager.rs, AgentSessionManager::mailbox *)
Definition mailbox (m : AgentSessionManager) (agent_id : AgentId) : result nat RuntimeError :=
  r <-? record m agent_id; Ok (ar_mailbox r).

(* crates/runtime/src/agent_session_manager.rs, AgentSessionManager::handle *)
Definition handle (m : AgentSessionManager) (agent_id : AgentId) : result AgentHandle RuntimeError :=
  r <-? record m agent_id; Ok (ar_handle r).

(* crates/runtime/src/agent_session_manager.rs, AgentSessionManager::task *)
Definition task (m : AgentSessionManager) (agent_id : AgentId) : result AgentTaskSpec RuntimeError :=
  r <-? record m agent_id; Ok (ar_task r).

(* crates/runtime/src/agent_session_manager.rs, AgentSessionManager::snapshot *)
Definition snapshot (m : AgentSessionManager) (agent_id : AgentId)
    : result AgentRecordSnapshot RuntimeError :=
  r <-? record m agent_id;
  Ok (mkAgentRecordSnapshot (ar_handle r) (ar_task r) (ar_result r) (ar_error r)).

Definition handle_le (a b : AgentHandle) : Prop :=
  String.le (AgentHandle_agent_id a) (AgentHandle_agent_id b).
#[global] Instance handle_le_dec a b : Decision (handle_le a b).
Proof. unfold handle_le. apply _. Defined.

(* crates/runtime/src/agent_session_manager.rs, AgentSessionManager::list *)
Definition list_agents (m : AgentSessionManager) : list AgentHandle :=
  merge_sort handle_le (ar_handle <$> (map_to_list (am_records m)).*2).

(** ** Changing a record

    The part of each method up to the release of the lock. *)

(* crates/runtime/src/agent_session_manager.rs, AgentSessionManager::insert@self.records.insert( ~~ self.updates.notify_waiters *)
Definition insert_locked (m : AgentSessionManager) (h : AgentHandle) (t : AgentTaskSpec)
    (mb : nat) : AgentSessionManager :=
  put_record m (AgentHandle_agent_id h) (mkAgentRecord h t mb None None None) [].

(* crates/runtime/src/agent_session_manager.rs, AgentSessionManager::attach_join_handle *)
Definition attach_join_handle (m : AgentSessionManager) (agent_id : AgentId) (join_handle : nat)
    : result AgentSessionManager RuntimeError :=
  r <-? record m agent_id;
  Ok (put_record m agent_id
        (mkAgentRecord (ar_handle r) (ar_task r) (ar_mailbox r) (ar_result r) (ar_error r)
           (Some join_handle)) []).

(* crates/runtime/src/agent_session_manager.rs, AgentSessionManager::update_status@let record = ~~ self.updates.notify_waiters *)
Definition update_status_locked (m : AgentSessionManager) (agent_id : AgentId) (status : AgentStatus)
    : result (AgentHandle * AgentSessionManager) RuntimeError :=
  r <-? record m agent_id;
  let h := with_status (ar_handle r) status in
  Ok (h, put_record m agent_id
           (mkAgentRecord h (ar_task r) (ar_mailbox r) (ar_result r) (ar_error r) (ar_join_handle r))
           []).

(* crates/runtime/src/agent_session_manager.rs, AgentSessionManager::finish@if !status.is_terminal() ~~ self.updates.notify_waiters *)
Definition finish_locked (m : AgentSessionManager) (agent_id : AgentId) (status : AgentStatus)
    (res : option AgentResultEnvelope) (error : option string)
    : result (AgentHandle * AgentSessionManager) RuntimeError :=
  if negb (status_is_terminal status) then
    refuse_state ("finish requires terminal status, got " +:+ AgentStatus_display status)
  else
    r <-? record m agent_id;
    let h := with_status (ar_handle r) status in
    Ok (h, put_record m agent_id
             (mkAgentRecord h (ar_task r) (ar_mailbox r) res error (ar_join_handle r)) []).

(* crates/runtime/src/agent_session_manager.rs, AgentSessionManager::reopen@let record = ~~ self.updates.notify_waiters *)
Definition reopen_locked (m : AgentSessionManager) (agent_id : AgentId) (mb : nat)
    : result (AgentHandle * AgentSessionManager) RuntimeError :=
  r <-? record m agent_id;
  if negb (terminal (ar_handle r)) then
    refuse_state ("agent " +:+ AgentHandle_agent_id (ar_handle r)
                     +:+ " is not terminal and cannot be resumed")
  else
    let h := with_status (ar_handle r) AgentStatus_Queued in
    Ok (h, put_record m agent_id (mkAgentRecord h (ar_task r) mb None None None) []).

(* crates/runtime/src/agent_session_manager.rs, AgentSessionManager::restart@if status.is_terminal() ~~ self.updates.notify_waiters *)
Definition restart_locked (m : AgentSessionManager) (agent_id : AgentId) (mb : nat)
    (status : AgentStatus) : result (AgentHandle * AgentSessionManager) RuntimeError :=
  if status_is_terminal status then
    refuse_state ("restart requires a non-terminal status, got " +:+ AgentStatus_display status)
  else
    r <-? record m agent_id;
    let h := with_status (ar_handle r) status in
    Ok (h, put_record m agent_id (mkAgentRecord h (ar_task r) mb None None None)
             (option_list (ar_join_handle r))).

Definition plain_result (h : AgentHandle) (t : AgentTaskSpec) (status : AgentStatus)
    (summary text : string) (claimed_files : list string) : AgentResultEnvelope :=
  mkAgentResultEnvelope (AgentHandle_agent_id h) (AgentTaskSpec_task_id t) status summary text []
    claimed_files None.

(** [inl]: the agent is terminal already, and nothing changes. *)
(* crates/runtime/src/agent_session_manager.rs, AgentSessionManager::cancel@let record = ~~ self.updates.notify_waiters *)
Definition cancel_locked (m : AgentSessionManager) (agent_id : AgentId) (reason : option string)
    (claimed_files : list string)
    : result (AgentHandle * AgentResultEnvelope
              + AgentHandle * AgentResultEnvelope * AgentSessionManager) RuntimeError :=
  r <-? record m agent_id;
  if terminal (ar_handle r) then
    Ok (inl (ar_handle r,
             default (plain_result (ar_handle r) (ar_task r) (AgentHandle_status (ar_handle r))
                        (default "agent already terminal" reason) "" claimed_files) (ar_result r)))
  else
    let res := plain_result (ar_handle r) (ar_task r) AgentStatus_Cancelled
                 (default "child agent cancelled" reason) "" claimed_files in
    let h := with_status (ar_handle r) AgentStatus_Cancelled in
    Ok (inr (h, res, put_record m agent_id
                       (mkAgentRecord h (ar_task r) (ar_mailbox r) (Some res) reason None)
                       (option_list (ar_join_handle r)))).

(** ** The methods *)

Definition notified {A} (r : result (A * AgentSessionManager) RuntimeError)
    : result (A * AgentSessionManager) RuntimeError :=
  p <-? r; Ok (p.1, notify_waiters p.2).

(* crates/runtime/src/agent_session_manager.rs, AgentSessionManager::insert *)
Definition manager_insert (m : AgentSessionManager) (h : AgentHandle) (t : AgentTaskSpec) (mb : nat)
    : AgentSessionManager := notify_waiters (insert_locked m h t mb).

(* crates/runtime/src/agent_session_manager.rs, AgentSessionManager::update_status *)
Definition update_status m agent_id status := notified (update_status_locked m agent_id status).

(* crates/runtime/src/agent_session_manager.rs, AgentSessionManager::finish *)
Definition finish m agent_id status res error := notified (finish_locked m agent_id status res error).

(* crates/runtime/src/agent_session_manager.rs, AgentSessionManager::reopen *)
Definition reopen m agent_id mb := notified (reopen_locked m agent_id mb).

(* crates/runtime/src/agent_session_manager.rs, AgentSessionManager::restart *)
Definition restart m agent_id mb status := notified (restart_locked m agent_id mb status).

(* crates/runtime/src/agent_session_manager.rs, AgentSessionManager::cancel *)
Definition cancel (m : AgentSessionManager) (agent_id : AgentId) (reason : option string)
    (claimed_files : list string)
    : result (AgentHandle * AgentResultEnvelope * AgentSessionManager) RuntimeError :=
  r <-? cancel_locked m agent_id reason claimed_files;
  Ok match r with
     | inl already => (already, m)
     | inr (h, res, m) => (h, res, notify_waiters m)
     end.

(** ** Waiting *)

Notation scan := (list AgentHandle * list AgentHandle * list AgentResultEnvelope)%type.

(** One turn of the loop of [snapshot_wait], on the record it has locked. *)
Definition scan_record (acc : scan) (r : AgentRecord) : scan :=
  let '(completed, pending, results) := acc in
  if terminal (ar_handle r)
  then (completed ++ [ar_handle r], pending, results ++ option_list (ar_result r))
  else (completed, pending ++ [ar_handle r], results).

(* crates/runtime/src/agent_session_manager.rs, AgentSessionManager::snapshot_wait@for agent_id in &request.agent_ids *)
Fixpoint scan_agents (m : AgentSessionManager) (ids : list AgentId) (acc : scan)
    : result scan RuntimeError :=
  match ids with
  | [] => Ok acc
  | agent_id :: rest => r <-? record m agent_id; scan_agents m rest (scan_record acc r)
  end.

(* crates/runtime/src/agent_session_manager.rs, AgentSessionManager::snapshot_wait@.filter(|agent_id| *)
Definition other_ids (request : AgentWaitRequest) (first : AgentHandle) : list AgentId :=
  List.filter (fun agent_id => negb (String.eqb agent_id (AgentHandle_agent_id first)))
    (wait_agent_ids request).

(* crates/runtime/src/agent_session_manager.rs, AgentSessionManager::snapshot_wait *)
Definition snapshot_wait (m : AgentSessionManager) (request : AgentWaitRequest)
    : result AgentWaitResponse RuntimeError :=
  acc <-? scan_agents m (wait_agent_ids request) ([], [], []);
  let '(completed, pending, results) := acc in
  match wait_mode request, completed with
  | Wait_Any, first :: _ =>
      r <-? record m (AgentHandle_agent_id first);
      pending <-? map_result (handle m) (other_ids request first);
      Ok (mkAgentWaitResponse [first] pending (option_list (ar_result r)))
  | _, _ => Ok (mkAgentWaitResponse completed pending results)
  end.

(* crates/runtime/src/agent_session_manager.rs, AgentSessionManager::wait@let done = ~~ if done *)
Definition wait_done (request : AgentWaitRequest) (response : AgentWaitResponse) : bool :=
  match wait_mode request with
  | Wait_Any => negb (is_nil (wait_completed response))
  | Wait_All => is_nil (wait_pending response)
  end.

(** Where a call of [wait] is.  [generation] is the count of notifications when the
    [Notified] future was made: the future completes as soon as the count is
    greater. *)
Inductive WaitPhase :=
| W_Start
| W_Scan (generation : nat) (todo : list AgentId) (acc : scan)
| W_First (generation : nat) (first : AgentHandle)
| W_Rest (generation : nat) (first : AgentHandle) (results : list AgentResultEnvelope)
    (todo : list AgentId) (pending : list AgentHandle)
| W_Check (generation : nat) (response : AgentWaitResponse)
| W_Sleep (generation : nat)
| W_Returned (r : result AgentWaitResponse RuntimeError).

(** One step of a call of [wait]: every step reads at most one record.  [None] when it
    sleeps or has returned. *)
(* crates/runtime/src/agent_session_manager.rs, AgentSessionManager::wait *)
Definition wait_step (m : AgentSessionManager) (request : AgentWaitRequest) (p : WaitPhase)
    : option WaitPhase :=
  match p with
  | W_Start => Some (W_Scan (am_updates m) (wait_agent_ids request) ([], [], []))
  | W_Scan g (agent_id :: todo) acc =>
      Some match record m agent_id with
           | Ok r => W_Scan g todo (scan_record acc r)
           | Err e => W_Returned (Err e)
           end
  | W_Scan g [] (completed, pending, results) =>
      Some match wait_mode request, completed with
           | Wait_Any, first :: _ => W_First g first
           | _, _ => W_Check g (mkAgentWaitResponse completed pending results)
           end
  | W_First g first =>
      Some match record m (AgentHandle_agent_id first) with
           | Ok r => W_Rest g first (option_list (ar_result r)) (other_ids request first) []
           | Err e => W_Returned (Err e)
           end
  | W_Rest g first results (agent_id :: todo) pending =>
      Some match handle m agent_id with
           | Ok h => W_Rest g first results todo (pending ++ [h])
           | Err e => W_Returned (Err e)
           end
  | W_Rest g first results [] pending => Some (W_Check g (mkAgentWaitResponse [first] pending results))
  | W_Check g response =>
      Some (if wait_done request response then W_Returned (Ok response) else W_Sleep g)
  | W_Sleep g => if (g <? am_updates m)%nat then Some W_Start else None
  | W_Returned _ => None
  end.

(** A call of [wait] on its own, as long as it can move. *)
Fixpoint wait_run (fuel : nat) (m : AgentSessionManager) (request : AgentWaitRequest) (p : WaitPhase)
    : WaitPhase :=
  match fuel with
  | 0%nat => p
  | S fuel => match wait_step m request p with Some p => wait_run fuel m request p | None => p end
  end.

(** ** The other methods, as one relation *)

Inductive ManagerCall :=
| Call_Insert (h : AgentHandle) (t : AgentTaskSpec) (mb : nat)
| Call_Attach (agent_id : AgentId) (join_handle : nat)
| Call_UpdateStatus (agent_id : AgentId) (status : AgentStatus)
| Call_Finish (agent_id : AgentId) (status : AgentStatus) (res : option AgentResultEnvelope)
    (error : option string)
| Call_Reopen (agent_id : AgentId) (mb : nat)
| Call_Restart (agent_id : AgentId) (mb : nat) (status : AgentStatus)
| Call_Cancel (agent_id : AgentId) (reason : option string) (claimed_files : list string).

(** A method up to the release of the lock, and whether it goes on to notify. *)
Definition call_locked (m : AgentSessionManager) (c : ManagerCall)
    : result (AgentSessionManager * bool) RuntimeError :=
  match c with
  | Call_Insert h t mb => Ok (insert_locked m h t mb, true)
  | Call_Attach agent_id j => m <-? attach_join_handle m agent_id j; Ok (m, false)
  | Call_UpdateStatus agent_id s => p <-? update_status_locked m agent_id s; Ok (p.2, true)
  | Call_Finish agent_id s res e => p <-? finish_locked m agent_id s res e; Ok (p.2, true)
  | Call_Reopen agent_id mb => p <-? reopen_locked m agent_id mb; Ok (p.2, true)
  | Call_Restart agent_id mb s => p <-? restart_locked m agent_id mb s; Ok (p.2, true)
  | Call_Cancel agent_id reason files =>
      r <-? cancel_locked m agent_id reason files;
      Ok match r with inl _ => (m, false) | inr (_, _, m) => (m, true) end
  end.

(** The registry, the number of methods between the release of a lock and
    [notify_waiters], and a call of [wait]. *)
Record System := mkSystem {
  sys_manager : AgentSessionManager;
  sys_notifying : nat;
  sys_wait : WaitPhase
}.

Inductive sys_step (request : AgentWaitRequest) : System -> System -> Prop :=
| sys_call m n p c m' (notifies : bool) :
    call_locked m c = Ok (m', notifies) ->
    sys_step request (mkSystem m n p) (mkSystem m' (if notifies then S n else n) p)
| sys_notify m n p :
    sys_step request (mkSystem m (S n) p) (mkSystem (notify_waiters m) n p)
| sys_wait_step m n p p' :
    wait_step m request p = Some p' ->
    sys_step request (mkSystem m n p) (mkSystem m n p').

(** A call of [wait] starts in any registry, with any methods under way. *)
Inductive reachable (request : AgentWaitRequest) : System -> Prop :=
| reach_start m n : reachable request (mkSystem m n W_Start)
| reach_step s s' : reachable request s -> sys_step request s s' -> reachable request s'.

(** ** What a waiter sees of the registry *)

Definition same_view (m m' : AgentSessionManager) : Prop :=
  forall agent_id, (fun r => (ar_handle r, ar_result r)) <$> am_records m !! agent_id
                   = (fun r => (ar_handle r, ar_result r)) <$> am_records m' !! agent_id.

Lemma same_view_record m m' agent_id : same_view m m' ->
  match record m agent_id, record m' agent_id with
  | Ok r, Ok r' => ar_handle r = ar_handle r' /\ ar_result r = ar_result r'
  | Err e, Err e' => e = e'
  | _, _ => False
  end.
Proof.
  intros Hv. specialize (Hv agent_id). unfold record.
  destruct (am_records m !! agent_id), (am_records m' !! agent_id); simpl in Hv; try done.
  by injection Hv.
Qed.

Lemma scan_record_view acc r r' :
  ar_handle r = ar_handle r' -> ar_result r = ar_result r' -> scan_record acc r = scan_record acc r'.
Proof. intros Hh Hr. unfold scan_record. by rewrite Hh, Hr. Qed.

Lemma scan_agents_view m m' ids acc :
  same_view m m' -> scan_agents m ids acc = scan_agents m' ids acc.
Proof.
  intros Hv. revert acc. induction ids as [|a ids IH]; intros acc; simpl; [done|].
  pose proof (same_view_record m m' a Hv) as Ha.
  destruct (record m a) as [r|], (record m' a) as [r'|]; try done; simpl; [|by subst].
  destruct Ha as [Hh Hr]. by rewrite (scan_record_view _ _ _ Hh Hr).
Qed.

Lemma handle_view m m' agent_id : same_view m m' -> handle m agent_id = handle m' agent_id.
Proof.
  intros Hv. unfold handle. pose proof (same_view_record m m' agent_id Hv) as Ha.
  destruct (record m agent_id), (record m' agent_id); try done; simpl; [|by subst].
  by destruct Ha as [-> _].
Qed.

Lemma map_handle_view m m' ids :
  same_view m m' -> map_result (handle m) ids = map_result (handle m') ids.
Proof.
  intros Hv. induction ids as [|a ids IH]; simpl; [done|].
  by rewrite (handle_view m m' a Hv), IH.
Qed.

(** The result of a record, as [wait] reads it. *)
Definition read_result (m : AgentSessionManager) (agent_id : AgentId)
    : result (list AgentResultEnvelope) RuntimeError :=
  r <-? record m agent_id; Ok (option_list (ar_result r)).

Lemma read_result_view m m' agent_id :
  same_view m m' -> read_result m agent_id = read_result m' agent_id.
Proof.
  intros Hv. unfold read_result. pose proof (same_view_record m m' agent_id Hv) as Ha.
  destruct (record m agent_id), (record m' agent_id); try done; simpl; [|by subst].
  by destruct Ha as [_ ->].
Qed.

Lemma snapshot_wait_eq m request :
  snapshot_wait m request =
  (acc <-? scan_agents m (wait_agent_ids request) ([], [], []);
   match wait_mode request, acc.1.1 with
   | Wait_Any, first :: _ =>
       results <-? read_result m (AgentHandle_agent_id first);
       pending <-? map_result (handle m) (other_ids request first);
       Ok (mkAgentWaitResponse [first] pending results)
   | _, _ => Ok (mkAgentWaitResponse acc.1.1 acc.1.2 acc.2)
   end).
Proof.
  unfold snapshot_wait, read_result. destruct (scan_agents _ _ _) as [[[c p] r]|]; [|done]. simpl.
  destruct (wait_mode request), c; try done. by destruct (record m _).
Qed.

Lemma snapshot_wait_view m m' request :
  same_view m m' -> snapshot_wait m request = snapshot_wait m' request.
Proof.
  intros Hv. rewrite !snapshot_wait_eq, (scan_agents_view m m') by done.
  destruct (scan_agents _ _ _) as [[[c p] r]|]; [|done]. simpl.
  destruct (wait_mode request), c; try done.
  by rewrite (read_result_view m m'), (map_handle_view m m').
Qed.

(** A method that does not notify has changed nothing a waiter reads. *)
Lemma call_quiet m c m' : call_locked m c = Ok (m', false) -> same_view m m'.
Proof.
  destruct c; simpl; intros Hc; inv_result; try done.
  - unfold attach_join_handle in E. inv_result. unfold record in E0. intros b. simpl.
    destruct (am_records m !! agent_id) as [r|] eqn:Er; [inv_result|done].
    destruct (decide (b = agent_id)) as [->|]; [by rewrite lookup_insert_eq, Er|].
    by rewrite lookup_insert_ne.
  - destruct a as [|[[h res] m1]]; by simplify_eq.
Qed.

Lemma call_updates m c m' b : call_locked m c = Ok (m', b) -> am_updates m' = am_updates m.
Proof.
  destruct c; simpl;
    unfold attach_join_handle, update_status_locked, finish_locked, reopen_locked, restart_locked,
      cancel_locked, refuse_state; repeat (case_match; try done);
    try (destruct (record m agent_id) as [r|]; [|done]); cbn [result_bind];
    repeat (case_match; try done); by intros [= <- _].
Qed.

(** ** No wakeup is lost *)

Definition scan_ok (acc : scan) : Prop :=
  Forall (fun h => terminal h = true) acc.1.1 /\ Forall (fun h => terminal h = false) acc.1.2.

Lemma scan_record_ok acc r : scan_ok acc -> scan_ok (scan_record acc r).
Proof.
  destruct acc as [[c p] rs]. unfold scan_ok, scan_record. simpl. intros [Hc Hp].
  destruct (terminal (ar_handle r)) eqn:E; simpl; (split; [|]); rewrite ?Forall_app; auto.
Qed.

Definition response_ok (response : AgentWaitResponse) : Prop :=
  Forall (fun h => terminal h = true) (wait_completed response).

(** Nothing has been notified since [generation], and no method is about to. *)
Definition undisturbed (s : System) (generation : nat) : Prop :=
  am_updates (sys_manager s) = generation /\ sys_notifying s = 0%nat.

(** What [wait] has read so far is what the registry still holds, as long as nothing
    was notified. *)
Definition wait_inv (request : AgentWaitRequest) (s : System) : Prop :=
  let m := sys_manager s in
  let ids := wait_agent_ids request in
  match sys_wait s with
  | W_Start => True
  | W_Scan g todo acc =>
      (g <= am_updates m)%nat /\ scan_ok acc
      /\ exists pre, ids = pre ++ todo /\ (undisturbed s g -> scan_agents m pre ([], [], []) = Ok acc)
  | W_First g first =>
      (g <= am_updates m)%nat /\ wait_mode request = Wait_Any /\ terminal first = true
      /\ (undisturbed s g -> exists c p r, scan_agents m ids ([], [], []) = Ok (first :: c, p, r))
  | W_Rest g first results todo pending =>
      (g <= am_updates m)%nat /\ wait_mode request = Wait_Any /\ terminal first = true
      /\ exists pre, other_ids request first = pre ++ todo
         /\ (undisturbed s g ->
              (exists c p r, scan_agents m ids ([], [], []) = Ok (first :: c, p, r))
              /\ read_result m (AgentHandle_agent_id first) = Ok results
              /\ map_result (handle m) pre = Ok pending)
  | W_Check g response =>
      (g <= am_updates m)%nat /\ response_ok response
      /\ (undisturbed s g -> snapshot_wait m request = Ok response)
  | W_Sleep g =>
      (g <= am_updates m)%nat
      /\ (undisturbed s g -> exists response,
            snapshot_wait m request = Ok response /\ wait_done request response = false)
  | W_Returned (Ok response) => response_ok response /\ wait_done request response = true
  | W_Returned (Err _) => True
  end.

(** A step of another method: either it disturbs the waiter, or nothing it has read
    has changed. *)
Lemma wait_inv_env request m n p m' n' :
  wait_inv request (mkSystem m n p) -> (am_updates m <= am_updates m')%nat ->
  (forall g, (g <= am_updates m)%nat -> undisturbed (mkSystem m' n' p) g ->
     undisturbed (mkSystem m n p) g /\ same_view m m') ->
  wait_inv request (mkSystem m' n' p).
Proof.
  intros Hi Hle Hu. unfold wait_inv in *. simpl in *.
  destruct p as [|g todo acc|g first|g first rs todo pending|g response|g|r]; try done.
  - destruct Hi as (Hg & Hok & pre & Hids & Hs). split; [lia|]. split; [done|]. exists pre.
    split; [done|]. intros [H1 H2]%Hu; [|lia]. by rewrite <- (scan_agents_view m m' _ _ H2), Hs.
  - destruct Hi as (Hg & Hm & Ht & Hs). split; [lia|]. do 2 (split; [done|]). intros [H1 H2]%Hu; [|lia].
    rewrite <- (scan_agents_view m m' _ _ H2). auto.
  - destruct Hi as (Hg & Hm & Ht & pre & Hids & Hs). split; [lia|]. do 2 (split; [done|]). exists pre.
    split; [done|]. intros [H1 H2]%Hu; [|lia].
    rewrite <- (scan_agents_view m m' _ _ H2), <- (read_result_view m m' _ H2),
      <- (map_handle_view m m' _ H2). auto.
  - destruct Hi as (Hg & Hok & Hs). split; [lia|]. split; [done|]. intros [H1 H2]%Hu; [|lia].
    rewrite <- (snapshot_wait_view m m' _ H2). auto.
  - destruct Hi as (Hg & Hs). split; [lia|]. intros [H1 H2]%Hu; [|lia].
    rewrite <- (snapshot_wait_view m m' _ H2). auto.
Qed.

Lemma scan_agents_snoc m pre a acc0 acc r :
  scan_agents m pre acc0 = Ok acc -> record m a = Ok r ->
  scan_agents m (pre ++ [a]) acc0 = Ok (scan_record acc r).
Proof.
  revert acc0. induction pre as [|b pre IH]; intros acc0; simpl.
  - intros [= <-] Hr. by rewrite Hr.
  - destruct (record m b); [|done]. cbn [result_bind]. auto.
Qed.

Lemma map_handle_snoc m pre a l h :
  map_result (handle m) pre = Ok l -> handle m a = Ok h ->
  map_result (handle m) (pre ++ [a]) = Ok (l ++ [h]).
Proof.
  revert l. induction pre as [|b pre IH]; intros l; simpl.
  - intros [= <-] Hh. by rewrite Hh.
  - destruct (handle m b); [|done]. cbn [result_bind].
    destruct (map_result (handle m) pre); [|done]. cbn [result_bind]. intros [= <-] Hh.
    by rewrite (IH _ eq_refl Hh).
Qed.

Lemma wait_inv_step request m n p p' :
  wait_inv request (mkSystem m n p) -> wait_step m request p = Some p' ->
  wait_inv request (mkSystem m n p').
Proof.
  intros Hi Hp. unfold wait_inv in *. simpl in *.
  destruct p as [|g todo acc|g first|g first rs todo pending|g response|g|r]; simpl in Hp.
  - injection Hp as <-. split; [lia|]. split; [by split; simpl|]. by exists [].
  - destruct Hi as (Hg & Hok & pre & Hids & Hs). destruct todo as [|a todo].
    + rewrite app_nil_r in Hids. subst pre. destruct acc as [[c pn] rs].
      destruct (wait_mode request) eqn:Em.
      * destruct c as [|first c]; injection Hp as <-.
        -- split; [done|]. split; [by apply Forall_nil_2|]. intros Hu.
           rewrite snapshot_wait_eq, Hs by done. simpl. by rewrite Em.
        -- destruct Hok as [[Ht _]%Forall_cons _]. split; [done|]. split; [done|]. split; [done|]. eauto.
      * injection Hp as <-. split; [done|]. split; [by destruct Hok|]. intros Hu.
        rewrite snapshot_wait_eq, Hs by done. simpl. by rewrite Em.
    + injection Hp as <-. destruct (record m a) as [r|] eqn:Er; [|done]. split; [done|].
      split; [by apply scan_record_ok|]. exists (pre ++ [a]). rewrite <- app_assoc. split; [done|].
      intros Hu. by apply scan_agents_snoc; [apply Hs|].
  - destruct Hi as (Hg & Hm & Ht & Hs). injection Hp as <-.
    destruct (record m _) as [r|] eqn:Er; [|done]. split; [done|]. do 2 (split; [done|]).
    exists []. split; [done|]. intros Hu. split; [by apply Hs|]. unfold read_result. by rewrite Er.
  - destruct Hi as (Hg & Hm & Ht & pre & Hids & Hs). destruct todo as [|a todo].
    + injection Hp as <-. split; [done|]. split; [by apply Forall_singleton|]. intros Hu.
      destruct (Hs Hu) as ((c & pn & r & Hsc) & Hr & Hl). rewrite app_nil_r in Hids.
      rewrite snapshot_wait_eq, Hsc. simpl. by rewrite Hm, Hr, Hids, Hl.
    + injection Hp as <-. destruct (handle m a) as [h|] eqn:Eh; [|done]. split; [done|].
      do 2 (split; [done|]). exists (pre ++ [a]). rewrite <- app_assoc. split; [done|]. intros Hu.
      destruct (Hs Hu) as (Hsc & Hr & Hl). do 2 (split; [done|]). by apply map_handle_snoc.
  - destruct Hi as (Hg & Hok & Hs). injection Hp as <-. destruct (wait_done request response) eqn:Ed.
    + done.
    + split; [done|]. intros Hu. exists response. auto.
  - destruct (g <? am_updates m)%nat; [by injection Hp as <- | done].
  - done.
Qed.

Lemma reachable_wait_inv request s : reachable request s -> wait_inv request s.
Proof.
  induction 1 as [m n|s s' _ IH Hs]; [done|]. destruct Hs as [m n p c m' b Hc|m n p|m n p p' Hp].
  - pose proof (call_updates _ _ _ _ Hc) as Hu. apply (wait_inv_env _ _ _ _ _ _ IH); [lia|].
    intros g _ [H1 H2]. simpl in *. destruct b; [done|]. split; [by split; simpl; [lia|]|].
    by apply (call_quiet _ _ _ Hc).
  - apply (wait_inv_env _ _ _ _ _ _ IH); simpl; [lia|]. intros g Hg [H1 H2]. simpl in *. lia.
  - by apply (wait_inv_step _ _ _ _ _ IH).
Qed.

(** C11.  No wakeup is lost: when a call of [wait] sleeps, nothing was notified since it
    registered, and no method is about to notify, then what it waits for has not
    happened.  So a sleeping waiter whose condition holds is always about to be
    woken. *)
Theorem no_lost_wakeup request s g :
  reachable request s -> sys_wait s = W_Sleep g ->
  am_updates (sys_manager s) = g -> sys_notifying s = 0%nat ->
  exists response, snapshot_wait (sys_manager s) request = Ok response
    /\ wait_done request response = false.
Proof.
  intros Hr%reachable_wait_inv Hw Hg Hn. unfold wait_inv in Hr. rewrite Hw in Hr.
  apply Hr. by split.
Qed.

(** What [wait] returns is sound under every interleaving: every agent it reports
    as completed was terminal when its record was read, and there is one in [Any]
    mode, and none is pending in [All] mode. *)
Theorem wait_response_sound request s response :
  reachable request s -> sys_wait s = W_Returned (Ok response) ->
  Forall (fun h => terminal h = true) (wait_completed response)
  /\ (wait_mode request = Wait_Any -> wait_completed response <> [])
  /\ (wait_mode request = Wait_All -> wait_pending response = []).
Proof.
  intros Hr%reachable_wait_inv Hw. unfold wait_inv in Hr. rewrite Hw in Hr. destruct Hr as [Hok Hd].
  unfold wait_done in Hd. split; [done|]. split; intros Hm; rewrite Hm in Hd.
  - by destruct (wait_completed response).
  - by destruct (wait_pending response).
Qed.

(** ** A wait returns *)

Definition wait_moves (m : AgentSessionManager) (request : AgentWaitRequest) : relation WaitPhase :=
  fun p p' => wait_step m request p = Some p'.

Lemma moves_run m request p r :
  rtc (wait_moves m request) p (W_Returned r) -> exists fuel, wait_run fuel m request p = W_Returned r.
Proof.
  intros Hr. remember (W_Returned r) as q eqn:Hq. induction Hr as [p|p p' q Hp _ IH]; [by exists 0%nat|].
  destruct (IH Hq) as [fuel Hf]. exists (S fuel). simpl. unfold wait_moves in Hp. by rewrite Hp.
Qed.

Lemma reachable_moves request m n p p' :
  rtc (wait_moves m request) p p' -> reachable request (mkSystem m n p) ->
  reachable request (mkSystem m n p').
Proof.
  induction 1 as [|p p1 p' Hp _ IH]; [done|]. intros Hr. apply IH.
  apply (reach_step _ _ _ Hr). by constructor.
Qed.

Lemma reachable_run request m n p k :
  reachable request (mkSystem m n p) -> reachable request (mkSystem m n (wait_run k m request p)).
Proof.
  revert p. induction k as [|k IH]; intros p Hr; simpl; [done|].
  destruct (wait_step m request p) as [p'|] eqn:E; [|done]. apply IH, (reach_step _ _ _ Hr).
  by constructor.
Qed.

Definition settled (p : WaitPhase) : Prop :=
  (exists r, p = W_Returned r) \/ (exists g, p = W_Sleep g).

Lemma check_settles m request g response :
  exists p, rtc (wait_moves m request) (W_Check g response) p /\ settled p.
Proof.
  eexists. split; [apply rtc_once; reflexivity|]. destruct (wait_done request response).
  - left. eauto.
  - right. eauto.
Qed.

Lemma rest_settles m request g first rs todo pending :
  exists p, rtc (wait_moves m request) (W_Rest g first rs todo pending) p /\ settled p.
Proof.
  revert pending. induction todo as [|a todo IH]; intros pending.
  - edestruct check_settles as (p & Hp & Hs). exists p. split; [|done].
    eapply rtc_l; [reflexivity | exact Hp].
  - destruct (handle m a) as [h|e] eqn:E.
    + destruct (IH (pending ++ [h])) as (p & Hp & Hs). exists p. split; [|done].
      eapply rtc_l; [|exact Hp]. unfold wait_moves. simpl. by rewrite E.
    + exists (W_Returned (Err e)). split; [|left; eauto].
      apply rtc_once. unfold wait_moves. simpl. by rewrite E.
Qed.

Lemma first_settles m request g first :
  exists p, rtc (wait_moves m request) (W_First g first) p /\ settled p.
Proof.
  destruct (record m (AgentHandle_agent_id first)) as [r|e] eqn:E.
  - edestruct rest_settles as (p & Hp & Hs). exists p. split; [|done].
    eapply rtc_l; [|exact Hp]. unfold wait_moves. simpl. by rewrite E.
  - exists (W_Returned (Err e)). split; [|left; eauto].
    apply rtc_once. unfold wait_moves. simpl. by rewrite E.
Qed.

Lemma scan_settles m request g todo acc :
  exists p, rtc (wait_moves m request) (W_Scan g todo acc) p /\ settled p.
Proof.
  revert acc. induction todo as [|a todo IH]; intros acc.
  - destruct acc as [[c pn] rs]. destruct (wait_mode request) eqn:Em; [destruct c as [|first c]|].
    2: edestruct (first_settles m request) as (p & Hp & Hs).
    1, 3: edestruct (check_settles m request) as (p & Hp & Hs).
    all: exists p; (split; [|done]); eapply rtc_l; [|exact Hp]; unfold wait_moves; simpl; by rewrite Em.
  - destruct (record m a) as [r|e] eqn:E.
    + destruct (IH (scan_record acc r)) as (p & Hp & Hs). exists p. split; [|done].
      eapply rtc_l; [|exact Hp]. unfold wait_moves. simpl. by rewrite E.
    + exists (W_Returned (Err e)). split; [|left; eauto].
      apply rtc_once. unfold wait_moves. simpl. by rewrite E.
Qed.

Lemma wait_settles m request p :
  exists p', rtc (wait_moves m request) p p' /\ settled p'.
Proof.
  destruct p as [|g todo acc|g first|g first rs todo pending|g response|g|r].
  - edestruct (scan_settles m request) as (p & Hp & Hs). exists p. split; [|done].
    eapply rtc_l; [reflexivity | exact Hp].
  - apply scan_settles.
  - apply first_settles.
  - apply rest_settles.
  - apply check_settles.
  - exists (W_Sleep g). split; [done | right; eauto].
  - exists (W_Returned r). split; [done | left; eauto].
Qed.

Lemma scan_forward m request g todo acc acc' :
  scan_agents m todo acc = Ok acc' ->
  rtc (wait_moves m request) (W_Scan g todo acc) (W_Scan g [] acc').
Proof.
  revert acc. induction todo as [|a todo IH]; intros acc; simpl; [by intros [= <-]|].
  destruct (record m a) as [r|] eqn:E; [|done]. cbn [result_bind]. intros Hs.
  eapply rtc_l; [|exact (IH _ Hs)]. unfold wait_moves. simpl. by rewrite E.
Qed.

Lemma rest_forward m request g first rs todo pending l :
  map_result (handle m) todo = Ok l ->
  rtc (wait_moves m request) (W_Rest g first rs todo pending) (W_Rest g first rs [] (pending ++ l)).
Proof.
  revert pending l. induction todo as [|a todo IH]; intros pending l; simpl.
  { intros [= <-]. by rewrite app_nil_r. }
  destruct (handle m a) as [h|] eqn:E; [|done]. cbn [result_bind].
  destruct (map_result (handle m) todo) as [l'|] eqn:El; [|done]. cbn [result_bind]. intros [= <-].
  eapply rtc_l; [unfold wait_moves; simpl; by rewrite E|].
  replace (pending ++ h :: l') with ((pending ++ [h]) ++ l') by (by rewrite <- app_assoc). by apply IH.
Qed.

(** From the start, with nobody else running, [wait] returns the snapshot. *)
Lemma wait_from_start m request response :
  snapshot_wait m request = Ok response -> wait_done request response = true ->
  rtc (wait_moves m request) W_Start (W_Returned (Ok response)).
Proof.
  rewrite snapshot_wait_eq. intros Hs Hd. eapply rtc_l; [reflexivity|].
  destruct (scan_agents m _ _) as [[[c pn] rs]|] eqn:E; [|done]. cbn [result_bind] in Hs.
  etransitivity; [by apply scan_forward|].
  assert (Hcheck : forall g, rtc (wait_moves m request) (W_Check g response) (W_Returned (Ok response)))
    by (intros g; apply rtc_once; unfold wait_moves; simpl; by rewrite Hd).
  simpl in Hs. destruct (wait_mode request) eqn:Em; [destruct c as [|first c]|].
  1, 3: injection Hs as <-; eapply rtc_l; [|apply Hcheck]; unfold wait_moves; simpl; by rewrite Em.
  unfold read_result in Hs. destruct (record m _) as [r|] eqn:Er; [|done]. cbn [result_bind] in Hs.
  destruct (map_result (handle m) _) as [l|] eqn:El; [|done]. injection Hs as <-.
  eapply rtc_l; [unfold wait_moves; simpl; by rewrite Em|].
  eapply rtc_l; [unfold wait_moves; simpl; by rewrite Er|].
  etransitivity; [by apply rest_forward|]. eapply rtc_l; [reflexivity | apply Hcheck].
Qed.

(** A wait returns: once what it waits for holds and no method is between its
    change and its notification, a call of [wait] returns after finitely many of its
    own steps, wherever it is. *)
Theorem wait_returns request s response :
  reachable request s -> sys_notifying s = 0%nat ->
  snapshot_wait (sys_manager s) request = Ok response -> wait_done request response = true ->
  exists fuel r, wait_run fuel (sys_manager s) request (sys_wait s) = W_Returned r.
Proof.
  destruct s as [m n p]. simpl. intros Hr -> Hs Hd.
  destruct (wait_settles m request p) as (p' & Hp & [[r ->]|[g ->]]).
  { destruct (moves_run _ _ _ _ Hp) as [fuel Hf]. eauto. }
  pose proof (reachable_moves _ _ _ _ _ Hp Hr) as Hi%reachable_wait_inv. destruct Hi as [Hg Hi].
  destruct (decide (g = am_updates m)) as [->|Hne].
  { destruct Hi as (response' & Hs' & Hd'); [by split|]. simpl in Hs'. congruence. }
  destruct (moves_run m request p (Ok response)) as [fuel Hf]; [|eauto].
  etransitivity; [exact Hp|]. eapply rtc_l; [|by apply wait_from_start]. unfold wait_moves. simpl in *.
  destruct (Nat.ltb_spec g (am_updates m)); [done | lia].
Qed.

(** ** The registry *)

(** Every record is filed under its own agent. *)
Definition manager_ok (m : AgentSessionManager) : Prop :=
  forall agent_id r, am_records m !! agent_id = Some r ->
    AgentHandle_agent_id (ar_handle r) = agent_id.

(** The agent a method is called for. *)
Definition called_agent (c : ManagerCall) : AgentId :=
  match c with
  | Call_Insert h _ _ => AgentHandle_agent_id h
  | Call_Attach a _ | Call_UpdateStatus a _ | Call_Finish a _ _ _ | Call_Reopen a _ | Call_Restart a _ _
  | Call_Cancel a _ _ => a
  end.
Definition is_insert (c : ManagerCall) : bool := match c with Call_Insert _ _ _ => true | _ => false end.

(** A record of the agent is written, and no other. *)
Definition writes_record (agent_id : AgentId) (m m' : AgentSessionManager) : Prop :=
  exists r, AgentHandle_agent_id (ar_handle r) = agent_id /\ am_records m' = <[agent_id := r]> (am_records m).

Lemma record_Some m agent_id r : record m agent_id = Ok r -> am_records m !! agent_id = Some r.
Proof. unfold record. destruct (am_records m !! agent_id); by intros [= <-]. Qed.

Lemma put_writes m agent_id r aborted :
  AgentHandle_agent_id (ar_handle r) = agent_id -> writes_record agent_id m (put_record m agent_id r aborted).
Proof. intros Hr. by exists r. Qed.

Lemma writes_ok m m' agent_id : manager_ok m -> writes_record agent_id m m' -> manager_ok m'.
Proof.
  intros Hm (r & Hr & Hw) b r'. rewrite Hw. destruct (decide (b = agent_id)) as [->|].
  - rewrite lookup_insert_eq. by intros [= <-].
  - rewrite lookup_insert_ne by done. apply Hm.
Qed.

(** Every method writes the record of its agent, which all but [insert] find in the registry. *)
Lemma call_writes m c m' b : manager_ok m -> call_locked m c = Ok (m', b) ->
  writes_record (called_agent c) m m' /\ (is_insert c = false -> is_Some (am_records m !! called_agent c)).
Proof.
  intros Hm Hc. destruct c; simpl in Hc.
  { injection Hc as <- _. split; [by apply put_writes | done]. }
  all: unfold attach_join_handle, update_status_locked, finish_locked, reopen_locked, restart_locked,
         cancel_locked, refuse_state in Hc; repeat (case_match; try done; simplify_eq/=).
  all: destruct (record m agent_id) as [r|] eqn:Er; [|done]; cbn [result_bind] in Hc;
    apply record_Some in Er; pose proof (Hm _ _ Er) as Hid; (split; [|intros _; by exists r]);
    repeat (case_match; try done; simplify_eq/=); try (injection Hc as <- _);
    first [by apply put_writes | exists r; by rewrite insert_id].
Qed.

Lemma list_agents_elem m h :
  h ∈ list_agents m <-> exists agent_id r, am_records m !! agent_id = Some r /\ ar_handle r = h.
Proof.
  unfold list_agents. rewrite merge_sort_Permutation, list_elem_of_fmap. setoid_rewrite list_elem_of_fmap. split.
  - intros (r & -> & [a r'] & -> & Hin%elem_of_map_to_list). eauto.
  - intros (a & r & Hr & <-). exists r. split; [done|]. exists (a, r). by rewrite elem_of_map_to_list.
Qed.

#[global] Instance handle_le_trans : Transitive handle_le.
Proof. intros x y z. unfold handle_le. apply transitivity. Qed.
#[global] Instance handle_le_total : Total handle_le.
Proof. intros x y. unfold handle_le. apply total, _. Qed.

(** C39.  The registry stays well formed: every method writes the record of the agent it is called for, under that
    agent's id, and leaves every other record as it was; only [insert] adds an agent.  After it,
    [list] has exactly the handles of the registered agents, each once, in the order of their ids. *)
Theorem manager_calls_well_formed m c m' b :
  manager_ok m -> call_locked m c = Ok (m', b) ->
  manager_ok m' /\ writes_record (called_agent c) m m'
  /\ (is_insert c = false -> is_Some (am_records m !! called_agent c))
  /\ (forall h, h ∈ list_agents m' <-> exists agent_id r, am_records m' !! agent_id = Some r /\ ar_handle r = h)
  /\ StronglySorted (fun x y => String.le (AgentHandle_agent_id x) (AgentHandle_agent_id y)) (list_agents m')
  /\ NoDup (AgentHandle_agent_id <$> list_agents m').
Proof.
  intros Hm Hc. destruct (call_writes _ _ _ _ Hm Hc) as [Hw Hfound]. pose proof (writes_ok _ _ _ Hm Hw) as Hok.
  split_and!; [done | done | done | apply list_agents_elem | apply StronglySorted_merge_sort; apply _|].
  unfold list_agents. rewrite merge_sort_Permutation.
  assert (Heq : AgentHandle_agent_id <$> (ar_handle <$> (map_to_list (am_records m')).*2)
                = (map_to_list (am_records m')).*1).
  { rewrite <- !list_fmap_compose. apply list_fmap_ext. intros i [a r] Har%list_elem_of_lookup_2.
    apply elem_of_map_to_list in Har. simpl. by apply Hok. }
  rewrite Heq. apply NoDup_fst_map_to_list.
Qed.

(** Cancelling a worker that was spawned but whose join handle is not attached yet
    does not stop it: nothing is aborted, the handle is attached to the cancelled
    record, and the worker's first step makes the agent run again, with the result of
    the cancellation still in its record. *)
Theorem cancel_misses_unattached_worker m agent_id r reason files j :
  am_records m !! agent_id = Some r -> terminal (ar_handle r) = false -> ar_join_handle r = None ->
  exists h res m1 m2 h' m3,
    cancel m agent_id reason files = Ok (h, res, m1)
    /\ AgentHandle_status h = AgentStatus_Cancelled
    /\ attach_join_handle m1 agent_id j = Ok m2
    /\ update_status m2 agent_id AgentStatus_Running = Ok (h', m3)
    /\ am_aborted m3 = am_aborted m
    /\ exists r', am_records m3 !! agent_id = Some r'
         /\ AgentHandle_status (ar_handle r') = AgentStatus_Running
         /\ ar_result r' = Some res /\ AgentResultEnvelope_status res = AgentStatus_Cancelled.
Proof.
  intros Hr Ht Hj. unfold cancel, cancel_locked, attach_join_handle, update_status,
    update_status_locked, notified, record.
  rewrite Hr. cbn [result_bind]. rewrite Ht, Hj. cbn [result_bind].
  do 6 eexists. do 2 (split; [reflexivity|]). simpl. rewrite lookup_insert_eq. cbn [result_bind].
  split; [reflexivity|]. simpl. rewrite lookup_insert_eq. cbn [result_bind]. split; [reflexivity|].
  simpl. rewrite !app_nil_r. split; [done|]. rewrite lookup_insert_eq. eexists. split; [done|].
  simpl. done.
Qed.

End AgentSessions.

(** ** Concrete runs *)

#[local] Existing Instance json_text.

Definition demo_task (id : string) (deps : list string) : AgentTaskSpec :=
  mkAgentTaskSpec id "worker" "do it" TaskOrigin_ChildAgentBacked None [] [] deps None.
Definition demo_handle (id : string) (status : AgentStatus) : AgentHandle :=
  mkAgentHandle id None "s" "as" id "worker" status None None.

(** An agent that is done and one that runs. *)
Definition demo_manager : AgentSessionManager :=
  manager_insert (manager_insert AgentSessionManager_new (demo_handle "a" AgentStatus_Completed)
                    (demo_task "a" []) 1) (demo_handle "b" AgentStatus_Running) (demo_task "b" []) 2.

Definition wait_both : AgentWaitRequest := mkAgentWaitRequest ["a"; "b"] Wait_All.
Definition wait_one : AgentWaitRequest := mkAgentWaitRequest ["a"; "b"] Wait_Any.

Lemma no_lost_wakeup_witness :
  exists response, snapshot_wait demo_manager wait_both = Ok response
    /\ wait_done wait_both response = false.
Proof.
  apply (no_lost_wakeup wait_both
           (mkSystem demo_manager 0 (wait_run 10 demo_manager wait_both W_Start)) 2);
    [apply reachable_run; constructor | reflexivity | reflexivity | reflexivity].
Defined.

Lemma wait_response_sound_witness :
  wait_completed (mkAgentWaitResponse [demo_handle "a" AgentStatus_Completed]
                    [demo_handle "b" AgentStatus_Running] []) <> [].
Proof.
  apply (wait_response_sound wait_one
           (mkSystem demo_manager 0 (wait_run 10 demo_manager wait_one W_Start)));
    [apply reachable_run; constructor | reflexivity | reflexivity].
Defined.

Lemma wait_returns_witness :
  exists fuel r, wait_run fuel demo_manager wait_one
                   (wait_run 3 demo_manager wait_one W_Start) = W_Returned r.
Proof.
  apply (wait_returns wait_one
           (mkSystem demo_manager 0 (wait_run 3 demo_manager wait_one W_Start))
           (mkAgentWaitResponse [demo_handle "a" AgentStatus_Completed]
              [demo_handle "b" AgentStatus_Running] []));
    [apply reachable_run; constructor | reflexivity | reflexivity | reflexivity].
Defined.

Lemma manager_calls_well_formed_witness :
  manager_ok (insert_locked AgentSessionManager_new (demo_handle "a" AgentStatus_Queued) (demo_task "a" []) 1).
Proof.
  apply (manager_calls_well_formed AgentSessionManager_new
           (Call_Insert (demo_handle "a" AgentStatus_Queued) (demo_task "a" []) 1) _ true);
    [intros a r Hr; cbn in Hr; by rewrite lookup_empty in Hr | reflexivity].
Defined.

Lemma cancel_misses_unattached_worker_witness :
  exists h res m1 m2 h' m3,
    cancel demo_manager "b" None [] = Ok (h, res, m1)
    /\ AgentHandle_status h = AgentStatus_Cancelled
    /\ attach_join_handle m1 "b" 7 = Ok m2
    /\ update_status m2 "b" AgentStatus_Running = Ok (h', m3)
    /\ am_aborted m3 = am_aborted demo_manager
    /\ exists r', am_records m3 !! "b" = Some r'
         /\ AgentHandle_status (ar_handle r') = AgentStatus_Running
         /\ ar_result r' = Some res /\ AgentResultEnvelope_status res = AgentStatus_Cancelled.
Proof. eapply (cancel_misses_unattached_worker demo_manager "b"); reflexivity. Defined.
