(* ===== verification/WriteLease.v ===== *)
(** * Write leases

    Models [crates/runtime/src/write_lease.rs]: the leases that keep two agents
    from writing into the same part of a tree.  [LeaseIndex] holds the paths each
    agent claimed and a trie over path components whose nodes count the leases
    below them per owner.  The abstract state is the [owners] map alone; the trie
    is an index over it ([index_ok]).  A manager method takes the lock once, so
    each is one step. *)

From Stdlib Require Import String.
From stdpp Require Import base list gmap strings.
From Stdlib Require Import Lia.
From S2P Require Import Prelude BTree Message Errors.

(** ** Data *)

(* crates/runtime/src/write_lease.rs, WriteLeaseConflict *)
Record WriteLeaseConflict := mkWriteLeaseConflict {
  conflict_requested : string;
  conflict_owner : AgentId;
  conflict_owner_path : string
}.

(* crates/runtime/src/write_lease.rs, LeaseTrieNode *)
Inductive LeaseTrieNode := mkLeaseTrieNode {
  node_owner : option AgentId;
  subtree_owner_counts : gmap AgentId nat;
  node_children : list (string * LeaseTrieNode)   (* a BTreeMap<OsString, LeaseTrieNode> *)
}.

(** [LeaseTrieNode::default()]. *)
Definition LeaseTrieNode_default : LeaseTrieNode := mkLeaseTrieNode None ∅ [].

(* crates/runtime/src/write_lease.rs, LeaseIndex *)
Record LeaseIndex := mkLeaseIndex {
  owners : gmap AgentId (gset PathBuf);
  root : LeaseTrieNode
}.

(** ** Paths *)

(** [PathBuf::push] of one component and [PathBuf::pop]. *)
Definition path_push (p : PathBuf) (component : string) : PathBuf :=
  if String.eqb component "/" then ["/"] else p ++ [component].

Definition path_pop (p : PathBuf) : PathBuf :=
  match last p with
  | Some "/" => p
  | _ => removelast p
  end.

(* crates/runtime/src/write_lease.rs, normalize_path *)
Definition normalize_path (path : PathBuf) : PathBuf :=
  foldl (fun normalized component =>
      if String.eqb component "." then normalized
      else if String.eqb component ".." then path_pop normalized
      else path_push normalized component) [] path.

(* crates/runtime/src/write_lease.rs, path_components *)
Definition path_components (path : PathBuf) : list string := path.

(** [path.display().to_string()]. *)
Definition path_display (path : PathBuf) : string :=
  match path with
  | "/" :: rest => "/" +:+ str_join "/" rest
  | _ => str_join "/" path
  end.

(** ** The trie *)

(* crates/runtime/src/write_lease.rs, has_foreign_owner *)
Definition has_foreign_owner (owner_counts : gmap AgentId nat) (agent_id : AgentId) : bool :=
  existsb (fun p => bool_decide (p.1 <> agent_id) && (0 <? p.2)%nat) (map_to_list owner_counts).

(* crates/runtime/src/write_lease.rs, decrement_owner_count *)
Definition decrement_owner_count (owner_counts : gmap AgentId nat) (agent_id : AgentId)
    : gmap AgentId nat :=
  match owner_counts !! agent_id with
  | Some count => if (1 <? count)%nat then <[agent_id := (count - 1)%nat]> owner_counts
                  else delete agent_id owner_counts
  | None => owner_counts
  end.

Definition foreign_owner (n : LeaseTrieNode) (agent_id : AgentId) : option AgentId :=
  match node_owner n with
  | Some owner => if bool_decide (owner <> agent_id) then Some owner else None
  | None => None
  end.

(** The [for (component, child) in &self.children] loop of
    [find_conflicting_descendant], with the recursive call as an argument. *)
Section Scan.
Variable descend : LeaseTrieNode -> PathBuf -> option (PathBuf * AgentId).

(* crates/runtime/src/write_lease.rs, LeaseTrieNode::find_conflicting_descendant@for (component, child) *)
Fixpoint scan_children (agent_id : AgentId) (prefix : PathBuf)
    (children : list (string * LeaseTrieNode)) : option (PathBuf * AgentId) :=
  match children with
  | [] => None
  | (component, child) :: rest =>
      if negb (has_foreign_owner (subtree_owner_counts child) agent_id)
      then scan_children agent_id prefix rest
      else
        let child_path := path_push prefix component in
        match foreign_owner child agent_id with
        | Some owner => Some (child_path, owner)
        | None =>
            match descend child child_path with
            | Some conflict => Some conflict
            | None => scan_children agent_id prefix rest
            end
        end
  end.
End Scan.

(* crates/runtime/src/write_lease.rs, LeaseTrieNode::find_conflicting_descendant *)
Fixpoint find_conflicting_descendant (n : LeaseTrieNode) (agent_id : AgentId) (prefix : PathBuf)
    {struct n} : option (PathBuf * AgentId) :=
  match n with
  | mkLeaseTrieNode _ counts children =>
      if negb (has_foreign_owner counts agent_id) then None
      else
        scan_children (fun child child_path => find_conflicting_descendant child agent_id child_path)
          agent_id prefix children
  end.

(** The [for component in components] loop of [LeaseTrieNode::find_conflict],
    from [node] at [prefix]. *)
Fixpoint find_conflict_from (node : LeaseTrieNode) (agent_id : AgentId) (prefix : PathBuf)
    (components : list string) : option (PathBuf * AgentId) :=
  match foreign_owner node agent_id with
  | Some owner => Some (prefix, owner)
  | None =>
      match components with
      | [] => find_conflicting_descendant node agent_id prefix
      | component :: rest =>
          match bt_get component (node_children node) with
          | None => None
          | Some child => find_conflict_from child agent_id (path_push prefix component) rest
          end
      end
  end.

(* crates/runtime/src/write_lease.rs, LeaseTrieNode::find_conflict *)
Definition trie_find_conflict (n : LeaseTrieNode) (agent_id : AgentId) (components : list string)
    : option (PathBuf * AgentId) :=
  find_conflict_from n agent_id [] components.

(* crates/runtime/src/write_lease.rs, LeaseTrieNode::insert *)
Fixpoint trie_insert (n : LeaseTrieNode) (agent_id : AgentId) (components : list string)
    : LeaseTrieNode :=
  let counts :=
    <[agent_id := S (default 0%nat (subtree_owner_counts n !! agent_id))]> (subtree_owner_counts n) in
  match components with
  | [] => mkLeaseTrieNode (Some agent_id) counts (node_children n)
  | component :: rest =>
      let child := default LeaseTrieNode_default (bt_get component (node_children n)) in
      mkLeaseTrieNode (node_owner n) counts
        (bt_insert component (trie_insert child agent_id rest) (node_children n))
  end.

Definition is_blank (n : LeaseTrieNode) : bool :=
  bool_decide (node_owner n = None) && is_nil (node_children n)
  && bool_decide (subtree_owner_counts n = ∅).

(* crates/runtime/src/write_lease.rs, LeaseTrieNode::remove *)
Fixpoint trie_remove (n : LeaseTrieNode) (agent_id : AgentId) (components : list string)
    : bool * LeaseTrieNode :=
  let counts := decrement_owner_count (subtree_owner_counts n) agent_id in
  match components with
  | [] =>
      let n' := mkLeaseTrieNode None counts (node_children n) in
      (is_blank n', n')
  | component :: rest =>
      let children :=
        match bt_get component (node_children n) with
        | None => node_children n
        | Some child =>
            let (should_prune_child, child') := trie_remove child agent_id rest in
            let children := bt_insert component child' (node_children n) in
            if should_prune_child then bt_remove component children else children
        end in
      let n' := mkLeaseTrieNode (node_owner n) counts children in
      (is_blank n', n')
  end.

(** ** The index and the manager *)

(* crates/runtime/src/write_lease.rs, LeaseIndex::find_conflict *)
Definition index_find_conflict (index : LeaseIndex) (agent_id : AgentId) (path : PathBuf)
    : option (PathBuf * AgentId) :=
  trie_find_conflict (root index) agent_id (path_components path).

(** The paths of an agent. *)
Definition paths_of (o : gmap AgentId (gset PathBuf)) (agent_id : AgentId) : gset PathBuf :=
  default ∅ (o !! agent_id).

(* crates/runtime/src/write_lease.rs, LeaseIndex::insert *)
Definition index_insert (index : LeaseIndex) (agent_id : AgentId) (path : PathBuf) : LeaseIndex :=
  if bool_decide (path ∈ paths_of (owners index) agent_id) then index
  else
    mkLeaseIndex
      (<[agent_id := {[path]} ∪ paths_of (owners index) agent_id]> (owners index))
      (trie_insert (root index) agent_id (path_components path)).

(* crates/runtime/src/write_lease.rs, LeaseIndex::release *)
Definition index_release (index : LeaseIndex) (agent_id : AgentId) : LeaseIndex :=
  match owners index !! agent_id with
  | None => index
  | Some paths =>
      mkLeaseIndex (delete agent_id (owners index))
        (foldl (fun r path => (trie_remove r agent_id (path_components path)).2)
           (root index) (elements paths))
  end.

(* crates/runtime/src/write_lease.rs, LeaseIndex::claimed_paths *)
Definition index_claimed_paths (index : LeaseIndex) (agent_id : AgentId) : list PathBuf :=
  elements (paths_of (owners index) agent_id).

(* crates/runtime/src/write_lease.rs, WriteLeaseManager::new *)
Definition WriteLeaseManager_new : LeaseIndex := mkLeaseIndex ∅ LeaseTrieNode_default.

(** The first requested path that conflicts. *)
Definition first_conflict (index : LeaseIndex) (agent_id : AgentId) (requested : list PathBuf)
    : option (PathBuf * (PathBuf * AgentId)) :=
  find_map (fun path => (fun c => (path, c)) <$> index_find_conflict index agent_id path) requested.

(* crates/runtime/src/write_lease.rs, WriteLeaseManager::claim *)
Definition claim (index : LeaseIndex) (agent_id : AgentId) (paths : list PathBuf)
    : result unit WriteLeaseConflict * LeaseIndex :=
  let requested := map normalize_path paths in
  match first_conflict index agent_id requested with
  | Some (path, (owned_path, owner)) =>
      (Err (mkWriteLeaseConflict (path_display path) owner (path_display owned_path)), index)
  | None => (Ok tt, foldl (fun index path => index_insert index agent_id path) index requested)
  end.

(* crates/runtime/src/write_lease.rs, WriteLeaseManager::release *)
Definition release (index : LeaseIndex) (agent_id : AgentId) : LeaseIndex :=
  index_release index agent_id.

(* crates/runtime/src/write_lease.rs, WriteLeaseManager::claimed_paths *)
Definition claimed_paths (index : LeaseIndex) (agent_id : AgentId) : list string :=
  map path_display (index_claimed_paths index agent_id).

(* crates/runtime/src/write_lease.rs, WriteLeaseManager::assert_write_paths *)
Definition assert_write_paths (index : LeaseIndex) (agent_id : option AgentId)
    (paths : list PathBuf) : result unit ToolError :=
  match agent_id with
  | None => Ok tt
  | Some agent_id =>
      match first_conflict index agent_id (map normalize_path paths) with
      | Some (path, (owned_path, owner)) =>
          Err (ToolErr_InvalidState
                 ("write lease conflict for " +:+ path_display path +:+ ": owned by " +:+ owner
                    +:+ " via " +:+ path_display owned_path))
      | None => Ok tt
      end
  end.

(** ** What the trie stores *)

(** The owner recorded at a path. *)
Fixpoint owner_at (n : LeaseTrieNode) (p : list string) : option AgentId :=
  match p with
  | [] => node_owner n
  | c :: p' => match bt_get c (node_children n) with
               | Some child => owner_at child p'
               | None => None
               end
  end.

Definition cnt (a : AgentId) (n : LeaseTrieNode) : nat :=
  default 0%nat (subtree_owner_counts n !! a).

Definition owns (a : AgentId) (o : option AgentId) : nat :=
  if bool_decide (o = Some a) then 1%nat else 0%nat.

(** Each node counts, per owner, the leases in its subtree. *)
Inductive trie_ok : LeaseTrieNode -> Prop :=
| trie_ok_node n :
    bt_ok (node_children n) ->
    (forall k child, bt_get k (node_children n) = Some child -> trie_ok child) ->
    (forall a, cnt a n = (owns a (node_owner n) + bt_sum (cnt a) (node_children n))%nat) ->
    trie_ok n.

Lemma trie_ok_default : trie_ok LeaseTrieNode_default.
Proof. constructor; simpl; [constructor | done | done]. Qed.

Lemma owner_at_default p : owner_at LeaseTrieNode_default p = None.
Proof. by destruct p. Qed.

Lemma owner_at_insert n a p q :
  owner_at (trie_insert n a p) q = if decide (q = p) then Some a else owner_at n q.
Proof.
  revert n q. induction p as [|c p IH]; intros n [|d q]; try done. simpl.
  rewrite bt_get_insert. destruct (String.eqb_spec d c) as [->|Hne].
  - rewrite IH. destruct (decide (q = p)) as [->|Hq].
    + by rewrite decide_True.
    + rewrite decide_False by congruence.
      destruct (bt_get c (node_children n)); simpl; [done | apply owner_at_default].
  - rewrite decide_False by congruence. done.
Qed.

Lemma is_blank_owner n q : is_blank n = true -> owner_at n q = None.
Proof.
  unfold is_blank. rewrite !andb_true_iff, bool_decide_eq_true. intros [[Ho Hc] _].
  destruct q; simpl; [done|]. by destruct (node_children n).
Qed.

Lemma is_blank_cnt n a : is_blank n = true -> cnt a n = 0%nat.
Proof.
  unfold is_blank, cnt. rewrite !andb_true_iff, !bool_decide_eq_true. intros [_ ->]. done.
Qed.

Lemma trie_remove_blank n a p : (trie_remove n a p).1 = is_blank (trie_remove n a p).2.
Proof. by destruct p. Qed.

Lemma owner_at_remove n a p q :
  owner_at (trie_remove n a p).2 q = if decide (q = p) then None else owner_at n q.
Proof.
  revert n q. induction p as [|c p IH]; intros n [|d q]; try done. simpl.
  destruct (bt_get c (node_children n)) as [child|] eqn:Ec.
  - assert (Hb := trie_remove_blank child a p). specialize (IH child q).
    destruct (trie_remove child a p) as [prune child'] eqn:Er. simpl in *.
    destruct (String.eqb_spec d c) as [->|Hne].
    + destruct prune.
      * rewrite bt_get_remove, String.eqb_refl.
        rewrite is_blank_owner in IH by done. rewrite IH, Ec.
        destruct (decide (q = p)) as [->|]; [by rewrite decide_True | by rewrite decide_False by congruence].
      * rewrite bt_get_insert, String.eqb_refl, IH, Ec.
        destruct (decide (q = p)) as [->|]; [by rewrite decide_True | by rewrite decide_False by congruence].
    + rewrite decide_False by congruence.
      destruct prune; rewrite ?bt_get_remove, bt_get_insert;
        destruct (String.eqb_spec d c); done.
  - destruct (decide (d :: q = c :: p)) as [[= -> ->]|]; [by rewrite Ec | done].
Qed.

Lemma cnt_insert n a b p :
  cnt b (trie_insert n a p) = (cnt b n + (if decide (a = b) then 1 else 0))%nat.
Proof.
  unfold cnt. assert (H : subtree_owner_counts (trie_insert n a p)
    = <[a := S (cnt a n)]> (subtree_owner_counts n)) by (by destruct p). rewrite H.
  destruct (decide (a = b)) as [->|]; [rewrite lookup_insert_eq; simpl; unfold cnt; lia|].
  rewrite lookup_insert_ne by done. lia.
Qed.

Lemma cnt_decrement n a b p :
  cnt b (trie_remove n a p).2 = (cnt b n - (if decide (a = b) then 1 else 0))%nat.
Proof.
  unfold cnt. assert (H : subtree_owner_counts (trie_remove n a p).2
    = decrement_owner_count (subtree_owner_counts n) a) by (by destruct p). rewrite H.
  unfold decrement_owner_count. destruct (decide (a = b)) as [->|Hne].
  - destruct (subtree_owner_counts n !! b) as [c|] eqn:E; [|by rewrite E].
    destruct (Nat.ltb_spec 1 c); [by rewrite lookup_insert_eq|].
    rewrite lookup_delete_eq. simpl. lia.
  - rewrite Nat.sub_0_r. destruct (subtree_owner_counts n !! a) as [c|]; [|done].
    destruct (1 <? c)%nat; [by rewrite lookup_insert_ne | by rewrite lookup_delete_ne].
Qed.

Lemma trie_ok_insert n a p :
  trie_ok n -> owner_at n p = None -> trie_ok (trie_insert n a p).
Proof.
  revert n. induction p as [|c p IH]; intros n Hn Hp; inversion Hn as [? Hb Hch Hc]; subst.
  - constructor; [done | done|]. intros b. rewrite cnt_insert, Hc. simpl in *. rewrite Hp.
    unfold owns. simpl. destruct (decide (a = b)) as [->|];
      [rewrite bool_decide_eq_true_2 by done; lia | rewrite bool_decide_eq_false_2 by congruence; lia].
  - simpl in Hp. set (child := default LeaseTrieNode_default (bt_get c (node_children n))).
    assert (Hchild : trie_ok child /\ owner_at child p = None).
    { unfold child. destruct (bt_get c (node_children n)) as [x|] eqn:E; simpl.
      - split; [by apply (Hch c) | done].
      - split; [apply trie_ok_default | apply owner_at_default]. }
    constructor.
    + by apply bt_ok_insert.
    + intros k x. simpl. rewrite bt_get_insert. destruct (String.eqb k c); [|apply Hch].
      intros [= <-]. apply IH; apply Hchild.
    + intros b. rewrite cnt_insert, Hc. simpl.
      assert (Hs := bt_sum_insert (cnt b) c (trie_insert child a p) (node_children n)).
      rewrite cnt_insert in Hs. unfold child in *.
      assert (H0 : cnt b LeaseTrieNode_default = 0%nat) by done.
      destruct (bt_get c (node_children n)); simpl in *; lia.
Qed.

Lemma trie_ok_child n k child : trie_ok n -> bt_get k (node_children n) = Some child -> trie_ok child.
Proof. intros Hn. inversion Hn; subst; eauto. Qed.

Lemma trie_ok_sum n a :
  trie_ok n -> cnt a n = (owns a (node_owner n) + bt_sum (cnt a) (node_children n))%nat.
Proof. by inversion 1. Qed.

Lemma owner_counted n q b : trie_ok n -> owner_at n q = Some b -> (1 <= cnt b n)%nat.
Proof.
  revert n. induction q as [|c q IH]; intros n Hn; rewrite (trie_ok_sum n b Hn); simpl.
  - intros ->. unfold owns. rewrite bool_decide_eq_true_2 by done. lia.
  - destruct (bt_get c (node_children n)) as [child|] eqn:E; [|done]. intros H.
    apply IH in H; [|by eapply trie_ok_child]. assert (Hg := bt_sum_get (cnt b) c child _ E). lia.
Qed.

(** Putting back a child with one lease of [a] less, pruned when blank. *)
Lemma children_after_remove (children : btree LeaseTrieNode) c child child' a (prune : bool) :
  bt_ok children -> bt_get c children = Some child -> (1 <= cnt a child)%nat ->
  (forall b, cnt b child' = (cnt b child - (if decide (a = b) then 1 else 0))%nat) ->
  (prune = true -> is_blank child' = true) ->
  let children' := bt_insert c child' children in
  forall b, (bt_sum (cnt b) (if prune then bt_remove c children' else children')
             + (if decide (a = b) then 1 else 0) = bt_sum (cnt b) children)%nat.
Proof.
  intros Hb Hc H1 Hcnt Hp children' b.
  assert (Hs := bt_sum_insert (cnt b) c child' children). rewrite Hc, Hcnt in Hs. simpl in Hs.
  assert (Hr := bt_sum_remove (cnt b) c children' (bt_ok_insert _ _ _ Hb)).
  unfold children' in *. rewrite bt_get_insert, String.eqb_refl in Hr. simpl in Hr.
  destruct prune; [rewrite (is_blank_cnt child' b) in Hr by auto|];
    destruct (decide (a = b)) as [->|]; lia.
Qed.

Lemma trie_ok_remove n a p :
  trie_ok n -> owner_at n p = Some a -> trie_ok (trie_remove n a p).2.
Proof.
  revert n. induction p as [|c p IH]; intros n Hn Hp; inversion Hn as [? Hb Hch Hc]; subst.
  - constructor; [done | done|]. intros b. rewrite cnt_decrement, Hc. simpl in *. rewrite Hp.
    unfold owns. destruct (decide (a = b)) as [->|];
      [rewrite !bool_decide_eq_true_2 by done | rewrite bool_decide_eq_false_2 by congruence];
      simpl; lia.
  - assert (Hcd := fun b => cnt_decrement n a b (c :: p)). simpl in Hp, Hcd |- *.
    destruct (bt_get c (node_children n)) as [child|] eqn:Ec; [|done].
    assert (Hok' := IH child (Hch _ _ Ec) Hp).
    assert (Hb' := trie_remove_blank child a p).
    assert (Hsum := children_after_remove (node_children n) c child (trie_remove child a p).2 a
             (trie_remove child a p).1 Hb Ec (owner_counted _ _ _ (Hch _ _ Ec) Hp)
             (fun b => cnt_decrement child a b p)).
    rewrite Hb' in Hsum. specialize (Hsum (fun H => H)). rewrite <- Hb' in Hsum.
    destruct (trie_remove child a p) as [prune child'] eqn:Er. simpl in *.
    constructor; simpl.
    + destruct prune; [apply bt_ok_remove|]; by apply bt_ok_insert.
    + intros k x Hk. assert (Hk' : bt_get k (bt_insert c child' (node_children n)) = Some x).
      { destruct prune; [|done]. rewrite bt_get_remove in Hk. by destruct (String.eqb k c). }
      rewrite bt_get_insert in Hk'. destruct (String.eqb k c); [by injection Hk' as <- | eauto].
    + intros b. rewrite Hcd, Hc. specialize (Hsum b). lia.
Qed.

(** ** Finding conflicts *)

Lemma has_foreign_owner_false n a b :
  has_foreign_owner (subtree_owner_counts n) a = false -> b <> a -> cnt b n = 0%nat.
Proof.
  intros H Hb. unfold cnt. destruct (subtree_owner_counts n !! b) as [c|] eqn:E; [|done]. simpl.
  apply not_true_iff_false in H. destruct c as [|c]; [done|]. exfalso. apply H.
  apply existsb_exists. exists (b, S c). split.
  - by apply list_elem_of_In, elem_of_map_to_list.
  - simpl. by rewrite bool_decide_eq_true_2.
Qed.

Lemma not_foreign_owner n a q b :
  trie_ok n -> has_foreign_owner (subtree_owner_counts n) a = false ->
  owner_at n q = Some b -> b = a.
Proof.
  intros Hn Hf Hq. destruct (decide (b = a)) as [|Hne]; [done|].
  assert (H1 := owner_counted n q b Hn Hq). rewrite (has_foreign_owner_false n a b Hf Hne) in H1. lia.
Qed.

Lemma foreign_owner_Some n a b : foreign_owner n a = Some b <-> node_owner n = Some b /\ b <> a.
Proof.
  unfold foreign_owner. destruct (node_owner n) as [o|]; [|naive_solver].
  case_bool_decide; naive_solver.
Qed.

Lemma foreign_owner_None n a : foreign_owner n a = None -> forall b, node_owner n = Some b -> b = a.
Proof.
  unfold foreign_owner. destruct (node_owner n) as [o|]; [|done].
  case_bool_decide as Hc; [done|]. intros _ b [= <-]. by destruct (decide (o = a)).
Qed.

(** The path the trie reports for a descent through [q]. *)
Definition reported (prefix : PathBuf) (q : list string) : PathBuf := foldl path_push prefix q.

Lemma scan_sound descend a prefix children r b :
  (forall k child r b, (k, child) ∈ children -> descend child (path_push prefix k) = Some (r, b) ->
     exists q, owner_at child q = Some b /\ b <> a /\ r = reported (path_push prefix k) q) ->
  scan_children descend a prefix children = Some (r, b) ->
  exists k child q, (k, child) ∈ children /\ owner_at child q = Some b /\ b <> a
    /\ r = reported prefix (k :: q).
Proof.
  induction children as [|[k child] l IH]; intros Hd; simpl; [done|].
  assert (Hrest : scan_children descend a prefix l = Some (r, b) ->
    exists k' c' q, (k', c') ∈ (k, child) :: l /\ owner_at c' q = Some b /\ b <> a
      /\ r = reported prefix (k' :: q)).
  { intros (k' & c' & q & Hin & Hq)%IH; [exists k', c', q; split; [by right | done]|].
    intros k' c' r' b' Hin. apply Hd. by right. }
  destruct (negb _); [done|]. destruct (foreign_owner child a) as [w|] eqn:Ef.
  - intros [= <- <-]. apply foreign_owner_Some in Ef as [Ef Hne].
    exists k, child, []. split; [by left | done].
  - destruct (descend child (path_push prefix k)) as [[r' b']|] eqn:Ed; [|done].
    intros [= -> ->]. apply Hd in Ed as (q & Hq & Hne & ->); [|by left].
    exists k, child, q. split; [by left | done].
Qed.

Lemma scan_complete descend a prefix children :
  (forall k child, (k, child) ∈ children -> trie_ok child) ->
  (forall k child, (k, child) ∈ children -> descend child (path_push prefix k) = None ->
     forall q b, q <> [] -> owner_at child q = Some b -> b = a) ->
  scan_children descend a prefix children = None ->
  forall k child q b, (k, child) ∈ children -> owner_at child q = Some b -> b = a.
Proof.
  induction children as [|[k child] l IH]; intros Hok Hd; simpl; [intros _ ? ? ? ? Hin; by inversion Hin|].
  intros H k' c' q b Hin Hq. apply elem_of_cons in Hin as [[= -> ->]|Hin].
  - destruct (has_foreign_owner (subtree_owner_counts child) a) eqn:Ef; simpl in H.
    + destruct (foreign_owner child a) eqn:Eo; [done|].
      destruct (descend child (path_push prefix k)) eqn:Ed; [done|].
      destruct q as [|x q]; [by apply (foreign_owner_None child a Eo)|].
      by apply (Hd k child ltac:(by left) Ed (x :: q)).
    + apply (not_foreign_owner child a q b); [apply (Hok k); by left | done | done].
  - assert (Hl : scan_children descend a prefix l = None).
    { destruct (negb _); [done|]. destruct (foreign_owner child a); [done|].
      by destruct (descend child (path_push prefix k)). }
    refine (IH _ _ Hl k' c' q b Hin Hq).
    + intros x y Hxy. apply (Hok x). by right.
    + intros x y Hxy. apply Hd. by right.
Qed.

Lemma descendant_sound n a :
  trie_ok n -> forall prefix r b, find_conflicting_descendant n a prefix = Some (r, b) ->
  exists q, q <> [] /\ owner_at n q = Some b /\ b <> a /\ r = reported prefix q.
Proof.
  induction 1 as [[o counts children] Hb Hch IH Hc]. intros prefix r b. simpl in *.
  destruct (negb _); [done|]. intros H.
  apply scan_sound in H as (k & child & q & Hin & Hq & Hne & ->).
  - exists (k :: q). simpl. rewrite (bt_In_get k child) by done. done.
  - intros k child r' b' Hin Hd. apply (IH k child) in Hd as (q & _ & Hq); [by exists q|].
    by apply bt_In_get.
Qed.

Lemma descendant_complete n a :
  trie_ok n -> forall prefix, find_conflicting_descendant n a prefix = None ->
  forall q b, q <> [] -> owner_at n q = Some b -> b = a.
Proof.
  induction 1 as [[o counts children] Hb Hch IH Hc]. intros prefix H q b Hne Hq.
  assert (Hn : trie_ok (mkLeaseTrieNode o counts children)) by (by constructor).
  simpl in H. destruct (has_foreign_owner counts a) eqn:Ef; simpl in H.
  - destruct q as [|k q]; [done|]. simpl in Hq.
    destruct (bt_get k children) as [child|] eqn:Ek; [|done].
    refine (scan_complete (fun c p => find_conflicting_descendant c a p) a prefix children _ _ H
              k child q b (bt_get_In _ _ _ Ek) Hq).
    + intros x y Hxy. apply (Hch x). by apply bt_In_get.
    + intros x y Hxy. apply (IH x y). by apply bt_In_get.
  - by apply (not_foreign_owner _ a q b Hn).
Qed.

(** Two paths overlap when one is at or below the other. *)
Definition overlap (p q : PathBuf) : Prop := p `prefix_of` q \/ q `prefix_of` p.

#[global] Instance overlap_sym : Symmetric overlap.
Proof. intros p q [|]; [by right | by left]. Qed.

Lemma overlap_cons c p q : overlap (c :: p) (c :: q) <-> overlap p q.
Proof.
  unfold overlap. split; intros [H|H].
  1,2: apply prefix_cons_inv_2 in H; tauto.
  1,2: apply (prefix_cons c) in H; tauto.
Qed.

Lemma find_conflict_sound comps n a prefix r b :
  trie_ok n -> find_conflict_from n a prefix comps = Some (r, b) ->
  exists q, owner_at n q = Some b /\ b <> a /\ r = reported prefix q /\ overlap q comps.
Proof.
  revert n prefix. induction comps as [|c comps IH]; intros n prefix Hn; simpl;
    destruct (foreign_owner n a) as [w|] eqn:Ef.
  1,3: intros [= <- <-]; apply foreign_owner_Some in Ef as [Ef Hne]; exists [];
    repeat split; [done | done | left; apply prefix_nil].
  - intros (q & Hq0 & Hq & Hne & ->)%descendant_sound; [|done]. exists q.
    repeat split; [done | done | right; apply prefix_nil].
  - destruct (bt_get c (node_children n)) as [child|] eqn:Ec; [|done].
    intros (q & Hq & Hne & -> & Ho)%IH; [|by eapply trie_ok_child].
    exists (c :: q). simpl. rewrite Ec. repeat split; [done | done|]. by apply overlap_cons.
Qed.

Lemma find_conflict_complete comps n a prefix :
  trie_ok n -> find_conflict_from n a prefix comps = None ->
  forall q b, owner_at n q = Some b -> overlap q comps -> b = a.
Proof.
  revert n prefix. induction comps as [|c comps IH]; intros n prefix Hn; simpl;
    destruct (foreign_owner n a) as [w|] eqn:Ef; try done; intros H q b Hq Ho.
  - destruct q as [|d q]; [by apply (foreign_owner_None n a Ef)|].
    by apply (descendant_complete n a Hn prefix H (d :: q) b).
  - destruct q as [|d q]; [by apply (foreign_owner_None n a Ef)|]. simpl in Hq.
    assert (d = c) as ->.
    { destruct Ho as [Ho|Ho]; by apply prefix_cons_inv_1 in Ho. }
    destruct (bt_get c (node_children n)) as [child|] eqn:Ec; [|done].
    apply (IH child (path_push prefix c) (trie_ok_child n c child Hn Ec) H q b Hq).
    by apply (overlap_cons c).
Qed.

(** ** Normal paths *)

Definition plain_component (c : string) : Prop := c <> "/" /\ c <> "." /\ c <> "..".

(** An optional root followed by plain names. *)
Definition normal_path (p : PathBuf) : Prop :=
  exists rest, Forall plain_component rest /\ (p = rest \/ p = "/" :: rest).

Lemma reported_below p q : Forall plain_component q -> reported p q = p ++ q.
Proof.
  intros H. unfold reported. revert p. induction H as [|c q [Hc _] _ IH]; intros p; simpl.
  - by rewrite app_nil_r.
  - rewrite IH. unfold path_push. destruct (String.eqb_spec c "/"); [done|]. by rewrite <- app_assoc.
Qed.

Lemma reported_normal q : normal_path q -> reported [] q = q.
Proof.
  intros (rest & Hr & [->| ->]); [by apply reported_below|].
  change (reported ["/"] rest = "/" :: rest). by rewrite reported_below.
Qed.

Lemma Forall_removelast {A} (P : A -> Prop) l : Forall P l -> Forall P (removelast l).
Proof. induction 1 as [|x l Hx Hl IH]; simpl; [done|]. destruct l; auto. Qed.

Lemma path_pop_normal p : normal_path p -> normal_path (path_pop p).
Proof.
  intros (rest & Hr & Hp). unfold path_pop. exists (removelast rest).
  destruct rest as [|c rest _] using rev_ind.
  { destruct Hp as [->| ->]; simpl; auto. }
  assert (Hc : last p = Some c).
  { destruct Hp as [->| ->]; [by rewrite last_snoc|]. by rewrite app_comm_cons, last_snoc. }
  assert (Hne : c <> "/") by (apply Forall_app in Hr as [_ Hr]; inversion Hr as [|? ? [H _] _]; done).
  rewrite removelast_last. apply Forall_app in Hr as [Hr _]. split; [done|]. rewrite Hc.
  assert (Hm : forall x : PathBuf, match Some c with Some "/" => p | _ => x end = x).
  { intros x. repeat (case_match; simplify_eq; try done). }
  rewrite Hm. destruct Hp as [->| ->]; [left; by rewrite removelast_last|].
  right. by rewrite app_comm_cons, removelast_last.
Qed.

Lemma normalize_path_normal p : normal_path (normalize_path p).
Proof.
  unfold normalize_path. apply (foldl_inv (fun _ => normal_path)).
  - exists []. auto.
  - intros _ c _ q _ Hq. destruct (String.eqb_spec c "."); [done|].
    destruct (String.eqb_spec c ".."); [by apply path_pop_normal|].
    unfold path_push. destruct (String.eqb_spec c "/"); [exists []; auto|].
    destruct Hq as (rest & Hr & Hp). exists (rest ++ [c]).
    split; [apply Forall_app; split; [done|]; by repeat constructor|].
    destruct Hp as [->| ->]; auto.
Qed.

(** ** The index invariant *)

(** The trie indexes exactly the owners map, and leases of different agents do
    not overlap. *)
Record index_ok (index : LeaseIndex) : Prop := {
  index_trie : trie_ok (root index);
  index_owners : forall p a, owner_at (root index) p = Some a <-> p ∈ paths_of (owners index) a;
  index_exclusive : forall p q a b,
    p ∈ paths_of (owners index) a -> q ∈ paths_of (owners index) b -> overlap p q -> a = b;
  index_normal : forall p a, p ∈ paths_of (owners index) a -> normal_path p
}.

(** No lease of another agent overlaps the path. *)
Definition free_for (o : gmap AgentId (gset PathBuf)) (a : AgentId) (p : PathBuf) : Prop :=
  forall b q, q ∈ paths_of o b -> overlap q p -> b = a.

Lemma paths_of_insert o a s b :
  paths_of (<[a := s]> o) b = if decide (b = a) then s else paths_of o b.
Proof.
  unfold paths_of. destruct (decide (b = a)) as [->|]; [by rewrite lookup_insert_eq|].
  by rewrite lookup_insert_ne.
Qed.

Lemma paths_of_delete o a b :
  paths_of (delete a o) b = if decide (b = a) then ∅ else paths_of o b.
Proof.
  unfold paths_of. destruct (decide (b = a)) as [->|]; [by rewrite lookup_delete_eq|].
  by rewrite lookup_delete_ne.
Qed.

Lemma index_ok_new : index_ok WriteLeaseManager_new.
Proof.
  constructor; simpl.
  - apply trie_ok_default.
  - intros p a. rewrite owner_at_default. unfold paths_of. rewrite lookup_empty. set_solver.
  - intros p q a b. unfold paths_of. rewrite lookup_empty. set_solver.
  - intros p a. unfold paths_of. rewrite lookup_empty. set_solver.
Qed.

Lemma find_conflict_spec index a p :
  index_ok index ->
  match index_find_conflict index a p with
  | None => free_for (owners index) a p
  | Some (r, b) => exists q, q ∈ paths_of (owners index) b /\ b <> a /\ overlap q p
                     /\ r = q
  end.
Proof.
  intros [Ht Ho _ Hn]. unfold index_find_conflict, trie_find_conflict, path_components.
  destruct (find_conflict_from (root index) a [] p) as [[r b]|] eqn:E.
  - apply find_conflict_sound in E as (q & Hq & Hne & -> & Hov); [|done].
    exists q. apply Ho in Hq. split; [done|]. split; [done|]. split; [done|].
    by eapply reported_normal, Hn.
  - intros b q Hq. apply Ho in Hq. by eapply find_conflict_complete.
Qed.

Lemma index_insert_paths index a p b :
  paths_of (owners (index_insert index a p)) b
  = if decide (b = a) then {[p]} ∪ paths_of (owners index) a else paths_of (owners index) b.
Proof.
  unfold index_insert. case_bool_decide as Hin; simpl; [|apply paths_of_insert].
  destruct (decide (b = a)) as [->|]; [|done]. set_solver.
Qed.

Lemma index_ok_insert index a p :
  index_ok index -> normal_path p -> free_for (owners index) a p ->
  index_ok (index_insert index a p).
Proof.
  intros [Ht Ho He Hn] Hpn Hf. assert (Hp := index_insert_paths index a p).
  unfold index_insert in *. case_bool_decide as Hin; [done|]. constructor; simpl in *.
  - apply trie_ok_insert; [done|]. destruct (owner_at (root index) p) as [b|] eqn:E; [|done].
    apply Ho in E as E'. assert (b = a) as ->; [|done]. apply (Hf b p E'). by left.
  - intros q b. rewrite Hp. unfold path_components. rewrite owner_at_insert.
    destruct (decide (q = p)) as [->|Hqp]; destruct (decide (b = a)) as [->|Hba].
    + split; [set_solver | done].
    + split; [congruence|]. intros Hb. destruct Hba. apply (Hf b p Hb). by left.
    + rewrite Ho. set_solver.
    + apply Ho.
  - intros x y b c. rewrite !Hp.
    destruct (decide (b = a)) as [->|Hb]; destruct (decide (c = a)) as [->|Hc]; [done | | | apply He].
    + rewrite elem_of_union, elem_of_singleton. intros [->|Hx] Hy Hov; [|by apply (He x y)].
      symmetry. apply (Hf c y Hy). by symmetry.
    + rewrite elem_of_union, elem_of_singleton. intros Hx [->|Hy] Hov; [|by apply (He x y)].
      by apply (Hf b x Hx).
  - intros q b. rewrite Hp. destruct (decide (b = a)) as [->|]; [|apply Hn].
    rewrite elem_of_union, elem_of_singleton. intros [->|Hq]; [done | by eapply Hn].
Qed.

(** Claims that do not conflict with others do not conflict after each other. *)
Lemma free_for_insert index a p q :
  free_for (owners index) a q -> free_for (owners (index_insert index a p)) a q.
Proof.
  intros H b x. rewrite index_insert_paths. destruct (decide (b = a)) as [->|]; [done | apply H].
Qed.

Lemma index_ok_insert_all a l index :
  index_ok index -> Forall normal_path l -> Forall (free_for (owners index) a) l ->
  let index' := foldl (fun index path => index_insert index a path) index l in
  index_ok index' /\
  (forall b, paths_of (owners index') b
             = if decide (b = a) then list_to_set l ∪ paths_of (owners index) a
               else paths_of (owners index) b).
Proof.
  revert index. induction l as [|p l IH]; intros index Hok Hn Hf; simpl.
  - split; [done|]. intros b. destruct (decide (b = a)) as [->|]; [set_solver | done].
  - inversion Hf as [|? ? Hp Hl]; subst. inversion Hn as [|? ? Hpn Hln]; subst.
    destruct (IH (index_insert index a p)) as [IH1 IH2].
    { by apply index_ok_insert. }
    { done. }
    { eapply Forall_impl; [exact Hl|]. intros q Hq. by apply free_for_insert. }
    split; [done|]. intros b. rewrite IH2, !index_insert_paths.
    destruct (decide (b = a)); [|done]. rewrite decide_True by done. set_solver.
Qed.

(** Removing the leases of one agent from the trie. *)
Lemma remove_all_ok a l r :
  NoDup l -> trie_ok r -> (forall p, p ∈ l -> owner_at r p = Some a) ->
  let r' := foldl (fun r path => (trie_remove r a (path_components path)).2) r l in
  trie_ok r' /\ (forall q, owner_at r' q = if decide (q ∈ l) then None else owner_at r q).
Proof.
  revert r. induction l as [|p l IH]; intros r Hnd Hr Hl; cbn [foldl].
  - split; [done|]. intros q. by rewrite decide_False by (apply not_elem_of_nil).
  - apply NoDup_cons in Hnd as [Hp Hnd].
    destruct (IH (trie_remove r a p).2) as [IH1 IH2]; [done | | |].
    + apply trie_ok_remove; [done|]. apply Hl. by left.
    + intros q Hq. rewrite owner_at_remove, decide_False by (intros ->; done).
      apply Hl. by right.
    + split; [done|]. intros q. rewrite IH2, owner_at_remove.
      destruct (decide (q ∈ l)); [by rewrite decide_True by (by right)|].
      destruct (decide (q = p)) as [->|]; [by rewrite decide_True by (by left)|].
      rewrite decide_False; [done|]. intros [|]%elem_of_cons; done.
Qed.

Lemma index_ok_release index a : index_ok index -> index_ok (index_release index a).
Proof.
  intros [Ht Ho He Hn]. unfold index_release. destruct (owners index !! a) as [s|] eqn:Ea; [|done].
  assert (Hs : paths_of (owners index) a = s) by (unfold paths_of; by rewrite Ea).
  destruct (remove_all_ok a (elements s) (root index)) as [H1 H2].
  - apply NoDup_elements.
  - done.
  - intros p Hp. apply Ho. rewrite Hs. by apply elem_of_elements.
  - constructor; simpl; [done | | |].
    + intros q b. rewrite H2, paths_of_delete.
      destruct (decide (q ∈ elements s)) as [Hq|Hq]; destruct (decide (b = a)) as [->|Hb].
      * set_solver.
      * split; [done|]. intros Hin. exfalso. apply Hb. apply Ho in Hin.
        rewrite elem_of_elements, <- Hs in Hq. apply Ho in Hq. congruence.
      * rewrite Ho, Hs. rewrite elem_of_elements in Hq. set_solver.
      * apply Ho.
    + intros p q b c. rewrite !paths_of_delete.
      destruct (decide (b = a)); [set_solver|]. destruct (decide (c = a)); [set_solver | apply He].
    + intros p b. rewrite paths_of_delete. destruct (decide (b = a)); [set_solver | apply Hn].
Qed.

Lemma first_conflict_None index a l :
  index_ok index -> first_conflict index a l = None -> Forall (free_for (owners index) a) l.
Proof.
  intros Hok. unfold first_conflict. induction l as [|p l IH]; simpl; [done|].
  assert (H := find_conflict_spec index a p Hok).
  destruct (index_find_conflict index a p) as [[r b]|]; simpl; [done | auto].
Qed.

Lemma first_conflict_Some index a l p r b :
  index_ok index -> first_conflict index a l = Some (p, (r, b)) ->
  p ∈ l /\ exists q, q ∈ paths_of (owners index) b /\ b <> a /\ overlap q p /\ r = q.
Proof.
  intros Hok. unfold first_conflict. induction l as [|x l IH]; simpl; [done|].
  assert (H := find_conflict_spec index a x Hok).
  destruct (index_find_conflict index a x) as [[r' b']|]; simpl.
  - intros [= -> -> ->]. split; [by left | done].
  - intros [Hin Hq]%IH. split; [by right | done].
Qed.

Lemma normalized_normal paths : Forall normal_path (map normalize_path paths).
Proof. induction paths; simpl; constructor; [apply normalize_path_normal | done]. Qed.

(** ** The manager as a state machine *)

Inductive lease_step : LeaseIndex -> LeaseIndex -> Prop :=
| lease_claim index a paths : lease_step index (claim index a paths).2
| lease_release index a : lease_step index (release index a).

Lemma claim_ok index a paths : index_ok index -> index_ok (claim index a paths).2.
Proof.
  intros Hok. unfold claim.
  destruct (first_conflict index a (map normalize_path paths)) as [[p [r b]]|] eqn:E; [done|].
  simpl. apply index_ok_insert_all; [done | apply normalized_normal | by apply first_conflict_None].
Qed.

Lemma lease_reachable_ok index : rtc lease_step WriteLeaseManager_new index -> index_ok index.
Proof.
  intros H. assert (H0 := index_ok_new). revert H0.
  induction H as [|x y z Hs _ IH]; [done|]. intros Hx. apply IH.
  destruct Hs; [by apply claim_ok | by apply index_ok_release].
Qed.

(** ** Properties *)

(** C20.  Mutual exclusion: in every state the manager can reach, no path leased to
    one agent lies at, above or below a path leased to another. *)
Theorem leases_mutually_exclusive index a b p q :
  rtc lease_step WriteLeaseManager_new index ->
  p ∈ paths_of (owners index) a -> q ∈ paths_of (owners index) b -> overlap p q -> a = b.
Proof. intros H%lease_reachable_ok. by apply (index_exclusive index H). Qed.

(** C21.  [claim] implements its contract through the trie: it succeeds exactly when
    no requested path overlaps another agent's lease, and then adds precisely the
    normalized paths to the caller's leases; otherwise the state is unchanged and
    the conflict names a requested path, its real foreign owner and the lease that
    overlaps. *)
Theorem claim_refines_owners index a paths :
  rtc lease_step WriteLeaseManager_new index ->
  match claim index a paths with
  | (Ok _, index') =>
      Forall (free_for (owners index) a) (map normalize_path paths)
      /\ (forall b, paths_of (owners index') b =
            if decide (b = a)
            then list_to_set (map normalize_path paths) ∪ paths_of (owners index) a
            else paths_of (owners index) b)
  | (Err c, index') =>
      index' = index
      /\ exists p q, p ∈ map normalize_path paths
           /\ q ∈ paths_of (owners index) (conflict_owner c)
           /\ conflict_owner c <> a /\ overlap q p
           /\ conflict_requested c = path_display p /\ conflict_owner_path c = path_display q
  end.
Proof.
  intros Hok%lease_reachable_ok. unfold claim.
  destruct (first_conflict index a (map normalize_path paths)) as [[p [r b]]|] eqn:E.
  - split; [done|]. apply first_conflict_Some in E as (Hin & q & Hq & Hne & Hov & ->); [|done].
    by exists p, q.
  - apply first_conflict_None in E; [|done]. split; [done|].
    by apply index_ok_insert_all; [| apply normalized_normal|].
Qed.

(** Releasing an agent drops exactly its own leases. *)
Theorem release_drops_own_leases index a :
  rtc lease_step WriteLeaseManager_new index ->
  rtc lease_step WriteLeaseManager_new (release index a)
  /\ (forall b, paths_of (owners (release index a)) b
        = if decide (b = a) then ∅ else paths_of (owners index) b)
  /\ (forall p b, owner_at (root (release index a)) p = Some b
        <-> b <> a /\ p ∈ paths_of (owners index) b).
Proof.
  intros Hr. assert (Hok := lease_reachable_ok index Hr).
  assert (Hp : forall b, paths_of (owners (release index a)) b
        = if decide (b = a) then ∅ else paths_of (owners index) b).
  { intros b. unfold release, index_release. destruct (owners index !! a) eqn:Ea; simpl.
    - apply paths_of_delete.
    - destruct (decide (b = a)) as [->|]; [|done]. unfold paths_of. by rewrite Ea. }
  split; [|split; [done|]].
  - eapply rtc_r; [exact Hr|]. constructor.
  - intros p b. rewrite (index_owners _ (index_ok_release index a Hok)).
    fold (release index a). rewrite Hp. destruct (decide (b = a)); set_solver.
Qed.

(** The write guard admits a write by an agent exactly when no path it touches
    overlaps a lease of another agent; a caller without an agent id is not
    constrained. *)
Theorem write_guard_exact index a paths :
  rtc lease_step WriteLeaseManager_new index ->
  assert_write_paths index None paths = Ok tt
  /\ (assert_write_paths index (Some a) paths = Ok tt
      <-> Forall (free_for (owners index) a) (map normalize_path paths)).
Proof.
  intros Hok%lease_reachable_ok. split; [done|]. simpl.
  destruct (first_conflict index a (map normalize_path paths)) as [[p [r b]]|] eqn:E.
  - split; [done|]. intros Hf. apply first_conflict_Some in E as (Hin & q & Hq & Hne & Hov & _); [|done].
    rewrite Forall_forall in Hf. destruct Hne. by apply (Hf p Hin b q).
  - split; [|done]. intros _. by apply first_conflict_None.
Qed.

(** ** Concrete leases *)

Definition demo_index : LeaseIndex :=
  (claim WriteLeaseManager_new "agent_a" [["/"; "repo"; "."; "src"]]).2.

Lemma demo_reachable : rtc lease_step WriteLeaseManager_new demo_index.
Proof. apply rtc_once, lease_claim. Defined.

Lemma leases_mutually_exclusive_witness : "agent_a" = "agent_a".
Proof.
  apply (leases_mutually_exclusive demo_index "agent_a" "agent_a"
           ["/"; "repo"; "src"] ["/"; "repo"; "src"]);
    [apply demo_reachable | | | by left];
    apply (bool_decide_unpack _); vm_compute; exact I.
Defined.

Lemma claim_refines_owners_witness :
  exists p q, p ∈ map normalize_path [["/"; "repo"; "src"; "lib.rs"]]
    /\ q ∈ paths_of (owners demo_index) "agent_a" /\ "agent_a" <> "agent_b" /\ overlap q p
    /\ "/repo/src/lib.rs" = path_display p /\ "/repo/src" = path_display q.
Proof.
  exact (proj2 (claim_refines_owners demo_index "agent_b" [["/"; "repo"; "src"; "lib.rs"]]
                  demo_reachable)).
Defined.

Lemma release_drops_own_leases_witness :
  paths_of (owners (release demo_index "agent_a")) "agent_a" = ∅.
Proof.
  rewrite (proj1 (proj2 (release_drops_own_leases demo_index "agent_a" demo_reachable))).
  reflexivity.
Defined.

Lemma write_guard_exact_witness :
  assert_write_paths demo_index None [["/"; "repo"]] = Ok tt
  /\ (assert_write_paths demo_index (Some "agent_b") [["/"; "repo"]] = Ok tt
      <-> Forall (free_for (owners demo_index) "agent_b") (map normalize_path [["/"; "repo"]])).
Proof. apply write_guard_exact, demo_reachable. Defined.
