(* ===== verification/HookEffects.v ===== *)
(** * Hook effects

    Models the pure part of [crates/runtime/src/runtime/hook_effects.rs]: the
    permission check of each effect a hook returns ([validate_effect]), how the
    effects of a batch accumulate ([apply_hook_effect]) and the message patches.
    The id of a message a hook appends is an argument. *)

From Stdlib Require Import String.
From stdpp Require Import base list gmap strings.
From Stdlib Require Import Lia.
From S2P Require Import Prelude Message Events Errors.

Section HookEffects.
Context {J : SerdeJson}.

(* crates/runtime/src/runtime/hook_effects.rs, TranscriptMutationTarget *)
Inductive TranscriptMutationTarget :=
| Target_MessageId (message_id : MessageId)
| Target_LastOfRole (role : MessageRole).

(* crates/runtime/src/runtime/hook_effects.rs, TranscriptMutation *)
Inductive TranscriptMutation :=
| Mutate_Replace (target : TranscriptMutationTarget) (message : Message)
| Mutate_Patch (target : TranscriptMutationTarget) (patch : MessagePatch)
| Mutate_Remove (target : TranscriptMutationTarget).

(* crates/runtime/src/runtime/hook_effects.rs, HookUiEvent *)
Inductive HookUiEvent :=
| Ui_Toast (variant : string) (message : string)
| Ui_PromptAppend (text : string) (only_when_empty : bool).

(* crates/runtime/src/runtime/hook_effects.rs, AppliedHookEffects *)
Record AppliedHookEffects := mkAppliedHookEffects {
  current_message : option Message;
  appended_messages : list Message;
  transcript_mutations : list TranscriptMutation;
  additional_context : list string;
  injected_instructions : list string;
  permission_decision : option PermissionDecision;
  permission_behavior : option PermissionBehavior;
  gate_decision : option GateDecision;
  gate_reason : option string;
  stop_reason : option string;
  rewritten_tool_arguments : option Value;
  ui_events : list HookUiEvent
}.

(** [AppliedHookEffects { current_message, ..AppliedHookEffects::default() }]. *)
Definition AppliedHookEffects_with (current : option Message) : AppliedHookEffects :=
  mkAppliedHookEffects current [] [] [] [] None None None None None None [].

(* crates/runtime/src/runtime/hook_effects.rs, AppliedHookEffects::blocked_reason *)
Definition blocked_reason (a : AppliedHookEffects) (default_reason : string) : option string :=
  match gate_decision a with
  | Some Gate_Block =>
      Some (default default_reason (opt_or (gate_reason a) (stop_reason a)))
  | _ => stop_reason a
  end.

(* crates/runtime/src/runtime/hook_effects.rs, merge_permission_decision *)
Definition merge_permission_decision (current : option PermissionDecision)
    (next : PermissionDecision) : PermissionDecision :=
  match current, next with
  | Some Decision_Deny, _ => Decision_Deny
  | _, Decision_Deny => Decision_Deny
  | Some Decision_Ask, _ => Decision_Ask
  | _, Decision_Ask => Decision_Ask
  | _, _ => Decision_Allow
  end.

(* crates/runtime/src/runtime/hook_effects.rs, merge_permission_behavior *)
Definition merge_permission_behavior (current : option PermissionBehavior)
    (next : PermissionBehavior) : PermissionBehavior :=
  match current, next with
  | Some Behavior_Deny, _ => Behavior_Deny
  | _, Behavior_Deny => Behavior_Deny
  | _, _ => Behavior_Allow
  end.

(* crates/runtime/src/runtime/hook_effects.rs, merge_gate_decision *)
Definition merge_gate_decision (current : option GateDecision) (next : GateDecision)
    : GateDecision :=
  match current, next with
  | Some Gate_Block, _ => Gate_Block
  | _, Gate_Block => Gate_Block
  | _, _ => Gate_Allow
  end.

(** The prefix of every message about a hook. *)
Definition hook_says (registration : HookRegistration) (text : string) : RuntimeError :=
  hook_error ("hook " +:+ bt +:+ hook_name registration +:+ bt +:+ " " +:+ text).

(* crates/runtime/src/runtime/hook_effects.rs, ensure_message_mutation_allowed *)
Definition ensure_message_mutation_allowed (registration : HookRegistration)
    (effect_policy : option HookEffectPolicy) : result unit RuntimeError :=
  match default Mutation_Deny (effects_message_mutation <$> effect_policy) with
  | Mutation_Allow => Ok tt
  | Mutation_ReviewRequired =>
      Err (hook_says registration "requires host review for message mutation")
  | Mutation_Deny =>
      Err (hook_says registration "is not granted message mutation permission")
  end.

#[global] Instance HookHandlerKind_eq_dec : EqDecision HookHandlerKind.
Proof. solve_decision. Defined.

(* crates/runtime/src/runtime/hook_effects.rs, validate_effect *)
Definition validate_effect (registration : HookRegistration) (effect : HookEffect)
    : result unit RuntimeError :=
  let kind := handler_kind (hook_handler registration) in
  let host_defined := bool_decide (hook_execution registration = None) in
  let effect_policy := exec_effects <$> hook_execution registration in
  let require (allowed : HookEffectPolicy -> bool) (text : string) : result unit RuntimeError :=
    if negb host_defined && negb (from_option allowed false effect_policy)
    then Err (hook_says registration text) else Ok tt in
  match effect with
  | Effect_AppendMessage _ _ =>
      if negb host_defined then ensure_message_mutation_allowed registration effect_policy
      else Ok tt
  | Effect_ReplaceMessage _ _ | Effect_PatchMessage _ _ | Effect_RemoveMessage _ =>
      if negb host_defined && negb (bool_decide (kind = HandlerKind_Wasm))
      then Err (hook_says registration "uses message mutation reserved for wasm hooks")
      else if negb host_defined then ensure_message_mutation_allowed registration effect_policy
      else Ok tt
  | Effect_AddContext _ =>
      require effects_allow_context_injection "is not allowed to inject additional context"
  | Effect_InjectInstruction _ =>
      require effects_allow_instruction_injection "is not allowed to inject instructions"
  | Effect_RewriteToolArgs _ _ =>
      require effects_allow_tool_arg_rewrite "is not allowed to rewrite tool args"
  | Effect_SetPermissionDecision _ _ | Effect_SetPermissionBehavior _ _ =>
      require effects_allow_permission_decision "is not allowed to influence permission decisions"
  | Effect_SetGateDecision _ _ | Effect_Stop _ =>
      require effects_allow_gate_decision "is not allowed to gate execution"
  | Effect_ShowToast _ _ | Effect_AppendPrompt _ _ =>
      require effects_allow_tui_event_emission "is not allowed to emit tui events"
  | Effect_Elicitation _ _ => Ok tt
  end.

(** The body shared by the two patch sites: role, then replaced parts, then
    appended parts. *)
Definition patch_message (message : Message) (patch : MessagePatch) : Message :=
  mkMessage (default (msg_role message) (patch_role patch))
    (default (msg_parts message) (patch_replace_parts patch) ++ patch_append_parts patch)
    (msg_name message) (msg_id message) (msg_metadata message).

(* crates/runtime/src/runtime/hook_effects.rs, apply_message_replacement *)
Definition apply_message_replacement (current : option Message)
    (mutations : list TranscriptMutation) (selector : MessageSelector) (message : Message)
    : option Message * list TranscriptMutation :=
  match selector with
  | Selector_Current => (Some message, mutations)
  | Selector_MessageId id => (current, mutations ++ [Mutate_Replace (Target_MessageId id) message])
  | Selector_LastOfRole role =>
      (current, mutations ++ [Mutate_Replace (Target_LastOfRole role) message])
  end.

(* crates/runtime/src/runtime/hook_effects.rs, apply_message_patch *)
Definition apply_message_patch (current : option Message)
    (mutations : list TranscriptMutation) (selector : MessageSelector) (patch : MessagePatch)
    : result (option Message * list TranscriptMutation) RuntimeError :=
  match selector with
  | Selector_Current =>
      match current with
      | None => Err (hook_error "hook attempted to patch a missing current message")
      | Some message => Ok (Some (patch_message message patch), mutations)
      end
  | Selector_MessageId id =>
      Ok (current, mutations ++ [Mutate_Patch (Target_MessageId id) patch])
  | Selector_LastOfRole role =>
      Ok (current, mutations ++ [Mutate_Patch (Target_LastOfRole role) patch])
  end.

(* crates/runtime/src/runtime/hook_effects.rs, apply_message_removal *)
Definition apply_message_removal (current : option Message)
    (mutations : list TranscriptMutation) (selector : MessageSelector)
    : option Message * list TranscriptMutation :=
  match selector with
  | Selector_Current => (None, mutations)
  | Selector_MessageId id => (current, mutations ++ [Mutate_Remove (Target_MessageId id)])
  | Selector_LastOfRole role => (current, mutations ++ [Mutate_Remove (Target_LastOfRole role)])
  end.

(* crates/runtime/src/runtime/hook_effects.rs, describe_role *)
Definition describe_role (role : MessageRole) : string :=
  match role with
  | Role_System => "system" | Role_User => "user"
  | Role_Assistant => "assistant" | Role_Tool => "tool"
  end.

(* crates/runtime/src/runtime/hook_effects.rs, require_non_empty_ui_text *)
Definition require_non_empty_ui_text (registration : HookRegistration) (field text : string)
    : result string RuntimeError :=
  if str_is_empty (trim text) then Err (hook_says registration ("emitted an empty " +:+ field))
  else Ok text.

(* crates/runtime/src/runtime/hook_effects.rs, normalize_toast_variant *)
Definition normalize_toast_variant (registration : HookRegistration) (variant : string)
    : result string RuntimeError :=
  let normalized := to_ascii_lowercase (trim variant) in
  if bool_decide (normalized ∈ ["info"; "success"; "warning"; "error"]) then Ok normalized
  else Err (hook_says registration ("emitted unsupported toast variant " +:+ bt +:+ variant +:+ bt)).

(** Record updates of the accumulator. *)
Definition set_messages (a : AppliedHookEffects) (p : option Message * list TranscriptMutation)
    : AppliedHookEffects :=
  mkAppliedHookEffects p.1 (appended_messages a) p.2 (additional_context a)
    (injected_instructions a) (permission_decision a) (permission_behavior a) (gate_decision a)
    (gate_reason a) (stop_reason a) (rewritten_tool_arguments a) (ui_events a).

Definition push_message (a : AppliedHookEffects) (m : Message) : AppliedHookEffects :=
  mkAppliedHookEffects (current_message a) (appended_messages a ++ [m]) (transcript_mutations a)
    (additional_context a) (injected_instructions a) (permission_decision a)
    (permission_behavior a) (gate_decision a) (gate_reason a) (stop_reason a)
    (rewritten_tool_arguments a) (ui_events a).

Definition push_context (a : AppliedHookEffects) (text : string) : AppliedHookEffects :=
  mkAppliedHookEffects (current_message a) (appended_messages a) (transcript_mutations a)
    (additional_context a ++ [text]) (injected_instructions a) (permission_decision a)
    (permission_behavior a) (gate_decision a) (gate_reason a) (stop_reason a)
    (rewritten_tool_arguments a) (ui_events a).

Definition push_instruction (a : AppliedHookEffects) (text : string) : AppliedHookEffects :=
  mkAppliedHookEffects (current_message a) (appended_messages a) (transcript_mutations a)
    (additional_context a) (injected_instructions a ++ [text]) (permission_decision a)
    (permission_behavior a) (gate_decision a) (gate_reason a) (stop_reason a)
    (rewritten_tool_arguments a) (ui_events a).

Definition set_decisions (a : AppliedHookEffects) (d : option PermissionDecision)
    (b : option PermissionBehavior) (g : option GateDecision) (reason : option string)
    : AppliedHookEffects :=
  mkAppliedHookEffects (current_message a) (appended_messages a) (transcript_mutations a)
    (additional_context a) (injected_instructions a) d b g
    (opt_or (gate_reason a) reason) (stop_reason a) (rewritten_tool_arguments a) (ui_events a).

Definition set_rewrite (a : AppliedHookEffects) (arguments : Value) : AppliedHookEffects :=
  mkAppliedHookEffects (current_message a) (appended_messages a) (transcript_mutations a)
    (additional_context a) (injected_instructions a) (permission_decision a)
    (permission_behavior a) (gate_decision a) (gate_reason a) (stop_reason a)
    (Some arguments) (ui_events a).

Definition push_ui (a : AppliedHookEffects) (e : HookUiEvent) : AppliedHookEffects :=
  mkAppliedHookEffects (current_message a) (appended_messages a) (transcript_mutations a)
    (additional_context a) (injected_instructions a) (permission_decision a)
    (permission_behavior a) (gate_decision a) (gate_reason a) (stop_reason a)
    (rewritten_tool_arguments a) (ui_events a ++ [e]).

Definition set_stop (a : AppliedHookEffects) (reason : string) : AppliedHookEffects :=
  mkAppliedHookEffects (current_message a) (appended_messages a) (transcript_mutations a)
    (additional_context a) (injected_instructions a) (permission_decision a)
    (permission_behavior a) (gate_decision a) (gate_reason a)
    (opt_or (stop_reason a) (Some reason)) (rewritten_tool_arguments a) (ui_events a).

(* crates/runtime/src/runtime/hook_effects.rs, apply_hook_effect *)
Definition apply_hook_effect (fresh_id : MessageId) (a : AppliedHookEffects)
    (registration : HookRegistration) (current_tool_name : option ToolName) (effect : HookEffect)
    : result AppliedHookEffects RuntimeError :=
  _ <-? validate_effect registration effect;
  match effect with
  | Effect_AppendMessage role parts => Ok (push_message a (Message_new fresh_id role parts))
  | Effect_ReplaceMessage selector message =>
      Ok (set_messages a
            (apply_message_replacement (current_message a) (transcript_mutations a) selector message))
  | Effect_PatchMessage selector patch =>
      p <-? apply_message_patch (current_message a) (transcript_mutations a) selector patch;
      Ok (set_messages a p)
  | Effect_RemoveMessage selector =>
      Ok (set_messages a
            (apply_message_removal (current_message a) (transcript_mutations a) selector))
  | Effect_AddContext text => Ok (push_context a text)
  | Effect_SetPermissionDecision decision reason =>
      Ok (set_decisions a (Some (merge_permission_decision (permission_decision a) decision))
            (permission_behavior a) (gate_decision a) reason)
  | Effect_SetPermissionBehavior behavior reason =>
      Ok (set_decisions a (permission_decision a)
            (Some (merge_permission_behavior (permission_behavior a) behavior))
            (gate_decision a) reason)
  | Effect_SetGateDecision decision reason =>
      Ok (set_decisions a (permission_decision a) (permission_behavior a)
            (Some (merge_gate_decision (gate_decision a) decision)) reason)
  | Effect_Elicitation _ _ => Ok a
  | Effect_RewriteToolArgs tool_name arguments =>
      match current_tool_name with
      | None =>
          Err (hook_says registration "attempted to rewrite tool args outside tool execution")
      | Some current =>
          if bool_decide (tool_name = current) then Ok (set_rewrite a arguments) else Ok a
      end
  | Effect_InjectInstruction text => Ok (push_instruction a text)
  | Effect_ShowToast variant message =>
      variant <-? normalize_toast_variant registration variant;
      message <-? require_non_empty_ui_text registration "toast message" message;
      Ok (push_ui a (Ui_Toast variant message))
  | Effect_AppendPrompt text only_when_empty =>
      text <-? require_non_empty_ui_text registration "prompt append text" text;
      Ok (push_ui a (Ui_PromptAppend text only_when_empty))
  | Effect_Stop reason => Ok (set_stop a reason)
  end.

(** [for effect in invocation.output.effects { apply_hook_effect(...)? }], each
    effect with the id its message would get. *)
Fixpoint apply_effects (a : AppliedHookEffects) (registration : HookRegistration)
    (current_tool_name : option ToolName) (effects : list (MessageId * HookEffect))
    : result AppliedHookEffects RuntimeError :=
  match effects with
  | [] => Ok a
  | (fresh_id, effect) :: rest =>
      a' <-? apply_hook_effect fresh_id a registration current_tool_name effect;
      apply_effects a' registration current_tool_name rest
  end.

(** ** How decisions combine *)

(** [Deny] over [Ask] over [Allow]. *)
Definition decision_rank (d : PermissionDecision) : nat :=
  match d with Decision_Allow => 1 | Decision_Ask => 2 | Decision_Deny => 3 end.
Definition decision_level (o : option PermissionDecision) : nat := from_option decision_rank 0 o.
Definition behavior_level (o : option PermissionBehavior) : nat :=
  match o with None => 0 | Some Behavior_Allow => 1 | Some Behavior_Deny => 2 end.
Definition gate_level (o : option GateDecision) : nat :=
  match o with None => 0 | Some Gate_Allow => 1 | Some Gate_Block => 2 end.

Definition effect_decision (e : HookEffect) : nat :=
  match e with Effect_SetPermissionDecision d _ => decision_rank d | _ => 0 end.
Definition effect_behavior (e : HookEffect) : nat :=
  match e with Effect_SetPermissionBehavior b _ => behavior_level (Some b) | _ => 0 end.
Definition effect_gate (e : HookEffect) : nat :=
  match e with Effect_SetGateDecision g _ => gate_level (Some g) | _ => 0 end.

Definition list_max_by {A} (f : A -> nat) (l : list A) : nat := foldr (fun x m => Nat.max (f x) m) 0%nat l.

Lemma merge_permission_decision_max c n :
  decision_rank (merge_permission_decision c n) = Nat.max (decision_level c) (decision_rank n).
Proof. by destruct c as [[]|], n. Qed.

Lemma merge_permission_behavior_max c n :
  behavior_level (Some (merge_permission_behavior c n))
  = Nat.max (behavior_level c) (behavior_level (Some n)).
Proof. by destruct c as [[]|], n. Qed.

Lemma merge_gate_decision_max c n :
  gate_level (Some (merge_gate_decision c n)) = Nat.max (gate_level c) (gate_level (Some n)).
Proof. by destruct c as [[]|], n. Qed.

(** The three levels of an accumulator. *)
Definition levels (a : AppliedHookEffects) : nat * nat * nat :=
  (decision_level (permission_decision a), behavior_level (permission_behavior a),
   gate_level (gate_decision a)).

Definition effect_levels (e : HookEffect) : nat * nat * nat :=
  (effect_decision e, effect_behavior e, effect_gate e).

Definition max3 (x y : nat * nat * nat) : nat * nat * nat :=
  (Nat.max x.1.1 y.1.1, Nat.max x.1.2 y.1.2, Nat.max x.2 y.2).

Lemma max3_0_r x : max3 x (0, 0, 0)%nat = x.
Proof. destruct x as [[x y] z]. unfold max3. simpl. by rewrite !Nat.max_0_r. Qed.

(** An effect that succeeds raises each decision to the maximum and touches
    nothing else of them. *)
Lemma apply_hook_effect_levels i a reg tool e a' :
  apply_hook_effect i a reg tool e = Ok a' -> levels a' = max3 (levels a) (effect_levels e).
Proof.
  unfold apply_hook_effect. destruct (validate_effect reg e); simpl; [|done].
  destruct e as [| | | | |d r|b r|g r| | | | | |]; simpl; intros H;
    try (inv_result; repeat (case_match; inv_result); simplify_eq/=;
         change (effect_levels _) with (0, 0, 0)%nat; by rewrite max3_0_r).
  - injection H as <-. unfold levels, max3. simpl.
    by rewrite merge_permission_decision_max, !Nat.max_0_r.
  - injection H as <-. unfold levels, max3. cbn -[behavior_level].
    by rewrite merge_permission_behavior_max, !Nat.max_0_r.
  - injection H as <-. unfold levels, max3. cbn -[gate_level].
    by rewrite merge_gate_decision_max, !Nat.max_0_r.
Qed.

Lemma apply_effects_levels effects a reg tool a' :
  apply_effects a reg tool effects = Ok a' ->
  levels a' = foldl max3 (levels a) (effect_levels <$> effects.*2).
Proof.
  revert a. induction effects as [|[i e] effects IH]; intros a; simpl; [by intros [= <-]|].
  destruct (apply_hook_effect i a reg tool e) as [b|] eqn:E; simpl; [|done].
  intros H%IH. by rewrite H, (apply_hook_effect_levels _ _ _ _ _ _ E).
Qed.

Lemma foldl_max3_ge l x k :
  let r := foldl max3 x l in
  ((k <= r.1.1)%nat <-> (k <= x.1.1)%nat \/ Exists (fun y => k <= y.1.1)%nat l)
  /\ ((k <= r.1.2)%nat <-> (k <= x.1.2)%nat \/ Exists (fun y => k <= y.1.2)%nat l)
  /\ ((k <= r.2)%nat <-> (k <= x.2)%nat \/ Exists (fun y => k <= y.2)%nat l).
Proof.
  revert x. induction l as [|y l IH]; intros x; cbn [foldl].
  - rewrite !Exists_nil. tauto.
  - rewrite !Exists_cons. destruct (IH (max3 x y)) as (-> & -> & ->). unfold max3. simpl.
    repeat split; intros; try lia; intuition lia.
Qed.

Lemma Exists_fmap_iff {A B} (P : B -> Prop) (f : A -> B) l :
  Exists P (f <$> l) <-> exists x, x ∈ l /\ P (f x).
Proof.
  rewrite Exists_exists. split.
  - intros (y & (x & -> & Hx)%list_elem_of_fmap & Hy). eauto.
  - intros (x & Hx & Hy). exists (f x). split; [|done]. apply list_elem_of_fmap. eauto.
Qed.

Lemma decision_level_top o : (3 <= decision_level o)%nat <-> o = Some Decision_Deny.
Proof. destruct o as [[]|]; simpl; split; intros; try done; lia. Qed.

Lemma behavior_level_top o : (2 <= behavior_level o)%nat <-> o = Some Behavior_Deny.
Proof. destruct o as [[]|]; simpl; split; intros; try done; lia. Qed.

Lemma gate_level_top o : (2 <= gate_level o)%nat <-> o = Some Gate_Block.
Proof. destruct o as [[]|]; simpl; split; intros; try done; lia. Qed.

Lemma blocked_reason_iff a d :
  is_Some (blocked_reason a d) <-> gate_decision a = Some Gate_Block \/ is_Some (stop_reason a).
Proof.
  unfold blocked_reason. destruct (gate_decision a) as [[]|]; split;
    intros; try (by right); try (by left); try (by eexists); by intuition.
Qed.

Lemma stop_reason_effect i a reg tool e a' :
  apply_hook_effect i a reg tool e = Ok a' ->
  (is_Some (stop_reason a') <-> is_Some (stop_reason a) \/ exists r, e = Effect_Stop r).
Proof.
  unfold apply_hook_effect. destruct (validate_effect reg e); simpl; [|done].
  intros H; destruct e; inv_result; repeat (case_match; inv_result); simplify_eq/=;
    try (split; [by left | by intros [?|[? ?]]]).
  split; [intros _; right; by eexists|]. intros _. by destruct (stop_reason a); eexists.
Qed.

Lemma stop_reason_effects effects a reg tool a' :
  apply_effects a reg tool effects = Ok a' ->
  (is_Some (stop_reason a') <-> is_Some (stop_reason a) \/ exists r, Effect_Stop r ∈ effects.*2).
Proof.
  revert a. induction effects as [|[i e] effects IH]; intros a; simpl.
  { intros [= <-]. split; [by left|]. intros [?|[r Hr]]; [done | by inversion Hr]. }
  destruct (apply_hook_effect i a reg tool e) as [b|] eqn:E; simpl; [|done].
  intros H%IH. rewrite H, (stop_reason_effect _ _ _ _ _ _ E). split.
  - intros [[Hs|[r ->]]|[r Hr]]; [by left | right; exists r; by left | right; exists r; by right].
  - intros [Hs|[r [<-|Hr]%elem_of_cons]]; eauto.
Qed.

(** What one effect of a hook with an execution policy can change. *)
Definition respects (p : HookEffectPolicy) (wasm : bool) (a a' : AppliedHookEffects) : Prop :=
  (effects_message_mutation p <> Mutation_Allow -> appended_messages a' = appended_messages a)
  /\ (effects_message_mutation p <> Mutation_Allow \/ wasm = false ->
      current_message a' = current_message a
      /\ transcript_mutations a' = transcript_mutations a)
  /\ (effects_allow_context_injection p = false -> additional_context a' = additional_context a)
  /\ (effects_allow_instruction_injection p = false ->
      injected_instructions a' = injected_instructions a)
  /\ (effects_allow_tool_arg_rewrite p = false ->
      rewritten_tool_arguments a' = rewritten_tool_arguments a)
  /\ (effects_allow_permission_decision p = false ->
      permission_decision a' = permission_decision a
      /\ permission_behavior a' = permission_behavior a)
  /\ (effects_allow_gate_decision p = false ->
      gate_decision a' = gate_decision a /\ stop_reason a' = stop_reason a)
  /\ (effects_allow_tui_event_emission p = false -> ui_events a' = ui_events a).

#[global] Instance respects_preorder p wasm : PreOrder (respects p wasm).
Proof.
  split; [by intros a|]. intros a b c Hab Hbc. unfold respects in *. intuition congruence.
Qed.

Definition is_wasm (reg : HookRegistration) : bool :=
  bool_decide (handler_kind (hook_handler reg) = HandlerKind_Wasm).

Lemma validate_plugin reg x e :
  hook_execution reg = Some x -> validate_effect reg e = Ok tt ->
  let p := exec_effects x in
  match e with
  | Effect_AppendMessage _ _ => effects_message_mutation p = Mutation_Allow
  | Effect_ReplaceMessage _ _ | Effect_PatchMessage _ _ | Effect_RemoveMessage _ =>
      effects_message_mutation p = Mutation_Allow /\ is_wasm reg = true
  | Effect_AddContext _ => effects_allow_context_injection p = true
  | Effect_InjectInstruction _ => effects_allow_instruction_injection p = true
  | Effect_RewriteToolArgs _ _ => effects_allow_tool_arg_rewrite p = true
  | Effect_SetPermissionDecision _ _ | Effect_SetPermissionBehavior _ _ =>
      effects_allow_permission_decision p = true
  | Effect_SetGateDecision _ _ | Effect_Stop _ => effects_allow_gate_decision p = true
  | Effect_ShowToast _ _ | Effect_AppendPrompt _ _ => effects_allow_tui_event_emission p = true
  | Effect_Elicitation _ _ => True
  end.
Proof.
  intros Hx. unfold validate_effect, ensure_message_mutation_allowed, is_wasm. rewrite Hx.
  rewrite (bool_decide_eq_false_2 (Some x = None)) by done. simpl.
  assert (Hreq : forall (f : HookEffectPolicy -> bool) t,
    (if negb (f (exec_effects x)) then Err (hook_says reg t) else Ok tt) = Ok tt ->
    f (exec_effects x) = true).
  { intros f t. by destruct (f (exec_effects x)). }
  destruct e; try done; try (by apply Hreq); simpl;
    repeat case_bool_decide; simpl; try done; by destruct (effects_message_mutation _).
Qed.

Lemma apply_hook_effect_respects i a reg x tool e a' :
  hook_execution reg = Some x -> apply_hook_effect i a reg tool e = Ok a' ->
  respects (exec_effects x) (is_wasm reg) a a'.
Proof.
  intros Hx. unfold apply_hook_effect.
  destruct (validate_effect reg e) as [[]|] eqn:Ev; simpl; [|done].
  apply (validate_plugin reg x e Hx) in Ev. simpl in Ev. unfold respects.
  destruct e; intros H; inv_result; repeat (case_match; inv_result); simplify_eq/=;
    intuition congruence.
Qed.

(** ** Properties *)

(** Refusals stick: after any successful run of effects, in any order, the
    permission decision is [Deny] exactly if it was before or some effect denied,
    likewise for the permission behaviour and the gate; and execution is blocked
    exactly if it was before or some effect blocked the gate or stopped. *)
Theorem hook_refusals_stick effects a reg tool a' :
  apply_effects a reg tool effects = Ok a' ->
  (permission_decision a' = Some Decision_Deny <->
     permission_decision a = Some Decision_Deny
     \/ exists r, Effect_SetPermissionDecision Decision_Deny r ∈ effects.*2)
  /\ (permission_behavior a' = Some Behavior_Deny <->
     permission_behavior a = Some Behavior_Deny
     \/ exists r, Effect_SetPermissionBehavior Behavior_Deny r ∈ effects.*2)
  /\ (gate_decision a' = Some Gate_Block <->
     gate_decision a = Some Gate_Block
     \/ exists r, Effect_SetGateDecision Gate_Block r ∈ effects.*2)
  /\ (forall d, is_Some (blocked_reason a' d) <->
     is_Some (blocked_reason a d)
     \/ (exists r, Effect_SetGateDecision Gate_Block r ∈ effects.*2)
     \/ (exists r, Effect_Stop r ∈ effects.*2)).
Proof.
  intros H. assert (Hs := stop_reason_effects _ _ _ _ _ H). apply apply_effects_levels in H.
  set (L := effect_levels <$> effects.*2) in H.
  destruct (foldl_max3_ge L (levels a) 3) as (Hd & _ & _).
  destruct (foldl_max3_ge L (levels a) 2) as (_ & Hb & Hg). rewrite <- H in Hd, Hb, Hg.
  unfold L in Hd, Hb, Hg. rewrite Exists_fmap_iff in Hd, Hb, Hg.
  simpl in Hd, Hb, Hg. rewrite !decision_level_top in Hd. rewrite !behavior_level_top in Hb.
  rewrite !gate_level_top in Hg.
  assert (Hd' : (exists x, x ∈ effects.*2 /\ (3 <= effect_decision x)%nat)
                <-> exists r, Effect_SetPermissionDecision Decision_Deny r ∈ effects.*2).
  { split; [|intros [r Hr]; by exists (Effect_SetPermissionDecision Decision_Deny r)].
    intros (e & Hin & He). destruct e as [| | | | |[]| | | | | | | |]; simpl in He; try lia. eauto. }
  assert (Hb' : (exists x, x ∈ effects.*2 /\ (2 <= effect_behavior x)%nat)
                <-> exists r, Effect_SetPermissionBehavior Behavior_Deny r ∈ effects.*2).
  { split; [|intros [r Hr]; by exists (Effect_SetPermissionBehavior Behavior_Deny r)].
    intros (e & Hin & He). destruct e as [| | | | | |[]| | | | | | |]; simpl in He; try lia. eauto. }
  assert (Hg' : (exists x, x ∈ effects.*2 /\ (2 <= effect_gate x)%nat)
                <-> exists r, Effect_SetGateDecision Gate_Block r ∈ effects.*2).
  { split; [|intros [r Hr]; by exists (Effect_SetGateDecision Gate_Block r)].
    intros (e & Hin & He). destruct e as [| | | | | | |[]| | | | | |]; simpl in He; try lia. eauto. }
  rewrite <- Hd', <- Hb', <- Hg'. split; [done|]. split; [done|]. split; [done|].
  intros d. rewrite !blocked_reason_iff, Hg, Hs. tauto.
Qed.

(** A plugin hook stays within its policy: whatever effects a hook with an
    execution policy returns, a batch that is accepted changes only what the
    policy grants; rewriting or removing messages moreover needs a wasm hook. *)
Theorem plugin_hook_respects_policy effects a reg x tool a' :
  hook_execution reg = Some x ->
  apply_effects a reg tool effects = Ok a' ->
  respects (exec_effects x) (is_wasm reg) a a'.
Proof.
  intros Hx. revert a. induction effects as [|[i e] effects IH]; intros a; simpl.
  { by intros [= <-]. }
  destruct (apply_hook_effect i a reg tool e) as [b|] eqn:E; simpl; [|done].
  intros H%IH. transitivity b; [|done]. by eapply apply_hook_effect_respects.
Qed.

End HookEffects.

(** ** Concrete batches *)

Section Witnesses.
#[local] Existing Instance json_text.

Definition no_effects : HookEffectPolicy :=
  mkHookEffectPolicy Mutation_Deny true false false true false false.

Definition plugin_hook : HookRegistration :=
  mkHookRegistration "guard" HookEvent_PreToolUse None
    (Handler_Prompt (mkPromptHookHandler "check")) None
    (Some (mkHookExecutionPolicy None None [] [] [] HookNetwork_Deny [] no_effects)).

Definition demo_effects : list (MessageId * HookEffect) :=
  [("", Effect_SetPermissionDecision Decision_Deny (Some "no")); ("", Effect_AddContext "note");
   ("", Effect_SetPermissionDecision Decision_Allow None)].

Definition demo_applied : AppliedHookEffects :=
  mkAppliedHookEffects None [] [] ["note"] [] (Some Decision_Deny) None None (Some "no") None None [].

Lemma hook_refusals_stick_witness :
  permission_decision demo_applied = Some Decision_Deny <->
     permission_decision (AppliedHookEffects_with None) = Some Decision_Deny
     \/ exists r, Effect_SetPermissionDecision Decision_Deny r ∈ demo_effects.*2.
Proof.
  apply (hook_refusals_stick demo_effects (AppliedHookEffects_with None) plugin_hook (Some "read")).
  reflexivity.
Defined.

Lemma plugin_hook_respects_policy_witness :
  respects no_effects false (AppliedHookEffects_with None) demo_applied.
Proof.
  apply (plugin_hook_respects_policy demo_effects (AppliedHookEffects_with None) plugin_hook
           (mkHookExecutionPolicy None None [] [] [] HookNetwork_Deny [] no_effects) (Some "read"));
    reflexivity.
Defined.

End Witnesses.
