(* ===== verification/SandboxPolicy.v ===== *)
(** * Sandbox policy

    Models [crates/sandbox/src/policy.rs] (policy data, canonicalization, access
    checks, permission grants) and [crates/runtime/src/permissions.rs] (the store
    of turn and session grants).  The host file system is a parameter:
    [FileSystem] gives [Path::exists], [std::fs::canonicalize] and
    [std::env::current_dir]; [FileSystemLaws] states what they guarantee.  A
    [BTreeSet] of paths is a list kept in [Path]'s order. *)

From Stdlib Require Import String.
From stdpp Require Import base list gmap strings.
From Stdlib Require Import Lia.
From S2P Require Import Prelude BTree Message Errors WriteLease.

(** ** Data *)

(* crates/sandbox/src/policy.rs, SandboxMode *)
Inductive SandboxMode := ReadOnly | WorkspaceWrite | DangerFullAccess.

(* crates/sandbox/src/policy.rs, FilesystemPolicy *)
Record FilesystemPolicy := mkFilesystemPolicy {
  readable_roots : list PathBuf;
  writable_roots : list PathBuf;
  executable_roots : list PathBuf;
  protected_paths : list PathBuf
}.

(* crates/sandbox/src/policy.rs, NetworkAllowlist *)
Record NetworkAllowlist := mkNetworkAllowlist {
  net_domains : list string;
  net_cidrs : list string
}.

(* crates/sandbox/src/policy.rs, NetworkPolicy *)
Inductive NetworkPolicy :=
| Network_Off
| Network_Allowlist (allowlist : NetworkAllowlist)
| Network_Full.

(* crates/sandbox/src/policy.rs, GrantedFilesystemPermissions *)
Record GrantedFilesystemPermissions := mkGrantedFilesystemPermissions {
  granted_read_roots : list PathBuf;
  granted_write_roots : list PathBuf
}.

(* crates/sandbox/src/policy.rs, GrantedNetworkPermissions *)
Inductive GrantedNetworkPermissions :=
| GrantedNet_Allowlist (allowlist : NetworkAllowlist)
| GrantedNet_Full.

(* crates/sandbox/src/policy.rs, GrantedPermissionProfile *)
Record GrantedPermissionProfile := mkGrantedPermissionProfile {
  granted_file_system : GrantedFilesystemPermissions;
  granted_network : option GrantedNetworkPermissions
}.

(* crates/sandbox/src/policy.rs, HostEscapePolicy *)
Inductive HostEscapePolicy := HostEscape_Deny | HostEscape_HostManaged.

(* crates/sandbox/src/policy.rs, FilesystemAccess *)
Inductive FilesystemAccess := Access_Read | Access_Write | Access_Execute.

(* crates/sandbox/src/policy.rs, SandboxPolicy *)
Record SandboxPolicy := mkSandboxPolicy {
  policy_mode : SandboxMode;
  policy_filesystem : FilesystemPolicy;
  policy_network : NetworkPolicy;
  policy_host_escape : HostEscapePolicy;
  policy_fail_if_unavailable : bool
}.

(* crates/sandbox/src/policy.rs, SandboxScope *)
Record SandboxScope := mkSandboxScope {
  scope_workspace_root : PathBuf;
  scope_worktree_root : option PathBuf;
  scope_additional_roots : list PathBuf;
  scope_read_only_roots : list PathBuf;
  scope_writable_roots : list PathBuf;
  scope_exec_roots : list PathBuf;
  scope_network_policy : option NetworkPolicy;
  scope_workspace_only : bool
}.

#[global] Instance SandboxMode_eq_dec : EqDecision SandboxMode.
Proof. solve_decision. Defined.
#[global] Instance FilesystemAccess_eq_dec : EqDecision FilesystemAccess.
Proof. solve_decision. Defined.

(** [#[derive(Default)]] of the records. *)
Definition FilesystemPolicy_default : FilesystemPolicy := mkFilesystemPolicy [] [] [] [].
Definition GrantedPermissionProfile_default : GrantedPermissionProfile :=
  mkGrantedPermissionProfile (mkGrantedFilesystemPermissions [] []) None.

(** ** Ordered path sets *)

(** The order of [std::path::Component]: the root before [.] before [..] before
    names. *)
Definition component_rank (c : string) : nat :=
  if String.eqb c "/" then 1 else if String.eqb c "." then 2
  else if String.eqb c ".." then 3 else 4.

Definition component_compare (a b : string) : comparison :=
  match Nat.compare (component_rank a) (component_rank b) with
  | Eq => String.compare a b
  | c => c
  end.

Fixpoint path_compare (p q : PathBuf) : comparison :=
  match p, q with
  | [], [] => Eq
  | [], _ :: _ => Lt
  | _ :: _, [] => Gt
  | a :: p', b :: q' => match component_compare a b with Eq => path_compare p' q' | c => c end
  end.

(** [BTreeSet::insert] and collecting a sequence into a [BTreeSet]. *)
Fixpoint set_insert {A} (cmp : A -> A -> comparison) (x : A) (l : list A) : list A :=
  match l with
  | [] => [x]
  | y :: l' => match cmp x y with
               | Eq => l
               | Lt => x :: l
               | Gt => y :: set_insert cmp x l'
               end
  end.

Definition collect_set {A} (cmp : A -> A -> comparison) (l : list A) : list A :=
  foldl (fun s x => set_insert cmp x s) [] l.

(* crates/sandbox/src/policy.rs, dedup_paths *)
Definition dedup_paths (paths : list PathBuf) : list PathBuf := collect_set path_compare paths.

(* crates/sandbox/src/policy.rs, union_paths *)
Definition union_paths (left right : list PathBuf) : list PathBuf :=
  collect_set path_compare (left ++ right).

(* crates/sandbox/src/policy.rs, union_strings *)
Definition union_strings (left right : list string) : list string :=
  collect_set String.compare (left ++ right).

(** ** Pure operations *)

(* crates/sandbox/src/policy.rs, NetworkAllowlist::with_domains *)
Definition with_domains (domains : list string) : NetworkAllowlist := mkNetworkAllowlist domains [].

(* crates/sandbox/src/policy.rs, NetworkAllowlist::is_empty *)
Definition allowlist_is_empty (a : NetworkAllowlist) : bool :=
  is_nil (net_domains a) && is_nil (net_cidrs a).

(* crates/sandbox/src/policy.rs, merge_network_allowlists *)
Definition merge_network_allowlists (left right : NetworkAllowlist) : NetworkAllowlist :=
  mkNetworkAllowlist (union_strings (net_domains left) (net_domains right))
    (union_strings (net_cidrs left) (net_cidrs right)).

(* crates/sandbox/src/policy.rs, merge_granted_network *)
Definition merge_granted_network (left right : option GrantedNetworkPermissions)
    : option GrantedNetworkPermissions :=
  match left, right with
  | Some GrantedNet_Full, _ | _, Some GrantedNet_Full => Some GrantedNet_Full
  | Some (GrantedNet_Allowlist l), Some (GrantedNet_Allowlist r) =>
      Some (GrantedNet_Allowlist (merge_network_allowlists l r))
  | Some network, None | None, Some network => Some network
  | None, None => None
  end.

(* crates/sandbox/src/policy.rs, GrantedFilesystemPermissions::is_empty *)
Definition granted_filesystem_is_empty (g : GrantedFilesystemPermissions) : bool :=
  is_nil (granted_read_roots g) && is_nil (granted_write_roots g).

(* crates/sandbox/src/policy.rs, GrantedFilesystemPermissions::merge_in_place *)
Definition merge_granted_filesystem (g other : GrantedFilesystemPermissions)
    : GrantedFilesystemPermissions :=
  mkGrantedFilesystemPermissions
    (union_paths (granted_read_roots g) (granted_read_roots other))
    (union_paths (granted_write_roots g) (granted_write_roots other)).

(* crates/sandbox/src/policy.rs, GrantedPermissionProfile::is_empty *)
Definition granted_is_empty (g : GrantedPermissionProfile) : bool :=
  granted_filesystem_is_empty (granted_file_system g) && negb (bool_decide (is_Some (granted_network g))).

(* crates/sandbox/src/policy.rs, GrantedPermissionProfile::merge_in_place *)
Definition merge_granted (g other : GrantedPermissionProfile) : GrantedPermissionProfile :=
  mkGrantedPermissionProfile
    (merge_granted_filesystem (granted_file_system g) (granted_file_system other))
    (merge_granted_network (granted_network g) (granted_network other)).

(* crates/sandbox/src/policy.rs, GrantedPermissionProfile::merged *)
Definition granted_merged (g other : GrantedPermissionProfile) : GrantedPermissionProfile :=
  merge_granted g other.

(* crates/sandbox/src/policy.rs, SandboxPolicy::permissive *)
Definition permissive : SandboxPolicy :=
  mkSandboxPolicy DangerFullAccess FilesystemPolicy_default Network_Full HostEscape_HostManaged false.

(* crates/sandbox/src/policy.rs, DEFAULT_PROTECTED_DIRS *)
Definition DEFAULT_PROTECTED_DIRS : list string := [".git"; ".nanoclaw"; ".codex"].

(* crates/sandbox/src/policy.rs, SandboxPolicy::recommended_for_scope *)
Definition recommended_for_scope (scope : SandboxScope) : SandboxPolicy :=
  if negb (scope_workspace_only scope) then permissive
  else
    let unscoped :=
      is_nil (scope_read_only_roots scope) && is_nil (scope_writable_roots scope)
      && is_nil (scope_exec_roots scope) in
    let readable :=
      if unscoped then
        dedup_paths (scope_workspace_root scope :: option_list (scope_worktree_root scope)
                       ++ scope_additional_roots scope)
      else
        dedup_paths (scope_read_only_roots scope ++ scope_writable_roots scope
                       ++ scope_exec_roots scope) in
    let writable := if unscoped then readable else dedup_paths (scope_writable_roots scope) in
    let executable := dedup_paths (scope_exec_roots scope) in
    let protected :=
      dedup_paths (readable ≫= fun root => map (fun name => path_push root name) DEFAULT_PROTECTED_DIRS) in
    mkSandboxPolicy WorkspaceWrite (mkFilesystemPolicy readable writable executable protected)
      (default Network_Off (scope_network_policy scope)) HostEscape_Deny false.

(* crates/sandbox/src/policy.rs, SandboxPolicy::with_fail_if_unavailable *)
Definition with_fail_if_unavailable (p : SandboxPolicy) (b : bool) : SandboxPolicy :=
  mkSandboxPolicy (policy_mode p) (policy_filesystem p) (policy_network p) (policy_host_escape p) b.

(* crates/sandbox/src/policy.rs, SandboxPolicy::requires_enforcement *)
Definition requires_enforcement (p : SandboxPolicy) : bool :=
  negb (bool_decide (policy_mode p = DangerFullAccess))
  || match policy_network p with Network_Full => false | _ => true end
  || negb (is_nil (readable_roots (policy_filesystem p)))
  || negb (is_nil (writable_roots (policy_filesystem p)))
  || negb (is_nil (executable_roots (policy_filesystem p)))
  || negb (is_nil (protected_paths (policy_filesystem p))).

(** [Path::starts_with]: whole components. *)
Fixpoint path_starts_with (p root : PathBuf) : bool :=
  match root, p with
  | [], _ => true
  | c :: root', d :: p' => String.eqb c d && path_starts_with p' root'
  | _ :: _, [] => false
  end.

(* crates/sandbox/src/policy.rs, path_is_inside_any_root *)
Definition path_is_inside_any_root (path : PathBuf) (roots : list PathBuf) : bool :=
  existsb (fun root => path_starts_with path root) roots.

(* crates/sandbox/src/policy.rs, accessible_roots_for_filesystem *)
Definition accessible_roots_for_filesystem (f : FilesystemPolicy) : list PathBuf :=
  dedup_paths (writable_roots f ++ readable_roots f ++ executable_roots f).

(* crates/sandbox/src/policy.rs, accessible_roots *)
Definition policy_accessible_roots (p : SandboxPolicy) : list PathBuf :=
  accessible_roots_for_filesystem (policy_filesystem p).

(* crates/sandbox/src/policy.rs, resolve_effective_cwd *)
Definition resolve_effective_cwd (cwd : option PathBuf) (p : SandboxPolicy)
    : result (option PathBuf) SandboxError :=
  let roots := policy_accessible_roots p in
  match cwd with
  | Some cwd =>
      if is_nil roots || path_is_inside_any_root cwd roots then Ok (Some cwd)
      else Err (SandboxErr_InvalidState
                  ("sandboxed process cwd " +:+ path_display cwd
                     +:+ " is outside the configured sandbox roots"))
  | None => Ok (head roots)
  end.

(* crates/sandbox/src/policy.rs, filesystem_access_is_unrestricted *)
Definition filesystem_access_is_unrestricted (p : SandboxPolicy) (access : FilesystemAccess)
    (allowed_roots : list PathBuf) : bool :=
  is_nil allowed_roots && bool_decide (policy_mode p = DangerFullAccess)
  && match access with Access_Read | Access_Write => true | Access_Execute => false end.

(* crates/sandbox/src/policy.rs, widened_mode *)
Definition widened_mode (base : SandboxPolicy) (writable : list PathBuf) : SandboxMode :=
  match policy_mode base with
  | DangerFullAccess => DangerFullAccess
  | WorkspaceWrite => WorkspaceWrite
  | ReadOnly => if is_nil writable then ReadOnly else WorkspaceWrite
  end.

(* crates/sandbox/src/policy.rs, widen_read_roots *)
Definition widen_read_roots (base : SandboxPolicy) (current : list PathBuf)
    (granted : GrantedFilesystemPermissions) : list PathBuf :=
  if bool_decide (policy_mode base = DangerFullAccess) && is_nil current then []
  else union_paths current (union_paths (granted_read_roots granted) (granted_write_roots granted)).

(* crates/sandbox/src/policy.rs, widen_write_roots *)
Definition widen_write_roots (base : SandboxPolicy) (current : list PathBuf)
    (granted : GrantedFilesystemPermissions) : list PathBuf :=
  if bool_decide (policy_mode base = DangerFullAccess) && is_nil current then []
  else union_paths current (granted_write_roots granted).

(* crates/sandbox/src/policy.rs, widen_network_policy *)
Definition widen_network_policy (base : SandboxPolicy) (granted : option GrantedNetworkPermissions)
    : NetworkPolicy :=
  match policy_network base, granted with
  | Network_Full, _ => Network_Full
  | policy, None => policy
  | _, Some GrantedNet_Full => Network_Full
  | Network_Off, Some (GrantedNet_Allowlist allowlist) => Network_Allowlist allowlist
  | Network_Allowlist existing, Some (GrantedNet_Allowlist allowlist) =>
      Network_Allowlist (merge_network_allowlists existing allowlist)
  end.

(** ** The file system *)

Class FileSystem := {
  fs_exists : PathBuf -> bool;
  fs_canonicalize : PathBuf -> result PathBuf string;
  fs_current_dir : result PathBuf string
}.

(** Documented behaviour of [std::fs::canonicalize]: the result is an absolute,
    existing path with all links resolved, so canonicalizing it again changes
    nothing, and it names the same object, so what exists below the one exists
    below the other. *)
Class FileSystemLaws (F : FileSystem) : Prop := {
  canonicalize_exists : forall p q, fs_canonicalize p = Ok q -> fs_exists q = true;
  canonicalize_idem : forall p q, fs_canonicalize p = Ok q -> fs_canonicalize q = Ok q;
  canonicalize_absolute : forall p q, fs_canonicalize p = Ok q -> exists r, q = "/" :: r;
  canonicalize_same : forall p q s, fs_canonicalize p = Ok q -> Forall plain_component s ->
    fs_exists (q ++ s) = fs_exists (p ++ s)
}.

Section Policy.
Context {F : FileSystem}.

(** [Path::is_absolute]. *)
Definition is_absolute (p : PathBuf) : bool :=
  match p with "/" :: _ => true | _ => false end.

(** [Path::file_name]: the last component when it is a name. *)
Definition file_name (p : PathBuf) : option string :=
  match last p with
  | Some c => if bool_decide (c ∈ ["/"; "."; ".."]) then None else Some c
  | None => None
  end.

(** The [while !existing_ancestor.exists()] loop of [canonicalize_policy_path],
    peeling components off the end; [suffix] collects them outermost first. *)
(* crates/sandbox/src/policy.rs, canonicalize_policy_path@while !existing_ancestor.exists() *)
Fixpoint existing_ancestor (fuel : nat) (absolute p : PathBuf) (suffix : list string)
    : result (PathBuf * list string) SandboxError :=
  if fs_exists p then Ok (p, suffix)
  else
    match file_name p, fuel with
    | Some name, S fuel => existing_ancestor fuel absolute (removelast p) (name :: suffix)
    | _, _ =>
        Err (SandboxErr_InvalidState
               ("sandbox path " +:+ path_display absolute +:+ " has no existing ancestor"))
    end.

(** [Path::join]. *)
Definition path_join (base p : PathBuf) : PathBuf :=
  if is_absolute p then p else base ++ p.

(* crates/sandbox/src/policy.rs, canonicalize_policy_path *)
Definition canonicalize_policy_path (path : PathBuf) : result PathBuf SandboxError :=
  if fs_exists path then
    match fs_canonicalize path with
    | Ok p => Ok p
    | Err source =>
        Err (SandboxErr_InvalidState
               ("failed to canonicalize sandbox path " +:+ path_display path +:+ ": " +:+ source))
    end
  else
    absolute <-?
      (if is_absolute path then Ok path
       else match fs_current_dir with
            | Ok cwd => Ok (path_join cwd path)
            | Err e => Err (SandboxErr_Io e)
            end);
    found <-? existing_ancestor (length absolute) absolute absolute [];
    let (ancestor, suffix) := found in
    match fs_canonicalize ancestor with
    | Ok normalized => Ok (foldl path_push normalized suffix)
    | Err source =>
        Err (SandboxErr_InvalidState
               ("failed to canonicalize sandbox ancestor " +:+ path_display ancestor
                  +:+ ": " +:+ source))
    end.

(* crates/sandbox/src/policy.rs, normalize_granted_permission_path *)
Definition normalize_granted_permission_path (path : PathBuf) : result PathBuf SandboxError :=
  canonicalize_policy_path path.

(* crates/sandbox/src/policy.rs, canonicalize_optional_path *)
Definition canonicalize_optional_path (path : option PathBuf)
    : result (option PathBuf) SandboxError :=
  match path with
  | None => Ok None
  | Some path => p <-? canonicalize_policy_path path; Ok (Some p)
  end.

Definition canonical_set (paths : list PathBuf) : result (list PathBuf) SandboxError :=
  l <-? map_result canonicalize_policy_path paths; Ok (dedup_paths l).

(* crates/sandbox/src/policy.rs, canonicalize_filesystem_policy *)
Definition canonicalize_filesystem_policy (f : FilesystemPolicy)
    : result FilesystemPolicy SandboxError :=
  readable <-? canonical_set (readable_roots f);
  writable <-? canonical_set (writable_roots f);
  executable <-? canonical_set (executable_roots f);
  protected <-? canonical_set (protected_paths f);
  Ok (mkFilesystemPolicy readable writable executable protected).

(* crates/sandbox/src/policy.rs, canonicalize_granted_filesystem_permissions *)
Definition canonicalize_granted_filesystem_permissions (g : GrantedFilesystemPermissions)
    : result GrantedFilesystemPermissions SandboxError :=
  read <-? canonical_set (granted_read_roots g);
  write <-? canonical_set (granted_write_roots g);
  Ok (mkGrantedFilesystemPermissions read write).

Definition action_name (access : FilesystemAccess) : string :=
  match access with
  | Access_Read => "read" | Access_Write => "write" | Access_Execute => "execute"
  end.

(* crates/sandbox/src/policy.rs, assert_filesystem_access@let allowed_roots *)
Definition allowed_roots (f : FilesystemPolicy) (access : FilesystemAccess) : list PathBuf :=
  match access with
  | Access_Read => accessible_roots_for_filesystem f
  | Access_Write => writable_roots f
  | Access_Execute => executable_roots f
  end.

(* crates/sandbox/src/policy.rs, assert_filesystem_access *)
Definition assert_filesystem_access (policy : SandboxPolicy) (path : PathBuf)
    (access : FilesystemAccess) : result unit SandboxError :=
  filesystem <-? canonicalize_filesystem_policy (policy_filesystem policy);
  path <-? canonicalize_policy_path path;
  if bool_decide (access = Access_Write)
     && path_is_inside_any_root path (protected_paths filesystem)
  then Err (SandboxErr_InvalidState
              ("sandbox denies write access to protected path " +:+ path_display path))
  else
    let allowed := allowed_roots filesystem access in
    if filesystem_access_is_unrestricted policy access allowed
       || path_is_inside_any_root path allowed
    then Ok tt
    else Err (SandboxErr_InvalidState
                ("sandbox denies " +:+ action_name access +:+ " access to " +:+ path_display path
                   +:+ "; allowed roots: [" +:+ str_join ", " (map path_display allowed) +:+ "]")).

(* crates/sandbox/src/policy.rs, apply_granted_permission_profile *)
Definition apply_granted_permission_profile (base : SandboxPolicy)
    (granted : GrantedPermissionProfile) : result SandboxPolicy SandboxError :=
  if granted_is_empty granted then Ok base
  else
    filesystem <-? canonicalize_filesystem_policy (policy_filesystem base);
    granted_fs <-? canonicalize_granted_filesystem_permissions (granted_file_system granted);
    let writable := widen_write_roots base (writable_roots filesystem) granted_fs in
    Ok (mkSandboxPolicy (widened_mode base writable)
          (mkFilesystemPolicy (widen_read_roots base (readable_roots filesystem) granted_fs)
             writable (executable_roots filesystem) (protected_paths filesystem))
          (widen_network_policy base (granted_network granted))
          (policy_host_escape base) (policy_fail_if_unavailable base)).

End Policy.

(** ** The grant store ([crates/runtime/src/permissions.rs]) *)

(* crates/runtime/src/permissions.rs, PermissionGrantSnapshot *)
Record PermissionGrantSnapshot := mkPermissionGrantSnapshot {
  grant_turn : GrantedPermissionProfile;
  grant_session : GrantedPermissionProfile
}.

(* crates/tools/src/permissions.rs, PermissionGrantScope *)
Inductive PermissionGrantScope := GrantScope_Turn | GrantScope_Session.

Definition PermissionGrantSnapshot_default : PermissionGrantSnapshot :=
  mkPermissionGrantSnapshot GrantedPermissionProfile_default GrantedPermissionProfile_default.

(* crates/runtime/src/permissions.rs, PermissionGrantSnapshot::merged *)
Definition grants_merged (s : PermissionGrantSnapshot) : GrantedPermissionProfile :=
  granted_merged (grant_session s) (grant_turn s).

(* crates/runtime/src/permissions.rs, PermissionGrantStore::grant *)
Definition grant (s : PermissionGrantSnapshot) (scope : PermissionGrantScope)
    (permissions : GrantedPermissionProfile) : PermissionGrantSnapshot :=
  match scope with
  | GrantScope_Turn => mkPermissionGrantSnapshot (merge_granted (grant_turn s) permissions) (grant_session s)
  | GrantScope_Session => mkPermissionGrantSnapshot (grant_turn s) (merge_granted (grant_session s) permissions)
  end.

(* crates/runtime/src/permissions.rs, PermissionGrantStore::replace *)
Definition grant_replace (s : PermissionGrantSnapshot) (scope : PermissionGrantScope)
    (permissions : GrantedPermissionProfile) : PermissionGrantSnapshot :=
  match scope with
  | GrantScope_Turn => mkPermissionGrantSnapshot permissions (grant_session s)
  | GrantScope_Session => mkPermissionGrantSnapshot (grant_turn s) permissions
  end.

(* crates/runtime/src/permissions.rs, PermissionGrantStore::clear_turn *)
Definition clear_turn (s : PermissionGrantSnapshot) : PermissionGrantSnapshot :=
  mkPermissionGrantSnapshot GrantedPermissionProfile_default (grant_session s).

(* crates/runtime/src/permissions.rs, PermissionGrantStore::clear_session *)
Definition clear_session (s : PermissionGrantSnapshot) : PermissionGrantSnapshot :=
  mkPermissionGrantSnapshot (grant_turn s) GrantedPermissionProfile_default.

(* crates/runtime/src/permissions.rs, PermissionGrantStore::clear_all *)
Definition clear_all (s : PermissionGrantSnapshot) : PermissionGrantSnapshot :=
  PermissionGrantSnapshot_default.

(* crates/runtime/src/permissions.rs, PermissionGrantStore::effective_sandbox_policy *)
Definition effective_sandbox_policy `{FileSystem} (s : PermissionGrantSnapshot)
    (base : SandboxPolicy) : result SandboxPolicy RuntimeError :=
  match apply_granted_permission_profile base (grants_merged s) with
  | Ok p => Ok p
  | Err e => Err (RtErr_InvalidState "failed to apply granted permission profile"
                    (Some (SandboxError_display e)))
  end.

(** ** Lemmas: sets and prefixes *)

Lemma component_compare_eq a b : component_compare a b = Eq -> a = b.
Proof.
  unfold component_compare. destruct (Nat.compare _ _); try done. apply String.compare_eq_iff.
Qed.

Lemma path_compare_eq p q : path_compare p q = Eq -> p = q.
Proof.
  revert q. induction p as [|a p IH]; intros [|b q]; simpl; try done.
  destruct (component_compare a b) eqn:E; try done. apply component_compare_eq in E as ->.
  by intros ->%IH.
Qed.

Lemma elem_of_set_insert {A} (cmp : A -> A -> comparison) x y l :
  (forall a b, cmp a b = Eq -> a = b) -> y ∈ set_insert cmp x l <-> y = x \/ y ∈ l.
Proof.
  intros Hc. induction l as [|z l IH]; simpl; [set_solver|].
  destruct (cmp x z) eqn:E; [apply Hc in E as ->; set_solver | set_solver|].
  rewrite !elem_of_cons, IH. tauto.
Qed.

Lemma elem_of_collect_set {A} (cmp : A -> A -> comparison) y l :
  (forall a b, cmp a b = Eq -> a = b) -> y ∈ collect_set cmp l <-> y ∈ l.
Proof.
  intros Hc. unfold collect_set.
  assert (H : forall acc, y ∈ foldl (fun s x => set_insert cmp x s) acc l <-> y ∈ acc \/ y ∈ l).
  { induction l as [|x l IH]; intros acc; simpl; [set_solver|].
    rewrite IH, elem_of_set_insert by done. set_solver. }
  rewrite H. set_solver.
Qed.

Lemma elem_of_dedup p l : p ∈ dedup_paths l <-> p ∈ l.
Proof. apply elem_of_collect_set, path_compare_eq. Qed.

Lemma elem_of_union_paths p l k : p ∈ union_paths l k <-> p ∈ l \/ p ∈ k.
Proof. unfold union_paths. rewrite elem_of_collect_set by apply path_compare_eq. apply elem_of_app. Qed.

Lemma is_nil_equiv {A} (l k : list A) : (forall x, x ∈ l <-> x ∈ k) -> is_nil l = is_nil k.
Proof.
  intros H. destruct l as [|x l], k as [|y k]; try done; exfalso.
  - by apply (not_elem_of_nil y), H; left.
  - by apply (not_elem_of_nil x), H; left.
Qed.

Lemma inside_any_root_spec p roots :
  path_is_inside_any_root p roots = true <-> exists r, r ∈ roots /\ path_starts_with p r = true.
Proof.
  unfold path_is_inside_any_root. rewrite existsb_exists.
  by setoid_rewrite list_elem_of_In.
Qed.

Lemma inside_any_root_mono p l k :
  (forall r, r ∈ l -> r ∈ k) ->
  path_is_inside_any_root p l = true -> path_is_inside_any_root p k = true.
Proof. intros H. rewrite !inside_any_root_spec. intros (r & Hr & Hp). eauto. Qed.

Lemma inside_any_root_equiv p l k :
  (forall r, r ∈ l <-> r ∈ k) -> path_is_inside_any_root p l = path_is_inside_any_root p k.
Proof.
  intros H. apply eq_true_iff_eq. split; apply inside_any_root_mono; naive_solver.
Qed.

(** ** Lemmas: canonicalization *)

Section Canonical.
Context {F : FileSystem} {L : FileSystemLaws F}.

Lemma file_name_plain p c : file_name p = Some c -> plain_component c /\ p = removelast p ++ [c].
Proof.
  unfold file_name. destruct (last p) as [d|] eqn:E; [|done].
  case_bool_decide as Hc; [done|]. intros [= ->]. split.
  - unfold plain_component. rewrite !not_elem_of_cons in Hc. tauto.
  - apply last_Some in E as [l ->]. by rewrite removelast_last.
Qed.

(** Peeling a path that does not exist finds its longest existing ancestor. *)
Lemma existing_ancestor_spec fuel a p s r t :
  existing_ancestor fuel a p s = Ok (r, t) ->
  exists u, t = u ++ s /\ p = r ++ u /\ Forall plain_component u /\ fs_exists r = true
    /\ (forall v, v <> [] -> (exists w, u = v ++ w) -> fs_exists (r ++ v) = false).
Proof.
  revert p s. induction fuel as [|fuel IH]; intros p s; simpl; destruct (fs_exists p) eqn:Ep.
  1,3: intros [= <- <-]; exists []; rewrite app_nil_r;
    refine (conj eq_refl (conj eq_refl (conj (Forall_nil_2 _) (conj Ep _))));
    intros v Hv [w Hw]; by destruct v.
  - destruct (file_name p); done.
  - destruct (file_name p) as [c|] eqn:Ef; [|done]. intros (u & -> & Hp & Hu & He & Hno)%IH.
    apply file_name_plain in Ef as [Hc Hpc]. exists (u ++ [c]). split; [by rewrite <- app_assoc|].
    assert (Hrc : p = r ++ u ++ [c]) by (rewrite app_assoc, <- Hp; done).
    split; [done|]. split; [apply Forall_app; auto|]. split; [done|].
    intros v Hv [w Hw]. destruct w as [|d w _] using rev_ind.
    + rewrite app_nil_r in Hw. by rewrite <- Hw, <- Hrc.
    + rewrite app_assoc in Hw. apply app_inj_2 in Hw as [Hw _]; [|done]. apply Hno; eauto.
Qed.

(** Enough components to peel, and none of them exists: the loop reaches the
    ancestor. *)
Lemma existing_ancestor_reaches u fuel a r s :
  (length u <= fuel)%nat -> Forall plain_component u -> fs_exists r = true ->
  (forall v, v <> [] -> (exists w, u = v ++ w) -> fs_exists (r ++ v) = false) ->
  existing_ancestor fuel a (r ++ u) s = Ok (r, u ++ s).
Proof.
  revert fuel s. induction u as [|c u IH] using rev_ind; intros fuel s Hf Hu Hr Hno.
  { rewrite app_nil_r. destruct fuel; simpl; by rewrite Hr. }
  rewrite length_app in Hf. simpl in Hf. destruct fuel as [|fuel]; [lia|]. simpl.
  rewrite (Hno (u ++ [c])); [| by destruct u | exists []; by rewrite app_nil_r].
  apply Forall_app in Hu as [Hu Hc]. inversion Hc as [|? ? (H1 & H2 & H3) _]; subst.
  assert (Hl : last (r ++ u ++ [c]) = Some c) by (by rewrite app_assoc, last_snoc).
  unfold file_name. rewrite Hl, bool_decide_eq_false_2 by set_solver.
  rewrite app_assoc, removelast_last, IH; [by rewrite <- app_assoc | lia | done | done|].
  intros v Hv [w Hw]. apply Hno; [done|]. exists (w ++ [c]). by rewrite app_assoc, Hw.
Qed.

Lemma push_plain n s : Forall plain_component s -> foldl path_push n s = n ++ s.
Proof. apply reported_below. Qed.

(** Canonicalizing a canonical policy path changes nothing. *)
Lemma canonicalize_policy_path_idem p q :
  canonicalize_policy_path p = Ok q -> canonicalize_policy_path q = Ok q.
Proof.
  unfold canonicalize_policy_path at 1. destruct (fs_exists p) eqn:Ep.
  - destruct (fs_canonicalize p) as [n|] eqn:Ec; [|done]. intros [= ->].
    unfold canonicalize_policy_path.
    by rewrite (canonicalize_exists _ _ Ec), (canonicalize_idem _ _ Ec).
  - destruct (if is_absolute p then _ else _) as [a|]; simpl; [|done].
    destruct (existing_ancestor _ a a []) as [[r u]|] eqn:E0; simpl; [|done].
    destruct (fs_canonicalize r) as [n|] eqn:Ec; [|done]. intros [= <-].
    apply existing_ancestor_spec in E0 as (v & -> & Hp & Hv & Hr & Hno).
    rewrite app_nil_r, push_plain by done.
    destruct (canonicalize_absolute _ _ Ec) as [m Hm].
    destruct (fs_exists (n ++ v)) eqn:Env.
    { (* only possible when nothing was peeled *)
      destruct v as [|c v].
      - rewrite app_nil_r. unfold canonicalize_policy_path.
        by rewrite (canonicalize_exists _ _ Ec), (canonicalize_idem _ _ Ec).
      - rewrite (canonicalize_same _ _ _ Ec Hv), Hno in Env; [done | done|].
        exists []. by rewrite app_nil_r. }
    assert (Habs : is_absolute (n ++ v) = true) by (by rewrite Hm).
    unfold canonicalize_policy_path. rewrite Env, Habs. cbn [result_bind].
    assert (He : forall a s, existing_ancestor (length (n ++ v)) a (n ++ v) s = Ok (n, v ++ s)).
    { intros a' s'. apply existing_ancestor_reaches; [rewrite length_app; lia | done | |].
      - by eapply canonicalize_exists.
      - intros x Hx [w Hw]. rewrite (canonicalize_same _ _ x Ec); [by apply Hno; eauto|].
        rewrite Hw in Hv. by apply Forall_app in Hv as [Hv _]. }
    rewrite He. simpl. rewrite (canonicalize_idem _ _ Ec). by rewrite app_nil_r, push_plain.
Qed.

(** The canonical set of some paths: what its members are. *)
Lemma canonical_set_spec l k :
  canonical_set l = Ok k ->
  (forall q, q ∈ k <-> exists p, p ∈ l /\ canonicalize_policy_path p = Ok q)
  /\ (forall p, p ∈ l -> exists q, canonicalize_policy_path p = Ok q).
Proof.
  unfold canonical_set. intros H. destruct (map_result _ l) as [m|] eqn:E; simpl in H; [|done].
  injection H as <-. apply map_result_Ok in E.
  assert (Hm : forall q, q ∈ m <-> exists p, p ∈ l /\ canonicalize_policy_path p = Ok q).
  { clear -E. induction E as [|p q l m Hpq _ IH]; intros x.
    - split; [intros Hx; by inversion Hx | intros (p & Hp & _); by inversion Hp].
    - rewrite elem_of_cons, IH. split.
      + intros [->|(y & Hy & Hc)]; [exists p; split; [by left | done]|].
        exists y. split; [by right | done].
      + intros (y & [->|Hy]%elem_of_cons & Hc); [left; congruence | right; eauto]. }
  split; [intros q; rewrite elem_of_dedup; apply Hm|].
  clear -E. induction E as [|p q l m Hpq _ IH]; intros x Hx; [by inversion Hx|].
  apply elem_of_cons in Hx as [->|Hx]; eauto.
Qed.

Lemma canonical_set_total l :
  (forall p, p ∈ l -> exists q, canonicalize_policy_path p = Ok q) ->
  exists k, canonical_set l = Ok k.
Proof.
  intros H. unfold canonical_set.
  assert (Hm : exists m, map_result canonicalize_policy_path l = Ok m).
  { induction l as [|p l IH]; [by exists []|]. destruct (H p) as [q Hq]; [by left|].
    destruct IH as [m Hm]; [intros x Hx; apply H; by right|].
    exists (q :: m). simpl. by rewrite Hq, Hm. }
  destruct Hm as [m ->]. by eexists.
Qed.

(** A set whose members are canonical already. *)
Lemma canonical_set_fixed k :
  (forall q, q ∈ k -> canonicalize_policy_path q = Ok q) ->
  exists k', canonical_set k = Ok k' /\ forall q, q ∈ k' <-> q ∈ k.
Proof.
  intros H. destruct (canonical_set_total k) as [k' Hk']; [eauto|]. exists k'. split; [done|].
  intros q. rewrite (proj1 (canonical_set_spec k k' Hk')). split.
  - intros (p & Hp & Hq). rewrite (H p Hp) in Hq. by injection Hq as ->.
  - intros Hq. eauto.
Qed.

Lemma canonical_set_canonical l k q :
  canonical_set l = Ok k -> q ∈ k -> canonicalize_policy_path q = Ok q.
Proof.
  intros Hk Hq. apply (proj1 (canonical_set_spec l k Hk)) in Hq as (p & _ & Hp).
  by eapply canonicalize_policy_path_idem.
Qed.

Lemma canonicalize_filesystem_Ok f g :
  canonicalize_filesystem_policy f = Ok g ->
  canonical_set (readable_roots f) = Ok (readable_roots g)
  /\ canonical_set (writable_roots f) = Ok (writable_roots g)
  /\ canonical_set (executable_roots f) = Ok (executable_roots g)
  /\ canonical_set (protected_paths f) = Ok (protected_paths g).
Proof.
  unfold canonicalize_filesystem_policy. intros H.
  destruct (canonical_set (readable_roots f)); simpl in H; [|done].
  destruct (canonical_set (writable_roots f)); simpl in H; [|done].
  destruct (canonical_set (executable_roots f)); simpl in H; [|done].
  destruct (canonical_set (protected_paths f)); simpl in H; [|done]. by injection H as <-.
Qed.

Lemma canonicalize_filesystem_fixed f :
  (forall q, q ∈ readable_roots f ++ writable_roots f ++ executable_roots f ++ protected_paths f ->
     canonicalize_policy_path q = Ok q) ->
  exists g, canonicalize_filesystem_policy f = Ok g
    /\ (forall q, q ∈ readable_roots g <-> q ∈ readable_roots f)
    /\ (forall q, q ∈ writable_roots g <-> q ∈ writable_roots f)
    /\ (forall q, q ∈ executable_roots g <-> q ∈ executable_roots f)
    /\ (forall q, q ∈ protected_paths g <-> q ∈ protected_paths f).
Proof.
  setoid_rewrite elem_of_app. setoid_rewrite elem_of_app. setoid_rewrite elem_of_app. intros H.
  destruct (canonical_set_fixed (readable_roots f)) as (r & Hr & Hr'); [naive_solver|].
  destruct (canonical_set_fixed (writable_roots f)) as (w & Hw & Hw'); [naive_solver|].
  destruct (canonical_set_fixed (executable_roots f)) as (x & Hx & Hx'); [naive_solver|].
  destruct (canonical_set_fixed (protected_paths f)) as (t & Ht & Ht'); [naive_solver|].
  exists (mkFilesystemPolicy r w x t). unfold canonicalize_filesystem_policy.
  by rewrite Hr, Hw, Hx, Ht.
Qed.

(** What a grant does to a policy, up to the order of the roots. *)
Lemma apply_granted_Ok base granted p f :
  apply_granted_permission_profile base granted = Ok p ->
  canonicalize_filesystem_policy (policy_filesystem base) = Ok f ->
  exists g r w, canonicalize_filesystem_policy (policy_filesystem p) = Ok g
    /\ (granted_is_empty granted = false ->
        canonical_set (granted_read_roots (granted_file_system granted)) = Ok r
        /\ canonical_set (granted_write_roots (granted_file_system granted)) = Ok w)
    /\ (granted_is_empty granted = true -> r = [] /\ w = [])
    /\ (forall q, q ∈ protected_paths g <-> q ∈ protected_paths f)
    /\ (forall q, q ∈ executable_roots g <-> q ∈ executable_roots f)
    /\ (forall q, q ∈ writable_roots g <-> q ∈ writable_roots f \/
          (q ∈ w /\ (policy_mode base = DangerFullAccess -> writable_roots f <> [])))
    /\ (forall q, q ∈ readable_roots g <-> q ∈ readable_roots f \/
          ((q ∈ r \/ q ∈ w) /\ (policy_mode base = DangerFullAccess -> readable_roots f <> []))).
Proof.
  unfold apply_granted_permission_profile. intros H Hf.
  destruct (granted_is_empty granted).
  { injection H as <-. exists f, [], []. split; [done|]. split; [done|]. split; [done|].
    split; [done|]. split; [done|]. split; intros q; set_solver. }
  rewrite Hf in H. cbn [result_bind] in H. unfold canonicalize_granted_filesystem_permissions in H.
  destruct (canonical_set (granted_read_roots _)) as [r|] eqn:Er; simpl in H; [|done].
  destruct (canonical_set (granted_write_roots _)) as [w|] eqn:Ew; simpl in H; [|done].
  injection H as <-. simpl. destruct (canonicalize_filesystem_Ok _ _ Hf) as (F1 & F2 & F3 & F4).
  set (W := widen_write_roots base (writable_roots f) (mkGrantedFilesystemPermissions r w)).
  set (R := widen_read_roots base (readable_roots f) (mkGrantedFilesystemPermissions r w)).
  assert (HW : forall q, q ∈ W <-> q ∈ writable_roots f \/
     (q ∈ w /\ (policy_mode base = DangerFullAccess -> writable_roots f <> []))).
  { intros q. unfold W, widen_write_roots. simpl. case_bool_decide as Hm; simpl.
    - destruct (writable_roots f) as [|x l]; simpl; [set_solver|].
      rewrite elem_of_union_paths. naive_solver.
    - rewrite elem_of_union_paths. naive_solver. }
  assert (HR : forall q, q ∈ R <-> q ∈ readable_roots f \/
     ((q ∈ r \/ q ∈ w) /\ (policy_mode base = DangerFullAccess -> readable_roots f <> []))).
  { intros q. unfold R, widen_read_roots. simpl. case_bool_decide as Hm; simpl.
    - destruct (readable_roots f) as [|x l]; simpl; [set_solver|].
      rewrite !elem_of_union_paths. naive_solver.
    - rewrite !elem_of_union_paths. naive_solver. }
  destruct (canonicalize_filesystem_fixed (mkFilesystemPolicy R W (executable_roots f) (protected_paths f)))
    as (g & Hg & G1 & G2 & G3 & G4).
  { simpl. intros q. rewrite !elem_of_app, HW, HR.
    assert (C := canonical_set_canonical). naive_solver. }
  exists g, r, w. split; [done|]. split; [done|]. split; [done|]. split; [done|]. split; [done|].
  split; intros q; [by rewrite G2, <- HW | by rewrite G1, <- HR].
Qed.

(** The access check, unfolded. *)
Lemma assert_filesystem_access_Ok policy path access :
  assert_filesystem_access policy path access = Ok tt <->
  exists f c, canonicalize_filesystem_policy (policy_filesystem policy) = Ok f
    /\ canonicalize_policy_path path = Ok c
    /\ (access = Access_Write -> path_is_inside_any_root c (protected_paths f) = false)
    /\ (filesystem_access_is_unrestricted policy access (allowed_roots f access) = true
        \/ path_is_inside_any_root c (allowed_roots f access) = true).
Proof.
  unfold assert_filesystem_access.
  destruct (canonicalize_filesystem_policy _) as [f|e]; simpl;
    [|split; [done | by intros (? & ? & ? & _)]].
  destruct (canonicalize_policy_path path) as [c|e]; simpl;
    [|split; [done | by intros (? & ? & _ & ? & _)]].
  assert (Hx : forall P : FilesystemPolicy -> PathBuf -> Prop,
    (exists f' c', @Ok _ SandboxError f = Ok f' /\ @Ok _ SandboxError c = Ok c' /\ P f' c') <-> P f c).
  { intros P. split; [intros (? & ? & [= <-] & [= <-] & H); done | eauto]. }
  rewrite Hx. clear Hx. rewrite <- orb_true_iff.
  set (b := _ || _). destruct (path_is_inside_any_root c (protected_paths f)).
  - case_bool_decide as Ha; simpl; [split; [done | intros [H _]; by apply H in Ha]|].
    destruct b; (split; [intros H; try done; by split | by intros [_ H]]).
  - rewrite andb_false_r. destruct b; (split; [intros H; try done; by split | by intros [_ H]]).
Qed.

Lemma allowed_roots_mono (f g : FilesystemPolicy) access :
  (forall q, q ∈ readable_roots f -> q ∈ readable_roots g) ->
  (forall q, q ∈ writable_roots f -> q ∈ writable_roots g) ->
  (forall q, q ∈ executable_roots f -> q ∈ executable_roots g) ->
  forall q, q ∈ allowed_roots f access -> q ∈ allowed_roots g access.
Proof.
  intros H1 H2 H3 q. destruct access; simpl; auto.
  unfold accessible_roots_for_filesystem. rewrite !elem_of_dedup, !elem_of_app. naive_solver.
Qed.

Lemma is_nil_true {A} (l : list A) : is_nil l = true <-> l = [].
Proof. by destruct l. Qed.

Lemma nil_iff_no_elem {A} (l : list A) : l = [] <-> forall x, x ∉ l.
Proof.
  split; [intros ->; apply not_elem_of_nil|]. destruct l as [|x l]; [done|].
  intros H. destruct (H x). by left.
Qed.

(** An unrestricted policy stays unrestricted. *)
Lemma unrestricted_after_grant base p f g access :
  policy_mode p = widened_mode base (writable_roots (policy_filesystem p))
  \/ policy_mode p = policy_mode base ->
  (forall q, q ∈ executable_roots g <-> q ∈ executable_roots f) ->
  (policy_mode base = DangerFullAccess -> writable_roots f = [] -> writable_roots g = []) ->
  (policy_mode base = DangerFullAccess -> readable_roots f = [] -> readable_roots g = []) ->
  filesystem_access_is_unrestricted base access (allowed_roots f access) = true ->
  filesystem_access_is_unrestricted p access (allowed_roots g access) = true.
Proof.
  intros Hm Hx Hw Hr. unfold filesystem_access_is_unrestricted.
  rewrite !andb_true_iff, !is_nil_true, !bool_decide_eq_true. intros [[Hnil Hd] Ha].
  assert (Hd' : policy_mode p = DangerFullAccess).
  { destruct Hm as [-> | ->]; [|done]. unfold widened_mode. by rewrite Hd. }
  split; [split; [|done] | done]. destruct access; simpl in *; [|auto | done].
  unfold accessible_roots_for_filesystem in *. apply nil_iff_no_elem. intros q.
  rewrite elem_of_dedup, !elem_of_app, Hx. rewrite nil_iff_no_elem in Hnil.
  setoid_rewrite elem_of_dedup in Hnil. setoid_rewrite elem_of_app in Hnil.
  setoid_rewrite elem_of_app in Hnil.
  rewrite Hw, Hr; [set_solver | done | | done |]; apply nil_iff_no_elem; naive_solver.
Qed.

Lemma apply_granted_mode base granted p :
  apply_granted_permission_profile base granted = Ok p ->
  (policy_mode p = widened_mode base (writable_roots (policy_filesystem p))
   \/ policy_mode p = policy_mode base)
  /\ policy_network p = (if granted_is_empty granted then policy_network base
                         else widen_network_policy base (granted_network granted)).
Proof.
  unfold apply_granted_permission_profile. destruct (granted_is_empty granted).
  - intros [= <-]. auto.
  - intros H. inv_result. simpl. auto.
Qed.

Lemma elem_of_union_strings x l k : x ∈ union_strings l k <-> x ∈ l \/ x ∈ k.
Proof.
  unfold union_strings. rewrite elem_of_collect_set by apply String.compare_eq_iff. apply elem_of_app.
Qed.

(** What a network policy lets through, as an order. *)
Definition network_le (p q : NetworkPolicy) : Prop :=
  match p, q with
  | Network_Off, _ => True
  | _, Network_Full => True
  | Network_Allowlist a, Network_Allowlist b => net_domains a ⊆ net_domains b /\ net_cidrs a ⊆ net_cidrs b
  | _, _ => False
  end.

Lemma network_le_refl p : network_le p p.
Proof. by destruct p. Qed.

Lemma widen_network_le base g : network_le (policy_network base) (widen_network_policy base g).
Proof.
  unfold widen_network_policy. destruct (policy_network base) as [|a|], g as [[b|]|]; simpl; try done.
  split; intros x Hx; apply elem_of_union_strings; by left.
Qed.

(** ** Properties *)

(** C19.  Permission grants never unlock protected paths: whatever profile is granted
    on top of a policy, a path that the widened policy lets be written lies inside
    none of the paths the base policy protects. *)
Theorem grants_never_unlock_protected base granted p path c r r' :
  apply_granted_permission_profile base granted = Ok p ->
  assert_filesystem_access p path Access_Write = Ok tt ->
  canonicalize_policy_path path = Ok c ->
  r ∈ protected_paths (policy_filesystem base) ->
  canonicalize_policy_path r = Ok r' ->
  path_starts_with c r' = false.
Proof.
  intros Ha (g & c' & Hg & Hc' & Hp & _)%assert_filesystem_access_Ok Hc Hr Hr'.
  assert (c' = c) as -> by congruence.
  assert (Hf : exists f, canonicalize_filesystem_policy (policy_filesystem base) = Ok f).
  { unfold apply_granted_permission_profile in Ha. destruct (granted_is_empty granted).
    - injection Ha as <-. eauto.
    - destruct (canonicalize_filesystem_policy (policy_filesystem base)); [eauto | done]. }
  destruct Hf as [f Hf].
  destruct (apply_granted_Ok base granted p f Ha Hf) as (g' & ? & ? & Hg' & _ & _ & Hpp & _).
  assert (g' = g) as -> by congruence.
  destruct (canonicalize_filesystem_Ok _ _ Hf) as (_ & _ & _ & Hset).
  assert (Hin : r' ∈ protected_paths g).
  { apply Hpp, (proj1 (canonical_set_spec _ _ Hset)). eauto. }
  destruct (path_starts_with c r') eqn:E; [|done].
  assert (Ht : path_is_inside_any_root c (protected_paths g) = true).
  { apply inside_any_root_spec. eauto. }
  by rewrite Hp in Ht.
Qed.

(** Permission grants only widen: an access the base policy allows is allowed
    by the policy with the grant, and the network lets through at least as much. *)
Theorem grants_only_widen base granted p path access :
  apply_granted_permission_profile base granted = Ok p ->
  assert_filesystem_access base path access = Ok tt ->
  assert_filesystem_access p path access = Ok tt
  /\ network_le (policy_network base) (policy_network p).
Proof.
  intros Ha (f & c & Hf & Hc & Hp & Hok)%assert_filesystem_access_Ok.
  destruct (apply_granted_mode _ _ _ Ha) as [Hm Hn]. split.
  - destruct (apply_granted_Ok base granted p f Ha Hf)
      as (g & r & w & Hg & _ & _ & Gp & Gx & Gw & Gr).
    apply assert_filesystem_access_Ok. exists g, c. split; [done|]. split; [done|]. split.
    + intros Hw. rewrite <- (Hp Hw). by apply inside_any_root_equiv.
    + destruct Hok as [Hu|Hin].
      * left. apply (unrestricted_after_grant base p f g); try done; intros Hd Hnil;
          apply nil_iff_no_elem; intros q; rewrite ?Gw, ?Gr, Hnil; set_solver.
      * right. revert Hin. apply inside_any_root_mono. apply allowed_roots_mono; naive_solver.
  - rewrite Hn. destruct (granted_is_empty granted); [apply network_le_refl | apply widen_network_le].
Qed.

(** A granted root is usable: under any mode but full access, a path inside a
    granted write root is writable unless it is protected, and readable; a path
    inside a granted read root is readable. *)
Theorem granted_root_is_usable base granted p f path c root root' :
  policy_mode base <> DangerFullAccess ->
  apply_granted_permission_profile base granted = Ok p ->
  canonicalize_filesystem_policy (policy_filesystem base) = Ok f ->
  canonicalize_policy_path path = Ok c ->
  canonicalize_policy_path root = Ok root' ->
  path_starts_with c root' = true ->
  (root ∈ granted_write_roots (granted_file_system granted) ->
     path_is_inside_any_root c (protected_paths f) = false ->
     assert_filesystem_access p path Access_Write = Ok tt)
  /\ (root ∈ granted_write_roots (granted_file_system granted)
      \/ root ∈ granted_read_roots (granted_file_system granted) ->
     assert_filesystem_access p path Access_Read = Ok tt).
Proof.
  intros Hm Ha Hf Hc Hr Hs.
  destruct (apply_granted_Ok base granted p f Ha Hf) as (g & r & w & Hg & Hne & He & Gp & Gx & Gw & Gr).
  assert (Hin : (root ∈ granted_write_roots (granted_file_system granted) -> root' ∈ w)
    /\ (root ∈ granted_read_roots (granted_file_system granted) -> root' ∈ r)).
  { destruct (granted_is_empty granted) eqn:Eg.
    - unfold granted_is_empty, granted_filesystem_is_empty in Eg.
      rewrite !andb_true_iff, !is_nil_true in Eg. destruct Eg as [[-> ->] _].
      split; intros Hx; by inversion Hx.
    - destruct (Hne eq_refl) as [Er Ew]. split; intros Hx.
      + apply (proj1 (canonical_set_spec _ _ Ew)). eauto.
      + apply (proj1 (canonical_set_spec _ _ Er)). eauto. }
  split.
  - intros Hw Hp. apply assert_filesystem_access_Ok. exists g, c. split; [done|]. split; [done|].
    split; [intros _; rewrite <- Hp; by apply inside_any_root_equiv|].
    right. apply inside_any_root_spec. exists root'. simpl. rewrite Gw. naive_solver.
  - intros Hor. apply assert_filesystem_access_Ok. exists g, c. split; [done|]. split; [done|].
    split; [done|]. right. apply inside_any_root_spec. exists root'. split; [|done]. simpl.
    unfold accessible_roots_for_filesystem. rewrite elem_of_dedup, !elem_of_app, Gr. naive_solver.
Qed.

End Canonical.

(** ** A concrete host *)

(** Every path exists and there are no links. *)
Definition plain_fs : FileSystem := {|
  fs_exists := fun _ => true;
  fs_canonicalize := fun p => Ok (if is_absolute p then p else "/" :: p);
  fs_current_dir := Ok ["/"]
|}.

#[global] Instance plain_fs_laws : FileSystemLaws plain_fs.
Proof.
  split; simpl; try done.
  - intros p q [= <-]. destruct (is_absolute p) eqn:E; [by rewrite E | done].
  - intros p q [= <-]. destruct (is_absolute p) eqn:E; [|by eexists].
    unfold is_absolute in E. destruct p as [|c p]; [done|].
    repeat (case_match; simplify_eq; try done). by eexists.
Qed.

Section Witnesses.
#[local] Existing Instance plain_fs.

Definition repo_policy : SandboxPolicy :=
  recommended_for_scope (mkSandboxScope ["/"; "repo"] None [] [] [] [] None true).

Definition tmp_grant : GrantedPermissionProfile :=
  mkGrantedPermissionProfile (mkGrantedFilesystemPermissions [] [["/"; "tmp"]; ["/"; "repo"]]) None.

Definition widened_policy : SandboxPolicy :=
  mkSandboxPolicy WorkspaceWrite
    (mkFilesystemPolicy [["/"; "repo"]; ["/"; "tmp"]] [["/"; "repo"]; ["/"; "tmp"]] []
       [["/"; "repo"; ".codex"]; ["/"; "repo"; ".git"]; ["/"; "repo"; ".nanoclaw"]])
    Network_Off HostEscape_Deny false.

Lemma grants_never_unlock_protected_witness :
  path_starts_with ["/"; "repo"; "src"; "lib.rs"] ["/"; "repo"; ".git"] = false.
Proof.
  apply (grants_never_unlock_protected repo_policy tmp_grant widened_policy
           ["/"; "repo"; "src"; "lib.rs"] _ ["/"; "repo"; ".git"]); try reflexivity.
  apply (bool_decide_unpack _). vm_compute. exact I.
Defined.

Lemma grants_only_widen_witness :
  assert_filesystem_access widened_policy ["/"; "repo"; "src"] Access_Read = Ok tt
  /\ network_le Network_Off Network_Off.
Proof.
  apply (grants_only_widen repo_policy tmp_grant widened_policy); reflexivity.
Defined.

Lemma granted_root_is_usable_witness :
  assert_filesystem_access widened_policy ["/"; "tmp"; "out"] Access_Write = Ok tt.
Proof.
  apply (granted_root_is_usable repo_policy tmp_grant widened_policy
           (policy_filesystem repo_policy) ["/"; "tmp"; "out"] ["/"; "tmp"; "out"]
           ["/"; "tmp"] ["/"; "tmp"]); try reflexivity; [discriminate|].
  apply (bool_decide_unpack _). vm_compute. exact I.
Defined.

(** A full-access policy that only lists executable roots. *)
Definition exec_only_policy : SandboxPolicy :=
  mkSandboxPolicy DangerFullAccess (mkFilesystemPolicy [] [] [["/"; "bin"]] []) Network_Full
    HostEscape_HostManaged false.

Definition read_grant : GrantedPermissionProfile :=
  mkGrantedPermissionProfile (mkGrantedFilesystemPermissions [["/"; "data"]] []) None.

(** A read grant can be lost: under full access with executable roots only,
    reads are limited to those roots, yet applying a read grant succeeds and leaves
    the granted root unreadable. *)
Theorem read_grant_lost_under_full_access :
  apply_granted_permission_profile exec_only_policy read_grant = Ok exec_only_policy
  /\ is_ok (assert_filesystem_access exec_only_policy ["/"; "data"; "f"] Access_Read) = false.
Proof. split; reflexivity. Qed.

End Witnesses.
