(* ===== verification/Tools.v ===== *)
(** * Tool registry and execution context

    Models [crates/tools/src/registry.rs] (tools by canonical name, with aliases)
    and [crates/tools/src/context.rs] (the context a tool executes in).  A
    [dyn Tool] is its specification and a handle that names its implementation;
    a handler object of the context is an opaque handle, and the write guard is
    its one method. *)

From Stdlib Require Import String.
From stdpp Require Import base list gmap strings.
From Stdlib Require Import Lia.
From S2P Require Import Prelude BTree Message Errors WriteLease SandboxPolicy.

Section Tools.
Context {J : SerdeJson}.

(** ** The registry *)

(* crates/tools/src/registry.rs, Tool *)
Record Tool := mkTool {
  tool_spec : ToolSpec;
  tool_handle : nat
}.

(* crates/tools/src/registry.rs, ToolEntry *)
Record ToolEntry := mkToolEntry {
  entry_spec : ToolSpec;
  entry_tool : Tool
}.

(* crates/tools/src/registry.rs, ToolRegistryState *)
Record ToolRegistry := mkToolRegistry {
  reg_tools : btree ToolEntry;
  reg_aliases : gmap ToolName ToolName
}.

(* crates/tools/src/registry.rs, ToolRegistry::new *)
Definition ToolRegistry_new : ToolRegistry := mkToolRegistry [] ∅.

(* crates/tools/src/registry.rs, ToolRegistryState::canonical_name_for *)
Definition canonical_name_for (r : ToolRegistry) (name : string) : option ToolName :=
  match bt_get name (reg_tools r) with
  | Some _ => Some name
  | None => reg_aliases r !! name
  end.

(** [aliases.retain(|alias| alias != &name && seen.insert(alias))]. *)
Fixpoint retain_aliases (name : ToolName) (seen : list ToolName) (aliases : list ToolName)
    : list ToolName :=
  match aliases with
  | [] => []
  | alias :: rest =>
      if bool_decide (alias <> name) && negb (bool_decide (alias ∈ seen))
      then alias :: retain_aliases name (alias :: seen) rest
      else retain_aliases name seen rest
  end.

Definition with_aliases (spec : ToolSpec) (aliases : list ToolName) : ToolSpec :=
  mkToolSpec (spec_name spec) (spec_description spec) (spec_kind spec) (spec_input_schema spec)
    (spec_freeform_format spec) (spec_freeform_availability spec) (spec_output_mode spec)
    (spec_output_schema spec) (spec_defer_loading spec) (spec_origin spec) (spec_source spec)
    aliases (spec_supports_parallel_tool_calls spec) (spec_availability spec)
    (spec_approval spec) (spec_mcp_boundary spec) (spec_mcp_server_boundaries spec).

(** [state.tools.contains_key(name) || state.aliases.contains_key(name)]. *)
Definition taken (r : ToolRegistry) (name : string) : bool :=
  bool_decide (is_Some (bt_get name (reg_tools r)))
  || bool_decide (is_Some (reg_aliases r !! name)).

(* crates/tools/src/registry.rs, ToolRegistry::insert_entry *)
Definition insert_entry (r : ToolRegistry) (entry : ToolEntry)
    : result unit ToolError * ToolRegistry :=
  let name := spec_name (entry_spec entry) in
  if taken r name then
    (Err (ToolErr_InvalidState ("tool registry already contains " +:+ bt +:+ name +:+ bt)), r)
  else
    let aliases := retain_aliases name [] (spec_aliases (entry_spec entry)) in
    let entry := mkToolEntry (with_aliases (entry_spec entry) aliases) (entry_tool entry) in
    match List.find (taken r) aliases with
    | Some alias =>
        (Err (ToolErr_InvalidState
                ("tool registry alias " +:+ bt +:+ alias +:+ bt
                   +:+ " conflicts with an existing tool")), r)
    | None =>
        (Ok tt,
         mkToolRegistry (bt_insert name entry (reg_tools r))
           (foldl (fun m alias => <[alias := name]> m) (reg_aliases r) aliases))
    end.

(* crates/tools/src/registry.rs, ToolRegistry::try_register_arc *)
Definition try_register_arc (r : ToolRegistry) (tool : Tool)
    : result unit ToolError * ToolRegistry :=
  insert_entry r (mkToolEntry (tool_spec tool) tool).

(* crates/tools/src/registry.rs, ToolRegistry::remove *)
Definition registry_remove (r : ToolRegistry) (name : string) : bool * ToolRegistry :=
  match canonical_name_for r name with
  | None => (false, r)
  | Some canonical =>
      match bt_get canonical (reg_tools r) with
      | None => (false, r)
      | Some _ =>
          (true,
           mkToolRegistry (bt_remove canonical (reg_tools r))
             (base.filter (fun p => p.2 <> canonical) (reg_aliases r)))
      end
  end.

(* crates/tools/src/registry.rs, ToolRegistry::get *)
Definition registry_get (r : ToolRegistry) (name : string) : option Tool :=
  canonical ← canonical_name_for r name;
  entry_tool <$> bt_get canonical (reg_tools r).

(* crates/tools/src/registry.rs, ToolRegistry::specs *)
Definition registry_specs (r : ToolRegistry) : list ToolSpec :=
  map (fun p => entry_spec p.2) (reg_tools r).

(* crates/tools/src/registry.rs, ToolRegistry::names *)
Definition registry_names (r : ToolRegistry) : list ToolName := map fst (reg_tools r).

(* crates/tools/src/registry.rs, ToolRegistry::filtered_by_names *)
Definition filtered_by_names (r : ToolRegistry) (allowed_names : list ToolName) : ToolRegistry :=
  let allowed : gset ToolName := list_to_set (omap (canonical_name_for r) allowed_names) in
  mkToolRegistry
    (List.filter (fun p => bool_decide (p.1 ∈ allowed)) (reg_tools r))
    (base.filter (fun p => p.2 ∈ allowed) (reg_aliases r)).

(** ** The execution context *)

(* crates/tools/src/context.rs, ToolExecutionContext *)
Record ToolExecutionContext := mkToolExecutionContext {
  tc_workspace_root : PathBuf;
  tc_worktree_root : option PathBuf;
  tc_active_worktree_id : option string;
  tc_sandbox_root : option PathBuf;
  tc_additional_roots : list PathBuf;
  tc_read_only_roots : list PathBuf;
  tc_writable_roots : list PathBuf;
  tc_exec_roots : list PathBuf;
  tc_network_policy : option NetworkPolicy;
  tc_effective_sandbox_policy : option SandboxPolicy;
  tc_workspace_only : bool;
  tc_container_workdir : option string;
  tc_model_context_window_tokens : option N;
  tc_session_id : option SessionId;
  tc_agent_session_id : option AgentSessionId;
  tc_turn_id : option TurnId;
  tc_agent_id : option AgentId;
  tc_agent_name : option string;
  tc_task_id : option string;
  tc_allowed_mcp_servers : option (gset McpServerName);
  tc_allowed_skill_names : option (gset string);
  tc_tool_name : option ToolName;
  tc_tool_call_id : option CallId;
  tc_model_visibility : ToolVisibilityContext;
  tc_write_guard : option (option AgentId -> list PathBuf -> result unit ToolError);
  tc_user_input_handler : option nat;
  tc_permission_request_handler : option nat;
  tc_checkpoint_handler : option nat;
  tc_session_control_handler : option nat;
  tc_task_manager : option nat
}.

(* crates/tools/src/context.rs, ToolExecutionContext::effective_root *)
Definition effective_root (c : ToolExecutionContext) : PathBuf :=
  default (tc_workspace_root c) (tc_sandbox_root c).

(* crates/tools/src/context.rs, ToolExecutionContext::worktree_root *)
Definition context_worktree_root (c : ToolExecutionContext) : PathBuf :=
  default (tc_workspace_root c) (tc_worktree_root c).

(* crates/tools/src/context.rs, ToolExecutionContext::accessible_roots *)
Definition context_accessible_roots (c : ToolExecutionContext) : list PathBuf :=
  effective_root c :: option_list (tc_worktree_root c) ++ tc_additional_roots c
    ++ tc_read_only_roots c ++ tc_writable_roots c ++ tc_exec_roots c.

(* crates/tools/src/context.rs, ToolExecutionContext::sandbox_scope *)
Definition sandbox_scope (c : ToolExecutionContext) : SandboxScope :=
  mkSandboxScope (effective_root c) (tc_worktree_root c) (tc_additional_roots c)
    (tc_read_only_roots c) (tc_writable_roots c) (tc_exec_roots c) (tc_network_policy c)
    (tc_workspace_only c).

(* crates/sandbox/src/policy.rs, SandboxScope::recommended_policy *)
Definition recommended_policy (s : SandboxScope) : SandboxPolicy := recommended_for_scope s.

(* crates/tools/src/context.rs, ToolExecutionContext::sandbox_policy *)
Definition sandbox_policy (c : ToolExecutionContext) : SandboxPolicy :=
  default (recommended_policy (sandbox_scope c)) (tc_effective_sandbox_policy c).

Definition lift_sandbox {A} (r : result A SandboxError) : result A ToolError :=
  match r with Ok a => Ok a | Err e => Err (ToolErr_Sandbox e) end.

(* crates/tools/src/context.rs, ToolExecutionContext::assert_path_read_allowed *)
Definition assert_path_read_allowed `{FileSystem} (c : ToolExecutionContext) (path : PathBuf)
    : result unit ToolError :=
  lift_sandbox (assert_filesystem_access (sandbox_policy c) path Access_Read).

(* crates/tools/src/context.rs, ToolExecutionContext::assert_path_write_allowed *)
Definition assert_path_write_allowed `{FileSystem} (c : ToolExecutionContext) (path : PathBuf)
    : result unit ToolError :=
  _ <-? lift_sandbox (assert_filesystem_access (sandbox_policy c) path Access_Write);
  match tc_write_guard c with
  | Some guard => guard (tc_agent_id c) [path]
  | None => Ok tt
  end.

(* crates/tools/src/context.rs, ToolExecutionContext::assert_path_execute_allowed *)
Definition assert_path_execute_allowed `{FileSystem} (c : ToolExecutionContext) (path : PathBuf)
    : result unit ToolError :=
  if is_nil (tc_exec_roots c) then
    Err (ToolErr_InvalidInput ("execute access is not granted for " +:+ path_display path))
  else lift_sandbox (assert_filesystem_access (sandbox_policy c) path Access_Execute).

(* crates/tools/src/context.rs, ToolExecutionContext::is_mcp_server_allowed *)
Definition is_mcp_server_allowed (c : ToolExecutionContext) (server_name : McpServerName) : bool :=
  match tc_allowed_mcp_servers c with
  | None => true
  | Some servers => bool_decide (server_name ∈ servers)
  end.

(* crates/tools/src/context.rs, ToolExecutionContext::assert_mcp_server_allowed *)
Definition assert_mcp_server_allowed (c : ToolExecutionContext) (server_name : McpServerName)
    : result unit ToolError :=
  if is_mcp_server_allowed c server_name then Ok tt
  else Err (ToolErr_InvalidState
              ("MCP server " +:+ bt +:+ server_name +:+ bt +:+ " is not allowed for this agent")).

(* crates/tools/src/context.rs, ToolExecutionContext::is_skill_allowed *)
Definition is_skill_allowed (c : ToolExecutionContext) (skill_name : string) : bool :=
  match tc_allowed_skill_names c with
  | None => true
  | Some skills => bool_decide (skill_name ∈ skills)
  end.

(* crates/tools/src/context.rs, ToolExecutionContext::assert_skill_allowed *)
Definition assert_skill_allowed (c : ToolExecutionContext) (skill_name : string)
    : result unit ToolError :=
  if is_skill_allowed c skill_name then Ok tt
  else Err (ToolErr_InvalidState
              ("skill " +:+ bt +:+ skill_name +:+ bt +:+ " is not allowed for this agent")).

(* crates/tools/src/context.rs, ToolExecutionContext::with_sandbox_policy *)
Definition with_sandbox_policy (c : ToolExecutionContext) (policy : SandboxPolicy)
    : ToolExecutionContext :=
  mkToolExecutionContext (tc_workspace_root c) (tc_worktree_root c) (tc_active_worktree_id c)
    (tc_sandbox_root c) (tc_additional_roots c) (tc_read_only_roots c) (tc_writable_roots c)
    (tc_exec_roots c) (tc_network_policy c) (Some policy) (tc_workspace_only c)
    (tc_container_workdir c) (tc_model_context_window_tokens c) (tc_session_id c)
    (tc_agent_session_id c) (tc_turn_id c) (tc_agent_id c) (tc_agent_name c) (tc_task_id c)
    (tc_allowed_mcp_servers c) (tc_allowed_skill_names c) (tc_tool_name c) (tc_tool_call_id c)
    (tc_model_visibility c) (tc_write_guard c) (tc_user_input_handler c)
    (tc_permission_request_handler c) (tc_checkpoint_handler c) (tc_session_control_handler c)
    (tc_task_manager c).

(* crates/tools/src/context.rs, ToolExecutionContext::with_runtime_scope *)
Definition with_runtime_scope (c : ToolExecutionContext) (session_id : SessionId)
    (agent_session_id : AgentSessionId) (turn_id : TurnId) (tool_name : ToolName)
    (tool_call_id : CallId) : ToolExecutionContext :=
  mkToolExecutionContext (tc_workspace_root c) (tc_worktree_root c) (tc_active_worktree_id c)
    (tc_sandbox_root c) (tc_additional_roots c) (tc_read_only_roots c) (tc_writable_roots c)
    (tc_exec_roots c) (tc_network_policy c) (tc_effective_sandbox_policy c) (tc_workspace_only c)
    (tc_container_workdir c) (tc_model_context_window_tokens c) (Some session_id)
    (Some agent_session_id) (Some turn_id) (tc_agent_id c) (tc_agent_name c) (tc_task_id c)
    (tc_allowed_mcp_servers c) (tc_allowed_skill_names c) (Some tool_name) (Some tool_call_id)
    (tc_model_visibility c) (tc_write_guard c) (tc_user_input_handler c)
    (tc_permission_request_handler c) (tc_checkpoint_handler c) (tc_session_control_handler c)
    (tc_task_manager c).

Definition non_empty_trimmed (value : option string) : option string :=
  value ← value;
  if str_is_empty (trim value) then None else Some (trim value).

(* crates/tools/src/context.rs, ToolExecutionContext::with_agent_scope_metadata *)
Definition with_agent_scope_metadata (c : ToolExecutionContext) (agent_id : AgentId)
    (agent_name task_id : option string)
    (write_guard : option AgentId -> list PathBuf -> result unit ToolError)
    : ToolExecutionContext :=
  let name := non_empty_trimmed agent_name in
  let visibility :=
    match name with
    | Some role =>
        mkToolVisibilityContext (vis_provider (tc_model_visibility c))
          (vis_model (tc_model_visibility c)) (Some role) (vis_features (tc_model_visibility c))
    | None => tc_model_visibility c
    end in
  mkToolExecutionContext (tc_workspace_root c) (tc_worktree_root c) (tc_active_worktree_id c)
    (tc_sandbox_root c) (tc_additional_roots c) (tc_read_only_roots c) (tc_writable_roots c)
    (tc_exec_roots c) (tc_network_policy c) (tc_effective_sandbox_policy c) (tc_workspace_only c)
    (tc_container_workdir c) (tc_model_context_window_tokens c) (tc_session_id c)
    (tc_agent_session_id c) (tc_turn_id c) (Some agent_id) name (non_empty_trimmed task_id)
    (tc_allowed_mcp_servers c) (tc_allowed_skill_names c) (tc_tool_name c) (tc_tool_call_id c)
    visibility (Some write_guard) (tc_user_input_handler c)
    (tc_permission_request_handler c) (tc_checkpoint_handler c) (tc_session_control_handler c)
    (tc_task_manager c).

(** ** The registry invariant *)

(** Entries sit under their own name, no alias shadows a tool, and every alias
    resolves. *)
Record registry_ok (r : ToolRegistry) : Prop := {
  registry_keys : bt_ok (reg_tools r);
  registry_named : forall k e, bt_get k (reg_tools r) = Some e -> spec_name (entry_spec e) = k;
  registry_no_shadow : forall k, is_Some (reg_aliases r !! k) -> bt_get k (reg_tools r) = None;
  registry_resolves : forall k n, reg_aliases r !! k = Some n -> is_Some (bt_get n (reg_tools r))
}.

Inductive registry_step : ToolRegistry -> ToolRegistry -> Prop :=
| reg_insert r entry : registry_step r (insert_entry r entry).2
| reg_remove r name : registry_step r (registry_remove r name).2
| reg_filter r names : registry_step r (filtered_by_names r names).

Lemma taken_false r k :
  taken r k = false <-> bt_get k (reg_tools r) = None /\ reg_aliases r !! k = None.
Proof.
  unfold taken. rewrite orb_false_iff, !bool_decide_eq_false, <- !eq_None_not_Some. done.
Qed.

Lemma foldl_insert_lookup (l : list ToolName) (n : ToolName) (m : gmap ToolName ToolName) k :
  foldl (fun m a => <[a := n]> m) m l !! k = if decide (k ∈ l) then Some n else m !! k.
Proof.
  revert m. induction l as [|a l IH]; intros m; cbn [foldl].
  { by rewrite decide_False by (apply not_elem_of_nil). }
  rewrite IH. destruct (decide (k ∈ l)) as [Hl|Hl].
  - by rewrite decide_True by (by right).
  - destruct (decide (k = a)) as [->|Hne].
    + rewrite lookup_insert_eq. by rewrite decide_True by (by left).
    + rewrite lookup_insert_ne by done. rewrite decide_False; [done|].
      intros [|]%elem_of_cons; done.
Qed.

Lemma retain_aliases_not_name n seen l : n ∉ retain_aliases n seen l.
Proof.
  revert seen. induction l as [|a l IH]; intros seen; simpl; [apply not_elem_of_nil|].
  destruct (bool_decide_reflect (a <> n)); simpl; [|apply IH].
  destruct (negb _); [|apply IH]. rewrite not_elem_of_cons. auto.
Qed.

Lemma elem_of_retain_aliases n seen l k :
  k ∈ retain_aliases n seen l <-> k ∈ l /\ k <> n /\ k ∉ seen.
Proof.
  revert seen. induction l as [|a l IH]; intros seen; simpl; [set_solver|].
  destruct (bool_decide_reflect (a <> n)) as [Ha|Ha]; simpl.
  - destruct (bool_decide_reflect (a ∈ seen)) as [Hs|Hs]; simpl.
    + rewrite IH. set_solver.
    + rewrite elem_of_cons, IH. destruct (decide (k = a)); set_solver.
  - rewrite IH. assert (a = n) as -> by (by destruct (decide (a = n))). set_solver.
Qed.

Lemma find_None_Forall {A} (f : A -> bool) l :
  List.find f l = None -> forall x, x ∈ l -> f x = false.
Proof. intros H x Hx. apply (List.find_none _ _ H). by apply list_elem_of_In. Qed.

(** What a successful insertion stores. *)
Lemma insert_entry_Ok r entry r' :
  insert_entry r entry = (Ok tt, r') ->
  let name := spec_name (entry_spec entry) in
  let aliases := retain_aliases name [] (spec_aliases (entry_spec entry)) in
  taken r name = false
  /\ (forall a, a ∈ aliases -> taken r a = false)
  /\ (exists e, entry_tool e = entry_tool entry /\ spec_name (entry_spec e) = name
      /\ reg_tools r' = bt_insert name e (reg_tools r))
  /\ (forall k, reg_aliases r' !! k = if decide (k ∈ aliases) then Some name else reg_aliases r !! k).
Proof.
  unfold insert_entry. destruct (taken r _) eqn:Et; [done|].
  destruct (List.find _ _) eqn:Ef; [done|]. intros [= <-]. simpl.
  split; [done|]. split; [by apply find_None_Forall|].
  split; [by eexists; split; [|split; [|reflexivity]]|]. intros k. apply foldl_insert_lookup.
Qed.

Lemma insert_entry_Err r entry e r' : insert_entry r entry = (Err e, r') -> r' = r.
Proof. unfold insert_entry. repeat case_match; naive_solver. Qed.

Lemma registry_ok_insert r entry r' :
  registry_ok r -> insert_entry r entry = (Ok tt, r') -> registry_ok r'.
Proof.
  intros [Hk Hn Hs Hr] (Ht & Ha & (e & _ & Hname & Htools) & Hal)%insert_entry_Ok.
  set (name := spec_name (entry_spec entry)) in *. apply taken_false in Ht as [Ht1 Ht2].
  constructor; rewrite ?Htools.
  - by apply bt_ok_insert.
  - intros k x. rewrite bt_get_insert. destruct (String.eqb_spec k name) as [->|]; [|apply Hn].
    by intros [= <-].
  - intros k. rewrite Hal, bt_get_insert. destruct (decide (k ∈ _)) as [Hin|Hin].
    + intros _. destruct (String.eqb_spec k name) as [->|].
      * by apply retain_aliases_not_name in Hin.
      * by apply Ha, taken_false in Hin as [? _].
    + intros Hsome. destruct (String.eqb_spec k name) as [->|]; [|auto].
      rewrite Ht2 in Hsome. by destruct Hsome.
  - intros k n. rewrite Hal, bt_get_insert. destruct (decide (k ∈ _)).
    + intros [= <-]. rewrite String.eqb_refl. by eexists.
    + intros Hkn%Hr. destruct (String.eqb n name); [by eexists | done].
Qed.

Lemma registry_ok_remove r name : registry_ok r -> registry_ok (registry_remove r name).2.
Proof.
  intros [Hk Hn Hs Hr]. unfold registry_remove.
  destruct (canonical_name_for r name) as [c|]; [|by constructor].
  destruct (bt_get c (reg_tools r)) eqn:Ec; [|by constructor]. constructor; simpl.
  - by apply bt_ok_remove.
  - intros k x. rewrite bt_get_remove. destruct (String.eqb k c); [done | apply Hn].
  - intros k [n Hkn]. rewrite bt_get_remove. destruct (String.eqb k c); [done|].
    apply Hs. apply map_lookup_filter_Some in Hkn as [Hkn _]. by eexists.
  - intros k n Hkn. apply map_lookup_filter_Some in Hkn as [Hkn Hne]. simpl in Hne.
    rewrite bt_get_remove. destruct (String.eqb_spec n c); [done|]. by apply (Hr k).
Qed.

Lemma bt_get_filter {V} (f : string -> bool) (m : btree V) k :
  bt_get k (List.filter (fun p => f p.1) m) = if f k then bt_get k m else None.
Proof.
  induction m as [|[x v] m IH]; simpl; [by destruct (f k)|].
  destruct (String.eqb_spec k x) as [->|Hk].
  - destruct (f x) eqn:Ex; simpl; [by rewrite String.eqb_refl | by rewrite IH].
  - apply String.eqb_neq in Hk. destruct (f x); simpl; [rewrite Hk|]; apply IH.
Qed.

Lemma bt_ok_filter {V} (f : string * V -> bool) (m : btree V) : bt_ok m -> bt_ok (List.filter f m).
Proof.
  unfold bt_ok. induction m as [|[x v] m IH]; simpl; [done|]. rewrite NoDup_cons. intros [Hx Hnd].
  destruct (f (x, v)); simpl; [|auto]. apply NoDup_cons. split; [|auto]. intros Hin. apply Hx.
  apply list_elem_of_fmap in Hin as ([y u] & -> & Hy). apply list_elem_of_In, filter_In in Hy as [Hy _].
  apply list_elem_of_fmap. exists (y, u). split; [done|]. by apply list_elem_of_In.
Qed.

Lemma registry_ok_filter r names : registry_ok r -> registry_ok (filtered_by_names r names).
Proof.
  intros [Hk Hn Hs Hr]. unfold filtered_by_names. set (allowed := list_to_set _).
  assert (Hg := bt_get_filter (V := ToolEntry) (fun k => bool_decide (k ∈ allowed)) (reg_tools r)).
  constructor; simpl.
  - by apply bt_ok_filter.
  - intros k e. rewrite Hg. destruct (bool_decide _); [apply Hn | done].
  - intros k [n Hkn]. apply map_lookup_filter_Some in Hkn as [Hkn _].
    rewrite Hg, Hs by (by eexists). by destruct (bool_decide _).
  - intros k n Hkn. apply map_lookup_filter_Some in Hkn as [Hkn Hin]. simpl in Hin.
    rewrite Hg, bool_decide_eq_true_2 by done. by apply (Hr k).
Qed.

Lemma registry_reachable r : rtc registry_step ToolRegistry_new r -> registry_ok r.
Proof.
  intros H. assert (H0 : registry_ok ToolRegistry_new).
  { constructor; simpl; [constructor | done | |]; intros k; rewrite lookup_empty; [by intros [] | done]. }
  revert H0. induction H as [|x y z Hs _ IH]; [done|]. intros Hx. apply IH.
  destruct Hs as [r entry|r name|r names].
  - destruct (insert_entry r entry) as [[[]|e] r'] eqn:E; simpl.
    + by eapply registry_ok_insert.
    + by apply insert_entry_Err in E as ->.
  - by apply registry_ok_remove.
  - by apply registry_ok_filter.
Qed.

(** ** Properties *)

(** The registry resolves names consistently: in every reachable registry, a
    tool is found under a name exactly when the name is its canonical name or one
    alias registered for it, never both, and the tool found is the one stored
    under the canonical name. *)
Theorem registry_lookup_consistent r name tool :
  rtc registry_step ToolRegistry_new r ->
  registry_get r name = Some tool <->
  exists e, entry_tool e = tool
    /\ ((bt_get name (reg_tools r) = Some e /\ spec_name (entry_spec e) = name
         /\ reg_aliases r !! name = None)
        \/ (reg_aliases r !! name = Some (spec_name (entry_spec e))
            /\ bt_get name (reg_tools r) = None
            /\ bt_get (spec_name (entry_spec e)) (reg_tools r) = Some e)).
Proof.
  intros [Hk Hn Hs Hr]%registry_reachable. unfold registry_get, canonical_name_for.
  destruct (bt_get name (reg_tools r)) as [e|] eqn:En; simpl.
  - rewrite En. simpl. assert (Ha : reg_aliases r !! name = None).
    { destruct (reg_aliases r !! name) eqn:Ea; [|done]. rewrite Hs in En by (by eexists). done. }
    split; [intros [= <-]; exists e; split; [done|]; left; eauto|].
    intros (e' & <- & [(He & _)|(He & _)]); congruence.
  - destruct (reg_aliases r !! name) as [n|] eqn:Ea; simpl.
    + destruct (Hr _ _ Ea) as [e He]. rewrite He. simpl.
      split; [intros [= <-]; exists e; split; [done|]; right; by rewrite (Hn n e He)|].
      intros (e' & <- & [(? & _)|(Hn' & _ & He')]); congruence.
    + split; [done|]. intros (e' & _ & [(? & _)|(? & _)]); done.
Qed.

(** Registering a tool makes exactly its name and its aliases resolve to it: after
    a successful registration they do, every other name resolves as before, and
    a refused registration changes nothing. *)
Theorem registry_register_exact r tool :
  rtc registry_step ToolRegistry_new r ->
  match try_register_arc r tool with
  | (Ok _, r') => forall k,
      registry_get r' k =
      if decide (k = spec_name (tool_spec tool) \/ k ∈ spec_aliases (tool_spec tool))
      then Some tool else registry_get r k
  | (Err _, r') => r' = r /\ exists k,
      (k = spec_name (tool_spec tool) \/ k ∈ spec_aliases (tool_spec tool)) /\ taken r k = true
  end.
Proof.
  intros Hreach. assert (Hok := registry_reachable r Hreach).
  destruct (try_register_arc r tool) as [[[]|e] r'] eqn:E; unfold try_register_arc in E.
  - assert (Hok' := registry_ok_insert r _ r' Hok E).
    apply insert_entry_Ok in E as (Ht & Ha & (x & Hx & Hname & Htools) & Hal). simpl in *.
    set (name := spec_name (tool_spec tool)) in *.
    assert (Hin : forall k, k ∈ retain_aliases name [] (spec_aliases (tool_spec tool))
                  <-> k ∈ spec_aliases (tool_spec tool) /\ k <> name).
    { intros k. rewrite elem_of_retain_aliases. set_solver. }
    intros k. unfold registry_get, canonical_name_for. rewrite Htools, Hal, !bt_get_insert.
    destruct (String.eqb_spec k name) as [->|Hk]; simpl.
    + rewrite bt_get_insert, String.eqb_refl, decide_True by (by left). simpl. by rewrite Hx.
    + destruct (decide (k ∈ retain_aliases _ _ _)) as [Hka|Hka].
      * rewrite decide_True by (right; by apply Hin). apply Ha, taken_false in Hka as [-> _]. simpl.
        rewrite bt_get_insert, String.eqb_refl. simpl. by rewrite Hx.
      * rewrite decide_False by (intros [|]; [done|]; by apply Hka, Hin).
        apply taken_false in Ht as [Ht _].
        destruct (bt_get k (reg_tools r)) eqn:Ek; simpl.
        -- rewrite bt_get_insert. by destruct (String.eqb_spec k name).
        -- destruct (reg_aliases r !! k) as [n|] eqn:En; simpl; [|done].
           rewrite bt_get_insert. destruct (String.eqb_spec n name) as [->|]; [|done].
           destruct (registry_resolves r Hok _ _ En) as [y Hy]. congruence.
  - split; [by eapply insert_entry_Err|]. unfold insert_entry in E. simpl in E.
    destruct (taken r (spec_name (tool_spec tool))) eqn:Et; [eauto|].
    destruct (List.find _ _) as [a|] eqn:Ef; [|done]. apply find_some in Ef as [Hin Hta].
    apply list_elem_of_In, elem_of_retain_aliases in Hin. exists a. naive_solver.
Qed.

End Tools.

(** ** Concrete runs *)

Section Witnesses.
#[local] Existing Instance json_text.

Definition plain_spec (name : ToolName) (aliases : list ToolName) : ToolSpec :=
  mkToolSpec name "a tool" ToolKind_Function (Some "{}") None None OutputMode_Text None false
    Origin_Local Source_Builtin aliases false (mkToolAvailability [] [] [] [] false) ToolApprovalProfile_default
    None ∅.

Definition read_tool : Tool := mkTool (plain_spec "read" ["cat"; "read"; "cat"]) 1.
Definition write_tool : Tool := mkTool (plain_spec "write" []) 2.

Definition one_tool : ToolRegistry := (try_register_arc ToolRegistry_new read_tool).2.

Lemma one_tool_reachable : rtc registry_step ToolRegistry_new one_tool.
Proof. apply rtc_once. apply reg_insert. Defined.

Lemma registry_lookup_consistent_witness :
  exists e, entry_tool e = read_tool
    /\ ((bt_get "cat" (reg_tools one_tool) = Some e /\ spec_name (entry_spec e) = "cat"
         /\ reg_aliases one_tool !! "cat" = None)
        \/ (reg_aliases one_tool !! "cat" = Some (spec_name (entry_spec e))
            /\ bt_get "cat" (reg_tools one_tool) = None
            /\ bt_get (spec_name (entry_spec e)) (reg_tools one_tool) = Some e)).
Proof.
  apply (registry_lookup_consistent one_tool "cat" read_tool one_tool_reachable). reflexivity.
Defined.

Lemma registry_register_exact_witness :
  registry_get (try_register_arc one_tool write_tool).2 "write" = Some write_tool
  /\ registry_get (try_register_arc one_tool write_tool).2 "cat" = Some read_tool.
Proof.
  pose proof (registry_register_exact one_tool write_tool one_tool_reachable) as H.
  split; [exact (H "write") | exact (H "cat")].
Defined.

End Witnesses.
