(* ===== verification/PathPolicy.v ===== *)
(** * Tool paths and the disk

    Models [crates/tools/src/fs/path_policy.rs], the file-system calls of
    [mutation.rs] and the interfaces the file tools use ([checkpoint.rs],
    [file_activity.rs]).  The disk is a parameter: [Disk] gives the calls of
    [tokio::fs], [DiskLaws] what they guarantee about the text of files. *)

From Stdlib Require Import Ascii String.
From stdpp Require Import base list gmap strings.
From Stdlib Require Import Lia.
From S2P Require Import Prelude Text Message Events Errors WriteLease SandboxPolicy Tools.

(** ** Paths *)

(** [PathBuf::from]: the components of a path; [.] is kept only in front. *)
Definition not_dot (c : string) : bool := negb (String.eqb c ".").
Definition path_of_string (s : string) : PathBuf :=
  let parts := List.filter (fun c => negb (str_is_empty c)) (split_on "/" s) in
  if starts_with s "/" then "/" :: List.filter not_dot parts
  else match parts with
       | "." :: rest => "." :: List.filter not_dot rest
       | _ => List.filter not_dot parts
       end.

(** [Path::join]. *)
Definition path_join (root p : PathBuf) : PathBuf :=
  if is_absolute p then p
  else match root with [] => p | _ => root ++ List.filter not_dot p end.

(** [Path::parent]. *)
Definition path_parent (p : PathBuf) : option PathBuf :=
  match p with
  | [] => None
  | ["/"] => None
  | _ => Some (removelast p)
  end.

(* crates/tools/src/fs/path_policy.rs, map_container_path_to_workspace_root *)
Definition map_container_path_to_workspace_root (file_path : string) (root : PathBuf)
    (container_workdir : option string) : result PathBuf ToolError :=
  let candidate := trim file_path in
  let candidate := default candidate (strip_prefix "@" candidate) in
  let candidate := default candidate (strip_prefix "file://" candidate) in
  let path := path_of_string candidate in
  match container_workdir with
  | Some workdir =>
      let workdir := path_of_string workdir in
      if is_absolute path && path_starts_with path workdir
      then Ok (path_join root (drop (length workdir) path))
      else Ok path
  | None => Ok path
  end.

(* crates/tools/src/fs/path_policy.rs, resolve_tool_path_against_workspace_root *)
Definition resolve_tool_path_against_workspace_root (file_path : string) (root : PathBuf)
    (container_workdir : option string) : result PathBuf ToolError :=
  mapped <-? map_container_path_to_workspace_root file_path root container_workdir;
  Ok (if is_absolute mapped then mapped else path_join root mapped).

(** The call every file tool starts with. *)
Definition resolve_in (c : ToolExecutionContext) (file_path : string) : result PathBuf ToolError :=
  resolve_tool_path_against_workspace_root file_path (effective_root c) (tc_container_workdir c).

Section Prefixes.
Context {F : FileSystem}.

(** The loop of [normalize_for_prefix]; [suffix] collects the missing components,
    innermost last. *)
(* crates/tools/src/fs/path_policy.rs, normalize_for_prefix@while !existing_ancestor.exists() *)
Fixpoint prefix_ancestor (fuel : nat) (absolute p : PathBuf) (suffix : list string)
    : result (PathBuf * list string) ToolError :=
  if fs_exists p then Ok (p, suffix)
  else
    match file_name p, fuel with
    | Some name, S fuel => prefix_ancestor fuel absolute (removelast p) (name :: suffix)
    | _, _ => Err (ToolErr_InvalidInput ("path has no existing ancestor: " +:+ path_display absolute))
    end.

(* crates/tools/src/fs/path_policy.rs, normalize_for_prefix *)
Definition normalize_for_prefix (path : PathBuf) : result PathBuf ToolError :=
  if fs_exists path then
    match fs_canonicalize path with
    | Ok p => Ok p
    | Err source => Err (ToolErr_InvalidState ("failed to canonicalize " +:+ path_display path
                                                 +:+ ": " +:+ source))
    end
  else
    absolute <-?
      (if is_absolute path then Ok path
       else match fs_current_dir with
            | Ok dir => Ok (path_join dir path)
            | Err e => Err (ToolErr_Io e)
            end);
    found <-? prefix_ancestor (length absolute) absolute absolute [];
    match fs_canonicalize found.1 with
    | Ok normalized => Ok (foldl path_push normalized found.2)
    | Err e => Err (ToolErr_Io e)
    end.

(* crates/tools/src/fs/path_policy.rs, assert_path_inside_root *)
Definition assert_path_inside_root (path root : PathBuf) : result unit ToolError :=
  normalized_root <-? normalize_for_prefix root;
  normalized_path <-? normalize_for_prefix path;
  if path_starts_with normalized_path normalized_root then Ok tt
  else Err (ToolErr_InvalidInput ("Path escapes workspace root: " +:+ path_display normalized_path
                                    +:+ " is outside " +:+ path_display normalized_root)).

(* crates/tools/src/fs/path_policy.rs, assert_path_inside_allowed_roots *)
Definition assert_path_inside_allowed_roots (path : PathBuf) (roots : list PathBuf)
    : result unit ToolError :=
  normalized_path <-? normalize_for_prefix path;
  normalized_roots <-? map_result normalize_for_prefix roots;
  if existsb (fun root => path_starts_with normalized_path root) normalized_roots then Ok tt
  else Err (ToolErr_InvalidInput ("Path escapes allowed roots: " +:+ path_display normalized_path
              +:+ " is outside [" +:+ str_join ", " (map path_display normalized_roots) +:+ "]")).

End Prefixes.

(** ** The disk *)

(** [std::io::Error]: its kind where the code looks at it, its text otherwise. *)
Inductive IoError := Io_NotFound | Io_Other (text : string).

Class Disk := {
  DiskState : Type;
  (** [read_to_string], [create_dir_all], [write], [try_exists], [remove_file] *)
  disk_read : DiskState -> PathBuf -> result string IoError;
  disk_create_dir_all : DiskState -> PathBuf -> result unit string * DiskState;
  disk_write : DiskState -> PathBuf -> string -> result unit string * DiskState;
  disk_try_exists : DiskState -> PathBuf -> result bool string;
  disk_remove_file : DiskState -> PathBuf -> result unit string * DiskState;
  (** what the sandbox checks see *)
  disk_view : DiskState -> FileSystem;
  (** whether two paths name the same file *)
  disk_same : PathBuf -> PathBuf -> bool
}.

(** The text of a file, if the path names a readable text file. *)
Definition file_text `{Disk} (d : DiskState) (p : PathBuf) : option string :=
  match disk_read d p with Ok content => Some content | Err _ => None end.

(** What the calls guarantee: a call changes only the file it names, a successful
    write is what is read back, a removed file is gone, and creating directories
    changes no file.  The links between paths do not change. *)
Class DiskLaws (D : Disk) : Prop := {
  same_refl : forall p, disk_same p p = true;
  same_text : forall d p q, disk_same p q = true -> file_text d p = file_text d q;
  create_dir_text : forall d p q, file_text (disk_create_dir_all d p).2 q = file_text d q;
  write_other : forall d p c q, disk_same p q = false ->
    file_text (disk_write d p c).2 q = file_text d q;
  write_same : forall d p c, (disk_write d p c).1 = Ok tt ->
    file_text (disk_write d p c).2 p = Some c;
  remove_other : forall d p q, disk_same p q = false ->
    file_text (disk_remove_file d p).2 q = file_text d q;
  remove_same : forall d p, (disk_remove_file d p).1 = Ok tt ->
    file_text (disk_remove_file d p).2 p = None;
  exists_text : forall d p, disk_try_exists d p = Ok false -> file_text d p = None
}.

Section DiskCalls.
Context {D : Disk}.

(* crates/tools/src/fs/mutation.rs, load_optional_text_file *)
Definition load_optional_text_file (d : DiskState) (path : PathBuf)
    : result (option string) ToolError :=
  match disk_read d path with
  | Ok content => Ok (Some content)
  | Err Io_NotFound => Ok None
  | Err (Io_Other e) => Err (ToolErr_Io e)
  end.

(** A call of the disk with [?]. *)
Definition io_call {A} (r : result A string * DiskState) : result A ToolError * DiskState :=
  (match r.1 with Ok a => Ok a | Err e => Err (ToolErr_Io e) end, r.2).

(* crates/tools/src/fs/mutation.rs, commit_text_file *)
Definition commit_text_file (d : DiskState) (path : PathBuf) (content : option string)
    : result unit ToolError * DiskState :=
  match content with
  | Some content =>
      let '(made, d) := match path_parent path with
                        | Some parent => io_call (disk_create_dir_all d parent)
                        | None => (Ok tt, d)
                        end in
      match made with
      | Ok _ => io_call (disk_write d path content)
      | Err e => (Err e, d)
      end
  | None =>
      match disk_try_exists d path with
      | Ok true => io_call (disk_remove_file d path)
      | Ok false => (Ok tt, d)
      | Err e => (Err (ToolErr_Io e), d)
      end
  end.

Context {L : DiskLaws D}.

Lemma load_text d p o : load_optional_text_file d p = Ok o -> file_text d p = o.
Proof.
  unfold load_optional_text_file, file_text.
  destruct (disk_read d p) as [c|[|e]]; by intros [= <-].
Qed.

(** A commit touches one file, and leaves it with the given content. *)
Lemma commit_other d p c q :
  disk_same p q = false -> file_text (commit_text_file d p c).2 q = file_text d q.
Proof.
  intros Hs. unfold commit_text_file. destruct c as [c|].
  - assert (Hd : file_text (match path_parent p with Some parent => io_call (disk_create_dir_all d parent)
                            | None => (Ok tt, d) end).2 q = file_text d q)
      by (destruct (path_parent p); [apply create_dir_text | done]).
    destruct (match path_parent p with Some _ => _ | None => _ end) as [[u|e] d1]; simpl in *; [|done].
    by rewrite write_other.
  - destruct (disk_try_exists d p) as [[]|]; simpl; [by apply remove_other | done..].
Qed.

Lemma commit_same d p c :
  (commit_text_file d p c).1 = Ok tt -> file_text (commit_text_file d p c).2 p = c.
Proof.
  unfold commit_text_file. destruct c as [c|].
  - destruct (match path_parent p with Some _ => _ | None => _ end) as [[u|e] d1]; simpl; [|done].
    destruct (disk_write d1 p c).1 as [[]|] eqn:E; [|done]. intros _. by apply write_same.
  - destruct (disk_try_exists d p) as [[]|] eqn:E; simpl; [|intros _; by apply exists_text | done].
    destruct (disk_remove_file d p).1 as [[]|] eqn:Er; [|done]. intros _. by apply remove_same.
Qed.

End DiskCalls.

(** ** The interfaces of the file tools *)

(* crates/tools/src/checkpoint.rs, CheckpointFileMutation *)
Record CheckpointFileMutation := mkCheckpointFileMutation {
  cfm_requested_path : string;
  cfm_resolved_path : PathBuf;
  cfm_before_text : option string;
  cfm_after_text : option string
}.

(* crates/tools/src/checkpoint.rs, CheckpointMutationRequest *)
Record CheckpointMutationRequest := mkCheckpointMutationRequest {
  cmr_summary : string;
  cmr_changed_files : list CheckpointFileMutation
}.

(* crates/tools/src/file_activity.rs, FileActivityObserver *)
Inductive FileActivity :=
| did_open (path : PathBuf)
| did_change (path : PathBuf)
| did_save (path : PathBuf)
| did_remove (path : PathBuf).

(** The host of the file tools: its state, the checkpoint handler and the activity
    observer a tool was given (by their number). *)
Class FileToolHost {J : SerdeJson} := {
  TWorld : Type;
  record_mutation : nat -> ToolExecutionContext -> CheckpointMutationRequest -> TWorld ->
    result CheckpointRecord ToolError * TWorld;
  file_activity : nat -> FileActivity -> TWorld -> TWorld
}.
