(* ===== verification/PatchFiles.v ===== *)
(** * Multi-file patches

    Models [crates/tools/src/fs/patch.rs], the part of [patch_freeform.rs] that
    turns the hunks of a freeform patch into operations, and the single-file tools
    of [edit.rs] and [write.rs].  Operations are staged in memory against the
    files as they are, then the changed files are committed.  The decoding of the
    tool arguments from JSON is a parameter ([FileToolInputs]). *)

From Stdlib Require Import Ascii String.
From stdpp Require Import base list gmap functions sorting strings.
From Stdlib Require Import Lia.
From S2P Require Import Prelude Text Message Events Errors TextBuffer Mutation PatchFreeform.
From S2P Require Import WriteLease SandboxPolicy Tools PathPolicy.

(* crates/tools/src/fs/patch.rs, PatchOperation *)
Inductive PatchOperation :=
| Patch_Write (path content : string) (if_exists : option WriteExistingBehavior)
    (if_missing : option WriteMissingBehavior) (expected_snapshot : option string)
| Patch_Edit (path : string) (edits : list TextEditOperation) (expected_snapshot : option string)
| Patch_Delete (path : string) (expected_snapshot : option string) (ignore_missing : option bool)
| Patch_Move (from_path to_path : string) (expected_snapshot : option string)
    (if_destination_exists : option WriteExistingBehavior) (ignore_missing : option bool).

(* crates/tools/src/fs/patch.rs, StagedFile *)
Record StagedFile := mkStagedFile {
  sf_display_path : string;
  sf_resolved_path : PathBuf;
  sf_baseline_content : option string;
  sf_content : option string
}.

(* crates/tools/src/fs/write.rs, WriteToolInput *)
Record WriteToolInput := mkWriteToolInput {
  wti_path : string;
  wti_content : string;
  wti_if_exists : option WriteExistingBehavior;
  wti_if_missing : option WriteMissingBehavior;
  wti_expected_snapshot : option string
}.

(* crates/tools/src/fs/edit.rs, EditToolInput *)
Record EditToolInput := mkEditToolInput {
  eti_path : string;
  eti_operation : TextEditOperation;
  eti_expected_snapshot : option string
}.

(** [serde_json::from_value] at the input types of the tools; the error is its text. *)
Class FileToolInputs (J : SerdeJson) := {
  decode_patch_input : Value -> result (list PatchOperation) string;
  decode_edit_input : Value -> result EditToolInput string;
  decode_write_input : Value -> result WriteToolInput string
}.

(* crates/tools/src/fs/patch.rs, PatchOperation::command_name *)
Definition command_name (op : PatchOperation) : string :=
  match op with
  | Patch_Write _ _ _ _ _ => "write"
  | Patch_Edit _ _ _ => "edit"
  | Patch_Delete _ _ _ => "delete"
  | Patch_Move _ _ _ _ _ => "move"
  end.

(* crates/tools/src/fs/patch.rs, PatchOperation::primary_path *)
Definition primary_path (op : PatchOperation) : string :=
  match op with
  | Patch_Write path _ _ _ _ | Patch_Edit path _ _ | Patch_Delete path _ _ => path
  | Patch_Move from_path _ _ _ _ => from_path
  end.

(** [Default] of the write behaviours. *)
(* crates/tools/src/fs/mutation.rs, WriteExistingBehavior *)
Definition existing_or_default (b : option WriteExistingBehavior) : WriteExistingBehavior :=
  default IfExists_Overwrite b.
(* crates/tools/src/fs/mutation.rs, WriteMissingBehavior *)
Definition missing_or_default (b : option WriteMissingBehavior) : WriteMissingBehavior :=
  default IfMissing_Create b.

(** [BTreeMap<PathBuf, StagedFile>]: the values in the order of the paths. *)
Definition path_le (p q : PathBuf) : Prop := path_compare p q <> Gt.
#[global] Instance path_le_dec p q : Decision (path_le p q).
Proof. unfold path_le. apply _. Defined.

Definition staged_le (a b : PathBuf * StagedFile) : Prop := path_le a.1 b.1.
#[global] Instance staged_le_dec a b : Decision (staged_le a b).
Proof. unfold staged_le. apply _. Defined.

Definition staged_values (m : gmap PathBuf StagedFile) : list StagedFile :=
  (merge_sort staged_le (map_to_list m)).*2.

Section PatchFiles.
Context {J : SerdeJson} {JD : JsonData J} {S256 : Sha256} {D : Disk} {H : FileToolHost}
        {I : FileToolInputs J}.

Definition present {A} (o : option A) : bool := match o with Some _ => true | None => false end.

(** What the loop over the operations keeps. *)
Record Stage := mkStage {
  st_staged : gmap PathBuf StagedFile;
  st_summaries : list string;
  st_metadata : list Value
}.

(* crates/tools/src/fs/patch.rs, compact_operation *)
Definition compact_operation (op : PatchOperation) : Value :=
  match op with
  | Patch_Write path content if_exists if_missing expected_snapshot =>
      jd_object [("command", jd_string "write"); ("path", jd_string path);
                 ("content_bytes", jd_usize (String.length content));
                 ("if_exists", existing_behavior_json (existing_or_default if_exists));
                 ("if_missing", missing_behavior_json (missing_or_default if_missing));
                 ("has_expected_snapshot", jd_bool (present expected_snapshot))]
  | Patch_Edit path edits expected_snapshot =>
      jd_object [("command", jd_string "edit"); ("path", jd_string path);
                 ("edit_count", jd_usize (length edits));
                 ("has_expected_snapshot", jd_bool (present expected_snapshot))]
  | Patch_Delete path expected_snapshot ignore_missing =>
      jd_object [("command", jd_string "delete"); ("path", jd_string path);
                 ("ignore_missing", jd_bool (default false ignore_missing));
                 ("has_expected_snapshot", jd_bool (present expected_snapshot))]
  | Patch_Move from_path to_path expected_snapshot if_destination_exists ignore_missing =>
      jd_object [("command", jd_string "move"); ("from_path", jd_string from_path);
                 ("to_path", jd_string to_path);
                 ("if_destination_exists",
                  existing_behavior_json (existing_or_default if_destination_exists));
                 ("ignore_missing", jd_bool (default false ignore_missing));
                 ("has_expected_snapshot", jd_bool (present expected_snapshot))]
  end.

(* crates/tools/src/fs/patch.rs, patch_error_result *)
Definition patch_error_result (tool_name : string) (call_id : ToolCallId) (op : PatchOperation)
    (operation_index : nat) (operation_metadata : list Value) (summary : string)
    (diagnostic : Value) : ToolResult :=
  let failed_operation :=
    jd_object [("index", jd_usize operation_index); ("command", jd_string (command_name op));
               ("input", compact_operation op); ("diagnostic", diagnostic)] in
  let fields :=
    [("failed_path", jd_string (primary_path op));
     ("failed_operation_index", jd_usize operation_index);
     ("applied_operations", jd_array operation_metadata);
     ("failed_operation", failed_operation)] in
  mkToolResult call_id call_id tool_name [Part_Text summary] []
    (Some (jd_object (("kind", jd_string "error") :: fields))) None (Some (jd_object fields)) true.

(** The disk, the context and the names the loop runs with. *)
Section Staging.
Context (d : DiskState) (c : ToolExecutionContext) (tool_name : string) (call_id : ToolCallId).

Definition write_allowed (p : PathBuf) : result unit ToolError :=
  @assert_path_write_allowed (disk_view d) c p.

(* crates/tools/src/fs/patch.rs, stage_entry_by_resolved *)
Definition stage_entry_by_resolved (display_path : string) (resolved : PathBuf)
    (staged : gmap PathBuf StagedFile) : result (StagedFile * gmap PathBuf StagedFile) ToolError :=
  match staged !! resolved with
  | Some entry => Ok (entry, delete resolved staged)
  | None =>
      content <-? load_optional_text_file d resolved;
      Ok (mkStagedFile display_path resolved content content, staged)
  end.

(* crates/tools/src/fs/patch.rs, stage_entry *)
Definition stage_entry (path : string) (staged : gmap PathBuf StagedFile)
    : result (StagedFile * gmap PathBuf StagedFile) ToolError :=
  resolved <-? resolve_in c path;
  _ <-? write_allowed resolved;
  stage_entry_by_resolved path resolved staged.

(** What the arms of [Write], [Edit] and [Delete] share: the outcome of the operation
    is refused, or becomes the staged content. *)
(* crates/tools/src/fs/patch.rs, execute_patch_operations@if outcome.is_error ~~ PatchOperation::Edit { *)
Definition stage_outcome (op : PatchOperation) (index : nat) (path : string) (entry : StagedFile)
    (staged : gmap PathBuf StagedFile) (st : Stage) (outcome : MutationOutcome)
    : ToolResult + Stage :=
  if mut_is_error outcome then
    inl (patch_error_result tool_name call_id op index (st_metadata st) (mut_summary outcome)
           (mut_metadata outcome))
  else
    inr (mkStage
      (<[sf_resolved_path entry :=
           mkStagedFile (sf_display_path entry) (sf_resolved_path entry)
             (sf_baseline_content entry) (next_content outcome)]> staged)
      (st_summaries st ++
         ["- op#" +:+ fmt_nat index +:+ " " +:+ mut_summary outcome +:+ " ["
            +:+ default "missing" (snapshot_before outcome) +:+ " -> "
            +:+ default "deleted" (snapshot_after outcome) +:+ "]"])
      (st_metadata st ++
         [jd_object [("index", jd_usize index); ("command", jd_string (command_name op));
                     ("path", jd_string path); ("summary", jd_string (mut_summary outcome));
                     ("snapshot_before", jd_option jd_string (snapshot_before outcome));
                     ("snapshot_after", jd_option jd_string (snapshot_after outcome));
                     ("operation", mut_metadata outcome)]])).

(* crates/tools/src/fs/patch.rs, execute_patch_operations@PatchOperation::Move { ~~ let changed_entries *)
Definition stage_move (op : PatchOperation) (index : nat) (from_path to_path : string)
    (expected_snapshot : option string) (if_destination_exists : option WriteExistingBehavior)
    (ignore_missing : option bool) (st : Stage) : result (ToolResult + Stage) ToolError :=
  let refuse summary fields :=
    Ok (inl (patch_error_result tool_name call_id op index (st_metadata st) summary
               (jd_object ([("command", jd_string "move"); ("from_path", jd_string from_path);
                            ("to_path", jd_string to_path)] ++ fields)))) in
  from_resolved <-? resolve_in c from_path;
  to_resolved <-? resolve_in c to_path;
  _ <-? write_allowed from_resolved;
  _ <-? write_allowed to_resolved;
  if bool_decide (from_resolved = to_resolved) then
    refuse ("Cannot move " +:+ from_path +:+ " to itself. Provide a different destination path.") []
  else
    taken <-? stage_entry_by_resolved from_path from_resolved (st_staged st);
    let '(from_entry, staged) := taken in
    let source_snapshot_before := stable_text_hash <$> sf_content from_entry in
    match sf_content from_entry with
    | None =>
        if default false ignore_missing then
          let summary := "Skipped move for missing source " +:+ from_path in
          Ok (inr (mkStage (<[from_resolved := from_entry]> staged)
                (st_summaries st ++ ["- op#" +:+ fmt_nat index +:+ " " +:+ summary])
                (st_metadata st ++
                   [jd_object [("index", jd_usize index); ("command", jd_string (command_name op));
                               ("from_path", jd_string from_path); ("to_path", jd_string to_path);
                               ("summary", jd_string summary); ("moved", jd_bool false);
                               ("ignore_missing", jd_bool true)]])))
        else
          refuse (from_path
                    +:+ " does not exist. Re-run with ignore_missing=true to treat as a no-op.")
                 [("ignore_missing", jd_bool false)]
    | Some content =>
        match snapshot_mismatch expected_snapshot source_snapshot_before with
        | Some expected =>
            refuse ("Snapshot mismatch for " +:+ from_path +:+ ". Expected " +:+ expected
                      +:+ ", re-read before moving.")
                   [("expected_snapshot", jd_string expected);
                    ("snapshot_before", jd_option jd_string source_snapshot_before)]
        | None =>
            taken <-? stage_entry_by_resolved to_path to_resolved staged;
            let '(to_entry, staged) := taken in
            match sf_content to_entry, existing_or_default if_destination_exists with
            | Some _, IfExists_Error =>
                refuse (to_path +:+ " already exists. Re-run with if_destination_exists=overwrite.")
                       [("if_destination_exists",
                         existing_behavior_json (existing_or_default if_destination_exists))]
            | _, _ =>
                let destination_snapshot_before := stable_text_hash <$> sf_content to_entry in
                let to_entry := mkStagedFile (sf_display_path to_entry) (sf_resolved_path to_entry)
                                  (sf_baseline_content to_entry) (Some content) in
                let from_entry := mkStagedFile (sf_display_path from_entry)
                                    (sf_resolved_path from_entry)
                                    (sf_baseline_content from_entry) None in
                let destination_snapshot_after := stable_text_hash <$> sf_content to_entry in
                let source_snapshot_after := stable_text_hash <$> sf_content from_entry in
                Ok (inr (mkStage
                  (<[to_resolved := to_entry]> (<[from_resolved := from_entry]> staged))
                  (st_summaries st ++
                     ["- op#" +:+ fmt_nat index +:+ " Moved " +:+ from_path +:+ " -> " +:+ to_path
                        +:+ " [" +:+ default "missing" source_snapshot_before +:+ " -> "
                        +:+ default "missing" destination_snapshot_after +:+ "]"])
                  (st_metadata st ++
                     [jd_object
                        [("index", jd_usize index); ("command", jd_string (command_name op));
                         ("from_path", jd_string from_path); ("to_path", jd_string to_path);
                         ("summary", jd_string ("Moved " +:+ from_path +:+ " -> " +:+ to_path));
                         ("source_snapshot_before", jd_option jd_string source_snapshot_before);
                         ("source_snapshot_after", jd_option jd_string source_snapshot_after);
                         ("destination_snapshot_before",
                          jd_option jd_string destination_snapshot_before);
                         ("destination_snapshot_after",
                          jd_option jd_string destination_snapshot_after);
                         ("if_destination_exists",
                          existing_behavior_json (existing_or_default if_destination_exists));
                         ("ignore_missing", jd_bool (default false ignore_missing))]])))
            end
        end
    end.

(* crates/tools/src/fs/patch.rs, execute_patch_operations@match operation { *)
Definition stage_operation (op : PatchOperation) (index : nat) (st : Stage)
    : result (ToolResult + Stage) ToolError :=
  match op with
  | Patch_Write path content if_exists if_missing expected_snapshot =>
      taken <-? stage_entry path (st_staged st);
      let '(entry, staged) := taken in
      Ok (stage_outcome op index path entry staged st
            (apply_write (sf_content entry) path
               (mkWriteRequest content (existing_or_default if_exists)
                  (missing_or_default if_missing) expected_snapshot)))
  | Patch_Edit path edits expected_snapshot =>
      taken <-? stage_entry path (st_staged st);
      let '(entry, staged) := taken in
      outcome <-? apply_text_edits (sf_content entry) path expected_snapshot edits;
      Ok (stage_outcome op index path entry staged st outcome)
  | Patch_Delete path expected_snapshot ignore_missing =>
      taken <-? stage_entry path (st_staged st);
      let '(entry, staged) := taken in
      Ok (stage_outcome op index path entry staged st
            (apply_delete (sf_content entry) path expected_snapshot (default false ignore_missing)))
  | Patch_Move from_path to_path expected_snapshot if_destination_exists ignore_missing =>
      stage_move op index from_path to_path expected_snapshot if_destination_exists ignore_missing st
  end.

(* crates/tools/src/fs/patch.rs, execute_patch_operations@for (index, operation) *)
Fixpoint stage_operations (ops : list PatchOperation) (index : nat) (st : Stage)
    : result (ToolResult + Stage) ToolError :=
  match ops with
  | [] => Ok (inr st)
  | op :: rest =>
      staged <-? stage_operation op index st;
      match staged with
      | inl refused => Ok (inl refused)
      | inr st => stage_operations rest (S index) st
      end
  end.

End Staging.

(** ** Committing *)

Definition entry_changed (entry : StagedFile) : bool :=
  negb (bool_decide (sf_baseline_content entry = sf_content entry)).

(* crates/tools/src/fs/patch.rs, execute_patch_operations@for entry in &changed_entries *)
Fixpoint commit_entries (d : DiskState) (entries : list StagedFile)
    : result unit ToolError * DiskState :=
  match entries with
  | [] => (Ok tt, d)
  | entry :: rest =>
      let '(r, d) := commit_text_file d (sf_resolved_path entry) (sf_content entry) in
      match r with
      | Ok _ => commit_entries d rest
      | Err e => (Err e, d)
      end
  end.

(* crates/tools/src/fs/patch.rs, execute_patch_operations@if let Some(observer) = &activity_observer *)
Definition notify_entries (observer : option nat) (entries : list StagedFile) (w : TWorld) : TWorld :=
  match observer with
  | None => w
  | Some o =>
      foldl (fun w entry =>
        match sf_content entry with
        | Some _ => file_activity o (did_save (sf_resolved_path entry))
                      (file_activity o (did_change (sf_resolved_path entry)) w)
        | None => file_activity o (did_remove (sf_resolved_path entry)) w
        end) w entries
  end.

(* crates/tools/src/fs/patch.rs, execute_patch_operations@changed_files: changed_entries ~~ .await?, *)
Definition entry_mutation (entry : StagedFile) : CheckpointFileMutation :=
  mkCheckpointFileMutation (sf_display_path entry) (sf_resolved_path entry)
    (sf_baseline_content entry) (sf_content entry).

(** [match &ctx.checkpoint_handler]. *)
Definition checkpoint_mutation (c : ToolExecutionContext) (request : CheckpointMutationRequest)
    (w : TWorld) : result (option CheckpointRecord) ToolError * TWorld :=
  match tc_checkpoint_handler c with
  | Some handler =>
      let '(r, w) := record_mutation handler c request w in
      (match r with Ok record => Ok (Some record) | Err e => Err e end, w)
  | None => (Ok None, w)
  end.

(* crates/tools/src/fs/edit.rs, diff_preview_section *)
Definition diff_preview_section (file_diffs : list Value) : option string :=
  let previews := omap (fun entry => value_get entry "preview" ≫= value_as_str) file_diffs in
  if is_nil previews then None else Some (str_join (nl +:+ nl) previews).

Definition checkpoint_json (checkpoint : option CheckpointRecord) : Value :=
  jd_option (fun r => jd_string (CheckpointRecord_checkpoint_id r)) checkpoint.

(** The preview and checkpoint sections that end the text of a result. *)
(* crates/tools/src/fs/edit.rs, execute@if let Some(previews) ~~ Ok(ToolResult { *)
Definition result_sections (diffs : list Value) (checkpoint : option CheckpointRecord) : string :=
  match diff_preview_section diffs with
  | Some previews => nl +:+ nl +:+ "[diff_preview]" +:+ nl +:+ previews
  | None => ""
  end
  +:+ match checkpoint with
      | Some r => nl +:+ nl +:+ "[checkpoint " +:+ CheckpointRecord_checkpoint_id r +:+ "]"
      | None => ""
      end.

(** [#[serde(default, skip_serializing_if = "Option::is_none")] checkpoint_id]. *)
Definition checkpoint_field (checkpoint : option CheckpointRecord) : list (string * Value) :=
  match checkpoint with
  | Some r => [("checkpoint_id", jd_string (CheckpointRecord_checkpoint_id r))]
  | None => []
  end.

(* crates/tools/src/fs/patch.rs, execute_patch_operations@let mut text = *)
Definition patch_success_result (tool_name : string) (call_id : ToolCallId) (op_count : nat)
    (st : Stage) (changed : list StagedFile) (diffs : list Value)
    (checkpoint : option CheckpointRecord) : ToolResult :=
  let files := jd_array (map (fun entry => jd_string (sf_display_path entry)) changed) in
  let text :=
    "[" +:+ tool_name +:+ " operations=" +:+ fmt_nat op_count +:+ " changed_files="
      +:+ fmt_nat (length changed) +:+ "]" +:+ nl +:+ str_join nl (st_summaries st)
      +:+ result_sections diffs checkpoint in
  mkToolResult call_id call_id tool_name [Part_Text text] []
    (Some (jd_object ([("kind", jd_string "success"); ("operation_count", jd_usize op_count);
                       ("changed_files", files)] ++ checkpoint_field checkpoint
                      ++ [("operations", jd_array (st_metadata st)); ("file_diffs", jd_array diffs)])))
    None
    (Some (jd_object [("operation_count", jd_usize op_count); ("changed_files", files);
                      ("checkpoint_id", checkpoint_json checkpoint);
                      ("operations", jd_array (st_metadata st)); ("file_diffs", jd_array diffs)]))
    false.

(* crates/tools/src/fs/patch.rs, execute_patch_operations@let changed_entries *)
Definition commit_stage (tool_name : string) (observer : option nat) (call_id : ToolCallId)
    (op_count : nat) (c : ToolExecutionContext) (st : Stage) (d : DiskState) (w : TWorld)
    : result ToolResult ToolError * (DiskState * TWorld) :=
  let changed := List.filter entry_changed (staged_values (st_staged st)) in
  let '(committed, d) := commit_entries d changed in
  match committed with
  | Err e => (Err e, (d, w))
  | Ok _ =>
      let w := notify_entries observer changed w in
      let diffs := omap (fun entry =>
        compute_diff_preview (sf_display_path entry) (sf_baseline_content entry) (sf_content entry))
        changed in
      let '(checkpoint, w) :=
        if is_nil changed then (Ok None, w)
        else checkpoint_mutation c
               (mkCheckpointMutationRequest
                  (tool_name +:+ " operations=" +:+ fmt_nat op_count +:+ " changed_files="
                     +:+ fmt_nat (length changed))
                  (map entry_mutation changed)) w in
      match checkpoint with
      | Err e => (Err e, (d, w))
      | Ok checkpoint =>
          (Ok (patch_success_result tool_name call_id op_count st changed diffs checkpoint), (d, w))
      end
  end.

(* crates/tools/src/fs/patch.rs, execute_patch_operations *)
Definition execute_patch_operations (tool_name : string) (observer : option nat)
    (call_id : ToolCallId) (ops : list PatchOperation) (c : ToolExecutionContext)
    (s : DiskState * TWorld) : result ToolResult ToolError * (DiskState * TWorld) :=
  if is_nil ops then
    (Err (ToolErr_InvalidInput (tool_name +:+ " requires at least one operation")), s)
  else
    match stage_operations s.1 c tool_name call_id ops 1 (mkStage ∅ [] []) with
    | Err e => (Err e, s)
    | Ok (inl refused) => (Ok refused, s)
    | Ok (inr st) => commit_stage tool_name observer call_id (length ops) c st s.1 s.2
    end.

(** ** Freeform patches *)

Definition lift_tool {A} (r : result A ToolError) : result A Failure :=
  match r with Ok a => Ok a | Err e => Err (Fail_Error e) end.

(* crates/tools/src/fs/patch_freeform.rs, load_snapshot *)
Definition load_snapshot (d : DiskState) (path : string) (c : ToolExecutionContext)
    : result (option string) ToolError :=
  resolved <-? resolve_in c path;
  _ <-? write_allowed d c resolved;
  content <-? load_optional_text_file d resolved;
  Ok (stable_text_hash <$> content).

(* crates/tools/src/fs/patch_freeform.rs, build_patch_operations@match hunk { *)
Definition build_hunk (d : DiskState) (c : ToolExecutionContext) (hunk : PatchHunk)
    : result (list PatchOperation) Failure :=
  match hunk with
  | Hunk_Add path contents =>
      Ok [Patch_Write path contents (Some IfExists_Overwrite) (Some IfMissing_Create) None]
  | Hunk_Delete path =>
      snapshot <-? lift_tool (load_snapshot d path c);
      Ok [Patch_Delete path snapshot (Some false)]
  | Hunk_Update path move_path chunks =>
      resolved <-? lift_tool (resolve_in c path);
      _ <-? lift_tool (write_allowed d c resolved);
      loaded <-? lift_tool (load_optional_text_file d resolved);
      original_content <-? ok_or loaded (Fail_Error (ToolErr_InvalidInput
                                           ("cannot update missing file `" +:+ path +:+ "`")));
      let snapshot := stable_text_hash original_content in
      updated_content <-? (if is_nil chunks then Ok original_content
                           else derive_new_content path original_content chunks);
      match move_path with
      | Some move_path =>
          Ok (Patch_Move path move_path (Some snapshot) (Some IfExists_Overwrite) (Some false)
              :: (if String.eqb updated_content original_content then []
                  else [Patch_Write move_path updated_content (Some IfExists_Overwrite)
                          (Some IfMissing_Error) (Some snapshot)]))
      | None =>
          Ok [Patch_Write path updated_content (Some IfExists_Overwrite) (Some IfMissing_Error)
                (Some snapshot)]
      end
  end.

(* crates/tools/src/fs/patch_freeform.rs, build_patch_operations *)
Definition build_patch_operations (d : DiskState) (hunks : list PatchHunk)
    (c : ToolExecutionContext) : result (list PatchOperation) Failure :=
  operations <-? map_result (build_hunk d c) hunks; Ok (concat operations).

(* crates/tools/src/fs/patch_freeform.rs, parse_patch_files_operations *)
Definition parse_patch_files_operations (d : DiskState) (patch_text : string)
    (c : ToolExecutionContext) : result (list PatchOperation) Failure :=
  hunks <-? parse_patch_files patch_text; build_patch_operations d hunks c.

(* crates/tools/src/fs/patch.rs, execute *)
Definition PatchFilesTool_execute (observer : option nat) (call_id : ToolCallId) (arguments : Value)
    (c : ToolExecutionContext) (s : DiskState * TWorld)
    : result ToolResult Failure * (DiskState * TWorld) :=
  let operations :=
    match value_as_str arguments with
    | Some patch_text => parse_patch_files_operations s.1 patch_text c
    | None =>
        match decode_patch_input arguments with
        | Ok operations => Ok operations
        | Err e => Err (Fail_Error (ToolErr_Json e))
        end
    end in
  match operations with
  | Err e => (Err e, s)
  | Ok operations =>
      let '(r, s) := execute_patch_operations "patch_files" observer call_id operations c s in
      (lift_tool r, s)
  end.

(** ** The single-file tools *)

(** The error result of [edit] and [write]; [kind] names the metadata field. *)
(* crates/tools/src/fs/edit.rs, execute@if outcome.is_error *)
Definition file_error_result (tool : string) (call_id : ToolCallId) (path : string)
    (resolved : PathBuf) (outcome : MutationOutcome) : ToolResult :=
  mkToolResult call_id call_id tool [Part_Text (mut_summary outcome)] []
    (Some (jd_object [("kind", jd_string "error"); ("requested_path", jd_string path);
                      ("resolved_path", jd_string (path_display resolved));
                      ("summary", jd_string (mut_summary outcome)); (tool, mut_metadata outcome)]))
    None (Some (mut_metadata outcome)) true.

(* crates/tools/src/fs/edit.rs, execute@let structured_output = EditToolOutput::Success *)
Definition file_success_result (tool : string) (call_id : ToolCallId) (path : string)
    (resolved : PathBuf) (outcome : MutationOutcome) (diffs : list Value)
    (checkpoint : option CheckpointRecord) : ToolResult :=
  let text :=
    mut_summary outcome +:+ nl +:+ "[snapshot " +:+ default "missing" (snapshot_before outcome)
      +:+ " -> " +:+ default "missing" (snapshot_after outcome) +:+ "]"
      +:+ result_sections diffs checkpoint in
  mkToolResult call_id call_id tool [Part_Text text] []
    (Some (jd_object
       ([("kind", jd_string "success"); ("requested_path", jd_string path);
         ("resolved_path", jd_string (path_display resolved));
         ("summary", jd_string (mut_summary outcome))] ++ checkpoint_field checkpoint
        ++ [("snapshot_before", jd_option jd_string (snapshot_before outcome));
            ("snapshot_after", jd_option jd_string (snapshot_after outcome));
            ("file_diffs", jd_array diffs); (tool, mut_metadata outcome)])))
    None
    (Some (jd_object [("path", jd_string (path_display resolved));
                      ("checkpoint_id", checkpoint_json checkpoint);
                      ("snapshot_before", jd_option jd_string (snapshot_before outcome));
                      ("snapshot_after", jd_option jd_string (snapshot_after outcome));
                      ("file_diffs", jd_array diffs); (tool, mut_metadata outcome)]))
    false.

(** What both tools do once the outcome of the operation is known. *)
(* crates/tools/src/fs/write.rs, execute@commit_text_file( *)
Definition finish_file_tool (tool : string) (observer : option nat) (call_id : ToolCallId)
    (path : string) (resolved : PathBuf) (existing : option string) (outcome : MutationOutcome)
    (c : ToolExecutionContext) (s : DiskState * TWorld)
    : result ToolResult ToolError * (DiskState * TWorld) :=
  if mut_is_error outcome then (Ok (file_error_result tool call_id path resolved outcome), s)
  else
    let '(committed, d) := commit_text_file s.1 resolved (next_content outcome) in
    match committed with
    | Err e => (Err e, (d, s.2))
    | Ok _ =>
        let diffs := option_list (compute_diff_preview path existing (next_content outcome)) in
        let '(checkpoint, w) :=
          if bool_decide (existing = next_content outcome) then (Ok None, s.2)
          else checkpoint_mutation c
                 (mkCheckpointMutationRequest (mut_summary outcome)
                    [mkCheckpointFileMutation path resolved existing (next_content outcome)]) s.2 in
        match checkpoint with
        | Err e => (Err e, (d, w))
        | Ok checkpoint =>
            let w := match observer with
                     | Some o => file_activity o (did_save resolved)
                                   (file_activity o (did_change resolved) w)
                     | None => w
                     end in
            (Ok (file_success_result tool call_id path resolved outcome diffs checkpoint), (d, w))
        end
    end.

(** What both tools do first: the path is resolved, checked and read. *)
(* crates/tools/src/fs/edit.rs, execute@let resolved = ~~ let outcome = *)
Definition open_for_write (d : DiskState) (c : ToolExecutionContext) (path : string)
    : result (PathBuf * option string) ToolError :=
  resolved <-? resolve_in c path;
  _ <-? write_allowed d c resolved;
  existing <-? load_optional_text_file d resolved;
  Ok (resolved, existing).

(* crates/tools/src/fs/edit.rs, execute *)
Definition EditTool_execute (observer : option nat) (call_id : ToolCallId) (arguments : Value)
    (c : ToolExecutionContext) (s : DiskState * TWorld)
    : result ToolResult ToolError * (DiskState * TWorld) :=
  match decode_edit_input arguments with
  | Err e => (Err (ToolErr_Json e), s)
  | Ok input =>
      match open_for_write s.1 c (eti_path input) with
      | Err e => (Err e, s)
      | Ok (resolved, existing) =>
          match apply_text_edits existing (eti_path input) (eti_expected_snapshot input)
                  [eti_operation input] with
          | Err e => (Err e, s)
          | Ok outcome =>
              finish_file_tool "edit" observer call_id (eti_path input) resolved existing outcome c s
          end
      end
  end.

(* crates/tools/src/fs/write.rs, execute *)
Definition WriteTool_execute (observer : option nat) (call_id : ToolCallId) (arguments : Value)
    (c : ToolExecutionContext) (s : DiskState * TWorld)
    : result ToolResult ToolError * (DiskState * TWorld) :=
  match decode_write_input arguments with
  | Err e => (Err (ToolErr_Json e), s)
  | Ok input =>
      match open_for_write s.1 c (wti_path input) with
      | Err e => (Err e, s)
      | Ok (resolved, existing) =>
          finish_file_tool "write" observer call_id (wti_path input) resolved existing
            (apply_write existing (wti_path input)
               (mkWriteRequest (wti_content input) (existing_or_default (wti_if_exists input))
                  (missing_or_default (wti_if_missing input)) (wti_expected_snapshot input))) c s
      end
  end.

End PatchFiles.
