(* ===== verification/PatchFilesProps.v ===== *)
(** * Multi-file patches: what they do to the files

    The reference semantics of a patch applies its operations one after another
    to a map from paths to texts.  The staged execution of [PatchFiles] refines it:
    a refused patch changes nothing, a patch that goes through leaves the files of
    the reference semantics, and only files the context may write are touched. *)

From Stdlib Require Import Ascii String.
From stdpp Require Import base list gmap sorting strings.
From Stdlib Require Import Lia.
From S2P Require Import Prelude Text Message Events Errors TextBuffer Mutation PatchFreeform.
From S2P Require Import WriteLease SandboxPolicy Tools PathPolicy PatchFiles.

Section Reference.
Context {J : SerdeJson} {JD : JsonData J} {S256 : Sha256}.

(** The files by path. *)
Definition files := PathBuf -> option string.
Definition set_file (p : PathBuf) (v : option string) (f : files) : files :=
  fun q => if decide (q = p) then v else f q.

Definition ref_outcome (f : files) (p : PathBuf) (o : MutationOutcome) : option files :=
  if mut_is_error o then None else Some (set_file p (next_content o) f).

Definition resolved (c : ToolExecutionContext) (path : string) : option PathBuf :=
  match resolve_in c path with Ok p => Some p | Err _ => None end.

(** One operation on the files: [None] when it is refused. *)
Definition ref_operation (c : ToolExecutionContext) (f : files) (op : PatchOperation)
    : option files :=
  match op with
  | Patch_Write path content if_exists if_missing expected_snapshot =>
      p ← resolved c path;
      ref_outcome f p (apply_write (f p) path
        (mkWriteRequest content (existing_or_default if_exists) (missing_or_default if_missing)
           expected_snapshot))
  | Patch_Edit path edits expected_snapshot =>
      p ← resolved c path;
      match apply_text_edits (f p) path expected_snapshot edits with
      | Ok o => ref_outcome f p o
      | Err _ => None
      end
  | Patch_Delete path expected_snapshot ignore_missing =>
      p ← resolved c path;
      ref_outcome f p (apply_delete (f p) path expected_snapshot (default false ignore_missing))
  | Patch_Move from_path to_path expected_snapshot if_destination_exists ignore_missing =>
      from ← resolved c from_path;
      to ← resolved c to_path;
      if bool_decide (from = to) then None
      else
        match f from with
        | None => if default false ignore_missing then Some f else None
        | Some text =>
            match snapshot_mismatch expected_snapshot (Some (stable_text_hash text)) with
            | Some _ => None
            | None =>
                match f to, existing_or_default if_destination_exists with
                | Some _, IfExists_Error => None
                | _, _ => Some (set_file to (Some text) (set_file from None f))
                end
            end
        end
  end.

Fixpoint ref_operations (c : ToolExecutionContext) (f : files) (ops : list PatchOperation)
    : option files :=
  match ops with
  | [] => Some f
  | op :: rest => g ← ref_operation c f op; ref_operations c g rest
  end.

(** The paths an operation names. *)
Definition operation_paths (c : ToolExecutionContext) (op : PatchOperation) : list PathBuf :=
  match op with
  | Patch_Write path _ _ _ _ | Patch_Edit path _ _ | Patch_Delete path _ _ =>
      option_list (resolved c path)
  | Patch_Move from_path to_path _ _ _ =>
      option_list (resolved c from_path) ++ option_list (resolved c to_path)
  end.

Definition patch_paths (c : ToolExecutionContext) (ops : list PatchOperation) : list PathBuf :=
  ops ≫= operation_paths c.

End Reference.

Section Refinement.
Context {J : SerdeJson} {JD : JsonData J} {S256 : Sha256} {D : Disk} {L : DiskLaws D}
        {H : FileToolHost} {I : FileToolInputs J}.

Lemma set_file_eq p v (f : files) : set_file p v f p = v.
Proof. unfold set_file. by rewrite decide_True. Qed.
Lemma set_file_ne p q v (f : files) : q <> p -> set_file p v f q = f q.
Proof. intros Hn. unfold set_file. by rewrite decide_False. Qed.

(** The staged files stand for [f] over the disk [d]: what is staged is what [f]
    has, with the text on the disk as its baseline; what is not staged is as on the
    disk.  Only paths in [ps] are staged, and only paths that may be written. *)
Record stage_inv (d : DiskState) (c : ToolExecutionContext) (ps : list PathBuf)
    (m : gmap PathBuf StagedFile) (f : files) : Prop := {
  si_entry : forall p e, m !! p = Some e ->
    sf_resolved_path e = p /\ sf_baseline_content e = file_text d p /\ sf_content e = f p
    /\ p ∈ ps /\ write_allowed d c p = Ok tt;
  si_rest : forall p, m !! p = None -> f p = file_text d p
}.

Lemma stage_inv_empty d c ps : stage_inv d c ps ∅ (file_text d).
Proof. split; [intros p e He; by rewrite lookup_empty in He | done]. Qed.

Lemma stage_entry_rest d path p m e m' :
  stage_entry_by_resolved d path p m = Ok (e, m') -> m' = delete p m.
Proof.
  unfold stage_entry_by_resolved. destruct (m !! p) eqn:E; [by intros [= <- <-]|].
  destruct (load_optional_text_file d p); [|done]. intros [= <- <-]. by rewrite delete_id.
Qed.

(** An entry that was taken out, and the files that are still staged. *)
Lemma stage_entry_inv d c ps m f path p e m' :
  stage_inv d c ps m f -> stage_entry_by_resolved d path p m = Ok (e, m') ->
  sf_resolved_path e = p /\ sf_baseline_content e = file_text d p /\ sf_content e = f p
  /\ m' = delete p m.
Proof.
  intros Hi. unfold stage_entry_by_resolved. destruct (m !! p) as [e0|] eqn:E.
  - intros [= <- <-]. destruct (si_entry _ _ _ _ _ Hi p e0 E) as (? & ? & ? & _). done.
  - destruct (load_optional_text_file d p) as [o|] eqn:El; [|done]. cbn [result_bind].
    intros [= <- <-]. simpl. apply load_text in El. rewrite (si_rest _ _ _ _ _ Hi p E).
    rewrite delete_id by done. done.
Qed.

Lemma stage_insert_inv d c ps m f p e v :
  stage_inv d c ps m f -> p ∈ ps -> write_allowed d c p = Ok tt ->
  sf_resolved_path e = p -> sf_baseline_content e = file_text d p -> sf_content e = v ->
  stage_inv d c ps (<[p := e]> (delete p m)) (set_file p v f).
Proof.
  intros Hi Hp Hw Hr Hb Hc. rewrite insert_delete_eq. split.
  - intros q e'. destruct (decide (q = p)) as [->|Hne].
    + rewrite lookup_insert_eq, set_file_eq. by intros [= <-].
    + rewrite lookup_insert_ne, set_file_ne by done. apply Hi.
  - intros q. destruct (decide (q = p)) as [->|Hne]; [by rewrite lookup_insert_eq|].
    rewrite lookup_insert_ne, set_file_ne by done. apply Hi.
Qed.

Lemma set_file_same (f : files) p : forall q, set_file p (f p) f q = f q.
Proof. intros q. unfold set_file. by case_decide; subst. Qed.

Lemma stage_inv_ext d c ps m f g :
  (forall p, f p = g p) -> stage_inv d c ps m f -> stage_inv d c ps m g.
Proof.
  intros Hfg [He Hr]. split; [|intros p Hp; rewrite <- Hfg; auto].
  intros p e Hp. rewrite <- Hfg. by apply He.
Qed.

(** The arms of the operations on one file. *)
Lemma stage_one_inv d c tn cid ps m f op i path sums meta e m' o st :
  stage_inv d c ps m f -> (forall p, resolved c path = Some p -> p ∈ ps) ->
  stage_entry d c path m = Ok (e, m') ->
  stage_outcome tn cid op i path e m' (mkStage m sums meta) o = inr st ->
  exists p, resolved c path = Some p /\ sf_content e = f p
    /\ exists g, ref_outcome f p o = Some g /\ stage_inv d c ps (st_staged st) g.
Proof.
  intros Hi Hps. unfold stage_entry, resolved in *.
  destruct (resolve_in c path) as [p|]; [|done]. cbn [result_bind].
  destruct (write_allowed d c p) as [[]|] eqn:Hw; [|done]. cbn [result_bind].
  intros He. destruct (stage_entry_inv _ _ _ _ _ _ _ _ _ Hi He) as (Hr & Hb & Hc & ->).
  unfold stage_outcome, ref_outcome. destruct (mut_is_error o); [done|]. intros [= <-].
  exists p. do 2 (split; [done|]). eexists. split; [done|]. simpl. rewrite Hr.
  apply stage_insert_inv; auto.
Qed.

Lemma stage_move_inv d c tn cid ps m f op i from_path to_path ex ide im sums meta st :
  stage_inv d c ps m f ->
  (forall p, resolved c from_path = Some p \/ resolved c to_path = Some p -> p ∈ ps) ->
  stage_move d c tn cid op i from_path to_path ex ide im (mkStage m sums meta) = Ok (inr st) ->
  exists g, ref_operation c f (Patch_Move from_path to_path ex ide im) = Some g
    /\ stage_inv d c ps (st_staged st) g.
Proof.
  intros Hi Hps. unfold stage_move. simpl. unfold resolved in *.
  destruct (resolve_in c from_path) as [from|]; [|done]. simpl.
  destruct (resolve_in c to_path) as [to|]; [|done]. simpl.
  destruct (write_allowed d c from) as [[]|] eqn:Hwf; [|done]. simpl.
  destruct (write_allowed d c to) as [[]|] eqn:Hwt; [|done]. simpl.
  case_bool_decide as Hft; [done|].
  destruct (stage_entry_by_resolved d from_path from m) as [[fe m1]|] eqn:Ef; [|done]. simpl.
  destruct (stage_entry_inv _ _ _ _ _ _ _ _ _ Hi Ef) as (Hfr & Hfb & Hfc & ->).
  rewrite Hfc. destruct (f from) as [text|] eqn:Etext; simpl.
  - destruct (snapshot_mismatch ex _); [done|].
    assert (Hi1 : stage_inv d c ps (<[from := mkStagedFile (sf_display_path fe) from
                     (sf_baseline_content fe) None]> (delete from m)) (set_file from None f))
      by (apply stage_insert_inv; auto).
    destruct (stage_entry_by_resolved d to_path to (delete from m)) as [[te m2]|] eqn:Et; [|done].
    assert (Et' : stage_entry_by_resolved d to_path to (<[from := mkStagedFile (sf_display_path fe)
                     from (sf_baseline_content fe) None]> (delete from m))
                  = Ok (te, delete to (<[from := mkStagedFile (sf_display_path fe) from
                     (sf_baseline_content fe) None]> (delete from m)))).
    { unfold stage_entry_by_resolved in *. rewrite lookup_insert_ne by done.
      destruct (delete from m !! to) as [te0|] eqn:E0; [by injection Et as <- <-|].
      destruct (load_optional_text_file d to); [|done]. cbn [result_bind] in *.
      injection Et as <- <-. rewrite (delete_id (<[from := _]> _) to); [done|].
      by rewrite lookup_insert_ne. }
    destruct (stage_entry_inv _ _ _ _ _ _ _ _ _ Hi1 Et') as (Htr & Htb & Htc & _).
    rewrite set_file_ne in Htc by done.
    apply stage_entry_rest in Et as ->. simpl. rewrite Htc. intros Hst.
    assert (Hg : f to = None \/ existing_or_default ide = IfExists_Overwrite ->
      exists g, Some (set_file to (Some text) (set_file from None f)) = Some g
        /\ stage_inv d c ps (<[to := mkStagedFile (sf_display_path te) (sf_resolved_path te)
              (sf_baseline_content te) (Some text)]> (<[from := mkStagedFile (sf_display_path fe)
              (sf_resolved_path fe) (sf_baseline_content fe) None]> (delete to (delete from m)))) g).
    { intros _. eexists. split; [done|]. rewrite Hfr.
      rewrite <- (delete_insert_ne _ to from) by done. apply stage_insert_inv; auto. }
    destruct (f to), (existing_or_default ide); simplify_eq; simpl; auto.
  - destruct (default false im); [|done]. intros [= <-]. exists f. split; [done|]. simpl.
    apply (stage_inv_ext _ _ _ _ (set_file from (f from) f)); [apply set_file_same|].
    apply stage_insert_inv; auto. by rewrite Etext.
Qed.

Lemma stage_operation_inv d c tn cid ps f op i st st' :
  stage_inv d c ps (st_staged st) f -> (forall p, p ∈ operation_paths c op -> p ∈ ps) ->
  stage_operation d c tn cid op i st = Ok (inr st') ->
  exists g, ref_operation c f op = Some g /\ stage_inv d c ps (st_staged st') g.
Proof.
  destruct st as [m sums meta]. intros Hi Hps.
  assert (Hone : forall path, (forall p, resolved c path = Some p -> p ∈ operation_paths c op) ->
            forall p, resolved c path = Some p -> p ∈ ps) by auto.
  destruct op as [path content ie im ex|path edits ex|path ex im|from to ex ide im]; simpl in *.
  - destruct (stage_entry d c path m) as [[e m']|] eqn:E; [|done]. cbn [result_bind]. intros [= Hst].
    eapply stage_one_inv in Hst as (p & Hp & Hc & Hg); [|done| |done].
    + rewrite Hp. simpl. by rewrite <- Hc.
    + apply Hone. intros p ->. set_solver.
  - destruct (stage_entry d c path m) as [[e m']|] eqn:E; [|done]. cbn [result_bind].
    destruct (apply_text_edits (sf_content e) path ex edits) as [o|] eqn:Eo; [|done].
    cbn [result_bind]. intros [= Hst].
    eapply stage_one_inv in Hst as (p & Hp & Hc & Hg); [|done| |done].
    + rewrite Hp. simpl. by rewrite <- Hc, Eo.
    + apply Hone. intros p ->. set_solver.
  - destruct (stage_entry d c path m) as [[e m']|] eqn:E; [|done]. cbn [result_bind]. intros [= Hst].
    eapply stage_one_inv in Hst as (p & Hp & Hc & Hg); [|done| |done].
    + rewrite Hp. simpl. by rewrite <- Hc.
    + apply Hone. intros p ->. set_solver.
  - eapply stage_move_inv; [done|]. intros p [Hp|Hp]; apply Hps; rewrite Hp; set_solver.
Qed.

(** Staging refines the reference semantics. *)
Lemma stage_operations_inv d c tn cid ps ops i st f st' :
  stage_inv d c ps (st_staged st) f -> (forall p, p ∈ patch_paths c ops -> p ∈ ps) ->
  stage_operations d c tn cid ops i st = Ok (inr st') ->
  exists g, ref_operations c f ops = Some g /\ stage_inv d c ps (st_staged st') g.
Proof.
  revert i st f. induction ops as [|op ops IH]; intros i st f Hi Hps; simpl.
  { intros [= <-]. by exists f. }
  destruct (stage_operation d c tn cid op i st) as [[r|st1]|] eqn:E; [done| |done].
  cbn [result_bind]. intros Hs.
  assert (forall p, p ∈ operation_paths c op -> p ∈ ps) as Hop
    by (intros p Hp; apply Hps; unfold patch_paths; simpl; set_solver).
  destruct (stage_operation_inv _ _ _ _ _ _ _ _ _ _ Hi Hop E) as (g & -> & Hg). simpl.
  apply (IH (S i) st1 g Hg); [|done]. intros p Hp. apply Hps. unfold patch_paths in *. simpl. set_solver.
Qed.

Lemma stage_operations_refused d c tn cid ops i st res :
  stage_operations d c tn cid ops i st = Ok (inl res) -> result_is_error res = true.
Proof.
  revert i st. induction ops as [|op ops IH]; intros i st; simpl; [done|].
  destruct (stage_operation d c tn cid op i st) as [[r|st1]|] eqn:E; cbn [result_bind]; [|eauto|done].
  intros [= ->]. destruct op; simpl in E.
  all: unfold stage_move, stage_outcome in E; repeat (progress inv_result || case_match); simplify_eq/=; done.
Qed.

(** ** Committing *)

Lemma staged_values_elem m e : e ∈ staged_values m <-> exists p, m !! p = Some e.
Proof.
  unfold staged_values. rewrite list_elem_of_fmap. setoid_rewrite merge_sort_Permutation.
  split.
  - intros ([p e'] & -> & Hin%elem_of_map_to_list). by exists p.
  - intros [p Hp]. exists (p, e). split; [done|]. by apply elem_of_map_to_list.
Qed.

Lemma staged_values_nodup d c ps m f :
  stage_inv d c ps m f -> NoDup (sf_resolved_path <$> staged_values m).
Proof.
  intros Hi. unfold staged_values.
  assert (Heq : sf_resolved_path <$> (merge_sort staged_le (map_to_list m)).*2
                = (merge_sort staged_le (map_to_list m)).*1).
  { rewrite <- list_fmap_compose. apply list_fmap_ext. intros i [p e] Hpe%list_elem_of_lookup_2.
    rewrite merge_sort_Permutation, elem_of_map_to_list in Hpe. simpl. by apply Hi in Hpe as [-> _]. }
  rewrite Heq, merge_sort_Permutation. apply NoDup_fst_map_to_list.
Qed.

Lemma elem_of_changed m e :
  e ∈ List.filter entry_changed (staged_values m)
  <-> sf_baseline_content e <> sf_content e /\ exists p, m !! p = Some e.
Proof.
  rewrite list_elem_of_In, filter_In, <- list_elem_of_In, staged_values_elem. unfold entry_changed.
  rewrite negb_true_iff, bool_decide_eq_false. tauto.
Qed.

Lemma commit_entries_other d es q r d' :
  commit_entries d es = (r, d') ->
  (forall e, e ∈ es -> disk_same (sf_resolved_path e) q = false) -> file_text d' q = file_text d q.
Proof.
  revert d. induction es as [|e es IH]; intros d; simpl; [by intros [= <- <-]|].
  intros Hc Hs. pose proof (commit_other d (sf_resolved_path e) (sf_content e) q) as Ho.
  destruct (commit_text_file d _ _) as [[u|err] d1]; simpl in Ho.
  - rewrite (IH _ Hc) by (intros; apply Hs; by right). apply Ho, Hs. by left.
  - injection Hc as <- <-. apply Ho, Hs. by left.
Qed.

Lemma commit_entries_done d es d' :
  commit_entries d es = (Ok tt, d') -> NoDup (sf_resolved_path <$> es) ->
  (forall e e', e ∈ es -> e' ∈ es -> disk_same (sf_resolved_path e) (sf_resolved_path e') = true ->
     sf_resolved_path e = sf_resolved_path e') ->
  forall e, e ∈ es -> file_text d' (sf_resolved_path e) = sf_content e.
Proof.
  revert d. induction es as [|e es IH]; intros d; simpl; [intros _ _ _ e He; by inversion He|].
  pose proof (commit_same d (sf_resolved_path e) (sf_content e)) as Hsame.
  destruct (commit_text_file d _ _) as [[[]|err] d1]; [|done]. simpl in Hsame.
  intros Hc [Hx Hnd]%NoDup_cons Ha e' [->|Hin]%elem_of_cons.
  - rewrite (commit_entries_other _ _ _ _ _ Hc); [by apply Hsame|]. intros e' He'.
    destruct (disk_same _ _) eqn:E; [|done]. exfalso. apply Hx. apply list_elem_of_fmap.
    exists e'. split; [|done]. symmetry. apply Ha; [by right | by left | done].
  - apply (IH _ Hc Hnd); [|done]. intros e1 e2 H1 H2. apply Ha; by right.
Qed.

(** What a patch that was staged does to the disk, whatever comes after. *)
Lemma commit_stage_disk tn o cid n c st d w r d' w' :
  commit_stage tn o cid n c st d w = (r, (d', w')) ->
  exists r0, commit_entries d (List.filter entry_changed (staged_values (st_staged st))) = (r0, d')
    /\ (forall res, r = Ok res -> r0 = Ok tt /\ result_is_error res = false).
Proof.
  unfold commit_stage. destruct (commit_entries d _) as [[[]|e] d1].
  - destruct (if is_nil _ then _ else _) as [[cp|e] w1]; intros [= <- <- <-];
      (eexists; split; [done|]); by intros res [= <-].
  - intros [= <- <- <-]. by eexists.
Qed.

(** The three ways a patch ends. *)
Lemma execute_patch_cases tn o cid ops c d w r d' w' :
  execute_patch_operations tn o cid ops c (d, w) = (r, (d', w')) ->
  ((d', w') = (d, w) /\ (forall res, r = Ok res -> result_is_error res = true))
  \/ exists st f, ref_operations c (file_text d) ops = Some f
      /\ stage_inv d c (patch_paths c ops) (st_staged st) f
      /\ commit_stage tn o cid (length ops) c st d w = (r, (d', w')).
Proof.
  unfold execute_patch_operations. destruct (is_nil ops); [intros [= <- <- <-]; by left|].
  simpl. destruct (stage_operations _ _ _ _ ops 1 _) as [[res|st]|e] eqn:E.
  - intros [= <- <- <-]. left. split; [done|]. intros res' [= <-].
    by apply stage_operations_refused in E.
  - intros Hc. right. exists st.
    destruct (stage_operations_inv d c tn cid (patch_paths c ops) ops 1 (mkStage ∅ [] [])
                (file_text d) st (stage_inv_empty _ _ _)) as (f & Hf & Hi); [done..|].
    by exists f.
  - intros [= <- <- <-]. by left.
Qed.

(** C8.  A patch is all or nothing: when the reference semantics refuses one of its
    operations, nothing is changed and the caller is told; and a result that
    reports an error has changed nothing. *)
Theorem patch_all_or_nothing tn o cid ops c d w r d' w' :
  execute_patch_operations tn o cid ops c (d, w) = (r, (d', w')) ->
  (ref_operations c (file_text d) ops = None ->
     (d', w') = (d, w) /\ forall res, r = Ok res -> result_is_error res = true)
  /\ (forall res, r = Ok res -> result_is_error res = true -> (d', w') = (d, w)).
Proof.
  intros [[Hs Hr]|(st & f & Hf & _ & Hc)]%execute_patch_cases; [auto|]. split; [by rewrite Hf|].
  destruct (commit_stage_disk _ _ _ _ _ _ _ _ _ _ _ Hc) as (r0 & _ & Hok).
  intros res -> He. destruct (Hok res eq_refl) as [_ Hne]. congruence.
Qed.

(** C7.  A patch that succeeds refines the sequential application of its operations:
    when no two of its paths name the same file, every path it names has the text
    the operations give it one after another, and no other file has changed. *)
Theorem patch_refines_sequence tn o cid ops c d w res d' w' :
  execute_patch_operations tn o cid ops c (d, w) = (Ok res, (d', w')) ->
  result_is_error res = false ->
  (forall p q, p ∈ patch_paths c ops -> q ∈ patch_paths c ops -> disk_same p q = true -> p = q) ->
  exists f, ref_operations c (file_text d) ops = Some f
    /\ (forall p, p ∈ patch_paths c ops -> file_text d' p = f p)
    /\ (forall q, (forall p, p ∈ patch_paths c ops -> disk_same p q = false) ->
          file_text d' q = file_text d q).
Proof.
  intros [[_ Hr]|(st & f & Hf & Hi & Hc)]%execute_patch_cases Hne Ha.
  { specialize (Hr res eq_refl). congruence. }
  exists f. split; [done|].
  destruct (commit_stage_disk _ _ _ _ _ _ _ _ _ _ _ Hc) as (r0 & Hco & Hok).
  destruct (Hok res eq_refl) as [-> _]. clear Hok Hc.
  assert (Hin : forall e, e ∈ List.filter entry_changed (staged_values (st_staged st)) ->
            sf_resolved_path e ∈ patch_paths c ops /\ sf_content e = f (sf_resolved_path e)).
  { intros e [_ [p Hp]]%elem_of_changed. by apply Hi in Hp as (-> & _ & Hce & Hps & _). }
  split.
  - intros p Hp.
    destruct (decide (Exists (fun e => sf_resolved_path e = p)
                        (List.filter entry_changed (staged_values (st_staged st))))) as [He|He].
    + apply Exists_exists in He as (e & He & <-). rewrite <- (proj2 (Hin e He)).
      eapply commit_entries_done; [done| | |done].
      * eapply NoDup_map_filter, staged_values_nodup; done.
      * intros e1 e2 H1 H2. apply Ha; by apply Hin.
    + rewrite (commit_entries_other _ _ p _ _ Hco).
      * destruct (st_staged st !! p) as [e|] eqn:E; [|symmetry; by apply Hi].
        destruct (si_entry _ _ _ _ _ Hi _ _ E) as (Hre & Hbe & Hce & _).
        destruct (decide (sf_baseline_content e = sf_content e)) as [Heq|Hneq]; [congruence|].
        exfalso. apply He, Exists_exists. exists e. split; [|done]. apply elem_of_changed. eauto.
      * intros e Hee. destruct (disk_same _ p) eqn:Es; [|done]. exfalso. apply He, Exists_exists.
        exists e. split; [done|]. apply Ha; [by apply Hin | done | done].
  - intros q Hq. apply (commit_entries_other _ _ q _ _ Hco). intros e He. apply Hq, Hin, He.
Qed.

(** A patch writes only where it may: whatever its outcome, a file whose text
    changed is named by one of its paths, and the context may write that path. *)
Theorem patch_writes_only_allowed tn o cid ops c d w r d' w' q :
  execute_patch_operations tn o cid ops c (d, w) = (r, (d', w')) ->
  file_text d' q <> file_text d q ->
  exists p, p ∈ patch_paths c ops /\ disk_same p q = true /\ write_allowed d c p = Ok tt.
Proof.
  intros [[Hs _]|(st & f & _ & Hi & Hc)]%execute_patch_cases Hne; [congruence|].
  destruct (commit_stage_disk _ _ _ _ _ _ _ _ _ _ _ Hc) as (r0 & Hco & _).
  destruct (decide (Exists (fun e => disk_same (sf_resolved_path e) q = true)
                      (List.filter entry_changed (staged_values (st_staged st))))) as [He|He].
  - apply Exists_exists in He as (e & [_ [p Hp]]%elem_of_changed & Hs).
    destruct (si_entry _ _ _ _ _ Hi _ _ Hp) as (<- & _ & _ & Hps & Hw). eauto.
  - exfalso. apply Hne, (commit_entries_other _ _ q _ _ Hco). intros e Hee.
    destruct (disk_same _ q) eqn:Es; [|done]. exfalso. apply He, Exists_exists. eauto.
Qed.

(** ** The single-file tools *)

Lemma finish_file_cases tool o cid path p existing out c d w r d' w' :
  finish_file_tool tool o cid path p existing out c (d, w) = (r, (d', w')) ->
  (mut_is_error out = true /\ (d', w') = (d, w) /\ forall res, r = Ok res -> result_is_error res = true)
  \/ (mut_is_error out = false
      /\ (forall q, disk_same p q = false -> file_text d' q = file_text d q)
      /\ forall res, r = Ok res -> result_is_error res = false /\ file_text d' p = next_content out).
Proof.
  unfold finish_file_tool. destruct (mut_is_error out).
  { intros [= <- <- <-]. left. split; [done|]. split; [done|]. by intros res [= <-]. }
  right. split; [done|]. simpl in *.
  pose proof (commit_other d p (next_content out)) as Ho.
  pose proof (commit_same d p (next_content out)) as Hs.
  destruct (commit_text_file d p _) as [[[]|e] d1]; simpl in *.
  - destruct (if bool_decide _ then _ else _) as [[cp|e] w1]; simplify_eq/=; split; auto;
      intros res [= <-]; auto.
  - simplify_eq/=. split; auto. done.
Qed.

(** The write tool: an error result has changed nothing; a success has found the
    file in the state the call expects and leaves it with the given content; in
    every case only the named file can have changed, and only if it may be written. *)
Theorem write_tool_exact o cid args c d w r d' w' :
  WriteTool_execute o cid args c (d, w) = (r, (d', w')) ->
  (forall res, r = Ok res -> result_is_error res = true -> (d', w') = (d, w))
  /\ ((d', w') = (d, w) \/ exists input p,
        decode_write_input args = Ok input /\ resolve_in c (wti_path input) = Ok p
        /\ write_allowed d c p = Ok tt
        /\ (forall e, wti_expected_snapshot input = Some e ->
              stable_text_hash <$> file_text d p = Some e)
        /\ (forall q, disk_same p q = false -> file_text d' q = file_text d q)
        /\ forall res, r = Ok res -> file_text d' p = Some (wti_content input)).
Proof.
  unfold WriteTool_execute. destruct (decode_write_input args) as [input|]; [|intros [= <- <- <-]; auto].
  unfold open_for_write. simpl.
  destruct (resolve_in c (wti_path input)) as [p|] eqn:Ep; [|intros [= <- <- <-]; by auto].
  cbn [result_bind]. destruct (write_allowed d c p) as [[]|] eqn:Ew; [|intros [= <- <- <-]; by auto].
  cbn [result_bind].
  destruct (load_optional_text_file d p) as [ex|] eqn:El; [|intros [= <- <- <-]; by auto].
  cbn [result_bind]. apply load_text in El.
  intros [(_ & -> & Hr)|(He & Ho & Hr)]%finish_file_cases; [auto|].
  split; [intros res Hres Hre; destruct (Hr res Hres); congruence|]. right. exists input, p.
  rewrite El. do 3 (split; [done|]).
  revert He Hr. unfold apply_write.
  destruct (snapshot_mismatch _ _) eqn:Es; [done|]. intros He Hr. split; [|split; [done|]].
  - intros e Hx. by apply (snapshot_guard _ _ Es).
  - intros res Hres. destruct (Hr res Hres) as [_ ->]. revert He. simpl. repeat case_match; done.
Qed.

End Refinement.

(** ** A concrete disk *)

(** A file per path without [..]; there are no links. *)
Fixpoint fold_dots (p acc : PathBuf) : PathBuf :=
  match p with
  | [] => acc
  | c :: rest => fold_dots rest (if String.eqb c ".." then removelast acc else acc ++ [c])
  end.

#[export] Instance dot_disk : Disk := {|
  DiskState := gmap PathBuf string;
  disk_read := fun d p => match d !! fold_dots p [] with Some t => Ok t | None => Err Io_NotFound end;
  disk_create_dir_all := fun d _ => (Ok tt, d);
  disk_write := fun d p t => (Ok tt, <[fold_dots p [] := t]> d);
  disk_try_exists := fun d p => Ok (bool_decide (is_Some (d !! fold_dots p [])));
  disk_remove_file := fun d p => (Ok tt, delete (fold_dots p []) d);
  disk_view := fun _ => plain_fs;
  disk_same := fun p q => bool_decide (fold_dots p [] = fold_dots q [])
|}.

#[export] Instance dot_disk_laws : DiskLaws dot_disk.
Proof.
  split; unfold file_text; simpl.
  - intros p. by apply bool_decide_eq_true.
  - intros d p q ->%bool_decide_eq_true. done.
  - done.
  - intros d p c q Hn%bool_decide_eq_false. by rewrite lookup_insert_ne.
  - intros d p c _. by rewrite lookup_insert_eq.
  - intros d p q Hn%bool_decide_eq_false. by rewrite lookup_delete_ne.
  - intros d p _. by rewrite lookup_delete_eq.
  - intros d p [= Hn%bool_decide_eq_false]. destruct (d !! _); [|done]. by destruct Hn.
Qed.

#[local] Existing Instance json_text.
#[export] Instance quiet_tools : FileToolHost := {|
  TWorld := unit;
  record_mutation := fun _ _ _ w => (Err (ToolErr_InvalidState "no checkpoints"), w);
  file_activity := fun _ _ w => w
|}.
#[export] Instance write_inputs : FileToolInputs json_text := {|
  decode_patch_input := fun _ => Err "not a patch";
  decode_edit_input := fun _ => Err "not an edit";
  decode_write_input := fun text => Ok (mkWriteToolInput "x" text None None None)
|}.

Definition work_context : ToolExecutionContext :=
  mkToolExecutionContext ["/"; "work"] None None None [] [] [] [] None None true None None
    None None None None None None None None None None
    (mkToolVisibilityContext None None None ∅) None None None None None None.

Definition work_disk : @DiskState dot_disk :=
  ({[ ["/"; "work"; "x"] := "ab"; ["/"; "work"; "y"] := "keep" ]} : gmap PathBuf string).

Definition quiet : @TWorld json_text quiet_tools := tt.

Definition new_arguments : @Value json_text := "new".

Definition replace_once (path old new : string) : PatchOperation :=
  Patch_Edit path [Edit_StrReplace old new false] None.

Definition run_patch (ops : list PatchOperation) :=
  execute_patch_operations "patch_files" None "call" ops work_context (work_disk, quiet).

Definition good_patch : list PatchOperation :=
  [replace_once "x" "a" "1"; replace_once "x" "b" "2"; Patch_Move "x" "z" None None None].

Lemma patch_all_or_nothing_witness :
  (run_patch [replace_once "x" "a" "1"; replace_once "x" "a" "2"]).2 = (work_disk, quiet).
Proof.
  apply (patch_all_or_nothing "patch_files" None "call"
           [replace_once "x" "a" "1"; replace_once "x" "a" "2"] work_context work_disk quiet
           (run_patch [replace_once "x" "a" "1"; replace_once "x" "a" "2"]).1); vm_compute; reflexivity.
Defined.

Definition applied (r : result ToolResult ToolError) : bool :=
  match r with Ok res => negb (result_is_error res) | Err _ => false end.

Lemma good_patch_applies : applied (run_patch good_patch).1 = true.
Proof. vm_compute. reflexivity. Qed.

Lemma patch_refines_sequence_witness :
  exists f, ref_operations work_context (file_text work_disk) good_patch = Some f
    /\ (forall p, p ∈ patch_paths work_context good_patch ->
          file_text (run_patch good_patch).2.1 p = f p)
    /\ (forall q, (forall p, p ∈ patch_paths work_context good_patch -> disk_same p q = false) ->
          file_text (run_patch good_patch).2.1 q = file_text work_disk q).
Proof.
  pose proof good_patch_applies as Hok.
  destruct (run_patch good_patch) as [[res|e] [d' w']] eqn:E; [|discriminate].
  apply (patch_refines_sequence "patch_files" None "call" good_patch work_context work_disk quiet
           res d' w'); [exact E | by apply negb_true_iff in Hok|].
  intros p q Hp Hq Hs.
  assert (Hl : patch_paths work_context good_patch
               = [["/"; "work"; "x"]; ["/"; "work"; "x"]; ["/"; "work"; "x"]; ["/"; "work"; "z"]])
    by reflexivity.
  rewrite Hl in Hp, Hq. clear Hl E Hok. set_unfold in Hp. set_unfold in Hq.
  destruct Hp as [->|[->|[->|[->|[]]]]], Hq as [->|[->|[->|[->|[]]]]]; done.
Defined.

Lemma patch_writes_only_allowed_witness :
  exists p, p ∈ patch_paths work_context good_patch /\ disk_same p ["/"; "work"; "z"] = true
    /\ write_allowed work_disk work_context p = Ok tt.
Proof.
  destruct (run_patch good_patch) as [r [d' w']] eqn:E.
  apply (patch_writes_only_allowed "patch_files" None "call" good_patch work_context work_disk quiet
           r d' w'); [exact E|].
  apply (f_equal (fun x => file_text x.2.1 ["/"; "work"; "z"])) in E. cbn [snd fst] in E.
  rewrite <- E. vm_compute. discriminate.
Defined.

Lemma write_tool_exact_witness :
  file_text (WriteTool_execute None "call" new_arguments work_context (work_disk, quiet)).2.1 ["/"; "work"; "x"]
  = Some "new".
Proof.
  destruct (WriteTool_execute None "call" new_arguments work_context (work_disk, quiet)) as [r [d' w']] eqn:E.
  destruct (write_tool_exact None "call" new_arguments work_context work_disk quiet r d' w' E)
    as [_ [Hs|(input & p & Hi & Hp & _ & _ & _ & Hr)]].
  - exfalso. injection Hs as -> _. apply (f_equal (fun x => file_text x.2.1 ["/"; "work"; "x"])) in E.
    vm_compute in E. discriminate.
  - injection Hi as <-. injection Hp as <-. destruct r as [res|]; [by apply (Hr res)|].
    apply (f_equal (fun x => x.1)) in E. vm_compute in E. discriminate.
Defined.

(** Two spellings of one path are staged as two files: both edits are reported as
    applied, but each is based on the text on the disk, and the file that is
    committed last, in the order of the paths, overwrites the other edit. *)
Theorem aliased_paths_lose_updates :
  let run := run_patch [replace_once "x" "a" "1"; replace_once "d/../x" "b" "2"] in
  applied run.1 = true
  /\ file_text run.2.1 ["/"; "work"; "x"] = Some "1b"
  /\ file_text (run_patch [replace_once "x" "a" "1"; replace_once "x" "b" "2"]).2.1
       ["/"; "work"; "x"] = Some "12".
Proof.
  split; [|split]; vm_compute; reflexivity.
Qed.
