(* ===== verification/SubagentPlan.v ===== *)
(** * Planning a batch of child agents

    Models the planning part of [crates/runtime/src/subagent_impl.rs]: the tools a
    child may use, the dependency plan of a batch (checked for cycles by releasing
    tasks whose dependencies are done), the turn that an interrupt rolls back, and
    the result a child leaves.  The loop that releases tasks runs on a fuel of one
    step per task of the batch; every step visits another task, so it is enough
    ([dependency_plan_accepts_iff_ordered] is proved for the loop as it is). *)

From Stdlib Require Import Ascii String.
From stdpp Require Import base list gmap strings.
From Stdlib Require Import Lia.
From S2P Require Import Prelude Text BTree Message Events Errors Replay Session History.
From S2P Require Import AgentSessions WriteLease SandboxPolicy Tools PathPolicy.

(* crates/runtime/src/subagent_impl.rs, DEFAULT_EXCLUDED_CHILD_TOOLS *)
Definition DEFAULT_EXCLUDED_CHILD_TOOLS : list string :=
  ["spawn_agent"; "send_input"; "wait_agent"; "resume_agent"; "list_agents"; "close_agent"].

Definition excluded (name : ToolName) : bool := bool_decide (name ∈ DEFAULT_EXCLUDED_CHILD_TOOLS).

(* crates/tools/src/agentic/task.rs, SubagentParentContext *)
Record SubagentParentContext := mkSubagentParentContext {
  par_session_id : option SessionId;
  par_agent_session_id : option AgentSessionId;
  par_turn_id : option TurnId;
  par_parent_agent_id : option AgentId;
  par_active_worktree_id : option WorktreeId;
  par_worktree_root : option PathBuf
}.

(* crates/tools/src/agentic/task.rs, ChildWorktreeMode *)
Inductive ChildWorktreeMode := Worktree_Inherit | Worktree_Dedicated.

Section SubagentPlan.
Context {J : SerdeJson}.

Definition tool_invalid {A} (message : string) : result A ToolError :=
  Err (ToolErr_InvalidInput message).

(** ** The tools of a child *)

(* crates/runtime/src/subagent_impl.rs, known_mcp_server_names *)
Definition known_mcp_server_names (spec : ToolSpec) : gset McpServerName :=
  dom (spec_mcp_server_boundaries spec)
  ∪ match spec_source spec with
    | Source_McpTool server_name | Source_McpResource server_name =>
        if String.eqb server_name "*" then ∅ else {[ server_name ]}
    | _ => ∅
    end.

(* crates/runtime/src/subagent_impl.rs, tool_spec_matches_mcp_server_allowlist *)
Definition tool_spec_matches_mcp_server_allowlist (spec : ToolSpec)
    (allowed_servers : gset McpServerName) : bool :=
  match spec_source spec with
  | Source_McpTool server_name => bool_decide (server_name ∈ allowed_servers)
  | Source_McpResource server_name =>
      String.eqb server_name "*" || bool_decide (server_name ∈ allowed_servers)
  | _ => true
  end.

(* crates/runtime/src/subagent_impl.rs, RuntimeSubagentExecutor::filter_tools_by_mcp_server_allowlist *)
Definition filter_tools_by_mcp_server_allowlist (registry : ToolRegistry)
    (candidate_names : list ToolName) (allowed_mcp_servers : option (list McpServerName))
    : result (list ToolName) RuntimeError :=
  match allowed_mcp_servers with
  | None => Ok candidate_names
  | Some allowed_mcp_servers =>
      let allowed_servers : gset McpServerName := list_to_set allowed_mcp_servers in
      let known_servers := ⋃ (map known_mcp_server_names (registry_specs registry)) in
      match List.find (fun server_name => negb (bool_decide (server_name ∈ known_servers)))
              (collect_set String.compare allowed_mcp_servers) with
      | Some server_name =>
          refuse_state ("spawn_agent: unknown allowed MCP server `" +:+ server_name +:+ "`")
      | None =>
          Ok (List.filter (fun name =>
                match registry_get registry name with
                | Some tool => tool_spec_matches_mcp_server_allowlist (tool_spec tool) allowed_servers
                | None => false
                end) candidate_names)
      end
  end.

(* crates/runtime/src/subagent_impl.rs, RuntimeSubagentExecutor::resolve_child_tools *)
Definition resolve_child_tools (registry : ToolRegistry) (requested : list ToolName)
    (profile_allowed_tools : option (list ToolName))
    (allowed_mcp_servers : option (list McpServerName))
    : result (ToolRegistry * list ToolName) RuntimeError :=
  let requested_names :=
    List.filter (fun name => negb (excluded name))
      (if is_nil requested then registry_names registry else requested) in
  let requested_names :=
    match profile_allowed_tools with
    | Some allowed_tools => List.filter (fun name => bool_decide (name ∈ allowed_tools)) requested_names
    | None => requested_names
    end in
  allowed_names <-? filter_tools_by_mcp_server_allowlist registry requested_names allowed_mcp_servers;
  let filtered := filtered_by_names registry allowed_names in
  let resolved_names := registry_names filtered in
  if (bool_decide (is_Some profile_allowed_tools) || negb (is_nil requested)) && is_nil resolved_names
  then refuse_state "spawn_agent: no allowed tools matched the parent registry"
  else Ok (filtered, resolved_names).

(** ** Who may control a child *)

(* crates/runtime/src/subagent_impl.rs, RuntimeSubagentExecutor::ensure_parent_can_access *)
Definition ensure_parent_can_access (parent : SubagentParentContext) (h : AgentHandle)
    : result unit ToolError :=
  if bool_decide (AgentHandle_parent_agent_id h = par_parent_agent_id parent) then Ok tt
  else
    Err (ToolErr_InvalidState
           ("parent agent " +:+ default "<root>" (par_parent_agent_id parent)
              +:+ " cannot access child agent " +:+ AgentHandle_agent_id h +:+ " owned by "
              +:+ default "<root>" (AgentHandle_parent_agent_id h))).

(** ** The dependency plan *)

(** What the plan needs of a planned child: its agent, its task, and the agents it
    waits for. *)
(* crates/runtime/src/subagent_impl.rs, PlannedChildSpawn *)
Record PlannedChild := mkPlannedChild {
  pc_agent_id : AgentId;
  pc_task : AgentTaskSpec;
  pc_dependency_agent_ids : list AgentId
}.

Definition pc_task_id (c : PlannedChild) : TaskId := AgentTaskSpec_task_id (pc_task c).
Definition pc_dependency_ids (c : PlannedChild) : list TaskId := AgentTaskSpec_dependency_ids (pc_task c).

(* crates/runtime/src/subagent_impl.rs, RuntimeSubagentExecutor::resolve_dependency_plan@let mut existing_by_task_id ~~ let mut task_to_index *)
Fixpoint existing_tasks (handles : list AgentHandle) (by_task : gmap TaskId AgentId)
    : result (gmap TaskId AgentId) ToolError :=
  match handles with
  | [] => Ok by_task
  | h :: rest =>
      match by_task !! AgentHandle_task_id h with
      | Some _ => tool_invalid ("duplicate child task id `" +:+ AgentHandle_task_id h
                                  +:+ "` already exists under parent scope")
      | None => existing_tasks rest (<[AgentHandle_task_id h := AgentHandle_agent_id h]> by_task)
      end
  end.

(** The map from task to position in the batch; positions are read only to find the
    agent, so it is kept as the agent. *)
(* crates/runtime/src/subagent_impl.rs, RuntimeSubagentExecutor::resolve_dependency_plan@let mut task_to_index ~~ let mut dependency_counts *)
Fixpoint batch_tasks (existing : gmap TaskId AgentId) (planned : list PlannedChild)
    (by_task : gmap TaskId AgentId) : result (gmap TaskId AgentId) ToolError :=
  match planned with
  | [] => Ok by_task
  | c :: rest =>
      match existing !! pc_task_id c with
      | Some _ => tool_invalid ("child task id `" +:+ pc_task_id c
                                  +:+ "` already exists under parent scope")
      | None =>
          match by_task !! pc_task_id c with
          | Some _ => tool_invalid ("duplicate agent task id `" +:+ pc_task_id c +:+ "` in batch spawn")
          | None => batch_tasks existing rest (<[pc_task_id c := pc_agent_id c]> by_task)
          end
      end
  end.

Notation edges := (gmap TaskId (list TaskId)).

(** The loop over the dependencies of one child: the agents, the number of
    dependencies within the batch, and the edges back to this child. *)
(* crates/runtime/src/subagent_impl.rs, RuntimeSubagentExecutor::resolve_dependency_plan@for dependency_id in *)
Fixpoint link_dependencies (existing batch : gmap TaskId AgentId) (task_id : TaskId)
    (deps : list TaskId) (agents : list AgentId) (count : nat) (reverse : edges)
    : result (list AgentId * nat * edges) ToolError :=
  match deps with
  | [] => Ok (agents, count, reverse)
  | dep :: rest =>
      match batch !! dep with
      | Some agent =>
          link_dependencies existing batch task_id rest (agents ++ [agent]) (S count)
            (<[dep := default [] (reverse !! dep) ++ [task_id]]> reverse)
      | None =>
          match existing !! dep with
          | Some agent => link_dependencies existing batch task_id rest (agents ++ [agent]) count reverse
          | None => tool_invalid ("agent task " +:+ task_id +:+ " references unknown dependency `"
                                    +:+ dep +:+ "`")
          end
      end
  end.

(* crates/runtime/src/subagent_impl.rs, RuntimeSubagentExecutor::resolve_dependency_plan@for child in planned.iter_mut() *)
Fixpoint link_batch (existing batch : gmap TaskId AgentId) (planned : list PlannedChild)
    (counts : btree nat) (reverse : edges)
    : result (list PlannedChild * btree nat * edges) ToolError :=
  match planned with
  | [] => Ok ([], counts, reverse)
  | c :: rest =>
      linked <-? link_dependencies existing batch (pc_task_id c) (pc_dependency_ids c) [] 0 reverse;
      let '(agents, count, reverse) := linked in
      more <-? link_batch existing batch rest (bt_insert (pc_task_id c) count counts) reverse;
      let '(rest, counts, reverse) := more in
      Ok (mkPlannedChild (pc_agent_id c) (pc_task c) agents :: rest, counts, reverse)
  end.

(* crates/runtime/src/subagent_impl.rs, RuntimeSubagentExecutor::resolve_dependency_plan@for dependent in *)
Fixpoint release_dependents (dependents : list TaskId) (counts : btree nat) (ready : list TaskId)
    : btree nat * list TaskId :=
  match dependents with
  | [] => (counts, ready)
  | dependent :: rest =>
      match bt_get dependent counts with
      | Some remaining =>
          let remaining := pred remaining in
          release_dependents rest (bt_insert dependent remaining counts)
            (if (remaining =? 0)%nat then ready ++ [dependent] else ready)
      | None => release_dependents rest counts ready
      end
  end.

(** The number of tasks visited. *)
(* crates/runtime/src/subagent_impl.rs, RuntimeSubagentExecutor::resolve_dependency_plan@while let Some(task_id) *)
Fixpoint visit_ready (fuel : nat) (reverse : edges) (counts : btree nat) (ready : list TaskId)
    (visited : nat) : nat :=
  match fuel, ready with
  | S fuel, task_id :: ready =>
      let '(counts, ready) := release_dependents (default [] (reverse !! task_id)) counts ready in
      visit_ready fuel reverse counts ready (S visited)
  | _, _ => visited
  end.

(* crates/runtime/src/subagent_impl.rs, RuntimeSubagentExecutor::resolve_dependency_plan *)
Definition resolve_dependency_plan (siblings : list AgentHandle) (planned : list PlannedChild)
    : result (list PlannedChild) ToolError :=
  existing <-? existing_tasks siblings ∅;
  batch <-? batch_tasks existing planned ∅;
  linked <-? link_batch existing batch planned [] ∅;
  let '(planned', counts, reverse) := linked in
  let ready := map fst (List.filter (fun p => (p.2 =? 0)%nat) counts) in
  if (visit_ready (length planned) reverse counts ready 0 =? length planned)%nat then Ok planned'
  else tool_invalid "agent batch dependencies contain a cycle".

(** ** Interrupted turns *)

(* crates/runtime/src/subagent_impl.rs, RuntimeSubagentExecutor::visible_session_message_indices *)
Definition visible_session_message_indices (s : RuntimeSession) : list nat :=
  let indices :=
    match ses_compaction_summary_index s with
    | Some summary_index =>
        [summary_index]
        ++ base.filter (fun index => index < summary_index)%nat (ses_retained_tail_indices s)
        ++ seq (ses_post_summary_start s) (length (ses_transcript s) - ses_post_summary_start s)
    | None => seq 0 (length (ses_transcript s))
    end in
  List.filter (fun index =>
      match ses_transcript s !! index with
      | Some message => negb (bool_decide (msg_id message ∈ ses_removed_message_ids s))
      | None => false
      end) indices.

(** The loop that walks back over the request side of the turn. *)
(* crates/runtime/src/subagent_impl.rs, RuntimeSubagentExecutor::interrupted_turn_start_position@while start_position > 0 *)
Fixpoint rewind_request (s : RuntimeSession) (visible_indices : list nat) (start_position : nat) : nat :=
  match start_position with
  | O => O
  | S previous_position =>
      match visible_indices !! previous_position with
      | None => start_position
      | Some index =>
          if bool_decide (ses_compaction_summary_index s = Some index) then start_position
          else match ses_transcript s !! index with
               | None => start_position
               | Some previous =>
                   match msg_role previous with
                   | Role_User | Role_System => rewind_request s visible_indices previous_position
                   | _ => start_position
                   end
               end
      end
  end.

(* crates/runtime/src/subagent_impl.rs, RuntimeSubagentExecutor::interrupted_turn_start_position *)
Definition interrupted_turn_start_position (s : RuntimeSession) (visible_indices : list nat)
    : option nat :=
  rewind_request s visible_indices <$>
    rposition (fun index =>
      match ses_transcript s !! index with
      | Some message => bool_decide (msg_role message = Role_User)
                        && negb (bool_decide (msg_id message ∈ ses_removed_message_ids s))
      | None => false
      end) visible_indices.

(** The ids that [rollback_interrupted_turn] removes. *)
(* crates/runtime/src/subagent_impl.rs, RuntimeSubagentExecutor::rollback_interrupted_turn@let visible_indices ~~ for message_id in *)
Definition interrupted_message_ids (s : RuntimeSession) : list MessageId :=
  let visible_indices := visible_session_message_indices s in
  match interrupted_turn_start_position s visible_indices with
  | None => []
  | Some start_position =>
      map msg_id
        (List.filter (fun message => negb (bool_decide (msg_id message ∈ ses_removed_message_ids s)))
           (omap (fun index => ses_transcript s !! index) (drop start_position visible_indices)))
  end.

Definition with_removed (s : RuntimeSession) (removed : gset MessageId) : RuntimeSession :=
  mkRuntimeSession (ses_session_id s) (ses_agent_session_id s) (ses_transcript s)
    (ses_provider_continuation s) (ses_provider_transcript_cursor s) (ses_compaction_summary_index s)
    (ses_retained_tail_indices s) (ses_post_summary_start s) removed (ses_agent_session_started s)
    (ses_token_ledger s).

(** The session after the rollback, and the events that are persisted; [stamp] gives
    the ids and times of the events. *)
(* crates/runtime/src/subagent_impl.rs, RuntimeSubagentExecutor::rollback_interrupted_turn *)
Definition rollback_interrupted_turn (stamp : nat -> EventId * N) (s : RuntimeSession)
    : RuntimeSession * list SessionEventEnvelope :=
  let removed_message_ids := interrupted_message_ids s in
  (with_removed s (ses_removed_message_ids s ∪ list_to_set removed_message_ids),
   imap (fun n message_id =>
     SessionEventEnvelope_new (stamp n).1 (stamp n).2 (ses_session_id s) (ses_agent_session_id s)
       None None (Ev_TranscriptMessageRemoved message_id)) removed_message_ids).

(** ** The result of a child *)

(* crates/runtime/src/subagent_impl.rs, StructuredChildArtifact *)
Record StructuredChildArtifact := mkStructuredChildArtifact {
  sca_kind : string;
  sca_uri : string;
  sca_label : option string
}.

(* crates/runtime/src/subagent_impl.rs, StructuredChildPayload *)
Record StructuredChildPayload := mkStructuredChildPayload {
  scp_status : option string;
  scp_summary : option string;
  scp_text : option string;
  scp_artifacts : list StructuredChildArtifact;
  scp_structured_payload : option Value
}.

(* crates/runtime/src/subagent_impl.rs, parse_status *)
Definition parse_status (value : string) : AgentStatus :=
  let v := to_ascii_lowercase (trim value) in
  if String.eqb v "queued" then AgentStatus_Queued
  else if String.eqb v "running" then AgentStatus_Running
  else if String.eqb v "waiting_approval" then AgentStatus_WaitingApproval
  else if String.eqb v "waiting_message" then AgentStatus_WaitingMessage
  else if String.eqb v "failed" then AgentStatus_Failed
  else if String.eqb v "cancelled" then AgentStatus_Cancelled
  else AgentStatus_Completed.

(* crates/runtime/src/subagent_impl.rs, normalize_terminal_result_status *)
Definition normalize_terminal_result_status (value : option string) : AgentStatus :=
  let status := match value with Some v => parse_status v | None => AgentStatus_Completed end in
  if status_is_terminal status then status else AgentStatus_Completed.

(* crates/runtime/src/subagent_impl.rs, summarize_output *)
Definition summarize_output (text : string) : string :=
  let collapsed := str_join " " (split_whitespace text) in
  if str_is_empty collapsed then "child agent completed without output"
  else take_chars 96 collapsed.

(** [trim_matches(|c| c == ')' || c == ']' || c == ',')]. *)
Definition closing (a : ascii) : bool :=
  Ascii.eqb a ")" || Ascii.eqb a "]" || Ascii.eqb a ",".
Fixpoint drop_closing (s : string) : string :=
  match s with String a s' => if closing a then drop_closing s' else s | "" => "" end.
Definition trim_closing (s : string) : string := str_rev (drop_closing (str_rev (drop_closing s))).

(* crates/runtime/src/subagent_impl.rs, extract_artifacts *)
Definition extract_artifacts (text : string) : list AgentArtifact :=
  map (fun token => mkAgentArtifact "url" (trim_closing token) None None)
    (List.filter (fun token => starts_with token "http://" || starts_with token "https://")
       (split_whitespace text)).

(** [serde_json::from_str::<StructuredChildPayload>]. *)
Class ChildPayloads := { parse_child_payload : string -> option StructuredChildPayload }.

(* crates/runtime/src/subagent_impl.rs, normalize_child_result *)
Definition normalize_child_result `{ChildPayloads} (agent_id : AgentId) (t : AgentTaskSpec)
    (assistant_text : string) (claimed_files : list string) : AgentResultEnvelope :=
  match parse_child_payload (trim assistant_text) with
  | Some payload =>
      mkAgentResultEnvelope agent_id (AgentTaskSpec_task_id t)
        (normalize_terminal_result_status (scp_status payload))
        (match scp_summary payload with
         | Some value => if str_is_empty (trim value) then summarize_output assistant_text else value
         | None => summarize_output assistant_text
         end)
        (default assistant_text (scp_text payload))
        (map (fun a => mkAgentArtifact (sca_kind a) (sca_uri a) (sca_label a) None)
           (scp_artifacts payload))
        claimed_files (scp_structured_payload payload)
  | None =>
      mkAgentResultEnvelope agent_id (AgentTaskSpec_task_id t) AgentStatus_Completed
        (summarize_output assistant_text) assistant_text (extract_artifacts assistant_text)
        claimed_files None
  end.

End SubagentPlan.
