(* ===== verification/SubagentPlanProps.v ===== *)
(** * Planning a batch of child agents: properties

    A dependency plan is accepted exactly when the batch can be ordered so that every
    task comes after its dependencies; a child gets only tools of its parent that its
    profile allows; an interrupt rolls back exactly the turn in progress; and a child's
    result is always terminal. *)

From Stdlib Require Import Ascii String.
From stdpp Require Import base list gmap strings.
From Stdlib Require Import Lia.
From S2P Require Import Prelude Text BTree Message Events Errors Replay Session History.
From S2P Require Import AgentSessions WriteLease SandboxPolicy Tools PathPolicy SubagentPlan.

(** ** Releasing tasks

    The loop on an abstract batch: [deps t] are the dependencies of [t] within the
    batch, [R x] the tasks that [x] releases. *)

(** How often [x] occurs in a list. *)
Fixpoint occ (x : string) (l : list string) : nat :=
  match l with [] => 0 | y :: l' => ((if String.eqb x y then 1 else 0) + occ x l')%nat end.

Lemma occ_app x l k : occ x (l ++ k) = (occ x l + occ x k)%nat.
Proof. induction l as [|y l IH]; simpl; [done | lia]. Qed.

Lemma occ_zero x l : occ x l = 0%nat <-> x ∉ l.
Proof.
  induction l as [|y l IH]; simpl; [split; [intros _ H; inversion H | done]|].
  rewrite not_elem_of_cons, <- IH. destruct (String.eqb_spec x y) as [->|]; [|naive_solver lia].
  split; [lia | naive_solver].
Qed.

(** The dependencies that are not in [V]. *)
Definition missing (V l : list string) : nat :=
  length (List.filter (fun d => negb (bool_decide (d ∈ V))) l).

Lemma missing_snoc V x l : x ∉ V -> missing V l = (missing (V ++ [x]) l + occ x l)%nat.
Proof.
  intros Hx. unfold missing. induction l as [|d l IH]; simpl; [done|].
  destruct (String.eqb_spec x d) as [->|Hne].
  - rewrite (bool_decide_eq_false_2 _ Hx), (bool_decide_eq_true_2 (d ∈ V ++ [d])) by set_solver.
    simpl. lia.
  - assert (Heq : bool_decide (d ∈ V ++ [x]) = bool_decide (d ∈ V))
      by (apply bool_decide_ext; set_solver).
    rewrite Heq. destruct (bool_decide (d ∈ V)); simpl; lia.
Qed.

Lemma missing_zero V l : missing V l = 0%nat <-> forall d, d ∈ l -> d ∈ V.
Proof.
  unfold missing. induction l as [|d l IH]; simpl; [split; [intros _ d H; inversion H | done]|].
  case_bool_decide as Hd; simpl; [|split; [lia | intros H; exfalso; apply Hd, H; by left]].
  rewrite IH. split; [intros H x [->|Hx]%elem_of_cons; auto | intros H x Hx; apply H; by right].
Qed.

Section Release.
Context (tids : list string) (deps R : string -> list string).
Context (Hnd : NoDup tids) (Hin : forall t d, t ∈ tids -> d ∈ deps t -> d ∈ tids).
Context (HR : forall x t, t ∈ tids -> occ t (R x) = occ x (deps t)).
Context (HRin : forall x d, d ∈ R x -> d ∈ tids).

(** The visited tasks [V], the ready ones, the counts, and the dependents of the last
    visited task that are still to be released. *)
Record release_inv (V queue : list string) (counts : btree nat) (l : list string) : Prop := {
  ri_nodup : NoDup (V ++ queue);
  ri_tasks : forall t, t ∈ V ++ queue -> t ∈ tids;
  ri_count : forall t, t ∈ tids -> bt_get t counts = Some (missing V (deps t) + occ t l)%nat;
  ri_ready : forall t, t ∈ tids -> t ∈ V ++ queue <-> (missing V (deps t) + occ t l)%nat = 0%nat;
  ri_left : forall t, t ∈ l -> t ∈ tids;
  ri_order : forall i t d, (V ++ queue) !! i = Some t -> d ∈ deps t ->
    exists j, (j < i)%nat /\ V !! j = Some d
}.

Lemma release_one V queue counts d l :
  release_inv V queue counts (d :: l) ->
  exists remaining, bt_get d counts = Some remaining
    /\ release_inv V (if (pred remaining =? 0)%nat then queue ++ [d] else queue)
         (bt_insert d (pred remaining) counts) l.
Proof.
  intros [Hn Ht Hc Hr Hl Ho]. assert (Hd : d ∈ tids) by (apply Hl; by left).
  exists (missing V (deps d) + occ d (d :: l))%nat. split; [by apply Hc|].
  simpl. rewrite String.eqb_refl.
  replace (pred (missing V (deps d) + (1 + occ d l))) with (missing V (deps d) + occ d l)%nat by lia.
  assert (Hout : d ∉ V ++ queue) by (rewrite (Hr d Hd); simpl; rewrite String.eqb_refl; lia).
  assert (Hcount : forall t, t ∈ tids ->
    bt_get t (bt_insert d (missing V (deps d) + occ d l)%nat counts)
    = Some (missing V (deps t) + occ t l)%nat).
  { intros t Htt. rewrite bt_get_insert. destruct (String.eqb_spec t d) as [->|Hne]; [done|].
    rewrite Hc by done. simpl. by destruct (String.eqb_spec t d). }
  assert (Hother : forall t, t ∈ tids -> t <> d ->
    t ∈ V ++ queue <-> (missing V (deps t) + occ t l)%nat = 0%nat).
  { intros t Htt Hne. rewrite (Hr t Htt). simpl. by destruct (String.eqb_spec t d). }
  destruct (Nat.eqb_spec (missing V (deps d) + occ d l) 0) as [Hz|Hz].
  - split; try done.
    + rewrite app_assoc. apply NoDup_app. split; [done|]. split; [|apply NoDup_singleton].
      intros t Htv ->%list_elem_of_singleton. done.
    + intros t. rewrite app_assoc, elem_of_app, list_elem_of_singleton. intros [Hx| ->]; auto.
    + intros t Htt. rewrite app_assoc, elem_of_app, list_elem_of_singleton.
      destruct (decide (t = d)) as [->|Hne]; [tauto|]. rewrite (Hother t Htt Hne). tauto.
    + intros t Htl. apply Hl. by right.
    + intros i t x Hi Hx. rewrite app_assoc in Hi. apply lookup_app_Some in Hi as [Hi|[Hlen Hi]].
      * by apply (Ho i t).
      * apply list_lookup_singleton_Some in Hi as [_ ->].
        assert (Hxv : x ∈ V) by (apply (missing_zero V (deps t)); [lia | done]).
        apply list_elem_of_lookup in Hxv as [j Hj]. exists j. split; [|done].
        apply lookup_lt_Some in Hj. rewrite length_app in Hlen. lia.
  - split; try done.
    + intros t Htt. destruct (decide (t = d)) as [->|Hne]; [|by apply Hother]. tauto.
    + intros t Htl. apply Hl. by right.
Qed.

Lemma release_all V queue counts l :
  release_inv V queue counts l ->
  release_inv V (release_dependents l counts queue).2 (release_dependents l counts queue).1 [].
Proof.
  revert queue counts. induction l as [|d l IH]; intros queue counts Hi; simpl; [done|].
  destruct (release_one _ _ _ _ _ Hi) as (remaining & Hd & Hi'). rewrite Hd. by apply IH.
Qed.

Lemma release_visit V x queue counts :
  release_inv V (x :: queue) counts [] -> release_inv (V ++ [x]) queue counts (R x).
Proof.
  intros [Hn Ht Hc Hr Hl Ho].
  assert (Happ : V ++ x :: queue = (V ++ [x]) ++ queue) by (by rewrite <- app_assoc).
  assert (Hx : x ∉ V).
  { apply NoDup_app in Hn as (_ & Hd & _). intros Hxv. apply (Hd x Hxv). by left. }
  assert (Hm : forall t, t ∈ tids -> missing V (deps t) = (missing (V ++ [x]) (deps t) + occ t (R x))%nat)
    by (intros t Htt; rewrite (missing_snoc V x) by done; by rewrite HR).
  split; try (by rewrite <- Happ).
  - intros t Htt. rewrite Hc by done. simpl. rewrite Hm by done. f_equal. lia.
  - intros t Htt. rewrite <- Happ, Hr by done. simpl. rewrite Hm by done. lia.
  - apply HRin.
  - intros i t d Hi Hd. rewrite <- Happ in Hi. destruct (Ho i t d Hi Hd) as (j & Hj & Hv).
    exists j. split; [done|]. by apply lookup_app_l_Some.
Qed.

Lemma NoDup_incl_length_le (V : list string) :
  NoDup V -> (forall t, t ∈ V -> t ∈ tids) -> (length V <= length tids)%nat.
Proof.
  intros Hv Hs. apply submseteq_length. apply NoDup_submseteq; [done|]. done.
Qed.

(** With a fuel for every task that is left, the loop ends with nothing ready. *)
Lemma visit_all (reverse : gmap string (list string)) fuel V queue counts :
  (forall x, default [] (reverse !! x) = R x) ->
  release_inv V queue counts [] -> (length tids <= length V + fuel)%nat ->
  exists V' counts', release_inv V' [] counts' []
    /\ visit_ready fuel reverse counts queue (length V) = length V'.
Proof.
  intros Hrev. revert V queue counts. induction fuel as [|fuel IH]; intros V queue counts Hi Hf.
  - pose proof (NoDup_incl_length_le _ (ri_nodup _ _ _ _ Hi) (ri_tasks _ _ _ _ Hi)) as Hle.
    rewrite length_app in Hle. destruct queue as [|x queue]; [|simpl in Hle; lia]. by exists V, counts.
  - destruct queue as [|x queue]; [by exists V, counts|]. simpl. rewrite Hrev.
    pose proof (release_all _ _ _ _ (release_visit _ _ _ _ Hi)) as Hi'.
    destruct (release_dependents (R x) counts queue) as [counts' queue']. simpl in Hi'.
    destruct (IH _ _ _ Hi') as (V' & counts'' & Hi'' & Hv).
    { rewrite length_app. simpl. lia. }
    exists V', counts''. split; [done|]. rewrite <- Hv, length_app. simpl. f_equal. lia.
Qed.

(** An order of the tasks in which every task comes after its dependencies. *)
Definition respects_deps (order : list string) : Prop :=
  forall i t d, order !! i = Some t -> d ∈ deps t -> exists j, (j < i)%nat /\ order !! j = Some d.

Lemma visited_iff_ordered V counts :
  release_inv V [] counts [] ->
  length V = length tids <-> exists order, order ≡ₚ tids /\ respects_deps order.
Proof.
  intros [Hn Ht Hc Hr Hl Ho]. setoid_rewrite app_nil_r in Hr. rewrite app_nil_r in Hn.
  setoid_rewrite app_nil_r in Ht. setoid_rewrite app_nil_r in Ho. split.
  - intros Hlen. exists V. split; [|done].
    apply submseteq_length_Permutation; [|lia]. by apply NoDup_submseteq.
  - intros (order & Hp & Hres).
    assert (Hall : forall i t, order !! i = Some t -> t ∈ V).
    { induction i as [i IH] using lt_wf_ind. intros t Hi.
      assert (Htt : t ∈ tids) by (rewrite <- Hp; by apply list_elem_of_lookup_2 in Hi).
      apply (Hr t Htt). simpl. rewrite Nat.add_0_r. apply missing_zero. intros d Hd.
      destruct (Hres i t d Hi Hd) as (j & Hj & Hjd). by apply (IH j). }
    apply Nat.le_antisymm; [by apply NoDup_incl_length_le|].
    apply submseteq_length, NoDup_submseteq; [done|]. intros t Htt. rewrite <- Hp in Htt.
    apply list_elem_of_lookup in Htt as [i Hi]. eauto.
Qed.

End Release.

(** ** The plan *)

Section Plan.
Context {J : SerdeJson}.

Lemma existing_tasks_ok hs m :
  match existing_tasks hs m with
  | Ok m' => NoDup (AgentHandle_task_id <$> hs)
      /\ (forall t, t ∈ AgentHandle_task_id <$> hs -> m !! t = None)
      /\ (forall t, is_Some (m' !! t) <-> is_Some (m !! t) \/ t ∈ AgentHandle_task_id <$> hs)
  | Err _ => ~ (NoDup (AgentHandle_task_id <$> hs)
                /\ (forall t, t ∈ AgentHandle_task_id <$> hs -> m !! t = None))
  end.
Proof.
  revert m. induction hs as [|h hs IH]; intros m; simpl.
  { split; [constructor|]. split; [intros t H; inversion H|]. intros t. rewrite elem_of_nil. tauto. }
  destruct (m !! AgentHandle_task_id h) as [a|] eqn:E.
  { unfold tool_invalid. intros [_ H]. specialize (H (AgentHandle_task_id h)). rewrite H in E; [done | by left]. }
  specialize (IH (<[AgentHandle_task_id h := AgentHandle_agent_id h]> m)).
  destruct (existing_tasks hs _) as [m'|err].
  - destruct IH as (Hn & Hf & Hd).
    assert (Hh : AgentHandle_task_id h ∉ AgentHandle_task_id <$> hs)
      by (intros Hin; apply Hf in Hin; by rewrite lookup_insert_eq in Hin).
    split; [by apply NoDup_cons|]. split.
    + intros t [->|Ht]%elem_of_cons; [done|]. specialize (Hf t Ht).
      rewrite lookup_insert_ne in Hf; [done|]. intros Heq; rewrite Heq in *; done.
    + intros t. rewrite Hd, elem_of_cons. destruct (decide (t = AgentHandle_task_id h)) as [->|Hne].
      * rewrite lookup_insert_eq. split; [auto | intros _; left; eauto].
      * rewrite lookup_insert_ne by done. tauto.
  - intros [[Hh Hn]%NoDup_cons Hf]. apply IH. split; [done|]. intros t Ht.
    rewrite lookup_insert_ne; [apply Hf; by right|]. intros Heq; rewrite Heq in *; done.
Qed.

Lemma batch_tasks_ok existing planned m :
  match batch_tasks existing planned m with
  | Ok m' => NoDup (pc_task_id <$> planned)
      /\ (forall t, t ∈ pc_task_id <$> planned -> m !! t = None /\ existing !! t = None)
      /\ (forall t, is_Some (m' !! t) <-> is_Some (m !! t) \/ t ∈ pc_task_id <$> planned)
      /\ (forall t a, m' !! t = Some a -> m !! t = Some a \/
            exists c, c ∈ planned /\ pc_task_id c = t /\ pc_agent_id c = a)
  | Err _ => ~ (NoDup (pc_task_id <$> planned)
                /\ (forall t, t ∈ pc_task_id <$> planned -> m !! t = None /\ existing !! t = None))
  end.
Proof.
  revert m. induction planned as [|c planned IH]; intros m; simpl.
  { split; [constructor|]. split; [intros t H; inversion H|]. split; [|auto].
    intros t. rewrite elem_of_nil. tauto. }
  destruct (existing !! pc_task_id c) as [a|] eqn:Ee.
  { unfold tool_invalid. intros [_ H]. destruct (H (pc_task_id c)); [by left | congruence]. }
  destruct (m !! pc_task_id c) as [a|] eqn:E.
  { unfold tool_invalid. intros [_ H]. destruct (H (pc_task_id c)); [by left | congruence]. }
  specialize (IH (<[pc_task_id c := pc_agent_id c]> m)).
  destruct (batch_tasks existing planned _) as [m'|err].
  - destruct IH as (Hn & Hf & Hd & Ha).
    assert (Hc : pc_task_id c ∉ pc_task_id <$> planned)
      by (intros Hin; apply Hf in Hin as [Hin _]; by rewrite lookup_insert_eq in Hin).
    split; [by apply NoDup_cons|]. split; [|split].
    + intros t [->|Ht]%elem_of_cons; [done|]. destruct (Hf t Ht) as [Hm He].
      rewrite lookup_insert_ne in Hm; [done|]. intros Heq; rewrite Heq in *; done.
    + intros t. rewrite Hd, elem_of_cons. destruct (decide (t = pc_task_id c)) as [->|Hne].
      * rewrite lookup_insert_eq. split; [auto | intros _; left; eauto].
      * rewrite lookup_insert_ne by done. tauto.
    + intros t a Hta. destruct (Ha t a Hta) as [H|(c' & Hc' & Ht & Hag)].
      * destruct (decide (t = pc_task_id c)) as [->|Hne].
        -- rewrite lookup_insert_eq in H. injection H as <-. right. exists c. split; [by left|done].
        -- rewrite lookup_insert_ne in H by done. by left.
      * right. exists c'. split; [by right | done].
  - intros [[Hh Hn]%NoDup_cons Hf]. apply IH. split; [done|]. intros t Ht.
    destruct (Hf t) as [Hm He]; [by right|]. rewrite lookup_insert_ne; [done|]. intros Heq; rewrite Heq in *; done.
Qed.

(** The dependencies within the batch. *)
Definition batch_deps (batch : gmap TaskId AgentId) (c : PlannedChild) : list TaskId :=
  List.filter (fun d => bool_decide (is_Some (batch !! d))) (pc_dependency_ids c).

(** The agent a dependency stands for. *)
Definition dep_agent (existing batch : gmap TaskId AgentId) (d : TaskId) : option AgentId :=
  match batch !! d with Some a => Some a | None => existing !! d end.

Lemma link_dependencies_ok existing batch t deps agents count reverse :
  match link_dependencies existing batch t deps agents count reverse with
  | Ok (agents', count', reverse') =>
      (exists l, agents' = agents ++ l /\ mapM (dep_agent existing batch) deps = Some l)
      /\ count' = (count + length (List.filter (fun d => bool_decide (is_Some (batch !! d))) deps))%nat
      /\ (forall x, exists k, default [] (reverse' !! x) = default [] (reverse !! x) ++ replicate k t
            /\ k = occ x (List.filter (fun d => bool_decide (is_Some (batch !! d))) deps))
  | Err _ => exists d, d ∈ deps /\ batch !! d = None /\ existing !! d = None
  end.
Proof.
  revert agents count reverse. induction deps as [|d deps IH]; intros agents count reverse; simpl.
  { split; [exists []; by rewrite app_nil_r|]. split; [lia|]. intros x. exists 0%nat. simpl.
    by rewrite app_nil_r. }
  destruct (batch !! d) as [a|] eqn:Eb.
  - assert (Hda : dep_agent existing batch d = Some a) by (unfold dep_agent; by rewrite Eb).
    rewrite bool_decide_eq_true_2 by eauto. simpl.
    specialize (IH (agents ++ [a]) (S count) (<[d := default [] (reverse !! d) ++ [t]]> reverse)).
    destruct (link_dependencies _ _ _ deps _ _ _) as [[[agents' count'] reverse']|err].
    + destruct IH as ((l & -> & Hl) & -> & Hr). split; [|split; [lia|]].
      * exists (a :: l). rewrite <- app_assoc. split; [done|]. rewrite Hda. simpl. by rewrite Hl.
      * intros x. destruct (Hr x) as (k & Hk & Hko). destruct (String.eqb_spec x d) as [->|Hne].
        -- rewrite lookup_insert_eq in Hk. simpl in Hk. rewrite <- app_assoc in Hk.
           exists (S k). split; [exact Hk | lia].
        -- rewrite lookup_insert_ne in Hk by done. by exists k.
    + destruct IH as (x & Hx & Hn). exists x. split; [by right | done].
  - rewrite bool_decide_eq_false_2 by (by intros [? ?]).
    destruct (existing !! d) as [a|] eqn:Ee; [|exists d; split; [by left | done]].
    assert (Hda : dep_agent existing batch d = Some a) by (unfold dep_agent; by rewrite Eb).
    specialize (IH (agents ++ [a]) count reverse).
    destruct (link_dependencies _ _ _ deps _ _ _) as [[[agents' count'] reverse']|err].
    + destruct IH as ((l & -> & Hl) & -> & Hr). split; [|split; [done|done]].
      exists (a :: l). rewrite <- app_assoc. split; [done|]. rewrite Hda. simpl. by rewrite Hl.
    + destruct IH as (x & Hx & Hn). exists x. split; [by right | done].
Qed.

Lemma occ_replicate x k t : occ x (replicate k t) = if String.eqb x t then k else 0%nat.
Proof. induction k as [|k IH]; simpl; [by destruct (String.eqb x t)|]. rewrite IH. by destruct (String.eqb x t). Qed.

Definition linked_child (existing batch : gmap TaskId AgentId) (c c' : PlannedChild) : Prop :=
  pc_agent_id c' = pc_agent_id c /\ pc_task c' = pc_task c
  /\ mapM (dep_agent existing batch) (pc_dependency_ids c) = Some (pc_dependency_agent_ids c').

Lemma link_batch_ok existing batch planned counts reverse :
  NoDup (pc_task_id <$> planned) ->
  match link_batch existing batch planned counts reverse with
  | Ok (planned', counts', reverse') =>
      Forall2 (linked_child existing batch) planned planned'
      /\ (forall c, c ∈ planned -> bt_get (pc_task_id c) counts' = Some (length (batch_deps batch c)))
      /\ (forall t, t ∉ pc_task_id <$> planned -> bt_get t counts' = bt_get t counts)
      /\ (bt_ok counts -> bt_ok counts')
      /\ (forall x c, c ∈ planned -> occ (pc_task_id c) (default [] (reverse' !! x))
            = (occ (pc_task_id c) (default [] (reverse !! x)) + occ x (batch_deps batch c))%nat)
      /\ (forall x t, t ∉ pc_task_id <$> planned ->
            occ t (default [] (reverse' !! x)) = occ t (default [] (reverse !! x)))
  | Err _ => exists c d, c ∈ planned /\ d ∈ pc_dependency_ids c /\ batch !! d = None /\ existing !! d = None
  end.
Proof.
  revert counts reverse. induction planned as [|c planned IH]; intros counts reverse Hn; simpl.
  { split; [constructor|]. split; [intros c H; inversion H|]. do 2 (split; [done|]).
    split; [|done]. intros x c H. inversion H. }
  apply NoDup_cons in Hn as [Hc Hn].
  pose proof (link_dependencies_ok existing batch (pc_task_id c) (pc_dependency_ids c) [] 0 reverse) as Hd.
  destruct (link_dependencies _ _ _ _ _ _ _) as [[[agents count] reverse1]|err]; simpl.
  2: { destruct Hd as (d & Hd & Hb). exists c, d. split; [by left | done]. }
  destruct Hd as ((l & -> & Hl) & -> & Hr).
  specialize (IH (bt_insert (pc_task_id c) (length (batch_deps batch c)) counts) reverse1 Hn).
  fold (batch_deps batch c). simpl. destruct (link_batch _ _ planned _ _) as [[[planned' counts'] reverse']|err].
  2: { destruct IH as (c' & d & Hc' & Hd). exists c', d. split; [by right | done]. }
  destruct IH as (Hf & Hcn & Hco & Hok & Hro & Hrn).
  assert (Hocc : forall x t, occ t (default [] (reverse1 !! x))
            = (occ t (default [] (reverse !! x))
               + if String.eqb t (pc_task_id c) then occ x (batch_deps batch c) else 0)%nat).
  { intros x t. destruct (Hr x) as (k & -> & ->). by rewrite occ_app, occ_replicate. }
  split; [constructor; [done|done]|]. split; [|split; [|split; [|split]]].
  - intros c' [->|Hc']%elem_of_cons; [|by apply Hcn].
    rewrite Hco by done. by rewrite bt_get_insert, String.eqb_refl.
  - intros t [Hne Ht]%not_elem_of_cons. rewrite Hco, bt_get_insert by done.
    by destruct (String.eqb_spec t (pc_task_id c)).
  - intros H. by apply Hok, bt_ok_insert.
  - intros x c' [->|Hc']%elem_of_cons.
    + rewrite Hrn, Hocc by done. by rewrite String.eqb_refl.
    + rewrite Hro, Hocc by done. destruct (String.eqb_spec (pc_task_id c') (pc_task_id c)) as [He|]; [|lia].
      exfalso. apply Hc. rewrite <- He. by apply list_elem_of_fmap_2.
  - intros x t [Hne Ht]%not_elem_of_cons. rewrite Hrn, Hocc by done.
    destruct (String.eqb_spec t (pc_task_id c)); [done | lia].
Qed.

(** ** The batches that are accepted *)

Definition task_ids (planned : list PlannedChild) : list TaskId := pc_task_id <$> planned.
Definition sibling_ids (siblings : list AgentHandle) : list TaskId := AgentHandle_task_id <$> siblings.

(** Task ids are unique, and every dependency is a task of the batch or a sibling. *)
Definition plan_ok (siblings : list AgentHandle) (planned : list PlannedChild) : Prop :=
  NoDup (sibling_ids siblings) /\ NoDup (task_ids planned)
  /\ (forall t, t ∈ task_ids planned -> t ∉ sibling_ids siblings)
  /\ (forall c d, c ∈ planned -> d ∈ pc_dependency_ids c ->
        d ∈ task_ids planned \/ d ∈ sibling_ids siblings).

(** Every task comes after its dependencies within the batch. *)
Definition ordered (planned : list PlannedChild) (order : list TaskId) : Prop :=
  order ≡ₚ task_ids planned
  /\ forall c d i, c ∈ planned -> order !! i = Some (pc_task_id c) -> d ∈ pc_dependency_ids c ->
       d ∈ task_ids planned -> exists j, (j < i)%nat /\ order !! j = Some d.

Definition child_deps (batch : gmap TaskId AgentId) (planned : list PlannedChild) (t : TaskId)
    : list TaskId :=
  from_option (batch_deps batch) [] (List.find (fun c => String.eqb (pc_task_id c) t) planned).

Lemma child_deps_of batch planned c :
  NoDup (task_ids planned) -> c ∈ planned -> child_deps batch planned (pc_task_id c) = batch_deps batch c.
Proof.
  unfold child_deps, task_ids. induction planned as [|x planned IH]; simpl; [intros _ H; inversion H|].
  intros [Hx Hn]%NoDup_cons [->|Hc]%elem_of_cons; [by rewrite String.eqb_refl|].
  destruct (String.eqb_spec (pc_task_id x) (pc_task_id c)) as [He|]; [|auto].
  exfalso. apply Hx. rewrite He. by apply list_elem_of_fmap_2.
Qed.

Lemma elem_of_task_ids planned t : t ∈ task_ids planned -> exists c, c ∈ planned /\ pc_task_id c = t.
Proof. unfold task_ids. rewrite list_elem_of_fmap. intros (c & -> & Hc). eauto. Qed.

Lemma missing_nil l : missing [] l = length l.
Proof.
  unfold missing. induction l as [|d l IH]; [done|]. cbn [List.filter].
  rewrite bool_decide_eq_false_2 by (apply not_elem_of_nil). cbn [negb length]. by rewrite IH.
Qed.

(** What is ready at first. *)
Lemma ready_start planned batch counts :
  NoDup (task_ids planned) -> bt_ok counts ->
  (forall t, is_Some (batch !! t) <-> t ∈ task_ids planned) ->
  (forall c, c ∈ planned -> bt_get (pc_task_id c) counts = Some (length (batch_deps batch c))) ->
  (forall t, t ∉ task_ids planned -> bt_get t counts = None) ->
  release_inv (task_ids planned) (child_deps batch planned) []
    (map fst (List.filter (fun p => (p.2 =? 0)%nat) counts)) counts [].
Proof.
  intros Hn Hok Hb Hc Hno.
  assert (Hq : forall t, t ∈ map fst (List.filter (fun p => (p.2 =? 0)%nat) counts)
             <-> bt_get t counts = Some 0%nat).
  { intros t. rewrite list_elem_of_fmap. setoid_rewrite elem_of_filter_b. split.
    - intros ([t' n] & -> & Hin & Hz%Nat.eqb_eq). simpl in Hz. subst n. by apply bt_In_get.
    - intros H. exists (t, 0%nat). split; [done|]. split; [by apply bt_get_In | done]. }
  assert (Hd : forall t, t ∈ task_ids planned -> bt_get t counts = Some (length (child_deps batch planned t))).
  { intros t (c & Hcp & <-)%elem_of_task_ids. by rewrite child_deps_of, Hc. }
  split; simpl.
  - by apply (NoDup_map_filter fst).
  - intros t Ht%Hq. destruct (decide (t ∈ task_ids planned)) as [|Hnt]; [done|].
    rewrite (Hno t Hnt) in Ht. done.
  - intros t Ht. rewrite Hd, missing_nil, Nat.add_0_r by done. done.
  - intros t Ht. rewrite Hq, Hd, missing_nil, Nat.add_0_r by done. split; congruence.
  - intros t H. inversion H.
  - intros i t d Hi Hdep. exfalso. apply list_elem_of_lookup_2, Hq in Hi.
    assert (Ht : t ∈ task_ids planned).
    { destruct (decide (t ∈ task_ids planned)) as [|Hnt]; [done|]. by rewrite (Hno t Hnt) in Hi. }
    rewrite (Hd t Ht) in Hi. injection Hi as Hl. apply nil_length_inv in Hl. rewrite Hl in Hdep.
    inversion Hdep.
Qed.

Lemma ordered_iff planned batch order :
  NoDup (task_ids planned) -> (forall t, is_Some (batch !! t) <-> t ∈ task_ids planned) ->
  ordered planned order
  <-> order ≡ₚ task_ids planned /\ respects_deps (child_deps batch planned) order.
Proof.
  intros Hn Hb. unfold ordered, respects_deps. split; intros [Hp Ho]; (split; [done|]).
  - intros i t d Hi Hd.
    assert (Ht : t ∈ task_ids planned) by (rewrite <- Hp; by apply list_elem_of_lookup_2 in Hi).
    destruct (elem_of_task_ids _ _ Ht) as (c & Hc & <-). rewrite child_deps_of in Hd by done.
    unfold batch_deps in Hd. apply elem_of_filter_b in Hd as [Hd Hbd%bool_decide_eq_true].
    apply (Ho c d i); [done..|]. by apply Hb.
  - intros c d i Hc Hi Hd Hdt. apply (Ho i (pc_task_id c) d Hi). rewrite child_deps_of by done.
    apply elem_of_filter_b. split; [done|]. by apply bool_decide_eq_true, Hb.
Qed.

(** The plan, once its maps are built. *)
Lemma resolve_dependency_plan_cases siblings planned :
  match resolve_dependency_plan siblings planned with
  | Ok planned' => plan_ok siblings planned /\ (exists order, ordered planned order)
      /\ exists existing batch, Forall2 (linked_child existing batch) planned planned'
           /\ (forall t a, batch !! t = Some a ->
                 exists c, c ∈ planned /\ pc_task_id c = t /\ pc_agent_id c = a)
  | Err _ => ~ (plan_ok siblings planned /\ exists order, ordered planned order)
  end.
Proof.
  unfold resolve_dependency_plan.
  pose proof (existing_tasks_ok siblings ∅) as He.
  destruct (existing_tasks siblings ∅) as [existing|err]; cbn [result_bind].
  2: { intros [(Hs & _) _]. apply He. split; [done|]. intros t _. apply lookup_empty. }
  destruct He as (Hs & _ & Hed).
  pose proof (batch_tasks_ok existing planned ∅) as Hb.
  destruct (batch_tasks existing planned ∅) as [batch|err]; cbn [result_bind].
  2: { intros [(_ & Hn & Hdj & _) _]. apply Hb. split; [done|]. intros t Ht. rewrite lookup_empty.
       split; [done|]. apply eq_None_not_Some. rewrite Hed, lookup_empty. intros [[? H]|H]; [done|].
       by apply (Hdj t). }
  destruct Hb as (Hn & Hf & Hbd & Hba).
  assert (Hbt : forall t, is_Some (batch !! t) <-> t ∈ task_ids planned)
    by (intros t; rewrite Hbd, lookup_empty; unfold task_ids; split; [intros [[? H]|H]; done | auto]).
  assert (Hex : forall t, is_Some (existing !! t) <-> t ∈ sibling_ids siblings)
    by (intros t; rewrite Hed, lookup_empty; unfold sibling_ids; split; [intros [[? H]|H]; done | auto]).
  pose proof (link_batch_ok existing batch planned [] ∅ Hn) as Hl.
  destruct (link_batch existing batch planned [] ∅) as [[[planned' counts] reverse]|err]; cbn [result_bind].
  2: { destruct Hl as (c & d & Hc & Hd & Hnb & Hne). intros [(_ & _ & _ & Hk) _].
       destruct (Hk c d Hc Hd) as [H|H]; [apply Hbt in H | apply Hex in H]; destruct H; congruence. }
  destruct Hl as (Hf2 & Hcc & Hco & Hok & Hro & Hrn).
  assert (Hinv := ready_start planned batch counts Hn (Hok NoDup_nil_2) Hbt Hcc Hco).
  destruct (visit_all (task_ids planned) (child_deps batch planned)
              (fun x => default [] (reverse !! x))) with (reverse := reverse) (fuel := length planned)
    (V := @nil string) (queue := map fst (List.filter (fun p => (p.2 =? 0)%nat) counts))
    (counts := counts) as (V & counts' & HV & Hlen); try done.
  { intros x t (c & Hc & <-)%elem_of_task_ids. rewrite (Hro x c Hc), lookup_empty. simpl.
    by rewrite child_deps_of. }
  { intros x d Hd. destruct (decide (d ∈ task_ids planned)) as [|Hnd]; [done|]. exfalso.
    assert (Hz : occ d (default [] (reverse !! x)) = 0%nat)
      by (rewrite (Hrn x d Hnd), lookup_empty; done). by apply occ_zero in Hz. }
  { unfold task_ids. by rewrite length_fmap. }
  simpl in Hlen. rewrite Hlen.
  pose proof (visited_iff_ordered (task_ids planned) (child_deps batch planned) Hn V counts' HV) as Hiff.
  unfold task_ids at 1 in Hiff. rewrite length_fmap in Hiff.
  setoid_rewrite <- (ordered_iff planned batch) in Hiff; [|done..].
  assert (Hplan : plan_ok siblings planned).
  { split; [done|]. split; [done|]. split.
    - intros t Ht Hts. apply Hex in Hts as [a Ha]. destruct (Hf t Ht) as [_ Hnone]. congruence.
    - intros c d Hc Hd. destruct (Forall2_in_l _ _ _ _ Hf2 Hc) as (c' & _ & _ & _ & Hm).
      apply mapM_Some_1 in Hm. destruct (Forall2_in_l _ _ _ _ Hm Hd) as (a & _ & Ha).
      unfold dep_agent in Ha. destruct (batch !! d) eqn:Ebd; [left; apply Hbt; eauto|].
      right. apply Hex. eauto. }
  destruct (Nat.eqb_spec (length V) (length planned)) as [Hv|Hv].
  - split; [done|]. split; [by apply Hiff|]. exists existing, batch. split; [done|].
    intros t a Hta. destruct (Hba t a Hta) as [H|H]; [by rewrite lookup_empty in H | done].
  - unfold tool_invalid. intros [_ Hord]. by apply Hv, Hiff.
Qed.

(** C15.  A batch of children is accepted exactly when its task ids are unique among
    themselves and its siblings, every dependency is known, and the batch can be
    ordered so that every task comes after its dependencies: cycles, and only cycles,
    are refused. *)
Theorem dependency_plan_accepts_iff_ordered siblings planned :
  (exists planned', resolve_dependency_plan siblings planned = Ok planned')
  <-> plan_ok siblings planned /\ exists order, ordered planned order.
Proof.
  pose proof (resolve_dependency_plan_cases siblings planned) as H.
  destruct (resolve_dependency_plan siblings planned) as [planned'|err].
  - destruct H as (Hp & Ho & _). split; [auto | eauto].
  - split; [intros [? H']; discriminate | intros H'; by destruct H].
Qed.

End Plan.

(** ** The tools of a child *)

Section Children.
Context {J : SerdeJson}.

Lemma filter_by_servers_ok registry names servers allowed :
  filter_tools_by_mcp_server_allowlist registry names servers = Ok allowed ->
  forall n, n ∈ allowed -> n ∈ names
    /\ (forall l, servers = Some l -> exists tool, registry_get registry n = Some tool
          /\ tool_spec_matches_mcp_server_allowlist (tool_spec tool) (list_to_set l) = true).
Proof.
  unfold filter_tools_by_mcp_server_allowlist. destruct servers as [l|].
  - destruct (List.find _ _); [done|]. intros [= <-] n [Hn Hm]%elem_of_filter_b. split; [done|].
    intros l' [= <-]. destruct (registry_get registry n) as [tool|]; [eauto | done].
  - intros [= <-] n Hn. split; [done|]. intros l' Hl. discriminate.
Qed.

(** A child's tools are confined: each is a tool of the parent that is not one of
    the agent-control tools, was asked for by a name the profile allows, and belongs to
    an allowed MCP server.  (Provided no alias of the parent names an agent-control
    tool: the exclusion is by the requested name.) *)
Theorem child_tools_confined registry requested allowed servers child names :
  registry_ok registry ->
  (forall alias canonical, reg_aliases registry !! alias = Some canonical -> excluded canonical = false) ->
  resolve_child_tools registry requested allowed servers = Ok (child, names) ->
  names = registry_names child
  /\ forall name e, bt_get name (reg_tools child) = Some e ->
      bt_get name (reg_tools registry) = Some e
      /\ excluded name = false
      /\ (exists asked, canonical_name_for registry asked = Some name
           /\ (requested <> [] -> asked ∈ requested)
           /\ (forall l, allowed = Some l -> asked ∈ l))
      /\ (forall l, servers = Some l ->
           tool_spec_matches_mcp_server_allowlist (tool_spec (entry_tool e)) (list_to_set l) = true).
Proof.
  intros Hok Halias. unfold resolve_child_tools.
  set (asked0 := List.filter (fun name => negb (excluded name))
                   (if is_nil requested then registry_names registry else requested)).
  set (asked1 := match allowed with Some l => List.filter (fun name => bool_decide (name ∈ l)) asked0
                 | None => asked0 end).
  destruct (filter_tools_by_mcp_server_allowlist registry asked1 servers) as [final|] eqn:Ef; [|done].
  cbn [result_bind]. destruct (_ && _); [done|]. intros [= <- <-]. split; [done|].
  intros name e. unfold filtered_by_names. set (al := list_to_set _). simpl.
  intros [He Hin%bool_decide_eq_true]%bt_get_In%elem_of_filter_b. simpl in Hin.
  apply bt_In_get in He; [|apply Hok]. split; [done|].
  unfold al in Hin. rewrite elem_of_list_to_set, list_elem_of_omap in Hin. destruct Hin as (asked & Ha & Hc).
  destruct (filter_by_servers_ok _ _ _ _ Ef _ Ha) as [Ha1 Hs].
  assert (Ha0 : asked ∈ asked0 /\ forall l, allowed = Some l -> asked ∈ l).
  { unfold asked1 in Ha1. destruct allowed as [l|]; [|done].
    apply elem_of_filter_b in Ha1 as [H1 H2%bool_decide_eq_true]. split; [done|]. by intros l' [= <-]. }
  destruct Ha0 as [[Hreq Hex]%elem_of_filter_b Hal]. apply negb_true_iff in Hex.
  split; [|split].
  - unfold canonical_name_for in Hc. destruct (bt_get asked (reg_tools registry)) eqn:Eb.
    + by injection Hc as <-.
    + by apply (Halias asked).
  - exists asked. split; [done|]. split; [|done]. intros Hne. destruct requested; [done | exact Hreq].
  - intros l Hl. destruct (Hs l Hl) as (tool & Hg & Hm). unfold registry_get in Hg. rewrite Hc in Hg.
    simpl in Hg. rewrite He in Hg. by injection Hg as <-.
Qed.

(** ** Interrupted turns *)

Lemma visible_session_indices_eq s : visible_session_message_indices s = visible_message_indices s.
Proof.
  unfold visible_session_message_indices, visible_message_indices. apply filter_ext. intros i.
  by destruct (ses_transcript s !! i).
Qed.

Lemma filter_filter {A} (f g h : A -> bool) l :
  (forall x, h x = f x && g x) -> List.filter h l = List.filter g (List.filter f l).
Proof.
  intros Hh. induction l as [|x l IH]; simpl; [done|]. rewrite Hh. destruct (f x); simpl; [|done].
  destruct (g x); by rewrite IH.
Qed.

Lemma filter_all {A} (f : A -> bool) l : Forall (fun x => f x = true) l -> List.filter f l = l.
Proof. induction 1 as [|x l Hx _ IH]; simpl; [done|]. by rewrite Hx, IH. Qed.
Lemma filter_none {A} (f : A -> bool) l : Forall (fun x => f x = false) l -> List.filter f l = [].
Proof. induction 1 as [|x l Hx _ IH]; simpl; [done|]. by rewrite Hx. Qed.

(** Removing more ids filters the visible window. *)
Lemma visible_with_removed s removed :
  visible_message_indices (with_removed s (ses_removed_message_ids s ∪ removed))
  = List.filter (fun i => match ses_transcript s !! i with
                          | Some m => negb (bool_decide (msg_id m ∈ removed)) | None => false end)
      (visible_message_indices s).
Proof.
  unfold visible_message_indices. simpl. apply filter_filter. intros i.
  destruct (ses_transcript s !! i) as [m|]; simpl; [|done]. rewrite <- negb_orb. f_equal.
  rewrite <- bool_decide_or. apply bool_decide_ext. set_solver.
Qed.

Lemma visible_in_transcript s : Forall (fun i => is_Some (ses_transcript s !! i)) (visible_message_indices s).
Proof.
  apply Forall_forall. intros i [_ Hi]%elem_of_filter_b. destruct (ses_transcript s !! i); [eauto | done].
Qed.

Lemma messages_at_cons (t : list Message) i l m :
  t !! i = Some m -> messages_at t (i :: l) = m :: messages_at t l.
Proof. intros Hm. unfold messages_at. simpl. by rewrite Hm. Qed.

Lemma messages_at_take (t : list Message) l k :
  Forall (fun i => is_Some (t !! i)) l -> messages_at t (take k l) = take k (messages_at t l).
Proof.
  intros H. revert k. induction H as [|i l [m Hm] _ IH]; intros [|k]; try done. cbn [take].
  rewrite !(messages_at_cons _ _ _ _ Hm). cbn [take]. by rewrite IH.
Qed.

(** The ids of the visible messages from a position on. *)
Lemma interrupted_ids_eq s st :
  interrupted_turn_start_position s (visible_session_message_indices s) = Some st ->
  interrupted_message_ids s = msg_id <$> drop st (session_visible_transcript s).
Proof.
  intros Hst. unfold interrupted_message_ids. rewrite Hst, visible_session_indices_eq.
  unfold session_visible_transcript. rewrite <- messages_at_drop by apply visible_in_transcript.
  fold (messages_at (ses_transcript s) (drop st (visible_message_indices s))).
  rewrite filter_all; [done|]. apply Forall_forall. intros m Hm.
  unfold messages_at in Hm. apply list_elem_of_omap in Hm as (i & Hi & Hm).
  apply list_elem_of_lookup in Hi as [k Hk].
  rewrite lookup_drop in Hk. apply list_elem_of_lookup_2 in Hk.
  apply elem_of_filter_b in Hk as [_ Hk]. by rewrite Hm in Hk.
Qed.

(** Rolling back to a position leaves the messages before it. *)
Lemma rollback_visible s st :
  NoDup (msg_id <$> session_visible_transcript s) ->
  session_visible_transcript
    (with_removed s (ses_removed_message_ids s
       ∪ list_to_set (msg_id <$> drop st (session_visible_transcript s))))
  = take st (session_visible_transcript s).
Proof.
  intros Hnd. unfold session_visible_transcript at 1. rewrite visible_with_removed. simpl.
  set (v := visible_message_indices s). set (t := ses_transcript s).
  assert (Hv : Forall (fun i => is_Some (t !! i)) v) by apply visible_in_transcript.
  fold (session_visible_transcript s). set (msgs := session_visible_transcript s) in *.
  assert (Hm : msgs = messages_at t v) by done.
  rewrite <- (take_drop st v), List.filter_app, (filter_all _ (take st v)), (filter_none _ (drop st v)).
  - rewrite app_nil_r, messages_at_take by done. by rewrite Hm.
  - apply Forall_lookup_2. intros k i Hk. rewrite lookup_drop in Hk.
    destruct (Forall_lookup_1 _ _ _ _ Hv Hk) as [m Hmi]. rewrite Hmi.
    apply negb_false_iff, bool_decide_eq_true, elem_of_list_to_set, list_elem_of_fmap. exists m.
    split; [done|]. apply list_elem_of_lookup. exists k. rewrite lookup_drop, Hm, messages_at_lookup by done.
    by rewrite Hk.
  - apply Forall_lookup_2. intros k i Hk. apply lookup_take_Some in Hk as [Hk Hlt].
    destruct (Forall_lookup_1 _ _ _ _ Hv Hk) as [m Hmi]. rewrite Hmi.
    apply negb_true_iff, bool_decide_eq_false. rewrite elem_of_list_to_set, list_elem_of_fmap.
    intros (m' & He & [k' Hk']%list_elem_of_lookup). rewrite lookup_drop in Hk'.
    assert (Hmk : msgs !! k = Some m) by (rewrite Hm, messages_at_lookup, Hk by done; done).
    assert (k = st + k')%nat; [|lia]. eapply (NoDup_lookup _ _ _ (msg_id m) Hnd).
    + by rewrite list_lookup_fmap, Hmk.
    + rewrite list_lookup_fmap, Hk'. simpl. by rewrite He.
Qed.

(** [Prelude.rposition_Some], by index. *)
Lemma rposition_after {A} (f : A -> bool) l k :
  rposition f l = Some k ->
  (exists x, l !! k = Some x /\ f x = true) /\ (forall j x, (k < j)%nat -> l !! j = Some x -> f x = false).
Proof.
  intros (x & Hx & Hf & Hall)%rposition_Some. split; [by exists x|]. intros j y Hj Hy.
  rewrite Forall_lookup in Hall. apply (Hall (j - S k)%nat). rewrite lookup_drop. by replace (S k + (j - S k))%nat with j by lia.
Qed.

Definition request_role (r : MessageRole) : bool :=
  match r with Role_User | Role_System => true | _ => false end.

(** The walk back stops before the summary, or at a message that is not part of a
    request. *)
Lemma rewind_spec s v k :
  Forall (fun i => is_Some (ses_transcript s !! i)) v -> (k <= length v)%nat ->
  let st := rewind_request s v k in
  (st <= k)%nat
  /\ (forall j, (st <= j < k)%nat -> exists i m, v !! j = Some i /\ ses_transcript s !! i = Some m
        /\ request_role (msg_role m) = true /\ ses_compaction_summary_index s <> Some i)
  /\ (forall j i m, st = S j -> v !! j = Some i -> ses_transcript s !! i = Some m ->
        request_role (msg_role m) = false \/ ses_compaction_summary_index s = Some i).
Proof.
  intros Hv. induction k as [|k IH]; intros Hk; simpl; [repeat split; try lia; done|].
  destruct (lookup_lt_is_Some_2 v k) as [i Hi]; [lia|]. rewrite Hi.
  destruct (Forall_lookup_1 _ _ _ _ Hv Hi) as [m Hm].
  case_bool_decide as Hs.
  { split; [lia|]. split; [intros j Hj; lia|]. intros j i' m' [= <-] Hi' Hm'. right. congruence. }
  rewrite Hm. destruct (request_role (msg_role m)) eqn:Er.
  - assert (Hrw : match msg_role m with Role_User | Role_System => rewind_request s v k | _ => S k end
                  = rewind_request s v k) by (by destruct (msg_role m)).
    rewrite Hrw. destruct IH as (Hle & Hin & Hst); [lia|]. split; [lia|]. split; [|done].
    intros j Hj. destruct (decide (j = k)) as [->|]; [exists i, m; done | apply Hin; lia].
  - assert (Hrw : match msg_role m with Role_User | Role_System => rewind_request s v k | _ => S k end
                  = S k) by (by destruct (msg_role m)).
    rewrite Hrw. split; [lia|]. split; [intros j Hj; lia|].
    intros j i' m' [= <-] Hi' Hm'. left. congruence.
Qed.

(** The message that holds the summary of the last compaction. *)
Definition summary_message (s : RuntimeSession) : option Message := ses_compaction_summary_index s ≫= (ses_transcript s !!.).


(** ** The result of a child *)

Lemma summarize_bounds text :
  summarize_output text <> "" /\ (chars_count (summarize_output text) <= 96)%nat.
Proof.
  unfold summarize_output. destruct (str_join " " (split_whitespace text)) as [|a t] eqn:E.
  - split; [done|]. apply Nat.leb_le. vm_compute. reflexivity.
  - cbn [str_is_empty]. split; [|apply take_chars_count]. cbn [take_chars]. by destruct (char_start a).
Qed.

(** A child always leaves a terminal result: whatever text its last turn ended
    with, the status taken from it is terminal, so that recording it for a known agent
    is never refused, and a summary made from the text is not empty and at most 96
    characters. *)
Theorem child_result_is_recorded `{ChildPayloads} m agent_id r t text files :
  am_records m !! agent_id = Some r ->
  let res := normalize_child_result agent_id t text files in
  (exists h m', finish m agent_id (AgentResultEnvelope_status res) (Some res) None = Ok (h, m')
     /\ terminal h = true /\ (am_records m' !! agent_id) ≫= ar_result = Some res)
  /\ (parse_child_payload (trim text) = None ->
       AgentResultEnvelope_summary res <> ""
       /\ (chars_count (AgentResultEnvelope_summary res) <= 96)%nat).
Proof.
  intros Hr. simpl. set (res := normalize_child_result agent_id t text files).
  assert (Hst : status_is_terminal (AgentResultEnvelope_status res) = true).
  { unfold res, normalize_child_result. destruct (parse_child_payload _) as [p|]; [|done]. simpl.
    unfold normalize_terminal_result_status.
    destruct (status_is_terminal (match scp_status p with Some v => _ | None => _ end)) eqn:E; done. }
  split.
  - unfold finish, finish_locked, notified, record. rewrite Hst, Hr. cbn [negb result_bind].
    do 2 eexists. split; [reflexivity|]. split; [done|]. simpl. by rewrite lookup_insert_eq.
  - intros Hp. unfold res, normalize_child_result. rewrite Hp. apply summarize_bounds.
Qed.

End Children.

(** ** Concrete runs *)

#[local] Existing Instance json_text.

Definition planned_child (id : string) (deps : list string) : PlannedChild :=
  mkPlannedChild ("agent-" +:+ id) (demo_task id deps) [].

(** A diamond is accepted, a cycle is not. *)
Example diamond_planned :
  (exists p, resolve_dependency_plan [] [planned_child "d" ["b"; "c"]; planned_child "b" ["a"];
               planned_child "c" ["a"]; planned_child "a" []] = Ok p)
  /\ resolve_dependency_plan [] [planned_child "a" ["b"]; planned_child "b" ["a"]]
     = Err (ToolErr_InvalidInput "agent batch dependencies contain a cycle").
Proof. split; [eexists|]; vm_compute; reflexivity. Qed.

(** A reader and an agent-control tool. *)
Definition parent_tools : ToolRegistry :=
  (try_register_arc one_tool (mkTool (plain_spec "spawn_agent" []) 2)).2.

Lemma parent_tools_ok : registry_ok parent_tools.
Proof.
  apply registry_reachable. eapply rtc_r; [exact one_tool_reachable|]. apply reg_insert.
Qed.

Lemma child_tools_confined_witness :
  registry_names (filtered_by_names parent_tools ["read"]) = ["read"] /\ excluded "read" = false.
Proof.
  destruct (child_tools_confined parent_tools [] None None
              (filtered_by_names parent_tools ["read"]) ["read"] parent_tools_ok) as [Hn Ht].
  - assert (Hall : map_Forall (fun _ canonical => excluded canonical = false) (reg_aliases parent_tools))
      by (apply (bool_decide_unpack _); vm_compute; exact I).
    exact Hall.
  - reflexivity.
  - split; [by symmetry|]. eapply Ht. reflexivity.
Defined.

(** An answered question, then a question that is being worked on. *)
Definition interrupted_session : RuntimeSession :=
  with_transcript (RuntimeSession_new "s" "as")
    [Message_user "m0" "first"; Message_assistant "m1" "answer"; Message_system "m2" "steer";
     Message_user "m3" "second"; Message_assistant "m4" "half an ans"].


#[local] Instance no_payloads : ChildPayloads := {| parse_child_payload := fun _ => None |}.

Lemma child_result_is_recorded_witness :
  let res := normalize_child_result "b" (demo_task "b" []) "  all   good " [] in
  AgentResultEnvelope_summary res = "all good"
  /\ (chars_count (AgentResultEnvelope_summary res) <= 96)%nat.
Proof.
  split; [reflexivity|].
  eapply (child_result_is_recorded demo_manager "b" _ (demo_task "b" []) "  all   good " []); reflexivity.
Defined.
