(* ===== verification/Approval.v ===== *)
(** * Tool approval policy

    Models [crates/runtime/src/approval.rs]: the request a tool call makes for
    approval, the matchers of a rule and the first-match-wins rule set.  URL
    parsing ([reqwest::Url]) and shell word splitting ([shlex::split]) are
    parameters; the policy and the handler of a host are functions the runtime
    receives. *)

From Stdlib Require Import Ascii String.
From stdpp Require Import base list gmap strings.
From Stdlib Require Import Lia.
From S2P Require Import Prelude Message Errors.

(** The library functions the matchers call: [Url::parse(s).ok()] followed by
    [host_str], and [shlex::split]. *)
Class TextParsers := {
  url_host_str : string -> option string;
  shlex_split : string -> option (list string)
}.

Section Approval.
Context {J : SerdeJson}.

(* crates/runtime/src/approval.rs, ToolApprovalRequest *)
Record ToolApprovalRequest := mkToolApprovalRequest {
  req_call : ToolCall;
  req_spec : ToolSpec;
  req_reasons : list string
}.

(* crates/runtime/src/approval.rs, ToolApprovalOutcome *)
Inductive ToolApprovalOutcome :=
| Outcome_Approve
| Outcome_Deny (reason : option string).

(* crates/runtime/src/approval.rs, ToolApprovalPolicyDecision *)
Inductive ToolApprovalPolicyDecision :=
| Policy_Allow
| Policy_Ask (reason : option string)
| Policy_Deny (reason : option string)
| Policy_Abstain.

(* crates/runtime/src/approval.rs, ToolApprovalPolicy *)
Definition ToolApprovalPolicy : Type := ToolApprovalRequest -> ToolApprovalPolicyDecision.

(* crates/runtime/src/approval.rs, NoopToolApprovalPolicy::decide *)
Definition NoopToolApprovalPolicy : ToolApprovalPolicy := fun _ => Policy_Abstain.

(* crates/runtime/src/approval.rs, ToolApprovalRuleEffect *)
Inductive ToolApprovalRuleEffect :=
| RuleEffect_Allow
| RuleEffect_Ask
| RuleEffect_Deny.

(* crates/runtime/src/approval.rs, ToolOriginMatcher *)
Inductive ToolOriginMatcher :=
| OriginMatcher_Local
| OriginMatcher_McpServer (server_name : McpServerName)
| OriginMatcher_Provider (provider : string).

(* crates/runtime/src/approval.rs, ToolSourceMatcher *)
Inductive ToolSourceMatcher :=
| SourceMatcher_Builtin
| SourceMatcher_Dynamic
| SourceMatcher_Plugin
| SourceMatcher_McpTool
| SourceMatcher_McpResource
| SourceMatcher_ProviderBuiltin (provider : string).

(* crates/runtime/src/approval.rs, StringMatcher *)
Inductive StringMatcher :=
| Str_Exact (expected : string)
| Str_Prefix (prefix : string)
| Str_Suffix (suffix : string)
| Str_Contains (fragment : string).

(* crates/runtime/src/approval.rs, StringMatcher::matches *)
Definition string_matches (m : StringMatcher) (candidate : string) : bool :=
  match m with
  | Str_Exact expected => String.eqb candidate expected
  | Str_Prefix prefix => starts_with candidate prefix
  | Str_Suffix suffix => ends_with candidate suffix
  | Str_Contains fragment => str_contains candidate fragment
  end.

(* crates/runtime/src/approval.rs, ToolArgumentMatcher *)
Inductive ToolArgumentMatcher :=
| Arg_Exists (pointer : string)
| Arg_ValueEquals (pointer : string) (value : Value)
| Arg_String (pointer : string) (matcher : StringMatcher)
| Arg_UrlHost (pointer : string) (matcher : StringMatcher)
| Arg_SimpleShellArgvExact (pointer : string) (argv : list string)
| Arg_SimpleShellArgvPrefix (pointer : string) (argv : list string).

(* crates/runtime/src/approval.rs, ToolMcpBoundaryMatcher *)
Record ToolMcpBoundaryMatcher := mkToolMcpBoundaryMatcher {
  bm_transports : list McpTransportKind;
  bm_boundary_classes : list McpToolBoundaryClass
}.

(* crates/runtime/src/approval.rs, ToolMcpBoundaryMatcher::matches *)
Definition boundary_matches (m : ToolMcpBoundaryMatcher) (boundary : McpToolBoundary) : bool :=
  if negb (is_nil (bm_transports m))
     && negb (bool_decide (boundary_transport boundary ∈ bm_transports m))
  then false
  else is_nil (bm_boundary_classes m)
       || bool_decide (boundary_boundary_class boundary ∈ bm_boundary_classes m).

(** The characters of [is_simple_shell_command]'s pattern:
    [; & | > < ` $], line feed and carriage return. *)
Definition shell_meta (a : ascii) : bool :=
  let n := nat_of_ascii a in
  existsb (Nat.eqb n) [59; 38; 124; 62; 60; 96; 36; 10; 13].

(* crates/runtime/src/approval.rs, is_simple_shell_command *)
Definition is_simple_shell_command (command : string) : bool :=
  negb (existsb shell_meta (list_ascii_of_string command)).

Definition shell_names : list string :=
  ["sh"; "bash"; "zsh"; "fish"; "dash"; "ksh"; "csh"; "tcsh"].
Definition interpreter_names : list string := ["python"; "python3"; "node"; "ruby"; "perl"].
Definition inline_code_flags : list string := ["-c"; "-e"; "-m"].

(** [value.rsplit('/').next().unwrap_or(value)]. *)
Definition base_name (value : string) : string :=
  default value (last (split_on (byte_at 47) value)).

(* crates/runtime/src/approval.rs, is_disallowed_exec_driver *)
Definition is_disallowed_exec_driver (argv : list string) : bool :=
  match argv with
  | [] => true
  | value :: args =>
      let executable := base_name value in
      if bool_decide (executable ∈ shell_names) then true
      else if bool_decide (executable ∈ interpreter_names)
      then existsb (fun arg => bool_decide (arg ∈ inline_code_flags)) args
      else false
  end.

Context {T : TextParsers}.

(* crates/runtime/src/approval.rs, parse_simple_shell_argv *)
Definition parse_simple_shell_argv (command : string) : option (list string) :=
  let command := trim command in
  if str_is_empty command || negb (is_simple_shell_command command) then None
  else
    argv ← shlex_split command;
    let argv := List.filter (fun value => negb (str_is_empty value)) (map trim argv) in
    if is_nil argv || is_disallowed_exec_driver argv then None else Some argv.

(** [Vec::starts_with]. *)
Fixpoint list_starts_with (l p : list string) : bool :=
  match p, l with
  | [], _ => true
  | x :: p', y :: l' => String.eqb y x && list_starts_with l' p'
  | _ :: _, [] => false
  end.

Definition is_some_and {A} (o : option A) (f : A -> bool) : bool :=
  match o with Some a => f a | None => false end.

(* crates/runtime/src/approval.rs, ToolArgumentMatcher::matches *)
Definition argument_matches (m : ToolArgumentMatcher) (arguments : Value) : bool :=
  let string_at pointer := value_pointer arguments pointer ≫= value_as_str in
  match m with
  | Arg_Exists pointer => is_some_and (value_pointer arguments pointer) (fun _ => true)
  | Arg_ValueEquals pointer value => bool_decide (value_pointer arguments pointer = Some value)
  | Arg_String pointer matcher => is_some_and (string_at pointer) (string_matches matcher)
  | Arg_UrlHost pointer matcher =>
      is_some_and (string_at pointer ≫= url_host_str) (string_matches matcher)
  | Arg_SimpleShellArgvExact pointer argv =>
      is_some_and (string_at pointer ≫= parse_simple_shell_argv)
        (fun candidate => bool_decide (candidate = argv))
  | Arg_SimpleShellArgvPrefix pointer argv =>
      is_some_and (string_at pointer ≫= parse_simple_shell_argv)
        (fun candidate => list_starts_with candidate argv)
  end.

(* crates/runtime/src/approval.rs, origin_matches *)
Definition origin_matches (matcher : ToolOriginMatcher) (origin : ToolOrigin) : bool :=
  match matcher, origin with
  | OriginMatcher_Local, Origin_Local => true
  | OriginMatcher_McpServer expected, Origin_Mcp actual => String.eqb expected actual
  | OriginMatcher_Provider expected, Origin_Provider actual => String.eqb expected actual
  | _, _ => false
  end.

(* crates/runtime/src/approval.rs, source_matches *)
Definition source_matches (matcher : ToolSourceMatcher) (source : ToolSource) : bool :=
  match matcher, source with
  | SourceMatcher_Builtin, Source_Builtin => true
  | SourceMatcher_Dynamic, Source_Dynamic => true
  | SourceMatcher_Plugin, Source_Plugin _ => true
  | SourceMatcher_McpTool, Source_McpTool _ => true
  | SourceMatcher_McpResource, Source_McpResource _ => true
  | SourceMatcher_ProviderBuiltin expected, Source_ProviderBuiltin actual =>
      String.eqb expected actual
  | _, _ => false
  end.

(* crates/runtime/src/approval.rs, ToolApprovalMatcher *)
Record ToolApprovalMatcher := mkToolApprovalMatcher {
  am_tool_names : gset ToolName;
  am_origins : list ToolOriginMatcher;
  am_sources : list ToolSourceMatcher;
  am_argument_matchers : list ToolArgumentMatcher;
  am_mcp_boundary : option ToolMcpBoundaryMatcher
}.

(* crates/runtime/src/approval.rs, ToolApprovalMatcher::matches *)
Definition approval_matches (m : ToolApprovalMatcher) (request : ToolApprovalRequest) : bool :=
  if negb (bool_decide (am_tool_names m = ∅))
     && negb (bool_decide (call_tool_name (req_call request) ∈ am_tool_names m)) then false
  else if negb (is_nil (am_origins m))
     && negb (existsb (fun o => origin_matches o (call_origin (req_call request))) (am_origins m))
  then false
  else if negb (is_nil (am_sources m))
     && negb (existsb (fun s => source_matches s (spec_source (req_spec request))) (am_sources m))
  then false
  else
    let arguments_match :=
      forallb (fun a => argument_matches a (call_arguments (req_call request)))
        (am_argument_matchers m) in
    match am_mcp_boundary m with
    | Some matcher =>
        match effective_mcp_boundary (req_spec request) (req_call request) with
        | None => false
        | Some boundary => if negb (boundary_matches matcher boundary) then false
                           else arguments_match
        end
    | None => arguments_match
    end.

(* crates/runtime/src/approval.rs, ToolApprovalRule *)
Record ToolApprovalRule := mkToolApprovalRule {
  rule_matcher : ToolApprovalMatcher;
  rule_effect : ToolApprovalRuleEffect;
  rule_reason : option string
}.

(* crates/runtime/src/approval.rs, ToolApprovalRuleSet *)
Definition ToolApprovalRuleSet : Type := list ToolApprovalRule.

(** The decision a matching rule returns. *)
Definition rule_decision (rule : ToolApprovalRule) : ToolApprovalPolicyDecision :=
  match rule_effect rule with
  | RuleEffect_Allow => Policy_Allow
  | RuleEffect_Ask => Policy_Ask (rule_reason rule)
  | RuleEffect_Deny => Policy_Deny (rule_reason rule)
  end.

(* crates/runtime/src/approval.rs, ToolApprovalRuleSet::decide *)
Fixpoint rule_set_decide (rules : ToolApprovalRuleSet) (request : ToolApprovalRequest)
    : ToolApprovalPolicyDecision :=
  match rules with
  | [] => Policy_Abstain
  | rule :: rest =>
      if negb (approval_matches (rule_matcher rule) request) then rule_set_decide rest request
      else rule_decision rule
  end.

(** ** Properties *)

(** A rule that can only match a simple shell command whose words start with one
    of the listed prefixes. *)
Definition argv_guard (pointer : string) (prefixes : list (list string))
    (rule : ToolApprovalRule) : Prop :=
  exists argv, argv ∈ prefixes
    /\ (Arg_SimpleShellArgvPrefix pointer argv ∈ am_argument_matchers (rule_matcher rule)
        \/ Arg_SimpleShellArgvExact pointer argv ∈ am_argument_matchers (rule_matcher rule)).

(** The command the arguments hold at [pointer] is one plain program invocation. *)
Definition plain_invocation (arguments : Value) (pointer : string) (argv : list string) : Prop :=
  exists v command words,
    value_pointer arguments pointer = Some v /\ value_as_str v = Some command
    /\ Forall (fun a => shell_meta a = false) (list_ascii_of_string (trim command))
    /\ shlex_split (trim command) = Some words
    /\ argv = List.filter (fun w => negb (str_is_empty w)) (map trim words)
    /\ exists program args, argv = program :: args
       /\ base_name program ∉ shell_names
       /\ (base_name program ∈ interpreter_names ->
           forall flag, flag ∈ inline_code_flags -> flag ∉ args).

Lemma existsb_false_Forall {A} (f : A -> bool) l :
  existsb f l = false -> Forall (fun a => f a = false) l.
Proof.
  intros H. apply Forall_forall. intros x Hx. destruct (f x) eqn:E; [|done].
  rewrite <- H. symmetry. apply existsb_exists. exists x. by rewrite <- list_elem_of_In.
Qed.

Lemma allowed_driver program args :
  is_disallowed_exec_driver (program :: args) = false ->
  base_name program ∉ shell_names
  /\ (base_name program ∈ interpreter_names ->
      forall flag, flag ∈ inline_code_flags -> flag ∉ args).
Proof.
  cbn [is_disallowed_exec_driver]. case_bool_decide as Hs; [done|]. case_bool_decide as Hi.
  - intros Hf%existsb_false_Forall. rewrite Forall_forall in Hf. split; [done|].
    intros _ flag Hflag Hin%Hf. by rewrite bool_decide_eq_true_2 in Hin.
  - done.
Qed.

Lemma parse_simple_shell_argv_Some arguments pointer v command argv :
  value_pointer arguments pointer = Some v -> value_as_str v = Some command ->
  parse_simple_shell_argv command = Some argv -> plain_invocation arguments pointer argv.
Proof.
  intros Hp Hs. unfold parse_simple_shell_argv.
  destruct (str_is_empty _ || _) eqn:E; [done|]. apply orb_false_iff in E as [_ Hm].
  apply negb_false_iff in Hm. unfold is_simple_shell_command in Hm. apply negb_true_iff in Hm.
  intros (words & Hw & Hargv)%bind_Some. simpl in Hargv.
  destruct (is_nil _ || is_disallowed_exec_driver _) eqn:E; [done|].
  apply orb_false_iff in E as [Hn Hd]. injection Hargv as <-.
  exists v, command, words. split; [done|]. split; [done|].
  split; [by apply existsb_false_Forall|]. split; [done|]. split; [done|].
  destruct (List.filter _ _) as [|program args]; [done|].
  exists program, args. split; [done|]. by apply allowed_driver.
Qed.

Lemma list_starts_with_spec l p : list_starts_with l p = true <-> p `prefix_of` l.
Proof.
  revert l. induction p as [|x p IH]; intros l; simpl.
  - destruct l; (split; [intros _; apply prefix_nil | done]).
  - destruct l as [|y l]; [split; [done | by intros ?%prefix_nil_not]|].
    simpl. rewrite andb_true_iff, IH, String.eqb_eq. split.
    + intros [-> ?]. by apply prefix_cons.
    + intros Hp. split; [by apply prefix_cons_inv_1 in Hp | by apply prefix_cons_inv_2 in Hp].
Qed.

Lemma approval_matches_arguments m request a :
  approval_matches m request = true -> a ∈ am_argument_matchers m ->
  argument_matches a (call_arguments (req_call request)) = true.
Proof.
  intros H Ha. assert (Hall : forallb (fun a => argument_matches a (call_arguments (req_call request)))
                                (am_argument_matchers m) = true).
  { unfold approval_matches in H. repeat case_match; done. }
  rewrite forallb_forall in Hall. apply Hall. by apply list_elem_of_In.
Qed.

Lemma guarded_rule_plain pointer prefixes rule request :
  argv_guard pointer prefixes rule -> approval_matches (rule_matcher rule) request = true ->
  exists argv prefix, plain_invocation (call_arguments (req_call request)) pointer argv
    /\ prefix ∈ prefixes /\ prefix `prefix_of` argv.
Proof.
  intros (p & Hp & Hg) Hm.
  assert (H : exists argv, (value_pointer (call_arguments (req_call request)) pointer
                              ≫= value_as_str) ≫= parse_simple_shell_argv = Some argv
                           /\ p `prefix_of` argv).
  { destruct Hg as [Hg|Hg]; apply (approval_matches_arguments _ _ _ Hm) in Hg; simpl in Hg;
      destruct (_ ≫= parse_simple_shell_argv) as [argv|]; try done; exists argv; split; try done.
    - by apply list_starts_with_spec.
    - simpl in Hg. case_bool_decide; by subst. }
  destruct H as (argv & (command & (v & Hv & Hs)%bind_Some & Hparse)%bind_Some & Hpre).
  exists argv, p. split; [by eapply parse_simple_shell_argv_Some | done].
Qed.

Lemma rule_set_decide_first rules request :
  (exists pre rule post, rules = pre ++ rule :: post
     /\ Forall (fun r => approval_matches (rule_matcher r) request = false) pre
     /\ approval_matches (rule_matcher rule) request = true
     /\ rule_set_decide rules request = rule_decision rule)
  \/ (Forall (fun r => approval_matches (rule_matcher r) request = false) rules
      /\ rule_set_decide rules request = Policy_Abstain).
Proof.
  induction rules as [|rule rules IH]; simpl; [by right|].
  destruct (approval_matches (rule_matcher rule) request) eqn:E; simpl.
  - left. by exists [], rule, rules.
  - destruct IH as [(pre & r & post & -> & Hpre & Hr & Hd)|[Hall Hd]]; [left|right; by auto].
    exists (rule :: pre), r, post. auto.
Qed.

(** Rules are first-match wins: inserting rules behind a matching one, or
    rules that do not match in front of it, never changes the decision; and the
    rule set abstains exactly when no rule matches. *)
Theorem rule_set_first_match_wins pre rule post request :
  Forall (fun r => approval_matches (rule_matcher r) request = false) pre ->
  (approval_matches (rule_matcher rule) request = true ->
   rule_set_decide (pre ++ rule :: post) request = rule_decision rule)
  /\ (rule_set_decide (pre ++ rule :: post) request = Policy_Abstain <->
      Forall (fun r => approval_matches (rule_matcher r) request = false) (rule :: post)).
Proof.
  intros Hpre.
  assert (Hskip : rule_set_decide (pre ++ rule :: post) request = rule_set_decide (rule :: post) request).
  { induction Hpre as [|r pre Hr _ IH]; [done|]. simpl. by rewrite Hr. }
  rewrite Hskip. split; [intros Hm; simpl; by rewrite Hm|].
  destruct (rule_set_decide_first (rule :: post) request)
    as [(p & r & q & Heq & _ & Hr & ->)|[Hall ->]]; [|by split].
  split; [by unfold rule_decision; destruct (rule_effect r)|].
  rewrite Heq. intros [_ [Hf _]%Forall_cons]%Forall_app. congruence.
Qed.

(** A shell allowlist fails closed: when every allowing rule of a rule set
    carries a simple-argv matcher for one of the listed prefixes, an [Allow] is
    only ever given to a command with no shell metacharacter, whose words start
    with a listed prefix and whose program is neither a shell nor an interpreter
    given code inline. *)
Theorem shell_allowlist_fails_closed pointer prefixes rules request :
  Forall (fun r => rule_effect r = RuleEffect_Allow -> argv_guard pointer prefixes r) rules ->
  rule_set_decide rules request = Policy_Allow ->
  exists argv prefix, plain_invocation (call_arguments (req_call request)) pointer argv
    /\ prefix ∈ prefixes /\ prefix `prefix_of` argv.
Proof.
  intros Hall Hd. destruct (rule_set_decide_first rules request)
    as [(pre & rule & post & -> & _ & Hm & Hr)|[_ Hr]]; rewrite Hr in Hd; [|done].
  apply (guarded_rule_plain _ _ rule); [|done].
  apply Forall_app in Hall as [_ [Hrule _]%Forall_cons]. apply Hrule.
  unfold rule_decision in Hd. by destruct (rule_effect rule).
Qed.

End Approval.

(** ** Concrete runs *)

Section Witnesses.
#[local] Existing Instance json_text.

(** Splitting at spaces, for commands without quotes. *)
#[local] Instance space_words : TextParsers := {|
  url_host_str := fun _ => None;
  shlex_split := fun s => Some (split_on (byte_at 32) s)
|}.

Definition git_status_rule : ToolApprovalRule :=
  mkToolApprovalRule
    (mkToolApprovalMatcher {["exec_command"]} [OriginMatcher_Local] []
       [Arg_SimpleShellArgvPrefix "" ["git"; "status"]] None)
    RuleEffect_Allow (Some "git status is safe").

Definition deny_exec_rule : ToolApprovalRule :=
  mkToolApprovalRule
    (mkToolApprovalMatcher {["exec_command"]} [] [] [] None) RuleEffect_Deny (Some "denied").

Definition exec_spec : ToolSpec :=
  mkToolSpec "exec_command" "Run commands" ToolKind_Function (Some "{}") None None OutputMode_Text
    None false Origin_Local Source_Builtin [] false (mkToolAvailability [] [] [] [] false)
    ToolApprovalProfile_default None ∅.

Definition exec_request (command : string) : ToolApprovalRequest :=
  mkToolApprovalRequest (mkToolCall "id" "call_1" "exec_command" command Origin_Local) exec_spec [].

Lemma rule_set_first_match_wins_witness :
  rule_set_decide [git_status_rule; deny_exec_rule] (exec_request "git status; rm -rf .")
  = Policy_Deny (Some "denied").
Proof.
  apply (rule_set_first_match_wins [git_status_rule] deny_exec_rule []
           (exec_request "git status; rm -rf ."));
    [constructor; [vm_compute; reflexivity | constructor] | vm_compute; reflexivity].
Defined.

Lemma shell_allowlist_fails_closed_witness :
  exists argv prefix, plain_invocation "git status --short" "" argv
    /\ prefix ∈ [["git"; "status"]] /\ prefix `prefix_of` argv.
Proof.
  apply (shell_allowlist_fails_closed "" [["git"; "status"]] [git_status_rule; deny_exec_rule]
           (exec_request "git status --short")); [|vm_compute; reflexivity].
  constructor; [|constructor; [discriminate | constructor]].
  intros _. exists ["git"; "status"]. split; [by left|]. left. by left.
Defined.

End Witnesses.
