(* ===== verification/RuntimeState.v ===== *)
(** * The runtime's state and effects

    Models the state of [AgentRuntime] ([crates/runtime/src/runtime.rs]), the
    traits it is built over ([backend.rs], [augmentor.rs], [observer.rs],
    [compaction.rs]) and its two smallest parts, [runtime/event_log.rs] and
    [runtime/provider_state.rs].

    An asynchronous method is a computation of the monad [M]: it threads the
    runtime state, may raise a [RuntimeError] (the state reached so far is kept,
    as it is behind [&mut self]) and may run out of the fuel of a loop.  What the
    runtime awaits (the model backend, the store, hooks, tools, the approval
    handler) is the class [Host]: each operation may change the state that the
    runtime shares with other tasks ([Shared]: the control plane, the permission
    grants, the tool context and the tool registry) and the rest of the world.
    Fresh identifiers and clock readings are numbered by a counter.

    [rt_trace] is a ghost record of what the runtime asked of its host, in
    order; no computation reads it. *)

From Stdlib Require Import String.
From stdpp Require Import base list gmap strings.
From Stdlib Require Import Lia.
From S2P Require Import Prelude BTree Message Events LoopDetection ControlPlane Errors.
From S2P Require Import Session History HookEffects SandboxPolicy Tools Approval.

(** [json!] and [Serialize] at the types the hook payloads use. *)
Class JsonBuild (J : SerdeJson) := {
  json_object : list (string * Value) -> Value;
  json_string : string -> Value;
  json_usize : nat -> Value;
  json_tool_call : ToolCall -> Value;
  json_tool_result : ToolResult -> Value;
  json_message : Message -> Value
}.

Section Traits.
Context {J : SerdeJson}.

(* crates/runtime/src/backend.rs, ModelBackendCapabilities *)
Record ModelBackendCapabilities := mkModelBackendCapabilities {
  cap_tool_calls : bool;
  cap_vision : bool;
  cap_image_generation : bool;
  cap_audio_input : bool;
  cap_tts : bool;
  cap_provider_managed_history : bool;
  cap_provider_native_compaction : bool
}.

(* crates/runtime/src/backend.rs, ModelBackendCapabilities::from_model_surface *)
Definition from_model_surface (tool_calls vision image_generation audio_input tts : bool)
    : ModelBackendCapabilities :=
  mkModelBackendCapabilities tool_calls vision image_generation audio_input tts false false.

(* crates/runtime/src/augmentor.rs, UserMessageAugmentationContext *)
Record UserMessageAugmentationContext := mkUserMessageAugmentationContext {
  aug_session_id : SessionId;
  aug_agent_session_id : AgentSessionId
}.

(* crates/runtime/src/augmentor.rs, AugmentedUserMessage *)
Record AugmentedUserMessage := mkAugmentedUserMessage {
  aug_prefix_messages : list Message;
  aug_message : Message
}.

(* crates/runtime/src/augmentor.rs, AugmentedUserMessage::unchanged *)
Definition augmented_unchanged (message : Message) : AugmentedUserMessage :=
  mkAugmentedUserMessage [] message.

(* crates/runtime/src/compaction.rs, CompactionConfig *)
Record CompactionConfig := mkCompactionConfig {
  cc_enabled : bool;
  cc_context_window_tokens : nat;
  cc_trigger_tokens : nat;
  cc_preserve_recent_messages : nat
}.

(* crates/runtime/src/compaction.rs, CompactionRequest *)
Record CompactionRequest := mkCompactionRequest {
  cr_session_id : SessionId;
  cr_agent_session_id : AgentSessionId;
  cr_turn_id : TurnId;
  cr_messages : list Message;
  cr_visible_messages : list Message;
  cr_instructions : option string
}.

(* crates/runtime/src/observer.rs, RuntimeProgressEvent *)
Inductive RuntimeProgressEvent :=
| Progress_SteerApplied (message : string) (reason : option string)
| Progress_UserPromptAdded (prompt : string)
| Progress_CompactionCompleted (reason : string) (source_message_count retained_message_count : nat)
    (summary : string) (compacted_through_message_id summary_message_id : MessageId)
| Progress_ModelRequestStarted (turn_id : TurnId) (iteration : nat)
| Progress_ProviderRetryScheduled (turn_id : TurnId) (iteration : nat) (status_code : N)
    (retry_count max_retries remaining_retries : nat) (next_retry_at_ms : N)
| Progress_TokenUsageUpdated (phase : TokenUsagePhase) (ledger : TokenLedgerSnapshot)
| Progress_Notification (source message : string)
| Progress_TuiToastShow (variant message : string)
| Progress_TuiPromptAppend (text : string) (only_when_empty : bool)
| Progress_AssistantTextDelta (delta : string)
| Progress_ToolCallRequested (call : ToolCall)
| Progress_ModelResponseCompleted (assistant_text : string) (tool_calls : list ToolCall)
| Progress_ToolApprovalRequested (call : ToolCall) (reasons : list string)
| Progress_ToolApprovalResolved (call : ToolCall) (approved : bool) (reason : option string)
| Progress_ToolLifecycle (event : ToolLifecycleEventEnvelope)
| Progress_TaskCreated (task : AgentTaskSpec) (parent_agent_id : option AgentId)
    (status : TaskStatus) (summary : option string) (worktree_id : option WorktreeId)
    (worktree_root : option PathBuf)
| Progress_TaskUpdated (task_id : TaskId) (status : TaskStatus) (summary : option string)
| Progress_TaskCompleted (task_id : TaskId) (agent_id : AgentId) (status : TaskStatus)
| Progress_SubagentStarted (handle : AgentHandle) (task : AgentTaskSpec)
| Progress_SubagentStopped (handle : AgentHandle) (result : option AgentResultEnvelope)
    (error : option string)
| Progress_TurnCompleted (turn_id : TurnId) (assistant_text : string).

(* crates/runtime/src/hooks/runner.rs, HookInvocation *)
Record HookInvocation := mkHookInvocation {
  inv_registration : HookRegistration;
  inv_output : HookResult
}.

(* crates/runtime/src/hooks/runner.rs, HookInvocationBatch *)
Definition HookInvocationBatch : Type := list HookInvocation.

(** The state behind [Arc]s that other tasks hold too. *)
Record Shared := mkShared {
  sh_control_plane : RuntimeControlPlane;
  sh_grants : PermissionGrantSnapshot;
  sh_tool_context : ToolExecutionContext;
  sh_registry : ToolRegistry
}.

End Traits.

(** The services behind the runtime's trait objects.  A model stream is the list
    of the items it yields before it ends. *)
Class Host {J : SerdeJson} := {
  World : Type;
  (** The [n]-th identifier and clock reading. *)
  uuid : nat -> string;
  clock : nat -> N;
  fs_view : World -> FileSystem;
  backend_capabilities : World -> ModelBackendCapabilities;
  backend_stream_turn : ModelRequest -> Shared -> World ->
    result (list (result ModelEvent RuntimeError)) RuntimeError * Shared * World;
  store_append : SessionEventEnvelope -> Shared -> World ->
    result unit SessionStoreError * Shared * World;
  approval_policy_decide : World -> ToolApprovalPolicy;
  approval_handler_decide : ToolApprovalRequest -> Shared -> World ->
    result ToolApprovalOutcome RuntimeError * Shared * World;
  compactor_compact : CompactionRequest -> Shared -> World ->
    result string RuntimeError * Shared * World;
  tool_execute : Tool -> ToolCallId -> Value -> ToolExecutionContext -> Shared -> World ->
    result ToolResult ToolError * Shared * World;
  augmentor_augment : nat -> UserMessageAugmentationContext -> Message -> Shared -> World ->
    result AugmentedUserMessage RuntimeError * Shared * World;
  (** The five hook executors; an asynchronous command hook is handed over. *)
  command_execute : HookRegistration -> HookContext -> Shared -> World ->
    result HookResult RuntimeError * Shared * World;
  http_execute : HookRegistration -> HookContext -> Shared -> World ->
    result HookResult RuntimeError * Shared * World;
  prompt_evaluate : HookRegistration -> HookContext -> Shared -> World ->
    result HookResult RuntimeError * Shared * World;
  agent_evaluate : HookRegistration -> HookContext -> Shared -> World ->
    result HookResult RuntimeError * Shared * World;
  wasm_execute : HookRegistration -> HookContext -> Shared -> World ->
    result HookResult RuntimeError * Shared * World;
  spawn_command : HookRegistration -> HookContext -> Shared -> World -> unit * Shared * World;
  async_try_recv_all : Shared -> World -> list HookInvocation * Shared * World;
  (** [Regex::new(pattern)] and [is_match(value)]. *)
  regex_is_match : string -> string -> result bool string;
  sleep : Duration -> Shared -> World -> unit * Shared * World
}.

Section Runtime.
Context {J : SerdeJson} {B : JsonBuild J} {H : Host}.

(** An operation of the host. *)
Definition Ext (A : Type) : Type := Shared -> World -> A * Shared * World.

(* crates/runtime/src/observer.rs, RuntimeObserver *)
Definition RuntimeObserver : Type := RuntimeProgressEvent -> Ext (result unit RuntimeError).

(* crates/runtime/src/observer.rs, NoopRuntimeObserver::on_event *)
Definition NoopRuntimeObserver : RuntimeObserver := fun _ shared world => (Ok tt, shared, world).

(** What the runtime asked of its host. *)
Inductive Action :=
| Act_Append (event : SessionEventEnvelope) (stored : bool)
| Act_Stream (request : ModelRequest) (visible : list Message)
| Act_Known (continuation : ProviderContinuation) (visible : list Message)
| Act_Gate (call : ToolCall) (effects : AppliedHookEffects)
| Act_Policy (request : ToolApprovalRequest) (decision : ToolApprovalPolicyDecision)
| Act_Approval (request : ToolApprovalRequest) (outcome : ToolApprovalOutcome)
| Act_Inspect (call : ToolCall) (signal : option LoopSignal)
| Act_Execute (tool : Tool) (call : ToolCall) (context : ToolExecutionContext) (shared : Shared)
    (files : FileSystem).

(* crates/runtime/src/runtime.rs, AgentRuntime *)
Record RState := mkRState {
  rt_session : RuntimeSession;
  rt_detector : ToolLoopDetector;
  rt_compaction_config : CompactionConfig;
  rt_base_instructions : list string;
  rt_hook_registrations : list HookRegistration;
  rt_pending_additional_context : list string;
  rt_pending_injected_instructions : list string;
  rt_user_message_augmentor : option nat;
  rt_shared : Shared;
  rt_world : World;
  rt_next : nat;
  rt_trace : list Action
}.

(** ** Record updates *)

Definition set_session (s : RState) (x : RuntimeSession) : RState :=
  mkRState x (rt_detector s) (rt_compaction_config s) (rt_base_instructions s)
    (rt_hook_registrations s) (rt_pending_additional_context s)
    (rt_pending_injected_instructions s) (rt_user_message_augmentor s) (rt_shared s) (rt_world s)
    (rt_next s) (rt_trace s).

Definition set_detector (s : RState) (x : ToolLoopDetector) : RState :=
  mkRState (rt_session s) x (rt_compaction_config s) (rt_base_instructions s)
    (rt_hook_registrations s) (rt_pending_additional_context s)
    (rt_pending_injected_instructions s) (rt_user_message_augmentor s) (rt_shared s) (rt_world s)
    (rt_next s) (rt_trace s).

Definition set_pending (s : RState) (context instructions : list string) : RState :=
  mkRState (rt_session s) (rt_detector s) (rt_compaction_config s) (rt_base_instructions s)
    (rt_hook_registrations s) context instructions (rt_user_message_augmentor s) (rt_shared s)
    (rt_world s) (rt_next s) (rt_trace s).

Definition set_env (s : RState) (shared : Shared) (world : World) : RState :=
  mkRState (rt_session s) (rt_detector s) (rt_compaction_config s) (rt_base_instructions s)
    (rt_hook_registrations s) (rt_pending_additional_context s)
    (rt_pending_injected_instructions s) (rt_user_message_augmentor s) shared world
    (rt_next s) (rt_trace s).

Definition set_host (s : RState) (instructions : list string) (hooks : list HookRegistration)
    (augmentor : option nat) : RState :=
  mkRState (rt_session s) (rt_detector s) (rt_compaction_config s) instructions hooks
    (rt_pending_additional_context s) (rt_pending_injected_instructions s) augmentor
    (rt_shared s) (rt_world s) (rt_next s) (rt_trace s).

Definition bump_next (s : RState) : RState :=
  mkRState (rt_session s) (rt_detector s) (rt_compaction_config s) (rt_base_instructions s)
    (rt_hook_registrations s) (rt_pending_additional_context s)
    (rt_pending_injected_instructions s) (rt_user_message_augmentor s) (rt_shared s) (rt_world s)
    (S (rt_next s)) (rt_trace s).

Definition add_action (s : RState) (a : Action) : RState :=
  mkRState (rt_session s) (rt_detector s) (rt_compaction_config s) (rt_base_instructions s)
    (rt_hook_registrations s) (rt_pending_additional_context s)
    (rt_pending_injected_instructions s) (rt_user_message_augmentor s) (rt_shared s) (rt_world s)
    (rt_next s) (rt_trace s ++ [a]).

Definition set_control_plane (s : RState) (q : RuntimeControlPlane) : RState :=
  set_env s (mkShared q (sh_grants (rt_shared s)) (sh_tool_context (rt_shared s))
               (sh_registry (rt_shared s))) (rt_world s).

Definition set_grants (s : RState) (g : PermissionGrantSnapshot) : RState :=
  set_env s (mkShared (sh_control_plane (rt_shared s)) g (sh_tool_context (rt_shared s))
               (sh_registry (rt_shared s))) (rt_world s).

Definition with_provider (s : RuntimeSession) (continuation : option ProviderContinuation)
    (cursor : nat) : RuntimeSession :=
  mkRuntimeSession (ses_session_id s) (ses_agent_session_id s) (ses_transcript s) continuation
    cursor (ses_compaction_summary_index s) (ses_retained_tail_indices s)
    (ses_post_summary_start s) (ses_removed_message_ids s) (ses_agent_session_started s)
    (ses_token_ledger s).

Definition with_removed (s : RuntimeSession) (removed : gset MessageId) : RuntimeSession :=
  mkRuntimeSession (ses_session_id s) (ses_agent_session_id s) (ses_transcript s)
    (ses_provider_continuation s) (ses_provider_transcript_cursor s)
    (ses_compaction_summary_index s) (ses_retained_tail_indices s)
    (ses_post_summary_start s) removed (ses_agent_session_started s) (ses_token_ledger s).

Definition with_agent (s : RuntimeSession) (agent_session_id : AgentSessionId) (started : bool)
    (ledger : TokenLedgerSnapshot) : RuntimeSession :=
  mkRuntimeSession (ses_session_id s) agent_session_id (ses_transcript s)
    (ses_provider_continuation s) (ses_provider_transcript_cursor s)
    (ses_compaction_summary_index s) (ses_retained_tail_indices s)
    (ses_post_summary_start s) (ses_removed_message_ids s) started ledger.

(** ** The monad *)

Inductive Outcome (A : Type) :=
| Ret (a : A)
| Raise (e : RuntimeError)
| OutOfFuel.
Arguments Ret {A} a.
Arguments Raise {A} e.
Arguments OutOfFuel {A}.

Definition M (A : Type) : Type := RState -> Outcome A * RState.

#[global] Instance M_ret : MRet M := fun A a s => (Ret a, s).
#[global] Instance M_bind : MBind M := fun A C k m s =>
  match m s with
  | (Ret a, s') => k a s'
  | (Raise e, s') => (Raise e, s')
  | (OutOfFuel, s') => (OutOfFuel, s')
  end.

Definition raise {A} (e : RuntimeError) : M A := fun s => (Raise e, s).
Definition out_of_fuel {A} : M A := fun s => (OutOfFuel, s).
Definition gets {A} (f : RState -> A) : M A := fun s => (Ret (f s), s).
Definition modify (f : RState -> RState) : M unit := fun s => (Ret tt, f s).

(** [result?]. *)
Definition lift {A} (r : result A RuntimeError) : M A :=
  match r with Ok a => mret a | Err e => raise e end.

(** [f(...).await]. *)
Definition ext {A} (f : Ext A) : M A := fun s =>
  let '(a, shared, world) := f (rt_shared s) (rt_world s) in (Ret a, set_env s shared world).

Definition record_action (a : Action) : M unit := modify (fun s => add_action s a).

(** [for x in xs { f(x)?; }]. *)
Fixpoint for_each {A} (f : A -> M unit) (l : list A) : M unit :=
  match l with
  | [] => mret tt
  | x :: l' => _ ← f x; for_each f l'
  end.

Definition session : M RuntimeSession := gets rt_session.

(** [XxxId::new()]. *)
Definition fresh : M string := fun s => (Ret (uuid (rt_next s)), bump_next s).

(** [SystemTime::now()]. *)
Definition now : M N := fun s => (Ret (clock (rt_next s)), bump_next s).

(** [observer.on_event(event)?]. *)
Definition on_event (observer : RuntimeObserver) (event : RuntimeProgressEvent) : M unit :=
  r ← ext (observer event); lift r.

(** [self.store.append(event).await?]. *)
Definition append (event : SessionEventEnvelope) : M unit :=
  r ← ext (store_append event);
  _ ← record_action (Act_Append event (is_ok r));
  lift (match r with Ok _ => Ok tt | Err e => Err (RtErr_Store e) end).

(** ** [event_log.rs] *)

(** [SessionEventEnvelope::new(self.session.session_id.clone(), ...)]. *)
Definition new_envelope (turn_id : option TurnId) (tool_call_id : option ToolCallId)
    (event : SessionEventKind) : M SessionEventEnvelope := fun s =>
  (Ret (SessionEventEnvelope_new (uuid (rt_next s)) (clock (rt_next s))
          (ses_session_id (rt_session s)) (ses_agent_session_id (rt_session s))
          turn_id tool_call_id event), bump_next s).

(* crates/runtime/src/runtime/event_log.rs, AgentRuntime::append_event *)
Definition append_event (turn_id : option TurnId) (tool_call_id : option ToolCallId)
    (event : SessionEventKind) : M unit :=
  envelope ← new_envelope turn_id tool_call_id event;
  append envelope.

(** The event must be one of the tool lifecycle kinds; [expect] panics
    otherwise, which no caller can reach. *)
(* crates/runtime/src/runtime/event_log.rs, AgentRuntime::append_tool_lifecycle_event *)
Definition append_tool_lifecycle_event (turn_id : TurnId) (call : ToolCall)
    (event : SessionEventKind) : M (option ToolLifecycleEventEnvelope) :=
  envelope ← new_envelope (Some turn_id) (Some (call_id call)) event;
  let lifecycle := tool_lifecycle_event envelope in
  _ ← append envelope;
  mret lifecycle.

(** [observer.on_event(RuntimeProgressEvent::ToolLifecycle { event })?]. *)
Definition on_lifecycle (observer : RuntimeObserver) (event : option ToolLifecycleEventEnvelope)
    : M unit :=
  match event with
  | Some event => on_event observer (Progress_ToolLifecycle event)
  | None => mret tt
  end.

(** [append_transcript_message(&mut self.session.transcript, message, ...)]
    followed by [self.store.append(event).await?]. *)
(* crates/runtime/src/transcript.rs, append_transcript_message *)
Definition append_message (turn_id : TurnId) (message : Message) : M unit :=
  event ← (fun s =>
    let (event, transcript) :=
      append_transcript_message (ses_transcript (rt_session s)) message (uuid (rt_next s))
        (clock (rt_next s)) (ses_session_id (rt_session s)) (ses_agent_session_id (rt_session s))
        turn_id in
    (Ret event, bump_next (set_session s (with_transcript (rt_session s) transcript)))) : M _;
  append event.

(* crates/runtime/src/runtime/event_log.rs, AgentRuntime::append_hook_messages *)
Definition append_hook_messages (turn_id : TurnId) (messages : list Message) : M unit :=
  for_each (append_message turn_id) messages.

(** ** [provider_state.rs] *)

(* crates/runtime/src/runtime/provider_state.rs, message_contains_tool_protocol_items *)
Definition message_contains_tool_protocol_items (message : Message) : bool :=
  existsb (fun part => match part with Part_ToolCall _ | Part_ToolResult _ => true | _ => false end)
    (msg_parts message).

(** [self.session.transcript[start..]] without the removed messages. *)
Definition transcript_delta (s : RuntimeSession) : list Message :=
  let start := Nat.min (ses_provider_transcript_cursor s) (length (ses_transcript s)) in
  base.filter (fun m => msg_id m ∉ ses_removed_message_ids s) (drop start (ses_transcript s)).

(* crates/runtime/src/runtime/provider_state.rs, AgentRuntime::request_window *)
Definition request_window (capabilities : ModelBackendCapabilities) (s : RuntimeSession)
    : list Message * option ProviderContinuation :=
  if negb (cap_provider_managed_history capabilities) then (session_visible_transcript s, None)
  else
    match ses_provider_continuation s with
    | None => (session_visible_transcript s, None)
    | Some continuation =>
        let delta := transcript_delta s in
        if existsb message_contains_tool_protocol_items delta
        then (session_visible_transcript s, None)
        else (delta, Some continuation)
    end.

(* crates/runtime/src/runtime.rs, AgentRuntime::model_visible_tool_specs *)
Definition model_visible_tool_specs (s : RState) : list ToolSpec :=
  List.filter (fun spec => is_model_visible spec (tc_model_visibility (sh_tool_context (rt_shared s))))
    (registry_specs (sh_registry (rt_shared s))).

(* crates/runtime/src/runtime/provider_state.rs, AgentRuntime::build_model_request *)
Definition build_model_request (turn_id : TurnId) (instructions : list string)
    (force_full_transcript : bool) (s : RState) : ModelRequest :=
  let (messages, continuation) :=
    if force_full_transcript then (session_visible_transcript (rt_session s), None)
    else request_window (backend_capabilities (rt_world s)) (rt_session s) in
  mkModelRequest (ses_session_id (rt_session s)) (ses_agent_session_id (rt_session s)) turn_id
    (instructions ++ rt_pending_injected_instructions s) messages (model_visible_tool_specs s)
    (rt_pending_additional_context s) continuation json_empty_object.

(* crates/runtime/src/runtime/provider_state.rs, AgentRuntime::update_provider_continuation *)
Definition update_provider_continuation (continuation : option ProviderContinuation) : M unit :=
  fun s =>
    let s' := set_session s
      (with_provider (rt_session s) continuation (length (ses_transcript (rt_session s)))) in
    (Ret tt,
     match continuation with
     | Some c => add_action s' (Act_Known c (session_visible_transcript (rt_session s)))
     | None => s'
     end).

(* crates/runtime/src/runtime/provider_state.rs, AgentRuntime::reset_provider_continuation *)
Definition reset_provider_continuation : M unit :=
  modify (fun s => set_session s (with_provider (rt_session s) None 0)).

(* crates/runtime/src/runtime/provider_state.rs, is_provider_continuation_lost *)
Definition is_provider_continuation_lost (error : RuntimeError) : bool :=
  match error with
  | RtErr_AgentCore (Core_ProviderContinuationLost _) => true
  | _ => false
  end.

(* crates/runtime/src/runtime/hook_effects.rs, AgentRuntime::clear_pending_request_effects *)
Definition clear_pending_request_effects : M unit := modify (fun s => set_pending s [] []).

End Runtime.

Arguments Ret {A} a.
Arguments Raise {A} e.
Arguments OutOfFuel {A}.
