(* ===== verification/SubagentState.v ===== *)
(** * Running child agents: state and events

    The state behind [RuntimeSubagentExecutor] of [crates/runtime/src/subagent_impl.rs]
    and the helpers its methods and the child workers share: the events a parent's log
    gets about its children, and the worktrees of children.  The session store, the
    clock and the id generator, the worktree manager, the profile resolver, the progress
    sink and the runtimes of the children are parameters ([SubagentHost]). *)

From Stdlib Require Import Ascii String.
From stdpp Require Import base list gmap strings.
From Stdlib Require Import Lia.
From S2P Require Import Prelude Text Message Events Errors Replay Session History LoopDetection.
From S2P Require Import AgentSessions WriteLease SandboxPolicy Tools PathPolicy RuntimeState SubagentPlan.

Section SubagentTypes.
Context {J : SerdeJson}.

(** Backend, compactor and skill catalog are numbers. *)
(* crates/runtime/src/subagent_impl.rs, SubagentRuntimeProfile *)
Record SubagentRuntimeProfile := mkSubagentRuntimeProfile {
  prof_name : string;
  prof_backend : nat;
  prof_tool_context : ToolExecutionContext;
  prof_conversation_compactor : nat;
  prof_compaction_config : CompactionConfig;
  prof_instructions : list string;
  prof_hooks : list HookRegistration;
  prof_skill_catalog : nat;
  prof_allowed_tools : option (list ToolName);
  prof_allowed_mcp_servers : option (list McpServerName);
  prof_supports_tool_calls : bool
}.

(* crates/tools/src/agentic/task.rs, SubagentLaunchSpec *)
Record SubagentLaunchSpec := mkSubagentLaunchSpec {
  launch_task : AgentTaskSpec;
  launch_initial_input : Message;
  launch_fork_context : bool;
  launch_worktree_mode : ChildWorktreeMode;
  launch_model : option string;
  launch_reasoning_effort : option string
}.

(* crates/tools/src/agentic/worktree.rs, WorktreeRuntimeContext *)
Record WorktreeRuntimeContext := mkWorktreeRuntimeContext {
  wrc_session_id : option SessionId;
  wrc_agent_session_id : option AgentSessionId;
  wrc_turn_id : option TurnId;
  wrc_parent_agent_id : option AgentId;
  wrc_task_id : option TaskId;
  wrc_active_worktree_id : option WorktreeId
}.

(* crates/tools/src/agentic/worktree.rs, ChildWorktreeRequest *)
Record ChildWorktreeRequest := mkChildWorktreeRequest {
  cwr_child_agent_id : AgentId;
  cwr_child_session_id : SessionId;
  cwr_child_agent_session_id : AgentSessionId;
  cwr_task_id : TaskId;
  cwr_label : option string
}.

(* crates/runtime/src/subagent_impl.rs, ChildStartMode *)
Inductive ChildStartMode :=
| Start_RunInput (message : Message) (apply_initial_steer : bool)
| Start_AwaitMessage.

(** What the runtime of a child is built from. *)
(* crates/runtime/src/subagent_impl.rs, RuntimeSubagentExecutor::build_child_runtime *)
Record ChildRuntime := mkChildRuntime {
  chr_backend : nat;
  chr_tool_registry : ToolRegistry;
  chr_tool_context : ToolExecutionContext;
  chr_conversation_compactor : nat;
  chr_compaction_config : CompactionConfig;
  chr_loop_detection_config : LoopDetectionConfig;
  chr_instructions : list string;
  chr_hooks : list HookRegistration;
  chr_skill_catalog : nat;
  chr_session : RuntimeSession
}.

(** [mailbox_rx] is the number of the mailbox. *)
(* crates/runtime/src/subagent_impl.rs, ChildLaunchPlan *)
Record ChildLaunchPlan := mkChildLaunchPlan {
  plan_parent : SubagentParentContext;
  plan_handle : AgentHandle;
  plan_task : AgentTaskSpec;
  plan_tool_registry : ToolRegistry;
  plan_mailbox_rx : nat;
  plan_dependency_agent_ids : list AgentId;
  plan_profile : SubagentRuntimeProfile;
  plan_session : RuntimeSession;
  plan_persist_session_seed : bool;
  plan_start_mode : ChildStartMode
}.

(* crates/runtime/src/subagent_impl.rs, ResumableChildState *)
Record ResumableChildState := mkResumableChildState {
  rcs_tool_registry : ToolRegistry;
  rcs_profile : SubagentRuntimeProfile
}.

(** What the executor calls.  [sw_run_user_message] has the timeout of the task: a turn
    that exceeds it is the error of [run_input]. *)
Class SubagentHost := {
  SWorld : Type;
  sw_append_batch : list SessionEventEnvelope -> SWorld -> result unit SessionStoreError * SWorld;
  sw_events : SWorld -> SessionId -> result (list SessionEventEnvelope) SessionStoreError;
  sw_new_id : SWorld -> string * SWorld;
  sw_now_ms : SWorld -> N * SWorld;
  sw_progress_sink : option (RuntimeProgressEvent -> SWorld -> result unit RuntimeError * SWorld);
  sw_has_worktree_manager : bool;
  sw_create_child_worktree : WorktreeRuntimeContext -> ChildWorktreeRequest -> SWorld ->
    result WorktreeSummaryRecord ToolError * SWorld;
  sw_release_child_worktree : WorktreeRuntimeContext -> WorktreeId -> SWorld ->
    result (option WorktreeSummaryRecord) ToolError * SWorld;
  sw_resolve_profile : SubagentLaunchSpec -> SWorld ->
    result SubagentRuntimeProfile RuntimeError * SWorld;
  (** the lease manager, as the tools of a child call it *)
  sw_lease_guard : option AgentId -> list PathBuf -> result unit ToolError;
  (** preparing the runtime on a blocking thread: an error when the task fails *)
  sw_prepare_runtime : ChildRuntime -> SWorld -> result unit string * SWorld;
  sw_steer : ChildRuntime -> string -> option string -> SWorld -> result unit RuntimeError * SWorld;
  sw_run_user_message : ChildRuntime -> option N -> Message -> SWorld ->
    result string RuntimeError * SWorld;
  sw_end_session : ChildRuntime -> option string -> SWorld -> SWorld
}.

End SubagentTypes.

Section SubagentState.
Context {J : SerdeJson} {H : SubagentHost} {P : ChildPayloads}.

(** The shared state: the session manager, the leases, the children that can be
    resumed, the open mailboxes with what is queued in them, and the worker tasks that
    were spawned (by join handle).  The tool registry and tool context of the parent
    and the loop detection settings do not change. *)
(* crates/runtime/src/subagent_impl.rs, RuntimeSubagentExecutor *)
Record XState := mkXState {
  x_sessions : AgentSessionManager;
  x_leases : LeaseIndex;
  x_resumable : gmap AgentId ResumableChildState;
  x_mailboxes : gmap nat (list AgentControlMessage);
  x_workers : list (nat * ChildLaunchPlan);
  x_next : nat;
  x_world : SWorld
}.

Record XConfig := mkXConfig {
  x_tool_registry : ToolRegistry;
  x_tool_context : ToolExecutionContext;
  x_loop_detection_config : LoopDetectionConfig
}.

Definition set_sessions (f : AgentSessionManager) (s : XState) : XState :=
  mkXState f (x_leases s) (x_resumable s) (x_mailboxes s) (x_workers s) (x_next s) (x_world s).
Definition set_leases (l : LeaseIndex) (s : XState) : XState :=
  mkXState (x_sessions s) l (x_resumable s) (x_mailboxes s) (x_workers s) (x_next s) (x_world s).
Definition set_resumable (r : gmap AgentId ResumableChildState) (s : XState) : XState :=
  mkXState (x_sessions s) (x_leases s) r (x_mailboxes s) (x_workers s) (x_next s) (x_world s).
Definition set_mailboxes (m : gmap nat (list AgentControlMessage)) (s : XState) : XState :=
  mkXState (x_sessions s) (x_leases s) (x_resumable s) m (x_workers s) (x_next s) (x_world s).
Definition set_workers (w : list (nat * ChildLaunchPlan)) (s : XState) : XState :=
  mkXState (x_sessions s) (x_leases s) (x_resumable s) (x_mailboxes s) w (x_next s) (x_world s).
Definition set_next (n : nat) (s : XState) : XState :=
  mkXState (x_sessions s) (x_leases s) (x_resumable s) (x_mailboxes s) (x_workers s) n (x_world s).
Definition set_world (w : SWorld) (s : XState) : XState :=
  mkXState (x_sessions s) (x_leases s) (x_resumable s) (x_mailboxes s) (x_workers s) (x_next s) w.

(** ** The monad *)

Definition X (A : Type) : Type := XState -> A * XState.

#[global] Instance X_ret : MRet X := fun A a s => (a, s).
#[global] Instance X_bind : MBind X := fun A B k m s => let '(a, s) := m s in k a s.

Definition xget {A} (f : XState -> A) : X A := fun s => (f s, s).
Definition xset (f : XState -> XState) : X unit := fun s => (tt, f s).
Definition xworld {A} (f : SWorld -> A * SWorld) : X A :=
  fun s => let '(a, w) := f (x_world s) in (a, set_world w s).

(** [m?]. *)
Definition xtry {A B E} (m : X (result A E)) (k : A -> X (result B E)) : X (result B E) :=
  r ← m; match r with Ok a => k a | Err e => mret (Err e) end.

(** [m.map_err(|error| ToolError::invalid_state(error.to_string()))]. *)
Definition as_tool_error {A} (r : result A RuntimeError) : result A ToolError :=
  match r with Ok a => Ok a | Err e => Err (ToolErr_InvalidState (RuntimeError_display e)) end.

(** A call of the session manager that changes it. *)
Definition with_manager {A} (f : AgentSessionManager -> result (A * AgentSessionManager) RuntimeError)
    : X (result A RuntimeError) :=
  m ← xget x_sessions;
  match f m with
  | Ok (a, m) => _ ← xset (set_sessions m); mret (Ok a)
  | Err e => mret (Err e)
  end.

Definition release_leases (agent_id : AgentId) : X unit :=
  l ← xget x_leases; xset (set_leases (release l agent_id)).
Definition leased_paths (agent_id : AgentId) : X (list string) :=
  l ← xget x_leases; mret (claimed_paths l agent_id).

(** ** Mailboxes *)

(* crates/runtime/src/agent_mailbox.rs, agent_mailbox_channel *)
Definition agent_mailbox_channel : X nat :=
  n ← xget x_next;
  _ ← xset (set_next (S n));
  boxes ← xget x_mailboxes;
  _ ← xset (set_mailboxes (<[n := []]> boxes));
  mret n.

(** [UnboundedSender::send]: an error once the receiver is dropped. *)
(* crates/runtime/src/agent_mailbox.rs, AgentMailbox::send_input *)
Definition mailbox_send (mb : nat) (message : AgentControlMessage) : X bool :=
  boxes ← xget x_mailboxes;
  match boxes !! mb with
  | Some queue => _ ← xset (set_mailboxes (<[mb := queue ++ [message]]> boxes)); mret true
  | None => mret false
  end.

(** ** Events of the parent *)

Definition new_id : X string := xworld sw_new_id.
Definition now_ms : X N := xworld sw_now_ms.

(* crates/types/src/event.rs, AgentEnvelope::new *)
Definition new_envelope (h : AgentHandle) (kind : AgentEnvelopeKind) : X SessionEventKind :=
  id ← new_id;
  now ← now_ms;
  mret (Ev_AgentEnvelope
          (mkAgentEnvelope id (AgentHandle_agent_id h) (AgentHandle_parent_agent_id h)
             (AgentHandle_session_id h) (AgentHandle_agent_session_id h) now kind)).

Fixpoint new_envelopes (h : AgentHandle) (kinds : list AgentEnvelopeKind) : X (list SessionEventKind) :=
  match kinds with
  | [] => mret []
  | kind :: rest => e ← new_envelope h kind; es ← new_envelopes h rest; mret (e :: es)
  end.

Fixpoint stamp_events (session_id : SessionId) (agent_session_id : AgentSessionId)
    (turn_id : option TurnId) (events : list SessionEventKind) : X (list SessionEventEnvelope) :=
  match events with
  | [] => mret []
  | event :: rest =>
      id ← new_id;
      now ← now_ms;
      more ← stamp_events session_id agent_session_id turn_id rest;
      mret (SessionEventEnvelope_new id now session_id agent_session_id turn_id None event :: more)
  end.

Definition store_batch (events : list SessionEventEnvelope) : X (result unit RuntimeError) :=
  r ← xworld (sw_append_batch events);
  mret (match r with Ok u => Ok u | Err e => Err (RtErr_Store e) end).

(** The store part of [append_parent_events], as the workers have it too. *)
(* crates/runtime/src/subagent_impl.rs, ChildAgentWorker::append_parent_events *)
Definition store_parent_events (parent : SubagentParentContext) (events : list SessionEventKind)
    : X (result unit RuntimeError) :=
  match par_session_id parent, par_agent_session_id parent with
  | Some session_id, Some agent_session_id =>
      stamped ← stamp_events session_id agent_session_id (par_turn_id parent) events;
      store_batch stamped
  | _, _ => mret (Ok tt)
  end.

(* crates/runtime/src/subagent_impl.rs, runtime_progress_event_from_parent_event *)
Definition runtime_progress_event_from_parent_event (event : SessionEventKind)
    : option RuntimeProgressEvent :=
  match event with
  | Ev_TaskCreated t parent status summary wid wroot =>
      Some (Progress_TaskCreated t parent status summary wid wroot)
  | Ev_TaskUpdated tid status summary => Some (Progress_TaskUpdated tid status summary)
  | Ev_TaskCompleted tid aid status => Some (Progress_TaskCompleted tid aid status)
  | Ev_SubagentStart h t => Some (Progress_SubagentStarted h t)
  | Ev_SubagentStop h r e => Some (Progress_SubagentStopped h r e)
  | _ => None
  end.

(* crates/runtime/src/subagent_impl.rs, RuntimeSubagentExecutor::publish_parent_progress *)
Fixpoint publish_parent_progress (events : list SessionEventKind) : X (result unit RuntimeError) :=
  match events, sw_progress_sink with
  | event :: rest, Some emit =>
      match runtime_progress_event_from_parent_event event with
      | Some progress => xtry (xworld (emit progress)) (fun _ => publish_parent_progress rest)
      | None => publish_parent_progress rest
      end
  | _, _ => mret (Ok tt)
  end.

(* crates/runtime/src/subagent_impl.rs, RuntimeSubagentExecutor::append_parent_events *)
Definition append_parent_events (parent : SubagentParentContext) (events : list SessionEventKind)
    : X (result unit RuntimeError) :=
  match par_session_id parent, par_agent_session_id parent with
  | Some _, Some _ => xtry (store_parent_events parent events) (fun _ => publish_parent_progress events)
  | _, _ => mret (Ok tt)
  end.

(* crates/runtime/src/subagent_impl.rs, RuntimeSubagentExecutor::append_parent_event *)
Definition append_parent_event (parent : SubagentParentContext) (event : SessionEventKind)
    : X (result unit RuntimeError) := append_parent_events parent [event].

(* crates/runtime/src/subagent_impl.rs, RuntimeSubagentExecutor::append_agent_envelopes *)
Definition append_agent_envelopes (parent : SubagentParentContext) (h : AgentHandle)
    (kinds : list AgentEnvelopeKind) : X (result unit RuntimeError) :=
  events ← new_envelopes h kinds; append_parent_events parent events.

(* crates/runtime/src/subagent_impl.rs, RuntimeSubagentExecutor::append_agent_envelope *)
Definition append_agent_envelope (parent : SubagentParentContext) (h : AgentHandle)
    (kind : AgentEnvelopeKind) : X (result unit RuntimeError) :=
  append_agent_envelopes parent h [kind].

(** ** Worktrees *)

(* crates/runtime/src/subagent_impl.rs, RuntimeSubagentExecutor::child_worktree_runtime *)
Definition child_worktree_runtime (parent : SubagentParentContext) (task_id : TaskId)
    : WorktreeRuntimeContext :=
  mkWorktreeRuntimeContext (par_session_id parent) (par_agent_session_id parent) (par_turn_id parent)
    (par_parent_agent_id parent) (Some task_id) (par_active_worktree_id parent).

(* crates/runtime/src/subagent_impl.rs, RuntimeSubagentExecutor::apply_worktree_summary_to_tool_context *)
Definition apply_worktree_summary_to_tool_context (c : ToolExecutionContext)
    (worktree_id : WorktreeId) (worktree_root : PathBuf) : ToolExecutionContext :=
  let previous_policy := sandbox_policy c in
  let scoped policy :=
    mkToolExecutionContext worktree_root (Some worktree_root) (Some worktree_id)
      (tc_sandbox_root c) (tc_additional_roots c) (tc_read_only_roots c) (tc_writable_roots c)
      (tc_exec_roots c) (tc_network_policy c) policy (tc_workspace_only c)
      (tc_container_workdir c) (tc_model_context_window_tokens c) (tc_session_id c)
      (tc_agent_session_id c) (tc_turn_id c) (tc_agent_id c) (tc_agent_name c) (tc_task_id c)
      (tc_allowed_mcp_servers c) (tc_allowed_skill_names c) (tc_tool_name c) (tc_tool_call_id c)
      (tc_model_visibility c) (tc_write_guard c) (tc_user_input_handler c)
      (tc_permission_request_handler c) (tc_checkpoint_handler c) (tc_session_control_handler c)
      (tc_task_manager c) in
  scoped (Some (with_fail_if_unavailable
    (if bool_decide (policy_mode previous_policy = DangerFullAccess) then permissive
     else recommended_policy (sandbox_scope (scoped (tc_effective_sandbox_policy c))))
    (policy_fail_if_unavailable previous_policy))).

Definition with_tool_context (p : SubagentRuntimeProfile) (c : ToolExecutionContext)
    : SubagentRuntimeProfile :=
  mkSubagentRuntimeProfile (prof_name p) (prof_backend p) c (prof_conversation_compactor p)
    (prof_compaction_config p) (prof_instructions p) (prof_hooks p) (prof_skill_catalog p)
    (prof_allowed_tools p) (prof_allowed_mcp_servers p) (prof_supports_tool_calls p).

(* crates/runtime/src/subagent_impl.rs, RuntimeSubagentExecutor::maybe_allocate_child_worktree *)
Definition maybe_allocate_child_worktree (parent : SubagentParentContext) (t : AgentTaskSpec)
    (mode : ChildWorktreeMode) (h : AgentHandle) (profile : SubagentRuntimeProfile)
    : X (result SubagentRuntimeProfile ToolError) :=
  match mode with
  | Worktree_Inherit => mret (Ok profile)
  | Worktree_Dedicated =>
      if negb sw_has_worktree_manager then
        mret (Err (ToolErr_InvalidState
                     "spawn_agent dedicated worktrees require a worktree manager"))
      else
        xtry (xworld (sw_create_child_worktree
                (child_worktree_runtime parent (AgentTaskSpec_task_id t))
                (mkChildWorktreeRequest (AgentHandle_agent_id h) (AgentHandle_session_id h)
                   (AgentHandle_agent_session_id h) (AgentTaskSpec_task_id t)
                   (Some (AgentTaskSpec_role t)))))
          (fun summary =>
             mret (Ok (with_tool_context profile
               (apply_worktree_summary_to_tool_context (prof_tool_context profile)
                  (WorktreeSummaryRecord_worktree_id summary) (WorktreeSummaryRecord_root summary)))))
  end.

(** The task of the record only gives the task id to the worktree manager. *)
(* crates/runtime/src/subagent_impl.rs, RuntimeSubagentExecutor::release_child_worktree *)
Definition release_child_worktree (parent : SubagentParentContext) (h : AgentHandle) : X unit :=
  match AgentHandle_worktree_id h with
  | Some worktree_id =>
      if sw_has_worktree_manager then
        m ← xget x_sessions;
        let task_id := match task m (AgentHandle_agent_id h) with
                       | Ok t => AgentTaskSpec_task_id t
                       | Err _ => AgentHandle_task_id h
                       end in
        _ ← xworld (sw_release_child_worktree (child_worktree_runtime parent task_id) worktree_id);
        mret tt
      else mret tt
  | None => mret tt
  end.

End SubagentState.
Notation "x <-! m ; k" := (xtry m (fun x => k)) (at level 20, m at level 100, k at level 200, right associativity).
