(* ===== verification/SubagentWorker.v ===== *)
(** * Child workers

    Models [ChildAgentWorker] of [crates/runtime/src/subagent_impl.rs]: the task that
    runs a child agent from its start to its terminal status.  What arrives in the
    child's mailbox while a turn runs is an input ([arrivals]: one list per turn), and so is what a
    child that starts without an input gets while it waits ([awaited]).  The loop runs on a fuel; two more than the number of arrivals is enough
    ([worker_ends_terminal]). *)

From Stdlib Require Import Ascii String.
From stdpp Require Import base list gmap strings.
From Stdlib Require Import Lia.
From S2P Require Import Prelude Text Message Events Errors Replay Session History LoopDetection.
From S2P Require Import AgentSessions WriteLease SandboxPolicy Tools RuntimeState SubagentPlan.
From S2P Require Import SubagentState.

(* crates/types/src/event.rs, TaskStatus::from *)
Definition TaskStatus_from (s : AgentStatus) : TaskStatus :=
  match s with
  | AgentStatus_Queued => TaskStatus_Queued
  | AgentStatus_Running => TaskStatus_Running
  | AgentStatus_WaitingApproval => TaskStatus_WaitingApproval
  | AgentStatus_WaitingMessage => TaskStatus_WaitingMessage
  | AgentStatus_Completed => TaskStatus_Completed
  | AgentStatus_Failed => TaskStatus_Failed
  | AgentStatus_Cancelled => TaskStatus_Cancelled
  end.

Section SubagentWorker.
Context {J : SerdeJson} {H : SubagentHost} {P : ChildPayloads}.

(* crates/runtime/src/subagent_impl.rs, ChildAgentWorker *)
Record ChildAgentWorker := mkChildAgentWorker {
  cw_parent : SubagentParentContext;
  cw_handle : AgentHandle;
  cw_task : AgentTaskSpec;
  cw_runtime : ChildRuntime;
  cw_mailbox_rx : nat;
  cw_start_mode : ChildStartMode
}.

Definition cw_agent_id (w : ChildAgentWorker) : AgentId := AgentHandle_agent_id (cw_handle w).

Definition with_handle (w : ChildAgentWorker) (h : AgentHandle) : ChildAgentWorker :=
  mkChildAgentWorker (cw_parent w) h (cw_task w) (cw_runtime w) (cw_mailbox_rx w) (cw_start_mode w).

(* crates/runtime/src/subagent_impl.rs, MailboxOutcome *)
Inductive MailboxOutcome :=
| Mailbox_Continue (messages : list Message)
| Mailbox_Cancel (reason : option string)
| Mailbox_Finish.

(** A new status for the agent, and the events that report it. *)
Definition change_status (w : ChildAgentWorker) (status : AgentStatus)
    (events : ChildAgentWorker -> X (list SessionEventKind)) : X (result ChildAgentWorker RuntimeError) :=
  h <-! with_manager (fun m => update_status m (cw_agent_id w) status);
  let w := with_handle w h in
  es ← events w;
  _ <-! store_parent_events (cw_parent w) es;
  mret (Ok w).

(* crates/runtime/src/subagent_impl.rs, ChildAgentWorker::start *)
Definition worker_start (w : ChildAgentWorker) (status : AgentStatus)
    : X (result ChildAgentWorker RuntimeError) :=
  change_status w status (fun w =>
    changed ← new_envelope (cw_handle w) (EnvelopeKind_StatusChanged status);
    started ← new_envelope (cw_handle w) (EnvelopeKind_Started (cw_task w));
    mret [Ev_SubagentStart (cw_handle w) (cw_task w); changed; started]).

(* crates/runtime/src/subagent_impl.rs, ChildAgentWorker::transition_status *)
Definition transition_status (w : ChildAgentWorker) (status : AgentStatus)
    : X (result ChildAgentWorker RuntimeError) :=
  change_status w status (fun w =>
    changed ← new_envelope (cw_handle w) (EnvelopeKind_StatusChanged status);
    mret [changed]).

(* crates/runtime/src/subagent_impl.rs, ChildAgentWorker::run_input *)
Definition run_input (w : ChildAgentWorker) (message : Message) : X (result string RuntimeError) :=
  xworld (sw_run_user_message (cw_runtime w) (AgentTaskSpec_timeout_seconds (cw_task w)) message).

(** The messages up to the first cancellation. *)
(* crates/runtime/src/subagent_impl.rs, ChildAgentWorker::consume_mailbox *)
Fixpoint drain_mailbox (queue : list AgentControlMessage) (queued_messages : list Message)
    : MailboxOutcome * list AgentControlMessage :=
  match queue with
  | Control_Input message :: rest => drain_mailbox rest (queued_messages ++ [message])
  | Control_Cancel reason :: rest => (Mailbox_Cancel reason, rest)
  | [] => (if is_nil queued_messages then Mailbox_Finish else Mailbox_Continue queued_messages, [])
  end.

Definition queued (w : ChildAgentWorker) : X (list AgentControlMessage) :=
  boxes ← xget x_mailboxes; mret (default [] (boxes !! cw_mailbox_rx w)).

Definition set_queue (w : ChildAgentWorker) (queue : list AgentControlMessage) : X unit :=
  boxes ← xget x_mailboxes; xset (set_mailboxes (<[cw_mailbox_rx w := queue]> boxes)).

(** What arrives while the worker is busy. *)
Definition deliver (w : ChildAgentWorker) (arrived : list AgentControlMessage) : X unit :=
  queue ← queued w; set_queue w (queue ++ arrived).

(* crates/runtime/src/subagent_impl.rs, ChildAgentWorker::consume_mailbox *)
Definition consume_mailbox (w : ChildAgentWorker) : X MailboxOutcome :=
  queue ← queued w;
  let '(outcome, rest) := drain_mailbox queue [] in
  _ ← set_queue w rest;
  mret outcome.

(** What a receiver that waits on an empty mailbox gets: the next message that is sent, or
    that the last sender is gone. *)
Inductive Awaited := Awaited_Message (message : AgentControlMessage) | Awaited_Closed.

(** What [recv] returns: the first message of the queue; when there is none, what the worker gets
    while it waits; nothing when nothing is ever sent and the mailbox stays open. *)
Definition mailbox_recv (w : ChildAgentWorker) (awaited : option Awaited) : X (option Awaited) :=
  queue ← queued w;
  match queue with
  | message :: rest => _ ← set_queue w rest; mret (Some (Awaited_Message message))
  | [] => mret awaited
  end.

(** [None] when the worker goes on waiting. *)
(* crates/runtime/src/subagent_impl.rs, ChildAgentWorker::wait_for_resume_message *)
Definition wait_for_resume_message (w : ChildAgentWorker) (awaited : option Awaited) : X (option MailboxOutcome) :=
  received ← mailbox_recv w awaited;
  mret (match received with
        | None => None
        | Some (Awaited_Message (Control_Input message)) => Some (Mailbox_Continue [message])
        | Some (Awaited_Message (Control_Cancel reason)) => Some (Mailbox_Cancel reason)
        | Some Awaited_Closed => Some Mailbox_Finish
        end).

(* crates/runtime/src/subagent_impl.rs, ChildAgentWorker::release_child_worktree *)
Definition worker_release_worktree (w : ChildAgentWorker) : X unit :=
  match AgentHandle_worktree_id (cw_handle w), par_session_id (cw_parent w),
        par_agent_session_id (cw_parent w) with
  | Some worktree_id, Some _, Some _ =>
      if sw_has_worktree_manager then
        _ ← xworld (sw_release_child_worktree
                      (child_worktree_runtime (cw_parent w) (AgentTaskSpec_task_id (cw_task w)))
                      worktree_id);
        mret tt
      else mret tt
  | _, _, _ => mret tt
  end.

(** How the three ends of a worker go on once the record is terminal: the events are
    stored (an error is ignored), the worktree and the leases are released, and the
    session of the child ends. *)
(* crates/runtime/src/subagent_impl.rs, ChildAgentWorker::finish_success@let _ = self.append_parent_events *)
Definition close_worker (w : ChildAgentWorker) (events : list SessionEventKind)
    (reason : option string) : X unit :=
  _ ← store_parent_events (cw_parent w) events;
  _ ← worker_release_worktree w;
  _ ← release_leases (cw_agent_id w);
  xset (fun s => set_world (sw_end_session (cw_runtime w) reason (x_world s)) s).

(* crates/runtime/src/subagent_impl.rs, ChildAgentWorker::finish_success *)
Definition finish_success (w : ChildAgentWorker) (assistant_text : string) : X unit :=
  files ← leased_paths (cw_agent_id w);
  let res := normalize_child_result (cw_agent_id w) (cw_task w) assistant_text files in
  let status := AgentResultEnvelope_status res in
  finished ← with_manager (fun m => finish m (cw_agent_id w) status (Some res) None);
  match finished with
  | Err _ => mret tt
  | Ok h =>
      changed ← new_envelope (cw_handle w) (EnvelopeKind_StatusChanged status);
      artifacts ← new_envelopes (cw_handle w)
                    (map EnvelopeKind_Artifact (AgentResultEnvelope_artifacts res));
      result ← new_envelope (cw_handle w) (EnvelopeKind_Result res);
      close_worker w
        ([changed] ++ artifacts
         ++ [result; Ev_TaskCompleted (AgentTaskSpec_task_id (cw_task w)) (AgentHandle_agent_id h)
                       (TaskStatus_from status);
             Ev_SubagentStop h (Some res) None])
        (Some "completed")
  end.

(* crates/runtime/src/subagent_impl.rs, ChildAgentWorker::finish_cancel *)
Definition finish_cancel (w : ChildAgentWorker) (reason : option string) : X unit :=
  files ← leased_paths (cw_agent_id w);
  let res := plain_result (cw_handle w) (cw_task w) AgentStatus_Cancelled
               (default "child agent cancelled" reason) "" files in
  finished ← with_manager (fun m => finish m (cw_agent_id w) AgentStatus_Cancelled (Some res) reason);
  match finished with
  | Err _ => mret tt
  | Ok h =>
      changed ← new_envelope (cw_handle w) (EnvelopeKind_StatusChanged AgentStatus_Cancelled);
      cancelled ← new_envelope (cw_handle w) (EnvelopeKind_Cancelled reason);
      close_worker w
        [changed; cancelled;
         Ev_TaskCompleted (AgentTaskSpec_task_id (cw_task w)) (AgentHandle_agent_id h)
           TaskStatus_Cancelled;
         Ev_SubagentStop h (Some res) reason]
        reason
  end.

(* crates/runtime/src/subagent_impl.rs, ChildAgentWorker::fail *)
Definition worker_fail (w : ChildAgentWorker) (error : string) : X unit :=
  files ← leased_paths (cw_agent_id w);
  let res := plain_result (cw_handle w) (cw_task w) AgentStatus_Failed (summarize_output error)
               error files in
  finished ← with_manager (fun m => finish m (cw_agent_id w) AgentStatus_Failed (Some res) (Some error));
  match finished with
  | Err _ => mret tt
  | Ok h =>
      changed ← new_envelope (cw_handle w) (EnvelopeKind_StatusChanged AgentStatus_Failed);
      failed ← new_envelope (cw_handle w) (EnvelopeKind_Failed error);
      close_worker w
        [changed; failed;
         Ev_TaskCompleted (AgentTaskSpec_task_id (cw_task w)) (AgentHandle_agent_id h)
           TaskStatus_Failed;
         Ev_SubagentStop h (Some res) (Some error)]
        (Some "failed")
  end.

(** The loop over the inputs, with the inputs run so far; [None] when the fuel runs
    out. *)
(* crates/runtime/src/subagent_impl.rs, ChildAgentWorker::run@while let Some(message) *)
Fixpoint worker_loop (fuel : nat) (w : ChildAgentWorker) (arrivals : list (list AgentControlMessage))
    (next_inputs : list Message) (ran : list Message) : X (option (list Message)) :=
  match next_inputs, fuel with
  | [], _ => mret (Some ran)
  | _, O => mret None
  | message :: next_inputs, S fuel =>
      outcome ← run_input w message;
      match outcome with
      | Err error => _ ← worker_fail w (RuntimeError_display error); mret (Some (ran ++ [message]))
      | Ok assistant_text =>
          _ ← deliver w (default [] (head arrivals));
          mail ← consume_mailbox w;
          match mail with
          | Mailbox_Continue messages =>
              worker_loop fuel w (tail arrivals) (next_inputs ++ messages) (ran ++ [message])
          | Mailbox_Cancel reason => _ ← finish_cancel w reason; mret (Some (ran ++ [message]))
          | Mailbox_Finish => _ ← finish_success w assistant_text; mret (Some (ran ++ [message]))
          end
      end
  end.

(** How a worker gets to its loop: with inputs to run, not at all because it has ended, or not yet
    because it waits for a message. *)
Inductive WorkerInputs := Inputs_Run (w : ChildAgentWorker) (inputs : list Message) | Inputs_Ended | Inputs_Waiting.

(** Up to the loop. *)
(* crates/runtime/src/subagent_impl.rs, ChildAgentWorker::run@let mut next_inputs ~~ while let Some(message) *)
Definition worker_inputs (w : ChildAgentWorker) (awaited : option Awaited) : X WorkerInputs :=
  match cw_start_mode w with
  | Start_RunInput message apply_initial_steer =>
      match apply_initial_steer, AgentTaskSpec_steer (cw_task w) with
      | true, Some steer =>
          steered ← xworld (sw_steer (cw_runtime w) steer
                              (Some ("subagent:" +:+ AgentTaskSpec_task_id (cw_task w) +:+ ":initial")));
          match steered with
          | Ok _ => mret (Inputs_Run w [message])
          | Err error => _ ← worker_fail w (RuntimeError_display error); mret Inputs_Ended
          end
      | _, _ => mret (Inputs_Run w [message])
      end
  | Start_AwaitMessage =>
      mail ← wait_for_resume_message w awaited;
      match mail with
      | None => mret Inputs_Waiting
      | Some (Mailbox_Continue messages) =>
          moved ← transition_status w AgentStatus_Running;
          match moved with
          | Ok w => mret (Inputs_Run w messages)
          | Err _ => mret Inputs_Ended
          end
      | Some (Mailbox_Cancel reason) => _ ← finish_cancel w reason; mret Inputs_Ended
      | Some Mailbox_Finish => _ ← finish_cancel w (Some "child agent mailbox closed"); mret Inputs_Ended
      end
  end.

(* crates/runtime/src/subagent_impl.rs, ChildAgentWorker::run@let start_mode ~~ let mut next_inputs *)
Definition initial_status (w : ChildAgentWorker) : AgentStatus :=
  match cw_start_mode w with
  | Start_RunInput _ _ => AgentStatus_Running
  | Start_AwaitMessage => AgentStatus_WaitingMessage
  end.

(** Where a worker is: at its end, with the inputs it ran; waiting for its first message; or in the
    loop, where the fuel ran out. *)
Inductive WorkerRun := Run_Ended (ran : list Message) | Run_Waiting | Run_OutOfFuel.

(* crates/runtime/src/subagent_impl.rs, ChildAgentWorker::run *)
Definition worker_run (fuel : nat) (w : ChildAgentWorker) (awaited : option Awaited)
    (arrivals : list (list AgentControlMessage)) : X WorkerRun :=
  started ← worker_start w (initial_status w);
  match started with
  | Err _ => mret (Run_Ended [])
  | Ok w =>
      inputs ← worker_inputs w awaited;
      match inputs with
      | Inputs_Ended => mret (Run_Ended [])
      | Inputs_Waiting => mret Run_Waiting
      | Inputs_Run w next_inputs =>
          ran ← worker_loop fuel w arrivals next_inputs [];
          mret (match ran with Some ran => Run_Ended ran | None => Run_OutOfFuel end)
      end
  end.

End SubagentWorker.
