(* ===== verification/SubagentWorkerProps.v ===== *)
(** * Child workers: properties

    A worker whose events can be stored ends, with a terminal record that has a result and
    without write leases, unless it starts without an input and never gets a message.  Two defects of the code are shown on the model:
    a worker whose first events cannot be stored ends silently with a record that is
    not terminal, and inputs that were queued together are lost but for the first. *)

From Stdlib Require Import Ascii String.
From stdpp Require Import base list gmap strings.
From Stdlib Require Import Lia.
From S2P Require Import Prelude Text Message Events Errors Replay Session History LoopDetection.
From S2P Require Import AgentSessions WriteLease SandboxPolicy Tools RuntimeState SubagentPlan.
From S2P Require Import SubagentState SubagentWorker.

Section WorkerProps.
Context {J : SerdeJson} {H : SubagentHost} {P : ChildPayloads}.

(** ** What a step leaves alone *)

(** Everything but the world is as it was. *)
Record world_only (s s' : XState) : Prop := {
  wo_sessions : x_sessions s' = x_sessions s;
  wo_leases : x_leases s' = x_leases s;
  wo_resumable : x_resumable s' = x_resumable s;
  wo_mailboxes : x_mailboxes s' = x_mailboxes s;
  wo_workers : x_workers s' = x_workers s
}.

#[global] Instance world_only_preorder : PreOrder world_only.
Proof. split; [by split|]. intros a b c [] []. split; congruence. Qed.

Definition quietly {A} (m : X A) : Prop := forall s, world_only s (m s).2.

Lemma xquiet_ret {A} (a : A) : quietly (mret a).
Proof. by intros s. Qed.

Lemma xquiet_bind {A B} (m : X A) (k : A -> X B) :
  quietly m -> (forall a, quietly (k a)) -> quietly (a ← m; k a).
Proof.
  intros Hm Hk s. unfold mbind, X_bind. specialize (Hm s). destruct (m s) as [a s1].
  etransitivity; [exact Hm | apply Hk].
Qed.

Lemma xquiet_world {A} (f : SWorld -> A * SWorld) : quietly (xworld f).
Proof. intros s. unfold xworld. destruct (f (x_world s)). by split. Qed.

Lemma xquiet_try {A B E} (m : X (result A E)) (k : A -> X (result B E)) :
  quietly m -> (forall a, quietly (k a)) -> quietly (xtry m k).
Proof. intros Hm Hk. apply xquiet_bind; [done|]. intros [a|e]; [done | apply xquiet_ret]. Qed.

Create HintDb quiet.
Hint Resolve xquiet_ret xquiet_bind xquiet_world xquiet_try : quiet.

Lemma xquiet_envelope h kind : quietly (new_envelope h kind).
Proof. unfold new_envelope, new_id, now_ms. auto with quiet. Qed.
Hint Resolve xquiet_envelope : quiet.

Lemma xquiet_envelopes h kinds : quietly (new_envelopes h kinds).
Proof. induction kinds; simpl; auto with quiet. Qed.
Hint Resolve xquiet_envelopes : quiet.

Lemma xquiet_stamp sid aid tid events : quietly (stamp_events sid aid tid events).
Proof. unfold new_id, now_ms. induction events; simpl; unfold new_id, now_ms; auto with quiet. Qed.
Hint Resolve xquiet_stamp : quiet.

Lemma xquiet_store parent events : quietly (store_parent_events parent events).
Proof. unfold store_parent_events, store_batch. repeat case_match; auto with quiet. Qed.
Hint Resolve xquiet_store : quiet.

Lemma xquiet_worker_worktree w : quietly (worker_release_worktree w).
Proof. unfold worker_release_worktree. repeat case_match; auto with quiet. Qed.
Hint Resolve xquiet_worker_worktree : quiet.

(** ** How a worker ends *)

Definition agent_known (agent_id : AgentId) (s : XState) : Prop :=
  exists r, am_records (x_sessions s) !! agent_id = Some r
    /\ AgentHandle_agent_id (ar_handle r) = agent_id.

(** The record is terminal and has a result, and the agent holds no lease. *)
Definition ended (agent_id : AgentId) (s : XState) : Prop :=
  (exists r res, am_records (x_sessions s) !! agent_id = Some r
     /\ terminal (ar_handle r) = true /\ ar_result r = Some res)
  /\ claimed_paths (x_leases s) agent_id = [].

Lemma claimed_after_release l agent_id : claimed_paths (release l agent_id) agent_id = [].
Proof.
  unfold claimed_paths, release, index_claimed_paths, index_release, paths_of.
  destruct (owners l !! agent_id) eqn:E; simpl; [by rewrite lookup_delete_eq | by rewrite E].
Qed.

(** A continuation that keeps the records and releases the leases of the worker. *)
Definition closes (w : ChildAgentWorker) (k : X unit) : Prop :=
  forall s, x_sessions (k s).2 = x_sessions s
    /\ x_leases (k s).2 = release (x_leases s) (cw_agent_id w).

Lemma closes_bind {A} w (m : X A) k :
  quietly m -> (forall a, closes w (k a)) -> closes w (a ← m; k a).
Proof.
  intros Hm Hk s. unfold mbind, X_bind. specialize (Hm s). destruct (m s) as [a s1].
  destruct Hm as [Hs Hl _ _ _]. simpl in *. destruct (Hk a s1) as [Hs1 Hl1].
  by rewrite Hs1, Hl1, Hs, Hl.
Qed.

Lemma close_worker_closes w events reason : closes w (close_worker w events reason).
Proof. unfold close_worker. do 2 (apply closes_bind; [auto with quiet | intros ?]). by intros s. Qed.

Lemma finish_known m agent_id r status res error :
  am_records m !! agent_id = Some r -> status_is_terminal status = true ->
  exists h m' r', finish m agent_id status (Some res) error = Ok (h, m')
    /\ am_records m' !! agent_id = Some r'
    /\ terminal (ar_handle r') = true /\ ar_result r' = Some res.
Proof.
  intros Hr Hs. unfold finish, finish_locked, notified, record. rewrite Hs, Hr. cbn [negb result_bind].
  do 3 eexists. split; [reflexivity|]. simpl. split; [by rewrite lookup_insert_eq|]. done.
Qed.

(** What the three ends have in common. *)
Lemma end_with w s status res error (k : AgentHandle -> X unit) :
  agent_known (cw_agent_id w) s -> status_is_terminal status = true -> (forall h, closes w (k h)) ->
  ended (cw_agent_id w)
    ((finished ← with_manager (fun m => finish m (cw_agent_id w) status (Some res) error);
      match finished with Err _ => mret tt | Ok h => k h end) s).2.
Proof.
  intros (r & Hr & _) Hst Hk.
  destruct (finish_known _ _ _ _ res error Hr Hst) as (h & m' & r' & Hf & Hr' & Ht & Hres).
  unfold with_manager, mbind, X_bind, xget, xset, mret, X_ret. simpl. rewrite Hf.
  destruct (Hk h (set_sessions m' s)) as [Hs Hl].
  split; [|rewrite Hl; apply claimed_after_release]. exists r', res. by rewrite Hs.
Qed.

Lemma normalized_terminal agent_id t text files :
  status_is_terminal (AgentResultEnvelope_status (normalize_child_result agent_id t text files)) = true.
Proof.
  unfold normalize_child_result. destruct (parse_child_payload _) as [p|]; [|done]. simpl.
  unfold normalize_terminal_result_status.
  destruct (status_is_terminal (match scp_status p with Some v => _ | None => _ end)) eqn:E; done.
Qed.

Ltac close_steps :=
  repeat first [apply close_worker_closes | apply closes_bind; [auto with quiet | intros ?]].

Lemma finish_success_ends w text s :
  agent_known (cw_agent_id w) s -> ended (cw_agent_id w) (finish_success w text s).2.
Proof.
  intros Hk. unfold finish_success. apply end_with; [done | apply normalized_terminal|]. intros h.
  close_steps.
Qed.

Lemma finish_cancel_ends w reason s :
  agent_known (cw_agent_id w) s -> ended (cw_agent_id w) (finish_cancel w reason s).2.
Proof.
  intros Hk. unfold finish_cancel. apply end_with; [done | done|]. intros h.
  close_steps.
Qed.

Lemma worker_fail_ends w error s :
  agent_known (cw_agent_id w) s -> ended (cw_agent_id w) (worker_fail w error s).2.
Proof.
  intros Hk. unfold worker_fail. apply end_with; [done | done|]. intros h.
  close_steps.
Qed.

(** From [s] to [s'] the record got the status of an agent that waits for a message, and nothing else. *)
Definition waiting_from (agent_id : AgentId) (s s' : XState) : Prop :=
  (exists r r', am_records (x_sessions s) !! agent_id = Some r /\ am_records (x_sessions s') !! agent_id = Some r'
     /\ AgentHandle_status (ar_handle r') = AgentStatus_WaitingMessage /\ ar_result r' = ar_result r)
  /\ x_leases s' = x_leases s.

(** ** The loop *)

Definition queue_of (w : ChildAgentWorker) (s : XState) : list AgentControlMessage :=
  default [] (x_mailboxes s !! cw_mailbox_rx w).

(** A step that keeps the records: turns and mailbox operations. *)
Lemma known_same_sessions agent_id s s' :
  x_sessions s' = x_sessions s -> agent_known agent_id s -> agent_known agent_id s'.
Proof. intros He. unfold agent_known. by rewrite He. Qed.

Lemma run_input_quiet w message s : world_only s (run_input w message s).2.
Proof. apply xquiet_world. Qed.

(** What the mailbox holds after a turn, and what the worker makes of it. *)
Lemma mailbox_after_turn w arrived s :
  let '(outcome, rest) := drain_mailbox (queue_of w s ++ arrived) [] in
  exists s', ((_ ← deliver w arrived; consume_mailbox w) s) = (outcome, s')
    /\ x_sessions s' = x_sessions s /\ x_leases s' = x_leases s /\ queue_of w s' = rest.
Proof.
  destruct (drain_mailbox (queue_of w s ++ arrived) []) as [outcome rest] eqn:E.
  unfold deliver, consume_mailbox, queued, set_queue, mbind, X_bind, mret, X_ret, xget, xset. simpl.
  rewrite lookup_insert_eq. simpl. unfold queue_of in E. rewrite E. eexists. split; [reflexivity|].
  unfold queue_of. simpl. by rewrite lookup_insert_eq.
Qed.

Lemma drain_continue queue acc messages rest :
  drain_mailbox queue acc = (Mailbox_Continue messages, rest) ->
  rest = [] /\ messages <> [] /\ (acc = [] -> queue <> []).
Proof.
  revert acc. induction queue as [|[m|r] queue IH]; intros acc; simpl.
  - destruct (is_nil acc) eqn:E; [done|]. intros [= <- <-]. split; [done|]. split; by intros ->.
  - intros (Hr & Hm & _)%IH. done.
  - done.
Qed.

Lemma worker_loop_ends fuel w arrivals inputs ran s :
  inputs <> [] -> agent_known (cw_agent_id w) s ->
  (length arrivals + (if is_nil (queue_of w s) then 0 else 1) < fuel)%nat ->
  let '(r, s') := worker_loop fuel w arrivals inputs ran s in
  is_Some r /\ ended (cw_agent_id w) s'.
Proof.
  revert arrivals inputs ran s.
  induction fuel as [|fuel IH]; intros arrivals inputs ran s Hin Hk Hf; [lia|].
  destruct inputs as [|message inputs]; [done|]. cbn [worker_loop].
  unfold mbind at 1, X_bind at 1. pose proof (run_input_quiet w message s) as Hq.
  destruct (run_input w message s) as [[text|error] s1]; simpl in Hq.
  2: { assert (Hk1 := known_same_sessions _ _ _ (wo_sessions _ _ Hq) Hk).
       pose proof (worker_fail_ends w (RuntimeError_display error) s1 Hk1) as He.
       unfold mbind, X_bind, mret, X_ret. destruct (worker_fail w _ s1). by eauto. }
  pose proof (mailbox_after_turn w (default [] (head arrivals)) s1) as Hm.
  assert (Hq1 : queue_of w s1 = queue_of w s) by (unfold queue_of; by rewrite (wo_mailboxes _ _ Hq)).
  destruct (drain_mailbox _ []) as [outcome rest] eqn:Ed.
  destruct Hm as (s2 & Hm & Hs2 & _ & Hq2).
  assert (Hk2 : agent_known (cw_agent_id w) s2)
    by (apply (known_same_sessions _ s1); [done|]; by apply (known_same_sessions _ s); [apply Hq|]).
  assert (Hstep : forall (k : MailboxOutcome -> X (option (list Message))),
    (_ ← deliver w (default [] (head arrivals)); mail ← consume_mailbox w; k mail) s1 = k outcome s2).
  { intros k. unfold mbind, X_bind in *. destruct (deliver w _ s1) as [u s3].
    destruct (consume_mailbox w s3) as [o s4]. by injection Hm as -> ->. }
  rewrite Hstep. destruct outcome as [messages|reason|].
  - apply drain_continue in Ed as (-> & Hmsg & Hne). specialize (Hne eq_refl). apply IH; [|done|].
    + destruct inputs; [done | discriminate].
    + rewrite Hq2. simpl. rewrite Hq1 in Hne.
      destruct arrivals as [|a arrivals]; simpl in *; [|lia].
      rewrite app_nil_r in Hne. destruct (queue_of w s); [done|]. simpl in Hf. lia.
  - pose proof (finish_cancel_ends w reason s2 Hk2) as He. unfold mbind, X_bind, mret, X_ret.
    destruct (finish_cancel w reason s2). by eauto.
  - pose proof (finish_success_ends w text s2 Hk2) as He. unfold mbind, X_bind, mret, X_ret.
    destruct (finish_success w text s2). by eauto.
Qed.

(** ** A whole run *)

Lemma status_update w status s :
  agent_known (cw_agent_id w) s ->
  let '(r, s') := with_manager (fun m => update_status m (cw_agent_id w) status) s in
  exists h, r = Ok h /\ AgentHandle_agent_id h = cw_agent_id w /\ AgentHandle_status h = status
    /\ x_leases s' = x_leases s /\ agent_known (cw_agent_id w) s'
    /\ (exists r0 r', am_records (x_sessions s) !! cw_agent_id w = Some r0
         /\ am_records (x_sessions s') !! cw_agent_id w = Some r'
         /\ ar_handle r' = h /\ ar_result r' = ar_result r0).
Proof.
  intros (r & Hr & Hid). unfold with_manager, mbind, X_bind, xget, xset, mret, X_ret. simpl.
  unfold update_status, update_status_locked, notified, record. rewrite Hr. cbn [result_bind]. simpl.
  eexists. split; [reflexivity|]. simpl. split; [done|]. split; [done|]. split; [done|].
  unfold agent_known. simpl. rewrite lookup_insert_eq. split; eauto 10.
Qed.

Lemma store_parent_events_ok parent events s :
  (forall es w, (sw_append_batch es w).1 = Ok tt) -> (store_parent_events parent events s).1 = Ok tt.
Proof.
  intros Hok. unfold store_parent_events. destruct (par_session_id parent), (par_agent_session_id parent);
    try done.
  unfold store_batch, mbind, X_bind, xworld. destruct (stamp_events _ _ _ _ s) as [es t].
  specialize (Hok es (x_world t)). destruct (sw_append_batch es (x_world t)) as [r w']. simpl in *.
  by rewrite Hok.
Qed.

(** A status change with its events: the record has the new status, the leases are kept. *)
Lemma status_step w status (envelopes : ChildAgentWorker -> X (list SessionEventKind)) s :
  (forall w', quietly (envelopes w')) -> agent_known (cw_agent_id w) s ->
  let '(r, s') := change_status w status envelopes s in
  agent_known (cw_agent_id w) s' /\ x_leases s' = x_leases s
  /\ (exists r0 r', am_records (x_sessions s) !! cw_agent_id w = Some r0
       /\ am_records (x_sessions s') !! cw_agent_id w = Some r'
       /\ AgentHandle_status (ar_handle r') = status /\ ar_result r' = ar_result r0)
  /\ ((forall es w, (sw_append_batch es w).1 = Ok tt) ->
       exists w', r = Ok w' /\ cw_agent_id w' = cw_agent_id w /\ cw_mailbox_rx w' = cw_mailbox_rx w
         /\ cw_start_mode w' = cw_start_mode w)
  /\ (is_Some (par_session_id (cw_parent w)) -> is_Some (par_agent_session_id (cw_parent w)) ->
       (forall es w, exists e, (sw_append_batch es w).1 = Err e) -> exists e, r = Err e).
Proof.
  intros Hq Hk. unfold change_status, xtry, mbind, X_bind.
  pose proof (status_update w status s Hk) as Hu.
  destruct (with_manager _ s) as [rh s1]. destruct Hu as (h & -> & Hid & Hst & Hl & Hk1 & Hrec).
  pose proof (Hq (with_handle w h) s1) as Hq1. destruct (envelopes (with_handle w h) s1) as [events s2].
  simpl in Hq1. pose proof (xquiet_store (cw_parent w) events s2) as Hq2.
  pose proof (store_parent_events_ok (cw_parent w) events s2) as Hok.
  assert (Herr : is_Some (par_session_id (cw_parent w)) -> is_Some (par_agent_session_id (cw_parent w)) ->
       (forall es w, exists e, (sw_append_batch es w).1 = Err e) ->
       exists e, (store_parent_events (cw_parent w) events s2).1 = Err e).
  { intros [sid Hsid] [aid Haid] Hbad. unfold store_parent_events. rewrite Hsid, Haid.
    unfold store_batch, mbind, X_bind, xworld. destruct (stamp_events _ _ _ _ s2) as [es s3].
    destruct (Hbad es (x_world s3)) as [e He]. destruct (sw_append_batch es (x_world s3)) as [r w'].
    simpl in *. rewrite He. eauto. }
  change (cw_parent (with_handle w h)) with (cw_parent w).
  destruct (store_parent_events (cw_parent w) events s2) as [rs s3]. simpl in *.
  assert (Hw : world_only s1 s3) by (by etransitivity).
  assert (Hfields : agent_known (cw_agent_id w) s3 /\ x_leases s3 = x_leases s
    /\ (exists r0 r', am_records (x_sessions s) !! cw_agent_id w = Some r0
       /\ am_records (x_sessions s3) !! cw_agent_id w = Some r'
       /\ AgentHandle_status (ar_handle r') = status /\ ar_result r' = ar_result r0)).
  { split; [by apply (known_same_sessions _ s1); [apply Hw|]|]. split; [rewrite (wo_leases _ _ Hw); done|].
    destruct Hrec as (r0 & r' & Hr0 & Hr' & Hh & Hres). exists r0, r'. rewrite (wo_sessions _ _ Hw).
    subst h. done. }
  destruct rs as [[]|e]; unfold mret, X_ret; simpl;
    (destruct Hfields as (Hf1 & Hf2 & Hf3); do 3 (split; [done|])); split.
  - intros _. exists (with_handle w h). done.
  - intros H1 H2 Hbad. destruct (Herr H1 H2 Hbad). discriminate.
  - intros Hgood. specialize (Hok Hgood). discriminate.
  - intros _ _ _. eauto.
Qed.

Lemma start_step w status s :
  agent_known (cw_agent_id w) s ->
  let '(r, s') := worker_start w status s in
  agent_known (cw_agent_id w) s' /\ x_leases s' = x_leases s
  /\ (exists r0 r', am_records (x_sessions s) !! cw_agent_id w = Some r0
       /\ am_records (x_sessions s') !! cw_agent_id w = Some r'
       /\ AgentHandle_status (ar_handle r') = status /\ ar_result r' = ar_result r0)
  /\ ((forall es w, (sw_append_batch es w).1 = Ok tt) ->
       exists w', r = Ok w' /\ cw_agent_id w' = cw_agent_id w /\ cw_mailbox_rx w' = cw_mailbox_rx w
         /\ cw_start_mode w' = cw_start_mode w)
  /\ (is_Some (par_session_id (cw_parent w)) -> is_Some (par_agent_session_id (cw_parent w)) ->
       (forall es w, exists e, (sw_append_batch es w).1 = Err e) -> exists e, r = Err e).
Proof. intros Hk. apply status_step; [auto with quiet | done]. Qed.

(** A status change leaves the mailboxes alone. *)
Lemma change_status_queue w status (envelopes : ChildAgentWorker -> X (list SessionEventKind)) s :
  (forall w', quietly (envelopes w')) -> x_mailboxes (change_status w status envelopes s).2 = x_mailboxes s.
Proof.
  intros Hq. unfold change_status, xtry. unfold mbind at 1, X_bind at 1.
  assert (Hm : x_mailboxes (with_manager (fun m => update_status m (cw_agent_id w) status) s).2 = x_mailboxes s).
  { unfold with_manager, mbind, X_bind, xget, xset, mret, X_ret. by destruct (update_status _ _ _) as [[]|]. }
  destruct (with_manager _ s) as [[h|e] s1]; simpl in Hm; [|done]. rewrite <- Hm.
  apply (wo_mailboxes _ _ (xquiet_bind _ _ (Hq _) (fun es => xquiet_try _ _ (xquiet_store _ es) (fun _ => xquiet_ret _)) s1)).
Qed.

(** Whether the worker gets something while it waits. *)
Definition stays_waiting (w : ChildAgentWorker) (awaited : option Awaited) (s : XState) : Prop :=
  cw_start_mode w = Start_AwaitMessage /\ queue_of w s = [] /\ awaited = None.

(** What the worker makes of the first thing it receives. *)
Lemma wait_received w awaited s :
  let '(o, s') := wait_for_resume_message w awaited s in
  x_sessions s' = x_sessions s /\ (o = None <-> queue_of w s = [] /\ awaited = None)
  /\ (o = None -> s' = s) /\ (forall l, o = Some (Mailbox_Continue l) -> l <> []).
Proof.
  unfold wait_for_resume_message, mailbox_recv, queued, set_queue, mbind, X_bind, xget, xset, mret, X_ret.
  unfold queue_of. simpl. destruct (default [] _) as [|[m|r] q]; simpl; [|naive_solver..].
  destruct awaited as [[[m|r]|]|]; naive_solver.
Qed.

(** Before the loop the worker has ended, has an input to run, or waits. *)
Lemma worker_inputs_end w awaited s :
  (forall events wd, (sw_append_batch events wd).1 = Ok tt) -> agent_known (cw_agent_id w) s ->
  let '(r, s') := worker_inputs w awaited s in
  (r = Inputs_Waiting <-> stays_waiting w awaited s)
  /\ match r with
     | Inputs_Run w' inputs => cw_agent_id w' = cw_agent_id w /\ inputs <> [] /\ agent_known (cw_agent_id w) s'
     | Inputs_Ended => ended (cw_agent_id w) s'
     | Inputs_Waiting => s' = s
     end.
Proof.
  intros Hok Hk. unfold worker_inputs, stays_waiting. destruct (cw_start_mode w) as [message steers|].
  - assert (Hno : forall r, r <> Inputs_Waiting ->
      (r = Inputs_Waiting <-> Start_RunInput message steers = Start_AwaitMessage /\ queue_of w s = [] /\ awaited = None))
      by naive_solver.
    destruct steers; [|by split; [apply Hno|]]. destruct (AgentTaskSpec_steer (cw_task w)) as [steer|]; [|by split; [apply Hno|]].
    unfold mbind at 1, X_bind at 1. match goal with |- context [xworld ?f s] =>
      pose proof (xquiet_world f s) as Hq; destruct (xworld f s) as [[u|error] s1] end; simpl in Hq.
    + split; [by apply Hno|]. split; [done|]. split; [done|]. by apply (known_same_sessions _ s); [apply Hq|].
    + assert (Hk1 := known_same_sessions _ _ _ (wo_sessions _ _ Hq) Hk).
      pose proof (worker_fail_ends w (RuntimeError_display error) s1 Hk1) as He.
      unfold mbind, X_bind, mret, X_ret. destruct (worker_fail w _ s1). by split; [apply Hno|].
  - unfold mbind at 1, X_bind at 1. pose proof (wait_received w awaited s) as Hwait.
    destruct (wait_for_resume_message w awaited s) as [o s1]. destruct Hwait as (Hs1 & Hn & Hsame & Hl).
    assert (Hk1 := known_same_sessions _ _ _ Hs1 Hk). destruct o as [[messages|reason|]|].
    + unfold mbind at 1, X_bind at 1. unfold transition_status.
      pose proof (status_step w AgentStatus_Running (fun w =>
        changed ← new_envelope (cw_handle w) (EnvelopeKind_StatusChanged AgentStatus_Running);
        mret [changed]) s1) as Ht.
      destruct (change_status w _ _ s1) as [r s2].
      destruct Ht as (Hk2 & _ & _ & Hgood & _); [auto with quiet | done|].
      destruct (Hgood Hok) as (w' & -> & Hid & _ & _). unfold mret, X_ret. split; [naive_solver | auto].
    + pose proof (finish_cancel_ends w reason s1 Hk1) as He.
      unfold mbind, X_bind, mret, X_ret. destruct (finish_cancel w _ s1). split; [naive_solver | done].
    + pose proof (finish_cancel_ends w (Some "child agent mailbox closed") s1 Hk1) as He.
      unfold mbind, X_bind, mret, X_ret. destruct (finish_cancel w _ s1). split; [naive_solver | done].
    + unfold mret, X_ret. split; [naive_solver | by apply Hsame].
Qed.


(** A worker whose first events cannot be stored ends silently: no input is run, the
    record keeps the status of a running agent and gets no result, and the leases are
    kept, so that whoever waits for the agent waits for ever. *)
Theorem worker_start_failure_is_silent fuel w awaited arrivals s :
  (forall events wd, exists e, (sw_append_batch events wd).1 = Err e) ->
  is_Some (par_session_id (cw_parent w)) -> is_Some (par_agent_session_id (cw_parent w)) ->
  agent_known (cw_agent_id w) s ->
  let '(ran, s') := worker_run fuel w awaited arrivals s in
  ran = Run_Ended [] /\ x_leases s' = x_leases s
  /\ exists r r', am_records (x_sessions s) !! cw_agent_id w = Some r
      /\ am_records (x_sessions s') !! cw_agent_id w = Some r'
      /\ terminal (ar_handle r') = false /\ ar_result r' = ar_result r.
Proof.
  intros Hbad H1 H2 Hk. unfold worker_run. unfold mbind at 1, X_bind at 1.
  pose proof (start_step w (initial_status w) s Hk) as Hstart.
  destruct (worker_start w (initial_status w) s) as [r s1].
  destruct Hstart as (_ & Hl & (r0 & r' & Hr0 & Hr' & Hst & Hres) & _ & Herr).
  destruct (Herr H1 H2 Hbad) as [e ->]. unfold mret, X_ret. split; [done|]. split; [done|].
  exists r0, r'. do 2 (split; [done|]). split; [|done]. unfold terminal. rewrite Hst.
  unfold initial_status. by destruct (cw_start_mode w).
Qed.

(** Inputs that are queued together are lost but for the first: when two messages
    arrive while a turn runs, the worker runs the first one and then finishes, because
    the mailbox is empty; the second message is never run. *)
Theorem queued_inputs_are_lost fuel w m0 m1 m2 s :
  (forall rt t m wd, exists text, (sw_run_user_message rt t m wd).1 = Ok text) ->
  queue_of w s = [] ->
  (worker_loop (2 + fuel) w [[Control_Input m1; Control_Input m2]] [m0] [] s).1 = Some [m0; m1].
Proof.
  intros Hrun Hq. cbn [worker_loop Nat.add].
  assert (Hstep : forall message s (k : result string RuntimeError -> X (option (list Message))),
    exists text s1, (outcome ← run_input w message; k outcome) s = k (Ok text) s1
      /\ queue_of w s1 = queue_of w s).
  { intros message t k. unfold mbind, X_bind. pose proof (run_input_quiet w message t) as Hw.
    unfold run_input, xworld in *. destruct (Hrun (cw_runtime w)
      (AgentTaskSpec_timeout_seconds (cw_task w)) message (x_world t)) as [text Ht].
    destruct (sw_run_user_message _ _ message (x_world t)) as [r wd]. simpl in *. subst r.
    exists text. eexists. split; [done|]. unfold queue_of. simpl. done. }
  assert (Hmail : forall arrived s (k : MailboxOutcome -> X (option (list Message))) o rest,
    drain_mailbox (queue_of w s ++ arrived) [] = (o, rest) ->
    exists s1, (_ ← deliver w arrived; mail ← consume_mailbox w; k mail) s = k o s1
      /\ queue_of w s1 = rest).
  { intros arrived t k o rest Hd. pose proof (mailbox_after_turn w arrived t) as Hm. rewrite Hd in Hm.
    destruct Hm as (s2 & Hm & _ & _ & Hr). exists s2. split; [|done]. unfold mbind, X_bind in *.
    destruct (deliver w arrived t) as [u s3]. destruct (consume_mailbox w s3) as [o' s4].
    by injection Hm as -> ->. }
  edestruct (Hstep m0 s) as (t0 & s1 & -> & Hq1). rewrite Hq in Hq1. cbv beta iota.
  edestruct (Hmail [Control_Input m1; Control_Input m2] s1) as (s2 & Heq & Hq2);
    [by rewrite Hq1|]. cbn [head default from_option]. rewrite Heq. cbv beta iota. cbn [app tail worker_loop is_nil].
  edestruct (Hstep m1 s2) as (t1 & s3 & -> & Hq3). rewrite Hq2 in Hq3. cbv beta iota.
  edestruct (Hmail [] s3) as (s4 & Heq2 & _); [by rewrite Hq3|].
  cbn [head default from_option]. rewrite Heq2. cbn [is_nil].
  unfold mbind, X_bind, mret, X_ret. by destruct (finish_success w t1 s4).
Qed.

End WorkerProps.

(** ** Concrete runs *)

#[local] Existing Instance json_text.

Section Concrete.

(** Every turn answers; [log] says whether events can be stored. *)
Definition answering_host (log : bool) : SubagentHost := {|
  SWorld := nat;
  sw_append_batch := fun _ n => (if log then Ok tt else Err (StoreErr_Io "disk full"), n);
  sw_events := fun _ _ => Ok [];
  sw_new_id := fun n => (fmt_nat n, S n);
  sw_now_ms := fun n => (N.of_nat n, n);
  sw_progress_sink := None;
  sw_has_worktree_manager := false;
  sw_create_child_worktree := fun _ _ n => (Err (ToolErr_InvalidState "none"), n);
  sw_release_child_worktree := fun _ _ n => (Ok None, n);
  sw_resolve_profile := fun _ n => (Err (RtErr_Io "none"), n);
  sw_lease_guard := fun _ _ => Ok tt;
  sw_prepare_runtime := fun _ n => (Ok tt, n);
  sw_steer := fun _ _ _ n => (Ok tt, n);
  sw_run_user_message := fun _ _ m n => (Ok ("answer to " +:+ text_content m), n);
  sw_end_session := fun _ _ n => n
|}.

#[local] Instance plain_children : ChildPayloads := {| parse_child_payload := fun _ => None |}.

Definition child_context : ToolExecutionContext :=
  mkToolExecutionContext ["/"; "work"] None None None [] [] [] [] None None true None None
    None None None None None None None None None None
    (mkToolVisibilityContext None None None ∅) None None None None None None.

Definition starting (start : ChildStartMode) : ChildAgentWorker :=
  mkChildAgentWorker (mkSubagentParentContext (Some "s") (Some "as") None None None None)
    (demo_handle "b" AgentStatus_Queued) (demo_task "b" [])
    (mkChildRuntime 0 ToolRegistry_new child_context 0 (mkCompactionConfig false 200 100 1)
       (mkLoopDetectionConfig true 24 3 4 10) [] [] 0 (RuntimeSession_new "s" "as"))
    2 start.
Definition demo_worker : ChildAgentWorker := starting (Start_RunInput (Message_user "m0" "go") true).

(** The agent [b] holds a lease. *)
Definition demo_xstate (log : bool) : @XState _ (answering_host log) :=
  @mkXState _ (answering_host log) demo_manager (claim WriteLeaseManager_new "b" [["/"; "x"]]).2 ∅ ∅ [] 3 0%nat.

Lemma demo_known log : @agent_known _ (answering_host log) "b" (demo_xstate log).
Proof. eexists. split; reflexivity. Qed.


Lemma worker_start_failure_is_silent_witness :
  let '(ran, s') := @worker_run _ (answering_host false) _ 4 demo_worker None [] (demo_xstate false) in
  ran = Run_Ended [] /\ x_leases s' = x_leases (demo_xstate false)
  /\ exists r r', am_records (x_sessions (demo_xstate false)) !! "b" = Some r
      /\ am_records (x_sessions s') !! "b" = Some r'
      /\ terminal (ar_handle r') = false /\ ar_result r' = ar_result r.
Proof.
  apply (@worker_start_failure_is_silent _ (answering_host false) _ 4 demo_worker None [] (demo_xstate false));
    [intros events wd; eexists; reflexivity | eexists; reflexivity | eexists; reflexivity
    | apply demo_known].
Defined.

Lemma queued_inputs_are_lost_witness :
  (@worker_loop _ (answering_host true) _ 5 demo_worker
     [[Control_Input (Message_user "m1" "one"); Control_Input (Message_user "m2" "two")]]
     [Message_user "m0" "go"] [] (demo_xstate true)).1
  = Some [Message_user "m0" "go"; Message_user "m1" "one"].
Proof.
  apply (@queued_inputs_are_lost _ (answering_host true) _ 3 demo_worker);
    [intros rt t m wd; eexists; reflexivity | reflexivity].
Defined.

End Concrete.
