(* ===== verification/SubagentExec.v ===== *)
(** * The subagent executor

    Models [RuntimeSubagentExecutor] of [crates/runtime/src/subagent_impl.rs]: spawning a
    batch, launching the children whose dependencies are done, and the operations of a
    parent on its children.  A spawned worker task is an entry of [x_workers]; what it
    does is [SubagentWorker]. *)

From Stdlib Require Import Ascii String.
From stdpp Require Import base list gmap sorting strings.
From Stdlib Require Import Lia.
From S2P Require Import Prelude Text Message Events Errors Replay Session History LoopDetection.
From S2P Require Import AgentSessions WriteLease SandboxPolicy Tools PathPolicy RuntimeState.
From S2P Require Import SubagentPlan SubagentState SubagentWorker.

Section SubagentExec.
Context {J : SerdeJson} {H : SubagentHost} {P : ChildPayloads} (cfg : XConfig).

(** A fallible step whose error is reported as text. *)
Definition as_tool {A} (m : X (result A RuntimeError)) : X (result A ToolError) :=
  r ← m; mret (as_tool_error r).

(** ** Sessions of children *)

(* crates/runtime/src/subagent_impl.rs, RuntimeSubagentExecutor::build_child_session *)
Definition build_child_session (parent : SubagentParentContext) (h : AgentHandle)
    (fork_context : bool) : X (result (RuntimeSession * bool) ToolError) :=
  if negb fork_context then
    mret (Ok (RuntimeSession_new (AgentHandle_session_id h) (AgentHandle_agent_session_id h), false))
  else
    match par_session_id parent, par_agent_session_id parent with
    | None, _ =>
        mret (Err (ToolErr_InvalidState
                     "spawn_agent fork_context requires the parent runtime session id"))
    | Some _, None =>
        mret (Err (ToolErr_InvalidState
                     "spawn_agent fork_context requires the parent agent session id"))
    | Some sid, Some aid =>
        wd ← xget x_world;
        parent_session <-! mret (as_tool_error (load_runtime_session (sw_events wd) sid aid));
        mret (Ok (fork_runtime_session parent_session (AgentHandle_session_id h)
                    (AgentHandle_agent_session_id h), true))
    end.

(** Ids and times of [n] events. *)
Fixpoint stamps (n : nat) : X (list (EventId * N)) :=
  match n with
  | O => mret []
  | S n => id ← new_id; now ← now_ms; more ← stamps n; mret ((id, now) :: more)
  end.

Definition stamp_at (l : list (EventId * N)) (n : nat) : EventId * N := default (EmptyString, 0%N) (l !! n).

(** A seed has an event for every message, and one for the summary. *)
(* crates/runtime/src/subagent_impl.rs, RuntimeSubagentExecutor::persist_child_session_seed *)
Definition persist_child_session_seed (session : RuntimeSession) : X (result unit ToolError) :=
  l ← stamps (S (length (ses_transcript session)));
  events <-! mret (as_tool_error (seed_runtime_session_events (stamp_at l) session));
  if is_nil events then mret (Ok tt)
  else
    r ← xworld (sw_append_batch events);
    mret (match r with
          | Ok _ => Ok tt
          | Err e => Err (ToolErr_InvalidState (SessionStoreError_display e))
          end).

(* crates/runtime/src/subagent_impl.rs, RuntimeSubagentExecutor::resolve_write_set *)
Definition resolve_write_set (files : list string) : result (list PathBuf) ToolError :=
  map_result (resolve_in (x_tool_context cfg)) files.

(** ** Launching *)

(* crates/runtime/src/subagent_impl.rs, RuntimeSubagentExecutor::build_child_runtime *)
Definition build_child_runtime (plan : ChildLaunchPlan) : ChildRuntime :=
  let profile := plan_profile plan in
  mkChildRuntime (prof_backend profile) (plan_tool_registry plan)
    (with_agent_scope_metadata (prof_tool_context profile) (AgentHandle_agent_id (plan_handle plan))
       (Some (AgentTaskSpec_role (plan_task plan))) (Some (AgentTaskSpec_task_id (plan_task plan)))
       sw_lease_guard)
    (prof_conversation_compactor profile) (prof_compaction_config profile)
    (x_loop_detection_config cfg) (prof_instructions profile) (prof_hooks profile)
    (prof_skill_catalog profile) (plan_session plan).

(** The worker of a plan. *)
Definition plan_worker (plan : ChildLaunchPlan) : ChildAgentWorker :=
  mkChildAgentWorker (plan_parent plan) (plan_handle plan) (plan_task plan)
    (build_child_runtime plan) (plan_mailbox_rx plan) (plan_start_mode plan).

(** The record is there: [attach_join_handle] is not refused. *)
(* crates/runtime/src/subagent_impl.rs, RuntimeSubagentExecutor::attach_child_worker *)
Definition attach_child_worker (plan : ChildLaunchPlan) : X unit :=
  j ← xget x_next;
  _ ← xset (set_next (S j));
  workers ← xget x_workers;
  _ ← xset (set_workers (workers ++ [(j, plan)]));
  m ← xget x_sessions;
  match attach_join_handle m (AgentHandle_agent_id (plan_handle plan)) j with
  | Ok m => xset (set_sessions m)
  | Err _ => mret tt
  end.

(** How [fail_blocked_child] and [fail_launch_child] report an agent that is finished
    with [result]; errors of the store are ignored. *)
(* crates/runtime/src/subagent_impl.rs, RuntimeSubagentExecutor::fail_launch_child@let released_agent_id *)
Definition report_failed_child (parent : SubagentParentContext) (h : AgentHandle) (t : AgentTaskSpec)
    (status : AgentStatus) (kind : option AgentEnvelopeKind) (res : AgentResultEnvelope)
    (summary : string) : X unit :=
  _ ← append_agent_envelope parent h (EnvelopeKind_StatusChanged status);
  _ ← match kind with
      | Some kind => append_agent_envelope parent h kind
      | None => mret (Ok tt)
      end;
  _ ← append_agent_envelope parent h (EnvelopeKind_Result res);
  _ ← append_parent_event parent
        (Ev_TaskCompleted (AgentTaskSpec_task_id t) (AgentHandle_agent_id h) (TaskStatus_from status));
  _ ← append_parent_event parent (Ev_SubagentStop h (Some res) (Some summary));
  _ ← release_child_worktree parent h;
  release_leases (AgentHandle_agent_id h).

(* crates/runtime/src/subagent_impl.rs, RuntimeSubagentExecutor::fail_launch_child *)
Definition fail_launch_child (parent : SubagentParentContext) (h : AgentHandle) (t : AgentTaskSpec)
    (error : string) : X unit :=
  let summary := summarize_output error in
  files ← leased_paths (AgentHandle_agent_id h);
  let res := plain_result h t AgentStatus_Failed summary error files in
  finished ← with_manager (fun m =>
    finish m (AgentHandle_agent_id h) AgentStatus_Failed (Some res) (Some error));
  match finished with
  | Err _ => mret tt
  | Ok h => report_failed_child parent h t AgentStatus_Failed (Some (EnvelopeKind_Failed error)) res summary
  end.

(* crates/runtime/src/subagent_impl.rs, RuntimeSubagentExecutor::launch_child_async *)
Definition launch_child_async (plan : ChildLaunchPlan) : X unit :=
  seeded ← (if plan_persist_session_seed plan then persist_child_session_seed (plan_session plan)
            else mret (Ok tt));
  match seeded with
  | Err error =>
      fail_launch_child (plan_parent plan) (plan_handle plan) (plan_task plan)
        ("failed to persist forked child context: " +:+ ToolError_display error)
  | Ok _ =>
      prepared ← xworld (sw_prepare_runtime (build_child_runtime plan));
      match prepared with
      | Ok _ => attach_child_worker plan
      | Err error =>
          fail_launch_child (plan_parent plan) (plan_handle plan) (plan_task plan)
            ("failed to prepare child runtime: " +:+ error)
      end
  end.

(** Four launches run at a time; a launch touches only its own record, so they are
    made in the order of the list. *)
(* crates/runtime/src/subagent_impl.rs, RuntimeSubagentExecutor::launch_ready_children_bounded *)
Fixpoint launch_ready_children_bounded (ready : list ChildLaunchPlan) : X unit :=
  match ready with
  | [] => mret tt
  | plan :: rest => _ ← launch_child_async plan; launch_ready_children_bounded rest
  end.

(** ** Dependencies *)

(* crates/runtime/src/subagent_impl.rs, DependencyFailure *)
Record DependencyFailure := mkDependencyFailure {
  df_task_id : string;
  df_status : AgentStatus;
  df_summary : option string
}.

(* crates/runtime/src/subagent_impl.rs, DependencyGate *)
Inductive DependencyGate :=
| Gate_Ready
| Gate_Blocked (pending : gset AgentId)
| Gate_Failed (failures : list DependencyFailure).

(* crates/runtime/src/subagent_impl.rs, RuntimeSubagentExecutor::dependency_gate@for dependency_agent_id in *)
Fixpoint gate_scan (m : AgentSessionManager) (deps : list AgentId) (pending : gset AgentId)
    (failures : list DependencyFailure)
    : result (gset AgentId * list DependencyFailure) ToolError :=
  match deps with
  | [] => Ok (pending, failures)
  | dep :: rest =>
      snap <-? as_tool_error (snapshot m dep);
      match AgentHandle_status (snap_handle snap) with
      | AgentStatus_Completed => gate_scan m rest pending failures
      | AgentStatus_Failed | AgentStatus_Cancelled =>
          gate_scan m rest pending
            (failures ++ [mkDependencyFailure (AgentTaskSpec_task_id (snap_task snap))
                            (AgentHandle_status (snap_handle snap))
                            (AgentResultEnvelope_summary <$> snap_result snap)])
      | _ => gate_scan m rest ({[ dep ]} ∪ pending) failures
      end
  end.

(* crates/runtime/src/subagent_impl.rs, RuntimeSubagentExecutor::dependency_gate *)
Definition dependency_gate (m : AgentSessionManager) (deps : list AgentId)
    : result DependencyGate ToolError :=
  scanned <-? gate_scan m deps ∅ [];
  Ok (if negb (is_nil scanned.2) then Gate_Failed scanned.2
      else if bool_decide (scanned.1 = ∅) then Gate_Ready
      else Gate_Blocked scanned.1).

(* crates/runtime/src/subagent_impl.rs, RuntimeSubagentExecutor::fail_blocked_child *)
Definition fail_blocked_child (parent : SubagentParentContext) (h : AgentHandle) (t : AgentTaskSpec)
    (failures : list DependencyFailure) : X unit :=
  let status := if existsb (fun f => bool_decide (df_status f = AgentStatus_Failed)) failures
                then AgentStatus_Failed else AgentStatus_Cancelled in
  let summary := "dependency gate blocked by "
    +:+ str_join ", " (map (fun f => df_task_id f +:+ "=" +:+ AgentStatus_display (df_status f)) failures) in
  let details := str_join nl (map (fun f =>
    df_task_id f +:+ " (" +:+ AgentStatus_display (df_status f) +:+ ")"
      +:+ match df_summary f with Some reason => " " +:+ reason | None => "" end) failures) in
  files ← leased_paths (AgentHandle_agent_id h);
  let res := plain_result h t status summary details files in
  finished ← with_manager (fun m =>
    finish m (AgentHandle_agent_id h) status (Some res) (Some summary));
  match finished with
  | Err _ => mret tt
  | Ok h =>
      report_failed_child parent h t status
        (match status with
         | AgentStatus_Failed => Some (EnvelopeKind_Failed details)
         | AgentStatus_Cancelled => Some (EnvelopeKind_Cancelled (Some summary))
         | _ => None
         end) res summary
  end.

(** What a round of the scheduler makes of the blocked children, in the order of their
    ids: those to launch (or to forget), those that fail, and the agents to wait for. *)
Record Triage := mkTriage {
  tr_ready : list AgentId;
  tr_failed : list (AgentId * list DependencyFailure);
  tr_waiting_on : gset AgentId
}.

(* crates/runtime/src/subagent_impl.rs, RuntimeSubagentExecutor::run_dependency_scheduler@for (agent_id, plan) in *)
Fixpoint triage (m : AgentSessionManager) (blocked : list (AgentId * ChildLaunchPlan)) (t : Triage)
    : Triage :=
  match blocked with
  | [] => t
  | (agent_id, plan) :: rest =>
      let ready := mkTriage (tr_ready t ++ [agent_id]) (tr_failed t) (tr_waiting_on t) in
      triage m rest
        match snapshot m agent_id with
        | Err _ => ready
        | Ok snap =>
            if terminal (snap_handle snap) then ready
            else
              match dependency_gate m (plan_dependency_agent_ids plan) with
              | Ok Gate_Ready | Err _ => ready
              | Ok (Gate_Failed failures) =>
                  mkTriage (tr_ready t) (tr_failed t ++ [(agent_id, failures)]) (tr_waiting_on t)
              | Ok (Gate_Blocked pending) =>
                  mkTriage (tr_ready t) (tr_failed t) (tr_waiting_on t ∪ pending)
              end
        end
  end.

Definition plan_le (a b : AgentId * ChildLaunchPlan) : Prop := String.le a.1 b.1.
#[global] Instance plan_le_dec a b : Decision (plan_le a b).
Proof. unfold plan_le. apply _. Defined.

Definition blocked_in_order (blocked : gmap AgentId ChildLaunchPlan) : list (AgentId * ChildLaunchPlan) :=
  merge_sort plan_le (map_to_list blocked).

(** The plans to launch: those that are not terminal. *)
(* crates/runtime/src/subagent_impl.rs, RuntimeSubagentExecutor::run_dependency_scheduler@for agent_id in ready *)
Definition ready_plans (m : AgentSessionManager) (blocked : gmap AgentId ChildLaunchPlan)
    (ready : list AgentId) : list ChildLaunchPlan :=
  omap (fun agent_id =>
    plan ← blocked !! agent_id;
    match handle m agent_id with
    | Ok h => if terminal h then None else Some plan
    | Err _ => None
    end) ready.

(* crates/runtime/src/subagent_impl.rs, RuntimeSubagentExecutor::run_dependency_scheduler@for (agent_id, failures) in failed *)
Fixpoint fail_children (blocked : gmap AgentId ChildLaunchPlan)
    (failed : list (AgentId * list DependencyFailure)) : X unit :=
  match failed with
  | [] => mret tt
  | (agent_id, failures) :: rest =>
      _ ← match blocked !! agent_id with
          | Some plan => fail_blocked_child (plan_parent plan) (plan_handle plan) (plan_task plan) failures
          | None => mret tt
          end;
      fail_children blocked rest
  end.

Definition forget (blocked : gmap AgentId ChildLaunchPlan) (ids : list AgentId)
    : gmap AgentId ChildLaunchPlan := foldl (fun b agent_id => delete agent_id b) blocked ids.

(** One round: the children that stay blocked, and the agents to wait for. *)
(* crates/runtime/src/subagent_impl.rs, RuntimeSubagentExecutor::run_dependency_scheduler@while !blocked.is_empty() *)
Definition scheduler_round (blocked : gmap AgentId ChildLaunchPlan)
    : X (gmap AgentId ChildLaunchPlan * gset AgentId) :=
  m ← xget x_sessions;
  let t := triage m (blocked_in_order blocked) (mkTriage [] [] ∅) in
  _ ← launch_ready_children_bounded (ready_plans m blocked (tr_ready t));
  let blocked := forget blocked (tr_ready t) in
  _ ← fail_children blocked (tr_failed t);
  mret (forget blocked (tr_failed t).*1, tr_waiting_on t).

(** The scheduler; [waits] is what the other tasks do while it waits for an agent.  The
    children that are still blocked when the list ends. *)
(* crates/runtime/src/subagent_impl.rs, RuntimeSubagentExecutor::run_dependency_scheduler *)
Fixpoint run_dependency_scheduler (waits : list (XState -> XState))
    (blocked : gmap AgentId ChildLaunchPlan) : X (gmap AgentId ChildLaunchPlan) :=
  if bool_decide (blocked = ∅) then mret blocked
  else
    round ← scheduler_round blocked;
    let '(blocked, waiting_on) := round in
    if bool_decide (blocked = ∅) then mret blocked
    else if bool_decide (waiting_on = ∅) then mret blocked
    else
      match waits with
      | [] => mret blocked
      | other_tasks :: waits => _ ← xset other_tasks; run_dependency_scheduler waits blocked
      end.

(** ** Spawning *)

(* crates/runtime/src/subagent_impl.rs, PlannedChildSpawn *)
Record PlannedChildSpawn := mkPlannedChildSpawn {
  pcs_handle : AgentHandle;
  pcs_task : AgentTaskSpec;
  pcs_initial_input : Message;
  pcs_tool_registry : ToolRegistry;
  pcs_requested_files : list PathBuf;
  pcs_profile : SubagentRuntimeProfile;
  pcs_session : RuntimeSession;
  pcs_persist_session_seed : bool
}.

Definition pcs_agent_id (c : PlannedChildSpawn) : AgentId := AgentHandle_agent_id (pcs_handle c).

Definition with_allowed_tools (t : AgentTaskSpec) (tools : list ToolName) : AgentTaskSpec :=
  mkAgentTaskSpec (AgentTaskSpec_task_id t) (AgentTaskSpec_role t) (AgentTaskSpec_prompt t)
    (AgentTaskSpec_origin t) (AgentTaskSpec_steer t) tools (AgentTaskSpec_requested_write_set t)
    (AgentTaskSpec_dependency_ids t) (AgentTaskSpec_timeout_seconds t).

(** One child of a batch. *)
(* crates/runtime/src/subagent_impl.rs, RuntimeSubagentExecutor::spawn@for launch in tasks *)
Definition plan_child (parent : SubagentParentContext) (launch : SubagentLaunchSpec)
    : X (result PlannedChildSpawn ToolError) :=
  profile <-! as_tool (xworld (sw_resolve_profile launch));
  tools <-! mret (as_tool_error (resolve_child_tools (x_tool_registry cfg)
                    (AgentTaskSpec_allowed_tools (launch_task launch)) (prof_allowed_tools profile)
                    (prof_allowed_mcp_servers profile)));
  let '(tool_registry, resolved_tools) := tools in
  if negb (prof_supports_tool_calls profile) && negb (is_nil (registry_names tool_registry)) then
    mret (Err (ToolErr_InvalidInput
      ("subagent profile `" +:+ prof_name profile +:+ "` does not support tool calls, but task `"
         +:+ AgentTaskSpec_task_id (launch_task launch) +:+ "` resolved local tools")))
  else
    let t := with_allowed_tools (launch_task launch) resolved_tools in
    requested_files <-!
      mret (match resolve_write_set (AgentTaskSpec_requested_write_set t) with
            | Ok files => Ok files
            | Err e => Err (ToolErr_InvalidState (ToolError_display e))
            end);
    agent_id ← new_id;
    session_id ← new_id;
    agent_session_id ← new_id;
    let made wid wroot :=
      mkAgentHandle agent_id (par_parent_agent_id parent) session_id agent_session_id
        (AgentTaskSpec_task_id t) (AgentTaskSpec_role t) AgentStatus_Queued wid wroot in
    profile <-! maybe_allocate_child_worktree parent t (launch_worktree_mode launch)
                  (made (par_active_worktree_id parent) (par_worktree_root parent)) profile;
    let h := made (tc_active_worktree_id (prof_tool_context profile))
                  (tc_worktree_root (prof_tool_context profile)) in
    session <-! build_child_session parent h (launch_fork_context launch);
    mret (Ok (mkPlannedChildSpawn h t (launch_initial_input launch) tool_registry requested_files
                profile session.1 session.2)).

(* crates/runtime/src/subagent_impl.rs, RuntimeSubagentExecutor::spawn@for launch in tasks *)
Fixpoint plan_children (parent : SubagentParentContext) (tasks : list SubagentLaunchSpec)
    : X (result (list PlannedChildSpawn) ToolError) :=
  match tasks with
  | [] => mret (Ok [])
  | launch :: rest =>
      child <-! plan_child parent launch;
      more <-! plan_children parent rest;
      mret (Ok (child :: more))
  end.

Definition to_plan (c : PlannedChildSpawn) : PlannedChild :=
  mkPlannedChild (pcs_agent_id c) (pcs_task c) [].

(** The children of the same parent. *)
Definition siblings (m : AgentSessionManager) (parent : SubagentParentContext) : list AgentHandle :=
  List.filter (fun h => bool_decide (AgentHandle_parent_agent_id h = par_parent_agent_id parent))
    (list_agents m).

(** The leases of a batch: all of them, or none and the conflict. *)
(* crates/runtime/src/subagent_impl.rs, RuntimeSubagentExecutor::spawn@let mut claimed_agents ~~ if let Err(error) = self.append_spawn_events *)
Fixpoint claim_batch (leases : LeaseIndex) (planned : list PlannedChildSpawn) (claimed : list AgentId)
    : result (list AgentId) WriteLeaseConflict * LeaseIndex :=
  match planned with
  | [] => (Ok claimed, leases)
  | child :: rest =>
      if is_nil (pcs_requested_files child) then claim_batch leases rest claimed
      else
        match claim leases (pcs_agent_id child) (pcs_requested_files child) with
        | (Ok _, leases) => claim_batch leases rest (claimed ++ [pcs_agent_id child])
        | (Err conflict, leases) => (Err conflict, foldl release leases claimed)
        end
  end.

Definition lease_conflict (c : WriteLeaseConflict) : ToolError :=
  ToolErr_InvalidState ("write lease conflict for " +:+ conflict_requested c +:+ " owned by " +:+ conflict_owner c).

(* crates/runtime/src/subagent_impl.rs, RuntimeSubagentExecutor::append_spawn_events *)
Fixpoint append_spawn_events (parent : SubagentParentContext) (planned : list PlannedChildSpawn)
    : X (result unit ToolError) :=
  match planned with
  | [] => mret (Ok tt)
  | child :: rest =>
      let t := pcs_task child in
      let files := AgentTaskSpec_requested_write_set t in
      envelopes ← new_envelopes (pcs_handle child)
        (EnvelopeKind_SpawnRequested t
         :: if is_nil files then [] else [EnvelopeKind_ClaimRequested files; EnvelopeKind_ClaimGranted files]);
      _ <-! as_tool (append_parent_events parent
              (Ev_TaskCreated t (par_parent_agent_id parent) TaskStatus_Queued
                 (Some (AgentTaskSpec_prompt t)) (AgentHandle_worktree_id (pcs_handle child))
                 (AgentHandle_worktree_root (pcs_handle child)) :: envelopes));
      append_spawn_events parent rest
  end.

(** Registering the children: their records, mailboxes and launch plans. *)
(* crates/runtime/src/subagent_impl.rs, RuntimeSubagentExecutor::spawn@for child in planned { *)
Fixpoint register_children (parent : SubagentParentContext)
    (planned : list (PlannedChildSpawn * list AgentId)) : X (list ChildLaunchPlan) :=
  match planned with
  | [] => mret []
  | (child, dependency_agent_ids) :: rest =>
      mb ← agent_mailbox_channel;
      m ← xget x_sessions;
      _ ← xset (set_sessions (manager_insert m (pcs_handle child) (pcs_task child) mb));
      r ← xget x_resumable;
      _ ← xset (set_resumable (<[pcs_agent_id child :=
                   mkResumableChildState (pcs_tool_registry child) (pcs_profile child)]> r));
      plans ← register_children parent rest;
      mret (mkChildLaunchPlan parent (pcs_handle child) (pcs_task child) (pcs_tool_registry child) mb
              dependency_agent_ids (pcs_profile child) (pcs_session child)
              (pcs_persist_session_seed child) (Start_RunInput (pcs_initial_input child) true)
            :: plans)
  end.

(** The handles, and the children that are left to the scheduler task. *)
(* crates/runtime/src/subagent_impl.rs, RuntimeSubagentExecutor::spawn *)
Definition spawn (parent : SubagentParentContext) (tasks : list SubagentLaunchSpec)
    : X (result (list AgentHandle * gmap AgentId ChildLaunchPlan) ToolError) :=
  planned <-! plan_children parent tasks;
  m ← xget x_sessions;
  linked <-! mret (resolve_dependency_plan (siblings m parent) (map to_plan planned));
  leases ← xget x_leases;
  let '(claimed, leases) := claim_batch leases planned [] in
  _ ← xset (set_leases leases);
  match claimed with
  | Err conflict => mret (Err (lease_conflict conflict))
  | Ok claimed_agents =>
      appended ← append_spawn_events parent planned;
      match appended with
      | Err error =>
          leases ← xget x_leases;
          _ ← xset (set_leases (foldl release leases claimed_agents));
          mret (Err error)
      | Ok _ =>
          plans ← register_children parent (zip planned (pc_dependency_agent_ids <$> linked));
          let is_ready plan := is_nil (plan_dependency_agent_ids plan) in
          _ ← launch_ready_children_bounded (List.filter is_ready plans);
          mret (Ok (plan_handle <$> plans,
                    list_to_map ((fun plan => (AgentHandle_agent_id (plan_handle plan), plan))
                                   <$> List.filter (fun plan => negb (is_ready plan)) plans)))
      end
  end.

(** ** The operations of a parent on a child *)

(** The first step of every operation: the child exists and belongs to the caller. *)
Definition owned_child (parent : SubagentParentContext) (agent_id : AgentId)
    : X (result AgentHandle ToolError) :=
  m ← xget x_sessions;
  h <-! mret (as_tool_error (handle m agent_id));
  _ <-! mret (ensure_parent_can_access parent h);
  mret (Ok h).

(* crates/runtime/src/subagent_impl.rs, RuntimeSubagentExecutor::queue_child_input *)
Definition queue_child_input (parent : SubagentParentContext) (h : AgentHandle) (message : Message)
    : X (result AgentHandle RuntimeError) :=
  m ← xget x_sessions;
  mb <-! mret (mailbox m (AgentHandle_agent_id h));
  sent ← mailbox_send mb (Control_Input message);
  match sent with
  | true =>
      _ <-! append_agent_envelope parent h (EnvelopeKind_Input message AgentInputDelivery_Queue);
      mret (Ok h)
  | false => mret (refuse_state "channel closed")
  end.

(* crates/runtime/src/subagent_impl.rs, RuntimeSubagentExecutor::interrupt_child_with_input *)
Definition interrupt_child_with_input (parent : SubagentParentContext) (h : AgentHandle)
    (message : Message) : X (result AgentHandle RuntimeError) :=
  let agent_id := AgentHandle_agent_id h in
  m ← xget x_sessions;
  t <-! mret (task m agent_id);
  resumables ← xget x_resumable;
  resumable <-! mret (match resumables !! agent_id with
                      | Some r => Ok r
                      | None => refuse_state ("agent " +:+ agent_id +:+ " is not resumable")
                      end);
  wd ← xget x_world;
  session <-! mret (load_runtime_session (sw_events wd) (AgentHandle_session_id h)
                      (AgentHandle_agent_session_id h));
  l ← stamps (length (interrupted_message_ids session));
  let '(session, removals) := rollback_interrupted_turn (stamp_at l) session in
  _ <-! (if is_nil removals then mret (Ok tt) else store_batch removals);
  mb ← agent_mailbox_channel;
  restarted <-! with_manager (fun m => restart m agent_id mb AgentStatus_Queued);
  _ <-! append_agent_envelope parent restarted
          (EnvelopeKind_Input message AgentInputDelivery_Interrupt);
  _ ← launch_child_async
        (mkChildLaunchPlan parent restarted t (rcs_tool_registry resumable) mb []
           (rcs_profile resumable) session false (Start_RunInput message false));
  mret (Ok restarted).

(* crates/runtime/src/subagent_impl.rs, RuntimeSubagentExecutor::send *)
Definition send (parent : SubagentParentContext) (agent_id : AgentId) (message : Message)
    (delivery : AgentInputDelivery) : X (result AgentHandle ToolError) :=
  h <-! owned_child parent agent_id;
  if terminal h then mret (Ok h)
  else
    as_tool
      match delivery, AgentHandle_status h with
      | AgentInputDelivery_Interrupt, (AgentStatus_Running | AgentStatus_WaitingApproval) =>
          interrupt_child_with_input parent h message
      | _, _ => queue_child_input parent h message
      end.

(** Up to the call of the session manager's [wait]. *)
(* crates/runtime/src/subagent_impl.rs, RuntimeSubagentExecutor::wait@for agent_id in *)
Fixpoint check_waited (parent : SubagentParentContext) (ids : list AgentId) : X (result unit ToolError) :=
  match ids with
  | [] => mret (Ok tt)
  | agent_id :: rest => _ <-! owned_child parent agent_id; check_waited parent rest
  end.

(* crates/runtime/src/subagent_impl.rs, RuntimeSubagentExecutor::resume *)
Definition resume (parent : SubagentParentContext) (agent_id : AgentId)
    : X (result AgentHandle ToolError) :=
  h <-! owned_child parent agent_id;
  if negb (terminal h) then
    mret (Err (ToolErr_InvalidInput ("agent " +:+ AgentHandle_agent_id h
                                       +:+ " is not terminal and cannot be resumed")))
  else
    m ← xget x_sessions;
    t <-! mret (as_tool_error (task m agent_id));
    resumables ← xget x_resumable;
    resumable <-! mret (match resumables !! agent_id with
                        | Some r => Ok r
                        | None => Err (ToolErr_InvalidState
                                         ("agent " +:+ AgentHandle_agent_id h +:+ " is not resumable"))
                        end);
    requested_files <-!
      mret (match resolve_write_set (AgentTaskSpec_requested_write_set t) with
            | Ok files => Ok files
            | Err e => Err (ToolErr_InvalidState (ToolError_display e))
            end);
    leases ← xget x_leases;
    match claim leases agent_id requested_files with
    | (Err conflict, _) => mret (Err (lease_conflict conflict))
    | (Ok _, leases) =>
        _ ← xset (set_leases leases);
        wd ← xget x_world;
        match load_runtime_session (sw_events wd) (AgentHandle_session_id h)
                (AgentHandle_agent_session_id h) with
        | Err error =>
            _ ← release_leases agent_id;
            mret (Err (ToolErr_InvalidState (RuntimeError_display error)))
        | Ok session =>
            mb ← agent_mailbox_channel;
            reopened ← with_manager (fun m => reopen m agent_id mb);
            match reopened with
            | Err error =>
                _ ← release_leases agent_id;
                mret (Err (ToolErr_InvalidState (RuntimeError_display error)))
            | Ok h =>
                _ ← launch_child_async
                      (mkChildLaunchPlan parent h t (rcs_tool_registry resumable) mb []
                         (rcs_profile resumable) session false Start_AwaitMessage);
                mret (Ok h)
            end
        end
    end.

(* crates/runtime/src/subagent_impl.rs, RuntimeSubagentExecutor::list *)
Definition list_children (parent : SubagentParentContext) : X (result (list AgentHandle) ToolError) :=
  m ← xget x_sessions; mret (Ok (siblings m parent)).

(* crates/runtime/src/subagent_impl.rs, RuntimeSubagentExecutor::cancel *)
Definition cancel_child (parent : SubagentParentContext) (agent_id : AgentId) (reason : option string)
    : X (result AgentHandle ToolError) :=
  h <-! owned_child parent agent_id;
  if terminal h then mret (Ok h)
  else
    claimed_files ← leased_paths agent_id;
    cancelled <-! as_tool (with_manager (fun m => cancel m agent_id reason claimed_files));
    let '(h, res) := cancelled in
    _ ← release_leases agent_id;
    _ <-! as_tool (append_agent_envelope parent h (EnvelopeKind_StatusChanged AgentStatus_Cancelled));
    _ <-! as_tool (append_agent_envelope parent h (EnvelopeKind_Cancelled reason));
    _ <-! as_tool (append_parent_event parent
            (Ev_TaskCompleted (AgentHandle_task_id h) (AgentHandle_agent_id h) TaskStatus_Cancelled));
    _ <-! as_tool (append_parent_event parent (Ev_SubagentStop h (Some res) reason));
    _ ← release_child_worktree parent h;
    mret (Ok h).

End SubagentExec.
