(* ===== verification/SubagentExecProps.v ===== *)
(** * The subagent executor: properties

    A parent reaches only its own children, a spawn that fails leaves no child, worker
    or lease behind, and a round of the dependency scheduler decides about every blocked
    child exactly as the states of its dependencies say. *)

From Stdlib Require Import Ascii String.
From stdpp Require Import base list gmap sets sorting strings.
From Stdlib Require Import Lia.
From S2P Require Import Prelude Text Message Events Errors Replay Session History LoopDetection.
From S2P Require Import AgentSessions WriteLease SandboxPolicy Tools PathPolicy RuntimeState.
From S2P Require Import SubagentPlan SubagentState SubagentWorker SubagentWorkerProps SubagentExec.

(** ** Who may reach a child *)

Section Access.
Context {J : SerdeJson} {H : SubagentHost} {P : ChildPayloads} (cfg : XConfig).

Lemma owned_child_foreign parent agent_id s h :
  handle (x_sessions s) agent_id = Ok h ->
  AgentHandle_parent_agent_id h <> par_parent_agent_id parent ->
  exists e, owned_child parent agent_id s = (Err e, s).
Proof.
  intros Hh Hp. unfold owned_child, xtry, mbind, X_bind, xget, mret, X_ret, ensure_parent_can_access.
  rewrite Hh. cbn [as_tool_error]. rewrite bool_decide_false by done. by eexists.
Qed.

Lemma try_refused {A B E} (m : X (result A E)) (k : A -> X (result B E)) s e :
  m s = (Err e, s) -> xtry m k s = (Err e, s).
Proof. unfold xtry, mbind, X_bind. by intros ->. Qed.

Lemma owned_child_keeps parent agent_id s : (owned_child parent agent_id s).2 = s.
Proof.
  unfold owned_child, xtry, mbind, X_bind, xget, mret, X_ret.
  destruct (as_tool_error _); [|done]. by destruct (ensure_parent_can_access parent _).
Qed.

Lemma check_waited_foreign parent ids agent_id s h :
  handle (x_sessions s) agent_id = Ok h ->
  AgentHandle_parent_agent_id h <> par_parent_agent_id parent ->
  agent_id ∈ ids -> exists e, check_waited parent ids s = (Err e, s).
Proof.
  intros Hh Hp. induction ids as [|x ids IH]; [by intros ?%not_elem_of_nil|]. intros Hin. simpl.
  destruct (decide (x = agent_id)) as [->|Hx].
  - destruct (owned_child_foreign parent agent_id s h Hh Hp) as [e He].
    exists e. by apply try_refused.
  - apply elem_of_cons in Hin as [->|Hin]; [done|]. destruct (IH Hin) as [e He].
    unfold xtry, mbind, X_bind. pose proof (owned_child_keeps parent x s) as Hk.
    destruct (owned_child parent x s) as [[h'|e'] s'] eqn:E; simpl in Hk; subst s';
      [exists e; exact He | by exists e'].
Qed.

(** A parent cannot touch a child that is not its own: sending to it, waiting for it,
    resuming it and cancelling it are refused, and nothing of the executor's state
    changes; the child is not listed either. *)
Theorem foreign_parent_changes_nothing parent agent_id s h :
  handle (x_sessions s) agent_id = Ok h ->
  AgentHandle_parent_agent_id h <> par_parent_agent_id parent ->
  (forall message delivery, exists e, send cfg parent agent_id message delivery s = (Err e, s))
  /\ (exists e, resume cfg parent agent_id s = (Err e, s))
  /\ (forall reason, exists e, cancel_child parent agent_id reason s = (Err e, s))
  /\ (forall ids, agent_id ∈ ids -> exists e, check_waited parent ids s = (Err e, s))
  /\ exists l, list_children parent s = (Ok l, s) /\ h ∉ l.
Proof.
  intros Hh Hp. destruct (owned_child_foreign parent agent_id s h Hh Hp) as [e He].
  repeat split.
  - intros message delivery. exists e. by apply try_refused.
  - exists e. by apply try_refused.
  - intros reason. exists e. by apply try_refused.
  - intros ids. by apply (check_waited_foreign _ _ _ _ h).
  - eexists. split; [reflexivity|]. unfold siblings. rewrite elem_of_filter_b.
    by rewrite bool_decide_eq_true; intros [_ ?].
Qed.

End Access.

(** ** A spawn that fails *)

(** What [AgentId::new] promises: an id that was never used. *)
Class UniqueIds `{SerdeJson} (H : SubagentHost) := {
  used : SWorld -> gset string;
  new_id_fresh wd : (sw_new_id wd).1 ∉ used wd /\ {[ (sw_new_id wd).1 ]} ∪ used wd ⊆ used (sw_new_id wd).2;
  profile_keeps launch wd : used wd ⊆ used (sw_resolve_profile launch wd).2;
  worktree_keeps context request wd : used wd ⊆ used (sw_create_child_worktree context request wd).2
}.

Lemma owners_release index agent_id : owners (release index agent_id) = delete agent_id (owners index).
Proof.
  unfold release, index_release. destruct (owners index !! agent_id) eqn:E; [done|]. by rewrite delete_id.
Qed.

Definition delete_all (o : gmap AgentId (gset PathBuf)) (ids : list AgentId)
    : gmap AgentId (gset PathBuf) := foldl (fun o agent_id => delete agent_id o) o ids.

Lemma owners_release_all index ids : owners (foldl release index ids) = delete_all (owners index) ids.
Proof.
  revert index. induction ids as [|a ids IH]; intros index; [done|].
  simpl. by rewrite IH, owners_release.
Qed.

Lemma delete_all_delete o ids a : delete_all (delete a o) ids = delete a (delete_all o ids).
Proof.
  revert o. induction ids as [|b ids IH]; intros o; [done|]. simpl. by rewrite delete_delete, IH.
Qed.

Lemma owners_insert_all index a paths b :
  b <> a -> owners (foldl (fun index path => index_insert index a path) index paths) !! b
            = owners index !! b.
Proof.
  intros Hb. revert index. induction paths as [|p paths IH]; intros index; simpl; [done|].
  rewrite IH. unfold index_insert. case_bool_decide; [done|]. by apply lookup_insert_ne.
Qed.

Lemma owners_claim index a paths b : b <> a -> owners (claim index a paths).2 !! b = owners index !! b.
Proof.
  intros Hb. unfold claim. destruct (first_conflict _ _ _) as [[p [r c]]|]; [done|].
  by apply owners_insert_all.
Qed.

(** Undoing a claim of an agent that had no lease. *)
Lemma owners_undo_claim index a paths :
  owners index !! a = None -> delete a (owners (claim index a paths).2) = owners index.
Proof.
  intros Ha. apply map_eq. intros b. destruct (decide (b = a)) as [->|Hb].
  - by rewrite lookup_delete_eq.
  - by rewrite lookup_delete_ne, owners_claim.
Qed.

Lemma release_all_ok index ids : index_ok index -> index_ok (foldl release index ids).
Proof.
  revert index. induction ids as [|a ids IH]; intros index Hok; [done|].
  by apply IH, index_ok_release.
Qed.

Section FailedSpawn.
Context {J : SerdeJson} {H : SubagentHost} {P : ChildPayloads} (cfg : XConfig).

(** The agents of a batch have no lease yet. *)
Definition unleased (o : gmap AgentId (gset PathBuf)) (planned : list PlannedChildSpawn) : Prop :=
  NoDup (pcs_agent_id <$> planned) /\ Forall (fun c => o !! pcs_agent_id c = None) planned.

Lemma unleased_claim index child paths rest :
  unleased (owners index) (child :: rest) ->
  unleased (owners (claim index (pcs_agent_id child) paths).2) rest.
Proof.
  intros [[Hn Hnd]%NoDup_cons Hf]. split; [done|]. inversion Hf as [|? ? Hc Hr]; subst.
  apply Forall_forall. intros c Hc'. rewrite owners_claim.
  - by eapply (proj1 (Forall_forall _ _) Hr).
  - intros Heq. apply Hn. rewrite <- Heq. by apply list_elem_of_fmap_2.
Qed.

(** Releasing what a batch claimed gives the leases before it; on a conflict that has
    been done. *)
Lemma claim_batch_undone planned index claimed :
  unleased (owners index) planned -> index_ok index ->
  match claim_batch index planned claimed with
  | (Ok claimed', index') =>
      index_ok index' /\ delete_all (owners index') claimed' = delete_all (owners index) claimed
  | (Err _, index') => index_ok index' /\ owners index' = delete_all (owners index) claimed
  end.
Proof.
  revert index claimed. induction planned as [|child rest IH]; intros index claimed Hu Hok; simpl; [done|].
  destruct (is_nil _).
  { apply IH; [|done]. destruct Hu as [[_ Hnd]%NoDup_cons Hf]. split; [done|].
    by inversion Hf. }
  assert (Hu' := unleased_claim index child (pcs_requested_files child) rest Hu).
  assert (Hok' := claim_ok index (pcs_agent_id child) (pcs_requested_files child) Hok).
  assert (Hundo := owners_undo_claim index (pcs_agent_id child) (pcs_requested_files child)).
  destruct (claim index (pcs_agent_id child) (pcs_requested_files child)) as [[u|c] index'] eqn:E.
  - specialize (IH index' (claimed ++ [pcs_agent_id child]) Hu' Hok').
    assert (Heq : delete_all (owners index') (claimed ++ [pcs_agent_id child])
                  = delete_all (owners index) claimed).
    { unfold delete_all at 1. rewrite foldl_app. simpl. fold (delete_all (owners index') claimed).
      rewrite <- delete_all_delete. simpl in Hundo. rewrite Hundo; [done|].
      destruct Hu as [_ Hf]. by inversion Hf. }
    by destruct (claim_batch _ _ _) as [[cl|cl] index'']; rewrite <- Heq.
  - unfold claim in E. destruct (first_conflict _ _ _) as [[p [r b]]|]; [|done].
    injection E as _ <-. split; [by apply release_all_ok|]. by rewrite owners_release_all.
Qed.

(** *** Planning touches only the world *)

Create HintDb quiet_exec.
Hint Resolve xquiet_ret xquiet_bind xquiet_world xquiet_try xquiet_envelopes
  xquiet_store : quiet_exec.

Ltac quiet :=
  repeat match goal with
    | |- quietly (xtry _ _) => apply xquiet_try; [|intros ?]
    | |- quietly (mbind _ _) => apply xquiet_bind; [|intros ?]
    | |- quietly (match ?x with _ => _ end) => destruct x
    | |- quietly (mret _) => apply xquiet_ret
    | |- quietly _ => solve [auto with quiet_exec]
    end.

Lemma xquiet_get {A} (f : XState -> A) : quietly (xget f).
Proof. by intros s. Qed.
Hint Resolve xquiet_get : quiet_exec.

Lemma xquiet_as_tool {A} (m : X (result A RuntimeError)) : quietly m -> quietly (as_tool m).
Proof. intros Hm. unfold as_tool. quiet. Qed.
Hint Resolve xquiet_as_tool : quiet_exec.

Lemma xquiet_publish events : quietly (publish_parent_progress events).
Proof. induction events; simpl; quiet. Qed.
Hint Resolve xquiet_publish : quiet_exec.

Lemma xquiet_append parent events : quietly (append_parent_events parent events).
Proof. unfold append_parent_events. quiet. Qed.
Hint Resolve xquiet_append : quiet_exec.

Lemma xquiet_spawn_events parent planned : quietly (append_spawn_events parent planned).
Proof. induction planned; cbn [append_spawn_events]; quiet. Qed.

Lemma xquiet_session parent h fork : quietly (build_child_session parent h fork).
Proof. unfold build_child_session. quiet. Qed.
Hint Resolve xquiet_session : quiet_exec.

Lemma xquiet_worktree parent t mode h profile :
  quietly (maybe_allocate_child_worktree parent t mode h profile).
Proof. unfold maybe_allocate_child_worktree. quiet. Qed.
Hint Resolve xquiet_worktree : quiet_exec.

Lemma xquiet_plan_child parent launch : quietly (plan_child cfg parent launch).
Proof.
  unfold plan_child, new_id. apply xquiet_try; [auto with quiet_exec|]. intros profile.
  apply xquiet_try; [quiet|]. intros [registry tools]. quiet.
Qed.
Hint Resolve xquiet_plan_child : quiet_exec.

Lemma xquiet_plan_children parent tasks : quietly (plan_children cfg parent tasks).
Proof. induction tasks; cbn [plan_children]; quiet. Qed.

(** *** Planning uses new ids *)

Context {U : UniqueIds H}.

Definition used_in (s : XState) : gset string := used (x_world s).

(** A step that only uses new ids. *)
Definition grows {A} (m : X A) : Prop := forall s, used_in s ⊆ used_in (m s).2.

Lemma grows_ret {A} (a : A) : grows (mret a).
Proof. by intros s. Qed.

Lemma grows_bind {A B} (m : X A) (k : A -> X B) :
  grows m -> (forall a, grows (k a)) -> grows (a ← m; k a).
Proof.
  intros Hm Hk s. unfold mbind, X_bind. specialize (Hm s). destruct (m s) as [a s1].
  etransitivity; [exact Hm | apply Hk].
Qed.

Lemma grows_try {A B E} (m : X (result A E)) (k : A -> X (result B E)) :
  grows m -> (forall a, grows (k a)) -> grows (xtry m k).
Proof. intros Hm Hk. apply grows_bind; [done|]. intros [a|e]; [done | apply grows_ret]. Qed.

Lemma grows_world {A} (f : SWorld -> A * SWorld) :
  (forall wd, used wd ⊆ used (f wd).2) -> grows (xworld f).
Proof. intros Hf s. unfold xworld. specialize (Hf (x_world s)). by destruct (f (x_world s)). Qed.

Lemma grows_new_id : grows new_id.
Proof. apply grows_world. intros wd. pose proof (new_id_fresh wd). set_solver. Qed.

Lemma grows_worktree parent t mode h profile :
  grows (maybe_allocate_child_worktree parent t mode h profile).
Proof.
  unfold maybe_allocate_child_worktree. destruct mode; [apply grows_ret|].
  destruct (negb _); [apply grows_ret|]. apply grows_try; [|intros ?; apply grows_ret].
  apply grows_world. intros wd. apply worktree_keeps.
Qed.

Lemma grows_session parent h fork : grows (build_child_session parent h fork).
Proof.
  unfold build_child_session. destruct (negb _); [apply grows_ret|].
  destruct (par_session_id parent), (par_agent_session_id parent); try apply grows_ret.
  apply grows_bind; [by intros ?|]. intros wd. apply grows_try; intros; apply grows_ret.
Qed.

(** The id that a step gives is new. *)
Definition gives_new_id (m : X (result PlannedChildSpawn ToolError)) : Prop :=
  forall s, used_in s ⊆ used_in (m s).2
    /\ match (m s).1 with
       | Ok c => pcs_agent_id c ∉ used_in s /\ pcs_agent_id c ∈ used_in (m s).2
       | Err _ => True
       end.

Lemma gives_after {A} (m : X (result A ToolError)) k :
  grows m -> (forall a, gives_new_id (k a)) -> gives_new_id (xtry m k).
Proof.
  intros Hm Hk s. unfold xtry, mbind, X_bind. specialize (Hm s). destruct (m s) as [[a|e] s1]; [|done].
  destruct (Hk a s1) as [Hg Hr]. simpl in Hm. split; [by etransitivity|].
  destruct (k a s1) as [[c|e] s2]; [|done]. simpl in *. set_solver.
Qed.

(** From where the id is taken on. *)
Definition made_with (agent_id : AgentId) (m : X (result PlannedChildSpawn ToolError)) : Prop :=
  grows m /\ forall s, match (m s).1 with Ok c => pcs_agent_id c = agent_id | Err _ => True end.

Lemma made_try {A} agent_id (m : X (result A ToolError)) k :
  grows m -> (forall a, made_with agent_id (k a)) -> made_with agent_id (xtry m k).
Proof.
  intros Hm Hk. split; [apply grows_try; [done|]; intros a; apply Hk|]. intros s.
  unfold xtry, mbind, X_bind. destruct (m s) as [[a|e] s1]; [apply Hk | done].
Qed.

Lemma made_bind {A} agent_id (m : X A) k :
  grows m -> (forall a, made_with agent_id (k a)) -> made_with agent_id (a ← m; k a).
Proof.
  intros Hm Hk. split; [apply grows_bind; [done|]; intros a; apply Hk|]. intros s.
  unfold mbind, X_bind. destruct (m s) as [a s1]. apply Hk.
Qed.

Lemma gives_new_made k :
  (forall agent_id, made_with agent_id (k agent_id)) -> gives_new_id (agent_id ← new_id; k agent_id).
Proof.
  intros Hk s. unfold mbind, X_bind, new_id, xworld. pose proof (new_id_fresh (x_world s)) as [Hn Hs].
  destruct (sw_new_id (x_world s)) as [agent_id wd] eqn:E. simpl in Hn, Hs.
  destruct (Hk agent_id) as [Hg Hm]. specialize (Hg (set_world wd s)). specialize (Hm (set_world wd s)).
  unfold used_in in *. simpl in *. destruct (k agent_id (set_world wd s)) as [[c|e] s2]; simpl in *;
    [rewrite Hm|]; set_solver.
Qed.

Lemma plan_child_new_id parent launch : gives_new_id (plan_child cfg parent launch).
Proof.
  unfold plan_child. apply gives_after.
  { apply grows_bind; [|intros ?; apply grows_ret]. apply grows_world. intros wd. apply profile_keeps. }
  intros profile. apply gives_after; [apply grows_ret|]. intros [registry tools].
  destruct (_ && _); [by intros s|]. apply gives_after; [apply grows_ret|]. intros files.
  apply gives_new_made. intros agent_id. do 2 (apply made_bind; [apply grows_new_id | intros ?]).
  apply made_try; [apply grows_worktree|]. intros p. apply made_try; [apply grows_session|].
  intros session. split; [apply grows_ret | by intros s].
Qed.

Lemma plan_children_new_ids parent tasks s :
  used_in s ⊆ used_in (plan_children cfg parent tasks s).2
  /\ match (plan_children cfg parent tasks s).1 with
     | Ok planned =>
         NoDup (pcs_agent_id <$> planned) /\ Forall (fun c => pcs_agent_id c ∉ used_in s) planned
     | Err _ => True
     end.
Proof.
  revert s. induction tasks as [|launch tasks IH]; intros s.
  { split; [done|]. simpl. split; [apply NoDup_nil_2 | apply Forall_nil_2]. }
  cbn [plan_children]. unfold xtry, mbind, X_bind.
  destruct (plan_child_new_id parent launch s) as [Hg Hc].
  destruct (plan_child cfg parent launch s) as [[c|e] s1]; [|done]. simpl in Hg, Hc.
  destruct (IH s1) as [Hg1 Hl]. destruct (plan_children cfg parent tasks s1) as [[l|e] s2]; simpl in *.
  - split; [set_solver|]. destruct Hl as [Hnd Hl]. rewrite Forall_forall in Hl. split.
    + apply NoDup_cons. split; [|done]. intros (c' & Heq & Hin)%list_elem_of_fmap.
      apply (Hl c' Hin). rewrite <- Heq. tauto.
    + constructor; [tauto|]. apply Forall_forall. intros c' Hin Hu. apply (Hl c' Hin). set_solver.
  - split; [set_solver | done].
Qed.

(** C13.  A spawn that fails leaves nothing behind: whatever fails (a profile, the tools, the
    write set, a worktree, the parent's session, the dependencies, a lease conflict, the
    parent's event log), no record, mailbox, worker or resumable child is added, and
    every agent holds exactly the leases it held before. *)
Theorem failed_spawn_leaves_nothing parent tasks s e s' :
  index_ok (x_leases s) -> dom (owners (x_leases s)) ⊆ used_in s ->
  spawn cfg parent tasks s = (Err e, s') ->
  x_sessions s' = x_sessions s /\ x_resumable s' = x_resumable s /\ x_mailboxes s' = x_mailboxes s
  /\ x_workers s' = x_workers s
  /\ index_ok (x_leases s') /\ owners (x_leases s') = owners (x_leases s).
Proof.
  intros Hok Hu. unfold spawn, xtry. unfold mbind, X_bind at 1.
  destruct (plan_children_new_ids parent tasks s) as [_ Hids].
  pose proof (xquiet_plan_children parent tasks s) as [Q1 Q2 Q3 Q4 Q5].
  destruct (plan_children cfg parent tasks s) as [[planned|e1] s1]; simpl in *;
    [|intros [= _ <-]; by rewrite Q1, Q2, Q3, Q4, Q5].
  unfold X_bind, xget, mret, X_ret. destruct (resolve_dependency_plan _ _) as [linked|e1];
    [|intros [= _ <-]; by rewrite Q1, Q2, Q3, Q4, Q5].
  assert (Hun : unleased (owners (x_leases s1)) planned).
  { destruct Hids as [Hnd Hf]. split; [done|]. rewrite Q2. eapply Forall_impl; [exact Hf|].
    simpl. intros c Hc. apply not_elem_of_dom. set_solver. }
  pose proof (claim_batch_undone planned (x_leases s1) [] Hun) as Hb. rewrite Q2 in Hb. specialize (Hb Hok).
  rewrite Q2. destruct (claim_batch (x_leases s) planned []) as [[claimed|c] index]; simpl in Hb |- *.
  - pose proof (xquiet_spawn_events parent planned (set_leases index s1)) as [R1 R2 R3 R4 R5].
    destruct (append_spawn_events parent planned (set_leases index s1)) as [[u|e1] s2]; simpl in *.
    + destruct (register_children _ _ _) as [plans s3]. by destruct (launch_ready_children_bounded _ _ _).
    + intros [= _ <-]. simpl. rewrite R1, R2, R3, R4, R5. destruct Hb as [Hi Hd].
      do 4 (split; [done|]). split; [by apply release_all_ok | by rewrite owners_release_all].
  - intros [= _ <-]. simpl. destruct Hb. by rewrite Q1, Q3, Q4, Q5.
Qed.

End FailedSpawn.

(** ** The dependency scheduler *)

Section Scheduler.
Context {J : SerdeJson} {H : SubagentHost} {P : ChildPayloads} (cfg : XConfig).

Definition agent_status (m : AgentSessionManager) (agent_id : AgentId) : option AgentStatus :=
  (fun r => AgentHandle_status (ar_handle r)) <$> am_records m !! agent_id.

Definition unfinished (m : AgentSessionManager) (agent_id : AgentId) : Prop :=
  exists status, agent_status m agent_id = Some status /\ status_is_terminal status = false.

Definition failed_status (status : AgentStatus) : bool :=
  match status with AgentStatus_Failed | AgentStatus_Cancelled => true | _ => false end.

Definition unsuccessful (m : AgentSessionManager) (agent_id : AgentId) : Prop :=
  exists status, agent_status m agent_id = Some status /\ failed_status status = true.

(** The verdict on a child whose dependencies are all known. *)
Definition released (m : AgentSessionManager) (deps : list AgentId) : Prop :=
  forall d, d ∈ deps -> agent_status m d = Some AgentStatus_Completed.
Definition doomed (m : AgentSessionManager) (deps : list AgentId) : Prop :=
  exists d, d ∈ deps /\ unsuccessful m d.
Definition held_by (m : AgentSessionManager) (deps : list AgentId) (d : AgentId) : Prop :=
  ~ doomed m deps /\ d ∈ deps /\ unfinished m d.

Definition known (m : AgentSessionManager) (agent_id : AgentId) : Prop := is_Some (am_records m !! agent_id).

Lemma known_snapshot m agent_id :
  known m agent_id -> exists snap, snapshot m agent_id = Ok snap
    /\ agent_status m agent_id = Some (AgentHandle_status (snap_handle snap)).
Proof. intros [r Hr]. unfold snapshot, record, agent_status. rewrite Hr. by eexists. Qed.

Lemma doomed_cons m d deps st :
  agent_status m d = Some st -> doomed m (d :: deps) <-> failed_status st = true \/ doomed m deps.
Proof.
  intros Hst. unfold doomed, unsuccessful. setoid_rewrite elem_of_cons. naive_solver.
Qed.

Lemma unfinished_cons m d deps st x :
  agent_status m d = Some st ->
  x ∈ d :: deps /\ unfinished m x
  <-> x = d /\ status_is_terminal st = false \/ x ∈ deps /\ unfinished m x.
Proof. intros Hst. unfold unfinished. rewrite elem_of_cons. naive_solver. Qed.

(** How a child ends whose dependencies are in the way: failed when one of them failed, else cancelled. *)
Definition failing_status (m : AgentSessionManager) (deps : list AgentId) : AgentStatus :=
  if existsb (fun d => bool_decide (agent_status m d = Some AgentStatus_Failed)) deps
  then AgentStatus_Failed else AgentStatus_Cancelled.
Definition status_of_failures (fs : list DependencyFailure) : AgentStatus :=
  if existsb (fun f => bool_decide (df_status f = AgentStatus_Failed)) fs
  then AgentStatus_Failed else AgentStatus_Cancelled.

Lemma gate_scan_spec m deps pending failures :
  Forall (known m) deps ->
  exists pending' fs, gate_scan m deps pending failures = Ok (pending', failures ++ fs)
    /\ (forall d, d ∈ pending' <-> d ∈ pending \/ d ∈ deps /\ unfinished m d)
    /\ (fs <> [] <-> doomed m deps) /\ status_of_failures fs = failing_status m deps.
Proof.
  intros Hk. revert pending failures. induction Hk as [|d deps Hd _ IH]; intros pending failures.
  { exists pending, []. simpl. rewrite app_nil_r. split; [done|]. split; [set_solver|].
    split; [|done]. split; [done|]. by intros (d & Hd%not_elem_of_nil & _). }
  destruct (known_snapshot m d Hd) as (snap & Hs & Ha). cbn [gate_scan]. rewrite Hs.
  cbn [as_tool_error result_bind]. setoid_rewrite (doomed_cons _ _ _ _ Ha).
  setoid_rewrite (fun x => unfinished_cons m d deps _ x Ha).
  destruct (AgentHandle_status (snap_handle snap)); cbn [failed_status status_is_terminal];
    lazymatch goal with
    | |- context [gate_scan m deps pending (failures ++ ?l)] =>
        destruct (IH pending (failures ++ l)) as (p & fs & -> & Hp & Hfs & Hst);
        exists p, (l ++ fs); rewrite <- app_assoc
    | |- context [gate_scan m deps ?pending' failures] =>
        destruct (IH pending' failures) as (p & fs & -> & Hp & Hfs & Hst); exists p, fs
    end.
  all: split; [done|]; split; [intros x; rewrite Hp; set_solver | split; [rewrite <- Hfs; intuition (done || congruence)|]].
  all: unfold status_of_failures, failing_status in *; cbn [existsb app df_status]; rewrite Ha; by rewrite ?bool_decide_false by done.
Qed.

Lemma dependency_gate_spec m deps :
  Forall (known m) deps ->
  exists gate, dependency_gate m deps = Ok gate
    /\ match gate with
       | Gate_Ready => released m deps
       | Gate_Failed fs => doomed m deps /\ status_of_failures fs = failing_status m deps
       | Gate_Blocked pending => (exists d, held_by m deps d) /\ forall d, d ∈ pending <-> held_by m deps d
       end.
Proof.
  intros Hk. destruct (gate_scan_spec m deps ∅ [] Hk) as (p & fs & Hs & Hp & Hfs & Hst).
  unfold dependency_gate. rewrite Hs. cbn [result_bind app fst snd]. eexists. split; [done|].
  destruct fs as [|f fs]; [|by split; [apply Hfs|]]. cbn [is_nil negb].
  assert (Hnd : ~ doomed m deps) by (intros Hd; by apply Hfs in Hd).
  assert (Hp' : forall d, d ∈ p <-> held_by m deps d) by (intros d; rewrite Hp; unfold held_by; set_solver).
  case_bool_decide as He.
  - intros d Hd. rewrite Forall_forall in Hk. destruct (known_snapshot m d (Hk d Hd)) as (snap & _ & Ha).
    rewrite Ha. f_equal. destruct (status_is_terminal (AgentHandle_status (snap_handle snap))) eqn:Et.
    + assert (failed_status (AgentHandle_status (snap_handle snap)) <> true) by
        (intros Hf; apply Hnd; exists d; split; [done | by eexists]).
      by destruct (AgentHandle_status (snap_handle snap)).
    + exfalso. assert (d ∈ p); [|set_solver]. apply Hp. right. split; [done | by eexists].
  - split; [|done]. apply set_choose_L in He as [d Hd]. exists d. by apply Hp'.
Qed.

(** What happens to one blocked child. *)
Definition child_launches (m : AgentSessionManager) (agent_id : AgentId) (plan : ChildLaunchPlan) : Prop :=
  unfinished m agent_id /\ released m (plan_dependency_agent_ids plan).
Definition child_fails (m : AgentSessionManager) (agent_id : AgentId) (plan : ChildLaunchPlan) : Prop :=
  unfinished m agent_id /\ doomed m (plan_dependency_agent_ids plan).
Definition child_waits (m : AgentSessionManager) (agent_id : AgentId) (plan : ChildLaunchPlan)
    (d : AgentId) : Prop :=
  unfinished m agent_id /\ held_by m (plan_dependency_agent_ids plan) d.

(** The child and its dependencies have records. *)
Definition child_known (m : AgentSessionManager) (child : AgentId * ChildLaunchPlan) : Prop :=
  known m child.1 /\ Forall (known m) (plan_dependency_agent_ids child.2).

(** A child is forgotten, to be launched unless it is terminal. *)
Definition child_leaves (m : AgentSessionManager) (agent_id : AgentId) (plan : ChildLaunchPlan) : Prop :=
  ~ unfinished m agent_id \/ released m (plan_dependency_agent_ids plan).

Lemma unfinished_snapshot m agent_id snap :
  snapshot m agent_id = Ok snap -> unfinished m agent_id <-> terminal (snap_handle snap) = false.
Proof.
  unfold snapshot, record, unfinished, agent_status, terminal.
  destruct (am_records m !! agent_id) as [r|]; [|done]. intros [= <-]. simpl. naive_solver.
Qed.

Lemma released_not_doomed m deps : released m deps -> ~ doomed m deps.
Proof. intros Hr (d & Hd & st & Hst & Hf). rewrite (Hr d Hd) in Hst. by simplify_eq. Qed.

Lemma held_not_released m deps d : held_by m deps d -> ~ released m deps.
Proof. intros (_ & Hd & st & Hst & Ht) Hr. rewrite (Hr d Hd) in Hst. by simplify_eq. Qed.

Lemma exists_child_cons (Q : AgentId -> ChildLaunchPlan -> Prop) a plan blocked x :
  (exists plan', (x, plan') ∈ (a, plan) :: blocked /\ Q x plan')
  <-> x = a /\ Q a plan \/ exists plan', (x, plan') ∈ blocked /\ Q x plan'.
Proof. setoid_rewrite elem_of_cons. naive_solver. Qed.

Lemma exists_any_child_cons (Q : AgentId -> ChildLaunchPlan -> Prop) a plan blocked :
  (exists a' plan', (a', plan') ∈ (a, plan) :: blocked /\ Q a' plan')
  <-> Q a plan \/ exists a' plan', (a', plan') ∈ blocked /\ Q a' plan'.
Proof. setoid_rewrite elem_of_cons. naive_solver. Qed.

(** One child, by its verdict. *)
Lemma triage_child m agent_id plan :
  child_known m (agent_id, plan) ->
  exists snap gate, snapshot m agent_id = Ok snap
    /\ dependency_gate m (plan_dependency_agent_ids plan) = Ok gate
    /\ if terminal (snap_handle snap) then
         child_leaves m agent_id plan /\ ~ child_fails m agent_id plan
         /\ forall d, ~ child_waits m agent_id plan d
       else
         match gate with
         | Gate_Ready => child_leaves m agent_id plan /\ ~ child_fails m agent_id plan
                         /\ forall d, ~ child_waits m agent_id plan d
         | Gate_Failed _ => ~ child_leaves m agent_id plan /\ child_fails m agent_id plan
                            /\ forall d, ~ child_waits m agent_id plan d
         | Gate_Blocked pending => ~ child_leaves m agent_id plan /\ ~ child_fails m agent_id plan
                                   /\ forall d, child_waits m agent_id plan d <-> d ∈ pending
         end.
Proof.
  intros [Hc Hd]. simpl in Hc, Hd. destruct (known_snapshot m agent_id Hc) as (snap & Hs & _).
  destruct (dependency_gate_spec m _ Hd) as (gate & Hg & Hgate). exists snap, gate.
  split; [done|]. split; [done|]. pose proof (unfinished_snapshot m agent_id snap Hs) as Hu.
  pose proof (released_not_doomed m (plan_dependency_agent_ids plan)) as Hrd.
  pose proof (held_not_released m (plan_dependency_agent_ids plan)) as Hhr.
  unfold child_leaves, child_fails, child_waits.
  destruct (terminal (snap_handle snap)); [|destruct gate as [|pending|failures]].
  - assert (Hn : ~ unfinished m agent_id) by (intros ?%Hu; done). tauto || naive_solver.
  - split; [by right|]. split; [naive_solver|]. intros d [_ Hh]. by apply (Hhr d).
  - destruct Hgate as [[d Hh] Hp]. assert (~ doomed m (plan_dependency_agent_ids plan)) by apply Hh.
    split; [|split; [tauto|]]; [naive_solver|]. intros x. rewrite Hp. naive_solver.
  - destruct Hgate as [Hgate _]. split; [naive_solver|]. split; [naive_solver|]. by intros d [_ [Hh _]].
Qed.

Lemma child_verdict m agent_id plan :
  child_known m (agent_id, plan) ->
  child_leaves m agent_id plan \/ child_fails m agent_id plan \/ exists d, child_waits m agent_id plan d.
Proof.
  intros [Hc Hd]. simpl in Hc, Hd. destruct (known_snapshot m agent_id Hc) as (snap & Hs & _).
  pose proof (unfinished_snapshot m agent_id snap Hs) as Hu.
  destruct (terminal (snap_handle snap)); [left; left; by intros ?%Hu|].
  assert (Hun : unfinished m agent_id) by (by apply Hu).
  destruct (dependency_gate_spec m _ Hd) as ([|pending|failures] & _ & Hgate).
  - left. by right.
  - destruct Hgate as [[d Hh] _]. right. right. by exists d.
  - right. left. split; [done | apply Hgate].
Qed.

Lemma waiting_stays m agent_id plan d :
  child_waits m agent_id plan d -> ~ child_leaves m agent_id plan /\ ~ child_fails m agent_id plan.
Proof.
  intros [Hu Hh]. pose proof (held_not_released _ _ _ Hh). destruct Hh as [Hn _].
  split; [by intros [?|?] | by intros [_ ?]].
Qed.

Lemma triage_spec m blocked t :
  Forall (child_known m) blocked ->
  let t' := triage m blocked t in
  (forall a, a ∈ tr_ready t' <-> a ∈ tr_ready t \/ exists plan, (a, plan) ∈ blocked /\ child_leaves m a plan)
  /\ (forall a, a ∈ (tr_failed t').*1
        <-> a ∈ (tr_failed t).*1 \/ exists plan, (a, plan) ∈ blocked /\ child_fails m a plan)
  /\ (forall d, d ∈ tr_waiting_on t'
        <-> d ∈ tr_waiting_on t \/ exists a plan, (a, plan) ∈ blocked /\ child_waits m a plan d).
Proof.
  intros Hk. revert t. induction Hk as [|[agent_id plan] blocked Hc _ IH]; intros t; cbn [triage].
  { setoid_rewrite elem_of_nil. naive_solver. }
  destruct (triage_child m agent_id plan Hc) as (snap & gate & -> & -> & Hv).
  setoid_rewrite exists_child_cons.
  setoid_rewrite (fun d => exists_any_child_cons (fun a p => child_waits m a p d)).
  destruct (terminal (snap_handle snap)); [|destruct gate as [|pending|failures]];
    destruct Hv as (HL & HF & HW);
    match goal with |- context [triage m blocked ?t'] => destruct (IH t') as (H1 & H2 & H3) end;
    clear IH; cbv zeta; (split; [|split]); intros x;
    first [rewrite H1 | rewrite H2 | rewrite H3]; clear H1 H2 H3; specialize (HW x);
    cbn [tr_ready tr_failed tr_waiting_on]; rewrite ?fmap_app, ?elem_of_app, ?elem_of_union; simpl;
    rewrite ?list_elem_of_singleton; tauto.
Qed.

Lemma blocked_in_order_elem blocked a plan :
  (a, plan) ∈ blocked_in_order blocked <-> blocked !! a = Some plan.
Proof. unfold blocked_in_order. by rewrite merge_sort_Permutation, elem_of_map_to_list. Qed.

Lemma forget_lookup blocked ids a plan :
  forget blocked ids !! a = Some plan <-> blocked !! a = Some plan /\ a ∉ ids.
Proof.
  revert blocked. induction ids as [|x ids IH]; intros blocked; simpl; [set_solver|].
  fold (forget (delete x blocked) ids). rewrite IH, lookup_delete_Some. set_solver.
Qed.

Lemma elem_of_ready_plans m blocked ready plan :
  plan ∈ ready_plans m blocked ready
  <-> exists a, a ∈ ready /\ blocked !! a = Some plan /\ unfinished m a.
Proof.
  unfold ready_plans. rewrite list_elem_of_omap. apply exist_proper. intros a.
  apply and_iff_compat_l. destruct (blocked !! a) as [p|]; simpl; [|naive_solver].
  unfold handle, record, unfinished, agent_status, terminal.
  destruct (am_records m !! a) as [r|]; simpl; [|naive_solver].
  destruct (status_is_terminal (AgentHandle_status (ar_handle r))) eqn:E; split.
  - done.
  - intros [_ (st & [= <-] & Ht)]. congruence.
  - intros [= <-]. split; [done | by eexists].
  - by intros [[= <-] _].
Qed.

(** What a round decides about the children. *)
Lemma round_decides m blocked :
  (forall a plan, blocked !! a = Some plan -> child_known m (a, plan)) ->
  let t := triage m (blocked_in_order blocked) (mkTriage [] [] ∅) in
  let blocked' := forget (forget blocked (tr_ready t)) (tr_failed t).*1 in
  (forall plan, plan ∈ ready_plans m blocked (tr_ready t)
     <-> exists a, blocked !! a = Some plan /\ child_launches m a plan)
  /\ (forall a, a ∈ (tr_failed t).*1 <-> exists plan, blocked !! a = Some plan /\ child_fails m a plan)
  /\ (forall a plan, blocked' !! a = Some plan
        <-> blocked !! a = Some plan /\ exists d, child_waits m a plan d)
  /\ (forall d, d ∈ tr_waiting_on t
        <-> exists a plan, blocked !! a = Some plan /\ child_waits m a plan d)
  /\ (tr_waiting_on t = ∅ <-> blocked' = ∅).
Proof.
  intros Hk t blocked'. unfold blocked'.
  assert (Hall : Forall (child_known m) (blocked_in_order blocked)).
  { apply Forall_forall. intros [a plan] Hin%blocked_in_order_elem. by apply Hk. }
  destruct (triage_spec m _ (mkTriage [] [] ∅) Hall) as (H1 & H2 & H3). fold t in H1, H2, H3.
  setoid_rewrite blocked_in_order_elem in H1. setoid_rewrite blocked_in_order_elem in H2.
  setoid_rewrite blocked_in_order_elem in H3. simpl in H1, H2, H3. setoid_rewrite elem_of_nil in H1.
  setoid_rewrite elem_of_nil in H2. setoid_rewrite elem_of_empty in H3.
  assert (Hkeep : forall a plan, forget (forget blocked (tr_ready t)) (tr_failed t).*1 !! a = Some plan
                    <-> blocked !! a = Some plan /\ exists d, child_waits m a plan d).
  { intros a plan. rewrite !forget_lookup, H1, H2. split.
    - intros [[Hb Hr] Hf]. split; [done|]. destruct (child_verdict m a plan (Hk _ _ Hb)) as [Hl|[Hl|Hl]]; [| |done].
      + destruct Hr. right. by exists plan.
      + destruct Hf. right. by exists plan.
    - intros [Hb [d Hw]]. destruct (waiting_stays _ _ _ _ Hw) as [Hnl Hnf].
      split; [split; [done|]|]; intros [[]|(p & Hb' & Hp)]; rewrite Hb in Hb'; by injection Hb' as <-. }
  split; [|split; [naive_solver|split; [done|split; [naive_solver|]]]].
  - intros plan. rewrite elem_of_ready_plans. setoid_rewrite H1. unfold child_leaves, child_launches. naive_solver.
  - split; intros He.
    + apply map_eq. intros a. rewrite lookup_empty. apply eq_None_not_Some. intros [plan [Hb [d Hw]]%Hkeep].
      assert (Hd : d ∈ tr_waiting_on t) by (apply H3; right; eauto). rewrite He in Hd. set_solver.
    + apply set_eq. intros d. rewrite H3. split; [|set_solver]. intros [[]|(a & plan & Hb & Hw)].
      assert (Hl : forget (forget blocked (tr_ready t)) (tr_failed t).*1 !! a = Some plan) by
        (apply Hkeep; eauto). by rewrite He, lookup_empty in Hl.
Qed.

End Scheduler.

(** ** A launch settles *)

Section Launch.
Context {J : SerdeJson} {H : SubagentHost} {P : ChildPayloads} (cfg : XConfig).

(** A continuation that keeps records and workers and releases the leases of an agent. *)
Definition reports (agent_id : AgentId) (k : X unit) : Prop :=
  forall s, x_sessions (k s).2 = x_sessions s /\ x_workers (k s).2 = x_workers s
    /\ x_leases (k s).2 = release (x_leases s) agent_id.

Lemma reports_bind {A} agent_id (m : X A) k :
  quietly m -> (forall a, reports agent_id (k a)) -> reports agent_id (a ← m; k a).
Proof.
  intros Hm Hk s. unfold mbind, X_bind. specialize (Hm s). destruct (m s) as [a s1].
  destruct Hm as [Hs Hl _ _ Hw]. simpl in *. destruct (Hk a s1) as (Hs1 & Hw1 & Hl1).
  by rewrite Hs1, Hw1, Hl1, Hs, Hl, Hw.
Qed.

Lemma xquiet_append_envelope parent h kind : quietly (append_agent_envelope parent h kind).
Proof.
  apply xquiet_bind; [apply xquiet_envelopes|]. intros es. apply xquiet_append.
Qed.

Lemma xquiet_release_worktree parent h : quietly (release_child_worktree parent h).
Proof.
  unfold release_child_worktree. destruct (AgentHandle_worktree_id h); [|apply xquiet_ret].
  destruct sw_has_worktree_manager; [|apply xquiet_ret]. apply xquiet_bind; [apply xquiet_get|].
  intros m. apply xquiet_bind; [apply xquiet_world | intros ?; apply xquiet_ret].
Qed.

Lemma report_failed_child_reports parent h t status kind res summary :
  reports (AgentHandle_agent_id h) (report_failed_child parent h t status kind res summary).
Proof.
  unfold report_failed_child. apply reports_bind; [apply xquiet_append_envelope | intros _].
  apply reports_bind; [destruct kind; [apply xquiet_append_envelope | apply xquiet_ret] | intros _].
  apply reports_bind; [apply xquiet_append_envelope | intros _].
  do 2 (apply reports_bind; [apply xquiet_append | intros _]).
  apply reports_bind; [apply xquiet_release_worktree | intros _]. by intros s.
Qed.

(** A step for one agent: the records and the leases of the others are as they were. *)
Record only_agent (a : AgentId) (s s' : XState) : Prop := {
  oa_records : forall b, b <> a -> am_records (x_sessions s') !! b = am_records (x_sessions s) !! b;
  oa_leases : forall b, b <> a -> claimed_paths (x_leases s') b = claimed_paths (x_leases s) b
}.

Lemma claimed_release_other l a b : b <> a -> claimed_paths (release l a) b = claimed_paths l b.
Proof.
  intros Hne. unfold claimed_paths, release, index_claimed_paths, index_release, paths_of.
  destruct (owners l !! a); simpl; [by rewrite lookup_delete_ne | done].
Qed.

Lemma only_agent_quiet a s s1 s' : world_only s s1 -> only_agent a s1 s' -> only_agent a s s'.
Proof. intros [Hs Hl _ _ _] [Hr Hc]. split; [by rewrite <- Hs | by rewrite <- Hl]. Qed.

(** The agent ended with a status, without a worker of its own. *)
Definition ended_with (a : AgentId) (status : AgentStatus) (s s' : XState) : Prop :=
  ended a s' /\ agent_status (x_sessions s') a = Some status /\ x_workers s' = x_workers s.

(** Finishing a known agent and reporting it. *)
Lemma finish_and_report agent_id s status res error (k : AgentHandle -> X unit) :
  agent_known agent_id s -> status_is_terminal status = true ->
  (forall h, AgentHandle_agent_id h = agent_id -> reports agent_id (k h)) ->
  let s' := ((finished ← with_manager (fun m => finish m agent_id status (Some res) error);
              match finished with Err _ => mret tt | Ok h => k h end) s).2 in
  ended_with agent_id status s s' /\ only_agent agent_id s s'.
Proof.
  intros (r & Hr & Hid) Hst Hk.
  unfold with_manager, mbind, X_bind, xget, xset, mret, X_ret, finish, finish_locked, notified, record.
  rewrite Hr, Hst. cbn [negb result_bind].
  match goal with |- context [k ?h ?s1] => destruct (Hk h Hid s1) as (Hs & Hw & Hl) end.
  cbv zeta. split.
  - split; [split; [|rewrite Hl; apply claimed_after_release]|split; [|by rewrite Hw]].
    + rewrite Hs. simpl. rewrite lookup_insert_eq. do 2 eexists. by split.
    + unfold agent_status. rewrite Hs. simpl. by rewrite lookup_insert_eq.
  - split; intros b Hb.
    + rewrite Hs. simpl. by rewrite lookup_insert_ne.
    + rewrite Hl. by rewrite claimed_release_other.
Qed.

Lemma fail_launch_child_ends parent h t error s :
  agent_known (AgentHandle_agent_id h) s ->
  let s' := (fail_launch_child parent h t error s).2 in
  ended_with (AgentHandle_agent_id h) AgentStatus_Failed s s' /\ only_agent (AgentHandle_agent_id h) s s'.
Proof.
  intros Hk. unfold fail_launch_child. unfold mbind at 1, X_bind at 1. unfold leased_paths.
  apply finish_and_report; [done | done|]. intros h' <-. apply report_failed_child_reports.
Qed.

Lemma fail_blocked_child_ends parent h t failures s :
  agent_known (AgentHandle_agent_id h) s ->
  let s' := (fail_blocked_child parent h t failures s).2 in
  ended_with (AgentHandle_agent_id h) (status_of_failures failures) s s' /\ only_agent (AgentHandle_agent_id h) s s'.
Proof.
  intros Hk. unfold fail_blocked_child. unfold mbind at 1, X_bind at 1. unfold leased_paths.
  apply finish_and_report; [done | by destruct (existsb _ _)|].
  intros h' <-. apply report_failed_child_reports.
Qed.

Lemma known_after_quiet agent_id s s' : world_only s s' -> agent_known agent_id s -> agent_known agent_id s'.
Proof. intros [Hs _ _ _ _]. unfold agent_known. by rewrite Hs. Qed.

Lemma xquiet_seed session : quietly (persist_child_session_seed session).
Proof.
  unfold persist_child_session_seed. apply xquiet_bind.
  { induction (S (length (ses_transcript session))) as [|n IH]; simpl; [apply xquiet_ret|].
    do 2 (apply xquiet_bind; [apply xquiet_world | intros ?]).
    apply xquiet_bind; [done | intros ?; apply xquiet_ret]. }
  intros l. apply xquiet_try; [apply xquiet_ret|]. intros events. destruct (is_nil events); [apply xquiet_ret|].
  apply xquiet_bind; [apply xquiet_world | intros ?; apply xquiet_ret].
Qed.

Lemma attach_child_worker_attaches plan s :
  let agent_id := AgentHandle_agent_id (plan_handle plan) in
  agent_known agent_id s ->
  let s' := (attach_child_worker plan s).2 in
  (exists j r, x_workers s' = x_workers s ++ [(j, plan)]
    /\ am_records (x_sessions s') !! agent_id = Some r /\ ar_join_handle r = Some j)
  /\ only_agent agent_id s s'.
Proof.
  intros agent_id (r & Hr & _). unfold attach_child_worker, mbind, X_bind, xget, xset, mret, X_ret.
  unfold attach_join_handle, record. simpl. fold agent_id. rewrite Hr. simpl. split.
  - do 2 eexists. split; [done|]. by rewrite lookup_insert_eq.
  - split; [|done]. intros b Hb. simpl. by rewrite lookup_insert_ne.
Qed.

(** Whether the host can start the runtime of a plan: the forked session is stored and the runtime
    is prepared. *)
Definition runtime_starts (plan : ChildLaunchPlan) (s : XState) : bool :=
  match (if plan_persist_session_seed plan then persist_child_session_seed (plan_session plan) else mret (Ok tt)) s with
  | (Ok _, s1) => is_ok (sw_prepare_runtime (build_child_runtime cfg plan) (x_world s1)).1
  | (Err _, _) => false
  end.

(** From [s] to [s'] the plan got a worker task that its record keeps; or, when its runtime
    cannot be started, its agent failed. *)
Definition settled (plan : ChildLaunchPlan) (s s' : XState) : Prop :=
  let agent_id := AgentHandle_agent_id (plan_handle plan) in
  if runtime_starts plan s then
    exists j r, x_workers s' = x_workers s ++ [(j, plan)]
      /\ am_records (x_sessions s') !! agent_id = Some r /\ ar_join_handle r = Some j
  else ended_with agent_id AgentStatus_Failed s s'.

Lemma launch_cases plan s :
  exists s1, world_only s s1
    /\ if runtime_starts plan s then launch_child_async cfg plan s = attach_child_worker plan s1
       else exists error, launch_child_async cfg plan s
              = fail_launch_child (plan_parent plan) (plan_handle plan) (plan_task plan) error s1.
Proof.
  unfold launch_child_async, runtime_starts, mbind, X_bind.
  set (seed := if plan_persist_session_seed plan then persist_child_session_seed (plan_session plan) else mret (Ok tt)).
  assert (Hq : quietly seed).
  { unfold seed. destruct (plan_persist_session_seed plan); [apply xquiet_seed | apply xquiet_ret]. }
  specialize (Hq s). destruct (seed s) as [[u|e] s1]; simpl in Hq; [|exists s1; split; [done|]; eexists; reflexivity].
  set (prepare := sw_prepare_runtime (build_child_runtime cfg plan)).
  pose proof (xquiet_world prepare s1) as Hq1.
  assert (Hp : (prepare (x_world s1)).1 = (xworld prepare s1).1) by (unfold xworld; by destruct (prepare _)).
  rewrite Hp. destruct (xworld prepare s1) as [[u1|e1] s2]; simpl in Hq1; cbn [fst is_ok];
    exists s2; (split; [by etransitivity|]); [done | eexists; reflexivity].
Qed.

Lemma launch_exact plan s :
  agent_known (AgentHandle_agent_id (plan_handle plan)) s ->
  let s' := (launch_child_async cfg plan s).2 in
  settled plan s s' /\ only_agent (AgentHandle_agent_id (plan_handle plan)) s s'.
Proof.
  intros Hk. unfold settled. destruct (launch_cases plan s) as (s1 & Hq & Hl).
  pose proof (known_after_quiet _ _ _ Hq Hk) as Hk1. pose proof (wo_workers _ _ Hq) as Hw1.
  destruct (runtime_starts plan s).
  - rewrite Hl. destruct (attach_child_worker_attaches plan s1 Hk1) as [(j & r & Hw & Hr) Ho].
    split; [|exact (only_agent_quiet _ _ _ _ Hq Ho)]. exists j, r. by rewrite Hw, Hw1.
  - destruct Hl as [error ->].
    destruct (fail_launch_child_ends (plan_parent plan) (plan_handle plan) (plan_task plan) error s1 Hk1) as [(He & Hst & Hw) Ho].
    split; [|exact (only_agent_quiet _ _ _ _ Hq Ho)]. split_and!; [done | done | by rewrite Hw].
Qed.

(** A launch settles: afterwards the child has a worker task whose handle its record
    keeps, or its record is terminal with a result and it holds no lease.  It is never
    left queued with nobody to run it. *)
Theorem launch_settles plan s :
  agent_known (AgentHandle_agent_id (plan_handle plan)) s ->
  settled plan s (launch_child_async cfg plan s).2.
Proof. intros Hk. by apply launch_exact. Qed.

Definition cancelled_in (agent_id : AgentId) (s : XState) : Prop :=
  ended agent_id s /\ agent_status (x_sessions s) agent_id = Some AgentStatus_Cancelled.

Lemma cancelled_quiet {A} agent_id (m : X A) s :
  quietly m -> cancelled_in agent_id s -> cancelled_in agent_id (m s).2.
Proof.
  intros Hm. destruct (Hm s) as [Hs Hl _ _ _]. unfold cancelled_in, ended. by rewrite Hs, Hl.
Qed.

(** The session manager's part. *)
Lemma cancel_known s agent_id reason files r :
  am_records (x_sessions s) !! agent_id = Some r -> terminal (ar_handle r) = false ->
  exists h res m' r', as_tool (with_manager (fun m => cancel m agent_id reason files)) s
      = (Ok (h, res), set_sessions m' s)
    /\ am_records m' !! agent_id = Some r' /\ AgentHandle_status (ar_handle r') = AgentStatus_Cancelled
    /\ ar_result r' = Some res.
Proof.
  intros Hr Ht. unfold as_tool, with_manager, cancel, cancel_locked, record, mbind, X_bind, xget, xset.
  rewrite Hr. cbn [result_bind]. rewrite Ht. do 4 eexists. split; [reflexivity|]. simpl.
  by rewrite lookup_insert_eq.
Qed.

(** Cancelling an own child that is not terminal always ends it: whether or not the
    parent's event log takes the events, the record is [Cancelled] with a result and the
    child's leases are free. *)
Theorem cancel_child_ends parent agent_id reason s h :
  agent_known agent_id s -> handle (x_sessions s) agent_id = Ok h -> terminal h = false ->
  AgentHandle_parent_agent_id h = par_parent_agent_id parent ->
  cancelled_in agent_id (cancel_child parent agent_id reason s).2.
Proof.
  intros (r & Hr & _) Hh Ht Hp. unfold cancel_child, xtry. unfold mbind at 1, X_bind at 1.
  assert (Ho : owned_child parent agent_id s = (Ok h, s)).
  { unfold owned_child, xtry, mbind, X_bind, xget, mret, X_ret, ensure_parent_can_access.
    rewrite Hh. cbn [as_tool_error]. by rewrite bool_decide_true. }
  assert (Hrh : ar_handle r = h) by (unfold handle, record in Hh; rewrite Hr in Hh; by injection Hh).
  rewrite Ho, Ht. unfold leased_paths. unfold mbind at 1, X_bind at 1.
  rewrite <- Hrh in Ht. unfold mbind at 1 2, X_bind at 1 2. cbv beta iota.
  destruct (cancel_known s agent_id reason (claimed_paths (x_leases s) agent_id) r Hr Ht)
    as (h' & res & m' & r' & Hc & Hr' & Hst & Hres).
  unfold xget, mret at 1, X_ret at 1. rewrite Hc. cbv beta iota.
  unfold release_leases. unfold mbind at 1, X_bind at 1. apply cancelled_quiet.
  { repeat first [apply xquiet_as_tool | apply xquiet_append_envelope | apply xquiet_append
      | apply xquiet_release_worktree | apply xquiet_ret | apply xquiet_try; [|intros ?]
      | apply xquiet_bind; [|intros ?]]. }
  split; [split; [|apply claimed_after_release]|].
  - exists r', res. unfold terminal. by rewrite Hst.
  - unfold agent_status. simpl. rewrite Hr'. simpl. by rewrite Hst.
Qed.

End Launch.

(** ** A round of the scheduler *)

Section Round.
Context {J : SerdeJson} {H : SubagentHost} {P : ChildPayloads} (cfg : XConfig).

Notation plan_id plan := (AgentHandle_agent_id (plan_handle plan)).

(** Steps for some agents. *)
Definition only_agents (ids : list AgentId) (s s' : XState) : Prop :=
  forall b, b ∉ ids -> am_records (x_sessions s') !! b = am_records (x_sessions s) !! b
    /\ claimed_paths (x_leases s') b = claimed_paths (x_leases s) b.

Lemma only_agents_cons a ids s s1 s' : only_agent a s s1 -> only_agents ids s1 s' -> only_agents (a :: ids) s s'.
Proof.
  intros [Hr Hc] Hrest b [Hb Hni]%not_elem_of_cons. destruct (Hrest b Hni) as [-> ->]. by split; [apply Hr | apply Hc].
Qed.

Lemma ended_kept ids a s s' : only_agents ids s s' -> a ∉ ids -> ended a s -> ended a s'.
Proof. intros Ho Ha. destruct (Ho a Ha) as [Hr Hc]. unfold ended. by rewrite Hr, Hc. Qed.

Lemma status_kept ids a s s' :
  only_agents ids s s' -> a ∉ ids -> agent_status (x_sessions s') a = agent_status (x_sessions s) a.
Proof. intros Ho Ha. destruct (Ho a Ha) as [Hr _]. unfold agent_status. by rewrite Hr. Qed.

Lemma known_kept a b s s1 : only_agent a s s1 -> b <> a -> agent_known b s -> agent_known b s1.
Proof. intros [Hr _] Hb. unfold agent_known. by rewrite Hr. Qed.

(** The outcome of a launch among others: a worker the record keeps, or a failed agent without one. *)
Definition launched (plan : ChildLaunchPlan) (started : list (nat * ChildLaunchPlan)) (s' : XState) : Prop :=
  exists s1, if runtime_starts cfg plan s1 then
    exists j r, (j, plan) ∈ started /\ am_records (x_sessions s') !! plan_id plan = Some r /\ ar_join_handle r = Some j
  else ended (plan_id plan) s' /\ agent_status (x_sessions s') (plan_id plan) = Some AgentStatus_Failed
       /\ plan ∉ started.*2.

Lemma launch_all plans s :
  NoDup (map (fun plan => plan_id plan) plans) -> (forall plan, plan ∈ plans -> agent_known (plan_id plan) s) ->
  let s' := (launch_ready_children_bounded cfg plans s).2 in
  only_agents (map (fun plan => plan_id plan) plans) s s'
  /\ exists started, x_workers s' = x_workers s ++ started /\ (forall plan, plan ∈ started.*2 -> plan ∈ plans)
     /\ forall plan, plan ∈ plans -> launched plan started s'.
Proof.
  revert s. induction plans as [|plan plans IH]; intros s Hnd Hk; cbn [launch_ready_children_bounded map].
  { split; [by intros b|]. exists []. rewrite app_nil_r. split_and!; [done | set_solver | set_solver]. }
  apply NoDup_cons in Hnd as [Hni Hnd]. unfold mbind, X_bind.
  destruct (launch_exact cfg plan s) as [Hset Ho]; [apply Hk; by left|].
  destruct (launch_child_async cfg plan s) as [u s1]. cbn [snd] in *.
  assert (Hne : forall p, p ∈ plans -> plan_id p <> plan_id plan).
  { intros p Hp He. apply Hni. rewrite <- He. apply list_elem_of_fmap. by exists p. }
  destruct (IH s1 Hnd) as (Hothers & started & Hw & Hin & Hall).
  { intros p Hp. eapply known_kept; [done | by apply Hne | apply Hk; by right]. }
  destruct (launch_ready_children_bounded cfg plans s1) as [u' s']. cbn [snd] in *.
  split; [by eapply only_agents_cons|].
  assert (Hfresh : plan ∉ started.*2) by (intros Hp%Hin; by apply (Hne plan)).
  unfold settled in Hset. destruct (runtime_starts cfg plan s) eqn:Es.
  - destruct Hset as (j & r & Hw1 & Hr & Hj). exists ((j, plan) :: started). split_and!.
    + by rewrite Hw, Hw1, <- app_assoc.
    + intros p [->|Hp%Hin]%elem_of_cons; [by left | by right].
    + intros p [->|Hp]%elem_of_cons.
      * exists s. rewrite Es. exists j, r. split; [by left|]. split; [|done]. by rewrite (proj1 (Hothers _ Hni)).
      * destruct (Hall p Hp) as [s2 Hp2]. exists s2. destruct (runtime_starts cfg p s2).
        -- destruct Hp2 as (j' & r' & Hj' & Hr'). exists j', r'. split; [by right | done].
        -- destruct Hp2 as (He & Hst & Hno). split_and!; [done..|]. cbn. intros [->|Hp']%elem_of_cons; [|done].
           by destruct (Hne plan Hp).
  - destruct Hset as (He & Hst & Hw1). exists started. split_and!.
    + by rewrite Hw, Hw1.
    + intros p Hp%Hin. by right.
    + intros p [->|Hp]%elem_of_cons; [|by apply Hall]. exists s. rewrite Es. split_and!; [|..|done].
      * by eapply ended_kept.
      * by rewrite (status_kept _ _ _ _ Hothers Hni).
Qed.

Lemma fail_all blocked failed s :
  NoDup failed.*1 ->
  (forall a fs, (a, fs) ∈ failed -> exists plan, blocked !! a = Some plan /\ plan_id plan = a /\ agent_known a s) ->
  let s' := (fail_children blocked failed s).2 in
  only_agents failed.*1 s s' /\ x_workers s' = x_workers s
  /\ forall a fs, (a, fs) ∈ failed ->
       ended a s' /\ agent_status (x_sessions s') a = Some (status_of_failures fs).
Proof.
  revert s. induction failed as [|[a fs] failed IH]; intros s Hnd Hk; cbn [fail_children fmap list_fmap fst].
  { split_and!; [by intros b | done | set_solver]. }
  apply NoDup_cons in Hnd as [Hni Hnd]. cbn [fst] in Hni. destruct (Hk a fs (list_elem_of_here _ _)) as (plan & Hb & Hid & Ha).
  unfold mbind, X_bind. rewrite Hb.
  destruct (fail_blocked_child_ends (plan_parent plan) (plan_handle plan) (plan_task plan) fs s) as [(He & Hst & Hw) Ho];
    [by rewrite Hid|]. rewrite Hid in He, Hst, Ho.
  destruct (fail_blocked_child _ _ _ _ s) as [u s1]. cbn [snd] in *.
  destruct (IH s1 Hnd) as (Hothers & Hw2 & Hall).
  { intros b fs' Hin. destruct (Hk b fs' (list_elem_of_further _ _ _ Hin)) as (plan' & ? & ? & ?). exists plan'.
    split_and!; [done..|]. eapply known_kept; [done | | done]. intros ->. apply Hni. apply list_elem_of_fmap. by exists (a, fs'). }
  destruct (fail_children blocked failed s1) as [u' s']. cbn [snd] in *.
  split; [by eapply only_agents_cons|]. split; [by rewrite Hw2|].
  intros b fs' [[= -> ->]|Hin]%elem_of_cons; [|by apply Hall].
  split; [by eapply ended_kept | by rewrite (status_kept _ _ _ _ Hothers Hni)].
Qed.

Lemma NoDup_part {A} (l k : list A) : l ⊆+ k -> NoDup k -> NoDup l.
Proof. intros [l' ->]%submseteq_Permutation. by intros (? & _ & _)%NoDup_app. Qed.

(** What a round puts aside is each child at most once, and a failure is what the gate says. *)
Lemma triage_once m blocked t :
  exists ready failed, tr_ready (triage m blocked t) = tr_ready t ++ ready
    /\ tr_failed (triage m blocked t) = tr_failed t ++ failed /\ ready ++ failed.*1 ⊆+ blocked.*1
    /\ forall a fs, (a, fs) ∈ failed -> exists plan, (a, plan) ∈ blocked
         /\ dependency_gate m (plan_dependency_agent_ids plan) = Ok (Gate_Failed fs).
Proof.
  revert t. induction blocked as [|[a plan] blocked IH]; intros t; cbn [triage].
  { exists [], []. rewrite !app_nil_r. split_and!; [done..| set_solver]. }
  assert (Hready : forall w, exists ready failed, tr_ready (triage m blocked (mkTriage (tr_ready t ++ [a]) (tr_failed t) w))
      = tr_ready t ++ ready /\ tr_failed (triage m blocked (mkTriage (tr_ready t ++ [a]) (tr_failed t) w)) = tr_failed t ++ failed
      /\ ready ++ failed.*1 ⊆+ a :: blocked.*1 /\ forall b fs, (b, fs) ∈ failed -> exists plan', (b, plan') ∈ (a, plan) :: blocked
         /\ dependency_gate m (plan_dependency_agent_ids plan') = Ok (Gate_Failed fs)).
  { intros w. destruct (IH (mkTriage (tr_ready t ++ [a]) (tr_failed t) w)) as (ready & failed & Hr & Hf & Hsub & Hg);
      cbn [tr_ready tr_failed] in Hr, Hf.
    exists (a :: ready), failed. rewrite Hr, Hf, <- app_assoc. split_and!; [done | done | by apply submseteq_skip |].
    intros b fs Hin. destruct (Hg b fs Hin) as (p & Hp & Hgate). exists p. split; [by right | done]. }
  assert (Hskip : forall w, exists ready failed, tr_ready (triage m blocked (mkTriage (tr_ready t) (tr_failed t) w))
      = tr_ready t ++ ready /\ tr_failed (triage m blocked (mkTriage (tr_ready t) (tr_failed t) w)) = tr_failed t ++ failed
      /\ ready ++ failed.*1 ⊆+ a :: blocked.*1 /\ forall b fs, (b, fs) ∈ failed -> exists plan', (b, plan') ∈ (a, plan) :: blocked
         /\ dependency_gate m (plan_dependency_agent_ids plan') = Ok (Gate_Failed fs)).
  { intros w. destruct (IH (mkTriage (tr_ready t) (tr_failed t) w)) as (ready & failed & Hr & Hf & Hsub & Hg);
      cbn [tr_ready tr_failed] in Hr, Hf.
    exists ready, failed. split_and!; [done | done | by apply submseteq_cons |].
    intros b fs Hin. destruct (Hg b fs Hin) as (p & Hp & Hgate). exists p. split; [by right | done]. }
  destruct (snapshot m a) as [snap|]; [|apply Hready]. destruct (terminal _); [apply Hready|].
  destruct (dependency_gate m (plan_dependency_agent_ids plan)) as [[|pending|failures]|] eqn:Eg;
    [apply Hready | apply Hskip | | apply Hready].
  destruct (IH (mkTriage (tr_ready t) (tr_failed t ++ [(a, failures)]) (tr_waiting_on t))) as (ready & failed & Hr & Hf & Hsub & Hg);
      cbn [tr_ready tr_failed] in Hr, Hf.
  exists ready, ((a, failures) :: failed). rewrite Hr, Hf, <- app_assoc. split_and!; [done | done | |].
  - cbn. rewrite <- Permutation_middle. by apply submseteq_skip.
  - intros b fs [[= -> ->]|Hin]%elem_of_cons; [exists plan; split; [by left | done]|].
    destruct (Hg b fs Hin) as (p & Hp & Hgate). exists p. split; [by right | done].
Qed.

Lemma ready_plans_ids m (blocked : gmap AgentId ChildLaunchPlan) ready :
  (forall a plan, blocked !! a = Some plan -> plan_id plan = a) ->
  map (fun plan => plan_id plan) (ready_plans m blocked ready) ⊆+ ready.
Proof.
  intros Hid. induction ready as [|a ready IH]; [done|]. unfold ready_plans in *. cbn [omap list_omap].
  destruct (blocked !! a) as [plan|] eqn:Eb; cbn [mbind option_bind]; [|by apply submseteq_cons].
  destruct (handle m a) as [h|]; [|by apply submseteq_cons]. destruct (terminal h); [by apply submseteq_cons|].
  cbn [map]. rewrite (Hid _ _ Eb). by apply submseteq_skip.
Qed.

(** A plan that was launched stays so while other agents are failed. *)
Lemma launched_kept plan started ids s s' :
  only_agents ids s s' -> plan_id plan ∉ ids -> launched plan started s -> launched plan started s'.
Proof.
  intros Ho Hni [s1 Hl]. exists s1. destruct (runtime_starts cfg plan s1).
  - by rewrite (proj1 (Ho _ Hni)).
  - rewrite (status_kept _ _ _ _ Ho Hni). destruct Hl as (He & Hst & Hno). split_and!; [by eapply ended_kept | done..].
Qed.

Definition round_triage (blocked : gmap AgentId ChildLaunchPlan) (m : AgentSessionManager) : Triage :=
  triage m (blocked_in_order blocked) (mkTriage [] [] ∅).

Lemma round_result blocked s :
  (scheduler_round cfg blocked s).1
  = (forget (forget blocked (tr_ready (round_triage blocked (x_sessions s)))) (tr_failed (round_triage blocked (x_sessions s))).*1,
     tr_waiting_on (round_triage blocked (x_sessions s))).
Proof.
  unfold scheduler_round, mbind, X_bind, xget, mret, X_ret.
  destruct (launch_ready_children_bounded _ _ _) as [u s1]. by destruct (fail_children _ _ s1).
Qed.

(** What a round does, in terms of what it decided. *)
Lemma round_steps blocked s :
  (forall a plan, blocked !! a = Some plan ->
     plan_id plan = a /\ agent_known a s /\ child_known (x_sessions s) (a, plan)) ->
  let m := x_sessions s in
  let t := round_triage blocked m in
  let s' := (scheduler_round cfg blocked s).2 in
  only_agents (map (fun plan => plan_id plan) (ready_plans m blocked (tr_ready t)) ++ (tr_failed t).*1) s s'
  /\ exists started, x_workers s' = x_workers s ++ started
    /\ (forall plan, plan ∈ started.*2 -> plan ∈ ready_plans m blocked (tr_ready t))
    /\ (forall plan, plan ∈ ready_plans m blocked (tr_ready t) -> launched plan started s')
    /\ forall a plan, blocked !! a = Some plan -> a ∈ (tr_failed t).*1 ->
         ended a s' /\ agent_status (x_sessions s') a = Some (failing_status m (plan_dependency_agent_ids plan)).
Proof.
  intros Hk m t. destruct (triage_once m (blocked_in_order blocked) (mkTriage [] [] ∅)) as (ready & failed & Hr & Hf & Hsub & Hg).
  fold (round_triage blocked m) t in Hr, Hf. cbn [tr_ready tr_failed app] in Hr, Hf.
  assert (Hnd : NoDup (ready ++ failed.*1)).
  { eapply NoDup_part; [exact Hsub|]. unfold blocked_in_order. rewrite merge_sort_Permutation. apply NoDup_fst_map_to_list. }
  apply NoDup_app in Hnd as (Hndr & Hdisj & Hndf).
  set (plans := ready_plans m blocked (tr_ready t)).
  pose proof (ready_plans_ids m blocked (tr_ready t) (fun a plan Hb => proj1 (Hk a plan Hb))) as Hids. rewrite Hr in Hids.
  destruct (launch_all plans s) as (Ho1 & started & Hw & Hin & Hl).
  { eapply NoDup_part; [unfold plans; rewrite Hr; exact Hids | exact Hndr]. }
  { intros plan (a & _ & Hb & _)%elem_of_ready_plans. destruct (Hk a plan Hb) as (-> & ? & _). done. }
  assert (Hbl : forall a fs, (a, fs) ∈ failed -> a ∉ ready
    /\ exists plan, blocked !! a = Some plan /\ plan_id plan = a /\ agent_known a s
         /\ status_of_failures fs = failing_status m (plan_dependency_agent_ids plan)).
  { intros a fs Hin'. split; [intros Ha; apply (Hdisj a Ha), list_elem_of_fmap; by exists (a, fs)|].
    destruct (Hg a fs Hin') as (plan & Hb%blocked_in_order_elem & Hgate). destruct (Hk a plan Hb) as (Hid & Ha & Hkn).
    exists plan. split_and!; [done..|]. destruct (dependency_gate_spec m _ (proj2 Hkn)) as (gate & Hg' & Hspec).
    cbn [snd] in Hg'. rewrite Hgate in Hg'. injection Hg' as <-. apply Hspec. }
  cbn zeta. unfold scheduler_round, mbind, X_bind, xget, mret, X_ret. fold m. fold (round_triage blocked m). fold t. fold plans.
  destruct (launch_ready_children_bounded cfg plans s) as [u s1]. cbn [snd] in *.
  destruct (fail_all (forget blocked (tr_ready t)) (tr_failed t) s1) as (Ho2 & Hw2 & Hfail).
  { by rewrite Hf. }
  { rewrite Hf. intros a fs Hin'. destruct (Hbl a fs Hin') as (Hnr & plan & Hb & Hid & Ha & _). exists plan.
    split_and!; [apply forget_lookup; by rewrite Hr | done|].
    assert (Hna : a ∉ map (fun plan => plan_id plan) plans).
    { intros Hx. apply Hnr. eapply elem_of_submseteq; [exact Hx|]. unfold plans. by rewrite Hr. }
    unfold agent_known. by rewrite (proj1 (Ho1 a Hna)). }
  destruct (fail_children _ _ s1) as [u' s2]. cbn [snd] in *. split.
  - intros b [Hb1 Hb2]%not_elem_of_app. destruct (Ho2 b Hb2) as [-> ->]. by apply Ho1.
  - exists started. split_and!; [by rewrite Hw2 | done | |].
    + intros plan Hp. eapply launched_kept; [exact Ho2 | | by apply Hl]. rewrite Hf. intros Hx.
      apply elem_of_ready_plans in Hp as (a & Ha & Hb & _). rewrite Hr in Ha. destruct (Hk a plan Hb) as [Hid _].
      subst a. by apply (Hdisj _ Ha).
    + intros a plan Hb ([a' fs] & -> & Hin')%list_elem_of_fmap. rewrite Hf in Hin'. cbn [fst] in *.
      destruct (Hbl a' fs Hin') as (_ & plan' & Hb' & _ & _ & Hst). rewrite Hb in Hb'. injection Hb' as <-.
      rewrite <- Hst. apply Hfail. by rewrite Hf.
Qed.

(** C12.  A round of the dependency scheduler is exact.  Every unfinished child all of whose dependencies
    completed gets a worker task, which its record keeps (it fails instead when the host cannot
    start its runtime), and no other child gets one.  Every unfinished child with a failed or
    cancelled dependency ends, failed or cancelled like its dependencies, with a result and without
    leases.  The records of all other agents are as they were.  The children that stay blocked are
    those with an unfinished dependency and no failed one, and the agents the scheduler waits for are
    their unfinished dependencies; so it stops waiting only when no child is left. *)
Theorem scheduler_round_exact blocked s :
  (forall a plan, blocked !! a = Some plan ->
     plan_id plan = a /\ agent_known a s /\ child_known (x_sessions s) (a, plan)) ->
  let m := x_sessions s in
  let '((blocked', waiting_on), s') := scheduler_round cfg blocked s in
  exists started, x_workers s' = x_workers s ++ started
  /\ (forall plan, plan ∈ started.*2 -> exists a, blocked !! a = Some plan /\ child_launches m a plan)
  /\ (forall a plan, blocked !! a = Some plan -> child_launches m a plan -> launched plan started s')
  /\ (forall a plan, blocked !! a = Some plan -> child_fails m a plan ->
        ended a s' /\ agent_status (x_sessions s') a = Some (failing_status m (plan_dependency_agent_ids plan)))
  /\ (forall a, (forall plan, blocked !! a = Some plan -> ~ child_launches m a plan /\ ~ child_fails m a plan) ->
        am_records (x_sessions s') !! a = am_records m !! a)
  /\ (forall a plan, blocked' !! a = Some plan
        <-> blocked !! a = Some plan /\ exists d, child_waits m a plan d)
  /\ (forall d, d ∈ waiting_on
        <-> exists a plan, blocked !! a = Some plan /\ child_waits m a plan d)
  /\ (waiting_on = ∅ <-> blocked' = ∅).
Proof.
  intros Hk m. assert (Hkn : forall a plan, blocked !! a = Some plan -> child_known m (a, plan))
    by (intros a plan Hb; apply (Hk a plan Hb)).
  destruct (round_decides m blocked Hkn) as (HR & HF & HK & HW & HE).
  destruct (round_steps blocked s Hk) as (Hothers & started & Hw & Hin & Hlaunch & Hfail).
  destruct (scheduler_round cfg blocked s) as [[blocked' waiting_on] s'] eqn:Er.
  pose proof (round_result blocked s) as Hres. rewrite Er in Hres. injection Hres as -> ->. cbn [snd] in *.
  exists started. split_and!; [done | | | | |exact HK | exact HW | exact HE].
  - intros plan Hp%Hin. by apply HR.
  - intros a plan Hb Hc. apply Hlaunch, HR. eauto.
  - intros a plan Hb Hc. eapply Hfail; [exact Hb|]. apply HF. eauto.
  - intros a Ha. apply Hothers.
    intros [(plan & -> & Hp)%list_elem_of_fmap|Hf%HF]%elem_of_app.
    + apply HR in Hp as (b & Hb & Hc). destruct (Hk b _ Hb) as [Hid _]. subst b. by destruct (Ha _ Hb) as [Hn _].
    + destruct Hf as (plan & Hb & Hc). by destruct (Ha _ Hb) as [_ Hn].
Qed.

End Round.

(** ** Concrete runs *)

#[local] Existing Instance json_text.

Section Concrete.

Fixpoint unary (n : nat) : string := match n with O => "" | S n => "i" +:+ unary n end.

Lemma unary_inj n k : unary n = unary k -> n = k.
Proof. revert k. induction n as [|n IH]; intros [|k]; [done..|]. intros [= E]. f_equal. auto. Qed.

Definition demo_profile : SubagentRuntimeProfile :=
  mkSubagentRuntimeProfile "plain" 0 child_context 0 (mkCompactionConfig false 200 100 1) [] [] 0
    None None true.

(** Ids are unary numbers; events are stored, and runtimes can be prepared. *)
#[local] Instance spawning_host : SubagentHost := {|
  SWorld := nat;
  sw_append_batch := fun _ n => (Ok tt, n);
  sw_events := fun _ _ => Ok [];
  sw_new_id := fun n => (unary n, S n);
  sw_now_ms := fun n => (N.of_nat n, n);
  sw_progress_sink := None;
  sw_has_worktree_manager := false;
  sw_create_child_worktree := fun _ _ n => (Err (ToolErr_InvalidState "none"), n);
  sw_release_child_worktree := fun _ _ n => (Ok None, n);
  sw_resolve_profile := fun _ n => (Ok demo_profile, n);
  sw_lease_guard := fun _ _ => Ok tt;
  sw_prepare_runtime := fun _ n => (Ok tt, n);
  sw_steer := fun _ _ _ n => (Ok tt, n);
  sw_run_user_message := fun _ _ m n => (Ok "", n);
  sw_end_session := fun _ _ n => n
|}.

Definition used_upto (n : nat) : gset string := list_to_set (unary <$> seq 0 n).

#[local] Instance spawning_ids : UniqueIds spawning_host.
Proof.
  refine (@Build_UniqueIds _ spawning_host (used_upto : SWorld -> gset string) _ _ _); unfold used_upto.
  - intros n. cbn [sw_new_id spawning_host fst snd]. split.
    + rewrite elem_of_list_to_set, list_elem_of_fmap. intros (k & Hk%unary_inj & Hin%elem_of_seq). lia.
    + rewrite seq_S, fmap_app, list_to_set_app. set_solver.
  - done.
  - done.
Defined.

#[local] Instance silent_children : ChildPayloads := {| parse_child_payload := fun _ => None |}.

Definition demo_config : XConfig :=
  mkXConfig ToolRegistry_new child_context (mkLoopDetectionConfig true 24 3 4 10).
Definition root_parent : SubagentParentContext := mkSubagentParentContext None None None None None None.
Definition other_parent : SubagentParentContext := mkSubagentParentContext None None None (Some "q") None None.

(** Two children that want the same file. *)
Definition demo_launch (id file : string) : SubagentLaunchSpec :=
  mkSubagentLaunchSpec
    (mkAgentTaskSpec id "worker" "do it" TaskOrigin_ChildAgentBacked None [] [file] [] None)
    (Message_user "m0" "go") false Worktree_Inherit None None.
Definition quarrel : list SubagentLaunchSpec := [demo_launch "t1" "x.rs"; demo_launch "t2" "x.rs"].
Definition peace : list SubagentLaunchSpec := [demo_launch "t1" "x.rs"; demo_launch "t2" "y.rs"].

Definition start_xstate : XState :=
  mkXState demo_manager WriteLeaseManager_new ∅ ∅ [] 3 0%nat.

Definition spawned (tasks : list SubagentLaunchSpec) := spawn demo_config root_parent tasks start_xstate.

Example quarrel_refused : is_ok (spawned quarrel).1 = false.
Proof. vm_compute. reflexivity. Qed.

Example peace_spawned : (length (x_workers (spawned peace).2), is_ok (spawned peace).1) = (2%nat, true).
Proof. vm_compute. reflexivity. Qed.

Lemma failed_spawn_leaves_nothing_witness :
  match spawned quarrel with
  | (Err _, s') =>
      x_sessions s' = x_sessions start_xstate /\ x_resumable s' = x_resumable start_xstate
      /\ x_mailboxes s' = x_mailboxes start_xstate /\ x_workers s' = x_workers start_xstate
      /\ index_ok (x_leases s') /\ owners (x_leases s') = owners (x_leases start_xstate)
  | _ => False
  end.
Proof.
  pose proof quarrel_refused as Hr. destruct (spawned quarrel) as [[hs|e] s'] eqn:E; [discriminate Hr|].
  apply (failed_spawn_leaves_nothing demo_config root_parent quarrel start_xstate e s');
    [apply index_ok_new | set_solver | exact E].
Defined.

Lemma foreign_parent_changes_nothing_witness :
  exists e, cancel_child other_parent "b" None start_xstate = (Err e, start_xstate).
Proof.
  destruct (foreign_parent_changes_nothing demo_config other_parent "b" start_xstate
              (demo_handle "b" AgentStatus_Running)) as (_ & _ & Hc & _); [reflexivity | done|].
  apply Hc.
Defined.

(** A child that waits for a running agent, one whose dependency is done. *)
Definition demo_plan (id dep : string) : ChildLaunchPlan :=
  mkChildLaunchPlan root_parent (demo_handle id AgentStatus_Queued) (demo_task id [dep]) ToolRegistry_new 5
    [dep] demo_profile (RuntimeSession_new "s" "as") false (Start_RunInput (Message_user "m0" "go") true).

Definition queued_manager : AgentSessionManager :=
  manager_insert (manager_insert demo_manager (demo_handle "c" AgentStatus_Queued) (demo_task "c" ["a"]) 3)
    (demo_handle "d" AgentStatus_Queued) (demo_task "d" ["b"]) 4.
Definition queued_xstate : XState := mkXState queued_manager WriteLeaseManager_new ∅ ∅ [] 5 0%nat.
Definition demo_blocked : gmap AgentId ChildLaunchPlan :=
  {[ "c" := demo_plan "c" "a"; "d" := demo_plan "d" "b" ]}.

Example demo_round :
  let '((blocked', waiting_on), s') := scheduler_round demo_config demo_blocked queued_xstate in
  ((map_to_list blocked').*1, elements waiting_on, (x_workers s').*2) = (["d"], ["b"], [demo_plan "c" "a"]).
Proof. vm_compute. reflexivity. Qed.

(** The child whose dependency is done gets the one new worker; the other one waits. *)
Lemma scheduler_round_exact_witness :
  let '((blocked', waiting_on), s') := scheduler_round demo_config demo_blocked queued_xstate in
  (exists started, x_workers s' = started /\ launched demo_config (demo_plan "c" "a") started s'
     /\ demo_plan "d" "b" ∉ started.*2)
  /\ (waiting_on = ∅ <-> blocked' = ∅).
Proof.
  pose proof (scheduler_round_exact demo_config demo_blocked queued_xstate) as Hr.
  destruct (scheduler_round demo_config demo_blocked queued_xstate) as [[b w] s'].
  destruct Hr as (started & Hw & Honly & Hlaunch & _ & _ & _ & _ & He).
  - unfold demo_blocked. intros a plan [[<- <-]|[_ [<- <-]%lookup_singleton_Some]]%lookup_insert_Some;
      (split; [done|]; split; [by eexists; split|]); split; try (constructor; [|constructor]); by eexists.
  - split; [|done]. exists started. split_and!; [done | |].
    + apply (Hlaunch "c"); [by vm_compute|]. split; [by eexists; split|].
      intros d ->%list_elem_of_singleton. by vm_compute.
    + intros (a & Ha & _ & Hrel)%Honly. specialize (Hrel "b" (list_elem_of_here _ _)). by vm_compute in Hrel.
Defined.

Lemma launch_settles_witness :
  settled demo_config (demo_plan "c" "a") queued_xstate
    (launch_child_async demo_config (demo_plan "c" "a") queued_xstate).2.
Proof. apply launch_settles. eexists. split; reflexivity. Defined.

Lemma cancel_child_ends_witness :
  cancelled_in "b" (cancel_child root_parent "b" None start_xstate).2.
Proof.
  apply (cancel_child_ends root_parent "b" None start_xstate (demo_handle "b" AgentStatus_Running));
    [eexists; split; reflexivity | reflexivity | reflexivity | reflexivity].
Defined.

End Concrete.
