(* ===== verification/HookFlow.v ===== *)
(** * Running hooks and applying their effects

    Models [crates/runtime/src/hooks/runner.rs] and [matcher.rs] (which hooks run
    for an event and in which order) and the stateful part of
    [crates/runtime/src/runtime/hook_effects.rs]: the effects of a batch are
    accumulated, then transcript mutations are applied and logged, then the
    messages the hooks appended. *)

From Stdlib Require Import String.
From stdpp Require Import base list gmap strings.
From Stdlib Require Import Lia.
From S2P Require Import Prelude Message Events Errors Session History HookEffects RuntimeState.

Section HookFlow.
Context {J : SerdeJson} {B : JsonBuild J} {H : Host}.

(** ** [hooks/matcher.rs] and [hooks/runner.rs] *)

(* crates/runtime/src/hooks/matcher.rs, matches_hook *)
Definition matches_hook (registration : HookRegistration) (context : HookContext)
    : result bool RuntimeError :=
  match hook_matcher registration with
  | None => Ok true
  | Some matcher =>
      let value :=
        default (value_to_string (ctx_payload context))
          (field ← opt_or (matcher_field matcher) (default_match_field (ctx_event context));
           ctx_fields context !! field) in
      match regex_is_match (matcher_pattern matcher) value with
      | Ok matched => Ok matched
      | Err e => Err (RtErr_Regex e)
      end
  end.

(** The [match &registration.handler] of [HookRunner::run]: an asynchronous
    command is spawned and adds nothing to the batch. *)
(* crates/runtime/src/hooks/runner.rs, HookRunner::run@match &registration.handler *)
Definition execute_hook (registration : HookRegistration) (context : HookContext)
    : M (option HookResult) :=
  match hook_handler registration with
  | Handler_Command command =>
      if command_hook_asynchronous command then
        _ ← ext (spawn_command registration context); mret None
      else r ← ext (command_execute registration context); output ← lift r; mret (Some output)
  | Handler_Http _ =>
      r ← ext (http_execute registration context); output ← lift r; mret (Some output)
  | Handler_Prompt _ =>
      r ← ext (prompt_evaluate registration context); output ← lift r; mret (Some output)
  | Handler_Agent _ =>
      r ← ext (agent_evaluate registration context); output ← lift r; mret (Some output)
  | Handler_Wasm _ =>
      r ← ext (wasm_execute registration context); output ← lift r; mret (Some output)
  end.

(** The loop of [HookRunner::run] over the registrations of the event. *)
(* crates/runtime/src/hooks/runner.rs, HookRunner::run@for registration in registrations *)
Fixpoint run_registrations (registrations : list HookRegistration) (context : HookContext)
    (batch : HookInvocationBatch) : M HookInvocationBatch :=
  match registrations with
  | [] => mret batch
  | registration :: rest =>
      if negb (bool_decide (hook_event registration = ctx_event context))
      then run_registrations rest context batch
      else
        matched ← lift (matches_hook registration context);
        if negb matched then run_registrations rest context batch
        else
          output ← execute_hook registration context;
          run_registrations rest context
            (match output with
             | Some output => batch ++ [mkHookInvocation registration output]
             | None => batch
             end)
  end.

(* crates/runtime/src/hooks/runner.rs, HookRunner::run *)
Definition run_hooks (hooks : list HookRegistration) (context : HookContext)
    : M HookInvocationBatch :=
  run_registrations hooks context [].

(* crates/runtime/src/hooks/runner.rs, HookRunner::drain_async_invocations *)
Definition drain_async_invocations : M HookInvocationBatch := ext async_try_recv_all.

(** [HookContext { event, session_id, agent_session_id, turn_id, fields, payload }]
    with the ids of the live session. *)
Definition hook_context (event : HookEvent) (turn_id : option TurnId)
    (fields : list (string * string)) (payload : Value) : M HookContext :=
  s ← session;
  mret (mkHookContext event (ses_session_id s) (ses_agent_session_id s) turn_id
          (list_to_map fields) payload).

(** ** Transcript mutations *)

(* crates/runtime/src/runtime/hook_effects.rs, AgentRuntime::resolve_mutable_transcript_target *)
Definition resolve_mutable_transcript_target (s : RuntimeSession)
    (target : TranscriptMutationTarget) : result (nat * MessageId) RuntimeError :=
  match target with
  | Target_MessageId message_id =>
      match visible_transcript_index_for_message_id s message_id with
      | Some index => Ok (index, message_id)
      | None =>
          Err (hook_error
                 (if transcript_contains_message_id s message_id
                  then "hook cannot mutate compacted or otherwise hidden transcript message "
                         +:+ bt +:+ message_id +:+ bt
                  else "unknown transcript message id " +:+ bt +:+ message_id +:+ bt))
      end
  | Target_LastOfRole role =>
      match visible_transcript_last_index_for_role s role with
      | Some index =>
          match ses_transcript s !! index with
          | Some message => Ok (index, msg_id message)
          | None =>
              Err (invalid_state ("visible transcript index " +:+ fmt_nat index
                                    +:+ " vanished during role lookup"))
          end
      | None =>
          let role_name := describe_role role in
          Err (hook_error
                 (if transcript_contains_role s role
                  then "hook cannot mutate compacted or otherwise hidden last " +:+ bt
                         +:+ role_name +:+ bt +:+ " transcript message"
                  else "hook cannot find any " +:+ bt +:+ role_name +:+ bt
                         +:+ " transcript message"))
      end
  end.

(** [self.session.transcript[index] = message]. *)
Definition write_message (index : nat) (message : Message) : M unit :=
  modify (fun s =>
    set_session s (with_transcript (rt_session s) (<[index := message]> (ses_transcript (rt_session s))))).

(* crates/runtime/src/runtime/hook_effects.rs, AgentRuntime::apply_transcript_message_replacement *)
Definition apply_transcript_message_replacement (turn_id : TurnId)
    (target : TranscriptMutationTarget) (message : Message) : M unit :=
  s ← session;
  '(index, message_id) ← lift (resolve_mutable_transcript_target s target);
  let message := with_message_id message message_id in
  _ ← write_message index message;
  _ ← modify (fun s => set_session s
        (with_removed (rt_session s) (ses_removed_message_ids (rt_session s) ∖ {[message_id]})));
  _ ← append_event (Some turn_id) None (Ev_TranscriptMessagePatched message_id message);
  reset_provider_continuation.

(* crates/runtime/src/runtime/hook_effects.rs, AgentRuntime::apply_transcript_message_patch *)
Definition apply_transcript_message_patch (turn_id : TurnId)
    (target : TranscriptMutationTarget) (patch : MessagePatch) : M unit :=
  s ← session;
  '(index, message_id) ← lift (resolve_mutable_transcript_target s target);
  match ses_transcript s !! index with
  | None =>
      raise (invalid_state ("transcript index " +:+ fmt_nat index +:+ " vanished during patch"))
  | Some message =>
      let patched_message := patch_message message patch in
      _ ← write_message index patched_message;
      _ ← append_event (Some turn_id) None (Ev_TranscriptMessagePatched message_id patched_message);
      reset_provider_continuation
  end.

(* crates/runtime/src/runtime/hook_effects.rs, AgentRuntime::apply_transcript_message_removal *)
Definition apply_transcript_message_removal (turn_id : TurnId)
    (target : TranscriptMutationTarget) : M unit :=
  s ← session;
  '(_, message_id) ← lift (resolve_mutable_transcript_target s target);
  _ ← modify (fun s => set_session s
        (with_removed (rt_session s) (ses_removed_message_ids (rt_session s) ∪ {[message_id]})));
  _ ← append_event (Some turn_id) None (Ev_TranscriptMessageRemoved message_id);
  reset_provider_continuation.

(* crates/runtime/src/runtime/hook_effects.rs, AgentRuntime::apply_transcript_mutations *)
Definition apply_transcript_mutations (turn_id : TurnId) (mutations : list TranscriptMutation)
    : M unit :=
  for_each (fun mutation =>
    match mutation with
    | Mutate_Replace target message => apply_transcript_message_replacement turn_id target message
    | Mutate_Patch target patch => apply_transcript_message_patch turn_id target patch
    | Mutate_Remove target => apply_transcript_message_removal turn_id target
    end) mutations.

(** ** Applying a batch *)

(** [for effect in invocation.output.effects { apply_hook_effect(...)? }]. *)
(* crates/runtime/src/runtime/hook_effects.rs, AgentRuntime::apply_hook_effects@for effect in *)
Fixpoint accumulate_effects (applied : AppliedHookEffects) (registration : HookRegistration)
    (current_tool_name : option ToolName) (effects : list HookEffect) : M AppliedHookEffects :=
  match effects with
  | [] => mret applied
  | effect :: rest =>
      message_id ← fresh;
      applied ← lift (apply_hook_effect message_id applied registration current_tool_name effect);
      accumulate_effects applied registration current_tool_name rest
  end.

(** [for invocation in batch.invocations { ... }]; [apply_hook_invocation] does
    nothing. *)
(* crates/runtime/src/runtime/hook_effects.rs, AgentRuntime::apply_hook_effects@for invocation in *)
Fixpoint accumulate_invocations (turn_id : TurnId) (applied : AppliedHookEffects)
    (current_tool_name : option ToolName) (batch : HookInvocationBatch) : M AppliedHookEffects :=
  match batch with
  | [] => mret applied
  | invocation :: rest =>
      let registration := inv_registration invocation in
      _ ← append_event (Some turn_id) None
            (Ev_HookInvoked (hook_name registration) (hook_event registration));
      applied ← accumulate_effects applied registration current_tool_name
                  (hook_result_effects (inv_output invocation));
      _ ← append_event (Some turn_id) None
            (Ev_HookCompleted (hook_name registration) (hook_event registration)
               (inv_output invocation));
      accumulate_invocations turn_id applied current_tool_name rest
  end.

(* crates/runtime/src/runtime/hook_effects.rs, AgentRuntime::apply_hook_effects *)
Definition apply_hook_effects (turn_id : TurnId) (batch : HookInvocationBatch)
    (current : option Message) (current_tool_name : option ToolName) : M AppliedHookEffects :=
  applied ← accumulate_invocations turn_id (AppliedHookEffects_with current) current_tool_name batch;
  _ ← apply_transcript_mutations turn_id (transcript_mutations applied);
  _ ← modify (fun s => set_pending s
        (rt_pending_additional_context s ++ additional_context applied)
        (rt_pending_injected_instructions s ++ injected_instructions applied));
  _ ← append_hook_messages turn_id (appended_messages applied);
  mret applied.

(* crates/runtime/src/runtime/hook_effects.rs, AgentRuntime::emit_hook_ui_events *)
Definition emit_hook_ui_events (applied : AppliedHookEffects) (observer : RuntimeObserver)
    : M unit :=
  for_each (fun event =>
    match event with
    | Ui_Toast variant message => on_event observer (Progress_TuiToastShow variant message)
    | Ui_PromptAppend text only_when_empty =>
        on_event observer (Progress_TuiPromptAppend text only_when_empty)
    end) (ui_events applied).

(* crates/runtime/src/runtime/hook_effects.rs, AgentRuntime::apply_hook_effects_with_observer *)
Definition apply_hook_effects_with_observer (turn_id : TurnId) (batch : HookInvocationBatch)
    (current : option Message) (current_tool_name : option ToolName) (observer : RuntimeObserver)
    : M AppliedHookEffects :=
  applied ← apply_hook_effects turn_id batch current current_tool_name;
  _ ← emit_hook_ui_events applied observer;
  mret applied.

End HookFlow.
