(* ===== verification/ToolFlow.v ===== *)
(** * The life of a tool call

    Models [crates/runtime/src/runtime/tool_flow.rs]: hooks, approval policy,
    approval handler, loop detector and sandbox policy stand between a tool call
    of the model and its execution; every call that is refused or fails is
    answered by an error result. *)

From Stdlib Require Import String.
From stdpp Require Import base list gmap strings.
From Stdlib Require Import Lia.
From S2P Require Import Prelude Message Events LoopDetection Errors Session History HookEffects.
From S2P Require Import SandboxPolicy Tools Approval RuntimeState HookFlow.

Section ToolFlow.
Context {J : SerdeJson} {B : JsonBuild J} {H : Host}.

(* crates/runtime/src/runtime.rs, ToolExecutionDisposition *)
Inductive ToolExecutionDisposition := Disposition_Completed | Disposition_Failed.

(* crates/runtime/src/runtime/tool_flow.rs, severity_label *)
Definition severity_label (severity : LoopSignalSeverity) : string :=
  match severity with Severity_Warning => "warning" | Severity_Critical => "critical" end.

(* crates/runtime/src/runtime/tool_flow.rs, approval_reasons_for_tool *)
Definition approval_reasons_for_tool (spec : ToolSpec) : list string :=
  let approval := spec_approval spec in
  (if approval_mutates_state approval then ["tool mutates workspace or persistent state"] else [])
  ++ (if approval_needs_network approval then ["tool performs network access"] else [])
  ++ (if approval_open_world approval
      then ["tool reaches outside the workspace or touches external systems"] else [])
  ++ (if approval_needs_host_escape approval
      then ["tool requires host escape or unsandboxed execution"] else [])
  ++ option_list (approval_approval_message approval).

Definition with_arguments (call : ToolCall) (arguments : Value) : ToolCall :=
  mkToolCall (call_id call) (call_call_id call) (call_tool_name call) arguments (call_origin call).

(* crates/runtime/src/runtime/tool_flow.rs, AgentRuntime::record_tool_failure_result *)
Definition record_tool_failure_result (hooks : list HookRegistration) (turn_id : TurnId)
    (call : ToolCall) (observer : RuntimeObserver) (error : string) : M unit :=
  fresh_call_id ← fresh;
  let result :=
    with_call_id (ToolResult_error fresh_call_id (call_id call) (call_tool_name call) error)
      (call_call_id call) in
  message_id ← fresh;
  _ ← append_message turn_id (Message_tool_result message_id result);
  lifecycle_event ← append_tool_lifecycle_event turn_id call (Ev_ToolCallFailed call error);
  _ ← on_lifecycle observer lifecycle_event;
  context ← hook_context HookEvent_PostToolUseFailure (Some turn_id)
              [("tool_name", call_tool_name call)] (json_object [("error", json_string error)]);
  failure_hooks ← run_hooks hooks context;
  _ ← apply_hook_effects_with_observer turn_id failure_hooks None (Some (call_tool_name call))
        observer;
  mret tt.

(** [return self.record_tool_failure_result(...).await.map(|_| Failed)]. *)
Definition fail_tool_call (hooks : list HookRegistration) (turn_id : TurnId) (call : ToolCall)
    (observer : RuntimeObserver) (error : string) : M ToolExecutionDisposition :=
  _ ← record_tool_failure_result hooks turn_id call observer error;
  mret Disposition_Failed.

(** The context a tool runs in: the base context, its sandbox policy widened by
    the grants, and the ids of the call. *)
(* crates/runtime/src/runtime/tool_flow.rs, AgentRuntime::handle_tool_call@let base_tool_context ~~ match tool *)
Definition scoped_tool_context (turn_id : TurnId) (tool_name : ToolName) (call : ToolCall)
    : M ToolExecutionContext := fun s =>
  let base_tool_context := sh_tool_context (rt_shared s) in
  match @effective_sandbox_policy (fs_view (rt_world s)) (sh_grants (rt_shared s))
          (sandbox_policy base_tool_context) with
  | Err e => (Raise e, s)
  | Ok policy =>
      (Ret (with_runtime_scope (with_sandbox_policy base_tool_context policy)
              (ses_session_id (rt_session s)) (ses_agent_session_id (rt_session s)) turn_id
              tool_name (call_call_id call)), s)
  end.

(** [match tool.execute(...).await]: a result is stored under the call's id, an
    error becomes a failure result. *)
(* crates/runtime/src/runtime/tool_flow.rs, AgentRuntime::handle_tool_call@match tool *)
Definition run_tool (hooks : list HookRegistration) (turn_id : TurnId) (tool : Tool)
    (tool_name : ToolName) (call : ToolCall) (context : ToolExecutionContext)
    (observer : RuntimeObserver) : M ToolExecutionDisposition :=
  _ ← modify (fun s =>
        add_action s (Act_Execute tool call context (rt_shared s) (fs_view (rt_world s))));
  executed ← ext (tool_execute tool (call_id call) (call_arguments call) context);
  match executed with
  | Ok result =>
      _ ← modify (fun s => set_detector s (record_result (rt_detector s) call result));
      let result := with_call_id result (call_call_id call) in
      message_id ← fresh;
      _ ← append_message turn_id (Message_tool_result message_id result);
      lifecycle_event ← append_tool_lifecycle_event turn_id call (Ev_ToolCallCompleted call result);
      _ ← on_lifecycle observer lifecycle_event;
      hook_ctx ← hook_context HookEvent_PostToolUse (Some turn_id) [("tool_name", tool_name)]
                   (json_object [("result", json_tool_result result)]);
      post_hooks ← run_hooks hooks hook_ctx;
      post_effects ← apply_hook_effects_with_observer turn_id post_hooks None (Some tool_name)
                       observer;
      match blocked_reason post_effects "post tool hook blocked" with
      | Some reason => raise (RtErr_AgentCore (Core_HookBlocked reason))
      | None => mret Disposition_Completed
      end
  | Err error =>
      _ ← modify (fun s =>
            set_detector s (record_error (rt_detector s) call (ToolError_display error)));
      fail_tool_call hooks turn_id call observer (ToolError_display error)
  end.

(** [self.tool_loop_detector.inspect(&call)]. *)
Definition inspect_call (call : ToolCall) : M (option LoopSignal) := fun s =>
  let (signal, detector) := inspect (rt_detector s) call in
  (Ret signal, add_action (set_detector s detector) (Act_Inspect call signal)).

(** From the started event to the execution. *)
(* crates/runtime/src/runtime/tool_flow.rs, AgentRuntime::handle_tool_call@let lifecycle_event ~~ match tool *)
Definition start_tool (hooks : list HookRegistration) (turn_id : TurnId) (tool : Tool)
    (tool_name : ToolName) (call : ToolCall) (observer : RuntimeObserver)
    : M ToolExecutionDisposition :=
  lifecycle_event ← append_tool_lifecycle_event turn_id call (Ev_ToolCallStarted call);
  _ ← on_lifecycle observer lifecycle_event;
  signal ← inspect_call call;
  _ ← match signal with
      | Some signal =>
          let message := "loop_detector [" +:+ severity_label (severity signal) +:+ "] "
                           +:+ reason signal in
          _ ← append_event (Some turn_id) (Some (call_id call))
                (Ev_Notification "loop_detector" message);
          on_event observer (Progress_Notification "loop_detector" message)
      | None => mret tt
      end;
  match signal with
  | Some (mkLoopSignal Severity_Critical reason) =>
      fail_tool_call hooks turn_id call observer ("loop detector blocked tool call: " +:+ reason)
  | _ =>
      context ← scoped_tool_context turn_id tool_name call;
      run_tool hooks turn_id tool tool_name call context observer
  end.

(** The handler's verdict, and whether the call may go on. *)
(* crates/runtime/src/runtime/tool_flow.rs, AgentRuntime::handle_tool_call@if !approval_reasons.is_empty *)
Definition request_approval (turn_id : TurnId) (call : ToolCall) (spec : ToolSpec)
    (approval_reasons : list string) (observer : RuntimeObserver) : M ToolApprovalOutcome :=
  if is_nil approval_reasons then mret Outcome_Approve
  else
    _ ← append_event (Some turn_id) (Some (call_id call))
          (Ev_ToolApprovalRequested call approval_reasons);
    _ ← on_event observer (Progress_ToolApprovalRequested call approval_reasons);
    let request := mkToolApprovalRequest call spec approval_reasons in
    decided ← ext (approval_handler_decide request);
    outcome ← lift decided;
    _ ← record_action (Act_Approval request outcome);
    let (approved, reason) :=
      match outcome with Outcome_Approve => (true, None) | Outcome_Deny reason => (false, reason) end in
    _ ← append_event (Some turn_id) (Some (call_id call))
          (Ev_ToolApprovalResolved call approved reason);
    _ ← on_event observer (Progress_ToolApprovalResolved call approved reason);
    mret outcome.

(** [self.tool_approval_policy.decide(&policy_request)]. *)
Definition decide_policy (request : ToolApprovalRequest) : M ToolApprovalPolicyDecision := fun s =>
  let decision := approval_policy_decide (rt_world s) request in
  (Ret decision, add_action s (Act_Policy request decision)).

(** The reasons put to the handler, or [None] when the policy denies. *)
(* crates/runtime/src/runtime/tool_flow.rs, AgentRuntime::handle_tool_call@match self.tool_approval_policy.decide ~~ if !approval_reasons.is_empty *)
Definition reasons_after_policy (spec : ToolSpec) (hook_approval_reasons : list string)
    (decision : ToolApprovalPolicyDecision) : option (list string) :=
  match decision with
  | Policy_Allow => Some hook_approval_reasons
  | Policy_Ask reason =>
      Some (approval_reasons_for_tool spec ++ hook_approval_reasons
              ++ [default "approval policy requested review" reason])
  | Policy_Deny _ => None
  | Policy_Abstain => Some (approval_reasons_for_tool spec ++ hook_approval_reasons)
  end.

(** [AgentCoreError::PermissionDenied(tool_name).to_string()]. *)
Definition permission_denied (tool_name : ToolName) : string :=
  AgentCoreError_display (Core_PermissionDenied tool_name).

(** From the approval policy on. *)
(* crates/runtime/src/runtime/tool_flow.rs, AgentRuntime::handle_tool_call@let policy_request ~~ if !approval_reasons.is_empty *)
Definition authorize_tool (hooks : list HookRegistration) (turn_id : TurnId) (tool : Tool)
    (tool_name : ToolName) (call : ToolCall) (hook_approval_reasons : list string)
    (observer : RuntimeObserver) : M ToolExecutionDisposition :=
  let spec := tool_spec tool in
  decision ← decide_policy
    (mkToolApprovalRequest call spec (approval_reasons_for_tool spec ++ hook_approval_reasons));
  match reasons_after_policy spec hook_approval_reasons decision with
  | None =>
      let reason := match decision with Policy_Deny reason => reason | _ => None end in
      fail_tool_call hooks turn_id call observer (default (permission_denied tool_name) reason)
  | Some approval_reasons =>
      outcome ← request_approval turn_id call spec approval_reasons observer;
      match outcome with
      | Outcome_Deny reason =>
          fail_tool_call hooks turn_id call observer (default (permission_denied tool_name) reason)
      | Outcome_Approve => start_tool hooks turn_id tool tool_name call observer
      end
  end.

Definition behavior_denies (effects : AppliedHookEffects) : bool :=
  match permission_behavior effects with Some Behavior_Deny => true | _ => false end.

(* crates/runtime/src/runtime/tool_flow.rs, AgentRuntime::handle_tool_call *)
Definition handle_tool_call (hooks : list HookRegistration) (turn_id : TurnId) (call : ToolCall)
    (observer : RuntimeObserver) : M ToolExecutionDisposition :=
  let tool_name := call_tool_name call in
  registry ← gets (fun s => sh_registry (rt_shared s));
  match registry_get registry tool_name with
  | None => raise (RtErr_AgentCore (Core_Tool ("tool not found: " +:+ tool_name)))
  | Some tool =>
      let fields :=
        ("tool_name", tool_name)
        :: match call_origin call with
           | Origin_Mcp server_name => [("mcp_server_name", server_name)]
           | _ => []
           end in
      context ← hook_context HookEvent_PreToolUse (Some turn_id) fields
                  (json_object [("tool_call", json_tool_call call)]);
      pre_hooks ← run_hooks hooks context;
      pre_effects ← apply_hook_effects_with_observer turn_id pre_hooks None (Some tool_name)
                      observer;
      _ ← record_action (Act_Gate call pre_effects);
      let call := from_option (with_arguments call) call (rewritten_tool_arguments pre_effects) in
      match blocked_reason pre_effects "tool use blocked" with
      | Some reason => fail_tool_call hooks turn_id call observer reason
      | None =>
          match default Decision_Allow (permission_decision pre_effects) with
          | Decision_Deny =>
              fail_tool_call hooks turn_id call observer
                (AgentCoreError_display (Core_ToolDenied tool_name))
          | Decision_Ask =>
              context ← hook_context HookEvent_PermissionRequest (Some turn_id) fields
                          (json_object [("tool_call", json_tool_call call)]);
              permission_hooks ← run_hooks hooks context;
              permission_effects ← apply_hook_effects_with_observer turn_id permission_hooks None
                                     (Some tool_name) observer;
              if behavior_denies permission_effects
                 || bool_decide (is_Some (blocked_reason permission_effects
                                            "permission request denied"))
              then
                fail_tool_call hooks turn_id call observer
                  (default (permission_denied tool_name)
                     (opt_or (gate_reason permission_effects) (stop_reason permission_effects)))
              else
                authorize_tool hooks turn_id tool tool_name call
                  [default "hook requested approval" (gate_reason permission_effects)] observer
          | Decision_Allow => authorize_tool hooks turn_id tool tool_name call [] observer
          end
      end
  end.

End ToolFlow.
