(* ===== verification/TurnLoop.v ===== *)
(** * Sessions, compaction and the turn loop

    Models the rest of [AgentRuntime]: agent-session lifecycle and operator
    commands ([crates/runtime/src/runtime.rs]), compaction and rollback
    ([runtime/history.rs]), the start of a turn ([runtime/turn_start.rs]) and the
    turn loop with its retries ([runtime/turn_loop.rs]).

    The turn loop, the two drain loops and the retry loop take fuel.  The retry
    loop is shown to end within its own bound; the others run until the model,
    the hooks and the operator have nothing more to say, so their fuel is an
    argument of every operation that contains them. *)

From Stdlib Require Import String.
From stdpp Require Import base list gmap strings.
From Stdlib Require Import Lia.
From S2P Require Import Prelude Message Events LoopDetection ControlPlane Errors Session History.
From S2P Require Import HookEffects SandboxPolicy Tools Approval RuntimeState HookFlow ToolFlow.

Section TurnLoop.
Context {J : SerdeJson} {B : JsonBuild J} {H : Host}.

(** ** Agent sessions ([runtime.rs]) *)

(* crates/runtime/src/runtime.rs, RunTurnOutcome *)
Record RunTurnOutcome := mkRunTurnOutcome {
  outcome_turn_id : TurnId;
  outcome_assistant_text : string
}.

(** [Err(AgentCoreError::HookBlocked(reason).into())]. *)
Definition hook_blocked {A} (reason : string) : M A :=
  raise (RtErr_AgentCore (Core_HookBlocked reason)).

(* crates/runtime/src/runtime.rs, AgentRuntime::end_session *)
Definition end_session (reason : option string) : M unit :=
  s ← session;
  if negb (ses_agent_session_started s) then mret tt
  else append_event None None (Ev_SessionEnd reason).

(* crates/runtime/src/runtime.rs, AgentRuntime::clear_pending_runtime_commands *)
Definition clear_pending_runtime_commands : M unit :=
  modify (fun s => set_control_plane s (clear (sh_control_plane (rt_shared s))).2).

(* crates/runtime/src/runtime.rs, AgentRuntime::clear_pending_runtime_commands_for_host *)
Definition clear_pending_runtime_commands_for_host : M nat := fun s =>
  let (removed, q) := clear (sh_control_plane (rt_shared s)) in (Ret removed, set_control_plane s q).

(** The four resets that follow a switch of session. *)
Definition reset_after_switch : M unit :=
  _ ← clear_pending_request_effects;
  _ ← clear_pending_runtime_commands;
  _ ← modify (fun s => set_detector s (detector_reset (rt_detector s)));
  modify (fun s => set_grants s (clear_all (sh_grants (rt_shared s)))).

(* crates/runtime/src/runtime.rs, AgentRuntime::start_new_session *)
Definition start_new_session : M unit :=
  s ← session;
  _ ← (if ses_agent_session_started s
       then append_event None None (Ev_SessionEnd (Some "operator_new_session"))
       else mret tt);
  session_id ← fresh;
  agent_session_id ← fresh;
  _ ← modify (fun s => set_session s (RuntimeSession_new session_id agent_session_id));
  reset_after_switch.

(* crates/runtime/src/runtime.rs, AgentRuntime::resume_session *)
Definition resume_session (resumed : RuntimeSession) : M unit :=
  s ← session;
  _ ← (if ses_agent_session_started s
       then append_event None None (Ev_SessionEnd (Some "operator_resume_switch"))
       else mret tt);
  _ ← modify (fun s => set_session s
        (with_provider (with_agent resumed (ses_agent_session_id resumed) false
                          TokenLedgerSnapshot_default) None 0));
  reset_after_switch.

(* crates/runtime/src/runtime.rs, AgentRuntime::start_agent_session *)
Definition start_agent_session (turn_id : TurnId) (hooks : list HookRegistration)
    (reason : string) (observer : RuntimeObserver) : M unit :=
  s ← session;
  if ses_agent_session_started s then mret tt
  else
    context ← hook_context HookEvent_SessionStart None [("reason", reason)]
                (json_object [("reason", json_string reason)]);
    session_start_hooks ← run_hooks hooks context;
    effects ← apply_hook_effects_with_observer turn_id session_start_hooks None None observer;
    match blocked_reason effects "session start blocked" with
    | Some reason => hook_blocked reason
    | None =>
        _ ← append_event None None (Ev_SessionStart (Some reason));
        modify (fun s => set_session s
          (with_agent (rt_session s) (ses_agent_session_id (rt_session s)) true
             (ses_token_ledger (rt_session s))))
    end.

(* crates/runtime/src/runtime.rs, AgentRuntime::rotate_agent_session *)
Definition rotate_agent_session (turn_id : TurnId) (hooks : list HookRegistration)
    (end_reason start_reason : string) (observer : RuntimeObserver) : M unit :=
  _ ← append_event None None (Ev_SessionEnd (Some end_reason));
  next_agent_session_id ← fresh;
  _ ← modify (fun s => set_session s
        (with_agent (rt_session s) next_agent_session_id false TokenLedgerSnapshot_default));
  _ ← reset_provider_continuation;
  start_agent_session turn_id hooks start_reason observer.

(* crates/runtime/src/runtime.rs, AgentRuntime::steer_with_observer *)
Definition steer_with_observer (message : string) (reason : option string)
    (observer : RuntimeObserver) : M unit :=
  turn_id ← fresh;
  message_id ← fresh;
  _ ← append_message turn_id (Message_system message_id message);
  _ ← append_event (Some turn_id) None (Ev_SteerApplied message reason);
  on_event observer (Progress_SteerApplied message reason).

(* crates/runtime/src/runtime.rs, AgentRuntime::augment_user_message *)
Definition augment_user_message (message : Message) : M AugmentedUserMessage :=
  augmentor ← gets rt_user_message_augmentor;
  match augmentor with
  | None => mret (augmented_unchanged message)
  | Some augmentor =>
      s ← session;
      r ← ext (augmentor_augment augmentor
                 (mkUserMessageAugmentationContext (ses_session_id s) (ses_agent_session_id s))
                 message);
      mret (match r with Ok augmented => augmented | Err _ => augmented_unchanged message end)
  end.

(** [self.control_plane.pop_next_safe_point()] and [pop_next()]. *)
Definition pop_safe_point : M (option QueuedRuntimeCommand) := fun s =>
  let (queued, q) := pop_next_safe_point (sh_control_plane (rt_shared s)) in
  (Ret queued, set_control_plane s q).

Definition pop_queued : M (option QueuedRuntimeCommand) := fun s =>
  let (queued, q) := pop_next (sh_control_plane (rt_shared s)) in
  (Ret queued, set_control_plane s q).

(* crates/runtime/src/runtime.rs, AgentRuntime::drain_runtime_steers *)
Fixpoint drain_runtime_steers (fuel : nat) (applied_any : bool) (observer : RuntimeObserver)
    : M bool :=
  steer ← pop_safe_point;
  match steer, fuel with
  | None, _ => mret applied_any
  | Some _, 0%nat => out_of_fuel
  | Some steer, S fuel =>
      _ ← match queued_command steer with
          | Command_Steer message reason => steer_with_observer message reason observer
          | Command_Prompt _ _ => mret tt
          end;
      drain_runtime_steers fuel true observer
  end.

(** ** Construction and host setters ([runtime.rs]) *)

(** What [AgentRuntime::new] does to the shared tool context: unset visibility
    fields are filled in from the backend and the agent's name. *)
(* crates/runtime/src/runtime.rs, AgentRuntime::new@let backend_visibility ~~ Self { *)
Definition fill_model_visibility (context : ToolExecutionContext)
    (backend_visibility : ToolVisibilityContext) : ToolVisibilityContext :=
  let current := tc_model_visibility context in
  mkToolVisibilityContext (opt_or (vis_provider current) (vis_provider backend_visibility))
    (opt_or (vis_model current) (vis_model backend_visibility))
    (opt_or (vis_role current) (non_empty_trimmed (tc_agent_name context)))
    (vis_features current).

Definition with_model_visibility (c : ToolExecutionContext) (visibility : ToolVisibilityContext)
    : ToolExecutionContext :=
  mkToolExecutionContext (tc_workspace_root c) (tc_worktree_root c) (tc_active_worktree_id c)
    (tc_sandbox_root c) (tc_additional_roots c) (tc_read_only_roots c) (tc_writable_roots c)
    (tc_exec_roots c) (tc_network_policy c) (tc_effective_sandbox_policy c) (tc_workspace_only c)
    (tc_container_workdir c) (tc_model_context_window_tokens c) (tc_session_id c)
    (tc_agent_session_id c) (tc_turn_id c) (tc_agent_id c) (tc_agent_name c) (tc_task_id c)
    (tc_allowed_mcp_servers c) (tc_allowed_skill_names c) (tc_tool_name c) (tc_tool_call_id c)
    visibility (tc_write_guard c) (tc_user_input_handler c)
    (tc_permission_request_handler c) (tc_checkpoint_handler c) (tc_session_control_handler c)
    (tc_task_manager c).

(* crates/runtime/src/runtime.rs, AgentRuntime::new *)
Definition AgentRuntime_new (backend_visibility : ToolVisibilityContext)
    (tool_registry : ToolRegistry) (tool_context : ToolExecutionContext)
    (compaction_config : CompactionConfig) (loop_detection_config : LoopDetectionConfig)
    (base_instructions : list string) (hook_registrations : list HookRegistration)
    (live : RuntimeSession) (permission_grants : PermissionGrantSnapshot)
    (user_message_augmentor : option nat) (world : World) (next : nat) : RState :=
  mkRState live (ToolLoopDetector_new loop_detection_config) compaction_config base_instructions
    hook_registrations [] [] user_message_augmentor
    (mkShared RuntimeControlPlane_new permission_grants
       (with_model_visibility tool_context (fill_model_visibility tool_context backend_visibility))
       tool_registry) world next [].

Definition set_tool_context (s : RState) (c : ToolExecutionContext) : RState :=
  set_env s (mkShared (sh_control_plane (rt_shared s)) (sh_grants (rt_shared s)) c
               (sh_registry (rt_shared s))) (rt_world s).

(* crates/runtime/src/runtime.rs, AgentRuntime::replace_base_instructions *)
Definition replace_base_instructions (instructions : list string) : M unit :=
  modify (fun s => set_host s instructions (rt_hook_registrations s) (rt_user_message_augmentor s)).

(* crates/runtime/src/runtime.rs, AgentRuntime::replace_hooks *)
Definition replace_hooks (hooks : list HookRegistration) : M unit :=
  modify (fun s => set_host s (rt_base_instructions s) hooks (rt_user_message_augmentor s)).

(* crates/runtime/src/runtime.rs, AgentRuntime::replace_user_message_augmentor *)
Definition replace_user_message_augmentor (augmentor : option nat) : M unit :=
  modify (fun s => set_host s (rt_base_instructions s) (rt_hook_registrations s) augmentor).

(* crates/runtime/src/runtime.rs, AgentRuntime::set_base_sandbox_policy *)
Definition set_base_sandbox_policy (policy : SandboxPolicy) : M unit :=
  modify (fun s => set_tool_context s (with_sandbox_policy (sh_tool_context (rt_shared s)) policy)).

(* crates/runtime/src/runtime.rs, AgentRuntime::replace_tool_visibility_context *)
Definition replace_tool_visibility_context (visibility : ToolVisibilityContext) : M unit :=
  modify (fun s =>
    set_tool_context s (with_model_visibility (sh_tool_context (rt_shared s)) visibility)).

(** ** Turn start ([turn_start.rs]) *)

(* crates/runtime/src/runtime/turn_start.rs, preview_user_message *)
Definition preview_user_message (message : Message) : string :=
  let trimmed := trim (message_operator_text message) in
  if str_is_empty trimmed then "<structured user input>" else trimmed.

(* crates/runtime/src/runtime/turn_start.rs, AgentRuntime::record_instruction_load *)
Definition record_instruction_load (turn_id : TurnId) (hooks : list HookRegistration)
    (instructions : list string) (observer : RuntimeObserver) : M unit :=
  if is_nil instructions then mret tt
  else
    context ← hook_context HookEvent_InstructionsLoaded (Some turn_id)
                [("reason", "runtime_instructions")]
                (json_object [("count", json_usize (length instructions))]);
    instruction_hooks ← run_hooks hooks context;
    effects ← apply_hook_effects_with_observer turn_id instruction_hooks None None observer;
    match blocked_reason effects "instruction load blocked" with
    | Some reason => hook_blocked reason
    | None => append_event (Some turn_id) None (Ev_InstructionsLoaded (length instructions))
    end.

(* crates/runtime/src/runtime/turn_start.rs, AgentRuntime::append_prefix_messages *)
Definition append_prefix_messages (turn_id : TurnId) (messages : list Message) : M unit :=
  for_each (append_message turn_id) messages.

(* crates/runtime/src/runtime/turn_start.rs, AgentRuntime::submit_user_message *)
Definition submit_user_message (turn_id : TurnId) (hooks : list HookRegistration)
    (prefix_messages : list Message) (message : Message)
    (submitted_prompt : option SubmittedPromptSnapshot) (observer : RuntimeObserver) : M unit :=
  let prompt := preview_user_message message in
  context ← hook_context HookEvent_UserPromptSubmit (Some turn_id) []
              (json_object [("prompt", json_string prompt); ("message", json_message message)]);
  user_hooks ← run_hooks hooks context;
  user_effects ← apply_hook_effects_with_observer turn_id user_hooks (Some message) None observer;
  match blocked_reason user_effects "user prompt blocked" with
  | Some reason => hook_blocked reason
  | None =>
      match current_message user_effects with
      | None => hook_blocked "user prompt removed by hook"
      | Some user_message =>
          let event_prompt :=
            if bool_decide (user_message = message)
            then default (snapshot_from_message user_message) submitted_prompt
            else snapshot_from_message user_message in
          _ ← append_prefix_messages turn_id prefix_messages;
          _ ← append_message turn_id user_message;
          _ ← append_event (Some turn_id) None (Ev_UserPromptSubmit event_prompt);
          on_event observer (Progress_UserPromptAdded prompt)
      end
  end.

(* crates/runtime/src/runtime/turn_start.rs, AgentRuntime::prepare_user_turn *)
Definition prepare_user_turn (turn_id : TurnId) (hooks : list HookRegistration)
    (instructions : list string) (message : Message)
    (submitted_prompt : option SubmittedPromptSnapshot) (observer : RuntimeObserver) : M unit :=
  _ ← clear_pending_request_effects;
  _ ← modify (fun s => set_grants s (clear_turn (sh_grants (rt_shared s))));
  _ ← start_agent_session turn_id hooks "new_session" observer;
  _ ← record_instruction_load turn_id hooks instructions observer;
  async_context ← drain_async_invocations;
  _ ← apply_hook_effects_with_observer turn_id async_context None None observer;
  augmented ← augment_user_message message;
  submit_user_message turn_id hooks (aug_prefix_messages augmented) (aug_message augmented)
    submitted_prompt observer.

(** ** Compaction and rollback ([history.rs]) *)

(** The injected instructions joined behind the operator's. *)
Definition compaction_instructions (instructions : option string) (injected : list string)
    : option string :=
  if is_nil injected then instructions
  else
    let joined := str_join (nl +:+ nl) injected in
    Some (match instructions with
          | Some existing => existing +:+ nl +:+ nl +:+ joined
          | None => joined
          end).

(** From the summary on: it is appended to the transcript, becomes the head of
    the window, and the checkpoint is logged. *)
(* crates/runtime/src/runtime/history.rs, AgentRuntime::compact_visible_history@let retained_tail_message_ids *)
Definition install_summary (turn_id : TurnId) (reason : string) (summary : string)
    (source_messages : list Message) (retained_tail_indices : list nat)
    (compacted_through_message_id : MessageId) (observer : RuntimeObserver) : M unit :=
  s ← session;
  let retained_tail_message_ids :=
    omap (fun index => msg_id <$> ses_transcript s !! index) retained_tail_indices in
  let summary_index := length (ses_transcript s) in
  summary_message_id ← fresh;
  _ ← append_message turn_id (Message_system summary_message_id summary);
  _ ← reset_provider_continuation;
  _ ← modify (fun s => set_session s
        (with_window (rt_session s) summary_index retained_tail_indices));
  _ ← append_event (Some turn_id) None
        (Ev_CompactionCompleted reason (length source_messages) (length retained_tail_indices)
           (chars_count summary) (Some summary_message_id) retained_tail_message_ids);
  on_event observer
    (Progress_CompactionCompleted reason (length source_messages) (length retained_tail_indices)
       summary compacted_through_message_id summary_message_id).

(* crates/runtime/src/runtime/history.rs, AgentRuntime::compact_visible_history *)
Definition compact_visible_history (turn_id : TurnId) (reason : string)
    (instructions : option string) (post_compaction_instructions : option (list string))
    (observer : RuntimeObserver) : M bool :=
  s ← session;
  config ← gets rt_compaction_config;
  let visible_indices := visible_message_indices s in
  if (length visible_indices <? 2)%nat then mret false
  else
    let visible_messages := session_visible_transcript s in
    match select_compaction_split_index visible_messages (cc_preserve_recent_messages config) with
    | None => mret false
    | Some split_at =>
        if (split_at <? 2)%nat then mret false
        else
          let source_indices := take split_at visible_indices in
          let retained_tail_indices := drop split_at visible_indices in
          let source_messages := omap (fun index => ses_transcript s !! index) source_indices in
          match last source_messages with
          | None => mret false
          | Some last_source =>
              if (length source_messages <? 2)%nat then mret false
              else
                registrations ← gets rt_hook_registrations;
                let counts :=
                  [("reason", json_string reason);
                   ("source_message_count", json_usize (length source_messages));
                   ("retained_message_count", json_usize (length retained_tail_indices))] in
                pre_context ← hook_context HookEvent_PreCompact (Some turn_id)
                                [("reason", reason)] (json_object counts);
                pre_hooks ← run_hooks registrations pre_context;
                pre_effects ← apply_hook_effects_with_observer turn_id pre_hooks None None observer;
                if bool_decide (is_Some (blocked_reason pre_effects "compaction blocked"))
                then mret false
                else
                  now ← session;
                  compacted ← ext (compactor_compact
                    (mkCompactionRequest (ses_session_id now) (ses_agent_session_id now) turn_id
                       source_messages visible_messages
                       (compaction_instructions instructions
                          (injected_instructions pre_effects))));
                  summary ← lift compacted;
                  _ ← install_summary turn_id reason summary source_messages
                        retained_tail_indices (msg_id last_source) observer;
                  registrations ← gets rt_hook_registrations;
                  post_context ← hook_context HookEvent_PostCompact (Some turn_id)
                                   [("reason", reason)]
                                   (json_object (counts ++ [("summary", json_string summary)]));
                  post_hooks ← run_hooks registrations post_context;
                  _ ← apply_hook_effects_with_observer turn_id post_hooks None None observer;
                  hooks ← gets rt_hook_registrations;
                  _ ← rotate_agent_session turn_id hooks "compaction" "compaction" observer;
                  _ ← match post_compaction_instructions with
                      | Some instructions =>
                          record_instruction_load turn_id hooks instructions observer
                      | None => mret tt
                      end;
                  mret true
          end
    end.

(* crates/runtime/src/runtime/history.rs, AgentRuntime::compact_if_needed *)
Definition compact_if_needed (turn_id : TurnId) (instructions : list string)
    (observer : RuntimeObserver) : M bool :=
  config ← gets rt_compaction_config;
  if negb (cc_enabled config) then mret false
  else
    s ← session;
    capabilities ← gets (fun s => backend_capabilities (rt_world s));
    if cap_provider_managed_history capabilities
       && bool_decide (is_Some (ses_provider_continuation s)) then mret false
    else
      let visible_messages := session_visible_transcript s in
      if (length visible_messages <? 3)%nat then mret false
      else
        tools ← gets model_visible_tool_specs;
        context ← gets rt_pending_additional_context;
        if (estimate_prompt_tokens instructions visible_messages tools context
              <? cc_trigger_tokens config)%nat
        then mret false
        else compact_visible_history turn_id "auto" None (Some instructions) observer.

(* crates/runtime/src/runtime.rs, AgentRuntime::compact_now_with_observer *)
Definition compact_now_with_observer (instructions : option string) (observer : RuntimeObserver)
    : M bool :=
  turn_id ← fresh;
  compact_visible_history turn_id "manual" instructions None observer.

(* crates/runtime/src/runtime/history.rs, AgentRuntime::rollback_visible_history_from_message *)
Definition rollback_visible_history_from_message (message_id : MessageId)
    : M (list MessageId) :=
  s ← session;
  match rollback_removed_message_ids s message_id with
  | None =>
      raise (invalid_state ("cannot roll back from unknown visible message "
                              +:+ bt +:+ message_id +:+ bt))
  | Some removed_message_ids =>
      if is_nil removed_message_ids then mret removed_message_ids
      else
        turn_id ← fresh;
        _ ← for_each (fun removed_message_id =>
              _ ← modify (fun s => set_session s
                    (with_removed (rt_session s)
                       (ses_removed_message_ids (rt_session s) ∪ {[removed_message_id]})));
              append_event (Some turn_id) None (Ev_TranscriptMessageRemoved removed_message_id))
              removed_message_ids;
        _ ← reset_provider_continuation;
        mret removed_message_ids
  end.

(** ** The turn loop ([turn_loop.rs]) *)

(* crates/runtime/src/runtime/turn_loop.rs, TurnResponse *)
Record TurnResponse := mkTurnResponse {
  resp_assistant_text : string;
  resp_tool_calls : list ToolCall;
  resp_assistant_reasoning : list Reasoning;
  resp_assistant_message_id : option MessageId;
  resp_provider_continuation : option ProviderContinuation;
  resp_token_usage : option TokenUsage
}.

(* crates/runtime/src/runtime/turn_loop.rs, SkillCaptureRuntimeStats *)
Record SkillCaptureRuntimeStats := mkSkillCaptureRuntimeStats {
  stats_tool_call_count : N;
  stats_failed_tool_call_count : N;
  stats_provider_retry_count : N
}.

Definition SkillCaptureRuntimeStats_default : SkillCaptureRuntimeStats :=
  mkSkillCaptureRuntimeStats 0 0 0.

(* crates/runtime/src/runtime/turn_loop.rs, SkillCaptureRuntimeStats::record_tool_result *)
Definition record_tool_result (stats : SkillCaptureRuntimeStats)
    (outcome : ToolExecutionDisposition) : SkillCaptureRuntimeStats :=
  mkSkillCaptureRuntimeStats (saturating_add (stats_tool_call_count stats) 1)
    (match outcome with
     | Disposition_Failed => saturating_add (stats_failed_tool_call_count stats) 1
     | Disposition_Completed => stats_failed_tool_call_count stats
     end) (stats_provider_retry_count stats).

(* crates/runtime/src/runtime/turn_loop.rs, SkillCaptureRuntimeStats::record_provider_retry *)
Definition record_provider_retry (stats : SkillCaptureRuntimeStats) : SkillCaptureRuntimeStats :=
  mkSkillCaptureRuntimeStats (stats_tool_call_count stats) (stats_failed_tool_call_count stats)
    (saturating_add (stats_provider_retry_count stats) 1).

(* crates/runtime/src/runtime/turn_loop.rs, SkillCaptureRuntimeStats::error_recovery_signal_count *)
Definition error_recovery_signal_count (stats : SkillCaptureRuntimeStats) : N :=
  saturating_add (stats_failed_tool_call_count stats) (stats_provider_retry_count stats).

(* crates/runtime/src/runtime/turn_loop.rs, SKILL_CAPTURE_CONTEXT_HEADER *)
Definition SKILL_CAPTURE_CONTEXT_HEADER : string := "## Runtime Skill Capture Signals".

(* crates/runtime/src/runtime/turn_loop.rs, SkillCaptureRuntimeStats::render_additional_context *)
Definition render_additional_context (stats : SkillCaptureRuntimeStats) : string :=
  "## Runtime Skill Capture Signals" +:+ nl
  +:+ "These host counters describe the current turn so far. Treat them as authoritative instead of estimating task complexity or recovery work from memory." +:+ nl
  +:+ "- tool_calls_so_far: " +:+ fmt_N (stats_tool_call_count stats) +:+ nl
  +:+ "- failed_tool_calls_so_far: " +:+ fmt_N (stats_failed_tool_call_count stats) +:+ nl
  +:+ "- provider_retries_so_far: " +:+ fmt_N (stats_provider_retry_count stats) +:+ nl
  +:+ "- error_recovery_signals_so_far: " +:+ fmt_N (error_recovery_signal_count stats) +:+ nl
  +:+ "Use these counters when deciding whether the finished workflow is complex, failure-prone, or reusable enough to justify " +:+ bt +:+ "skill_manage" +:+ bt +:+ " before you conclude the task.".

(* crates/runtime/src/runtime/turn_loop.rs, inject_skill_capture_context *)
Definition inject_skill_capture_context (additional_context : list string)
    (stats : SkillCaptureRuntimeStats) : list string :=
  List.filter (fun entry => negb (starts_with entry SKILL_CAPTURE_CONTEXT_HEADER))
    additional_context ++ [render_additional_context stats].

(** [inject_skill_capture_context(&mut request.additional_context, stats)]. *)
Definition inject_into_request (request : ModelRequest) (stats : SkillCaptureRuntimeStats)
    : ModelRequest :=
  mkModelRequest (request_session_id request) (request_agent_session_id request)
    (request_turn_id request) (request_instructions request) (request_messages request)
    (request_tools request)
    (inject_skill_capture_context (request_additional_context request) stats)
    (request_continuation request) (request_metadata request).

(* crates/runtime/src/runtime/turn_loop.rs, MAX_PROVIDER_REQUEST_RETRIES *)
Definition MAX_PROVIDER_REQUEST_RETRIES : nat := 5.

(* crates/runtime/src/runtime/turn_loop.rs, PROVIDER_REQUEST_BASE_RETRY_DELAY *)
Definition PROVIDER_REQUEST_BASE_RETRY_DELAY : Duration := 250%N.

Definition set_ledger (s : RState) (ledger : TokenLedgerSnapshot) : RState :=
  set_session s (with_agent (rt_session s) (ses_agent_session_id (rt_session s))
                   (ses_agent_session_started (rt_session s)) ledger).

(* crates/runtime/src/runtime/turn_loop.rs, AgentRuntime::record_request_token_window *)
Definition record_request_token_window (context_window : ContextWindowUsage)
    : M TokenLedgerSnapshot := fun s =>
  let ledger := ses_token_ledger (rt_session s) in
  let ledger := mkTokenLedgerSnapshot (Some context_window) (ledger_last_usage ledger)
                  (ledger_cumulative_usage ledger) in
  (Ret ledger, set_ledger s ledger).

(* crates/runtime/src/runtime/turn_loop.rs, AgentRuntime::record_response_token_usage *)
Definition record_response_token_usage (usage : option TokenUsage) : M TokenLedgerSnapshot := fun s =>
  let ledger := ses_token_ledger (rt_session s) in
  let ledger := mkTokenLedgerSnapshot (ledger_context_window ledger) usage
                  (match usage with
                   | Some usage => accumulate (ledger_cumulative_usage ledger) usage
                   | None => ledger_cumulative_usage ledger
                   end) in
  (Ret ledger, set_ledger s ledger).

(* crates/runtime/src/runtime/turn_loop.rs, AgentRuntime::publish_model_request_started *)
Definition publish_model_request_started (turn_id : TurnId) (iteration : nat)
    (observer : RuntimeObserver) (request : ModelRequest) : M unit :=
  _ ← append_event (Some turn_id) None (Ev_ModelRequestStarted request);
  config ← gets rt_compaction_config;
  ledger ← record_request_token_window
    (mkContextWindowUsage
       (estimate_prompt_tokens (request_instructions request) (request_messages request)
          (request_tools request) (request_additional_context request))
       (cc_context_window_tokens config));
  _ ← append_event (Some turn_id) None (Ev_TokenUsageUpdated Phase_RequestStarted ledger);
  _ ← on_event observer (Progress_ModelRequestStarted turn_id iteration);
  on_event observer (Progress_TokenUsageUpdated Phase_RequestStarted ledger).

(** [self.backend.stream_turn(request.clone()).await]. *)
Definition stream_turn (request : ModelRequest)
    : M (result (list (result ModelEvent RuntimeError)) RuntimeError) :=
  s ← session;
  _ ← record_action (Act_Stream request (session_visible_transcript s));
  ext (backend_stream_turn request).

(** The [loop] that opens the stream.  [2 * (MAX_PROVIDER_REQUEST_RETRIES + 1)]
    is enough fuel: a lost continuation restarts the count once. *)
(* crates/runtime/src/runtime/turn_loop.rs, AgentRuntime::collect_model_response@let mut stream = loop ~~ let mut response *)
Fixpoint open_stream (fuel : nat) (turn_id : TurnId) (instructions : list string)
    (iteration : nat) (observer : RuntimeObserver) (request : ModelRequest) (retry_count : nat)
    (stats : SkillCaptureRuntimeStats)
    : M (list (result ModelEvent RuntimeError) * SkillCaptureRuntimeStats) :=
  match fuel with
  | 0%nat => out_of_fuel
  | S fuel =>
      streamed ← stream_turn request;
      match streamed with
      | Ok stream => mret (stream, stats)
      | Err error =>
          if bool_decide (is_Some (request_continuation request))
             && is_provider_continuation_lost error
          then
            let text := RuntimeError_display error in
            _ ← reset_provider_continuation;
            _ ← append_event (Some turn_id) None (Ev_Notification "provider_state" text);
            _ ← on_event observer (Progress_Notification "provider_state" text);
            rebuilt ← gets (build_model_request turn_id instructions true);
            let request := inject_into_request rebuilt stats in
            _ ← publish_model_request_started turn_id iteration observer request;
            open_stream fuel turn_id instructions iteration observer request 0 stats
          else
            match model_backend_retry_hint error with
            | None => raise error
            | Some retry_hint =>
                if (retry_count =? MAX_PROVIDER_REQUEST_RETRIES)%nat then raise error
                else
                  let retry_count := S retry_count in
                  let stats := record_provider_retry stats in
                  let request := inject_into_request request stats in
                  let remaining_retries := (MAX_PROVIDER_REQUEST_RETRIES - retry_count)%nat in
                  let delay :=
                    default (PROVIDER_REQUEST_BASE_RETRY_DELAY * N.of_nat retry_count)%N
                      (hint_retry_after retry_hint) in
                  at_ms ← now;
                  _ ← on_event observer
                        (Progress_ProviderRetryScheduled turn_id iteration
                           (hint_status_code retry_hint) retry_count MAX_PROVIDER_REQUEST_RETRIES
                           remaining_retries (at_ms + delay)%N);
                  _ ← ext (sleep delay);
                  _ ← on_event observer (Progress_ModelRequestStarted turn_id iteration);
                  open_stream fuel turn_id instructions iteration observer request retry_count stats
            end
      end
  end.

Definition open_stream_fuel : nat := 2 * (MAX_PROVIDER_REQUEST_RETRIES + 1).

(** [while let Some(event) = stream.next().await]. *)
(* crates/runtime/src/runtime/turn_loop.rs, AgentRuntime::collect_model_response@while let Some(event) = stream *)
Fixpoint read_stream (stream : list (result ModelEvent RuntimeError)) (response : TurnResponse)
    (observer : RuntimeObserver) : M TurnResponse :=
  match stream with
  | [] => mret response
  | event :: rest =>
      event ← lift event;
      match event with
      | ModelEvent_TextDelta delta =>
          _ ← on_event observer (Progress_AssistantTextDelta delta);
          read_stream rest
            (mkTurnResponse (resp_assistant_text response +:+ delta) (resp_tool_calls response)
               (resp_assistant_reasoning response) (resp_assistant_message_id response)
               (resp_provider_continuation response) (resp_token_usage response)) observer
      | ModelEvent_ToolCallRequested call =>
          _ ← on_event observer (Progress_ToolCallRequested call);
          read_stream rest
            (mkTurnResponse (resp_assistant_text response) (resp_tool_calls response ++ [call])
               (resp_assistant_reasoning response) (resp_assistant_message_id response)
               (resp_provider_continuation response) (resp_token_usage response)) observer
      | ModelEvent_ResponseComplete _ message_id continuation usage reasoning =>
          fresh_id ← fresh;
          read_stream rest
            (mkTurnResponse (resp_assistant_text response) (resp_tool_calls response) reasoning
               (Some (default fresh_id message_id)) continuation usage) observer
      | ModelEvent_Error message => raise (RtErr_AgentCore (Core_ModelBackend message))
      end
  end.

Definition TurnResponse_empty : TurnResponse := mkTurnResponse "" [] [] None None None.

(* crates/runtime/src/runtime/turn_loop.rs, AgentRuntime::collect_model_response *)
Definition collect_model_response (turn_id : TurnId) (instructions : list string)
    (iteration : nat) (stats : SkillCaptureRuntimeStats) (observer : RuntimeObserver)
    : M (TurnResponse * SkillCaptureRuntimeStats) :=
  built ← gets (build_model_request turn_id instructions false);
  let request := inject_into_request built stats in
  _ ← publish_model_request_started turn_id iteration observer request;
  '(stream, stats) ← open_stream open_stream_fuel turn_id instructions iteration observer request
                       0 stats;
  response ← read_stream stream TurnResponse_empty observer;
  _ ← append_event (Some turn_id) None
        (Ev_ModelResponseCompleted (resp_assistant_text response) (resp_tool_calls response)
           (resp_provider_continuation response));
  _ ← on_event observer
        (Progress_ModelResponseCompleted (resp_assistant_text response) (resp_tool_calls response));
  ledger ← record_response_token_usage (resp_token_usage response);
  _ ← append_event (Some turn_id) None (Ev_TokenUsageUpdated Phase_ResponseCompleted ledger);
  _ ← on_event observer (Progress_TokenUsageUpdated Phase_ResponseCompleted ledger);
  _ ← clear_pending_request_effects;
  mret (response, stats).

(* crates/runtime/src/runtime/turn_loop.rs, AgentRuntime::persist_assistant_response *)
Definition persist_assistant_response (turn_id : TurnId) (response : TurnResponse) : M unit :=
  if str_is_empty (resp_assistant_text response) && is_nil (resp_tool_calls response)
     && is_nil (resp_assistant_reasoning response)
  then mret tt
  else
    let parts :=
      (if str_is_empty (resp_assistant_text response) then []
       else [Part_Text (resp_assistant_text response)])
      ++ map Part_Reasoning (resp_assistant_reasoning response)
      ++ map Part_ToolCall (resp_tool_calls response) in
    fresh_id ← fresh;
    message_id ← fresh;
    append_message turn_id
      (with_message_id (Message_assistant_parts fresh_id parts)
         (default message_id (resp_assistant_message_id response))).

(* crates/runtime/src/runtime/turn_loop.rs, AgentRuntime::handle_stop_hooks *)
Definition handle_stop_hooks (turn_id : TurnId) (hooks : list HookRegistration)
    (assistant_text : string) (observer : RuntimeObserver) : M bool :=
  context ← hook_context HookEvent_Stop (Some turn_id) [("reason", "assistant_complete")]
              (json_object [("assistant_text", json_string assistant_text)]);
  stop_hooks ← run_hooks hooks context;
  stop_effects ← apply_hook_effects_with_observer turn_id stop_hooks None None observer;
  match blocked_reason stop_effects "stop blocked" with
  | None => mret false
  | Some reason =>
      _ ← append_event (Some turn_id) None (Ev_StopFailure (Some reason));
      if is_nil (appended_messages stop_effects) && is_nil (additional_context stop_effects)
         && is_nil (injected_instructions stop_effects)
      then hook_blocked reason
      else mret true
  end.

(** [for call in response.tool_calls { ... }]. *)
(* crates/runtime/src/runtime/turn_loop.rs, AgentRuntime::run_turn_loop@for call in response.tool_calls *)
Fixpoint handle_tool_calls (hooks : list HookRegistration) (turn_id : TurnId)
    (calls : list ToolCall) (stats : SkillCaptureRuntimeStats) (observer : RuntimeObserver)
    : M SkillCaptureRuntimeStats :=
  match calls with
  | [] => mret stats
  | call :: rest =>
      outcome ← handle_tool_call hooks turn_id call observer;
      handle_tool_calls hooks turn_id rest (record_tool_result stats outcome) observer
  end.

(* crates/runtime/src/runtime/turn_loop.rs, AgentRuntime::run_turn_loop *)
Fixpoint run_turn_loop (fuel : nat) (turn_id : TurnId) (hooks : list HookRegistration)
    (instructions : list string) (iteration : nat) (stats : SkillCaptureRuntimeStats)
    (observer : RuntimeObserver) : M RunTurnOutcome :=
  match fuel with
  | 0%nat => out_of_fuel
  | S fuel =>
      let iteration := S iteration in
      _ ← compact_if_needed turn_id instructions observer;
      '(response, stats) ← collect_model_response turn_id instructions iteration stats observer;
      _ ← persist_assistant_response turn_id response;
      _ ← update_provider_continuation (resp_provider_continuation response);
      if negb (is_nil (resp_tool_calls response)) then
        stats ← handle_tool_calls hooks turn_id (resp_tool_calls response) stats observer;
        drained ← drain_async_invocations;
        _ ← apply_hook_effects_with_observer turn_id drained None None observer;
        _ ← drain_runtime_steers fuel false observer;
        run_turn_loop fuel turn_id hooks instructions iteration stats observer
      else
        stopped ← handle_stop_hooks turn_id hooks (resp_assistant_text response) observer;
        if (stopped : bool) then run_turn_loop fuel turn_id hooks instructions iteration stats observer
        else
          steered ← drain_runtime_steers fuel false observer;
          if (steered : bool)
          then run_turn_loop fuel turn_id hooks instructions iteration stats observer
          else
            _ ← append_event (Some turn_id) None (Ev_Stop (Some "assistant_complete"));
            _ ← on_event observer
                  (Progress_TurnCompleted turn_id (resp_assistant_text response));
            mret (mkRunTurnOutcome turn_id (resp_assistant_text response))
  end.

(* crates/runtime/src/runtime.rs, AgentRuntime::run_user_message_with_observer *)
Definition run_user_message_with_observer (fuel : nat) (message : Message)
    (submitted_prompt : option SubmittedPromptSnapshot) (observer : RuntimeObserver)
    : M RunTurnOutcome :=
  turn_id ← fresh;
  hooks ← gets rt_hook_registrations;
  instructions ← gets rt_base_instructions;
  _ ← prepare_user_turn turn_id hooks instructions message submitted_prompt observer;
  run_turn_loop fuel turn_id hooks instructions 0 SkillCaptureRuntimeStats_default observer.

(* crates/runtime/src/runtime.rs, AgentRuntime::drain_queued_controls_with_observer *)
Fixpoint drain_queued_controls_with_observer (fuel : nat) (applied_any : bool)
    (observer : RuntimeObserver) : M bool :=
  queued ← pop_queued;
  match queued, fuel with
  | None, _ => mret applied_any
  | Some _, 0%nat => out_of_fuel
  | Some queued, S fuel =>
      _ ← match queued_command queued with
          | Command_Prompt message submitted_prompt =>
              _ ← run_user_message_with_observer fuel message submitted_prompt observer; mret tt
          | Command_Steer message reason => steer_with_observer message reason observer
          end;
      drain_queued_controls_with_observer fuel true observer
  end.

(* crates/runtime/src/runtime.rs, AgentRuntime::apply_control_with_observer *)
Definition apply_control_with_observer (fuel : nat) (command : RuntimeCommand)
    (observer : RuntimeObserver) : M (option RunTurnOutcome) :=
  outcome ← match command with
            | Command_Prompt message submitted_prompt =>
                outcome ← run_user_message_with_observer fuel message submitted_prompt observer;
                mret (Some outcome)
            | Command_Steer message reason =>
                _ ← steer_with_observer message reason observer; mret None
            end;
  _ ← drain_queued_controls_with_observer fuel false observer;
  mret outcome.

End TurnLoop.
