(* ===== verification/DemoHost.v ===== *)
(** * A concrete host

    A host small enough to run: a store that accepts everything, a provider that
    keeps history itself, asks for one tool call and then answers, an approval
    handler that approves.  The concrete runs of the runtime use it. *)

From Stdlib Require Import String.
From stdpp Require Import base list gmap strings pretty.
From S2P Require Import Prelude Message Events LoopDetection ControlPlane Errors Session History.
From S2P Require Import HookEffects SandboxPolicy Tools Approval RuntimeState HookFlow ToolFlow.
From S2P Require Import TurnLoop.

#[export] Existing Instance json_text.

#[export] Instance json_text_build : JsonBuild json_text := {|
  json_object := fun l => "{" +:+ str_join "," (map (fun p => p.1 +:+ ":" +:+ p.2) l) +:+ "}";
  json_string := fun s => s;
  json_usize := fmt_nat;
  json_tool_call := fun call => call_tool_name call;
  json_tool_result := fun result => result_tool_name result;
  json_message := fun message => msg_id message
|}.

(** Command hooks leave a note before a compaction; the others do nothing. *)
Definition note_hook (r : HookRegistration) (c : HookContext) (sh : Shared) (w : nat)
    : result HookResult RuntimeError * Shared * nat :=
  (Ok (mkHookResult [Effect_AppendMessage Role_System [Part_Text "remember this"]]), sh, w).

Definition no_hook (r : HookRegistration) (c : HookContext) (sh : Shared) (w : nat)
    : result HookResult RuntimeError * Shared * nat := (Ok (mkHookResult []), sh, w).

Definition demo_call : ToolCall := mkToolCall "tc-1" "call-1" "read" "{}" Origin_Local.

(** The [n]-th answer of the provider. *)
Definition demo_answer (n : nat) : list (result ModelEvent RuntimeError) :=
  match n with
  | 0%nat =>
      [Ok (ModelEvent_ToolCallRequested demo_call);
       Ok (ModelEvent_ResponseComplete None (Some "a0")
             (Some (Continuation_OpenAiResponses "r0")) None [])]
  | _ =>
      [Ok (ModelEvent_TextDelta "done");
       Ok (ModelEvent_ResponseComplete None (Some ("a" +:+ fmt_nat n))
             (Some (Continuation_OpenAiResponses ("r" +:+ fmt_nat n))) None [])]
  end.

(** The world is the number of requests the provider has answered. *)
#[export] Instance demo_host : Host := {|
  World := nat;
  uuid := fun n => "id-" +:+ fmt_nat n;
  clock := N.of_nat;
  fs_view := fun _ => plain_fs;
  backend_capabilities := fun _ => mkModelBackendCapabilities true false false false false true false;
  backend_stream_turn := fun _ sh w => (Ok (demo_answer w), sh, S w);
  store_append := fun _ sh w => (Ok tt, sh, w);
  approval_policy_decide := fun _ => NoopToolApprovalPolicy;
  approval_handler_decide := fun _ sh w => (Ok Outcome_Approve, sh, w);
  compactor_compact := fun _ sh w => (Ok "a summary", sh, w);
  tool_execute := fun tool id _ _ sh w =>
    (Ok (ToolResult_text "fresh" id (spec_name (tool_spec tool)) "contents"), sh, w);
  augmentor_augment := fun _ _ m sh w => (Ok (augmented_unchanged m), sh, w);
  command_execute := note_hook;
  http_execute := no_hook;
  prompt_evaluate := no_hook;
  agent_evaluate := no_hook;
  wasm_execute := no_hook;
  spawn_command := fun _ _ sh w => (tt, sh, w);
  async_try_recv_all := fun sh w => ([], sh, w);
  regex_is_match := fun _ _ => Ok true;
  sleep := fun _ sh w => (tt, sh, w)
|}.

Definition demo_context : ToolExecutionContext :=
  mkToolExecutionContext ["/"; "work"] None None None [] [] [] [] None None true None None
    None None None None None None None None None None
    (mkToolVisibilityContext None None None ∅) None None None None None None.

(** A fresh runtime with the given hooks, the provider having answered [w] requests. *)
Definition demo_runtime (hooks : list HookRegistration) (w : nat) : RState :=
  AgentRuntime_new (mkToolVisibilityContext None None None ∅) one_tool demo_context
    (mkCompactionConfig false 200 100 1) (mkLoopDetectionConfig true 24 3 4 10)
    ["be helpful"] hooks (RuntimeSession_new "session" "agent") PermissionGrantSnapshot_default None
    w 0%nat.

Definition demo_state : RState := demo_runtime [] 0%nat.

Definition pre_compact_hook : HookRegistration :=
  mkHookRegistration "note" HookEvent_PreCompact None
    (Handler_Command (mkCommandHookHandler "note" false)) None None.

Definition demo_prompt (id text : string) : RuntimeCommand :=
  Command_Prompt (Message_user id text) None.
