(* ===== verification/RuntimeSteps.v ===== *)
(** * The runtime as a state machine

    Every computation of the runtime moves its state by the steps of one
    relation, [rt_step]; a step changes the session and the trace together, and
    what it may do is guarded ([step_execute], [step_stream], [step_compact]).
    [triple P m Q] says that [m], run from a state with [P], only makes such
    steps, and returns with [Q] if it returns.  Invariants are then proved once,
    by rule induction on the steps. *)

From Stdlib Require Import String.
From stdpp Require Import base list gmap strings.
From Stdlib Require Import Lia.
From S2P Require Import Prelude Message Events LoopDetection ControlPlane Errors Replay Session.
From S2P Require Import History HookEffects SandboxPolicy Tools Approval RuntimeState HookFlow.
From S2P Require Import ToolFlow TurnLoop.

Create HintDb steps discriminated.
Create HintDb quiet discriminated.

Section Steps.
Context {J : SerdeJson} {B : JsonBuild J} {H : Host}.

(** ** Actions *)

(** Events that do not concern the transcript or its window. *)
Definition plain_event (k : SessionEventKind) : bool :=
  match k with
  | Ev_TranscriptMessage _ | Ev_TranscriptMessagePatched _ _ | Ev_TranscriptMessageRemoved _
  | Ev_CompactionCompleted _ _ _ _ _ _ => false
  | _ => true
  end.

Definition plain_action (a : Action) : bool :=
  match a with
  | Act_Append e _ => plain_event (env_event e)
  | Act_Approval _ _ | Act_Inspect _ _ => true
  | _ => false
  end.

(** The parts of a session the visible history and the provider window depend on. *)
Definition history_eq (x y : RuntimeSession) : Prop :=
  ses_session_id y = ses_session_id x
  /\ ses_transcript y = ses_transcript x
  /\ ses_provider_continuation y = ses_provider_continuation x
  /\ ses_provider_transcript_cursor y = ses_provider_transcript_cursor x
  /\ ses_compaction_summary_index y = ses_compaction_summary_index x
  /\ ses_retained_tail_indices y = ses_retained_tail_indices x
  /\ ses_post_summary_start y = ses_post_summary_start x
  /\ ses_removed_message_ids y = ses_removed_message_ids x.

(** Nothing but plain actions happened. *)
Definition quiet (s s' : RState) : Prop :=
  history_eq (rt_session s) (rt_session s')
  /\ exists l, rt_trace s' = rt_trace s ++ l /\ Forall (fun a => plain_action a = true) l.

#[global] Instance history_eq_preorder : PreOrder history_eq.
Proof. split; [by repeat split|]. unfold history_eq. intros x y z ? ?. intuition congruence. Qed.

#[global] Instance quiet_preorder : PreOrder quiet.
Proof.
  split.
  - intros s. split; [done|]. exists []. by rewrite app_nil_r.
  - intros x y z [H1 (l & E1 & F1)] [H2 (k & E2 & F2)]. split; [by etrans|].
    exists (l ++ k). rewrite E2, E1, <- app_assoc. split; [done|]. by apply Forall_app.
Qed.

(** ** What guards an execution *)

Definition not_critical (signal : option LoopSignal) : Prop :=
  match signal with Some (mkLoopSignal Severity_Critical _) => False | _ => True end.

#[global] Instance not_critical_dec signal : Decision (not_critical signal).
Proof. destruct signal as [[[] ?]|]; simpl; apply _. Defined.

(** The reasons an approval must cover: a denied call has none, a policy that
    allows may drop the tool's own hints, but never what a hook or the policy
    itself asks for. *)
Record outstanding (tool : Tool) (hook_reasons : list string)
    (decision : ToolApprovalPolicyDecision) (reasons : list string) : Prop := {
  out_not_denied : forall reason, decision <> Policy_Deny reason;
  out_hooks : hook_reasons ⊆ reasons;
  out_hints : decision <> Policy_Allow -> approval_reasons_for_tool (tool_spec tool) ⊆ reasons;
  out_asked : forall reason, decision = Policy_Ask reason -> reasons <> []
}.

Lemma reasons_outstanding tool hook_reasons decision reasons :
  reasons_after_policy (tool_spec tool) hook_reasons decision = Some reasons ->
  outstanding tool hook_reasons decision reasons.
Proof.
  destruct decision; simpl; intros [= <-]; split; try done; try set_solver.
  intros _ _ Hn. by do 2 apply app_nil in Hn as [_ Hn].
Qed.

(** The trace behind an execution: the hooks' verdict on the call as the model
    made it, then the policy's decision on the call as the hooks rewrote it, and
    then nothing but the handler's approval of exactly the outstanding reasons
    and the loop detector's verdict. *)
Record authorized (t : list Action) (tool : Tool) (call : ToolCall) : Prop := {
  auth_gate : exists t0 t1 mid original effects hook_reasons decision,
    t = t0 ++ Act_Gate original effects :: t1
          ++ Act_Policy (mkToolApprovalRequest call (tool_spec tool)
               (approval_reasons_for_tool (tool_spec tool) ++ hook_reasons)) decision :: mid
    /\ call = from_option (with_arguments original) original (rewritten_tool_arguments effects)
    /\ blocked_reason effects "tool use blocked" = None
    /\ permission_decision effects <> Some Decision_Deny
    /\ (permission_decision effects = Some Decision_Ask -> hook_reasons <> [])
    /\ Forall (fun a => plain_action a = true) mid
    /\ (exists reasons, outstanding tool hook_reasons decision reasons
        /\ (reasons = []
            \/ Act_Approval (mkToolApprovalRequest call (tool_spec tool) reasons) Outcome_Approve
                 ∈ mid))
    /\ (exists signal, Act_Inspect call signal ∈ mid /\ not_critical signal)
}.

(** The tool runs under the policy of the host's context, widened by the grants
    given when it starts, and nothing else. *)
Definition confined (context : ToolExecutionContext) (call : ToolCall) (shared : Shared)
    (files : FileSystem) : Prop :=
  tc_tool_call_id context = Some (call_call_id call)
  /\ exists policy,
       @effective_sandbox_policy files (sh_grants shared) (sandbox_policy (sh_tool_context shared))
         = Ok policy
       /\ tc_effective_sandbox_policy context = Some policy.

(** ** What a model request must contain *)

Definition request_fits (s : RuntimeSession) (request : ModelRequest) : Prop :=
  match request_continuation request with
  | None => request_messages request = session_visible_transcript s
  | Some c => ses_provider_continuation s = Some c /\ request_messages request = transcript_delta s
  end.

(** ** Steps *)

(** Removals, logged one by one until one is not stored. *)
Inductive removal_acts : list MessageId -> list Action -> bool -> Prop :=
| removal_none : removal_acts [] [] true
| removal_stored id ids e acts ok :
    env_event e = Ev_TranscriptMessageRemoved id -> removal_acts ids acts ok ->
    removal_acts (id :: ids) (Act_Append e true :: acts) ok
| removal_failed id e :
    env_event e = Ev_TranscriptMessageRemoved id ->
    removal_acts [id] [Act_Append e false] false.

Definition forget_provider (stored : bool) (x : RuntimeSession) : RuntimeSession :=
  if stored then with_provider x None 0 else x.

Inductive rt_step (s s' : RState) : Prop :=
| step_quiet : quiet s s' -> rt_step s s'
| step_forget n :
    history_eq (with_provider (rt_session s) None n) (rt_session s') ->
    rt_trace s' = rt_trace s -> rt_step s s'
| step_note a :
    match a with Act_Gate _ _ | Act_Policy _ _ => True | _ => False end ->
    history_eq (rt_session s) (rt_session s') -> rt_trace s' = rt_trace s ++ [a] -> rt_step s s'
| step_stream request :
    request_fits (rt_session s) request -> history_eq (rt_session s) (rt_session s') ->
    rt_trace s' = rt_trace s ++ [Act_Stream request (session_visible_transcript (rt_session s))] ->
    rt_step s s'
| step_known c :
    history_eq (with_provider (rt_session s) (Some c) (length (ses_transcript (rt_session s))))
      (rt_session s') ->
    rt_trace s' = rt_trace s ++ [Act_Known c (session_visible_transcript (rt_session s))] ->
    rt_step s s'
| step_execute tool call context :
    authorized (rt_trace s) tool call ->
    confined context call (rt_shared s) (fs_view (rt_world s)) ->
    history_eq (rt_session s) (rt_session s') ->
    rt_trace s' = rt_trace s ++ [Act_Execute tool call context (rt_shared s) (fs_view (rt_world s))] ->
    rt_step s s'
| step_message m e stored :
    env_event e = Ev_TranscriptMessage m ->
    history_eq (with_transcript (rt_session s) (ses_transcript (rt_session s) ++ [m]))
      (rt_session s') ->
    rt_trace s' = rt_trace s ++ [Act_Append e stored] -> rt_step s s'
| step_patch i m m' e stored :
    ses_transcript (rt_session s) !! i = Some m -> msg_id m' = msg_id m ->
    msg_id m ∉ ses_removed_message_ids (rt_session s) ->
    env_event e = Ev_TranscriptMessagePatched (msg_id m) m' ->
    history_eq (forget_provider stored
                  (with_transcript (rt_session s) (<[i := m']> (ses_transcript (rt_session s)))))
      (rt_session s') ->
    rt_trace s' = rt_trace s ++ [Act_Append e stored] -> rt_step s s'
| step_remove ids acts stored :
    Forall (fun id => id ∈ (msg_id <$> ses_transcript (rt_session s))) ids ->
    removal_acts ids acts stored ->
    history_eq (forget_provider stored
                  (with_removed (rt_session s)
                     (ses_removed_message_ids (rt_session s) ∪ list_to_set ids)))
      (rt_session s') ->
    rt_trace s' = rt_trace s ++ acts -> rt_step s s'
| step_compact si k tail retained reason n1 n2 n3 e stored :
    length (ses_transcript (rt_session s)) = S si ->
    msg_id <$> ses_transcript (rt_session s) !! si = Some k ->
    Forall (fun i => i < si)%nat retained ->
    Forall2 (fun i id => msg_id <$> ses_transcript (rt_session s) !! i = Some id) retained tail ->
    env_event e = Ev_CompactionCompleted reason n1 n2 n3 (Some k) tail ->
    history_eq (with_window (with_provider (rt_session s) None 0) si retained) (rt_session s') ->
    rt_trace s' = rt_trace s ++ [Act_Append e stored] -> rt_step s s'.

(** ** Triples *)

Definition triple {A} (P : RState -> Prop) (m : M A) (Q : A -> RState -> Prop) : Prop :=
  forall s, P s ->
    rtc rt_step s (m s).2 /\ match (m s).1 with Ret a => Q a (m s).2 | _ => True end.

(** A computation that only makes steps. *)
Definition steps {A} (m : M A) : Prop := triple (fun _ => True) m (fun _ _ => True).

(** A computation after which only plain actions happened, whatever it returns. *)
Definition quietly {A} (m : M A) : Prop := forall s, quiet s (m s).2.

Lemma triple_ret {A} (Q : A -> RState -> Prop) (a : A) : triple (Q a) (mret a) Q.
Proof. intros s Hs. by split; [apply rtc_refl|]. Qed.

Lemma triple_return {A} (P : RState -> Prop) (Q : A -> RState -> Prop) (a : A) :
  (forall s, P s -> Q a s) -> triple P (mret a) Q.
Proof. intros HPQ s Hs. split; [apply rtc_refl | simpl; auto]. Qed.

Lemma triple_raise {A} P e (Q : A -> RState -> Prop) : triple P (raise e) Q.
Proof. intros s Hs. by split; [apply rtc_refl|]. Qed.

Lemma triple_bind {A C} P (m : M A) Q (k : A -> M C) R :
  triple P m Q -> (forall a, triple (Q a) (k a) R) -> triple P (m ≫= k) R.
Proof.
  intros Hm Hk s Hs. destruct (Hm s Hs) as [Hr Hq]. unfold mbind, M_bind.
  destruct (m s) as [[a|e|] s']; simpl in *; [|by split..].
  destruct (Hk a s' Hq) as [Hr' Hq']. split; [by etrans | done].
Qed.

Lemma triple_seq {A C} P (m : M A) (Q : RState -> Prop) (k : A -> M C) R :
  triple P m (fun _ => Q) -> (forall a, triple Q (k a) R) -> triple P (m ≫= k) R.
Proof. apply (triple_bind P m (fun _ => Q)). Qed.

Lemma triple_conseq {A} (P P' : RState -> Prop) (m : M A) (Q Q' : A -> RState -> Prop) :
  triple P' m Q' -> (forall s, P s -> P' s) -> (forall a s, Q' a s -> Q a s) -> triple P m Q.
Proof.
  intros Hm HP HQ s Hs. destruct (Hm s (HP s Hs)) as [Hr Hq]. split; [done|].
  destruct (m s).1; auto.
Qed.

Lemma quietly_triple {A} (P : RState -> Prop) (m : M A) :
  quietly m -> (forall s s', quiet s s' -> P s -> P s') -> triple P m (fun _ => P).
Proof.
  intros Hm HP s Hs. split; [by apply rtc_once, step_quiet|]. destruct (m s).1; [|done..].
  exact (HP s _ (Hm s) Hs).
Qed.

Lemma quietly_steps {A} (m : M A) : quietly m -> steps m.
Proof. intros Hm. by apply (quietly_triple (fun _ => True) m Hm). Qed.

Lemma triple_gets {A} P (f : RState -> A) : triple P (gets f) (fun a s => P s /\ a = f s).
Proof. intros s Hs. split; [apply rtc_refl | done]. Qed.

Lemma steps_weaken {A} (m : M A) P Q : triple P m Q -> (forall s, P s) -> steps m.
Proof. intros Hm HP. by eapply triple_conseq; [exact Hm | auto | auto]. Qed.

Lemma steps_triple {A} P (m : M A) : steps m -> triple P m (fun _ _ => True).
Proof. intros Hm. by eapply triple_conseq; [exact Hm | auto | auto]. Qed.

Lemma steps_intro {A} (m : M A) : (forall s, rtc rt_step s (m s).2) -> steps m.
Proof. intros Hm s _. split; [apply Hm|]. by destruct (m s).1. Qed.

(** Running the first computation of a sequence. *)
Lemma run_gets {A C} (f : RState -> A) (k : A -> M C) s : (gets f ≫= k) s = k (f s) s.
Proof. done. Qed.

Lemma run_modify {C} f (k : unit -> M C) s : (modify f ≫= k) s = k tt (f s).
Proof. done. Qed.

Lemma run_lift_Ok {A C} (a : A) (k : A -> M C) s : (lift (Ok a) ≫= k) s = k a s.
Proof. done. Qed.

Lemma steps_ret {A} (a : A) : steps (mret a).
Proof. apply quietly_steps. by intros s. Qed.

Lemma steps_raise {A} e : steps (raise e : M A).
Proof. apply quietly_steps. by intros s. Qed.

Lemma steps_out_of_fuel {A} : steps (out_of_fuel : M A).
Proof. apply quietly_steps. by intros s. Qed.

Lemma steps_bind {A C} (m : M A) (k : A -> M C) : steps m -> (forall a, steps (k a)) -> steps (m ≫= k).
Proof. intros Hm Hk. eapply triple_bind; [exact Hm|]. intros a. apply Hk. Qed.

Lemma steps_for_each {A} (f : A -> M unit) l : (forall x, steps (f x)) -> steps (for_each f l).
Proof.
  intros Hf. induction l as [|x l IH]; simpl; [apply steps_ret|]. by apply steps_bind.
Qed.

(** ** Quiet computations *)

Lemma quietly_ret {A} (a : A) : quietly (mret a).
Proof. by intros s. Qed.

Lemma quietly_raise {A} e : quietly (raise e : M A).
Proof. by intros s. Qed.

Lemma quietly_bind {A C} (m : M A) (k : A -> M C) :
  quietly m -> (forall a, quietly (k a)) -> quietly (m ≫= k).
Proof.
  intros Hm Hk s. specialize (Hm s). unfold mbind, M_bind.
  destruct (m s) as [[a|e|] s']; simpl in *; [|done..]. etrans; [exact Hm | apply Hk].
Qed.

Lemma quietly_gets {A} (f : RState -> A) : quietly (gets f).
Proof. by intros s. Qed.

Lemma quietly_lift {A} (r : result A RuntimeError) : quietly (lift r).
Proof. destruct r; [apply quietly_ret | apply quietly_raise]. Qed.

(** Only fields outside the session's history change. *)
Lemma quiet_silent s s' :
  history_eq (rt_session s) (rt_session s') -> rt_trace s' = rt_trace s -> quiet s s'.
Proof. intros Hh Ht. split; [done|]. exists []. by rewrite app_nil_r. Qed.

Lemma quietly_modify f :
  (forall s, history_eq (rt_session s) (rt_session (f s)) /\ rt_trace (f s) = rt_trace s) ->
  quietly (modify f).
Proof. intros Hf s. destruct (Hf s). by apply quiet_silent. Qed.

Lemma quietly_ext {A} (f : Ext A) : quietly (ext f).
Proof. intros s. unfold ext. destruct (f _ _) as [[a sh] w]. by apply quiet_silent. Qed.

Lemma quietly_fresh : quietly fresh.
Proof. intros s. by apply quiet_silent. Qed.

Lemma quietly_now : quietly now.
Proof. intros s. by apply quiet_silent. Qed.

Lemma quietly_action a : plain_action a = true -> quietly (record_action a).
Proof. intros Ha s. split; [done|]. exists [a]. split; [done|]. by constructor. Qed.

Lemma quietly_for_each {A} (f : A -> M unit) l : (forall x, quietly (f x)) -> quietly (for_each f l).
Proof. intros Hf. induction l; simpl; [apply quietly_ret | by apply quietly_bind]. Qed.

Lemma quietly_on_event observer e : quietly (on_event observer e).
Proof. apply quietly_bind; [apply quietly_ext | intros; apply quietly_lift]. Qed.

Lemma quietly_on_lifecycle observer e : quietly (on_lifecycle observer e).
Proof. destruct e; [apply quietly_on_event | apply quietly_ret]. Qed.

Lemma quietly_append e : plain_event (env_event e) = true -> quietly (append e).
Proof.
  intros He. apply quietly_bind; [apply quietly_ext|]. intros r.
  apply quietly_bind; [by apply quietly_action|]. intros _. apply quietly_lift.
Qed.

Lemma quietly_bind_val {A C} (Q : A -> Prop) (m : M A) (k : A -> M C) :
  quietly m -> (forall s a s', m s = (Ret a, s') -> Q a) -> (forall a, Q a -> quietly (k a)) ->
  quietly (m ≫= k).
Proof.
  intros Hm Hq Hk s. specialize (Hm s). unfold mbind, M_bind.
  destruct (m s) as [[a|e|] s'] eqn:E; simpl in *; [|done..].
  etrans; [exact Hm | apply Hk; by eapply Hq].
Qed.

Lemma quietly_new_envelope turn call k : quietly (new_envelope turn call k).
Proof. intros s. by apply quiet_silent. Qed.

Lemma new_envelope_event turn call k s e s' :
  new_envelope turn call k s = (Ret e, s') -> env_event e = k.
Proof. by intros [= <- <-]. Qed.

Lemma quietly_append_event turn call k : plain_event k = true -> quietly (append_event turn call k).
Proof.
  intros Hk. apply (quietly_bind_val (fun e => env_event e = k)).
  - apply quietly_new_envelope.
  - apply new_envelope_event.
  - intros e <-. by apply quietly_append.
Qed.

Lemma quietly_lifecycle turn call k :
  plain_event k = true -> quietly (append_tool_lifecycle_event turn call k).
Proof.
  intros Hk. apply (quietly_bind_val (fun e => env_event e = k)).
  - apply quietly_new_envelope.
  - apply new_envelope_event.
  - intros e <-. apply quietly_bind; [by apply quietly_append | intros; apply quietly_ret].
Qed.

(** ** The computations that change the transcript *)

(** What [append] does, stored or not. *)
Lemma append_run e s : exists shared world stored,
  (append e s).2 = add_action (set_env s shared world) (Act_Append e stored)
  /\ match (append e s).1 with
     | Ret _ => stored = true
     | Raise _ => stored = false
     | OutOfFuel => False
     end.
Proof.
  unfold append, ext, record_action, modify, mbind, M_bind.
  destruct (store_append e (rt_shared s) (rt_world s)) as [[[[]|err] sh] w];
    [exists sh, w, true | exists sh, w, false]; done.
Qed.

Lemma append_event_run turn call k s : exists e shared world stored,
  env_event e = k
  /\ (append_event turn call k s).2
     = add_action (set_env (bump_next s) shared world) (Act_Append e stored)
  /\ match (append_event turn call k s).1 with
     | Ret _ => stored = true
     | Raise _ => stored = false
     | OutOfFuel => False
     end.
Proof.
  unfold append_event, mbind, M_bind, new_envelope. eexists. 
  destruct (append_run (SessionEventEnvelope_new (uuid (rt_next s)) (clock (rt_next s))
    (ses_session_id (rt_session s)) (ses_agent_session_id (rt_session s)) turn call k)
    (bump_next s)) as (sh & w & stored & Hs & Ho).
  exists sh, w, stored. split; [|split; [exact Hs | exact Ho]]. done.
Qed.

Lemma append_message_run turn m s : exists e shared world stored,
  env_event e = Ev_TranscriptMessage m
  /\ (append_message turn m s).2
     = add_action (set_env (bump_next (set_session s
         (with_transcript (rt_session s) (ses_transcript (rt_session s) ++ [m])))) shared world)
         (Act_Append e stored)
  /\ match (append_message turn m s).1 with
     | Ret _ => stored = true
     | Raise _ => stored = false
     | OutOfFuel => False
     end.
Proof.
  unfold append_message, mbind, M_bind. simpl. eexists.
  destruct (append_run (SessionEventEnvelope_new (uuid (rt_next s)) (clock (rt_next s))
    (ses_session_id (rt_session s)) (ses_agent_session_id (rt_session s)) (Some turn) None
    (Ev_TranscriptMessage m))
    (bump_next (set_session s (with_transcript (rt_session s) (ses_transcript (rt_session s) ++ [m])))))
    as (sh & w & stored & Hs & Ho).
  exists sh, w, stored. split; [|split; [exact Hs | exact Ho]]. done.
Qed.

(** After a message was appended and stored, it ends the transcript and the log. *)
Lemma triple_append_message (P : RState -> Prop) turn m :
  triple P (append_message turn m) (fun _ s' => exists s e, P s
    /\ rt_step s s' /\ env_event e = Ev_TranscriptMessage m
    /\ history_eq (with_transcript (rt_session s) (ses_transcript (rt_session s) ++ [m]))
         (rt_session s')
    /\ rt_trace s' = rt_trace s ++ [Act_Append e true]).
Proof.
  intros s Hs. destruct (append_message_run turn m s) as (e & sh & w & stored & He & Hs' & Ho).
  assert (Hstep : rt_step s (append_message turn m s).2).
  { rewrite Hs'. by eapply (step_message _ _ m e stored). }
  split; [by apply rtc_once|]. destruct (append_message turn m s).1; [|done..]. subst stored.
  exists s, e. rewrite Hs' in *. by repeat split.
Qed.

Lemma steps_append_message turn m : steps (append_message turn m).
Proof. eapply triple_conseq; [apply (triple_append_message (fun _ => True)) | auto | auto]. Qed.

Lemma steps_reset : steps reset_provider_continuation.
Proof. intros s _. split; [|done]. apply rtc_once. by apply (step_forget _ _ 0). Qed.

(** The target of a mutation is a visible message. *)
Lemma visible_index_ok x i :
  i ∈ visible_message_indices x ->
  exists m, ses_transcript x !! i = Some m /\ msg_id m ∉ ses_removed_message_ids x.
Proof.
  unfold visible_message_indices. intros [_ Hi]%list_elem_of_In%filter_In.
  destruct (ses_transcript x !! i) as [m|]; [|done]. exists m. split; [done|].
  simpl in Hi. by case_bool_decide.
Qed.

Lemma resolve_target_ok x target i k :
  resolve_mutable_transcript_target x target = Ok (i, k) ->
  exists m, ses_transcript x !! i = Some m /\ msg_id m = k /\ k ∉ ses_removed_message_ids x.
Proof.
  destruct target as [k'|role]; simpl.
  - unfold visible_transcript_index_for_message_id. destruct (List.find _ _) as [j|] eqn:Ef; [|done].
    intros [= -> ->]. apply find_some in Ef as [Hin%list_elem_of_In Hk].
    destruct (visible_index_ok _ _ Hin) as (m & Hm & Hr). rewrite Hm in Hk. simpl in Hk.
    case_bool_decide; [|done]. subst. by exists m.
  - unfold visible_transcript_last_index_for_role. destruct (List.find _ _) as [j|] eqn:Ef; [|done].
    apply find_some in Ef as [Hin%list_elem_of_In _].
    assert (Hin' : j ∈ visible_message_indices x).
    { apply list_elem_of_In. apply in_rev. by apply list_elem_of_In. }
    destruct (visible_index_ok _ _ Hin') as (m & Hm & Hr). rewrite Hm.
    intros [= -> <-]. by exists m.
Qed.

Lemma with_removed_same x k :
  k ∉ ses_removed_message_ids x ->
  history_eq x (with_removed x (ses_removed_message_ids x ∖ {[k]})).
Proof. intros Hk. repeat split; simpl. set_solver. Qed.

Lemma with_message_id_same m : with_message_id m (msg_id m) = m.
Proof. by destruct m. Qed.

(** The tail shared by the three mutations: log the event, then drop the
    provider's continuation if it was stored. *)
Lemma log_then_reset_run turn k s : exists e stored,
  env_event e = k
  /\ history_eq (forget_provider stored (rt_session s))
       (rt_session ((append_event turn None k ≫= fun _ => reset_provider_continuation) s).2)
  /\ rt_trace ((append_event turn None k ≫= fun _ => reset_provider_continuation) s).2
     = rt_trace s ++ [Act_Append e stored].
Proof.
  destruct (append_event_run turn None k s) as (e & sh & w & stored & He & Hs & Ho).
  exists e, stored. split; [done|]. unfold mbind, M_bind.
  destruct (append_event turn None k s) as [[[]|err|] s']; simpl in *; subst; done.
Qed.

Lemma forget_provider_mono stored x y :
  history_eq x y -> history_eq (forget_provider stored x) (forget_provider stored y).
Proof. destruct stored; [|done]. unfold history_eq. naive_solver. Qed.

Lemma steps_replacement turn target m :
  steps (apply_transcript_message_replacement turn target m).
Proof.
  apply steps_intro. intros s. unfold apply_transcript_message_replacement, session.
  rewrite run_gets.
  destruct (resolve_mutable_transcript_target (rt_session s) target) as [[i k]|err] eqn:Er;
    [|apply rtc_refl].
  destruct (resolve_target_ok _ _ _ _ Er) as (old & Hold & <- & Hr).
  unfold write_message. rewrite run_lift_Ok, !run_modify. set (s1 := set_session _ _).
  destruct (log_then_reset_run (Some turn)
    (Ev_TranscriptMessagePatched (msg_id old) (with_message_id m (msg_id old))) s1)
    as (e & stored & He & Hh & Ht).
  apply rtc_once. eapply (step_patch _ _ i old (with_message_id m (msg_id old)) e stored);
    [done | done | done | done | | exact Ht].
  etrans; [|exact Hh]. apply forget_provider_mono.
  apply (with_removed_same (with_transcript (rt_session s) _)). done.
Qed.

Lemma steps_patch turn target patch : steps (apply_transcript_message_patch turn target patch).
Proof.
  apply steps_intro. intros s. unfold apply_transcript_message_patch, session.
  rewrite run_gets.
  destruct (resolve_mutable_transcript_target (rt_session s) target) as [[i k]|err] eqn:Er;
    [|apply rtc_refl].
  destruct (resolve_target_ok _ _ _ _ Er) as (old & Hold & <- & Hr).
  unfold write_message. rewrite run_lift_Ok, Hold, run_modify. set (s1 := set_session _ _).
  destruct (log_then_reset_run (Some turn)
    (Ev_TranscriptMessagePatched (msg_id old) (patch_message old patch)) s1)
    as (e & stored & He & Hh & Ht).
  apply rtc_once. by eapply (step_patch _ _ i old (patch_message old patch) e stored).
Qed.

Lemma steps_removal turn target : steps (apply_transcript_message_removal turn target).
Proof.
  apply steps_intro. intros s. unfold apply_transcript_message_removal, session.
  rewrite run_gets.
  destruct (resolve_mutable_transcript_target (rt_session s) target) as [[i k]|err] eqn:Er;
    [|apply rtc_refl].
  destruct (resolve_target_ok _ _ _ _ Er) as (old & Hold & <- & Hr).
  rewrite run_lift_Ok, run_modify. set (s1 := set_session _ _).
  destruct (log_then_reset_run (Some turn) (Ev_TranscriptMessageRemoved (msg_id old)) s1)
    as (e & stored & He & Hh & Ht).
  apply rtc_once. eapply (step_remove _ _ [msg_id old] [Act_Append e stored] stored);
    [|destruct stored; by repeat constructor | | exact Ht].
  - constructor; [|constructor]. apply list_elem_of_fmap. exists old. split; [done|].
    by eapply list_elem_of_lookup_2.
  - etrans; [|exact Hh]. apply forget_provider_mono. simpl.
    repeat split; simpl. by rewrite union_empty_r_L.
Qed.

(** ** Computations without fuel *)

(** A computation that ends by itself. *)
Definition ends {A} (m : M A) : Prop := forall s, (m s).1 <> OutOfFuel.

Lemma ends_ret {A} (a : A) : ends (mret a).
Proof. done. Qed.

Lemma ends_raise {A} e : ends (raise e : M A).
Proof. done. Qed.

Lemma ends_bind {A C} (m : M A) (f : A -> M C) : ends m -> (forall a, ends (f a)) -> ends (m ≫= f).
Proof.
  intros Hm Hf s. specialize (Hm s). unfold mbind, M_bind.
  destruct (m s) as [[a|e|] s']; simpl in *; [apply Hf | done..].
Qed.

Lemma ends_gets {A} (f : RState -> A) : ends (gets f).
Proof. done. Qed.

Lemma ends_modify f : ends (modify f).
Proof. done. Qed.

Lemma ends_lift {A} (r : result A RuntimeError) : ends (lift r).
Proof. by destruct r. Qed.

Lemma ends_ext {A} (f : Ext A) : ends (ext f).
Proof. intros s. unfold ext. by destruct (f _ _) as [[a sh] w]. Qed.

Lemma ends_on_event o e : ends (on_event o e).
Proof. apply ends_bind; [apply ends_ext | intros; apply ends_lift]. Qed.

Lemma ends_append_event t c k : ends (append_event t c k).
Proof.
  intros s. destruct (append_event_run t c k s) as (? & ? & ? & ? & _ & _ & Ho).
  by destruct (append_event t c k s).1.
Qed.

Lemma ends_append_message t m : ends (append_message t m).
Proof.
  intros s. destruct (append_message_run t m s) as (? & ? & ? & ? & _ & _ & Ho).
  by destruct (append_message t m s).1.
Qed.

Lemma ends_append e : ends (append e).
Proof.
  intros s. destruct (append_run e s) as (? & ? & ? & _ & Ho). by destruct (append e s).1.
Qed.

Lemma ends_for_each {A} (f : A -> M unit) l : (forall x, ends (f x)) -> ends (for_each f l).
Proof. intros Hf. induction l; simpl; [apply ends_ret | by apply ends_bind]. Qed.

End Steps.

#[export] Hint Resolve quietly_ret quietly_raise quietly_gets quietly_lift quietly_ext
  quietly_fresh quietly_now quietly_on_event quietly_on_lifecycle : quiet.
#[export] Hint Extern 1 (quietly (append_event _ _ _)) => apply quietly_append_event; reflexivity : quiet.
#[export] Hint Extern 1 (quietly (append_tool_lifecycle_event _ _ _)) =>
  apply quietly_lifecycle; reflexivity : quiet.
#[export] Hint Extern 1 (quietly (modify _)) => apply quietly_modify; done : quiet.
#[export] Hint Extern 1 (quietly (record_action _)) => apply quietly_action; reflexivity : quiet.
#[export] Hint Resolve steps_ret steps_raise steps_out_of_fuel steps_append_message steps_reset
  steps_replacement steps_patch steps_removal : steps.

Create HintDb ends discriminated.
#[export] Hint Resolve ends_ret ends_raise ends_gets ends_modify ends_lift ends_ext ends_on_event
  ends_append_event ends_append_message ends_append : ends.

(** Follow the structure of a computation. *)
Ltac ends_auto :=
  repeat match goal with
  | |- ends (mbind _ _) => apply ends_bind; [|intros ?]
  | |- ends (match ?x with _ => _ end) => destruct x
  | |- ends (for_each _ _) => apply ends_for_each; intros ?
  | |- ends _ => solve [auto with ends | done]
  end.

Ltac quiet_auto :=
  repeat match goal with
  | |- quietly (mbind _ _) => apply quietly_bind; [|intros ?]
  | |- quietly (match ?x with _ => _ end) => destruct x
  | |- quietly (for_each _ _) => apply quietly_for_each; intros ?
  | |- quietly _ => solve [auto with quiet]
  end.

Ltac steps_auto :=
  repeat match goal with
  | |- steps (mbind _ _) => apply steps_bind; [|intros ?]
  | |- steps (match ?x with _ => _ end) => destruct x
  | |- steps (for_each _ _) => apply steps_for_each; intros ?
  | |- steps _ => solve [auto with steps | apply quietly_steps; quiet_auto]
  end.

(** ** Hooks *)

Section HookSteps.
Context {J : SerdeJson} {B : JsonBuild J} {H : Host}.

Lemma quietly_execute_hook r c : quietly (execute_hook r c).
Proof. unfold execute_hook. quiet_auto. Qed.
#[local] Hint Resolve quietly_execute_hook : quiet.

Lemma quietly_run_hooks hooks c : quietly (run_hooks hooks c).
Proof.
  unfold run_hooks. generalize (@nil HookInvocation). induction hooks as [|r hooks IH]; intros b; simpl.
  - quiet_auto.
  - destruct (negb _); [apply IH|]. apply quietly_bind; [quiet_auto|]. intros [].
    + simpl. apply quietly_bind; [quiet_auto|]. intros o. apply IH.
    + apply IH.
Qed.

Lemma quietly_hook_context e t f p : quietly (hook_context e t f p).
Proof. unfold hook_context, session. quiet_auto. Qed.

Lemma quietly_drain_async : quietly drain_async_invocations.
Proof. unfold drain_async_invocations. quiet_auto. Qed.

Lemma quietly_accumulate_effects a r n l : quietly (accumulate_effects a r n l).
Proof. revert a. induction l as [|e l IH]; intros a; simpl; quiet_auto. Qed.
#[local] Hint Resolve quietly_accumulate_effects : quiet.

Lemma quietly_accumulate t a n b : quietly (accumulate_invocations t a n b).
Proof. revert a. induction b as [|i b IH]; intros a; simpl; quiet_auto. Qed.
#[local] Hint Resolve quietly_accumulate : quiet.

Lemma quietly_emit_ui a o : quietly (emit_hook_ui_events a o).
Proof. unfold emit_hook_ui_events. quiet_auto. Qed.
#[local] Hint Resolve quietly_emit_ui : quiet.

Lemma steps_mutations t l : steps (apply_transcript_mutations t l).
Proof. unfold apply_transcript_mutations. steps_auto. Qed.
#[local] Hint Resolve steps_mutations : steps.

Lemma steps_append_hook_messages t l : steps (append_hook_messages t l).
Proof. unfold append_hook_messages. steps_auto. Qed.
#[local] Hint Resolve steps_append_hook_messages : steps.

Lemma steps_apply_hook_effects t b m n o : steps (apply_hook_effects_with_observer t b m n o).
Proof. unfold apply_hook_effects_with_observer, apply_hook_effects. steps_auto. Qed.

End HookSteps.

#[export] Hint Resolve quietly_run_hooks quietly_hook_context quietly_drain_async : quiet.
#[export] Hint Resolve steps_apply_hook_effects : steps.

(** ** Tool calls *)

Section ToolSteps.
Context {J : SerdeJson} {B : JsonBuild J} {H : Host}.

(** Every step extends the trace. *)
Lemma rt_step_trace s s' : rt_step s s' -> exists l, rt_trace s' = rt_trace s ++ l.
Proof.
  destruct 1 as [[_ (l & -> & _)]| | | | | | | | |]; eauto. exists []. by rewrite app_nil_r.
Qed.

Lemma steps_stable {A} (P : RState -> Prop) (m : M A) :
  steps m -> (forall s s', rt_step s s' -> P s -> P s') -> triple P m (fun _ => P).
Proof.
  intros Hm HP s Hs. destruct (Hm s I) as [Hr _]. split; [done|].
  assert (Hp : P (m s).2) by (revert Hs; induction Hr; eauto). by destruct (m s).1.
Qed.

(** The trace of [s] continues [t] by something with [E]. *)
Definition since (t : list Action) (E : list Action -> Prop) (s : RState) : Prop :=
  exists l, rt_trace s = t ++ l /\ E l.

Definition grows (E : list Action -> Prop) : Prop := forall l k, E l -> E (l ++ k).

Lemma since_step t E s s' : grows E -> rt_step s s' -> since t E s -> since t E s'.
Proof.
  intros HE [k Hk]%rt_step_trace (l & Hl & He). exists (l ++ k). rewrite Hk, Hl, app_assoc. auto.
Qed.

Lemma triple_since {A} t E (m : M A) : steps m -> grows E -> triple (since t E) m (fun _ => since t E).
Proof. intros Hm HE. apply steps_stable; [done|]. intros s s'. by apply since_step. Qed.

(** What the steps preserve can be carried along. *)
Lemma triple_frame {A} (F P : RState -> Prop) (m : M A) Q :
  triple P m Q -> (forall s s', rt_step s s' -> F s -> F s') ->
  triple (fun s => P s /\ F s) m (fun a s => Q a s /\ F s).
Proof.
  intros Hm HF s [Hp Hf]. destruct (Hm s Hp) as [Hr Hq]. split; [done|].
  assert (Hf' : F (m s).2) by (clear Hp Hq; induction Hr; eauto). by destruct (m s).1.
Qed.

(** A stored tool result for the call. *)
Definition answered (call : ToolCall) (l : list Action) : Prop :=
  exists e m r, Act_Append e true ∈ l /\ env_event e = Ev_TranscriptMessage m
    /\ msg_role m = Role_Tool /\ msg_parts m = [Part_ToolResult r]
    /\ result_call_id r = call_call_id call.

Lemma answered_grows call : grows (answered call).
Proof.
  intros l k (e & m & r & Hin & Hrest). exists e, m, r. split; [|done]. apply elem_of_app. by left.
Qed.

Lemma triple_append_result t call turn id r :
  result_call_id r = call_call_id call ->
  triple (since t (fun _ => True)) (append_message turn (Message_tool_result id r))
    (fun _ => since t (answered call)).
Proof.
  intros Hr. eapply triple_conseq; [apply (triple_append_message (since t (fun _ => True))) | auto |].
  intros _ s' (s & e & (l & Hl & _) & _ & He & _ & Ht). exists (l ++ [Act_Append e true]).
  split; [by rewrite Ht, Hl, app_assoc|]. exists e, (Message_tool_result id r), r.
  split; [|done]. apply elem_of_app. right. by left.
Qed.

Lemma with_call_id_id r k : result_call_id (with_call_id r k) = k.
Proof. by destruct r. Qed.

Lemma grows_true : grows (fun _ => True).
Proof. done. Qed.

Lemma triple_fresh t E : grows E -> triple (since t E) fresh (fun _ => since t E).
Proof. intros HE. apply triple_since; [apply quietly_steps; auto with quiet | done]. Qed.

Lemma triple_fail hooks turn call observer error t :
  triple (since t (fun _ => True)) (fail_tool_call hooks turn call observer error)
    (fun _ => since t (answered call)).
Proof.
  unfold fail_tool_call, record_tool_failure_result.
  eapply triple_seq; [|intros _; apply (triple_ret (fun _ => since t (answered call)))].
  eapply triple_seq; [by apply triple_fresh|]. intros fid.
  eapply triple_seq; [by apply triple_fresh|]. intros id.
  eapply triple_seq; [apply (triple_append_result t call); apply with_call_id_id|]. intros ?.
  apply triple_since; [|apply answered_grows]. steps_auto.
Qed.

(** *** Authorization *)

Section Auth.
Variables (original : ToolCall) (effects : AppliedHookEffects) (hook_reasons : list string).
Variables (tool : Tool) (decision : ToolApprovalPolicyDecision).

Let call := from_option (with_arguments original) original (rewritten_tool_arguments effects).
Let policy_request := mkToolApprovalRequest call (tool_spec tool)
  (approval_reasons_for_tool (tool_spec tool) ++ hook_reasons).

Definition gated (s : RState) : Prop :=
  exists t0 t1, rt_trace s = t0 ++ Act_Gate original effects :: t1.

Definition deciding (E : list Action -> Prop) (s : RState) : Prop :=
  exists t0 t1 mid, rt_trace s = t0 ++ Act_Gate original effects :: t1
                                   ++ Act_Policy policy_request decision :: mid
    /\ Forall (fun a => plain_action a = true) mid /\ E mid.

Lemma gated_step s s' : rt_step s s' -> gated s -> gated s'.
Proof.
  intros [k Hk]%rt_step_trace (t0 & t1 & Ht). exists t0, (t1 ++ k). rewrite Hk, Ht. by rewrite <- app_assoc.
Qed.

Lemma deciding_quiet E s s' : grows E -> quiet s s' -> deciding E s -> deciding E s'.
Proof.
  intros HE [_ (l & Hl & Hp)] (t0 & t1 & mid & Ht & Hm & He). exists t0, t1, (mid ++ l).
  rewrite Hl, Ht, <- !app_assoc. simpl. rewrite <- app_assoc. split; [done|]. split; [|by apply HE].
  by apply Forall_app.
Qed.

Lemma triple_deciding {A} E (m : M A) :
  grows E -> quietly m -> triple (deciding E) m (fun _ => deciding E).
Proof. intros HE Hm. apply quietly_triple; [done|]. intros s s'. by apply deciding_quiet. Qed.

Lemma triple_deciding_action E a :
  grows E -> plain_action a = true ->
  triple (deciding E) (record_action a) (fun _ => deciding (fun mid => E mid /\ a ∈ mid)).
Proof.
  intros HE Ha s (t0 & t1 & mid & Ht & Hm & He). split; [apply rtc_once, step_quiet, quietly_action; done|].
  simpl. exists t0, t1, (mid ++ [a]). simpl. rewrite Ht, <- !app_assoc. simpl.
  rewrite <- app_assoc. split; [done|]. split; [apply Forall_app; by split; [|constructor]|].
  split; [by apply HE|]. apply elem_of_app. right. by left.
Qed.

Lemma grows_and E F : grows E -> grows F -> grows (fun l => E l /\ F l).
Proof. intros HE HF l k [? ?]. auto. Qed.

Lemma grows_elem a : grows (fun l => a ∈ l).
Proof. intros l k Hl. apply elem_of_app. by left. Qed.

Lemma deciding_weaken E F s : (forall l, E l -> F l) -> deciding E s -> deciding F s.
Proof. intros HEF (t0 & t1 & mid & Ht & Hm & He). exists t0, t1, mid. auto. Qed.

Definition approved (reasons : list string) (mid : list Action) : Prop :=
  reasons = [] \/ Act_Approval (mkToolApprovalRequest call (tool_spec tool) reasons) Outcome_Approve ∈ mid.

Lemma approved_grows reasons : grows (approved reasons).
Proof. intros l k [?|?]; [by left|]. right. apply elem_of_app. by left. Qed.

Lemma triple_request_approval turn reasons observer :
  triple (deciding (fun _ => True)) (request_approval turn call (tool_spec tool) reasons observer)
    (fun outcome => deciding (fun mid => outcome = Outcome_Approve -> approved reasons mid)).
Proof.
  unfold request_approval. destruct (is_nil reasons) eqn:En.
  { destruct reasons; [|done]. apply triple_return. intros s. apply deciding_weaken.
    intros l _ _. by left. }
  do 4 (eapply triple_seq; [apply triple_deciding; [done | quiet_auto]|]; intros ?).
  set (act := Act_Approval _ _).
  apply (triple_seq _ _ (deciding (fun mid => True /\ act ∈ mid))); [by apply triple_deciding_action|].
  intros ?. assert (Hg := grows_and _ _ grows_true (grows_elem act)).
  match goal with |- triple _ (let (_, _) := ?x in _) _ => destruct x as [approved_flag why] end.
  do 2 (eapply triple_seq; [apply triple_deciding; [exact Hg | quiet_auto]|]; intros ?).
  apply triple_return. intros s. apply deciding_weaken. intros l [_ Hl] ->. by right.
Qed.

Lemma triple_inspect E :
  grows E ->
  triple (deciding E) (inspect_call call)
    (fun signal => deciding (fun mid => E mid /\ Act_Inspect call signal ∈ mid)).
Proof.
  intros HE s Hs. unfold inspect_call. destruct (inspect (rt_detector s) call) as [signal d].
  pose proof (triple_deciding_action E (Act_Inspect call signal) HE eq_refl (set_detector s d) Hs)
    as [_ Hq].
  split; [|exact Hq]. apply rtc_once, step_quiet.
  etrans; [|apply (quietly_action (Act_Inspect call signal) eq_refl (set_detector s d))].
  by apply quiet_silent.
Qed.

(** What is known of the call when [start_tool] runs. *)
Hypothesis not_blocked : blocked_reason effects "tool use blocked" = None.
Hypothesis not_denied : permission_decision effects <> Some Decision_Deny.
Hypothesis asked : permission_decision effects = Some Decision_Ask -> hook_reasons <> [].

Lemma deciding_authorized reasons signal s :
  reasons_after_policy (tool_spec tool) hook_reasons decision = Some reasons ->
  not_critical signal ->
  deciding (fun mid => approved reasons mid /\ Act_Inspect call signal ∈ mid) s ->
  authorized (rt_trace s) tool call.
Proof.
  intros Hr Hc (t0 & t1 & mid & Ht & Hm & Ha & Hi). constructor.
  exists t0, t1, mid, original, effects, hook_reasons, decision. split; [done|].
  split; [done|]. split; [done|]. split; [done|]. split; [done|]. split; [done|].
  split; [exists reasons; split; [by apply reasons_outstanding | done] | by exists signal].
Qed.

Lemma triple_scoped turn name (P : RState -> Prop) :
  triple P (scoped_tool_context turn name call) (fun context s => P s /\ confined context call (rt_shared s) (fs_view (rt_world s))).
Proof.
  intros s Hs. unfold scoped_tool_context.
  destruct (effective_sandbox_policy _ _) as [policy|e] eqn:E; simpl;
    (split; [apply rtc_refl|]); [|done].
  split; [done|]. split; [done|]. by exists policy.
Qed.

Lemma steps_run_tool hooks turn name context observer t :
  triple (fun s => confined context call (rt_shared s) (fs_view (rt_world s))
                   /\ authorized (rt_trace s) tool call /\ since t (fun _ => True) s)
    (run_tool hooks turn tool name call context observer) (fun _ => since t (answered call)).
Proof.
  unfold run_tool.
  apply (triple_seq _ _ (since t (fun _ => True))).
  { intros s (Hc & Ha & Hs).
    assert (Hstep : rt_step s (add_action s (Act_Execute tool call context (rt_shared s)
                                               (fs_view (rt_world s)))))
      by (by apply (step_execute _ _ tool call context)).
    split; [by apply rtc_once|]. by eapply since_step. }
  intros ?. eapply triple_seq; [apply triple_since; [apply quietly_steps; quiet_auto | done]|].
  intros [result|error].
  - eapply triple_seq; [apply triple_since; [apply quietly_steps; quiet_auto | done]|]. intros ?.
    eapply triple_seq; [by apply triple_fresh|]. intros id.
    eapply triple_seq; [apply (triple_append_result t call); apply with_call_id_id|]. intros ?.
    apply triple_since; [|apply answered_grows]. steps_auto.
  - eapply triple_seq; [apply triple_since; [apply quietly_steps; quiet_auto | done]|]. intros ?.
    apply triple_fail.
Qed.

(** [deciding], and where the trace of the call began. *)
Definition deciding_since (t : list Action) (E : list Action -> Prop) (s : RState) : Prop :=
  deciding E s /\ since t (fun _ => True) s.

Lemma triple_with_since {A} t E (m : M A) Q :
  triple (deciding E) m (fun a => deciding (Q a)) ->
  triple (deciding_since t E) m (fun a => deciding_since t (Q a)).
Proof.
  intros Hm. apply (triple_frame (since t (fun _ => True)) (deciding E) m _ Hm).
  intros s s'. by apply since_step.
Qed.

Lemma triple_deciding_since {A} t E (m : M A) :
  grows E -> quietly m -> triple (deciding_since t E) m (fun _ => deciding_since t E).
Proof. intros HE Hm. by apply (triple_with_since t E m (fun _ => E)), triple_deciding. Qed.

Lemma steps_start_tool hooks turn name observer t reasons :
  reasons_after_policy (tool_spec tool) hook_reasons decision = Some reasons ->
  triple (deciding_since t (approved reasons))
    (start_tool hooks turn tool name call observer) (fun _ => since t (answered call)).
Proof.
  intros Hr. unfold start_tool.
  do 2 (eapply triple_seq; [apply triple_deciding_since; [apply approved_grows | quiet_auto]|]; intros ?).
  eapply triple_bind; [apply triple_with_since, triple_inspect, approved_grows|]. intros signal.
  assert (Hg := grows_and _ _ (approved_grows reasons) (grows_elem (Act_Inspect call signal))).
  eapply triple_seq; [apply triple_deciding_since; [exact Hg | quiet_auto]|].
  intros ?. destruct (decide (not_critical signal)) as [Hc|Hc].
  - assert (Hgo : triple (deciding_since t (fun mid => approved reasons mid
                                            /\ Act_Inspect call signal ∈ mid))
      (context ← scoped_tool_context turn name call; run_tool hooks turn tool name call context observer)
      (fun _ => since t (answered call))).
    { eapply triple_bind; [apply triple_scoped|]. intros context s [[Hd Hs] Hcon].
      apply (steps_run_tool hooks turn name context observer t s).
      split; [done|]. split; [by eapply deciding_authorized | done]. }
    destruct signal as [[[] ?]|]; [exact Hgo | done | exact Hgo].
  - destruct signal as [[[] ?]|]; [by destruct Hc | | by destruct Hc].
    eapply triple_conseq; [apply (triple_fail _ _ _ _ _ t) | by intros s [_ ?] | done].
Qed.

End Auth.

Lemma triple_authorize hooks turn tool name original effects hook_reasons observer t :
  blocked_reason effects "tool use blocked" = None ->
  permission_decision effects <> Some Decision_Deny ->
  (permission_decision effects = Some Decision_Ask -> hook_reasons <> []) ->
  let call := from_option (with_arguments original) original (rewritten_tool_arguments effects) in
  triple (fun s => gated original effects s /\ since t (fun _ => True) s)
    (authorize_tool hooks turn tool name call hook_reasons observer)
    (fun _ => since t (answered call)).
Proof.
  intros Hb Hd Ha call. unfold authorize_tool.
  apply (triple_bind _ _ (fun decision =>
    deciding_since original effects hook_reasons tool decision t (fun _ => True))).
  { intros s [(t0 & t1 & Ht) Hs]. unfold decide_policy. set (a := Act_Policy _ _).
    assert (Hstep : rt_step s (add_action s a)) by (by apply (step_note _ _ a)).
    split; [by apply rtc_once|]. split; [|by eapply since_step]. exists t0, t1, []. simpl.
    rewrite Ht, <- app_assoc. done. }
  intros decision. destruct (reasons_after_policy _ _ _) as [reasons|] eqn:Er.
  - eapply triple_bind; [apply triple_with_since, triple_request_approval|]. intros [|why].
    + eapply triple_conseq; [by apply (steps_start_tool original effects hook_reasons tool decision
        Hb Hd Ha hooks turn name observer t reasons) | | done].
      intros s [Hdec Hs]. split; [|done]. eapply deciding_weaken; [|exact Hdec]. auto.
    + eapply triple_conseq; [apply (triple_fail _ _ _ _ _ t) | by intros s [_ ?] | done].
  - eapply triple_conseq; [apply (triple_fail _ _ _ _ _ t) | by intros s [_ ?] | done].
Qed.

Lemma answered_call original arguments l :
  answered (from_option (with_arguments original) original arguments) l <-> answered original l.
Proof. by destruct arguments. Qed.

(** A handled call is answered, and every step it makes is allowed. *)
Lemma triple_handle hooks turn call observer t :
  triple (since t (fun _ => True)) (handle_tool_call hooks turn call observer)
    (fun _ => since t (answered call)).
Proof.
  unfold handle_tool_call.
  eapply triple_seq; [apply triple_since; [apply quietly_steps; quiet_auto | done]|]. intros registry.
  destruct (registry_get registry _) as [tool|]; [|apply triple_raise].
  do 3 (eapply triple_seq; [apply triple_since; [steps_auto | done]|]; intros ?).
  rename a1 into effects.
  apply (triple_seq _ _ (fun s => gated call effects s /\ since t (fun _ => True) s)).
  { intros s Hs. assert (Hstep : rt_step s (add_action s (Act_Gate call effects)))
      by (by apply (step_note _ _ (Act_Gate call effects))).
    split; [by apply rtc_once|]. split; [by exists (rt_trace s), [] | by eapply since_step]. }
  intros ?. set (call' := from_option _ _ _).
  assert (Hfail : forall error, triple (fun s => gated call effects s /\ since t (fun _ => True) s)
    (fail_tool_call hooks turn call' observer error) (fun _ => since t (answered call))).
  { intros error. eapply triple_conseq; [apply (triple_fail _ _ call' _ _ t) | by intros s [_ ?] |].
    intros ? s (l & Hl & Hans). exists l. split; [done|]. by apply (answered_call call (rewritten_tool_arguments effects)). }
  assert (Hauth : forall reasons, blocked_reason effects "tool use blocked" = None ->
    permission_decision effects <> Some Decision_Deny ->
    (permission_decision effects = Some Decision_Ask -> reasons <> []) ->
    triple (fun s => gated call effects s /\ since t (fun _ => True) s)
      (authorize_tool hooks turn tool (call_tool_name call) call' reasons observer)
      (fun _ => since t (answered call))).
  { intros reasons Hb Hd Ha. eapply triple_conseq;
      [by apply (triple_authorize hooks turn tool (call_tool_name call) call effects reasons observer t)
      | done |].
    intros ? s (l & Hl & Hans). exists l. split; [done|]. by apply (answered_call call (rewritten_tool_arguments effects)). }
  destruct (blocked_reason effects _) eqn:Hb; [apply Hfail|].
  destruct (permission_decision effects) as [[]|] eqn:Hp; simpl; [by apply Hauth | apply Hfail | |by apply Hauth].
  do 3 (eapply triple_seq;
    [apply (steps_stable (fun s => gated call effects s /\ since t (fun _ => True) s)); [steps_auto|];
     intros s s' Hs [Hg Ht]; split; [by eapply gated_step | by eapply since_step]|]; intros ?).
  destruct (behavior_denies _ || _); [apply Hfail | by apply Hauth].
Qed.

Lemma steps_handle hooks turn call observer : steps (handle_tool_call hooks turn call observer).
Proof.
  intros s _. destruct (triple_handle hooks turn call observer (rt_trace s) s) as [Hr _].
  - exists []. by rewrite app_nil_r.
  - split; [done|]. by destruct (handle_tool_call _ _ _ _ s).1.
Qed.

End ToolSteps.

#[export] Hint Resolve steps_handle : steps.

(** ** Handling a tool call ends *)

Section ToolEnds.
Context {J : SerdeJson} {B : JsonBuild J} {H : Host}.

Lemma ends_run_hooks hooks c : ends (run_hooks hooks c).
Proof.
  unfold run_hooks. generalize (@nil HookInvocation). induction hooks as [|r hooks IH]; intros b; simpl.
  - apply ends_ret.
  - destruct (negb _); [apply IH|]. apply ends_bind; [apply ends_lift|]. intros [].
    + simpl. apply ends_bind; [unfold execute_hook; ends_auto|]. intros o. apply IH.
    + apply IH.
Qed.
#[local] Hint Resolve ends_run_hooks : ends.

Lemma ends_accumulate t a n b : ends (accumulate_invocations t a n b).
Proof.
  revert a. induction b as [|i b IH]; intros a; simpl; [apply ends_ret|].
  apply ends_bind; [apply ends_append_event|]. intros _. apply ends_bind; [|intros ?; ends_auto].
  revert a. generalize (hook_result_effects (inv_output i)) as l.
  induction l as [|e l IHl]; intros a; simpl; ends_auto.
Qed.
#[local] Hint Resolve ends_accumulate : ends.

Lemma ends_mutations t l : ends (apply_transcript_mutations t l).
Proof.
  unfold apply_transcript_mutations. apply ends_for_each. intros [].
  - unfold apply_transcript_message_replacement, write_message, session, reset_provider_continuation.
    ends_auto.
  - unfold apply_transcript_message_patch, write_message, session, reset_provider_continuation.
    ends_auto.
  - unfold apply_transcript_message_removal, session, reset_provider_continuation. ends_auto.
Qed.
#[local] Hint Resolve ends_mutations : ends.

Lemma ends_apply_hook_effects t b m n o : ends (apply_hook_effects_with_observer t b m n o).
Proof.
  unfold apply_hook_effects_with_observer, apply_hook_effects, append_hook_messages, emit_hook_ui_events.
  ends_auto.
Qed.
#[local] Hint Resolve ends_apply_hook_effects : ends.

Lemma ends_lifecycle t c k : ends (append_tool_lifecycle_event t c k).
Proof. unfold append_tool_lifecycle_event. ends_auto. Qed.
#[local] Hint Resolve ends_lifecycle : ends.

Lemma ends_on_lifecycle o e : ends (on_lifecycle o e).
Proof. unfold on_lifecycle. ends_auto. Qed.
#[local] Hint Resolve ends_on_lifecycle : ends.

Lemma ends_hook_context e t f p : ends (hook_context e t f p).
Proof. unfold hook_context, session. ends_auto. Qed.
#[local] Hint Resolve ends_hook_context : ends.

Lemma ends_fail h t c o e : ends (fail_tool_call h t c o e).
Proof. unfold fail_tool_call, record_tool_failure_result. ends_auto. Qed.
#[local] Hint Resolve ends_fail : ends.

Lemma ends_inspect c : ends (inspect_call c).
Proof. intros s. unfold inspect_call. by destruct (inspect _ _). Qed.
#[local] Hint Resolve ends_inspect : ends.

Lemma ends_scoped t n c : ends (scoped_tool_context t n c).
Proof. intros s. unfold scoped_tool_context. by destruct (effective_sandbox_policy _ _). Qed.
#[local] Hint Resolve ends_scoped : ends.

Lemma ends_handle h t c o : ends (handle_tool_call h t c o).
Proof.
  unfold handle_tool_call, authorize_tool, request_approval, start_tool, run_tool, record_action.
  ends_auto.
Qed.

End ToolEnds.
