(* ===== verification/TurnSteps.v ===== *)
(** * The turn loop makes only allowed steps

    The lemmas of [RuntimeSteps] extended to every operation of [TurnLoop], up to
    [apply_control_with_observer]. *)

From Stdlib Require Import String.
From stdpp Require Import base list gmap strings.
From Stdlib Require Import Lia.
From S2P Require Import Prelude Message Events LoopDetection ControlPlane Errors Replay Session.
From S2P Require Import History HookEffects SandboxPolicy Tools Approval RuntimeState HookFlow.
From S2P Require Import ToolFlow TurnLoop RuntimeSteps.

Section TurnSteps.
Context {J : SerdeJson} {B : JsonBuild J} {H : Host}.

(** ** Lifecycle and turn start *)

Lemma steps_start_agent_session t h r o : steps (start_agent_session t h r o).
Proof. unfold start_agent_session, session, hook_blocked. steps_auto. Qed.
#[local] Hint Resolve steps_start_agent_session : steps.

Lemma steps_rotate t h r1 r2 o : steps (rotate_agent_session t h r1 r2 o).
Proof. unfold rotate_agent_session. steps_auto. Qed.
#[local] Hint Resolve steps_rotate : steps.

Lemma steps_steer m r o : steps (steer_with_observer m r o).
Proof. unfold steer_with_observer. steps_auto. Qed.
#[local] Hint Resolve steps_steer : steps.

Lemma quietly_augment m : quietly (augment_user_message m).
Proof. unfold augment_user_message, session. quiet_auto. Qed.
#[local] Hint Resolve quietly_augment : quiet.

Lemma quietly_pop_safe_point : quietly pop_safe_point.
Proof. intros s. unfold pop_safe_point. destruct (pop_next_safe_point _). by apply quiet_silent. Qed.
#[local] Hint Resolve quietly_pop_safe_point : quiet.

Lemma quietly_pop_queued : quietly pop_queued.
Proof. intros s. unfold pop_queued. destruct (pop_next _). by apply quiet_silent. Qed.
#[local] Hint Resolve quietly_pop_queued : quiet.

Lemma steps_drain_steers fuel a o : steps (drain_runtime_steers fuel a o).
Proof. revert a. induction fuel as [|fuel IH]; intros a; simpl; steps_auto. Qed.
#[local] Hint Resolve steps_drain_steers : steps.

Lemma steps_instruction_load t h i o : steps (record_instruction_load t h i o).
Proof. unfold record_instruction_load, hook_blocked. steps_auto. Qed.
#[local] Hint Resolve steps_instruction_load : steps.

Lemma steps_submit t h p m sp o : steps (submit_user_message t h p m sp o).
Proof. unfold submit_user_message, append_prefix_messages, hook_blocked. steps_auto. Qed.
#[local] Hint Resolve steps_submit : steps.

Lemma steps_prepare t h i m sp o : steps (prepare_user_turn t h i m sp o).
Proof. unfold prepare_user_turn, clear_pending_request_effects. steps_auto. Qed.
#[local] Hint Resolve steps_prepare : steps.

(** ** Compaction *)

Lemma removal_acts_nonempty ids acts stored : removal_acts ids acts stored -> acts = [] -> ids = [].
Proof. by destruct 1. Qed.

Lemma rt_step_length s s' :
  rt_step s s' ->
  (length (ses_transcript (rt_session s)) <= length (ses_transcript (rt_session s')))%nat.
Proof.
  unfold quiet, history_eq, forget_provider.
  destruct 1 as [Hq|n Hh|a Ha Hh|r Hf Hh|c Hh|tool call ctx Ha Hc Hh|m e st He Hh
    |i m m' e st Hi Hid Hr He Hh|ids acts st Hin Hra Hh|si k tail ret r n1 n2 n3 e st Hl Hk Hret H2 He Hh].
  - destruct Hq as [(_ & -> & _) _]. lia.
  - destruct Hh as (_ & -> & _). simpl. lia.
  - destruct Hh as (_ & -> & _). lia.
  - destruct Hh as (_ & -> & _). lia.
  - destruct Hh as (_ & -> & _). simpl. lia.
  - destruct Hh as (_ & -> & _). lia.
  - destruct Hh as (_ & -> & _). simpl. rewrite length_app. lia.
  - destruct Hh as (_ & -> & _). destruct st; simpl; rewrite length_insert; lia.
  - destruct Hh as (_ & -> & _). destruct st; simpl; lia.
  - destruct Hh as (_ & -> & _). simpl. lia.
Qed.

(** Indices of the transcript of a state. *)
Definition indexes (l : list nat) (s : RState) : Prop :=
  Forall (fun i => i < length (ses_transcript (rt_session s)))%nat l.

Lemma indexes_step l s s' : rt_step s s' -> indexes l s -> indexes l s'.
Proof.
  intros Hs%rt_step_length Hl. eapply Forall_impl; [exact Hl|]. simpl. lia.
Qed.

Lemma retained_ids (t : list Message) l m :
  Forall (fun i => i < length t)%nat l ->
  Forall2 (fun i id => msg_id <$> (t ++ [m]) !! i = Some id) l
    (omap (fun i => msg_id <$> t !! i) l).
Proof.
  induction 1 as [|i l Hi Hl IH]; [constructor|]. simpl.
  destruct (lookup_lt_is_Some_2 t i Hi) as [x Hx]. rewrite Hx. simpl.
  constructor; [|exact IH]. by rewrite lookup_app_l, Hx by done.
Qed.

Lemma triple_install turn reason summary sources retained through observer :
  triple (indexes retained)
    (install_summary turn reason summary sources retained through observer) (fun _ _ => True).
Proof.
  intros s Hs. split; [|by destruct (install_summary _ _ _ _ _ _ _ s).1].
  unfold install_summary, session. rewrite run_gets. cbv zeta.
  set (ids := omap _ retained). set (x := rt_session s) in *. set (si := length (ses_transcript x)).
  unfold mbind at 1, M_bind at 1, fresh at 1. cbn beta iota.
  set (k := uuid (rt_next s)).
  destruct (append_message_run turn (Message_system k summary) (bump_next s))
    as (e & sh & w & stored & He & Hs1 & Ho).
  unfold mbind at 1, M_bind at 1.
  destruct (append_message turn (Message_system k summary) (bump_next s)) as [o s1].
  simpl in Hs1, Ho.
  assert (Hstep1 : rt_step s s1) by (rewrite Hs1; by eapply (step_message _ _ _ e stored)).
  destruct o as [[]|err|]; [|by apply rtc_once..].
  eapply rtc_l; [exact Hstep1|]. clear Hstep1.
  unfold reset_provider_continuation. rewrite !run_modify. set (s2 := set_session _ _).
  unfold mbind at 1, M_bind at 1.
  match goal with |- context [append_event _ _ ?kind _] =>
    destruct (append_event_run (Some turn) None kind s2) as (e2 & sh2 & w2 & st2 & He2 & Hs2 & Ho2);
    destruct (append_event (Some turn) None kind s2) as [o2 s3] end.
  simpl in Hs2, Ho2.
  assert (Hstep2 : rt_step s1 s3).
  { subst s1 s3 s2.
    eapply (step_compact _ _ si k ids retained _ _ _ _ e2 st2); simpl; [| |exact Hs| |exact He2|done|done].
    - rewrite length_app. simpl. fold x. subst si. lia.
    - rewrite list_lookup_middle by done. done.
    - by apply retained_ids. }
  destruct o2 as [[]|err|]; [|by apply rtc_once..].
  eapply rtc_l; [exact Hstep2|]. by apply (quietly_steps _ (quietly_on_event observer _)).
Qed.

Lemma indexes_visible s n : indexes (drop n (visible_message_indices (rt_session s))) s.
Proof.
  apply Forall_forall. intros i Hi%list_elem_of_In. apply list_elem_of_In in Hi.
  assert (Hv : i ∈ visible_message_indices (rt_session s)).
  { rewrite <- (take_drop n (visible_message_indices (rt_session s))). apply elem_of_app. by right. }
  apply visible_index_ok in Hv as (m & Hm & _). by eapply lookup_lt_Some.
Qed.

Lemma steps_compact t r i pi o : steps (compact_visible_history t r i pi o).
Proof.
  unfold compact_visible_history, session. intros s0 _.
  rewrite !run_gets. set (x := rt_session s0). cbv zeta.
  assert (Hret : forall b : bool, rtc rt_step s0 (mret (M := M) b s0).2
    /\ match (mret (M := M) b s0).1 with Ret _ => True | _ => True end) by (by split; [apply rtc_refl|]).
  destruct (_ <? 2)%nat; [apply Hret|].
  destruct (select_compaction_split_index _ _) as [split_at|]; [|apply Hret].
  destruct (split_at <? 2)%nat; [apply Hret|].
  set (retained := drop split_at (visible_message_indices x)).
  destruct (last _) as [last_source|]; [|apply Hret].
  destruct (_ <? 2)%nat; [apply Hret|].
  match goal with |- rtc rt_step s0 (?m s0).2 /\ _ =>
    enough (Ht : triple (indexes retained) m (fun _ _ => True)) end.
  { apply Ht. apply indexes_visible. }
  do 4 (eapply triple_seq; [apply (steps_stable (indexes retained));
    [steps_auto | intros s s'; apply indexes_step]|]; intros ?).
  destruct (bool_decide _); [apply triple_return; auto|].
  do 3 (eapply triple_seq; [apply (steps_stable (indexes retained));
    [steps_auto | intros s s'; apply indexes_step]|]; intros ?).
  eapply triple_seq; [apply triple_install|]. intros ?. 
  apply steps_triple. steps_auto.
Qed.
#[local] Hint Resolve steps_compact : steps.

Lemma steps_compact_if_needed t i o : steps (compact_if_needed t i o).
Proof. unfold compact_if_needed, session. steps_auto. Qed.
#[local] Hint Resolve steps_compact_if_needed : steps.

(** ** Rollback *)

Definition remove_one (turn : TurnId) (id : MessageId) : M unit :=
  _ ← modify (fun s => set_session s
        (with_removed (rt_session s) (ses_removed_message_ids (rt_session s) ∪ {[id]})));
  append_event (Some turn) None (Ev_TranscriptMessageRemoved id).

Lemma for_each_cons {A} (f : A -> M unit) x l s :
  for_each f (x :: l) s =
  match f x s with
  | (Ret _, s') => for_each f l s'
  | (Raise e, s') => (Raise e, s')
  | (OutOfFuel, s') => (OutOfFuel, s')
  end.
Proof. done. Qed.

(** The ids handled before the loop ended. *)
Lemma removal_loop turn ids s : exists done acts stored,
  done `prefix_of` ids /\ removal_acts done acts stored
  /\ history_eq (with_removed (rt_session s) (ses_removed_message_ids (rt_session s) ∪ list_to_set done))
       (rt_session (for_each (remove_one turn) ids s).2)
  /\ rt_trace (for_each (remove_one turn) ids s).2 = rt_trace s ++ acts
  /\ match (for_each (remove_one turn) ids s).1 with
     | Ret _ => stored = true
     | Raise _ => stored = false
     | OutOfFuel => False
     end.
Proof.
  revert s. induction ids as [|id ids IH]; intros s.
  { exists [], [], true. split; [done|]. split; [constructor|]. simpl. rewrite app_nil_r.
    split; [|done]. repeat split; simpl. by rewrite union_empty_r_L. }
  rewrite for_each_cons. change (remove_one turn id s) with
    (append_event (Some turn) None (Ev_TranscriptMessageRemoved id) (set_session s
      (with_removed (rt_session s) (ses_removed_message_ids (rt_session s) ∪ {[id]})))).
  set (s1 := set_session _ _).
  destruct (append_event_run (Some turn) None (Ev_TranscriptMessageRemoved id) s1)
    as (e & sh & w & stored & He & Hs & Ho).
  destruct (append_event (Some turn) None (Ev_TranscriptMessageRemoved id) s1) as [[[]|err|] s2];
    simpl in Hs, Ho; [|subst stored|done].
  - subst stored. destruct (IH s2) as (dn & acts & stored & Hp & Hr & Hh & Ht & Ho').
    exists (id :: dn), (Act_Append e true :: acts), stored.
    split; [by apply prefix_cons|]. split; [by constructor|]. split; [|split; [|exact Ho']].
    + etrans; [|exact Hh]. subst s2 s1. simpl. repeat split; simpl. set_solver.
    + rewrite Ht. subst s2 s1. simpl. by rewrite <- app_assoc.
  - exists [id], [Act_Append e false], false. split; [apply prefix_cons, prefix_nil|].
    split; [by constructor|]. subst s2 s1. simpl. split; [|done].
    repeat split; simpl. set_solver.
Qed.

Lemma rollback_ids_known x k ids :
  rollback_removed_message_ids x k = Some ids ->
  Forall (fun id => id ∈ (msg_id <$> ses_transcript x)) ids.
Proof.
  unfold rollback_removed_message_ids. destruct (position _ _) as [n|]; [|done]. intros [= <-].
  apply Forall_forall. intros id (i & _ & Hi)%list_elem_of_omap.
  apply fmap_Some in Hi as (m & Hm & ->). apply list_elem_of_fmap. exists m.
  split; [done|]. by eapply list_elem_of_lookup_2.
Qed.

Lemma steps_rollback k : steps (rollback_visible_history_from_message k).
Proof.
  apply steps_intro. intros s. unfold rollback_visible_history_from_message, session.
  rewrite run_gets. destruct (rollback_removed_message_ids (rt_session s) k) as [ids|] eqn:Ei;
    [|apply rtc_refl].
  apply rollback_ids_known in Ei. destruct (is_nil ids); [apply rtc_refl|].
  unfold mbind at 1, M_bind at 1, fresh at 1. cbn beta iota. set (turn := uuid (rt_next s)).
  fold (remove_one turn).
  destruct (removal_loop turn ids (bump_next s)) as (dn & acts & stored & [rest ->] & Hr & Hh & Ht & Ho).
  apply Forall_app in Ei as [Hd _]. unfold mbind at 1, M_bind at 1.
  change (for_each _ (dn ++ rest)) with (for_each (remove_one turn) (dn ++ rest)).
  destruct (for_each (remove_one turn) (dn ++ rest) (bump_next s)) as [[[]|err|] s1];
    simpl in Hh, Ht, Ho; [| |done]; subst stored;
    apply rtc_once; (eapply (step_remove _ _ dn acts); [done | exact Hr | | exact Ht]).
  - simpl. unfold history_eq in *. simpl in *. naive_solver.
  - exact Hh.
Qed.

(** ** Model requests *)

Lemma history_eq_visible x y :
  history_eq x y -> session_visible_transcript y = session_visible_transcript x.
Proof.
  intros (_ & Ht & _ & _ & Hs & Hr & Hp & Hrm).
  unfold session_visible_transcript, visible_message_indices. by rewrite Ht, Hs, Hr, Hp, Hrm.
Qed.

Lemma history_eq_delta x y : history_eq x y -> transcript_delta y = transcript_delta x.
Proof.
  intros (_ & Ht & _ & Hc & _ & _ & _ & Hrm). unfold transcript_delta. by rewrite Ht, Hc, Hrm.
Qed.

Lemma request_fits_eq x y r : history_eq x y -> request_fits x r -> request_fits y r.
Proof.
  intros Hh. unfold request_fits. rewrite (history_eq_visible x y Hh), (history_eq_delta x y Hh).
  destruct Hh as (_ & _ & -> & _). done.
Qed.

Definition fits (r : ModelRequest) (s : RState) : Prop := request_fits (rt_session s) r.

Lemma triple_fits {A} r (m : M A) : quietly m -> triple (fits r) m (fun _ => fits r).
Proof. intros Hm. apply quietly_triple; [done|]. intros s s' [Hh _]. by apply request_fits_eq. Qed.

Lemma build_fits t i b s : fits (build_model_request t i b s) s.
Proof.
  unfold fits, build_model_request, request_fits, request_window.
  destruct b; [done|]. destruct (negb _); [done|].
  destruct (ses_provider_continuation (rt_session s)) as [c|]; [|done].
  by destruct (existsb _ _).
Qed.

Lemma inject_fits r stats s : fits r s -> fits (inject_into_request r stats) s.
Proof. done. Qed.

Lemma triple_stream r : triple (fits r) (stream_turn r) (fun _ => fits r).
Proof.
  unfold stream_turn, session. intros s Hs. rewrite run_gets.
  unfold record_action. rewrite run_modify.
  pose proof (quietly_ext (backend_stream_turn r)
    (add_action s (Act_Stream r (session_visible_transcript (rt_session s))))) as Hq.
  split.
  - eapply rtc_l; [|by apply rtc_once, step_quiet]. by apply (step_stream _ _ r).
  - destruct (ext _ _).1; [|done..]. destruct Hq as [Hh _]. by eapply request_fits_eq.
Qed.

Lemma quietly_request_window w : quietly (record_request_token_window w).
Proof. intros s. by apply quiet_silent. Qed.
#[local] Hint Resolve quietly_request_window : quiet.

Lemma quietly_publish t i o r : quietly (publish_model_request_started t i o r).
Proof.
  unfold publish_model_request_started. quiet_auto.
Qed.
#[local] Hint Resolve quietly_publish : quiet.

Lemma triple_open_stream fuel t i n o r k stats :
  triple (fits r) (open_stream fuel t i n o r k stats) (fun _ _ => True).
Proof.
  revert r k stats. induction fuel as [|fuel IH]; intros r k stats.
  { by apply steps_triple, steps_out_of_fuel. }
  cbn [open_stream]. eapply triple_seq; [apply triple_stream|].
  intros [stream|error]; [by apply triple_return|].
  destruct (bool_decide _ && _).
  - eapply triple_seq; [apply steps_triple; steps_auto|]. intros _.
    do 2 (eapply triple_seq; [apply steps_triple; steps_auto|]; intros _).
    eapply triple_bind; [apply triple_gets|]. intros rebuilt.
    apply (triple_seq _ _ (fits (inject_into_request rebuilt stats))); [|intros _; apply IH].
    eapply triple_conseq; [apply (triple_fits (inject_into_request rebuilt stats)); quiet_auto | | done].
    intros s [_ ->]. apply inject_fits, build_fits.
  - destruct (model_backend_retry_hint error) as [hint|]; [|apply triple_raise].
    destruct (_ =? _)%nat; [apply triple_raise|].
    apply (triple_conseq _ (fits (inject_into_request r (record_provider_retry stats))) _ _
      (fun _ _ => True)); [|intros s; apply inject_fits | done].
    do 4 (eapply triple_seq; [apply triple_fits; quiet_auto|]; intros ?). apply IH.
Qed.

Lemma quietly_read_stream l r o : quietly (read_stream l r o).
Proof.
  revert r. induction l as [|e l IH]; intros r; simpl; [quiet_auto|].
  apply quietly_bind; [quiet_auto|]. intros []; quiet_auto.
Qed.
#[local] Hint Resolve quietly_read_stream : quiet.

Lemma quietly_response_usage u : quietly (record_response_token_usage u).
Proof. intros s. by apply quiet_silent. Qed.
#[local] Hint Resolve quietly_response_usage : quiet.

Lemma steps_collect t i n stats o : steps (collect_model_response t i n stats o).
Proof.
  unfold collect_model_response, clear_pending_request_effects.
  eapply triple_bind; [apply triple_gets|]. intros built.
  apply (triple_seq _ _ (fits (inject_into_request built stats))).
  { eapply triple_conseq; [apply (triple_fits (inject_into_request built stats)); quiet_auto | | done].
    intros s [_ ->]. apply inject_fits, build_fits. }
  intros _. eapply triple_seq; [apply triple_open_stream|]. intros [stream stats'].
  apply steps_triple. steps_auto.
Qed.
#[local] Hint Resolve steps_collect : steps.

(** ** The turn loop and its callers *)

Lemma steps_persist t r : steps (persist_assistant_response t r).
Proof. unfold persist_assistant_response. steps_auto. Qed.
#[local] Hint Resolve steps_persist : steps.

Lemma steps_update_continuation c : steps (update_provider_continuation c).
Proof.
  apply steps_intro. intros s. apply rtc_once. destruct c as [c|].
  - by apply (step_known _ _ c).
  - by eapply step_forget.
Qed.
#[local] Hint Resolve steps_update_continuation : steps.

Lemma steps_stop_hooks t h a o : steps (handle_stop_hooks t h a o).
Proof. unfold handle_stop_hooks, hook_blocked. steps_auto. Qed.
#[local] Hint Resolve steps_stop_hooks : steps.

Lemma steps_handle_calls h t l stats o : steps (handle_tool_calls h t l stats o).
Proof. revert stats. induction l as [|c l IH]; intros stats; simpl; steps_auto. Qed.
#[local] Hint Resolve steps_handle_calls : steps.

Lemma steps_turn_loop fuel t h i n stats o : steps (run_turn_loop fuel t h i n stats o).
Proof.
  revert n stats. induction fuel as [|fuel IH]; intros n stats; cbn [run_turn_loop]; steps_auto.
Qed.
#[local] Hint Resolve steps_turn_loop : steps.

Lemma steps_run_user_message fuel m sp o : steps (run_user_message_with_observer fuel m sp o).
Proof. unfold run_user_message_with_observer. steps_auto. Qed.
#[local] Hint Resolve steps_run_user_message : steps.

Lemma steps_drain_controls fuel a o : steps (drain_queued_controls_with_observer fuel a o).
Proof. revert a. induction fuel as [|fuel IH]; intros a; simpl; steps_auto. Qed.
#[local] Hint Resolve steps_drain_controls : steps.

Lemma steps_apply_control fuel c o : steps (apply_control_with_observer fuel c o).
Proof. unfold apply_control_with_observer. steps_auto. Qed.

Lemma steps_compact_now i o : steps (compact_now_with_observer i o).
Proof. unfold compact_now_with_observer. steps_auto. Qed.

End TurnSteps.

#[export] Hint Resolve steps_apply_control steps_compact_now steps_rollback steps_run_user_message
  steps_handle_calls steps_steer steps_drain_controls : steps.
