(* ===== verification/RuntimeProps.v ===== *)
(** * What the runtime guarantees

    The host's calls, and what every sequence of them keeps: executions are
    authorized, tool calls are answered, and a switch of session leaves nothing
    of the session before.  [LogProps] and [ProviderProps] add the agreement with
    the store and with the provider. *)

From Stdlib Require Import String.
From stdpp Require Import base list gmap strings.
From Stdlib Require Import Lia.
From S2P Require Import Prelude Message Events LoopDetection ControlPlane Errors Replay Session.
From S2P Require Import History HookEffects SandboxPolicy Tools Approval RuntimeState HookFlow.
From S2P Require Import ToolFlow TurnLoop DemoHost RuntimeSteps TurnSteps.

Section Props.
Context {J : SerdeJson} {B : JsonBuild J} {H : Host}.

(** ** The host's calls *)

(** What a host asks of a runtime between two switches of session.  The host
    keeps the runtime when a call fails. *)
Inductive HostCall :=
| Call_Control (fuel : nat) (command : RuntimeCommand)
| Call_Drain (fuel : nat)
| Call_Compact (instructions : option string)
| Call_Rollback (message_id : MessageId)
| Call_End (reason : option string)
| Call_Host (instructions : list string) (hooks : list HookRegistration) (augmentor : option nat).

Definition run_call (observer : RuntimeObserver) (s : RState) (call : HostCall) : RState :=
  match call with
  | Call_Control fuel command => (apply_control_with_observer fuel command observer s).2
  | Call_Drain fuel => (drain_queued_controls_with_observer fuel false observer s).2
  | Call_Compact instructions => (compact_now_with_observer instructions observer s).2
  | Call_Rollback message_id => (rollback_visible_history_from_message message_id s).2
  | Call_End reason => (end_session reason s).2
  | Call_Host instructions hooks augmentor => set_host s instructions hooks augmentor
  end.

Definition run_calls (observer : RuntimeObserver) (s : RState) (calls : list HostCall) : RState :=
  foldl (run_call observer) s calls.

Lemma run_call_steps observer s call : rtc rt_step s (run_call observer s call).
Proof.
  destruct call; simpl.
  1-4: match goal with |- rtc _ _ (?m _).2 =>
         assert (Hm : steps m) by auto with steps; by apply Hm end.
  - apply (quietly_steps (end_session reason)); [|done]. unfold end_session, session. quiet_auto.
  - apply rtc_once, step_quiet. by apply quiet_silent.
Qed.

Lemma run_calls_steps observer calls s : rtc rt_step s (run_calls observer s calls).
Proof.
  revert s. induction calls as [|c calls IH]; intros s; simpl; [apply rtc_refl|].
  etrans; [apply run_call_steps | apply IH].
Qed.

(** An invariant of the steps is an invariant of the host's calls. *)
Lemma run_calls_inv (P : RState -> Prop) observer calls s :
  (forall s s', rt_step s s' -> P s -> P s') -> P s -> P (run_calls observer s calls).
Proof. intros HP Hs. induction (run_calls_steps observer calls s); eauto. Qed.

(** ** Executions *)

Definition executions_ok (t : list Action) : Prop :=
  forall pre tool call context shared files post,
    t = pre ++ Act_Execute tool call context shared files :: post ->
    authorized pre tool call /\ confined context call shared files.

(** An action that is not in the new part of a trace was in the old part. *)
Lemma app_split_old {A} (t l pre post : list A) a :
  t ++ l = pre ++ a :: post -> a ∉ l -> exists post', t = pre ++ a :: post'.
Proof.
  revert t. induction pre as [|x pre IH]; intros t; simpl.
  - destruct t as [|y t]; simpl; [|intros [= -> _] _; by exists t].
    intros -> Hn. destruct Hn. by left.
  - destruct t as [|y t]; simpl.
    + intros -> Hn. destruct Hn. right. apply elem_of_app. right. by left.
    + intros [= -> Heq] Hn. destruct (IH t Heq Hn) as [post' ->]. by exists post'.
Qed.

Definition is_execute (a : Action) : bool :=
  match a with Act_Execute _ _ _ _ _ => true | _ => false end.

Lemma executions_ok_app t l :
  executions_ok t -> Forall (fun a => is_execute a = false) l -> executions_ok (t ++ l).
Proof.
  intros Ht Hl pre tool call context shared files post Heq.
  destruct (app_split_old t l pre post _ Heq) as [post' ->].
  - intros Hin. rewrite Forall_forall in Hl. by specialize (Hl _ Hin).
  - by eapply Ht.
Qed.

Lemma plain_not_execute l :
  Forall (fun a => plain_action a = true) l -> Forall (fun a => is_execute a = false) l.
Proof. intros Hl. eapply Forall_impl; [exact Hl|]. by intros []. Qed.

Lemma removal_not_execute ids acts stored :
  removal_acts ids acts stored -> Forall (fun a => is_execute a = false) acts.
Proof. induction 1; by repeat constructor. Qed.

Lemma executions_ok_step s s' : rt_step s s' -> executions_ok (rt_trace s) -> executions_ok (rt_trace s').
Proof.
  intros Hstep Ht. destruct Hstep as [Hq|n Hh Htr|a Ha Hh Htr|r Hf Hh Htr|c Hh Htr|tool call ctx Ha Hc Hh Htr
    |m e st He Hh Htr|i m m' e st Hi Hid Hr He Hh Htr|ids acts st Hin Hra Hh Htr
    |si k tail ret r n1 n2 n3 e st Hl Hk Hret H2 He Hh Htr].
  - destruct Hq as [_ (l & -> & Hl)]. apply executions_ok_app; [done | by apply plain_not_execute].
  - by rewrite Htr.
  - rewrite Htr. apply executions_ok_app; [done|]. constructor; [by destruct a | constructor].
  - rewrite Htr. apply executions_ok_app; [done | by repeat constructor].
  - rewrite Htr. apply executions_ok_app; [done | by repeat constructor].
  - rewrite Htr. intros pre tool' call' ctx' shared' files' post Heq.
    destruct post as [|b post _] using rev_ind.
    + apply app_inj_tail in Heq as [<- [= <- <- <- <- <-]]. done.
    + rewrite app_comm_cons, app_assoc in Heq. apply app_inj_tail in Heq as [Heq _].
      by eapply Ht.
  - rewrite Htr. apply executions_ok_app; [done | by repeat constructor].
  - rewrite Htr. apply executions_ok_app; [done | by repeat constructor].
  - rewrite Htr. apply executions_ok_app; [done | by eapply removal_not_execute].
  - rewrite Htr. apply executions_ok_app; [done | by repeat constructor].
Qed.


(** ** Answers *)

(** C5.  Every tool call of a response is answered: when the calls of a response
    have been handled, the log holds, in the order of the calls, a stored tool
    result under each call's id, whether the call ran, failed, was blocked by a
    hook or a loop signal, or was denied.  Handling them always ends, with all
    calls answered or with an error. *)
Theorem tool_calls_are_answered hooks turn calls stats observer s :
  match handle_tool_calls hooks turn calls stats observer s with
  | (Ret _, s') => exists segments, rt_trace s' = rt_trace s ++ concat segments
      /\ Forall2 answered calls segments
  | (Raise _, _) => True
  | (OutOfFuel, _) => False
  end.
Proof.
  revert stats s. induction calls as [|call calls IH]; intros stats s; simpl.
  { exists []. simpl. by rewrite app_nil_r. }
  unfold mbind, M_bind. destruct (triple_handle hooks turn call observer (rt_trace s) s) as [_ Hq].
  { exists []. by rewrite app_nil_r. }
  assert (Hends := ends_handle hooks turn call observer s).
  destruct (handle_tool_call hooks turn call observer s) as [[outcome|e|] s1]; [|done..].
  simpl in Hq. destruct Hq as (l & Hl & Ha).
  specialize (IH (record_tool_result stats outcome) s1).
  destruct (handle_tool_calls _ _ _ _ _ s1) as [[stats'|e|] s2]; [|done..].
  destruct IH as (segments & Ht & Hf). exists (l :: segments). simpl.
  by rewrite Ht, Hl, app_assoc; auto.
Qed.

(** ** Switching sessions *)

(** Nothing of the previous session's requests, queue, grants or tool history. *)
Definition clean (s s' : RState) : Prop :=
  rt_pending_additional_context s' = [] /\ rt_pending_injected_instructions s' = []
  /\ sh_control_plane (rt_shared s') = [] /\ sh_grants (rt_shared s') = PermissionGrantSnapshot_default
  /\ rt_detector s' = ToolLoopDetector_new (config (rt_detector s)).

Lemma reset_after_switch_clean s :
  exists s', reset_after_switch s = (Ret tt, s') /\ rt_session s' = rt_session s /\ clean s s'.
Proof. eexists. split; [reflexivity|]. by repeat split. Qed.

(** The optional end event both switches start with. *)
Lemma end_event_run (started : bool) reason s : exists o s',
  (if started then append_event None None (Ev_SessionEnd (Some reason)) else mret tt) s = (o, s')
  /\ rt_session s' = rt_session s /\ rt_detector s' = rt_detector s
  /\ match o with Ret _ => True | Raise _ => started = true | OutOfFuel => False end.
Proof.
  destruct started; [|by exists (Ret tt), s].
  destruct (append_event_run None None (Ev_SessionEnd (Some reason)) s)
    as (e & sh & w & stored & _ & Hs & Ho).
  destruct (append_event None None _ s) as [o s']. exists o, s'. simpl in *. subst s'.
  split; [done|]. split; [done|]. split; [done|]. by destruct o.
Qed.

(** Sessions are isolated: opening a new session or resuming a stored one
    leaves no pending request effects, queued commands, permission grants or
    tool history of the session before, keeps what the resumed session shows and
    drops its continuation; it fails only when the end of the live session
    cannot be stored, and then the live session stays. *)
Theorem session_switch_isolates s resumed :
  match start_new_session s with
  | (Ret _, s') => (exists sid aid, rt_session s' = RuntimeSession_new sid aid) /\ clean s s'
  | (Raise _, s') => rt_session s' = rt_session s /\ ses_agent_session_started (rt_session s) = true
  | (OutOfFuel, _) => False
  end
  /\ match resume_session resumed s with
     | (Ret _, s') =>
         session_visible_transcript (rt_session s') = session_visible_transcript resumed
         /\ ses_provider_continuation (rt_session s') = None
         /\ ses_agent_session_started (rt_session s') = false /\ clean s s'
     | (Raise _, s') => rt_session s' = rt_session s /\ ses_agent_session_started (rt_session s) = true
     | (OutOfFuel, _) => False
     end.
Proof.
  split.
  - unfold start_new_session, session. rewrite run_gets.
    destruct (end_event_run (ses_agent_session_started (rt_session s)) "operator_new_session" s)
      as (o & s1 & E & Hs & Hd & Ho).
    unfold mbind at 1, M_bind at 1. rewrite E. destruct o as [[]|e|]; [|by split | done].
    unfold mbind at 1 2, M_bind at 1 2, fresh. rewrite run_modify. set (s2 := set_session _ _).
    destruct (reset_after_switch_clean s2) as (s3 & -> & Hs3 & Hc).
    split; [by rewrite Hs3; eexists _, _|]. unfold clean in *. simpl in Hc. by rewrite Hd in Hc.
  - unfold resume_session, session. rewrite run_gets.
    destruct (end_event_run (ses_agent_session_started (rt_session s)) "operator_resume_switch" s)
      as (o & s1 & E & Hs & Hd & Ho).
    unfold mbind at 1, M_bind at 1. rewrite E. destruct o as [[]|e|]; [|by split | done].
    rewrite run_modify. set (s2 := set_session _ _).
    destruct (reset_after_switch_clean s2) as (s3 & -> & Hs3 & Hc).
    rewrite Hs3. split; [done|]. split; [done|]. split; [done|].
    unfold clean in *. simpl in Hc. by rewrite Hd in Hc.
Qed.

End Props.

(** ** A concrete run *)

Section Witnesses.

Definition demo_calls : list HostCall :=
  [Call_Control 4 (demo_prompt "u1" "hello"); Call_Control 4 (demo_prompt "u2" "again")].

Definition demo_run : RState := run_calls NoopRuntimeObserver demo_state demo_calls.


(** Handling the demo call returns. *)
Example demo_call_returns :
  (handle_tool_calls [] "turn" [demo_call] SkillCaptureRuntimeStats_default NoopRuntimeObserver
     demo_state).1 = Ret (mkSkillCaptureRuntimeStats 1 0 0).
Proof. vm_compute. reflexivity. Qed.

End Witnesses.
