(* ===== verification/LogProps.v ===== *)
(** * The live session and the stored log

    What the runtime keeps in memory agrees with what it has persisted: replaying
    the log gives the live transcript without the removed messages, and the
    latest checkpoint in the log is the live window.  The log is what the store
    held before the first call ([before]) followed by the events the store has
    accepted since; the agreement holds as long as the store accepted every event
    and no two messages were appended under one id. *)

From Stdlib Require Import String.
From stdpp Require Import base list gmap strings.
From Stdlib Require Import Lia.
From S2P Require Import Prelude Message Events LoopDetection ControlPlane Errors Replay Session.
From S2P Require Import History HookEffects SandboxPolicy Tools Approval RuntimeState HookFlow.
From S2P Require Import ToolFlow TurnLoop DemoHost RuntimeSteps TurnSteps RuntimeProps.

Section LogProps.
Context {J : SerdeJson} {B : JsonBuild J} {H : Host}.

(** ** The log of a trace *)

Definition stored_event (a : Action) : option SessionEventEnvelope :=
  match a with Act_Append e true => Some e | _ => None end.

Definition stored_events (t : list Action) : list SessionEventEnvelope := omap stored_event t.

Definition action_stored (a : Action) : Prop :=
  match a with Act_Append _ stored => stored = true | _ => True end.

#[global] Instance action_stored_dec a : Decision (action_stored a).
Proof. destruct a; simpl; apply _. Defined.

(** The store accepted every event. *)
Definition all_stored (t : list Action) : Prop := Forall action_stored t.

Definition log_of (before : list SessionEventEnvelope) (s : RState) : list SessionEventEnvelope :=
  before ++ stored_events (rt_trace s).

Definition live (x : RuntimeSession) (m : Message) : Prop := msg_id m ∉ ses_removed_message_ids x.
#[global] Instance live_dec x m : Decision (live x m).
Proof. unfold live. apply _. Defined.

(** The live window is the latest checkpoint of the log. *)
Definition window_logged (log : list SessionEventEnvelope) (x : RuntimeSession) : Prop :=
  match ses_compaction_summary_index x with
  | None => find_map compaction_of (rev log) = None
            /\ ses_retained_tail_indices x = [] /\ ses_post_summary_start x = 0%nat
  | Some si => exists k tail,
      find_map compaction_of (rev log) = Some (Some k, tail)
      /\ msg_id <$> ses_transcript x !! si = Some k
      /\ ses_post_summary_start x = S si
      /\ Forall (fun i => i < si)%nat (ses_retained_tail_indices x)
      /\ Forall2 (fun i id => msg_id <$> ses_transcript x !! i = Some id)
           (ses_retained_tail_indices x) tail
  end.

Record coherent (log : list SessionEventEnvelope) (x : RuntimeSession) : Prop := {
  coh_replay : transcript_of_log log = base.filter (live x) (ses_transcript x);
  coh_removed : forall k, k ∈ ses_removed_message_ids x -> k ∈ (msg_id <$> ses_transcript x);
  coh_appended : forall k, k ∈ (msg_id <$> ses_transcript x) -> k ∈ appended_ids log;
  coh_nodup : NoDup (msg_id <$> ses_transcript x);
  coh_window : window_logged log x
}.

Definition log_agrees (before : list SessionEventEnvelope) (s : RState) : Prop :=
  all_stored (rt_trace s) -> NoDup (appended_ids (log_of before s)) ->
  coherent (log_of before s) (rt_session s).

(** ** Events outside the history *)

Lemma transcript_of_log_app log events :
  transcript_of_log (log ++ events) = foldl apply_log_event (transcript_of_log log) events.
Proof. unfold transcript_of_log. by rewrite foldl_app. Qed.

Lemma plain_events_transcript t events :
  Forall (fun e => plain_event (env_event e) = true) events -> foldl apply_log_event t events = t.
Proof.
  induction 1 as [|e events He _ IH]; [done|]. simpl.
  assert (apply_log_event t e = t) as -> by (unfold apply_log_event; by destruct (env_event e)).
  done.
Qed.

Lemma plain_events_ids events :
  Forall (fun e => plain_event (env_event e) = true) events -> appended_ids events = [].
Proof.
  induction 1 as [|e events He _ IH]; [done|]. change (e :: events) with ([e] ++ events).
  rewrite appended_ids_app, IH. unfold appended_ids. simpl. unfold appended_id.
  by destruct (env_event e).
Qed.

Lemma find_map_app {A C} (f : A -> option C) l k :
  find_map f (l ++ k) = match find_map f l with Some c => Some c | None => find_map f k end.
Proof. induction l as [|x l IH]; [done|]. simpl. by destruct (f x). Qed.

Lemma other_events_compaction log events :
  Forall (fun e => compaction_of e = None) events ->
  find_map compaction_of (rev (log ++ events)) = find_map compaction_of (rev log).
Proof.
  intros He. rewrite rev_app_distr, find_map_app.
  assert (find_map compaction_of (rev events) = None) as ->; [|done].
  apply Forall_rev in He. induction He as [|e l Hl _ IH]; [done|]. simpl. by rewrite Hl.
Qed.

Lemma plain_events_compaction events :
  Forall (fun e => plain_event (env_event e) = true) events ->
  Forall (fun e => compaction_of e = None) events.
Proof.
  intros He. eapply Forall_impl; [exact He|]. cbv beta. intros e Hp. unfold compaction_of.
  destruct (env_event e); done.
Qed.

Lemma stored_plain l :
  Forall (fun a => plain_action a = true) l ->
  Forall (fun e => plain_event (env_event e) = true) (stored_events l).
Proof.
  induction 1 as [|a l Ha _ IH]; [constructor|]. unfold stored_events in *. simpl.
  destruct a as [e []| | | | | | |]; simpl; auto.
Qed.

Lemma stored_events_app t l : stored_events (t ++ l) = stored_events t ++ stored_events l.
Proof. apply omap_app. Qed.

Lemma window_logged_eq log log' x y :
  history_eq x y -> find_map compaction_of (rev log') = find_map compaction_of (rev log) ->
  window_logged log x -> window_logged log' y.
Proof.
  intros (_ & Ht & _ & _ & Hs & Hr & Hp & _) Hc. unfold window_logged.
  by rewrite Ht, Hs, Hr, Hp, Hc.
Qed.

(** Sessions with the same transcript, window and removals, and logs that read
    the same. *)
Definition same_view (x y : RuntimeSession) : Prop :=
  ses_transcript y = ses_transcript x
  /\ ses_compaction_summary_index y = ses_compaction_summary_index x
  /\ ses_retained_tail_indices y = ses_retained_tail_indices x
  /\ ses_post_summary_start y = ses_post_summary_start x
  /\ ses_removed_message_ids y = ses_removed_message_ids x.

Lemma history_eq_view x y : history_eq x y -> same_view x y.
Proof. unfold history_eq, same_view. naive_solver. Qed.

Lemma coherent_view log log' x y :
  same_view x y -> transcript_of_log log' = transcript_of_log log ->
  appended_ids log' = appended_ids log ->
  find_map compaction_of (rev log') = find_map compaction_of (rev log) ->
  coherent log x -> coherent log' y.
Proof.
  intros (Ht & Hs & Hr & Hp & Hrm) H1 H2 H3 [C1 C2 C3 C4 C5]. constructor.
  - rewrite H1, C1, Ht. apply list_filter_iff. intros m. unfold live. by rewrite Hrm.
  - by rewrite Ht, Hrm.
  - by rewrite Ht, H2.
  - by rewrite Ht.
  - unfold window_logged in *. by rewrite Ht, Hs, Hr, Hp, H3.
Qed.

Lemma coherent_view_same log x y : same_view x y -> coherent log x -> coherent log y.
Proof. intros Hv. by apply coherent_view. Qed.

Lemma coherent_plain log events x y :
  same_view x y -> Forall (fun e => plain_event (env_event e) = true) events ->
  coherent log x -> coherent (log ++ events) y.
Proof.
  intros Hv He. apply coherent_view; [done | | |].
  - by rewrite transcript_of_log_app, plain_events_transcript.
  - by rewrite appended_ids_app, (plain_events_ids events), app_nil_r.
  - by apply other_events_compaction, plain_events_compaction.
Qed.

(** ** One event of the history *)

Lemma coherent_message log e m x :
  env_event e = Ev_TranscriptMessage m -> NoDup (appended_ids (log ++ [e])) ->
  coherent log x -> coherent (log ++ [e]) (with_transcript x (ses_transcript x ++ [m])).
Proof.
  intros He Hnd [C1 C2 C3 C4 C5].
  assert (Hids : appended_ids (log ++ [e]) = appended_ids log ++ [msg_id m]).
  { rewrite appended_ids_app. unfold appended_ids at 2. simpl. unfold appended_id. by rewrite He. }
  rewrite Hids in Hnd. apply NoDup_app in Hnd as (_ & Hdis & _).
  assert (Hfresh : msg_id m ∉ (msg_id <$> ses_transcript x)).
  { intros Hin%C3. apply (Hdis _ Hin). by left. }
  constructor; simpl.
  - rewrite transcript_of_log_app, C1. simpl. unfold apply_log_event. rewrite He, filter_app. f_equal.
    rewrite filter_cons_True; [done|]. unfold live. simpl. intros Hin%C2. done.
  - intros k Hk%C2. rewrite fmap_app. apply elem_of_app. by left.
  - intros k. rewrite fmap_app, Hids. rewrite !elem_of_app. simpl. intros [Hk%C3|Hk]; auto.
  - rewrite fmap_app. apply NoDup_app. split; [done|]. split; [|apply NoDup_singleton].
    intros k Hk Hin. apply list_elem_of_singleton in Hin as ->. done.
  - unfold window_logged in *. simpl.
    rewrite other_events_compaction
      by (constructor; [unfold compaction_of; by rewrite He | constructor]).
    destruct (ses_compaction_summary_index x) as [si|]; [|done].
    destruct C5 as (k & tail & Hf & Hsi & Hp & Hb & H2). exists k, tail.
    split; [done|]. apply fmap_Some in Hsi as (sm & Hsm & ->).
    split; [by rewrite (lookup_app_l_Some _ _ _ _ Hsm)|]. split; [done|]. split; [done|].
    eapply Forall2_impl; [exact H2|]. intros i id (im & Him & ->)%fmap_Some.
    by rewrite (lookup_app_l_Some _ _ _ _ Him).
Qed.

Lemma ids_insert (t : list Message) i m m' :
  t !! i = Some m -> msg_id m' = msg_id m -> msg_id <$> <[i := m']> t = msg_id <$> t.
Proof.
  intros Hi Hm. rewrite list_fmap_insert, Hm. apply list_insert_id. by rewrite list_lookup_fmap, Hi.
Qed.

(** Patching by id is writing at the index. *)
Lemma patch_by_id (P : Message -> Prop) `{!forall m, Decision (P m)} (t : list Message) i m m' :
  NoDup (msg_id <$> t) -> t !! i = Some m -> msg_id m' = msg_id m -> P m -> P m' ->
  (fun x => if decide (msg_id x = msg_id m) then m' else x) <$> base.filter P t
  = base.filter P (<[i := m']> t).
Proof.
  intros Hnd Hi Hm HP HP'. apply lookup_lt_Some in Hi as Hlt.
  rewrite insert_take_drop by done. rewrite <- (take_drop_middle t i m Hi) at 1.
  assert (Hothers : Forall (fun x => msg_id x <> msg_id m) (take i t)
                    /\ Forall (fun x => msg_id x <> msg_id m) (drop (S i) t)).
  { rewrite <- (take_drop_middle t i m Hi), fmap_app, fmap_cons in Hnd.
    apply NoDup_app in Hnd as (_ & Hd & Hn). apply NoDup_cons in Hn as [Hn _].
    split; apply Forall_forall; intros x Hx Heq.
    - apply (Hd (msg_id x)); [by apply list_elem_of_fmap_2 | rewrite Heq; by left].
    - apply Hn. rewrite <- Heq. by apply list_elem_of_fmap_2. }
  destruct Hothers as [Ho1 Ho2].
  assert (Hf : forall l, Forall (fun x => msg_id x <> msg_id m) l ->
    Forall (fun x => msg_id x <> msg_id m) (base.filter P l)).
  { intros l Hl. apply Forall_forall. intros x [_ Hx]%list_elem_of_filter.
    by apply (proj1 (Forall_forall _ _) Hl). }
  rewrite !filter_app, !filter_cons_True by done. rewrite fmap_app, fmap_cons, decide_True by done.
  by rewrite (fmap_patch_others _ (fun _ => m') _ (Hf _ Ho1)),
    (fmap_patch_others _ (fun _ => m') _ (Hf _ Ho2)).
Qed.

Lemma coherent_patch log e i m m' x :
  ses_transcript x !! i = Some m -> msg_id m' = msg_id m ->
  msg_id m ∉ ses_removed_message_ids x ->
  env_event e = Ev_TranscriptMessagePatched (msg_id m) m' ->
  coherent log x -> coherent (log ++ [e]) (with_transcript x (<[i := m']> (ses_transcript x))).
Proof.
  intros Hi Hm Hr He [C1 C2 C3 C4 C5].
  assert (Hids : appended_ids (log ++ [e]) = appended_ids log).
  { rewrite appended_ids_app. unfold appended_ids at 2. simpl. unfold appended_id.
    by rewrite He, app_nil_r. }
  constructor; simpl; rewrite ?(ids_insert _ i m m' Hi Hm), ?Hids; try done.
  - rewrite transcript_of_log_app, C1. simpl. unfold apply_log_event. rewrite He.
    assert (Hw : with_message_id m' (msg_id m) = m') by (rewrite <- Hm; apply with_message_id_same).
    rewrite Hw. apply patch_by_id; try done. unfold live. by rewrite Hm.
  - unfold window_logged in *. simpl.
    rewrite other_events_compaction
      by (constructor; [unfold compaction_of; by rewrite He | constructor]).
    assert (Hl : forall j, msg_id <$> <[i := m']> (ses_transcript x) !! j
                           = msg_id <$> ses_transcript x !! j).
    { intros j. rewrite <- !list_lookup_fmap. by rewrite (ids_insert _ i m m' Hi Hm). }
    destruct (ses_compaction_summary_index x) as [si|]; [|done].
    destruct C5 as (k & tail & Hf & Hsi & Hp & Hb & H2). exists k, tail. rewrite Hl.
    do 4 (split; [done|]). eapply Forall2_impl; [exact H2|]. intros j id. by rewrite Hl.
Qed.

Lemma coherent_remove log e k x :
  k ∈ (msg_id <$> ses_transcript x) -> env_event e = Ev_TranscriptMessageRemoved k ->
  coherent log x ->
  coherent (log ++ [e]) (with_removed x (ses_removed_message_ids x ∪ {[k]})).
Proof.
  intros Hk He [C1 C2 C3 C4 C5].
  assert (Hids : appended_ids (log ++ [e]) = appended_ids log).
  { rewrite appended_ids_app. unfold appended_ids at 2. simpl. unfold appended_id.
    by rewrite He, app_nil_r. }
  constructor; simpl; rewrite ?Hids; try done.
  - rewrite transcript_of_log_app, C1. simpl. unfold apply_log_event. rewrite He.
    rewrite list_filter_filter. apply list_filter_iff. intros m. unfold live. simpl. set_solver.
  - intros j [Hj|Hj]%elem_of_union; [by apply C2|]. by apply elem_of_singleton in Hj as ->.
  - unfold window_logged in *. simpl.
    by rewrite other_events_compaction
      by (constructor; [unfold compaction_of; by rewrite He | constructor]).
Qed.

Lemma coherent_compact log e si k tail retained reason n1 n2 n3 x :
  msg_id <$> ses_transcript x !! si = Some k -> Forall (fun i => i < si)%nat retained ->
  Forall2 (fun i id => msg_id <$> ses_transcript x !! i = Some id) retained tail ->
  env_event e = Ev_CompactionCompleted reason n1 n2 n3 (Some k) tail ->
  coherent log x -> coherent (log ++ [e]) (with_window x si retained).
Proof.
  intros Hsi Hb H2 He [C1 C2 C3 C4 _].
  assert (Hids : appended_ids (log ++ [e]) = appended_ids log).
  { rewrite appended_ids_app. unfold appended_ids at 2. simpl. unfold appended_id.
    by rewrite He, app_nil_r. }
  constructor; simpl; rewrite ?Hids; try done.
  - rewrite transcript_of_log_app. simpl. unfold apply_log_event at 1. by rewrite He.
  - unfold window_logged. simpl. exists k, tail. rewrite rev_app_distr. simpl.
    unfold compaction_of at 1. rewrite He. split; [done|]. split; [done|]. split; [lia | done].
Qed.

Lemma coherent_removals ids acts stored log x :
  removal_acts ids acts stored -> all_stored acts ->
  Forall (fun id => id ∈ (msg_id <$> ses_transcript x)) ids ->
  coherent log x ->
  coherent (log ++ stored_events acts)
    (with_removed x (ses_removed_message_ids x ∪ list_to_set ids)).
Proof.
  intros Hra. revert log x. induction Hra as [|id ids e acts ok He Hra IH|id e He]; intros log x Hst Hin Hc.
  - rewrite app_nil_r. eapply coherent_view_same; [|exact Hc]. repeat split; simpl.
    by rewrite union_empty_r_L.
  - apply Forall_cons in Hst as [_ Hst]. apply Forall_cons in Hin as [Hid Hin].
    change (stored_events (Act_Append e true :: acts)) with ([e] ++ stored_events acts).
    rewrite app_assoc. eapply coherent_view_same; [|apply IH; [done | |by apply coherent_remove]].
    + repeat split; simpl. set_solver.
    + exact Hin.
  - apply Forall_cons in Hst as [Hst _]. done.
Qed.

Lemma same_view_forget stored x : same_view x (forget_provider stored x).
Proof. by destruct stored. Qed.

#[global] Instance same_view_preorder : PreOrder same_view.
Proof. split; [by repeat split|]. unfold same_view. intros x y z ? ?. intuition congruence. Qed.

Lemma log_agrees_step before s s' : rt_step s s' -> log_agrees before s -> log_agrees before s'.
Proof.
  intros Hstep Hs Hst Hnd.
  destruct (rt_step_trace s s' Hstep) as [l Hl]. unfold log_of in *. rewrite Hl in *.
  apply Forall_app in Hst as [Hst Hstl]. rewrite stored_events_app, app_assoc in *.
  rewrite appended_ids_app in Hnd. apply NoDup_app in Hnd as Hnd'. destruct Hnd' as [Hnd0 _].
  rewrite <- appended_ids_app in Hnd. specialize (Hs Hst Hnd0). clear Hnd0 Hst.
  set (log := before ++ stored_events (rt_trace s)) in *.
  destruct Hstep as [Hq|n Hh Htr|a Ha Hh Htr|r Hf Hh Htr|c Hh Htr|tool call ctx Ha Hc Hh Htr
    |m e st He Hh Htr|i m m' e st Hi Hid Hr He Hh Htr|ids acts st Hin Hra Hh Htr
    |si k tail ret r n1 n2 n3 e st Hlen Hk Hret H2 He Hh Htr].
  - destruct Hq as [Hh (l' & Hl' & Hp)]. rewrite Hl in Hl'. apply app_inv_head in Hl' as ->.
    apply (coherent_plain _ _ (rt_session s)); [by apply history_eq_view | by apply stored_plain | done].
  - rewrite Hl in Htr. assert (l = []) as -> by (apply (app_inv_head (rt_trace s)); by rewrite app_nil_r).
    rewrite app_nil_r. eapply coherent_view_same; [|exact Hs].
    apply history_eq_view in Hh. by etrans; [|exact Hh].
  - rewrite Hl in Htr. apply app_inv_head in Htr as ->.
    apply (coherent_plain _ _ (rt_session s)); [by apply history_eq_view | by destruct a; simpl | done].
  - rewrite Hl in Htr. apply app_inv_head in Htr as ->.
    apply (coherent_plain _ _ (rt_session s)); [by apply history_eq_view | constructor | done].
  - rewrite Hl in Htr. apply app_inv_head in Htr as ->.
    apply (coherent_plain _ _ (rt_session s)); [|constructor | done].
    apply history_eq_view in Hh. by etrans; [|exact Hh].
  - rewrite Hl in Htr. apply app_inv_head in Htr as ->.
    apply (coherent_plain _ _ (rt_session s)); [by apply history_eq_view | constructor | done].
  - rewrite Hl in Htr. apply app_inv_head in Htr as ->. apply Forall_cons in Hstl as [Hst _].
    simpl in Hst. subst st. eapply coherent_view_same; [by apply history_eq_view|].
    by apply coherent_message.
  - rewrite Hl in Htr. apply app_inv_head in Htr as ->. apply Forall_cons in Hstl as [Hst _].
    simpl in Hst. subst st. eapply coherent_view_same; [by apply history_eq_view|].
    eapply coherent_view_same; [apply same_view_forget|]. by eapply coherent_patch.
  - rewrite Hl in Htr. apply app_inv_head in Htr as ->.
    eapply coherent_view_same; [by apply history_eq_view|].
    eapply coherent_view_same; [apply same_view_forget|]. by eapply coherent_removals.
  - rewrite Hl in Htr. apply app_inv_head in Htr as ->. apply Forall_cons in Hstl as [Hst _].
    simpl in Hst. subst st. eapply coherent_view_same; [by apply history_eq_view|].
    eapply coherent_view_same; [|by eapply (coherent_compact log e si k tail ret)]. by repeat split.
Qed.

(** ** Resuming *)

(** The checkpoint of the log can be honoured as it stands: its summary was not
    removed, and its retained tail starts at a request round of the replayed
    transcript (otherwise a resumed session shows more than the live one). *)
Definition checkpoint_intact (log : list SessionEventEnvelope) : Prop :=
  match find_map compaction_of (rev log) with
  | Some (Some k, tail) =>
      match message_index (replay_transcript log) !! k with
      | Some si =>
          let retained := retained_positions (replay_transcript log) tail si in
          upgrade_retained_tail_indices_for_request_rounds (replay_transcript log) retained si
          = retained
      | None => False
      end
  | _ => True
  end.

(** Positions in a filtered transcript. *)
Section Rank.
Variables (P : Message -> Prop) (t : list Message).
Context `{!forall m, Decision (P m)}.
Hypothesis ids : NoDup (msg_id <$> t).
Hypothesis P_id : forall m m', msg_id m = msg_id m' -> P m -> P m'.

Definition rank (i : nat) : nat := length (base.filter P (take i t)).

Lemma filter_split i m :
  t !! i = Some m -> P m ->
  base.filter P t = base.filter P (take i t) ++ m :: base.filter P (drop (S i) t).
Proof. intros Hi Hm. rewrite <- (take_drop_middle t i m Hi) at 1. by rewrite filter_app, filter_cons_True. Qed.

Lemma rank_lookup i m : t !! i = Some m -> P m -> base.filter P t !! rank i = Some m.
Proof. intros Hi Hm. rewrite (filter_split i m Hi Hm). by apply list_lookup_middle. Qed.

Lemma rank_drop i m :
  t !! i = Some m -> P m -> drop (S (rank i)) (base.filter P t) = base.filter P (drop (S i) t).
Proof.
  intros Hi Hm. rewrite (filter_split i m Hi Hm). unfold rank.
  rewrite drop_app_ge by lia. replace (S _ - _)%nat with 1%nat by lia. done.
Qed.

Lemma rank_lt i j m : t !! i = Some m -> P m -> (i < j)%nat -> (rank i < rank j)%nat.
Proof.
  intros Hi Hm Hij. unfold rank.
  assert (Hj : take j t = take i t ++ m :: take (j - S i) (drop (S i) t)).
  { rewrite <- (take_drop_middle t i m Hi) at 1. apply lookup_lt_Some in Hi as Hlt.
    rewrite take_app_ge by (rewrite length_take; lia). rewrite length_take.
    replace (j - i `min` length t)%nat with (S (j - S i)) by lia. done. }
  rewrite Hj, filter_app, filter_cons_True, length_app by done. simpl. lia.
Qed.

Lemma filter_ids_NoDup : NoDup (msg_id <$> base.filter P t).
Proof.
  clear P_id. induction t as [|m l IH]; [constructor|]. apply NoDup_cons in ids as [Hn Hnd].
  destruct (decide (P m)).
  - rewrite filter_cons_True by done. apply NoDup_cons. split; [|by apply IH].
    intros (x & Hx & [_ Hin]%list_elem_of_filter)%list_elem_of_fmap. apply Hn. rewrite Hx.
    by apply list_elem_of_fmap_2.
  - rewrite filter_cons_False by done. by apply IH.
Qed.

Lemma index_live i m :
  t !! i = Some m -> P m -> message_index (base.filter P t) !! msg_id m = Some (rank i).
Proof.
  intros Hi Hm. apply message_index_complete; [apply filter_ids_NoDup | by apply rank_lookup].
Qed.

Lemma index_dead m : ~ P m -> message_index (base.filter P t) !! msg_id m = None.
Proof.
  intros Hm. destruct (message_index _ !! msg_id m) as [i|] eqn:E; [|done].
  apply message_index_sound in E as (x & Hx & Hid). apply list_elem_of_lookup_2 in Hx.
  apply list_elem_of_filter in Hx as [Hx _]. destruct Hm. by eapply P_id.
Qed.

Lemma messages_at_filtered l si tail :
  Forall (fun i => i < si)%nat l ->
  Forall2 (fun i id => msg_id <$> t !! i = Some id) l tail ->
  messages_at (base.filter P t) (retained_positions (base.filter P t) tail (rank si))
  = base.filter P (messages_at t l).
Proof.
  intros Hb H2. unfold retained_positions. induction H2 as [|i id l tail Hi _ IH]; [done|].
  apply Forall_cons in Hb as [Hlt Hb]. specialize (IH Hb).
  apply fmap_Some in Hi as (m & Hm & ->).
  change (i :: l) with ([i] ++ l). rewrite messages_at_app.
  unfold messages_at at 2. simpl. rewrite Hm. simpl.
  destruct (decide (P m)) as [Hp|Hp].
  - rewrite (index_live i m Hm Hp), filter_cons_True by (by eapply rank_lt).
    rewrite filter_cons_True by done. rewrite <- IH. unfold messages_at. simpl.
    by rewrite (rank_lookup i m Hm Hp).
  - rewrite (index_dead m Hp), filter_cons_False by done. exact IH.
Qed.

End Rank.

Lemma live_messages_at x l :
  messages_at (ses_transcript x) (List.filter (fun index =>
      from_option (fun message => negb (bool_decide (msg_id message ∈ ses_removed_message_ids x)))
        false (ses_transcript x !! index)) l)
  = base.filter (live x) (messages_at (ses_transcript x) l).
Proof.
  unfold messages_at. induction l as [|i l IH]; [done|]. simpl.
  destruct (ses_transcript x !! i) as [m|] eqn:E; simpl; [|exact IH].
  case_bool_decide as Hr; simpl.
  - rewrite filter_cons_False by (unfold live; tauto). exact IH.
  - rewrite E, filter_cons_True by done. by f_equal.
Qed.

Lemma live_id x m m' : msg_id m = msg_id m' -> live x m -> live x m'.
Proof. unfold live. by intros ->. Qed.

Lemma coherent_resumes log x e a :
  coherent log x -> NoDup (appended_ids log) -> checkpoint_intact log ->
  last log = Some e -> env_agent_session_id e = a ->
  exists resumed, reconstruct_runtime_session log a = Ok resumed
    /\ session_visible_transcript resumed = session_visible_transcript x.
Proof.
  intros [C1 _ _ C4 C5] Hnd Hi Hlast Ha.
  apply last_Some in Hlast as [events Hev].
  assert (Hrec : reconstruct_runtime_session log a = reconstruct_slice log a).
  { rewrite Hev. by apply reconstruct_last. }
  destruct (replay_refines log Hnd) as (_ & Ht & _). rewrite <- Ht in C1.
  assert (Hvis : visible_agent_session_transcript log = session_visible_transcript x
                 /\ exists resumed, reconstruct_slice log a = Ok resumed).
  { unfold checkpoint_intact, window_logged in *.
    unfold session_visible_transcript, visible_message_indices. rewrite live_messages_at.
    unfold reconstruct_slice, Session.latest_compaction_checkpoint.
    destruct (ses_compaction_summary_index x) as [si|].
    - destruct C5 as (k & tail & Hf & Hk & Hp & Hb & H2). rewrite Hf in *.
      apply fmap_Some in Hk as (m & Hm & ->).
      destruct (message_index (replay_transcript log) !! msg_id m) as [si'|] eqn:Es; [|done].
      assert (Hlive : live x m).
      { apply message_index_sound in Es as (m2 & Hm2 & Hid). rewrite C1 in Hm2.
        apply list_elem_of_lookup_2, list_elem_of_filter in Hm2 as [Hl _]. by eapply live_id. }
      split; [|cbn [result_bind checkpoint_summary_message_id]; rewrite Es; by eexists].
      rewrite (visible_checkpoint log (msg_id m) tail si');
        [|unfold Replay.latest_compaction_checkpoint; by rewrite Hf | exact Es].
      rewrite Hi, C1. rewrite C1, (index_live (live x) _ C4 si m Hm Hlive) in Es.
      injection Es as <-.
      rewrite (rank_drop (live x) _ si m Hm Hlive).
      rewrite Hp, (list_filter_all _ _ Hb).
      change (si :: ses_retained_tail_indices x ++ ?l) with ([si] ++ ses_retained_tail_indices x ++ l).
      rewrite !messages_at_app, messages_at_after, !filter_app.
      rewrite <- (messages_at_filtered (live x) _ C4 (live_id x) _ si tail Hb H2).
      change (rank (live x) (ses_transcript x) si :: ?l) with
        ([rank (live x) (ses_transcript x) si] ++ l).
      rewrite messages_at_app, <- app_assoc. f_equal.
      unfold messages_at. simpl. by rewrite Hm, (rank_lookup (live x) _ si m Hm Hlive); simpl;
        rewrite filter_cons_True.
    - destruct C5 as (Hf & _ & _). rewrite Hf. split; [|by eexists].
      unfold visible_agent_session_transcript, Replay.latest_compaction_checkpoint. rewrite Hf, C1.
      rewrite <- (Nat.sub_0_r (length _)), messages_at_after. by rewrite drop_0. }
  destruct Hvis as [Hvis [resumed Hr]]. exists resumed. split; [by rewrite Hrec|].
  rewrite <- Hvis. by eapply reconstruct_slice_visible.
Qed.

(** C2.  What is persisted is what is live: whatever the host's calls do, and however
    they fail, as long as the store accepts every event and message ids are not
    reused, replaying the log gives the live transcript without the removed
    messages. *)
Theorem replayed_log_is_live_transcript before observer calls s :
  coherent (log_of before s) (rt_session s) ->
  let s' := run_calls observer s calls in
  all_stored (rt_trace s') -> NoDup (appended_ids (log_of before s')) ->
  replay_transcript (log_of before s') = base.filter (live (rt_session s')) (ses_transcript (rt_session s')).
Proof.
  intros Hc s' Hst Hnd. destruct (replay_refines _ Hnd) as (_ & -> & _).
  assert (Ha : log_agrees before s') by (apply run_calls_inv; [apply log_agrees_step | by intros _ _]).
  apply (coh_replay _ _ (Ha Hst Hnd)).
Qed.


End LogProps.

(** ** Concrete runs *)

Section Witnesses.

Definition three_turns : list HostCall :=
  [Call_Control 4 (demo_prompt "u1" "one"); Call_Control 4 (demo_prompt "u2" "two");
   Call_Control 4 (demo_prompt "u3" "three"); Call_Compact None].

Definition talk_state : RState := demo_runtime [] 1.

Definition compacted_again : list HostCall :=
  three_turns ++ [Call_Control 4 (demo_prompt "u4" "four"); Call_Compact None].
Definition again_run : RState := run_calls NoopRuntimeObserver talk_state compacted_again.

Definition noted_run : RState :=
  run_calls NoopRuntimeObserver (demo_runtime [pre_compact_hook] 1) three_turns.

Lemma talk_state_coherent : coherent (log_of [] talk_state) (rt_session talk_state).
Proof. split; [reflexivity | done | done | constructor | by split]. Qed.

Lemma talk_stored : all_stored (rt_trace (run_calls NoopRuntimeObserver talk_state three_turns)).
Proof. apply (bool_decide_unpack _). vm_compute. exact I. Qed.

Lemma talk_ids :
  NoDup (appended_ids (log_of [] (run_calls NoopRuntimeObserver talk_state three_turns))).
Proof. apply (bool_decide_unpack _). vm_compute. exact I. Qed.

Lemma talk_intact : checkpoint_intact (log_of [] (run_calls NoopRuntimeObserver talk_state three_turns)).
Proof. vm_compute. reflexivity. Qed.

Lemma talk_last :
  exists e, last (log_of [] (run_calls NoopRuntimeObserver talk_state three_turns)) = Some e.
Proof.
  destruct (last (log_of [] (run_calls NoopRuntimeObserver talk_state three_turns)))
    as [e|] eqn:E; [by exists e|].
  apply (f_equal (fun o => bool_decide (is_Some o))) in E. vm_compute in E. discriminate E.
Qed.

Lemma replayed_log_is_live_transcript_witness :
  replay_transcript (log_of [] (run_calls NoopRuntimeObserver talk_state three_turns))
  = base.filter (live (rt_session (run_calls NoopRuntimeObserver talk_state three_turns)))
      (ses_transcript (rt_session (run_calls NoopRuntimeObserver talk_state three_turns))).
Proof.
  exact (replayed_log_is_live_transcript [] NoopRuntimeObserver three_turns talk_state
           talk_state_coherent talk_stored talk_ids).
Defined.


(** A second compaction does not survive a resume: the live session shows the
    new summary and the retained turn, but the resumed one shows the old summary
    too, because the retained tail is extended back over it. *)
Theorem second_compaction_resumes_stale_summary :
  msg_id <$> session_visible_transcript (rt_session again_run) = ["id-61"; "u4"; "a4"]
  /\ exists resumed,
       reconstruct_runtime_session (log_of [] again_run)
         (ses_agent_session_id (rt_session again_run)) = Ok resumed
       /\ msg_id <$> session_visible_transcript resumed = ["id-61"; "id-41"; "u4"; "a4"].
Proof.
  split; [vm_compute; reflexivity|].
  destruct (reconstruct_runtime_session (log_of [] again_run)
              (ses_agent_session_id (rt_session again_run))) as [resumed|e] eqn:E.
  - exists resumed. split; [done|].
    apply (f_equal (fun r => match r with
      Ok x => msg_id <$> session_visible_transcript x | Err _ => [] end)) in E.
    rewrite <- E. vm_compute. reflexivity.
  - apply (f_equal is_ok) in E. vm_compute in E. discriminate E.
Qed.

(** A message a hook appends before a compaction is lost from view: it is
    neither summarised, nor retained, nor after the summary. *)
Theorem pre_compact_message_is_hidden :
  msg_id <$> ses_transcript (rt_session noted_run)
  = ["u1"; "a1"; "u2"; "a2"; "u3"; "a3"; "id-42"; "id-45"]
  /\ msg_id <$> session_visible_transcript (rt_session noted_run) = ["id-45"; "u3"; "a3"]
  /\ ses_removed_message_ids (rt_session noted_run) = ∅.
Proof. split; [|split]; vm_compute; reflexivity. Qed.

End Witnesses.
