(* ===== verification/ProviderProps.v ===== *)
(** * What the model provider sees

    With provider-managed history the runtime sends only what was appended after
    the response the continuation names.  The ghost action [Act_Known] records the
    visible transcript a continuation stands for; the invariant is that it,
    followed by what the runtime sends, is the visible transcript. *)

From Stdlib Require Import String.
From stdpp Require Import base list gmap strings.
From Stdlib Require Import Lia.
From S2P Require Import Prelude Message Events LoopDetection ControlPlane Errors Replay Session.
From S2P Require Import History HookEffects SandboxPolicy Tools Approval RuntimeState HookFlow.
From S2P Require Import ToolFlow TurnLoop DemoHost RuntimeSteps TurnSteps RuntimeProps LogProps.

Section ProviderProps.
Context {J : SerdeJson} {B : JsonBuild J} {H : Host}.

(** ** The window *)

Definition window_in_range (x : RuntimeSession) : Prop :=
  match ses_compaction_summary_index x with
  | Some si => (si < length (ses_transcript x))%nat /\ ses_post_summary_start x = S si
  | None => True
  end.

Lemma messages_at_prefix t k l :
  Forall (fun i => i < length t)%nat l -> messages_at (t ++ k) l = messages_at t l.
Proof.
  unfold messages_at. induction 1 as [|i l Hi _ IH]; [done|]. simpl.
  rewrite lookup_app_l by done. destruct (t !! i); [by f_equal | done].
Qed.

(** The indices of the window before the removed messages are left out. *)
Definition window_indices (x : RuntimeSession) : list nat :=
  match ses_compaction_summary_index x with
  | Some si => si :: base.filter (fun i => i < si)%nat (ses_retained_tail_indices x)
      ++ seq (ses_post_summary_start x) (length (ses_transcript x) - ses_post_summary_start x)
  | None => seq 0 (length (ses_transcript x))
  end.

Lemma visible_is_live_window x :
  session_visible_transcript x
  = base.filter (live x) (messages_at (ses_transcript x) (window_indices x)).
Proof. apply live_messages_at. Qed.

Lemma window_head x :
  window_in_range x ->
  exists head start, (start <= length (ses_transcript x))%nat
    /\ Forall (fun i => i < length (ses_transcript x))%nat head
    /\ (forall t, length (ses_transcript x) <= length t ->
         messages_at t (window_indices (with_transcript x t)) = messages_at t head ++ drop start t)%nat.
Proof.
  unfold window_in_range, window_indices. simpl. destruct (ses_compaction_summary_index x) as [si|].
  - intros [Hlt Hp]. exists (si :: base.filter (fun i => i < si)%nat (ses_retained_tail_indices x)), (S si).
    split; [lia|]. split.
    + constructor; [done|]. apply Forall_forall. intros i [Hi _]%list_elem_of_filter. lia.
    + intros t _. rewrite Hp, <- messages_at_after, <- messages_at_app. done.
  - intros _. exists [], 0%nat. split; [lia|]. split; [constructor|].
    intros t _. rewrite <- (Nat.sub_0_r (length t)), messages_at_after. done.
Qed.

Lemma with_transcript_same x : with_transcript x (ses_transcript x) = x.
Proof. by destruct x. Qed.

(** Appending a message appends it to what is visible and to the delta. *)
Lemma visible_snoc x m :
  window_in_range x ->
  session_visible_transcript (with_transcript x (ses_transcript x ++ [m]))
  = session_visible_transcript x ++ base.filter (live x) [m].
Proof.
  intros Hw. destruct (window_head x Hw) as (head & start & Hs & Hh & Heq).
  rewrite !visible_is_live_window. cbn [with_transcript ses_transcript].
  rewrite (Heq (ses_transcript x ++ [m])) by (rewrite length_app; lia).
  assert (Hx := Heq (ses_transcript x) (le_n _)). rewrite with_transcript_same in Hx.
  rewrite Hx, (messages_at_prefix _ _ _ Hh), drop_app_le by done.
  rewrite app_assoc. apply (filter_app (live x)).
Qed.

Lemma delta_snoc x m :
  (ses_provider_transcript_cursor x <= length (ses_transcript x))%nat ->
  transcript_delta (with_transcript x (ses_transcript x ++ [m]))
  = transcript_delta x ++ base.filter (live x) [m].
Proof.
  intros Hc. unfold transcript_delta. simpl. rewrite length_app. simpl.
  rewrite !Nat.min_l by lia. rewrite drop_app_le by done. apply (filter_app (live x)).
Qed.

Lemma delta_all x :
  ses_provider_transcript_cursor x = length (ses_transcript x) -> transcript_delta x = [].
Proof. intros Hc. unfold transcript_delta. by rewrite Hc, Nat.min_id, drop_all. Qed.

(** ** The invariant *)

Definition known_of (a : Action) : option (ProviderContinuation * list Message) :=
  match a with Act_Known c visible => Some (c, visible) | _ => None end.

(** The transcript the latest continuation stands for. *)
Definition last_known (t : list Action) : option (ProviderContinuation * list Message) :=
  find_map known_of (rev t).

Lemma last_known_app t l :
  Forall (fun a => known_of a = None) l -> last_known (t ++ l) = last_known t.
Proof.
  intros Hl. unfold last_known. rewrite rev_app_distr, find_map_app.
  assert (find_map known_of (rev l) = None) as ->; [|done].
  apply Forall_rev in Hl. induction Hl as [|a k Ha _ IH]; [done|]. simpl. by rewrite Ha.
Qed.

Definition provider_view (t : list Action) (x : RuntimeSession) : Prop :=
  match ses_provider_continuation x with
  | None => True
  | Some c =>
      (ses_provider_transcript_cursor x <= length (ses_transcript x))%nat
      /\ exists known, last_known t = Some (c, known)
          /\ session_visible_transcript x = known ++ transcript_delta x
  end.

(** Every request sent so far carried the rest of the visible transcript. *)
Definition requests_complete (t : list Action) : Prop :=
  forall pre request visible post,
    t = pre ++ Act_Stream request visible :: post -> all_stored pre ->
    match request_continuation request with
    | None => request_messages request = visible
    | Some c => exists known, last_known pre = Some (c, known)
                  /\ visible = known ++ request_messages request
    end.

Record provider_ok (s : RState) : Prop := {
  prov_window : window_in_range (rt_session s);
  prov_view : all_stored (rt_trace s) -> provider_view (rt_trace s) (rt_session s);
  prov_requests : requests_complete (rt_trace s)
}.

Definition is_stream (a : Action) : bool :=
  match a with Act_Stream _ _ => true | _ => false end.

Lemma requests_complete_app t l :
  requests_complete t -> Forall (fun a => is_stream a = false) l -> requests_complete (t ++ l).
Proof.
  intros Ht Hl pre request visible post Heq.
  destruct (app_split_old t l pre post _ Heq) as [post' ->].
  - intros Hin. rewrite Forall_forall in Hl. by specialize (Hl _ Hin).
  - by eapply Ht.
Qed.

Lemma window_in_range_eq x y :
  ses_transcript y = ses_transcript x ->
  ses_compaction_summary_index y = ses_compaction_summary_index x ->
  ses_post_summary_start y = ses_post_summary_start x -> window_in_range x -> window_in_range y.
Proof. intros Ht Hs Hp. unfold window_in_range. by rewrite Ht, Hs, Hp. Qed.

Lemma window_in_range_history x y : history_eq x y -> window_in_range x -> window_in_range y.
Proof. intros (_ & Ht & _ & _ & Hs & _ & Hp & _). by apply window_in_range_eq. Qed.

Lemma provider_view_history t l x y :
  history_eq x y -> Forall (fun a => known_of a = None) l ->
  provider_view t x -> provider_view (t ++ l) y.
Proof.
  intros Hh Hl. unfold provider_view.
  rewrite (history_eq_visible x y Hh), (history_eq_delta x y Hh), last_known_app by done.
  by destruct Hh as (_ & -> & -> & -> & _).
Qed.

Lemma provider_view_none t x : ses_provider_continuation x = None -> provider_view t x.
Proof. intros Hc. unfold provider_view. by rewrite Hc. Qed.

Lemma plain_not_known l :
  Forall (fun a => plain_action a = true) l -> Forall (fun a => known_of a = None) l.
Proof. intros Hl. eapply Forall_impl; [exact Hl|]. by intros []. Qed.

Lemma plain_not_stream l :
  Forall (fun a => plain_action a = true) l -> Forall (fun a => is_stream a = false) l.
Proof. intros Hl. eapply Forall_impl; [exact Hl|]. by intros []. Qed.

Lemma removal_not_stream ids acts stored :
  removal_acts ids acts stored -> Forall (fun a => is_stream a = false) acts.
Proof. induction 1; by repeat constructor. Qed.

Lemma removal_all_stored ids acts stored :
  removal_acts ids acts stored -> all_stored acts -> stored = true.
Proof. induction 1; intros Hs; [done | |]; apply Forall_cons in Hs as [? ?]; auto. Qed.

Lemma provider_ok_quiet s s' : quiet s s' -> provider_ok s -> provider_ok s'.
Proof.
  intros [Hh (l & Hl & Hp)] [W V R]. constructor; rewrite ?Hl.
  - by eapply window_in_range_history.
  - intros [Hst _]%Forall_app. eapply provider_view_history; [done | by apply plain_not_known | auto].
  - apply requests_complete_app; [done | by apply plain_not_stream].
Qed.

Lemma provider_ok_action s s' a :
  history_eq (rt_session s) (rt_session s') -> rt_trace s' = rt_trace s ++ [a] ->
  known_of a = None -> is_stream a = false -> provider_ok s -> provider_ok s'.
Proof.
  intros Hh Ht Hk Hs [W V R]. constructor; rewrite ?Ht.
  - by eapply window_in_range_history.
  - intros [Hst _]%Forall_app. eapply provider_view_history; [done | by repeat constructor | auto].
  - apply requests_complete_app; [done | by repeat constructor].
Qed.

Lemma provider_ok_stream s s' request :
  request_fits (rt_session s) request -> history_eq (rt_session s) (rt_session s') ->
  rt_trace s' = rt_trace s ++ [Act_Stream request (session_visible_transcript (rt_session s))] ->
  provider_ok s -> provider_ok s'.
Proof.
  intros Hf Hh Ht [W V R]. constructor; rewrite ?Ht.
  - by eapply window_in_range_history.
  - intros [Hst _]%Forall_app. eapply provider_view_history; [done | by repeat constructor | auto].
  - intros pre r v post Heq Hst. destruct post as [|b post _] using rev_ind.
    + apply app_inj_tail in Heq as [<- [= <- <-]]. specialize (V Hst).
      unfold request_fits in Hf. destruct (request_continuation request) as [c|]; [|done].
      destruct Hf as [Hc ->]. unfold provider_view in V. rewrite Hc in V.
      by destruct V as (_ & V).
    + rewrite app_comm_cons, app_assoc in Heq. apply app_inj_tail in Heq as [Heq _]. by eapply R.
Qed.

Lemma provider_ok_known s s' c :
  history_eq (with_provider (rt_session s) (Some c) (length (ses_transcript (rt_session s))))
    (rt_session s') ->
  rt_trace s' = rt_trace s ++ [Act_Known c (session_visible_transcript (rt_session s))] ->
  provider_ok s -> provider_ok s'.
Proof.
  intros Hh Ht [W V R]. constructor; rewrite ?Ht.
  - by eapply window_in_range_history.
  - intros _. unfold provider_view.
    rewrite (history_eq_visible _ _ Hh), (history_eq_delta _ _ Hh).
    destruct Hh as (_ & -> & -> & -> & _). simpl. split; [done|].
    exists (session_visible_transcript (rt_session s)). split.
    + unfold last_known. by rewrite rev_app_distr.
    + rewrite delta_all by done. by rewrite app_nil_r.
  - apply requests_complete_app; [done | by repeat constructor].
Qed.

Lemma provider_ok_message s s' m e stored :
  history_eq (with_transcript (rt_session s) (ses_transcript (rt_session s) ++ [m])) (rt_session s') ->
  rt_trace s' = rt_trace s ++ [Act_Append e stored] -> provider_ok s -> provider_ok s'.
Proof.
  intros Hh Ht [W V R]. constructor; rewrite ?Ht.
  - eapply window_in_range_history; [exact Hh|]. unfold window_in_range in *. simpl.
    destruct (ses_compaction_summary_index (rt_session s)); [|done]. rewrite length_app. simpl. lia.
  - intros [Hst _]%Forall_app. eapply provider_view_history; [exact Hh | by repeat constructor|].
    specialize (V Hst). unfold provider_view in *. simpl.
    destruct (ses_provider_continuation (rt_session s)) as [c|]; [|done].
    destruct V as (Hc & known & Hk & Hv). split; [rewrite length_app; lia|]. exists known.
    split; [done|]. by rewrite visible_snoc, delta_snoc, Hv, app_assoc by done.
  - apply requests_complete_app; [done | by repeat constructor].
Qed.

(** A step after which no continuation is left when everything was stored. *)
Lemma provider_ok_forgotten s s' acts :
  (window_in_range (rt_session s) -> window_in_range (rt_session s')) ->
  (all_stored acts -> ses_provider_continuation (rt_session s') = None) ->
  rt_trace s' = rt_trace s ++ acts -> Forall (fun a => is_stream a = false) acts ->
  provider_ok s -> provider_ok s'.
Proof.
  intros Hw Hc Ht Hn [W V R]. constructor; rewrite ?Ht.
  - auto.
  - intros [_ Hst]%Forall_app. apply provider_view_none. auto.
  - by apply requests_complete_app.
Qed.

Lemma provider_ok_step s s' : rt_step s s' -> provider_ok s -> provider_ok s'.
Proof.
  destruct 1 as [Hq|n Hh Htr|a Ha Hh Htr|r Hf Hh Htr|c Hh Htr|tool call ctx Ha Hc Hh Htr
    |m e st He Hh Htr|i m m' e st Hi Hid Hr He Hh Htr|ids acts st Hin Hra Hh Htr
    |si k tail ret r n1 n2 n3 e st Hlen Hk Hret H2 He Hh Htr].
  - by apply provider_ok_quiet.
  - apply (provider_ok_forgotten _ _ []); [| |by rewrite app_nil_r | constructor].
    + by apply (window_in_range_history (with_provider (rt_session s) None n)).
    + by destruct Hh as (_ & _ & -> & _).
  - by apply (provider_ok_action _ _ a); destruct a.
  - by apply (provider_ok_stream _ _ r).
  - by apply (provider_ok_known _ _ c).
  - by apply (provider_ok_action _ _ (Act_Execute tool call ctx (rt_shared s) (fs_view (rt_world s)))).
  - by apply (provider_ok_message _ _ m e st).
  - apply (provider_ok_forgotten _ _ [Act_Append e st]); [| |done | by repeat constructor].
    + intros Hw. eapply window_in_range_history; [exact Hh|].
      unfold window_in_range in *. destruct st; simpl; by rewrite length_insert.
    + intros [Hst _]%Forall_cons. simpl in Hst. subst st. by destruct Hh as (_ & _ & -> & _).
  - apply (provider_ok_forgotten _ _ acts); [| |done | by eapply removal_not_stream].
    + intros Hw. eapply window_in_range_history; [exact Hh|]. by destruct st.
    + intros Hst. rewrite (removal_all_stored _ _ _ Hra Hst) in Hh.
      by destruct Hh as (_ & _ & -> & _).
  - apply (provider_ok_forgotten _ _ [Act_Append e st]); [| |done | by repeat constructor].
    + intros _. eapply window_in_range_history; [exact Hh|]. unfold window_in_range. simpl. lia.
    + by destruct Hh as (_ & _ & -> & _).
Qed.

(** ** Retries *)

(** The requests sent in a trace. *)
Definition attempts (t : list Action) : nat := length (List.filter is_stream t).

(** A computation that sends at most [n] requests. *)
Definition sends {A} (n : nat) (m : M A) : Prop :=
  forall s, (attempts (rt_trace (m s).2) <= attempts (rt_trace s) + n)%nat.

Lemma attempts_app t l : attempts (t ++ l) = (attempts t + attempts l)%nat.
Proof. unfold attempts. by rewrite List.filter_app, length_app. Qed.

Lemma attempts_none l : Forall (fun a => is_stream a = false) l -> attempts l = 0%nat.
Proof. induction 1 as [|a l Ha _ IH]; [done|]. unfold attempts in *. simpl. by rewrite Ha. Qed.

Lemma quietly_sends {A} (m : M A) : quietly m -> sends 0 m.
Proof.
  intros Hm s. destruct (Hm s) as [_ (l & -> & Hl)].
  rewrite attempts_app, (attempts_none l) by (by apply plain_not_stream). lia.
Qed.

Lemma sends_bind {A C} n k (m : M A) (f : A -> M C) :
  sends n m -> (forall a, sends k (f a)) -> sends (n + k) (m ≫= f).
Proof.
  intros Hm Hf s. specialize (Hm s). unfold mbind, M_bind.
  destruct (m s) as [[a|e|] s']; simpl in *; [|lia..]. specialize (Hf a s'). lia.
Qed.

Lemma sends_quiet_bind {A C} n (m : M A) (f : A -> M C) :
  quietly m -> (forall a, sends n (f a)) -> sends n (m ≫= f).
Proof. intros Hm. by apply (sends_bind 0), quietly_sends. Qed.

Lemma sends_reset : sends 0 reset_provider_continuation.
Proof. intros s. simpl. lia. Qed.

Lemma sends_stream r : sends 1 (stream_turn r).
Proof.
  intros s. unfold stream_turn, session. rewrite run_gets. unfold record_action. rewrite run_modify.
  pose proof (quietly_sends _ (quietly_ext (backend_stream_turn r))
    (add_action s (Act_Stream r (session_visible_transcript (rt_session s))))) as Hq.
  cbn [rt_trace add_action] in Hq. rewrite attempts_app in Hq. unfold attempts in Hq at 3. simpl in Hq.
  lia.
Qed.

Lemma sends_ret {A} n (a : A) : sends n (mret a).
Proof. intros s. simpl. lia. Qed.

Lemma sends_raise {A} n e : sends n (raise e : M A).
Proof. intros s. simpl. lia. Qed.

Lemma sends_open_stream fuel t i n o r k stats : sends fuel (open_stream fuel t i n o r k stats).
Proof.
  revert r k stats. induction fuel as [|fuel IH]; intros r k stats; [intros s; simpl; lia|].
  cbn [open_stream]. apply (sends_bind 1 fuel); [apply sends_stream|].
  intros [stream|error]; [apply sends_ret|]. destruct (bool_decide _ && _).
  - apply (sends_bind 0 fuel); [apply sends_reset|]. intros _.
    do 3 (apply sends_quiet_bind; [quiet_auto|]; intros ?).
    apply sends_quiet_bind; [apply quietly_publish|]. intros _. apply IH.
  - destruct (model_backend_retry_hint error) as [hint|]; [|apply sends_raise].
    destruct (_ =? _)%nat; [apply sends_raise|].
    do 4 (apply sends_quiet_bind; [quiet_auto|]; intros ?). apply IH.
Qed.

Lemma ends_publish t i o r : ends (publish_model_request_started t i o r).
Proof.
  unfold publish_model_request_started.
  repeat (apply ends_bind; [first [apply ends_append_event | apply ends_gets | apply ends_on_event | done]|];
    intros ?). apply ends_on_event.
Qed.

(** What is left to try: [MAX_PROVIDER_REQUEST_RETRIES + 1] attempts, and as many
    again while a continuation can be lost. *)
Definition budget (r : ModelRequest) (retry_count : nat) : nat :=
  (if bool_decide (is_Some (request_continuation r)) then 6 else 0) + (6 - retry_count).

Lemma rebuilt_budget t i stats s :
  budget (inject_into_request (build_model_request t i true s) stats) 0 = 6%nat.
Proof. done. Qed.

Lemma ends_gets_bind {A C} (g : RState -> A) (f : A -> M C) :
  (forall s, ends (f (g s))) -> ends (gets g ≫= f).
Proof. intros Hf s. apply (Hf s s). Qed.

Lemma ends_open_stream fuel t i n o r k stats :
  (k <= 5)%nat -> (budget r k <= fuel)%nat -> ends (open_stream fuel t i n o r k stats).
Proof.
  revert r k stats. induction fuel as [|fuel IH]; intros r k stats Hk Hb.
  { unfold budget in Hb. destruct (bool_decide _); lia. }
  cbn [open_stream]. apply ends_bind.
  { unfold stream_turn. repeat (apply ends_bind; [done|]; intros ?). apply ends_ext. }
  intros [stream|error]; [apply ends_ret|]. destruct (bool_decide _ && _) eqn:El.
  - apply andb_true_iff in El as [El _].
    apply ends_bind; [done|]. intros _. apply ends_bind; [apply ends_append_event|]. intros _.
    apply ends_bind; [apply ends_on_event|]. intros _. apply ends_gets_bind. intros s.
    apply ends_bind; [apply ends_publish|]. intros _. apply IH; [lia|].
    rewrite rebuilt_budget. unfold budget in Hb. rewrite El in Hb. lia.
  - destruct (model_backend_retry_hint error) as [hint|]; [|apply ends_raise].
    destruct (Nat.eqb_spec k MAX_PROVIDER_REQUEST_RETRIES) as [->|Hne]; [apply ends_raise|].
    unfold MAX_PROVIDER_REQUEST_RETRIES in Hne.
    apply ends_bind; [done|]. intros ?. apply ends_bind; [apply ends_on_event|]. intros _.
    apply ends_bind; [apply ends_ext|]. intros _. apply ends_bind; [apply ends_on_event|]. intros _.
    apply IH; [lia|]. unfold budget in *. simpl. lia.
Qed.

Lemma ends_read_stream l r o : ends (read_stream l r o).
Proof.
  revert r. induction l as [|e l IH]; intros r; simpl; [apply ends_ret|].
  apply ends_bind; [apply ends_lift|].
  intros []; try apply ends_raise; (apply ends_bind; [first [apply ends_on_event | done]|]; intros ?; apply IH).
Qed.

(** C16.  Retrying ends: one model response costs at most twelve requests (six
    attempts, and six more once if the provider lost the continuation), and the
    fuel of the retry loop never runs out, whatever the backend answers. *)
Theorem model_response_bounded turn instructions iteration stats observer s :
  (collect_model_response turn instructions iteration stats observer s).1 <> OutOfFuel
  /\ (attempts (rt_trace (collect_model_response turn instructions iteration stats observer s).2)
      <= attempts (rt_trace s) + 12)%nat.
Proof.
  split.
  - unfold collect_model_response, clear_pending_request_effects.
    apply ends_bind; [done|]. intros built. apply ends_bind; [apply ends_publish|]. intros _.
    apply ends_bind.
    { apply ends_open_stream; [lia|]. unfold budget, open_stream_fuel, MAX_PROVIDER_REQUEST_RETRIES.
      destruct (bool_decide _); lia. }
    intros [stream stats']. apply ends_bind; [apply ends_read_stream|]. intros response.
    repeat (apply ends_bind; [first [apply ends_append_event | apply ends_on_event | done]|]; intros ?).
    apply ends_ret.
  - unfold collect_model_response, clear_pending_request_effects.
    apply sends_quiet_bind; [quiet_auto|]. intros built.
    apply sends_quiet_bind; [apply quietly_publish|]. intros _.
    change 12%nat with (open_stream_fuel + 0)%nat. apply sends_bind; [apply sends_open_stream|].
    intros [stream stats']. apply quietly_sends.
    apply quietly_bind; [apply quietly_read_stream|]. intros response.
    repeat first [apply quietly_response_usage | progress quiet_auto].
Qed.


End ProviderProps.

(** ** A concrete run *)

Section Witnesses.


End Witnesses.
