(* ===== verification/StoreSearch.v ===== *)
(** * Session search

    Models the first half of [crates/store/src/traits.rs]: the summary of a session's
    events, the strings by which a session is found, the ranked search in one session
    and the order of the results.  [str::to_lowercase], whose Unicode tables are part of
    the Rust library, is the parameter [UnicodeCase]. *)

From Stdlib Require Import Ascii String.
From stdpp Require Import base list gmap sets sorting strings pretty.
From Stdlib Require Import Lia.
From S2P Require Import Prelude Text BTree Message Events Errors Replay WriteLease AgentSessions.

Class UnicodeCase := { to_lowercase : string -> string }.

(** ** Display of the enums of the log *)

(* crates/types/src/event.rs, TaskStatus::fmt *)
Definition TaskStatus_display (s : TaskStatus) : string :=
  match s with
  | TaskStatus_Open => "open" | TaskStatus_Queued => "queued" | TaskStatus_Running => "running"
  | TaskStatus_WaitingApproval => "waiting_approval" | TaskStatus_WaitingMessage => "waiting_message"
  | TaskStatus_Completed => "completed" | TaskStatus_Failed => "failed"
  | TaskStatus_Cancelled => "cancelled"
  end.

(* crates/types/src/event.rs, MonitorStatus::fmt *)
Definition MonitorStatus_display (s : MonitorStatus) : string :=
  match s with
  | MonitorStatus_Running => "running" | MonitorStatus_Completed => "completed"
  | MonitorStatus_Failed => "failed" | MonitorStatus_Cancelled => "cancelled"
  end.

(* crates/types/src/event.rs, CronStatus::fmt *)
Definition CronStatus_display (s : CronStatus) : string :=
  match s with
  | CronStatus_Scheduled => "scheduled" | CronStatus_Completed => "completed"
  | CronStatus_Cancelled => "cancelled" | CronStatus_Failed => "failed"
  end.

(* crates/types/src/event.rs, BrowserStatus::fmt *)
Definition BrowserStatus_display (s : BrowserStatus) : string :=
  match s with
  | BrowserStatus_Open => "open" | BrowserStatus_Closed => "closed" | BrowserStatus_Failed => "failed"
  end.

(* crates/types/src/event.rs, MonitorStream::fmt *)
Definition MonitorStream_display (s : MonitorStream) : string :=
  match s with MonitorStream_Stdout => "stdout" | MonitorStream_Stderr => "stderr" end.

(* crates/types/src/event.rs, WorktreeScope::fmt *)
Definition WorktreeScope_display (s : WorktreeScope) : string :=
  match s with WorktreeScope_Session => "session" | WorktreeScope_ChildAgent => "child_agent" end.

(* crates/types/src/event.rs, WorktreeStatus::fmt *)
Definition WorktreeStatus_display (s : WorktreeStatus) : string :=
  match s with
  | WorktreeStatus_Active => "active" | WorktreeStatus_Inactive => "inactive"
  | WorktreeStatus_Removed => "removed"
  end.

(* crates/types/src/event.rs, CheckpointScope::fmt *)
Definition CheckpointScope_display (s : CheckpointScope) : string :=
  match s with
  | CheckpointScope_Code => "code" | CheckpointScope_Conversation => "conversation"
  | CheckpointScope_Both => "both"
  end.

(* crates/types/src/event.rs, CheckpointRestoreMode::fmt *)
Definition CheckpointRestoreMode_display (m : CheckpointRestoreMode) : string :=
  match m with
  | CheckpointRestoreMode_CodeOnly => "code_only"
  | CheckpointRestoreMode_ConversationOnly => "conversation_only"
  | CheckpointRestoreMode_Both => "both"
  end.

(* crates/types/src/event.rs, AgentInputDelivery::fmt *)
Definition AgentInputDelivery_display (d : AgentInputDelivery) : string :=
  match d with AgentInputDelivery_Queue => "queue" | AgentInputDelivery_Interrupt => "interrupt" end.

Definition phase_debug (p : TokenUsagePhase) : string :=
  match p with
  | Phase_RequestStarted => "RequestStarted"
  | Phase_ResponseCompleted => "ResponseCompleted"
  end.

Section Strings.
Context {J : SerdeJson}.

(* crates/types/src/event.rs, SubmittedPromptAttachment::search_strings *)
Definition attachment_search_strings (a : SubmittedPromptAttachment) : list string :=
  attachment_preview_text a ::
  match attachment_kind a with
  | Attachment_Paste text => [text]
  | Attachment_LocalImage requested_path _ | Attachment_LocalFile requested_path _ _ => [requested_path]
  | Attachment_RemoteImage requested_url _ | Attachment_RemoteFile requested_url _ _ => [requested_url]
  | Attachment_EmbeddedImage _ => []
  | Attachment_EmbeddedFile file_name mime_type uri =>
      option_list file_name ++ option_list mime_type ++ option_list uri
  end.

(* crates/types/src/event.rs, SubmittedPromptSnapshot::search_strings *)
Definition snapshot_search_strings (s : SubmittedPromptSnapshot) : list string :=
  (if str_is_empty (trim (prompt_text s)) then [] else [prompt_text s])
  ++ (prompt_attachments s ≫= attachment_search_strings).

(* crates/store/src/traits.rs, message_search_text *)
Definition message_search_text (message : Message) : string := text_content message.

(* crates/store/src/traits.rs, message_preview_text *)
Definition message_preview_text (message : Message) : string := message_operator_text message.

(* crates/store/src/traits.rs, render_cron_schedule_summary *)
Definition render_cron_schedule_summary (schedule : CronScheduleRecord) : string :=
  match schedule with
  | CronSchedule_Once run_at_unix_s => "once at " +:+ fmt_N run_at_unix_s
  | CronSchedule_Recurring interval_seconds next_run_unix_s max_runs =>
      "every " +:+ fmt_N interval_seconds +:+ "s next " +:+ fmt_N next_run_unix_s
        +:+ match max_runs with Some n => " max " +:+ fmt_N n | None => "" end
  end.

(* crates/store/src/traits.rs, preview_text *)
Definition preview_text (value : string) (max_chars : nat) : string :=
  let collapsed := str_join " " (split_whitespace value) in
  if (chars_count collapsed <=? max_chars)%nat then collapsed
  else take_chars (max_chars - 3) collapsed +:+ "...".

(** ** The strings of an event *)

(* crates/store/src/traits.rs, searchable_session_event_strings@for effect in &output.effects ~~ SessionEventKind::TranscriptMessage { .. } => {} *)
Definition effect_search_strings (effect : HookEffect) : list string :=
  match effect with
  | Effect_ShowToast variant message => [variant; message]
  | Effect_AppendPrompt text _ => [text]
  | Effect_Stop reason => [reason]
  | Effect_RewriteToolArgs tool_name arguments => [tool_name; value_to_string arguments]
  | Effect_SetGateDecision _ reason | Effect_SetPermissionDecision _ reason
  | Effect_SetPermissionBehavior _ reason => option_list reason
  | Effect_AppendMessage _ _ | Effect_ReplaceMessage _ _ | Effect_AddContext _
  | Effect_InjectInstruction _ | Effect_PatchMessage _ _ | Effect_RemoveMessage _
  | Effect_Elicitation _ _ => []
  end.

(* crates/store/src/traits.rs, searchable_session_event_strings@match &event.kind { ~~ SessionEventKind::MonitorUpdated { summary } *)
Definition monitor_search_strings (kind : MonitorEventKind) : list string :=
  match kind with
  | MonitorEventKind_Line stream text => [MonitorStream_display stream; text]
  | MonitorEventKind_StateChanged status => [MonitorStatus_display status]
  | MonitorEventKind_Completed exit_code => ["completed"; pretty exit_code]
  | MonitorEventKind_Failed exit_code error =>
      "failed" :: option_list (pretty <$> exit_code) ++ option_list error
  | MonitorEventKind_Cancelled reason => "cancelled" :: option_list reason
  end.

(* crates/store/src/traits.rs, searchable_session_event_strings@SessionEventKind::AgentEnvelope { envelope } ~~ SessionEventKind::SubagentStop { *)
Definition envelope_search_strings (kind : AgentEnvelopeKind) : list string :=
  match kind with
  | EnvelopeKind_SpawnRequested t | EnvelopeKind_Started t =>
      [AgentTaskSpec_task_id t; AgentTaskSpec_role t]
  | EnvelopeKind_StatusChanged status => [AgentStatus_display status]
  | EnvelopeKind_Input message delivery =>
      [AgentInputDelivery_display delivery; message_preview_text message]
  | EnvelopeKind_Artifact artifact =>
      [AgentArtifact_kind artifact; AgentArtifact_uri artifact] ++ option_list (AgentArtifact_label artifact)
  | EnvelopeKind_ClaimRequested files | EnvelopeKind_ClaimGranted files => files
  | EnvelopeKind_ClaimRejected files owner => files ++ [owner]
  | EnvelopeKind_Result r =>
      [AgentResultEnvelope_task_id r; AgentResultEnvelope_agent_id r;
       AgentStatus_display (AgentResultEnvelope_status r); AgentResultEnvelope_summary r;
       AgentResultEnvelope_text r]
      ++ AgentResultEnvelope_claimed_files r ++ map AgentArtifact_uri (AgentResultEnvelope_artifacts r)
  | EnvelopeKind_Failed error => [error]
  | EnvelopeKind_Cancelled reason => option_list reason
  | EnvelopeKind_Heartbeat => ["heartbeat"]
  end.

(* crates/store/src/traits.rs, searchable_session_event_strings@SessionEventKind::TokenUsageUpdated { phase, ledger } ~~ SessionEventKind::HookInvoked *)
Definition token_usage_search_string (phase : TokenUsagePhase) (ledger : TokenLedgerSnapshot) : string :=
  let u := ledger_cumulative_usage ledger in
  "token_usage " +:+ phase_debug phase +:+ " context="
    +:+ match ledger_context_window ledger with
        | Some w => fmt_nat (window_used_tokens w) +:+ "/" +:+ fmt_nat (window_max_tokens w)
        | None => "unknown"
        end
    +:+ " input=" +:+ fmt_N (usage_input_tokens u) +:+ " output=" +:+ fmt_N (usage_output_tokens u)
    +:+ " prefill=" +:+ fmt_N (usage_prefill_tokens u) +:+ " decode=" +:+ fmt_N (usage_decode_tokens u)
    +:+ " cache_read=" +:+ fmt_N (usage_cache_read_tokens u)
    +:+ " reasoning=" +:+ fmt_N (usage_reasoning_tokens u).

(* crates/store/src/traits.rs, searchable_session_event_strings@SessionEventKind::CheckpointCreated { checkpoint } ~~ SessionEventKind::CronCreated { *)
Definition checkpoint_search_strings (c : CheckpointRecord) : list string :=
  [CheckpointRecord_checkpoint_id c; CheckpointScope_display (CheckpointRecord_scope c);
   CheckpointRecord_summary c]
  ++ option_list (CheckpointRecord_rollback_message_id c)
  ++ option_list (CheckpointRecord_prompt_message_id c)
  ++ match CheckpointRecord_origin c with
     | CheckpointOrigin_FileTool tool_name => [tool_name]
     | CheckpointOrigin_Restore restored_from restore_mode =>
         [restored_from; CheckpointRestoreMode_display restore_mode]
     end
  ++ (CheckpointRecord_changed_files c ≫= fun file =>
        [CheckpointFileRecord_requested_path file; path_display (CheckpointFileRecord_resolved_path file)]).

(* crates/store/src/traits.rs, searchable_session_event_strings@SessionEventKind::BrowserOpened { summary } ~~ SessionEventKind::WorktreeEntered *)
Definition browser_search_strings (b : BrowserSummaryRecord) : list string :=
  [BrowserSummaryRecord_browser_id b; BrowserStatus_display (BrowserSummaryRecord_status b);
   BrowserSummaryRecord_current_url b;
   if BrowserSummaryRecord_headless b then "headless" else "headful"]
  ++ option_list (BrowserSummaryRecord_title b)
  ++ option_list ((fun v => fmt_N (BrowserViewportRecord_width v) +:+ "x"
                              +:+ fmt_N (BrowserViewportRecord_height v)) <$> BrowserSummaryRecord_viewport b)
  ++ option_list (BrowserSummaryRecord_task_id b).

(* crates/store/src/traits.rs, searchable_session_event_strings@SessionEventKind::WorktreeEntered { summary } ~~ SessionEventKind::CheckpointCreated *)
Definition worktree_search_strings (w : WorktreeSummaryRecord) : list string :=
  [WorktreeSummaryRecord_worktree_id w; WorktreeScope_display (WorktreeSummaryRecord_scope w);
   WorktreeStatus_display (WorktreeSummaryRecord_status w); path_display (WorktreeSummaryRecord_root w)]
  ++ option_list (WorktreeSummaryRecord_label w) ++ option_list (WorktreeSummaryRecord_task_id w)
  ++ option_list (WorktreeSummaryRecord_parent_agent_id w)
  ++ option_list (WorktreeSummaryRecord_child_agent_id w).

(* crates/store/src/traits.rs, searchable_session_event_strings@SessionEventKind::CronUpdated { summary } ~~ SessionEventKind::TaskCreated *)
Definition cron_summary_strings (c : CronSummaryRecord) : list string :=
  [CronSummaryRecord_cron_id c; CronStatus_display (CronSummaryRecord_status c); CronSummaryRecord_role c;
   CronSummaryRecord_prompt_summary c; render_cron_schedule_summary (CronSummaryRecord_schedule c)].

(* crates/store/src/traits.rs, searchable_session_event_strings@SessionEventKind::MonitorUpdated { summary } ~~ SessionEventKind::BrowserOpened *)
Definition monitor_summary_strings (s : MonitorSummaryRecord) : list string :=
  [MonitorSummaryRecord_monitor_id s; MonitorStatus_display (MonitorSummaryRecord_status s);
   MonitorSummaryRecord_cwd s; MonitorSummaryRecord_command s].

(** The values that are pushed for an event, after the agent session id. *)
(* crates/store/src/traits.rs, searchable_session_event_strings@match &event.event { ~~ values.retain *)
Definition event_values (event : SessionEventKind) : list string :=
  match event with
  | Ev_SessionStart reason | Ev_Stop reason | Ev_StopFailure reason | Ev_SessionEnd reason =>
      option_list reason
  | Ev_InstructionsLoaded count => ["instructions " +:+ fmt_nat count]
  | Ev_SteerApplied message reason => message :: option_list reason
  | Ev_UserPromptSubmit prompt => snapshot_search_strings prompt
  | Ev_ModelRequestStarted request => map spec_name (request_tools request)
  | Ev_CompactionCompleted reason source_message_count retained_message_count summary_chars _ _ =>
      [reason; "compaction " +:+ fmt_nat source_message_count +:+ " " +:+ fmt_nat retained_message_count
                 +:+ " " +:+ fmt_nat summary_chars]
  | Ev_ModelResponseCompleted _ tool_calls _ => map call_tool_name tool_calls
  | Ev_TokenUsageUpdated phase ledger => [token_usage_search_string phase ledger]
  | Ev_HookInvoked name _ => [name]
  | Ev_HookCompleted name _ output => name :: (hook_result_effects output ≫= effect_search_strings)
  | Ev_TranscriptMessage _ => []
  | Ev_TranscriptMessagePatched message_id _ => [message_id; "transcript patched"]
  | Ev_TranscriptMessageRemoved message_id => [message_id; "transcript removed"]
  | Ev_ToolApprovalRequested call reasons => call_tool_name call :: reasons
  | Ev_ToolApprovalResolved call _ reason => call_tool_name call :: option_list reason
  | Ev_ToolCallStarted call => [call_tool_name call; value_to_string (call_arguments call)]
  | Ev_ToolCallCompleted call output =>
      [call_tool_name call; tool_result_text_content output]
      ++ option_list (value_to_string <$> result_metadata output)
  | Ev_ToolCallFailed call error => [call_tool_name call; error]
  | Ev_MonitorStarted s =>
      monitor_summary_strings s ++ [MonitorSummaryRecord_shell s]
      ++ option_list (MonitorSummaryRecord_task_id s)
  | Ev_MonitorEvent e => MonitorEventRecord_monitor_id e :: monitor_search_strings (MonitorEventRecord_kind e)
  | Ev_MonitorUpdated s => monitor_summary_strings s
  | Ev_BrowserOpened b | Ev_BrowserUpdated b => browser_search_strings b
  | Ev_WorktreeEntered w | Ev_WorktreeUpdated w => worktree_search_strings w
  | Ev_CheckpointCreated c => checkpoint_search_strings c
  | Ev_CronCreated c template =>
      cron_summary_strings c ++ [CronTaskTemplateRecord_prompt template]
      ++ CronTaskTemplateRecord_allowed_tools template
      ++ CronTaskTemplateRecord_requested_write_set template
      ++ option_list (CronTaskTemplateRecord_active_worktree_id template)
      ++ option_list (path_display <$> CronTaskTemplateRecord_worktree_root template)
  | Ev_CronUpdated c => cron_summary_strings c ++ option_list (CronSummaryRecord_latest_task_id c)
  | Ev_TaskCreated t parent_agent_id _ _ _ _ =>
      [AgentTaskSpec_task_id t; AgentTaskSpec_role t; AgentTaskSpec_prompt t]
      ++ AgentTaskSpec_requested_write_set t ++ option_list parent_agent_id
  | Ev_TaskCompleted task_id agent_id status => [task_id; agent_id; TaskStatus_display status]
  | Ev_TaskUpdated task_id status summary => [task_id; TaskStatus_display status] ++ option_list summary
  | Ev_SubagentStart h t =>
      [AgentHandle_agent_id h; AgentHandle_task_id h; AgentHandle_role h; AgentTaskSpec_prompt t]
      ++ AgentTaskSpec_requested_write_set t
  | Ev_AgentEnvelope e => envelope_search_strings (AgentEnvelope_kind e)
  | Ev_SubagentStop h r error =>
      [AgentHandle_agent_id h; AgentHandle_task_id h; AgentStatus_display (AgentHandle_status h)]
      ++ match r with
         | Some r => [AgentResultEnvelope_summary r; AgentResultEnvelope_text r]
                       ++ AgentResultEnvelope_claimed_files r
         | None => []
         end ++ option_list error
  | Ev_Notification source message => [source; message]
  end.

(* crates/store/src/traits.rs, searchable_session_event_strings *)
Definition searchable_session_event_strings (event : SessionEventEnvelope) : list string :=
  List.filter (fun value => negb (str_is_empty (trim value)))
    (env_agent_session_id event :: event_values (env_event event)).

(* crates/store/src/traits.rs, previewable_event_strings@for effect in &output.effects ~~ SessionEventKind::AgentEnvelope *)
Definition effect_preview_strings (hook_name : string) (effect : HookEffect) : list string :=
  match effect with
  | Effect_ShowToast variant message => [hook_name +:+ ": " +:+ variant; hook_name +:+ ": " +:+ message]
  | Effect_AppendPrompt text _ => [hook_name +:+ ": " +:+ text]
  | Effect_Stop reason => [hook_name +:+ ": " +:+ reason]
  | Effect_RewriteToolArgs tool_name arguments => [tool_name; value_to_string arguments]
  | Effect_SetGateDecision _ reason | Effect_SetPermissionDecision _ reason
  | Effect_SetPermissionBehavior _ reason =>
      option_list ((fun reason => hook_name +:+ ": " +:+ reason) <$> reason)
  | Effect_AppendMessage _ _ | Effect_ReplaceMessage _ _ | Effect_AddContext _
  | Effect_InjectInstruction _ | Effect_PatchMessage _ _ | Effect_RemoveMessage _
  | Effect_Elicitation _ _ => []
  end.

(* crates/store/src/traits.rs, previewable_event_strings *)
Definition previewable_event_strings (event : SessionEventEnvelope) : list string :=
  match env_event event with
  | Ev_ModelRequestStarted request => map spec_name (request_tools request)
  | Ev_HookCompleted name _ output => hook_result_effects output ≫= effect_preview_strings name
  | Ev_AgentEnvelope e =>
      match AgentEnvelope_kind e with
      | EnvelopeKind_Input message delivery =>
          [AgentInputDelivery_display delivery; message_preview_text message]
      | _ => searchable_session_event_strings event
      end
  | Ev_BrowserOpened b | Ev_BrowserUpdated b =>
      [BrowserSummaryRecord_browser_id b; BrowserStatus_display (BrowserSummaryRecord_status b);
       BrowserSummaryRecord_current_url b]
      ++ option_list (BrowserSummaryRecord_title b) ++ option_list (BrowserSummaryRecord_task_id b)
  | _ => searchable_session_event_strings event
  end.

End Strings.

(** ** Token usage of a session *)

Section Usage.
Context {J : SerdeJson}.

(* crates/types/src/event.rs, SessionSummaryTokenUsage *)
Record SessionSummaryTokenUsage := mkSessionSummaryTokenUsage {
  sum_context_window : option ContextWindowUsage;
  sum_cumulative_usage : TokenUsage
}.

(* crates/types/src/event.rs, SessionSummaryTokenUsage::from@fn from(value: TokenLedgerSnapshot) *)
Definition summary_usage_from (ledger : TokenLedgerSnapshot) : SessionSummaryTokenUsage :=
  mkSessionSummaryTokenUsage (ledger_context_window ledger) (ledger_cumulative_usage ledger).

Definition usage_of (event : SessionEventEnvelope) : option TokenLedgerSnapshot :=
  match env_event event with Ev_TokenUsageUpdated _ ledger => Some ledger | _ => None end.

(* crates/store/src/traits.rs, latest_token_usage_snapshot *)
Definition latest_token_usage_snapshot (events : list SessionEventEnvelope) : option TokenLedgerSnapshot :=
  find_map usage_of (rev events).

(* crates/store/src/traits.rs, aggregate_token_usage *)
Definition aggregate_token_usage (ledgers : list TokenLedgerSnapshot) : TokenUsage :=
  foldl (fun aggregate ledger => accumulate aggregate (ledger_cumulative_usage ledger))
    TokenUsage_default ledgers.

(** The last ledger of every agent session. *)
(* crates/store/src/traits.rs, session_token_usage_snapshot@let mut latest_by_agent_session ~~ let mut session_ledger = session_ledger *)
Definition latest_by_agent_session (events : list SessionEventEnvelope) : btree TokenLedgerSnapshot :=
  foldl (fun m event =>
    match usage_of event with
    | Some ledger => bt_insert (env_agent_session_id event) ledger m
    | None => m
    end) [] events.

(* crates/store/src/traits.rs, session_token_usage_snapshot *)
Definition session_token_usage_snapshot (events : list SessionEventEnvelope) : option TokenLedgerSnapshot :=
  session_ledger ← latest_token_usage_snapshot events;
  Some (mkTokenLedgerSnapshot (ledger_context_window session_ledger) (ledger_last_usage session_ledger)
          (aggregate_token_usage (latest_by_agent_session events).*2)).

(** ** The summary *)

(* crates/store/src/traits.rs, SessionSummary *)
Record SessionSummary := mkSessionSummary {
  ss_session_id : SessionId;
  ss_first_timestamp_ms : N;
  ss_last_timestamp_ms : N;
  ss_event_count : nat;
  ss_agent_session_count : nat;
  ss_transcript_message_count : nat;
  ss_last_user_prompt : option string;
  ss_token_usage : option SessionSummaryTokenUsage
}.

Definition u128_max : N := 340282366920938463463374607431768211455%N.

Definition first_timestamp (events : list SessionEventEnvelope) : N :=
  foldl (fun first event => N.min first (env_timestamp_ms event)) u128_max events.
Definition last_timestamp (events : list SessionEventEnvelope) : N :=
  foldl (fun last event => N.max last (env_timestamp_ms event)) 0%N events.

(** The preview of a prompt that is not blank. *)
Definition prompt_of (event : SessionEventEnvelope) : option string :=
  match env_event event with
  | Ev_UserPromptSubmit prompt =>
      let preview := snapshot_preview_text prompt in
      if str_is_empty preview then None else Some preview
  | _ => None
  end.

(* crates/store/src/traits.rs, summarize_session_events@if let SessionEventKind::UserPromptSubmit ~~ let transcript_message_count *)
Definition last_user_prompt (events : list SessionEventEnvelope) : option string :=
  foldl (fun last event => match prompt_of event with Some p => Some p | None => last end) None events.

(* crates/store/src/traits.rs, summarize_session_events *)
Definition summarize_session_events (session_id : SessionId) (events : list SessionEventEnvelope)
    : option SessionSummary :=
  if is_nil events then None
  else
    Some (mkSessionSummary session_id (first_timestamp events) (last_timestamp events) (length events)
            (size (list_to_set (env_agent_session_id <$> events) : gset string))
            (length (visible_transcript events)) (last_user_prompt events)
            (summary_usage_from <$> session_token_usage_snapshot events)).

End Usage.

(** ** Search in one session *)

Section Search.
Context {J : SerdeJson} {U : UnicodeCase}.

(* crates/store/src/traits.rs, SessionSearchResult *)
Record SessionSearchResult := mkSessionSearchResult {
  sr_summary : SessionSummary;
  sr_matched_event_count : nat;
  sr_preview_matches : list string
}.

(* crates/store/src/traits.rs, RankedSessionSearchResult *)
Record RankedSessionSearchResult := mkRankedSessionSearchResult {
  rk_result : SessionSearchResult;
  rk_prompt_match : bool;
  rk_session_id_match : bool;
  rk_metadata_match_count : nat;
  rk_transcript_match_count : nat
}.

(* crates/store/src/traits.rs, push_unique_preview *)
Definition push_unique_preview (previews : list string) (candidate : string) : list string :=
  if existsb (String.eqb candidate) previews then previews else previews ++ [candidate].

Definition matches_query (query_lower candidate : string) : bool :=
  str_contains (to_lowercase candidate) query_lower.

(* crates/store/src/traits.rs, search_session_events_ranked@for message in visible_transcript ~~ for event in events *)
Fixpoint scan_transcript (query_lower : string) (messages : list Message) (count : nat)
    (previews : list string) : nat * list string :=
  match messages with
  | [] => (count, previews)
  | message :: rest =>
      if negb (matches_query query_lower (message_search_text message)) then
        scan_transcript query_lower rest count previews
      else
        scan_transcript query_lower rest (S count)
          (if (length previews <? 3)%nat
           then push_unique_preview previews (preview_text (message_preview_text message) 80)
           else previews)
  end.

(* crates/store/src/traits.rs, search_session_events_ranked@for candidate in candidates ~~ let matched_event_count *)
Fixpoint push_candidates (candidates previews : list string) : list string :=
  match candidates with
  | [] => previews
  | candidate :: rest =>
      if (length previews =? 3)%nat then previews
      else push_candidates rest (push_unique_preview previews (preview_text candidate 80))
  end.

(* crates/store/src/traits.rs, search_session_events_ranked@let preview_candidates ~~ for candidate in candidates *)
Definition preview_candidates (query_lower : string) (event : SessionEventEnvelope)
    (event_matches : list string) : list string :=
  let candidates := previewable_event_strings event in
  let matching := List.filter (matches_query query_lower) candidates in
  if negb (is_nil matching) then matching
  else if is_nil candidates then event_matches
  else candidates.

(* crates/store/src/traits.rs, search_session_events_ranked@for event in events ~~ let matched_event_count *)
Fixpoint scan_events (query_lower : string) (events : list SessionEventEnvelope) (count : nat)
    (previews : list string) : nat * list string :=
  match events with
  | [] => (count, previews)
  | event :: rest =>
      let event_matches := List.filter (matches_query query_lower) (searchable_session_event_strings event) in
      if is_nil event_matches then scan_events query_lower rest count previews
      else
        let previews := push_candidates (preview_candidates query_lower event event_matches) previews in
        if (length previews =? 3)%nat then (S count, previews)
        else scan_events query_lower rest (S count) previews
  end.

(* crates/store/src/traits.rs, search_session_events_ranked *)
Definition search_session_events_ranked (summary : SessionSummary) (events : list SessionEventEnvelope)
    (query : string) : option RankedSessionSearchResult :=
  let query := trim query in
  if str_is_empty query then
    Some (mkRankedSessionSearchResult (mkSessionSearchResult summary 0 []) false false 0 0)
  else
    let query_lower := to_lowercase query in
    let session_id_match := matches_query query_lower (ss_session_id summary) in
    let prompt_match := match ss_last_user_prompt summary with
                        | Some prompt => matches_query query_lower prompt
                        | None => false
                        end in
    let own :=
      (if session_id_match then ["session id: " +:+ ss_session_id summary] else [])
      ++ (if prompt_match
          then ["prompt: " +:+ preview_text (default "" (ss_last_user_prompt summary)) 80] else []) in
    let '(transcript_match_count, transcript_previews) :=
      scan_transcript query_lower (visible_transcript events) 0 [] in
    let '(metadata_match_count, metadata_previews) := scan_events query_lower events 0 [] in
    let previews := take 3 (own ++ metadata_previews ++ transcript_previews) in
    if is_nil previews then None
    else
      Some (mkRankedSessionSearchResult
              (mkSessionSearchResult summary (metadata_match_count + transcript_match_count) previews)
              prompt_match session_id_match metadata_match_count transcript_match_count).

(* crates/store/src/traits.rs, search_session_events *)
Definition search_session_events (summary : SessionSummary) (events : list SessionEventEnvelope)
    (query : string) : option SessionSearchResult :=
  rk_result <$> search_session_events_ranked summary events query.

(** ** The order of results *)

(** [Ordering::then_with]. *)
Definition then_with (a b : comparison) : comparison := match a with Eq => b | _ => a end.
Definition bool_compare (a b : bool) : comparison :=
  match a, b with true, false => Gt | false, true => Lt | _, _ => Eq end.

(* crates/store/src/traits.rs, sort_ranked_session_search_results@results.sort_by *)
Definition ranked_compare (left right : RankedSessionSearchResult) : comparison :=
  then_with (bool_compare (rk_prompt_match right) (rk_prompt_match left))
  (then_with (bool_compare (rk_session_id_match right) (rk_session_id_match left))
  (then_with (Nat.compare (rk_metadata_match_count right) (rk_metadata_match_count left))
  (then_with (Nat.compare (rk_transcript_match_count right) (rk_transcript_match_count left))
  (then_with (Nat.compare (sr_matched_event_count (rk_result right)) (sr_matched_event_count (rk_result left)))
  (then_with (N.compare (ss_last_timestamp_ms (sr_summary (rk_result right)))
                        (ss_last_timestamp_ms (sr_summary (rk_result left))))
     (String.compare (ss_session_id (sr_summary (rk_result left)))
                     (ss_session_id (sr_summary (rk_result right))))))))).

Definition ranked_le (left right : RankedSessionSearchResult) : Prop := ranked_compare left right <> Gt.
#[global] Instance ranked_le_dec left right : Decision (ranked_le left right).
Proof. unfold ranked_le. apply _. Defined.

(** Results of two sessions never tie: the last key is the session id. *)
(* crates/store/src/traits.rs, sort_ranked_session_search_results *)
Definition sort_ranked_session_search_results (results : list RankedSessionSearchResult)
    : list RankedSessionSearchResult := merge_sort ranked_le results.

Definition summary_compare (left right : SessionSummary) : comparison :=
  then_with (N.compare (ss_last_timestamp_ms right) (ss_last_timestamp_ms left))
            (String.compare (ss_session_id left) (ss_session_id right)).
Definition summary_le (left right : SessionSummary) : Prop := summary_compare left right <> Gt.
#[global] Instance summary_le_dec left right : Decision (summary_le left right).
Proof. unfold summary_le. apply _. Defined.

(* crates/store/src/file.rs, sort_session_summaries *)
Definition sort_session_summaries (sessions : list SessionSummary) : list SessionSummary :=
  merge_sort summary_le sessions.

End Search.
