(* ===== verification/StoreExport.v ===== *)
(** * Token usage reports and memory export

    Models the second half of [crates/store/src/traits.rs]: the token usage of a session
    and of the agents it spawned, and the records a session exports to memory, per
    session, agent session, subagent and task. *)

From Stdlib Require Import Ascii String.
From stdpp Require Import base list gmap sets sorting strings pretty.
From Stdlib Require Import Lia.
From S2P Require Import Prelude Text BTree Message Events Errors Replay AgentSessions StoreSearch.

(** ** Token usage *)

Section TokenUsage.
Context {J : SerdeJson}.

(* crates/store/src/traits.rs, TokenUsageScope *)
Inductive TokenUsageScope := Scope_Session | Scope_AgentSession | Scope_Subagent | Scope_Task.

(* crates/store/src/traits.rs, TokenUsageRecord *)
Record TokenUsageRecord := mkTokenUsageRecord {
  tur_scope : TokenUsageScope;
  tur_session_id : SessionId;
  tur_agent_session_id : option AgentSessionId;
  tur_agent_name : option string;
  tur_task_id : option string;
  tur_ledger : TokenLedgerSnapshot
}.

(* crates/store/src/traits.rs, SessionTokenUsageReport *)
Record SessionTokenUsageReport := mkSessionTokenUsageReport {
  rep_session : option TokenUsageRecord;
  rep_agent_sessions : list TokenUsageRecord;
  rep_subagents : list TokenUsageRecord;
  rep_tasks : list TokenUsageRecord;
  rep_aggregate_usage : TokenUsage
}.

(* crates/store/src/traits.rs, agent_session_token_usage_records *)
Definition agent_session_token_usage_records (session_id : SessionId)
    (events : list SessionEventEnvelope) : list TokenUsageRecord :=
  map (fun '(agent_session_id, ledger) =>
         mkTokenUsageRecord Scope_AgentSession session_id (Some agent_session_id) None None ledger)
    (latest_by_agent_session events).

(* crates/store/src/traits.rs, ChildSessionTokenUsageContext *)
Record ChildSessionTokenUsageContext := mkChildContext {
  cctx_session_id : option SessionId;
  cctx_agent_session_id : option AgentSessionId;
  cctx_agent_name : option string;
  cctx_task_id : option string
}.

Definition child_context_default : ChildSessionTokenUsageContext := mkChildContext None None None None.

(* crates/store/src/traits.rs, ResolvedChildSessionTokenUsageContext *)
Record ResolvedChildSessionTokenUsageContext := mkResolvedContext {
  rctx_session_id : SessionId;
  rctx_agent_session_id : option AgentSessionId;
  rctx_agent_name : option string;
  rctx_task_id : option string
}.

(** [map.entry(key).or_default()], changed by [f]. *)
Definition bt_update {V} (d : V) (f : V -> V) (key : string) (m : btree V) : btree V :=
  bt_insert key (f (default d (bt_get key m))) m.

(** [if x.is_none() { x = y }]. *)
Definition or_set {A} (a : option A) (b : A) : option A := match a with Some _ => a | None => Some b end.

(* crates/store/src/traits.rs, collect_child_run_token_usage_contexts@SessionEventKind::SubagentStart ~~ SessionEventKind::SubagentStop *)
Definition seen_handle (h : AgentHandle) (name task_id : string) (c : ChildSessionTokenUsageContext)
    : ChildSessionTokenUsageContext :=
  mkChildContext (Some (AgentHandle_session_id h)) (Some (AgentHandle_agent_session_id h))
    (or_set (cctx_agent_name c) name) (or_set (cctx_task_id c) task_id).

(* crates/store/src/traits.rs, collect_child_run_token_usage_contexts@SessionEventKind::AgentEnvelope ~~ let mut contexts *)
Definition seen_envelope (e : AgentEnvelope) (c : ChildSessionTokenUsageContext)
    : ChildSessionTokenUsageContext :=
  let sid := or_set (cctx_session_id c) (AgentEnvelope_session_id e) in
  let aid := or_set (cctx_agent_session_id c) (AgentEnvelope_agent_session_id e) in
  match AgentEnvelope_kind e with
  | EnvelopeKind_SpawnRequested t | EnvelopeKind_Started t =>
      mkChildContext sid aid (or_set (cctx_agent_name c) (AgentTaskSpec_role t))
        (or_set (cctx_task_id c) (AgentTaskSpec_task_id t))
  | EnvelopeKind_Result r =>
      mkChildContext sid aid (cctx_agent_name c) (or_set (cctx_task_id c) (AgentResultEnvelope_task_id r))
  | _ => mkChildContext sid aid (cctx_agent_name c) (cctx_task_id c)
  end.

(* crates/store/src/traits.rs, collect_child_run_token_usage_contexts@for event in events ~~ let mut contexts *)
Definition collect_child (by_agent : btree ChildSessionTokenUsageContext) (event : SessionEventEnvelope)
    : btree ChildSessionTokenUsageContext :=
  match env_event event with
  | Ev_SubagentStart h t =>
      bt_update child_context_default (seen_handle h (AgentTaskSpec_role t) (AgentTaskSpec_task_id t))
        (AgentHandle_agent_id h) by_agent
  | Ev_SubagentStop h _ _ =>
      bt_update child_context_default (seen_handle h (AgentHandle_role h) (AgentHandle_task_id h))
        (AgentHandle_agent_id h) by_agent
  | Ev_AgentEnvelope e =>
      bt_update child_context_default (seen_envelope e) (AgentEnvelope_agent_id e) by_agent
  | _ => by_agent
  end.

(** [Option<String>::cmp]: [None] first. *)
Definition opt_string_compare (a b : option string) : comparison :=
  match a, b with
  | None, None => Eq
  | None, Some _ => Lt
  | Some _, None => Gt
  | Some a, Some b => String.compare a b
  end.

Definition context_compare (left right : ResolvedChildSessionTokenUsageContext) : comparison :=
  then_with (opt_string_compare (rctx_agent_name left) (rctx_agent_name right))
  (then_with (opt_string_compare (rctx_task_id left) (rctx_task_id right))
     (String.compare (rctx_session_id left) (rctx_session_id right))).
Definition context_le (left right : ResolvedChildSessionTokenUsageContext) : Prop :=
  context_compare left right <> Gt.
#[global] Instance context_le_dec left right : Decision (context_le left right).
Proof. unfold context_le. apply _. Defined.

Definition resolve_context (c : ChildSessionTokenUsageContext)
    : option ResolvedChildSessionTokenUsageContext :=
  session_id ← cctx_session_id c;
  Some (mkResolvedContext session_id (cctx_agent_session_id c) (cctx_agent_name c) (cctx_task_id c)).

(* crates/store/src/traits.rs, collect_child_run_token_usage_contexts *)
Definition collect_child_run_token_usage_contexts (events : list SessionEventEnvelope)
    : list ResolvedChildSessionTokenUsageContext :=
  merge_sort context_le (omap resolve_context (foldl collect_child [] events).*2).

(** The loop over the children, in the order in which their events arrived. *)
(* crates/store/src/traits.rs, SessionStore::token_usage@for child in child_records *)
Fixpoint report_children
    (children : list (result (ResolvedChildSessionTokenUsageContext * option TokenLedgerSnapshot)
                        SessionStoreError))
    (subagents tasks : list TokenUsageRecord) (aggregate : TokenUsage)
    : result (list TokenUsageRecord * list TokenUsageRecord * TokenUsage) SessionStoreError :=
  match children with
  | [] => Ok (subagents, tasks, aggregate)
  | Err e :: _ => Err e
  | Ok (_, None) :: rest => report_children rest subagents tasks aggregate
  | Ok (c, Some ledger) :: rest =>
      let record scope := mkTokenUsageRecord scope (rctx_session_id c) (rctx_agent_session_id c)
                            (rctx_agent_name c) (rctx_task_id c) ledger in
      report_children rest (subagents ++ [record Scope_Subagent]) (tasks ++ [record Scope_Task])
        (accumulate aggregate (ledger_cumulative_usage ledger))
  end.

(** [fetch] is the store's [events]; [arrival] is the order in which the reads of the
    children finish: [buffer_unordered] yields them as they come. *)
(* crates/store/src/traits.rs, SessionStore::token_usage *)
Definition token_usage (fetch : SessionId -> result (list SessionEventEnvelope) SessionStoreError)
    (arrival : forall A, list A -> list A) (session_id : SessionId)
    : result SessionTokenUsageReport SessionStoreError :=
  root_events <-? fetch session_id;
  let session := (fun ledger => mkTokenUsageRecord Scope_Session session_id None None None ledger)
                   <$> session_token_usage_snapshot root_events in
  let agent_sessions := agent_session_token_usage_records session_id root_events in
  let aggregate := default TokenUsage_default
                     ((fun r => ledger_cumulative_usage (tur_ledger r)) <$> session) in
  let children := map (fun c => events <-? fetch (rctx_session_id c);
                                Ok (c, latest_token_usage_snapshot events))
                    (collect_child_run_token_usage_contexts root_events) in
  reported <-? report_children (arrival _ children) [] [] aggregate;
  let '(subagents, tasks, aggregate) := reported in
  Ok (mkSessionTokenUsageReport session agent_sessions subagents tasks aggregate).

End TokenUsage.

(** ** Search corpus *)

Section Corpus.
Context {J : SerdeJson}.

(* crates/store/src/traits.rs, append_search_corpus_line *)
Definition append_search_corpus_line (search_corpus value : string) : string :=
  let normalized := str_join " " (split_whitespace value) in
  if str_is_empty normalized then search_corpus
  else (if str_is_empty search_corpus then "" else search_corpus +:+ nl) +:+ normalized.

(* crates/store/src/traits.rs, build_search_corpus *)
Definition build_search_corpus (events : list SessionEventEnvelope) : string :=
  foldl append_search_corpus_line ""
    ((events ≫= searchable_session_event_strings) ++ map message_search_text (visible_transcript events)).

(** [s.chars().skip(n)]. *)
Fixpoint skip_chars (n : nat) (s : string) : string :=
  match s with
  | "" => ""
  | String a s' =>
      if char_start a then match n with O => s | S n' => skip_chars n' s' end
      else match n with O => s | S _ => skip_chars n s' end
  end.

(* crates/store/src/traits.rs, keep_recent_chars *)
Definition keep_recent_chars (search_corpus : string) (max_chars : nat) : string :=
  if (max_chars =? 0)%nat then ""
  else
    let total_chars := chars_count search_corpus in
    if (total_chars <=? max_chars)%nat then search_corpus
    else skip_chars (total_chars - max_chars) search_corpus.

End Corpus.

(** ** Memory export: sections *)

Section Sections.
Context {J : SerdeJson} (value_as_array : Value -> option (list Value)).

(* crates/store/src/traits.rs, MemoryExportSections *)
Record MemoryExportSections := mkSections {
  sec_tool_summary : list string;
  sec_decisions : list string;
  sec_failures : list string;
  sec_produced_artifacts : list string;
  sec_follow_up : list string
}.

(* crates/store/src/traits.rs, push_unique *)
Definition push_unique (values : list string) (value : string) : list string :=
  if existsb (String.eqb value) values then values else values ++ [value].

(* crates/store/src/traits.rs, extract_artifacts *)
Definition extract_artifacts (value : option Value) : list string :=
  match (value ≫= (fun v => value_get v "artifacts")) ≫= value_as_array with
  | Some artifacts => omap value_as_str artifacts
  | None => []
  end.

Definition decide_that (s : MemoryExportSections) (line : string) : MemoryExportSections :=
  mkSections (sec_tool_summary s) (push_unique (sec_decisions s) line) (sec_failures s)
    (sec_produced_artifacts s) (sec_follow_up s).
Definition fail_with (s : MemoryExportSections) (line : string) : MemoryExportSections :=
  mkSections (sec_tool_summary s) (sec_decisions s) (push_unique (sec_failures s) line)
    (sec_produced_artifacts s) (sec_follow_up s).
Definition follow_up (s : MemoryExportSections) (line : string) : MemoryExportSections :=
  mkSections (sec_tool_summary s) (sec_decisions s) (sec_failures s) (sec_produced_artifacts s)
    (push_unique (sec_follow_up s) line).
Definition tool_line (s : MemoryExportSections) (line : string) : MemoryExportSections :=
  mkSections (push_unique (sec_tool_summary s) line) (sec_decisions s) (sec_failures s)
    (sec_produced_artifacts s) (sec_follow_up s).
Definition add_artifact (s : MemoryExportSections) (line : string) : MemoryExportSections :=
  mkSections (sec_tool_summary s) (sec_decisions s) (sec_failures s)
    (push_unique (sec_produced_artifacts s) line) (sec_follow_up s).

Definition when_some {A S} (o : option A) (f : S -> A -> S) (s : S) : S :=
  match o with Some a => f s a | None => s end.

(* crates/store/src/traits.rs, collect_memory_export_sections@for effect in &output.effects ~~ SessionEventKind::ToolApprovalResolved *)
Definition effect_sections (hook_name : string) (s : MemoryExportSections) (effect : HookEffect)
    : MemoryExportSections :=
  let named text := hook_name +:+ ": " +:+ preview_text text 120 in
  match effect with
  | Effect_AppendMessage _ parts =>
      foldl (fun s part => match part with Part_Text text => decide_that s (named text) | _ => s end) s parts
  | Effect_ReplaceMessage _ message => decide_that s (named (message_preview_text message))
  | Effect_AddContext text | Effect_InjectInstruction text => follow_up s (named text)
  | Effect_ShowToast variant message =>
      follow_up s (hook_name +:+ ": toast " +:+ variant +:+ " " +:+ preview_text message 120)
  | Effect_AppendPrompt text _ => follow_up s (named text)
  | Effect_Stop reason => fail_with s (named reason)
  | Effect_SetGateDecision _ reason | Effect_SetPermissionDecision _ reason
  | Effect_SetPermissionBehavior _ reason => when_some reason (fun s r => decide_that s (named r)) s
  | Effect_RewriteToolArgs tool_name arguments =>
      follow_up s (hook_name +:+ ": rewrite " +:+ tool_name +:+ " "
                     +:+ preview_text (value_to_string arguments) 120)
  | Effect_PatchMessage _ _ | Effect_RemoveMessage _ | Effect_Elicitation _ _ => s
  end.

(* crates/store/src/traits.rs, collect_memory_export_sections@match &event.event *)
Definition event_sections (s : MemoryExportSections) (event : SessionEventEnvelope) : MemoryExportSections :=
  match env_event event with
  | Ev_SteerApplied message reason =>
      when_some reason (fun s r => decide_that s (preview_text r 120)) (decide_that s (preview_text message 120))
  | Ev_CompactionCompleted reason _ _ _ _ _ => follow_up s ("compaction: " +:+ preview_text reason 120)
  | Ev_HookCompleted name _ output => foldl (effect_sections name) s (hook_result_effects output)
  | Ev_ToolApprovalResolved call approved reason =>
      decide_that s (call_tool_name call +:+ " " +:+ (if approved then "approved" else "denied")
                       +:+ match reason with Some r => ": " +:+ preview_text r 80 | None => "" end)
  | Ev_ToolCallCompleted call output =>
      foldl add_artifact (tool_line s (call_tool_name call +:+ " completed"))
        (extract_artifacts (result_metadata output) ++ extract_artifacts (result_structured_content output))
  | Ev_ToolCallFailed call error =>
      fail_with (tool_line s (call_tool_name call +:+ " failed"))
        (call_tool_name call +:+ ": " +:+ preview_text error 120)
  | Ev_Notification source message => follow_up s (source +:+ ": " +:+ preview_text message 120)
  | Ev_StopFailure reason => when_some reason (fun s r => fail_with s (preview_text r 120)) s
  | Ev_Stop reason | Ev_SessionEnd reason => when_some reason (fun s r => follow_up s (preview_text r 120)) s
  | _ => s
  end.

(* crates/store/src/traits.rs, collect_memory_export_sections *)
Definition collect_memory_export_sections (events : list SessionEventEnvelope) : MemoryExportSections :=
  foldl event_sections (mkSections [] [] [] [] []) events.

(** ** Memory export: records *)

(* crates/store/src/traits.rs, MemoryExportScope *)
Inductive MemoryExportScope := Export_Session | Export_AgentSession | Export_Subagent | Export_Task.

(* crates/store/src/traits.rs, MemoryExportSummary *)
Record MemoryExportSummary := mkMemoryExportSummary {
  mes_scope : MemoryExportScope;
  mes_session_id : SessionId;
  mes_agent_session_id : option AgentSessionId;
  mes_agent_name : option string;
  mes_task_id : option string;
  mes_first_timestamp_ms : N;
  mes_last_timestamp_ms : N;
  mes_event_count : nat;
  mes_transcript_message_count : nat;
  mes_last_user_prompt : option string
}.

(* crates/store/src/traits.rs, SessionMemoryExportRecord *)
Record SessionMemoryExportRecord := mkSessionMemoryExportRecord {
  mer_summary : MemoryExportSummary;
  mer_search_corpus : string;
  mer_sections : MemoryExportSections
}.

(* crates/store/src/traits.rs, SessionMemoryExportBundle *)
Record SessionMemoryExportBundle := mkBundle {
  meb_sessions : list SessionMemoryExportRecord;
  meb_agent_sessions : list SessionMemoryExportRecord;
  meb_subagents : list SessionMemoryExportRecord;
  meb_tasks : list SessionMemoryExportRecord
}.

(* crates/store/src/traits.rs, SessionMemoryExportRequest *)
Record SessionMemoryExportRequest := mkSessionMemoryExportRequest {
  req_max_sessions : option nat;
  req_max_search_corpus_chars : option nat
}.

(* crates/store/src/traits.rs, build_memory_export_record *)
Definition build_memory_export_record (scope : MemoryExportScope) (session_id : SessionId)
    (agent_session_id : option AgentSessionId) (agent_name task_id : option string)
    (events : list SessionEventEnvelope) : option SessionMemoryExportRecord :=
  if is_nil events then None
  else
    Some (mkSessionMemoryExportRecord
            (mkMemoryExportSummary scope session_id agent_session_id agent_name task_id
               (first_timestamp events) (last_timestamp events) (length events)
               (length (visible_transcript events)) (last_user_prompt events))
            (build_search_corpus events) (collect_memory_export_sections events)).

Definition export_compare (left right : SessionMemoryExportRecord) : comparison :=
  let l := mer_summary left in
  let r := mer_summary right in
  then_with (N.compare (mes_last_timestamp_ms r) (mes_last_timestamp_ms l))
  (then_with (String.compare (mes_session_id l) (mes_session_id r))
  (then_with (opt_string_compare (mes_agent_session_id l) (mes_agent_session_id r))
  (then_with (opt_string_compare (mes_agent_name l) (mes_agent_name r))
     (opt_string_compare (mes_task_id l) (mes_task_id r))))).
Definition export_le (left right : SessionMemoryExportRecord) : Prop := export_compare left right <> Gt.
#[global] Instance export_le_dec left right : Decision (export_le left right).
Proof. unfold export_le. apply _. Defined.

(* crates/store/src/traits.rs, sort_memory_export_records *)
Definition sort_memory_export_records (records : list SessionMemoryExportRecord)
    : list SessionMemoryExportRecord := merge_sort export_le records.

Definition truncate_to (o : option nat) (l : list SessionMemoryExportRecord) : list SessionMemoryExportRecord :=
  match o with Some n => take n l | None => l end.
Definition shorten_corpus (o : option nat) (r : SessionMemoryExportRecord) : SessionMemoryExportRecord :=
  match o with
  | Some max_chars =>
      mkSessionMemoryExportRecord (mer_summary r) (keep_recent_chars (mer_search_corpus r) max_chars)
        (mer_sections r)
  | None => r
  end.

(* crates/store/src/traits.rs, apply_memory_export_request *)
Definition apply_memory_export_request (bundle : SessionMemoryExportBundle)
    (request : SessionMemoryExportRequest) : SessionMemoryExportBundle :=
  let apply l := map (shorten_corpus (req_max_search_corpus_chars request))
                   (truncate_to (req_max_sessions request) l) in
  mkBundle (apply (meb_sessions bundle)) (apply (meb_agent_sessions bundle))
    (apply (meb_subagents bundle)) (apply (meb_tasks bundle)).

End Sections.

(** ** Memory export: grouping *)

Section Grouping.
Context {J : SerdeJson}.

(* crates/store/src/traits.rs, ScopedMemoryExportEvents *)
Record ScopedMemoryExportEvents := mkScoped {
  sco_agent_session_id : option AgentSessionId;
  sco_agent_name : option string;
  sco_task_id : option string;
  sco_events : list SessionEventEnvelope
}.

(* crates/store/src/traits.rs, AgentMemoryExportContext *)
Record AgentMemoryExportContext := mkAgentContext {
  actx_agent_session_id : option AgentSessionId;
  actx_agent_name : option string;
  actx_task_id : option string
}.

Definition scoped_default : ScopedMemoryExportEvents := mkScoped None None None [].
Definition agent_context_default : AgentMemoryExportContext := mkAgentContext None None None.

(* crates/store/src/traits.rs, GroupedMemoryExportEvents *)
Record GroupedMemoryExportEvents := mkGrouped {
  grp_agent_sessions : btree (list SessionEventEnvelope);
  grp_subagents : btree ScopedMemoryExportEvents;
  grp_tasks : btree ScopedMemoryExportEvents;
  grp_agent_contexts : btree AgentMemoryExportContext
}.

(** [if let Some(x) = new { if !x.trim().is_empty() { old = Some(x.trim()) } }]. *)
Definition set_trimmed (old new : option string) : option string :=
  match new with
  | Some x => if str_is_empty (trim x) then old else Some (trim x)
  | None => old
  end.

(* crates/store/src/traits.rs, update_agent_memory_export_context *)
Definition update_agent_memory_export_context (contexts : btree AgentMemoryExportContext) (agent_key : string)
    (agent_session_id : option AgentSessionId) (agent_name task_id : option string)
    : AgentMemoryExportContext * btree AgentMemoryExportContext :=
  let c := default agent_context_default (bt_get agent_key contexts) in
  let c := mkAgentContext (match agent_session_id with Some a => Some a | None => actx_agent_session_id c end)
             (set_trimmed (actx_agent_name c) agent_name) (set_trimmed (actx_task_id c) task_id) in
  (c, bt_insert agent_key c contexts).

(* crates/store/src/traits.rs, apply_memory_export_context *)
Definition apply_memory_export_context (group : ScopedMemoryExportEvents) (c : AgentMemoryExportContext)
    (fallback : option AgentSessionId) : ScopedMemoryExportEvents :=
  mkScoped
    (match actx_agent_session_id c, sco_agent_session_id group with
     | Some a, _ => Some a
     | None, Some a => Some a
     | None, None => fallback
     end)
    (match actx_agent_name c with Some n => Some n | None => sco_agent_name group end)
    (match actx_task_id c with Some t => Some t | None => sco_task_id group end)
    (sco_events group).

Definition push_event (event : SessionEventEnvelope) (group : ScopedMemoryExportEvents)
    : ScopedMemoryExportEvents :=
  mkScoped (sco_agent_session_id group) (sco_agent_name group) (sco_task_id group)
    (sco_events group ++ [event]).

(* crates/store/src/traits.rs, push_subagent_event *)
Definition push_subagent_event (groups : btree ScopedMemoryExportEvents) (agent_key : string)
    (c : AgentMemoryExportContext) (event : SessionEventEnvelope) : btree ScopedMemoryExportEvents :=
  bt_update scoped_default (fun group => push_event event (apply_memory_export_context group c None))
    agent_key groups.

Definition with_group_task (task_id : string) (group : ScopedMemoryExportEvents) : ScopedMemoryExportEvents :=
  mkScoped (sco_agent_session_id group) (sco_agent_name group) (Some task_id) (sco_events group).

(** Every caller has a context. *)
(* crates/store/src/traits.rs, push_task_event *)
Definition push_task_event (groups : btree ScopedMemoryExportEvents) (task_key : string)
    (c : AgentMemoryExportContext) (fallback : AgentSessionId) (event : SessionEventEnvelope)
    : btree ScopedMemoryExportEvents :=
  bt_update scoped_default (fun group =>
      push_event event (apply_memory_export_context (with_group_task task_key group) c (Some fallback)))
    task_key groups.

(** What an event with a new context does to the groups. *)
Definition push_both (g : GroupedMemoryExportEvents) (agent_id : AgentId) (agent_session_id : AgentSessionId)
    (agent_name task_id : option string) (event : SessionEventEnvelope) : GroupedMemoryExportEvents :=
  let '(c, contexts) := update_agent_memory_export_context (grp_agent_contexts g) agent_id
                          (Some agent_session_id) agent_name task_id in
  mkGrouped (grp_agent_sessions g) (push_subagent_event (grp_subagents g) agent_id c event)
    (match task_id with
     | Some task_id => push_task_event (grp_tasks g) task_id c agent_session_id event
     | None =>
         match actx_task_id c with
         | Some task_id => push_task_event (grp_tasks g) task_id c agent_session_id event
         | None => grp_tasks g
         end
     end) contexts.

(* crates/store/src/traits.rs, group_events_for_memory_export@for event in events ~~ GroupedMemoryExportEvents { *)
Definition group_event (g : GroupedMemoryExportEvents) (event : SessionEventEnvelope)
    : GroupedMemoryExportEvents :=
  let g := mkGrouped (bt_update [] (fun events => events ++ [event]) (env_agent_session_id event)
                        (grp_agent_sessions g))
             (grp_subagents g) (grp_tasks g) (grp_agent_contexts g) in
  match env_event event with
  | Ev_TaskCreated t _ _ _ _ _ =>
      let task_id := AgentTaskSpec_task_id t in
      mkGrouped (grp_agent_sessions g) (grp_subagents g)
        (bt_update scoped_default (fun group =>
             push_event event
               (mkScoped (or_set (sco_agent_session_id group) (env_agent_session_id event))
                  (sco_agent_name group) (Some task_id) (sco_events group)))
           task_id (grp_tasks g))
        (grp_agent_contexts g)
  | Ev_TaskCompleted task_id agent_id _ =>
      let c := default agent_context_default (bt_get agent_id (grp_agent_contexts g)) in
      mkGrouped (grp_agent_sessions g)
        (if bool_decide (is_Some (actx_agent_name c)) || bool_decide (is_Some (bt_get agent_id (grp_subagents g)))
         then push_subagent_event (grp_subagents g) agent_id c event else grp_subagents g)
        (push_task_event (grp_tasks g) task_id c (env_agent_session_id event) event)
        (grp_agent_contexts g)
  | Ev_SubagentStart h t =>
      push_both g (AgentHandle_agent_id h) (AgentHandle_agent_session_id h) (Some (AgentHandle_role h))
        (Some (AgentTaskSpec_task_id t)) event
  | Ev_AgentEnvelope e =>
      let agent_id := AgentEnvelope_agent_id e in
      let aid := AgentEnvelope_agent_session_id e in
      match AgentEnvelope_kind e with
      | EnvelopeKind_SpawnRequested t | EnvelopeKind_Started t =>
          push_both g agent_id aid (Some (AgentTaskSpec_role t)) (Some (AgentTaskSpec_task_id t)) event
      | EnvelopeKind_Result r => push_both g agent_id aid None (Some (AgentResultEnvelope_task_id r)) event
      | _ => push_both g agent_id aid None None event
      end
  | Ev_SubagentStop h _ _ =>
      push_both g (AgentHandle_agent_id h) (AgentHandle_agent_session_id h) (Some (AgentHandle_role h))
        (Some (AgentHandle_task_id h)) event
  | _ => g
  end.

(* crates/store/src/traits.rs, group_events_for_memory_export *)
Definition group_events_for_memory_export (events : list SessionEventEnvelope) : GroupedMemoryExportEvents :=
  foldl group_event (mkGrouped [] [] [] []) events.

End Grouping.
