(* ===== verification/SessionStores.v ===== *)
(** * Session stores

    Models [crates/store/src/memory.rs] (events in a map), and [crates/store/src/file.rs]
    with [file/index_sidecar.rs] (a JSON-lines file per session and an index file beside
    them, with retention).  The directory is the parameter [SessionFiles], the JSON
    encodings are [StoreCodec]; the lock around the index is held for every write. *)

From Stdlib Require Import Ascii String.
From stdpp Require Import base list gmap sets sorting strings pretty.
From Stdlib Require Import Lia.
From S2P Require Import Prelude Text BTree Message Events Errors Replay StoreSearch StoreExport.

(** ** The memory store *)

Section MemoryStore.
Context {J : SerdeJson} {U : UnicodeCase} (as_array : Value -> option (list Value)).

(* crates/store/src/memory.rs, InMemorySessionStore *)
Definition InMemorySessionStore := gmap SessionId (list SessionEventEnvelope).

(* crates/store/src/memory.rs, InMemorySessionStore::append *)
Definition memory_append (st : InMemorySessionStore) (event : SessionEventEnvelope) : InMemorySessionStore :=
  <[env_session_id event := default [] (st !! env_session_id event) ++ [event]]> st.

(* crates/store/src/memory.rs, InMemorySessionStore::append_batch *)
Definition memory_append_batch (st : InMemorySessionStore) (events : list SessionEventEnvelope)
    : InMemorySessionStore := foldl memory_append st events.

(* crates/store/src/memory.rs, InMemorySessionStore::events *)
Definition memory_events (st : InMemorySessionStore) (session_id : SessionId)
    : result (list SessionEventEnvelope) SessionStoreError :=
  ok_or (st !! session_id) (StoreErr_SessionNotFound session_id).

(** The order in which the map is walked is not specified; the results are sorted. *)
(* crates/store/src/memory.rs, InMemorySessionStore::list_sessions *)
Definition memory_list_sessions (st : InMemorySessionStore) : list SessionSummary :=
  sort_session_summaries (omap (fun '(id, events) => summarize_session_events id events) (map_to_list st)).

(* crates/store/src/memory.rs, InMemorySessionStore::search_sessions *)
Definition memory_search_sessions (st : InMemorySessionStore) (query : string) : list SessionSearchResult :=
  map rk_result (sort_ranked_session_search_results
    (omap (fun '(id, events) =>
             summary ← summarize_session_events id events;
             search_session_events_ranked summary events query) (map_to_list st))).

(* crates/store/src/memory.rs, InMemorySessionStore::agent_session_ids *)
Definition memory_agent_session_ids (st : InMemorySessionStore) (session_id : SessionId)
    : result (list AgentSessionId) SessionStoreError :=
  events <-? memory_events st session_id; Ok (distinct_agent_sessions events).

(* crates/store/src/memory.rs, InMemorySessionStore::replay_transcript *)
Definition memory_replay_transcript (st : InMemorySessionStore) (session_id : SessionId)
    : result (list Message) SessionStoreError :=
  events <-? memory_events st session_id; Ok (replay_transcript events).

(** What one session adds to a bundle. *)
(* crates/store/src/memory.rs, InMemorySessionStore::export_for_memory@if let Some(record) = build_memory_export_record( ~~ sort_memory_export_records *)
Definition export_session (bundle : SessionMemoryExportBundle) (session_id : SessionId)
    (events : list SessionEventEnvelope) : SessionMemoryExportBundle :=
  let record scope aid name task events :=
    build_memory_export_record as_array scope session_id aid name task events in
  let groups := group_events_for_memory_export events in
  mkBundle
    (meb_sessions bundle ++ option_list (record Export_Session None None None events))
    (meb_agent_sessions bundle
       ++ omap (fun '(aid, events) => record Export_AgentSession (Some aid) None None events)
            (grp_agent_sessions groups))
    (meb_subagents bundle
       ++ omap (fun g => record Export_Subagent (sco_agent_session_id g) (sco_agent_name g) None (sco_events g))
            (grp_subagents groups).*2)
    (meb_tasks bundle
       ++ omap (fun g => record Export_Task (sco_agent_session_id g) None (sco_task_id g) (sco_events g))
            (grp_tasks groups).*2).

(* crates/store/src/memory.rs, InMemorySessionStore::export_for_memory@sort_memory_export_records *)
Definition finish_export (bundle : SessionMemoryExportBundle) (request : SessionMemoryExportRequest)
    : SessionMemoryExportBundle :=
  apply_memory_export_request
    (mkBundle (sort_memory_export_records (meb_sessions bundle))
       (sort_memory_export_records (meb_agent_sessions bundle))
       (sort_memory_export_records (meb_subagents bundle))
       (sort_memory_export_records (meb_tasks bundle))) request.

(* crates/store/src/memory.rs, InMemorySessionStore::export_for_memory *)
Definition memory_export_for_memory (st : InMemorySessionStore) (request : SessionMemoryExportRequest)
    : SessionMemoryExportBundle :=
  finish_export (foldl (fun bundle '(id, events) => export_session bundle id events)
                   (mkBundle [] [] [] []) (map_to_list st)) request.

End MemoryStore.

(** ** The index of the file store *)

Section Index.
Context {J : SerdeJson} {U : UnicodeCase}.

(* crates/store/src/file/index_sidecar.rs, IndexedSessionRecord *)
Record IndexedSessionRecord := mkIndexedSessionRecord {
  ir_summary : SessionSummary;
  ir_agent_session_ids : list AgentSessionId;
  ir_search_corpus : string;
  ir_agent_session_token_usage : btree SessionSummaryTokenUsage
}.

(* crates/store/src/file/index_sidecar.rs, FileSessionStoreIndex *)
Record FileSessionStoreIndex := mkFileSessionStoreIndex {
  ix_version : N;
  ix_sessions : btree IndexedSessionRecord
}.

Definition INDEX_VERSION : N := 4%N.
Definition MAX_SEARCH_CORPUS_CHARS : nat := 16384.

(* crates/store/src/file/index_sidecar.rs, FileSessionStoreIndex::default *)
Definition index_default : FileSessionStoreIndex := mkFileSessionStoreIndex INDEX_VERSION [].

Definition with_sessions (i : FileSessionStoreIndex) (s : btree IndexedSessionRecord)
    : FileSessionStoreIndex := mkFileSessionStoreIndex (ix_version i) s.

(* crates/store/src/file/index_sidecar.rs, push_unique_session_id *)
Definition push_unique_session_id (ids : list AgentSessionId) (id : AgentSessionId)
    : bool * list AgentSessionId :=
  if existsb (String.eqb id) ids then (false, ids) else (true, ids ++ [id]).

(* crates/store/src/file/index_sidecar.rs, append_search_text *)
Definition append_search_text (search_corpus value : string) : string :=
  let corpus := append_search_corpus_line search_corpus value in
  if (MAX_SEARCH_CORPUS_CHARS <? chars_count corpus)%nat
  then keep_recent_chars corpus MAX_SEARCH_CORPUS_CHARS else corpus.

(* crates/store/src/file/index_sidecar.rs, summarize_record_token_usage *)
Definition summarize_record_token_usage (by_agent_session : btree SessionSummaryTokenUsage)
    (latest_context_window : option ContextWindowUsage) : option SessionSummaryTokenUsage :=
  if is_nil by_agent_session then None
  else
    Some (mkSessionSummaryTokenUsage latest_context_window
            (foldl (fun u usage => accumulate u (sum_cumulative_usage usage)) TokenUsage_default
               by_agent_session.*2)).

(* crates/store/src/file/index_sidecar.rs, apply_event_to_record *)
Definition apply_event_to_record (record : IndexedSessionRecord) (event : SessionEventEnvelope)
    : IndexedSessionRecord :=
  let s := ir_summary record in
  let '(pushed, ids) := push_unique_session_id (ir_agent_session_ids record) (env_agent_session_id event) in
  let usage := match usage_of event with
               | Some ledger => bt_insert (env_agent_session_id event) (summary_usage_from ledger)
                                  (ir_agent_session_token_usage record)
               | None => ir_agent_session_token_usage record
               end in
  mkIndexedSessionRecord
    (mkSessionSummary (ss_session_id s)
       (N.min (ss_first_timestamp_ms s) (env_timestamp_ms event))
       (N.max (ss_last_timestamp_ms s) (env_timestamp_ms event))
       (S (ss_event_count s))
       (if pushed then length ids else ss_agent_session_count s)
       (match env_event event with
        | Ev_TranscriptMessage _ => S (ss_transcript_message_count s)
        | _ => ss_transcript_message_count s
        end)
       (match prompt_of event with Some p => Some p | None => ss_last_user_prompt s end)
       (match usage_of event with
        | Some ledger => summarize_record_token_usage usage (ledger_context_window ledger)
        | None => ss_token_usage s
        end))
    ids
    (match env_event event with
     | Ev_TranscriptMessage message => append_search_text (ir_search_corpus record) (message_search_text message)
     | Ev_TranscriptMessagePatched _ _ | Ev_TranscriptMessageRemoved _ => ir_search_corpus record
     | _ => foldl append_search_text (ir_search_corpus record) (searchable_session_event_strings event)
     end)
    usage.

(* crates/store/src/file/index_sidecar.rs, indexed_record_from_events *)
Definition indexed_record_from_events (events : list SessionEventEnvelope) : option IndexedSessionRecord :=
  first ← head events;
  summary ← summarize_session_events (env_session_id first) events;
  Some (mkIndexedSessionRecord summary
          (foldl (fun ids event => (push_unique_session_id ids (env_agent_session_id event)).2) [] events)
          (build_search_corpus events)
          (foldl (fun m event =>
             match usage_of event with
             | Some ledger => bt_insert (env_agent_session_id event) (summary_usage_from ledger) m
             | None => m
             end) [] events)).

(* crates/store/src/file.rs, default_indexed_record *)
Definition default_indexed_record (event : SessionEventEnvelope) : IndexedSessionRecord :=
  mkIndexedSessionRecord
    (mkSessionSummary (env_session_id event) (env_timestamp_ms event) (env_timestamp_ms event) 0 0 0 None None)
    [] "" [].

(* crates/store/src/file.rs, rebuild_index_record *)
Definition rebuild_index_record (event : SessionEventKind) : bool :=
  match event with
  | Ev_TranscriptMessagePatched _ _ | Ev_TranscriptMessageRemoved _
  | Ev_CompactionCompleted _ _ _ _ _ _ => true
  | _ => false
  end.

(* crates/store/src/file/index_sidecar.rs, record_matches_query *)
Definition record_matches_query (record : IndexedSessionRecord) (query_lower : string) : bool :=
  matches_query query_lower (ss_session_id (ir_summary record))
  || match ss_last_user_prompt (ir_summary record) with
     | Some prompt => matches_query query_lower prompt
     | None => false
     end
  || matches_query query_lower (ir_search_corpus record).

(** ** Retention *)

(** [max_age] in milliseconds. *)
(* crates/store/src/file.rs, SessionStoreRetentionPolicy *)
Record SessionStoreRetentionPolicy := mkRetention {
  ret_max_sessions : option nat;
  ret_max_age : option N
}.

Definition newest_first (left right : SessionId * N) : Prop :=
  then_with (N.compare right.2 left.2) (String.compare left.1 right.1) <> Gt.
#[global] Instance newest_first_dec left right : Decision (newest_first left right).
Proof. unfold newest_first. apply _. Defined.

(* crates/store/src/file/index_sidecar.rs, select_sessions_to_prune@if let Some(max_age) = ~~ if let Some(max_sessions) *)
Definition too_old (retention : SessionStoreRetentionPolicy) (now_ms : N) (record : IndexedSessionRecord) : bool :=
  match ret_max_age retention with
  | Some max_age_ms => (max_age_ms <? now_ms - ss_last_timestamp_ms (ir_summary record))%N
  | None => false
  end.

(** The ids in the order of the keys, then those over the count: the result is a set. *)
(* crates/store/src/file/index_sidecar.rs, select_sessions_to_prune *)
Definition select_sessions_to_prune (index : FileSessionStoreIndex) (retention : SessionStoreRetentionPolicy)
    (now_ms : N) : list SessionId :=
  let old := List.filter (fun p => too_old retention now_ms p.2) (ix_sessions index) in
  let remaining := List.filter (fun p => negb (too_old retention now_ms p.2)) (ix_sessions index) in
  old.*1
  ++ match ret_max_sessions retention with
     | Some max_sessions =>
         (drop max_sessions
            (merge_sort newest_first
               (map (fun p => (p.1, ss_last_timestamp_ms (ir_summary p.2))) remaining))).*1
     | None => []
     end.

End Index.

(** ** The file store *)

(** The directory of the store, by file name.  Every operation may fail. *)
Class SessionFiles := {
  SFiles : Type;
  sf_create_dir : SFiles -> result unit string * SFiles;
  sf_open_append : string -> SFiles -> result unit string * SFiles;
  sf_write : string -> string -> SFiles -> result unit string * SFiles;
  sf_flush : string -> SFiles -> result unit string * SFiles;
  sf_exists : string -> SFiles -> result bool string;
  sf_read : string -> SFiles -> result string string;
  sf_remove : string -> SFiles -> result unit string * SFiles;
  sf_write_file : string -> string -> SFiles -> result unit string * SFiles;
  sf_rename : string -> string -> SFiles -> result unit string * SFiles;
  (** the names of the regular files *)
  sf_list : SFiles -> result (list string) string
}.

(** [serde_json] on events and on the index. *)
Class StoreCodec `{SerdeJson} := {
  encode_event : SessionEventEnvelope -> result string string;
  decode_event : string -> result SessionEventEnvelope string;
  encode_index : FileSessionStoreIndex -> result string string;
  decode_index : string -> result FileSessionStoreIndex string
}.

Section FileStore.
Context {J : SerdeJson} {U : UnicodeCase} {F : SessionFiles} {C : StoreCodec}.
Context (as_array : Value -> option (list Value)).

Definition io {A} (r : result A string) : result A SessionStoreError :=
  match r with Ok a => Ok a | Err e => Err (StoreErr_Io e) end.
Definition io_at {A} (r : result A string * SFiles) : result A SessionStoreError * SFiles :=
  (io r.1, r.2).
Definition json {A} (r : result A string) : result A SessionStoreError :=
  match r with Ok a => Ok a | Err e => Err (StoreErr_Json e) end.

(** Steps on the directory, in order, up to the first error. *)
Definition and_then {A B} (m : result A SessionStoreError * SFiles)
    (k : A -> SFiles -> result B SessionStoreError * SFiles) : result B SessionStoreError * SFiles :=
  match m with (Ok a, d) => k a d | (Err e, d) => (Err e, d) end.

(* crates/store/src/file.rs, FileSessionStore *)
Record FileSessionStore := mkFileSessionStore {
  st_index : FileSessionStoreIndex;
  st_files : SFiles;
  st_retention : SessionStoreRetentionPolicy
}.

Definition INDEX_FILE_NAME : string := "sessions.index.json".

(* crates/store/src/file.rs, FileSessionStore::session_path *)
Definition session_path (session_id : SessionId) : string := session_id +:+ ".jsonl".

(* crates/store/src/file/index_sidecar.rs, load_events_from_path *)
Definition load_events_from_path (path : string) (d : SFiles)
    : result (list SessionEventEnvelope) SessionStoreError :=
  text <-? io (sf_read path d);
  map_result (fun line => json (decode_event line))
    (List.filter (fun line => negb (str_is_empty (trim line))) (str_lines text)).

(* crates/store/src/file/index_sidecar.rs, persist_index_file *)
Definition persist_index_file (index : FileSessionStoreIndex) (d : SFiles)
    : result unit SessionStoreError * SFiles :=
  let temp := INDEX_FILE_NAME +:+ ".tmp" in
  match encode_index index with
  | Err e => (Err (StoreErr_Json e), d)
  | Ok encoded =>
      and_then (io_at (sf_write_file temp encoded d)) (fun _ d => io_at (sf_rename temp INDEX_FILE_NAME d))
  end.

(* crates/store/src/file/index_sidecar.rs, delete_session_file *)
Definition delete_session_file (session_id : SessionId) (d : SFiles)
    : result unit SessionStoreError * SFiles :=
  match sf_exists (session_path session_id) d with
  | Err e => (Err (StoreErr_Io e), d)
  | Ok false => (Ok tt, d)
  | Ok true => io_at (sf_remove (session_path session_id) d)
  end.

Fixpoint delete_session_files (ids : list SessionId) (d : SFiles) : result unit SessionStoreError * SFiles :=
  match ids with
  | [] => (Ok tt, d)
  | id :: rest => and_then (delete_session_file id d) (fun _ d => delete_session_files rest d)
  end.

(** Writing a batch; [active] is the session whose file is open. *)
(* crates/store/src/file.rs, FileSessionStore::append_locked_events@for event in events ~~ let mut rebuilt_records *)
Fixpoint write_events (active : option SessionId) (events : list SessionEventEnvelope) (d : SFiles)
    : result unit SessionStoreError * SFiles :=
  let flush d := match active with
                 | Some id => io_at (sf_flush (session_path id) d)
                 | None => (Ok tt, d)
                 end in
  match events with
  | [] => flush d
  | event :: rest =>
      let id := env_session_id event in
      let opened :=
        if bool_decide (active = Some id) then (Ok tt, d)
        else and_then (flush d) (fun _ d =>
             and_then (io_at (sf_create_dir d)) (fun _ d => io_at (sf_open_append (session_path id) d))) in
      and_then opened (fun _ d =>
        match encode_event event with
        | Err e => (Err (StoreErr_Json e), d)
        | Ok encoded =>
            and_then (io_at (sf_write (session_path id) encoded d)) (fun _ d =>
            and_then (io_at (sf_write (session_path id) nl d)) (fun _ d =>
              write_events (Some id) rest d))
        end)
  end.

(** The sessions with an event that needs the whole log, and the last such event. *)
(* crates/store/src/file.rs, FileSessionStore::append_locked_events@if rebuild_index_record ~~ if let Some(mut file) = active_file.take() *)
Definition rebuild_fallbacks (events : list SessionEventEnvelope) : btree SessionEventEnvelope :=
  foldl (fun m event => if rebuild_index_record (env_event event)
                        then bt_insert (env_session_id event) event m else m) [] events.

(* crates/store/src/file.rs, FileSessionStore::append_locked_events@let mut rebuilt_records ~~ let pruned *)
Definition rebuild_record (d : SFiles) (p : SessionId * SessionEventEnvelope)
    : result (SessionId * IndexedSessionRecord) SessionStoreError :=
  events <-? load_events_from_path (session_path p.1) d;
  Ok (p.1, default (default_indexed_record p.2) (indexed_record_from_events events)).

(* crates/store/src/file.rs, FileSessionStore::append_locked_events@let record = index ~~ for (session_id, record) in rebuilt_records *)
Definition index_event (sessions : btree IndexedSessionRecord) (event : SessionEventEnvelope)
    : btree IndexedSessionRecord :=
  bt_insert (env_session_id event)
    (apply_event_to_record (default (default_indexed_record event) (bt_get (env_session_id event) sessions))
       event) sessions.

(* crates/store/src/file.rs, FileSessionStore::append_locked_events@let pruned = { ~~ for session_id in &pruned *)
Definition update_index (sessions : btree IndexedSessionRecord) (events : list SessionEventEnvelope)
    (rebuilt : list (SessionId * IndexedSessionRecord)) : btree IndexedSessionRecord :=
  foldl (fun m p => bt_insert p.1 p.2 m)
    (foldl index_event sessions
       (List.filter (fun event => negb (bool_decide (env_session_id event ∈ rebuilt.*1))) events))
    rebuilt.

Definition forget_sessions (sessions : btree IndexedSessionRecord) (ids : list SessionId)
    : btree IndexedSessionRecord := foldl (fun m id => bt_remove id m) sessions ids.

(** The index in memory changes before the files of pruned sessions are deleted. *)
(* crates/store/src/file.rs, FileSessionStore::append_locked_events *)
Definition append_locked_events (st : FileSessionStore) (events : list SessionEventEnvelope) (now_ms : N)
    : result unit SessionStoreError * FileSessionStore :=
  let with_files index d := mkFileSessionStore index d (st_retention st) in
  if is_nil events then (Ok tt, st)
  else
    match write_events None events (st_files st) with
    | (Err e, d) => (Err e, with_files (st_index st) d)
    | (Ok _, d) =>
        match map_result (rebuild_record d) (rebuild_fallbacks events) with
        | Err e => (Err e, with_files (st_index st) d)
        | Ok rebuilt =>
            let index := with_sessions (st_index st) (update_index (ix_sessions (st_index st)) events rebuilt) in
            let pruned := select_sessions_to_prune index (st_retention st) now_ms in
            match delete_session_files pruned d with
            | (Err e, d) => (Err e, with_files index d)
            | (Ok _, d) =>
                let index := with_sessions index (forget_sessions (ix_sessions index) pruned) in
                let '(r, d) := persist_index_file index d in
                (r, with_files index d)
            end
        end
    end.

(* crates/store/src/file.rs, FileSessionStore::append *)
Definition file_append (st : FileSessionStore) (event : SessionEventEnvelope) (now_ms : N)
    : result unit SessionStoreError * FileSessionStore := append_locked_events st [event] now_ms.

(* crates/store/src/file.rs, FileSessionStore::append_batch *)
Definition file_append_batch (st : FileSessionStore) (events : list SessionEventEnvelope) (now_ms : N)
    : result unit SessionStoreError * FileSessionStore := append_locked_events st events now_ms.

(** *** Opening *)

(** [Path::file_stem] of a name with the extension [jsonl]. *)
Definition session_of_file (name : string) : option SessionId :=
  match strip_suffix ".jsonl" name with
  | Some stem => if str_is_empty stem then None else Some stem
  | None => None
  end.

(* crates/store/src/file/index_sidecar.rs, list_session_file_ids *)
Definition list_session_file_ids (d : SFiles) : result (gset SessionId) SessionStoreError :=
  names <-? io (sf_list d);
  Ok (list_to_set (omap session_of_file (List.filter (fun n => negb (String.eqb n INDEX_FILE_NAME)) names))).

Definition sorted_ids (ids : gset SessionId) : list SessionId := merge_sort String.le (elements ids).

(* crates/store/src/file/index_sidecar.rs, rebuild_index@for session_id in session_files *)
Fixpoint rebuild_sessions (ids : list SessionId) (d : SFiles) (sessions : btree IndexedSessionRecord)
    : result (btree IndexedSessionRecord) SessionStoreError :=
  match ids with
  | [] => Ok sessions
  | id :: rest =>
      events <-? load_events_from_path (session_path id) d;
      rebuild_sessions rest d
        (match indexed_record_from_events events with
         | Some record => bt_insert id record sessions
         | None => sessions
         end)
  end.

(* crates/store/src/file/index_sidecar.rs, rebuild_index *)
Definition rebuild_index (ids : gset SessionId) (d : SFiles) : result FileSessionStoreIndex SessionStoreError :=
  sessions <-? rebuild_sessions (sorted_ids ids) d []; Ok (with_sessions index_default sessions).

(* crates/store/src/file/index_sidecar.rs, load_or_rebuild_index *)
Definition load_or_rebuild_index (d : SFiles) : result FileSessionStoreIndex SessionStoreError :=
  session_files <-? list_session_file_ids d;
  there <-? io (sf_exists INDEX_FILE_NAME d);
  let rebuild := rebuild_index session_files d in
  if there : bool then
    contents <-? io (sf_read INDEX_FILE_NAME d);
    match decode_index contents with
    | Ok index =>
        if (ix_version index =? INDEX_VERSION)%N
           && bool_decide (list_to_set (ix_sessions index).*1 = session_files)
        then Ok index else rebuild
    | Err _ => rebuild
    end
  else rebuild.

(* crates/store/src/file.rs, FileSessionStore::open_with_options *)
Definition open_with_options (retention : SessionStoreRetentionPolicy) (now_ms : N) (d : SFiles)
    : result FileSessionStore SessionStoreError * SFiles :=
  and_then (io_at (sf_create_dir d)) (fun _ d =>
    match load_or_rebuild_index d with
    | Err e => (Err e, d)
    | Ok index =>
        let pruned := select_sessions_to_prune index retention now_ms in
        and_then (delete_session_files pruned d) (fun _ d =>
          let index := with_sessions index (forget_sessions (ix_sessions index) pruned) in
          and_then (persist_index_file index d) (fun _ d => (Ok (mkFileSessionStore index d retention), d)))
    end).

(** *** Reading *)

(* crates/store/src/file.rs, FileSessionStore::events *)
Definition file_events (st : FileSessionStore) (session_id : SessionId)
    : result (list SessionEventEnvelope) SessionStoreError :=
  there <-? io (sf_exists (session_path session_id) (st_files st));
  if there : bool then load_events_from_path (session_path session_id) (st_files st)
  else Err (StoreErr_SessionNotFound session_id).

(* crates/store/src/file.rs, FileSessionStore::list_sessions *)
Definition file_list_sessions (st : FileSessionStore) : list SessionSummary :=
  sort_session_summaries (map ir_summary (ix_sessions (st_index st)).*2).

(** The order in which the replays finish does not matter: the results are sorted. *)
(* crates/store/src/file.rs, FileSessionStore::search_sessions *)
Definition file_search_sessions (st : FileSessionStore) (query : string)
    : result (list SessionSearchResult) SessionStoreError :=
  let query := trim query in
  if str_is_empty query then
    Ok (map (fun summary => mkSessionSearchResult summary 0 []) (file_list_sessions st))
  else
    let candidates := map ir_summary
      (List.filter (fun record => record_matches_query record (to_lowercase query))
         (ix_sessions (st_index st)).*2) in
    found <-? map_result (fun summary =>
        events <-? file_events st (ss_session_id summary);
        Ok (search_session_events_ranked summary events query)) candidates;
    Ok (map rk_result (sort_ranked_session_search_results (omap id found))).

(* crates/store/src/file.rs, FileSessionStore::agent_session_ids *)
Definition file_agent_session_ids (st : FileSessionStore) (session_id : SessionId)
    : result (list AgentSessionId) SessionStoreError :=
  match bt_get session_id (ix_sessions (st_index st)) with
  | Some record => Ok (ir_agent_session_ids record)
  | None => events <-? file_events st session_id; Ok (distinct_agent_sessions events)
  end.

(* crates/store/src/file.rs, FileSessionStore::replay_transcript *)
Definition file_replay_transcript (st : FileSessionStore) (session_id : SessionId)
    : result (list Message) SessionStoreError :=
  events <-? file_events st session_id; Ok (replay_transcript events).

Fixpoint export_sessions (st : FileSessionStore) (ids : list SessionId) (bundle : SessionMemoryExportBundle)
    : result SessionMemoryExportBundle SessionStoreError :=
  match ids with
  | [] => Ok bundle
  | id :: rest =>
      events <-? file_events st id; export_sessions st rest (export_session as_array bundle id events)
  end.

(** The keys of the index are in order. *)
(* crates/store/src/file.rs, FileSessionStore::export_for_memory *)
Definition file_export_for_memory (st : FileSessionStore) (request : SessionMemoryExportRequest)
    : result SessionMemoryExportBundle SessionStoreError :=
  bundle <-? export_sessions st (ix_sessions (st_index st)).*1 (mkBundle [] [] [] []);
  Ok (finish_export bundle request).

End FileStore.
