(* ===== verification/StoreProps.v ===== *)
(** * Session stores: properties

    The summary that the index of the file store keeps up to date event by event is the
    summary of the whole log, and the file store refines the memory store: after a
    successful append every session holds the same events, up to retention. *)

From Stdlib Require Import Ascii String.
From stdpp Require Import base list gmap sets sorting strings.
From Stdlib Require Import Lia.
From S2P Require Import Prelude Text BTree Message Events Errors Replay StoreSearch StoreExport SessionStores.

(** ** The visible transcript of a growing log *)

Section Visible.
Context {J : SerdeJson}.

Definition checkpoint_ids (events : list SessionEventEnvelope) : list MessageId :=
  omap (fun e => compaction_of e ≫= fst) events.

(** An event that leaves the transcript alone. *)
Definition plain_event (e : SessionEventEnvelope) : bool :=
  match env_event e with
  | Ev_TranscriptMessage _ => false
  | kind => negb (rebuild_index_record kind)
  end.

Lemma replay_snoc_plain events e :
  plain_event e = true -> replay_transcript (events ++ [e]) = replay_transcript events.
Proof.
  intros He. unfold replay_transcript. rewrite foldl_app. simpl.
  destruct (foldl replay_step _ events) as [t ix]. unfold replay_step, plain_event in *.
  by destruct (env_event e).
Qed.

Lemma replay_snoc_message events e m :
  env_event e = Ev_TranscriptMessage m -> replay_transcript (events ++ [e]) = replay_transcript events ++ [m].
Proof.
  intros He. unfold replay_transcript. rewrite foldl_app. simpl.
  destruct (foldl replay_step _ events) as [t ix]. unfold replay_step. rewrite He. simpl.
  by rewrite omap_app.
Qed.

Lemma compaction_of_kept e : rebuild_index_record (env_event e) = false -> compaction_of e = None.
Proof. unfold compaction_of. by destruct (env_event e). Qed.

Lemma checkpoint_snoc events e :
  rebuild_index_record (env_event e) = false ->
  latest_compaction_checkpoint (events ++ [e]) = latest_compaction_checkpoint events.
Proof.
  intros He. unfold latest_compaction_checkpoint. rewrite rev_app_distr. simpl.
  by rewrite compaction_of_kept.
Qed.

Lemma checkpoint_mentioned events s tail :
  latest_compaction_checkpoint events = Some (s, tail) -> s ∈ checkpoint_ids events.
Proof.
  unfold latest_compaction_checkpoint. destruct (find_map compaction_of (rev events)) as [[[x|] l]|] eqn:E; [|done|done].
  intros [= -> ->]. apply find_map_Some in E as (pre & e & post & Hrev & He & _).
  apply list_elem_of_omap. exists e. rewrite He. split; [|done].
  apply list_elem_of_In, in_rev. rewrite Hrev. apply in_elt.
Qed.

(** Only appended messages are in the transcript. *)
Lemma replay_ids events :
  (forall k, k ∈ (msg_id <$> replay_transcript events) -> k ∈ appended_ids events)
  /\ (forall k i, (foldl replay_step ([], ∅) events).2 !! k = Some i -> k ∈ appended_ids events).
Proof.
  unfold replay_transcript. induction events as [|e events [IH1 IH2]] using rev_ind.
  { split; [intros k Hk; by inversion Hk | done]. }
  rewrite foldl_app, appended_ids_app. destruct (foldl replay_step _ events) as [t ix].
  simpl in *. setoid_rewrite elem_of_app. unfold replay_step, appended_ids, appended_id. simpl.
  destruct (env_event e); try (split; intros; left; by eauto); simpl.
  - split; intros k.
    + rewrite omap_app, fmap_app, elem_of_app. simpl. rewrite list_elem_of_singleton. naive_solver set_solver.
    + intros i [[<- _]|[_ Hk]]%lookup_insert_Some; [right; set_solver | left; eauto].
  - destruct (ix !! message_id) as [i|] eqn:Ei; [|split; intros; left; by eauto].
    split; [|intros k j Hk; left; eauto]. intros k (m & -> & Hm)%list_elem_of_fmap. left.
    apply elem_of_omap_id in Hm as [j Hj]. apply list_lookup_insert_Some in Hj as [(-> & Hm & _)|[_ Hj]].
    + injection Hm as <-. eauto.
    + apply IH1. apply list_elem_of_fmap. exists m. split; [done|]. apply elem_of_omap_id. eauto.
  - destruct (ix !! message_id) as [i|] eqn:Ei; [|split; intros; left; by eauto].
    split; [|intros k j Hk; simpl in Hk; apply lookup_delete_Some in Hk as [_ Hk]; left; eauto].
    intros k (m & -> & Hm)%list_elem_of_fmap. left.
    apply elem_of_omap_id in Hm as [j Hj]. apply list_lookup_insert_Some in Hj as [(-> & Hm & _)|[_ Hj]]; [done|].
    apply IH1. apply list_elem_of_fmap. exists m. split; [done|]. apply elem_of_omap_id. eauto.
Qed.

Lemma message_index_ids t k i : message_index t !! k = Some i -> (i < length t)%nat /\ k ∈ (msg_id <$> t).
Proof.
  intros (m & Hm & <-)%message_index_sound. split; [by eapply lookup_lt_Some|].
  apply list_elem_of_fmap. exists m. split; [done | by eapply list_elem_of_lookup_2].
Qed.

Lemma omap_cons_app {A B} (f : A -> option B) x l : omap f (x :: l) = option_list (f x) ++ omap f l.
Proof. simpl. by destruct (f x). Qed.

Lemma retained_snoc t m tail si :
  msg_id m ∉ (msg_id <$> t) -> (si <= length t)%nat ->
  retained_positions (t ++ [m]) tail si = retained_positions t tail si.
Proof.
  intros Hm Hsi. unfold retained_positions. rewrite message_index_snoc.
  induction tail as [|k tail IH]; [done|]. rewrite !omap_cons_app, !filter_app, IH. f_equal.
  destruct (decide (k = msg_id m)) as [->|Hk]; [|by rewrite lookup_insert_ne].
  rewrite lookup_insert_eq. destruct (message_index t !! msg_id m) eqn:E.
  - by apply message_index_ids in E as [_ ?].
  - simpl. by rewrite filter_cons_False by lia.
Qed.

Lemma starts_round_snoc t m i : (i < length t)%nat ->
  starts_request_round (t ++ [m]) i = starts_request_round t i.
Proof.
  intros Hi. unfold starts_request_round. rewrite lookup_app_l by done. destruct (t !! i); [|done].
  destruct (msg_role _), i; try done; by rewrite lookup_app_l by lia.
Qed.

Lemma rewind_snoc t m i : (i < length t)%nat -> rewind_to_round (t ++ [m]) i = rewind_to_round t i.
Proof.
  induction i as [|i IH]; intros Hi; [done|]. cbn [rewind_to_round]. rewrite starts_round_snoc by done.
  by rewrite IH by lia.
Qed.

Lemma upgrade_snoc t m l si :
  Forall (fun i => i < si)%nat l -> (si < length t)%nat ->
  upgrade_retained_tail_indices_for_request_rounds (t ++ [m]) l si
  = upgrade_retained_tail_indices_for_request_rounds t l si.
Proof.
  intros Hl Hsi. destruct Hl as [|f l Hf Hl]; [done|]. rewrite !upgrade_cons by done. by rewrite rewind_snoc by lia.
Qed.

Lemma messages_at_snoc t m l :
  Forall (fun i => i < length t)%nat l -> messages_at (t ++ [m]) l = messages_at t l.
Proof.
  induction 1 as [|i l Hi _ IH]; [done|]. unfold messages_at in *.
  rewrite !omap_cons_app, IH. by rewrite lookup_app_l.
Qed.

(** A message with a new id extends what is visible. *)
Lemma visible_snoc_message events e m :
  env_event e = Ev_TranscriptMessage m ->
  msg_id m ∉ appended_ids events -> msg_id m ∉ checkpoint_ids events ->
  visible_agent_session_transcript (events ++ [e]) = visible_agent_session_transcript events ++ [m].
Proof.
  intros He Ha Hc. pose proof (replay_snoc_message events e m He) as Hr.
  assert (Hl : latest_compaction_checkpoint (events ++ [e]) = latest_compaction_checkpoint events)
    by (apply checkpoint_snoc; by rewrite He).
  destruct (latest_compaction_checkpoint events) as [[s tail]|] eqn:El.
  2:{ unfold visible_agent_session_transcript. by rewrite Hl, El, Hr. }
  assert (Hs : s <> msg_id m) by (intros ->; apply Hc; by eapply checkpoint_mentioned).
  assert (Hm : msg_id m ∉ (msg_id <$> replay_transcript events)) by (intros Hin; by apply Ha, replay_ids).
  destruct (message_index (replay_transcript events) !! s) as [si|] eqn:Ei.
  - pose proof (message_index_ids _ _ _ Ei) as [Hlt _].
    pose proof (retained_positions_bound (replay_transcript events) tail si) as Hb.
    assert (Ei' : message_index (replay_transcript (events ++ [e])) !! s = Some si)
      by (by rewrite Hr, message_index_snoc, lookup_insert_ne).
    rewrite (visible_checkpoint _ _ _ _ Hl Ei').
    rewrite (visible_checkpoint _ _ _ _ El Ei), Hr, retained_snoc, upgrade_snoc by (done || lia).
    rewrite drop_app_le, <- app_assoc by lia. f_equal. apply messages_at_snoc.
    constructor; [lia|]. eapply Forall_impl; [by apply upgrade_bound|]. simpl. lia.
  - unfold visible_agent_session_transcript. rewrite Hl, El, Hr, message_index_snoc, lookup_insert_ne by done.
    by rewrite Ei.
Qed.

Lemma visible_snoc_plain events e :
  plain_event e = true ->
  visible_agent_session_transcript (events ++ [e]) = visible_agent_session_transcript events.
Proof.
  intros He. unfold visible_agent_session_transcript. rewrite checkpoint_snoc.
  - by rewrite replay_snoc_plain.
  - unfold plain_event in He. by destruct (env_event e).
Qed.

End Visible.

Section VisibleCount.
Context {J : SerdeJson}.

Notation of_agent a events := (base.filter (fun e => env_agent_session_id e = a) events).

Lemma distinct_snoc events e :
  distinct_agent_sessions (events ++ [e])
  = if bool_decide (env_agent_session_id e ∈ distinct_agent_sessions events)
    then distinct_agent_sessions events else distinct_agent_sessions events ++ [env_agent_session_id e].
Proof. unfold distinct_agent_sessions. by rewrite foldl_app. Qed.

Lemma distinct_spec events :
  NoDup (distinct_agent_sessions events)
  /\ forall a, a ∈ distinct_agent_sessions events <-> a ∈ (env_agent_session_id <$> events).
Proof.
  induction events as [|e events [IH1 IH2]] using rev_ind; [by split; [constructor|]|].
  rewrite distinct_snoc. case_bool_decide as Hin.
  - split; [done|]. intros a. rewrite fmap_app, elem_of_app, IH2. simpl.
    rewrite list_elem_of_singleton. rewrite IH2 in Hin. naive_solver.
  - split.
    + apply NoDup_app. split; [done|]. split; [|apply NoDup_singleton].
      intros a Ha ->%list_elem_of_singleton. done.
    + intros a. rewrite fmap_app, !elem_of_app, IH2. simpl. by rewrite !list_elem_of_singleton.
Qed.

Lemma of_agent_all (events : list SessionEventEnvelope) a : (forall e, e ∈ events -> env_agent_session_id e = a) -> of_agent a events = events.
Proof.
  intros H. induction events as [|e events IH]; [done|]. rewrite filter_cons_True by (apply H; by left).
  f_equal. apply IH. intros x Hx. apply H. by right.
Qed.

Lemma of_agent_none (events : list SessionEventEnvelope) a : a ∉ (env_agent_session_id <$> events) -> of_agent a events = [].
Proof.
  intros H. apply elem_of_nil_inv. intros e [He Hin]%list_elem_of_filter. apply H.
  rewrite <- He. by apply list_elem_of_fmap_2.
Qed.

(** Per agent session, also when there is only one. *)
Lemma visible_transcript_eq events :
  visible_transcript events
  = distinct_agent_sessions events ≫= fun a => visible_agent_session_transcript (of_agent a events).
Proof.
  unfold visible_transcript. destruct (Nat.leb_spec (length (distinct_agent_sessions events)) 1); [|done].
  destruct (distinct_spec events) as [_ Hd].
  destruct (distinct_agent_sessions events) as [|a [|b l]] eqn:E; simpl in *; [| |lia].
  - destruct events as [|e events]; [done|]. exfalso. assert (Hx : env_agent_session_id e ∈ (@nil string)); [|by inversion Hx].
    apply Hd. by left.
  - rewrite app_nil_r. rewrite of_agent_all; [done|]. intros e He. apply list_elem_of_singleton, Hd.
    by apply list_elem_of_fmap_2.
Qed.

Lemma bind_length_update {A B} `{EqDecision A} (f g : A -> list B) a d l :
  (forall x, x <> a -> g x = f x) -> length (g a) = (length (f a) + d)%nat -> NoDup l -> a ∈ l ->
  length (l ≫= g) = (length (l ≫= f) + d)%nat.
Proof.
  intros Hne Ha. induction l as [|x l IH]; [intros _ H; by inversion H|].
  intros [Hx Hnd]%NoDup_cons Hin. rewrite !bind_cons, !length_app.
  destruct (decide (x = a)) as [->|Hxa].
  - rewrite Ha. assert (Heq : l ≫= g = l ≫= f); [|rewrite Heq; lia].
    clear -Hne Hx. induction l as [|y l IH]; [done|]. rewrite !bind_cons, Hne, IH by set_solver. done.
  - apply elem_of_cons in Hin as [->|Hin]; [done|]. rewrite Hne, IH by done. lia.
Qed.

Lemma of_agent_snoc (events : list SessionEventEnvelope) e a :
  of_agent a (events ++ [e]) = of_agent a events ++ (if decide (env_agent_session_id e = a) then [e] else []).
Proof.
  by rewrite filter_app.
Qed.

(** How many messages an event adds to what is visible. *)
Definition adds_message (e : SessionEventEnvelope) : nat :=
  match env_event e with Ev_TranscriptMessage _ => 1 | _ => 0 end.

Definition fresh_message (events : list SessionEventEnvelope) (e : SessionEventEnvelope) : Prop :=
  forall m, env_event e = Ev_TranscriptMessage m ->
    msg_id m ∉ appended_ids events /\ msg_id m ∉ checkpoint_ids events.

Lemma fresh_of_agent events e a : fresh_message events e -> fresh_message (of_agent a events) e.
Proof.
  intros Hf m Hm. destruct (Hf m Hm) as [Ha Hc].
  split; [intros Hin; apply Ha | intros Hin; apply Hc]; unfold appended_ids, checkpoint_ids in *;
    rewrite list_elem_of_omap in *; destruct Hin as (x & [_ Hx]%list_elem_of_filter & Hy); eauto.
Qed.

Lemma visible_agent_count events e :
  rebuild_index_record (env_event e) = false -> fresh_message events e ->
  length (visible_agent_session_transcript (events ++ [e]))
  = (length (visible_agent_session_transcript events) + adds_message e)%nat.
Proof.
  intros He Hf. unfold adds_message. destruct (env_event e) eqn:E;
    try (rewrite visible_snoc_plain by (unfold plain_event; by rewrite E); lia); try done.
  destruct (Hf _ E) as [Ha Hc]. rewrite (visible_snoc_message _ _ message) by done.
  by rewrite length_app.
Qed.

Lemma visible_count_snoc events e :
  rebuild_index_record (env_event e) = false -> fresh_message events e ->
  length (visible_transcript (events ++ [e])) = (length (visible_transcript events) + adds_message e)%nat.
Proof.
  intros He Hf. rewrite !visible_transcript_eq, distinct_snoc. set (a := env_agent_session_id e).
  destruct (distinct_spec events) as [Hnd Hd].
  assert (Hsame : forall x, x <> a ->
    visible_agent_session_transcript (of_agent x (events ++ [e])) = visible_agent_session_transcript (of_agent x events)).
  { intros x Hx. rewrite of_agent_snoc, decide_False by done. by rewrite app_nil_r. }
  assert (Hone : length (visible_agent_session_transcript (of_agent a (events ++ [e])))
    = (length (visible_agent_session_transcript (of_agent a events)) + adds_message e)%nat).
  { rewrite of_agent_snoc, decide_True by done. by apply visible_agent_count; [|apply fresh_of_agent]. }
  case_bool_decide as Hin; [by apply (bind_length_update _ _ a)|].
  rewrite bind_app, length_app. f_equal.
  - f_equal. clear -Hsame Hin. induction (distinct_agent_sessions events) as [|x l IH]; [done|].
    rewrite !bind_cons, IH, Hsame by set_solver. done.
  - rewrite bind_cons, app_nil_r, Hone, of_agent_none; [done|]. by rewrite <- Hd.
Qed.

End VisibleCount.

(** ** The index, event by event *)

Section IndexExact.
Context {J : SerdeJson}.

(** Everything but the search corpus, which the index shortens. *)
Definition same_record (r r' : IndexedSessionRecord) : Prop :=
  ir_summary r = ir_summary r' /\ ir_agent_session_ids r = ir_agent_session_ids r'
  /\ ir_agent_session_token_usage r = ir_agent_session_token_usage r'.

Lemma existsb_elem x l : existsb (String.eqb x) l = bool_decide (x ∈ l).
Proof.
  apply eq_true_iff_eq. rewrite existsb_exists, bool_decide_eq_true. split.
  - intros (y & Hy%list_elem_of_In & ->%String.eqb_eq). done.
  - intros Hx. exists x. rewrite String.eqb_refl. split; [by apply list_elem_of_In | done].
Qed.

Lemma push_all_distinct events :
  foldl (fun ids e => (push_unique_session_id ids (env_agent_session_id e)).2) [] events
  = distinct_agent_sessions events.
Proof.
  induction events as [|e events IH] using rev_ind; [done|]. rewrite foldl_app, distinct_snoc. simpl.
  rewrite IH. unfold push_unique_session_id. rewrite existsb_elem. by case_bool_decide.
Qed.

Lemma agent_session_count events :
  size (list_to_set (env_agent_session_id <$> events) : gset string) = length (distinct_agent_sessions events).
Proof.
  destruct (distinct_spec events) as [Hnd Hd]. rewrite <- (size_list_to_set (C := gset string)) by done.
  f_equal. apply set_eq. intros a. by rewrite !elem_of_list_to_set, Hd.
Qed.

Definition bt_map {V W} (f : V -> W) (m : btree V) : btree W := map (fun p => (p.1, f p.2)) m.

Lemma bt_map_insert {V W} (f : V -> W) k v (m : btree V) :
  bt_map f (bt_insert k v m) = bt_insert k (f v) (bt_map f m).
Proof.
  unfold bt_insert. assert (Hg : bt_get k (bt_map f m) = f <$> bt_get k m).
  { induction m as [|[x w] m IH]; [done|]. simpl. by destruct (String.eqb k x). }
  rewrite Hg. destruct (bt_get k m); simpl.
  - clear Hg. induction m as [|[x w] m IH]; [done|]. simpl. destruct (String.eqb k x); [done|]. simpl. by rewrite IH.
  - clear Hg. induction m as [|[x w] m IH]; [done|]. simpl. destruct (String.ltb k x); [done|]. simpl. by rewrite IH.
Qed.

Lemma bt_insert_ne {V} k v (m : btree V) : bt_insert k v m <> [].
Proof.
  intros E. assert (H : bt_get k (bt_insert k v m) = Some v) by (by rewrite bt_get_insert, String.eqb_refl).
  by rewrite E in H.
Qed.

(** The usage kept in a record. *)
Definition record_usage (events : list SessionEventEnvelope) : btree SessionSummaryTokenUsage :=
  foldl (fun m event =>
    match usage_of event with
    | Some ledger => bt_insert (env_agent_session_id event) (summary_usage_from ledger) m
    | None => m
    end) [] events.

Lemma record_usage_eq events : record_usage events = bt_map summary_usage_from (latest_by_agent_session events).
Proof.
  unfold record_usage, latest_by_agent_session.
  induction events as [|e events IH] using rev_ind; [done|]. rewrite !foldl_app. simpl. rewrite IH.
  destruct (usage_of e); [by rewrite bt_map_insert | done].
Qed.

Lemma aggregate_eq m :
  foldl (fun u usage => accumulate u (sum_cumulative_usage usage)) TokenUsage_default
    (bt_map summary_usage_from m).*2
  = aggregate_token_usage m.*2.
Proof.
  unfold aggregate_token_usage. generalize TokenUsage_default.
  induction m as [|[k l] m IH]; intros u; [done | apply IH].
Qed.

Lemma latest_usage_snoc events e :
  latest_token_usage_snapshot (events ++ [e])
  = match usage_of e with Some l => Some l | None => latest_token_usage_snapshot events end.
Proof. unfold latest_token_usage_snapshot. by rewrite rev_app_distr. Qed.

(** The summary of the usage, as the record computes it. *)
Lemma session_usage_snoc events e :
  summary_usage_from <$> session_token_usage_snapshot (events ++ [e])
  = match usage_of e with
    | Some ledger => summarize_record_token_usage (record_usage (events ++ [e])) (ledger_context_window ledger)
    | None => summary_usage_from <$> session_token_usage_snapshot events
    end.
Proof.
  unfold session_token_usage_snapshot. rewrite latest_usage_snoc. destruct (usage_of e) as [ledger|] eqn:E.
  - simpl. unfold summarize_record_token_usage. rewrite record_usage_eq.
    destruct (bt_map _ _) as [|p l] eqn:El.
    + exfalso. rewrite <- record_usage_eq in El. unfold record_usage in El. rewrite foldl_app in El.
      simpl in El. rewrite E in El. by apply bt_insert_ne in El.
    + cbn [is_nil]. rewrite <- El, aggregate_eq. done.
  - unfold latest_by_agent_session. rewrite foldl_app. simpl. by rewrite E.
Qed.

Lemma indexed_record_eq events r :
  indexed_record_from_events events = Some r <->
  exists first rest, events = first :: rest
    /\ r = mkIndexedSessionRecord
             (mkSessionSummary (env_session_id first) (first_timestamp events) (last_timestamp events)
                (length events) (length (distinct_agent_sessions events)) (length (visible_transcript events))
                (last_user_prompt events) (summary_usage_from <$> session_token_usage_snapshot events))
             (distinct_agent_sessions events) (build_search_corpus events) (record_usage events).
Proof.
  unfold indexed_record_from_events, summarize_session_events. destruct events as [|first rest].
  - simpl. split; [done|]. by intros (? & ? & ? & _).
  - rewrite push_all_distinct, agent_session_count. simpl. split.
    + intros [= <-]. by eexists _, _.
    + intros (? & ? & [= <- <-] & ->). done.
Qed.

(** One more event. *)
Lemma apply_event_exact events e r r0 :
  indexed_record_from_events events = Some r0 -> same_record r r0 ->
  rebuild_index_record (env_event e) = false -> fresh_message events e ->
  exists r1, indexed_record_from_events (events ++ [e]) = Some r1
    /\ same_record (apply_event_to_record r e) r1.
Proof.
  intros (first & rest & Hev & ->)%indexed_record_eq (Hs & Hi & Hu) He Hf. simpl in Hs, Hi, Hu.
  eexists. split; [apply indexed_record_eq; exists first, (rest ++ [e]); split; [by rewrite Hev | reflexivity]|].
  unfold apply_event_to_record, push_unique_session_id. rewrite Hi, Hs, Hu, existsb_elem.
  pose proof (visible_count_snoc events e He Hf) as Hv. pose proof (session_usage_snoc events e) as Hsu.
  assert (Hru : record_usage (events ++ [e]) = match usage_of e with
    | Some ledger => bt_insert (env_agent_session_id e) (summary_usage_from ledger) (record_usage events)
    | None => record_usage events end) by (unfold record_usage; by rewrite foldl_app).
  rewrite Hsu, distinct_snoc, Hv. unfold same_record.
  destruct (bool_decide (env_agent_session_id e ∈ distinct_agent_sessions events)); cbn [ir_summary
    ir_agent_session_ids ir_agent_session_token_usage ss_session_id ss_first_timestamp_ms ss_last_timestamp_ms
    ss_event_count ss_agent_session_count ss_transcript_message_count ss_last_user_prompt ss_token_usage];
  (split; [|split; [done | by rewrite Hru]]); rewrite Hru;
  unfold first_timestamp, last_timestamp, last_user_prompt, adds_message; rewrite !foldl_app, length_app;
  simpl; f_equal; rewrite ?length_app; try lia; destruct (env_event e); simpl; lia.
Qed.

(** The first event. *)
Lemma first_event_exact e :
  rebuild_index_record (env_event e) = false -> (env_timestamp_ms e <= u128_max)%N ->
  exists r1, indexed_record_from_events [e] = Some r1
    /\ same_record (apply_event_to_record (default_indexed_record e) e) r1.
Proof.
  intros He Ht. eexists. split; [apply indexed_record_eq; by exists e, []|].
  assert (Hf : fresh_message [] e) by (intros m _; split; apply not_elem_of_nil).
  pose proof (visible_count_snoc [] e He Hf) as Hv. pose proof (session_usage_snoc [] e) as Hsu.
  simpl in Hv, Hsu. unfold same_record, apply_event_to_record. simpl. rewrite Hsu, Hv.
  unfold first_timestamp, last_timestamp, last_user_prompt, adds_message, record_usage. simpl.
  split; [|by split; [|destruct (usage_of e)]].
  f_equal; try lia; destruct (env_event e) eqn:E; unfold usage_of; rewrite ?E; done.
Qed.

End IndexExact.
