(* ===== verification/StoreOrder.v ===== *)
(** * Session stores: the order of results and retention

    The comparisons by which the stores sort are total preorders, so a sorted list does
    not depend on the order in which a map is walked; and the sessions that retention
    selects, by age and by count. *)

From Stdlib Require Import Ascii String.
From stdpp Require Import base list gmap sets sorting strings.
From Stdlib Require Import Lia.
From S2P Require Import Prelude Text BTree Message Events Errors Replay StoreSearch StoreExport SessionStores.
From S2P Require Import StoreProps.

(** ** Comparisons *)

(** What [slice::sort_by] asks of a comparison. *)
Class Ordering {A} (c : A -> A -> comparison) : Prop := {
  ord_opp x y : c y x = CompOpp (c x y);
  ord_eq x y z : c x y = Eq -> c x z = c y z;
  ord_lt x y z : c x y = Lt -> c y z = Lt -> c x z = Lt
}.

#[global] Instance ordering_N : Ordering N.compare.
Proof.
  split; intros x y; [apply N.compare_antisym | intros z ->%N.compare_eq_iff; done|].
  intros z. rewrite !N.compare_lt_iff. lia.
Qed.

#[global] Instance ordering_nat : Ordering Nat.compare.
Proof.
  split; intros x y; [apply Nat.compare_antisym | intros z ->%Nat.compare_eq_iff; done|].
  intros z. rewrite !Nat.compare_lt_iff. lia.
Qed.

#[global] Instance ordering_bool : Ordering bool_compare.
Proof. split; intros [] []; try intros []; done. Qed.

Lemma ascii_compare_N a b : Ascii.compare a b = N.compare (N_of_ascii a) (N_of_ascii b).
Proof. done. Qed.

#[global] Instance ordering_string : Ordering String.compare.
Proof.
  split.
  - intros x y. apply String.compare_antisym.
  - by intros x y z ->%String.compare_eq_iff.
  - induction x as [|a x IH]; intros [|b y] [|d z]; simpl; try done. rewrite !ascii_compare_N.
    pose proof (N.compare_spec (N_of_ascii a) (N_of_ascii b)) as H1.
    pose proof (N.compare_spec (N_of_ascii b) (N_of_ascii d)) as H2.
    destruct H1 as [H1|H1|H1]; [| |done]; destruct H2 as [H2|H2|H2]; try done.
    + rewrite H1, H2, N.compare_refl. apply IH.
    + rewrite H1. apply N.compare_lt_iff in H2. by rewrite H2.
    + rewrite <- H2. apply N.compare_lt_iff in H1. by rewrite H1.
    + intros _ _. assert (H : (N_of_ascii a < N_of_ascii d)%N) by lia. apply N.compare_lt_iff in H. by rewrite H.
Qed.

#[global] Instance ordering_opt : Ordering opt_string_compare.
Proof.
  split.
  - intros [x|] [y|]; simpl; try done. apply ord_opp.
  - intros [x|] [y|] [z|]; simpl; try done. apply ord_eq.
  - intros [x|] [y|] [z|]; simpl; try done. apply ord_lt.
Qed.

Lemma ordering_on {A B} (f : A -> B) c : Ordering c -> Ordering (fun x y => c (f x) (f y)).
Proof. intros H. split; intros x y; [apply ord_opp | intros z; apply ord_eq | intros z; apply ord_lt]. Qed.

Lemma ordering_flip {A} (c : A -> A -> comparison) : Ordering c -> Ordering (fun x y => c y x).
Proof.
  intros H. split; intros x y; [apply ord_opp| |].
  - intros z E. rewrite (ord_opp (c := c) x z), (ord_opp (c := c) y z). f_equal. symmetry. by apply ord_eq.
  - intros z H1 H2. by eapply ord_lt.
Qed.

Lemma ordering_then {A} (a b : A -> A -> comparison) :
  Ordering a -> Ordering b -> Ordering (fun x y => then_with (a x y) (b x y)).
Proof.
  intros Ha Hb. split; intros x y.
  - rewrite (ord_opp (c := a) x y), (ord_opp (c := b) x y). by destruct (a x y).
  - intros z. unfold then_with. destruct (a x y) eqn:E1; try done. intros E2. by rewrite (ord_eq (c := a) x y z), (ord_eq (c := b) x y z).
  - intros z. unfold then_with. destruct (a x y) eqn:E1; try done.
    + rewrite (ord_eq (c := a) x y z) by done. destruct (a y z); try done. apply ord_lt.
    + intros _. destruct (a y z) eqn:E2; try done; [|by rewrite (ord_lt (c := a) x y z)].
      intros _. assert (E : a x z = a x y); [|by rewrite E, E1].
      rewrite (ord_opp (c := a) z x), (ord_opp (c := a) y x). f_equal. symmetry. by apply ord_eq.
Qed.

Section OrderingLe.
Context {A} {c : A -> A -> comparison} {Hc : Ordering c}.
Definition cmp_le (x y : A) : Prop := c x y <> Gt.

Lemma cmp_le_trans : Transitive cmp_le.
Proof.
  intros x y z. unfold cmp_le. destruct (c x y) eqn:E1; [|intros _|done].
  - by rewrite (ord_eq (c := c) x y z).
  - destruct (c y z) eqn:E2; [|by rewrite (ord_lt (c := c) x y z)|done]. intros _.
    rewrite (ord_opp (c := c) z x), <- (ord_eq (c := c) y z x), <- (ord_opp (c := c) y x), E1 by done. done.
Qed.

Lemma cmp_le_total : Total cmp_le.
Proof. intros x y. unfold cmp_le. rewrite (ord_opp (c := c) x y). destruct (c x y); naive_solver. Qed.

Lemma cmp_le_tie x y : cmp_le x y -> cmp_le y x -> c x y = Eq.
Proof. unfold cmp_le. rewrite (ord_opp (c := c) x y). by destruct (c x y). Qed.
End OrderingLe.
Arguments cmp_le {A} c.

#[global] Instance ordering_newest :
  Ordering (fun left right : SessionId * N => then_with (N.compare right.2 left.2) (String.compare left.1 right.1)).
Proof.
  apply ordering_then; [apply (ordering_on snd (fun x y => N.compare y x)), ordering_flip, _ |].
  apply (ordering_on fst), _.
Qed.

#[global] Instance ordering_summary : Ordering summary_compare.
Proof.
  apply ordering_then; [apply (ordering_on ss_last_timestamp_ms (fun x y => N.compare y x)), ordering_flip, _ |].
  apply (ordering_on ss_session_id), _.
Qed.

#[global] Instance ordering_ranked : Ordering ranked_compare.
Proof.
  unfold ranked_compare.
  repeat (apply ordering_then; [first
    [ apply (ordering_on rk_prompt_match (fun x y => bool_compare y x))
    | apply (ordering_on rk_session_id_match (fun x y => bool_compare y x))
    | apply (ordering_on rk_metadata_match_count (fun x y => Nat.compare y x))
    | apply (ordering_on rk_transcript_match_count (fun x y => Nat.compare y x))
    | apply (ordering_on (fun r => sr_matched_event_count (rk_result r)) (fun x y => Nat.compare y x))
    | apply (ordering_on (fun r => ss_last_timestamp_ms (sr_summary (rk_result r))) (fun x y => N.compare y x)) ];
    apply ordering_flip, _ |]).
  apply (ordering_on (fun r => ss_session_id (sr_summary (rk_result r)))), _.
Qed.

Lemma then_with_eq a b : then_with a b = Eq -> a = Eq /\ b = Eq.
Proof. by destruct a. Qed.

(** Sorting by a comparison that does not tie gives one list. *)
Lemma merge_sort_unique {A} (c : A -> A -> comparison) `{Hc : Ordering A c}
    `{forall x y, Decision (cmp_le c x y)} l1 l2 :
  (forall x y, x ∈ l1 -> y ∈ l1 -> c x y = Eq -> x = y) -> l1 ≡ₚ l2 ->
  merge_sort (cmp_le c) l1 = merge_sort (cmp_le c) l2.
Proof.
  intros Hties Hp. pose proof (cmp_le_trans (c := c)). pose proof (cmp_le_total (c := c)).
  apply (StronglySorted_unique_strong (cmp_le c)).
  - intros x y Hx Hy Hxy Hyx. apply Hties; [..|by apply cmp_le_tie].
    + by rewrite merge_sort_Permutation in Hx.
    + by rewrite merge_sort_Permutation, <- Hp in Hy.
  - apply StronglySorted_merge_sort; done.
  - apply StronglySorted_merge_sort; done.
  - by rewrite !merge_sort_Permutation.
Qed.

(** ** Retention *)

(** The elements from position [n] on, by what precedes them. *)
Lemma elem_of_drop_sorted {A} `{EqDecision A} (R : relation A) `{forall x y, Decision (R x y)} l n x :
  (forall a b, R a b -> R b a -> a = b) -> StronglySorted R l -> NoDup l ->
  x ∈ drop n l <-> x ∈ l /\ (n <= length (base.filter (fun y => y <> x /\ R y x) l))%nat.
Proof.
  intros Ha Hs. revert n. induction Hs as [|a l Hs IH Hal]; intros n Hnd.
  { rewrite drop_nil. split; [intros Hx; by inversion Hx | by intros [Hx _]]. }
  apply NoDup_cons in Hnd as [Hnin Hnd]. destruct n as [|n]; [rewrite drop_0; naive_solver lia|].
  cbn [drop]. rewrite IH by done. rewrite filter_cons, elem_of_cons. destruct (decide (x = a)) as [->|Hne].
  - split; [by intros [? _]|]. intros [_ Hle]. exfalso. rewrite decide_False in Hle by naive_solver.
    destruct (base.filter _ l) as [|y ys] eqn:E; [simpl in Hle; lia|].
    assert (Hy : y ∈ y :: ys) by by left. rewrite <- E, list_elem_of_filter in Hy.
    destruct Hy as ([Hya HR] & Hy). rewrite Forall_forall in Hal. apply Hya, Ha; auto.
  - split.
    + intros [Hx Hle]. split; [by right|]. rewrite decide_True; [simpl; lia|]. split; [done|].
      rewrite Forall_forall in Hal. by apply Hal.
    + intros [[?|Hx] Hle]; [done|]. split; [done|]. rewrite decide_True in Hle; [simpl in Hle; lia|].
      split; [done|]. rewrite Forall_forall in Hal. by apply Hal.
Qed.

Lemma newest_first_tie a b : newest_first a b -> newest_first b a -> a = b.
Proof.
  intros H1 H2. pose proof (cmp_le_tie (Hc := ordering_newest) a b H1 H2) as E.
  apply then_with_eq in E as [E1%N.compare_eq_iff E2%String.compare_eq_iff]. destruct a, b. simpl in *. congruence.
Qed.

Section Retention.
Context {J : SerdeJson}.

(** A session's last event, and whether it is too old. *)
Definition age_expired (retention : SessionStoreRetentionPolicy) (now_ms last : N) : bool :=
  match ret_max_age retention with Some max_age => (max_age <? now_ms - last)%N | None => false end.

(** The young sessions that come before [p]. *)
Definition newer_than (retention : SessionStoreRetentionPolicy) (now_ms : N) (ages : list (SessionId * N))
    (p : SessionId * N) : list (SessionId * N) :=
  base.filter (fun q => age_expired retention now_ms q.2 = false /\ q <> p /\ newest_first q p) ages.

Definition expired (retention : SessionStoreRetentionPolicy) (now_ms : N) (ages : list (SessionId * N))
    (p : SessionId * N) : Prop :=
  age_expired retention now_ms p.2 = true
  \/ exists max, ret_max_sessions retention = Some max
       /\ (max <= length (newer_than retention now_ms ages p))%nat.

#[global] Instance expired_perm retention now : Proper ((≡ₚ) ==> (=) ==> iff) (expired retention now).
Proof.
  intros l1 l2 Hp p q ->. unfold expired, newer_than. by setoid_rewrite Hp.
Qed.

Definition index_ages (sessions : btree IndexedSessionRecord) : list (SessionId * N) :=
  map (fun p => (p.1, ss_last_timestamp_ms (ir_summary p.2))) sessions.

Lemma map_filter_age retention now sessions :
  map (fun p => (p.1, ss_last_timestamp_ms (ir_summary p.2)))
    (List.filter (fun p => negb (too_old retention now p.2)) sessions)
  = base.filter (fun q => age_expired retention now q.2 = false) (index_ages sessions).
Proof.
  induction sessions as [|p l IH]; [done|]. simpl. unfold index_ages in *. simpl. rewrite filter_cons, <- IH.
  unfold too_old, age_expired. simpl. destruct (ret_max_age retention) as [m|]; [|by rewrite decide_True].
  by destruct (m <? _)%N.
Qed.

Lemma selected_old retention now sessions id :
  id ∈ (List.filter (fun p => too_old retention now p.2) sessions).*1
  <-> exists last, (id, last) ∈ index_ages sessions /\ age_expired retention now last = true.
Proof.
  rewrite list_elem_of_fmap. unfold index_ages. split.
  - intros ([x r] & -> & [Hin Hb]%list_elem_of_In%filter_In). exists (ss_last_timestamp_ms (ir_summary r)).
    split; [|done]. apply list_elem_of_fmap. exists (x, r). split; [done | by apply list_elem_of_In].
  - intros (last & ([x r] & [= -> ->] & Hin)%list_elem_of_fmap & Hb). exists (x, r). split; [done|].
    apply list_elem_of_In, filter_In. split; [by apply list_elem_of_In | done].
Qed.

Lemma newest_sorted l : StronglySorted newest_first (merge_sort newest_first l).
Proof.
  pose proof (cmp_le_trans (Hc := ordering_newest)). pose proof (cmp_le_total (Hc := ordering_newest)).
  by apply StronglySorted_merge_sort.
Qed.

Lemma selected_over retention now ages max id :
  NoDup ages ->
  id ∈ (drop max (merge_sort newest_first
          (base.filter (fun q : SessionId * N => age_expired retention now q.2 = false) ages))).*1
  <-> exists last, (id, last) ∈ ages /\ age_expired retention now last = false
        /\ (max <= length (newer_than retention now ages (id, last)))%nat.
Proof.
  intros Hnd. set (young := base.filter _ ages).
  assert (Hmem : forall p, p ∈ drop max (merge_sort newest_first young)
    <-> p ∈ ages /\ age_expired retention now p.2 = false
        /\ (max <= length (newer_than retention now ages p))%nat).
  { intros p. rewrite (elem_of_drop_sorted newest_first);
      [| apply newest_first_tie | apply newest_sorted | rewrite merge_sort_Permutation; by apply NoDup_filter].
    rewrite merge_sort_Permutation. unfold young, newer_than. rewrite list_elem_of_filter, list_filter_filter.
    rewrite (list_filter_iff _ (fun q => age_expired retention now q.2 = false /\ q <> p /\ newest_first q p))
      by tauto. tauto. }
  rewrite list_elem_of_fmap. split.
  - intros ([x last] & -> & (? & ? & ?)%Hmem). by exists last.
  - intros (last & H). exists (id, last). split; [done|]. by apply Hmem.
Qed.

(** The sessions selected, by what the policy says. *)
Lemma select_sessions_spec index retention now id :
  bt_ok (ix_sessions index) ->
  id ∈ select_sessions_to_prune index retention now
  <-> exists last, (id, last) ∈ index_ages (ix_sessions index)
      /\ expired retention now (index_ages (ix_sessions index)) (id, last).
Proof.
  intros Hok. assert (Hnd : NoDup (index_ages (ix_sessions index))).
  { apply (NoDup_fmap_1 fst). unfold index_ages. change map with (@fmap list _). by rewrite <- list_fmap_compose. }
  unfold select_sessions_to_prune. rewrite elem_of_app, selected_old. unfold expired.
  destruct (ret_max_sessions retention) as [max|].
  - rewrite map_filter_age, selected_over by done. split; [naive_solver|].
    intros (last & Hin & [Hb|(m & [= <-] & Hle)]); [eauto|].
    simpl in *. destruct (age_expired retention now last) eqn:E; [left; eauto | right; eauto].
  - rewrite elem_of_nil. naive_solver.
Qed.

End Retention.
