(* ===== verification/StoreRefine.v ===== *)
(** * The file store refines the memory store

    The laws of the directory and of the JSON encodings, the relation between a file
    store and the memory store with the same logs, and that appending keeps it. *)

From Stdlib Require Import Ascii String.
From stdpp Require Import base list gmap sets sorting strings.
From Stdlib Require Import Lia.
From S2P Require Import Prelude Text BTree Message Events Errors Replay StoreSearch StoreExport SessionStores.
From S2P Require Import StoreProps.

(** ** What is assumed of the directory and of [serde_json] *)

(** Reading an existing file works; an operation that reports success did its work. *)
Class SessionFilesLaws (F : SessionFiles) := {
  file_text : SFiles -> string -> option string;
  read_law n d t : file_text d n = Some t -> sf_read n d = Ok t;
  exists_law n d : sf_exists n d = Ok (bool_decide (is_Some (file_text d n)));
  create_law d d' k : sf_create_dir d = (Ok tt, d') -> file_text d' k = file_text d k;
  open_law n d d' k : sf_open_append n d = (Ok tt, d') ->
    file_text d' k = if decide (k = n) then Some (default "" (file_text d n)) else file_text d k;
  write_law n t d d' old k : file_text d n = Some old -> sf_write n t d = (Ok tt, d') ->
    file_text d' k = if decide (k = n) then Some (old +:+ t) else file_text d k;
  flush_law n d d' k : sf_flush n d = (Ok tt, d') -> file_text d' k = file_text d k;
  remove_law n d d' k : sf_remove n d = (Ok tt, d') ->
    file_text d' k = if decide (k = n) then None else file_text d k;
  write_file_law n t d d' k : sf_write_file n t d = (Ok tt, d') ->
    file_text d' k = if decide (k = n) then Some t else file_text d k;
  rename_law a b d d' k : sf_rename a b d = (Ok tt, d') ->
    file_text d' k = if decide (k = b) then file_text d a
                     else if decide (k = a) then None else file_text d k
}.

(** An event is encoded on one line that is not blank, and decodes to itself. *)
Class StoreCodecLaws `{StoreCodec} := {
  decode_encode e s : encode_event e = Ok s -> decode_event s = Ok e;
  encoded_line e s : encode_event e = Ok s -> lacks newline s /\ strip_cr s = s /\ str_is_empty (trim s) = false
}.

(** ** The text of a log *)

Lemma str_lines_line a s :
  lacks newline a -> strip_cr a = a -> str_lines (a +:+ (nl +:+ s)) = a :: str_lines s.
Proof.
  intros Ha Hcr. assert (Hp : split_on newline (a +:+ (nl +:+ s)) = a :: split_on newline s).
  { change (a +:+ (nl +:+ s)) with (a +:+ String newline s). rewrite split_on_app. unfold lacks in Ha.
    by rewrite Ha. }
  unfold str_lines. rewrite Hp. pose proof (split_on_ne newline s).
  destruct (split_on newline s) as [|x l]; [done|]. change (last (a :: x :: l)) with (last (x :: l)).
  change (removelast (a :: x :: l)) with (a :: removelast (x :: l)).
  destruct (last (x :: l)) eqn:E; [|by apply last_None in E]. cbn [map app]. by rewrite Hcr.
Qed.

Section LogText.
Context {J : SerdeJson} {C : StoreCodec} {L : StoreCodecLaws}.

Definition encodable (e : SessionEventEnvelope) : Prop := exists s, encode_event e = Ok s.

Definition line_of (e : SessionEventEnvelope) : string :=
  match encode_event e with Ok s => s | Err _ => "" end.

Definition log_text (events : list SessionEventEnvelope) : string :=
  foldr (fun e rest => line_of e +:+ (nl +:+ rest)) "" events.

Lemma log_text_snoc events e : log_text (events ++ [e]) = (log_text events +:+ line_of e) +:+ nl.
Proof.
  induction events as [|x events IH]; [done|]. cbn [log_text foldr app] in *.
  fold (log_text (events ++ [e])). rewrite IH. fold (log_text events).
  by rewrite !sapp_assoc.
Qed.

Lemma decode_log events :
  Forall encodable events ->
  map_result (fun line => json (decode_event line))
    (List.filter (fun line => negb (str_is_empty (trim line))) (str_lines (log_text events))) = Ok events.
Proof.
  induction 1 as [|e events [s Hs] _ IH]; [done|]. cbn [log_text foldr]. fold (log_text events).
  unfold line_of. rewrite Hs. destruct (encoded_line e s Hs) as (Hl & Hcr & Hb).
  rewrite str_lines_line by done. cbn [List.filter]. rewrite Hb. cbn [negb map_result].
  rewrite (decode_encode e s Hs). cbn [json result_bind]. by rewrite IH.
Qed.

End LogText.

(** ** The relation *)

Section Refinement.
Context {J : SerdeJson} {F : SessionFiles} {C : StoreCodec} {FL : SessionFilesLaws F} {CL : StoreCodecLaws}.

(** Logs by key. *)
Lemma memory_append_lookup (logs : InMemorySessionStore) e id :
  memory_append logs e !! id
  = if decide (id = env_session_id e) then Some (default [] (logs !! id) ++ [e]) else logs !! id.
Proof.
  unfold memory_append. destruct (decide (id = env_session_id e)) as [->|Hne].
  - apply (lookup_insert_eq (M := gmap SessionId)).
  - by apply (lookup_insert_ne (M := gmap SessionId)).
Qed.

Definition files_hold (d : SFiles) (logs : InMemorySessionStore) : Prop :=
  forall id, file_text d (session_path id) = log_text <$> logs !! id.

(** The record that the index keeps for a log. *)
Definition tracked (sessions : btree IndexedSessionRecord) (id : SessionId)
    (log : option (list SessionEventEnvelope)) : Prop :=
  match log with
  | None => bt_get id sessions = None
  | Some events =>
      exists r r0, bt_get id sessions = Some r /\ indexed_record_from_events events = Some r0
        /\ same_record r r0
  end.

Record store_ok (st : FileSessionStore) (logs : InMemorySessionStore) : Prop := {
  so_files : files_hold (st_files st) logs;
  so_logs : forall id events, logs !! id = Some events -> Forall encodable events;
  so_ids : forall id events, logs !! id = Some events -> Forall (fun e => env_session_id e = id) events;
  so_keys : bt_ok (ix_sessions (st_index st));
  so_index : forall id, tracked (ix_sessions (st_index st)) id (logs !! id)
}.

Lemma session_path_inj a b : session_path a = session_path b -> a = b.
Proof.
  unfold session_path. intros H. apply (f_equal str_rev) in H. rewrite !str_rev_app in H.
  apply sapp_inj_l in H. apply (f_equal str_rev) in H. by rewrite !str_rev_involutive in H.
Qed.

Lemma load_log d logs id events :
  files_hold d logs -> logs !! id = Some events -> Forall encodable events ->
  load_events_from_path (session_path id) d = Ok events.
Proof.
  intros Hd Hl He. unfold load_events_from_path. rewrite (read_law _ _ (log_text events)).
  - by apply decode_log.
  - by rewrite Hd, Hl.
Qed.

(** Events of the store are those of the logs. *)
Lemma file_events_eq st logs id : store_ok st logs -> file_events st id = memory_events logs id.
Proof.
  intros [Hf Hl _ _ _]. unfold file_events, memory_events. rewrite exists_law, Hf. simpl.
  destruct (logs !! id) as [events|] eqn:E; simpl; [|done].
  apply (load_log _ logs); [done | done | by eapply Hl].
Qed.

(** ** Writing *)

Lemma io_at_ok {A} (m : result A string * SFiles) a d : io_at m = (Ok a, d) -> m = (Ok a, d).
Proof. destruct m as [[x|e] d0]; [by intros [= -> ->] | done]. Qed.

Lemma and_then_ok {A B} (m : result A SessionStoreError * SFiles) (k : A -> SFiles -> result B SessionStoreError * SFiles) b d :
  and_then m k = (Ok b, d) -> exists a d1, m = (Ok a, d1) /\ k a d1 = (Ok b, d).
Proof. destruct m as [[a|e] d1]; [by eexists _, _ | done]. Qed.

(** Opening the file of a session: it is there, other files are as they were. *)
Definition opened_for (id : SessionId) (d d' : SFiles) : Prop :=
  forall k, file_text d' k = if decide (k = session_path id) then Some (default "" (file_text d (session_path id)))
                             else file_text d k.

Lemma write_line_ok d1 d2 d3 d4 logs e s :
  files_hold d1 logs -> encode_event e = Ok s -> opened_for (env_session_id e) d1 d2 ->
  sf_write (session_path (env_session_id e)) s d2 = (Ok tt, d3) ->
  sf_write (session_path (env_session_id e)) nl d3 = (Ok tt, d4) ->
  files_hold d4 (memory_append logs e).
Proof.
  intros Hd Hs Ho H3 H4. set (p := session_path (env_session_id e)) in *.
  set (old := default "" (file_text d1 p)) in *.
  assert (H2 : file_text d2 p = Some old) by (by rewrite Ho, decide_True).
  assert (H3' : file_text d3 p = Some (old +:+ s)) by (by rewrite (write_law _ _ _ _ _ _ H2 H3), decide_True).
  intros id. rewrite (write_law _ _ _ _ _ (session_path id) H3' H4), memory_append_lookup.
  destruct (decide (session_path id = p)) as [E|E].
  - apply session_path_inj in E as ->. rewrite decide_True by done. simpl. rewrite log_text_snoc.
    unfold line_of. rewrite Hs. do 3 f_equal. unfold old, p. rewrite Hd.
    by destruct (logs !! env_session_id e).
  - rewrite (decide_False (P := id = _)) by (intros ->; done).
    rewrite (write_law _ _ _ _ _ (session_path id) H2 H3).
    rewrite decide_False, Ho, decide_False by done. apply Hd.
Qed.

Lemma write_events_ok events : forall active d logs d',
  files_hold d logs -> (forall id, active = Some id -> is_Some (logs !! id)) ->
  write_events active events d = (Ok tt, d') ->
  files_hold d' (memory_append_batch logs events) /\ Forall encodable events.
Proof.
  induction events as [|e events IH]; intros active d logs d' Hd Hactive Hw.
  { simpl in Hw. split; [|constructor]. destruct active as [id|]; [|by injection Hw as <-].
    apply io_at_ok in Hw. intros k. by rewrite (flush_law _ _ _ _ Hw). }
  cbn [write_events] in Hw. apply and_then_ok in Hw as ([] & d1 & Hopen & Hw).
  assert (Ho : opened_for (env_session_id e) d d1).
  { case_bool_decide as Ha.
    - injection Hopen as <-. intros k. destruct (decide _) as [->|]; [|done].
      rewrite Hd. destruct (Hactive _ Ha) as [l ->]. done.
    - apply and_then_ok in Hopen as ([] & da & Hfl & Hopen). apply and_then_ok in Hopen as ([] & db & Hcr & Hop).
      apply io_at_ok in Hcr, Hop.
      assert (Hda : forall k, file_text da k = file_text d k).
      { destruct active as [id|]; [|by injection Hfl as <-]. apply io_at_ok in Hfl. intros k.
        by rewrite (flush_law _ _ _ _ Hfl). }
      intros k. by rewrite (open_law _ _ _ _ Hop), !(create_law _ _ _ Hcr), !Hda. }
  destruct (encode_event e) as [s|] eqn:Es; [|done].
  apply and_then_ok in Hw as ([] & d2 & H2 & Hw). apply and_then_ok in Hw as ([] & d3 & H3 & Hw).
  apply io_at_ok in H2, H3. pose proof (write_line_ok _ _ _ _ _ _ _ Hd Es Ho H2 H3) as Hd3.
  apply (IH _ _ (memory_append logs e)) in Hw as [Hh Hen]; [|done|].
  - split; [done|]. constructor; [by exists s | done].
  - intros id [= <-]. rewrite memory_append_lookup, decide_True by done. done.
Qed.

(** ** The index of a batch *)

(** Message ids are not reused, and time stamps fit their type. *)
Fixpoint fresh_batch (logs : InMemorySessionStore) (events : list SessionEventEnvelope) : Prop :=
  match events with
  | [] => True
  | e :: rest =>
      fresh_message (default [] (logs !! env_session_id e)) e /\ (env_timestamp_ms e <= u128_max)%N
      /\ fresh_batch (memory_append logs e) rest
  end.

Lemma tracked_event sessions (logs : InMemorySessionStore) e :
  let id := env_session_id e in
  tracked sessions id (logs !! id) -> rebuild_index_record (env_event e) = false ->
  fresh_message (default [] (logs !! id)) e -> (env_timestamp_ms e <= u128_max)%N ->
  tracked (index_event sessions e) id (Some (default [] (logs !! id) ++ [e])).
Proof.
  intros id Ht He Hf Hts. unfold tracked, index_event. fold id. rewrite bt_get_insert, String.eqb_refl.
  destruct (logs !! id) as [events|]; simpl in *.
  - destruct Ht as (r & r0 & -> & Hr0 & Hs). destruct (apply_event_exact events e r r0) as (r1 & Hr1 & Hs1); try done.
    by exists (apply_event_to_record r e), r1.
  - rewrite Ht. destruct (first_event_exact e He Hts) as (r1 & Hr1 & Hs1). simpl.
    by exists (apply_event_to_record (default_indexed_record e) e), r1.
Qed.

Lemma tracked_other sessions id e log :
  id <> env_session_id e -> tracked sessions id log -> tracked (index_event sessions e) id log.
Proof.
  intros Hne. unfold tracked, index_event. rewrite bt_get_insert.
  by destruct (String.eqb_spec id (env_session_id e)).
Qed.

Lemma index_events_tracked id keep events : forall sessions (logs : InMemorySessionStore),
  tracked sessions id (logs !! id) -> fresh_batch logs events ->
  (forall e, e ∈ events -> env_session_id e = id ->
     keep e = true /\ rebuild_index_record (env_event e) = false) ->
  tracked (foldl index_event sessions (List.filter keep events)) id (memory_append_batch logs events !! id).
Proof.
  induction events as [|e events IH]; intros sessions logs Ht Hf Hk; [done|].
  destruct Hf as (Hfresh & Hts & Hf). cbn [List.filter memory_append_batch foldl].
  fold (memory_append_batch (memory_append logs e) events).
  assert (Hk' : forall x, x ∈ events -> env_session_id x = id ->
    keep x = true /\ rebuild_index_record (env_event x) = false) by (intros x Hx; apply Hk; by right).
  destruct (decide (id = env_session_id e)) as [->|Hne].
  - destruct (Hk e) as [-> He]; [by left | done|]. cbn [foldl]. apply IH; [|done|done].
    rewrite memory_append_lookup, decide_True by done. by apply tracked_event.
  - assert (Ht' : tracked sessions id (memory_append logs e !! id))
      by (by rewrite memory_append_lookup, decide_False).
    destruct (keep e); cbn [foldl]; apply IH; try done. by apply tracked_other.
Qed.

Notation of_session id events := (base.filter (fun e => env_session_id e = id) events).

Lemma append_batch_lookup events : forall (logs : InMemorySessionStore) id,
  memory_append_batch logs events !! id
  = match of_session id events with [] => logs !! id | mine => Some (default [] (logs !! id) ++ mine) end.
Proof.
  induction events as [|e events IH]; intros logs id; [done|]. cbn [memory_append_batch foldl].
  fold (memory_append_batch (memory_append logs e) events). rewrite IH, memory_append_lookup, filter_cons.
  destruct (decide (env_session_id e = id)) as [->|Hne].
  - rewrite decide_True by done. simpl. destruct (of_session id events); [done|]. by rewrite <- app_assoc.
  - rewrite decide_False by done. done.
Qed.

(** *** Rebuilt records *)

Lemma bt_keys {V} k (m : btree V) : k ∈ m.*1 <-> is_Some (bt_get k m).
Proof.
  split.
  - intros Hin. destruct (bt_get k m) eqn:E; [by eexists|]. by apply bt_get_None in E.
  - intros [v Hv%bt_get_In]. apply list_elem_of_fmap. by exists (k, v).
Qed.

Lemma bt_ok_foldl {V A} (f : btree V -> A -> btree V) l m :
  (forall m a, bt_ok m -> bt_ok (f m a)) -> bt_ok m -> bt_ok (foldl f m l).
Proof. intros Hf. revert m. induction l as [|a l IH]; intros m Hm; [done|]. apply IH. auto. Qed.

Lemma rebuild_fallbacks_spec events id :
  id ∈ (rebuild_fallbacks events).*1
  <-> exists e, e ∈ events /\ env_session_id e = id /\ rebuild_index_record (env_event e) = true.
Proof.
  rewrite bt_keys. unfold rebuild_fallbacks.
  induction events as [|e events IH] using rev_ind.
  { split; [by intros [? ?] | by intros (? & ?%not_elem_of_nil & _)]. }
  rewrite foldl_app. simpl. setoid_rewrite elem_of_app. setoid_rewrite list_elem_of_singleton.
  destruct (rebuild_index_record (env_event e)) eqn:E.
  - rewrite bt_get_insert. destruct (String.eqb_spec id (env_session_id e)) as [->|Hne].
    + split; [eauto | done].
    + rewrite IH. naive_solver.
  - rewrite IH. naive_solver congruence.
Qed.

Lemma bt_get_inserted {V} k (v : V) l m :
  k ∈ l.*1 -> (forall y, y ∈ l -> y.1 = k -> y.2 = v) ->
  bt_get k (foldl (fun m p => bt_insert p.1 p.2 m) m l) = Some v.
Proof.
  induction l as [|p l IH] using rev_ind; [intros H; by inversion H|]. intros Hin Hv.
  rewrite foldl_app. simpl. rewrite bt_get_insert. destruct (String.eqb_spec k p.1) as [->|Hne].
  - f_equal. apply Hv; [set_solver | done].
  - apply IH; [|set_solver]. rewrite fmap_app, elem_of_app in Hin. set_solver.
Qed.

Lemma bt_get_not_inserted {V} k (l : list (string * V)) m :
  k ∉ l.*1 -> bt_get k (foldl (fun m p => bt_insert p.1 p.2 m) m l) = bt_get k m.
Proof.
  revert m. induction l as [|p l IH]; intros m Hin; [done|]. simpl. rewrite IH by set_solver.
  rewrite bt_get_insert. destruct (String.eqb_spec k p.1); [set_solver | done].
Qed.

Lemma rebuilt_spec d (logs : InMemorySessionStore) events rebuilt :
  files_hold d logs -> (forall id evs, logs !! id = Some evs -> Forall encodable evs) ->
  map_result (rebuild_record d) events = Ok rebuilt ->
  rebuilt.*1 = events.*1
  /\ (forall y evs r0, y ∈ rebuilt -> logs !! y.1 = Some evs -> indexed_record_from_events evs = Some r0 -> y.2 = r0).
Proof.
  intros Hd Hl H%map_result_Ok. induction H as [|p y events rebuilt Hp _ [IH1 IH2]].
  { split; [done|]. intros y evs r0 Hy. by inversion Hy. }
  unfold rebuild_record in Hp. destruct (load_events_from_path (session_path p.1) d) as [evs|] eqn:E; [|done].
  injection Hp as <-. split; [by rewrite !fmap_cons, IH1|]. intros y evs' r0 [->|Hy]%elem_of_cons Hevs Hr0; [|by eapply IH2].
  simpl in *. rewrite (load_log _ logs _ evs' Hd Hevs (Hl _ _ Hevs)) in E. injection E as <-. by rewrite Hr0.
Qed.

Lemma indexed_nonempty events : events <> [] -> exists r0, indexed_record_from_events events = Some r0.
Proof. destruct events as [|e events]; [done|]. intros _. eexists. by apply indexed_record_eq; exists e, events. Qed.

(** A batch keeps every session tracked. *)
Lemma update_index_tracked sessions (logs : InMemorySessionStore) events d rebuilt id :
  tracked sessions id (logs !! id) -> fresh_batch logs events ->
  files_hold d (memory_append_batch logs events) ->
  (forall id evs, memory_append_batch logs events !! id = Some evs -> Forall encodable evs) ->
  map_result (rebuild_record d) (rebuild_fallbacks events) = Ok rebuilt ->
  tracked (update_index sessions events rebuilt) id (memory_append_batch logs events !! id).
Proof.
  intros Ht Hf Hd Hl Hr. destruct (rebuilt_spec _ _ _ _ Hd Hl Hr) as [Hkeys Hval]. unfold update_index.
  destruct (decide (id ∈ rebuilt.*1)) as [Hin|Hin].
  - assert (Hin' := Hin). rewrite Hkeys, rebuild_fallbacks_spec in Hin'. destruct Hin' as (e & He & Hid & _).
    assert (Hmine : of_session id events <> []).
    { intros E. assert (Hx : e ∈ of_session id events) by (by apply list_elem_of_filter). rewrite E in Hx. by inversion Hx. }
    rewrite append_batch_lookup. destruct (of_session id events) as [|x mine] eqn:E; [done|].
    destruct (indexed_nonempty (default [] (logs !! id) ++ x :: mine)) as [r0 Hr0]; [by destruct (default _ _)|].
    exists r0, r0. split; [|done]. apply bt_get_inserted; [done|]. intros y Hy <-.
    eapply Hval; [done| |exact Hr0]. by rewrite append_batch_lookup, E.
  - assert (Hk : tracked (foldl index_event sessions
        (List.filter (fun e => negb (bool_decide (env_session_id e ∈ rebuilt.*1))) events)) id
        (memory_append_batch logs events !! id)).
    { apply index_events_tracked; [done | done|]. intros e He <-. rewrite bool_decide_false by done.
      split; [done|]. destruct (rebuild_index_record (env_event e)) eqn:E; [|done].
      exfalso. apply Hin. rewrite Hkeys, rebuild_fallbacks_spec. by exists e. }
    unfold tracked in *. by rewrite bt_get_not_inserted.
Qed.

(** *** Pruning *)

Definition memory_prune (ids : list SessionId) (logs : InMemorySessionStore) : InMemorySessionStore :=
  foldl (fun (m : InMemorySessionStore) id => delete id m) logs ids.

Lemma memory_delete_lookup (logs : InMemorySessionStore) x id :
  (delete x logs : InMemorySessionStore) !! id = if decide (id = x) then None else logs !! id.
Proof.
  destruct (decide (id = x)) as [->|Hne].
  - apply (lookup_delete_eq (M := gmap SessionId)).
  - by apply (lookup_delete_ne (M := gmap SessionId)).
Qed.

Lemma memory_prune_lookup ids : forall (logs : InMemorySessionStore) id,
  memory_prune ids logs !! id = if decide (id ∈ ids) then None else logs !! id.
Proof.
  unfold memory_prune. induction ids as [|x ids IH]; intros logs id; [done|]. cbn [foldl]. rewrite IH.
  destruct (decide (id ∈ ids)) as [Hin|Hin]; [by rewrite decide_True by by right|].
  rewrite memory_delete_lookup. destruct (decide (id = x)) as [->|Hne]; [by rewrite decide_True by by left|].
  by rewrite decide_False by set_solver.
Qed.

Lemma delete_session_files_ok ids : forall d (logs : InMemorySessionStore) d',
  files_hold d logs -> delete_session_files ids d = (Ok tt, d') -> files_hold d' (memory_prune ids logs).
Proof.
  induction ids as [|x ids IH]; intros d logs d' Hd; [by intros [= <-]|]. cbn [delete_session_files].
  intros ([] & d1 & Hx & H)%and_then_ok. apply (IH d1 (delete x logs)); [|done]. clear IH H.
  assert (Hrest : forall k, file_text d1 k = if decide (k = session_path x) then None else file_text d k).
  { unfold delete_session_file in Hx. rewrite exists_law in Hx. case_bool_decide as Hs.
    - apply io_at_ok in Hx. intros k. by apply remove_law.
    - injection Hx as <-. intros k. destruct (decide _) as [->|]; [|done].
      by apply eq_None_not_Some in Hs. }
  intros id. rewrite Hrest, memory_delete_lookup. destruct (decide (id = x)) as [->|Hne].
  - by rewrite decide_True.
  - rewrite decide_False by (by intros ->%session_path_inj). apply Hd.
Qed.

Lemma session_path_not_index id : session_path id <> INDEX_FILE_NAME /\ session_path id <> INDEX_FILE_NAME +:+ ".tmp".
Proof.
  split; intros H; apply (f_equal str_rev) in H; unfold session_path in H; rewrite str_rev_app in H; discriminate H.
Qed.

Lemma persist_index_ok d (logs : InMemorySessionStore) index d' :
  files_hold d logs -> persist_index_file index d = (Ok tt, d') -> files_hold d' logs.
Proof.
  intros Hd. unfold persist_index_file. destruct (encode_index index); [|done].
  intros ([] & d1 & H1%io_at_ok & H2%io_at_ok)%and_then_ok id. destruct (session_path_not_index id).
  rewrite (rename_law _ _ _ _ _ H2), !decide_False by done. by rewrite (write_file_law _ _ _ _ _ H1), decide_False.
Qed.

Lemma forget_get sessions ids id :
  bt_get id (forget_sessions sessions ids) = if decide (id ∈ ids) then None else bt_get id sessions.
Proof.
  unfold forget_sessions. revert sessions. induction ids as [|x ids IH]; intros sessions; [done|].
  cbn [foldl]. rewrite IH, bt_get_remove. destruct (decide (id ∈ ids)); [by rewrite decide_True by by right|].
  destruct (String.eqb_spec id x) as [->|Hne]; [by rewrite decide_True by by left|].
  by rewrite decide_False by set_solver.
Qed.

Lemma update_index_keys sessions events rebuilt :
  bt_ok sessions -> bt_ok (update_index sessions events rebuilt).
Proof.
  intros H. unfold update_index. apply bt_ok_foldl; [intros; by apply bt_ok_insert|].
  apply bt_ok_foldl; [|done]. intros. by apply bt_ok_insert.
Qed.

Lemma forget_keys sessions ids : bt_ok sessions -> bt_ok (forget_sessions sessions ids).
Proof. intros H. apply bt_ok_foldl; [|done]. intros. by apply bt_ok_remove. Qed.

Lemma append_batch_encodable (logs : InMemorySessionStore) events :
  (forall id evs, logs !! id = Some evs -> Forall encodable evs) -> Forall encodable events ->
  forall id evs, memory_append_batch logs events !! id = Some evs -> Forall encodable evs.
Proof.
  intros Hl He id evs. rewrite append_batch_lookup. assert (Hf : Forall encodable (of_session id events))
    by (apply Forall_forall; intros x [_ Hx]%list_elem_of_filter; by eapply Forall_forall in He).
  destruct (of_session id events); [by apply Hl|]. intros [= <-]. apply Forall_app. split; [|done].
  destruct (logs !! id) eqn:E; [by eapply Hl | constructor].
Qed.

Lemma append_batch_ids (logs : InMemorySessionStore) events :
  (forall id evs, logs !! id = Some evs -> Forall (fun e => env_session_id e = id) evs) ->
  forall id evs, memory_append_batch logs events !! id = Some evs -> Forall (fun e => env_session_id e = id) evs.
Proof.
  intros Hl id evs. rewrite append_batch_lookup. assert (Hf : Forall (fun e => env_session_id e = id) (of_session id events))
    by (apply Forall_forall; by intros x [Hx _]%list_elem_of_filter).
  destruct (of_session id events); [by apply Hl|]. intros [= <-]. apply Forall_app. split; [|done].
  destruct (logs !! id) eqn:E; [by eapply Hl | constructor].
Qed.

(** What a successful append does. *)
Lemma append_locked_ok st (logs : InMemorySessionStore) batch now st' :
  store_ok st logs -> fresh_batch logs batch -> batch <> [] ->
  append_locked_events st batch now = (Ok tt, st') ->
  exists sessions,
    let after := memory_append_batch logs batch in
    let pruned := select_sessions_to_prune (with_sessions (st_index st) sessions) (st_retention st) now in
    bt_ok sessions /\ (forall id, tracked sessions id (after !! id))
    /\ store_ok st' (memory_prune pruned after) /\ st_retention st' = st_retention st.
Proof.
  intros [Hd Hl Hids Hk Ht] Hf Hne. unfold append_locked_events. destruct batch as [|e0 rest]; [done|]. cbn [is_nil].
  set (batch := e0 :: rest) in *. clearbody batch.
  destruct (write_events None batch (st_files st)) as [[[]|] d1] eqn:Hw; [|done].
  apply (write_events_ok _ _ _ logs) in Hw as [Hd1 Hen]; [|done|done].
  pose proof (append_batch_encodable _ _ Hl Hen) as Hl1.
  destruct (map_result _ _) as [rebuilt|] eqn:Hr; [|done].
  set (sessions := update_index _ batch rebuilt).
  destruct (delete_session_files _ d1) as [[[]|] d2] eqn:Hdel; [|done].
  apply (delete_session_files_ok _ _ _ _ Hd1) in Hdel.
  destruct (persist_index_file _ d2) as [[[]|] d3] eqn:Hp; [|done]. intros [= <-].
  apply (persist_index_ok _ _ _ _ Hdel) in Hp. exists sessions.
  assert (Hts : forall id, tracked sessions id (memory_append_batch logs batch !! id))
    by (intros id; by eapply update_index_tracked).
  assert (Hks : bt_ok sessions) by (by apply update_index_keys).
  split_and!; [done | done | | done]. split; simpl.
  - exact Hp.
  - intros id evs. rewrite memory_prune_lookup. destruct (decide _); [done | apply Hl1].
  - intros id evs. rewrite memory_prune_lookup. destruct (decide _); [done | by apply append_batch_ids].
  - by apply forget_keys.
  - intros id. rewrite memory_prune_lookup. specialize (Hts id). unfold tracked in *. rewrite forget_get.
    destruct (decide _); [done | exact Hts].
Qed.

End Refinement.
