(* ===== verification/StoreClaims.v ===== *)
(** * Session stores: theorems

    A successful append to the file store is an append to the memory store followed by
    retention, listing and search give the same sessions, and what search finds. *)

From Stdlib Require Import Ascii String.
From stdpp Require Import base list gmap sets sorting strings.
From Stdlib Require Import Lia.
From S2P Require Import Prelude Text BTree Message Events Errors Replay StoreSearch StoreExport SessionStores.
From S2P Require Import StoreProps StoreOrder StoreRefine.

Section Views.
Context {J : SerdeJson} {F : SessionFiles} {C : StoreCodec} {FL : SessionFilesLaws F} {CL : StoreCodecLaws}.

(** The last event of each session. *)
Definition log_ages (logs : InMemorySessionStore) : list (SessionId * N) :=
  map (fun p => (p.1, last_timestamp p.2)) (map_to_list logs).

Lemma logs_elem (logs : InMemorySessionStore) id events : (id, events) ∈ map_to_list logs <-> logs !! id = Some events.
Proof. apply (elem_of_map_to_list (M := gmap SessionId)). Qed.

Lemma logs_nodup (logs : InMemorySessionStore) : NoDup (map_to_list logs).*1.
Proof. apply (NoDup_fst_map_to_list (M := gmap SessionId)). Qed.

(** The keys of the index are the sessions of the logs. *)
Lemma tracked_keys sessions (logs : InMemorySessionStore) :
  bt_ok sessions -> (forall id, tracked sessions id (logs !! id)) -> sessions.*1 ≡ₚ (map_to_list logs).*1.
Proof.
  intros Hok Ht. apply NoDup_Permutation; [done | apply logs_nodup|]. intros id. rewrite bt_keys.
  specialize (Ht id). unfold tracked in Ht. rewrite list_elem_of_fmap. destruct (logs !! id) as [events|] eqn:E.
  - destruct Ht as (r & _ & -> & _). split; [|by eexists]. intros _. exists (id, events). by rewrite logs_elem.
  - rewrite Ht. split; [by intros [? ?]|]. intros ([x evs] & -> & H%logs_elem). simpl in E. congruence.
Qed.

(** A view of the index is a view of the logs. *)
Lemma tracked_views {B} (h : SessionId * IndexedSessionRecord -> option B)
    (g : SessionId * list SessionEventEnvelope -> option B) sessions (logs : InMemorySessionStore) :
  bt_ok sessions -> (forall id, tracked sessions id (logs !! id)) ->
  (forall id events r r0, logs !! id = Some events -> bt_get id sessions = Some r ->
     indexed_record_from_events events = Some r0 -> same_record r r0 -> g (id, events) = h (id, r)) ->
  omap h sessions ≡ₚ omap g (map_to_list logs).
Proof.
  intros Hok Ht Hg. set (f := fun id => (logs !! id) ≫= fun events => g (id, events)).
  assert (H1 : omap h sessions = omap f sessions.*1).
  { assert (Hin : forall p, p ∈ sessions -> f p.1 = h p).
    { intros [id r] Hp. apply bt_In_get in Hp; [|done]. specialize (Ht id). unfold tracked in Ht. unfold f. simpl.
      destruct (logs !! id) as [events|] eqn:E; [|congruence]. destruct Ht as (r' & r0 & Hr' & Hr0 & Hs).
      simplify_eq. by eapply Hg. }
    clear -Hin. induction sessions as [|p l IH]; [done|].
    change ((p :: l).*1) with (p.1 :: l.*1). rewrite !omap_cons_app, <- IH, Hin by set_solver. done. }
  assert (H2 : omap g (map_to_list logs) = omap f (map_to_list logs).*1).
  { assert (Hin : forall p, p ∈ map_to_list logs -> f p.1 = g p).
    { intros [id events] Hp%logs_elem. unfold f. simpl. by rewrite Hp. }
    induction (map_to_list logs) as [|p l IH]; [done|].
    change ((p :: l).*1) with (p.1 :: l.*1). rewrite !omap_cons_app, IH, Hin by set_solver. done. }
  rewrite H1, H2. by rewrite (tracked_keys sessions logs).
Qed.

Lemma omap_total {A B} (f : A -> B) l : omap (fun x => Some (f x)) l = map f l.
Proof. induction l as [|x l IH]; [done|]. by rewrite omap_cons_app, IH. Qed.

Lemma summary_of_record id events r0 :
  Forall (fun e => env_session_id e = id) events -> indexed_record_from_events events = Some r0 ->
  summarize_session_events id events = Some (ir_summary r0).
Proof.
  intros Hid. unfold indexed_record_from_events. destruct events as [|first rest]; [done|].
  cbn [head mbind option_bind]. apply Forall_cons in Hid as [-> _].
  destruct (summarize_session_events id _) as [s|]; [|done]. by intros [= <-].
Qed.

(** The summaries of the logs, one per session. *)
Definition log_summary (p : SessionId * list SessionEventEnvelope) : option SessionSummary :=
  summarize_session_events p.1 p.2.

Lemma log_summary_id p s : log_summary p = Some s -> ss_session_id s = p.1.
Proof. destruct p as [id [|e events]]; [done|]. unfold log_summary. simpl. by intros [= <-]. Qed.

(** A list of results, one per session at most, has no two for one session. *)
Lemma per_session_unique {B} (g : SessionId * list SessionEventEnvelope -> option B) (key : B -> SessionId)
    (logs : InMemorySessionStore) x y :
  (forall p b, g p = Some b -> key b = p.1) ->
  x ∈ omap g (map_to_list logs) -> y ∈ omap g (map_to_list logs) -> key x = key y -> x = y.
Proof.
  intros Hk ([i ei] & Hi & Hx)%list_elem_of_omap ([j ej] & Hj & Hy)%list_elem_of_omap E.
  apply logs_elem in Hi, Hj. pose proof (Hk _ _ Hx) as Ex. pose proof (Hk _ _ Hy) as Ey. simpl in *.
  assert (Eij : i = j) by congruence. subst j. congruence.
Qed.

Lemma tracked_summaries st logs :
  store_ok st logs ->
  map ir_summary (ix_sessions (st_index st)).*2 ≡ₚ omap log_summary (map_to_list logs).
Proof.
  intros [_ _ Hids Hok Ht]. change (map ir_summary) with (fmap (M := list) ir_summary). rewrite <- list_fmap_compose.
  etrans; [|apply (tracked_views (fun p => Some (ir_summary p.2)) log_summary); [done | done|]].
  - by rewrite omap_total.
  - intros id events r r0 Hl _ Hr0 [Hs _]. simpl. rewrite Hs. eapply summary_of_record; [by eapply Hids | done].
Qed.

Lemma memory_list_eq (logs : InMemorySessionStore) :
  memory_list_sessions logs = sort_session_summaries (omap log_summary (map_to_list logs)).
Proof.
  unfold memory_list_sessions. f_equal. induction (map_to_list logs) as [|[id events] l IH]; [done|].
  by rewrite !omap_cons_app, IH.
Qed.

Lemma list_sessions_eq st logs : store_ok st logs -> file_list_sessions st = memory_list_sessions logs.
Proof.
  intros Hok. rewrite memory_list_eq. unfold file_list_sessions, sort_session_summaries. symmetry.
  apply (merge_sort_unique summary_compare); [|symmetry; by apply tracked_summaries].
  intros x y Hx Hy [_ E%String.compare_eq_iff]%then_with_eq.
  by eapply (per_session_unique log_summary ss_session_id); [apply log_summary_id|..].
Qed.

Lemma agent_session_ids_eq st logs id :
  store_ok st logs -> file_agent_session_ids st id = memory_agent_session_ids logs id.
Proof.
  intros Hok. unfold file_agent_session_ids, memory_agent_session_ids. rewrite (file_events_eq st logs) by done.
  pose proof (so_index _ _ Hok id) as Ht. unfold tracked, memory_events in *. destruct (logs !! id) as [events|].
  - destruct Ht as (r & r0 & -> & (first & rest & -> & ->)%indexed_record_eq & (_ & -> & _)). done.
  - by rewrite Ht.
Qed.

Lemma tracked_ages sessions (logs : InMemorySessionStore) :
  bt_ok sessions -> (forall id, tracked sessions id (logs !! id)) -> index_ages sessions ≡ₚ log_ages logs.
Proof.
  intros Hok Ht. unfold index_ages, log_ages. rewrite <- !omap_total. apply tracked_views; [done | done|].
  intros id events r r0 _ _ (first & rest & -> & ->)%indexed_record_eq [Hs _]. simpl. by rewrite Hs.
Qed.

End Views.

(** ** What search finds *)

Section SearchSpec.
Context {J : SerdeJson} {U : UnicodeCase}.

Definition event_matches (query_lower : string) (e : SessionEventEnvelope) : bool :=
  existsb (matches_query query_lower) (searchable_session_event_strings e).
Definition message_matches (query_lower : string) (m : Message) : bool :=
  matches_query query_lower (message_search_text m).

Lemma push_unique_length previews c :
  (length previews <= length (push_unique_preview previews c) <= S (length previews))%nat
  /\ push_unique_preview previews c <> [].
Proof.
  unfold push_unique_preview. destruct (existsb _ previews) eqn:E.
  - split; [lia|]. by intros ->.
  - rewrite length_app. simpl. split; [lia|]. by destruct previews.
Qed.

Lemma push_candidates_length candidates : forall previews,
  (length previews <= 3 -> length previews <= length (push_candidates candidates previews) <= 3)%nat
  /\ (candidates <> [] -> push_candidates candidates previews <> []).
Proof.
  induction candidates as [|c rest IH]; intros previews; [by split; [simpl; lia|]|]. cbn [push_candidates].
  destruct (Nat.eqb_spec (length previews) 3) as [E|E].
  - split; [lia|]. intros _ ->. done.
  - destruct (push_unique_length previews (preview_text c 80)) as [Hl Hne].
    destruct (IH (push_unique_preview previews (preview_text c 80))) as [IH1 IH2]. split; [lia|]. intros _.
    destruct rest as [|d rest]; [done|]. by apply IH2.
Qed.

Lemma scan_transcript_spec q messages : forall count previews,
  (length previews <= 3)%nat ->
  let '(n, out) := scan_transcript q messages count previews in
  n = (count + length (List.filter (message_matches q) messages))%nat
  /\ (length previews <= length out <= 3)%nat
  /\ (out = [] <-> previews = [] /\ List.filter (message_matches q) messages = []).
Proof.
  induction messages as [|m messages IH]; intros count previews Hl; simpl.
  { split_and!; [lia | lia | lia | naive_solver]. }
  change (matches_query q (message_search_text m)) with (message_matches q m).
  destruct (message_matches q m); cbn [negb].
  2:{ apply IH. done. }
  set (previews' := if (length previews <? 3)%nat then push_unique_preview previews _ else previews).
  assert (Hp : (length previews <= length previews' <= 3)%nat /\ previews' <> []).
  { unfold previews'. destruct (Nat.ltb_spec (length previews) 3).
    - destruct (push_unique_length previews (preview_text (message_preview_text m) 80)). split; [lia | done].
    - split; [lia|]. intros ->. simpl in *. lia. }
  specialize (IH (S count) previews'). destruct (scan_transcript q messages (S count) previews') as [n out].
  destruct IH as (-> & ? & ?); [lia|]. simpl. split_and!; [lia | lia | lia|]. naive_solver.
Qed.

Lemma preview_candidates_ne q e : event_matches q e = true ->
  preview_candidates q e (List.filter (matches_query q) (searchable_session_event_strings e)) <> [].
Proof.
  intros He. unfold preview_candidates. destruct (List.filter _ (previewable_event_strings e)); [|done]. cbn [negb is_nil].
  destruct (previewable_event_strings e); [|done]. cbn [is_nil]. unfold event_matches in He.
  apply existsb_exists in He as (x & Hx & Hm). intros E.
  assert (Hin : In x []) by (rewrite <- E; by apply filter_In). done.
Qed.

Lemma event_matches_filter q e :
  is_nil (List.filter (matches_query q) (searchable_session_event_strings e)) = negb (event_matches q e).
Proof.
  unfold event_matches. induction (searchable_session_event_strings e) as [|s l IH]; [done|]. simpl.
  by destruct (matches_query q s).
Qed.

(** The count of events stops at the third preview. *)
Lemma scan_events_spec q events : forall count previews,
  (length previews < 3)%nat ->
  let '(n, out) := scan_events q events count previews in
  (count <= n <= count + length (List.filter (event_matches q) events))%nat
  /\ (length out < 3 -> n = count + length (List.filter (event_matches q) events))%nat
  /\ (length previews <= length out <= 3)%nat
  /\ (out = [] <-> previews = [] /\ List.filter (event_matches q) events = []).
Proof.
  induction events as [|e events IH]; intros count previews Hl; cbn [scan_events List.filter].
  { simpl. split_and!; [lia | lia | lia | lia | lia | naive_solver]. }
  rewrite event_matches_filter. destruct (event_matches q e) eqn:He; cbn [negb]; [|by apply IH].
  pose proof (preview_candidates_ne q e He) as Hne.
  destruct (push_candidates_length (preview_candidates q e (List.filter (matches_query q) (searchable_session_event_strings e))) previews) as [H1 H2].
  specialize (H2 Hne). set (previews' := push_candidates _ previews) in *.
  destruct (Nat.eqb_spec (length previews') 3) as [E|E].
  - simpl. split_and!; [lia | lia | lia | lia | lia|]. split; [done|]. by intros [_ ?].
  - specialize (IH (S count) previews'). destruct (scan_events q events (S count) previews') as [n out].
    destruct IH as (? & ? & ? & ?); [lia|]. simpl. split_and!; [lia | lia | lia | lia | lia|].
    split; [naive_solver | by intros [_ ?]].
Qed.

Lemma filter_nil_existsb {A} (f : A -> bool) l : List.filter f l = [] <-> existsb f l = false.
Proof. induction l as [|x l IH]; [done|]. simpl. by destruct (f x). Qed.

End SearchSpec.

(** ** Search in the stores *)

Section SearchRefines.
Context {J : SerdeJson} {U : UnicodeCase} {F : SessionFiles} {C : StoreCodec}.
Context {FL : SessionFilesLaws F} {CL : StoreCodecLaws}.

(** The result of one session in the memory store. *)
Definition log_search (query : string) (p : SessionId * list SessionEventEnvelope)
    : option RankedSessionSearchResult :=
  summary ← log_summary p; search_session_events_ranked summary p.2 query.

Definition result_session (r : SessionSearchResult) : SessionId := ss_session_id (sr_summary r).

Lemma memory_search_eq (logs : InMemorySessionStore) query :
  memory_search_sessions logs query
  = map rk_result (merge_sort ranked_le (omap (log_search query) (map_to_list logs))).
Proof.
  unfold memory_search_sessions, sort_ranked_session_search_results. do 2 f_equal.
  induction (map_to_list logs) as [|[id events] l IH]; [done|]. by rewrite !omap_cons_app, IH.
Qed.

Lemma ranked_summary summary events query r :
  search_session_events_ranked summary events query = Some r -> sr_summary (rk_result r) = summary.
Proof.
  unfold search_session_events_ranked. destruct (str_is_empty _); [by intros [= <-]|].
  destruct (scan_transcript _ _ _ _), (scan_events _ _ _ _). destruct (is_nil _); [done|]. by intros [= <-].
Qed.

Lemma log_search_id query p r : log_search query p = Some r -> result_session (rk_result r) = p.1.
Proof.
  unfold log_search, result_session. intros (s & Hs & Hr)%bind_Some. apply ranked_summary in Hr as ->.
  by apply log_summary_id.
Qed.

Lemma log_search_ties (logs : InMemorySessionStore) query x y :
  x ∈ omap (log_search query) (map_to_list logs) -> y ∈ omap (log_search query) (map_to_list logs) ->
  ranked_compare x y = Eq -> x = y.
Proof.
  intros Hx Hy E. unfold ranked_compare in E. do 6 apply then_with_eq in E as [_ E].
  apply String.compare_eq_iff in E.
  by eapply (per_session_unique (log_search query) (fun r => result_session (rk_result r))); [apply log_search_id|..].
Qed.

(** Whether the index lets a session through to the search of its log. *)
Definition index_selects (st : FileSessionStore) (query : string) (id : SessionId) : bool :=
  match bt_get id (ix_sessions (st_index st)) with
  | Some record => record_matches_query record (to_lowercase (trim query))
  | None => false
  end.

Lemma sorted_filter {A} (R : relation A) (f : A -> bool) l : StronglySorted R l -> StronglySorted R (List.filter f l).
Proof.
  induction 1 as [|x l Hs IH Hx]; [constructor|]. simpl. destruct (f x); [|done]. constructor; [done|].
  apply Forall_forall. intros y [Hy _]%list_elem_of_In%filter_In. apply list_elem_of_In in Hy.
  by eapply Forall_forall in Hx.
Qed.

Lemma filter_perm {A} (f : A -> bool) l1 l2 : l1 ≡ₚ l2 -> List.filter f l1 ≡ₚ List.filter f l2.
Proof.
  induction 1; simpl; [done | by destruct (f x); [constructor|] | | by etrans].
  destruct (f x), (f y); try done. apply perm_swap.
Qed.

(** Selecting before sorting is selecting after it. *)
Lemma sort_filter (f : RankedSessionSearchResult -> bool) l1 l2 :
  (forall x y, x ∈ l2 -> y ∈ l2 -> ranked_compare x y = Eq -> x = y) -> l1 ≡ₚ List.filter f l2 ->
  merge_sort ranked_le l1 = List.filter f (merge_sort ranked_le l2).
Proof.
  intros Hties Hp. pose proof (cmp_le_trans (Hc := ordering_ranked)). pose proof (cmp_le_total (Hc := ordering_ranked)).
  apply (StronglySorted_unique_strong ranked_le).
  - intros x y Hx Hy Hxy Hyx. rewrite merge_sort_Permutation, Hp in Hx. apply list_elem_of_In, filter_In in Hx as [Hx _], Hy as [Hy _].
    apply list_elem_of_In in Hx, Hy. rewrite merge_sort_Permutation in Hy.
    apply Hties; [done | done|]. by apply (cmp_le_tie (Hc := ordering_ranked)).
  - by apply StronglySorted_merge_sort.
  - apply sorted_filter. by apply StronglySorted_merge_sort.
  - rewrite merge_sort_Permutation, Hp. apply filter_perm. by rewrite merge_sort_Permutation.
Qed.

Lemma map_result_map {A B} (f : A -> result B SessionStoreError) (g : A -> B) l :
  (forall x, x ∈ l -> f x = Ok (g x)) -> map_result f l = Ok (map g l).
Proof.
  intros H. apply map_result_Ok. induction l as [|x l IH]; [constructor|].
  constructor; [apply H; by left | apply IH; intros y Hy; apply H; by right].
Qed.

Lemma omap_id_map {A B} (f : A -> option B) l : omap id (map f l) = omap f l.
Proof. induction l as [|x l IH]; [done|]. cbn [map]. by rewrite !omap_cons_app, IH. Qed.

Lemma ranked_trim summary events query :
  search_session_events_ranked summary events (trim query) = search_session_events_ranked summary events query.
Proof. unfold search_session_events_ranked. by rewrite trim_idem. Qed.

(** Only the candidates of the index are read. *)
Definition candidate_search (logs : InMemorySessionStore) (query : string) (p : SessionId * IndexedSessionRecord)
    : option RankedSessionSearchResult :=
  if record_matches_query p.2 (to_lowercase (trim query))
  then search_session_events_ranked (ir_summary p.2) (default [] (logs !! p.1)) query else None.

Lemma record_id st logs id r :
  store_ok st logs -> (id, r) ∈ ix_sessions (st_index st) ->
  exists events, logs !! id = Some events /\ log_summary (id, events) = Some (ir_summary r).
Proof.
  intros [_ _ Hids Hk Ht] Hin. apply bt_In_get in Hin; [|done]. specialize (Ht id). unfold tracked in Ht.
  destruct (logs !! id) as [events|] eqn:E; [|congruence]. destruct Ht as (r' & r0 & Hr' & Hr0 & [Hs _]).
  exists events. split; [done|]. assert (r' = r) as -> by congruence. rewrite Hs.
  eapply summary_of_record; [by eapply Hids | done].
Qed.

Lemma file_search_candidates st (logs : InMemorySessionStore) query :
  store_ok st logs -> str_is_empty (trim query) = false ->
  file_search_sessions st query
  = Ok (map rk_result (merge_sort ranked_le (omap (candidate_search logs query) (ix_sessions (st_index st))))).
Proof.
  intros Hok Hq. unfold file_search_sessions. rewrite Hq.
  set (ev := fun s => default [] ((logs : InMemorySessionStore) !! ss_session_id s)).
  pose proof (fun id r => record_id st logs id r Hok) as Hrec.
  rewrite (map_result_map _ (fun s => search_session_events_ranked s (ev s) query)).
  - cbn [result_bind]. rewrite omap_id_map. unfold sort_ranked_session_search_results. do 3 f_equal.
    induction (ix_sessions (st_index st)) as [|[id r] l IH]; [done|]. rewrite omap_cons_app.
    change (((id, r) :: l).*2) with (r :: l.*2). cbn [List.filter]. unfold candidate_search at 1. cbn [fst snd].
    rewrite <- IH by (intros i x Hx; apply Hrec; by right).
    destruct (Hrec id r) as (events & Hl & Hs); [by left|]. apply log_summary_id in Hs. simpl in Hs.
    destruct (record_matches_query r _); [|done]. cbn [map]. rewrite omap_cons_app. unfold ev at 1. by rewrite Hs.
  - intros s (r & -> & Hr)%list_elem_of_fmap. apply list_elem_of_In, filter_In in Hr as [Hr _].
    apply list_elem_of_In, list_elem_of_fmap in Hr as ([id x] & -> & Hr).
    destruct (Hrec id x Hr) as (events & Hl & Hs%log_summary_id). simpl in *.
    rewrite (file_events_eq st logs) by done. unfold memory_events, ev. rewrite Hs, Hl. simpl. by rewrite ranked_trim.
Qed.

Lemma candidates_selected st (logs : InMemorySessionStore) query :
  store_ok st logs ->
  omap (candidate_search logs query) (ix_sessions (st_index st))
  ≡ₚ List.filter (fun r => index_selects st query (result_session (rk_result r)))
       (omap (log_search query) (map_to_list logs)).
Proof.
  intros Hok. etrans; [apply (tracked_views _ (fun p => r ← log_search query p;
      if index_selects st query p.1 then Some r else None)); [apply Hok | apply Hok|] |].
  - intros id events r r0 Hl Hb Hr0 [Hs _]. unfold log_search, candidate_search, index_selects, log_summary.
    cbn [fst snd]. rewrite Hb, Hl. rewrite (summary_of_record id events r0) by (try done; by eapply so_ids).
    cbn [mbind option_bind default]. rewrite Hs. destruct (record_matches_query _ _); [|by destruct (search_session_events_ranked _ _ _)].
    by destruct (search_session_events_ranked _ _ _).
  - match goal with |- ?a ≡ₚ ?b => cut (a = b); [by intros ->|] end. induction (map_to_list logs) as [|p l IH]; [done|]. rewrite !omap_cons_app, IH.
    rewrite List.filter_app. f_equal. destruct (log_search query p) as [r|] eqn:E; [|done].
    apply log_search_id in E. simpl. rewrite E. by destruct (index_selects st query p.1).
Qed.

Lemma empty_ranked summary events query :
  str_is_empty (trim query) = true ->
  search_session_events_ranked summary events query
  = Some (mkRankedSessionSearchResult (mkSessionSearchResult summary 0 []) false false 0 0).
Proof. unfold search_session_events_ranked. by intros ->. Qed.

Lemma map_filter_comm {A B} (f : A -> B) (p : B -> bool) l :
  map f (List.filter (fun x => p (f x)) l) = List.filter p (map f l).
Proof. induction l as [|x l IH]; [done|]. simpl. destruct (p (f x)); simpl; by rewrite IH. Qed.

(** Without a query every session is a result. *)
Definition listed (s : SessionSummary) : RankedSessionSearchResult :=
  mkRankedSessionSearchResult (mkSessionSearchResult s 0 []) false false 0 0.

Lemma sorted_map {A B} (R : relation A) (R' : relation B) (f : A -> B) l :
  (forall x y, R x y -> R' (f x) (f y)) -> StronglySorted R l -> StronglySorted R' (map f l).
Proof.
  intros Hf. induction 1 as [|x l Hs IH Hx]; [constructor|]. simpl. constructor; [done|].
  apply Forall_map. eapply Forall_impl; [exact Hx|]. simpl. auto.
Qed.

Lemma sort_listed (logs : InMemorySessionStore) :
  merge_sort ranked_le (map listed (omap log_summary (map_to_list logs)))
  = map listed (merge_sort summary_le (omap log_summary (map_to_list logs))).
Proof.
  pose proof (cmp_le_trans (Hc := ordering_ranked)). pose proof (cmp_le_total (Hc := ordering_ranked)).
  pose proof (cmp_le_trans (Hc := ordering_summary)). pose proof (cmp_le_total (Hc := ordering_summary)).
  apply (StronglySorted_unique_strong ranked_le).
  - intros x y Hx Hy Hxy Hyx. rewrite merge_sort_Permutation in Hx.
    apply list_elem_of_fmap in Hx as (a & -> & Ha), Hy as (b & -> & Hb). rewrite merge_sort_Permutation in Hb.
    f_equal. assert (E : summary_compare a b = Eq) by (by apply (cmp_le_tie (Hc := ordering_summary))).
    apply then_with_eq in E as [_ E%String.compare_eq_iff].
    by eapply (per_session_unique log_summary ss_session_id); [apply log_summary_id|..].
  - by apply StronglySorted_merge_sort.
  - apply (sorted_map summary_le); [by intros x y|]. by apply StronglySorted_merge_sort.
  - change (map listed) with (fmap (M := list) listed). by rewrite !merge_sort_Permutation.
Qed.

Lemma empty_search_eq st (logs : InMemorySessionStore) query :
  store_ok st logs -> str_is_empty (trim query) = true ->
  file_search_sessions st query = Ok (memory_search_sessions logs query).
Proof.
  intros Hok Hq. unfold file_search_sessions. rewrite Hq, (list_sessions_eq st logs), memory_search_eq by done.
  assert (E : omap (log_search query) (map_to_list logs) = map listed (omap log_summary (map_to_list logs))).
  { induction (map_to_list logs) as [|p l IH]; [done|]. rewrite !omap_cons_app, IH, map_app. f_equal.
    unfold log_search. destruct (log_summary p); [|done]. simpl. by rewrite empty_ranked. }
  rewrite E, sort_listed, map_map, memory_list_eq. done.
Qed.

End SearchRefines.

(** ** Theorems *)

(** C6.  A successful append of a batch to the file store is the append of the batch to the
    memory store with the same logs followed by retention.  The sessions that go are those
    whose last event is older than the allowed age or that have at least the allowed
    number of younger sessions before them; for the others the two stores return the same
    events, the same agent sessions and the same sorted list of summaries, although the
    file store keeps its summaries event by event in the index.  Message ids are not used
    twice, and the directory and the JSON encoding satisfy their laws. *)
Theorem file_store_refines_memory_store {J : SerdeJson} {F : SessionFiles} {C : StoreCodec}
    {FL : SessionFilesLaws F} {CL : StoreCodecLaws} (st st' : FileSessionStore) (logs : InMemorySessionStore)
    (batch : list SessionEventEnvelope) (now : N) :
  store_ok st logs -> fresh_batch logs batch -> batch <> [] ->
  append_locked_events st batch now = (Ok tt, st') ->
  let after := memory_append_batch logs batch in
  exists pruned, let kept := memory_prune pruned after in
    (forall id, id ∈ pruned <-> exists last, (id, last) ∈ log_ages after
                               /\ expired (st_retention st) now (log_ages after) (id, last))
    /\ store_ok st' kept
    /\ (forall id, file_events st' id = memory_events kept id)
    /\ (forall id, file_agent_session_ids st' id = memory_agent_session_ids kept id)
    /\ file_list_sessions st' = memory_list_sessions kept.
Proof.
  intros Hok Hf Hne Happ after. destruct (append_locked_ok _ _ _ _ _ Hok Hf Hne Happ) as (sessions & Hk & Ht & Hok' & _).
  fold after in Ht, Hok'. eexists. split; [|split; [exact Hok'|split_and!]].
  - intros id. rewrite select_sessions_spec by done. cbn [with_sessions ix_sessions].
    pose proof (tracked_ages _ _ Hk Ht) as Hp. by setoid_rewrite Hp.
  - intros id. by apply file_events_eq.
  - intros id. by apply agent_session_ids_eq.
  - by apply list_sessions_eq.
Qed.


(** The four ways in which a session can match, as booleans. *)
Lemma search_cases {J : SerdeJson} {U : UnicodeCase} q summary events :
  (matches_query q (ss_session_id summary) = true
   \/ (exists p, ss_last_user_prompt summary = Some p /\ matches_query q p = true)
   \/ (exists m, m ∈ visible_transcript events /\ message_matches q m = true)
   \/ (exists e s, e ∈ events /\ s ∈ searchable_session_event_strings e /\ matches_query q s = true))
  <-> (matches_query q (ss_session_id summary) = true
       \/ (exists p, ss_last_user_prompt summary = Some p /\ matches_query q p = true)
       \/ existsb (message_matches q) (visible_transcript events) = true
       \/ existsb (event_matches q) events = true).
Proof.
  rewrite !existsb_exists. unfold event_matches. setoid_rewrite existsb_exists.
  setoid_rewrite list_elem_of_In. naive_solver.
Qed.

Lemma search_prompt {J : SerdeJson} {U : UnicodeCase} q summary :
  (exists p, ss_last_user_prompt summary = Some p /\ matches_query q p = true)
  <-> match ss_last_user_prompt summary with Some p => matches_query q p | None => false end = true.
Proof. destruct (ss_last_user_prompt summary); naive_solver. Qed.

(** What the search of one session reports for a query that is not blank.  It finds
    the session exactly when the session id, the last prompt, a visible message or a
    searchable string of an event contains the query; a result shows one to three
    previews and counts every matching message; its count of matching events is never
    too high, and exact unless the events supplied three previews. *)
Theorem search_finds_exactly {J : SerdeJson} {U : UnicodeCase} (summary : SessionSummary)
    (events : list SessionEventEnvelope) (query : string) :
  str_is_empty (trim query) = false ->
  let q := to_lowercase (trim query) in
  (is_Some (search_session_events_ranked summary events query)
   <-> matches_query q (ss_session_id summary) = true
       \/ (exists p, ss_last_user_prompt summary = Some p /\ matches_query q p = true)
       \/ (exists m, m ∈ visible_transcript events /\ message_matches q m = true)
       \/ (exists e s, e ∈ events /\ s ∈ searchable_session_event_strings e /\ matches_query q s = true))
  /\ (forall r, search_session_events_ranked summary events query = Some r ->
       (1 <= length (sr_preview_matches (rk_result r)) <= 3)%nat
       /\ rk_transcript_match_count r = length (List.filter (message_matches q) (visible_transcript events))
       /\ (rk_metadata_match_count r <= length (List.filter (event_matches q) events))%nat
       /\ ((length (sr_preview_matches (rk_result r)) < 3)%nat ->
            rk_metadata_match_count r = length (List.filter (event_matches q) events))).
Proof.
  intros Hq q. rewrite search_cases, search_prompt. unfold search_session_events_ranked. rewrite Hq. fold q.
  pose proof (scan_transcript_spec q (visible_transcript events) 0 []) as Ht.
  pose proof (scan_events_spec q events 0 []) as He.
  destruct (scan_transcript q _ 0 []) as [nt pt]. destruct (scan_events q events 0 []) as [ne pe].
  destruct Ht as (-> & Hpt & Ht); [simpl; lia|]. destruct He as (Hne & Hexact & Hpe & He); [simpl; lia|].
  simpl in Hpt, Hpe, Hne, Hexact. rewrite filter_nil_existsb in Ht. rewrite filter_nil_existsb in He.
  set (id_match := matches_query q (ss_session_id summary)).
  set (prompt_match := match ss_last_user_prompt summary with Some p => matches_query q p | None => false end).
  set (own := (if id_match then _ else []) ++ _).
  assert (Hown : length own = 0%nat <-> id_match = false /\ prompt_match = false)
    by (unfold own; destruct id_match, prompt_match; simpl; split; lia || done || tauto).
  clearbody own. split.
  - assert (Hnil : is_nil (take 3 (own ++ pe ++ pt)) = true
      <-> (id_match = false /\ prompt_match = false) /\ existsb (event_matches q) events = false
          /\ existsb (message_matches q) (visible_transcript events) = false).
    { rewrite <- Hown. destruct own, pe, pt; simpl in *; intuition (try done; try lia). }
    destruct (is_nil (take 3 (own ++ pe ++ pt))).
    + destruct Hnil as [[[-> ->] [-> ->]] _]; [done|]. split; [by intros [? ?]|]. by intros [?|[?|[?|?]]].
    + split; [intros _ | by eexists]. destruct id_match; [by left|]. destruct prompt_match; [by right; left|].
      destruct (existsb (message_matches q) _); [by right; right; left|].
      destruct (existsb (event_matches q) _); [by right; right; right|]. by destruct Hnil as [_ Hnil]; discriminate Hnil.
  - intros r. destruct (take 3 (own ++ pe ++ pt)) as [|x l] eqn:E; cbn [is_nil]; [done|]. intros [= <-].
    cbn [rk_result sr_preview_matches rk_transcript_match_count rk_metadata_match_count].
    assert (Hlen : length (x :: l) = Nat.min 3 (length own + (length pe + length pt)))
      by (rewrite <- E; by rewrite length_take, !length_app).
    rewrite Hlen. assert (length (x :: l) <> 0%nat) by done. split_and!; [lia | lia | done | lia|].
    intros Hlt. apply Hexact. lia.
Qed.


(** ** A directory in memory *)

Module StoreDemo.

#[export] Existing Instance json_text.
#[export] Instance ascii_case : UnicodeCase := {| to_lowercase := to_ascii_lowercase |}.

#[export] Instance memory_dir : SessionFiles := {|
  SFiles := gmap string string;
  sf_create_dir := fun d => (Ok tt, d);
  sf_open_append := fun n d => (Ok tt, <[n := default "" (d !! n)]> d);
  sf_write := fun n t d =>
    match d !! n with Some old => (Ok tt, <[n := old +:+ t]> d) | None => (Err "not open", d) end;
  sf_flush := fun _ d => (Ok tt, d);
  sf_exists := fun n d => Ok (bool_decide (is_Some (d !! n)));
  sf_read := fun n d => match d !! n with Some t => Ok t | None => Err "not found" end;
  sf_remove := fun n d => (Ok tt, delete n d);
  sf_write_file := fun n t d => (Ok tt, <[n := t]> d);
  sf_rename := fun a b d => match d !! a with
                            | Some t => (Ok tt, <[b := t]> (delete a d))
                            | None => (Err "not found", d)
                            end;
  sf_list := fun d => Ok (map_to_list d).*1
|}.

#[export] Instance memory_dir_laws : SessionFilesLaws memory_dir.
Proof.
  refine (Build_SessionFilesLaws memory_dir (fun d n => (d : gmap string string) !! n) _ _ _ _ _ _ _ _ _); simpl.
  - by intros n d t ->.
  - done.
  - by intros d d' k [= <-].
  - intros n d d' k [= <-]. destruct (decide (k = n)) as [->|]; [by rewrite lookup_insert_eq | by rewrite lookup_insert_ne].
  - intros n t d d' old k -> [= <-].
    destruct (decide (k = n)) as [->|]; [by rewrite lookup_insert_eq | by rewrite lookup_insert_ne].
  - by intros n d d' k [= <-].
  - intros n d d' k [= <-]. destruct (decide (k = n)) as [->|]; [by rewrite lookup_delete_eq | by rewrite lookup_delete_ne].
  - intros n t d d' k [= <-]. destruct (decide (k = n)) as [->|]; [by rewrite lookup_insert_eq | by rewrite lookup_insert_ne].
  - intros a b d d' k. destruct (d !! a) as [t|] eqn:E; intros [= <-].
    destruct (decide (k = b)) as [->|]; [by rewrite lookup_insert_eq|]. rewrite lookup_insert_ne by done.
    destruct (decide (k = a)) as [->|]; [by rewrite lookup_delete_eq | by rewrite lookup_delete_ne].
Defined.

(** Two sessions with a message each, and their JSON lines. *)
Definition demo_message (session message text : string) (now : N) : SessionEventEnvelope :=
  mkSessionEventEnvelope ("e-" +:+ message) session ("a-" +:+ session) None None now
    (Ev_TranscriptMessage (mkMessage Role_User [Part_Text text] None message ∅)).
Definition first_event : SessionEventEnvelope := demo_message "s1" "m1" "Hello  World" 10%N.
Definition second_event : SessionEventEnvelope := demo_message "s2" "m2" "Good night" 20%N.

Definition message_fields (e : SessionEventEnvelope)
    : option (EventId * SessionId * AgentSessionId * option TurnId * option ToolCallId * N * Message) :=
  match env_event e with
  | Ev_TranscriptMessage m =>
      Some (env_id e, env_session_id e, env_agent_session_id e, env_turn_id e, env_tool_call_id e,
            env_timestamp_ms e, m)
  | _ => None
  end.

Lemma message_fields_inj a b : is_Some (message_fields a) -> message_fields a = message_fields b -> a = b.
Proof.
  unfold message_fields. destruct a as [? ? ? ? ? ? []], b as [? ? ? ? ? ? []]; simpl;
    intros [? ?]; try done. by intros [= -> -> -> -> -> -> ->].
Qed.

#[export] Instance demo_codec : StoreCodec := {|
  encode_event := fun e =>
    if bool_decide (message_fields e = message_fields first_event) then Ok "{1}"
    else if bool_decide (message_fields e = message_fields second_event) then Ok "{2}"
    else Err "not an event of the example";
  decode_event := fun s =>
    if String.eqb s "{1}" then Ok first_event
    else if String.eqb s "{2}" then Ok second_event else Err "expected an event";
  encode_index := fun _ => Ok "{}";
  decode_index := fun _ => Err "expected an index"
|}.

#[export] Instance demo_codec_laws : StoreCodecLaws.
Proof.
  split; intros e s; simpl; repeat case_bool_decide; intros [= <-]; simpl; try (by vm_compute).
  - f_equal. symmetry. by apply message_fields_inj; [rewrite H|].
  - f_equal. symmetry. by apply message_fields_inj; [rewrite H0|].
Qed.

Definition empty_store (retention : SessionStoreRetentionPolicy) : FileSessionStore :=
  mkFileSessionStore index_default (∅ : gmap string string) retention.

Lemma empty_store_ok retention : store_ok (empty_store retention) ∅.
Proof. split; try done. constructor. Qed.

End StoreDemo.

Import StoreDemo.

(** A result that is known to succeed. *)
Lemma succeeded {S E} (r : result unit E * S) : is_ok r.1 = true -> r = (Ok tt, r.2).
Proof. by destruct r as [[[]|] ?]. Qed.

Lemma file_store_refines_memory_store_witness :
  exists pruned, "s1" ∈ pruned
    /\ file_list_sessions (append_locked_events (StoreDemo.empty_store (mkRetention (Some 1%nat) None))
          [StoreDemo.first_event; StoreDemo.second_event] 30%N).2
       = memory_list_sessions (memory_prune pruned
           (memory_append_batch ∅ [StoreDemo.first_event; StoreDemo.second_event])).
Proof.
  destruct (file_store_refines_memory_store (StoreDemo.empty_store (mkRetention (Some 1%nat) None))
    (append_locked_events (StoreDemo.empty_store (mkRetention (Some 1%nat) None))
          [StoreDemo.first_event; StoreDemo.second_event] 30%N).2 ∅
    [StoreDemo.first_event; StoreDemo.second_event] 30%N) as (pruned & Hp & _ & _ & _ & Hl).
  - apply StoreDemo.empty_store_ok.
  - repeat (split; [intros m [= <-]; split; apply (bool_decide_unpack _); by vm_compute | split; [done|]]). done.
  - done.
  - apply succeeded. by vm_compute.
  - exists pruned. split; [|exact Hl]. apply Hp. exists 10%N. split.
    + apply (bool_decide_unpack _). by vm_compute.
    + right. exists 1%nat. split; [done|]. vm_compute. lia.
Defined.

Definition one_session : FileSessionStore :=
  (append_locked_events (empty_store (mkRetention None None)) [first_event] 30%N).2.

Lemma one_session_ok : store_ok one_session (memory_append ∅ first_event).
Proof.
  destruct (append_locked_ok (empty_store (mkRetention None None)) ∅ [first_event] 30%N one_session)
    as (sessions & _ & _ & Hok & _); [apply empty_store_ok | | done | by apply succeeded; vm_compute|].
  - split; [|done]. intros m [= <-]. split; apply (bool_decide_unpack _); by vm_compute.
  - unfold select_sessions_to_prune in Hok. cbn [with_sessions ix_sessions st_retention empty_store ret_max_sessions] in Hok.
    assert (Hnone : List.filter (fun p => too_old (mkRetention None None) 30%N p.2) sessions = [])
      by (clear; induction sessions; done).
    rewrite Hnone in Hok. exact Hok.
Qed.


Lemma search_finds_exactly_witness :
  is_Some (summary ← summarize_session_events "s1" [first_event]; search_session_events_ranked summary [first_event] " WORLD ").
Proof.
  destruct (summarize_session_events "s1" [first_event]) as [summary|] eqn:E; [|done].
  cbn [mbind option_bind]. apply (search_finds_exactly summary [first_event] " WORLD "); [done|].
  right; right; left. exists (mkMessage Role_User [Part_Text "Hello  World"] None "m1" ∅). split; [|by vm_compute].
  apply (bool_decide_unpack _). by vm_compute.
Defined.
