(* ===== verification/StoreReports.v ===== *)
(** * Token usage reports and memory export: theorems

    The report of token usage does not depend on the order in which the logs of the
    children arrive, and the groups of a memory export hold exactly the events of their
    agent session, and only events of the log in order for subagents and tasks. *)

From Stdlib Require Import Ascii String.
From stdpp Require Import base list gmap sets sorting strings.
From Stdlib Require Import Lia.
From S2P Require Import Prelude Text BTree Message Events Errors Replay AgentSessions StoreSearch StoreExport SessionStores.
From S2P Require Import StoreProps StoreOrder StoreRefine StoreClaims.

Section Reports.
Context {J : SerdeJson}.

Lemma accumulate_comm u a b : accumulate (accumulate u a) b = accumulate (accumulate u b) a.
Proof. unfold accumulate. simpl. f_equal; unfold saturating_add; lia. Qed.

(** What a read child adds to the report. *)
Definition child_outcome := result (ResolvedChildSessionTokenUsageContext * option TokenLedgerSnapshot) SessionStoreError.
Definition child_record (scope : TokenUsageScope) (child : child_outcome) : option TokenUsageRecord :=
  match child with
  | Ok (c, Some ledger) => Some (mkTokenUsageRecord scope (rctx_session_id c) (rctx_agent_session_id c)
                                   (rctx_agent_name c) (rctx_task_id c) ledger)
  | _ => None
  end.
Definition child_usage (child : child_outcome) : option TokenUsage :=
  match child with Ok (_, Some ledger) => Some (ledger_cumulative_usage ledger) | _ => None end.
Definition read_ok (child : child_outcome) : bool := match child with Ok _ => true | Err _ => false end.

Lemma report_children_ok children : forall subagents tasks aggregate,
  forallb read_ok children = true ->
  report_children children subagents tasks aggregate
  = Ok (subagents ++ omap (child_record Scope_Subagent) children,
        tasks ++ omap (child_record Scope_Task) children,
        foldl accumulate aggregate (omap child_usage children)).
Proof.
  induction children as [|[[c [ledger|]]|e] rest IH]; intros subagents tasks aggregate Hok; simpl in Hok;
    [by rewrite !app_nil_r| | |done]; cbn [report_children]; rewrite IH by done; rewrite !omap_cons_app;
    rewrite <- ?app_assoc; done.
Qed.

Lemma report_children_err children : forall subagents tasks aggregate,
  forallb read_ok children = false -> exists e, report_children children subagents tasks aggregate = Err e
    /\ Err e ∈ children.
Proof.
  induction children as [|[[c [ledger|]]|e] rest IH]; intros subagents tasks aggregate Hok; simpl in Hok; [done| | |].
  - edestruct IH as (e & He & Hin); [done|]. exists e. cbn [report_children]. rewrite He. split; [done | by right].
  - edestruct IH as (e & He & Hin); [done|]. exists e. cbn [report_children]. rewrite He. split; [done | by right].
  - exists e. split; [done | by left].
Qed.

#[global] Instance forallb_perm {A} (f : A -> bool) : Proper ((≡ₚ) ==> eq) (forallb f).
Proof.
  intros l1 l2 Hp. apply eq_true_iff_eq. rewrite !forallb_forall. setoid_rewrite <- list_elem_of_In.
  split; intros H x Hx; apply H; [by rewrite Hp | by rewrite <- Hp].
Qed.

Lemma foldl_accumulate_perm l1 l2 : l1 ≡ₚ l2 -> forall u, foldl accumulate u l1 = foldl accumulate u l2.
Proof.
  induction 1 as [|x l1 l2 _ IH|x y l|l1 l2 l3 _ IH1 _ IH2]; intros u; simpl; [done | apply IH | by rewrite accumulate_comm|].
  by rewrite IH1.
Qed.

End Reports.

(** ** Groups of a memory export *)

Section Groups.
Context {J : SerdeJson}.

Definition event_lists (g : btree ScopedMemoryExportEvents) : list (list SessionEventEnvelope) := map sco_events g.*2.

(** Every group holds events of the log, in its order. *)
Definition groups_within (events : list SessionEventEnvelope) (g : btree ScopedMemoryExportEvents) : Prop :=
  forall k group, bt_get k g = Some group -> sco_events group `sublist_of` events.

Lemma groups_within_snoc events e g : groups_within events g -> groups_within (events ++ [e]) g.
Proof. intros H k group Hk. apply sublist_inserts_r. by eapply H. Qed.

Lemma groups_within_update events e f k g :
  groups_within events g -> (forall group, sco_events (f group) = sco_events group ++ [e]) ->
  groups_within (events ++ [e]) (bt_update scoped_default f k g).
Proof.
  intros H Hf j group. unfold bt_update. rewrite bt_get_insert. destruct (String.eqb_spec j k) as [->|Hne].
  - intros [= <-]. rewrite Hf. apply sublist_app; [|done]. destruct (bt_get k g) as [old|] eqn:E; simpl.
    + by eapply H.
    + apply sublist_nil_l.
  - intros Hj. by eapply groups_within_snoc.
Qed.

Lemma apply_context_events group c fallback :
  sco_events (apply_memory_export_context group c fallback) = sco_events group.
Proof. done. Qed.

Lemma push_both_within events g agent_id aid name task e :
  groups_within events (grp_subagents g) -> groups_within events (grp_tasks g) ->
  groups_within (events ++ [e]) (grp_subagents (push_both g agent_id aid name task e))
  /\ groups_within (events ++ [e]) (grp_tasks (push_both g agent_id aid name task e))
  /\ grp_agent_sessions (push_both g agent_id aid name task e) = grp_agent_sessions g.
Proof.
  intros Hs Ht. unfold push_both. destruct (update_agent_memory_export_context _ _ _ _ _) as [c contexts]. simpl.
  split; [by apply groups_within_update|]. split; [|done].
  destruct task as [t|]; [by apply groups_within_update|].
  destruct (actx_task_id c); [by apply groups_within_update | by apply groups_within_snoc].
Qed.

Lemma group_event_spec events g e :
  groups_within events (grp_subagents g) -> groups_within events (grp_tasks g) ->
  groups_within (events ++ [e]) (grp_subagents (group_event g e))
  /\ groups_within (events ++ [e]) (grp_tasks (group_event g e))
  /\ grp_agent_sessions (group_event g e)
     = bt_update [] (fun events => events ++ [e]) (env_agent_session_id e) (grp_agent_sessions g).
Proof.
  intros Hs Ht. unfold group_event. destruct (env_event e);
    try (split_and!; [by apply groups_within_snoc | by apply groups_within_snoc | done]);
    try (by apply push_both_within).
  - split_and!; [by apply groups_within_snoc | by apply groups_within_update | done].
  - split_and!; [|by apply groups_within_update | done]. cbn [grp_subagents].
    destruct (_ || _); [by apply groups_within_update | by apply groups_within_snoc].
  - destruct (AgentEnvelope_kind _); by apply push_both_within.
Qed.

Lemma group_events_spec events :
  let g := group_events_for_memory_export events in
  groups_within events (grp_subagents g) /\ groups_within events (grp_tasks g)
  /\ forall a, bt_get a (grp_agent_sessions g)
       = match base.filter (fun e => env_agent_session_id e = a) events with [] => None | l => Some l end.
Proof.
  unfold group_events_for_memory_export. induction events as [|e events (IH1 & IH2 & IH3)] using rev_ind; [done|].
  rewrite foldl_app. cbn [foldl]. set (g := foldl group_event _ events) in *.
  destruct (group_event_spec events g e IH1 IH2) as (H1 & H2 & H3). split_and!; [done | done|].
  intros a. rewrite H3. unfold bt_update. rewrite bt_get_insert, filter_app, filter_cons, filter_nil.
  destruct (String.eqb_spec a (env_agent_session_id e)) as [->|Hne].
  - rewrite decide_True, IH3 by done. destruct (base.filter _ events); done.
  - rewrite decide_False, app_nil_r by done. apply IH3.
Qed.

End Groups.

(** ** Theorems *)

(** The token usage report of a session does not depend on the order in which the logs
    of its children are read, although they are folded as they arrive: for two orders the
    reports both fail or both succeed, with the same session and agent-session records,
    the same records for children up to order and the same aggregate, even when a counter
    saturates. *)
Theorem token_usage_order_free {J : SerdeJson}
    (fetch : SessionId -> result (list SessionEventEnvelope) SessionStoreError)
    (arrival1 arrival2 : forall A, list A -> list A) (session_id : SessionId) :
  (forall A l, arrival1 A l ≡ₚ l) -> (forall A l, arrival2 A l ≡ₚ l) ->
  match token_usage fetch arrival1 session_id, token_usage fetch arrival2 session_id with
  | Ok r1, Ok r2 =>
      rep_session r1 = rep_session r2 /\ rep_agent_sessions r1 = rep_agent_sessions r2
      /\ rep_subagents r1 ≡ₚ rep_subagents r2 /\ rep_tasks r1 ≡ₚ rep_tasks r2
      /\ rep_aggregate_usage r1 = rep_aggregate_usage r2
  | Err _, Err _ => True
  | _, _ => False
  end.
Proof.
  intros H1 H2. unfold token_usage. destruct (fetch session_id) as [root|e]; [|done]. cbn [result_bind].
  set (children := map _ (collect_child_run_token_usage_contexts root)). set (aggregate := default TokenUsage_default _).
  assert (Hp : arrival1 _ children ≡ₚ arrival2 _ children) by (by rewrite H1, H2).
  destruct (forallb read_ok (arrival1 _ children)) eqn:E1; assert (E2 := E1); rewrite Hp in E2.
  - rewrite !report_children_ok by done. cbn [result_bind rep_session rep_agent_sessions rep_subagents rep_tasks
      rep_aggregate_usage]. split_and!; [done | done | by rewrite Hp | by rewrite Hp|].
    apply foldl_accumulate_perm. by rewrite Hp.
  - destruct (report_children_err _ [] [] aggregate E1) as (e1 & -> & _).
    by destruct (report_children_err _ [] [] aggregate E2) as (e2 & -> & _).
Qed.

(** The groups of a memory export.  An agent session's group holds exactly its events,
    in the order of the log, and there is a group for an agent session exactly when it has
    an event; the groups of subagents and tasks hold events of the log in its order, each
    once. *)
Theorem memory_export_groups_exact {J : SerdeJson} (events : list SessionEventEnvelope) :
  let g := group_events_for_memory_export events in
  (forall a, bt_get a (grp_agent_sessions g)
     = match base.filter (fun e => env_agent_session_id e = a) events with [] => None | l => Some l end)
  /\ (forall k group, bt_get k (grp_subagents g) = Some group -> sco_events group `sublist_of` events)
  /\ (forall k group, bt_get k (grp_tasks g) = Some group -> sco_events group `sublist_of` events).
Proof. destruct (group_events_spec events) as (H1 & H2 & H3). by split_and!. Qed.

Import StoreDemo.

Lemma token_usage_order_free_witness :
  match token_usage (memory_events (memory_append ∅ first_event)) (fun A l => l) "s1",
        token_usage (memory_events (memory_append ∅ first_event)) (fun A l => rev l) "s1" with
  | Ok r1, Ok r2 => rep_aggregate_usage r1 = rep_aggregate_usage r2
  | _, _ => False
  end.
Proof.
  pose proof (token_usage_order_free (memory_events (memory_append ∅ first_event)) (fun A l => l)
    (fun A l => rev l) "s1" (fun A l => reflexivity l) (fun A l => symmetry (Permutation_rev l))) as H.
  destruct (token_usage _ (fun A l => l) "s1") as [r1|] eqn:E1; [|by vm_compute in E1].
  destruct (token_usage _ (fun A l => rev l) "s1") as [r2|] eqn:E2; [|by vm_compute in E2].
  apply H.
Defined.

(** ** Behaviours worth knowing *)

(** The log of a parent right after a spawn was requested. *)
Definition spawn_requested : SessionEventEnvelope :=
  mkSessionEventEnvelope "e1" "root" "a-root" None None 1
    (Ev_AgentEnvelope (mkAgentEnvelope "v1" "child" (Some "parent") "child-session" "a-child" 1
       (EnvelopeKind_SpawnRequested (demo_task "t" [])))).

(** The report of the parent fails until the child has logged an event. *)
Theorem token_usage_fails_for_new_child :
  token_usage (memory_events (memory_append ∅ spawn_requested)) (fun A l => l) "root"
  = Err (StoreErr_SessionNotFound "child-session").
Proof. by vm_compute. Qed.

Definition usage_event (session agent_session : string) (n : N) : SessionEventEnvelope :=
  mkSessionEventEnvelope "e" session agent_session None None 1
    (Ev_TokenUsageUpdated Phase_ResponseCompleted
       (mkTokenLedgerSnapshot None None (mkTokenUsage n 0 0 0 0 0))).

(** A child that was compacted has two agent sessions; its own report counts both, the
    report of its parent only the later one. *)
Theorem child_usage_loses_earlier_agent_sessions :
  let st := memory_append_batch ∅
              [spawn_requested; usage_event "child-session" "a1" 100; usage_event "child-session" "a2" 7] in
  let input r := match r with Ok r => Some (usage_input_tokens (rep_aggregate_usage r)) | Err _ => None end in
  input (token_usage (memory_events st) (fun A l => l) "child-session") = Some 107%N
  /\ input (token_usage (memory_events st) (fun A l => l) "root") = Some 7%N.
Proof. by vm_compute. Qed.

(** Two words with two blanks between them: the memory store finds the message, the index
    of the file store, which holds the words with one blank, hides the session. *)
Theorem file_search_misses_wide_blanks :
  let st := (append_locked_events (empty_store (mkRetention None None)) [first_event] 30%N).2 in
  length (memory_search_sessions (memory_append ∅ first_event) "hello  world") = 1%nat
  /\ file_search_sessions st "hello  world" = Ok []
  /\ (length <$> match file_search_sessions st "hello" with Ok l => Some l | Err _ => None end) = Some 1%nat.
Proof. by vm_compute. Qed.

Definition note (text : string) : SessionEventEnvelope :=
  mkSessionEventEnvelope "e" "s" "a" None None 1 (Ev_Notification text text).

(** Four events match; the count stops at the third preview. *)
Theorem search_undercounts_events :
  (fun r => sr_matched_event_count (rk_result r)) <$>
    (summary ← summarize_session_events "s" (map note ["hit 1"; "hit 2"; "hit 3"; "hit 4"]);
     search_session_events_ranked summary (map note ["hit 1"; "hit 2"; "hit 3"; "hit 4"]) "hit")
  <> Some 4%nat.
Proof. by vm_compute. Qed.
