(* ===== verification/Plugins.v ===== *)
(** * Plugins

    Models [crates/plugins/src/]: the manifest and configuration types, discovery of the
    plugins below a list of roots, and the activation plan: which plugins are enabled,
    what they are granted and what they contribute.  TOML is a parameter: [TomlFiles]
    reads and parses the files, and a value is a table or a leaf. *)

From Stdlib Require Import Ascii String.
From stdpp Require Import base list gmap sets sorting strings.
From Stdlib Require Import Lia.
From S2P Require Import Prelude Text BTree Message Events Errors WriteLease SandboxPolicy Tools HookEffects PathPolicy StoreSearch.

(** ** TOML values *)

(** The scalars and arrays of [toml::Value], which no code here looks into. *)
Class TomlLeaf := { toml_leaf : Type }.

Inductive TomlValue {L : TomlLeaf} :=
| Toml_Table (entries : list (string * TomlValue))
| Toml_Leaf (leaf : toml_leaf).

(** [toml::map::Map], in the order of its keys. *)
Notation TomlTable := (btree TomlValue).

(** Folding one entry into a table; [merge] is [merge_toml_table] on smaller values. *)
(* crates/plugins/src/resolution.rs, merge_toml_table@match (base.get_mut(&key), value) *)
Definition merge_entry {L : TomlLeaf} (merge : TomlTable -> TomlValue -> TomlTable) (base : TomlTable)
    (key : string) (value : TomlValue) : TomlTable :=
  match bt_get key base, value with
  | Some (Toml_Table existing), Toml_Table _ => bt_insert key (Toml_Table (merge existing value)) base
  | _, _ => bt_insert key value base
  end.

(** [merge_toml_table base overlay], with the overlay as a value. *)
(* crates/plugins/src/resolution.rs, merge_toml_table *)
Fixpoint merge_toml_table {L : TomlLeaf} (base : TomlTable) (overlay : TomlValue) : TomlTable :=
  match overlay with
  | Toml_Table entries =>
      (fix fold base entries :=
         match entries with
         | [] => base
         | (key, value) :: rest => fold (merge_entry merge_toml_table base key value) rest
         end) base entries
  | Toml_Leaf _ => base
  end.

Section Manifest.
Context {L : TomlLeaf}.

(** ** Manifests and configuration *)

(* crates/plugins/src/manifest.rs, PluginKind *)
Inductive PluginKind := Kind_Bundle | Kind_Memory.

(* crates/plugins/src/manifest.rs, PluginComponents *)
Record PluginComponents := mkPluginComponents {
  comp_skill_roots : list string;
  comp_tool_roots : list string;
  comp_hook_files : list string;
  comp_mcp_files : list string
}.

(* crates/plugins/src/manifest.rs, PluginRuntimeSpec *)
Record PluginRuntimeSpec := mkPluginRuntimeSpec {
  prt_driver : PluginDriverId;
  prt_module : option string;
  prt_abi : option string
}.

(* crates/plugins/src/manifest.rs, PluginMessageMutationCapability *)
Inductive PluginMessageMutationCapability :=
| MutationCap_Append | MutationCap_Replace | MutationCap_Patch | MutationCap_Remove
| MutationCap_InsertBefore | MutationCap_InsertAfter.

(* crates/plugins/src/manifest.rs, PluginToolPolicyCapability *)
Inductive PluginToolPolicyCapability :=
| PolicyCap_Deny | PolicyCap_RewriteArgs | PolicyCap_PermissionDecision | PolicyCap_Gate.

(* crates/plugins/src/manifest.rs, PluginCapabilitySet *)
Record PluginCapabilitySet := mkPluginCapabilitySet {
  cap_hook_handlers : list HookHandlerKind;
  cap_message_mutations : list PluginMessageMutationCapability;
  cap_tool_policies : list PluginToolPolicyCapability;
  cap_host_api : list HookHostApiGrant;
  cap_mcp_exports : bool;
  cap_skill_exports : bool
}.

(* crates/plugins/src/manifest.rs, PluginNetworkAccess *)
Inductive PluginNetworkAccess :=
| PluginNet_Deny
| PluginNet_Allow
| PluginNet_AllowDomains (domains : list string).

(* crates/plugins/src/manifest.rs, PluginPermissionRequest *)
Record PluginPermissionRequest := mkPluginPermissionRequest {
  preq_read : list string;
  preq_write : list string;
  preq_exec : list string;
  preq_network : PluginNetworkAccess;
  preq_message_mutation : HookMutationPermission;
  preq_host_api : list HookHostApiGrant;
  preq_hook_events : list HookEvent
}.

(** [PluginInstruction] is its text. *)
(* crates/plugins/src/manifest.rs, PluginManifest *)
Record PluginManifest := mkPluginManifest {
  man_id : PluginId;
  man_version : option string;
  man_name : option string;
  man_description : option string;
  man_kind : PluginKind;
  man_enabled_by_default : bool;
  man_components : PluginComponents;
  man_runtime : option PluginRuntimeSpec;
  man_capabilities : PluginCapabilitySet;
  man_permissions : PluginPermissionRequest;
  man_instructions : list string;
  man_defaults : TomlTable
}.

(* crates/plugins/src/config.rs, PluginPermissionGrant *)
Record PluginPermissionGrant := mkPluginPermissionGrant {
  pgr_read : list string;
  pgr_write : list string;
  pgr_exec : list string;
  pgr_network : PluginNetworkAccess;
  pgr_message_mutation : HookMutationPermission;
  pgr_host_api : list HookHostApiGrant
}.

Definition PluginPermissionGrant_default : PluginPermissionGrant :=
  mkPluginPermissionGrant [] [] [] PluginNet_Deny Mutation_Deny [].

(* crates/plugins/src/config.rs, PluginEntryConfig *)
Record PluginEntryConfig := mkPluginEntryConfig {
  ent_enabled : option bool;
  ent_permissions : PluginPermissionGrant;
  ent_config : TomlTable
}.

(** [slots] has one slot, for memory. *)
(* crates/plugins/src/config.rs, PluginResolverConfig *)
Record PluginResolverConfig := mkPluginResolverConfig {
  res_enabled : bool;
  res_allow : list PluginId;
  res_deny : list PluginId;
  res_entries : btree PluginEntryConfig;
  res_slot_memory : option PluginId
}.

(* crates/mcp/src/config.rs, McpTransportConfig *)
Inductive McpTransportConfig :=
| McpConfig_Stdio (command : string) (args : list string) (env : btree string) (cwd : option string)
| McpConfig_StreamableHttp (url : string) (headers : btree string).

(* crates/mcp/src/config.rs, McpNetworkPolicyConfig *)
Inductive McpNetworkPolicyConfig :=
| McpNet_Off
| McpNet_Full
| McpNet_Allowlist (domains cidrs : list string).

(* crates/mcp/src/config.rs, McpServerConfig *)
Record McpServerConfig := mkMcpServerConfig {
  mcpc_name : McpServerName;
  mcpc_enabled : bool;
  mcpc_bootstrap_network : option McpNetworkPolicyConfig;
  mcpc_runtime_network : option McpNetworkPolicyConfig;
  mcpc_transport : McpTransportConfig
}.

(** ** Discovery *)

(* crates/plugins/src/discovery.rs, DiscoveredPlugin *)
Record DiscoveredPlugin := mkDiscoveredPlugin {
  dp_manifest : PluginManifest;
  dp_root_dir : PathBuf;
  dp_manifest_path : PathBuf;
  dp_skill_roots : list PathBuf;
  dp_tool_roots : list PathBuf;
  dp_hooks : list HookRegistration;
  dp_mcp_servers : list McpServerConfig
}.

(* crates/plugins/src/discovery.rs, PluginDiagnosticLevel *)
Inductive PluginDiagnosticLevel := Diag_Warning | Diag_Error.

(* crates/plugins/src/discovery.rs, PluginDiagnostic *)
Record PluginDiagnostic := mkPluginDiagnostic {
  diag_level : PluginDiagnosticLevel;
  diag_code : string;
  diag_message : string;
  diag_plugin_id : option PluginId;
  diag_path : option PathBuf
}.

(* crates/plugins/src/discovery.rs, PluginDiagnostic::warning *)
Definition diag_warning := mkPluginDiagnostic Diag_Warning.
(* crates/plugins/src/discovery.rs, PluginDiagnostic::error *)
Definition diag_error := mkPluginDiagnostic Diag_Error.

(* crates/plugins/src/discovery.rs, PluginDiscovery *)
Record PluginDiscovery := mkPluginDiscovery {
  pd_plugins : list DiscoveredPlugin;
  pd_diagnostics : list PluginDiagnostic
}.

(* crates/plugins/src/error.rs, PluginError *)
Inductive PluginError :=
| PluginErr_Io (source : string)
| PluginErr_Toml (source : string)
| PluginErr_InvalidManifest (path : PathBuf) (message : string)
| PluginErr_InvalidPath (value message : string).

Definition quoted (s : string) : string := bt +:+ s +:+ bt.

(* crates/plugins/src/error.rs, PluginError *)
Definition display_plugin_error (e : PluginError) : string :=
  match e with
  | PluginErr_Io source => "plugin I/O error: " +:+ source
  | PluginErr_Toml source => "plugin TOML parse error: " +:+ source
  | PluginErr_InvalidManifest path message =>
      "invalid plugin manifest at " +:+ path_display path +:+ ": " +:+ message
  | PluginErr_InvalidPath value message => "invalid plugin path " +:+ quoted value +:+ ": " +:+ message
  end.

Definition bad_component (c : string) : bool := String.eqb c ".." || String.eqb c "/".

(* crates/plugins/src/discovery.rs, resolve_safe_relative_path *)
Definition resolve_safe_relative_path (root : PathBuf) (value : string) : result PathBuf PluginError :=
  let path := path_of_string value in
  if is_absolute path then
    Err (PluginErr_InvalidPath value "absolute paths are not allowed in plugin manifests")
  else if existsb bad_component path then
    Err (PluginErr_InvalidPath value "parent/root/prefix path components are not allowed")
  else Ok (PathPolicy.path_join root path).

(** The files below a plugin root. *)
Class TomlFiles := {
  pf_exists : PathBuf -> bool;
  pf_is_dir : PathBuf -> bool;
  (** the entries that could be read, in any order *)
  pf_read_dir : PathBuf -> result (list PathBuf) string;
  pf_read : PathBuf -> result string string;
  parse_manifest : string -> result PluginManifest string;
  parse_hook_file : string -> result (list HookRegistration) string;
  parse_mcp_file : string -> result (list McpServerConfig) string
}.

Definition with_handler (hook : HookRegistration) (h : HookHandler) : HookRegistration :=
  mkHookRegistration (hook_name hook) (hook_event hook) (hook_matcher hook) h (hook_timeout_ms hook)
    (hook_execution hook).

(* crates/plugins/src/discovery.rs, resolve_hook_paths *)
Definition resolve_hook_paths (plugin_root : PathBuf) (hook : HookRegistration)
    : result HookRegistration PluginError :=
  match hook_handler hook with
  | Handler_Command c =>
      p <-? resolve_safe_relative_path plugin_root (command_hook_command c);
      Ok (with_handler hook (Handler_Command (mkCommandHookHandler (path_display p) (command_hook_asynchronous c))))
  | Handler_Wasm w =>
      p <-? resolve_safe_relative_path plugin_root (wasm_hook_module w);
      Ok (with_handler hook (Handler_Wasm (mkWasmHookHandler (path_display p) (wasm_hook_entrypoint w))))
  | Handler_Http _ | Handler_Prompt _ | Handler_Agent _ => Ok hook
  end.

(* crates/plugins/src/discovery.rs, load_plugin@if let mcp::McpTransportConfig::Stdio ~~ mcp_servers.extend *)
Definition rebase_mcp_server (plugin_root : PathBuf) (server : McpServerConfig) : result McpServerConfig PluginError :=
  match mcpc_transport server with
  | McpConfig_Stdio command args env (Some cwd) =>
      p <-? resolve_safe_relative_path plugin_root cwd;
      Ok (mkMcpServerConfig (mcpc_name server) (mcpc_enabled server) (mcpc_bootstrap_network server)
            (mcpc_runtime_network server) (McpConfig_Stdio command args env (Some (path_display p))))
  | _ => Ok server
  end.

Definition plugin_io {A} (r : result A string) : result A PluginError :=
  match r with Ok a => Ok a | Err e => Err (PluginErr_Io e) end.
Definition plugin_toml {A} (r : result A string) : result A PluginError :=
  match r with Ok a => Ok a | Err e => Err (PluginErr_Toml e) end.

(** Reads and parses each file and resolves each of its items, up to the first error. *)
(* crates/plugins/src/discovery.rs, load_plugin@let mut hooks = Vec::new(); ~~ Ok(DiscoveredPlugin *)
Fixpoint load_files {F : TomlFiles} {A} (parse : string -> result (list A) string)
    (resolve : A -> result A PluginError) (paths : list PathBuf) : result (list A) PluginError :=
  match paths with
  | [] => Ok []
  | path :: rest =>
      raw <-? plugin_io (pf_read path);
      parsed <-? plugin_toml (parse raw);
      items <-? map_result resolve parsed;
      others <-? load_files parse resolve rest;
      Ok (items ++ others)
  end.

(* crates/plugins/src/discovery.rs, load_plugin *)
Definition load_plugin {F : TomlFiles} (plugin_root manifest_path : PathBuf) : result DiscoveredPlugin PluginError :=
  raw <-? plugin_io (pf_read manifest_path);
  manifest <-? plugin_toml (parse_manifest raw);
  if str_is_empty (trim (man_id manifest)) then
    Err (PluginErr_InvalidManifest manifest_path "plugin id cannot be empty")
  else
    let components := man_components manifest in
    let resolve_all := map_result (resolve_safe_relative_path plugin_root) in
    skill_roots <-? resolve_all (comp_skill_roots components);
    tool_roots <-? resolve_all (comp_tool_roots components);
    hook_paths <-? resolve_all (comp_hook_files components);
    mcp_paths <-? resolve_all (comp_mcp_files components);
    hooks <-? load_files parse_hook_file (resolve_hook_paths plugin_root) hook_paths;
    mcp_servers <-? load_files parse_mcp_file (rebase_mcp_server plugin_root) mcp_paths;
    Ok (mkDiscoveredPlugin manifest plugin_root manifest_path skill_roots tool_roots hooks mcp_servers).

Definition MANIFEST_RELATIVE_PATH : PathBuf := [".nanoclaw-plugin"; "plugin.toml"].

Definition path_le (p q : PathBuf) : Prop := path_compare p q <> Gt.
#[global] Instance path_le_dec p q : Decision (path_le p q).
Proof. unfold path_le. apply _. Defined.

Definition report (found : PluginDiscovery) (d : PluginDiagnostic) : PluginDiscovery :=
  mkPluginDiscovery (pd_plugins found) (pd_diagnostics found ++ [d]).

(** [seen_ids] are the ids of the plugins found so far. *)
(* crates/plugins/src/discovery.rs, discover_plugins@for plugin_root in entries ~~ Ok(discovered) *)
Definition discover_entry {F : TomlFiles} (found : PluginDiscovery) (plugin_root : PathBuf) : PluginDiscovery :=
  let manifest_path := plugin_root ++ MANIFEST_RELATIVE_PATH in
  if negb (pf_exists manifest_path) then found
  else
    match load_plugin plugin_root manifest_path with
    | Ok plugin =>
        let id := man_id (dp_manifest plugin) in
        if bool_decide (id ∈ map (fun p => man_id (dp_manifest p)) (pd_plugins found)) then
          report found (diag_warning "plugin_duplicate_id"
            ("duplicate plugin id " +:+ quoted id +:+ " ignored at " +:+ path_display plugin_root)
            (Some id) (Some manifest_path))
        else mkPluginDiscovery (pd_plugins found ++ [plugin]) (pd_diagnostics found)
    | Err error =>
        report found (diag_error "plugin_load_failed" (display_plugin_error error) None (Some manifest_path))
    end.

(* crates/plugins/src/discovery.rs, discover_plugins@for root in roots ~~ for plugin_root in entries *)
Fixpoint discover_roots {F : TomlFiles} (roots : list PathBuf) (found : PluginDiscovery)
    : result PluginDiscovery PluginError :=
  match roots with
  | [] => Ok found
  | root :: rest =>
      if negb (pf_exists root) then discover_roots rest found
      else if negb (pf_is_dir root) then
        discover_roots rest (report found (diag_warning "plugin_root_not_directory"
          ("plugin root is not a directory: " +:+ path_display root) None (Some root)))
      else
        paths <-? plugin_io (pf_read_dir root);
        discover_roots rest
          (foldl discover_entry found (merge_sort path_le (List.filter pf_is_dir paths)))
  end.

(* crates/plugins/src/discovery.rs, discover_plugins *)
Definition discover_plugins {F : TomlFiles} (roots : list PathBuf) : result PluginDiscovery PluginError :=
  discover_roots roots (mkPluginDiscovery [] []).

End Manifest.
