(* ===== verification/PluginPlan.v ===== *)
(** * The activation plan of plugins

    Models [crates/plugins/src/resolution.rs]: from the discovered plugins and the
    operator's configuration to the plan the host boots: which plugins are enabled, what
    each is granted, and the hooks, tools, servers and runtimes they contribute. *)

From Stdlib Require Import Ascii String.
From stdpp Require Import base list gmap sets sorting strings.
From Stdlib Require Import Lia.
From S2P Require Import Prelude Text BTree Message Events Errors WriteLease SandboxPolicy Tools HookEffects PathPolicy.
From S2P Require Import Plugins.

#[global] Instance HookHostApiGrant_eq_dec : EqDecision HookHostApiGrant.
Proof. solve_decision. Defined.
#[global] Instance PluginKind_eq_dec : EqDecision PluginKind.
Proof. solve_decision. Defined.

(** [Debug] of the two enums that messages show. *)
Definition debug_host_api (g : HookHostApiGrant) : string :=
  match g with
  | HostApi_GetHookContext => "GetHookContext"
  | HostApi_EmitHookEffect => "EmitHookEffect"
  | HostApi_Log => "Log"
  | HostApi_ReadFile => "ReadFile"
  | HostApi_WriteFile => "WriteFile"
  | HostApi_ListDir => "ListDir"
  | HostApi_SpawnMcp => "SpawnMcp"
  | HostApi_ResolveSkill => "ResolveSkill"
  end.
Definition debug_kind (k : PluginKind) : string :=
  match k with Kind_Bundle => "Bundle" | Kind_Memory => "Memory" end.

Section Plan.
Context {L : TomlLeaf}.

(** ** Data *)

(* crates/plugins/src/resolution.rs, PluginResolvedPermissions *)
Record PluginResolvedPermissions := mkPluginResolvedPermissions {
  perm_read_roots : list PathBuf;
  perm_write_roots : list PathBuf;
  perm_exec_roots : list PathBuf;
  perm_network : HookNetworkPolicy;
  perm_message_mutation : HookMutationPermission;
  perm_host_api : list HookHostApiGrant
}.

Definition PluginResolvedPermissions_default : PluginResolvedPermissions :=
  mkPluginResolvedPermissions [] [] [] HookNetwork_Deny Mutation_Deny [].

(* crates/plugins/src/resolution.rs, PluginExecutableActivation *)
Record PluginExecutableActivation := mkPluginExecutableActivation {
  pxa_plugin_id : PluginId;
  pxa_root_dir : PathBuf;
  pxa_runtime : PluginRuntimeSpec;
  pxa_config : TomlTable;
  pxa_capabilities : PluginCapabilitySet;
  pxa_granted_permissions : PluginResolvedPermissions
}.

(* crates/plugins/src/resolution.rs, PluginCustomToolActivation *)
Record PluginCustomToolActivation := mkPluginCustomToolActivation {
  pta_plugin_id : PluginId;
  pta_root_dir : PathBuf;
  pta_manifest_path : PathBuf;
  pta_tool_roots : list PathBuf;
  pta_granted_permissions : PluginResolvedPermissions
}.

(* crates/plugins/src/resolution.rs, PluginContributionSummary *)
Record PluginContributionSummary := mkPluginContributionSummary {
  con_instruction_count : nat;
  con_skill_roots : list PathBuf;
  con_custom_tool_root_count : nat;
  con_hook_names : list HookName;
  con_mcp_servers : list McpServerName;
  con_runtime_driver : option PluginDriverId
}.

Definition PluginContributionSummary_default : PluginContributionSummary :=
  mkPluginContributionSummary 0 [] 0 [] [] None.

(* crates/plugins/src/resolution.rs, PluginState *)
Record PluginState := mkPluginState {
  pst_plugin_id : PluginId;
  pst_enabled : bool;
  pst_reason : string;
  pst_requested_permissions : PluginPermissionRequest;
  pst_granted_permissions : PluginResolvedPermissions;
  pst_contributions : PluginContributionSummary
}.

(* crates/plugins/src/resolution.rs, PluginActivationPlan *)
Record PluginActivationPlan := mkPluginActivationPlan {
  plan_instructions : list string;
  plan_skill_roots : list PathBuf;
  plan_custom_tool_activations : list PluginCustomToolActivation;
  plan_hooks : list HookRegistration;
  plan_mcp_servers : list McpServerConfig;
  plan_runtime_activations : list PluginExecutableActivation;
  plan_diagnostics : list PluginDiagnostic;
  plan_plugin_states : list PluginState;
  plan_slot_memory : option PluginId
}.

(** ** Permissions *)

(* crates/plugins/src/resolution.rs, permission_diagnostic *)
Definition permission_diagnostic (code : string) (plugin_id : PluginId) (manifest_path : PathBuf)
    (message : string) : PluginDiagnostic :=
  diag_error code message (Some plugin_id) (Some manifest_path).

(* crates/plugins/src/resolution.rs, ensure_supported_permission_modes *)
Definition ensure_supported_permission_modes (requested : PluginPermissionRequest)
    (granted : PluginPermissionGrant) (plugin_id : PluginId) (manifest_path : PathBuf)
    : result unit PluginDiagnostic :=
  let refuse := permission_diagnostic "plugin_permission_review_required_unsupported" plugin_id manifest_path in
  match preq_message_mutation requested, pgr_message_mutation granted with
  | Mutation_ReviewRequired, _ =>
      Err (refuse ("message mutation mode " +:+ quoted "review_required"
                   +:+ " is not supported because host review is not implemented"))
  | _, Mutation_ReviewRequired =>
      Err (refuse ("plugin permission grant uses " +:+ quoted "message_mutation = review_required"
                   +:+ ", but host review is not implemented"))
  | _, _ => Ok tt
  end.

(* crates/plugins/src/resolution.rs, network_allows *)
Definition network_allows (requested granted : PluginNetworkAccess) : bool :=
  match requested, granted with
  | _, PluginNet_Deny => true
  | PluginNet_Allow, PluginNet_Allow => true
  | PluginNet_Allow, PluginNet_AllowDomains _ => true
  | PluginNet_AllowDomains requested_domains, PluginNet_AllowDomains granted_domains =>
      forallb (fun domain => existsb (fun candidate => String.eqb candidate domain) requested_domains)
        granted_domains
  | _, _ => false
  end.

(* crates/plugins/src/resolution.rs, message_mutation_allows *)
Definition message_mutation_allows (requested granted : HookMutationPermission) : bool :=
  match granted, requested with
  | Mutation_Deny, _ => true
  | Mutation_Allow, Mutation_Allow => true
  | _, _ => false
  end.

Definition exceeds : string := "plugin_permission_grant_exceeds_request".

(* crates/plugins/src/resolution.rs, ensure_requested_paths *)
Fixpoint ensure_requested_paths (requested granted : list string) (label : string) (plugin_id : PluginId)
    (manifest_path : PathBuf) : result unit PluginDiagnostic :=
  match granted with
  | [] => Ok tt
  | grant :: rest =>
      if negb (bool_decide (grant ∈ requested)) then
        Err (permission_diagnostic exceeds plugin_id manifest_path
               (label +:+ " permission grant " +:+ quoted grant +:+ " exceeds plugin request"))
      else ensure_requested_paths requested rest label plugin_id manifest_path
  end.

(* crates/plugins/src/resolution.rs, ensure_requested_contains_all@for api in &granted.host_api *)
Fixpoint ensure_requested_apis (requested granted : list HookHostApiGrant) (plugin_id : PluginId)
    (manifest_path : PathBuf) : result unit PluginDiagnostic :=
  match granted with
  | [] => Ok tt
  | api :: rest =>
      if negb (bool_decide (api ∈ requested)) then
        Err (permission_diagnostic exceeds plugin_id manifest_path
               ("host API grant " +:+ quoted (debug_host_api api) +:+ " exceeds plugin request"))
      else ensure_requested_apis requested rest plugin_id manifest_path
  end.

(* crates/plugins/src/resolution.rs, ensure_requested_contains_all *)
Definition ensure_requested_contains_all (requested : PluginPermissionRequest) (granted : PluginPermissionGrant)
    (plugin_id : PluginId) (manifest_path : PathBuf) : result unit PluginDiagnostic :=
  _ <-? ensure_requested_paths (preq_read requested) (pgr_read granted) "read" plugin_id manifest_path;
  _ <-? ensure_requested_paths (preq_write requested) (pgr_write granted) "write" plugin_id manifest_path;
  _ <-? ensure_requested_paths (preq_exec requested) (pgr_exec granted) "exec" plugin_id manifest_path;
  if negb (network_allows (preq_network requested) (pgr_network granted)) then
    Err (permission_diagnostic exceeds plugin_id manifest_path "network permission grant exceeds plugin request")
  else if negb (message_mutation_allows (preq_message_mutation requested) (pgr_message_mutation granted)) then
    Err (permission_diagnostic exceeds plugin_id manifest_path "message mutation grant exceeds plugin request")
  else ensure_requested_apis (preq_host_api requested) (pgr_host_api granted) plugin_id manifest_path.

(* crates/plugins/src/resolution.rs, resolve_workspace_relative_path *)
Definition resolve_workspace_relative_path (workspace_root : PathBuf) (value : string) : result PathBuf string :=
  let path := path_of_string value in
  if is_absolute path then Err "absolute paths are not allowed"
  else if existsb bad_component path then Err "parent/root/prefix path components are not allowed"
  else Ok (PathPolicy.path_join workspace_root path).

(* crates/plugins/src/resolution.rs, resolve_workspace_paths *)
Definition resolve_workspace_paths (workspace_root : PathBuf) (values : list string) (plugin_id : PluginId)
    (manifest_path : PathBuf) : result (list PathBuf) PluginDiagnostic :=
  map_result (fun value =>
      match resolve_workspace_relative_path workspace_root value with
      | Ok p => Ok p
      | Err message =>
          Err (diag_error "plugin_permission_invalid_path"
                 ("plugin " +:+ quoted plugin_id +:+ " has invalid permission path " +:+ quoted value
                  +:+ ": " +:+ message) (Some plugin_id) (Some manifest_path))
      end) values.

(* crates/plugins/src/resolution.rs, to_hook_network_policy *)
Definition to_hook_network_policy (network : PluginNetworkAccess) : HookNetworkPolicy :=
  match network with
  | PluginNet_Deny => HookNetwork_Deny
  | PluginNet_Allow => HookNetwork_Allow
  | PluginNet_AllowDomains domains => HookNetwork_AllowDomains domains
  end.

(* crates/plugins/src/resolution.rs, resolve_plugin_permissions *)
Definition resolve_plugin_permissions (plugin : DiscoveredPlugin) (entry : option PluginEntryConfig)
    (workspace_root : PathBuf) : result PluginResolvedPermissions PluginDiagnostic :=
  let grant := default PluginPermissionGrant_default (ent_permissions <$> entry) in
  let requested := man_permissions (dp_manifest plugin) in
  let plugin_id := man_id (dp_manifest plugin) in
  let manifest_path := dp_manifest_path plugin in
  _ <-? ensure_supported_permission_modes requested grant plugin_id manifest_path;
  _ <-? ensure_requested_contains_all requested grant plugin_id manifest_path;
  read_roots <-? resolve_workspace_paths workspace_root (pgr_read grant) plugin_id manifest_path;
  write_roots <-? resolve_workspace_paths workspace_root (pgr_write grant) plugin_id manifest_path;
  exec_roots <-? resolve_workspace_paths workspace_root (pgr_exec grant) plugin_id manifest_path;
  Ok (mkPluginResolvedPermissions read_roots write_roots exec_roots (to_hook_network_policy (pgr_network grant))
        (pgr_message_mutation grant) (pgr_host_api grant)).

(** ** Enablement *)

(* crates/plugins/src/resolution.rs, disabled_state *)
Definition disabled_state (plugin_id : PluginId) (reason : string) (plugin : DiscoveredPlugin) : PluginState :=
  mkPluginState plugin_id false reason (man_permissions (dp_manifest plugin)) PluginResolvedPermissions_default
    PluginContributionSummary_default.

(** [allow_set] and [deny_set] are [resolver.allow] and [resolver.deny]. *)
(* crates/plugins/src/resolution.rs, resolve_plugin_state *)
Definition resolve_plugin_state (plugin : DiscoveredPlugin) (resolver : PluginResolverConfig) : PluginState :=
  let plugin_id := man_id (dp_manifest plugin) in
  let state enabled reason :=
    mkPluginState plugin_id enabled reason (man_permissions (dp_manifest plugin)) PluginResolvedPermissions_default
      PluginContributionSummary_default in
  if negb (res_enabled resolver) then disabled_state plugin_id "plugins disabled globally" plugin
  else if bool_decide (plugin_id ∈ res_deny resolver) then
    disabled_state plugin_id "denied by plugins.deny" plugin
  else if negb (is_nil (res_allow resolver)) && negb (bool_decide (plugin_id ∈ res_allow resolver)) then
    disabled_state plugin_id "not present in plugins.allow" plugin
  else
    match bt_get plugin_id (res_entries resolver) ≫= ent_enabled with
    | Some true => state true "enabled by plugins.entries"
    | Some false => state false "disabled by plugins.entries"
    | None =>
        if man_enabled_by_default (dp_manifest plugin) then state true "enabled by manifest default"
        else state false "disabled by manifest default"
    end.

(* crates/plugins/src/resolution.rs, contribution_summary *)
Definition contribution_summary (plugin : DiscoveredPlugin) : PluginContributionSummary :=
  mkPluginContributionSummary (length (man_instructions (dp_manifest plugin))) (dp_skill_roots plugin)
    (length (dp_tool_roots plugin)) (map hook_name (dp_hooks plugin)) (map mcpc_name (dp_mcp_servers plugin))
    (prt_driver <$> man_runtime (dp_manifest plugin)).

(** ** Contributions *)

(* crates/plugins/src/resolution.rs, derive_effect_policy *)
Definition derive_effect_policy (capabilities : PluginCapabilitySet) (granted : PluginResolvedPermissions)
    : HookEffectPolicy :=
  let declared_mutations := negb (is_nil (cap_message_mutations capabilities)) in
  let can_gate := existsb (fun p => match p with PolicyCap_Deny | PolicyCap_Gate => true | _ => false end)
                    (cap_tool_policies capabilities) in
  let can_permission :=
    existsb (fun p => match p with PolicyCap_Deny | PolicyCap_PermissionDecision => true | _ => false end)
      (cap_tool_policies capabilities) in
  mkHookEffectPolicy (if declared_mutations then perm_message_mutation granted else Mutation_Deny)
    true true
    (existsb (fun p => match p with PolicyCap_RewriteArgs => true | _ => false end) (cap_tool_policies capabilities))
    can_permission can_gate true.

(* crates/plugins/src/resolution.rs, build_hook_execution_policy *)
Definition build_hook_execution_policy (plugin_id : PluginId) (plugin_root : PathBuf)
    (capabilities : PluginCapabilitySet) (granted : PluginResolvedPermissions) : HookExecutionPolicy :=
  mkHookExecutionPolicy (Some plugin_id) (Some plugin_root) (perm_read_roots granted) (perm_write_roots granted)
    (perm_exec_roots granted) (perm_network granted) (perm_host_api granted)
    (derive_effect_policy capabilities granted).

(* crates/plugins/src/resolution.rs, decorate_hook_registration *)
Definition decorate_hook_registration (plugin : DiscoveredPlugin) (granted : PluginResolvedPermissions)
    (hook : HookRegistration) : HookRegistration :=
  mkHookRegistration (hook_name hook) (hook_event hook) (hook_matcher hook) (hook_handler hook)
    (hook_timeout_ms hook)
    (Some (build_hook_execution_policy (man_id (dp_manifest plugin)) (dp_root_dir plugin)
             (man_capabilities (dp_manifest plugin)) granted)).

(* crates/plugins/src/resolution.rs, collect_plugin_activation@if let Some(runtime) = &plugin.manifest.runtime *)
Definition runtime_activation (plugin : DiscoveredPlugin) (resolver : PluginResolverConfig)
    (granted : PluginResolvedPermissions) (runtime : PluginRuntimeSpec) : PluginExecutableActivation :=
  let id := man_id (dp_manifest plugin) in
  let entry_config := default [] (ent_config <$> bt_get id (res_entries resolver)) in
  mkPluginExecutableActivation id (dp_root_dir plugin)
    (mkPluginRuntimeSpec (prt_driver runtime)
       ((fun m => path_display (PathPolicy.path_join (dp_root_dir plugin) (path_of_string m))) <$> prt_module runtime)
       (prt_abi runtime))
    (merge_toml_table (man_defaults (dp_manifest plugin)) (Toml_Table entry_config))
    (man_capabilities (dp_manifest plugin)) granted.

(* crates/plugins/src/resolution.rs, collect_plugin_activation *)
Definition collect_plugin_activation (plan : PluginActivationPlan) (plugin : DiscoveredPlugin)
    (resolver : PluginResolverConfig) (granted : PluginResolvedPermissions) : PluginActivationPlan :=
  mkPluginActivationPlan
    (plan_instructions plan ++ man_instructions (dp_manifest plugin))
    (plan_skill_roots plan ++ dp_skill_roots plugin)
    (plan_custom_tool_activations plan
       ++ (if is_nil (dp_tool_roots plugin) then []
           else [mkPluginCustomToolActivation (man_id (dp_manifest plugin)) (dp_root_dir plugin)
                   (dp_manifest_path plugin) (dp_tool_roots plugin) granted]))
    (plan_hooks plan ++ map (decorate_hook_registration plugin granted) (dp_hooks plugin))
    (plan_mcp_servers plan ++ dp_mcp_servers plugin)
    (plan_runtime_activations plan
       ++ option_list (runtime_activation plugin resolver granted <$> man_runtime (dp_manifest plugin)))
    (plan_diagnostics plan) (plan_plugin_states plan) (plan_slot_memory plan).

Definition push_diagnostic (plan : PluginActivationPlan) (d : PluginDiagnostic) : PluginActivationPlan :=
  mkPluginActivationPlan (plan_instructions plan) (plan_skill_roots plan) (plan_custom_tool_activations plan)
    (plan_hooks plan) (plan_mcp_servers plan) (plan_runtime_activations plan) (plan_diagnostics plan ++ [d])
    (plan_plugin_states plan) (plan_slot_memory plan).
Definition with_states (plan : PluginActivationPlan) (states : list PluginState) : PluginActivationPlan :=
  mkPluginActivationPlan (plan_instructions plan) (plan_skill_roots plan) (plan_custom_tool_activations plan)
    (plan_hooks plan) (plan_mcp_servers plan) (plan_runtime_activations plan) (plan_diagnostics plan)
    states (plan_slot_memory plan).
Definition push_state (plan : PluginActivationPlan) (s : PluginState) : PluginActivationPlan :=
  with_states plan (plan_plugin_states plan ++ [s]).
Definition with_slot (plan : PluginActivationPlan) (id : PluginId) : PluginActivationPlan :=
  mkPluginActivationPlan (plan_instructions plan) (plan_skill_roots plan) (plan_custom_tool_activations plan)
    (plan_hooks plan) (plan_mcp_servers plan) (plan_runtime_activations plan) (plan_diagnostics plan)
    (plan_plugin_states plan) (Some id).

(** ** The plan *)

(* crates/plugins/src/resolution.rs, build_activation_plan@for plugin in plugins_by_id.values_mut() ~~ resolve_memory_slot( *)
Definition plan_plugin (resolver : PluginResolverConfig) (workspace_root : PathBuf) (plan : PluginActivationPlan)
    (plugin : DiscoveredPlugin) : PluginActivationPlan :=
  let state := resolve_plugin_state plugin resolver in
  let requested := man_permissions (dp_manifest plugin) in
  if pst_enabled state then
    match resolve_plugin_permissions plugin (bt_get (man_id (dp_manifest plugin)) (res_entries resolver))
            workspace_root with
    | Ok granted =>
        push_state (collect_plugin_activation plan plugin resolver granted)
          (mkPluginState (pst_plugin_id state) true (pst_reason state) requested granted
             (contribution_summary plugin))
    | Err diagnostic =>
        push_state (push_diagnostic plan diagnostic)
          (mkPluginState (pst_plugin_id state) false "disabled by invalid plugin permission grants"
             (pst_requested_permissions state) (pst_granted_permissions state) (pst_contributions state))
    end
  else
    push_state plan
      (mkPluginState (pst_plugin_id state) false (pst_reason state) requested (pst_granted_permissions state)
         (contribution_summary plugin)).

(** [iter_mut().find(p)], changed by [f]. *)
Fixpoint update_first {A} (p : A -> bool) (f : A -> A) (l : list A) : list A :=
  match l with
  | [] => []
  | x :: rest => if p x then f x :: rest else x :: update_first p f rest
  end.

Definition enable_by_slot (plugin : DiscoveredPlugin) (granted : PluginResolvedPermissions) (s : PluginState)
    : PluginState :=
  mkPluginState (pst_plugin_id s) true "enabled by plugins.slots.memory" (pst_requested_permissions s) granted
    (contribution_summary plugin).

(* crates/plugins/src/resolution.rs, resolve_memory_slot *)
Definition resolve_memory_slot (plan : PluginActivationPlan) (plugins_by_id : btree DiscoveredPlugin)
    (resolver : PluginResolverConfig) (workspace_root : PathBuf) : PluginActivationPlan :=
  match res_slot_memory resolver with
  | None => plan
  | Some selected =>
      if negb (res_enabled resolver) then
        push_diagnostic plan (diag_error "memory_slot_plugins_disabled"
          "memory slot is configured but plugins are disabled globally" (Some selected) None)
      else if bool_decide (selected ∈ res_deny resolver) then
        push_diagnostic plan (diag_error "memory_slot_plugin_denied"
          ("memory slot plugin " +:+ quoted selected +:+ " is denied by plugins.deny") (Some selected) None)
      else
        match bt_get selected plugins_by_id with
        | None =>
            push_diagnostic plan (diag_error "memory_slot_missing"
              ("memory slot references missing plugin " +:+ quoted selected) (Some selected) None)
        | Some plugin =>
            let id := man_id (dp_manifest plugin) in
            if negb (bool_decide (man_kind (dp_manifest plugin) = Kind_Memory)) then
              push_diagnostic plan (diag_error "memory_slot_kind_mismatch"
                ("plugin " +:+ quoted id +:+ " is selected for memory slot but has kind "
                 +:+ quoted (debug_kind (man_kind (dp_manifest plugin)))) (Some id) (Some (dp_manifest_path plugin)))
            else if negb (is_nil (res_allow resolver)) && negb (bool_decide (selected ∈ res_allow resolver)) then
              push_diagnostic plan (diag_error "memory_slot_not_allowed"
                ("memory slot plugin " +:+ quoted selected +:+ " is not present in plugins.allow")
                (Some selected) (Some (dp_manifest_path plugin)))
            else if negb (existsb (fun s => String.eqb (pst_plugin_id s) selected && pst_enabled s)
                            (plan_plugin_states plan)) then
              match resolve_plugin_permissions plugin (bt_get selected (res_entries resolver)) workspace_root with
              | Err diagnostic => push_diagnostic plan diagnostic
              | Ok granted =>
                  let plan := with_states plan
                    (update_first (fun s => String.eqb (pst_plugin_id s) selected)
                       (enable_by_slot plugin granted) (plan_plugin_states plan)) in
                  with_slot (collect_plugin_activation plan plugin resolver granted) id
              end
            else with_slot plan id
        end
  end.

(* crates/plugins/src/discovery.rs, plugins_by_id *)
Definition plugins_by_id (plugins : list DiscoveredPlugin) : btree DiscoveredPlugin :=
  foldl (fun m plugin => bt_insert (man_id (dp_manifest plugin)) plugin m) [] plugins.

(* crates/plugins/src/resolution.rs, build_activation_plan@for id in resolver ~~ let allow_set *)
Definition missing_references (resolver : PluginResolverConfig) (by_id : btree DiscoveredPlugin)
    : list PluginDiagnostic :=
  map (fun id => diag_warning "plugin_missing_reference"
         ("plugin " +:+ quoted id +:+ " is referenced in config but not discovered") (Some id) None)
    (List.filter (fun id => negb (bool_decide (is_Some (bt_get id by_id))))
       ((res_entries resolver).*1 ++ res_allow resolver ++ res_deny resolver)).

Definition state_le (a b : PluginState) : Prop := String.compare (pst_plugin_id a) (pst_plugin_id b) <> Gt.
#[global] Instance state_le_dec a b : Decision (state_le a b).
Proof. unfold state_le. apply _. Defined.

(** Sorting and [dedup] give the ordered set of the skill roots. *)
(* crates/plugins/src/resolution.rs, build_activation_plan@plan.skill_roots.sort(); *)
Definition finish_plan (plan : PluginActivationPlan) : PluginActivationPlan :=
  mkPluginActivationPlan (plan_instructions plan) (dedup_paths (plan_skill_roots plan))
    (plan_custom_tool_activations plan) (plan_hooks plan) (plan_mcp_servers plan) (plan_runtime_activations plan)
    (plan_diagnostics plan) (merge_sort state_le (plan_plugin_states plan)) (plan_slot_memory plan).

(* crates/plugins/src/resolution.rs, build_activation_plan *)
Definition build_activation_plan (discovery : PluginDiscovery) (resolver : PluginResolverConfig)
    (workspace_root : PathBuf) : PluginActivationPlan :=
  let by_id := plugins_by_id (pd_plugins discovery) in
  let plan := mkPluginActivationPlan [] [] [] [] [] []
                (pd_diagnostics discovery ++ missing_references resolver by_id) [] None in
  let plan := foldl (plan_plugin resolver workspace_root) plan by_id.*2 in
  finish_plan (resolve_memory_slot plan by_id resolver workspace_root).

End Plan.
