(* ===== verification/PluginBoot.v ===== *)
(** * Booting plugins

    Models [crates/core/src/plugin_boot.rs] and [plugin_boot/]: the plan from the host's
    configuration, the registry of compiled drivers, and the drivers for WebAssembly
    hooks.  The memory driver, which builds a backend, is one more factory. *)

From Stdlib Require Import Ascii String.
From stdpp Require Import base list gmap sets sorting strings.
From Stdlib Require Import Lia.
From S2P Require Import Prelude Text BTree Message Events Errors WriteLease SandboxPolicy Tools HookEffects PathPolicy.
From S2P Require Import Plugins PluginPlan.

Section Boot.
Context {J : SerdeJson} {L : TomlLeaf} {F : TomlFiles}.

(* crates/core/src/plugin_boot.rs, PluginBootResolverConfig *)
Record PluginBootResolverConfig := mkPluginBootResolverConfig {
  boot_enabled : bool;
  boot_roots : list PathBuf;
  boot_include_builtin : bool;
  boot_allow : list PluginId;
  boot_deny : list PluginId;
  boot_entries : btree PluginEntryConfig;
  boot_slot_memory : option PluginId
}.

(* crates/core/src/plugin_boot.rs, PluginBootResolverConfig::default *)
Definition PluginBootResolverConfig_default : PluginBootResolverConfig :=
  mkPluginBootResolverConfig true [] true [] [] [] None.

(* crates/core/src/plugin_boot.rs, build_plugin_activation_plan *)
Definition build_plugin_activation_plan (workspace_root : PathBuf) (config : PluginBootResolverConfig)
    : result PluginActivationPlan PluginError :=
  let roots := boot_roots config
                 ++ (if boot_include_builtin config
                     then [PathPolicy.path_join workspace_root ["builtin-plugins"]] else []) in
  discovery <-? discover_plugins (dedup_paths roots);
  Ok (build_activation_plan discovery
        (mkPluginResolverConfig (boot_enabled config) (boot_allow config) (boot_deny config)
           (boot_entries config) (boot_slot_memory config)) workspace_root).

(** ** Drivers *)

(* crates/core/src/plugin_boot/registry.rs, UnknownDriverPolicy *)
Inductive UnknownDriverPolicy := UnknownDriver_Error | UnknownDriver_Warn.

(** The memory backend is kept by its plugin's id. *)
(* crates/core/src/plugin_boot/registry.rs, DriverActivationOutcome *)
Record DriverActivationOutcome := mkDriverActivationOutcome {
  out_warnings : list string;
  out_hooks : list HookRegistration;
  out_mcp_servers : list McpServerConfig;
  out_instructions : list string;
  out_diagnostics : list string;
  out_tool_names : list string;
  out_primary_memory_backend : option PluginId
}.

Definition outcome_default : DriverActivationOutcome := mkDriverActivationOutcome [] [] [] [] [] [] None.

Definition push_warning (o : DriverActivationOutcome) (w : string) : DriverActivationOutcome :=
  mkDriverActivationOutcome (out_warnings o ++ [w]) (out_hooks o) (out_mcp_servers o) (out_instructions o)
    (out_diagnostics o) (out_tool_names o) (out_primary_memory_backend o).
Definition with_tool_names (o : DriverActivationOutcome) (names : list string) : DriverActivationOutcome :=
  mkDriverActivationOutcome (out_warnings o) (out_hooks o) (out_mcp_servers o) (out_instructions o)
    (out_diagnostics o) names (out_primary_memory_backend o).

(* crates/core/src/plugin_boot/registry.rs, DriverHostMessageLevel *)
Inductive DriverHostMessageLevel := HostMessage_Warning | HostMessage_Diagnostic.

(* crates/core/src/plugin_boot/registry.rs, host_messages *)
Definition host_messages (o : DriverActivationOutcome) : list (DriverHostMessageLevel * string) :=
  map (pair HostMessage_Warning) (out_warnings o) ++ map (pair HostMessage_Diagnostic) (out_diagnostics o).

(* crates/core/src/plugin_boot/registry.rs, remember_primary_memory_backend *)
Definition remember_primary_memory_backend (o : DriverActivationOutcome) (backend : PluginId)
    : DriverActivationOutcome :=
  mkDriverActivationOutcome (out_warnings o) (out_hooks o) (out_mcp_servers o) (out_instructions o)
    (out_diagnostics o) (out_tool_names o)
    (match out_primary_memory_backend o with Some b => Some b | None => Some backend end).

(** A factory's [activate]: it may register tools and add to the outcome. *)
(* crates/core/src/plugin_boot/registry.rs, PluginDriverFactory *)
Definition PluginDriverFactory : Type :=
  PluginExecutableActivation -> ToolRegistry -> DriverActivationOutcome ->
  result (ToolRegistry * DriverActivationOutcome) string.

Definition unknown_driver (a : PluginExecutableActivation) : string :=
  "plugin " +:+ quoted (pxa_plugin_id a) +:+ " references unknown driver " +:+ quoted (prt_driver (pxa_runtime a)).

(* crates/core/src/plugin_boot/registry.rs, activate_all@for activation in activations ~~ outcome.tool_names.sort(); *)
Fixpoint activate_each (factories : btree PluginDriverFactory) (activations : list PluginExecutableActivation)
    (policy : UnknownDriverPolicy) (tools : ToolRegistry) (outcome : DriverActivationOutcome)
    : result (ToolRegistry * DriverActivationOutcome) string :=
  match activations with
  | [] => Ok (tools, outcome)
  | activation :: rest =>
      let before_tools := registry_names tools in
      match bt_get (prt_driver (pxa_runtime activation)) factories with
      | None =>
          match policy with
          | UnknownDriver_Error => Err (unknown_driver activation)
          | UnknownDriver_Warn =>
              activate_each factories rest policy tools (push_warning outcome (unknown_driver activation))
          end
      | Some activate =>
          match activate activation tools outcome with
          | Err e => Err e
          | Ok (tools, outcome) =>
              let fresh := List.filter (fun name => negb (bool_decide (name ∈ before_tools))) (registry_names tools) in
              activate_each factories rest policy tools (with_tool_names outcome (out_tool_names outcome ++ fresh))
          end
      end
  end.

(* crates/core/src/plugin_boot/registry.rs, activate_all *)
Definition activate_all (factories : btree PluginDriverFactory) (activations : list PluginExecutableActivation)
    (policy : UnknownDriverPolicy) (tools : ToolRegistry)
    : result (ToolRegistry * DriverActivationOutcome) string :=
  match activate_each factories activations policy tools outcome_default with
  | Err e => Err e
  | Ok (tools, outcome) =>
      Ok (tools, with_tool_names outcome (collect_set String.compare (out_tool_names outcome)))
  end.

(* crates/core/src/plugin_boot/registry.rs, extend_host_inputs *)
Definition extend_host_inputs (o : DriverActivationOutcome) (hooks : list HookRegistration)
    (mcp_servers : list McpServerConfig) (instructions : list string)
    : list HookRegistration * list McpServerConfig * list string :=
  (hooks ++ out_hooks o, mcp_servers ++ out_mcp_servers o, instructions ++ out_instructions o).

(** ** The WebAssembly drivers *)

(* crates/core/src/plugin_boot/drivers.rs, WasmHookRuntimeSpec *)
Record WasmHookRuntimeSpec := mkWasmHookRuntimeSpec {
  wspec_name : HookName;
  wspec_event : HookEvent;
  wspec_matcher : option HookMatcher;
  wspec_entrypoint : string;
  wspec_timeout_ms : option N
}.

(* crates/core/src/plugin_boot/drivers.rs, WasmHookRuntimeDriverConfig *)
Record WasmHookRuntimeDriverConfig := mkWasmHookRuntimeDriverConfig {
  wcfg_hooks : list WasmHookRuntimeSpec;
  wcfg_mcp_servers : list McpServerConfig;
  wcfg_instructions : list string
}.

(* crates/core/src/plugin_boot/drivers.rs, validated_wasm_module_path *)
Definition validated_wasm_module_path (a : PluginExecutableActivation) : result PathBuf string :=
  match prt_module (pxa_runtime a) with
  | None =>
      Err ("plugin " +:+ quoted (pxa_plugin_id a) +:+ " uses " +:+ prt_driver (pxa_runtime a)
           +:+ " without runtime.module")
  | Some module =>
      let module_path := path_of_string module in
      if negb (existsb (path_starts_with module_path) (perm_exec_roots (pxa_granted_permissions a))) then
        Err ("plugin " +:+ quoted (pxa_plugin_id a) +:+ " references wasm module "
             +:+ path_display module_path +:+ " outside granted exec roots")
      else Ok module_path
  end.

Definition wasm_hook_of (module : string) (execution : HookExecutionPolicy) (spec : WasmHookRuntimeSpec)
    : HookRegistration :=
  mkHookRegistration (wspec_name spec) (wspec_event spec) (wspec_matcher spec)
    (Handler_Wasm (mkWasmHookHandler module (wspec_entrypoint spec))) (wspec_timeout_ms spec) (Some execution).

(** [parse] is the conversion of a TOML table. *)
(* crates/core/src/plugin_boot/drivers.rs, WasmHookRuntimeDriverFactory::activate *)
Definition wasm_hook_runtime (parse : TomlTable -> result WasmHookRuntimeDriverConfig string) : PluginDriverFactory :=
  fun a tools o =>
  match validated_wasm_module_path a with
  | Err e => Err e
  | Ok module_path =>
      match parse (pxa_config a) with
      | Err _ => Err ("failed to parse config for plugin " +:+ quoted (pxa_plugin_id a))
      | Ok config =>
          if negb (is_nil (wcfg_hooks config))
             && negb (bool_decide (HandlerKind_Wasm ∈ cap_hook_handlers (pxa_capabilities a))) then
            Err ("plugin " +:+ quoted (pxa_plugin_id a)
                 +:+ " uses builtin.wasm-hook-runtime without declaring wasm hook handler capability")
          else if negb (is_nil (wcfg_mcp_servers config)) && negb (cap_mcp_exports (pxa_capabilities a)) then
            Err ("plugin " +:+ quoted (pxa_plugin_id a)
                 +:+ " uses builtin.wasm-hook-runtime to export MCP servers without mcp_exports capability")
          else
            let execution := build_hook_execution_policy (pxa_plugin_id a) (pxa_root_dir a) (pxa_capabilities a)
                               (pxa_granted_permissions a) in
            let instructions := List.filter (fun i => negb (str_is_empty i)) (map trim (wcfg_instructions config)) in
            Ok (tools, mkDriverActivationOutcome (out_warnings o)
                  (out_hooks o ++ map (wasm_hook_of (path_display module_path) execution) (wcfg_hooks config))
                  (out_mcp_servers o ++ wcfg_mcp_servers config)
                  (out_instructions o ++ instructions)
                  (out_diagnostics o
                     ++ ["plugin " +:+ quoted (pxa_plugin_id a) +:+ " activated builtin.wasm-hook-runtime with "
                         +:+ fmt_nat (length (wcfg_hooks config)) +:+ " hooks, "
                         +:+ fmt_nat (length (wcfg_mcp_servers config)) +:+ " MCP servers, and "
                         +:+ fmt_nat (length instructions) +:+ " instructions"])
                  (out_tool_names o) (out_primary_memory_backend o))
      end
  end.

(* crates/core/src/plugin_boot/drivers.rs, WasmHookValidatorDriverFactory::activate *)
Definition wasm_hook_validator : PluginDriverFactory :=
  fun a tools o =>
  match validated_wasm_module_path a with
  | Err e => Err e
  | Ok module_path =>
      Ok (tools, mkDriverActivationOutcome (out_warnings o) (out_hooks o) (out_mcp_servers o) (out_instructions o)
            (out_diagnostics o ++ ["plugin " +:+ quoted (pxa_plugin_id a) +:+ " validated wasm hook module "
                                   +:+ path_display module_path])
            (out_tool_names o) (out_primary_memory_backend o))
  end.

(* crates/core/src/plugin_boot/drivers.rs, builtin_registry *)
Definition builtin_registry (memory_core : PluginDriverFactory)
    (parse : TomlTable -> result WasmHookRuntimeDriverConfig string) : btree PluginDriverFactory :=
  bt_insert "builtin.wasm-hook-validator" wasm_hook_validator
    (bt_insert "builtin.wasm-hook-runtime" (wasm_hook_runtime parse)
       (bt_insert "builtin.memory-core" memory_core [])).

(* crates/core/src/plugin_boot.rs, activate_driver_requests *)
Definition activate_driver_requests (memory_core : PluginDriverFactory)
    (parse : TomlTable -> result WasmHookRuntimeDriverConfig string)
    (requests : list PluginExecutableActivation) (tools : ToolRegistry) (policy : UnknownDriverPolicy)
    : result (ToolRegistry * DriverActivationOutcome) string :=
  activate_all (builtin_registry memory_core parse) requests policy tools.

End Boot.
