(* ===== verification/PluginProps.v ===== *)
(** * Plugins: theorems

    What the plan activates and grants: exactly the plugins that the configuration
    admits, with permissions that both the manifest asked for and the operator granted,
    inside the workspace; hooks of a plugin stay within its declared capabilities. *)

From Stdlib Require Import Ascii String.
From stdpp Require Import base list gmap sets sorting strings.
From Stdlib Require Import Lia.
From S2P Require Import Prelude Text BTree Message Events Errors WriteLease SandboxPolicy Tools HookEffects PathPolicy.
From S2P Require Import Plugins PluginPlan PluginBoot.

(** ** Paths *)

(** [p] is [root] or below it, without going up. *)
Definition below (root p : PathBuf) : Prop := exists rel, p = root ++ rel /\ ".." ∉ rel /\ "/" ∉ rel.

Lemma below_join root path :
  is_absolute path = false -> existsb bad_component path = false -> below root (PathPolicy.path_join root path).
Proof.
  intros Ha Hb. unfold PathPolicy.path_join. rewrite Ha.
  assert (Hp : ".." ∉ path /\ "/" ∉ path).
  { split; intros Hin%list_elem_of_In; (assert (existsb bad_component path = true); [|congruence]);
      apply existsb_exists; by eexists. }
  destruct root as [|c root]; [by exists path|]. exists (List.filter not_dot path). split; [done|].
  split; intros Hin%list_elem_of_In%filter_In; destruct Hin as [Hin%list_elem_of_In _]; by destruct Hp.
Qed.

Lemma resolve_safe_ok root value p : resolve_safe_relative_path root value = Ok p -> below root p.
Proof.
  unfold resolve_safe_relative_path. destruct (is_absolute _) eqn:Ea; [done|].
  destruct (existsb _ _) eqn:Eb; [done|]. intros [= <-]. by apply below_join.
Qed.

Lemma resolve_workspace_ok root value p : resolve_workspace_relative_path root value = Ok p -> below root p.
Proof.
  unfold resolve_workspace_relative_path. destruct (is_absolute _) eqn:Ea; [done|].
  destruct (existsb _ _) eqn:Eb; [done|]. intros [= <-]. by apply below_join.
Qed.

Section Grants.
Context {L : TomlLeaf}.

(** ** Permissions *)

(** Every root is a path that was asked for and granted, below the workspace. *)
Definition roots_confined (ws : PathBuf) (requested granted : list string) (roots : list PathBuf) : Prop :=
  Forall (fun r => below ws r /\ exists v, v ∈ requested /\ v ∈ granted
                   /\ resolve_workspace_relative_path ws v = Ok r) roots.

Definition network_within (requested : PluginNetworkAccess) (n : HookNetworkPolicy) : Prop :=
  match n, requested with
  | HookNetwork_Deny, _ => True
  | _, PluginNet_Allow => True
  | HookNetwork_AllowDomains ds, PluginNet_AllowDomains asked => Forall (fun d => d ∈ asked) ds
  | _, _ => False
  end.

Record confined (ws : PathBuf) (requested : PluginPermissionRequest) (granted : PluginPermissionGrant)
    (p : PluginResolvedPermissions) : Prop := {
  cf_read : roots_confined ws (preq_read requested) (pgr_read granted) (perm_read_roots p);
  cf_write : roots_confined ws (preq_write requested) (pgr_write granted) (perm_write_roots p);
  cf_exec : roots_confined ws (preq_exec requested) (pgr_exec granted) (perm_exec_roots p);
  cf_network : network_within (preq_network requested) (perm_network p)
               /\ perm_network p = to_hook_network_policy (pgr_network granted);
  cf_mutation : perm_message_mutation p <> Mutation_Deny ->
                perm_message_mutation p = Mutation_Allow /\ preq_message_mutation requested = Mutation_Allow
                /\ pgr_message_mutation granted = Mutation_Allow;
  cf_host_api : Forall (fun a => a ∈ preq_host_api requested /\ a ∈ pgr_host_api granted) (perm_host_api p)
}.

Lemma ensure_requested_paths_ok requested granted label id path :
  ensure_requested_paths requested granted label id path = Ok tt -> Forall (fun g => g ∈ requested) granted.
Proof.
  induction granted as [|g granted IH]; [by constructor|]. simpl. case_bool_decide; [|done]. simpl.
  intros Hrest. constructor; auto.
Qed.

Lemma ensure_requested_apis_ok requested granted id path :
  ensure_requested_apis requested granted id path = Ok tt -> Forall (fun g => g ∈ requested) granted.
Proof.
  induction granted as [|g granted IH]; [by constructor|]. simpl. case_bool_decide; [|done]. simpl.
  intros Hrest. constructor; auto.
Qed.

Lemma resolve_workspace_paths_ok ws values requested id path roots :
  Forall (fun v => v ∈ requested) values -> resolve_workspace_paths ws values id path = Ok roots ->
  roots_confined ws requested values roots.
Proof.
  intros Hreq H%map_result_Ok. apply Forall_forall. intros r Hr.
  apply list_elem_of_lookup_1 in Hr as [i Hi]. destruct (Forall2_lookup_r _ _ _ _ _ H Hi) as (v & Hv & Hres).
  destruct (resolve_workspace_relative_path ws v) as [p|] eqn:E; [|done]. injection Hres as ->.
  split; [by eapply resolve_workspace_ok|]. apply list_elem_of_lookup_2 in Hv. exists v.
  split_and!; [by eapply Forall_forall in Hreq | done | done].
Qed.

Lemma network_allows_within requested granted :
  network_allows requested granted = true -> network_within requested (to_hook_network_policy granted).
Proof.
  destruct requested as [| |asked], granted as [| |ds]; simpl; try done. rewrite forallb_forall.
  intros H. apply Forall_forall. intros d Hd%list_elem_of_In. apply H, existsb_exists in Hd as (c & Hc & ->%String.eqb_eq).
  by apply list_elem_of_In.
Qed.

Lemma resolve_plugin_permissions_ok plugin entry ws p :
  resolve_plugin_permissions plugin entry ws = Ok p ->
  confined ws (man_permissions (dp_manifest plugin)) (default PluginPermissionGrant_default (ent_permissions <$> entry)) p.
Proof.
  unfold resolve_plugin_permissions, ensure_requested_contains_all.
  set (grant := default PluginPermissionGrant_default _). set (req := man_permissions _).
  destruct (ensure_supported_permission_modes req grant _ _) as [[]|] eqn:E0; [|done]. cbn [result_bind].
  destruct (ensure_requested_paths _ _ "read" _ _) as [[]|] eqn:E1; [|done]. cbn [result_bind].
  destruct (ensure_requested_paths _ _ "write" _ _) as [[]|] eqn:E2; [|done]. cbn [result_bind].
  destruct (ensure_requested_paths _ _ "exec" _ _) as [[]|] eqn:E3; [|done]. cbn [result_bind].
  destruct (network_allows _ _) eqn:E4; [|done]. destruct (message_mutation_allows _ _) eqn:E5; [|done]. cbn [negb].
  destruct (ensure_requested_apis _ _ _ _) as [[]|] eqn:E6; [|done]. cbn [result_bind].
  destruct (resolve_workspace_paths ws (pgr_read grant) _ _) as [rs|] eqn:E7; [|done]. cbn [result_bind].
  destruct (resolve_workspace_paths ws (pgr_write grant) _ _) as [ws'|] eqn:E8; [|done]. cbn [result_bind].
  destruct (resolve_workspace_paths ws (pgr_exec grant) _ _) as [xs|] eqn:E9; [|done]. cbn [result_bind].
  intros [= <-]. apply ensure_requested_paths_ok in E1, E2, E3. apply ensure_requested_apis_ok in E6.
  split; simpl; [by eapply resolve_workspace_paths_ok..| | |].
  - split; [by apply network_allows_within | done].
  - unfold message_mutation_allows in E5. by destruct (pgr_message_mutation grant), (preq_message_mutation req).
  - eapply Forall_impl; [apply Forall_and; split; [exact E6 | apply Forall_forall; intros x Hx; exact Hx]|]. done.
Qed.

(** ** What is active *)

Definition plugin_id (p : DiscoveredPlugin) : PluginId := man_id (dp_manifest p).

(** The operator lets the plugin be enabled at all. *)
Definition admitted (r : PluginResolverConfig) (p : DiscoveredPlugin) : bool :=
  res_enabled r && negb (bool_decide (plugin_id p ∈ res_deny r))
  && (is_nil (res_allow r) || bool_decide (plugin_id p ∈ res_allow r)).

(** It is wanted by its entry, or else by its manifest. *)
Definition wanted (r : PluginResolverConfig) (p : DiscoveredPlugin) : bool :=
  default (man_enabled_by_default (dp_manifest p)) (bt_get (plugin_id p) (res_entries r) ≫= ent_enabled).

(** It is chosen for the memory slot. *)
Definition slotted (r : PluginResolverConfig) (p : DiscoveredPlugin) : bool :=
  bool_decide (res_slot_memory r = Some (plugin_id p)) && bool_decide (man_kind (dp_manifest p) = Kind_Memory).

Definition granted_to (r : PluginResolverConfig) (ws : PathBuf) (p : DiscoveredPlugin)
    : option PluginResolvedPermissions :=
  match resolve_plugin_permissions p (bt_get (plugin_id p) (res_entries r)) ws with Ok g => Some g | Err _ => None end.

(** The permissions of an active plugin. *)
Definition active (r : PluginResolverConfig) (ws : PathBuf) (p : DiscoveredPlugin) : option PluginResolvedPermissions :=
  if admitted r p && (wanted r p || slotted r p) then granted_to r ws p else None.

(** Active without the slot. *)
Definition active_first (r : PluginResolverConfig) (ws : PathBuf) (p : DiscoveredPlugin)
    : option PluginResolvedPermissions :=
  if admitted r p && wanted r p then granted_to r ws p else None.

Lemma resolve_state_enabled r p :
  pst_enabled (resolve_plugin_state p r) = admitted r p && wanted r p
  /\ pst_plugin_id (resolve_plugin_state p r) = plugin_id p.
Proof.
  unfold resolve_plugin_state, admitted, wanted. fold (plugin_id p). destruct (res_enabled r); [|done]. cbn [negb andb].
  case_bool_decide; [done|]. cbn [negb andb]. destruct (is_nil (res_allow r)); cbn [negb andb orb].
  - destruct (bt_get _ _ ≫= _) as [[]|]; [done..|]. by destruct (man_enabled_by_default _).
  - case_bool_decide; cbn [negb andb]; [|done]. destruct (bt_get _ _ ≫= _) as [[]|]; [done..|].
    by destruct (man_enabled_by_default _).
Qed.

End Grants.

(** ** What the plan contains *)

(** A plugin added to a list of plugins of which it was left out. *)
Lemma bind_add_perm {A B} (f g : A -> list B) a l :
  (forall x, x ∈ l -> x <> a -> g x = f x) -> f a = [] -> NoDup l -> a ∈ l -> l ≫= g ≡ₚ (l ≫= f) ++ g a.
Proof.
  intros Hne Ha. induction l as [|x l IH]; [intros _ H; by inversion H|].
  intros [Hx Hnd]%NoDup_cons Hin. rewrite !bind_cons. apply elem_of_cons in Hin as [->|Hin].
  - rewrite Ha. simpl. assert (Heq : l ≫= g = l ≫= f); [|by rewrite Heq, (comm (++))].
    assert (Hl : forall y, y ∈ l -> g y = f y) by (intros y Hy; apply Hne; [by right | by intros ->]).
    clear -Hl. induction l as [|y l IH]; [done|]. rewrite !bind_cons, Hl, IH by set_solver. done.
  - rewrite Hne; [|by left | by intros ->]. rewrite <- app_assoc. f_equiv. apply IH; [|done|done].
    intros y Hy. apply Hne. by right.
Qed.

Lemma bind_ext_in {A B} (f g : A -> list B) l : (forall x, x ∈ l -> f x = g x) -> l ≫= f = l ≫= g.
Proof. intros H. induction l as [|x l IH]; [done|]. rewrite !bind_cons, H, IH by set_solver. done. Qed.

Section PlanSpec.
Context {L : TomlLeaf} (r : PluginResolverConfig) (ws : PathBuf).

(** A list the plan collects: [proj] of the plan, [part] of a plugin and its grant. *)
Record collected {X} (proj : PluginActivationPlan -> list X)
    (part : DiscoveredPlugin -> PluginResolvedPermissions -> list X) : Prop := {
  col_collect plan p g : proj (collect_plugin_activation plan p r g) = proj plan ++ part p g;
  col_diag plan d : proj (push_diagnostic plan d) = proj plan;
  col_states plan s : proj (with_states plan s) = proj plan;
  col_slot plan id : proj (with_slot plan id) = proj plan
}.

Lemma collected_instructions : collected plan_instructions (fun p _ => man_instructions (dp_manifest p)).
Proof. by split. Qed.
Lemma collected_hooks : collected plan_hooks (fun p g => map (decorate_hook_registration p g) (dp_hooks p)).
Proof. by split. Qed.
Lemma collected_servers : collected plan_mcp_servers (fun p _ => dp_mcp_servers p).
Proof. by split. Qed.
Lemma collected_skills : collected plan_skill_roots (fun p _ => dp_skill_roots p).
Proof. by split. Qed.
Lemma collected_tools : collected plan_custom_tool_activations (fun p g =>
  if is_nil (dp_tool_roots p) then []
  else [mkPluginCustomToolActivation (plugin_id p) (dp_root_dir p) (dp_manifest_path p) (dp_tool_roots p) g]).
Proof. by split. Qed.
Lemma collected_runtimes : collected plan_runtime_activations (fun p g =>
  option_list (runtime_activation p r g <$> man_runtime (dp_manifest p))).
Proof. by split. Qed.

Definition part_of {X} (part : DiscoveredPlugin -> PluginResolvedPermissions -> list X)
    (o : option PluginResolvedPermissions) (p : DiscoveredPlugin) : list X :=
  match o with Some g => part p g | None => [] end.

(** The state of a plugin, as far as it matters. *)
Definition outcome_of (s : PluginState) : PluginId * option PluginResolvedPermissions :=
  (pst_plugin_id s, if pst_enabled s then Some (pst_granted_permissions s) else None).

Lemma plan_plugin_spec {X} (proj : PluginActivationPlan -> list X) part plan p :
  collected proj part ->
  proj (plan_plugin r ws plan p) = proj plan ++ part_of part (active_first r ws p) p
  /\ map outcome_of (plan_plugin_states (plan_plugin r ws plan p))
     = map outcome_of (plan_plugin_states plan) ++ [(plugin_id p, active_first r ws p)]
  /\ plan_slot_memory (plan_plugin r ws plan p) = plan_slot_memory plan.
Proof.
  intros Hc. unfold plan_plugin, active_first, granted_to. fold (plugin_id p).
  destruct (resolve_state_enabled r p) as [-> Hid].
  destruct (admitted r p && wanted r p); [destruct (resolve_plugin_permissions _ _ _)|];
    unfold push_state; rewrite ?(col_states _ _ Hc), ?(col_diag _ _ Hc), ?(col_collect _ _ Hc);
    cbn [part_of]; rewrite ?app_nil_r; (split; [done|]); (split; [|done]); simpl; rewrite map_app; simpl;
    unfold outcome_of at 2; simpl; by rewrite Hid.
Qed.

Lemma plan_fold_spec {X} (proj : PluginActivationPlan -> list X) part l : forall plan,
  collected proj part ->
  proj (foldl (plan_plugin r ws) plan l) = proj plan ++ (l ≫= fun p => part_of part (active_first r ws p) p)
  /\ map outcome_of (plan_plugin_states (foldl (plan_plugin r ws) plan l))
     = map outcome_of (plan_plugin_states plan) ++ map (fun p => (plugin_id p, active_first r ws p)) l
  /\ plan_slot_memory (foldl (plan_plugin r ws) plan l) = plan_slot_memory plan.
Proof.
  induction l as [|p l IH]; intros plan Hc; [by rewrite !app_nil_r|]. cbn [foldl map].
  destruct (plan_plugin_spec proj part plan p Hc) as (H1 & H2 & H3).
  destruct (IH (plan_plugin r ws plan p) Hc) as (H4 & H5 & H6).
  rewrite H4, H5, H6, H1, H2, H3, bind_cons, <- !app_assoc. done.
Qed.

(** *** The memory slot *)

Definition keyed (by_id : btree DiscoveredPlugin) : Prop :=
  bt_ok by_id /\ forall id p, (id, p) ∈ by_id -> plugin_id p = id.

Lemma plugins_by_id_keyed plugins : keyed (plugins_by_id plugins).
Proof.
  unfold plugins_by_id. assert (H : forall m, keyed m -> keyed (foldl (fun m plugin =>
    bt_insert (man_id (dp_manifest plugin)) plugin m) m plugins)); [|apply H; split; [constructor | by intros ? ? ?%not_elem_of_nil]].
  induction plugins as [|p plugins IH]; intros m Hm; [done|]. apply IH. destruct Hm as [Hok Hk].
  split; [by apply bt_ok_insert|]. intros id q Hin. apply bt_In_get in Hin; [|by apply bt_ok_insert].
  rewrite bt_get_insert in Hin. destruct (String.eqb_spec id (man_id (dp_manifest p))) as [->|Hne].
  - by injection Hin as <-.
  - by apply Hk, bt_get_In.
Qed.

Lemma keyed_nodup by_id : keyed by_id -> NoDup by_id.*2.
Proof.
  intros [Hok Hk]. apply (NoDup_fmap_1 plugin_id). rewrite <- list_fmap_compose.
  assert (E : (plugin_id ∘ snd) <$> by_id = by_id.*1); [|by rewrite E].
  apply list_fmap_ext. intros i [id p] Hi. simpl. apply Hk. by eapply list_elem_of_lookup_2.
Qed.

(** The plugin that the slot enables, if it does. *)
Definition slot_enables (p : DiscoveredPlugin) : Prop :=
  admitted r p = true /\ wanted r p = false /\ slotted r p = true.

Lemma active_other p : ~ slot_enables p -> active r ws p = active_first r ws p.
Proof.
  unfold slot_enables, active, active_first. destruct (admitted r p), (wanted r p), (slotted r p); simpl; try done.
  intros H. exfalso. by apply H.
Qed.

Lemma slot_enables_first p : slot_enables p -> active_first r ws p = None /\ active r ws p = granted_to r ws p.
Proof. unfold slot_enables, active, active_first. by intros (-> & -> & ->). Qed.

Lemma not_fired (l : list DiscoveredPlugin) :
  (forall q, q ∈ l -> slot_enables q -> granted_to r ws q = None) ->
  forall q, q ∈ l -> active r ws q = active_first r ws q.
Proof.
  intros H q Hq. destruct (decide (admitted r q = true /\ wanted r q = false /\ slotted r q = true)) as [Hs|Hs].
  - destruct (slot_enables_first q Hs) as [-> ->]. by apply H.
  - by apply active_other.
Qed.

Lemma keyed_get by_id id p : keyed by_id -> bt_get id by_id = Some p -> plugin_id p = id /\ p ∈ by_id.*2.
Proof.
  intros [_ Hk] H%bt_get_In. split; [by apply Hk|]. apply list_elem_of_fmap. by exists (id, p).
Qed.

Lemma keyed_in by_id p : keyed by_id -> p ∈ by_id.*2 -> bt_get (plugin_id p) by_id = Some p.
Proof.
  intros [Hok Hk] ([id q] & -> & Hin)%list_elem_of_fmap. simpl. rewrite (Hk _ _ Hin). by apply bt_In_get.
Qed.

(** What the slot adds. *)
Inductive slot_result (by_id : btree DiscoveredPlugin) (plan plan' : PluginActivationPlan) : Prop :=
| Slot_unchanged :
    (forall q, q ∈ by_id.*2 -> active r ws q = active_first r ws q) ->
    (exists plan0, (plan' = plan0 \/ exists id, plan' = with_slot plan0 id)
       /\ (plan0 = plan \/ exists d, plan0 = push_diagnostic plan d)) -> slot_result by_id plan plan'
| Slot_added p g :
    p ∈ by_id.*2 -> active_first r ws p = None -> active r ws p = Some g ->
    (forall q, q ∈ by_id.*2 -> q <> p -> active r ws q = active_first r ws q) ->
    plan' = with_slot (collect_plugin_activation
              (with_states plan (update_first (fun s => String.eqb (pst_plugin_id s) (plugin_id p))
                 (enable_by_slot p g) (plan_plugin_states plan))) p r g) (plugin_id p) ->
    slot_result by_id plan plan'.

Lemma already_enabled_spec states l id :
  map outcome_of states = map (fun p => (plugin_id p, active_first r ws p)) l ->
  existsb (fun s => String.eqb (pst_plugin_id s) id && pst_enabled s) states = true
  <-> exists p, p ∈ l /\ plugin_id p = id /\ is_Some (active_first r ws p).
Proof.
  intros H. rewrite existsb_exists. split.
  - intros (s & Hs & [E Hen]%andb_true_iff). apply String.eqb_eq in E.
    assert (Hin : outcome_of s ∈ map outcome_of states) by (apply list_elem_of_fmap_2; by apply list_elem_of_In).
    rewrite H in Hin. apply list_elem_of_fmap in Hin as (p & Hp & Hl). exists p. split; [done|].
    unfold outcome_of in Hp. rewrite Hen in Hp. injection Hp as <- <-. by split; [|eexists].
  - intros (p & Hl & <- & [g Hg]).
    assert (Hin : (plugin_id p, Some g) ∈ map outcome_of states)
      by (rewrite H; apply list_elem_of_fmap; exists p; by rewrite Hg).
    apply list_elem_of_fmap in Hin as (s & Hs & Hin). exists s. split; [by apply list_elem_of_In|].
    unfold outcome_of in Hs. destruct (pst_enabled s); [|done]. injection Hs as -> ->. by rewrite String.eqb_refl.
Qed.

Lemma admitted_false_slot q : admitted r q = false -> ~ slot_enables q.
Proof. unfold slot_enables. intros -> [? _]. done. Qed.

Lemma slotted_id q selected : res_slot_memory r = Some selected -> slot_enables q ->
  plugin_id q = selected /\ man_kind (dp_manifest q) = Kind_Memory.
Proof.
  intros Hs (_ & _ & H). unfold slotted in H. apply andb_true_iff in H as [H1%bool_decide_eq_true H2%bool_decide_eq_true].
  split; [congruence | done].
Qed.

Lemma resolve_memory_slot_spec by_id plan :
  keyed by_id ->
  map outcome_of (plan_plugin_states plan) = map (fun p => (plugin_id p, active_first r ws p)) by_id.*2 ->
  slot_result by_id plan (resolve_memory_slot plan by_id r ws).
Proof.
  intros Hk Hst. unfold resolve_memory_slot.
  assert (Hdiag : forall d, (forall q, q ∈ by_id.*2 -> ~ slot_enables q) -> slot_result by_id plan (push_diagnostic plan d)).
  { intros d Hno. apply Slot_unchanged; [apply not_fired; intros q Hq Hs; by destruct (Hno q Hq)|].
    exists (push_diagnostic plan d). split; [by left | right; by eexists]. }
  destruct (res_slot_memory r) as [selected|] eqn:Esl.
  2:{ apply Slot_unchanged; [|exists plan; by split; left]. apply not_fired. intros q _ (_ & _ & H). unfold slotted in H. by rewrite Esl in H. }
  destruct (res_enabled r) eqn:Een; cbn [negb].
  2:{ apply Hdiag. intros q _. apply admitted_false_slot. unfold admitted. by rewrite Een. }
  case_bool_decide as Hdeny.
  { apply Hdiag. intros q _ Hs. destruct (slotted_id q _ Esl Hs) as [<- _]. revert Hs. apply admitted_false_slot.
    unfold admitted. by rewrite bool_decide_true, andb_false_r. }
  destruct (bt_get selected by_id) as [p|] eqn:Ep.
  2:{ apply Hdiag. intros q Hq Hs. destruct (slotted_id q _ Esl Hs) as [<- _].
      rewrite (keyed_in by_id q) in Ep by done. done. }
  destruct (keyed_get by_id selected p Hk Ep) as [Hid Hin]. fold (plugin_id p). rewrite Hid.
  assert (Honly : forall q, q ∈ by_id.*2 -> slot_enables q -> q = p).
  { intros q Hq Hs. destruct (slotted_id q _ Esl Hs) as [Hq' _]. rewrite <- Hq' in Ep.
    rewrite (keyed_in by_id q) in Ep by done. by injection Ep. }
  case_bool_decide as Hkind; cbn [negb].
  2:{ apply Hdiag. intros q Hq Hs. pose proof (Honly q Hq Hs) as ->. by destruct (slotted_id p _ Esl Hs). }
  destruct (negb (is_nil (res_allow r)) && _) eqn:Eal.
  { apply Hdiag. intros q Hq Hs. pose proof (Honly q Hq Hs) as ->. revert Hs. apply admitted_false_slot.
    unfold admitted. rewrite Hid. destruct (is_nil (res_allow r)); [done|]. simpl in Eal. apply negb_true_iff in Eal.
    by rewrite Eal, andb_false_r. }
  assert (Hadm : admitted r p = true).
  { unfold admitted. rewrite Een, Hid, bool_decide_false by done. simpl.
    destruct (is_nil (res_allow r)); [done|]. simpl in *. by apply negb_false_iff in Eal. }
  assert (Hslot : slotted r p = true).
  { unfold slotted. by rewrite Esl, Hid, !bool_decide_true. }
  pose proof (already_enabled_spec (plan_plugin_states plan) by_id.*2 selected Hst) as Hen.
  destruct (existsb _ (plan_plugin_states plan)) eqn:Eex; cbn [negb].
  { apply Slot_unchanged; [|exists plan; split; [right; by eexists | by left]]. apply not_fired.
    intros q Hq Hs. pose proof (Honly q Hq Hs) as ->.
    destruct Hen as [Hen _]. destruct (Hen eq_refl) as (q & Hq' & Hqid & [g Hg]).
    assert (q = p) as -> by (apply (keyed_in by_id) in Hq'; [|done]; congruence).
    destruct (slot_enables_first p Hs) as [Hf _]. congruence. }
  assert (Hfirst : active_first r ws p = None).
  { destruct (active_first r ws p) eqn:E; [|done]. exfalso. destruct Hen as [_ Hen].
    assert (false = true); [|done]. apply Hen. exists p. rewrite E. by split_and!. }
  rewrite <- Hid. destruct (resolve_plugin_permissions p _ ws) as [g|d] eqn:Eg.
  - assert (Hw : wanted r p = false).
    { unfold active_first, granted_to in Hfirst. rewrite Hadm, Eg in Hfirst. by destruct (wanted r p). }
    apply (Slot_added _ _ _ p g); [done | done | | |done].
    + unfold active, granted_to. by rewrite Hadm, Hslot, orb_true_r, Eg.
    + intros q Hq Hne. apply active_other. intros Hs. by apply Hne, Honly.
  - apply Slot_unchanged; [|exists (push_diagnostic plan d); split; [by left | right; by eexists]].
    apply not_fired. intros q Hq Hs. pose proof (Honly q Hq Hs) as ->.
    unfold granted_to. by rewrite Eg.
Qed.

End PlanSpec.

Section PlanExact.
Context {L : TomlLeaf} (r : PluginResolverConfig) (ws : PathBuf).

Lemma slot_result_proj {X} (proj : PluginActivationPlan -> list X) part by_id plan plan' :
  collected r proj part -> keyed by_id -> slot_result r ws by_id plan plan' ->
  proj plan = by_id.*2 ≫= (fun p => part_of part (active_first r ws p) p) ->
  proj plan' ≡ₚ by_id.*2 ≫= (fun p => part_of part (active r ws p) p).
Proof.
  intros Hc Hk [Hsame (plan0 & Hp' & Hp)|p g Hin Hf Ha Hne ->] Hplan.
  - assert (Hproj : proj plan' = proj plan).
    { destruct Hp' as [->|[id ->]]; rewrite ?(col_slot _ _ _ Hc); destruct Hp as [->|[d ->]];
        by rewrite ?(col_diag _ _ _ Hc). }
    rewrite Hproj, Hplan. assert (E : by_id.*2 ≫= (fun p => part_of part (active_first r ws p) p)
      = by_id.*2 ≫= (fun p => part_of part (active r ws p) p)); [|by rewrite E].
    apply bind_ext_in. intros q Hq. by rewrite Hsame.
  - rewrite (col_slot _ _ _ Hc), (col_collect _ _ _ Hc), (col_states _ _ _ Hc), Hplan.
    rewrite (bind_add_perm (fun p => part_of part (active_first r ws p) p)
      (fun p => part_of part (active r ws p) p) p); [by rewrite Ha | | by rewrite Hf | by apply keyed_nodup | done].
    intros q Hq Hqp. by rewrite Hne.
Qed.

Lemma update_first_outcomes p g l states :
  p ∈ l -> NoDup (map plugin_id l) ->
  map outcome_of states = map (fun q => (plugin_id q, active_first r ws q)) l ->
  active r ws p = Some g -> (forall q, q ∈ l -> q <> p -> active r ws q = active_first r ws q) ->
  map outcome_of (update_first (fun s => String.eqb (pst_plugin_id s) (plugin_id p)) (enable_by_slot p g) states)
  = map (fun q => (plugin_id q, active r ws q)) l.
Proof.
  revert states. induction l as [|q l IH]; intros states Hin Hnd Hst Ha Hne; [by apply not_elem_of_nil in Hin|].
  destruct states as [|s states]; [done|]. cbn [map] in Hst, Hnd. injection Hst as Hid Hen Hst.
  apply NoDup_cons in Hnd as [Hq Hnd]. cbn [update_first]. rewrite Hid.
  destruct (String.eqb_spec (plugin_id q) (plugin_id p)) as [E|E].
  - assert (q = p) as ->.
    { apply elem_of_cons in Hin as [->|Hin]; [done|]. exfalso. apply Hq. rewrite E. by apply list_elem_of_fmap_2. }
    cbn [map]. f_equal; [unfold outcome_of; simpl; by rewrite Hid, Ha|]. rewrite Hst.
    assert (Hrest : forall x, x ∈ l -> (plugin_id x, active_first r ws x) = (plugin_id x, active r ws x)).
    { intros x Hx. rewrite Hne; [done | by right|]. intros ->. apply Hq. by apply list_elem_of_fmap_2. }
    clear -Hrest. induction l as [|x l IH]; [done|]. cbn [map]. rewrite Hrest, IH by set_solver. done.
  - cbn [map]. apply elem_of_cons in Hin as [->|Hin]; [done|]. f_equal.
    + unfold outcome_of. rewrite Hid, Hen. f_equal. symmetry. apply Hne; [by left|]. by intros ->.
    + apply IH; [done..|]. intros x Hx. apply Hne. by right.
Qed.

Lemma keyed_ids by_id : keyed by_id -> NoDup (map plugin_id by_id.*2).
Proof.
  intros [Hok Hk]. change (map plugin_id) with (fmap (M := list) plugin_id). rewrite <- list_fmap_compose.
  assert (E : (plugin_id ∘ snd) <$> by_id = by_id.*1); [|by rewrite E].
  apply list_fmap_ext. intros i [id p] Hi. simpl. apply Hk. by eapply list_elem_of_lookup_2.
Qed.

Lemma slot_result_outcomes by_id plan plan' :
  keyed by_id -> slot_result r ws by_id plan plan' ->
  map outcome_of (plan_plugin_states plan) = map (fun p => (plugin_id p, active_first r ws p)) by_id.*2 ->
  map outcome_of (plan_plugin_states plan') = map (fun p => (plugin_id p, active r ws p)) by_id.*2.
Proof.
  intros Hk [Hsame (plan0 & Hp' & Hp)|p g Hin Hf Ha Hne ->] Hst.
  - assert (E : plan_plugin_states plan' = plan_plugin_states plan).
    { by destruct Hp' as [->|[id ->]]; destruct Hp as [->|[d ->]]. }
    rewrite E, Hst. clear -Hsame. induction by_id.*2 as [|x l IH]; [done|]. cbn [map].
    rewrite Hsame, IH by set_solver. done.
  - simpl. apply update_first_outcomes; try done. by apply keyed_ids.
Qed.

Lemma build_plan_spec {X} (proj : PluginActivationPlan -> list X) part discovery :
  collected r proj part -> (forall ds, proj (mkPluginActivationPlan [] [] [] [] [] [] ds [] None) = []) ->
  let by_id := plugins_by_id (pd_plugins discovery) in
  let plan0 := mkPluginActivationPlan [] [] [] [] [] [] (pd_diagnostics discovery ++ missing_references r by_id) [] None in
  let plan := resolve_memory_slot (foldl (plan_plugin r ws) plan0 by_id.*2) by_id r ws in
  proj plan ≡ₚ by_id.*2 ≫= (fun p => part_of part (active r ws p) p)
  /\ map outcome_of (plan_plugin_states plan) = map (fun p => (plugin_id p, active r ws p)) by_id.*2.
Proof.
  intros Hc Hnil by_id plan0 plan. pose proof (plugins_by_id_keyed (pd_plugins discovery)) as Hk. fold by_id in Hk.
  destruct (plan_fold_spec r ws proj part by_id.*2 plan0 Hc) as (H1 & H2 & _).
  assert (H0 : proj plan0 = []) by apply Hnil. rewrite H0 in H1. simpl in H2.
  pose proof (resolve_memory_slot_spec r ws by_id _ Hk H2) as Hs. split.
  - by eapply slot_result_proj.
  - by eapply slot_result_outcomes.
Qed.

(** What the active plugins contribute to a list of the plan. *)
Definition contributed {X} (plugins : list DiscoveredPlugin)
    (part : DiscoveredPlugin -> PluginResolvedPermissions -> list X) : list X :=
  plugins ≫= fun p => part_of part (active r ws p) p.

(** The lists of the finished plan. *)
Lemma plan_contributes {X} (proj : PluginActivationPlan -> list X) part discovery :
  collected r proj part -> (forall ds, proj (mkPluginActivationPlan [] [] [] [] [] [] ds [] None) = []) ->
  (forall plan, proj (finish_plan plan) = proj plan) ->
  proj (build_activation_plan discovery r ws)
  ≡ₚ contributed (plugins_by_id (pd_plugins discovery)).*2 part.
Proof. intros Hc Hnil Hfin. unfold build_activation_plan. rewrite Hfin. by apply build_plan_spec. Qed.

Lemma plan_states_outcomes discovery :
  map outcome_of (plan_plugin_states (build_activation_plan discovery r ws))
  ≡ₚ map (fun p => (plugin_id p, active r ws p)) (plugins_by_id (pd_plugins discovery)).*2.
Proof.
  pose proof (build_plan_spec plan_hooks _ discovery (collected_hooks r) (fun _ => eq_refl)) as [_ Hst].
  rewrite <- Hst. unfold build_activation_plan, finish_plan. cbn [plan_plugin_states].
  change (map outcome_of) with (fmap (M := list) outcome_of). by rewrite merge_sort_Permutation.
Qed.

End PlanExact.

(** ** Theorems *)

(** What holds of every plan: the states tell which plugins are active, with their
    permissions, and the lists of the plan are what the active plugins contribute, each once. *)
Lemma plan_lists {L : TomlLeaf} (discovery : PluginDiscovery) (r : PluginResolverConfig)
    (ws : PathBuf) :
  let plugins := (plugins_by_id (pd_plugins discovery)).*2 in
  let plan := build_activation_plan discovery r ws in
  map outcome_of (plan_plugin_states plan) ≡ₚ map (fun p => (plugin_id p, active r ws p)) plugins
  /\ plan_hooks plan ≡ₚ contributed r ws plugins (fun p g => map (decorate_hook_registration p g) (dp_hooks p))
  /\ plan_mcp_servers plan ≡ₚ contributed r ws plugins (fun p _ => dp_mcp_servers p)
  /\ plan_instructions plan ≡ₚ contributed r ws plugins (fun p _ => man_instructions (dp_manifest p))
  /\ plan_custom_tool_activations plan ≡ₚ contributed r ws plugins (fun p g =>
       if is_nil (dp_tool_roots p) then []
       else [mkPluginCustomToolActivation (plugin_id p) (dp_root_dir p) (dp_manifest_path p) (dp_tool_roots p) g])
  /\ plan_runtime_activations plan ≡ₚ contributed r ws plugins (fun p g =>
       option_list (runtime_activation p r g <$> man_runtime (dp_manifest p)))
  /\ (forall root, root ∈ plan_skill_roots plan <-> root ∈ contributed r ws plugins (fun p _ => dp_skill_roots p)).
Proof.
  intros plugins plan. split_and!; [apply plan_states_outcomes | apply (plan_contributes r ws).. |]; try by split.
  intros root. unfold plan, build_activation_plan, finish_plan. cbn [plan_skill_roots]. rewrite elem_of_dedup.
  pose proof (build_plan_spec r ws plan_skill_roots _ discovery (collected_skills r) (fun _ => eq_refl)) as [H _].
  by rewrite H.
Qed.

(** Without memory plugins the slot has no say. *)
Lemma bundles_active {L : TomlLeaf} r ws (plugins : list DiscoveredPlugin) :
  (forall p, p ∈ plugins -> man_kind (dp_manifest p) = Kind_Bundle) ->
  forall p, p ∈ plugins -> active r ws p = active_first r ws p.
Proof.
  intros Hb p Hp. unfold active, active_first, slotted. rewrite (Hb p Hp). rewrite andb_false_r.
  by rewrite orb_false_r.
Qed.

(** What the plugins that are enabled in the documented order contribute. *)
Definition contributed_in_order {L : TomlLeaf} {X} (r : PluginResolverConfig) (ws : PathBuf)
    (plugins : list DiscoveredPlugin) (part : DiscoveredPlugin -> PluginResolvedPermissions -> list X) : list X :=
  plugins ≫= fun p => part_of part (active_first r ws p) p.

Lemma contributed_bundles {L : TomlLeaf} {X} r ws plugins (part : DiscoveredPlugin -> PluginResolvedPermissions -> list X) :
  (forall p, p ∈ plugins -> man_kind (dp_manifest p) = Kind_Bundle) ->
  contributed r ws plugins part = contributed_in_order r ws plugins part.
Proof.
  intros Hb. pose proof (bundles_active r ws plugins Hb) as Ha. clear Hb. unfold contributed, contributed_in_order.
  induction plugins as [|p plugins IH]; [done|]. cbn. rewrite (Ha p (list_elem_of_here _ _)). f_equal.
  apply IH. intros q Hq. apply Ha. by right.
Qed.

(** C24.  A plan of bundles activates exactly the plugins the configuration enables: a bundle is
    active when plugins are on globally, it is not denied, the allow list is empty or names it,
    and its entry, or without one its manifest, enables it (the documented order), and its grant
    is valid.  The states of the plan say so for every plugin, with its permissions, and the
    hooks, servers, instructions, tools, runtimes and skill roots of the plan are those of the
    active plugins, each once.  Memory plugins, for which the slot has a say, are left out. *)
Theorem plan_activates_exactly {L : TomlLeaf} (discovery : PluginDiscovery) (r : PluginResolverConfig)
    (ws : PathBuf) :
  let plugins := (plugins_by_id (pd_plugins discovery)).*2 in
  let plan := build_activation_plan discovery r ws in
  (forall p, p ∈ plugins -> man_kind (dp_manifest p) = Kind_Bundle) ->
  map outcome_of (plan_plugin_states plan)
    ≡ₚ map (fun p => (plugin_id p, if admitted r p && wanted r p then granted_to r ws p else None)) plugins
  /\ plan_hooks plan ≡ₚ contributed_in_order r ws plugins (fun p g => map (decorate_hook_registration p g) (dp_hooks p))
  /\ plan_mcp_servers plan ≡ₚ contributed_in_order r ws plugins (fun p _ => dp_mcp_servers p)
  /\ plan_instructions plan ≡ₚ contributed_in_order r ws plugins (fun p _ => man_instructions (dp_manifest p))
  /\ plan_custom_tool_activations plan ≡ₚ contributed_in_order r ws plugins (fun p g =>
       if is_nil (dp_tool_roots p) then []
       else [mkPluginCustomToolActivation (plugin_id p) (dp_root_dir p) (dp_manifest_path p) (dp_tool_roots p) g])
  /\ plan_runtime_activations plan ≡ₚ contributed_in_order r ws plugins (fun p g =>
       option_list (runtime_activation p r g <$> man_runtime (dp_manifest p)))
  /\ (forall root, root ∈ plan_skill_roots plan <-> root ∈ contributed_in_order r ws plugins (fun p _ => dp_skill_roots p)).
Proof.
  intros plugins plan Hb. destruct (plan_lists discovery r ws) as (H1 & H2 & H3 & H4 & H5 & H6 & H7).
  fold plugins plan in H1, H2, H3, H4, H5, H6, H7. rewrite !(contributed_bundles r ws plugins) in * by done.
  split_and!; try done.
  rewrite H1. erewrite map_ext_in; [done|]. intros p Hp%list_elem_of_In. by rewrite (bundles_active r ws plugins Hb).
Qed.

Lemma active_confined {L : TomlLeaf} r ws p g :
  active r ws p = Some g ->
  admitted r p = true
  /\ confined ws (man_permissions (dp_manifest p))
       (default PluginPermissionGrant_default (ent_permissions <$> bt_get (plugin_id p) (res_entries r))) g.
Proof.
  unfold active, granted_to. destruct (admitted r p); [|done]. cbn [andb]. destruct (wanted r p || slotted r p); [|done].
  destruct (resolve_plugin_permissions _ _ _) as [g'|] eqn:E; [|done]. intros [= ->].
  split; [done|]. by apply resolve_plugin_permissions_ok in E.
Qed.

Lemma elem_contributed {L : TomlLeaf} {X} r ws plugins (part : DiscoveredPlugin -> PluginResolvedPermissions -> list X) x :
  x ∈ contributed r ws plugins part <-> exists p g, p ∈ plugins /\ active r ws p = Some g /\ x ∈ part p g.
Proof.
  unfold contributed. rewrite list_elem_of_bind. split.
  - intros (p & Hx & Hp). unfold part_of in Hx. destruct (active r ws p) as [g|] eqn:E; [|by apply not_elem_of_nil in Hx].
    by exists p, g.
  - intros (p & g & Hp & Hg & Hx). exists p. split; [|done]. by rewrite Hg.
Qed.

(** C23.  A plugin never gets more than its manifest asks for and the operator grants.  For
    every enabled state of a plan there is a discovered plugin that the configuration
    admits whose permissions are confined: every root is a requested and granted path
    below the workspace, the network and the host interfaces are within the request, and
    messages may be changed only if both sides allow it.  Every hook of the plan carries
    the execution policy of such a plugin. *)
Theorem plugin_permissions_confined {L : TomlLeaf} (discovery : PluginDiscovery) (r : PluginResolverConfig)
    (ws : PathBuf) :
  let plugins := (plugins_by_id (pd_plugins discovery)).*2 in
  let plan := build_activation_plan discovery r ws in
  let ok p g := p ∈ plugins /\ admitted r p = true
    /\ confined ws (man_permissions (dp_manifest p))
         (default PluginPermissionGrant_default (ent_permissions <$> bt_get (plugin_id p) (res_entries r))) g in
  (forall s, s ∈ plan_plugin_states plan -> pst_enabled s = true ->
     exists p, plugin_id p = pst_plugin_id s /\ ok p (pst_granted_permissions s))
  /\ (forall h, h ∈ plan_hooks plan ->
       exists p g, ok p g /\ hook_execution h
         = Some (build_hook_execution_policy (plugin_id p) (dp_root_dir p) (man_capabilities (dp_manifest p)) g))
  /\ (forall a, a ∈ plan_runtime_activations plan -> exists p, ok p (pxa_granted_permissions a))
  /\ (forall a, a ∈ plan_custom_tool_activations plan -> exists p, ok p (pta_granted_permissions a)).
Proof.
  intros plugins plan ok. split_and!.
  - intros s Hs Hen. apply (list_elem_of_fmap_2 outcome_of) in Hs.
    pose proof (plan_states_outcomes r ws discovery) as Hst. change (map outcome_of) with (fmap (M := list) outcome_of) in Hst.
    unfold plan in Hs. rewrite Hst in Hs. apply list_elem_of_fmap in Hs as (p & Hs & Hp).
    unfold outcome_of in Hs. rewrite Hen in Hs. injection Hs as Hid Hg. exists p.
    split; [done|]. split; [done|]. by apply active_confined.
  - intros h Hh. unfold plan in Hh. rewrite (plan_contributes r ws _ _ discovery (collected_hooks r)) in Hh by done.
    apply elem_contributed in Hh as (p & g & Hp & Hg & Hx). exists p, g.
    split; [split; [done|]; by apply active_confined|]. by apply list_elem_of_fmap in Hx as (h0 & -> & _).
  - intros a Ha. unfold plan in Ha. rewrite (plan_contributes r ws _ _ discovery (collected_runtimes r)) in Ha by done.
    apply elem_contributed in Ha as (p & g & Hp & Hg & Hx). exists p. split; [done|]. apply active_confined.
    destruct (man_runtime (dp_manifest p)); simpl in Hx; [|by apply not_elem_of_nil in Hx].
    by apply list_elem_of_singleton in Hx as ->.
  - intros a Ha. unfold plan in Ha. rewrite (plan_contributes r ws _ _ discovery (collected_tools r)) in Ha by done.
    apply elem_contributed in Ha as (p & g & Hp & Hg & Hx). exists p. split; [done|]. apply active_confined.
    destruct (is_nil (dp_tool_roots p)); [by apply not_elem_of_nil in Hx|]. by apply list_elem_of_singleton in Hx as ->.
Qed.

(** ** Hooks *)

(** What a plugin must have declared, asked for and been granted for an effect. *)
Definition declared {J : SerdeJson} {L : TomlLeaf} (p : DiscoveredPlugin) (g : PluginPermissionGrant) (e : HookEffect) : Prop :=
  let caps := man_capabilities (dp_manifest p) in
  match e with
  | Effect_AppendMessage _ _ | Effect_ReplaceMessage _ _ | Effect_PatchMessage _ _ | Effect_RemoveMessage _ =>
      cap_message_mutations caps <> []
      /\ preq_message_mutation (man_permissions (dp_manifest p)) = Mutation_Allow
      /\ pgr_message_mutation g = Mutation_Allow
  | Effect_RewriteToolArgs _ _ => PolicyCap_RewriteArgs ∈ cap_tool_policies caps
  | Effect_SetPermissionDecision _ _ | Effect_SetPermissionBehavior _ _ =>
      PolicyCap_Deny ∈ cap_tool_policies caps \/ PolicyCap_PermissionDecision ∈ cap_tool_policies caps
  | Effect_SetGateDecision _ _ | Effect_Stop _ =>
      PolicyCap_Deny ∈ cap_tool_policies caps \/ PolicyCap_Gate ∈ cap_tool_policies caps
  | _ => True
  end.

Lemma existsb_elem_of {A} (f : A -> bool) l : existsb f l = true -> exists x, x ∈ l /\ f x = true.
Proof. intros (x & Hx & Hf)%existsb_exists. exists x. split; [by apply list_elem_of_In | done]. Qed.

Lemma derived_policy_declared {J : SerdeJson} {L : TomlLeaf} ws p grant perms h e :
  confined ws (man_permissions (dp_manifest p)) grant perms ->
  hook_execution h
  = Some (build_hook_execution_policy (plugin_id p) (dp_root_dir p) (man_capabilities (dp_manifest p)) perms) ->
  validate_effect h e = Ok tt -> declared p grant e.
Proof.
  intros Hc Hx Hv. pose proof (validate_plugin h _ e Hx Hv) as H. unfold declared. simpl in H.
  assert (Hmut : (if negb (is_nil (cap_message_mutations (man_capabilities (dp_manifest p))))
                  then perm_message_mutation perms else Mutation_Deny) = Mutation_Allow ->
    cap_message_mutations (man_capabilities (dp_manifest p)) <> []
    /\ preq_message_mutation (man_permissions (dp_manifest p)) = Mutation_Allow
    /\ pgr_message_mutation grant = Mutation_Allow).
  { destruct (cap_message_mutations _); simpl; [done|]. intros E. destruct (cf_mutation _ _ _ _ Hc) as (_ & ? & ?); [by rewrite E|]. done. }
  destruct e; try done; try (apply Hmut; tauto); apply existsb_elem_of in H as ([] & Hin & Hf); try done; auto.
Qed.

(** From the manifest to the effects of a hook: when the runtime accepts an effect of a
    hook of the plan, some discovered and admitted plugin declared the capability for it;
    changing messages also needs the permission in its manifest and in the operator's
    grant. *)
Theorem plugin_hooks_within_capabilities {J : SerdeJson} {L : TomlLeaf} (discovery : PluginDiscovery) (r : PluginResolverConfig)
    (ws : PathBuf) (h : HookRegistration) (e : HookEffect) :
  h ∈ plan_hooks (build_activation_plan discovery r ws) -> validate_effect h e = Ok tt ->
  exists p, p ∈ (plugins_by_id (pd_plugins discovery)).*2 /\ admitted r p = true
    /\ declared p (default PluginPermissionGrant_default (ent_permissions <$> bt_get (plugin_id p) (res_entries r))) e.
Proof.
  intros Hh Hv. rewrite (plan_contributes r ws _ _ discovery (collected_hooks r)) in Hh by done.
  apply elem_contributed in Hh as (p & g & Hp & Hg & Hx). destruct (active_confined _ _ _ _ Hg) as [Ha Hc].
  exists p. split_and!; [done | done|]. apply list_elem_of_fmap in Hx as (h0 & -> & _).
  exact (derived_policy_declared ws p _ g (decorate_hook_registration p g h0) e Hc eq_refl Hv).
Qed.

(** ** Discovery *)

Section DiscoverySpec.
Context {L : TomlLeaf} {F : TomlFiles}.

Definition hook_below (root : PathBuf) (h : HookRegistration) : Prop :=
  match hook_handler h with
  | Handler_Command c => exists p, below root p /\ command_hook_command c = path_display p
  | Handler_Wasm w => exists p, below root p /\ wasm_hook_module w = path_display p
  | _ => True
  end.

Definition server_below (root : PathBuf) (s : McpServerConfig) : Prop :=
  match mcpc_transport s with
  | McpConfig_Stdio _ _ _ (Some cwd) => exists p, below root p /\ cwd = path_display p
  | _ => True
  end.

Record contained (p : DiscoveredPlugin) : Prop := {
  ct_skills : Forall (below (dp_root_dir p)) (dp_skill_roots p);
  ct_tools : Forall (below (dp_root_dir p)) (dp_tool_roots p);
  ct_hooks : Forall (hook_below (dp_root_dir p)) (dp_hooks p);
  ct_servers : Forall (server_below (dp_root_dir p)) (dp_mcp_servers p)
}.

Lemma map_result_Forall {A B E} (f : A -> result B E) (P : B -> Prop) l k :
  (forall x y, f x = Ok y -> P y) -> map_result f l = Ok k -> Forall P k.
Proof.
  intros Hf H%map_result_Ok. apply Forall_forall. intros y Hy. apply list_elem_of_lookup_1 in Hy as [i Hi].
  destruct (Forall2_lookup_r _ _ _ _ _ H Hi) as (x & _ & Hx). by eapply Hf.
Qed.

Lemma resolve_hook_below root h h' : resolve_hook_paths root h = Ok h' -> hook_below root h'.
Proof.
  unfold resolve_hook_paths, hook_below. destruct (hook_handler h) eqn:E; try (by intros [= <-]; rewrite E).
  - destruct (resolve_safe_relative_path root _) as [p|] eqn:Ep; [|done]. intros [= <-]. simpl. exists p.
    split; [by eapply resolve_safe_ok | done].
  - destruct (resolve_safe_relative_path root _) as [p|] eqn:Ep; [|done]. intros [= <-]. simpl. exists p.
    split; [by eapply resolve_safe_ok | done].
Qed.

Lemma rebase_server_below root s s' : rebase_mcp_server root s = Ok s' -> server_below root s'.
Proof.
  unfold rebase_mcp_server, server_below. destruct (mcpc_transport s) as [c a e [cwd|]|] eqn:E;
    try (by intros [= <-]; rewrite E).
  destruct (resolve_safe_relative_path root cwd) as [p|] eqn:Ep; [|done]. intros [= <-]. simpl. exists p.
  split; [by eapply resolve_safe_ok | done].
Qed.

Lemma load_files_Forall {A} (parse : string -> result (list A) string) resolve (P : A -> Prop) paths : forall items,
  (forall x y, resolve x = Ok y -> P y) -> load_files parse resolve paths = Ok items -> Forall P items.
Proof.
  induction paths as [|path paths IH]; intros items Hr; cbn [load_files]; [by intros [= <-]|].
  destruct (plugin_io _); [|done]. cbn [result_bind]. destruct (plugin_toml _); [|done]. cbn [result_bind].
  destruct (map_result resolve _) eqn:Em; [|done]. cbn [result_bind].
  destruct (load_files parse resolve paths) eqn:El; [|done]. intros [= <-].
  apply Forall_app. split; [by eapply map_result_Forall | by eapply IH].
Qed.

Lemma load_plugin_contained root path p : load_plugin root path = Ok p -> contained p.
Proof.
  unfold load_plugin. destruct (plugin_io _) as [raw|]; [|done]. cbn [result_bind].
  destruct (plugin_toml _) as [m|]; [|done]. cbn [result_bind]. destruct (str_is_empty _); [done|].
  destruct (map_result _ (comp_skill_roots _)) as [l1|] eqn:E1; [|done]. cbn [result_bind].
  destruct (map_result _ (comp_tool_roots _)) as [l2|] eqn:E2; [|done]. cbn [result_bind].
  destruct (map_result _ (comp_hook_files _)) as [l3|] eqn:E3; [|done]. cbn [result_bind].
  destruct (map_result _ (comp_mcp_files _)) as [l4|] eqn:E4; [|done]. cbn [result_bind].
  destruct (load_files parse_hook_file _ l3) as [hooks|] eqn:E5; [|done]. cbn [result_bind].
  destruct (load_files parse_mcp_file _ l4) as [servers|] eqn:E6; [|done]. intros [= <-].
  split; simpl; [eapply map_result_Forall; [|exact E1] | eapply map_result_Forall; [|exact E2]
    | eapply load_files_Forall; [|exact E5] | eapply load_files_Forall; [|exact E6]];
    [apply resolve_safe_ok | apply resolve_safe_ok | apply resolve_hook_below | apply rebase_server_below].
Qed.

Definition discovery_ok (d : PluginDiscovery) : Prop :=
  NoDup (map plugin_id (pd_plugins d)) /\ Forall contained (pd_plugins d).

Lemma discover_entry_ok d root : discovery_ok d -> discovery_ok (discover_entry d root).
Proof.
  intros [Hn Hc]. unfold discover_entry. destruct (pf_exists _); [|done]. cbn [negb].
  destruct (load_plugin root _) as [p|e] eqn:E; [|done]. case_bool_decide as Hin; [done|]. split; simpl.
  - rewrite map_app. apply NoDup_app. split; [done|]. split; [|apply NoDup_singleton].
    intros x Hx ->%list_elem_of_singleton. done.
  - apply Forall_app. split; [done|]. constructor; [by eapply load_plugin_contained | constructor].
Qed.

Lemma discover_roots_ok roots : forall d d', discovery_ok d -> discover_roots roots d = Ok d' -> discovery_ok d'.
Proof.
  induction roots as [|root roots IH]; intros d d' Hd; cbn [discover_roots]; [by intros [= <-]|].
  destruct (pf_exists root); cbn [negb]; [|by apply IH]. destruct (pf_is_dir root); cbn [negb]; [|by apply IH].
  destruct (plugin_io _) as [paths|]; [|done]. cbn [result_bind]. apply IH.
  generalize (merge_sort path_le (List.filter pf_is_dir paths)). intros l. revert d Hd.
  induction l as [|x l IHl]; intros d Hd; [done|]. apply IHl. by apply discover_entry_ok.
Qed.

End DiscoverySpec.

(** Discovery keeps a plugin inside its directory: the discovered plugins have
    different ids, and the skill and tool roots, the commands and modules of hooks and
    the working directories of servers of each are below its root without going up. *)
Theorem discovered_plugins_contained {L : TomlLeaf} {F : TomlFiles} (roots : list PathBuf) (d : PluginDiscovery) :
  discover_plugins roots = Ok d -> NoDup (map plugin_id (pd_plugins d)) /\ Forall contained (pd_plugins d).
Proof. intros H. eapply discover_roots_ok; [|exact H]. split; constructor. Qed.

(** ** The configuration of a plugin *)

Section Merge.
Context {L : TomlLeaf}.

Lemma merge_entry_get merge base key value k :
  bt_get k (merge_entry merge base key value)
  = if String.eqb k key then
      match bt_get key base, value with
      | Some (Toml_Table existing), Toml_Table _ => Some (Toml_Table (merge existing value))
      | _, _ => Some value
      end
    else bt_get k base.
Proof.
  unfold merge_entry. destruct (bt_get key base) as [[b|l]|], value; rewrite bt_get_insert; by destruct (String.eqb k key).
Qed.

Lemma merge_get k : forall entries base, bt_ok entries ->
  bt_get k (merge_toml_table base (Toml_Table entries))
  = match bt_get k entries with
    | None => bt_get k base
    | Some v =>
        match bt_get k base, v with
        | Some (Toml_Table b), Toml_Table _ => Some (Toml_Table (merge_toml_table b v))
        | _, _ => Some v
        end
    end.
Proof.
  induction entries as [|[key value] entries IH]; intros base Hok; [done|].
  apply NoDup_cons in Hok as [Hnin Hok].
  change (merge_toml_table base (Toml_Table ((key, value) :: entries)))
    with (merge_toml_table (merge_entry merge_toml_table base key value) (Toml_Table entries)).
  rewrite IH by done. cbn [bt_get]. rewrite !merge_entry_get. destruct (String.eqb_spec k key) as [->|Hne]; [|done].
  destruct (bt_get key entries) eqn:E; [|done]. exfalso. apply Hnin. apply bt_get_In in E.
  apply list_elem_of_fmap. by exists (key, t).
Qed.

(** The value at a path of keys; keys are not repeated along it; nothing is set along it. *)
Fixpoint toml_at (path : list string) (v : TomlValue) : option TomlValue :=
  match path, v with
  | [], _ => Some v
  | k :: path, Toml_Table es => bt_get k es ≫= toml_at path
  | _ :: _, Toml_Leaf _ => None
  end.
Fixpoint toml_ok (path : list string) (v : TomlValue) : Prop :=
  match path, v with
  | k :: path, Toml_Table es => bt_ok es /\ forall w, bt_get k es = Some w -> toml_ok path w
  | _, _ => True
  end.
Fixpoint toml_misses (path : list string) (v : TomlValue) : bool :=
  match path, v with
  | k :: path, Toml_Table es => match bt_get k es with None => true | Some w => toml_misses path w end
  | _, _ => false
  end.

Lemma merge_overrides path : forall base es l,
  toml_ok path (Toml_Table es) -> toml_at path (Toml_Table es) = Some (Toml_Leaf l) ->
  toml_at path (Toml_Table (merge_toml_table base (Toml_Table es))) = Some (Toml_Leaf l).
Proof.
  induction path as [|k path IH]; intros base es l Hok Hat; [done|]. cbn [toml_at toml_ok] in *.
  destruct Hok as [Hok Hsub]. rewrite merge_get by done. destruct (bt_get k es) as [v|] eqn:E; [|done].
  cbn [mbind option_bind] in *. destruct v as [es'|l']; destruct (bt_get k base) as [[b|]|];
    cbn [mbind option_bind]; try done. apply IH; [by apply Hsub | done].
Qed.

Lemma merge_keeps path : forall base es l,
  toml_ok path (Toml_Table es) -> toml_misses path (Toml_Table es) = true ->
  toml_at path (Toml_Table base) = Some (Toml_Leaf l) ->
  toml_at path (Toml_Table (merge_toml_table base (Toml_Table es))) = Some (Toml_Leaf l).
Proof.
  induction path as [|k path IH]; intros base es l Hok Hm Hat; [done|]. cbn [toml_at toml_ok toml_misses] in *.
  destruct Hok as [Hok Hsub]. rewrite merge_get by done. destruct (bt_get k es) as [v|] eqn:E; [|done].
  destruct (bt_get k base) as [w|]; [|done]. cbn [mbind option_bind] in Hat. destruct path as [|k' path]; [by destruct v|].
  destruct v as [es'|l']; [|done]. destruct w as [b|l'']; [|done]. cbn [mbind option_bind].
  apply IH; [by apply Hsub | done | done].
Qed.

End Merge.

(** The configuration a plugin's runtime gets is its defaults with the operator's entry
    merged into them table by table: a value the operator sets at a path of keys is the
    one the runtime sees there, and a default is kept where the operator set nothing
    along its path. *)
Theorem plugin_config_merges {L : TomlLeaf} (p : DiscoveredPlugin) (r : PluginResolverConfig)
    (g : PluginResolvedPermissions) (spec : PluginRuntimeSpec) (path : list string) (l : toml_leaf) :
  let entry := default [] (ent_config <$> bt_get (plugin_id p) (res_entries r)) in
  let config := pxa_config (runtime_activation p r g spec) in
  toml_ok path (Toml_Table entry) ->
  (toml_at path (Toml_Table entry) = Some (Toml_Leaf l) -> toml_at path (Toml_Table config) = Some (Toml_Leaf l))
  /\ (toml_misses path (Toml_Table entry) = true ->
      toml_at path (Toml_Table (man_defaults (dp_manifest p))) = Some (Toml_Leaf l) ->
      toml_at path (Toml_Table config) = Some (Toml_Leaf l)).
Proof. intros entry config Hok. split; [by apply merge_overrides | by apply merge_keeps]. Qed.

(** ** Concrete plugins *)

Module PluginDemo.

#[export] Instance text_leaf : TomlLeaf := {| toml_leaf := string |}.

Definition demo_request : PluginPermissionRequest :=
  mkPluginPermissionRequest ["docs"] [] ["plugins/p"] PluginNet_Deny Mutation_Allow [HostApi_Log] [].
Definition demo_manifest (kind : PluginKind) (module : option string) : PluginManifest :=
  mkPluginManifest "p" None None None kind false (mkPluginComponents ["skills"] [] [] [])
    (Some (mkPluginRuntimeSpec "builtin.wasm-hook-validator" module None))
    (mkPluginCapabilitySet [HandlerKind_Wasm] [MutationCap_Append] [] [] false false) demo_request ["be kind"]
    [("search", Toml_Table [("limit", Toml_Leaf "6"); ("mode", Toml_Leaf "lexical")])].
Definition demo_hook : HookRegistration :=
  mkHookRegistration "note" HookEvent_Stop None (Handler_Wasm (mkWasmHookHandler "/plugins/p/a.wasm" "run")) None None.
Definition demo_plugin (kind : PluginKind) (module : option string) : DiscoveredPlugin :=
  mkDiscoveredPlugin (demo_manifest kind module) ["/"; "ws"; "plugins"; "p"] ["/"; "ws"; "plugins"; "p"; "plugin.toml"]
    [["/"; "ws"; "plugins"; "p"; "skills"]] [] [demo_hook] [].
Definition demo_discovery (kind : PluginKind) (module : option string) : PluginDiscovery :=
  mkPluginDiscovery [demo_plugin kind module] [].
Definition demo_resolver (enabled : option bool) (slot : option PluginId) : PluginResolverConfig :=
  mkPluginResolverConfig true [] []
    [("p", mkPluginEntryConfig enabled (mkPluginPermissionGrant ["docs"] [] ["plugins/p"] PluginNet_Deny Mutation_Allow [])
             [("search", Toml_Table [("limit", Toml_Leaf "9")])])] slot.

#[export] Instance demo_files : TomlFiles := {|
  pf_exists := fun _ => true;
  pf_is_dir := fun _ => true;
  pf_read_dir := fun root => Ok [root ++ ["b"]; root ++ ["a"]];
  pf_read := fun p => Ok (path_display p);
  parse_manifest := fun s => Ok (demo_manifest Kind_Bundle None);
  parse_hook_file := fun _ => Ok [];
  parse_mcp_file := fun _ => Ok []
|}.

End PluginDemo.

Import PluginDemo.

Lemma plugin_hooks_within_capabilities_witness :
  exists p, p ∈ (plugins_by_id (pd_plugins (demo_discovery Kind_Bundle None))).*2
    /\ cap_message_mutations (man_capabilities (dp_manifest p)) <> [].
Proof.
  pose (J := json_text). pose (e := Effect_AppendMessage Role_System [Part_Text "note"]).
  destruct (plugin_hooks_within_capabilities (demo_discovery Kind_Bundle None) (demo_resolver (Some true) None) ["/"; "ws"]
    (decorate_hook_registration (demo_plugin Kind_Bundle None)
       (mkPluginResolvedPermissions [["/"; "ws"; "docs"]] [] [["/"; "ws"; "plugins"; "p"]] HookNetwork_Deny Mutation_Allow [])
       demo_hook) e) as (p & Hp & _ & Hd & _).
  - by left.
  - by vm_compute.
  - by exists p.
Defined.

Lemma discovered_plugins_contained_witness :
  exists d, discover_plugins [["/"; "plugins"]] = Ok d /\ length (pd_plugins d) = 1%nat /\ Forall contained (pd_plugins d).
Proof.
  eexists. split; [reflexivity|]. split; [by vm_compute|].
  by apply (discovered_plugins_contained [["/"; "plugins"]]).
Defined.

Lemma plugin_config_merges_witness :
  toml_at ["search"; "limit"] (Toml_Table (pxa_config (runtime_activation (demo_plugin Kind_Bundle None)
    (demo_resolver None None) PluginResolvedPermissions_default (mkPluginRuntimeSpec "d" None None))))
  = Some (Toml_Leaf "9").
Proof.
  destruct (plugin_config_merges (demo_plugin Kind_Bundle None) (demo_resolver None None)
    PluginResolvedPermissions_default (mkPluginRuntimeSpec "d" None None) ["search"; "limit"] "9") as [H _]; [|by apply H].
  simpl. split; [apply NoDup_singleton|]. intros w [= <-]. split; [apply NoDup_singleton|]. intros w [= <-]. done.
Defined.

(** ** Behaviours worth knowing *)

(** The module of a runtime is joined to the plugin root as it is: with [..] it leaves the
    root, and the check of the drivers, which compares components, lets it pass. *)
Theorem runtime_module_escapes :
  let plan := build_activation_plan (demo_discovery Kind_Bundle (Some "../../../etc/evil.wasm"))
                (demo_resolver (Some true) None) ["/"; "ws"] in
  map (fun a => prt_module (pxa_runtime a)) (plan_runtime_activations plan)
    = [Some "/ws/plugins/p/../../../etc/evil.wasm"]
  /\ map validated_wasm_module_path (plan_runtime_activations plan)
    = [Ok ["/"; "ws"; "plugins"; "p"; ".."; ".."; ".."; "etc"; "evil.wasm"]]
  /\ normalize_path ["/"; "ws"; "plugins"; "p"; ".."; ".."; ".."; "etc"; "evil.wasm"] = ["/"; "etc"; "evil.wasm"].
Proof. by vm_compute. Qed.

(** The memory slot enables a plugin that its entry disables. *)
Theorem slot_overrides_disabled_entry :
  map (fun s => (pst_enabled s, pst_reason s)) (plan_plugin_states
    (build_activation_plan (demo_discovery Kind_Memory None) (demo_resolver (Some false) (Some "p")) ["/"; "ws"]))
  = [(true, "enabled by plugins.slots.memory")].
Proof. by vm_compute. Qed.

(** Two memory plugins that are enabled by their entries are both active, one of them
    chosen for the slot. *)
Definition other_memory : DiscoveredPlugin :=
  mkDiscoveredPlugin (mkPluginManifest "q" None None None Kind_Memory true (mkPluginComponents [] [] [] []) None
      (mkPluginCapabilitySet [] [] [] [] false false)
      (mkPluginPermissionRequest [] [] [] PluginNet_Deny Mutation_Deny [] []) [] [])
    ["/"; "ws"; "plugins"; "q"] ["/"; "ws"; "plugins"; "q"; "plugin.toml"] [] [] [] [].

Theorem two_memory_plugins_active :
  map (fun s => (pst_plugin_id s, pst_enabled s)) (plan_plugin_states
    (build_activation_plan (mkPluginDiscovery [demo_plugin Kind_Memory None; other_memory] [])
       (demo_resolver (Some true) (Some "p")) ["/"; "ws"]))
  = [("p", true); ("q", true)].
Proof. by vm_compute. Qed.

Lemma plan_activates_exactly_witness :
  let plan := build_activation_plan (demo_discovery Kind_Bundle None) (demo_resolver (Some true) None) ["/"; "ws"] in
  length (plan_hooks plan) = 1%nat
  /\ map outcome_of (plan_plugin_states plan)
     ≡ₚ [("p", granted_to (demo_resolver (Some true) None) ["/"; "ws"] (demo_plugin Kind_Bundle None))].
Proof.
  destruct (plan_activates_exactly (demo_discovery Kind_Bundle None) (demo_resolver (Some true) None) ["/"; "ws"])
    as (Hst & _); [|split; [by vm_compute | exact Hst]].
  intros p Hp. apply list_elem_of_In in Hp. by destruct Hp as [<-|[]].
Defined.
