(* ===== verification/Float64.v ===== *)
(** * Binary floating point

    [f64] as the Standard Library's [SpecFloat] at 53 bits: arithmetic that rounds as the
    machine does, the total order, conversions to and from integers and text. *)

From Stdlib Require Import Ascii String ZArith SpecFloat.
From stdpp Require Import base list gmap sets sorting strings pretty.
From Stdlib Require Import Lia.
From S2P Require Import Prelude Text BTree StoreSearch.

Notation f64 := spec_float (only parsing).
Definition f64_add : f64 -> f64 -> f64 := SFadd 53 1024.
Definition f64_sub : f64 -> f64 -> f64 := SFsub 53 1024.
Definition f64_mul : f64 -> f64 -> f64 := SFmul 53 1024.
Definition f64_div : f64 -> f64 -> f64 := SFdiv 53 1024.
Definition f64_of_Z (z : Z) : f64 := binary_normalize 53 1024 z 0 false.
Definition f64_zero : f64 := S754_zero false.
Definition f64_is_finite (x : f64) : bool :=
  match x with S754_zero _ | S754_finite _ _ _ => true | _ => false end.

(** The sign and size of a number, as the keys of its place in the order of
    [f64::total_cmp]; the only NaN is the positive quiet one. *)
Definition f64_class (x : f64) : Z :=
  match x with
  | S754_infinity true => 0 | S754_finite true _ _ => 1 | S754_zero true => 2
  | S754_zero false => 3 | S754_finite false _ _ => 4 | S754_infinity false => 5
  | S754_nan => 6
  end.
Definition f64_exponent (x : f64) : Z :=
  match x with S754_finite true _ e => - e | S754_finite false _ e => e | _ => 0 end.
Definition f64_mantissa (x : f64) : Z :=
  match x with S754_finite true m _ => Z.neg m | S754_finite false m _ => Z.pos m | _ => 0 end.

(** [f64::total_cmp]. *)
Definition f64_total_cmp (x y : f64) : comparison :=
  then_with (Z.compare (f64_class x) (f64_class y))
  (then_with (Z.compare (f64_exponent x) (f64_exponent y)) (Z.compare (f64_mantissa x) (f64_mantissa y))).
Definition f64_le (x y : f64) : Prop := f64_total_cmp x y <> Gt.
#[global] Instance f64_le_dec x y : Decision (f64_le x y).
Proof. unfold f64_le. apply _. Defined.

(** The number nearest to the quotient of two positive integers. *)
Definition f64_of_ratio (negative : bool) (num den : positive) : f64 :=
  let '(q, e, l) := SFdiv_core_binary 53 1024 (Z.pos num) 0 (Z.pos den) 0 in
  binary_round_aux 53 1024 negative q e l.

(** *** Text *)

Definition digit_of (a : ascii) : option Z :=
  let n := Z.of_nat (nat_of_ascii a) in if (48 <=? n)%Z && (n <=? 57)%Z then Some (n - 48)%Z else None.

(** Digits from the front: their value, their number and the rest. *)
Fixpoint read_digits (s : string) (value : Z) (count : nat) : Z * nat * string :=
  match s with
  | String a rest =>
      match digit_of a with
      | Some d => read_digits rest (10 * value + d)%Z (S count)
      | None => (value, count, s)
      end
  | "" => (value, count, "")
  end.

Definition read_sign (s : string) : bool * string :=
  match s with
  | String a rest => if Ascii.eqb a "-" then (true, rest) else if Ascii.eqb a "+" then (false, rest) else (false, s)
  | "" => (false, "")
  end.

(** The number [m * 10 ^ e], rounded. *)
Definition f64_of_decimal (negative : bool) (m : Z) (e : Z) : f64 :=
  match m with
  | Zpos p =>
      if (0 <=? e)%Z then binary_round 53 1024 negative (Pos.mul p (Z.to_pos (10 ^ e))) 0
      else f64_of_ratio negative p (Z.to_pos (10 ^ (- e)))
  | _ => S754_zero negative
  end.

(** [str::parse::<f64>]. *)
Definition parse_f64 (text : string) : option f64 :=
  let '(negative, s) := read_sign text in
  let lower := to_ascii_lowercase s in
  if String.eqb lower "inf" || String.eqb lower "infinity" then Some (S754_infinity negative)
  else if String.eqb lower "nan" then Some S754_nan
  else
    let '(whole, n_whole, s) := read_digits s 0 0 in
    let '(m, n_frac, s) := match strip_prefix "." s with
                           | Some rest => read_digits rest whole 0
                           | None => (whole, 0%nat, s)
                           end in
    if (n_whole + n_frac =? 0)%nat then None
    else if str_is_empty s then Some (f64_of_decimal negative m (- Z.of_nat n_frac))
    else
      match s with
      | String a rest =>
          if Ascii.eqb a "e" || Ascii.eqb a "E" then
            let '(negative_e, rest) := read_sign rest in
            let '(e, n_e, rest) := read_digits rest 0 0 in
            if (n_e =? 0)%nat || negb (str_is_empty rest) then None
            else Some (f64_of_decimal negative m ((if negative_e then - e else e) - Z.of_nat n_frac))
          else None
      | "" => None
      end.

(** The integer nearest to [num / den], a tie to the even one. *)
Definition div_half_even (num den : Z) : Z :=
  let q := (num / den)%Z in
  let r := (2 * (num mod den))%Z in
  if (r <? den)%Z then q else if (den <? r)%Z then (q + 1)%Z else if Z.even q then q else (q + 1)%Z.

Definition fmt_hundredths (negative : bool) (n : Z) : string :=
  (if negative then "-" else "") +:+ pretty (Z.to_N (n / 100)) +:+ "."
  +:+ (let r := (n mod 100)%Z in (if (r <? 10)%Z then "0" else "") +:+ pretty (Z.to_N r)).

(** [format!("{:.2}", x)]. *)
Definition fmt_f64_2 (x : f64) : string :=
  match x with
  | S754_nan => "NaN"
  | S754_infinity s => if s then "-inf" else "inf"
  | S754_zero s => fmt_hundredths s 0
  | S754_finite s m e =>
      fmt_hundredths s (if (0 <=? e)%Z then Z.pos m * 2 ^ e * 100 else div_half_even (Z.pos m * 100) (2 ^ (- e)))
  end.

(** ** Conversions to integers *)

(** [m * 2 ^ e], towards zero and to the nearest (a half away from zero). *)
Definition scale_trunc (m : positive) (e : Z) : Z :=
  if (0 <=? e)%Z then (Z.pos m * 2 ^ e)%Z else (Z.pos m / 2 ^ (- e))%Z.
Definition scale_round (m : positive) (e : Z) : Z :=
  if (0 <=? e)%Z then (Z.pos m * 2 ^ e)%Z else ((2 * Z.pos m + 2 ^ (- e)) / (2 * 2 ^ (- e)))%Z.

(** [x as usize] and [x.round() as usize]. *)
Definition f64_saturate (scale : positive -> Z -> Z) (x : f64) : N :=
  match x with
  | S754_infinity false => u64_max
  | S754_finite false m e => N.min u64_max (Z.to_N (scale m e))
  | _ => 0%N
  end.
Definition f64_to_usize : f64 -> N := f64_saturate scale_trunc.
Definition f64_round_usize : f64 -> N := f64_saturate scale_round.

(** [n as f64]. *)
Definition f64_of_N (n : N) : f64 := f64_of_Z (Z.of_N n).

(** [format!("{:.1}", x)] of a number that is finite and not negative. *)
Definition fmt_tenths (n : Z) : string := pretty (Z.to_N (n / 10)) +:+ "." +:+ pretty (Z.to_N (n mod 10)).
Definition fmt_f64_1 (x : f64) : string :=
  match x with
  | S754_finite _ m e =>
      fmt_tenths (if (0 <=? e)%Z then Z.pos m * 2 ^ e * 10 else div_half_even (Z.pos m * 10) (2 ^ (- e)))
  | _ => fmt_tenths 0
  end.

(** Sanity checks of the text conversions. *)
Example parse_tenth : parse_f64 "0.1" = Some (S754_finite false 7205759403792794 (-56)).
Proof. by vm_compute. Qed.
Example format_tenth : map fmt_f64_2 (omap parse_f64 ["12.345"; "-0.001"; "1e3"; "2.675"; ".5"; "1e400"])
  = ["12.35"; "-0.00"; "1000.00"; "2.67"; "0.50"; "inf"].
Proof. by vm_compute. Qed.
Example usize_conversions : map f64_to_usize (omap parse_f64 ["0.99"; "-3"; "1e30"; "51200.7"]) = [0; 0; u64_max; 51200]%N
  /\ map f64_round_usize (omap parse_f64 ["0.5"; "1.49"; "50.0"]) = [1; 1; 50]%N.
Proof. by vm_compute. Qed.
Example format_one_digit : map fmt_f64_1 (omap parse_f64 ["1.25"; "1.35"; "12"]) = ["1.2"; "1.4"; "12.0"].
Proof. by vm_compute. Qed.
