(* ===== verification/SchedMetrics.v ===== *)
(** * sched-claw: metrics and workloads

    Models [apps/sched-claw/crates/domain/src/metrics.rs] and [workload.rs].  An [f64] is
    a binary floating-point number of the Standard Library's [SpecFloat] with 53 bits of
    precision, so every operation rounds as the machine does. *)

From Stdlib Require Import Ascii String ZArith SpecFloat.
From stdpp Require Import base list gmap sets sorting strings pretty.
From Stdlib Require Import Lia.
From S2P Require Import Prelude Text BTree StoreSearch Float64.

(** ** Goals and policies *)

(* apps/sched-claw/crates/domain/src/metrics.rs, MetricGoal *)
Inductive MetricGoal := Goal_Minimize | Goal_Maximize.

(* apps/sched-claw/crates/domain/src/metrics.rs, MetricGoal::as_str *)
Definition goal_as_str (g : MetricGoal) : string :=
  match g with Goal_Minimize => "minimize" | Goal_Maximize => "maximize" end.

(* apps/sched-claw/crates/domain/src/metrics.rs, MetricGoal::improvement_pct *)
Definition improvement_pct (goal : MetricGoal) (baseline candidate : f64) : option f64 :=
  if negb (f64_is_finite baseline) || negb (f64_is_finite candidate) then None
  else if SFeqb baseline f64_zero then if SFeqb candidate f64_zero then Some f64_zero else None
  else
    let ratio := match goal with
                 | Goal_Minimize => f64_div (f64_sub baseline candidate) baseline
                 | Goal_Maximize => f64_div (f64_sub candidate baseline) baseline
                 end in
    Some (f64_mul ratio (f64_of_Z 100)).

Definition one_of (s : string) (l : list string) : bool := existsb (String.eqb s) l.

(* apps/sched-claw/crates/domain/src/metrics.rs, MetricGoal::from_str *)
Definition goal_from_str (value : string) : result MetricGoal string :=
  let v := to_ascii_lowercase (trim value) in
  if one_of v ["min"; "minimize"; "lower"; "lower_is_better"] then Ok Goal_Minimize
  else if one_of v ["max"; "maximize"; "higher"; "higher_is_better"] then Ok Goal_Maximize
  else Err ("unsupported metric goal " +:+ bt +:+ v +:+ bt).

(* apps/sched-claw/crates/domain/src/metrics.rs, MetricTarget *)
Record MetricTarget := mkMetricTarget {
  mt_name : string;
  mt_goal : MetricGoal;
  mt_unit : option string;
  mt_notes : option string
}.

(* apps/sched-claw/crates/domain/src/metrics.rs, Guardrail *)
Record Guardrail := mkGuardrail {
  gr_name : string;
  gr_goal : MetricGoal;
  gr_max_regression_pct : f64;
  gr_notes : option string
}.

(* apps/sched-claw/crates/domain/src/metrics.rs, PerformancePreference *)
Inductive PerformancePreference :=
| Pref_LatencyThroughput | Pref_ThroughputLatency | Pref_LatencyOnly | Pref_ThroughputOnly | Pref_Custom.

(* apps/sched-claw/crates/domain/src/metrics.rs, PerformancePreference::as_str *)
Definition preference_as_str (p : PerformancePreference) : string :=
  match p with
  | Pref_LatencyThroughput => "latency_throughput"
  | Pref_ThroughputLatency => "throughput_latency"
  | Pref_LatencyOnly => "latency_only"
  | Pref_ThroughputOnly => "throughput_only"
  | Pref_Custom => "custom"
  end.

(* apps/sched-claw/crates/domain/src/metrics.rs, PerformancePreference::from_str *)
Definition preference_from_str (value : string) : result PerformancePreference string :=
  let v := to_ascii_lowercase (trim value) in
  if one_of v ["latency-throughput"; "latency_throughput"; "latency_first"] then Ok Pref_LatencyThroughput
  else if one_of v ["throughput-latency"; "throughput_latency"; "throughput_first"] then Ok Pref_ThroughputLatency
  else if one_of v ["latency"; "latency_only"] then Ok Pref_LatencyOnly
  else if one_of v ["throughput"; "throughput_only"] then Ok Pref_ThroughputOnly
  else if one_of v ["custom"] then Ok Pref_Custom
  else Err ("unsupported performance preference " +:+ bt +:+ v +:+ bt).

(* apps/sched-claw/crates/domain/src/metrics.rs, MeasurementBasis *)
Inductive MeasurementBasis := Basis_Direct | Basis_ProxyEstimate.

(* apps/sched-claw/crates/domain/src/metrics.rs, MeasurementBasis::as_str *)
Definition basis_as_str (b : MeasurementBasis) : string :=
  match b with Basis_Direct => "direct" | Basis_ProxyEstimate => "proxy_estimate" end.

(* apps/sched-claw/crates/domain/src/metrics.rs, MeasurementBasis::from_str *)
Definition basis_from_str (value : string) : result MeasurementBasis string :=
  let v := to_ascii_lowercase (trim value) in
  if one_of v ["direct"] then Ok Basis_Direct
  else if one_of v ["proxy"; "proxy_estimate"; "proxy-estimate"] then Ok Basis_ProxyEstimate
  else Err ("unsupported measurement basis " +:+ bt +:+ v +:+ bt).

(* apps/sched-claw/crates/domain/src/metrics.rs, PerformancePolicy *)
Record PerformancePolicy := mkPerformancePolicy {
  pp_preference : PerformancePreference;
  pp_basis : MeasurementBasis;
  pp_proxy_metrics : list MetricTarget;
  pp_notes : option string
}.

(* apps/sched-claw/crates/domain/src/metrics.rs, metric_target_summary *)
Definition metric_target_summary (m : MetricTarget) : string :=
  mt_name m +:+ ":" +:+ goal_as_str (mt_goal m)
  +:+ match mt_unit m with Some unit => ":" +:+ unit | None => "" end.

(* apps/sched-claw/crates/domain/src/metrics.rs, PerformancePolicy::summary *)
Definition performance_summary (p : PerformancePolicy) : string :=
  preference_as_str (pp_preference p) +:+ " / " +:+ basis_as_str (pp_basis p)
  +:+ match pp_proxy_metrics p with
      | [] => ""
      | ms => " / proxies=" +:+ str_join ", " (map metric_target_summary ms)
      end.

(* apps/sched-claw/crates/domain/src/metrics.rs, PerformancePolicy::validate *)
Definition performance_validate (p : PerformancePolicy) : result unit string :=
  match pp_basis p, pp_proxy_metrics p with
  | Basis_ProxyEstimate, [] => Err "proxy_estimate basis requires at least one proxy metric"
  | _, _ => Ok tt
  end.

(** [BTreeMap<String, f64>]. *)
Notation MetricMap := (btree f64).

(** ** Parsing *)

(** [str::parse::<f64>] with its error. *)
Definition parse_f64_or (context text : string) : result f64 string :=
  match parse_f64 text with
  | Some x => Ok x
  | None =>
      Err (context +:+ ": " +:+ (if str_is_empty text then "cannot parse float from empty string"
                                 else "invalid float literal"))
  end.

(* apps/sched-claw/crates/domain/src/metrics.rs, parse_metric_assignment *)
Definition parse_metric_assignment (value : string) : result (string * f64) string :=
  match split_once "=" value with
  | None => Err ("expected NAME=VALUE, got " +:+ bt +:+ value +:+ bt)
  | Some (name, raw_value) =>
      let name := trim name in
      if str_is_empty name then Err "metric name cannot be empty"
      else
        parsed <-? parse_f64_or ("invalid metric value " +:+ bt +:+ raw_value +:+ bt) (trim raw_value);
        if negb (f64_is_finite parsed) then Err "metric value must be finite" else Ok (name, parsed)
  end.

Definition named (part : option string) (message : string) : result string string :=
  match part with
  | Some s => if str_is_empty (trim s) then Err message else Ok (trim s)
  | None => Err message
  end.

(* apps/sched-claw/crates/domain/src/metrics.rs, parse_guardrail *)
Definition parse_guardrail (value : string) : result Guardrail string :=
  let parts := split_on ":" value in
  name <-? named (parts !! 0%nat) "guardrail must include a metric name";
  goal <-? ok_or (parts !! 1%nat) "guardrail must include a goal";
  goal <-? goal_from_str goal;
  pct <-? ok_or (parts !! 2%nat) "guardrail must include max regression percent";
  max_regression_pct <-? parse_f64_or ("invalid guardrail regression percent in " +:+ bt +:+ value +:+ bt) (trim pct);
  if negb (f64_is_finite max_regression_pct) || SFltb max_regression_pct f64_zero then
    Err "guardrail max regression percent must be a finite non-negative number"
  else if bool_decide (is_Some (parts !! 3%nat)) then
    Err ("guardrail must use NAME:GOAL:MAX_REGRESSION_PCT, got extra fields in " +:+ bt +:+ value +:+ bt)
  else Ok (mkGuardrail name goal max_regression_pct None).

(* apps/sched-claw/crates/domain/src/metrics.rs, parse_metric_target *)
Definition parse_metric_target (value : string) : result MetricTarget string :=
  let parts := split_on ":" value in
  name <-? named (parts !! 0%nat) "metric target must include a metric name";
  goal <-? ok_or (parts !! 1%nat) "metric target must include a goal";
  goal <-? goal_from_str goal;
  let unit := parts !! 2%nat ≫= fun s => if str_is_empty (trim s) then None else Some (trim s) in
  if bool_decide (is_Some (parts !! 3%nat)) then
    Err ("metric target must use NAME:GOAL[:UNIT], got extra fields in " +:+ bt +:+ value +:+ bt)
  else Ok (mkMetricTarget name goal unit None).

(* apps/sched-claw/crates/domain/src/metrics.rs, matches_metric *)
Definition matches_metric (metric_name : string) (needles : list string) : bool :=
  existsb (str_contains metric_name) needles.

(* apps/sched-claw/crates/domain/src/metrics.rs, is_latency_metric *)
Definition is_latency_metric (metric_name : string) : bool :=
  matches_metric metric_name ["latency"; "tail"; "p99"; "p95"; "jitter"; "response"].

(* apps/sched-claw/crates/domain/src/metrics.rs, is_throughput_metric *)
Definition is_throughput_metric (metric_name : string) : bool :=
  matches_metric metric_name ["throughput"; "qps"; "tps"; "ops"; "bandwidth"; "rps"].

(* apps/sched-claw/crates/domain/src/metrics.rs, is_direct_performance_metric *)
Definition is_direct_performance_metric (metric_name : string) : bool :=
  is_latency_metric metric_name || is_throughput_metric metric_name.

(* apps/sched-claw/crates/domain/src/metrics.rs, infer_preference *)
Definition infer_preference (primary_name : string) (guardrail_names : list string) : PerformancePreference :=
  let primary_is_latency := is_latency_metric primary_name in
  let primary_is_throughput := is_throughput_metric primary_name in
  if primary_is_latency && existsb is_throughput_metric guardrail_names then Pref_LatencyThroughput
  else if primary_is_throughput && existsb is_latency_metric guardrail_names then Pref_ThroughputLatency
  else if primary_is_latency then Pref_LatencyOnly
  else if primary_is_throughput then Pref_ThroughputOnly
  else Pref_Custom.

(* apps/sched-claw/crates/domain/src/metrics.rs, infer_performance_policy *)
Definition infer_performance_policy (primary_metric : MetricTarget) (guardrails : list Guardrail)
    (proxy_metrics : list MetricTarget) : PerformancePolicy :=
  let primary_name := to_ascii_lowercase (mt_name primary_metric) in
  let guardrail_names := map (fun g => to_ascii_lowercase (gr_name g)) guardrails in
  let basis := match proxy_metrics with
               | [] => Basis_Direct
               | _ => if is_direct_performance_metric primary_name
                         || existsb is_direct_performance_metric guardrail_names
                      then Basis_Direct else Basis_ProxyEstimate
               end in
  mkPerformancePolicy (infer_preference primary_name guardrail_names) basis proxy_metrics None.

(** ** Statistics *)

(* apps/sched-claw/crates/domain/src/metrics.rs, metric_values *)
Definition metric_values (metric_name : string) (metrics : list MetricMap) : list f64 :=
  List.filter f64_is_finite (omap (bt_get metric_name) metrics).

(** The indices are in range for a list that is not empty. *)
(* apps/sched-claw/crates/domain/src/metrics.rs, median_from_sorted *)
Definition median_from_sorted (values : list f64) : f64 :=
  let mid := (length values / 2)%nat in
  let at_ i := default f64_zero (values !! i) in
  if (length values mod 2 =? 1)%nat then at_ mid
  else f64_div (f64_add (at_ (mid - 1)%nat) (at_ mid)) (f64_of_Z 2).

(* apps/sched-claw/crates/domain/src/metrics.rs, median_metric *)
Definition median_metric (metric_name : string) (metrics : list MetricMap) : option f64 :=
  match metric_values metric_name metrics with
  | [] => None
  | values => Some (median_from_sorted (merge_sort f64_le values))
  end.

(* apps/sched-claw/crates/domain/src/metrics.rs, relative_spread_pct *)
Definition relative_spread_pct (metric_name : string) (metrics : list MetricMap) : option f64 :=
  match metric_values metric_name metrics with
  | [] => None
  | [_] => Some f64_zero
  | values =>
      let sorted := merge_sort f64_le values in
      let min := default f64_zero (head sorted) in
      let max := default f64_zero (last sorted) in
      let median := median_from_sorted sorted in
      if SFeqb median f64_zero then if SFeqb min max then Some f64_zero else None
      else Some (f64_mul (f64_div (SFabs (f64_sub max min)) (SFabs median)) (f64_of_Z 100))
  end.

(** ** Workloads *)

(* apps/sched-claw/crates/domain/src/workload.rs, WorkloadTarget *)
Inductive WorkloadTarget :=
| Target_Script (cwd : option string) (argv : list string) (env : btree string)
| Target_Pid (pid : N)
| Target_Uid (uid : N)
| Target_Gid (gid : N)
| Target_Cgroup (path : string).

(* apps/sched-claw/crates/domain/src/workload.rs, WorkloadContract *)
Record WorkloadContract := mkWorkloadContract {
  wl_name : string;
  wl_description : option string;
  wl_target : option WorkloadTarget;
  wl_cwd : option string;
  wl_argv : list string;
  wl_env : btree string;
  wl_scope : option string;
  wl_phase : option string;
  wl_success_criteria : option string
}.

(* apps/sched-claw/crates/domain/src/workload.rs, WorkloadContract::effective_target *)
Definition effective_target (w : WorkloadContract) : WorkloadTarget :=
  default (Target_Script (wl_cwd w) (wl_argv w) (wl_env w)) (wl_target w).

(* apps/sched-claw/crates/domain/src/workload.rs, WorkloadTarget::kind_label *)
Definition kind_label (t : WorkloadTarget) : string :=
  match t with
  | Target_Script _ _ _ => "script"
  | Target_Pid _ => "pid"
  | Target_Uid _ => "uid"
  | Target_Gid _ => "gid"
  | Target_Cgroup _ => "cgroup"
  end.

(* apps/sched-claw/crates/domain/src/workload.rs, WorkloadTarget::summary *)
Definition target_summary (t : WorkloadTarget) : string :=
  match t with
  | Target_Script cwd argv env =>
      "script cwd=" +:+ default "<none>" cwd +:+ " argv="
      +:+ match argv with [] => "<none>" | _ => str_join " " argv end +:+ " env="
      +:+ match env with [] => "<none>" | _ => str_join ", " (map (fun p => p.1 +:+ "=" +:+ p.2) env) end
  | Target_Pid pid => "pid=" +:+ fmt_N pid
  | Target_Uid uid => "uid=" +:+ fmt_N uid
  | Target_Gid gid => "gid=" +:+ fmt_N gid
  | Target_Cgroup path => "cgroup=" +:+ path
  end.

(* apps/sched-claw/crates/domain/src/workload.rs, HostFingerprint *)
Record HostFingerprint := mkHostFingerprint {
  hf_kernel_release : option string;
  hf_cpu_model : option string;
  hf_arch : option string
}.

Definition non_blank (s : string) : option string := if str_is_empty s then None else Some s.

(* apps/sched-claw/crates/domain/src/workload.rs, read_trimmed *)
Definition read_trimmed (read : string -> option string) (path : string) : option string :=
  read path ≫= fun value => non_blank (trim value).

(* apps/sched-claw/crates/domain/src/workload.rs, read_cpu_model *)
Definition read_cpu_model (read : string -> option string) : option string :=
  raw ← read "/proc/cpuinfo";
  p ← find_map (split_once ":") (str_lines raw);
  if String.eqb (trim p.1) "model name" then non_blank (trim p.2) else None.

(** [arch] is [std::env::consts::ARCH]. *)
(* apps/sched-claw/crates/domain/src/workload.rs, HostFingerprint::capture *)
Definition capture_host (read : string -> option string) (arch : string) : HostFingerprint :=
  mkHostFingerprint (read_trimmed read "/proc/sys/kernel/osrelease") (read_cpu_model read) (Some arch).
