(* ===== verification/SchedExperiment.v ===== *)
(** * sched-claw: experiment manifests and scoring

    Models the data, the policies, the checks and the scoring of
    [apps/sched-claw/crates/domain/src/experiment.rs].  The catalog that keeps manifests on
    disk is in [SchedCatalog]. *)

From Stdlib Require Import Ascii String ZArith SpecFloat.
From stdpp Require Import base list gmap sets sorting strings pretty.
From Stdlib Require Import Lia.
From S2P Require Import Prelude Text BTree StoreSearch Float64 SchedMetrics.

(** ** Policies *)

(* apps/sched-claw/crates/domain/src/experiment.rs, PerfStatProfile *)
Inductive PerfStatProfile := Profile_ProxyBasic | Profile_SchedulerBasic.

(* apps/sched-claw/crates/domain/src/experiment.rs, PerfStatProfile::as_str *)
Definition profile_as_str (p : PerfStatProfile) : string :=
  match p with Profile_ProxyBasic => "proxy_basic" | Profile_SchedulerBasic => "scheduler_basic" end.

(* apps/sched-claw/crates/domain/src/experiment.rs, PerfStatPolicy *)
Record PerfStatPolicy := mkPerfStatPolicy {
  ps_profile : PerfStatProfile;
  ps_events : list string;
  ps_notes : option string
}.

(* apps/sched-claw/crates/domain/src/experiment.rs, PerfStatPolicy::validate *)
Definition perf_stat_validate (p : PerfStatPolicy) : result unit string :=
  if existsb (fun event => str_is_empty (trim event)) (ps_events p)
  then Err "perf_stat events cannot contain empty strings" else Ok tt.

Definition notes_part (notes : option string) : list string :=
  match notes with Some notes => ["notes=" +:+ notes] | None => [] end.

(* apps/sched-claw/crates/domain/src/experiment.rs, PerfStatPolicy::summary *)
Definition perf_stat_summary (p : PerfStatPolicy) : string :=
  str_join " / "
    ([profile_as_str (ps_profile p)]
     ++ match ps_events p with [] => [] | events => ["events=" +:+ str_join "," events] end
     ++ notes_part (ps_notes p)).

(* apps/sched-claw/crates/domain/src/experiment.rs, CollectionPolicy *)
Record CollectionPolicy := mkCollectionPolicy { cp_perf_stat : option PerfStatPolicy }.

(* apps/sched-claw/crates/domain/src/experiment.rs, CollectionPolicy::validate *)
Definition collection_validate (p : CollectionPolicy) : result unit string :=
  match cp_perf_stat p with Some policy => perf_stat_validate policy | None => Ok tt end.

(* apps/sched-claw/crates/domain/src/experiment.rs, CollectionPolicy::summary *)
Definition collection_summary (p : CollectionPolicy) : string :=
  match cp_perf_stat p with Some policy => "perf_stat=" +:+ perf_stat_summary policy | None => "disabled" end.

(* apps/sched-claw/crates/domain/src/experiment.rs, SearchPolicy *)
Record SearchPolicy := mkSearchPolicy {
  sp_max_candidates : option nat;
  sp_max_total_candidate_runs : option nat;
  sp_max_runs_per_candidate : option nat;
  sp_max_total_builds : option nat;
  sp_stop_after_first_promote : bool;
  sp_notes : option string
}.

Definition at_least_one (name : string) (value : option nat) : result unit string :=
  match value with Some 0%nat => Err (name +:+ " must be at least 1 when set") | _ => Ok tt end.

(* apps/sched-claw/crates/domain/src/experiment.rs, SearchPolicy::validate *)
Definition search_validate (p : SearchPolicy) : result unit string :=
  _ <-? at_least_one "max_candidates" (sp_max_candidates p);
  _ <-? at_least_one "max_total_candidate_runs" (sp_max_total_candidate_runs p);
  _ <-? at_least_one "max_runs_per_candidate" (sp_max_runs_per_candidate p);
  at_least_one "max_total_builds" (sp_max_total_builds p).

Definition limit_part (name : string) (limit : option nat) : list string :=
  match limit with Some value => [name +:+ "<=" +:+ fmt_nat value] | None => [] end.

(* apps/sched-claw/crates/domain/src/experiment.rs, SearchPolicy::summary *)
Definition search_summary (p : SearchPolicy) : string :=
  match (limit_part "candidates" (sp_max_candidates p)
        ++ limit_part "candidate_runs" (sp_max_total_candidate_runs p)
        ++ limit_part "runs_per_candidate" (sp_max_runs_per_candidate p)
        ++ limit_part "builds" (sp_max_total_builds p)
        ++ (if sp_stop_after_first_promote p then ["stop_after_first_promote=yes"] else [])
        ++ notes_part (sp_notes p))%list with
  | [] => "open"
  | parts => str_join " / " parts
  end.

(* apps/sched-claw/crates/domain/src/experiment.rs, EvaluationPolicy *)
Record EvaluationPolicy := mkEvaluationPolicy {
  ep_min_baseline_runs : nat;
  ep_min_candidate_runs : nat;
  ep_min_primary_improvement_pct : option f64;
  ep_max_primary_relative_spread_pct : option f64
}.

(* apps/sched-claw/crates/domain/src/experiment.rs, default_min_run_count *)
Definition default_min_run_count : nat := 1.

(* apps/sched-claw/crates/domain/src/experiment.rs, EvaluationPolicy::default *)
Definition default_evaluation : EvaluationPolicy :=
  mkEvaluationPolicy default_min_run_count default_min_run_count None None.

Definition bad_percentage (value : option f64) : bool :=
  match value with Some v => negb (f64_is_finite v) || SFltb v f64_zero | None => false end.

(* apps/sched-claw/crates/domain/src/experiment.rs, EvaluationPolicy::validate *)
Definition evaluation_validate (p : EvaluationPolicy) : result unit string :=
  if (ep_min_baseline_runs p =? 0)%nat then Err "min_baseline_runs must be at least 1"
  else if (ep_min_candidate_runs p =? 0)%nat then Err "min_candidate_runs must be at least 1"
  else if bad_percentage (ep_min_primary_improvement_pct p) then
    Err "min_primary_improvement_pct must be a finite non-negative number"
  else if bad_percentage (ep_max_primary_relative_spread_pct p) then
    Err "max_primary_relative_spread_pct must be a finite non-negative number"
  else Ok tt.

Definition percent_part (name : string) (value : option f64) : list string :=
  match value with Some v => [name +:+ fmt_f64_2 v +:+ "%"] | None => [] end.

(* apps/sched-claw/crates/domain/src/experiment.rs, EvaluationPolicy::summary *)
Definition evaluation_summary (p : EvaluationPolicy) : string :=
  str_join " / "
    (["baseline>=" +:+ fmt_nat (ep_min_baseline_runs p); "candidate>=" +:+ fmt_nat (ep_min_candidate_runs p)]
     ++ percent_part "improvement>=" (ep_min_primary_improvement_pct p)
     ++ percent_part "spread<=" (ep_max_primary_relative_spread_pct p)).

(** ** Records *)

(* apps/sched-claw/crates/domain/src/experiment.rs, CandidateLineage *)
Record CandidateLineage := mkCandidateLineage {
  cl_parent_candidate_id : option string;
  cl_evidence_ids : list string;
  cl_analysis_ids : list string;
  cl_design_ids : list string;
  cl_mutation_note : option string
}.

(* apps/sched-claw/crates/domain/src/experiment.rs, CandidateLineage::is_empty *)
Definition lineage_is_empty (l : CandidateLineage) : bool :=
  bool_decide (cl_parent_candidate_id l = None) && bool_decide (cl_evidence_ids l = [])
  && bool_decide (cl_analysis_ids l = []) && bool_decide (cl_design_ids l = [])
  && bool_decide (cl_mutation_note l = None).

(* apps/sched-claw/crates/domain/src/experiment.rs, CandidateSpec *)
Record CandidateSpec := mkCandidateSpec {
  cs_candidate_id : string;
  cs_template : string;
  cs_lineage : CandidateLineage;
  cs_source_path : option string;
  cs_object_path : option string;
  cs_build_command : option string;
  cs_daemon_argv : list string;
  cs_daemon_cwd : option string;
  cs_daemon_env : btree string;
  cs_knobs : btree string;
  cs_notes : option string
}.

(* apps/sched-claw/crates/domain/src/experiment.rs, SchedulerKind *)
Inductive SchedulerKind := Sched_Cfs | Sched_SchedExt.

(* apps/sched-claw/crates/domain/src/experiment.rs, SchedulerKind::as_str *)
Definition scheduler_as_str (k : SchedulerKind) : string :=
  match k with Sched_Cfs => "cfs" | Sched_SchedExt => "sched_ext" end.

(* apps/sched-claw/crates/domain/src/experiment.rs, RecordedRun *)
Record RecordedRun := mkRecordedRun {
  rr_label : string;
  rr_recorded_at_unix_ms : N;
  rr_scheduler : SchedulerKind;
  rr_artifact_dir : string;
  rr_metrics : MetricMap;
  rr_notes : option string
}.

(* apps/sched-claw/crates/domain/src/experiment.rs, CommandStatus *)
Inductive CommandStatus := Command_Success | Command_Failed | Command_Skipped.

(* apps/sched-claw/crates/domain/src/experiment.rs, CommandStatus::as_str *)
Definition command_as_str (s : CommandStatus) : string :=
  match s with Command_Success => "success" | Command_Failed => "failed" | Command_Skipped => "skipped" end.

(* apps/sched-claw/crates/domain/src/experiment.rs, VerifierBackend *)
Inductive VerifierBackend := BpftoolProgLoadall.

(* apps/sched-claw/crates/domain/src/experiment.rs, VerifierBackend::as_str *)
Definition verifier_as_str (b : VerifierBackend) : string :=
  match b with BpftoolProgLoadall => "bpftool_prog_loadall" end.

(* apps/sched-claw/crates/domain/src/experiment.rs, StepCommandRecord *)
Record StepCommandRecord := mkStepCommandRecord {
  sc_status : CommandStatus;
  sc_command : string;
  sc_command_path : string;
  sc_exit_code : option Z;
  sc_duration_ms : N;
  sc_stdout_path : string;
  sc_stderr_path : string;
  sc_summary : option string
}.

(* apps/sched-claw/crates/domain/src/experiment.rs, VerifierCommandRecord *)
Record VerifierCommandRecord := mkVerifierCommandRecord {
  vc_backend : VerifierBackend;
  vc_status : CommandStatus;
  vc_command : string;
  vc_command_path : string;
  vc_exit_code : option Z;
  vc_duration_ms : N;
  vc_stdout_path : string;
  vc_stderr_path : string;
  vc_summary : option string
}.

(* apps/sched-claw/crates/domain/src/experiment.rs, CandidateBuildRecord *)
Record CandidateBuildRecord := mkCandidateBuildRecord {
  cb_requested_at_unix_ms : N;
  cb_artifact_dir : string;
  cb_source_path : option string;
  cb_object_path : option string;
  cb_build : StepCommandRecord;
  cb_verifier : VerifierCommandRecord
}.

(* apps/sched-claw/crates/domain/src/experiment.rs, CandidateRecord *)
Record CandidateRecord := mkCandidateRecord {
  cr_spec : CandidateSpec;
  cr_runs : list RecordedRun;
  cr_builds : list CandidateBuildRecord
}.
Definition cr_id (c : CandidateRecord) : string := cs_candidate_id (cr_spec c).

(* apps/sched-claw/crates/domain/src/experiment.rs, EvidenceKind *)
Inductive EvidenceKind :=
| Evidence_PerfStat | Evidence_PerfSched | Evidence_PerfRecord | Evidence_Psi | Evidence_Schedstat
| Evidence_BpfTrace | Evidence_Custom.

(* apps/sched-claw/crates/domain/src/experiment.rs, EvidenceKind::as_str *)
Definition evidence_as_str (k : EvidenceKind) : string :=
  match k with
  | Evidence_PerfStat => "perf_stat"
  | Evidence_PerfSched => "perf_sched"
  | Evidence_PerfRecord => "perf_record"
  | Evidence_Psi => "psi"
  | Evidence_Schedstat => "schedstat"
  | Evidence_BpfTrace => "bpf_trace"
  | Evidence_Custom => "custom"
  end.

(* apps/sched-claw/crates/domain/src/experiment.rs, EvidenceRecord *)
Record EvidenceRecord := mkEvidenceRecord {
  ev_evidence_id : string;
  ev_recorded_at_unix_ms : N;
  ev_kind : EvidenceKind;
  ev_collector : option string;
  ev_focus : option string;
  ev_phase : option string;
  ev_scheduler : option SchedulerKind;
  ev_candidate_id : option string;
  ev_artifact_paths : list string;
  ev_metrics : MetricMap;
  ev_summary : option string;
  ev_notes : list string
}.

(* apps/sched-claw/crates/domain/src/experiment.rs, AnalysisConfidence *)
Inductive AnalysisConfidence := Confidence_Low | Confidence_Medium | Confidence_High.

(* apps/sched-claw/crates/domain/src/experiment.rs, AnalysisConfidence::as_str *)
Definition confidence_as_str (c : AnalysisConfidence) : string :=
  match c with Confidence_Low => "low" | Confidence_Medium => "medium" | Confidence_High => "high" end.

(* apps/sched-claw/crates/domain/src/experiment.rs, AnalysisRecord *)
Record AnalysisRecord := mkAnalysisRecord {
  an_analysis_id : string;
  an_recorded_at_unix_ms : N;
  an_title : string;
  an_confidence : AnalysisConfidence;
  an_evidence_ids : list string;
  an_facts : list string;
  an_inferences : list string;
  an_unknowns : list string;
  an_recommendations : list string;
  an_summary : option string
}.

(* apps/sched-claw/crates/domain/src/experiment.rs, DesignRecord *)
Record DesignRecord := mkDesignRecord {
  de_design_id : string;
  de_recorded_at_unix_ms : N;
  de_title : string;
  de_candidate_id : option string;
  de_evidence_ids : list string;
  de_analysis_ids : list string;
  de_policy_levers : list string;
  de_invariants : list string;
  de_code_targets : list string;
  de_risks : list string;
  de_fallback_criteria : list string;
  de_summary : option string
}.

(* apps/sched-claw/crates/domain/src/experiment.rs, CandidateDecision *)
Inductive CandidateDecision := Decision_Promote | Decision_Revise | Decision_Blocked | Decision_Incomplete.

(* apps/sched-claw/crates/domain/src/experiment.rs, CandidateDecision::as_str *)
Definition decision_as_str (d : CandidateDecision) : string :=
  match d with
  | Decision_Promote => "promote"
  | Decision_Revise => "revise"
  | Decision_Blocked => "blocked"
  | Decision_Incomplete => "incomplete"
  end.

(* apps/sched-claw/crates/domain/src/experiment.rs, CandidateDecisionRecord *)
Record CandidateDecisionRecord := mkCandidateDecisionRecord {
  cd_decision_id : string;
  cd_candidate_id : string;
  cd_recorded_at_unix_ms : N;
  cd_decision : CandidateDecision;
  cd_evidence_ids : list string;
  cd_analysis_ids : list string;
  cd_design_ids : list string;
  cd_primary_improvement_pct : option f64;
  cd_rationale : option string
}.

(* apps/sched-claw/crates/domain/src/experiment.rs, DeploymentRecord *)
Record DeploymentRecord := mkDeploymentRecord {
  dr_candidate_id : string;
  dr_requested_at_unix_ms : N;
  dr_label : string;
  dr_daemon_pid : N;
  dr_argv : list string;
  dr_cwd : option string;
  dr_env : btree string;
  dr_source_path : option string;
  dr_lease_timeout_ms : option N;
  dr_replace_existing : bool
}.

(* apps/sched-claw/crates/domain/src/experiment.rs, ExperimentManifest *)
Record ExperimentManifest := mkExperimentManifest {
  em_version : N;
  em_experiment_id : string;
  em_created_at_unix_ms : N;
  em_updated_at_unix_ms : N;
  em_host : HostFingerprint;
  em_workload : WorkloadContract;
  em_primary_metric : MetricTarget;
  em_performance_policy : PerformancePolicy;
  em_collection_policy : CollectionPolicy;
  em_evaluation_policy : EvaluationPolicy;
  em_search_policy : SearchPolicy;
  em_guardrails : list Guardrail;
  em_baseline_runs : list RecordedRun;
  em_evidence : list EvidenceRecord;
  em_analyses : list AnalysisRecord;
  em_designs : list DesignRecord;
  em_candidates : list CandidateRecord;
  em_decisions : list CandidateDecisionRecord;
  em_deployments : list DeploymentRecord
}.

(** Field updates. *)
Definition with_updated_at (t : N) (m : ExperimentManifest) : ExperimentManifest :=
  mkExperimentManifest (em_version m) (em_experiment_id m) (em_created_at_unix_ms m) t (em_host m) (em_workload m)
    (em_primary_metric m) (em_performance_policy m) (em_collection_policy m) (em_evaluation_policy m)
    (em_search_policy m) (em_guardrails m) (em_baseline_runs m) (em_evidence m) (em_analyses m) (em_designs m)
    (em_candidates m) (em_decisions m) (em_deployments m).
Definition with_policies (c : CollectionPolicy) (e : EvaluationPolicy) (s : SearchPolicy) (m : ExperimentManifest)
    : ExperimentManifest :=
  mkExperimentManifest (em_version m) (em_experiment_id m) (em_created_at_unix_ms m) (em_updated_at_unix_ms m)
    (em_host m) (em_workload m) (em_primary_metric m) (em_performance_policy m) c e s (em_guardrails m)
    (em_baseline_runs m) (em_evidence m) (em_analyses m) (em_designs m) (em_candidates m) (em_decisions m)
    (em_deployments m).
Definition with_records (b : list RecordedRun) (ev : list EvidenceRecord) (an : list AnalysisRecord)
    (de : list DesignRecord) (ca : list CandidateRecord) (dc : list CandidateDecisionRecord)
    (dp : list DeploymentRecord) (m : ExperimentManifest) : ExperimentManifest :=
  mkExperimentManifest (em_version m) (em_experiment_id m) (em_created_at_unix_ms m) (em_updated_at_unix_ms m)
    (em_host m) (em_workload m) (em_primary_metric m) (em_performance_policy m) (em_collection_policy m)
    (em_evaluation_policy m) (em_search_policy m) (em_guardrails m) b ev an de ca dc dp.
Definition with_candidates (ca : list CandidateRecord) (m : ExperimentManifest) : ExperimentManifest :=
  with_records (em_baseline_runs m) (em_evidence m) (em_analyses m) (em_designs m) ca (em_decisions m)
    (em_deployments m) m.

(** ** Checks *)

(** [is_ascii_alphanumeric]; a character outside ASCII has no such byte. *)
Definition ascii_alnum (a : ascii) : bool :=
  let n := nat_of_ascii a in
  ((48 <=? n)%nat && (n <=? 57)%nat) || ((65 <=? n)%nat && (n <=? 90)%nat) || ((97 <=? n)%nat && (n <=? 122)%nat).
Definition identifier_char (a : ascii) : bool :=
  ascii_alnum a || Ascii.eqb a "-" || Ascii.eqb a "_" || Ascii.eqb a ".".

(* apps/sched-claw/crates/domain/src/experiment.rs, validate_identifier *)
Definition validate_identifier (kind value : string) : result unit string :=
  let trimmed := trim value in
  if str_is_empty trimmed then Err (kind +:+ " cannot be empty")
  else if forallb identifier_char (list_ascii_of_string trimmed) then Ok tt
  else Err (kind +:+ " must use only ASCII alphanumeric characters, '-', '_' or '.'").

Definition in_experiment (m : ExperimentManifest) : string := " in experiment " +:+ em_experiment_id m.

(* apps/sched-claw/crates/domain/src/experiment.rs, require_candidate *)
Definition require_candidate (m : ExperimentManifest) (candidate_id : string) : result unit string :=
  if existsb (fun c => String.eqb (cr_id c) candidate_id) (em_candidates m) then Ok tt
  else Err ("unknown candidate " +:+ candidate_id +:+ in_experiment m).

(* apps/sched-claw/crates/domain/src/experiment.rs, require_evidence *)
Definition require_evidence (m : ExperimentManifest) (evidence_id : string) : result unit string :=
  if existsb (fun e => String.eqb (ev_evidence_id e) evidence_id) (em_evidence m) then Ok tt
  else Err ("unknown evidence " +:+ evidence_id +:+ in_experiment m).

(* apps/sched-claw/crates/domain/src/experiment.rs, require_analysis *)
Definition require_analysis (m : ExperimentManifest) (analysis_id : string) : result unit string :=
  if existsb (fun a => String.eqb (an_analysis_id a) analysis_id) (em_analyses m) then Ok tt
  else Err ("unknown analysis " +:+ analysis_id +:+ in_experiment m).

(* apps/sched-claw/crates/domain/src/experiment.rs, require_design *)
Definition require_design (m : ExperimentManifest) (design_id : string) : result unit string :=
  if existsb (fun d => String.eqb (de_design_id d) design_id) (em_designs m) then Ok tt
  else Err ("unknown design " +:+ design_id +:+ in_experiment m).

(** [for id in ids { check(id)?; }]. *)
Fixpoint require_all (check : string -> result unit string) (ids : list string) : result unit string :=
  match ids with
  | [] => Ok tt
  | id :: rest => _ <-? check id; require_all check rest
  end.
Definition require_opt (check : string -> result unit string) (id : option string) : result unit string :=
  match id with Some id => check id | None => Ok tt end.

(* apps/sched-claw/crates/domain/src/experiment.rs, validate_candidate_lineage *)
Definition validate_candidate_lineage (m : ExperimentManifest) (l : CandidateLineage) : result unit string :=
  _ <-? require_opt (require_candidate m) (cl_parent_candidate_id l);
  _ <-? require_all (require_evidence m) (cl_evidence_ids l);
  _ <-? require_all (require_analysis m) (cl_analysis_ids l);
  require_all (require_design m) (cl_design_ids l).

Definition is_promote (r : CandidateDecisionRecord) : bool :=
  match cd_decision r with Decision_Promote => true | _ => false end.

(* apps/sched-claw/crates/domain/src/experiment.rs, enforce_search_policy_stop *)
Definition enforce_search_policy_stop (m : ExperimentManifest) : result unit string :=
  if sp_stop_after_first_promote (em_search_policy m) && existsb is_promote (em_decisions m) then
    Err ("search policy stop_after_first_promote is active and experiment " +:+ em_experiment_id m
         +:+ " already has a promoted candidate decision")
  else Ok tt.

(* apps/sched-claw/crates/domain/src/experiment.rs, count_total_candidate_runs *)
Definition count_total_candidate_runs (m : ExperimentManifest) : nat :=
  sum_list_with (fun c => length (cr_runs c)) (em_candidates m).

(* apps/sched-claw/crates/domain/src/experiment.rs, count_total_builds *)
Definition count_total_builds (m : ExperimentManifest) : nat :=
  sum_list_with (fun c => length (cr_builds c)) (em_candidates m).

(** [if let Some(limit) = limit && count >= limit { bail! }]. *)
Definition below_limit (limit : option nat) (count : nat) (message : nat -> string) : result unit string :=
  match limit with Some n => if (n <=? count)%nat then Err (message n) else Ok tt | None => Ok tt end.

Definition update_policy_hint (what : string) : string :=
  "; update " +:+ bt +:+ "sched-claw experiment set-search-policy ..." +:+ bt +:+ " before " +:+ what.

(* apps/sched-claw/crates/domain/src/experiment.rs, enforce_candidate_add_policy *)
Definition enforce_candidate_add_policy (m : ExperimentManifest) : result unit string :=
  _ <-? enforce_search_policy_stop m;
  below_limit (sp_max_candidates (em_search_policy m)) (length (em_candidates m)) (fun limit =>
    "search policy candidate limit " +:+ fmt_nat limit +:+ " reached for experiment " +:+ em_experiment_id m
    +:+ update_policy_hint "adding more candidates").

(* apps/sched-claw/crates/domain/src/experiment.rs, ensure_candidate_build_allowed *)
Definition ensure_candidate_build_allowed (m : ExperimentManifest) : result unit string :=
  _ <-? enforce_search_policy_stop m;
  below_limit (sp_max_total_builds (em_search_policy m)) (count_total_builds m) (fun limit =>
    "search policy build limit " +:+ fmt_nat limit +:+ " reached for experiment " +:+ em_experiment_id m
    +:+ update_policy_hint "recording more builds").

(* apps/sched-claw/crates/domain/src/experiment.rs, ensure_candidate_run_allowed *)
Definition ensure_candidate_run_allowed (m : ExperimentManifest) (c : CandidateRecord) : result unit string :=
  _ <-? enforce_search_policy_stop m;
  _ <-? below_limit (sp_max_total_candidate_runs (em_search_policy m)) (count_total_candidate_runs m) (fun limit =>
    "search policy candidate-run limit " +:+ fmt_nat limit +:+ " reached for experiment " +:+ em_experiment_id m
    +:+ update_policy_hint "recording more runs");
  below_limit (sp_max_runs_per_candidate (em_search_policy m)) (length (cr_runs c)) (fun limit =>
    "search policy per-candidate run limit " +:+ fmt_nat limit +:+ " reached for candidate " +:+ cr_id c
    +:+ in_experiment m).

(** ** Scoring *)

(* apps/sched-claw/crates/domain/src/experiment.rs, GuardrailStatus *)
Inductive GuardrailStatus := Guardrail_Pass | Guardrail_Breach | Guardrail_Missing.

(* apps/sched-claw/crates/domain/src/experiment.rs, GuardrailScore *)
Record GuardrailScore := mkGuardrailScore {
  gs_name : string;
  gs_baseline_value : option f64;
  gs_candidate_value : option f64;
  gs_improvement_pct : option f64;
  gs_max_regression_pct : f64;
  gs_status : GuardrailStatus
}.

(* apps/sched-claw/crates/domain/src/experiment.rs, CandidateScore *)
Record CandidateScore := mkCandidateScore {
  sc_candidate_id : string;
  sc_template : string;
  sc_run_count : nat;
  sc_primary_candidate_value : option f64;
  sc_primary_improvement_pct : option f64;
  sc_candidate_primary_relative_spread_pct : option f64;
  sc_decision : CandidateDecision;
  sc_breached_guardrails : list GuardrailScore;
  sc_status_reasons : list string
}.

(** [a.and_then(|b| c.and_then(|v| goal.improvement_pct(b, v)))]. *)
Definition improvement_between (goal : MetricGoal) (baseline candidate : option f64) : option f64 :=
  b ← baseline; v ← candidate; improvement_pct goal b v.

(* apps/sched-claw/crates/domain/src/experiment.rs, score_guardrail *)
Definition score_guardrail (g : Guardrail) (baseline_runs candidate_runs : list RecordedRun) : GuardrailScore :=
  let baseline_value := median_metric (gr_name g) (map rr_metrics baseline_runs) in
  let candidate_value := median_metric (gr_name g) (map rr_metrics candidate_runs) in
  let improvement := improvement_between (gr_goal g) baseline_value candidate_value in
  let status := match improvement with
                | Some value => if SFltb value (SFopp (gr_max_regression_pct g)) then Guardrail_Breach
                                else Guardrail_Pass
                | None => Guardrail_Missing
                end in
  mkGuardrailScore (gr_name g) baseline_value candidate_value improvement (gr_max_regression_pct g) status.

Definition is_missing (g : GuardrailScore) : bool :=
  match gs_status g with Guardrail_Missing => true | _ => false end.
Definition is_breach (g : GuardrailScore) : bool :=
  match gs_status g with Guardrail_Breach => true | _ => false end.
Definition is_none {A} (o : option A) : bool := match o with None => true | Some _ => false end.

(** [x > y] on [f64]. *)
Definition f64_gtb (x y : f64) : bool := SFltb y x.
(** [o.is_some_and(|value| value > limit)]. *)
Definition exceeds (o : option f64) (limit : f64) : bool :=
  match o with Some value => f64_gtb value limit | None => false end.
Definition when (b : bool) (s : string) : list string := if b then [s] else [].

Definition spread_reason (who : string) (value : option f64) (limit : f64) : list string :=
  match value with
  | Some v => when (f64_gtb v limit)
                (who +:+ " primary spread " +:+ fmt_f64_2 v +:+ "% exceeds " +:+ fmt_f64_2 limit +:+ "%")
  | None => []
  end.

(* apps/sched-claw/crates/domain/src/experiment.rs, score_candidate *)
Definition score_candidate (primary_metric : MetricTarget) (policy : EvaluationPolicy) (guardrails : list Guardrail)
    (baseline_runs : list RecordedRun) (candidate : CandidateRecord) : CandidateScore :=
  let baseline_metrics := map rr_metrics baseline_runs in
  let candidate_metrics := map rr_metrics (cr_runs candidate) in
  let name := mt_name primary_metric in
  let baseline_primary_value := median_metric name baseline_metrics in
  let primary_candidate_value := median_metric name candidate_metrics in
  let baseline_spread := relative_spread_pct name baseline_metrics in
  let candidate_spread := relative_spread_pct name candidate_metrics in
  let improvement :=
    improvement_between (mt_goal primary_metric) baseline_primary_value primary_candidate_value in
  let breached_guardrails := map (fun g => score_guardrail g baseline_runs (cr_runs candidate)) guardrails in
  let n_baseline := length baseline_runs in
  let n_candidate := length (cr_runs candidate) in
  let few_baseline := (n_baseline <? ep_min_baseline_runs policy)%nat in
  let few_candidate := (n_candidate <? ep_min_candidate_runs policy)%nat in
  let status_reasons : list string :=
    (when few_baseline ("baseline runs " +:+ fmt_nat n_baseline +:+ " below required "
                       +:+ fmt_nat (ep_min_baseline_runs policy))
    ++ when few_candidate ("candidate runs " +:+ fmt_nat n_candidate +:+ " below required "
                           +:+ fmt_nat (ep_min_candidate_runs policy))
    ++ when (is_none baseline_primary_value) "missing baseline primary metric"
    ++ when (is_none primary_candidate_value) "missing candidate primary metric"
    ++ match ep_max_primary_relative_spread_pct policy with
       | Some limit => spread_reason "baseline" baseline_spread limit
                       ++ spread_reason "candidate" candidate_spread limit
       | None => []
       end
    ++ map (fun g => "missing guardrail metric " +:+ gs_name g) (List.filter is_missing breached_guardrails)
    ++ match ep_min_primary_improvement_pct policy, improvement with
       | Some min_improvement, Some value =>
           when (f64_gtb value f64_zero && SFltb value min_improvement)
             ("primary improvement " +:+ fmt_f64_2 value +:+ "% below required " +:+ fmt_f64_2 min_improvement
              +:+ "%")
       | _, _ => []
       end)%list in
  let decision :=
    if is_none baseline_primary_value || is_none primary_candidate_value || few_baseline || few_candidate
       || existsb is_missing breached_guardrails
       || match ep_max_primary_relative_spread_pct policy with
          | Some limit => exceeds baseline_spread limit || exceeds candidate_spread limit
          | None => false
          end
    then Decision_Incomplete
    else if existsb is_breach breached_guardrails then Decision_Blocked
    else if match improvement with
            | Some value => f64_gtb value f64_zero
                            && SFleb (default f64_zero (ep_min_primary_improvement_pct policy)) value
            | None => false
            end
    then Decision_Promote
    else Decision_Revise in
  let status_reasons :=
    (status_reasons
    ++ match decision, improvement with
       | Decision_Revise, Some value =>
           when (SFleb value f64_zero) ("primary metric did not improve (" +:+ fmt_f64_2 value +:+ "%)")
       | _, _ => []
       end)%list in
  mkCandidateScore (cr_id candidate) (cs_template (cr_spec candidate)) n_candidate primary_candidate_value
    improvement candidate_spread decision breached_guardrails status_reasons.
