(* ===== verification/SchedCatalog.v ===== *)
(** * sched-claw: the experiment catalog

    Models [ExperimentCatalog] of [apps/sched-claw/crates/domain/src/experiment.rs] and
    [paths.rs].  The disk and the TOML codec of manifests are a parameter
    ([ExperimentFiles]); the clock and the host fingerprint are arguments; an error is the
    text [anyhow] displays for it. *)

From Stdlib Require Import Ascii String ZArith SpecFloat.
From stdpp Require Import base list gmap sets sorting strings pretty.
From Stdlib Require Import Lia.
From S2P Require Import Prelude Text BTree Message WriteLease SandboxPolicy PathPolicy StoreSearch Float64 SchedMetrics SchedExperiment.

Class ExperimentFiles := {
  efs : Type;
  (** the text of a file *)
  toml_text : Type;
  efs_exists : efs -> PathBuf -> bool;
  efs_is_file : efs -> PathBuf -> bool;
  efs_is_dir : efs -> PathBuf -> bool;
  (** the entries in the order the system gives them, each with its own error *)
  efs_read_dir : efs -> PathBuf -> result (list (result PathBuf string)) string;
  efs_read : efs -> PathBuf -> result toml_text string;
  efs_create_dir_all : efs -> PathBuf -> result unit string * efs;
  efs_write : efs -> PathBuf -> toml_text -> result unit string * efs;
  (** [toml::from_str] and [toml::to_string_pretty] *)
  parse_experiment : toml_text -> result ExperimentManifest string;
  render_experiment : ExperimentManifest -> result toml_text string
}.

(** ** Paths *)

(* apps/sched-claw/crates/domain/src/paths.rs, app_state_dir *)
Definition app_state_dir (workspace_root : PathBuf) : PathBuf :=
  path_join (path_join workspace_root [".nanoclaw"; "apps"]) ["sched-claw"].

(* apps/sched-claw/crates/domain/src/experiment.rs, experiments_dir *)
Definition experiments_dir (workspace_root : PathBuf) : PathBuf :=
  path_join (app_state_dir workspace_root) ["experiments"].

(* apps/sched-claw/crates/domain/src/experiment.rs, EXPERIMENT_VERSION *)
Definition EXPERIMENT_VERSION : N := 1.
(* apps/sched-claw/crates/domain/src/experiment.rs, MANIFEST_FILE_NAME *)
Definition MANIFEST_FILE_NAME : string := "experiment.toml".

(* apps/sched-claw/crates/domain/src/experiment.rs, ExperimentCatalog *)
Record ExperimentCatalog := mkExperimentCatalog {
  ec_workspace_root : PathBuf;
  ec_experiments_root : PathBuf
}.

(* apps/sched-claw/crates/domain/src/experiment.rs, ExperimentCatalog::manifest_path_for_id *)
Definition manifest_path_for_id (c : ExperimentCatalog) (experiment_id : string) : PathBuf :=
  path_join (path_join (ec_experiments_root c) (path_of_string experiment_id)) [MANIFEST_FILE_NAME].

(* apps/sched-claw/crates/domain/src/experiment.rs, ExperimentCatalog::artifacts_dir_for_id *)
Definition artifacts_dir_for_id (c : ExperimentCatalog) (experiment_id : string) : PathBuf :=
  path_join (path_join (ec_experiments_root c) (path_of_string experiment_id)) ["artifacts"].

(** ** Results *)

(* apps/sched-claw/crates/domain/src/experiment.rs, ExperimentSummary *)
Record ExperimentSummary := mkExperimentSummary {
  es_experiment_id : string;
  es_manifest_path : PathBuf;
  es_updated_at_unix_ms : N;
  es_workload_name : string;
  es_primary_metric_name : string;
  es_baseline_run_count : nat;
  es_evidence_count : nat;
  es_analysis_count : nat;
  es_design_count : nat;
  es_candidate_count : nat;
  es_decision_count : nat;
  es_deployment_count : nat
}.

(* apps/sched-claw/crates/domain/src/experiment.rs, LoadedExperiment *)
Record LoadedExperiment := mkLoadedExperiment {
  le_manifest_path : PathBuf;
  le_manifest : ExperimentManifest
}.

(* apps/sched-claw/crates/domain/src/experiment.rs, ExperimentArtifact *)
Record ExperimentArtifact := mkExperimentArtifact {
  ea_action : string;
  ea_experiment_id : string;
  ea_manifest_path : PathBuf;
  ea_details : list (string * string)
}.

(* apps/sched-claw/crates/domain/src/experiment.rs, ExperimentScoreReport *)
Record ExperimentScoreReport := mkExperimentScoreReport {
  sr_experiment_id : string;
  sr_manifest_path : PathBuf;
  sr_primary_metric : MetricTarget;
  sr_evaluation_policy : EvaluationPolicy;
  sr_baseline_run_count : nat;
  sr_baseline_primary_value : option f64;
  sr_baseline_primary_relative_spread_pct : option f64;
  sr_entries : list CandidateScore
}.

(* apps/sched-claw/crates/domain/src/experiment.rs, ExperimentInitSpec *)
Record ExperimentInitSpec := mkExperimentInitSpec {
  is_experiment_id : string;
  is_workload : WorkloadContract;
  is_primary_metric : MetricTarget;
  is_performance_policy : PerformancePolicy;
  is_collection_policy : CollectionPolicy;
  is_evaluation_policy : EvaluationPolicy;
  is_search_policy : SearchPolicy;
  is_guardrails : list Guardrail
}.

(** ** Changes of a manifest

    What an operation does to the manifest it loaded, before the manifest is touched and
    written: the new manifest, the action it reports and its details. *)
Record Change := mkChange {
  ch_manifest : ExperimentManifest;
  ch_action : string;
  ch_details : list (string * string)
}.

Definition refuse_if (b : bool) (message : string) : result unit string := if b then Err message else Ok tt.
Definition has_candidate (m : ExperimentManifest) (id : string) : bool :=
  existsb (fun c => String.eqb (cr_id c) id) (em_candidates m).
Definition already_exists (what id : string) (m : ExperimentManifest) : string :=
  what +:+ " " +:+ id +:+ " already exists" +:+ in_experiment m.
Definition push_candidate (spec : CandidateSpec) (m : ExperimentManifest) : ExperimentManifest :=
  with_candidates (em_candidates m ++ [mkCandidateRecord spec [] []]) m.

(* apps/sched-claw/crates/domain/src/experiment.rs, candidate_id *)
Definition candidate_id (m : ExperimentManifest) : string :=
  match last (em_candidates m) with Some c => cr_id c | None => "<unknown>" end.

(* apps/sched-claw/crates/domain/src/experiment.rs, ExperimentCatalog::add_candidate *)
Definition change_add_candidate (spec : CandidateSpec) (m : ExperimentManifest) : result Change string :=
  _ <-? enforce_candidate_add_policy m;
  _ <-? refuse_if (has_candidate m (cs_candidate_id spec)) (already_exists "candidate" (cs_candidate_id spec) m);
  _ <-? validate_candidate_lineage m (cs_lineage spec);
  let m := push_candidate spec m in
  Ok (mkChange m "added candidate" [("candidate", candidate_id m)]).

(** The first candidate that has the id gets the spec. *)
Fixpoint replace_spec (spec : CandidateSpec) (l : list CandidateRecord) : list CandidateRecord :=
  match l with
  | [] => []
  | c :: l => if String.eqb (cr_id c) (cs_candidate_id spec)
              then mkCandidateRecord spec (cr_runs c) (cr_builds c) :: l
              else c :: replace_spec spec l
  end.

(* apps/sched-claw/crates/domain/src/experiment.rs, ExperimentCatalog::set_candidate *)
Definition change_set_candidate (spec : CandidateSpec) (m : ExperimentManifest) : result Change string :=
  let present := has_candidate m (cs_candidate_id spec) in
  _ <-? (if present then Ok tt else enforce_candidate_add_policy m);
  _ <-? validate_candidate_lineage m (cs_lineage spec);
  let details := [("candidate", cs_candidate_id spec); ("template", cs_template spec)] in
  Ok (if present
      then mkChange (with_candidates (replace_spec spec (em_candidates m)) m) "updated candidate" details
      else mkChange (push_candidate spec m) "added candidate" details).

Definition with_template (template : string) (s : CandidateSpec) : CandidateSpec :=
  mkCandidateSpec (cs_candidate_id s) template (cs_lineage s) (cs_source_path s) (cs_object_path s)
    (cs_build_command s) (cs_daemon_argv s) (cs_daemon_cwd s) (cs_daemon_env s) (cs_knobs s) (cs_notes s).

Definition unknown_candidate (m : ExperimentManifest) (id : string) : string :=
  "unknown candidate " +:+ id +:+ in_experiment m.

(* apps/sched-claw/crates/domain/src/experiment.rs, ExperimentCatalog::fork_candidate *)
Definition change_fork_candidate (from_candidate_id : string) (spec : CandidateSpec) (m : ExperimentManifest)
    : result Change string :=
  _ <-? enforce_candidate_add_policy m;
  _ <-? refuse_if (has_candidate m (cs_candidate_id spec)) (already_exists "candidate" (cs_candidate_id spec) m);
  parent <-? ok_or (find (fun c => String.eqb (cr_id c) from_candidate_id) (em_candidates m))
                   (unknown_candidate m from_candidate_id);
  _ <-? require_opt (require_candidate m) (cl_parent_candidate_id (cs_lineage spec));
  _ <-? require_all (require_evidence m) (cl_evidence_ids (cs_lineage spec));
  _ <-? require_all (require_analysis m) (cl_analysis_ids (cs_lineage spec));
  _ <-? require_all (require_design m) (cl_design_ids (cs_lineage spec));
  let spec := if str_is_empty (cs_template spec) then with_template (cs_template (cr_spec parent)) spec else spec in
  Ok (mkChange (push_candidate spec m) "forked candidate"
        [("candidate", cs_candidate_id spec); ("from", from_candidate_id); ("template", cs_template spec)]).

(* apps/sched-claw/crates/domain/src/experiment.rs, ExperimentCatalog::record_baseline *)
Definition change_record_baseline (run : RecordedRun) (m : ExperimentManifest) : result Change string :=
  Ok (mkChange (with_records (em_baseline_runs m ++ [run]) (em_evidence m) (em_analyses m) (em_designs m)
                  (em_candidates m) (em_decisions m) (em_deployments m) m)
        "recorded baseline" []).

(* apps/sched-claw/crates/domain/src/experiment.rs, ExperimentCatalog::record_evidence *)
Definition change_record_evidence (record : EvidenceRecord) (m : ExperimentManifest) : result Change string :=
  _ <-? refuse_if (existsb (fun e => String.eqb (ev_evidence_id e) (ev_evidence_id record)) (em_evidence m))
                  (already_exists "evidence" (ev_evidence_id record) m);
  _ <-? require_opt (require_candidate m) (ev_candidate_id record);
  Ok (mkChange (with_records (em_baseline_runs m) (em_evidence m ++ [record]) (em_analyses m) (em_designs m)
                  (em_candidates m) (em_decisions m) (em_deployments m) m)
        "recorded evidence"
        [("evidence", ev_evidence_id record); ("kind", evidence_as_str (ev_kind record));
         ("artifacts", fmt_nat (length (ev_artifact_paths record)))]).

(* apps/sched-claw/crates/domain/src/experiment.rs, ExperimentCatalog::record_analysis *)
Definition change_record_analysis (record : AnalysisRecord) (m : ExperimentManifest) : result Change string :=
  _ <-? refuse_if (existsb (fun a => String.eqb (an_analysis_id a) (an_analysis_id record)) (em_analyses m))
                  (already_exists "analysis" (an_analysis_id record) m);
  _ <-? require_all (require_evidence m) (an_evidence_ids record);
  Ok (mkChange (with_records (em_baseline_runs m) (em_evidence m) (em_analyses m ++ [record]) (em_designs m)
                  (em_candidates m) (em_decisions m) (em_deployments m) m)
        "recorded analysis"
        [("analysis", an_analysis_id record); ("confidence", confidence_as_str (an_confidence record));
         ("evidence_refs", fmt_nat (length (an_evidence_ids record)))]).

(* apps/sched-claw/crates/domain/src/experiment.rs, ExperimentCatalog::record_design *)
Definition change_record_design (record : DesignRecord) (m : ExperimentManifest) : result Change string :=
  _ <-? refuse_if (existsb (fun d => String.eqb (de_design_id d) (de_design_id record)) (em_designs m))
                  (already_exists "design" (de_design_id record) m);
  _ <-? require_opt (require_candidate m) (de_candidate_id record);
  _ <-? require_all (require_evidence m) (de_evidence_ids record);
  _ <-? require_all (require_analysis m) (de_analysis_ids record);
  Ok (mkChange (with_records (em_baseline_runs m) (em_evidence m) (em_analyses m) (em_designs m ++ [record])
                  (em_candidates m) (em_decisions m) (em_deployments m) m)
        "recorded design"
        [("design", de_design_id record); ("candidate", default "<none>" (de_candidate_id record));
         ("policy_levers", fmt_nat (length (de_policy_levers record)))]).

Definition push_run (run : RecordedRun) (c : CandidateRecord) : CandidateRecord :=
  mkCandidateRecord (cr_spec c) (cr_runs c ++ [run]) (cr_builds c).
Definition push_build (build : CandidateBuildRecord) (c : CandidateRecord) : CandidateRecord :=
  mkCandidateRecord (cr_spec c) (cr_runs c) (cr_builds c ++ [build]).

(** The index of the candidate and the candidate there. *)
Definition find_candidate (m : ExperimentManifest) (id : string) : result (nat * CandidateRecord) string :=
  ok_or (i ← position (fun c => String.eqb (cr_id c) id) (em_candidates m);
         c ← em_candidates m !! i; Some (i, c))
        (unknown_candidate m id).

(* apps/sched-claw/crates/domain/src/experiment.rs, ExperimentCatalog::record_candidate *)
Definition change_record_candidate (id : string) (run : RecordedRun) (m : ExperimentManifest)
    : result Change string :=
  found <-? find_candidate m id;
  _ <-? ensure_candidate_run_allowed m found.2;
  Ok (mkChange (with_candidates (<[found.1 := push_run run found.2]> (em_candidates m)) m)
        "recorded candidate" [("candidate", id)]).

(* apps/sched-claw/crates/domain/src/experiment.rs, ExperimentCatalog::record_candidate_build *)
Definition change_record_candidate_build (id : string) (build : CandidateBuildRecord) (m : ExperimentManifest)
    : result Change string :=
  found <-? find_candidate m id;
  _ <-? ensure_candidate_build_allowed m;
  Ok (mkChange (with_candidates (<[found.1 := push_build build found.2]> (em_candidates m)) m)
        "recorded build"
        [("candidate", id); ("build", command_as_str (sc_status (cb_build build)));
         ("verify", command_as_str (vc_status (cb_verifier build))); ("artifact_dir", cb_artifact_dir build)]).

(* apps/sched-claw/crates/domain/src/experiment.rs, ExperimentCatalog::record_deployment *)
Definition change_record_deployment (record : DeploymentRecord) (m : ExperimentManifest) : result Change string :=
  Ok (mkChange (with_records (em_baseline_runs m) (em_evidence m) (em_analyses m) (em_designs m)
                  (em_candidates m) (em_decisions m) (em_deployments m ++ [record]) m)
        "recorded deployment"
        [("candidate", dr_candidate_id record); ("label", dr_label record);
         ("daemon_pid", fmt_N (dr_daemon_pid record))]).

(* apps/sched-claw/crates/domain/src/experiment.rs, ExperimentCatalog::set_evaluation_policy *)
Definition change_evaluation_policy (policy : EvaluationPolicy) (m : ExperimentManifest) : result Change string :=
  Ok (mkChange (with_policies (em_collection_policy m) policy (em_search_policy m) m)
        "updated evaluation policy" [("policy", evaluation_summary policy)]).

(* apps/sched-claw/crates/domain/src/experiment.rs, ExperimentCatalog::set_collection_policy *)
Definition change_collection_policy (policy : CollectionPolicy) (m : ExperimentManifest) : result Change string :=
  Ok (mkChange (with_policies policy (em_evaluation_policy m) (em_search_policy m) m)
        "updated collection policy" [("policy", collection_summary policy)]).

(* apps/sched-claw/crates/domain/src/experiment.rs, ExperimentCatalog::set_search_policy *)
Definition change_search_policy (policy : SearchPolicy) (m : ExperimentManifest) : result Change string :=
  Ok (mkChange (with_policies (em_collection_policy m) (em_evaluation_policy m) policy m)
        "updated search policy" [("policy", search_summary policy)]).

(* apps/sched-claw/crates/domain/src/experiment.rs, ExperimentCatalog::record_decision *)
Definition change_record_decision (record : CandidateDecisionRecord) (m : ExperimentManifest)
    : result Change string :=
  _ <-? refuse_if (existsb (fun d => String.eqb (cd_decision_id d) (cd_decision_id record)) (em_decisions m))
                  (already_exists "decision" (cd_decision_id record) m);
  _ <-? require_candidate m (cd_candidate_id record);
  _ <-? require_all (require_evidence m) (cd_evidence_ids record);
  _ <-? require_all (require_analysis m) (cd_analysis_ids record);
  _ <-? require_all (require_design m) (cd_design_ids record);
  Ok (mkChange (with_records (em_baseline_runs m) (em_evidence m) (em_analyses m) (em_designs m)
                  (em_candidates m) (em_decisions m ++ [record]) (em_deployments m) m)
        "recorded decision"
        [("decision", cd_decision_id record); ("candidate", cd_candidate_id record);
         ("status", decision_as_str (cd_decision record))]).

(** The calls that change an experiment that exists.  A call checks its own arguments
    before it loads the manifest. *)
Inductive ExperimentCall :=
| Call_AddCandidate (spec : CandidateSpec)
| Call_SetCandidate (spec : CandidateSpec)
| Call_ForkCandidate (from_candidate_id : string) (spec : CandidateSpec)
| Call_RecordBaseline (run : RecordedRun)
| Call_RecordEvidence (record : EvidenceRecord)
| Call_RecordAnalysis (record : AnalysisRecord)
| Call_RecordDesign (record : DesignRecord)
| Call_RecordCandidate (candidate_id : string) (run : RecordedRun)
| Call_RecordCandidateBuild (candidate_id : string) (build : CandidateBuildRecord)
| Call_RecordDeployment (record : DeploymentRecord)
| Call_SetEvaluationPolicy (policy : EvaluationPolicy)
| Call_SetCollectionPolicy (policy : CollectionPolicy)
| Call_SetSearchPolicy (policy : SearchPolicy)
| Call_RecordDecision (record : CandidateDecisionRecord).

Definition call_validate (call : ExperimentCall) : result unit string :=
  match call with
  | Call_AddCandidate spec | Call_SetCandidate spec | Call_ForkCandidate _ spec =>
      validate_identifier "candidate id" (cs_candidate_id spec)
  | Call_RecordEvidence r => validate_identifier "evidence id" (ev_evidence_id r)
  | Call_RecordAnalysis r => validate_identifier "analysis id" (an_analysis_id r)
  | Call_RecordDesign r => validate_identifier "design id" (de_design_id r)
  | Call_RecordDecision r => validate_identifier "decision id" (cd_decision_id r)
  | Call_SetEvaluationPolicy p => evaluation_validate p
  | Call_SetCollectionPolicy p => collection_validate p
  | Call_SetSearchPolicy p => search_validate p
  | Call_RecordBaseline _ | Call_RecordCandidate _ _ | Call_RecordCandidateBuild _ _
  | Call_RecordDeployment _ => Ok tt
  end.

Definition call_change (call : ExperimentCall) : ExperimentManifest -> result Change string :=
  match call with
  | Call_AddCandidate spec => change_add_candidate spec
  | Call_SetCandidate spec => change_set_candidate spec
  | Call_ForkCandidate from spec => change_fork_candidate from spec
  | Call_RecordBaseline run => change_record_baseline run
  | Call_RecordEvidence r => change_record_evidence r
  | Call_RecordAnalysis r => change_record_analysis r
  | Call_RecordDesign r => change_record_design r
  | Call_RecordCandidate id run => change_record_candidate id run
  | Call_RecordCandidateBuild id build => change_record_candidate_build id build
  | Call_RecordDeployment r => change_record_deployment r
  | Call_SetEvaluationPolicy p => change_evaluation_policy p
  | Call_SetCollectionPolicy p => change_collection_policy p
  | Call_SetSearchPolicy p => change_search_policy p
  | Call_RecordDecision r => change_record_decision r
  end.

(** ** The catalog *)

Section Catalog.
Context `{ExperimentFiles}.

(* apps/sched-claw/crates/domain/src/experiment.rs, ExperimentCatalog::open *)
Definition open_catalog (fs : efs) (workspace_root : PathBuf) : result ExperimentCatalog string * efs :=
  let experiments_root := experiments_dir workspace_root in
  let '(made, fs) := efs_create_dir_all fs experiments_root in
  (match made with
   | Ok _ => Ok (mkExperimentCatalog workspace_root experiments_root)
   | Err _ => Err ("failed to create sched-claw experiments root " +:+ path_display experiments_root)
   end, fs).

(** [with_context]. *)
Definition with_context {A} (r : result A string) (message : string) : result A string :=
  match r with Ok a => Ok a | Err _ => Err message end.

(* apps/sched-claw/crates/domain/src/experiment.rs, read_manifest *)
Definition read_manifest (fs : efs) (path : PathBuf) : result ExperimentManifest string :=
  raw <-? with_context (efs_read fs path) ("failed to read experiment manifest " +:+ path_display path);
  manifest <-? with_context (parse_experiment raw) ("failed to parse experiment manifest " +:+ path_display path);
  if negb (em_version manifest =? EXPERIMENT_VERSION)%N then
    Err ("unsupported experiment manifest version " +:+ fmt_N (em_version manifest) +:+ " in " +:+ path_display path)
  else Ok manifest.

(* apps/sched-claw/crates/domain/src/experiment.rs, write_manifest *)
Definition write_manifest (fs : efs) (path : PathBuf) (manifest : ExperimentManifest) : result unit string * efs :=
  let '(made, fs) := match path_parent path with
                     | Some parent =>
                         let '(r, fs) := efs_create_dir_all fs parent in
                         (with_context r ("failed to create " +:+ path_display parent), fs)
                     | None => (Ok tt, fs)
                     end in
  match made with
  | Err e => (Err e, fs)
  | Ok _ =>
      match render_experiment manifest with
      | Err _ => (Err "failed to render experiment manifest as TOML", fs)
      | Ok rendered =>
          let '(r, fs) := efs_write fs path rendered in
          (with_context r ("failed to write experiment manifest " +:+ path_display path), fs)
      end
  end.

(* apps/sched-claw/crates/domain/src/experiment.rs, touch_manifest *)
Definition touch_manifest (now : N) (manifest : ExperimentManifest) : ExperimentManifest :=
  with_updated_at now manifest.

Definition summarize (path : PathBuf) (m : ExperimentManifest) : ExperimentSummary :=
  mkExperimentSummary (em_experiment_id m) path (em_updated_at_unix_ms m) (wl_name (em_workload m))
    (mt_name (em_primary_metric m)) (length (em_baseline_runs m)) (length (em_evidence m)) (length (em_analyses m))
    (length (em_designs m)) (length (em_candidates m)) (length (em_decisions m)) (length (em_deployments m)).

(** One entry of the experiments root: [None] when it holds no manifest. *)
Definition list_entry (fs : efs) (entry : result PathBuf string) : result (option ExperimentSummary) string :=
  path <-? entry;
  let manifest_path := if efs_is_dir fs path then path_join path [MANIFEST_FILE_NAME] else path in
  if negb (efs_is_file fs manifest_path) then Ok None
  else manifest <-? read_manifest fs manifest_path; Ok (Some (summarize manifest_path manifest)).

Definition summary_cmp (left right : ExperimentSummary) : comparison :=
  then_with (N.compare (es_updated_at_unix_ms right) (es_updated_at_unix_ms left))
    (String.compare (es_experiment_id left) (es_experiment_id right)).
Definition summary_le (left right : ExperimentSummary) : Prop := summary_cmp left right <> Gt.
#[global] Instance summary_le_dec left right : Decision (summary_le left right).
Proof. unfold summary_le. apply _. Defined.

(* apps/sched-claw/crates/domain/src/experiment.rs, ExperimentCatalog::list *)
Definition list_experiments (fs : efs) (c : ExperimentCatalog) : result (list ExperimentSummary) string :=
  entries <-? with_context (efs_read_dir fs (ec_experiments_root c))
                ("failed to read experiments root " +:+ path_display (ec_experiments_root c));
  summaries <-? map_result (list_entry fs) entries;
  Ok (merge_sort summary_le (omap id summaries)).

(* apps/sched-claw/crates/domain/src/experiment.rs, ExperimentCatalog::resolve_reference *)
Definition resolve_reference (fs : efs) (c : ExperimentCatalog) (reference : string) : result PathBuf string :=
  let reference := trim reference in
  if str_is_empty reference then Err "experiment reference cannot be empty"
  else if String.eqb reference "last" then
    summaries <-? list_experiments fs c;
    ok_or (es_manifest_path <$> head summaries) "no persisted experiments found"
  else
    let candidate := path_of_string reference in
    let direct := if is_absolute candidate then candidate else path_join (ec_workspace_root c) candidate in
    if efs_is_file fs direct then Ok direct
    else if efs_is_dir fs direct && efs_is_file fs (path_join direct [MANIFEST_FILE_NAME]) then
      Ok (path_join direct [MANIFEST_FILE_NAME])
    else
      let manifest_path := manifest_path_for_id c reference in
      if efs_is_file fs manifest_path then Ok manifest_path
      else Err ("unknown experiment id or manifest path: " +:+ reference).

(* apps/sched-claw/crates/domain/src/experiment.rs, ExperimentCatalog::load *)
Definition load_experiment (fs : efs) (c : ExperimentCatalog) (reference : string)
    : result LoadedExperiment string :=
  manifest_path <-? resolve_reference fs c reference;
  manifest <-? read_manifest fs manifest_path;
  Ok (mkLoadedExperiment manifest_path manifest).

(* apps/sched-claw/crates/domain/src/experiment.rs, ExperimentCatalog::init *)
Definition init_experiment (fs : efs) (c : ExperimentCatalog) (now : N) (host : HostFingerprint)
    (spec : ExperimentInitSpec) : result ExperimentArtifact string * efs :=
  let id := is_experiment_id spec in
  let manifest_path := manifest_path_for_id c id in
  match _ <-? validate_identifier "experiment id" id;
        _ <-? performance_validate (is_performance_policy spec);
        _ <-? collection_validate (is_collection_policy spec);
        _ <-? evaluation_validate (is_evaluation_policy spec);
        _ <-? search_validate (is_search_policy spec);
        refuse_if (efs_exists fs manifest_path)
          ("experiment " +:+ id +:+ " already exists at " +:+ path_display manifest_path) with
  | Err e => (Err e, fs)
  | Ok _ =>
      let manifest :=
        mkExperimentManifest EXPERIMENT_VERSION id now now host (is_workload spec) (is_primary_metric spec)
          (is_performance_policy spec) (is_collection_policy spec) (is_evaluation_policy spec)
          (is_search_policy spec) (is_guardrails spec) [] [] [] [] [] [] [] in
      let '(written, fs) := write_manifest fs manifest_path manifest in
      match written with
      | Err e => (Err e, fs)
      | Ok _ =>
          let '(made, fs) := efs_create_dir_all fs (artifacts_dir_for_id c id) in
          (match made with
           | Err _ => Err ("failed to create artifacts directory for experiment " +:+ id)
           | Ok _ => Ok (mkExperimentArtifact "initialized" id manifest_path [])
           end, fs)
      end
  end.

(** The steps the changing calls share: check the arguments, load the manifest, change
    it, touch it and write it. *)
Definition run_call (fs : efs) (c : ExperimentCatalog) (now : N) (reference : string) (call : ExperimentCall)
    : result ExperimentArtifact string * efs :=
  match _ <-? call_validate call;
        loaded <-? load_experiment fs c reference;
        change <-? call_change call (le_manifest loaded);
        Ok (le_manifest_path loaded, change) with
  | Err e => (Err e, fs)
  | Ok (path, change) =>
      let manifest := touch_manifest now (ch_manifest change) in
      let '(written, fs) := write_manifest fs path manifest in
      (_ <-? written;
       Ok (mkExperimentArtifact (ch_action change) (em_experiment_id manifest) path (ch_details change)), fs)
  end.

(* apps/sched-claw/crates/domain/src/experiment.rs, ExperimentCatalog::score *)
Definition score (fs : efs) (c : ExperimentCatalog) (reference : string) : result ExperimentScoreReport string :=
  loaded <-? load_experiment fs c reference;
  let m := le_manifest loaded in
  let baseline_metrics := map rr_metrics (em_baseline_runs m) in
  Ok (mkExperimentScoreReport (em_experiment_id m) (le_manifest_path loaded) (em_primary_metric m)
        (em_evaluation_policy m) (length (em_baseline_runs m))
        (median_metric (mt_name (em_primary_metric m)) baseline_metrics)
        (relative_spread_pct (mt_name (em_primary_metric m)) baseline_metrics)
        (map (score_candidate (em_primary_metric m) (em_evaluation_policy m) (em_guardrails m)
                (em_baseline_runs m)) (em_candidates m))).

End Catalog.
