(* ===== verification/SchedProps.v ===== *)
(** * sched-claw: what the experiment catalog guarantees

    The manifests the catalog writes are sound (ids are unique, every reference but that of a
    deployment names a record of the manifest, policies are valid), the search policy bounds what is recorded,
    and the score of a candidate depends on its measurements only. *)

From Stdlib Require Import Ascii String ZArith SpecFloat.
From stdpp Require Import base list gmap sets sorting strings pretty.
From Stdlib Require Import Lia.
From S2P Require Import Prelude Text BTree Message WriteLease SandboxPolicy PathPolicy StoreSearch StoreOrder.
From S2P Require Import Float64 SchedMetrics SchedExperiment SchedCatalog.

Create HintDb sched discriminated.

(** ** Sound manifests *)

Section Sound.
Variable m : ExperimentManifest.

Definition candidate_ids : list string := map cr_id (em_candidates m).
Definition evidence_ids : list string := map ev_evidence_id (em_evidence m).
Definition analysis_ids : list string := map an_analysis_id (em_analyses m).
Definition design_ids : list string := map de_design_id (em_designs m).
Definition decision_ids : list string := map cd_decision_id (em_decisions m).

Definition well_named (id : string) : Prop := validate_identifier "" id = Ok tt.
Definition known_candidate (id : option string) : Prop := forall c, id = Some c -> c ∈ candidate_ids.

(** References to the records of the manifest. *)
Definition refs_known (candidate : option string) (evidence analyses designs : list string) : Prop :=
  known_candidate candidate /\ evidence ⊆ evidence_ids /\ analyses ⊆ analysis_ids /\ designs ⊆ design_ids.

Definition lineage_known (c : CandidateRecord) : Prop :=
  let l := cs_lineage (cr_spec c) in
  refs_known (cl_parent_candidate_id l) (cl_evidence_ids l) (cl_analysis_ids l) (cl_design_ids l).
Definition evidence_known (e : EvidenceRecord) : Prop := refs_known (ev_candidate_id e) [] [] [].
Definition analysis_known (a : AnalysisRecord) : Prop := refs_known None (an_evidence_ids a) [] [].
Definition design_known (d : DesignRecord) : Prop :=
  refs_known (de_candidate_id d) (de_evidence_ids d) (de_analysis_ids d) [].
Definition decision_known (d : CandidateDecisionRecord) : Prop :=
  refs_known (Some (cd_candidate_id d)) (cd_evidence_ids d) (cd_analysis_ids d) (cd_design_ids d).

Record policies_ok : Prop := {
  po_performance : performance_validate (em_performance_policy m) = Ok tt;
  po_collection : collection_validate (em_collection_policy m) = Ok tt;
  po_evaluation : evaluation_validate (em_evaluation_policy m) = Ok tt;
  po_search : search_validate (em_search_policy m) = Ok tt
}.

Record manifest_ok : Prop := {
  mo_policies : policies_ok;
  mo_candidates : NoDup candidate_ids /\ Forall well_named candidate_ids;
  mo_evidence : NoDup evidence_ids /\ Forall well_named evidence_ids;
  mo_analyses : NoDup analysis_ids /\ Forall well_named analysis_ids;
  mo_designs : NoDup design_ids /\ Forall well_named design_ids;
  mo_decisions : NoDup decision_ids /\ Forall well_named decision_ids;
  mo_lineages : Forall lineage_known (em_candidates m);
  mo_evidence_refs : Forall evidence_known (em_evidence m);
  mo_analysis_refs : Forall analysis_known (em_analyses m);
  mo_design_refs : Forall design_known (em_designs m);
  mo_decision_refs : Forall decision_known (em_decisions m)
}.
End Sound.

Lemma existsb_ids {A} (f : A -> string) id l : existsb (fun x => String.eqb (f x) id) l = bool_decide (id ∈ map f l).
Proof.
  apply Bool.eq_iff_eq_true. rewrite existsb_exists, bool_decide_eq_true, list_elem_of_fmap.
  split; intros (x & H1 & H2); exists x; rewrite list_elem_of_In in *; rewrite String.eqb_eq in *; auto.
Qed.

Lemma require_all_Ok check ids : require_all check ids = Ok tt -> Forall (fun id => check id = Ok tt) ids.
Proof.
  induction ids as [|id ids IH]; simpl; [constructor|]. destruct (check id) as [[]|] eqn:E; simpl; [|done]. auto.
Qed.

Lemma require_candidate_Ok m id : require_candidate m id = Ok tt -> id ∈ candidate_ids m.
Proof. unfold require_candidate. rewrite existsb_ids. by case_bool_decide. Qed.
Lemma require_evidence_Ok m id : require_evidence m id = Ok tt -> id ∈ evidence_ids m.
Proof. unfold require_evidence. rewrite existsb_ids. by case_bool_decide. Qed.
Lemma require_analysis_Ok m id : require_analysis m id = Ok tt -> id ∈ analysis_ids m.
Proof. unfold require_analysis. rewrite existsb_ids. by case_bool_decide. Qed.
Lemma require_design_Ok m id : require_design m id = Ok tt -> id ∈ design_ids m.
Proof. unfold require_design. rewrite existsb_ids. by case_bool_decide. Qed.

Lemma require_opt_candidate m o : require_opt (require_candidate m) o = Ok tt -> known_candidate m o.
Proof. intros H c ->. by apply require_candidate_Ok. Qed.
Lemma require_all_in check ids known :
  (forall id, check id = Ok tt -> id ∈ known) -> require_all check ids = Ok tt -> ids ⊆ known.
Proof. intros Hc H%require_all_Ok id Hid. apply Hc. by eapply Forall_forall in H. Qed.

Lemma validate_lineage_known m l :
  validate_candidate_lineage m l = Ok tt ->
  refs_known m (cl_parent_candidate_id l) (cl_evidence_ids l) (cl_analysis_ids l) (cl_design_ids l).
Proof.
  unfold validate_candidate_lineage. intros H. inv_result. destruct_all unit.
  split_and!; [by apply require_opt_candidate | eapply require_all_in; [|done]..].
  - apply require_evidence_Ok. - apply require_analysis_Ok. - apply require_design_Ok.
Qed.

(** References stay known while the records a manifest has only grow. *)
Definition grows (m m' : ExperimentManifest) : Prop :=
  candidate_ids m ⊆ candidate_ids m' /\ evidence_ids m ⊆ evidence_ids m' /\ analysis_ids m ⊆ analysis_ids m'
  /\ design_ids m ⊆ design_ids m'.

Lemma refs_grow m m' c e a d : grows m m' -> refs_known m c e a d -> refs_known m' c e a d.
Proof.
  intros (Hc & He & Ha & Hd) (H1 & H2 & H3 & H4).
  split_and!; [intros x Hx; by apply Hc, H1 | by etrans..].
Qed.

Lemma ids_push {A} (f : A -> string) l x :
  NoDup (map f l) /\ Forall well_named (map f l) -> f x ∉ map f l -> well_named (f x) ->
  NoDup (map f (l ++ [x])) /\ Forall well_named (map f (l ++ [x])).
Proof.
  intros [H1 H2] Hx Hn. rewrite map_app. simpl. split; [|apply Forall_app; auto].
  apply NoDup_app. split_and!; [done| |apply NoDup_singleton].
  intros y Hy ->%list_elem_of_singleton. done.
Qed.

Lemma validate_named kind id : validate_identifier kind id = Ok tt -> well_named id.
Proof. unfold well_named, validate_identifier. by repeat case_match. Qed.

Lemma refuse_if_Ok b e : refuse_if b e = Ok tt -> b = false.
Proof. by destruct b. Qed.

Lemma push_subset {A} (f : A -> string) l x : map f l ⊆ map f (l ++ [x]).
Proof. intros y Hy. rewrite map_app. apply elem_of_app. by left. Qed.

Definition ids_ok (ids : list string) : Prop := NoDup ids /\ Forall well_named ids.

(** A manifest that grew is sound when its ids are, and its references are known in the
    manifest it grew from. *)
Lemma grown_ok m m' :
  grows m m' -> policies_ok m' ->
  ids_ok (candidate_ids m') -> ids_ok (evidence_ids m') -> ids_ok (analysis_ids m') -> ids_ok (design_ids m') ->
  ids_ok (decision_ids m') ->
  Forall (lineage_known m) (em_candidates m') -> Forall (evidence_known m) (em_evidence m') ->
  Forall (analysis_known m) (em_analyses m') -> Forall (design_known m) (em_designs m') ->
  Forall (decision_known m) (em_decisions m') -> manifest_ok m'.
Proof.
  intros Hg ? ? ? ? ? ? H1 H2 H3 H4 H5. constructor; try assumption.
  - eapply Forall_impl; [exact H1 | intros x; by apply refs_grow].
  - eapply Forall_impl; [exact H2 | intros x; by apply refs_grow].
  - eapply Forall_impl; [exact H3 | intros x; by apply refs_grow].
  - eapply Forall_impl; [exact H4 | intros x; by apply refs_grow].
  - eapply Forall_impl; [exact H5 | intros x; by apply refs_grow].
Qed.

(** What a change of a sound manifest leaves alone, and one record appended. *)
Ltac kept Hm := first [exact (mo_candidates _ Hm) | exact (mo_evidence _ Hm) | exact (mo_analyses _ Hm)
  | exact (mo_designs _ Hm) | exact (mo_decisions _ Hm) | exact (mo_lineages _ Hm) | exact (mo_evidence_refs _ Hm)
  | exact (mo_analysis_refs _ Hm) | exact (mo_design_refs _ Hm) | exact (mo_decision_refs _ Hm)
  | destruct (mo_policies _ Hm); split; assumption ].
Ltac grown Hm :=
  match type of Hm with manifest_ok ?m => apply (grown_ok m) end; cycle 1;
  [ kept Hm
  | first [kept Hm | apply (ids_push cr_id); [kept Hm | assumption..]]
  | first [kept Hm | apply (ids_push ev_evidence_id); [kept Hm | assumption..]]
  | first [kept Hm | apply (ids_push an_analysis_id); [kept Hm | assumption..]]
  | first [kept Hm | apply (ids_push de_design_id); [kept Hm | assumption..]]
  | first [kept Hm | apply (ids_push cd_decision_id); [kept Hm | assumption..]]
  | first [kept Hm | apply Forall_app; split; [kept Hm | apply Forall_singleton; assumption]] ..
  | split_and!; first [apply push_subset | reflexivity] ].

Lemma push_candidate_ok m spec :
  manifest_ok m -> well_named (cs_candidate_id spec) -> cs_candidate_id spec ∉ candidate_ids m ->
  lineage_known m (mkCandidateRecord spec [] []) -> manifest_ok (push_candidate spec m).
Proof. intros Hm Hn Hf Hl. grown Hm. Qed.

Lemma replace_spec_ids spec l : map cr_id (replace_spec spec l) = map cr_id l.
Proof.
  induction l as [|c l IH]; simpl; [done|]. case_match eqn:E; simpl; [|by rewrite IH].
  apply String.eqb_eq in E. unfold cr_id in *. simpl. by rewrite E.
Qed.

Lemma replace_spec_Forall (P : CandidateRecord -> Prop) spec l :
  (forall c, P c -> P (mkCandidateRecord spec (cr_runs c) (cr_builds c))) -> Forall P l ->
  Forall P (replace_spec spec l).
Proof.
  intros HP. induction 1 as [|c l Hc Hl IH]; simpl; [constructor|]. case_match; constructor; auto.
Qed.

Lemma find_candidate_Ok m id i c :
  find_candidate m id = Ok (i, c) -> em_candidates m !! i = Some c /\ cr_id c = id.
Proof.
  unfold find_candidate. destruct (position _ _) as [j|] eqn:Ej; simpl; [|done].
  apply position_Some in Ej as (x & Hx & Hid & _). rewrite Hx. simpl. intros [= -> ->].
  split; [done|]. by apply String.eqb_eq.
Qed.

(** A candidate that keeps its spec changes no id and no reference. *)
Lemma update_candidate_ok m i c c' :
  manifest_ok m -> em_candidates m !! i = Some c -> cr_spec c' = cr_spec c ->
  manifest_ok (with_candidates (<[i := c']> (em_candidates m)) m).
Proof.
  intros Hm Hi Hs.
  assert (Hids : map cr_id (<[i := c']> (em_candidates m)) = map cr_id (em_candidates m)).
  { change (map cr_id) with (fmap (M := list) cr_id). rewrite list_fmap_insert. apply list_insert_id. rewrite list_lookup_fmap, Hi. simpl. unfold cr_id. by rewrite Hs. }
  apply (grown_ok m); try kept Hm.
  - unfold grows, candidate_ids. simpl. rewrite Hids. done.
  - unfold candidate_ids. simpl. rewrite Hids. kept Hm.
  - apply Forall_insert; [kept Hm|]. pose proof (mo_lineages _ Hm) as Hl.
    eapply Forall_lookup_1 in Hl; [|exact Hi]. unfold lineage_known in *. by rewrite Hs.
Qed.

Lemma fresh_candidate m id e : refuse_if (has_candidate m id) e = Ok tt -> id ∉ candidate_ids m.
Proof. intros H%refuse_if_Ok. unfold has_candidate in H. rewrite existsb_ids in H. by case_bool_decide. Qed.

Lemma fresh_id {A} (f : A -> string) l x e :
  refuse_if (existsb (fun y => String.eqb (f y) (f x)) l) e = Ok tt -> f x ∉ map f l.
Proof. intros H%refuse_if_Ok. rewrite existsb_ids in H. by case_bool_decide. Qed.

Lemma nil_known (l : list string) : [] ⊆ l.
Proof. intros x Hx. by apply not_elem_of_nil in Hx. Qed.

Lemma all_evidence m ids : require_all (require_evidence m) ids = Ok tt -> ids ⊆ evidence_ids m.
Proof. apply require_all_in, require_evidence_Ok. Qed.
Lemma all_analyses m ids : require_all (require_analysis m) ids = Ok tt -> ids ⊆ analysis_ids m.
Proof. apply require_all_in, require_analysis_Ok. Qed.
Lemma all_designs m ids : require_all (require_design m) ids = Ok tt -> ids ⊆ design_ids m.
Proof. apply require_all_in, require_design_Ok. Qed.
Lemma no_candidate m : known_candidate m None.
Proof. by intros c. Qed.
Lemma one_candidate m id : require_candidate m id = Ok tt -> known_candidate m (Some id).
Proof. intros H c [= <-]. by apply require_candidate_Ok. Qed.
#[export] Hint Resolve nil_known all_evidence all_analyses all_designs no_candidate one_candidate
  require_opt_candidate : sched.

Ltac open_change H :=
  unfold change_add_candidate, change_set_candidate, change_fork_candidate, change_record_baseline,
    change_record_evidence, change_record_analysis, change_record_design, change_record_candidate,
    change_record_candidate_build, change_record_deployment, change_evaluation_policy,
    change_collection_policy, change_search_policy, change_record_decision in H;
  inv_result; destruct_all unit; simpl.

Section Preserve.
Variables (m : ExperimentManifest) (ch : Change).
Hypothesis Hm : manifest_ok m.

Lemma set_candidate_ok spec :
  well_named (cs_candidate_id spec) -> change_set_candidate spec m = Ok ch -> manifest_ok (ch_manifest ch).
Proof.
  intros Hn H. open_change H.
  assert (Hl : lineage_known m (mkCandidateRecord spec [] [])) by (by apply validate_lineage_known).
  destruct (has_candidate m (cs_candidate_id spec)) eqn:Eh; simpl.
  - apply (grown_ok m); try kept Hm.
    + unfold grows, candidate_ids. simpl. rewrite replace_spec_ids. done.
    + unfold candidate_ids. simpl. rewrite replace_spec_ids. kept Hm.
    + apply replace_spec_Forall; [done | kept Hm].
  - apply push_candidate_ok; [done..| |done]. unfold has_candidate in Eh. rewrite existsb_ids in Eh.
    by case_bool_decide.
Qed.

Lemma fork_candidate_ok from spec :
  well_named (cs_candidate_id spec) -> change_fork_candidate from spec m = Ok ch -> manifest_ok (ch_manifest ch).
Proof.
  intros Hn H. open_change H.
  assert (Hl : refs_known m (cl_parent_candidate_id (cs_lineage spec)) (cl_evidence_ids (cs_lineage spec))
                 (cl_analysis_ids (cs_lineage spec)) (cl_design_ids (cs_lineage spec))) by (split_and!; eauto with sched).
  destruct (str_is_empty _); apply push_candidate_ok; try done; by eapply fresh_candidate.
Qed.

Lemma record_ok call :
  call_validate call = Ok tt -> call_change call m = Ok ch ->
  match call with Call_SetCandidate _ | Call_ForkCandidate _ _ => False | _ => True end -> manifest_ok (ch_manifest ch).
Proof.
  destruct call; intros Hv H Hc; simpl in Hv, H; try done; open_change H;
    try (apply validate_named in Hv).
  - apply push_candidate_ok; [done..|by eapply fresh_candidate | by apply validate_lineage_known].
  - grown Hm.
  - assert (evidence_known m record) by (split_and!; eauto with sched).
    pose proof (fresh_id ev_evidence_id _ _ _ E). grown Hm.
  - assert (analysis_known m record) by (split_and!; eauto with sched).
    pose proof (fresh_id an_analysis_id _ _ _ E). grown Hm.
  - assert (design_known m record) by (split_and!; eauto with sched).
    pose proof (fresh_id de_design_id _ _ _ E). grown Hm.
  - destruct a as [i c]. apply find_candidate_Ok in E as [Hi _]. by eapply update_candidate_ok.
  - destruct a as [i c]. apply find_candidate_Ok in E as [Hi _]. by eapply update_candidate_ok.
  - grown Hm.
  - grown Hm.
  - grown Hm.
  - grown Hm.
  - assert (decision_known m record) by (split_and!; eauto with sched).
    pose proof (fresh_id cd_decision_id _ _ _ E). grown Hm.
Qed.

Lemma call_ok call :
  call_validate call = Ok tt -> call_change call m = Ok ch -> manifest_ok (ch_manifest ch).
Proof.
  intros Hv H. destruct call; try (by eapply record_ok).
  - eapply set_candidate_ok; [by eapply validate_named | done].
  - eapply fork_candidate_ok; [by eapply validate_named | done].
Qed.
End Preserve.

Lemma touch_ok now m : manifest_ok m -> manifest_ok (touch_manifest now m).
Proof. intros Hm. grown Hm. Qed.

(** ** Files *)

(** The text of a file that can be read. *)
Definition efs_text `{ExperimentFiles} (fs : efs) (p : PathBuf) : option toml_text :=
  match efs_read fs p with Ok t => Some t | Err _ => None end.

(** What the disk and the codec guarantee: creating directories changes no file, a
    successful write is read back and changes no other file ([same_file] holds of two names
    of one file), and a rendered manifest parses back to itself. *)
Class ExperimentFilesLaws (F : ExperimentFiles) := {
  same_file : PathBuf -> PathBuf -> bool;
  efs_same_refl : forall p, same_file p p = true;
  efs_same_text : forall fs p q, same_file p q = true -> efs_text fs p = efs_text fs q;
  efs_mkdir_text : forall fs p q, efs_text (efs_create_dir_all fs p).2 q = efs_text fs q;
  efs_write_same : forall fs p t, (efs_write fs p t).1 = Ok tt -> efs_text (efs_write fs p t).2 p = Some t;
  efs_write_other : forall fs p t q, same_file p q = false ->
    efs_text (efs_write fs p t).2 q = efs_text fs q;
  efs_codec : forall m t, render_experiment m = Ok t -> parse_experiment t = Ok m
}.

Section Files.
Context {F : ExperimentFiles} {L : ExperimentFilesLaws F}.

Lemma read_manifest_text fs fs' p :
  efs_text fs' p = efs_text fs p -> read_manifest fs' p = read_manifest fs p.
Proof.
  unfold efs_text, read_manifest. destruct (efs_read fs p), (efs_read fs' p); simpl; try done. by intros [= ->].
Qed.

Lemma read_manifest_same fs p q m :
  same_file p q = true -> read_manifest fs p = Ok m -> read_manifest fs q = Ok m.
Proof.
  intros Hs. pose proof (efs_same_text fs p q Hs) as Ht. unfold efs_text, read_manifest in *.
  destruct (efs_read fs p) as [t|], (efs_read fs q) as [t'|]; simpl in *; try done. injection Ht as ->.
  destruct (parse_experiment t') as [m'|]; simpl; [|done]. by destruct (negb _).
Qed.

(** A manifest that was written is what is read, and every other file is as it was. *)
Lemma write_manifest_Ok fs fs' p m :
  write_manifest fs p m = (Ok tt, fs') -> em_version m = EXPERIMENT_VERSION ->
  read_manifest fs' p = Ok m
  /\ forall q, same_file p q = false -> read_manifest fs' q = read_manifest fs q.
Proof.
  unfold write_manifest. intros H Hv.
  assert (Hparent : forall made fs1,
    match path_parent p with
    | Some parent => let '(r, fs0) := efs_create_dir_all fs parent in
                     (with_context r ("failed to create " +:+ path_display parent), fs0)
    | None => (Ok tt, fs)
    end = (made, fs1) -> forall q, efs_text fs1 q = efs_text fs q).
  { intros made fs1. destruct (path_parent p) as [parent|]; [|by intros [= <- <-]].
    pose proof (efs_mkdir_text fs parent) as Hm. destruct (efs_create_dir_all fs parent). by intros [= <- <-]. }
  destruct (match path_parent p with Some _ => _ | None => _ end) as [made fs1].
  specialize (Hparent _ _ eq_refl). destruct made as [?|?]; [|done].
  destruct (render_experiment m) as [t|] eqn:Er; [|done]. apply efs_codec in Er.
  pose proof (efs_write_same fs1 p t) as Hw. pose proof (efs_write_other fs1 p t) as Ho.
  destruct (efs_write fs1 p t) as [[[]|] fs2]; simpl in *; [|done]. injection H as <-. split.
  - specialize (Hw eq_refl). unfold read_manifest, efs_text in *. destruct (efs_read fs2 p); [|done].
    injection Hw as ->. simpl. rewrite Er. simpl. by rewrite Hv.
  - intros q Hq. apply read_manifest_text. by rewrite Ho, Hparent.
Qed.

(** What a call that succeeded did: the manifest its reference names was loaded and
    changed, the changed manifest is on disk, and no other file is different. *)
Lemma run_call_Ok fs fs' c now reference call artifact :
  run_call fs c now reference call = (Ok artifact, fs') ->
  exists path m ch,
    load_experiment fs c reference = Ok (mkLoadedExperiment path m) /\ read_manifest fs path = Ok m /\
    call_validate call = Ok tt /\ call_change call m = Ok ch /\
    artifact = mkExperimentArtifact (ch_action ch) (em_experiment_id (ch_manifest ch)) path (ch_details ch) /\
    write_manifest fs path (touch_manifest now (ch_manifest ch)) = (Ok tt, fs').
Proof.
  unfold run_call. destruct (call_validate call) as [[]|]; simpl; [|done].
  unfold load_experiment. destruct (resolve_reference fs c reference) as [path|] eqn:Er; simpl; [|done].
  destruct (read_manifest fs path) as [m|] eqn:Em; simpl; [|done].
  destruct (call_change call m) as [ch|] eqn:Ec; simpl; [|done].
  destruct (write_manifest _ _ _) as [[[]|] fs2] eqn:Ew; simpl; [|done].
  intros [= <- <-]. exists path, m, ch. by rewrite Em.
Qed.

Lemma call_version call m ch : call_change call m = Ok ch -> em_version (ch_manifest ch) = em_version m.
Proof.
  destruct call; simpl; intros H; open_change H; try done.
  by destruct (has_candidate _ _).
Qed.

Lemma read_version fs p m : read_manifest fs p = Ok m -> em_version m = EXPERIMENT_VERSION.
Proof.
  unfold read_manifest. intros H. inv_result. destruct (em_version _ =? _)%N eqn:E1; simpl in *; [|done].
  inv_result. by apply N.eqb_eq.
Qed.

Definition sound_files (fs : efs) : Prop := forall p m, read_manifest fs p = Ok m -> manifest_ok m.

(** A disk whose one changed manifest is sound. *)
Lemma sound_write fs fs' p m :
  sound_files fs -> manifest_ok m -> em_version m = EXPERIMENT_VERSION ->
  write_manifest fs p m = (Ok tt, fs') -> sound_files fs'.
Proof.
  intros Hs Hm Hv Hw. destruct (write_manifest_Ok _ _ _ _ Hw Hv) as [Hp Ho]. intros q m' Hq.
  destruct (same_file p q) eqn:E; [|rewrite Ho in Hq by done; by eapply Hs].
  pose proof (read_manifest_same fs' p q m E Hp). congruence.
Qed.

Lemma mkdir_sound fs p : sound_files fs -> sound_files (efs_create_dir_all fs p).2.
Proof.
  intros Hs q m Hq. apply (Hs q). rewrite <- Hq. symmetry. apply read_manifest_text, efs_mkdir_text.
Qed.

Definition fresh_manifest (now : N) (host : HostFingerprint) (spec : ExperimentInitSpec) : ExperimentManifest :=
  mkExperimentManifest EXPERIMENT_VERSION (is_experiment_id spec) now now host (is_workload spec)
    (is_primary_metric spec) (is_performance_policy spec) (is_collection_policy spec) (is_evaluation_policy spec)
    (is_search_policy spec) (is_guardrails spec) [] [] [] [] [] [] [].

Lemma init_Ok fs fs' c now host spec artifact :
  init_experiment fs c now host spec = (Ok artifact, fs') ->
  exists fs1, policies_ok (fresh_manifest now host spec)
    /\ well_named (is_experiment_id spec)
    /\ efs_exists fs (manifest_path_for_id c (is_experiment_id spec)) = false
    /\ write_manifest fs (manifest_path_for_id c (is_experiment_id spec)) (fresh_manifest now host spec) = (Ok tt, fs1)
    /\ fs' = (efs_create_dir_all fs1 (artifacts_dir_for_id c (is_experiment_id spec))).2.
Proof.
  unfold init_experiment.
  destruct (validate_identifier _ _) as [[]|] eqn:E1; [|done]. simpl.
  destruct (performance_validate _) as [[]|] eqn:E2; [|done]. simpl.
  destruct (collection_validate _) as [[]|] eqn:E3; [|done]. simpl.
  destruct (evaluation_validate _) as [[]|] eqn:E4; [|done]. simpl.
  destruct (search_validate _) as [[]|] eqn:E5; [|done]. simpl.
  destruct (refuse_if _ _) as [[]|] eqn:E6; [|done]. apply refuse_if_Ok in E6.
  destruct (write_manifest _ _ _) as [[[]|] fs1] eqn:Ew; [|done].
  destruct (efs_create_dir_all fs1 _) as [[[]|] fs2] eqn:Ed; [|done]. intros [= _ <-].
  exists fs1. split_and!; [by split | by eapply validate_named | done..|by rewrite Ed].
Qed.

Lemma fresh_ok now host spec : policies_ok (fresh_manifest now host spec) -> manifest_ok (fresh_manifest now host spec).
Proof. intros Hp. constructor; try done; constructor; constructor. Qed.

(** The operations of the catalog, as steps of the disk. *)
Inductive catalog_step (c : ExperimentCatalog) : efs -> efs -> Prop :=
| step_init fs now host spec artifact fs' :
    init_experiment fs c now host spec = (Ok artifact, fs') -> catalog_step c fs fs'
| step_call fs now reference call artifact fs' :
    run_call fs c now reference call = (Ok artifact, fs') -> catalog_step c fs fs'.

(** C25.  Starting from a disk whose manifests are sound (an empty experiments root is),
    every manifest on disk after any sequence of successful catalog operations is sound:
    the ids of its candidates, evidence, analyses, designs and decisions are unique valid
    identifiers; every candidate, evidence, analysis and design that the lineage of a candidate,
    an evidence, an analysis, a design or a decision names is a record of the same manifest;
    and its four policies pass their validation.  Deployment records are not covered: the
    catalog does not look at the candidate they name. *)
Theorem experiment_manifests_stay_sound c fs fs' :
  sound_files fs -> rtc (catalog_step c) fs fs' -> sound_files fs'.
Proof.
  intros Hs. induction 1 as [|fs fs1 fs2 Hstep _ IH]; [done|]. apply IH. clear IH.
  destruct Hstep as [fs now host spec artifact fs1 H | fs now reference call artifact fs1 H].
  - apply init_Ok in H as (fs3 & Hp & _ & _ & Hw & ->). apply mkdir_sound.
    eapply sound_write; [done | by apply fresh_ok | done | exact Hw].
  - apply run_call_Ok in H as (path & m & ch & _ & Hr & Hv & Hc & _ & Hw).
    eapply sound_write; [done| | |exact Hw].
    + apply touch_ok. eapply call_ok; [by eapply Hs | done..].
    + simpl. rewrite (call_version _ _ _ Hc). by eapply read_version.
Qed.

(** A catalog call that succeeds leaves on disk, at the path it reports, exactly the
    manifest it loaded with the call's change applied and the update time set, reports
    that change, and alters no other file's manifest; a successful [init] wrote the fresh
    manifest at a path that did not exist. *)
Theorem experiment_calls_recorded c fs fs' now :
  (forall reference call artifact,
     run_call fs c now reference call = (Ok artifact, fs') ->
     exists m ch,
       load_experiment fs c reference = Ok (mkLoadedExperiment (ea_manifest_path artifact) m) /\
       call_change call m = Ok ch /\ ea_details artifact = ch_details ch /\
       read_manifest fs' (ea_manifest_path artifact) = Ok (touch_manifest now (ch_manifest ch)) /\
       forall q, same_file (ea_manifest_path artifact) q = false -> read_manifest fs' q = read_manifest fs q)
  /\ (forall host spec artifact,
     init_experiment fs c now host spec = (Ok artifact, fs') ->
     let path := manifest_path_for_id c (is_experiment_id spec) in
     efs_exists fs path = false /\ read_manifest fs' path = Ok (fresh_manifest now host spec) /\
     forall q, same_file path q = false -> read_manifest fs' q = read_manifest fs q).
Proof.
  split.
  - intros reference call artifact (path & m & ch & Hl & Hr & _ & Hc & -> & Hw)%run_call_Ok. simpl.
    exists m, ch. destruct (write_manifest_Ok _ _ _ _ Hw) as [Hp Ho]; [|done].
    simpl. rewrite (call_version _ _ _ Hc). by eapply read_version.
  - intros host spec artifact (fs1 & _ & _ & Hx & Hw & ->)%init_Ok. simpl.
    destruct (write_manifest_Ok _ _ _ _ Hw eq_refl) as [Hp Ho].
    assert (Hd : forall q, read_manifest (efs_create_dir_all fs1 (artifacts_dir_for_id c (is_experiment_id spec))).2 q
                           = read_manifest fs1 q) by (intros q; apply read_manifest_text, efs_mkdir_text).
    split_and!; [done | by rewrite Hd | intros q Hq; rewrite Hd; auto].
Qed.

End Files.

(** ** Search budgets *)

Definition within (limit : option nat) (count : nat) : Prop := forall n, limit = Some n -> (count <= n)%nat.

(** The counts the search policy bounds. *)
Record within_budget (m : ExperimentManifest) : Prop := {
  wb_candidates : within (sp_max_candidates (em_search_policy m)) (length (em_candidates m));
  wb_runs : within (sp_max_total_candidate_runs (em_search_policy m)) (count_total_candidate_runs m);
  wb_each : Forall (fun c => within (sp_max_runs_per_candidate (em_search_policy m)) (length (cr_runs c)))
              (em_candidates m);
  wb_builds : within (sp_max_total_builds (em_search_policy m)) (count_total_builds m)
}.

(** What the search has spent: candidates, runs and builds. *)
Definition spent (m : ExperimentManifest) : list string * nat * nat :=
  (candidate_ids m, count_total_candidate_runs m, count_total_builds m).

(** The search is over: a candidate was promoted and the policy stops there. *)
Definition search_over (m : ExperimentManifest) : Prop := is_ok (enforce_search_policy_stop m) = false.

Lemma below_limit_Ok limit count msg : below_limit limit count msg = Ok tt -> within limit (S count).
Proof. intros H n ->. simpl in H. destruct (Nat.leb_spec n count); [done|lia]. Qed.

Lemma sum_insert {A} (f : A -> nat) l i x y :
  l !! i = Some x -> (sum_list_with f (<[i := y]> l) + f x = sum_list_with f l + f y)%nat.
Proof.
  revert i. induction l as [|z l IH]; intros [|i] Hi; simpl in *; [done|done|injection Hi as ->; lia|].
  specialize (IH _ Hi). lia.
Qed.

Lemma replace_spec_sum (f : CandidateRecord -> nat) spec l :
  (forall c s, f (mkCandidateRecord s (cr_runs c) (cr_builds c)) = f c) ->
  sum_list_with f (replace_spec spec l) = sum_list_with f l.
Proof. intros Hf. induction l as [|c l IH]; simpl; [done|]. case_match; simpl; [by rewrite Hf | by rewrite IH]. Qed.

Lemma replace_spec_length spec l : length (replace_spec spec l) = length l.
Proof. induction l as [|c l IH]; simpl; [done|]. case_match; simpl; auto. Qed.

Lemma replace_spec_spent spec m :
  spent (with_candidates (replace_spec spec (em_candidates m)) m) = spent m.
Proof.
  unfold spent, candidate_ids, count_total_candidate_runs, count_total_builds. simpl.
  by rewrite replace_spec_ids, !replace_spec_sum.
Qed.

Lemma push_candidate_budget spec m :
  enforce_candidate_add_policy m = Ok tt -> within_budget m -> within_budget (push_candidate spec m).
Proof.
  unfold enforce_candidate_add_policy. intros H [Hc Hr He Hb]. inv_result.
  destruct (enforce_search_policy_stop m); simpl in *; [|done]. constructor; simpl.
  - rewrite length_app. simpl. rewrite Nat.add_1_r. by eapply below_limit_Ok.
  - unfold count_total_candidate_runs in *. simpl. rewrite sum_list_with_app. simpl. by rewrite Nat.add_0_r.
  - apply Forall_app. split; [done|]. apply Forall_singleton. intros n _. simpl. lia.
  - unfold count_total_builds in *. simpl. rewrite sum_list_with_app. simpl. by rewrite Nat.add_0_r.
Qed.

Lemma add_policy_open m : enforce_candidate_add_policy m = Ok tt -> search_over m -> False.
Proof.
  unfold enforce_candidate_add_policy, search_over. by destruct (enforce_search_policy_stop m) as [[]|].
Qed.

Lemma record_run_budget m i c run :
  em_candidates m !! i = Some c -> ensure_candidate_run_allowed m c = Ok tt -> within_budget m ->
  within_budget (with_candidates (<[i := push_run run c]> (em_candidates m)) m).
Proof.
  unfold ensure_candidate_run_allowed. intros Hi H [Hc Hr He Hb].
  destruct (enforce_search_policy_stop m); simpl in H; [|done].
  destruct (below_limit (sp_max_total_candidate_runs _) _ _) as [[]|] eqn:E; simpl in H; [|done].
  assert (Hl : length (cr_runs (push_run run c)) = S (length (cr_runs c))) by (simpl; rewrite length_app; simpl; lia).
  constructor; simpl.
  - by rewrite length_insert.
  - unfold count_total_candidate_runs in *. simpl.
    pose proof (sum_insert (fun c => length (cr_runs c)) _ _ _ (push_run run c) Hi) as Hs. cbv beta in Hs. rewrite Hl in Hs.
    intros n Hn. apply below_limit_Ok in E. specialize (E n Hn). simpl in *. lia.
  - apply Forall_insert; [done|]. rewrite Hl. by eapply below_limit_Ok.
  - unfold count_total_builds in *. simpl.
    pose proof (sum_insert (fun c => length (cr_builds c)) _ _ _ (push_run run c) Hi) as Hs. simpl in Hs.
    intros n Hn. specialize (Hb n Hn). lia.
Qed.

Lemma record_build_budget m i c build :
  em_candidates m !! i = Some c -> ensure_candidate_build_allowed m = Ok tt -> within_budget m ->
  within_budget (with_candidates (<[i := push_build build c]> (em_candidates m)) m).
Proof.
  unfold ensure_candidate_build_allowed. intros Hi H [Hc Hr He Hb]. inv_result.
  destruct (enforce_search_policy_stop m); simpl in *; [|done].
  assert (Hl : length (cr_builds (push_build build c)) = S (length (cr_builds c)))
    by (simpl; rewrite length_app; simpl; lia).
  constructor; simpl.
  - by rewrite length_insert.
  - unfold count_total_candidate_runs in *. simpl.
    pose proof (sum_insert (fun c => length (cr_runs c)) _ _ _ (push_build build c) Hi) as Hs. simpl in Hs.
    intros n Hn. specialize (Hr n Hn). lia.
  - apply Forall_insert; [done|]. simpl. by eapply Forall_lookup_1 in He.
  - unfold count_total_builds in *. simpl.
    pose proof (sum_insert (fun c => length (cr_builds c)) _ _ _ (push_build build c) Hi) as Hs. cbv beta in Hs. rewrite Hl in Hs.
    intros n Hn. apply below_limit_Ok in H. specialize (H n Hn). simpl in *. lia.
Qed.

Lemma replace_spec_budget spec m :
  within_budget m -> within_budget (with_candidates (replace_spec spec (em_candidates m)) m).
Proof.
  intros [Hc Hr He Hb]. pose proof (replace_spec_spent spec m) as Hs. unfold spent in Hs. injection Hs as _ Hs1 Hs2.
  constructor; simpl.
  - by rewrite replace_spec_length.
  - by rewrite Hs1.
  - apply replace_spec_Forall; [done | exact He].
  - by rewrite Hs2.
Qed.

Definition sets_search_policy (call : ExperimentCall) : bool :=
  match call with Call_SetSearchPolicy _ => true | _ => false end.

Lemma call_budget call m ch :
  sets_search_policy call = false -> call_change call m = Ok ch -> within_budget m -> within_budget (ch_manifest ch).
Proof.
  intros Hp H Hb. destruct call; simpl in H; try done; open_change H;
    try (destruct Hb; split; assumption); try (by apply push_candidate_budget).
  - destruct (has_candidate _ _); simpl in *; [by apply replace_spec_budget | by apply push_candidate_budget].
  - destruct a as [i c]. apply find_candidate_Ok in E as [Hi _]. by apply record_run_budget.
  - destruct a as [i c]. apply find_candidate_Ok in E as [Hi _]. by apply record_build_budget.
Qed.

Lemma run_allowed_open m c : ensure_candidate_run_allowed m c = Ok tt -> search_over m -> False.
Proof.
  unfold ensure_candidate_run_allowed, search_over. by destruct (enforce_search_policy_stop m) as [[]|].
Qed.
Lemma build_allowed_open m : ensure_candidate_build_allowed m = Ok tt -> search_over m -> False.
Proof.
  unfold ensure_candidate_build_allowed, search_over. by destruct (enforce_search_policy_stop m) as [[]|].
Qed.

Lemma search_over_iff m :
  search_over m <-> sp_stop_after_first_promote (em_search_policy m) = true /\ existsb is_promote (em_decisions m) = true.
Proof.
  unfold search_over, enforce_search_policy_stop.
  destruct (sp_stop_after_first_promote _), (existsb _ _); simpl; naive_solver.
Qed.

Lemma call_over call m ch :
  sets_search_policy call = false -> call_change call m = Ok ch -> search_over m ->
  search_over (ch_manifest ch) /\ spent (ch_manifest ch) = spent m.
Proof.
  intros Hp H Ho. destruct call; simpl in H; try done; open_change H;
    try (by split); try (by exfalso; eapply add_policy_open).
  - destruct (has_candidate _ _); simpl in *; [split; [done | apply replace_spec_spent]|].
    by exfalso; eapply add_policy_open.
  - by exfalso; eapply run_allowed_open.
  - by exfalso; eapply build_allowed_open.
  - split; [|done]. apply search_over_iff in Ho as [H1 H2]. apply search_over_iff. simpl.
    rewrite existsb_app, H2. done.
Qed.

(** The calls on one experiment, other than those that set the search policy. *)
Inductive manifest_step (m : ExperimentManifest) : ExperimentManifest -> Prop :=
| manifest_call now call ch :
    call_validate call = Ok tt -> sets_search_policy call = false -> call_change call m = Ok ch ->
    manifest_step m (touch_manifest now (ch_manifest ch)).


(** ** A catalog in memory *)

Module SchedDemo.

(** A disk of manifests, newest first; directories are implied by the files in them. *)
Definition files : Type := list (list string * ExperimentManifest).
Fixpoint find_file (p : list string) (fs : files) : option ExperimentManifest :=
  match fs with
  | [] => None
  | (q, m) :: fs => if bool_decide (p = q) then Some m else find_file p fs
  end.
Definition has_file (fs : files) (p : list string) : bool := bool_decide (is_Some (find_file p fs)).
Definition has_dir (fs : files) (p : list string) : bool :=
  existsb (fun f => bool_decide (take (length p) f.1 = p) && (length p <? length f.1)%nat) fs.

#[global] Instance demo_files : ExperimentFiles := {|
  efs := files; toml_text := ExperimentManifest;
  efs_exists := fun fs p => has_file fs p || has_dir fs p;
  efs_is_file := has_file; efs_is_dir := has_dir;
  efs_read_dir := fun fs p =>
    Ok (map (fun f => Ok (take (S (length p)) f.1)) (List.filter (fun f => bool_decide (take (length p) f.1 = p)) fs));
  efs_read := fun fs p => ok_or (find_file p fs) "not found";
  efs_create_dir_all := fun fs _ => (Ok tt, fs);
  efs_write := fun fs p m => (Ok tt, (p, m) :: fs);
  parse_experiment := Ok; render_experiment := Ok
|}.

#[global] Instance demo_files_laws : ExperimentFilesLaws demo_files.
Proof.
  refine {| same_file := fun p q => bool_decide (p = q) |}.
  - intros p. by apply bool_decide_eq_true.
  - by intros fs p q ->%bool_decide_eq_true.
  - done.
  - intros fs p t _. unfold efs_text. simpl. by rewrite bool_decide_eq_true_2.
  - intros fs p t q Hq%bool_decide_eq_false. unfold efs_text. simpl. rewrite bool_decide_eq_false_2 by congruence. done.
  - by intros m t [= <-].
Defined.

Definition catalog : ExperimentCatalog := mkExperimentCatalog ["/"; "w"] (experiments_dir ["/"; "w"]).
Definition metric : MetricTarget := mkMetricTarget "latency_p99" Goal_Minimize None None.
Definition guard : Guardrail := mkGuardrail "qps" Goal_Maximize (f64_of_Z 5) None.
Definition host : HostFingerprint := mkHostFingerprint None None (Some "x86_64").
Definition workload : WorkloadContract := mkWorkloadContract "bench" None None None [] [] None None None.
Definition policy : SearchPolicy := mkSearchPolicy (Some 1%nat) None (Some 2%nat) None true None.
Definition spec : ExperimentInitSpec :=
  mkExperimentInitSpec "exp-1" workload metric (mkPerformancePolicy Pref_LatencyThroughput Basis_Direct [] None)
    (mkCollectionPolicy None) default_evaluation policy [guard].
Definition candidate_spec (id : string) : CandidateSpec :=
  mkCandidateSpec id "tmpl" (mkCandidateLineage None [] [] [] None) None None None [] None [] [] None.
Definition run (latency qps : Z) : RecordedRun :=
  mkRecordedRun "run" 7 Sched_Cfs "/tmp/run" [("latency_p99", f64_of_Z latency); ("qps", f64_of_Z qps)] None.
Definition start : ExperimentManifest := fresh_manifest 10 host spec.

Definition no_files : files := [].
Definition after_init : files := (init_experiment (no_files : efs) catalog 10 host spec).2.
Definition after_add : files :=
  (run_call after_init catalog 11 "exp-1" (Call_AddCandidate (candidate_spec "a"))).2.

(** The second candidate is one too many. *)
Example budget_refuses :
  (run_call after_add catalog 12 "last" (Call_AddCandidate (candidate_spec "b"))).1
  = Err ("search policy candidate limit 1 reached for experiment exp-1; update " +:+ bt
         +:+ "sched-claw experiment set-search-policy ..." +:+ bt +:+ " before adding more candidates").
Proof. by vm_compute. Qed.

End SchedDemo.

Import SchedDemo.

Lemma demo_init_step : catalog_step catalog no_files after_init.
Proof. eapply step_init with (now := 10%N) (host := host) (spec := spec). by vm_compute. Qed.
Lemma demo_add_step : catalog_step catalog after_init after_add.
Proof.
  eapply step_call with (now := 11%N) (reference := "exp-1") (call := Call_AddCandidate (candidate_spec "a")).
  by vm_compute.
Qed.

Lemma experiment_manifests_stay_sound_witness :
  rtc (catalog_step catalog) no_files after_add /\ sound_files after_add.
Proof.
  assert (H : rtc (catalog_step catalog) no_files after_add)
    by (eapply rtc_l; [apply demo_init_step | apply rtc_once, demo_add_step]).
  split; [exact H|]. apply (@experiment_manifests_stay_sound demo_files demo_files_laws catalog no_files after_add); [|exact H].
  intros p m. by vm_compute.
Defined.

Lemma experiment_calls_recorded_witness :
  exists m ch,
    call_change (Call_AddCandidate (candidate_spec "a")) m = Ok ch /\
    read_manifest after_add (manifest_path_for_id catalog "exp-1") = Ok (touch_manifest 11 (ch_manifest ch)).
Proof.
  pose proof (@experiment_calls_recorded demo_files demo_files_laws catalog after_init after_add 11) as [Hc _].
  destruct (Hc "exp-1" (Call_AddCandidate (candidate_spec "a"))
              (mkExperimentArtifact "added candidate" "exp-1" (manifest_path_for_id catalog "exp-1")
                 [("candidate", "a")])) as (m & ch & _ & H2 & _ & H4 & _); [by vm_compute|].
  exists m, ch. split; [exact H2 | exact H4].
Defined.

(** Two calls of the demo experiment: a candidate and its promotion. *)
Definition promoted : ExperimentManifest :=
  match m <-? change_add_candidate (candidate_spec "a") start;
        change_record_decision (mkCandidateDecisionRecord "d" "a" 12 Decision_Promote [] [] [] None None)
          (touch_manifest 11 (ch_manifest m)) with
  | Ok ch => touch_manifest 12 (ch_manifest ch)
  | Err _ => start
  end.

