(* ===== verification/SchedScore.v ===== *)
(** * sched-claw: what a score means

    A score depends on the measurements and not on their order; a candidate is promoted
    exactly when its criteria hold, and the reasons a score lists agree with its decision. *)

From Stdlib Require Import Ascii String ZArith SpecFloat.
From stdpp Require Import base list gmap sets sorting strings pretty.
From Stdlib Require Import Lia.
From S2P Require Import Prelude Text BTree Message WriteLease SandboxPolicy PathPolicy StoreSearch StoreOrder.
From S2P Require Import Float64 SchedMetrics SchedExperiment SchedCatalog SchedProps.

(** ** The order of numbers *)

#[global] Instance ordering_Z : Ordering Z.compare.
Proof.
  split; intros x y; [apply Z.compare_antisym | intros z ->%Z.compare_eq_iff; done|].
  intros z. rewrite !Z.compare_lt_iff. lia.
Qed.

#[global] Instance ordering_f64 : Ordering f64_total_cmp.
Proof.
  unfold f64_total_cmp. apply ordering_then; [apply (ordering_on f64_class), _|].
  apply ordering_then; [apply (ordering_on f64_exponent), _ | apply (ordering_on f64_mantissa), _].
Qed.

Lemma total_cmp_eq x y : f64_total_cmp x y = Eq -> x = y.
Proof.
  unfold f64_total_cmp. intros [H1%Z.compare_eq_iff [H2%Z.compare_eq_iff H3%Z.compare_eq_iff]%then_with_eq]%then_with_eq.
  destruct x as [[]|[]| |[] m e], y as [[]|[]| |[] m' e']; simpl in *; try done.
  - injection H3 as ->. f_equal. lia.
  - by injection H3 as ->; subst.
Qed.

Lemma sort_f64_perm l l' : l ≡ₚ l' -> merge_sort f64_le l = merge_sort f64_le l'.
Proof.
  apply (merge_sort_unique f64_total_cmp (H := f64_le_dec)). intros x y _ _. apply total_cmp_eq.
Qed.

#[global] Instance metric_values_perm name : Proper ((≡ₚ) ==> (≡ₚ)) (metric_values name).
Proof.
  intros l l' H. unfold metric_values. induction H as [|x l l' H IH|x y l|]; simpl; [done|..].
  - destruct (bt_get name x) as [v|]; simpl; [|done]. destruct (f64_is_finite v); [by constructor | done].
  - destruct (bt_get name x) as [v|], (bt_get name y) as [w|]; simpl; try done.
    destruct (f64_is_finite v), (f64_is_finite w); try done. constructor.
  - by etrans.
Qed.

(** A measurement of runs does not depend on their order. *)
Lemma median_perm name l l' : l ≡ₚ l' -> median_metric name l = median_metric name l'.
Proof.
  intros H. apply (metric_values_perm name) in H. unfold median_metric.
  pose proof (sort_f64_perm _ _ H) as Hs. pose proof (Permutation_length H) as Hl.
  destruct (metric_values name l), (metric_values name l'); simpl in Hl; try done. by rewrite Hs.
Qed.

Lemma spread_perm name l l' : l ≡ₚ l' -> relative_spread_pct name l = relative_spread_pct name l'.
Proof.
  intros H. apply (metric_values_perm name) in H. unfold relative_spread_pct.
  pose proof (sort_f64_perm _ _ H) as Hs. pose proof (Permutation_length H) as Hl.
  destruct (metric_values name l) as [|x [|y k]], (metric_values name l') as [|x' [|y' k']]; simpl in Hl; try done.
  by rewrite Hs.
Qed.

Lemma guardrail_perm g b b' r r' : b ≡ₚ b' -> r ≡ₚ r' -> score_guardrail g b r = score_guardrail g b' r'.
Proof.
  intros Hb Hr. unfold score_guardrail.
  by rewrite (median_perm _ _ _ (Permutation_map rr_metrics Hb)), (median_perm _ _ _ (Permutation_map rr_metrics Hr)).
Qed.

(** ** Decisions *)

Lemma SFcompare_opp x y : SFcompare y x = CompOpp <$> SFcompare x y.
Proof.
  destruct x as [[]|[]| |[] m e], y as [[]|[]| |[] m' e']; simpl; try done;
    rewrite (Z.compare_antisym e e'); destruct (e ?= e')%Z; simpl; try done;
    rewrite (Pos.compare_cont_antisym m m' Eq); simpl; by try rewrite CompOpp_involutive.
Qed.

Lemma ltb_not_leb x y : SFltb x y = true -> SFleb y x = false.
Proof. unfold SFltb, SFleb. rewrite (SFcompare_opp x y). by destruct (SFcompare x y) as [[]|]. Qed.

(** A guardrail holds: its metric is measured in both series and does not regress beyond
    its limit. *)
Definition guardrail_holds (g : Guardrail) (baseline candidate : list RecordedRun) : Prop :=
  exists b v pct,
    median_metric (gr_name g) (map rr_metrics baseline) = Some b /\
    median_metric (gr_name g) (map rr_metrics candidate) = Some v /\
    improvement_pct (gr_goal g) b v = Some pct /\ SFltb pct (SFopp (gr_max_regression_pct g)) = false.

Lemma guardrail_holds_status g b r : guardrail_holds g b r <-> gs_status (score_guardrail g b r) = Guardrail_Pass.
Proof.
  unfold guardrail_holds, score_guardrail. simpl.
  destruct (median_metric _ (map _ b)) as [x|]; simpl; [|split; [by intros (? & ? & ? & ? & ?)|done]].
  destruct (median_metric _ (map _ r)) as [y|]; simpl; [|split; [by intros (? & ? & ? & ? & ? & ?)|done]].
  destruct (improvement_pct _ x y) as [pct|] eqn:E; simpl.
  - destruct (SFltb pct _) eqn:El; split; try done.
    + intros (? & ? & ? & [= <-] & [= <-] & Hp & Hl). rewrite E in Hp. injection Hp as <-. congruence.
    + intros _. by exists x, y, pct.
  - split; [|done]. intros (? & ? & ? & [= <-] & [= <-] & Hp & _). congruence.
Qed.

(** Neither a missing nor a breached guardrail is a guardrail that holds. *)
Lemma guardrails_hold gs b r :
  existsb is_missing (map (fun g => score_guardrail g b r) gs) = false /\
  existsb is_breach (map (fun g => score_guardrail g b r) gs) = false <->
  Forall (fun g => guardrail_holds g b r) gs.
Proof.
  induction gs as [|g gs IH]; simpl; [done|]. rewrite Forall_cons, guardrail_holds_status, <- IH.
  rewrite !orb_false_iff. unfold is_missing, is_breach. destruct (gs_status _); naive_solver.
Qed.

Definition spread_ok (limit : option f64) (spread : option f64) : Prop :=
  forall l s, limit = Some l -> spread = Some s -> SFltb l s = false.

Lemma spread_ok_iff limit b c :
  match limit with Some l => exceeds b l || exceeds c l | None => false end = false
  <-> spread_ok limit b /\ spread_ok limit c.
Proof.
  unfold spread_ok, exceeds, f64_gtb. destruct limit as [l|]; [|naive_solver].
  rewrite orb_false_iff. destruct b, c; naive_solver.
Qed.

(** What a candidate needs to be promoted. *)
Record promotable (metric : MetricTarget) (policy : EvaluationPolicy) (gs : list Guardrail)
    (baseline candidate : list RecordedRun) : Prop := {
  pr_runs : (ep_min_baseline_runs policy <= length baseline)%nat
            /\ (ep_min_candidate_runs policy <= length candidate)%nat;
  pr_improves : exists b v pct,
    median_metric (mt_name metric) (map rr_metrics baseline) = Some b /\
    median_metric (mt_name metric) (map rr_metrics candidate) = Some v /\
    improvement_pct (mt_goal metric) b v = Some pct /\ SFltb f64_zero pct = true /\
    SFleb (default f64_zero (ep_min_primary_improvement_pct policy)) pct = true;
  pr_spread : spread_ok (ep_max_primary_relative_spread_pct policy)
                (relative_spread_pct (mt_name metric) (map rr_metrics baseline))
              /\ spread_ok (ep_max_primary_relative_spread_pct policy)
                   (relative_spread_pct (mt_name metric) (map rr_metrics candidate));
  pr_guardrails : Forall (fun g => guardrail_holds g baseline candidate) gs
}.

Lemma when_nil b s : when b s = [] <-> b = false.
Proof. by destruct b. Qed.

Lemma spread_reason_nil who o l : spread_reason who o l = [] <-> exceeds o l = false.
Proof. destruct o; simpl; [apply when_nil | done]. Qed.

Lemma missing_reason_nil l : map (fun g => "missing guardrail metric " +:+ gs_name g) (List.filter is_missing l) = []
  <-> existsb is_missing l = false.
Proof. induction l as [|g l IH]; simpl; [done|]. by destruct (is_missing g). Qed.

Section Score.
Variables (metric : MetricTarget) (policy : EvaluationPolicy) (gs : list Guardrail)
  (baseline : list RecordedRun) (candidate : CandidateRecord).

Definition the_score : CandidateScore := score_candidate metric policy gs baseline candidate.

Lemma promote_iff : sc_decision the_score = Decision_Promote
  <-> promotable metric policy gs baseline (cr_runs candidate).
Proof.
  unfold the_score, score_candidate. cbv zeta. simpl.
  set (mb := median_metric _ (map _ baseline)). set (mc := median_metric _ (map _ (cr_runs candidate))).
  set (sb := relative_spread_pct _ (map _ baseline)). set (sc := relative_spread_pct _ (map _ (cr_runs candidate))).
  set (scores := map _ gs). split.
  - intros H. destruct (is_none mb || _ || _ || _ || _ || _) eqn:E1; [done|].
    rewrite !orb_false_iff in E1. destruct E1 as [[[[[H1 H2] H3] H4] H5] H6].
    destruct (existsb is_breach scores) eqn:E2; [done|].
    apply Nat.ltb_ge in H3, H4. destruct mb as [b|] eqn:Emb; [|done]. destruct mc as [v|] eqn:Emc; [|done]. simpl in *.
    destruct (improvement_pct (mt_goal metric) b v) as [pct|] eqn:Ep; [|done].
    destruct (_ && _) eqn:E3 in H; [|done]. apply andb_true_iff in E3 as [E3 E4].
    split; [done| |by apply spread_ok_iff|by apply guardrails_hold].
    by exists b, v, pct.
  - intros [[H3 H4] (b & v & pct & Hb & Hv & Hp & H7 & H8) Hs Hg].
    apply guardrails_hold in Hg as [H5 H6]. apply spread_ok_iff in Hs.
    apply Nat.ltb_ge in H3, H4. fold mb in Hb. fold mc in Hv. fold sb sc in Hs. fold scores in H5, H6.
    rewrite Hb, Hv, H3, H4, H5, Hs, H6. simpl. rewrite Hp. unfold f64_gtb. by rewrite H7, H8.
Qed.

(** The reasons agree with the decision. *)
Lemma reasons_agree :
  (sc_decision the_score = Decision_Promote -> sc_status_reasons the_score = [])
  /\ (sc_decision the_score = Decision_Incomplete -> sc_status_reasons the_score <> []).
Proof.
  unfold the_score, score_candidate. cbv zeta. simpl.
  set (mb := median_metric _ (map _ baseline)). set (mc := median_metric _ (map _ (cr_runs candidate))).
  set (sb := relative_spread_pct _ (map _ baseline)). set (sc := relative_spread_pct _ (map _ (cr_runs candidate))).
  set (scores := map _ gs). rewrite !app_nil, !when_nil, missing_reason_nil.
  destruct (is_none mb || _ || _ || _ || _ || _) eqn:E1.
  - split; [done|]. intros _ ([H1 [H2 [H3 [H4 [H5 [H6 _]]]]]] & _).
    rewrite H1, H2, H3, H4, H6 in E1. simpl in E1.
    destruct (ep_max_primary_relative_spread_pct policy) as [l|]; [|done].
    rewrite app_nil, !spread_reason_nil in H5. destruct H5 as [H5 H5']. by rewrite H5, H5' in E1.
  - rewrite !orb_false_iff in E1. destruct E1 as [[[[[H1 H2] H3] H4] H5] H6].
    destruct (existsb is_breach scores); [done|].
    destruct (improvement_between _ mb mc) as [pct|]; [|done].
    destruct (_ && SFleb _ pct) eqn:E2; [|done]. apply andb_true_iff in E2 as [_ E2]. split; [|done]. intros _.
    split_and!; try done.
    + destruct (ep_max_primary_relative_spread_pct policy) as [l|]; [|done].
      rewrite app_nil, !spread_reason_nil. by apply orb_false_iff.
    + destruct (ep_min_primary_improvement_pct policy) as [low|]; [|done]. apply when_nil.
      destruct (SFltb pct low) eqn:El; [|by rewrite andb_false_r]. apply ltb_not_leb in El. simpl in E2. congruence.
Qed.
End Score.


(** The score of a candidate does not depend on the order in which its runs and the
    baseline runs were recorded. *)
Theorem score_ignores_run_order metric policy gs baseline baseline' spec runs runs' builds builds' :
  baseline ≡ₚ baseline' -> runs ≡ₚ runs' ->
  score_candidate metric policy gs baseline (mkCandidateRecord spec runs builds)
  = score_candidate metric policy gs baseline' (mkCandidateRecord spec runs' builds').
Proof.
  intros Hb Hr. unfold score_candidate. cbv zeta. simpl.
  rewrite (median_perm _ _ _ (Permutation_map rr_metrics Hb)), (median_perm _ _ _ (Permutation_map rr_metrics Hr)).
  rewrite (spread_perm _ _ _ (Permutation_map rr_metrics Hb)), (spread_perm _ _ _ (Permutation_map rr_metrics Hr)).
  rewrite (Permutation_length Hb), (Permutation_length Hr).
  rewrite (map_ext _ _ (fun g => guardrail_perm g _ _ _ _ Hb Hr)). done.
Qed.

Import SchedDemo.

Lemma score_ignores_run_order_witness :
  score_candidate metric default_evaluation [guard] [run 100 50; run 90 60; run 110 55]
    (mkCandidateRecord (candidate_spec "a") [run 80 54; run 70 57] [])
  = score_candidate metric default_evaluation [guard] [run 110 55; run 90 60; run 100 50]
    (mkCandidateRecord (candidate_spec "a") [run 70 57; run 80 54] []).
Proof. apply score_ignores_run_order; [|constructor]. apply (Permutation_rev [_; _; _]). Defined.

(** A candidate that improves the latency by a quarter and keeps its guardrail. *)
Example demo_score :
  let s := score_candidate metric default_evaluation [guard] [run 100 50; run 90 60; run 110 55]
             (mkCandidateRecord (candidate_spec "a") [run 80 54; run 70 57] []) in
  sc_decision s = Decision_Promote /\ fmt_f64_2 <$> sc_primary_improvement_pct s = Some "25.00".
Proof. by vm_compute. Qed.

(** ** Defects *)

(** A metric whose baseline is negative is scored the wrong way round: a lower value of a
    metric to minimize counts as a regression, a higher one as an improvement. *)
Theorem negative_baseline_inverts_goal :
  fmt_f64_2 <$> improvement_pct Goal_Minimize (f64_of_Z (-100)) (f64_of_Z (-120)) = Some "-20.00"
  /\ fmt_f64_2 <$> improvement_pct Goal_Minimize (f64_of_Z (-100)) (f64_of_Z (-80)) = Some "20.00".
Proof. by vm_compute. Qed.

(** The processor's model is looked up on the first line of [/proc/cpuinfo] that has a
    colon, which is the processor's number. *)
Theorem cpu_model_lost :
  let cpuinfo := str_join nl ["processor : 0"; "vendor_id : X"; "model name : Fast CPU"] in
  read_cpu_model (fun _ => Some cpuinfo) = None.
Proof. by vm_compute. Qed.

(** [..] is accepted as the id of an experiment, and its manifest is written outside the
    experiments root. *)
Theorem experiment_id_leaves_root :
  let spec := mkExperimentInitSpec ".." workload metric (mkPerformancePolicy Pref_Custom Basis_Direct [] None)
                (mkCollectionPolicy None) default_evaluation policy [] in
  exists artifact fs', init_experiment (no_files : efs) catalog 1 host spec = (Ok artifact, fs')
    /\ ea_manifest_path artifact = (ec_experiments_root catalog ++ [".."; MANIFEST_FILE_NAME])%list.
Proof. eexists _, _. split; by vm_compute. Qed.

(** A deployment may name a candidate the experiment does not have. *)
Theorem deployment_of_unknown_candidate m record :
  exists ch, call_change (Call_RecordDeployment record) m = Ok ch
    /\ last (em_deployments (ch_manifest ch)) = Some record.
Proof. eexists. split; [done|]. apply last_snoc. Qed.

(** A candidate may be made its own parent. *)
Theorem candidate_its_own_parent :
  let own := mkCandidateSpec "a" "tmpl" (mkCandidateLineage (Some "a") [] [] [] None) None None None [] None [] []
               None in
  exists m ch, change_add_candidate (candidate_spec "a") start = Ok m
    /\ change_set_candidate own (ch_manifest m) = Ok ch
    /\ cs_lineage <$> (cr_spec <$> em_candidates (ch_manifest ch)) = [mkCandidateLineage (Some "a") [] [] [] None].
Proof. eexists _, _. split_and!; by vm_compute. Qed.
