(* ===== verification/FileQueries.v ===== *)
(** * Reading files

    What the read-side file tools share: the parameter that stands for the file system and
    the crates they use ([tokio::fs], [ignore], [globset], [regex], [base64]), UTF-8
    validation, and [crates/tools/src/fs/view_image.rs]. *)

From Stdlib Require Import Ascii String.
From stdpp Require Import base list strings.
From Stdlib Require Import Lia.
From S2P Require Import Prelude Text Message Errors WriteLease SandboxPolicy Tools PathPolicy Float64.

(** The kinds of a directory entry. *)
(* crates/tools/src/fs/list.rs, EntryKind *)
Inductive EntryKind := Kind_File | Kind_Directory | Kind_Symlink | Kind_Other.
#[global] Instance EntryKind_eq_dec : EqDecision EntryKind.
Proof. solve_decision. Defined.

(** An entry of a walk: its path, the type the walk found and its metadata. *)
Record WalkEntry := mkWalkEntry {
  we_path : PathBuf;
  we_file_type : option EntryKind;
  we_metadata : result EntryKind string
}.

(** What a walk was asked: whether ignore files apply outside a repository, and how deep
    it goes. *)
Record WalkOptions := mkWalkOptions { wo_require_git : bool; wo_max_depth : option N }.

Class FileQueries := {
  (** the file system the sandbox checks see *)
  fq_view : FileSystem;
  fq_is_file : PathBuf -> bool;
  fq_is_dir : PathBuf -> bool;
  (** [tokio::fs::read]: the bytes of a file *)
  fq_read : PathBuf -> result string string;
  (** [ignore::WalkBuilder], in the order of the walk *)
  fq_walk : PathBuf -> WalkOptions -> list (result WalkEntry string);
  (** [globset::Glob], [regex::RegexBuilder] (with [case_insensitive]), [regex::escape] *)
  glob_new : string -> result (PathBuf -> bool) string;
  regex_new : string -> bool -> result (string -> bool) string;
  regex_escape : string -> string;
  base64_encode : string -> string
}.

(** ** [usize] *)

(** The arithmetic of a release build. *)
Definition usize_add (a b : N) : N := ((a + b) mod 18446744073709551616)%N.
Definition usize_sub (a b : N) : N := ((a + 18446744073709551616 - b) mod 18446744073709551616)%N.

(** ** UTF-8 *)

Definition byte_in (low high : nat) (a : ascii) : bool :=
  let n := nat_of_ascii a in (low <=? n)%nat && (n <=? high)%nat.
Definition continuation_byte : ascii -> bool := byte_in 128 191.

(** [String::from_utf8] accepts the bytes. *)
Fixpoint utf8_valid (s : string) : bool :=
  match s with
  | "" => true
  | String a s1 =>
      if byte_in 0 127 a then utf8_valid s1
      else match s1 with
           | "" => false
           | String b s2 =>
               if byte_in 194 223 a then continuation_byte b && utf8_valid s2
               else match s2 with
                    | "" => false
                    | String c s3 =>
                        if byte_in 224 239 a then
                          (if byte_in 224 224 a then byte_in 160 191 b
                           else if byte_in 237 237 a then byte_in 128 159 b else continuation_byte b)
                          && continuation_byte c && utf8_valid s3
                        else match s3 with
                             | "" => false
                             | String d s4 =>
                                 byte_in 240 244 a
                                 && (if byte_in 240 240 a then byte_in 144 191 b
                                     else if byte_in 244 244 a then byte_in 128 143 b else continuation_byte b)
                                 && continuation_byte c && continuation_byte d && utf8_valid s4
                             end
                    end
           end
  end.

(** [tokio::fs::read_to_string] that succeeds. *)
Definition fq_read_to_string `{FileQueries} (path : PathBuf) : option string :=
  match fq_read path with Ok bytes => if utf8_valid bytes then Some bytes else None | Err _ => None end.

(** ** Paths *)

(** [Path::extension]. *)
Definition path_extension (p : PathBuf) : option string :=
  name ← file_name p;
  match rev (split_on "." name) with
  | ext :: rest => match rev rest with [] => None | [""] => None | _ => Some ext end
  | [] => None
  end.

(** [path.strip_prefix(root).unwrap_or(path)]. *)
Definition relative_to (root p : PathBuf) : PathBuf :=
  if path_starts_with p root then drop (length root) p else p.

(** [to_string_lossy().replace('\\', "/")]. *)
Definition backslash : string := String (byte_at 92) "".
Definition slashes (p : PathBuf) : string := str_replace backslash "/" (path_display p).

(** ** Images *)

Definition bytes (l : list nat) : string := string_of_list_ascii (map ascii_of_nat l).

(* crates/tools/src/fs/view_image.rs, sniff_image_mime *)
Definition sniff_image_mime (content : string) (path : PathBuf) : option string :=
  if starts_with content (bytes [137; 80; 78; 71; 13; 10; 26; 10]) then Some "image/png"
  else if starts_with content (bytes [255; 216; 255]) then Some "image/jpeg"
  else if starts_with content "GIF87a" || starts_with content "GIF89a" then Some "image/gif"
  else if starts_with content "RIFF" && (12 <=? String.length content)%nat
          && String.eqb (substring 8 4 content) "WEBP" then Some "image/webp"
  else match path_extension path with
       | Some "png" => Some "image/png"
       | Some "jpg" | Some "jpeg" => Some "image/jpeg"
       | Some "gif" => Some "image/gif"
       | Some "webp" => Some "image/webp"
       | _ => None
       end.

(* crates/tools/src/fs/view_image.rs, LoadedToolImage *)
Record LoadedToolImage := mkLoadedToolImage {
  li_requested_path : string;
  li_resolved_path : PathBuf;
  li_mime_type : string;
  li_byte_length : nat;
  li_data_base64 : string
}.

Section Images.
Context {J : SerdeJson} {Q : FileQueries}.

(* crates/tools/src/fs/view_image.rs, LoadedToolImage::message_part *)
Definition image_message_part (i : LoadedToolImage) : MessagePart := Part_Image (li_mime_type i) (li_data_base64 i).

(** Resolve a path, check that it may be read and read its bytes. *)
Definition open_for_read (c : ToolExecutionContext) (path : string) : result PathBuf ToolError :=
  resolved <-? resolve_in c path;
  _ <-? assert_path_read_allowed (H := fq_view) c resolved;
  Ok resolved.

Definition read_bytes (path : PathBuf) : result string ToolError :=
  match fq_read path with Ok b => Ok b | Err e => Err (ToolErr_Io e) end.

(* crates/tools/src/fs/view_image.rs, load_tool_image *)
Definition load_tool_image (requested_path : string) (c : ToolExecutionContext) : result LoadedToolImage ToolError :=
  resolved <-? open_for_read c requested_path;
  content <-? read_bytes resolved;
  mime <-? ok_or (sniff_image_mime content resolved) (ToolErr_InvalidInput "image file is not a supported image");
  Ok (mkLoadedToolImage requested_path resolved mime (String.length content) (base64_encode content)).
End Images.

(** ** Sizes *)

(* crates/tools/src/fs/read.rs, format_bytes *)
Definition format_bytes (n : N) : string :=
  if (1024 * 1024 <=? n)%N then fmt_f64_1 (f64_div (f64_of_N n) (f64_mul (f64_of_N 1024) (f64_of_N 1024))) +:+ "MB"
  else if (1024 <=? n)%N then fmt_N (f64_round_usize (f64_div (f64_of_N n) (f64_of_N 1024))) +:+ "KB"
  else fmt_N n +:+ "B".

Example format_bytes_examples : map format_bytes [512; 51200; 1535; 1572864]%N = ["512B"; "50KB"; "1KB"; "1.5MB"].
Proof. by vm_compute. Qed.
Example extension_examples :
  map (fun s => path_extension (path_of_string s)) ["/a/b.png"; ".png"; "x.tar.gz"; "x."; "noext"; ".a.b"]
  = [Some "png"; None; Some "gz"; Some ""; None; Some "b"].
Proof. by vm_compute. Qed.
