(* ===== verification/ReadTool.v ===== *)
(** * The read tool

    Models [crates/tools/src/fs/read.rs]: windows of a text file by line range, by anchor or
    by a byte budget, and images. *)

From Stdlib Require Import Ascii String.
From stdpp Require Import base list strings.
From Stdlib Require Import Lia.
From S2P Require Import Prelude Text Message Errors TextBuffer Mutation WriteLease SandboxPolicy Tools PathPolicy.
From S2P Require Import StoreSearch Float64 FileQueries.

(* crates/tools/src/fs/read.rs, DEFAULT_READ_PAGE_MAX_BYTES *)
Definition DEFAULT_READ_PAGE_MAX_BYTES : N := 50 * 1024.
(* crates/tools/src/fs/read.rs, MAX_ADAPTIVE_READ_MAX_BYTES *)
Definition MAX_ADAPTIVE_READ_MAX_BYTES : N := 512 * 1024.
(* crates/tools/src/fs/read.rs, CHARS_PER_TOKEN_ESTIMATE *)
Definition CHARS_PER_TOKEN_ESTIMATE : N := 4.
(* crates/tools/src/fs/read.rs, ADAPTIVE_READ_CONTEXT_SHARE *)
Definition ADAPTIVE_READ_CONTEXT_SHARE : f64 := default f64_zero (parse_f64 "0.2").
(* crates/tools/src/fs/read.rs, DEFAULT_ANCHOR_CONTEXT *)
Definition DEFAULT_ANCHOR_CONTEXT : N := 8.

(* crates/tools/src/fs/read.rs, ReadToolInput *)
Record ReadToolInput := mkReadToolInput {
  rti_path : string;
  rti_start_line : option N;
  rti_end_line : option N;
  rti_line_count : option N;
  rti_annotate_lines : option bool;
  rti_anchor_text : option string;
  rti_anchor_context : option N;
  rti_anchor_occurrence : option N;
  rti_anchor_ignore_case : option bool
}.

(** [serde_json::from_value] at the input type; the error is its text. *)
Class ReadInput (J : SerdeJson) := { decode_read_input : Value -> result ReadToolInput string }.

(* crates/tools/src/fs/read.rs, ReadOutputAnchor *)
Record ReadOutputAnchor := mkReadOutputAnchor {
  ra_text : string;
  ra_context : N;
  ra_occurrence : N;
  ra_ignore_case : bool;
  ra_line : option nat
}.

(* crates/tools/src/fs/read.rs, resolve_adaptive_read_max_bytes *)
Definition resolve_adaptive_read_max_bytes (context_window_tokens : option N) : N :=
  match context_window_tokens with
  | None => DEFAULT_READ_PAGE_MAX_BYTES
  | Some tokens =>
      let from_context :=
        f64_to_usize (f64_mul (f64_mul (f64_of_N tokens) (f64_of_N CHARS_PER_TOKEN_ESTIMATE))
                        ADAPTIVE_READ_CONTEXT_SHARE) in
      N.min (N.max from_context DEFAULT_READ_PAGE_MAX_BYTES) MAX_ADAPTIVE_READ_MAX_BYTES
  end.

Section Anchor.
Context {U : UnicodeCase}.

(* crates/tools/src/fs/read.rs, line_contains_anchor *)
Definition line_contains_anchor (line anchor_text : string) (ignore_case : bool) : bool :=
  if ignore_case then str_contains (to_lowercase line) (to_lowercase anchor_text)
  else str_contains line anchor_text.

(** The index of the line that is the [occurrence]th to hold the anchor. *)
(* crates/tools/src/fs/read.rs, resolve_anchor_window@for (index, line) in lines.iter().enumerate() *)
Fixpoint find_anchor (holds : string -> bool) (occurrence seen : N) (index : nat) (lines : list string) : option nat :=
  match lines with
  | [] => None
  | line :: rest =>
      if holds line then
        if (seen + 1 =? occurrence)%N then Some index else find_anchor holds occurrence (seen + 1) (S index) rest
      else find_anchor holds occurrence seen (S index) rest
  end.

(** The first line, the last line and the matched line of the window. *)
(* crates/tools/src/fs/read.rs, resolve_anchor_window *)
Definition resolve_anchor_window (lines : list string) (anchor_text : string) (occurrence context_lines : N)
    (ignore_case : bool) : result (N * N * nat) ToolError :=
  match find_anchor (fun line => line_contains_anchor line anchor_text ignore_case) occurrence 0 0 lines with
  | Some index =>
      let anchor_line := N.of_nat (S index) in
      Ok (N.max (anchor_line - context_lines) 1,
          N.min (usize_add anchor_line context_lines) (N.of_nat (length lines)), S index)
  | None =>
      Err (ToolErr_InvalidInput ("anchor_text was not found at occurrence " +:+ fmt_N occurrence
                                 +:+ " in the selected file"))
  end.
End Anchor.

(** ** The window *)

Definition byte_len (s : string) : N := N.of_nat (String.length s).

(** The lines that still fit after the first, each with its newline. *)
Fixpoint fill_page (budget used : N) (lines : list string) : list string :=
  match lines with
  | [] => []
  | line :: rest =>
      let line_len := (byte_len line + 1)%N in
      if (budget <? used + line_len)%N then [] else line :: fill_page budget (used + line_len) rest
  end.

(** The lines of a page; [None] when the first line alone exceeds the budget. *)
(* crates/tools/src/fs/read.rs, execute@for line in selected { ~~ let end_line = start_line *)
Definition page_lines (budget : N) (selected : list string) : option (list string) :=
  match selected with
  | [] => Some []
  | line :: rest =>
      if (budget <? byte_len line)%N then None else Some (line :: fill_page budget (byte_len line) rest)
  end.

(** [selected.iter().take(count)] for a count that may be any number. *)
Definition take_N {A} (count : N) (l : list A) : list A := take (N.to_nat (N.min count (N.of_nat (length l)))) l.

(** What is shown of a file: a window, or the notice that a line is too long. *)
Inductive Selection :=
| Sel_Window (start_line : nat) (lines : list string) (anchor_line : option nat)
| Sel_Notice (start_line : nat) (line : string).

(** The window an anchor asks for: its first line, its last line and the matched line. *)
(* crates/tools/src/fs/read.rs, execute@if let Some(anchor_text) = input.anchor_text.as_deref() { ~~ if start_line > total_lines *)
Definition anchor_window `{UnicodeCase} (input : ReadToolInput) (lines : list string)
    : result (N * option N * option nat) ToolError :=
  match rti_anchor_text input with
  | None => Ok (N.max (default 1%N (rti_start_line input)) 1, None, None)
  | Some anchor_text =>
      if bool_decide (is_Some (rti_start_line input)) || bool_decide (is_Some (rti_end_line input))
         || bool_decide (is_Some (rti_line_count input)) then
        Err (ToolErr_InvalidInput "anchor_text cannot be combined with start_line, end_line, or line_count")
      else
        let occurrence := default 1%N (rti_anchor_occurrence input) in
        if (occurrence =? 0)%N then Err (ToolErr_InvalidInput "anchor_occurrence must be at least 1")
        else
          w <-? resolve_anchor_window lines anchor_text occurrence
                  (default DEFAULT_ANCHOR_CONTEXT (rti_anchor_context input))
                  (default false (rti_anchor_ignore_case input));
          Ok (w.1.1, Some w.1.2, Some w.2)
  end.

(* crates/tools/src/fs/read.rs, execute@if start_line > total_lines ~~ let end_line = start_line *)
Definition select_lines `{UnicodeCase} (input : ReadToolInput) (budget : N) (lines : list string)
    : result Selection ToolError :=
  let total_lines := N.of_nat (length lines) in
  w <-? anchor_window input lines;
  let start_line := w.1.1 in
  let forced_end_line := w.1.2 in
  let anchor_line := w.2 in
  if (total_lines <? start_line)%N then
    Err (ToolErr_InvalidInput ("start_line " +:+ fmt_N start_line +:+ " is beyond end of file ("
                               +:+ fmt_N total_lines +:+ " lines total)"))
  else
    let start := N.to_nat start_line in
    let selected := drop (start - 1) lines in
    match forced_end_line, rti_end_line input, rti_line_count input with
    | Some anchor_end_line, _, _ =>
        Ok (Sel_Window start (take_N (usize_add (usize_sub anchor_end_line start_line) 1) selected) anchor_line)
    | None, Some end_line, _ =>
        if (end_line <? start_line)%N then
          Err (ToolErr_InvalidInput ("end_line " +:+ fmt_N end_line +:+ " is before start_line " +:+ fmt_N start_line))
        else Ok (Sel_Window start (take_N (N.min end_line total_lines - start_line + 1) selected) anchor_line)
    | None, None, Some line_count =>
        if (line_count =? 0)%N then Err (ToolErr_InvalidInput "line_count must be at least 1")
        else Ok (Sel_Window start (take_N line_count selected) anchor_line)
    | None, None, None =>
        match page_lines budget selected with
        | Some page => Ok (Sel_Window start page anchor_line)
        | None => Ok (Sel_Notice start (default "" (head selected)))
        end
    end.

(** The numbers of a window. *)
Definition window_end (start_line : nat) (lines : list string) : nat := start_line + (length lines - 1).
Definition window_remaining (total_lines start_line : nat) (lines : list string) : nat :=
  total_lines - (start_line + length lines - 1).
Definition window_next (total_lines start_line : nat) (lines : list string) : option nat :=
  if (0 <? window_remaining total_lines start_line lines)%nat then Some (start_line + length lines)%nat else None.

(** ** The tool *)

Section ReadTool.
Context {J : SerdeJson} {JD : JsonData J} {S256 : Sha256} {H : FileToolHost} {U : UnicodeCase}
        {Q : FileQueries} {I : ReadInput J}.

Definition jd_N (n : N) : Value := jd_usize (N.to_nat n).
Definition anchor_json (a : ReadOutputAnchor) : Value :=
  jd_object [("text", jd_string (ra_text a)); ("context", jd_N (ra_context a)); ("occurrence", jd_N (ra_occurrence a));
             ("ignore_case", jd_bool (ra_ignore_case a)); ("line", jd_option jd_usize (ra_line a))].

(* crates/tools/src/fs/read.rs, ReadToolOutput *)
Inductive ReadToolOutput :=
| Read_Window (requested_path resolved_path snapshot_id selection_hash : string)
    (start_line end_line output_lines total_lines remaining_lines : nat) (annotate_lines : bool)
    (next_start_line : option nat) (anchor : option ReadOutputAnchor) (empty : bool)
| Read_Image (requested_path resolved_path mime_type : string) (byte_length : nat)
| Read_Notice (requested_path resolved_path snapshot_id : string) (start_line total_lines : nat) (max_bytes : N)
    (message : string).

Definition read_output_json (o : ReadToolOutput) : Value :=
  match o with
  | Read_Window requested resolved snapshot selection start_line end_line output_lines total remaining annotate next
      anchor empty =>
      jd_object [("kind", jd_string "window"); ("requested_path", jd_string requested);
                 ("resolved_path", jd_string resolved); ("snapshot_id", jd_string snapshot);
                 ("selection_hash", jd_string selection); ("start_line", jd_usize start_line);
                 ("end_line", jd_usize end_line); ("output_lines", jd_usize output_lines);
                 ("total_lines", jd_usize total); ("remaining_lines", jd_usize remaining);
                 ("annotate_lines", jd_bool annotate); ("next_start_line", jd_option jd_usize next);
                 ("anchor", jd_option anchor_json anchor); ("empty", jd_bool empty)]
  | Read_Image requested resolved mime byte_length =>
      jd_object [("kind", jd_string "image"); ("requested_path", jd_string requested);
                 ("resolved_path", jd_string resolved); ("mime_type", jd_string mime);
                 ("byte_length", jd_usize byte_length)]
  | Read_Notice requested resolved snapshot start_line total max_bytes message =>
      jd_object [("kind", jd_string "notice"); ("requested_path", jd_string requested);
                 ("resolved_path", jd_string resolved); ("snapshot_id", jd_string snapshot);
                 ("start_line", jd_usize start_line); ("total_lines", jd_usize total); ("max_bytes", jd_N max_bytes);
                 ("message", jd_string message)]
  end.

Definition path_json (p : PathBuf) : Value := jd_string (path_display p).

(* crates/tools/src/fs/read.rs, execute@if let Some(mime) = sniff_image_mime ~~ let text = String::from_utf8 *)
Definition image_result (call_id : ToolCallId) (path : string) (resolved : PathBuf) (mime content : string)
    : ToolResult :=
  let byte_length := String.length content in
  mkToolResult call_id call_id "read"
    [Part_Text ("Read image file [" +:+ mime +:+ "]"); Part_Image mime (base64_encode content)]
    [mkToolAttachment "image" (file_name resolved) (Some mime) (Some (path_display resolved))
       (Some (jd_object [("requested_path", jd_string path); ("resolved_path", path_json resolved);
                         ("byte_length", jd_usize byte_length)]))]
    (Some (read_output_json (Read_Image path (path_display resolved) mime byte_length)))
    None (Some (jd_object [("path", path_json resolved)])) false.

(* crates/tools/src/fs/read.rs, execute@if buffer.is_empty() { ~~ if let Some(anchor_text) *)
Definition empty_result (call_id : ToolCallId) (path : string) (resolved : PathBuf) (snapshot_id : string)
    (annotate : bool) : ToolResult :=
  mkToolResult call_id call_id "read"
    [Part_Text ("[read path=" +:+ path +:+ " lines=0/0 snapshot=" +:+ snapshot_id +:+ "]" +:+ nl +:+ "[File is empty]")]
    []
    (Some (read_output_json (Read_Window path (path_display resolved) snapshot_id (stable_text_hash "") 0 0 0 0 0
                               annotate None None true)))
    (Some (Continuation_FileWindow snapshot_id (Some (stable_text_hash "")) None))
    (Some (jd_object [("path", path_json resolved); ("snapshot_id", jd_string snapshot_id);
                      ("start_line", jd_usize 0); ("end_line", jd_usize 0); ("total_lines", jd_usize 0);
                      ("remaining_lines", jd_usize 0); ("annotate_lines", jd_bool annotate); ("anchor", jd_null)]))
    false.

(* crates/tools/src/fs/read.rs, execute@if output_lines.is_empty() && line_len > budget ~~ if used_bytes + line_len *)
Definition notice_result (call_id : ToolCallId) (path : string) (resolved : PathBuf) (snapshot_id : string)
    (budget : N) (total_lines start_line : nat) (line : string) : ToolResult :=
  let notice := "[Line " +:+ fmt_nat start_line +:+ " is " +:+ format_bytes (byte_len line) +:+ ", exceeds "
                +:+ format_bytes budget +:+ " limit. Use start_line=" +:+ fmt_nat start_line
                +:+ " with a smaller line_count to continue.]" in
  mkToolResult call_id call_id "read" [Part_Text notice] []
    (Some (read_output_json (Read_Notice path (path_display resolved) snapshot_id start_line total_lines budget notice)))
    None
    (Some (jd_object [("path", path_json resolved); ("snapshot_id", jd_string snapshot_id);
                      ("start_line", jd_usize start_line); ("total_lines", jd_usize total_lines);
                      ("byte_limit", jd_N budget)]))
    false.

Definition continue_note (input : ReadToolInput) (anchor_line : option nat) (budget : N)
    (total_lines start_line : nat) (lines : list string) : string :=
  let remaining := window_remaining total_lines start_line lines in
  let next := fmt_nat (start_line + length lines) in
  if (remaining =? 0)%nat then ""
  else if bool_decide (is_Some (rti_line_count input)) || bool_decide (is_Some (rti_end_line input))
          || bool_decide (is_Some anchor_line) then
    nl +:+ nl +:+ "[" +:+ fmt_nat remaining +:+ " more lines in file. Use start_line=" +:+ next +:+ " to continue.]"
  else
    nl +:+ nl +:+ "[Showing lines " +:+ fmt_nat start_line +:+ "-" +:+ fmt_nat (window_end start_line lines) +:+ " of "
    +:+ fmt_nat total_lines +:+ " (" +:+ format_bytes budget +:+ " limit). Use start_line=" +:+ next +:+ " to continue.]".

Definition input_anchor (input : ReadToolInput) (anchor_line : option nat) : option ReadOutputAnchor :=
  (fun text => mkReadOutputAnchor text (default DEFAULT_ANCHOR_CONTEXT (rti_anchor_context input))
                 (default 1%N (rti_anchor_occurrence input)) (default false (rti_anchor_ignore_case input)) anchor_line)
  <$> rti_anchor_text input.

(* crates/tools/src/fs/read.rs, execute@let end_line = start_line + consumed.saturating_sub(1) *)
Definition window_result (call_id : ToolCallId) (input : ReadToolInput) (resolved : PathBuf) (snapshot_id : string)
    (annotate : bool) (budget : N) (total_lines start_line : nat) (lines : list string) (anchor_line : option nat)
    : ToolResult :=
  let end_line := window_end start_line lines in
  let selection_hash := stable_text_hash (str_join nl lines) in
  let header := "[read path=" +:+ rti_path input +:+ " lines=" +:+ fmt_nat start_line +:+ "-" +:+ fmt_nat end_line
                +:+ " / " +:+ fmt_nat total_lines +:+ " snapshot=" +:+ snapshot_id +:+ " slice=" +:+ selection_hash
                +:+ "]" in
  let body := if annotate then format_numbered_lines lines start_line else str_join nl lines in
  let output :=
    (if str_is_empty body then header else header +:+ nl +:+ body)
    +:+ match anchor_line with
        | Some l => nl +:+ nl +:+ "[anchor matched at line " +:+ fmt_nat l +:+ "; use start_line=" +:+ fmt_nat l
                    +:+ " for a centered follow-up read]"
        | None => ""
        end
    +:+ continue_note input anchor_line budget total_lines start_line lines in
  let remaining := window_remaining total_lines start_line lines in
  let next := window_next total_lines start_line lines in
  let anchor := input_anchor input anchor_line in
  mkToolResult call_id call_id "read" [Part_Text output] []
    (Some (read_output_json (Read_Window (rti_path input) (path_display resolved) snapshot_id selection_hash start_line
                               end_line (length lines) total_lines remaining annotate next anchor false)))
    (Some (Continuation_FileWindow snapshot_id (Some selection_hash) next))
    (Some (jd_object [("path", path_json resolved); ("snapshot_id", jd_string snapshot_id);
                      ("selection_hash", jd_string selection_hash); ("start_line", jd_usize start_line);
                      ("end_line", jd_usize end_line); ("output_lines", jd_usize (length lines));
                      ("total_lines", jd_usize total_lines); ("remaining_lines", jd_usize remaining);
                      ("annotate_lines", jd_bool annotate); ("next_start_line", jd_option jd_usize next);
                      ("anchor", jd_option anchor_json anchor)]))
    false.

(** The result of reading the text of a file. *)
(* crates/tools/src/fs/read.rs, execute@if input.end_line.is_some() && input.line_count.is_some() *)
Definition read_text (call_id : ToolCallId) (input : ReadToolInput) (resolved : PathBuf) (budget : N) (text : string)
    : result ToolResult ToolError :=
  if bool_decide (is_Some (rti_end_line input)) && bool_decide (is_Some (rti_line_count input)) then
    Err (ToolErr_InvalidInput "read accepts either end_line or line_count, not both")
  else
    let snapshot_id := stable_text_hash text in
    let buffer := TextBuffer_parse text in
    let annotate := default true (rti_annotate_lines input) in
    if buffer_is_empty buffer then Ok (empty_result call_id (rti_path input) resolved snapshot_id annotate)
    else
      selection <-? select_lines input budget (buf_lines buffer);
      Ok (match selection with
          | Sel_Notice start line =>
              notice_result call_id (rti_path input) resolved snapshot_id budget (line_count buffer) start line
          | Sel_Window start lines anchor_line =>
              window_result call_id input resolved snapshot_id annotate budget (line_count buffer) start lines anchor_line
          end).

(* crates/tools/src/fs/read.rs, execute *)
Definition ReadTool_execute (observer : option nat) (call_id : ToolCallId) (arguments : Value)
    (c : ToolExecutionContext) (w : TWorld) : result ToolResult ToolError * TWorld :=
  match decode_read_input arguments with
  | Err e => (Err (ToolErr_Json e), w)
  | Ok input =>
      match resolved <-? open_for_read c (rti_path input);
            content <-? read_bytes resolved;
            Ok (resolved, content) with
      | Err e => (Err e, w)
      | Ok (resolved, content) =>
          match sniff_image_mime content resolved with
          | Some mime => (Ok (image_result call_id (rti_path input) resolved mime content), w)
          | None =>
              if negb (utf8_valid content) then
                (Err (ToolErr_InvalidInput "read: file is not valid UTF-8 or supported image"), w)
              else
                let w := match observer with
                         | Some o => file_activity o (did_open resolved) w
                         | None => w
                         end in
                (read_text call_id input resolved (resolve_adaptive_read_max_bytes (tc_model_context_window_tokens c))
                   content, w)
          end
      end
  end.

End ReadTool.
