(* ===== verification/ReadProps.v ===== *)
(** * What the read tool guarantees

    A window is a slice of the file; the pages of a file cover it; what a read reports is
    accepted by an edit of the text that was read. *)

From Stdlib Require Import Ascii String.
From stdpp Require Import base list strings.
From Stdlib Require Import Lia.
From S2P Require Import Prelude Text Message Errors TextBuffer Mutation WriteLease SandboxPolicy Tools PathPolicy.
From S2P Require Import StoreSearch Float64 FileQueries ReadTool.

(** ** Windows *)

(** The lines from line [s] on, as many as [ls] has. *)
Definition slice_at (lines : list string) (s : nat) (ls : list string) : Prop :=
  (1 <= s <= length lines)%nat /\ ls = take (length ls) (drop (s - 1) lines).

Lemma take_N_slice {A} count (l : list A) : take_N count l = take (length (take_N count l)) l.
Proof.
  unfold take_N. rewrite length_take. set (n := N.to_nat _).
  destruct (le_lt_dec n (length l)); [by rewrite Nat.min_l|]. rewrite Nat.min_r by lia. by rewrite !take_ge by lia.
Qed.

Lemma fill_page_slice budget used l : fill_page budget used l = take (length (fill_page budget used l)) l.
Proof.
  revert used. induction l as [|x l IH]; intros used; simpl; [done|]. case_match; simpl; [done|]. by rewrite <- IH.
Qed.

Lemma page_slice budget l page : page_lines budget l = Some page -> page = take (length page) l.
Proof.
  destruct l as [|x l]; simpl; [by intros [= <-]|]. case_match; [done|]. intros [= <-]. simpl.
  f_equal. apply fill_page_slice.
Qed.

Section Windows.
Context {U : UnicodeCase}.

Lemma anchor_start_ge input lines w : anchor_window input lines = Ok w -> (1 <= w.1.1)%N.
Proof.
  unfold anchor_window. destruct (rti_anchor_text input); [|intros [= <-]; simpl; lia].
  case_match; [done|]. case_match; [done|]. intros Hw. inv_result.
  unfold resolve_anchor_window in *. case_match; [|done]. inv_result. simpl. lia.
Qed.

Lemma select_window_slice input budget lines s ls a :
  select_lines input budget lines = Ok (Sel_Window s ls a) -> slice_at lines s ls.
Proof.
  unfold select_lines. destruct (anchor_window input lines) as [[[start forced] al]|] eqn:Ew; simpl; [|done].
  apply anchor_start_ge in Ew. simpl in Ew. destruct (N.ltb_spec (N.of_nat (length lines)) start); [done|].
  intros Hw. assert (Hslice : s = N.to_nat start /\ ls = take (length ls) (drop (N.to_nat start - 1) lines)).
  { repeat case_match; try done; injection Hw as <- <- <-; split; try done;
      first [apply take_N_slice | by eapply page_slice]. }
  destruct Hslice as [-> Hls]. split; [lia | exact Hls].
Qed.
End Windows.

(** ** Pages *)

Definition joined_len (ls : list string) : N := byte_len (str_join nl ls).

Lemma byte_len_app a b : byte_len (a +:+ b) = (byte_len a + byte_len b)%N.
Proof. unfold byte_len. rewrite slength_app. lia. Qed.

Lemma joined_len_cons x l : l <> [] -> joined_len (x :: l) = (byte_len x + 1 + joined_len l)%N.
Proof. intros Hl. unfold joined_len. rewrite join_cons, !byte_len_app by done. unfold nl. change (byte_len (String newline "")) with 1%N. lia. Qed.

Lemma fill_page_len budget used x l :
  (used <= budget)%N -> (joined_len (x :: fill_page budget used l) - byte_len x + used <= budget)%N
    /\ (byte_len x <= joined_len (x :: fill_page budget used l))%N.
Proof.
  revert x used. induction l as [|y l IH]; intros x used Hu; simpl; [unfold joined_len; simpl; lia|].
  destruct (N.ltb_spec budget (used + (byte_len y + 1))); [unfold joined_len; simpl; lia|].
  rewrite joined_len_cons by done.
  destruct (IH y (used + (byte_len y + 1))%N) as [H1 H2]; [lia|]. lia.
Qed.

Lemma page_fits budget l page : page_lines budget l = Some page -> (joined_len page <= budget)%N.
Proof.
  destruct l as [|x l]; simpl; [intros [= <-]; apply N.le_0_l|].
  destruct (N.ltb_spec budget (byte_len x)); [done|]. intros [= <-].
  destruct (fill_page_len budget (byte_len x) x l) as [H1 H2]; [done|]. lia.
Qed.

(** A read of the page that starts at a line. *)
Definition page_request (path : string) (start : nat) : ReadToolInput :=
  mkReadToolInput path (Some (N.of_nat start)) None None None None None None None.

(** The pages from a line on, each asked for with the [next_start_line] of the last. *)
Fixpoint read_on `{UnicodeCase} (fuel : nat) (budget : N) (lines : list string) (start : nat)
    : option (list (list string)) :=
  match fuel with
  | O => None
  | S fuel =>
      match select_lines (page_request "" start) budget lines with
      | Ok (Sel_Window s page _) =>
          match window_next (length lines) s page with
          | None => Some [page]
          | Some next => cons page <$> read_on fuel budget lines next
          end
      | _ => None
      end
  end.

Section Pages.
Context {U : UnicodeCase}.

Lemma select_page budget lines start :
  (1 <= start <= length lines)%nat ->
  select_lines (page_request "" start) budget lines
  = Ok (match page_lines budget (drop (start - 1) lines) with
        | Some page => Sel_Window start page None
        | None => Sel_Notice start (default "" (head (drop (start - 1) lines)))
        end).
Proof.
  intros Hs. unfold select_lines. simpl. rewrite N.max_l by lia.
  destruct (N.ltb_spec (N.of_nat (length lines)) (N.of_nat start)); [lia|]. rewrite Nat2N.id.
  by destruct (page_lines budget (drop (start - 1) lines)).
Qed.

Lemma read_on_covers budget lines fuel start :
  Forall (fun l => (byte_len l <= budget)%N) lines ->
  (1 <= start <= length lines)%nat -> (length lines - start < fuel)%nat ->
  exists pages, read_on fuel budget lines start = Some pages /\ concat pages = drop (start - 1) lines
    /\ Forall (fun p => p <> [] /\ (joined_len p <= budget)%N) pages.
Proof.
  intros Hall. revert start. induction fuel as [|fuel IH]; intros start Hs Hf; [lia|]. simpl.
  rewrite select_page by done.
  destruct (drop (start - 1) lines) as [|x rest] eqn:Ed.
  { apply (f_equal length) in Ed. rewrite length_drop in Ed. simpl in Ed. lia. }
  assert (Hx : (byte_len x <= budget)%N).
  { apply (Forall_drop _ (start - 1)) in Hall. rewrite Ed in Hall. by inversion Hall. }
  destruct (page_lines budget (x :: rest)) as [page|] eqn:Ep.
  2:{ simpl in Ep. destruct (N.ltb_spec budget (byte_len x)); [lia|done]. }
  pose proof (page_fits _ _ _ Ep) as Hfit. pose proof (page_slice _ _ _ Ep) as Hslice.
  assert (Hne : page <> []) by (simpl in Ep; case_match; [done|]; by injection Ep as <-).
  assert (Hlen : (1 <= length page)%nat) by (destruct page; simpl; [done|lia]).
  assert (Hle : (length page <= length (x :: rest))%nat).
  { rewrite Hslice, length_take. lia. }
  assert (Hd : length (x :: rest) = (length lines - (start - 1))%nat) by (by rewrite <- Ed, length_drop).
  unfold window_next, window_remaining. destruct (Nat.ltb_spec 0 (length lines - (start + length page - 1))).
  - destruct (IH (start + length page)%nat) as (pages & -> & Hc & Hp); [lia..|].
    exists (page :: pages). split; [done|]. split; [|by constructor].
    simpl. rewrite Hc. replace (start + length page - 1)%nat with ((start - 1) + length page)%nat by lia.
    rewrite <- drop_drop, Ed. rewrite Hslice at 1. apply take_drop.
  - exists [page]. split; [done|]. split; [|by repeat constructor].
    simpl. rewrite app_nil_r. rewrite Hslice. apply take_ge. lia.
Qed.
End Pages.

(** ** Reading, then editing *)

Lemma slice_text lines trailing s ls :
  slice_at lines s ls -> ls <> [] ->
  normalize_line_range (length lines) s (window_end s ls) = Ok (s - 1, window_end s ls)%nat
  /\ line_slice_text (mkTextBuffer lines trailing) s (window_end s ls) = Ok (str_join nl ls).
Proof.
  intros [[Hs1 Hs2] Hls] Hne. unfold window_end.
  assert (Hl : (1 <= length ls)%nat) by (destruct ls; simpl; [done|lia]).
  assert (Hle : (length ls <= length lines - (s - 1))%nat).
  { rewrite Hls, length_take, length_drop. lia. }
  assert (Hr : normalize_line_range (length lines) s (s + (length ls - 1)) = Ok (s - 1, s + (length ls - 1))%nat).
  { unfold normalize_line_range. destruct (Nat.eqb_spec s 0); [lia|].
    destruct (Nat.ltb_spec (s + (length ls - 1)) s); [lia|].
    by destruct (Nat.ltb_spec (length lines) (s + (length ls - 1))); [lia|]. }
  split; [exact Hr|]. unfold line_slice_text, line_count. simpl. rewrite Hr. simpl.
  replace (s + (length ls - 1) - (s - 1))%nat with (length ls) by lia. by rewrite <- Hls.
Qed.

(** A text that is not empty has a line. *)
Lemma parse_not_empty text : text <> "" -> buffer_is_empty (TextBuffer_parse text) = false.
Proof.
  intros Hne. unfold buffer_is_empty, TextBuffer_parse. replace (str_is_empty text) with false by (by destruct text).
  cbn [buf_lines]. rewrite split_terminator_ends by done. pose proof (split_ends_newline text Hne) as He.
  destruct (ends_with text nl).
  - destruct He as (l & -> & Hl). rewrite removelast_last. by destruct l.
  - pose proof (split_on_ne newline text). by destruct (split_on newline text).
Qed.

Section ReadEdit.
Context {J : SerdeJson} {JD : JsonData J} {S256 : Sha256} {H : FileToolHost} {U : UnicodeCase} {Q : FileQueries}.

Lemma mismatch_same h : snapshot_mismatch (Some h) (Some h) = None.
Proof. unfold snapshot_mismatch. by rewrite ?bool_decide_eq_true_2, ?String.eqb_refl. Qed.

(** An edit of the slice that was read, with the hashes that were reported. *)
Lemma edit_of_slice path text s ls new :
  slice_at (buf_lines (TextBuffer_parse text)) s ls -> ls <> [] ->
  exists outcome,
    apply_text_edits (Some text) path (Some (stable_text_hash text))
      [Edit_ReplaceLines s (window_end s ls) new (Some (stable_text_hash (str_join nl ls)))] = Ok outcome
    /\ mut_is_error outcome = false
    /\ next_content outcome
       = Some (to_text (mkTextBuffer (splice (buf_lines (TextBuffer_parse text)) (s - 1) (window_end s ls)
                                        (parse_replacement_lines new))
                          (buf_trailing_newline (TextBuffer_parse text)))).
Proof.
  intros Hs Hne. destruct (TextBuffer_parse text) as [lines trailing] eqn:Eb.
  destruct (slice_text lines trailing s ls Hs Hne) as [Hr Ht].
  unfold apply_text_edits. cbn [is_nil]. cbv zeta. rewrite mismatch_same. cbn [edit_loop apply_single_edit]. unfold run_line_replace.
  rewrite Eb, Ht. cbn [result_bind]. rewrite mismatch_same. unfold replace_lines, line_count. simpl. rewrite Hr. simpl.
  eexists. done.
Qed.

(** C29.  What a read of a text file reports can be used for an edit of that text: the
    snapshot is the hash of the text, the window is a slice of its lines with the reported
    hash and continuation, and replacing exactly these lines, with both hashes as guards,
    succeeds and changes nothing else. *)
Theorem read_reports_are_accepted call_id input resolved budget text r snapshot selection next :
  text <> "" -> read_text call_id input resolved budget text = Ok r ->
  result_continuation r = Some (Continuation_FileWindow snapshot (Some selection) next) ->
  exists s ls,
    let b := TextBuffer_parse text in
    snapshot = stable_text_hash text /\ slice_at (buf_lines b) s ls /\
    selection = stable_text_hash (str_join nl ls) /\ next = window_next (line_count b) s ls /\
    (ls <> [] -> forall path new, exists outcome,
       apply_text_edits (Some text) path (Some snapshot)
         [Edit_ReplaceLines s (window_end s ls) new (Some selection)] = Ok outcome
       /\ mut_is_error outcome = false
       /\ next_content outcome
          = Some (to_text (mkTextBuffer (splice (buf_lines b) (s - 1) (window_end s ls) (parse_replacement_lines new))
                             (buf_trailing_newline b)))).
Proof.
  intros Htext Hr Hc. unfold read_text in Hr. case_match; [done|].
  destruct (buffer_is_empty _) eqn:Ee.
  { by rewrite parse_not_empty in Ee. }
  destruct (select_lines _ _ _) as [[s ls al|s l]|] eqn:Es; simpl in Hr; [| |done]; injection Hr as <-; [|done].
  unfold window_result in Hc. cbn [result_continuation] in Hc. injection Hc as <- <- <-.
  apply select_window_slice in Es. exists s, ls. split_and!; try done.
  intros Hne path new. by apply edit_of_slice.
Qed.
End ReadEdit.

(** C28.  Reading a file page by page, each page at the [next_start_line] of the one before
    it, shows every line of the file once and in order, in at most as many reads as the
    file has lines; no page is empty and none exceeds the byte budget, when every line by
    itself is within it.  The budget is between 50 and 512 KiB. *)
Theorem read_pages_cover_file `{UnicodeCase} tokens lines :
  let budget := resolve_adaptive_read_max_bytes tokens in
  (51200 <= budget <= 524288)%N /\
  (lines <> [] -> Forall (fun l => (byte_len l <= budget)%N) lines ->
   exists pages, read_on (length lines) budget lines 1 = Some pages /\ concat pages = lines
     /\ Forall (fun p => p <> [] /\ (joined_len p <= budget)%N) pages).
Proof.
  intros budget. split.
  - unfold budget, resolve_adaptive_read_max_bytes. destruct tokens; [|done].
    change DEFAULT_READ_PAGE_MAX_BYTES with 51200%N. change MAX_ADAPTIVE_READ_MAX_BYTES with 524288%N. lia.
  - intros Hne Hall. destruct (read_on_covers budget lines (length lines) 1 Hall) as (pages & H1 & H2 & H3).
    + destruct lines; simpl; [done|lia].
    + destruct lines; simpl; [done|lia].
    + exists pages. by rewrite H2.
Qed.

(** ** Concrete runs *)

#[local] Existing Instance json_text.
#[export] Instance ascii_letters : UnicodeCase := {| to_lowercase := to_ascii_lowercase |}.

(** Three lines. *)
Definition three_lines : string := "alpha" +:+ nl +:+ "beta" +:+ nl +:+ "gamma" +:+ nl.
Definition second_line : ReadToolInput :=
  mkReadToolInput "f" (Some 2%N) (Some 2%N) None (Some false) None None None None.

(** The tools of [PathPolicy] need a host; reading a text does not use it. *)
Definition no_queries : FileQueries := {|
  fq_view := plain_fs; fq_is_file := fun _ => false; fq_is_dir := fun _ => false;
  fq_read := fun _ => Err "not found"; fq_walk := fun _ _ => [];
  glob_new := fun _ => Err "no globs"; regex_new := fun _ _ => Err "no expressions";
  regex_escape := fun s => s; base64_encode := fun s => s
|}.

Lemma read_reports_are_accepted_witness :
  exists r, read_text "call" second_line ["/"; "f"] 51200 three_lines = Ok r /\
    exists s ls, slice_at (buf_lines (TextBuffer_parse three_lines)) s ls
      /\ stable_text_hash "beta" = stable_text_hash (str_join nl ls).
Proof.
  eexists. split; [vm_compute; reflexivity|].
  destruct (read_reports_are_accepted "call" second_line ["/"; "f"] 51200 three_lines _
              (stable_text_hash three_lines) (stable_text_hash "beta") (Some 3%nat)
              ltac:(discriminate) eq_refl ltac:(vm_compute; reflexivity)) as (s & ls & _ & Hs & Hh & _).
  exists s, ls. split; [exact Hs | exact Hh].
Defined.

Lemma read_pages_cover_file_witness :
  exists pages, read_on 2 (resolve_adaptive_read_max_bytes None) ["alpha"; "beta"] 1 = Some pages
    /\ concat pages = ["alpha"; "beta"].
Proof.
  destruct (read_pages_cover_file None ["alpha"; "beta"]) as [_ H].
  destruct H as (pages & H1 & H2 & _); [discriminate|repeat constructor; vm_compute; discriminate|].
  exists pages. split; [exact H1 | exact H2].
Defined.

(** Pages of ten bytes. *)
Example pages_of_ten : read_on 3 10 ["alpha"; "beta"; "gamma"] 1 = Some [["alpha"; "beta"]; ["gamma"]].
Proof. by vm_compute. Qed.

(** An anchor context close to the largest number wraps around in a release build, and the
    window ends before the line that matched. *)
Theorem anchor_context_wraps :
  exists ls, select_lines (mkReadToolInput "f" None None None None (Some "gamma") (Some u64_max) None None) 51200
    ["alpha"; "beta"; "gamma"] = Ok (Sel_Window 1 ls (Some 3%nat)) /\ "gamma" ∉ ls.
Proof.
  eexists. split; [vm_compute; reflexivity|]. intros Hin.
  apply list_elem_of_In in Hin. vm_compute in Hin. by destruct Hin as [|[|]].
Qed.
