(* ===== verification/SearchTools.v ===== *)
(** * The list, glob and grep tools

    Models [crates/tools/src/fs/list.rs], [glob.rs] and [grep.rs].  The walk of a directory,
    glob patterns and regular expressions are operations of [FileQueries]. *)

From Stdlib Require Import Ascii String.
From stdpp Require Import base list gmap sorting strings.
From Stdlib Require Import Lia.
From S2P Require Import Prelude Text Message Errors Mutation WriteLease SandboxPolicy Tools PathPolicy.
From S2P Require Import StoreSearch Float64 FileQueries ReadTool.

(** ** list *)

(* crates/tools/src/fs/list.rs, DEFAULT_LIST_LIMIT *)
Definition DEFAULT_LIST_LIMIT : N := 200.
(* crates/tools/src/fs/list.rs, DEFAULT_LIST_MAX_DEPTH *)
Definition DEFAULT_LIST_MAX_DEPTH : N := 4.

(* crates/tools/src/fs/list.rs, ListToolInput *)
Record ListToolInput := mkListToolInput {
  lti_path : option string;
  lti_recursive : option bool;
  lti_max_depth : option N;
  lti_limit : option N
}.

(* crates/tools/src/fs/list.rs, EntryKind::marker *)
Definition kind_marker (k : EntryKind) : string :=
  match k with Kind_File => "F" | Kind_Directory => "D" | Kind_Symlink => "L" | Kind_Other => "O" end.

(* crates/tools/src/fs/list.rs, EntryKind::as_str *)
Definition kind_as_str (k : EntryKind) : string :=
  match k with
  | Kind_File => "file" | Kind_Directory => "directory" | Kind_Symlink => "symlink" | Kind_Other => "other"
  end.

(* crates/tools/src/fs/list.rs, ListEntry *)
Record ListEntry := mkListEntry { le_path : string; le_kind : EntryKind }.

(* crates/tools/src/fs/list.rs, kind_rank *)
Definition kind_rank (k : EntryKind) : nat :=
  match k with Kind_Directory => 0 | Kind_File => 1 | Kind_Symlink => 2 | Kind_Other => 3 end.

(* crates/tools/src/fs/list.rs, compare_list_entry *)
Definition compare_list_entry (left right : ListEntry) : comparison :=
  then_with (String.compare (le_path left) (le_path right))
    (Nat.compare (kind_rank (le_kind left)) (kind_rank (le_kind right))).
Definition entry_le (left right : ListEntry) : Prop := compare_list_entry left right <> Gt.
#[global] Instance entry_le_dec left right : Decision (entry_le left right).
Proof. unfold entry_le. apply _. Defined.

(** [entries.sort_by(compare_list_entry); entries.truncate(limit)]. *)
Definition keep_smallest (limit : N) (entries : list ListEntry) : list ListEntry :=
  take_N limit (merge_sort entry_le entries).

(** [entries.push(entry)], and the pruning that follows it. *)
(* crates/tools/src/fs/list.rs, collect_entries@entries.push(ListEntry *)
Definition push_entry (limit : N) (entries : list ListEntry) (entry : ListEntry) : list ListEntry :=
  let entries := entries ++ [entry] in
  if (limit <? N.of_nat (length entries))%N then keep_smallest limit entries else entries.

(** What the walk found, as an entry relative to the root; [None] for the root itself. *)
(* crates/tools/src/fs/list.rs, collect_entries@let entry = entry?; ~~ entries.push(ListEntry *)
Definition walk_entry (root : PathBuf) (entry : result WalkEntry string) : result (option ListEntry) ToolError :=
  match entry with
  | Err e => Err (ToolErr_IgnoreWalk e)
  | Ok entry =>
      if bool_decide (we_path entry = root) then Ok None
      else match we_metadata entry with
           | Err e => Err (ToolErr_IgnoreWalk e)
           | Ok kind => Ok (Some (mkListEntry (slashes (relative_to root (we_path entry))) kind))
           end
  end.

(* crates/tools/src/fs/list.rs, collect_entries@for entry in builder.build() *)
Fixpoint collect_loop (root : PathBuf) (limit : N) (walk : list (result WalkEntry string))
    (entries : list ListEntry) : result (list ListEntry) ToolError :=
  match walk with
  | [] => Ok entries
  | found :: walk =>
      entry <-? walk_entry root found;
      collect_loop root limit walk
        (match entry with Some entry => push_entry limit entries entry | None => entries end)
  end.

(* crates/tools/src/fs/list.rs, normalize_requested_file_path *)
Definition normalize_requested_file_path (requested_path : string) (root : PathBuf) : string :=
  if String.eqb requested_path "." then default (path_display root) (file_name root)
  else str_replace backslash "/" (default requested_path (strip_prefix "./" requested_path)).

Section List.
Context {Q : FileQueries}.

(* crates/tools/src/fs/list.rs, collect_entries *)
Definition collect_entries (root : PathBuf) (recursive : bool) (max_depth limit : N)
    : result (list ListEntry) ToolError :=
  collect_loop root limit
    (fq_walk root (mkWalkOptions false (Some (if recursive then max_depth else 1%N)))) [].

(** The entries shown, and whether there were more. *)
(* crates/tools/src/fs/list.rs, execute@let mut entries = if root.is_file() ~~ let file_count *)
Definition list_entries (requested_path : string) (root : PathBuf) (recursive : bool) (max_depth limit : N)
    : result (list ListEntry * bool) ToolError :=
  entries <-? (if fq_is_file root
               then Ok [mkListEntry (normalize_requested_file_path requested_path root) Kind_File]
               else collect_entries root recursive max_depth (usize_add limit 1));
  let entries := merge_sort entry_le entries in
  let truncated := (limit <? N.of_nat (length entries))%N in
  Ok (if truncated then take_N limit entries else entries, truncated).
End List.

(** ** glob *)

(* crates/tools/src/fs/glob.rs, DEFAULT_GLOB_LIMIT *)
Definition DEFAULT_GLOB_LIMIT : N := 200.

(* crates/tools/src/fs/glob.rs, GlobToolInput *)
Record GlobToolInput := mkGlobToolInput {
  gti_pattern : string;
  gti_path : option string;
  gti_limit : option N
}.

(** [PathBuf: Ord] compares components. *)
Definition pathbuf_le (p q : PathBuf) : Prop := path_compare p q <> Gt.
#[global] Instance pathbuf_le_dec p q : Decision (pathbuf_le p q).
Proof. unfold pathbuf_le. apply _. Defined.

(** The files of a walk, or its first error. *)
Fixpoint walk_files (walk : list (result WalkEntry string)) : result (list PathBuf) ToolError :=
  match walk with
  | [] => Ok []
  | Err e :: _ => Err (ToolErr_IgnoreWalk e)
  | Ok entry :: walk =>
      files <-? walk_files walk;
      Ok (if bool_decide (we_file_type entry = Some Kind_File) then we_path entry :: files else files)
  end.

Section Files.
Context {Q : FileQueries}.

(* crates/tools/src/fs/glob.rs, collect_files *)
Definition collect_files (path : PathBuf) : result (list PathBuf) ToolError :=
  if fq_is_file path then Ok [path]
  else files <-? walk_files (fq_walk path (mkWalkOptions true None)); Ok (merge_sort pathbuf_le files).

(* crates/tools/src/fs/glob.rs, display_path *)
Definition glob_display_path (file root : PathBuf) : string :=
  if fq_is_dir root then slashes (relative_to root file) else path_display file.

(* crates/tools/src/fs/grep.rs, display_path *)
Definition grep_display_path (file search_path : PathBuf) : string :=
  if fq_is_dir search_path then slashes (relative_to search_path file)
  else default (path_display file) (file_name file).

(** The file matches by its path below the root or by its whole path. *)
Definition glob_matches (matcher : PathBuf -> bool) (root file : PathBuf) : bool :=
  matcher (relative_to root file) || matcher file.

(** The loop over the files: the matches so far and the files looked at. *)
(* crates/tools/src/fs/glob.rs, execute@for file in collect_files(&root)? *)
Fixpoint glob_loop (matcher : PathBuf -> bool) (root : PathBuf) (overflow_limit : N) (files : list PathBuf)
    (matches : list string) (scanned : nat) : list string * nat :=
  match files with
  | [] => (matches, scanned)
  | file :: files =>
      let scanned := S scanned in
      if glob_matches matcher root file then
        let matches := matches ++ [glob_display_path file root] in
        if (overflow_limit <=? N.of_nat (length matches))%N then (matches, scanned)
        else glob_loop matcher root overflow_limit files matches scanned
      else glob_loop matcher root overflow_limit files matches scanned
  end.
End Files.

(** ** grep *)

(* crates/tools/src/fs/grep.rs, DEFAULT_GREP_LIMIT *)
Definition DEFAULT_GREP_LIMIT : N := 100.
(* crates/tools/src/fs/grep.rs, DEFAULT_GREP_MAX_BYTES *)
Definition DEFAULT_GREP_MAX_BYTES : N := 50 * 1024.
(* crates/tools/src/fs/grep.rs, GREP_MAX_LINE_LENGTH *)
Definition GREP_MAX_LINE_LENGTH : nat := 400.

(* crates/tools/src/fs/grep.rs, LineRole *)
Inductive LineRole := Role_Match | Role_Context.
(* crates/tools/src/fs/grep.rs, LineRole::as_str *)
Definition role_as_str (r : LineRole) : string := match r with Role_Match => "match" | Role_Context => "context" end.
Definition is_context (r : LineRole) : bool := match r with Role_Context => true | Role_Match => false end.

(* crates/tools/src/fs/grep.rs, GrepLine *)
Record GrepLine := mkGrepLine {
  gl_text : string;
  gl_path : string;
  gl_line_number : nat;
  gl_role : LineRole;
  gl_trimmed : bool;
  gl_content : string
}.

(* crates/tools/src/fs/grep.rs, GrepToolInput *)
Record GrepToolInput := mkGrepToolInput {
  gpi_pattern : string;
  gpi_path : option string;
  gpi_glob : option string;
  gpi_ignore_case : option bool;
  gpi_literal : option bool;
  gpi_context : option N;
  gpi_limit : option N
}.

(* crates/tools/src/fs/grep.rs, truncate_line *)
Definition truncate_line (line : string) (limit : nat) : string * bool :=
  if (chars_count line <=? limit)%nat then (line, false) else (take_chars limit line +:+ "...", true).

(** The row of line [current] when the match is at [index]. *)
(* crates/tools/src/fs/grep.rs, execute@let source = content_lines[current] ~~ match file_display_lines.get_mut *)
Definition grep_row (display_path : string) (content_lines : list string) (index current : nat) : GrepLine :=
  let source := str_replace cr "" (default "" (content_lines !! current)) in
  let t := truncate_line source GREP_MAX_LINE_LENGTH in
  let role := if (current =? index)%nat then Role_Match else Role_Context in
  let line_number := S current in
  let text := match role with
              | Role_Match => display_path +:+ ":" +:+ fmt_nat line_number +:+ ": " +:+ t.1
              | Role_Context => display_path +:+ "-" +:+ fmt_nat line_number +:+ "- " +:+ t.1
              end in
  mkGrepLine text display_path line_number role t.2 t.1.

(** A row is kept once per line; a context row gives way to a match row.  The map is
    [BTreeMap<usize, GrepLine>]. *)
(* crates/tools/src/fs/grep.rs, execute@match file_display_lines.get_mut(&line_number) ~~ display_lines.extend *)
Definition put_row (rows : gmap nat GrepLine) (row : GrepLine) : gmap nat GrepLine :=
  match rows !! gl_line_number row with
  | Some existing =>
      if is_context (gl_role existing) && negb (is_context (gl_role row))
      then <[gl_line_number row := row]> rows else rows
  | None => <[gl_line_number row := row]> rows
  end.

(** [start..=end] around a match; [end] is below [start] when the sum wraps around. *)
(* crates/tools/src/fs/grep.rs, execute@let start = index.saturating_sub(context) ~~ for current in start *)
Definition context_window (context : N) (n_lines index : nat) : list nat :=
  let start := N.to_nat (N.of_nat index - context) in
  let stop := N.to_nat (N.min (usize_add (N.of_nat index) context) (N.of_nat (n_lines - 1))) in
  seq start (S stop - start).

(** What the search keeps from file to file. *)
Record GrepState := mkGrepState {
  gp_lines : list GrepLine;
  gp_observed : N;
  gp_line_truncated : bool;
  gp_limit_reached : bool
}.

Section GrepFile.
Variables (is_match : string -> bool) (limit context : N) (display_path : string) (content_lines : list string).

(** The rows of the window of one match. *)
Definition put_window (rows : gmap nat GrepLine) (index : nat) : gmap nat GrepLine :=
  foldl put_row rows (map (grep_row display_path content_lines index)
                        (context_window context (length content_lines) index)).
Definition window_truncated (index : nat) : bool :=
  existsb (fun current => gl_trimmed (grep_row display_path content_lines index current))
    (context_window context (length content_lines) index).

(** The loop over the lines from [index] on. *)
(* crates/tools/src/fs/grep.rs, execute@for (index, line) in content_lines.iter().enumerate() *)
Fixpoint grep_lines (lines : list string) (index : nat) (rows : gmap nat GrepLine) (observed : N) (truncated : bool)
    : gmap nat GrepLine * N * bool * bool :=
  match lines with
  | [] => (rows, observed, truncated, false)
  | line :: rest =>
      if negb (is_match line) then grep_lines rest (S index) rows observed truncated
      else
        let observed := (observed + 1)%N in
        if (limit <? observed)%N then (rows, observed, truncated, true)
        else grep_lines rest (S index) (put_window rows index) observed (truncated || window_truncated index)
  end.
End GrepFile.

(** [BTreeMap::into_values]: the rows by line number. *)
Definition row_le (a b : nat * GrepLine) : Prop := (a.1 <= b.1)%nat.
#[global] Instance row_le_dec a b : Decision (row_le a b).
Proof. unfold row_le. apply _. Defined.
Definition row_values (rows : gmap nat GrepLine) : list GrepLine := (merge_sort row_le (map_to_list rows)).*2.

Section Grep.
Context {Q : FileQueries}.

(* crates/tools/src/fs/grep.rs, build_pattern *)
Definition build_pattern (pattern : string) (literal ignore_case : bool) : result (string -> bool) ToolError :=
  match regex_new (if literal then regex_escape pattern else pattern) ignore_case with
  | Ok matcher => Ok matcher
  | Err e => Err (ToolErr_Regex e)
  end.

Definition build_glob (pattern : string) : result (PathBuf -> bool) ToolError :=
  match glob_new pattern with Ok matcher => Ok matcher | Err e => Err (ToolErr_Glob e) end.

(** One file: skipped when the glob does not match or it cannot be read as text. *)
(* crates/tools/src/fs/grep.rs, execute@if let Some(glob_matcher) = &glob ~~ let header *)
Definition grep_file (is_match : string -> bool) (glob : option (PathBuf -> bool)) (limit context : N)
    (search_path file : PathBuf) (st : GrepState) : GrepState :=
  if match glob with Some matcher => negb (glob_matches matcher search_path file) | None => false end then st
  else
    match fq_read_to_string file with
    | None => st
    | Some content =>
        let content_lines := split_on newline content in
        let '(rows, observed, truncated, reached) :=
          grep_lines is_match limit context (grep_display_path file search_path) content_lines content_lines 0 ∅
            (gp_observed st) (gp_line_truncated st) in
        mkGrepState (gp_lines st ++ row_values rows) observed truncated reached
    end.

(* crates/tools/src/fs/grep.rs, execute@for file in files { ~~ let header *)
Fixpoint grep_files (is_match : string -> bool) (glob : option (PathBuf -> bool)) (limit context : N)
    (search_path : PathBuf) (files : list PathBuf) (st : GrepState) : GrepState :=
  match files with
  | [] => st
  | file :: files =>
      let st := grep_file is_match glob limit context search_path file st in
      if gp_limit_reached st then st else grep_files is_match glob limit context search_path files st
  end.
End Grep.

(** The lines that fit into the output after the header, and whether some did not. *)
(* crates/tools/src/fs/grep.rs, execute@for line in &display_lines ~~ let bytes_output *)
Fixpoint emit_lines (output : string) (lines : list GrepLine) : string * list GrepLine * bool :=
  match lines with
  | [] => (output, [], false)
  | line :: rest =>
      let next := nl +:+ gl_text line in
      if (DEFAULT_GREP_MAX_BYTES <? byte_len output + byte_len next)%N then (output, [], true)
      else let '(output, emitted, capped) := emit_lines (output +:+ next) rest in (output, line :: emitted, capped)
  end.

(** ** The tools *)

(** [serde_json::from_value] at the input types; the error is its text. *)
Class SearchInputs (J : SerdeJson) := {
  decode_list_input : Value -> result ListToolInput string;
  decode_glob_input : Value -> result GlobToolInput string;
  decode_grep_input : Value -> result GrepToolInput string
}.

Section SearchTools.
Context {J : SerdeJson} {JD : JsonData J} {Q : FileQueries} {I : SearchInputs J}.

Definition decoded {A} (r : result A string) : result A ToolError :=
  match r with Ok a => Ok a | Err e => Err (ToolErr_Json e) end.
Definition fmt_bool (b : bool) : string := if b then "true" else "false".
Definition count_kind (k : EntryKind) (entries : list ListEntry) : nat :=
  length (List.filter (fun e => bool_decide (le_kind e = k)) entries).
Definition entry_json (e : ListEntry) : Value :=
  jd_object [("path", jd_string (le_path e)); ("kind", jd_string (kind_as_str (le_kind e)))].

(* crates/tools/src/fs/list.rs, execute *)
Definition ListTool_execute (call_id : ToolCallId) (arguments : Value) (c : ToolExecutionContext)
    : result ToolResult ToolError :=
  input <-? decoded (decode_list_input arguments);
  let recursive := default false (lti_recursive input) in
  let max_depth := N.max (default (if recursive then DEFAULT_LIST_MAX_DEPTH else 1%N) (lti_max_depth input)) 1 in
  let limit := N.max (default DEFAULT_LIST_LIMIT (lti_limit input)) 1 in
  let requested_path := default "." (lti_path input) in
  root <-? open_for_read c requested_path;
  found <-? list_entries requested_path root recursive max_depth limit;
  let entries := found.1 in
  let truncated := found.2 in
  let files := count_kind Kind_File entries in
  let directories := count_kind Kind_Directory entries in
  let symlinks := count_kind Kind_Symlink entries in
  let others := count_kind Kind_Other entries in
  let header := "[list path=" +:+ requested_path +:+ " recursive=" +:+ fmt_bool recursive +:+ " max_depth="
                +:+ fmt_N max_depth +:+ " entries=" +:+ fmt_nat (length entries) +:+ " truncated=" +:+ fmt_bool truncated
                +:+ "]" in
  let output_lines :=
    ([header]
     ++ (if is_nil entries then ["[No entries found]"]
         else map (fun e => "[" +:+ kind_marker (le_kind e) +:+ "] " +:+ le_path e) entries)
     ++ (if truncated
         then ["[" +:+ fmt_N limit +:+ " entries limit reached. Narrow the path or increase limit.]"] else []))%list in
  Ok (mkToolResult call_id call_id "list" [Part_Text (str_join nl output_lines)] []
        (Some (jd_object
           [("requested_path", jd_string requested_path); ("resolved_path", jd_string (path_display root));
            ("recursive", jd_bool recursive); ("max_depth", jd_N max_depth); ("limit", jd_N limit);
            ("truncated", jd_bool truncated); ("entry_count", jd_usize (length entries));
            ("counts", jd_object [("files", jd_usize files); ("directories", jd_usize directories);
                                  ("symlinks", jd_usize symlinks); ("others", jd_usize others)]);
            ("entries", jd_array (map entry_json entries))]))
        None
        (Some (jd_object
           [("path", path_json root); ("requested_path", jd_string requested_path); ("recursive", jd_bool recursive);
            ("max_depth", jd_N max_depth); ("limit", jd_N limit); ("entry_count", jd_usize (length entries));
            ("truncated", jd_bool truncated); ("header", jd_string header);
            ("entries", jd_array (map entry_json entries));
            ("counts", jd_object [("files", jd_usize files); ("directories", jd_usize directories);
                                  ("symlinks", jd_usize symlinks); ("other", jd_usize others)])]))
        false).

Definition match_json (path : string) : Value := jd_object [("path", jd_string path); ("kind", jd_string "file")].

(** The matches shown, whether there were more, and the files looked at. *)
(* crates/tools/src/fs/glob.rs, execute@let overflow_limit = limit + 1 ~~ let header *)
Definition glob_files (matcher : PathBuf -> bool) (root : PathBuf) (limit : N)
    : result (list string * bool * nat) ToolError :=
  files <-? collect_files root;
  let '(matches, scanned) := glob_loop matcher root (usize_add limit 1) files [] 0 in
  let truncated := (limit <? N.of_nat (length matches))%N in
  Ok (if truncated then take_N limit matches else matches, truncated, scanned).

(* crates/tools/src/fs/glob.rs, execute *)
Definition GlobTool_execute (call_id : ToolCallId) (arguments : Value) (c : ToolExecutionContext)
    : result ToolResult ToolError :=
  input <-? decoded (decode_glob_input arguments);
  let requested_path := default "." (gti_path input) in
  root <-? open_for_read c requested_path;
  let pattern := gti_pattern input in
  matcher <-? build_glob pattern;
  let limit := N.max (default DEFAULT_GLOB_LIMIT (gti_limit input)) 1 in
  found <-? glob_files matcher root limit;
  let matches := found.1.1 in
  let truncated := found.1.2 in
  let scanned := found.2 in
  let header := "[glob pattern=" +:+ pattern +:+ " path=" +:+ requested_path +:+ " limit=" +:+ fmt_N limit
                +:+ " truncated=" +:+ fmt_bool truncated +:+ "]" in
  let output_lines :=
    ([header] ++ (if is_nil matches then ["[No matches found]"] else matches)
     ++ (if truncated
         then ["[" +:+ fmt_N limit +:+ " matches limit reached. Narrow the pattern or increase limit.]"]
         else []))%list in
  Ok (mkToolResult call_id call_id "glob" [Part_Text (str_join nl output_lines)] []
        (Some (jd_object
           [("requested_path", jd_string requested_path); ("resolved_path", jd_string (path_display root));
            ("pattern", jd_string pattern); ("limit", jd_N limit); ("truncated", jd_bool truncated);
            ("files_scanned", jd_usize scanned); ("match_count", jd_usize (length matches));
            ("matches", jd_array (map match_json matches))]))
        None
        (Some (jd_object
           [("path", path_json root); ("requested_path", jd_string requested_path); ("pattern", jd_string pattern);
            ("limit", jd_N limit); ("files_scanned", jd_usize scanned); ("match_count", jd_usize (length matches));
            ("truncated", jd_bool truncated); ("header", jd_string header);
            ("matches", jd_array (map match_json matches))]))
        false).

Definition row_json (l : GrepLine) : Value :=
  jd_object [("path", jd_string (gl_path l)); ("line", jd_usize (gl_line_number l));
             ("role", jd_string (role_as_str (gl_role l))); ("content", jd_string (gl_content l));
             ("trimmed", jd_bool (gl_trimmed l))].

(** [limit * 2] of a release build. *)
Definition usize_double (n : N) : N := ((n * 2) mod 18446744073709551616)%N.

Definition grep_notices (limit : N) (limit_reached byte_capped line_truncated : bool) : list string :=
  (if limit_reached
   then [fmt_N limit +:+ " matches limit reached. Use limit=" +:+ fmt_N (usize_double limit)
         +:+ " for more, or refine pattern"] else [])
  ++ (if byte_capped then [format_bytes DEFAULT_GREP_MAX_BYTES +:+ " limit reached"] else [])
  ++ (if line_truncated
      then ["Some lines truncated to " +:+ fmt_nat GREP_MAX_LINE_LENGTH +:+ " chars. Use read tool to see full lines"]
      else []).

(* crates/tools/src/fs/grep.rs, execute *)
Definition GrepTool_execute (call_id : ToolCallId) (arguments : Value) (c : ToolExecutionContext)
    : result ToolResult ToolError :=
  input <-? decoded (decode_grep_input arguments);
  let requested_path := default "." (gpi_path input) in
  search_path <-? open_for_read c requested_path;
  let pattern := gpi_pattern input in
  let literal := default false (gpi_literal input) in
  let ignore_case := default false (gpi_ignore_case input) in
  is_match <-? build_pattern pattern literal ignore_case;
  glob <-? match gpi_glob input with
           | Some p => matcher <-? build_glob p; Ok (Some matcher)
           | None => Ok None
           end;
  let limit := N.max (default DEFAULT_GREP_LIMIT (gpi_limit input)) 1 in
  let context := default 0%N (gpi_context input) in
  files <-? collect_files search_path;
  let st := grep_files is_match glob limit context search_path files (mkGrepState [] 0 false false) in
  let header := "[grep pattern=" +:+ pattern +:+ " path=" +:+ requested_path +:+ " context=" +:+ fmt_N context
                +:+ " limit=" +:+ fmt_N limit +:+ " truncated=" +:+ fmt_bool (gp_limit_reached st) +:+ " byte_limit="
                +:+ fmt_N DEFAULT_GREP_MAX_BYTES +:+ " ignore_case=" +:+ fmt_bool ignore_case +:+ " literal="
                +:+ fmt_bool literal +:+ "]" in
  let '(output, emitted, byte_capped) :=
    if is_nil (gp_lines st) then (header +:+ nl +:+ "[No matches found]", [], false)
    else emit_lines header (gp_lines st) in
  let notices := grep_notices limit (gp_limit_reached st) byte_capped (gp_line_truncated st) in
  let text := output +:+ (if is_nil notices then "" else nl +:+ nl +:+ "[" +:+ str_join ". " notices +:+ "]") in
  let match_count := N.min (gp_observed st) limit in
  let context_lines := length (List.filter (fun l => is_context (gl_role l)) emitted) in
  Ok (mkToolResult call_id call_id "grep" [Part_Text text] []
        (Some (jd_object
           [("requested_path", jd_string requested_path); ("resolved_path", jd_string (path_display search_path));
            ("pattern", jd_string pattern); ("glob", jd_option jd_string (gpi_glob input)); ("context", jd_N context);
            ("limit", jd_N limit); ("match_count", jd_N match_count); ("match_count_lower_bound", jd_N (gp_observed st));
            ("lines_returned", jd_usize (length emitted)); ("context_lines", jd_usize context_lines);
            ("limit_reached", jd_bool (gp_limit_reached st)); ("byte_capped", jd_bool byte_capped);
            ("line_truncated", jd_bool (gp_line_truncated st)); ("byte_limit", jd_N DEFAULT_GREP_MAX_BYTES);
            ("ignore_case", jd_bool ignore_case); ("literal", jd_bool literal);
            ("entries", jd_array (map row_json emitted))]))
        None
        (Some (jd_object
           [("path", jd_string (path_display search_path)); ("requested_path", jd_string requested_path);
            ("pattern", jd_string pattern); ("glob", jd_option jd_string (gpi_glob input)); ("context", jd_N context);
            ("limit", jd_N limit); ("match_count", jd_N match_count); ("match_count_lower_bound", jd_N (gp_observed st));
            ("lines_collected", jd_usize (length (gp_lines st))); ("lines_returned", jd_usize (length emitted));
            ("context_lines", jd_usize context_lines); ("limit_reached", jd_bool (gp_limit_reached st));
            ("byte_capped", jd_bool byte_capped); ("line_truncated", jd_bool (gp_line_truncated st));
            ("bytes_output", jd_N (byte_len output)); ("byte_limit", jd_N DEFAULT_GREP_MAX_BYTES);
            ("header", jd_string header); ("ignore_case", jd_bool ignore_case); ("literal", jd_bool literal);
            ("entries", jd_array (map row_json emitted))]))
        false).

End SearchTools.
