(* ===== verification/SearchProps.v ===== *)
(** * What the list, glob and grep tools guarantee

    A listing that is pruned while the walk goes on is the sorted listing cut at its limit;
    a search shows the rows around its matches, each once. *)

From Stdlib Require Import Ascii String.
From stdpp Require Import base list gmap sorting strings.
From Stdlib Require Import Lia.
From S2P Require Import Prelude Text Message Errors Mutation WriteLease SandboxPolicy Tools PathPolicy.
From S2P Require Import StoreSearch StoreProps StoreOrder Float64 FileQueries ReadTool ReadProps SearchTools.

(** ** Sorted listings *)

#[global] Instance ordering_entry : Ordering compare_list_entry.
Proof.
  unfold compare_list_entry. apply ordering_then; [apply (ordering_on le_path), _|].
  apply (ordering_on (fun e => kind_rank (le_kind e))), _.
Qed.

Lemma entry_tie x y : compare_list_entry x y = Eq -> x = y.
Proof.
  unfold compare_list_entry. intros [H1%String.compare_eq_iff H2%Nat.compare_eq_iff]%then_with_eq.
  destruct x as [p []], y as [q []]; simpl in *; by subst.
Qed.

Lemma sort_entries_perm l l' : l ≡ₚ l' -> merge_sort entry_le l = merge_sort entry_le l'.
Proof. apply (merge_sort_unique compare_list_entry (H := entry_le_dec)). intros x y _ _. apply entry_tie. Qed.

Lemma entry_le_trans : Transitive entry_le.
Proof. apply (cmp_le_trans (c := compare_list_entry)). Qed.
Lemma entry_le_total : Total entry_le.
Proof. apply (cmp_le_total (c := compare_list_entry)). Qed.

Lemma sort_entries_sorted l : StronglySorted entry_le (merge_sort entry_le l).
Proof. pose proof entry_le_trans. pose proof entry_le_total. by apply StronglySorted_merge_sort. Qed.

(** Insertion into a sorted list. *)
Fixpoint insert_entry (x : ListEntry) (l : list ListEntry) : list ListEntry :=
  match l with
  | [] => [x]
  | y :: l => if decide (entry_le x y) then x :: y :: l else y :: insert_entry x l
  end.

Lemma insert_entry_perm x l : insert_entry x l ≡ₚ x :: l.
Proof. induction l as [|y l IH]; simpl; [done|]. case_decide; [done|]. rewrite IH. constructor. Qed.

Lemma insert_entry_sorted x l : StronglySorted entry_le l -> StronglySorted entry_le (insert_entry x l).
Proof.
  induction 1 as [|y l Hl IH Hy]; simpl; [by repeat constructor|]. case_decide as Hxy.
  - constructor; [by constructor|]. constructor; [done|]. eapply Forall_impl; [exact Hy|].
    intros z. by apply entry_le_trans.
  - constructor; [done|]. rewrite insert_entry_perm. constructor; [|done].
    by destruct (entry_le_total x y).
Qed.

(** A sorted list is what sorting its elements gives. *)
Lemma sort_unique l k : StronglySorted entry_le k -> k ≡ₚ l -> merge_sort entry_le l = k.
Proof.
  intros Hk Hp. apply (StronglySorted_unique_strong entry_le).
  - intros x y _ _ H1 H2. by apply entry_tie, cmp_le_tie.
  - apply sort_entries_sorted.
  - done.
  - by rewrite merge_sort_Permutation.
Qed.

Lemma sort_snoc l x : merge_sort entry_le (l ++ [x]) = insert_entry x (merge_sort entry_le l).
Proof.
  apply sort_unique; [apply insert_entry_sorted, sort_entries_sorted|].
  by rewrite insert_entry_perm, merge_sort_Permutation, (Permutation_app_comm l).
Qed.

(** The smallest [k] of a list and one more need only the smallest [k] of the list. *)
Lemma take_insert k x l : take k (insert_entry x (take k l)) = take k (insert_entry x l).
Proof.
  revert k. induction l as [|y l IH]; intros [|k]; simpl; try done.
  case_decide; simpl; [|by rewrite IH].
  f_equal. destruct k as [|k]; [done|]. simpl. f_equal. rewrite take_take. f_equal. lia.
Qed.

Lemma take_N_nat {A} n (l : list A) : take_N n l = take (N.to_nat n) l.
Proof.
  unfold take_N. destruct (N.le_gt_cases n (N.of_nat (length l))); [by rewrite N.min_l|].
  rewrite N.min_r by lia. rewrite !take_ge by lia. done.
Qed.

Lemma sort_take k l : merge_sort entry_le (take k (merge_sort entry_le l)) = take k (merge_sort entry_le l).
Proof.
  apply sort_unique; [|done]. pose proof (sort_entries_sorted l) as Hs.
  rewrite <- (take_drop k (merge_sort entry_le l)) in Hs. by apply StronglySorted_app_1_l in Hs.
Qed.

(** What is kept while the walk goes on is the smallest of what was found. *)
Lemma push_entry_smallest limit found entries x :
  merge_sort entry_le entries = take (N.to_nat limit) (merge_sort entry_le found) ->
  merge_sort entry_le (push_entry limit entries x) = take (N.to_nat limit) (merge_sort entry_le (found ++ [x])).
Proof.
  intros H. unfold push_entry, keep_smallest.
  assert (Hall : take (N.to_nat limit) (merge_sort entry_le (entries ++ [x]))
                 = take (N.to_nat limit) (merge_sort entry_le (found ++ [x]))).
  { rewrite !sort_snoc, H. apply take_insert. }
  destruct (N.ltb_spec limit (N.of_nat (length (entries ++ [x])))) as [Hl|Hl].
  - by rewrite take_N_nat, sort_take, Hall.
  - rewrite <- Hall. symmetry. apply take_ge. rewrite merge_sort_Permutation. lia.
Qed.

Lemma collect_loop_smallest root limit walk found kept (all : list (option ListEntry)) :
  merge_sort entry_le kept = take (N.to_nat limit) (merge_sort entry_le found) ->
  map_result (walk_entry root) walk = Ok all ->
  exists entries, collect_loop root limit walk kept = Ok entries
    /\ merge_sort entry_le entries = take (N.to_nat limit) (merge_sort entry_le (found ++ omap id all)).
Proof.
  revert found kept all. induction walk as [|e walk IH]; intros found kept all Hk; simpl.
  - intros [= <-]. exists kept. split; [done|]. by rewrite app_nil_r.
  - destruct (walk_entry root e) as [o|] eqn:Ee; simpl; [|done].
    destruct (map_result (walk_entry root) walk) as [rest|] eqn:Er; simpl; [|done]. intros [= <-].
    destruct o as [x|]; simpl.
    + destruct (IH (found ++ [x]) (push_entry limit kept x) rest) as (entries & H1 & H2);
        [by apply push_entry_smallest | done|].
      exists entries. split; [done|]. by rewrite <- app_assoc in H2.
    + by apply IH.
Qed.

(** The list tool shows the first [limit] entries, by path, of everything the walk
    found below the directory, and says that it left some out exactly when there were more;
    that it keeps only the [limit + 1] smallest while it walks makes no difference. *)
Theorem list_shows_smallest `{FileQueries} requested root (recursive : bool) max_depth limit
    (all : list (option ListEntry)) :
  fq_is_file root = false -> (limit < u64_max)%N ->
  map_result (walk_entry root)
    (fq_walk root (mkWalkOptions false (Some (if recursive then max_depth else 1%N)))) = Ok all ->
  list_entries requested root recursive max_depth limit
  = Ok (take (N.to_nat limit) (merge_sort entry_le (omap id all)),
        (limit <? N.of_nat (length (omap id all)))%N).
Proof.
  intros Hf Hlim Hw. unfold list_entries. rewrite Hf. unfold collect_entries.
  destruct (collect_loop_smallest root (usize_add limit 1) _ [] [] all ltac:(by destruct (N.to_nat _)) Hw)
    as (entries & -> & Hs). simpl. rewrite Hs. simpl.
  assert (Hadd : usize_add limit 1 = (limit + 1)%N) by (unfold usize_add, u64_max in *; apply N.mod_small; lia).
  rewrite Hadd. set (s := merge_sort entry_le (omap id all)).
  assert (Hlen : length s = length (omap id all)) by (unfold s; by rewrite merge_sort_Permutation).
  rewrite length_take, Hlen. destruct (N.ltb_spec limit (N.of_nat (length (omap id all)))) as [Hl|Hl].
  - destruct (N.ltb_spec limit (N.of_nat (N.to_nat (limit + 1) `min` length (omap id all)))); [|lia].
    by rewrite take_N_nat, take_take, Nat.min_l by lia.
  - destruct (N.ltb_spec limit (N.of_nat (N.to_nat (limit + 1) `min` length (omap id all)))); [lia|].
    rewrite !take_ge by lia. done.
Qed.

(** ** Glob *)

Section Glob.
Context {Q : FileQueries}.

(** The files that match, as they are shown. *)
Definition glob_all (matcher : PathBuf -> bool) (root : PathBuf) (files : list PathBuf) : list string :=
  map (fun f => glob_display_path f root) (List.filter (glob_matches matcher root) files).

Lemma glob_loop_take matcher root overflow files acc scanned :
  (N.of_nat (length acc) < overflow)%N ->
  (glob_loop matcher root overflow files acc scanned).1
  = take (N.to_nat overflow) (acc ++ glob_all matcher root files).
Proof.
  revert acc scanned. induction files as [|f files IH]; intros acc scanned Ha; simpl.
  - rewrite app_nil_r, take_ge by lia. done.
  - unfold glob_all. simpl. destruct (glob_matches matcher root f) eqn:Em; [|by apply IH].
    simpl. destruct (N.leb_spec overflow (N.of_nat (length (acc ++ [glob_display_path f root])))) as [Ho|Ho].
    + simpl. rewrite length_app in Ho. simpl in Ho.
      replace (N.to_nat overflow) with (length (acc ++ [glob_display_path f root])) by (rewrite length_app; simpl; lia).
      set (more := map _ (List.filter _ files)).
      replace (acc ++ glob_display_path f root :: more) with ((acc ++ [glob_display_path f root]) ++ more)
        by (by rewrite <- app_assoc).
      by rewrite take_app_length.
    + rewrite IH by done. by rewrite <- app_assoc.
Qed.

(** The glob tool shows the first [limit] matching files in the order of their paths, and
    says so when there are more. *)
Theorem glob_shows_first matcher root limit files :
  (limit < u64_max)%N -> collect_files root = Ok files ->
  exists scanned, glob_files matcher root limit
    = Ok (take (N.to_nat limit) (glob_all matcher root files),
          (limit <? N.of_nat (length (glob_all matcher root files)))%N, scanned).
Proof.
  intros Hlim Hf. unfold glob_files. rewrite Hf. simpl.
  assert (Hadd : usize_add limit 1 = (limit + 1)%N) by (unfold usize_add, u64_max in *; apply N.mod_small; lia).
  pose proof (glob_loop_take matcher root (usize_add limit 1) files [] 0) as Hg.
  destruct (glob_loop matcher root (usize_add limit 1) files [] 0) as [ms scanned]. simpl in Hg.
  rewrite Hg by (rewrite Hadd; simpl; lia). rewrite Hadd. set (all := glob_all matcher root files). exists scanned.
  rewrite length_take. destruct (N.ltb_spec limit (N.of_nat (length all))) as [Hl|Hl].
  - destruct (N.ltb_spec limit (N.of_nat (N.to_nat (limit + 1) `min` length all))); [|lia].
    by rewrite take_N_nat, take_take, Nat.min_l by lia.
  - destruct (N.ltb_spec limit (N.of_nat (N.to_nat (limit + 1) `min` length all))); [lia|].
    by rewrite !take_ge by lia.
Qed.
End Glob.

(** ** Grep: the rows of a file *)

(** What one more row does to the row of its line. *)
Definition merge_row (old : option GrepLine) (row : GrepLine) : GrepLine :=
  match old with
  | Some existing => if is_context (gl_role existing) && negb (is_context (gl_role row)) then row else existing
  | None => row
  end.

Lemma put_row_lookup rows row n :
  put_row rows row !! n
  = if (gl_line_number row =? n)%nat then Some (merge_row (rows !! n) row) else rows !! n.
Proof.
  unfold put_row, merge_row. destruct (Nat.eqb_spec (gl_line_number row) n) as [->|Hn].
  - destruct (rows !! n) as [e|] eqn:E; [|by rewrite lookup_insert_eq].
    case_match; [by rewrite lookup_insert_eq | done].
  - destruct (rows !! gl_line_number row); [case_match; [|done]|]; by rewrite lookup_insert_ne.
Qed.

Section Rows.
Variables (display_path : string) (content : list string) (context : N).

Definition near (m cur : nat) : bool := bool_decide (cur ∈ context_window context (length content) m).

(** The row of a line that matched, and of a line shown for its neighbour. *)
Definition match_row (cur : nat) : GrepLine := grep_row display_path content cur cur.
Definition context_row (cur : nat) : GrepLine := grep_row display_path content (S cur) cur.

Lemma grep_row_cases m cur :
  grep_row display_path content m cur = if (cur =? m)%nat then match_row cur else context_row cur.
Proof.
  unfold match_row, context_row, grep_row.
  destruct (Nat.eqb_spec cur m) as [->|Hn]; [by rewrite ?Nat.eqb_refl|].
  by destruct (Nat.eqb_spec cur (S cur)); [lia|].
Qed.

Lemma match_role cur : gl_role (match_row cur) = Role_Match.
Proof. unfold match_row, grep_row. simpl. by rewrite Nat.eqb_refl. Qed.
Lemma context_role cur : gl_role (context_row cur) = Role_Context.
Proof. unfold context_row, grep_row. simpl. by destruct (Nat.eqb_spec cur (S cur)); [lia|]. Qed.

Lemma put_list_lookup m rows l cur :
  NoDup l ->
  foldl put_row rows (map (grep_row display_path content m) l) !! S cur
  = if bool_decide (cur ∈ l) then Some (merge_row (rows !! S cur) (grep_row display_path content m cur))
    else rows !! S cur.
Proof.
  revert rows. induction l as [|x l IH]; intros rows Hnd; cbn [map foldl].
  - rewrite bool_decide_eq_false_2; [done | apply not_elem_of_nil].
  - apply NoDup_cons in Hnd as [Hx Hnd]. rewrite IH, put_row_lookup by done.
    change (gl_line_number (grep_row display_path content m x)) with (S x).
    change (S x =? S cur)%nat with (x =? cur)%nat. destruct (Nat.eqb_spec x cur) as [->|Hn].
    + rewrite (bool_decide_eq_false_2 (cur ∈ l)) by done. rewrite bool_decide_eq_true_2 by (by constructor). done.
    + assert (Hiff : cur ∈ x :: l <-> cur ∈ l) by (rewrite elem_of_cons; naive_solver).
      by rewrite (bool_decide_ext _ _ Hiff).
Qed.

Lemma put_window_lookup rows m cur :
  put_window context display_path content rows m !! S cur
  = if near m cur then Some (merge_row (rows !! S cur) (grep_row display_path content m cur)) else rows !! S cur.
Proof. apply put_list_lookup. unfold context_window. apply NoDup_seq. Qed.

Lemma put_window_zero rows m : put_window context display_path content rows m !! 0%nat = rows !! 0%nat.
Proof.
  unfold put_window. generalize (context_window context (length content) m) as l. intros l. revert rows.
  induction l as [|x l IH]; intros rows; cbn [map foldl]; [done|]. by rewrite IH, put_row_lookup.
Qed.

(** The row a line has after the windows of some matches. *)
Definition expected_row (ms : list nat) (cur : nat) : option GrepLine :=
  if bool_decide (cur ∈ ms) then Some (match_row cur)
  else if existsb (fun m => near m cur) ms then Some (context_row cur) else None.

Lemma near_self m : (m < length content)%nat -> (N.of_nat m + context <= u64_max)%N -> near m m = true.
Proof.
  intros Hm Hc. apply bool_decide_eq_true, elem_of_seq. unfold usize_add, u64_max in *.
  rewrite N.mod_small by lia. lia.
Qed.

Lemma expected_row_snoc ms m cur :
  (m < length content)%nat -> (N.of_nat m + context <= u64_max)%N -> m ∉ ms ->
  (if near m cur then Some (merge_row (expected_row ms cur) (grep_row display_path content m cur))
   else expected_row ms cur) = expected_row (ms ++ [m]) cur.
Proof.
  intros Hm Hc Hms. unfold expected_row. rewrite existsb_app. simpl. rewrite orb_false_r, grep_row_cases.
  destruct (Nat.eqb_spec cur m) as [->|Hn].
  - rewrite near_self by done. rewrite (bool_decide_eq_false_2 (m ∈ ms)) by done.
    rewrite bool_decide_eq_true_2 by (apply elem_of_app; right; by apply list_elem_of_singleton).
    destruct (existsb _ ms); [|done]. unfold merge_row. by rewrite match_role, context_role.
  - assert (Hiff : cur ∈ ms ++ [m] <-> cur ∈ ms).
    { rewrite elem_of_app, list_elem_of_singleton. naive_solver. }
    rewrite (bool_decide_ext _ _ Hiff). destruct (near m cur); [|by rewrite orb_false_r]. rewrite orb_true_r.
    case_bool_decide.
    + unfold merge_row. by rewrite match_role.
    + destruct (existsb _ ms); [|done]. unfold merge_row. by rewrite context_role.
Qed.
End Rows.

(** The lines that match, by index from [index] on. *)
Fixpoint hits (is_match : string -> bool) (lines : list string) (index : nat) : list nat :=
  match lines with
  | [] => []
  | line :: rest => if is_match line then index :: hits is_match rest (S index) else hits is_match rest (S index)
  end.

Lemma hits_ge is_match lines index m : m ∈ hits is_match lines index -> (index <= m < index + length lines)%nat.
Proof.
  revert index. induction lines as [|l lines IH]; intros index; simpl; [by intros ?%not_elem_of_nil|].
  destruct (is_match l); [rewrite elem_of_cons; intros [->|H]; [lia|]|intros H]; apply IH in H; lia.
Qed.

Section GrepLines.
Variables (is_match : string -> bool) (limit context : N) (display_path : string) (content : list string).
Hypothesis Hcontext : (N.of_nat (length content) + context <= u64_max)%N.

Lemma grep_lines_rows lines index rows observed truncated ms rows' observed' truncated' reached :
  (index + length lines = length content)%nat -> (observed <= limit)%N ->
  rows !! 0%nat = None -> (forall cur, rows !! S cur = expected_row display_path content context ms cur) ->
  Forall (fun m => (m < index)%nat) ms ->
  grep_lines is_match limit context display_path content lines index rows observed truncated
  = (rows', observed', truncated', reached) ->
  let k := N.to_nat (limit - observed) in
  let all := hits is_match lines index in
  rows' !! 0%nat = None /\
  (forall cur, rows' !! S cur = expected_row display_path content context (ms ++ take k all) cur) /\
  reached = (k <? length all)%nat /\ observed' = (observed + N.of_nat (length all `min` S k))%N.
Proof.
  revert index rows observed truncated ms. induction lines as [|line lines IH];
    intros index rows observed truncated ms Hlen Hobs H0 Hrows Hms; cbn [grep_lines hits].
  - intros [= <- <- <- <-]. simpl. rewrite take_nil, app_nil_r. split_and!; [done..|]. lia.
  - simpl in Hlen. destruct (is_match line) eqn:Em; simpl negb; cbv iota.
    2:{ intros Hg. apply (IH (S index) rows observed truncated ms); try done; [lia|].
        eapply Forall_impl; [exact Hms|]. simpl. intros; lia. }
    destruct (N.ltb_spec limit (observed + 1)) as [Hl|Hl].
    { intros [= <- <- <- <-]. replace (N.to_nat (limit - observed)) with 0%nat by lia. simpl.
      rewrite app_nil_r. split_and!; try done. lia. }
    intros Hg. replace (N.to_nat (limit - observed)) with (S (N.to_nat (limit - (observed + 1)))) by lia.
    assert (Hni : index ∉ ms) by (intros Hin; eapply Forall_forall in Hms; [|exact Hin]; lia).
    destruct (IH (S index) (put_window context display_path content rows index) (observed + 1)%N
                (truncated || window_truncated context display_path content index) (ms ++ [index]))
      as (HA & HB & HC & HD); try done; try lia.
    + rewrite put_window_zero. done.
    + intros cur. rewrite put_window_lookup, Hrows. apply expected_row_snoc; [lia..|done].
    + apply Forall_app. split; [|by apply Forall_singleton; lia]. eapply Forall_impl; [exact Hms|]. simpl. intros; lia.
    + split_and!; [done| | |].
      * intros cur. rewrite HB, <- app_assoc. done.
      * rewrite HC. done.
      * rewrite HD. simpl length. lia.
Qed.
End GrepLines.

(** ** Grep: what is shown *)

(** The rows of the lines of a file, in order, around some matches. *)
Definition rows_in_order (display_path : string) (content : list string) (context : N) (ms : list nat)
    : list GrepLine :=
  omap (expected_row display_path content context ms) (seq 0 (length content)).

Section RowOrder.
Context (f : nat -> option GrepLine).

Definition keyed (cur : nat) : option (nat * GrepLine) := (fun r => (S cur, r)) <$> f cur.

Lemma keyed_row_in start n k r : (k, r) ∈ omap keyed (seq start n) <-> exists cur, k = S cur /\ (start <= cur < start + n)%nat /\ f cur = Some r.
Proof.
  rewrite list_elem_of_omap. unfold keyed. split.
  - intros (cur & Hc%elem_of_seq & Hf). destruct (f cur) eqn:E; [|done]. injection Hf as <- <-. by exists cur.
  - intros (cur & -> & Hc & Hf). exists cur. rewrite Hf. split; [by apply elem_of_seq | done].
Qed.

Lemma keyed_sorted start n :
  StronglySorted row_le (omap keyed (seq start n)) /\ NoDup (omap keyed (seq start n)).*1.
Proof.
  revert start. induction n as [|n IH]; intros start; [by split; constructor|].
  rewrite <- cons_seq. destruct (IH (S start)) as [H1 H2]. rewrite omap_cons_app.
  destruct (keyed start) as [[k r]|] eqn:Ek; [|done]. unfold keyed in Ek.
  destruct (f start) as [r'|]; [|done]. injection Ek as <- <-. simpl.
  assert (Hgt : forall q, q ∈ omap keyed (seq (S start) n) -> (S start < q.1)%nat).
  { intros [k' q] (cur & -> & Hc & _)%keyed_row_in. simpl. lia. }
  split; [constructor; [done|]|].
  - apply Forall_forall. intros q Hq%Hgt. unfold row_le. simpl. lia.
  - apply NoDup_cons. split; [|done]. rewrite list_elem_of_fmap. intros (q & Hq & Hin%Hgt). lia.
Qed.

(** [into_values] of a map that holds the rows of the lines. *)
Lemma row_values_in_order n (rows : gmap nat GrepLine) :
  rows !! 0%nat = None -> (forall cur, rows !! S cur = if (cur <? n)%nat then f cur else None) ->
  row_values rows = omap f (seq 0 n).
Proof.
  intros H0 Hs. destruct (keyed_sorted 0 n) as [Hsorted Hnd].
  assert (Hrows : rows = list_to_map (omap keyed (seq 0 n))).
  { apply map_eq. intros k. apply option_eq. intros r. rewrite <- elem_of_list_to_map, keyed_row_in by done.
    destruct k as [|cur]; [rewrite H0; split; [done | intros (? & ? & _); done]|].
    rewrite Hs. destruct (Nat.ltb_spec cur n).
    - split; [intros Hf; exists cur; split_and!; [done|lia..|done] | by intros (? & [= <-] & _ & Hf)].
    - split; [done|]. intros (? & [= <-] & ? & _). lia. }
  unfold row_values. rewrite Hrows.
  assert (Hp : map_to_list (list_to_map (omap keyed (seq 0 n)) : gmap nat GrepLine) ≡ₚ omap keyed (seq 0 n))
    by (by apply map_to_list_to_map).
  assert (Hsort : merge_sort row_le (map_to_list (list_to_map (omap keyed (seq 0 n)) : gmap nat GrepLine))
                  = omap keyed (seq 0 n)).
  { apply (StronglySorted_unique_strong row_le).
    - intros [k1 r1] [k2 r2] Hx Hy Hxy Hyx. rewrite merge_sort_Permutation, Hp in Hx.
      unfold row_le in *. simpl in *. assert (k1 = k2) as -> by lia.
      apply keyed_row_in in Hx as (cur & -> & _ & Hf). apply keyed_row_in in Hy as (cur' & [= <-] & _ & Hf'). congruence.
    - apply StronglySorted_merge_sort; [intros x y z; unfold row_le; lia | intros x y; unfold row_le; lia].
    - done.
    - by rewrite merge_sort_Permutation. }
  rewrite Hsort. clear. generalize (seq 0 n) as l. intros l. induction l as [|x l IH]; [done|].
  rewrite !omap_cons_app, fmap_app, IH. f_equal. unfold keyed. by destruct (f x).
Qed.
End RowOrder.

Lemma expected_row_out display_path content context ms cur :
  Forall (fun m => (m < length content)%nat) ms -> (length content <= cur)%nat ->
  expected_row display_path content context ms cur = None.
Proof.
  intros Hms Hc. unfold expected_row. case_bool_decide as Hin.
  { eapply Forall_forall in Hms; [|exact Hin]. lia. }
  destruct (existsb _ ms) eqn:E; [|done]. apply existsb_exists in E as (m & Hm & Hn).
  apply bool_decide_eq_true, elem_of_seq in Hn. apply list_elem_of_In in Hm.
  eapply Forall_forall in Hms; [|exact Hm]. simpl in Hms. lia.
Qed.

(** ** Grep: what a row says *)

(** The text of a line without its carriage returns. *)
Fixpoint without_cr (s : string) : string :=
  match s with
  | "" => ""
  | String a rest => if Ascii.eqb a (byte_at 13) then without_cr rest else String a (without_cr rest)
  end.

Lemma replace_cr s : str_replace cr "" s = without_cr s.
Proof.
  unfold str_replace. cbn [cr str_is_empty]. induction s as [|a s IH]; [done|]. cbn [split_str without_cr].
  assert (Hs : starts_with (String a s) cr = Ascii.eqb a (byte_at 13)).
  { unfold starts_with, cr. cbn [strip_prefix]. rewrite (Ascii.eqb_sym a). by destruct (Ascii.eqb _ _). }
  rewrite Hs. pose proof (split_str_ne cr 0 s) as Hne. destruct (Ascii.eqb a (byte_at 13)).
  - cbn [cr String.length Nat.sub]. rewrite join_cons by done. by rewrite IH.
  - destruct (split_str cr 0 s) as [|p ps]; [done|]. rewrite <- IH. by destruct ps.
Qed.

(** What is shown of a line: at most 400 characters of it, and dots when there are more. *)
Definition shown_text (line : string) : string :=
  let text := without_cr line in if (chars_count text <=? 400)%nat then text else take_chars 400 text +:+ "...".

(** The row of line [cur] (counted from 0) of a file. *)
Definition row_of (path : string) (cur : nat) (role : LineRole) (line : string) : GrepLine :=
  let mark := match role with Role_Match => ":" | Role_Context => "-" end in
  mkGrepLine (path +:+ mark +:+ fmt_nat (cur + 1) +:+ mark +:+ " " +:+ shown_text line) path (cur + 1) role
    (400 <? chars_count (without_cr line))%nat (shown_text line).

(** At most [context] lines apart. *)
Definition apart (context : N) (m cur : nat) : bool := (N.of_nat (m - cur + (cur - m)) <=? context)%N.

(** The row of a line, given the matches that are shown. *)
Definition row_shown (path : string) (context : N) (ms : list nat) (cur : nat) (line : string) : option GrepLine :=
  if bool_decide (cur ∈ ms) then Some (row_of path cur Role_Match line)
  else if existsb (fun m => apart context m cur) ms then Some (row_of path cur Role_Context line)
  else None.

Lemma grep_row_of path content m cur line :
  content !! cur = Some line ->
  grep_row path content m cur = row_of path cur (if (cur =? m)%nat then Role_Match else Role_Context) line.
Proof.
  intros Hl. unfold grep_row, row_of, shown_text, truncate_line. rewrite Hl. cbn [default from_option id].
  rewrite replace_cr, Nat.add_1_r. change GREP_MAX_LINE_LENGTH with 400%nat.
  assert (Hc : (400 <? chars_count (without_cr line))%nat = negb (chars_count (without_cr line) <=? 400)%nat)
    by apply Nat.ltb_antisym.
  rewrite Hc. destruct (chars_count (without_cr line) <=? 400)%nat, (cur =? m)%nat; done.
Qed.

Lemma near_apart content context m cur :
  (N.of_nat (length content) + context <= u64_max)%N -> (m < length content)%nat -> (cur < length content)%nat ->
  near content context m cur = apart context m cur.
Proof.
  intros Hc Hm Hcur. unfold near, apart, context_window. apply Bool.eq_iff_eq_true.
  rewrite bool_decide_eq_true, elem_of_seq, N.leb_le. unfold usize_add. rewrite N.mod_small by (unfold u64_max in *; lia). lia.
Qed.

Lemma expected_row_shown path content context ms cur line :
  (N.of_nat (length content) + context <= u64_max)%N -> Forall (fun m => (m < length content)%nat) ms ->
  content !! cur = Some line ->
  expected_row path content context ms cur = row_shown path context ms cur line.
Proof.
  intros Hc Hms Hl. pose proof (lookup_lt_Some _ _ _ Hl) as Hcur. unfold expected_row, row_shown, match_row, context_row.
  rewrite !(grep_row_of _ _ _ _ _ Hl), Nat.eqb_refl. replace (cur =? S cur)%nat with false by (symmetry; apply Nat.eqb_neq; lia).
  assert (He : existsb (fun m => near content context m cur) ms = existsb (fun m => apart context m cur) ms).
  { induction Hms as [|m ms Hm _ IH]; [done|]. cbn. by rewrite IH, near_apart. }
  by rewrite He.
Qed.

Lemma rows_in_order_shown path content context ms :
  (N.of_nat (length content) + context <= u64_max)%N -> Forall (fun m => (m < length content)%nat) ms ->
  rows_in_order path content context ms = omap id (imap (row_shown path context ms) content).
Proof.
  intros Hc Hms. unfold rows_in_order.
  assert (Hall : forall pre rest, content = pre ++ rest ->
    omap (expected_row path content context ms) (seq (length pre) (length rest))
    = omap id (imap (fun i => row_shown path context ms (length pre + i)) rest)).
  { intros pre rest. revert pre. induction rest as [|line rest IH]; intros pre He; [done|]. cbn [length seq imap].
    rewrite !omap_cons_app, Nat.add_0_r.
    rewrite (expected_row_shown path content context ms (length pre) line) by
      (done || (rewrite He, lookup_app_r, Nat.sub_diag by lia; done)).
    f_equal. specialize (IH (pre ++ [line])). rewrite length_app, <- app_assoc in IH. cbn [length app] in IH.
    rewrite Nat.add_1_r in IH. rewrite IH by done. f_equal. apply imap_ext. intros i x _. cbn. f_equal. lia. }
  apply (Hall [] content eq_refl).
Qed.

(** C30.  For a file that is searched, with a context whose sum with the number of lines fits a machine
    word, grep adds one row for each line that is one of the first matches still within the
    limit, or at most [context] lines away from one, in the order of the lines.  The row names the
    file and the number of the line, marks it as a match if it is such a match and as context
    otherwise, and shows its text without carriage returns, up to 400 characters.  The
    limit counts as reached exactly when the file has more matches. *)
Theorem grep_rows_exact `{FileQueries} is_match limit context search_path file st content :
  fq_read_to_string file = Some content -> (gp_observed st <= limit)%N ->
  let lines := split_on newline content in
  (N.of_nat (length lines) + context <= u64_max)%N ->
  let all := hits is_match lines 0 in
  let room := N.to_nat (limit - gp_observed st) in
  let st' := grep_file is_match None limit context search_path file st in
  gp_lines st' = gp_lines st
    ++ omap id (imap (row_shown (grep_display_path file search_path) context (take room all)) lines)
  /\ gp_limit_reached st' = (room <? length all)%nat
  /\ gp_observed st' = (gp_observed st + N.of_nat (length all `min` S room))%N.
Proof.
  intros Hread Hobs lines Hctx all room st'. unfold st', grep_file. rewrite Hread. fold lines.
  destruct (grep_lines _ _ _ _ lines lines 0 ∅ _ _) as [[[rows observed] truncated] reached] eqn:Eg.
  destruct (grep_lines_rows is_match limit context (grep_display_path file search_path) lines Hctx lines 0 ∅
              (gp_observed st) (gp_line_truncated st) [] rows observed truncated reached)
    as (H0 & Hrows & Hr & Ho); try done.
  assert (Hms : Forall (fun m => (m < length lines)%nat) (take room all)).
  { apply Forall_take, Forall_forall. intros m Hm%hits_ge. lia. }
  simpl. split_and!; [|done..]. f_equal. rewrite <- rows_in_order_shown by done.
  apply row_values_in_order; [done|]. intros cur. rewrite Hrows.
  destruct (Nat.ltb_spec cur (length lines)); [done|]. by apply expected_row_out.
Qed.

(** The output of grep before its notices stays within the byte limit (or is the header
    alone), the rows listed with it are the ones it shows, the first of those found, and it
    says that it was capped exactly when rows were left out. *)
Theorem grep_output_bounded output lines :
  let '(shown, emitted, capped) := emit_lines output lines in
  (byte_len shown <= N.max (byte_len output) DEFAULT_GREP_MAX_BYTES)%N
  /\ shown = output +:+ str_join "" (map (fun l => nl +:+ gl_text l) emitted)
  /\ (exists rest, lines = emitted ++ rest /\ capped = negb (is_nil rest)).
Proof.
  revert output. induction lines as [|l lines IH]; intros output; cbn [emit_lines].
  - split_and!; [lia | by rewrite sapp_nil_r | by exists []].
  - destruct (N.ltb_spec DEFAULT_GREP_MAX_BYTES (byte_len output + byte_len (nl +:+ gl_text l))) as [Hl|Hl].
    + split_and!; [lia | by rewrite sapp_nil_r | by exists (l :: lines)].
    + specialize (IH (output +:+ (nl +:+ gl_text l))).
      destruct (emit_lines _ lines) as [[shown emitted] capped]. destruct IH as (H1 & H2 & rest & -> & ->).
      rewrite byte_len_app in H1. split_and!; [lia| |by exists rest].
      rewrite H2, sapp_assoc. f_equal. destruct emitted as [|e es]; [by rewrite sapp_nil_r|].
      cbn [map]. rewrite (join_cons "" _ (_ :: _)) by done. done.
Qed.

(** ** A small directory *)

Definition small_text : string := "one" +:+ nl +:+ "two hit" +:+ nl +:+ "three" +:+ nl +:+ "four hit".
Definition small_entry (name : string) : result WalkEntry string :=
  Ok (mkWalkEntry ["/"; "w"; name] (Some Kind_File) (Ok Kind_File)).

#[export] Instance small_files : FileQueries := {|
  fq_view := plain_fs;
  fq_is_file := fun p => bool_decide (p ∈ [["/"; "w"; "b.txt"]; ["/"; "w"; "a.txt"]]);
  fq_is_dir := fun p => bool_decide (p = ["/"; "w"]);
  fq_read := fun _ => Ok small_text;
  fq_walk := fun root _ => Ok (mkWalkEntry root (Some Kind_Directory) (Ok Kind_Directory))
                           :: map small_entry ["b.txt"; "a.txt"];
  glob_new := fun pattern => Ok (fun p => existsb (fun c => ends_with c pattern) p);
  regex_new := fun pattern _ => Ok (fun line => str_contains line pattern);
  regex_escape := fun s => s;
  base64_encode := fun s => s
|}.

Lemma list_shows_smallest_witness :
  list_entries "." ["/"; "w"] false 1 1 = Ok ([mkListEntry "a.txt" Kind_File], true).
Proof.
  rewrite (list_shows_smallest "." ["/"; "w"] false 1 1
             [None; Some (mkListEntry "b.txt" Kind_File); Some (mkListEntry "a.txt" Kind_File)]);
    [vm_compute; reflexivity | vm_compute; reflexivity | vm_compute; reflexivity | vm_compute; reflexivity].
Defined.

Definition is_hit (line : string) : bool := str_contains line "hit".
Definition no_rows : GrepState := mkGrepState [] 0 false false.

Lemma grep_rows_exact_witness :
  gl_text <$> gp_lines (grep_file is_hit None 1 1 ["/"; "w"] ["/"; "w"; "a.txt"] no_rows)
  = ["a.txt-1- one"; "a.txt:2: two hit"; "a.txt-3- three"].
Proof.
  destruct (grep_rows_exact is_hit 1 1 ["/"; "w"] ["/"; "w"; "a.txt"] no_rows small_text) as [Hl _];
    [vm_compute; reflexivity | vm_compute; discriminate | vm_compute; discriminate|].
  rewrite Hl. vm_compute. reflexivity.
Defined.

(** ** Defects *)

(** [limit + 1] wraps around for the largest limit in a release build: list then shows
    nothing, and glob shows one file; neither says that files were left out. *)
Theorem largest_limit_shows_nothing :
  list_entries "." ["/"; "w"] false 1 u64_max = Ok ([], false)
  /\ glob_files (fun _ => true) ["/"; "w"] u64_max = Ok (["a.txt"], false, 1%nat).
Proof. by vm_compute. Qed.

(** A context close to the largest number wraps around too, and the line that matched is
    not among the rows. *)
Theorem largest_context_hides_match :
  gl_text <$> gp_lines (grep_file is_hit None 1 u64_max ["/"; "w"] ["/"; "w"; "a.txt"] no_rows) = ["a.txt-1- one"].
Proof. by vm_compute. Qed.
