(* ===== verification/Notebooks.v ===== *)
(** * The notebook tools

    Models [crates/tools/src/fs/notebook.rs]: reading a Jupyter notebook by windows of
    cells, and editing it by typed operations on its cells.  [NotebookProps] proves what
    they guarantee. *)

From Stdlib Require Import Ascii String.
From stdpp Require Import base list strings pretty.
From Stdlib Require Import Lia.
From S2P Require Import Prelude Text Message Errors TextBuffer Mutation WriteLease SandboxPolicy Tools PathPolicy FileQueries.

(* crates/tools/src/fs/notebook.rs, NOTEBOOK_EDIT_TOOL_NAME *)
Definition NOTEBOOK_EDIT_TOOL_NAME : string := "notebook_edit".
(* crates/tools/src/fs/notebook.rs, NOTEBOOK_READ_TOOL_NAME *)
Definition NOTEBOOK_READ_TOOL_NAME : string := "notebook_read".
(* crates/tools/src/fs/notebook.rs, DEFAULT_NOTEBOOK_CELL_COUNT *)
Definition DEFAULT_NOTEBOOK_CELL_COUNT : N := 8.
(* crates/tools/src/fs/notebook.rs, MAX_NOTEBOOK_CELL_COUNT *)
Definition MAX_NOTEBOOK_CELL_COUNT : N := 64.
(* crates/tools/src/fs/notebook.rs, MAX_SOURCE_PREVIEW_LINES *)
Definition MAX_SOURCE_PREVIEW_LINES : nat := 4.
(* crates/tools/src/fs/notebook.rs, MAX_OUTPUT_PREVIEW_LINES *)
Definition MAX_OUTPUT_PREVIEW_LINES : nat := 3.
(* crates/tools/src/fs/notebook.rs, MAX_OUTPUT_PREVIEW_ITEMS *)
Definition MAX_OUTPUT_PREVIEW_ITEMS : nat := 3.
(* crates/tools/src/fs/notebook.rs, MAX_PREVIEW_COLUMNS *)
Definition MAX_PREVIEW_COLUMNS : nat := 96.

(* crates/tools/src/fs/notebook.rs, NotebookReadToolInput *)
Record NotebookReadToolInput := mkNotebookReadToolInput {
  nri_path : string;
  nri_start_cell : option N;
  nri_end_cell : option N;
  nri_cell_count : option N;
  nri_include_outputs : option bool
}.

(* crates/tools/src/fs/notebook.rs, NotebookEditableCellType *)
Inductive NotebookEditableCellType := Edit_Code | Edit_Markdown | Edit_Raw.

(* crates/tools/src/fs/notebook.rs, NotebookEditOperation *)
Inductive NotebookEditOperation :=
| ReplaceCell (cell_index : N) (cell_type : NotebookEditableCellType) (source : string)
| InsertCell (cell_index : N) (cell_type : NotebookEditableCellType) (source : string)
| DeleteCell (cell_index : N).

(* crates/tools/src/fs/notebook.rs, NotebookEditToolInput *)
Record NotebookEditToolInput := mkNotebookEditToolInput {
  nei_path : string;
  nei_operations : list NotebookEditOperation;
  nei_expected_snapshot : option string
}.

(* crates/tools/src/fs/notebook.rs, NotebookCellType *)
Inductive NotebookCellType := Cell_Code | Cell_Markdown | Cell_Raw | Cell_Unknown.

(* crates/tools/src/fs/notebook.rs, NotebookOutputType *)
Inductive NotebookOutputType :=
| Output_Stream | Output_ExecuteResult | Output_DisplayData | Output_Error | Output_Unknown.

(* crates/tools/src/fs/notebook.rs, NotebookOutputPreview *)
Record NotebookOutputPreview := mkNotebookOutputPreview {
  nop_kind : NotebookOutputType;
  nop_summary : string;
  nop_text_preview : list string
}.

(* crates/tools/src/fs/notebook.rs, NotebookCellPreview *)
Record NotebookCellPreview := mkNotebookCellPreview {
  ncp_index : N;
  ncp_cell_type : NotebookCellType;
  ncp_execution_count : option Z;
  ncp_source_line_count : nat;
  ncp_source_preview : list string;
  ncp_output_count : nat;
  ncp_outputs : list NotebookOutputPreview
}.

(* crates/tools/src/fs/notebook.rs, NotebookReadToolOutput *)
Record NotebookReadToolOutput := mkNotebookReadToolOutput {
  nro_requested_path : string;
  nro_resolved_path : string;
  nro_nbformat : N;
  nro_nbformat_minor : N;
  nro_total_cells : N;
  nro_start_cell : N;
  nro_end_cell : N;
  nro_output_cells : N;
  nro_remaining_cells : N;
  nro_next_start_cell : option N;
  nro_include_outputs : bool;
  nro_language_name : option string;
  nro_kernelspec_name : option string;
  nro_kernelspec_display_name : option string;
  nro_cells : list NotebookCellPreview;
  nro_empty : bool
}.

(* crates/tools/src/fs/notebook.rs, NotebookAppliedEdit *)
Inductive NotebookAppliedEdit :=
| Applied_ReplaceCell (cell_index : N) (cell_type : NotebookEditableCellType)
| Applied_InsertCell (cell_index : N) (cell_type : NotebookEditableCellType)
| Applied_DeleteCell (cell_index : N).

(** ** JSON

    What the tools use of [serde_json] beyond building values: parsing, printing, arrays,
    objects and numbers, and writing the array found under a key in place. *)
Class NotebookJson (J : SerdeJson) := {
  (** [from_str], [to_string_pretty] *)
  json_parse : string -> option Value;
  json_pretty : Value -> option string;
  (** [as_array], [as_object] (the entries in the order of the map), [as_u64], [as_i64] *)
  value_as_array : Value -> option (list Value);
  value_as_object : Value -> option (list (string * Value));
  value_as_u64 : Value -> option N;
  value_as_i64 : Value -> option Z;
  (** [*value.get_mut(key).as_array_mut() = items] *)
  value_set_array : Value -> string -> list Value -> Value;
  (** numbers, serialized *)
  json_u64 : N -> Value;
  json_i64 : Z -> Value
}.

(** [serde_json::from_value] at the input types; the error is its text. *)
Class NotebookInputs (J : SerdeJson) := {
  decode_notebook_read_input : Value -> result NotebookReadToolInput string;
  decode_notebook_edit_input : Value -> result NotebookEditToolInput string
}.

Section Notebook.
Context {J : SerdeJson} {JD : JsonData J} {NJ : NotebookJson J}.

(** [Map::get]. *)
Definition map_get (m : list (string * Value)) (key : string) : option Value :=
  find_map (fun e : string * Value => if String.eqb e.1 key then Some e.2 else None) m.

(** [.map(str::trim).filter(|value| !value.is_empty())]. *)
Definition trimmed (s : option string) : option string :=
  text ← s; let text := trim text in if str_is_empty text then None else Some text.

(** ** Lines *)

(* crates/tools/src/fs/notebook.rs, split_lines *)
Definition split_lines (text : string) : list string := map trim_end (str_lines text).

(* crates/tools/src/fs/notebook.rs, clip_inline *)
Definition clip_inline (value : string) (max_columns : nat) : string :=
  if (max_columns <? chars_count value)%nat then take_chars (max_columns - 3) value +:+ "..." else value.

(* crates/tools/src/fs/notebook.rs, collapse_lines *)
Definition collapse_lines (lines : list string) (max_lines : nat) : list string :=
  let clipped := map (fun line => clip_inline line MAX_PREVIEW_COLUMNS) lines in
  if (length clipped <=? Nat.max max_lines 1)%nat then clipped
  else
    let keep := Nat.max (max_lines - 1) 1 in
    let hidden := (length clipped - keep)%nat in
    take keep clipped ++ ["… +" +:+ fmt_nat hidden +:+ " lines"].

(* crates/tools/src/fs/notebook.rs, notebook_multiline_lines *)
Definition notebook_multiline_lines (value : option Value) : list string :=
  match value with
  | None => []
  | Some value =>
      match value_as_str value, value_as_array value with
      | Some text, _ => split_lines text
      | None, Some values => split_lines (str_join "" (omap value_as_str values))
      | None, None => []
      end
  end.

(* crates/tools/src/fs/notebook.rs, notebook_text_plain_lines *)
Definition notebook_text_plain_lines (output : Value) : list string :=
  match data ← value_get output "data"; data ← value_as_object data; map_get data "text/plain" with
  | Some value => notebook_multiline_lines (Some value)
  | None => []
  end.

(** ** Previews *)

(* crates/tools/src/fs/notebook.rs, notebook_cell_type *)
Definition notebook_cell_type (raw : option string) : NotebookCellType :=
  let raw := default "" raw in
  if String.eqb raw "code" then Cell_Code
  else if String.eqb raw "markdown" then Cell_Markdown
  else if String.eqb raw "raw" then Cell_Raw
  else Cell_Unknown.

(* crates/tools/src/fs/notebook.rs, notebook_output_preview *)
Definition notebook_output_preview (output : Value) : NotebookOutputPreview :=
  let text key := value_get output key ≫= value_as_str in
  let output_type_raw := default "" (text "output_type") in
  if String.eqb output_type_raw "stream" then
    mkNotebookOutputPreview Output_Stream (default "stream" (trimmed (text "name")))
      (collapse_lines (notebook_multiline_lines (value_get output "text")) MAX_OUTPUT_PREVIEW_LINES)
  else if String.eqb output_type_raw "execute_result" then
    mkNotebookOutputPreview Output_ExecuteResult "text/plain result"
      (collapse_lines (notebook_text_plain_lines output) MAX_OUTPUT_PREVIEW_LINES)
  else if String.eqb output_type_raw "display_data" then
    let mime_types :=
      data ← value_get output "data"; data ← value_as_object data;
      let keys := str_join ", " (map fst (take 3 data)) in
      if str_is_empty keys then None else Some keys in
    mkNotebookOutputPreview Output_DisplayData (default "display data" mime_types)
      (collapse_lines (notebook_text_plain_lines output) MAX_OUTPUT_PREVIEW_LINES)
  else if String.eqb output_type_raw "error" then
    let ename := default "error" (trimmed (text "ename")) in
    let evalue := default "" (trimmed (text "evalue")) in
    mkNotebookOutputPreview Output_Error (if str_is_empty evalue then ename else ename +:+ ": " +:+ evalue)
      (collapse_lines (notebook_multiline_lines (value_get output "traceback")) MAX_OUTPUT_PREVIEW_LINES)
  else
    mkNotebookOutputPreview Output_Unknown
      (if str_is_empty (trim output_type_raw) then "unknown" else output_type_raw) [].

(* crates/tools/src/fs/notebook.rs, notebook_cell_preview *)
Definition notebook_cell_preview (cell : Value) (index : N) (include_outputs : bool) : NotebookCellPreview :=
  let source_lines := notebook_multiline_lines (value_get cell "source") in
  let output_values := default [] (value_get cell "outputs" ≫= value_as_array) in
  mkNotebookCellPreview index (notebook_cell_type (value_get cell "cell_type" ≫= value_as_str))
    (value_get cell "execution_count" ≫= value_as_i64) (length source_lines)
    (collapse_lines source_lines MAX_SOURCE_PREVIEW_LINES) (length output_values)
    (if include_outputs then map notebook_output_preview (take MAX_OUTPUT_PREVIEW_ITEMS output_values) else []).

(** The text under [metadata], a key and a key below it. *)
Definition metadata_text (notebook : Value) (key field : string) : option string :=
  trimmed (metadata ← value_get notebook "metadata"; metadata ← value_as_object metadata;
           section ← map_get metadata key; section ← value_as_object section;
           text ← map_get section field; value_as_str text).

(* crates/tools/src/fs/notebook.rs, notebook_language_name *)
Definition notebook_language_name (notebook : Value) : option string := metadata_text notebook "language_info" "name".
(* crates/tools/src/fs/notebook.rs, notebook_kernelspec_name *)
Definition notebook_kernelspec_name (notebook : Value) : option string := metadata_text notebook "kernelspec" "name".
(* crates/tools/src/fs/notebook.rs, notebook_kernelspec_display_name *)
Definition notebook_kernelspec_display_name (notebook : Value) : option string :=
  metadata_text notebook "kernelspec" "display_name".

(** ** Labels and text *)

(* crates/tools/src/fs/notebook.rs, notebook_output_label *)
Definition notebook_output_label (output : NotebookOutputPreview) : string :=
  match nop_kind output with
  | Output_Stream => "stream"
  | Output_ExecuteResult => "execute_result"
  | Output_DisplayData => "display_data"
  | Output_Error => "error"
  | Output_Unknown => "unknown"
  end.

(* crates/tools/src/fs/notebook.rs, notebook_cell_type_label *)
Definition notebook_cell_type_label (cell_type : NotebookCellType) : string :=
  match cell_type with
  | Cell_Code => "code"
  | Cell_Markdown => "markdown"
  | Cell_Raw => "raw"
  | Cell_Unknown => "unknown"
  end.

(* crates/tools/src/fs/notebook.rs, notebook_editable_cell_type_label *)
Definition notebook_editable_cell_type_label (cell_type : NotebookEditableCellType) : string :=
  match cell_type with Edit_Code => "code" | Edit_Markdown => "markdown" | Edit_Raw => "raw" end.

(* crates/tools/src/fs/notebook.rs, render_notebook_cell_header *)
Definition render_notebook_cell_header (cell : NotebookCellPreview) : string :=
  "Cell " +:+ fmt_N (ncp_index cell) +:+ " [" +:+ notebook_cell_type_label (ncp_cell_type cell)
  +:+ match ncp_execution_count cell with Some n => " exec=" +:+ pretty n | None => "" end
  +:+ "] " +:+ fmt_nat (ncp_source_line_count cell) +:+ " line(s), " +:+ fmt_nat (ncp_output_count cell)
  +:+ " output(s)".

Definition indented (by_ : string) (lines : list string) : list string := map (fun line => by_ +:+ line) lines.

(** The lines of one cell. *)
(* crates/tools/src/fs/notebook.rs, render_notebook_read_text@for cell in &output.cells *)
Definition render_cell_lines (include_outputs : bool) (cell : NotebookCellPreview) : list string :=
  [""; render_notebook_cell_header cell]
  ++ (if is_nil (ncp_source_preview cell) then ["  <empty>"] else indented "  " (ncp_source_preview cell))
  ++ (if include_outputs then
        flat_map (fun preview =>
          ("  [output " +:+ notebook_output_label preview +:+ "] " +:+ nop_summary preview)
          :: indented "    " (nop_text_preview preview)) (ncp_outputs cell)
      else []).

Definition opt_line (prefix : string) (o : option string) : list string :=
  match o with Some s => [prefix +:+ s] | None => [] end.

(* crates/tools/src/fs/notebook.rs, render_notebook_read_text *)
Definition render_notebook_read_text (output : NotebookReadToolOutput) : string :=
  str_join nl
    (["[notebook_read path=" +:+ nro_requested_path output +:+ " cells=" +:+ fmt_N (nro_start_cell output) +:+ "-"
      +:+ fmt_N (nro_end_cell output) +:+ " / " +:+ fmt_N (nro_total_cells output) +:+ "]"]
     ++ opt_line "language " (nro_language_name output) ++ opt_line "kernel " (nro_kernelspec_name output)
     ++ flat_map (render_cell_lines (nro_include_outputs output)) (nro_cells output)
     ++ match nro_next_start_cell output with
        | Some next => [""; "[next_start_cell " +:+ fmt_N next +:+ "]"]
        | None => []
        end).

(* crates/tools/src/fs/notebook.rs, render_notebook_edit_operation *)
Definition render_notebook_edit_operation (operation : NotebookAppliedEdit) : string :=
  match operation with
  | Applied_ReplaceCell cell_index cell_type =>
      "replaced cell " +:+ fmt_N cell_index +:+ " as " +:+ notebook_editable_cell_type_label cell_type
  | Applied_InsertCell cell_index cell_type =>
      "inserted " +:+ notebook_editable_cell_type_label cell_type +:+ " cell at " +:+ fmt_N cell_index
  | Applied_DeleteCell cell_index => "deleted cell " +:+ fmt_N cell_index
  end.

(* crates/tools/src/fs/notebook.rs, render_notebook_edit_text *)
Definition render_notebook_edit_text (summary snapshot_before snapshot_after : string)
    (operations : list NotebookAppliedEdit) (changed_cells : list NotebookCellPreview) : string :=
  str_join nl
    ([summary; "[snapshot " +:+ snapshot_before +:+ " -> " +:+ snapshot_after +:+ "]"]
     ++ map render_notebook_edit_operation operations
     ++ flat_map (fun cell => "" :: render_notebook_cell_header cell :: indented "  " (ncp_source_preview cell))
          changed_cells).

(** ** Serialization of the outputs *)

Definition opt_field {A} (key : string) (f : A -> Value) (o : option A) : list (string * Value) :=
  match o with Some a => [(key, f a)] | None => [] end.
Definition list_field {A} (key : string) (f : A -> Value) (l : list A) : list (string * Value) :=
  if is_nil l then [] else [(key, jd_array (map f l))].

Definition output_preview_json (o : NotebookOutputPreview) : Value :=
  jd_object ([("kind", jd_string (notebook_output_label o)); ("summary", jd_string (nop_summary o))]
             ++ list_field "text_preview" jd_string (nop_text_preview o)).

Definition cell_preview_json (c : NotebookCellPreview) : Value :=
  jd_object ([("index", json_u64 (ncp_index c));
              ("cell_type", jd_string (notebook_cell_type_label (ncp_cell_type c)))]
             ++ opt_field "execution_count" json_i64 (ncp_execution_count c)
             ++ [("source_line_count", jd_usize (ncp_source_line_count c))]
             ++ list_field "source_preview" jd_string (ncp_source_preview c)
             ++ [("output_count", jd_usize (ncp_output_count c))]
             ++ list_field "outputs" output_preview_json (ncp_outputs c)).

Definition read_output_value (o : NotebookReadToolOutput) : Value :=
  jd_object ([("requested_path", jd_string (nro_requested_path o)); ("resolved_path", jd_string (nro_resolved_path o));
              ("nbformat", json_u64 (nro_nbformat o)); ("nbformat_minor", json_u64 (nro_nbformat_minor o));
              ("total_cells", json_u64 (nro_total_cells o)); ("start_cell", json_u64 (nro_start_cell o));
              ("end_cell", json_u64 (nro_end_cell o)); ("output_cells", json_u64 (nro_output_cells o));
              ("remaining_cells", json_u64 (nro_remaining_cells o))]
             ++ opt_field "next_start_cell" json_u64 (nro_next_start_cell o)
             ++ [("include_outputs", jd_bool (nro_include_outputs o))]
             ++ opt_field "language_name" jd_string (nro_language_name o)
             ++ opt_field "kernelspec_name" jd_string (nro_kernelspec_name o)
             ++ opt_field "kernelspec_display_name" jd_string (nro_kernelspec_display_name o)
             ++ list_field "cells" cell_preview_json (nro_cells o)
             ++ [("empty", jd_bool (nro_empty o))]).

Definition applied_edit_json (e : NotebookAppliedEdit) : Value :=
  match e with
  | Applied_ReplaceCell i t =>
      jd_object [("kind", jd_string "replace_cell"); ("cell_index", json_u64 i);
                 ("cell_type", jd_string (notebook_editable_cell_type_label t))]
  | Applied_InsertCell i t =>
      jd_object [("kind", jd_string "insert_cell"); ("cell_index", json_u64 i);
                 ("cell_type", jd_string (notebook_editable_cell_type_label t))]
  | Applied_DeleteCell i => jd_object [("kind", jd_string "delete_cell"); ("cell_index", json_u64 i)]
  end.

(** ** Editing *)

(** [str::split_inclusive('\n')]. *)
Fixpoint split_inclusive (s : string) : list string :=
  match s with
  | "" => []
  | String a rest =>
      if Ascii.eqb a newline then String a "" :: split_inclusive rest
      else match split_inclusive rest with
           | [] => [String a ""]
           | line :: lines => String a line :: lines
           end
  end.

(* crates/tools/src/fs/notebook.rs, notebook_source_value *)
Definition notebook_source_value (source : string) : Value :=
  jd_array (if str_is_empty source then [] else map jd_string (split_inclusive source)).

(* crates/tools/src/fs/notebook.rs, build_notebook_cell *)
Definition build_notebook_cell (cell_type : NotebookEditableCellType) (source : string) (metadata : Value) : Value :=
  let source := notebook_source_value source in
  match cell_type with
  | Edit_Code =>
      jd_object [("cell_type", jd_string "code"); ("metadata", metadata); ("source", source);
                 ("execution_count", jd_null); ("outputs", jd_array [])]
  | Edit_Markdown => jd_object [("cell_type", jd_string "markdown"); ("metadata", metadata); ("source", source)]
  | Edit_Raw => jd_object [("cell_type", jd_string "raw"); ("metadata", metadata); ("source", source)]
  end.

(* crates/tools/src/fs/notebook.rs, push_changed_index *)
Definition push_changed_index (changed_indices : list N) (index : N) : list N :=
  if existsb (N.eqb index) changed_indices then changed_indices else (changed_indices ++ [index])%list.

(** The cells of a notebook; [notebook.get("cells").and_then(Value::as_array)]. *)
Definition notebook_cells (notebook : Value) : option (list Value) := value_get notebook "cells" ≫= value_as_array.

(** What the loop over the operations changes. *)
Record NotebookEdits := mkNotebookEdits {
  ne_notebook : Value;
  ne_applied : list NotebookAppliedEdit;
  ne_changed_indices : list N
}.

Definition index_in (low index high : N) : bool := ((low <=? index) && (index <=? high))%N.
Definition out_of_range (what : string) (cell_index : N) (where_ : string) (count : nat) : ToolError :=
  ToolErr_InvalidInput ("notebook_edit " +:+ what +:+ " index " +:+ fmt_N cell_index +:+ " is out of range for "
                        +:+ where_ +:+ fmt_nat count +:+ " cells").

(* crates/tools/src/fs/notebook.rs, apply_notebook_edit_operation *)
Definition apply_notebook_edit_operation (st : NotebookEdits) (operation : NotebookEditOperation)
    : result NotebookEdits ToolError :=
  cells <-? ok_or (notebook_cells (ne_notebook st))
              (ToolErr_InvalidInput "notebook_edit: notebook is missing a cells array");
  let len := N.of_nat (length cells) in
  let put cells := value_set_array (ne_notebook st) "cells" cells in
  match operation with
  | ReplaceCell cell_index cell_type source =>
      match (if index_in 1 cell_index len then cells !! N.to_nat (cell_index - 1) else None) with
      | None => Err (out_of_range "replace_cell" cell_index "" (length cells))
      | Some cell =>
          let metadata := default json_empty_object (value_get cell "metadata") in
          Ok (mkNotebookEdits (put (<[N.to_nat (cell_index - 1) := build_notebook_cell cell_type source metadata]> cells))
                (ne_applied st ++ [Applied_ReplaceCell cell_index cell_type])
                (push_changed_index (ne_changed_indices st) cell_index))
      end
  | InsertCell cell_index cell_type source =>
      if negb (index_in 1 cell_index (len + 1)) then
        Err (out_of_range "insert_cell" cell_index "insertion into " (length cells))
      else
        let at_ := N.to_nat (cell_index - 1) in
        Ok (mkNotebookEdits
              (put (take at_ cells ++ build_notebook_cell cell_type source json_empty_object :: drop at_ cells))
              (ne_applied st ++ [Applied_InsertCell cell_index cell_type])
              (push_changed_index (ne_changed_indices st) cell_index))
  | DeleteCell cell_index =>
      if negb (index_in 1 cell_index len) then Err (out_of_range "delete_cell" cell_index "" (length cells))
      else
        Ok (mkNotebookEdits (put (delete (N.to_nat (cell_index - 1)) cells))
              (ne_applied st ++ [Applied_DeleteCell cell_index]) (ne_changed_indices st))
  end.

(* crates/tools/src/fs/notebook.rs, NotebookEditTool::execute@for operation in input.operations *)
Fixpoint apply_notebook_edits (st : NotebookEdits) (operations : list NotebookEditOperation)
    : result NotebookEdits ToolError :=
  match operations with
  | [] => Ok st
  | operation :: rest => st <-? apply_notebook_edit_operation st operation; apply_notebook_edits st rest
  end.

(* crates/tools/src/fs/notebook.rs, collect_changed_cell_previews *)
Definition collect_changed_cell_previews (notebook : Value) (changed_indices : list N) : list NotebookCellPreview :=
  match notebook_cells notebook with
  | None => []
  | Some cells =>
      omap (fun index => (fun cell => notebook_cell_preview cell index true) <$> cells !! N.to_nat (index - 1))
        changed_indices
  end.

(** ** The tools *)

Context {S256 : Sha256} {D : Disk} {H : FileToolHost} {I : NotebookInputs J}.

(** [fs::read_to_string(path).await?]. *)
Definition read_notebook_text (d : DiskState) (path : PathBuf) : result string ToolError :=
  match disk_read d path with
  | Ok text => Ok text
  | Err Io_NotFound => Err (ToolErr_Io "No such file or directory (os error 2)")
  | Err (Io_Other e) => Err (ToolErr_Io e)
  end.

Definition is_notebook_path (path : PathBuf) : bool := bool_decide (path_extension path = Some "ipynb").

(** What [notebook_edit] does before it looks at the text. *)
(* crates/tools/src/fs/notebook.rs, NotebookEditTool::execute@if input.operations.is_empty() ~~ let snapshot_before *)
Definition open_notebook_for_edit (d : DiskState) (c : ToolExecutionContext) (input : NotebookEditToolInput)
    : result (PathBuf * string) ToolError :=
  if is_nil (nei_operations input) then
    Err (ToolErr_InvalidInput "notebook_edit requires at least one operation")
  else
    resolved <-? resolve_in c (nei_path input);
    _ <-? @assert_path_write_allowed (disk_view d) c resolved;
    if negb (is_notebook_path resolved) then
      Err (ToolErr_InvalidInput "notebook_edit requires a .ipynb notebook path")
    else
      before <-? read_notebook_text d resolved;
      Ok (resolved, before).

(* crates/tools/src/fs/notebook.rs, NotebookEditTool::execute@let structured_output = NotebookEditToolOutput::Error ~~ let mut notebook *)
Definition notebook_mismatch_result (call_id : ToolCallId) (input : NotebookEditToolInput) (resolved : PathBuf)
    (expected_snapshot snapshot_before : string) : ToolResult :=
  let summary := "Snapshot mismatch for " +:+ nei_path input +:+ ". Expected " +:+ expected_snapshot +:+ ", found "
                 +:+ snapshot_before +:+ ". Re-read the notebook before editing." in
  let count := jd_usize (length (nei_operations input)) in
  mkToolResult call_id call_id NOTEBOOK_EDIT_TOOL_NAME [Part_Text summary] []
    (Some (jd_object [("kind", jd_string "error"); ("requested_path", jd_string (nei_path input));
                      ("resolved_path", jd_string (path_display resolved)); ("summary", jd_string summary);
                      ("snapshot_before", jd_string snapshot_before); ("operation_count", count)]))
    None
    (Some (jd_object [("path", jd_string (path_display resolved)); ("snapshot_before", jd_string snapshot_before);
                      ("operation_count", count)])) true.

(** [notebook.get("cells")...map_or(0, Vec::len)]. *)
Definition cell_count (notebook : Value) : nat := match notebook_cells notebook with Some l => length l | None => 0 end.

(* crates/tools/src/fs/notebook.rs, NotebookEditTool::execute@let file_diffs = compute_diff_preview *)
Definition notebook_success_result (call_id : ToolCallId) (input : NotebookEditToolInput) (resolved : PathBuf)
    (before after : string) (notebook : Value) (edits : NotebookEdits) : ToolResult :=
  let snapshot_before := stable_text_hash before in
  let snapshot_after := stable_text_hash after in
  let file_diffs := option_list (compute_diff_preview (nei_path input) (Some before) (Some after)) in
  let changed_cells := collect_changed_cell_previews (ne_notebook edits) (ne_changed_indices edits) in
  let applied := ne_applied edits in
  let before_count := jd_usize (cell_count notebook) in
  let after_count := jd_usize (cell_count (ne_notebook edits)) in
  let summary := "Updated " +:+ nei_path input +:+ " with " +:+ fmt_nat (length applied) +:+ " notebook operation(s)" in
  mkToolResult call_id call_id NOTEBOOK_EDIT_TOOL_NAME
    [Part_Text (render_notebook_edit_text summary snapshot_before snapshot_after applied changed_cells)] []
    (Some (jd_object
       ([("kind", jd_string "success"); ("requested_path", jd_string (nei_path input));
         ("resolved_path", jd_string (path_display resolved)); ("summary", jd_string summary);
         ("snapshot_before", jd_string snapshot_before); ("snapshot_after", jd_string snapshot_after);
         ("cell_count_before", before_count); ("cell_count_after", after_count)]
        ++ opt_field "language_name" jd_string (notebook_language_name notebook)
        ++ opt_field "kernelspec_name" jd_string (notebook_kernelspec_name notebook)
        ++ [("operations", jd_array (map applied_edit_json applied))]
        ++ list_field "changed_cells" cell_preview_json changed_cells
        ++ [("file_diffs", jd_array file_diffs)])))
    None
    (Some (jd_object [("path", jd_string (path_display resolved)); ("snapshot_before", jd_string snapshot_before);
                      ("snapshot_after", jd_string snapshot_after); ("cell_count_before", before_count);
                      ("cell_count_after", after_count); ("operations", jd_array (map applied_edit_json applied));
                      ("file_diffs", jd_array file_diffs)])) false.

(** The text the edited notebook has, with what the result reports. *)
(* crates/tools/src/fs/notebook.rs, NotebookEditTool::execute@let mut notebook: Value ~~ let snapshot_after *)
Definition edit_notebook_text (before : string) (operations : list NotebookEditOperation)
    : result (Value * NotebookEdits * string) ToolError :=
  notebook <-? ok_or (json_parse before) (ToolErr_InvalidInput "notebook_edit: file is not valid notebook JSON");
  edits <-? apply_notebook_edits (mkNotebookEdits notebook [] []) operations;
  after <-? ok_or (json_pretty (ne_notebook edits))
              (ToolErr_InvalidInput "notebook_edit: failed to serialize notebook");
  Ok (notebook, edits, after).

(* crates/tools/src/fs/notebook.rs, NotebookEditTool::execute *)
Definition NotebookEditTool_execute (observer : option nat) (call_id : ToolCallId) (arguments : Value)
    (c : ToolExecutionContext) (s : DiskState * TWorld)
    : result ToolResult ToolError * (DiskState * TWorld) :=
  match decode_notebook_edit_input arguments with
  | Err e => (Err (ToolErr_Json e), s)
  | Ok input =>
      match open_notebook_for_edit s.1 c input with
      | Err e => (Err e, s)
      | Ok (resolved, before) =>
          let snapshot_before := stable_text_hash before in
          let mismatch :=
            match nei_expected_snapshot input with
            | Some expected => if String.eqb expected snapshot_before then None else Some expected
            | None => None
            end in
          match mismatch with
          | Some expected => (Ok (notebook_mismatch_result call_id input resolved expected snapshot_before), s)
          | None =>
              match edit_notebook_text before (nei_operations input) with
              | Err e => (Err e, s)
              | Ok (notebook, edits, after) =>
                  let '(committed, d) := commit_text_file s.1 resolved (Some after) in
                  match committed with
                  | Err e => (Err e, (d, s.2))
                  | Ok _ =>
                      let w := match observer with
                               | Some o => file_activity o (did_save resolved) (file_activity o (did_change resolved) s.2)
                               | None => s.2
                               end in
                      (Ok (notebook_success_result call_id input resolved before after notebook edits), (d, w))
                  end
              end
          end
      end
  end.

(** ** Reading *)

Definition clamp (n low high : N) : N := N.min (N.max n low) high.

(** The first and the last cell of the window; cells count from 1. *)
(* crates/tools/src/fs/notebook.rs, NotebookReadTool::execute@let start_cell = input.start_cell ~~ let next_start_cell *)
Definition notebook_window (input : NotebookReadToolInput) (total_cells : N) : N * N :=
  let requested_count := clamp (default DEFAULT_NOTEBOOK_CELL_COUNT (nri_cell_count input)) 1 MAX_NOTEBOOK_CELL_COUNT in
  let start_cell := clamp (default 1%N (nri_start_cell input)) 1 total_cells in
  (start_cell,
   clamp (match nri_end_cell input with
          | Some end_cell => end_cell
          | None => saturating_sub (saturating_add start_cell requested_count) 1
          end) start_cell total_cells).

(** [.enumerate().map(|(offset, cell)| notebook_cell_preview(cell, start_cell + offset, ..))]. *)
Definition preview_cells (start_cell : N) (include_outputs : bool) (cells : list Value) : list NotebookCellPreview :=
  imap (fun offset cell => notebook_cell_preview cell (start_cell + N.of_nat offset)%N include_outputs) cells.

Definition u64_field (notebook : Value) (key : string) : N := default 0%N (value_get notebook key ≫= value_as_u64).

(** What is shown of a notebook with cells. *)
(* crates/tools/src/fs/notebook.rs, NotebookReadTool::execute@let start_cell = input.start_cell ~~ let text_output *)
Definition notebook_window_output (input : NotebookReadToolInput) (resolved : PathBuf) (notebook : Value)
    (cells : list Value) : NotebookReadToolOutput :=
  let total_cells := N.of_nat (length cells) in
  let include_outputs := default true (nri_include_outputs input) in
  let '(start_cell, end_cell) := notebook_window input total_cells in
  let next_start_cell := if (end_cell <? total_cells)%N then Some (end_cell + 1)%N else None in
  let shown := drop (N.to_nat (start_cell - 1)) (take (N.to_nat end_cell) cells) in
  mkNotebookReadToolOutput (nri_path input) (path_display resolved) (u64_field notebook "nbformat")
    (u64_field notebook "nbformat_minor") total_cells start_cell end_cell
    (saturating_add (saturating_sub end_cell start_cell) 1) (saturating_sub total_cells end_cell) next_start_cell
    include_outputs (notebook_language_name notebook) (notebook_kernelspec_name notebook)
    (notebook_kernelspec_display_name notebook) (preview_cells start_cell include_outputs shown) false.

(* crates/tools/src/fs/notebook.rs, NotebookReadTool::execute@if total_cells == 0 { ~~ let start_cell *)
Definition empty_notebook_result (call_id : ToolCallId) (input : NotebookReadToolInput) (resolved : PathBuf)
    (notebook : Value) : ToolResult :=
  let include_outputs := default true (nri_include_outputs input) in
  mkToolResult call_id call_id NOTEBOOK_READ_TOOL_NAME
    [Part_Text ("[notebook_read path=" +:+ nri_path input +:+ " cells=0/0]" +:+ nl +:+ "[Notebook has no cells]")] []
    (Some (read_output_value
       (mkNotebookReadToolOutput (nri_path input) (path_display resolved) (u64_field notebook "nbformat")
          (u64_field notebook "nbformat_minor") 0 0 0 0 0 None include_outputs (notebook_language_name notebook)
          (notebook_kernelspec_name notebook) (notebook_kernelspec_display_name notebook) [] true)))
    None
    (Some (jd_object [("path", jd_string (path_display resolved)); ("total_cells", jd_usize 0);
                      ("include_outputs", jd_bool include_outputs)])) false.

(* crates/tools/src/fs/notebook.rs, NotebookReadTool::execute@let text_output = *)
Definition notebook_window_result (call_id : ToolCallId) (resolved : PathBuf) (output : NotebookReadToolOutput)
    : ToolResult :=
  mkToolResult call_id call_id NOTEBOOK_READ_TOOL_NAME [Part_Text (render_notebook_read_text output)] []
    (Some (read_output_value output)) None
    (Some (jd_object [("path", jd_string (path_display resolved)); ("start_cell", json_u64 (nro_start_cell output));
                      ("end_cell", json_u64 (nro_end_cell output)); ("total_cells", json_u64 (nro_total_cells output));
                      ("include_outputs", jd_bool (nro_include_outputs output));
                      ("next_start_cell", jd_option json_u64 (nro_next_start_cell output))])) false.

(** The result of reading the text of a notebook. *)
(* crates/tools/src/fs/notebook.rs, NotebookReadTool::execute@let notebook: Value = serde_json::from_str *)
Definition read_notebook (call_id : ToolCallId) (input : NotebookReadToolInput) (resolved : PathBuf) (text : string)
    : result ToolResult ToolError :=
  notebook <-? ok_or (json_parse text) (ToolErr_InvalidInput "notebook_read: file is not valid notebook JSON");
  cells <-? ok_or (notebook_cells notebook)
              (ToolErr_InvalidInput "notebook_read: notebook is missing a cells array");
  Ok (if is_nil cells then empty_notebook_result call_id input resolved notebook
      else notebook_window_result call_id resolved (notebook_window_output input resolved notebook cells)).

(* crates/tools/src/fs/notebook.rs, NotebookReadTool::execute *)
Definition NotebookReadTool_execute (observer : option nat) (call_id : ToolCallId) (arguments : Value)
    (c : ToolExecutionContext) (s : DiskState * TWorld) : result ToolResult ToolError * TWorld :=
  match decode_notebook_read_input arguments with
  | Err e => (Err (ToolErr_Json e), s.2)
  | Ok input =>
      if bool_decide (is_Some (nri_end_cell input)) && bool_decide (is_Some (nri_cell_count input)) then
        (Err (ToolErr_InvalidInput "notebook_read accepts either end_cell or cell_count, not both"), s.2)
      else
        match resolved <-? resolve_in c (nri_path input);
              _ <-? @assert_path_read_allowed (disk_view s.1) c resolved;
              if negb (is_notebook_path resolved) then
                Err (ToolErr_InvalidInput "notebook_read requires a .ipynb notebook path")
              else text <-? read_notebook_text s.1 resolved; Ok (resolved, text) with
        | Err e => (Err e, s.2)
        | Ok (resolved, text) =>
            (read_notebook call_id input resolved text,
             match observer with Some o => file_activity o (did_open resolved) s.2 | None => s.2 end)
        end
  end.

End Notebook.
