(* ===== verification/NotebookProps.v ===== *)
(** * What the notebook tools guarantee

    The edits of a notebook act on its cells as on a list of slots that remember where they
    come from; a window of cells leads to the next one; what is written into a cell is what
    a read shows of it. *)

From Stdlib Require Import Ascii String.
From stdpp Require Import base list strings gmap.
From Stdlib Require Import Lia.
From S2P Require Import Prelude Text Message Errors TextBuffer Mutation WriteLease SandboxPolicy Tools PathPolicy FileQueries.
From S2P Require Import PatchFiles PatchFilesProps Notebooks.

(** What the documentation of [serde_json] says of the operations used. *)
Class NotebookJsonLaws (J : SerdeJson) {JD : JsonData J} {NJ : NotebookJson J} : Prop := {
  array_as_array : forall l, value_as_array (jd_array l) = Some l;
  array_not_str : forall l, value_as_str (jd_array l) = None;
  string_as_str : forall s, value_as_str (jd_string s) = Some s;
  object_get : forall m k, NoDup m.*1 -> value_get (jd_object m) k = map_get m k;
  null_no_number : value_as_i64 jd_null = None;
  set_array_get : forall v k w l, value_get v k = Some w -> value_get (value_set_array v k l) k = Some (jd_array l);
  set_array_other : forall v k k' l, k <> k' -> value_get (value_set_array v k l) k' = value_get v k'
}.

(** ** The reference: slots *)

(** A cell of the edited notebook: the index of the cell it comes from, if it was not
    inserted, and the last source it was given, if it was given one. *)
Definition Slot : Type := option nat * option (NotebookEditableCellType * string).

Definition whole_notebook {A} (cells : list A) : list Slot := (fun i => (Some i, None)) <$> seq 0 (length cells).

(** The effect of an operation on the slots; [None] when its index names no place. *)
Definition slot_edit (slots : list Slot) (op : NotebookEditOperation) : option (list Slot) :=
  let len := N.of_nat (length slots) in
  match op with
  | ReplaceCell i t s =>
      if index_in 1 i len then Some (alter (fun sl : Slot => (sl.1, Some (t, s))) (N.to_nat (i - 1)) slots) else None
  | InsertCell i t s =>
      if index_in 1 i (len + 1) then
        Some (take (N.to_nat (i - 1)) slots ++ (None, Some (t, s)) :: drop (N.to_nat (i - 1)) slots)
      else None
  | DeleteCell i => if index_in 1 i len then Some (delete (N.to_nat (i - 1)) slots) else None
  end.

Fixpoint slot_edits (slots : list Slot) (ops : list NotebookEditOperation) : option (list Slot) :=
  match ops with
  | [] => Some slots
  | op :: rest => slots ← slot_edit slots op; slot_edits slots rest
  end.

(** What the result lists for an operation. *)
Definition applied_edit (op : NotebookEditOperation) : NotebookAppliedEdit :=
  match op with
  | ReplaceCell i t _ => Applied_ReplaceCell i t
  | InsertCell i t _ => Applied_InsertCell i t
  | DeleteCell i => Applied_DeleteCell i
  end.

Lemma index_in_spec low i high : index_in low i high = true <-> (low <= i <= high)%N.
Proof. unfold index_in. rewrite andb_true_iff, !N.leb_le. done. Qed.

(** The cells that were not inserted, by their index in the notebook as it was. *)
Definition origins (slots : list Slot) : list nat := omap fst slots.

Lemma origins_alter (t : Slot -> Slot) n (slots : list Slot) : (forall sl, (t sl).1 = sl.1) ->
  origins (alter t n slots) = origins slots.
Proof.
  intros Ht. unfold origins. revert n. induction slots as [|sl slots IH]; intros [|n]; csimpl; [done..| |].
  - by rewrite Ht.
  - by rewrite IH.
Qed.

Lemma origins_delete n (slots : list Slot) : sublist (origins (delete n slots)) (origins slots).
Proof.
  revert n. unfold origins. induction slots as [|[[i|] o] slots IH]; intros [|n]; csimpl; try done.
  - by apply sublist_cons.
  - by apply sublist_skip.
Qed.

Lemma origins_insert n x (slots : list Slot) :
  origins (take n slots ++ (None, Some x) :: drop n slots) = origins slots.
Proof. unfold origins. rewrite <- (take_drop n slots) at 3. by rewrite !omap_app. Qed.

Lemma slot_edit_sublist slots op slots' : slot_edit slots op = Some slots' ->
  sublist (origins slots') (origins slots).
Proof.
  unfold slot_edit. destruct op as [i t s|i t s|i]; case_match; intros [= <-].
  - by rewrite origins_alter.
  - by rewrite origins_insert.
  - apply origins_delete.
Qed.

Lemma slot_edits_sublist ops slots slots' : slot_edits slots ops = Some slots' ->
  sublist (origins slots') (origins slots).
Proof.
  revert slots. induction ops as [|op ops IH]; intros slots; simpl; [by intros [= ->]|].
  destruct (slot_edit slots op) as [mid|] eqn:E; simpl; [|done]. intros Hs.
  etrans; [by apply IH | by eapply slot_edit_sublist].
Qed.

Lemma origins_whole {A} (cells : list A) : origins (whole_notebook cells) = seq 0 (length cells).
Proof.
  unfold origins, whole_notebook. generalize (seq 0 (length cells)) as l.
  induction l as [|i l IH]; [done|]. csimpl. by f_equal.
Qed.

(** ** The operations act on slots *)

(** A list of literal strings has no repetition. *)
Ltac distinct_keys := apply NoDup_ListNoDup; repeat constructor; simpl; intuition discriminate.

Section Edits.
Context {J : SerdeJson} {JD : JsonData J} {NJ : NotebookJson J} {L : NotebookJsonLaws J}.

Section Cells.
Context (cells0 : list Value).

(** The metadata a cell at a slot has: that of the cell it comes from. *)
Definition slot_metadata (sl : Slot) : Value :=
  match sl.1 with
  | Some i => default json_empty_object (cell ← cells0 !! i; value_get cell "metadata")
  | None => json_empty_object
  end.

(** The cell at a slot. *)
Definition slot_cell (sl : Slot) : Value :=
  match sl.2 with
  | Some (t, s) => build_notebook_cell t s (slot_metadata sl)
  | None => default jd_null (i ← sl.1; cells0 !! i)
  end.

(** A slot without a source is a cell of the notebook as it was. *)
Definition slot_ok (sl : Slot) : Prop :=
  match sl with (Some i, _) => (i < length cells0)%nat | (None, o) => is_Some o end.

Lemma map_get_app (m rest : list (string * Value)) key v : map_get m key = Some v -> map_get (m ++ rest) key = Some v.
Proof.
  unfold map_get. induction m as [|[k w] m IH]; simpl; [done|]. destruct (String.eqb k key); [done | exact IH].
Qed.

Lemma built_get t s m key v :
  map_get [("cell_type", jd_string (notebook_editable_cell_type_label t)); ("metadata", m);
           ("source", notebook_source_value s)] key = Some v ->
  value_get (build_notebook_cell t s m) key = Some v.
Proof.
  intros Hk. unfold build_notebook_cell.
  assert (Hn : forall rest : list (string * Value), NoDup ("cell_type" :: "metadata" :: "source" :: rest.*1) ->
    value_get (jd_object (("cell_type", jd_string (notebook_editable_cell_type_label t)) :: ("metadata", m)
                           :: ("source", notebook_source_value s) :: rest)) key = Some v).
  { intros rest Hr. rewrite object_get by done. by apply (map_get_app _ rest) in Hk. }
  destruct t; cbn [notebook_editable_cell_type_label] in Hn.
  - apply (Hn [("execution_count", jd_null); ("outputs", jd_array [])]).
    cbn. distinct_keys.
  - apply (Hn []). cbn. distinct_keys.
  - apply (Hn []). cbn. distinct_keys.
Qed.

Lemma slot_cell_metadata sl : slot_ok sl ->
  default json_empty_object (value_get (slot_cell sl) "metadata") = slot_metadata sl.
Proof.
  intros Hok. unfold slot_cell. destruct sl as [o [[t s]|]]; simpl.
  - erewrite built_get; [|reflexivity]. done.
  - destruct o as [i|]; simpl in Hok; [|by destruct Hok].
    unfold slot_metadata. simpl. destruct (lookup_lt_is_Some_2 _ _ Hok) as [c Hc]. by rewrite Hc.
Qed.

Lemma slot_edit_ok slots op slots' : Forall slot_ok slots -> slot_edit slots op = Some slots' -> Forall slot_ok slots'.
Proof.
  intros Hok. unfold slot_edit. destruct op as [i t s|i t s|i]; case_match; intros [= <-].
  - apply Forall_alter; [done|]. intros [[j|] o] _; [done|]. by intros _; eexists.
  - apply Forall_app; split; [by apply Forall_take|]. constructor; [by eexists | by apply Forall_drop].
  - by apply Forall_delete.
Qed.

(** One operation, on both sides. *)
Lemma edit_operation_slots st slots op :
  notebook_cells (ne_notebook st) = Some (map slot_cell slots) -> Forall slot_ok slots ->
  match slot_edit slots op with
  | None => exists m, apply_notebook_edit_operation st op = Err (ToolErr_InvalidInput m)
  | Some slots' =>
      exists st', apply_notebook_edit_operation st op = Ok st'
        /\ notebook_cells (ne_notebook st') = Some (map slot_cell slots')
        /\ (forall key, key <> "cells" -> value_get (ne_notebook st') key = value_get (ne_notebook st) key)
        /\ ne_applied st' = (ne_applied st ++ [applied_edit op])%list
  end.
Proof.
  intros Hc Hok. unfold slot_edit, apply_notebook_edit_operation. rewrite Hc. cbn [ok_or result_bind].
  rewrite length_map.
  assert (Hput : forall l, notebook_cells (value_set_array (ne_notebook st) "cells" l) = Some l).
  { intros l. unfold notebook_cells in *. destruct (value_get (ne_notebook st) "cells") as [w|] eqn:E; [|done].
    rewrite (set_array_get _ _ w) by done. apply array_as_array. }
  assert (Hother : forall l key, key <> "cells" ->
    value_get (value_set_array (ne_notebook st) "cells" l) key = value_get (ne_notebook st) key)
    by (intros; by apply set_array_other, not_eq_sym).
  destruct op as [i t s|i t s|i]; cbn [applied_edit].
  - destruct (index_in 1 i _) eqn:Ei; [|eexists; reflexivity].
    assert (Hi : (N.to_nat (i - 1) < length slots)%nat) by (apply index_in_spec in Ei; lia).
    destruct (lookup_lt_is_Some_2 _ _ Hi) as [sl Hsl].
    rewrite list_lookup_fmap, Hsl. cbn [fmap option_fmap option_map].
    eexists; split_and!; [done | cbn [ne_notebook] | simpl; auto | done].
    rewrite Hput. f_equal. apply list_eq. intros k. rewrite list_lookup_fmap.
    destruct (decide (k = N.to_nat (i - 1))) as [->|Hk].
    + rewrite list_lookup_insert_eq by (by rewrite length_map).
      rewrite list_lookup_alter_eq, Hsl. cbn [fmap option_fmap option_map]. f_equal. unfold slot_cell at 2. simpl. f_equal.
      rewrite slot_cell_metadata; [done|]. by eapply Forall_lookup_1.
    + rewrite list_lookup_insert_ne, list_lookup_alter_ne by done. by rewrite list_lookup_fmap.
  - destruct (index_in 1 i _) eqn:Ei; simpl; [|eexists; reflexivity].
    eexists; split_and!; [done | simpl | simpl; auto | done].
    rewrite Hput, map_app, map_cons, firstn_map, skipn_map. done.
  - destruct (index_in 1 i _) eqn:Ei; simpl; [|eexists; reflexivity].
    eexists; split_and!; [done | simpl | simpl; auto | done].
    rewrite Hput. f_equal. apply list_eq. intros k. rewrite list_lookup_fmap.
    destruct (decide (k < N.to_nat (i - 1))%nat) as [Hk|Hk].
    + rewrite !list_lookup_delete_lt by done. by rewrite list_lookup_fmap.
    + rewrite !list_lookup_delete_ge by lia. by rewrite list_lookup_fmap.
Qed.

(** All of them. *)
Lemma edit_operations_slots ops st slots :
  notebook_cells (ne_notebook st) = Some (map slot_cell slots) -> Forall slot_ok slots ->
  match slot_edits slots ops with
  | None => exists m, apply_notebook_edits st ops = Err (ToolErr_InvalidInput m)
  | Some slots' =>
      exists st', apply_notebook_edits st ops = Ok st'
        /\ notebook_cells (ne_notebook st') = Some (map slot_cell slots')
        /\ (forall key, key <> "cells" -> value_get (ne_notebook st') key = value_get (ne_notebook st) key)
        /\ ne_applied st' = (ne_applied st ++ map applied_edit ops)%list
  end.
Proof.
  revert st slots. induction ops as [|op ops IH]; intros st slots Hc Hok; cbn [slot_edits apply_notebook_edits map].
  - exists st. by rewrite app_nil_r.
  - pose proof (edit_operation_slots st slots op Hc Hok) as Hop. pose proof (slot_edit_ok slots op) as Hok'.
    destruct (slot_edit slots op) as [mid|]; cbn [mbind option_bind].
    + destruct Hop as (st1 & -> & Hc1 & Ho1 & Ha1). cbn [result_bind].
      specialize (IH st1 mid Hc1 (Hok' mid Hok eq_refl)). destruct (slot_edits mid ops); [|done].
      destruct IH as (st2 & -> & Hc2 & Ho2 & Ha2). exists st2. split_and!; [done | done | |].
      * intros key Hk. by rewrite Ho2, Ho1.
      * by rewrite Ha2, Ha1, <- app_assoc.
    + destruct Hop as [m ->]. by exists m.
Qed.

Lemma whole_notebook_cells : map slot_cell (whole_notebook cells0) = cells0 /\ Forall slot_ok (whole_notebook cells0).
Proof.
  unfold whole_notebook. split.
  - apply list_eq. intros i. rewrite list_lookup_fmap, list_lookup_fmap.
    destruct (decide (i < length cells0)%nat) as [Hi|Hi].
    + rewrite lookup_seq_lt by done. destruct (lookup_lt_is_Some_2 _ _ Hi) as [c Hc].
      cbn [fmap option_fmap option_map]. unfold slot_cell. cbn. by rewrite Hc.
    + rewrite lookup_seq_ge by lia. symmetry. apply lookup_ge_None. lia.
  - apply Forall_fmap, Forall_forall. intros i Hi%elem_of_seq. simpl. lia.
Qed.

End Cells.

(** Operations on a notebook with cells are the operations on its slots: they are refused
    exactly when an index names no place; otherwise every cell that was not named is kept as
    it was and in its order, a cell that was given a source is a clean cell with the metadata of the
    cell it replaces, and nothing but the cells changes. *)
Lemma edits_refine_slots nb cells ops : notebook_cells nb = Some cells ->
  match slot_edits (whole_notebook cells) ops with
  | None => exists m, apply_notebook_edits (mkNotebookEdits nb [] []) ops = Err (ToolErr_InvalidInput m)
  | Some slots =>
      exists edits, apply_notebook_edits (mkNotebookEdits nb [] []) ops = Ok edits
        /\ notebook_cells (ne_notebook edits) = Some (map (slot_cell cells) slots)
        /\ sublist (origins slots) (seq 0 (length cells))
        /\ (forall key, key <> "cells" -> value_get (ne_notebook edits) key = value_get nb key)
        /\ ne_applied edits = map applied_edit ops
  end.
Proof.
  intros Hc. destruct (whole_notebook_cells cells) as [Hw Hok].
  pose proof (edit_operations_slots cells ops (mkNotebookEdits nb [] []) (whole_notebook cells)) as Hops.
  cbn [ne_notebook ne_applied] in Hops. rewrite Hw in Hops. specialize (Hops Hc Hok).
  destruct (slot_edits _ ops) as [slots|] eqn:Es; [|done].
  destruct Hops as (edits & He & Hcells & Hother & Happ). exists edits. split_and!; [done..| |done|done].
  rewrite <- origins_whole. by apply slot_edits_sublist in Es.
Qed.

(** ** The edit tool *)

Context {S256 : Sha256} {D : Disk} {DL : DiskLaws D} {H : FileToolHost} {I : NotebookInputs J}.

(** What a successful edit has checked and written. *)
Definition notebook_edited (c : ToolExecutionContext) (d d' : DiskState) (input : NotebookEditToolInput)
    (p : PathBuf) : Prop :=
  exists before nb after,
    file_text d p = Some before /\ json_parse before = Some nb
    /\ (forall expected, nei_expected_snapshot input = Some expected -> expected = stable_text_hash before)
    /\ file_text d' p = Some after
    /\ exists cells slots nb',
         notebook_cells nb = Some cells
         /\ slot_edits (whole_notebook cells) (nei_operations input) = Some slots
         /\ json_pretty nb' = Some after
         /\ notebook_cells nb' = Some (map (slot_cell cells) slots)
         /\ forall key, key <> "cells" -> value_get nb' key = value_get nb key.

Lemma open_notebook_inv d c input p before : open_notebook_for_edit d c input = Ok (p, before) ->
  nei_operations input <> [] /\ resolve_in c (nei_path input) = Ok p
  /\ @assert_path_write_allowed (disk_view d) c p = Ok tt /\ path_extension p = Some "ipynb"
  /\ file_text d p = Some before.
Proof.
  unfold open_notebook_for_edit. destruct (nei_operations input) as [|op ops]; [done|]. cbn [is_nil].
  destruct (resolve_in c (nei_path input)) as [q|]; [|done]. cbn [result_bind].
  destruct (assert_path_write_allowed c q) as [[]|] eqn:Ew; [|done]. cbn [result_bind].
  unfold is_notebook_path. case_bool_decide; [|done]. cbn [negb]. unfold read_notebook_text, file_text.
  destruct (disk_read d q) as [t|[|e]] eqn:Er; cbn [result_bind]; [|done..].
  intros [= <- <-]. by rewrite Er.
Qed.

Lemma edit_text_inv before ops nb edits after : edit_notebook_text before ops = Ok (nb, edits, after) ->
  ops <> [] -> exists cells slots, json_parse before = Some nb /\ notebook_cells nb = Some cells
    /\ slot_edits (whole_notebook cells) ops = Some slots /\ json_pretty (ne_notebook edits) = Some after
    /\ notebook_cells (ne_notebook edits) = Some (map (slot_cell cells) slots)
    /\ forall key, key <> "cells" -> value_get (ne_notebook edits) key = value_get nb key.
Proof.
  unfold edit_notebook_text. destruct (json_parse before) as [nb0|]; [|done]. cbn [ok_or result_bind].
  intros He Hne. destruct (notebook_cells nb0) as [cells|] eqn:Ec.
  - pose proof (edits_refine_slots nb0 cells ops Ec) as Hr. revert He.
    destruct (slot_edits _ ops) as [slots|] eqn:Es; [|destruct Hr as [m ->]; done].
    destruct Hr as (ed & -> & Hcells & _ & Hother & _). cbn [result_bind].
    destruct (json_pretty (ne_notebook ed)) as [t|] eqn:Et; [|done]. cbn [ok_or result_bind].
    intros [= <- <- <-]. exists cells, slots. by split_and!.
  - destruct ops as [|op ops]; [done|]. revert He. cbn [apply_notebook_edits].
    unfold apply_notebook_edit_operation. cbn [ne_notebook]. by rewrite Ec.
Qed.

(** C37.  [notebook_edit] is exact: unless it gets as far as writing, it changes nothing, and it never
    touches another file; a success has checked the path, the permission and the expected
    snapshot, and leaves the printed notebook whose cells are the cells of the file edited as slots
    (every cell no operation names kept, in its order), and whose other members are those of the file. *)
Theorem notebook_edit_exact o cid args c d w r d' w' :
  NotebookEditTool_execute o cid args c (d, w) = (r, (d', w')) ->
  (d', w') = (d, w) /\ (forall res, r = Ok res -> result_is_error res = true)
  \/ exists input p,
       decode_notebook_edit_input args = Ok input /\ resolve_in c (nei_path input) = Ok p
       /\ @assert_path_write_allowed (disk_view d) c p = Ok tt /\ path_extension p = Some "ipynb"
       /\ (forall q, disk_same p q = false -> file_text d' q = file_text d q)
       /\ forall res, r = Ok res -> result_is_error res = false /\ notebook_edited c d d' input p.
Proof.
  unfold NotebookEditTool_execute. destruct (decode_notebook_edit_input args) as [input|]; [|intros [= <- <- <-]; by left].
  cbn [fst snd]. destruct (open_notebook_for_edit d c input) as [[p before]|] eqn:Eo; [|intros [= <- <- <-]; by left].
  apply open_notebook_inv in Eo as (Hne & Hp & Hw & Hx & Ht).
  assert (Hsnap : forall expected, match nei_expected_snapshot input with
      | Some expected => if String.eqb expected (stable_text_hash before) then None else Some expected
      | None => None end = None -> nei_expected_snapshot input = Some expected -> expected = stable_text_hash before).
  { intros expected Hm Hx'. rewrite Hx' in Hm. by destruct (String.eqb_spec expected (stable_text_hash before)). }
  destruct (match nei_expected_snapshot input with Some _ => _ | None => _ end);
    [intros [= <- <- <-]; left; split; [done | by intros res [= <-]]|].
  destruct (edit_notebook_text before (nei_operations input)) as [[[nb edits] after]|] eqn:Ee;
    [|intros [= <- <- <-]; by left].
  apply edit_text_inv in Ee as (cells & slots & Hparse & Hcells & Hslots & Hpretty & Hafter & Hother); [|done].
  pose proof (fun q => commit_other d p (Some after) q) as Hoth. pose proof (commit_same d p (Some after)) as Hsame.
  destruct (commit_text_file d p (Some after)) as [[[]|e] d1]; intros [= <- <- <-]; right; exists input, p;
    split_and!; try done.
  intros res [= <-]. split; [done|]. exists before, nb, after. split_and!; [done | done | naive_solver | by apply Hsame |].
  by exists cells, slots, (ne_notebook edits).
Qed.

(** The tool keeps no record of what it did: whatever handler the context has, the only thing it
    asks of the host is to pass on that the file changed and was saved. *)
Theorem notebook_edits_leave_no_checkpoint o cid args c s r s' :
  NotebookEditTool_execute o cid args c s = (r, s') ->
  s'.2 = s.2 \/ exists n p, o = Some n /\ s'.2 = file_activity n (did_save p) (file_activity n (did_change p) s.2).
Proof.
  unfold NotebookEditTool_execute. destruct s as [d w]. cbn [fst snd]. intros Hx.
  repeat (case_match; simplify_eq/=; try by left).
  all: right; by eexists _, _.
Qed.

(** ** Reading *)

Lemma clamp_within n low high : (low <= high)%N -> (low <= clamp n low high <= high)%N.
Proof. unfold clamp. lia. Qed.

(** A window lies inside the notebook and is not empty. *)
Lemma window_within input total start stop : (1 <= total)%N -> notebook_window input total = (start, stop) ->
  (1 <= start <= stop)%N /\ (stop <= total)%N.
Proof.
  intros Ht [= <- <-]. pose proof (clamp_within (default 1%N (nri_start_cell input)) 1 total Ht).
  set (start := clamp (default _ _) 1 total) in *.
  pose proof (clamp_within (match nri_end_cell input with Some e => e | None => saturating_sub (saturating_add start
    (clamp (default DEFAULT_NOTEBOOK_CELL_COUNT (nri_cell_count input)) 1 MAX_NOTEBOOK_CELL_COUNT)) 1 end)
    start total). lia.
Qed.

(** Without an end, a window has at most [MAX_NOTEBOOK_CELL_COUNT] cells. *)
Lemma window_bounded input total start stop : (1 <= total)%N -> nri_end_cell input = None ->
  notebook_window input total = (start, stop) -> (stop - start < MAX_NOTEBOOK_CELL_COUNT)%N.
Proof.
  intros Ht He. unfold notebook_window. rewrite He. intros [= <- <-].
  pose proof (clamp_within (default DEFAULT_NOTEBOOK_CELL_COUNT (nri_cell_count input)) 1 MAX_NOTEBOOK_CELL_COUNT) as Hc.
  set (count := clamp _ 1 MAX_NOTEBOOK_CELL_COUNT) in *. set (start := clamp _ 1 total) in *.
  unfold saturating_sub, saturating_add, clamp. unfold MAX_NOTEBOOK_CELL_COUNT in *. lia.
Qed.

Lemma preview_cells_app start out l k :
  preview_cells start out (l ++ k) = (preview_cells start out l ++ preview_cells (start + N.of_nat (length l)) out k)%list.
Proof.
  unfold preview_cells. rewrite imap_app. f_equal. apply imap_ext. intros i x _. cbn. f_equal. lia.
Qed.

(** Reading on from a cell with a given input, following [next_start_cell]. *)
Fixpoint read_on (fuel : nat) (input : NotebookReadToolInput) (p : PathBuf) (nb : Value) (cells : list Value)
    (start : N) : list NotebookCellPreview :=
  match fuel with
  | O => []
  | S fuel =>
      let output := notebook_window_output
        (mkNotebookReadToolInput (nri_path input) (Some start) None (nri_cell_count input) (nri_include_outputs input))
        p nb cells in
      nro_cells output ++ match nro_next_start_cell output with
                          | Some next => read_on fuel input p nb cells next
                          | None => []
                          end
  end.

Lemma read_on_rest fuel input p nb cells start :
  (1 <= start <= N.of_nat (length cells))%N -> (length cells < N.to_nat start + fuel)%nat ->
  read_on fuel input p nb cells start
  = preview_cells start (default true (nri_include_outputs input)) (drop (N.to_nat (start - 1)) cells).
Proof.
  revert start. induction fuel as [|fuel IH]; intros start Hs Hf; [lia|]. cbn [read_on].
  set (win := mkNotebookReadToolInput _ (Some start) None _ _). unfold notebook_window_output.
  destruct (notebook_window win (N.of_nat (length cells))) as [s e] eqn:Ew.
  assert (Hse : s = start) by (revert Ew; unfold notebook_window, clamp; cbn [win nri_start_cell default]; intros [= <- _]; cbn; lia).
  apply window_within in Ew as [Hw1 Hw2]; [|lia]. subst s. cbn [nro_cells nro_next_start_cell win nri_include_outputs].
  set (out := default true (nri_include_outputs input)).
  assert (Hsplit : drop (N.to_nat (start - 1)) cells
                   = (drop (N.to_nat (start - 1)) (take (N.to_nat e) cells) ++ drop (N.to_nat e) cells)%list).
  { rewrite <- (take_drop (N.to_nat e) cells) at 1. rewrite drop_app_le; [done|]. rewrite length_take. lia. }
  rewrite Hsplit, preview_cells_app. f_equal.
  rewrite length_drop, length_take.
  destruct (N.ltb_spec e (N.of_nat (length cells))).
  - rewrite IH by lia. f_equal; [lia|]. f_equal. lia.
  - rewrite drop_ge by lia. done.
Qed.

(** The pages of a notebook cover it: reading from the first cell and following [next_start_cell],
    with any page size, ends and shows every cell exactly once, in order and under its own number;
    no page of it has more than the largest number of cells. *)
Theorem notebook_pages_cover input p nb cells :
  cells <> [] ->
  read_on (length cells) input p nb cells 1 = preview_cells 1 (default true (nri_include_outputs input)) cells
  /\ forall start, (N.of_nat (length (nro_cells (notebook_window_output
       (mkNotebookReadToolInput (nri_path input) (Some start) None (nri_cell_count input) (nri_include_outputs input))
       p nb cells))) <= MAX_NOTEBOOK_CELL_COUNT)%N.
Proof.
  intros Hne. assert (Hl : (1 <= length cells)%nat) by (destruct cells; simpl; [done | lia]). split.
  - rewrite read_on_rest by lia. done.
  - intros start. unfold notebook_window_output. set (win := mkNotebookReadToolInput _ _ _ _ _).
    destruct (notebook_window win _) as [s e] eqn:Ew. cbn [nro_cells]. unfold preview_cells. rewrite length_imap.
    rewrite length_drop, length_take.
    assert (Ht : (1 <= N.of_nat (length cells))%N) by lia. pose proof (window_within _ _ _ _ Ht Ew). apply window_bounded in Ew; [|lia|done].
    unfold MAX_NOTEBOOK_CELL_COUNT in *. lia.
Qed.

(** ** Writing a cell and reading it back *)

Lemma join_split_inclusive s : str_join "" (split_inclusive s) = s.
Proof.
  induction s as [|a s IH]; [done|]. cbn [split_inclusive]. destruct (Ascii.eqb a newline).
  - destruct (split_inclusive s) as [|x l]; [by rewrite <- IH|]. rewrite join_cons by done. by rewrite IH.
  - destruct (split_inclusive s) as [|x l]; [by rewrite <- IH|].
    destruct l as [|y l]; [cbn in *; by rewrite IH|]. rewrite join_cons in IH |- * by done. by rewrite <- IH.
Qed.

Lemma written_source_lines s : notebook_multiline_lines (Some (notebook_source_value s)) = split_lines s.
Proof.
  unfold notebook_source_value, notebook_multiline_lines. rewrite array_not_str, array_as_array.
  destruct (str_is_empty s) eqn:Es; [by destruct s|]. f_equal.
  assert (Hs : omap value_as_str (map jd_string (split_inclusive s)) = split_inclusive s).
  { generalize (split_inclusive s) as l. induction l as [|x l IH]; [done|]. csimpl. rewrite string_as_str. by rewrite IH. }
  rewrite Hs. apply join_split_inclusive.
Qed.

(** A cell that was given a source shows the lines of that source and the type it was given. *)
Theorem written_cell_reads_back t s m i out :
  let shown := notebook_cell_preview (build_notebook_cell t s m) i out in
  ncp_source_line_count shown = length (split_lines s)
  /\ ncp_source_preview shown = collapse_lines (split_lines s) MAX_SOURCE_PREVIEW_LINES
  /\ notebook_cell_type_label (ncp_cell_type shown) = notebook_editable_cell_type_label t.
Proof.
  intros shown. subst shown. unfold notebook_cell_preview. cbn [ncp_source_line_count ncp_source_preview ncp_cell_type].
  rewrite (built_get t s m "source" (notebook_source_value s) eq_refl),
    (built_get t s m "cell_type" (jd_string (notebook_editable_cell_type_label t)) eq_refl).
  rewrite written_source_lines. split_and!; [done..|]. cbn. rewrite string_as_str. by destruct t.
Qed.

End Edits.

(** ** A concrete notebook *)

Inductive Json :=
| JNull
| JBool (b : bool)
| JNum (n : Z)
| JStr (s : string)
| JArr (l : list Json)
| JObj (m : list (string * Json)).

Definition pair_eq_dec {A} (dec : forall a b : A, {a = b} + {a <> b}) (p q : string * A) : {p = q} + {p <> q}.
Proof.
  destruct p as [s v], q as [t w]. destruct (String.string_dec s t) as [->|Hn]; [|right; congruence].
  destruct (dec v w) as [->|Hn]; [by left | right; congruence].
Defined.

#[export] Instance json_eq_dec : EqDecision Json.
Proof.
  refine (fix go (a b : Json) : {a = b} + {a <> b} := _).
  destruct a as [|x|x|x|l|m], b as [|y|y|y|k|n]; try (right; discriminate).
  - by left.
  - destruct (decide (x = y)) as [->|Hn]; [by left | right; congruence].
  - destruct (decide (x = y)) as [->|Hn]; [by left | right; congruence].
  - destruct (decide (x = y)) as [->|Hn]; [by left | right; congruence].
  - destruct (List.list_eq_dec go l k) as [->|Hn]; [by left | right; congruence].
  - destruct (List.list_eq_dec (pair_eq_dec go) m n) as [->|Hn]; [by left | right; congruence].
Defined.

Fixpoint json_show (v : Json) : string :=
  match v with
  | JNull => "null"
  | JBool b => if b then "true" else "false"
  | JNum n => pretty.pretty n
  | JStr s => dquote +:+ s +:+ dquote
  | JArr l => "[" +:+ str_join "," (map json_show l) +:+ "]"
  | JObj m => "{" +:+ str_join "," (map (fun e => dquote +:+ e.1 +:+ dquote +:+ ":" +:+ json_show e.2) m) +:+ "}"
  end.

Definition json_member (v : Json) (key : string) : option Json :=
  match v with
  | JObj m => find_map (fun e : string * Json => if String.eqb e.1 key then Some e.2 else None) m
  | _ => None
  end.

#[export] Instance json_tree : SerdeJson := {|
  Value := Json;
  value_to_string := json_show;
  value_get := json_member;
  value_as_str := fun v => match v with JStr s => Some s | _ => None end;
  value_pointer := fun v p => if str_is_empty p then Some v else None;
  json_empty_object := JObj []
|}.

#[export] Instance json_tree_data : JsonData json_tree := {|
  jd_object := JObj : list (string * @Value json_tree) -> @Value json_tree;
  jd_string := JStr;
  jd_usize := fun n => JNum (Z.of_nat n);
  jd_bool := JBool;
  jd_null := JNull;
  jd_array := JArr : list (@Value json_tree) -> @Value json_tree
|}.

Definition lines_cell (kind : string) (lines : list string) : Json :=
  JObj [("cell_type", JStr kind); ("metadata", JObj [("tag", JStr kind)]); ("source", JArr (map JStr lines))].

Definition sample_notebook : Json :=
  JObj [("nbformat", JNum 4);
        ("metadata", JObj [("language_info", JObj [("name", JStr "python")])]);
        ("cells", JArr [lines_cell "markdown" ["# Title"]; lines_cell "code" ["print(1)"]; lines_cell "code" ["1 + 1"]])].

#[export] Instance json_tree_notebook : NotebookJson json_tree := {|
  json_parse := fun text => if String.eqb text (json_show sample_notebook) then Some sample_notebook else None;
  json_pretty := fun v => Some (json_show v);
  value_as_array := fun v => match v with JArr l => Some l | _ => None end;
  value_as_object := fun v => match v with JObj m => Some m | _ => None end;
  value_as_u64 := fun v => match v with JNum (Zpos n) => Some (Npos n) | JNum Z0 => Some 0%N | _ => None end;
  value_as_i64 := fun v => match v with JNum n => Some n | _ => None end;
  value_set_array := fun v key l =>
    match v with
    | JObj m => JObj (map (fun e : string * Json => if String.eqb e.1 key then (e.1, JArr l) else e) m)
    | _ => v
    end;
  json_u64 := fun n => JNum (Z.of_N n);
  json_i64 := JNum
|}.

#[export] Instance json_tree_laws : NotebookJsonLaws json_tree.
Proof.
  split; try done.
  - intros [| | | |items|m] k w l; try done. cbn. intros Hk. induction m as [|[k' v] m IH]; simpl in *; [done|].
    destruct (String.eqb_spec k' k); simpl; [subst; by rewrite String.eqb_refl|].
    destruct (String.eqb_spec k' k); [done|]. by apply IH.
  - intros [| | | |items|m] k k' l Hk; try done. cbn. induction m as [|[k1 v] m IH]; simpl in *; [done|].
    destruct (String.eqb_spec k1 k); simpl; [|by destruct (String.eqb k1 k')].
    destruct (String.eqb_spec k1 k'); [congruence | done].
Qed.

#[export] Instance quiet_notebook_tools : FileToolHost (J := json_tree) := {|
  TWorld := unit;
  record_mutation := fun _ _ _ w => (Err (ToolErr_InvalidState "no checkpoints"), w);
  file_activity := fun _ _ w => w
|}.

Definition replace_then_delete : list NotebookEditOperation := [ReplaceCell 2 Edit_Markdown "new"; DeleteCell 1].

#[export] Instance sample_inputs : NotebookInputs json_tree := {|
  decode_notebook_read_input := fun _ => Ok (mkNotebookReadToolInput "a.ipynb" None None (Some 2%N) None);
  decode_notebook_edit_input := fun _ => Ok (mkNotebookEditToolInput "a.ipynb" replace_then_delete None)
|}.

Definition notebook_disk : @DiskState dot_disk :=
  ({[ ["/"; "work"; "a.ipynb"] := json_show sample_notebook ]} : gmap PathBuf string).

Definition quiet_world : @TWorld json_tree quiet_notebook_tools := tt.

Definition run_notebook_edit :=
  NotebookEditTool_execute (J := json_tree) None "call" JNull work_context (notebook_disk, quiet_world).

(** The edited notebook: the markdown cell is gone, the first code cell has become a markdown
    cell with the metadata it had. *)
Example run_notebook_edit_text :
  is_ok run_notebook_edit.1 = true
  /\ file_text run_notebook_edit.2.1 ["/"; "work"; "a.ipynb"]
     = Some (json_show (JObj [("nbformat", JNum 4);
          ("metadata", JObj [("language_info", JObj [("name", JStr "python")])]);
          ("cells", JArr [JObj [("cell_type", JStr "markdown"); ("metadata", JObj [("tag", JStr "code")]);
                                ("source", JArr [JStr "new"])]; lines_cell "code" ["1 + 1"]])])).
Proof. vm_compute. by split. Qed.

Lemma notebook_edit_exact_witness :
  exists input p, resolve_in work_context (nei_path input) = Ok p
    /\ notebook_edited work_context notebook_disk run_notebook_edit.2.1 input p.
Proof.
  destruct run_notebook_edit as [r [d' w']] eqn:E.
  destruct (notebook_edit_exact (J := json_tree) (H := quiet_notebook_tools) None "call" JNull work_context notebook_disk
              quiet_world r d' w' E)
    as [[_ Hr]|(input & p & _ & Hp & _ & _ & _ & Hr)].
  - exfalso. apply (f_equal fst) in E. destruct r as [res|]; vm_compute in E; [|discriminate].
    injection E as <-. specialize (Hr _ eq_refl). discriminate.
  - exists input, p. split; [exact Hp|]. destruct r as [res|]; [by apply (Hr res)|].
    apply (f_equal fst) in E. vm_compute in E. discriminate.
Defined.

Lemma notebook_pages_cover_witness :
  length (read_on (J := json_tree) 3 (mkNotebookReadToolInput "a.ipynb" None None (Some 2%N) None) ["a.ipynb"] sample_notebook
            (default [] (notebook_cells (J := json_tree) sample_notebook)) 1) = 3%nat.
Proof.
  destruct (notebook_pages_cover (J := json_tree) (mkNotebookReadToolInput "a.ipynb" None None (Some 2%N) None) ["a.ipynb"] sample_notebook
              (default [] (notebook_cells (J := json_tree) sample_notebook))) as [Hr _]; [discriminate|].
  exact (f_equal length Hr).
Defined.

(** The numbers of the changed cells are those they had when they were changed: an operation that
    moves the cells makes the result show another cell in their place.  Here the second cell is
    rewritten and the first one deleted; the result shows as changed the cell that was third,
    which nothing touched. *)
Theorem changed_preview_misplaced :
  match apply_notebook_edits (J := json_tree) (mkNotebookEdits sample_notebook [] []) replace_then_delete with
  | Ok edits =>
      map (fun c => (ncp_index c, ncp_source_preview c))
        (collect_changed_cell_previews (ne_notebook edits) (ne_changed_indices edits)) = [(2%N, ["1 + 1"])]
      /\ (fun cell => notebook_cell_preview cell 1 true)
           <$> (cells ← notebook_cells (J := json_tree) (ne_notebook edits); cells !! 0%nat)
         = Some (mkNotebookCellPreview 1 Cell_Markdown None 1 ["new"] 0 [])
  | Err _ => False
  end.
Proof. vm_compute. by split. Qed.
