(* ===== verification/Checkpoints.v ===== *)
(** * Checkpoints of the workspace

    Models [apps/code-agent/crates/backend/src/backend/checkpoint_manager.rs] and
    [crates/tools/src/agentic/checkpoint.rs]: the file tools record a checkpoint of every file
    they change in the event log of the session; a restore brings the files back to the state
    before a checkpoint, and records a checkpoint of what it changed itself.
    [CheckpointProps] proves what this guarantees. *)

From Stdlib Require Import Ascii String.
From stdpp Require Import base list gmap sorting strings.
From Stdlib Require Import Lia.
From S2P Require Import Prelude Text Message Events Errors Replay Mutation WriteLease SandboxPolicy Tools PathPolicy.
From S2P Require Import PatchFiles StoreSearch.

(* crates/types/src/event.rs, CheckpointRestoreRecord *)
Record CheckpointRestoreRecord := mkCheckpointRestoreRecord {
  crr_restored_from : CheckpointId;
  crr_restore_mode : CheckpointRestoreMode;
  crr_restored_file_count : nat;
  crr_restored_files : list string;
  crr_restore_checkpoint_id : option CheckpointId;
  crr_rollback_message_id : option MessageId;
  crr_prompt_message_id : option MessageId
}.

Section Checkpoints.
Context {J : SerdeJson}.

(** What the managers of the backend ask of their host: the session store, opaque identifiers and
    the clock. *)
Class LogHost := {
  LogWorld : Type;
  lw_events : LogWorld -> SessionId -> result (list SessionEventEnvelope) SessionStoreError;
  lw_append : SessionEventEnvelope -> LogWorld -> result unit SessionStoreError * LogWorld;
  lw_new_id : LogWorld -> string * LogWorld;
  lw_unix_s : LogWorld -> N;
  lw_unix_ms : LogWorld -> N
}.

Context {H : LogHost} {D : Disk}.

(** ** The timeline *)

(** A [ToolExecutionContext] without a session has no checkpoints. *)
(* apps/code-agent/crates/backend/src/backend/checkpoint_manager.rs, SessionCheckpointManager::require_attached_runtime *)
Definition require_attached_runtime (c : ToolExecutionContext) : result (SessionId * AgentSessionId) ToolError :=
  session_id <-? ok_or (tc_session_id c)
    (ToolErr_InvalidState "checkpoint tools require an attached runtime session");
  agent_session_id <-? ok_or (tc_agent_session_id c)
    (ToolErr_InvalidState "checkpoint tools require an attached runtime agent session");
  Ok (session_id, agent_session_id).

(* apps/code-agent/crates/backend/src/backend/checkpoint_manager.rs, SessionCheckpointManager::session_events *)
Definition session_events (w : LogWorld) (session_id : SessionId) : result (list SessionEventEnvelope) ToolError :=
  match lw_events w session_id with
  | Ok events => Ok events
  | Err (StoreErr_SessionNotFound _) => Ok []
  | Err error => Err (ToolErr_InvalidState (SessionStoreError_display error))
  end.

(** The checkpoints of a log, in its order. *)
(* apps/code-agent/crates/backend/src/backend/checkpoint_manager.rs, SessionCheckpointManager::load_timeline@Ok(events *)
Definition timeline_of (session_id : SessionId) (events : list SessionEventEnvelope) : list CheckpointRecord :=
  omap (fun event => match env_event event with
                     | Ev_CheckpointCreated checkpoint =>
                         if String.eqb (CheckpointRecord_session_id checkpoint) session_id then Some checkpoint else None
                     | _ => None
                     end) events.

(* apps/code-agent/crates/backend/src/backend/checkpoint_manager.rs, SessionCheckpointManager::load_timeline *)
Definition load_timeline (w : LogWorld) (session_id : SessionId) : result (list CheckpointRecord) ToolError :=
  events <-? session_events w session_id;
  Ok (timeline_of session_id events).

(** The position of a checkpoint that is named by its id, or by a prefix only it has. *)
(* apps/code-agent/crates/backend/src/backend/checkpoint_manager.rs, SessionCheckpointManager::resolve_checkpoint_reference *)
Definition resolve_checkpoint_reference (timeline : list CheckpointRecord) (checkpoint_ref : string)
    : result (nat * CheckpointRecord) ToolError :=
  let at_ index := checkpoint ← timeline !! index; Some (index, checkpoint) in
  match (index ← position (fun entry => String.eqb (CheckpointRecord_checkpoint_id entry) checkpoint_ref) timeline;
         at_ index) with
  | Some found => Ok found
  | None =>
      let matches := List.filter (fun entry : nat * CheckpointRecord =>
          starts_with (CheckpointRecord_checkpoint_id entry.2) checkpoint_ref) (imap pair timeline) in
      match matches with
      | [] => Err (ToolErr_InvalidInput ("unknown checkpoint id or prefix: " +:+ checkpoint_ref))
      | [found] => Ok found
      | _ => Err (ToolErr_InvalidInput ("ambiguous checkpoint prefix " +:+ checkpoint_ref +:+ ": "
               +:+ str_join ", " (map (fun entry : nat * CheckpointRecord => CheckpointRecord_checkpoint_id entry.2)
                                    (take 6 matches))))
      end
  end.

(* apps/code-agent/crates/backend/src/backend/checkpoint_manager.rs, SessionCheckpointManager::lookup_checkpoint *)
Definition lookup_checkpoint (c : ToolExecutionContext) (checkpoint_id : CheckpointId) (w : LogWorld)
    : result CheckpointRecord ToolError :=
  attached <-? require_attached_runtime c;
  timeline <-? load_timeline w attached.1;
  found <-? resolve_checkpoint_reference timeline checkpoint_id;
  Ok found.2.

(** ** The conversation a checkpoint belongs to *)

(* apps/code-agent/crates/backend/src/backend/checkpoint_manager.rs, SessionCheckpointManager::current_turn_boundary@match event.event { *)
Definition note_message_turn (turns : gmap MessageId (option TurnId * MessageRole)) (event : SessionEventEnvelope)
    : gmap MessageId (option TurnId * MessageRole) :=
  match env_event event with
  | Ev_TranscriptMessage message => <[msg_id message := (env_turn_id event, msg_role message)]> turns
  | Ev_TranscriptMessagePatched message_id message => <[message_id := (env_turn_id event, msg_role message)]> turns
  | Ev_TranscriptMessageRemoved message_id => delete message_id turns
  | _ => turns
  end.

Definition is_response (message : Message) : bool :=
  match msg_role message with Role_Assistant | Role_Tool => true | _ => false end.
Definition is_user_message (message : Message) : bool := bool_decide (msg_role message = Role_User).

(** The first visible message of the turn, and the last prompt before its first response. *)
(* apps/code-agent/crates/backend/src/backend/checkpoint_manager.rs, SessionCheckpointManager::current_turn_boundary@let visible_messages *)
Definition turn_boundary (events : list SessionEventEnvelope) (turn_id : TurnId)
    : option MessageId * option MessageId :=
  let message_turns := foldl note_message_turn ∅ events in
  let turn_messages := List.filter (fun message =>
      match message_turns !! msg_id message with
      | Some (event_turn_id, _) => bool_decide (event_turn_id = Some turn_id)
      | None => false
      end) (visible_transcript events) in
  match turn_messages with
  | [] => (None, None)
  | first :: _ =>
      let request_side_end := default (length turn_messages) (position is_response turn_messages) in
      let prompt := index ← rposition is_user_message (take request_side_end turn_messages);
                    turn_messages !! index in
      (Some (msg_id first), msg_id <$> prompt)
  end.

(* apps/code-agent/crates/backend/src/backend/checkpoint_manager.rs, SessionCheckpointManager::current_turn_boundary *)
Definition current_turn_boundary (w : LogWorld) (session_id : SessionId) (turn_id : option TurnId)
    : result (option MessageId * option MessageId) ToolError :=
  match turn_id with
  | None => Ok (None, None)
  | Some turn_id => events <-? session_events w session_id; Ok (turn_boundary events turn_id)
  end.

(** ** Recording *)

(* apps/code-agent/crates/backend/src/backend/checkpoint_manager.rs, SessionCheckpointManager::append_checkpoint@changed_files: changed_files ~~ .collect(), *)
Definition file_record (change : CheckpointFileMutation) : CheckpointFileRecord :=
  mkCheckpointFileRecord (cfm_requested_path change) (cfm_resolved_path change) (cfm_before_text change)
    (cfm_after_text change).

(* apps/code-agent/crates/backend/src/backend/checkpoint_manager.rs, SessionCheckpointManager::append_checkpoint *)
Definition append_checkpoint (c : ToolExecutionContext) (origin : CheckpointOrigin) (summary : string)
    (changed_files : list CheckpointFileMutation) (w : LogWorld) : result CheckpointRecord ToolError * LogWorld :=
  match (attached <-? require_attached_runtime c;
         boundary <-? current_turn_boundary w attached.1 (tc_turn_id c);
         Ok (attached, boundary)) with
  | Err e => (Err e, w)
  | Ok ((session_id, agent_session_id), (rollback_message_id, prompt_message_id)) =>
      let scope := match rollback_message_id with Some _ => CheckpointScope_Both | None => CheckpointScope_Code end in
      let '(id, w) := lw_new_id w in
      let checkpoint := mkCheckpointRecord ("checkpoint_" +:+ id) session_id agent_session_id scope origin summary
                          (lw_unix_s w) rollback_message_id prompt_message_id (map file_record changed_files) in
      let '(event_id, w) := lw_new_id w in
      let '(appended, w) := lw_append (SessionEventEnvelope_new event_id (lw_unix_ms w) session_id agent_session_id
                                         (tc_turn_id c) None (Ev_CheckpointCreated checkpoint)) w in
      match appended with
      | Ok _ => (Ok checkpoint, w)
      | Err error => (Err (ToolErr_InvalidState (SessionStoreError_display error)), w)
      end
  end.

(* apps/code-agent/crates/backend/src/backend/checkpoint_manager.rs, SessionCheckpointManager::record_mutation *)
Definition manager_record_mutation (c : ToolExecutionContext) (request : CheckpointMutationRequest) (w : LogWorld)
    : result CheckpointRecord ToolError * LogWorld :=
  if is_nil (cmr_changed_files request) then
    (Err (ToolErr_InvalidInput "checkpoint recording requires at least one changed file"), w)
  else
    append_checkpoint c (CheckpointOrigin_FileTool (default "unknown_tool" (tc_tool_name c))) (cmr_summary request)
      (cmr_changed_files request) w.

(** Newest first; checkpoints of one second by their id. *)
(* apps/code-agent/crates/backend/src/backend/checkpoint_manager.rs, SessionCheckpointManager::list_checkpoints@checkpoints.sort_by ~~ Ok(checkpoints) *)
Definition compare_checkpoint (left right : CheckpointRecord) : comparison :=
  then_with (N.compare (CheckpointRecord_created_at_unix_s right) (CheckpointRecord_created_at_unix_s left))
    (String.compare (CheckpointRecord_checkpoint_id left) (CheckpointRecord_checkpoint_id right)).

Definition checkpoint_before (left right : CheckpointRecord) : Prop := compare_checkpoint left right <> Gt.
#[global] Instance checkpoint_before_dec left right : Decision (checkpoint_before left right).
Proof. unfold checkpoint_before. apply _. Defined.

(* apps/code-agent/crates/backend/src/backend/checkpoint_manager.rs, SessionCheckpointManager::list_checkpoints *)
Definition manager_list_checkpoints (c : ToolExecutionContext) (w : LogWorld) : result (list CheckpointRecord) ToolError :=
  attached <-? require_attached_runtime c;
  timeline <-? load_timeline w attached.1;
  Ok (merge_sort checkpoint_before timeline).

(** ** Restoring *)

(** The files the checkpoints of a timeline changed, in the order of the changes. *)
Definition changed_files_of (timeline : list CheckpointRecord) : list CheckpointFileRecord :=
  flat_map CheckpointRecord_changed_files timeline.

Definition changes_path (path : PathBuf) (file : CheckpointFileRecord) : bool :=
  bool_decide (CheckpointFileRecord_resolved_path file = path).

(** The content of one path at the boundary. *)
(* apps/code-agent/crates/backend/src/backend/checkpoint_manager.rs, SessionCheckpointManager::desired_state_for_checkpoint@let latest_before_target ~~ desired.insert *)
Definition desired_content (timeline : list CheckpointRecord) (checkpoint_index : nat) (path : PathBuf)
    : option (option string) :=
  let latest_before_target := last (List.filter (changes_path path) (changed_files_of (take checkpoint_index timeline))) in
  let first_from_target := List.find (changes_path path) (changed_files_of (drop checkpoint_index timeline)) in
  match latest_before_target, first_from_target with
  | Some file, _ => Some (CheckpointFileRecord_after_text file)
  | None, Some file => Some (CheckpointFileRecord_before_text file)
  | None, None => None
  end.

(** In the order of the paths. *)
(* apps/code-agent/crates/backend/src/backend/checkpoint_manager.rs, SessionCheckpointManager::desired_state_for_checkpoint *)
Definition desired_state_for_checkpoint (timeline : list CheckpointRecord) (checkpoint_index : nat)
    : list (PathBuf * option string) :=
  omap (fun path => (fun content => (path, content)) <$> desired_content timeline checkpoint_index path)
    (collect_set path_compare (map CheckpointFileRecord_resolved_path (changed_files_of timeline))).

(* apps/code-agent/crates/backend/src/backend/checkpoint_manager.rs, SessionCheckpointManager::display_path *)
Definition checkpoint_display_path (c : ToolExecutionContext) (path : PathBuf) : string :=
  let strip root := if path_starts_with path root then Some (drop (length root) path) else None in
  path_display (default path (match strip (context_worktree_root c) with
                              | Some relative => Some relative
                              | None => strip (tc_workspace_root c)
                              end)).

(** The files are written one after another; the ones that agree already are left alone. *)
(* apps/code-agent/crates/backend/src/backend/checkpoint_manager.rs, SessionCheckpointManager::restore_checkpoint@for (path, target_content) in desired *)
Fixpoint restore_files (c : ToolExecutionContext) (desired : list (PathBuf * option string))
    (changed : list CheckpointFileMutation) (d : DiskState)
    : result (list CheckpointFileMutation) ToolError * DiskState :=
  match desired with
  | [] => (Ok changed, d)
  | (path, target_content) :: rest =>
      match (_ <-? @assert_path_write_allowed (disk_view d) c path; load_optional_text_file d path) with
      | Err e => (Err e, d)
      | Ok current_content =>
          if bool_decide (current_content = target_content) then restore_files c rest changed d
          else
            let '(committed, d) := commit_text_file d path target_content in
            match committed with
            | Err e => (Err e, d)
            | Ok _ =>
                restore_files c rest
                  (changed ++ [mkCheckpointFileMutation (checkpoint_display_path c path) path current_content target_content])
                  d
            end
      end
  end.

Definition restores_code (mode : CheckpointRestoreMode) : bool :=
  match mode with CheckpointRestoreMode_CodeOnly | CheckpointRestoreMode_Both => true
  | CheckpointRestoreMode_ConversationOnly => false end.

(** The checkpoint of the restore itself, when it changed something. *)
(* apps/code-agent/crates/backend/src/backend/checkpoint_manager.rs, SessionCheckpointManager::restore_checkpoint@let restore_checkpoint_id ~~ Ok(CheckpointRestoreRecord *)
Definition record_restore (c : ToolExecutionContext) (target : CheckpointRecord) (mode : CheckpointRestoreMode)
    (changed : list CheckpointFileMutation) (w : LogWorld) : result (option CheckpointId) ToolError * LogWorld :=
  if is_nil changed then (Ok None, w)
  else
    let restored_from := CheckpointRecord_checkpoint_id target in
    let '(r, w) := append_checkpoint c (CheckpointOrigin_Restore restored_from mode)
                     ("Restored code to " +:+ restored_from) changed w in
    (match r with Ok record => Ok (Some (CheckpointRecord_checkpoint_id record)) | Err e => Err e end, w).

(* apps/code-agent/crates/backend/src/backend/checkpoint_manager.rs, SessionCheckpointManager::restore_checkpoint *)
Definition manager_restore_checkpoint (c : ToolExecutionContext) (checkpoint_id : CheckpointId)
    (mode : CheckpointRestoreMode) (s : DiskState * LogWorld)
    : result CheckpointRestoreRecord ToolError * (DiskState * LogWorld) :=
  match (attached <-? require_attached_runtime c;
         timeline <-? load_timeline s.2 attached.1;
         found <-? resolve_checkpoint_reference timeline checkpoint_id;
         Ok (timeline, found)) with
  | Err e => (Err e, s)
  | Ok (timeline, (checkpoint_index, target)) =>
      let '(restored, d) :=
        if restores_code mode then restore_files c (desired_state_for_checkpoint timeline checkpoint_index) [] s.1
        else (Ok [], s.1) in
      match restored with
      | Err e => (Err e, (d, s.2))
      | Ok changed =>
          let '(recorded, w) := record_restore c target mode changed s.2 in
          match recorded with
          | Err e => (Err e, (d, w))
          | Ok restore_checkpoint_id =>
              (Ok (mkCheckpointRestoreRecord (CheckpointRecord_checkpoint_id target) mode (length changed)
                     (map cfm_requested_path changed) restore_checkpoint_id
                     (CheckpointRecord_rollback_message_id target) (CheckpointRecord_prompt_message_id target)), (d, w))
          end
      end
  end.

(** ** The tools *)

(** The decoded arguments, and the serialized records of the answers. *)
Class CheckpointPayloads := {
  decode_checkpoint_list_input : Value -> result unit string;
  decode_checkpoint_restore_input : Value -> result (CheckpointId * option CheckpointRestoreMode) string;
  checkpoint_list_json : nat -> list CheckpointRecord -> Value;
  checkpoint_restore_json : CheckpointRestoreRecord -> Value
}.
Context {P : CheckpointPayloads}.

(* crates/tools/src/agentic/checkpoint.rs, CHECKPOINT_LIST_TOOL_NAME *)
Definition CHECKPOINT_LIST_TOOL_NAME : string := "checkpoint_list".
(* crates/tools/src/agentic/checkpoint.rs, CHECKPOINT_RESTORE_TOOL_NAME *)
Definition CHECKPOINT_RESTORE_TOOL_NAME : string := "checkpoint_restore".

Definition checkpoint_origin_text (origin : CheckpointOrigin) : string :=
  match origin with
  | CheckpointOrigin_FileTool tool_name => tool_name
  | CheckpointOrigin_Restore restored_from restore_mode =>
      "restore " +:+ restored_from +:+ " (" +:+ CheckpointRestoreMode_display restore_mode +:+ ")"
  end.

(* crates/tools/src/agentic/checkpoint.rs, render_checkpoint_list_text *)
Definition render_checkpoint_list_text (checkpoints : list CheckpointRecord) : string :=
  if is_nil checkpoints then "No checkpoints recorded in the current session."
  else
    str_join nl
      (("checkpoint_list result_count=" +:+ fmt_nat (length checkpoints))
       :: map (fun checkpoint =>
            "- " +:+ CheckpointRecord_checkpoint_id checkpoint +:+ " ["
            +:+ checkpoint_origin_text (CheckpointRecord_origin checkpoint) +:+ "] files="
            +:+ fmt_nat (length (CheckpointRecord_changed_files checkpoint)) +:+ " "
            +:+ CheckpointRecord_summary checkpoint) checkpoints).

(* crates/tools/src/agentic/checkpoint.rs, render_checkpoint_restore_text *)
Definition render_checkpoint_restore_text (r : CheckpointRestoreRecord) : string :=
  if (crr_restored_file_count r =? 0)%nat then
    "Checkpoint " +:+ crr_restored_from r +:+ " already matches the current workspace for restore_mode="
    +:+ CheckpointRestoreMode_display (crr_restore_mode r) +:+ "."
  else
    "Restored " +:+ fmt_nat (crr_restored_file_count r) +:+ " file(s) to checkpoint " +:+ crr_restored_from r
    +:+ " using restore_mode=" +:+ CheckpointRestoreMode_display (crr_restore_mode r) +:+ "."
    +:+ (if is_nil (crr_restored_files r) then ""
         else nl +:+ "[files]" +:+ nl +:+ str_join nl (crr_restored_files r))
    +:+ match crr_restore_checkpoint_id r with
        | Some id => nl +:+ "[checkpoint_saved " +:+ id +:+ "]"
        | None => ""
        end.

Definition with_structured (r : ToolResult) (v : Value) : ToolResult :=
  mkToolResult (result_id r) (result_call_id r) (result_tool_name r) (result_parts r) (result_attachments r) (Some v)
    (result_continuation r) (result_metadata r) (result_is_error r).

(* crates/tools/src/agentic/checkpoint.rs, CheckpointListTool::execute *)
Definition CheckpointListTool_execute (call_id : ToolCallId) (arguments : Value) (c : ToolExecutionContext)
    (s : DiskState * LogWorld) : result ToolResult ToolError :=
  match decode_checkpoint_list_input arguments, tc_checkpoint_handler c with
  | Err e, _ => Err (ToolErr_Json e)
  | Ok _, None => Err (ToolErr_InvalidState "checkpoint_list is unavailable without a host checkpoint handler")
  | Ok _, Some _ =>
      checkpoints <-? manager_list_checkpoints c s.2;
      Ok (with_structured (ToolResult_text call_id call_id CHECKPOINT_LIST_TOOL_NAME
                             (render_checkpoint_list_text checkpoints))
            (checkpoint_list_json (length checkpoints) checkpoints))
  end.

(* crates/tools/src/agentic/checkpoint.rs, CheckpointRestoreTool::execute *)
Definition CheckpointRestoreTool_execute (call_id : ToolCallId) (arguments : Value) (c : ToolExecutionContext)
    (s : DiskState * LogWorld) : result ToolResult ToolError * (DiskState * LogWorld) :=
  match decode_checkpoint_restore_input arguments, tc_checkpoint_handler c with
  | Err e, _ => (Err (ToolErr_Json e), s)
  | Ok _, None => (Err (ToolErr_InvalidState "checkpoint_restore is unavailable without a host checkpoint handler"), s)
  | Ok (checkpoint_id, restore_mode), Some _ =>
      let '(r, s) := manager_restore_checkpoint c checkpoint_id
                       (default CheckpointRestoreMode_CodeOnly restore_mode) s in
      (result_ <-? r;
       Ok (with_structured (ToolResult_text call_id call_id CHECKPOINT_RESTORE_TOOL_NAME
                              (render_checkpoint_restore_text result_)) (checkpoint_restore_json result_)), s)
  end.

End Checkpoints.
