(* ===== verification/CheckpointProps.v ===== *)
(** * What checkpoints guarantee

    The checkpoints of a session are a faithful history of the files its tools changed: each
    names the content it found and the content it left, in the order of the changes.  Restoring
    one brings the files back to what they held when it was recorded, whatever happened since,
    and is itself recorded, so that it can be undone in the same way. *)

From Stdlib Require Import Ascii String.
From stdpp Require Import base list gmap sorting strings relations.
From Stdlib Require Import Lia.
From S2P Require Import Prelude Text Message Events Errors Replay TextBuffer Mutation WriteLease SandboxPolicy Tools PathPolicy.
From S2P Require Import PatchFiles PatchFilesProps StoreSearch SessionStores Checkpoints.

(** ** Changes to files *)

Notation record_path := CheckpointFileRecord_resolved_path.
Notation record_before := CheckpointFileRecord_before_text.
Notation record_after := CheckpointFileRecord_after_text.

(** Every change starts from the content the changes before it left. *)
Fixpoint faithful (f : files) (changes : list CheckpointFileRecord) : Prop :=
  match changes with
  | [] => True
  | c :: rest => record_before c = f (record_path c) /\ faithful (set_file (record_path c) (record_after c) f) rest
  end.

(** The files after the changes. *)
Definition after_changes (f : files) (changes : list CheckpointFileRecord) : files :=
  foldl (fun f c => set_file (record_path c) (record_after c) f) f changes.

Lemma after_changes_app f l k : after_changes f (l ++ k) = after_changes (after_changes f l) k.
Proof. apply foldl_app. Qed.

Lemma faithful_app f l k : faithful f (l ++ k) <-> faithful f l /\ faithful (after_changes f l) k.
Proof. revert f. induction l as [|c l IH]; intros f; cbn [app faithful after_changes foldl]; [tauto|]. rewrite IH. tauto. Qed.

Lemma after_changes_last f l p :
  after_changes f l p = match last (List.filter (changes_path p) l) with Some c => record_after c | None => f p end.
Proof.
  induction l as [|c l IH] using rev_ind; [done|].
  rewrite after_changes_app, List.filter_app. cbn [after_changes foldl List.filter].
  unfold changes_path at 2. case_bool_decide as Hp; [subst p|].
  - by rewrite set_file_eq, last_snoc.
  - rewrite set_file_ne by congruence. by rewrite app_nil_r.
Qed.

Lemma faithful_first f l p c : faithful f l -> List.find (changes_path p) l = Some c -> record_before c = f p.
Proof.
  revert f. induction l as [|c0 l IH]; intros f; [done|]. cbn [faithful List.find]. intros [Hc Hl].
  unfold changes_path at 1. case_bool_decide as Hp; [intros [= <-]; by subst p|].
  intros Hf. rewrite (IH _ Hl Hf). by apply set_file_ne, not_eq_sym.
Qed.

(** Changes of different files, each of which starts from [f]. *)
Lemma faithful_batch f l : NoDup (record_path <$> l) -> Forall (fun c => record_before c = f (record_path c)) l ->
  faithful f l /\ (forall c, c ∈ l -> after_changes f l (record_path c) = record_after c)
  /\ forall q, q ∉ record_path <$> l -> after_changes f l q = f q.
Proof.
  revert f. induction l as [|c l IH]; intros f; cbn [fmap list_fmap faithful after_changes foldl].
  { intros _ _. split_and!; [done | by intros c Hc%elem_of_nil | done]. }
  intros [Hnin Hnd]%NoDup_cons [Hc Hl]%Forall_cons.
  destruct (IH (set_file (record_path c) (record_after c) f)) as (Hf & Hin & Hout); [done| |].
  { apply Forall_forall. intros x Hx. rewrite Forall_forall in Hl. rewrite (Hl x Hx).
    symmetry. apply set_file_ne. intros He. apply Hnin. rewrite <- He. by apply list_elem_of_fmap_2. }
  split_and!; [done | done | |].
  - intros x [->|Hx]%elem_of_cons; [|by apply Hin]. rewrite Hout by done. apply set_file_eq.
  - intros q [Hq1 Hq2]%not_elem_of_cons. rewrite Hout by done. by apply set_file_ne.
Qed.

Section Restore.
Context {J : SerdeJson} {H : LogHost} {D : Disk} {DL : DiskLaws D}.

(** What a boundary of a faithful timeline holds. *)
Lemma desired_content_spec f0 timeline k p v : faithful f0 (changed_files_of timeline) ->
  desired_content timeline k p = Some v -> v = after_changes f0 (changed_files_of (take k timeline)) p.
Proof.
  intros Hf. rewrite <- (take_drop k timeline) in Hf. unfold changed_files_of in Hf. rewrite flat_map_app in Hf.
  apply faithful_app in Hf as [_ Hf]. unfold desired_content. rewrite after_changes_last.
  unfold changed_files_of in *. destruct (last _) as [c|] eqn:El; [by intros [= <-]|].
  destruct (List.find _ _) as [c|] eqn:Ef; [|done]. intros [= <-].
  by rewrite (faithful_first _ _ p c Hf Ef), after_changes_last, El.
Qed.

Lemma desired_content_some timeline k p : p ∈ record_path <$> changed_files_of timeline ->
  is_Some (desired_content timeline k p).
Proof.
  intros (c & -> & Hc)%list_elem_of_fmap. unfold desired_content.
  rewrite <- (take_drop k timeline) in Hc. unfold changed_files_of in *. rewrite flat_map_app in Hc.
  assert (Hp : changes_path (record_path c) c = true) by (unfold changes_path; by rewrite bool_decide_true).
  destruct (last _) as [c1|] eqn:El; [by eexists|].
  apply last_None in El. apply elem_of_app in Hc as [Hc|Hc].
  - exfalso. assert (Hin : c ∈ List.filter (changes_path (record_path c)) (flat_map CheckpointRecord_changed_files (take k timeline)))
      by (by apply elem_of_filter_b). rewrite El in Hin. by apply elem_of_nil in Hin.
  - destruct (List.find _ _) as [c1|] eqn:Ef; [by eexists|].
    apply list_elem_of_In, (find_none _ _ Ef) in Hc. congruence.
Qed.

Lemma desired_state_elem timeline k p v :
  (p, v) ∈ desired_state_for_checkpoint timeline k
  <-> p ∈ record_path <$> changed_files_of timeline /\ desired_content timeline k p = Some v.
Proof.
  unfold desired_state_for_checkpoint. rewrite list_elem_of_omap. split.
  - intros (q & Hq & Hv). apply elem_of_collect_set in Hq; [|apply path_compare_eq].
    destruct (desired_content timeline k q) eqn:E; [|done]. by injection Hv as -> ->.
  - intros [Hp Hv]. exists p. rewrite Hv. split; [|done]. by apply elem_of_collect_set, Hp; apply path_compare_eq.
Qed.

(** Different paths name different files. *)
Definition unaliased (P : list PathBuf) : Prop :=
  forall p q, p ∈ P -> q ∈ P -> disk_same p q = true -> p = q.

Lemma unaliased_false P p q : unaliased P -> p ∈ P -> q ∈ P -> p <> q -> disk_same p q = false.
Proof. intros Hu Hp Hq Hn. destruct (disk_same p q) eqn:E; [|done]. by destruct Hn; apply Hu. Qed.

(** A list of mutations that tells what happened to the files of [P] between two disks. *)
Record changes_between (P : list PathBuf) (d d' : DiskState) (changes : list CheckpointFileMutation) : Prop := {
  cb_nodup : NoDup (cfm_resolved_path <$> changes);
  cb_change : forall m, m ∈ changes -> cfm_resolved_path m ∈ P
    /\ cfm_before_text m = file_text d (cfm_resolved_path m)
    /\ cfm_after_text m = file_text d' (cfm_resolved_path m);
  cb_rest : forall p, p ∈ P -> p ∉ cfm_resolved_path <$> changes -> file_text d' p = file_text d p
}.

Lemma restore_files_spec c desired changed d changed' d' :
  restore_files c desired changed d = (Ok changed', d') -> unaliased desired.*1 ->
  (forall p v v', (p, v) ∈ desired -> (p, v') ∈ desired -> v = v') ->
  exists new, changed' = (changed ++ new)%list
    /\ changes_between desired.*1 d d' new
    /\ (forall m, m ∈ new -> cfm_before_text m <> cfm_after_text m)
    /\ (forall p v, (p, v) ∈ desired -> file_text d' p = v)
    /\ forall q, (forall p, p ∈ desired.*1 -> disk_same p q = false) -> file_text d' q = file_text d q.
Proof.
  revert changed d. induction desired as [|[p v] rest IH]; intros changed d Hr Hu Hfun; cbn [restore_files] in Hr.
  { injection Hr as <- <-. exists []. rewrite app_nil_r. split_and!; try done.
    - split; [constructor | by intros m Hm%elem_of_nil | done].
    - by intros m Hm%elem_of_nil.
    - by intros q w Hq%elem_of_nil. }
  destruct (assert_path_write_allowed c p) as [[]|]; [|done]. cbn [result_bind] in Hr.
  destruct (load_optional_text_file d p) as [current|] eqn:El; [|done]. apply load_text in El.
  assert (Hu' : unaliased rest.*1) by (intros x y Hx Hy; apply Hu; by right).
  assert (Hfun' : forall p v v', (p, v) ∈ rest -> (p, v') ∈ rest -> v = v') by (intros x a b Ha Hb; eapply Hfun; by right).
  assert (Hsep : forall q, p ∉ rest.*1 -> q ∈ rest.*1 -> disk_same q p = false).
  { intros q Hp Hq. apply (unaliased_false _ _ _ Hu); [by right | by left | by intros ->]. }
  assert (Hkeep : forall dx, (forall q w, (q, w) ∈ rest -> file_text d' q = w) -> file_text dx p = v ->
      (forall q, (forall p, p ∈ rest.*1 -> disk_same p q = false) -> file_text d' q = file_text dx q) ->
      file_text d' p = v).
  { intros dx Hrest Hx Hother. destruct (decide (p ∈ rest.*1)) as [([q w] & Hq & Hin)%list_elem_of_fmap|Hn].
    - cbn in Hq. subst q. rewrite (Hrest _ _ Hin). apply (Hfun p w v); [by right | by left].
    - rewrite Hother; [done|]. intros q Hq. by apply Hsep. }
  case_bool_decide as Hsame.
  - destruct (IH _ _ Hr Hu' Hfun') as (new & -> & [Hnd Hch Hre] & Hne & Hrest & Hother).
    assert (Hp : file_text d' p = v) by (apply (Hkeep d); [done | congruence | done]).
    exists new. split_and!; [done | split | done | |].
    + done.
    + intros m Hm. destruct (Hch m Hm) as (Hin & Hb & Ha). split_and!; [by right | done..].
    + cbn [fmap list_fmap fst]. intros q [->|Hq]%elem_of_cons Hnin; [congruence | by apply Hre].
    + intros q w [[= -> ->]|Hq]%elem_of_cons; [done | by apply Hrest].
    + intros q Hq. apply Hother. intros x Hx. apply Hq. by right.
  - pose proof (commit_same d p v) as Hcs. pose proof (commit_other d p v) as Hco.
    destruct (commit_text_file d p v) as [[[]|e] d1]; [|done]. cbn [fst snd] in Hcs, Hco. specialize (Hcs eq_refl).
    destruct (IH _ _ Hr Hu' Hfun') as (new & -> & [Hnd Hch Hre] & Hne & Hrest & Hother).
    assert (Hp : file_text d' p = v) by (by apply (Hkeep d1)).
    assert (Hnew : p ∉ cfm_resolved_path <$> new).
    { intros (m & Hm & Hin)%list_elem_of_fmap. destruct (Hch m Hin) as (_ & Hb & Ha). apply (Hne m Hin).
      rewrite Hb, Ha, <- Hm, Hp. done. }
    assert (Hd1 : forall q, q ∈ rest.*1 -> q <> p -> file_text d1 q = file_text d q).
    { intros q Hq Hqp. apply Hco, (unaliased_false _ _ _ Hu); [by left | by right | done]. }
    exists (mkCheckpointFileMutation (checkpoint_display_path c p) p current v :: new).
    rewrite <- app_assoc. split_and!; [done | split | | |].
    + cbn. by apply NoDup_cons.
    + intros m [->|Hm]%elem_of_cons; cbn; [split_and!; [by left | done | done]|].
      destruct (Hch m Hm) as (Hin & Hb & Ha). split_and!; [by right | | done]. rewrite Hb. apply Hd1; [done|].
      intros He. apply Hnew. rewrite <- He. by apply list_elem_of_fmap_2.
    + cbn. intros q Hq [Hqp Hqn]%not_elem_of_cons. apply elem_of_cons in Hq as [->|Hq]; [done|].
      rewrite (Hre q Hq Hqn). by apply Hd1.
    + intros m [->|Hm]%elem_of_cons; [cbn; congruence | by apply Hne].
    + intros q w [[= -> ->]|Hq]%elem_of_cons; [done | by apply Hrest].
    + intros q Hq. rewrite Hother by (intros x Hx; apply Hq; by right). apply Hco, Hq. by left.
Qed.

(** ** The history of a session *)

(** What the trait of the store documents: an event that was appended is the last one of its
    session, and drawing an identifier leaves the logs alone. *)
Class LogHostLaws : Prop := {
  new_id_events : forall w session_id, session_events (lw_new_id w).2 session_id = session_events w session_id;
  append_event_last : forall w e events, session_events w (env_session_id e) = Ok events ->
    (lw_append e w).1 = Ok tt -> session_events (lw_append e w).2 (env_session_id e) = Ok (events ++ [e])%list
}.
Context {HL : LogHostLaws}.

Section Session.
(** The session, the files its tools may change and what they held at its start. *)
Context (session_id : SessionId) (P : list PathBuf) (f0 : files).

(** The checkpoints of the log tell the history of the files from the start to the disk as it is. *)
Record history (timeline : list CheckpointRecord) (s : DiskState * LogWorld) : Prop := {
  h_timeline : load_timeline s.2 session_id = Ok timeline;
  h_faithful : faithful f0 (changed_files_of timeline);
  h_paths : forall c, c ∈ changed_files_of timeline -> record_path c ∈ P;
  h_disk : forall p, p ∈ P -> file_text s.1 p = after_changes f0 (changed_files_of timeline) p
}.

Lemma append_checkpoint_inv c origin summary changes w record w' timeline :
  append_checkpoint c origin summary changes w = (Ok record, w') -> tc_session_id c = Some session_id ->
  load_timeline w session_id = Ok timeline ->
  load_timeline w' session_id = Ok (timeline ++ [record])%list
  /\ CheckpointRecord_changed_files record = map file_record changes.
Proof.
  unfold append_checkpoint, require_attached_runtime. intros Ha Hc Hl. rewrite Hc in Ha. cbn [ok_or result_bind] in Ha.
  destruct (tc_agent_session_id c) as [agent|]; cbn [ok_or result_bind] in Ha; [|done].
  destruct (current_turn_boundary w _ _) as [[rollback prompt]|]; [|done]. cbn [result_bind] in Ha.
  pose proof (new_id_events w session_id) as H1. destruct (lw_new_id w) as [id w1]. cbn [snd] in H1.
  pose proof (new_id_events w1 session_id) as H2. destruct (lw_new_id w1) as [event_id w2]. cbn [snd] in H2.
  set (checkpoint := mkCheckpointRecord _ _ _ _ _ _ _ _ _ _) in Ha.
  set (event := SessionEventEnvelope_new _ _ _ _ _ _ _) in Ha. unfold load_timeline in *.
  destruct (session_events w session_id) as [events|] eqn:Ee; [|done]. cbn [result_bind] in Hl. injection Hl as <-.
  assert (Hev : session_events w2 (env_session_id event) = Ok events)
    by (change (session_events w2 session_id = Ok events); congruence).
  pose proof (append_event_last w2 event events Hev) as Hlast.
  destruct (lw_append event w2) as [[[]|e] w3]; [|done]. cbn [fst snd] in Hlast. injection Ha as <- <-.
  cbn [env_session_id event SessionEventEnvelope_new] in Hlast. rewrite (Hlast eq_refl). cbn [result_bind].
  split; [|done]. unfold timeline_of. rewrite omap_app. cbn. by rewrite String.eqb_refl.
Qed.

(** A checkpoint that tells what happened to the files since keeps the history. *)
Lemma record_keeps_history timeline d d' w w' c origin summary changes record :
  history timeline (d, w) -> changes_between P d d' changes -> tc_session_id c = Some session_id ->
  append_checkpoint c origin summary changes w = (Ok record, w') -> history (timeline ++ [record]) (d', w').
Proof.
  intros [Hl Hf Hp Hd] [Hnd Hch Hre] Hc Ha. cbn [fst snd] in *.
  destruct (append_checkpoint_inv _ _ _ _ _ _ _ _ Ha Hc Hl) as [Hl' Hfiles].
  assert (Happ : changed_files_of (timeline ++ [record]) = (changed_files_of timeline ++ map file_record changes)%list)
    by (unfold changed_files_of; rewrite flat_map_app; cbn; by rewrite app_nil_r, Hfiles).
  assert (Hpaths : record_path <$> map file_record changes = cfm_resolved_path <$> changes)
    by (by rewrite <- list_fmap_compose).
  destruct (faithful_batch (after_changes f0 (changed_files_of timeline)) (map file_record changes)) as (Hb & Hin & Hout).
  { by rewrite Hpaths. }
  { apply Forall_forall. intros x (m & -> & Hm)%list_elem_of_fmap. destruct (Hch m Hm) as (HP & Hbe & _).
    cbn. by rewrite Hbe, Hd. }
  split; cbn [fst snd]; rewrite ?Happ; [done | | |].
  - by apply faithful_app.
  - intros x [Hx|(m & -> & Hm)%list_elem_of_fmap]%elem_of_app; [by apply Hp | by apply (Hch m Hm)].
  - intros p HP. rewrite after_changes_app.
    destruct (decide (p ∈ cfm_resolved_path <$> changes)) as [(m & -> & Hm)%list_elem_of_fmap|Hn].
    + destruct (Hch m Hm) as (_ & _ & Haf). rewrite <- Haf. symmetry.
      apply (Hin (file_record m)). by apply (list_elem_of_fmap_2 file_record).
    + rewrite Hout by (by rewrite Hpaths). rewrite (Hre p HP Hn). by apply Hd.
Qed.

Lemma unchanged_keeps_history timeline d d' w :
  history timeline (d, w) -> changes_between P d d' [] -> history timeline (d', w).
Proof.
  intros [Hl Hf Hp Hd] [_ _ Hre]. split; [done..|]. cbn [fst] in *. intros p HP.
  rewrite (Hre p HP); [by apply Hd | by intros Hx%elem_of_nil].
Qed.

(** ** Restoring *)

Context (Hunaliased : unaliased P).

Lemma restored_files_history c timeline k d w changed d' :
  history timeline (d, w) -> restore_files c (desired_state_for_checkpoint timeline k) [] d = (Ok changed, d') ->
  changes_between P d d' changed
  /\ (forall p, p ∈ P -> file_text d' p = after_changes f0 (changed_files_of (take k timeline)) p)
  /\ forall q, (forall p, p ∈ P -> disk_same p q = false) -> file_text d' q = file_text d q.
Proof.
  intros [Hl Hf Hp Hd] Hr. cbn [fst snd] in *.
  set (desired := desired_state_for_checkpoint timeline k) in Hr.
  assert (Hsub : forall p, p ∈ desired.*1 -> p ∈ P).
  { intros p ([q v] & -> & Hq)%list_elem_of_fmap. apply desired_state_elem in Hq as [(x & -> & Hx)%list_elem_of_fmap _].
    by apply Hp. }
  destruct (restore_files_spec c desired [] d changed d' Hr) as (new & -> & [Hnd Hch Hre] & _ & Hval & Hoth).
  { intros p q Hpp Hq. apply Hunaliased; by apply Hsub. }
  { intros p v v' [_ H1]%desired_state_elem [_ H2]%desired_state_elem. congruence. }
  assert (Hfar : forall p, p ∈ P -> p ∉ desired.*1 -> file_text d' p = file_text d p).
  { intros p HP Hn. apply Hoth. intros x Hx. apply (unaliased_false P); auto. by intros ->. }
  cbn [app]. split_and!; [split | |].
  - done.
  - intros m Hm. destruct (Hch m Hm) as (Hin & Hb & Ha). auto.
  - intros p HP Hn. destruct (decide (p ∈ desired.*1)); auto.
  - intros p HP. destruct (decide (p ∈ record_path <$> changed_files_of timeline)) as [Hin|Hn].
    + destruct (desired_content_some timeline k p Hin) as [v Hv].
      rewrite (Hval p v) by (by apply desired_state_elem). by apply (desired_content_spec f0 timeline).
    + rewrite Hfar; [|done|].
      * rewrite (Hd p HP), <- (take_drop k timeline) at 1. unfold changed_files_of. rewrite flat_map_app, after_changes_app.
        rewrite after_changes_last. destruct (last _) as [c1|] eqn:El; [|done]. exfalso.
        apply last_Some_elem_of, elem_of_filter_b in El as [Hin Hpc%bool_decide_eq_true]. apply Hn. subst p.
        apply list_elem_of_fmap_2. rewrite <- (take_drop k timeline). unfold changed_files_of. rewrite flat_map_app.
        apply elem_of_app. by right.
      * intros ([q v] & -> & [Hin _]%desired_state_elem)%list_elem_of_fmap. by apply Hn.
  - intros q Hq. apply Hoth. auto.
Qed.

(** A restore of code that succeeds: where it goes, what it leaves alone, what it records. *)
Lemma restore_inv c id mode timeline d w rec d' w' :
  history timeline (d, w) -> tc_session_id c = Some session_id -> restores_code mode = true ->
  manager_restore_checkpoint c id mode (d, w) = (Ok rec, (d', w')) ->
  exists k target, resolve_checkpoint_reference timeline id = Ok (k, target)
    /\ (forall p, p ∈ P -> file_text d' p = after_changes f0 (changed_files_of (take k timeline)) p)
    /\ (forall q, (forall p, p ∈ P -> disk_same p q = false) -> file_text d' q = file_text d q)
    /\ exists new, history (timeline ++ new) (d', w').
Proof.
  intros Hh Hc Hm. pose proof (h_timeline _ _ Hh) as Hl. cbn [snd] in Hl.
  unfold manager_restore_checkpoint, require_attached_runtime. rewrite Hc, Hm. cbn [ok_or result_bind fst snd].
  destruct (tc_agent_session_id c) as [agent|]; cbn [ok_or result_bind fst]; [|done]. rewrite Hl. cbn [result_bind].
  destruct (resolve_checkpoint_reference timeline id) as [[k target]|]; [|done]. cbn [result_bind].
  destruct (restore_files c _ [] d) as [[changed|] d1] eqn:Er; [|done].
  destruct (restored_files_history _ _ _ _ _ _ _ Hh Er) as (Hch & Hval & Hoth).
  unfold record_restore. destruct (is_nil changed) eqn:En.
  - intros [= _ <- <-]. exists k, target. split_and!; [done..|]. exists []. rewrite app_nil_r.
    destruct changed; [|done]. by apply (unchanged_keeps_history _ d).
  - destruct (append_checkpoint _ _ _ changed w) as [[record|] w1] eqn:Ea; [|done].
    intros [= _ <- <-]. exists k, target. split_and!; [done..|]. exists [record].
    by eapply record_keeps_history.
Qed.

End Session.
(** ** The tools *)

(** The host of the file tools when the manager is their checkpoint handler; the observers of
    file activity keep nothing in the log. *)
Definition checkpointing_tools : FileToolHost := {|
  TWorld := LogWorld;
  record_mutation := fun _ => manager_record_mutation;
  file_activity := fun _ _ w => w
|}.
#[local] Existing Instance checkpointing_tools.

Context {JD : JsonData J} {S256 : Sha256} {I : FileToolInputs J}.

(** A tool call of the session, with the handler. *)
Definition in_session (session_id : SessionId) (c : ToolExecutionContext) : Prop :=
  tc_session_id c = Some session_id /\ is_Some (tc_checkpoint_handler c).

(** What the tools and restores of a session do to the disk and the log, when they return a
    result; the files they write are among [P]. *)
Inductive session_step (session_id : SessionId) (P : list PathBuf) : relation (DiskState * LogWorld) :=
| Step_Edit o cid args c s res s' :
    in_session session_id c -> EditTool_execute o cid args c s = (Ok res, s') ->
    (forall input p, decode_edit_input args = Ok input -> resolve_in c (eti_path input) = Ok p -> p ∈ P) ->
    session_step session_id P s s'
| Step_Write o cid args c s res s' :
    in_session session_id c -> WriteTool_execute o cid args c s = (Ok res, s') ->
    (forall input p, decode_write_input args = Ok input -> resolve_in c (wti_path input) = Ok p -> p ∈ P) ->
    session_step session_id P s s'
| Step_Patch tn o cid ops c s res s' :
    in_session session_id c -> execute_patch_operations tn o cid ops c s = (Ok res, s') ->
    (forall p, p ∈ patch_paths c ops -> p ∈ P) -> session_step session_id P s s'
| Step_Restore c id mode s rec s' :
    in_session session_id c -> restores_code mode = true ->
    manager_restore_checkpoint c id mode s = (Ok rec, s') -> session_step session_id P s s'.

Section Steps.
Context (session_id : SessionId) (P : list PathBuf) (f0 : files) (Hunaliased : unaliased P).

Notation history := (history session_id P f0).

(** What a tool does after it wrote the files. *)
Lemma mutation_keeps_history timeline d d' w w' c request record :
  history timeline (d, w) -> in_session session_id c -> changes_between P d d' (cmr_changed_files request) ->
  checkpoint_mutation c request w = (Ok record, w') -> exists new, history (timeline ++ new) (d', w').
Proof.
  intros Hh [Hc [h Hhandler]] Hch. unfold checkpoint_mutation. rewrite Hhandler.
  cbn [record_mutation checkpointing_tools]. unfold manager_record_mutation. destruct (is_nil _); [done|].
  destruct (append_checkpoint _ _ _ _ w) as [[cp|] w1] eqn:Ea; [|done]. intros [= _ <-].
  exists [cp]. by eapply record_keeps_history.
Qed.

Lemma finish_file_history tool o cid path p existing out c d w res d' w' timeline :
  history timeline (d, w) -> in_session session_id c -> p ∈ P -> file_text d p = existing ->
  finish_file_tool tool o cid path p existing out c (d, w) = (Ok res, (d', w')) ->
  exists new, history (timeline ++ new) (d', w').
Proof.
  intros Hh Hc Hp He. unfold finish_file_tool. destruct (mut_is_error out).
  { intros [= _ <- <-]. exists []. by rewrite app_nil_r. }
  cbn [fst snd]. pose proof (commit_same d p (next_content out)) as Hs. pose proof (commit_other d p (next_content out)) as Ho.
  destruct (commit_text_file d p _) as [[[]|e] d1]; [|done]. cbn [fst snd] in *. specialize (Hs eq_refl).
  assert (Hrest : forall q, q ∈ P -> q <> p -> file_text d1 q = file_text d q)
    by (intros q Hq Hn; apply Ho, (unaliased_false P); auto).
  case_bool_decide as Heq.
  - intros [= _ <- <-]. exists []. rewrite app_nil_r.
    assert (H0 : history timeline (d1, w)).
    { apply (unchanged_keeps_history session_id P f0 timeline d); [done|]. split.
      - constructor.
      - by intros m Hm%elem_of_nil.
      - intros q Hq _. destruct (decide (q = p)) as [->|Hn]; [congruence | by apply Hrest]. }
    by destruct o.
  - destruct (checkpoint_mutation (H := checkpointing_tools) _ _ w) as [[record|] w1] eqn:Ec; [|done]. intros [= _ <- <-].
    assert (H0 : exists new, history (timeline ++ new) (d1, w1)).
    { eapply mutation_keeps_history; [done | done | | exact Ec]. cbn [cmr_changed_files]. split.
      - cbn. by apply NoDup_singleton.
      - intros m ->%list_elem_of_singleton. by cbn.
      - cbn. intros q Hq Hn%not_elem_of_cons. apply Hrest; [done | tauto]. }
    by destruct o.
Qed.

Lemma commit_stage_history tn o cid n c st f ps d w res d' w' timeline :
  history timeline (d, w) -> in_session session_id c -> stage_inv d c ps (st_staged st) f -> (forall p, p ∈ ps -> p ∈ P) ->
  commit_stage tn o cid n c st d w = (Ok res, (d', w')) ->
  exists new, history (timeline ++ new) (d', w').
Proof.
  intros Hh Hc Hi Hps. unfold commit_stage. set (changed := List.filter entry_changed (staged_values (st_staged st))).
  assert (Hnotify : forall w, notify_entries o changed w = w).
  { intros v. unfold notify_entries. destruct o; [|done]. revert v. induction changed as [|e l IH]; intros v; [done|].
    cbn. by destruct (sf_content e); cbn; apply IH. }
  assert (Hentry : forall e, e ∈ changed -> sf_resolved_path e ∈ P /\ sf_baseline_content e = file_text d (sf_resolved_path e)).
  { intros e (_ & p & Hp)%elem_of_changed. destruct (si_entry _ _ _ _ _ Hi p e Hp) as (<- & Hb & _ & Hin & _). auto. }
  assert (Hnd : NoDup (sf_resolved_path <$> changed)) by (by apply NoDup_map_filter, (staged_values_nodup d c ps _ f)).
  destruct (commit_entries d changed) as [[[]|e] d1] eqn:Ec; [|done].
  assert (Hch : changes_between P d d1 (map entry_mutation changed)).
  { assert (Hpaths : cfm_resolved_path <$> map entry_mutation changed = sf_resolved_path <$> changed)
      by (by rewrite <- list_fmap_compose).
    split; rewrite ?Hpaths; [done | |].
    - intros m (e & -> & He)%list_elem_of_fmap. destruct (Hentry e He) as [HP Hb]. cbn. split_and!; [done..|].
      symmetry. apply (commit_entries_done d changed d1 Ec Hnd); [|done].
      intros x y Hx Hy. apply Hunaliased; by apply Hentry.
    - intros p HP Hn. apply (commit_entries_other d changed p _ _ Ec). intros e He.
      apply (unaliased_false P); [done | by apply Hentry | done|]. intros <-. apply Hn. by apply list_elem_of_fmap_2. }
  rewrite Hnotify. clearbody changed. destruct (is_nil changed) eqn:En.
  - intros [= _ <- <-]. exists []. rewrite app_nil_r. apply (unchanged_keeps_history session_id P f0 timeline d); [done|].
    by destruct changed.
  - destruct (checkpoint_mutation (H := checkpointing_tools) _ _ w) as [[record|] w1] eqn:Em; [|done]. intros [= _ <- <-].
    eapply mutation_keeps_history; [done | done | | exact Em]. exact Hch.
Qed.

Lemma open_for_write_text d c path p existing : open_for_write d c path = Ok (p, existing) ->
  resolve_in c path = Ok p /\ file_text d p = existing.
Proof.
  unfold open_for_write. destruct (resolve_in c path) as [q|]; [|done]. cbn [result_bind].
  destruct (write_allowed d c q); [|done]. cbn [result_bind].
  destruct (load_optional_text_file d q) eqn:El; [|done]. intros [= <- <-]. split; [done | by apply load_text].
Qed.

(** Every step keeps the history and only adds to it. *)
Lemma step_keeps_history timeline s s' : history timeline s -> session_step session_id P s s' ->
  exists new, history (timeline ++ new) s'.
Proof.
  intros Hh Hstep. destruct Hstep as [o cid args c [d w] res [d' w'] Hc Hx Hp|o cid args c [d w] res [d' w'] Hc Hx Hp
    |tn o cid ops c [d w] res [d' w'] Hc Hx Hp|c id mode [d w] rec [d' w'] Hc Hm Hx].
  - revert Hx. unfold EditTool_execute. destruct (decode_edit_input args) as [input|]; [|done]. cbn [fst].
    destruct (open_for_write d c _) as [[p existing]|] eqn:Eo; [|done]. apply open_for_write_text in Eo as [Ep Et].
    destruct (apply_text_edits _ _ _ _) as [out|]; [|done]. eapply finish_file_history; eauto.
  - revert Hx. unfold WriteTool_execute. destruct (decode_write_input args) as [input|]; [|done]. cbn [fst].
    destruct (open_for_write d c _) as [[p existing]|] eqn:Eo; [|done]. apply open_for_write_text in Eo as [Ep Et].
    eapply finish_file_history; eauto.
  - destruct (execute_patch_cases _ _ _ _ _ _ _ _ _ _ Hx) as [[[= -> ->] _]|(st & f & _ & Hi & Hs)].
    + exists []. by rewrite app_nil_r.
    + by eapply commit_stage_history.
  - destruct (restore_inv session_id P f0 Hunaliased _ _ _ _ _ _ _ _ _ Hh (proj1 Hc) Hm Hx) as (_ & _ & _ & _ & _ & Hnew).
    exact Hnew.
Qed.

Lemma steps_keep_history timeline s s' : history timeline s -> rtc (session_step session_id P) s s' ->
  exists new, history (timeline ++ new) s'.
Proof.
  intros Hh Hr. revert timeline Hh. induction Hr as [s|s s1 s2 Hs _ IH]; intros timeline Hh.
  - exists []. by rewrite app_nil_r.
  - destruct (step_keeps_history _ _ _ Hh Hs) as [new Hh1]. destruct (IH _ Hh1) as [new' Hh2].
    exists (new ++ new')%list. by rewrite app_assoc.
Qed.

End Steps.

Lemma empty_history session_id P s : load_timeline s.2 session_id = Ok [] -> history session_id P (file_text s.1) [] s.
Proof. intros Hl. split; [done | done | by intros c Hc%elem_of_nil | done]. Qed.

(** A checkpoint is found by its id, whatever was recorded after it. *)
Lemma resolve_exact before cp later :
  (forall x, x ∈ before -> CheckpointRecord_checkpoint_id x <> CheckpointRecord_checkpoint_id cp) ->
  resolve_checkpoint_reference (before ++ cp :: later) (CheckpointRecord_checkpoint_id cp) = Ok (length before, cp).
Proof.
  intros Hfresh. unfold resolve_checkpoint_reference.
  assert (Hpos : position (fun entry => String.eqb (CheckpointRecord_checkpoint_id entry) (CheckpointRecord_checkpoint_id cp))
                   (before ++ cp :: later) = Some (length before)).
  { induction before as [|x before IH]; cbn [app position length]; [by rewrite String.eqb_refl|].
    destruct (String.eqb_spec (CheckpointRecord_checkpoint_id x) (CheckpointRecord_checkpoint_id cp)) as [He|];
      [by destruct (Hfresh x (list_elem_of_here _ _))|].
    rewrite IH; [done|]. intros y Hy. apply Hfresh. by right. }
  rewrite Hpos. cbn. by rewrite list_lookup_middle.
Qed.

(** [cp] is the checkpoint the step from [s] to [s'] recorded, under a new id. *)
Definition recorded_between (session_id : SessionId) (s s' : DiskState * LogWorld) (cp : CheckpointRecord) : Prop :=
  exists before, load_timeline s.2 session_id = Ok before /\ load_timeline s'.2 session_id = Ok (before ++ [cp])%list
    /\ forall x, x ∈ before -> CheckpointRecord_checkpoint_id x <> CheckpointRecord_checkpoint_id cp.

(** C9.  Restoring is time travel: in a session whose tools edit, write, patch and restore files of which no
    two name the same, restoring a checkpoint brings every one of these files back to what it held just
    before the step that recorded the checkpoint, whatever steps followed (a restore is such a
    step, so it can be undone), and leaves every other file as it is. *)
Theorem restore_is_time_travel session_id P s0 s1 s2 s3 s4 cp c mode rec :
  unaliased P -> load_timeline s0.2 session_id = Ok [] ->
  rtc (session_step session_id P) s0 s1 -> session_step session_id P s1 s2 -> recorded_between session_id s1 s2 cp ->
  rtc (session_step session_id P) s2 s3 ->
  in_session session_id c -> restores_code mode = true ->
  manager_restore_checkpoint c (CheckpointRecord_checkpoint_id cp) mode s3 = (Ok rec, s4) ->
  (forall p, p ∈ P -> file_text s4.1 p = file_text s1.1 p)
  /\ forall q, (forall p, p ∈ P -> disk_same p q = false) -> file_text s4.1 q = file_text s3.1 q.
Proof.
  intros Hu Hempty H01 H12 (before & Hb1 & Hb2 & Hfresh) H23 [Hc _] Hm Hr.
  pose proof (empty_history session_id P s0 Hempty) as Hh0.
  destruct (steps_keep_history _ _ _ Hu _ _ _ Hh0 H01) as [tl1 Hh1]. cbn [app] in Hh1.
  destruct (step_keeps_history _ _ _ Hu _ _ _ Hh1 H12) as [new Hh2].
  destruct (steps_keep_history _ _ _ Hu _ _ _ Hh2 H23) as [later Hh3].
  assert (tl1 = before) as -> by (pose proof (h_timeline _ _ _ _ _ Hh1); congruence).
  assert (before ++ new = before ++ [cp])%list as Hnew by (pose proof (h_timeline _ _ _ _ _ Hh2); congruence).
  apply app_inv_head in Hnew as ->. destruct s3 as [d3 w3], s4 as [d4 w4].
  destruct (restore_inv _ _ _ Hu _ _ _ _ _ _ _ _ _ Hh3 Hc Hm Hr) as (k & target & Hk & Hval & Hoth & _).
  rewrite <- app_assoc in Hk, Hval. cbn [app] in Hk, Hval. rewrite resolve_exact in Hk by done. injection Hk as <- <-.
  split; [|exact Hoth]. intros p Hp. cbn [fst]. rewrite (Hval p Hp), take_app_length.
  symmetry. by apply (h_disk _ _ _ _ _ Hh1).
Qed.

End Restore.

(** ** A concrete session, over the memory store *)

#[local] Existing Instance json_text.

#[export] Instance memory_log : LogHost := {|
  LogWorld := InMemorySessionStore * nat;
  lw_events := fun w => memory_events w.1;
  lw_append := fun e w => (Ok tt, (memory_append w.1 e, w.2));
  lw_new_id := fun w => (fmt_nat w.2, (w.1, S w.2));
  lw_unix_s := fun w => N.of_nat w.2;
  lw_unix_ms := fun w => (1000 * N.of_nat w.2)%N
|}.

Lemma appended_last (st : InMemorySessionStore) e :
  memory_append st e !! env_session_id e = Some (default [] (st !! env_session_id e) ++ [e])%list.
Proof. apply (lookup_insert_eq (M := gmap SessionId)). Qed.

#[export] Instance memory_log_laws : LogHostLaws.
Proof.
  split; [done|]. intros [st n] e events He _. revert He. unfold session_events, lw_events, lw_append.
  cbn [memory_log fst snd]. unfold memory_events. rewrite appended_last.
  destruct (st !! env_session_id e) as [l|]; cbn; by intros [= <-].
Qed.

Definition session_context (guard : option (option AgentId -> list PathBuf -> result unit ToolError)) : ToolExecutionContext :=
  mkToolExecutionContext ["/"; "work"] None None None [] [] [] [] None None true None None
    (Some "s") (Some "a") (Some "t") None None None None None None None
    (mkToolVisibilityContext None None None ∅) guard None None (Some 0%nat) None None.

Definition open_context : ToolExecutionContext := session_context None.

Definition Sess : Type := @DiskState dot_disk * @LogWorld json_text memory_log.
Definition start_session : Sess := (work_disk, (∅, 0%nat)).

Definition write_x (content : string) (s : Sess) : Sess :=
  (WriteTool_execute (J := json_text) (H := checkpointing_tools) None "call" content open_context s).2.
Definition patch_files_in (ops : list PatchOperation) (s : Sess) : Sess :=
  (execute_patch_operations (J := json_text) (H := checkpointing_tools) "patch_files" None "call" ops open_context s).2.
Definition restore_in (c : ToolExecutionContext) (id : string) (s : Sess) :=
  manager_restore_checkpoint (J := json_text) c id CheckpointRestoreMode_CodeOnly s.
Definition text_of (s : Sess) (p : PathBuf) : option string := file_text s.1 p.

Definition session_timeline (s : Sess) : list CheckpointRecord :=
  match load_timeline (J := json_text) s.2 "s" with Ok timeline => timeline | Err _ => [] end.

(** Three writes to a file, and the checkpoint of the second. *)
Definition after_one : Sess := write_x "one" start_session.
Definition after_two : Sess := write_x "two" after_one.
Definition after_three : Sess := write_x "three" after_two.
Definition second_checkpoint : option CheckpointRecord := session_timeline after_two !! 1%nat.

Lemma unaliased_x : unaliased [["/"; "work"; "x"]].
Proof. by intros p q ->%list_elem_of_singleton ->%list_elem_of_singleton. Qed.

Lemma write_x_step content s :
  match (WriteTool_execute (J := json_text) (H := checkpointing_tools) None "call" content open_context s).1 with
  | Ok _ => session_step "s" [["/"; "work"; "x"]] s (write_x content s)
  | Err _ => True
  end.
Proof.
  destruct (WriteTool_execute None "call" content open_context s) as [[res|e] s'] eqn:E; cbn [fst]; [|done].
  unfold write_x. rewrite E. eapply Step_Write; [|exact E|].
  - split; [done | by eexists].
  - intros input p [= <-] [= <-]. by left.
Qed.

Lemma restore_is_time_travel_witness :
  exists cp, second_checkpoint = Some cp
    /\ text_of (restore_in open_context (CheckpointRecord_checkpoint_id cp) after_three).2 ["/"; "work"; "x"] = Some "one".
Proof.
  destruct second_checkpoint as [cp|] eqn:Ecp; [|vm_compute in Ecp; discriminate]. exists cp. split; [done|].
  destruct (restore_in open_context (CheckpointRecord_checkpoint_id cp) after_three) as [r s4] eqn:Er.
  destruct r as [rec|e]; cycle 1.
  { exfalso. vm_compute in Ecp. injection Ecp as <-. apply (f_equal fst) in Er. vm_compute in Er. discriminate. }
  pose proof (write_x_step "one" start_session) as H1. pose proof (write_x_step "two" after_one) as H2.
  pose proof (write_x_step "three" after_two) as H3.
  destruct (restore_is_time_travel "s" [["/"; "work"; "x"]] start_session after_one after_two after_three s4 cp
              open_context CheckpointRestoreMode_CodeOnly rec) as [Hp _].
  - exact unaliased_x.
  - reflexivity.
  - apply rtc_once. exact H1.
  - exact H2.
  - exists (session_timeline after_one). split_and!; [reflexivity | |].
    + vm_compute in Ecp. injection Ecp as <-. reflexivity.
    + intros x Hx. apply list_elem_of_In in Hx. vm_compute in Hx. destruct Hx as [<-|[]].
      vm_compute in Ecp. injection Ecp as <-. discriminate.
  - apply rtc_once. exact H3.
  - split; [reflexivity | by eexists].
  - reflexivity.
  - exact Er.
  - exact (Hp ["/"; "work"; "x"] (list_elem_of_here _ _)).
Defined.

(** ** Where the history breaks *)

(** The desired content of a file is what the last earlier checkpoint left, even when the checkpoint
    that is restored found something else: an edit made outside of the tools between two
    checkpoints (by the user, or by [notebook_edit]) is lost, although the checkpoint has the text it found. *)
Theorem restore_forgets_outside_edits :
  let edited := (fun s : Sess => ((<[ ["/"; "work"; "x"] := "by hand" ]> (s.1 : gmap PathBuf string)) : @DiskState dot_disk, s.2))
                  after_one in
  let later := write_x "two" edited in
  match session_timeline later !! 1%nat with
  | Some cp =>
      map record_before (CheckpointRecord_changed_files cp) = [Some "by hand"]
      /\ text_of (restore_in open_context (CheckpointRecord_checkpoint_id cp) later).2 ["/"; "work"; "x"] = Some "one"
  | None => False
  end.
Proof. vm_compute. by split. Qed.

(** A timeline that spells the path of a file in two ways does not restore it: the spellings are
    restored one after another, and the one that was used second brings back what the first had left. *)
Theorem aliased_paths_restore_wrongly :
  let first := patch_files_in [replace_once "d/../x" "a" "1"] start_session in
  let second := patch_files_in [replace_once "x" "b" "2"] first in
  match session_timeline second with
  | [cp; _] =>
      text_of start_session ["/"; "work"; "x"] = Some "ab" /\ text_of second ["/"; "work"; "x"] = Some "12"
      /\ let '(r, restored) := restore_in open_context (CheckpointRecord_checkpoint_id cp) second in
         is_ok r = true /\ text_of restored ["/"; "work"; "x"] = Some "1b"
  | _ => False
  end.
Proof. vm_compute. by split_and!. Qed.

(** A restore that is refused on the way leaves the files it had written, and no checkpoint of
    them: here another agent holds the lease of the second file. *)
Definition leased_context : ToolExecutionContext :=
  session_context (Some (fun _ paths =>
    if existsb (fun p => bool_decide (p = ["/"; "work"; "y"])) paths then Err (ToolErr_InvalidState "leased") else Ok tt)).

Theorem refused_restore_leaves_files :
  let edited := patch_files_in [replace_once "x" "a" "1"; replace_once "y" "keep" "new"] start_session in
  match session_timeline edited with
  | [cp] =>
      let '(r, s) := restore_in leased_context (CheckpointRecord_checkpoint_id cp) edited in
      is_ok r = false /\ text_of s ["/"; "work"; "x"] = Some "ab" /\ text_of s ["/"; "work"; "y"] = Some "new"
      /\ length (session_timeline s) = 1%nat
  | _ => False
  end.
Proof. vm_compute. by split_and!. Qed.
