(* ===== verification/Crons.v ===== *)
(** * Schedules of automations

    Models [apps/code-agent/crates/backend/src/backend/cron_manager.rs] and
    [crates/tools/src/agentic/cron.rs].  A schedule is a cell shared by the calls of the tools and
    by a run loop, a task that sleeps until the schedule is due and creates a task record.  The
    handlers and the loops interleave: [act] is one segment of one of them, between two
    awaits or locks.  [CronProps] proves what the interleavings keep. *)

From Stdlib Require Import Ascii String.
From stdpp Require Import base list gmap sorting strings.
From Stdlib Require Import Lia.
From S2P Require Import Prelude Text BTree Message Events Errors WriteLease Tools SubagentPlan StoreSearch Checkpoints.

(** ** Requests *)

(* crates/tools/src/agentic/cron.rs, CronScheduleInput *)
Inductive CronScheduleInput :=
| OnceAfter (delay_seconds : N)
| EverySeconds (interval_seconds : N) (start_after_seconds : option N) (max_runs : option N).

(* crates/tools/src/agentic/cron.rs, CronCreateToolInput *)
Record CronCreateToolInput := mkCronCreateToolInput {
  cci_schedule : CronScheduleInput;
  cci_prompt : string;
  cci_role : option string;
  cci_steer : option string;
  cci_allowed_tools : list ToolName;
  cci_requested_write_set : list string;
  cci_timeout_seconds : option N;
  cci_summary : option string;
  cci_task_id_prefix : option string
}.

(* crates/tools/src/agentic/cron.rs, CronTaskTemplate *)
Record CronTaskTemplate := mkCronTaskTemplate {
  ctt_role : string;
  ctt_prompt : string;
  ctt_steer : option string;
  ctt_allowed_tools : list ToolName;
  ctt_requested_write_set : list string;
  ctt_timeout_seconds : option N;
  ctt_summary : string;
  ctt_task_id_prefix : option string
}.

(* crates/tools/src/agentic/cron.rs, CronCreateRequest *)
Record CronCreateRequest := mkCronCreateRequest {
  ccr_schedule : CronScheduleInput;
  ccr_task_template : CronTaskTemplate
}.

(* crates/tools/src/agentic/cron.rs, validate_cron_schedule *)
Definition validate_cron_schedule (schedule : CronScheduleInput) : result unit ToolError :=
  match schedule with
  | OnceAfter _ => Ok tt
  | EverySeconds interval_seconds _ max_runs =>
      if (interval_seconds =? 0)%N then
        Err (ToolErr_InvalidInput "cron_create recurring schedules require interval_seconds > 0")
      else if bool_decide (max_runs = Some 0%N) then
        Err (ToolErr_InvalidInput "cron_create recurring schedules require max_runs > 0 when provided")
      else Ok tt
  end.

(* crates/tools/src/agentic/task.rs, normalize_optional_non_empty *)
Definition normalize_optional_non_empty (value : option string) : option string :=
  value ← value; let value := trim value in if str_is_empty value then None else Some value.

(** [filter(|path| unique.insert(path.clone()))]: the first of equal strings is kept. *)
Fixpoint keep_first (seen : list string) (l : list string) : list string :=
  match l with
  | [] => []
  | x :: rest => if existsb (String.eqb x) seen then keep_first seen rest else x :: keep_first (x :: seen) rest
  end.

(* crates/tools/src/agentic/task.rs, normalize_paths *)
Definition normalize_paths (paths : list string) : list string :=
  keep_first [] (List.filter (fun path => negb (str_is_empty path)) (map trim paths)).

(* crates/tools/src/agentic/cron.rs, summarize_prompt *)
Definition summarize_prompt (prompt : string) : string :=
  let first_line := trim (default prompt (head (str_lines prompt))) in
  if (96 <? chars_count first_line)%nat then take_chars 93 first_line +:+ "..." else first_line.

Definition prefix_char (a : ascii) : bool :=
  let n := nat_of_ascii a in
  ((97 <=? n) && (n <=? 122) || (65 <=? n) && (n <=? 90) || (48 <=? n) && (n <=? 57) || (n =? 95) || (n =? 45))%nat.

(** Every character that is not allowed becomes one [_]; the bytes that continue one are dropped. *)
Fixpoint sanitize_chars (s : string) : string :=
  match s with
  | "" => ""
  | String a rest =>
      if prefix_char a then String a (sanitize_chars rest)
      else if char_start a then String "_" (sanitize_chars rest)
      else sanitize_chars rest
  end.

Fixpoint only_underscores (s : string) : bool :=
  match s with "" => true | String a rest => Ascii.eqb a "_" && only_underscores rest end.

Section Crons.
Context {J : SerdeJson} {H : LogHost}.

(* crates/tools/src/agentic/cron.rs, sanitize_task_id_prefix *)
Definition sanitize_task_id_prefix (prefix : string) (w : LogWorld) : string * LogWorld :=
  let sanitized := sanitize_chars prefix in
  if only_underscores sanitized then let '(id, w) := lw_new_id w in ("task_" +:+ id, w) else (sanitized, w).

(* crates/tools/src/agentic/cron.rs, normalize_cron_task_template *)
Definition normalize_cron_task_template (input : CronCreateToolInput) (w : LogWorld)
    : result CronTaskTemplate ToolError * LogWorld :=
  let prompt := trim (cci_prompt input) in
  if str_is_empty prompt then (Err (ToolErr_InvalidInput "cron_create requires a non-empty automation prompt"), w)
  else
    let '(task_id_prefix, w) :=
      match normalize_optional_non_empty (cci_task_id_prefix input) with
      | Some prefix => let '(prefix, w) := sanitize_task_id_prefix prefix w in (Some prefix, w)
      | None => (None, w)
      end in
    (Ok (mkCronTaskTemplate (default "general-purpose" (normalize_optional_non_empty (cci_role input))) prompt
           (normalize_optional_non_empty (cci_steer input)) (cci_allowed_tools input)
           (normalize_paths (cci_requested_write_set input)) (cci_timeout_seconds input)
           (default (summarize_prompt prompt) (normalize_optional_non_empty (cci_summary input))) task_id_prefix), w).

(* crates/tools/src/agentic/task.rs, SubagentParentContext::from *)
Definition SubagentParentContext_from (c : ToolExecutionContext) : SubagentParentContext :=
  mkSubagentParentContext (tc_session_id c) (tc_agent_session_id c) (tc_turn_id c) (tc_agent_id c)
    (tc_active_worktree_id c) (Some (context_worktree_root c)).

(** What [cron_create] hands to the manager. *)
(* crates/tools/src/agentic/cron.rs, CronCreateTool::execute@let input: CronCreateToolInput ~~ let summary = self *)
Definition cron_create_request (input : CronCreateToolInput) (w : LogWorld)
    : result CronCreateRequest ToolError * LogWorld :=
  match validate_cron_schedule (cci_schedule input) with
  | Err e => (Err e, w)
  | Ok _ =>
      let '(template, w) := normalize_cron_task_template input w in
      (template <-? template; Ok (mkCronCreateRequest (cci_schedule input) template), w)
  end.

(** ** Text of the answers *)

(* crates/tools/src/agentic/cron.rs, render_cron_schedule_record *)
Definition render_cron_schedule_record (schedule : CronScheduleRecord) : string :=
  match schedule with
  | CronSchedule_Once run_at_unix_s => "once at " +:+ fmt_N run_at_unix_s
  | CronSchedule_Recurring interval_seconds next_run_unix_s max_runs =>
      "every " +:+ fmt_N interval_seconds +:+ "s, next at " +:+ fmt_N next_run_unix_s
      +:+ match max_runs with Some max_runs => ", max " +:+ fmt_N max_runs +:+ " run(s)" | None => "" end
  end.

Notation cron_id_of := CronSummaryRecord_cron_id.
Notation status_of := CronSummaryRecord_status.
Notation schedule_of := CronSummaryRecord_schedule.

(* crates/tools/src/agentic/cron.rs, render_cron_summary_line *)
Definition render_cron_summary_line (summary : CronSummaryRecord) : string :=
  cron_id_of summary +:+ " " +:+ CronStatus_display (status_of summary) +:+ " · "
  +:+ render_cron_schedule_record (schedule_of summary) +:+ " · " +:+ CronSummaryRecord_prompt_summary summary.

(* crates/tools/src/agentic/cron.rs, render_cron_create_text *)
Definition render_cron_create_text (summary : CronSummaryRecord) : string :=
  str_join nl ["Created automation " +:+ cron_id_of summary; "role " +:+ CronSummaryRecord_role summary;
               "summary " +:+ CronSummaryRecord_prompt_summary summary;
               render_cron_schedule_record (schedule_of summary);
               "status " +:+ CronStatus_display (status_of summary)].

(* crates/tools/src/agentic/cron.rs, render_cron_list_text *)
Definition render_cron_list_text (crons : list CronSummaryRecord) : string :=
  str_join nl (("Listed " +:+ fmt_nat (length crons) +:+ " automation(s)") :: map render_cron_summary_line crons).

(* crates/tools/src/agentic/cron.rs, render_cron_delete_text *)
Definition render_cron_delete_text (summary : CronSummaryRecord) : string :=
  str_join nl ["Cancelled automation " +:+ cron_id_of summary; "status " +:+ CronStatus_display (status_of summary);
               render_cron_schedule_record (schedule_of summary);
               "summary " +:+ CronSummaryRecord_prompt_summary summary].

(** ** Schedules *)

(* crates/types/src/event.rs, CronStatus::is_terminal *)
Definition CronStatus_is_terminal (status : CronStatus) : bool :=
  match status with CronStatus_Scheduled => false | _ => true end.

(* apps/code-agent/crates/backend/src/backend/cron_manager.rs, schedule_record_from_input *)
Definition schedule_record_from_input (schedule : CronScheduleInput) (now_unix_s : N) : CronScheduleRecord :=
  match schedule with
  | OnceAfter delay_seconds => CronSchedule_Once (saturating_add now_unix_s delay_seconds)
  | EverySeconds interval_seconds start_after_seconds max_runs =>
      CronSchedule_Recurring interval_seconds
        (saturating_add now_unix_s (default interval_seconds start_after_seconds)) max_runs
  end.

(** When the schedule is due. *)
Definition due_at (schedule : CronScheduleRecord) : N :=
  match schedule with CronSchedule_Once at_ => at_ | CronSchedule_Recurring _ at_ _ => at_ end.

(* apps/code-agent/crates/backend/src/backend/cron_manager.rs, wait_seconds_until_next_run *)
Definition wait_seconds_until_next_run (now : N) (summary : CronSummaryRecord) : N :=
  saturating_sub (due_at (schedule_of summary)) now.

Definition u32_saturating_succ (n : N) : N := N.min u32_max (n + 1).

Definition with_status (status : CronStatus) (s : CronSummaryRecord) : CronSummaryRecord :=
  mkCronSummaryRecord (cron_id_of s) (CronSummaryRecord_session_id s) (CronSummaryRecord_agent_session_id s)
    (CronSummaryRecord_parent_agent_id s) (CronSummaryRecord_latest_task_id s) (CronSummaryRecord_role s)
    (CronSummaryRecord_prompt_summary s) status (schedule_of s) (CronSummaryRecord_created_at_unix_s s)
    (CronSummaryRecord_last_run_at_unix_s s) (CronSummaryRecord_run_count s).

(* apps/code-agent/crates/backend/src/backend/cron_manager.rs, update_summary_after_run *)
Definition update_summary_after_run (now : N) (task_id : TaskId) (s : CronSummaryRecord) : CronSummaryRecord :=
  let run_count := u32_saturating_succ (CronSummaryRecord_run_count s) in
  let '(status, schedule) :=
    match schedule_of s with
    | CronSchedule_Once run_at => (CronStatus_Completed, CronSchedule_Once run_at)
    | CronSchedule_Recurring interval_seconds next_run_unix_s max_runs =>
        if match max_runs with Some max_runs => (max_runs <=? run_count)%N | None => false end then
          (CronStatus_Completed, CronSchedule_Recurring interval_seconds next_run_unix_s max_runs)
        else (status_of s, CronSchedule_Recurring interval_seconds (saturating_add now interval_seconds) max_runs)
    end in
  mkCronSummaryRecord (cron_id_of s) (CronSummaryRecord_session_id s) (CronSummaryRecord_agent_session_id s)
    (CronSummaryRecord_parent_agent_id s) (Some task_id) (CronSummaryRecord_role s) (CronSummaryRecord_prompt_summary s)
    status schedule (CronSummaryRecord_created_at_unix_s s) (Some now) run_count.

(* apps/code-agent/crates/backend/src/backend/cron_manager.rs, task_from_template *)
Definition task_from_template (template : CronTaskTemplate) (run_index : N) (w : LogWorld) : AgentTaskSpec * LogWorld :=
  let '(task_id, w) :=
    match ctt_task_id_prefix template with
    | Some prefix => (prefix +:+ "_run_" +:+ fmt_N run_index, w)
    | None => let '(id, w) := lw_new_id w in ("task_" +:+ id, w)
    end in
  (mkAgentTaskSpec task_id (ctt_role template) (ctt_prompt template) TaskOrigin_AutomationBacked (ctt_steer template)
     (ctt_allowed_tools template) (ctt_requested_write_set template) [] (ctt_timeout_seconds template), w).

(* apps/code-agent/crates/backend/src/backend/cron_manager.rs, task_template_record_from_state *)
Definition task_template_record_from_state (parent : SubagentParentContext) (t : CronTaskTemplate)
    : CronTaskTemplateRecord :=
  mkCronTaskTemplateRecord (ctt_role t) (ctt_prompt t) (ctt_steer t) (ctt_allowed_tools t) (ctt_requested_write_set t)
    (ctt_timeout_seconds t) (ctt_summary t) (ctt_task_id_prefix t) (par_active_worktree_id parent)
    (par_worktree_root parent).

(* apps/code-agent/crates/backend/src/backend/cron_manager.rs, task_template_from_record *)
Definition task_template_from_record (r : CronTaskTemplateRecord) : CronTaskTemplate :=
  mkCronTaskTemplate (CronTaskTemplateRecord_role r) (CronTaskTemplateRecord_prompt r) (CronTaskTemplateRecord_steer r)
    (CronTaskTemplateRecord_allowed_tools r) (CronTaskTemplateRecord_requested_write_set r)
    (CronTaskTemplateRecord_timeout_seconds r) (CronTaskTemplateRecord_summary r)
    (CronTaskTemplateRecord_task_id_prefix r).

(* apps/code-agent/crates/backend/src/backend/cron_manager.rs, parent_from_cron_records *)
Definition parent_from_cron_records (s : CronSummaryRecord) (t : CronTaskTemplateRecord) : SubagentParentContext :=
  mkSubagentParentContext (Some (CronSummaryRecord_session_id s)) (Some (CronSummaryRecord_agent_session_id s)) None
    (CronSummaryRecord_parent_agent_id s) (CronTaskTemplateRecord_active_worktree_id t)
    (CronTaskTemplateRecord_worktree_root t).

(* apps/code-agent/crates/backend/src/backend/cron_manager.rs, cron_sort_key *)
Definition cron_sort_key (s : CronSummaryRecord) : N * N :=
  ((if CronStatus_is_terminal (status_of s) then 1 else 0)%N, due_at (schedule_of s)).

(* apps/code-agent/crates/backend/src/backend/cron_manager.rs, SessionCronManager::list_cron_summaries@crons.sort_by *)
Definition compare_cron (left right : CronSummaryRecord) : comparison :=
  then_with (then_with (N.compare (cron_sort_key left).1 (cron_sort_key right).1)
               (N.compare (cron_sort_key left).2 (cron_sort_key right).2))
    (then_with (N.compare (CronSummaryRecord_created_at_unix_s left) (CronSummaryRecord_created_at_unix_s right))
       (String.compare (cron_id_of left) (cron_id_of right))).

Definition cron_before (left right : CronSummaryRecord) : Prop := compare_cron left right <> Gt.
#[global] Instance cron_before_dec left right : Decision (cron_before left right).
Proof. unfold cron_before. apply _. Defined.

(** ** The state of the manager *)

(* apps/code-agent/crates/backend/src/backend/cron_manager.rs, SessionCron *)
Record SessionCron := mkSessionCron {
  sc_parent : SubagentParentContext;
  sc_summary : CronSummaryRecord;
  sc_task_template : CronTaskTemplate;
  sc_run_loop : option nat
}.

(** What a call of the tools asks for, and its answer. *)
Inductive CronRequest := Req_Create (request : CronCreateRequest) | Req_List | Req_Delete (cron_id : CronId).
Inductive CronAnswer := Ans_Summary (summary : CronSummaryRecord) | Ans_List (crons : list CronSummaryRecord).

(** Where a run loop is: before it looks its cron up, asleep, or in [fire_schedule] with the cell
    it found (before the call of the task manager, before the notification, before the update
    of the summary, before the update is stored). *)
Inductive LoopPoint :=
| L_Top
| L_Asleep (cell : nat) (until : N)
| L_Creating (cell : nat) (current : CronSummaryRecord) (task : AgentTaskSpec)
| L_Noting (cell : nat) (current : CronSummaryRecord) (outcome : result TaskId ToolError)
| L_Updating (cell : nat) (outcome : result TaskId ToolError)
| L_Persisting (cell : nat) (updated : CronSummaryRecord) (outcome : result TaskId ToolError).

Record RunLoop := mkRunLoop { rl_cron_id : CronId; rl_at : LoopPoint }.

(** Where a call is: before it looks whether the session is loaded, with the events it read,
    loaded, before the creation is stored, before it is installed, and so for a cancellation. *)
Inductive CallPoint :=
| K_Load (parent : SubagentParentContext) (request : CronRequest)
| K_Install (parent : SubagentParentContext) (request : CronRequest) (session_id : SessionId) (agent : AgentSessionId)
    (events : list SessionEventEnvelope)
| K_Ready (parent : SubagentParentContext) (request : CronRequest) (session_id : SessionId) (agent : AgentSessionId)
| K_StoreCreated (cron : SessionCron)
| K_Insert (cron : SessionCron)
| K_StoreCancelled (parent : SubagentParentContext) (summary : CronSummaryRecord)
| K_NoteCancelled (parent : SubagentParentContext) (summary : CronSummaryRecord)
| K_Done (answer : result CronAnswer ToolError).

(** The fields of the manager; the cells it shares, the run loops (and which were told to stop) and
    the calls under way; and, per cron, the number of tasks that were created for it, which no
    definition reads. *)
(* apps/code-agent/crates/backend/src/backend/cron_manager.rs, SessionCronManager *)
Record CronState := mkCronState {
  cs_cells : gmap nat SessionCron;
  cs_crons : btree (btree nat);
  cs_loaded : gset SessionId;
  cs_loops : gmap nat RunLoop;
  cs_aborted : gset nat;
  cs_calls : gmap nat CallPoint;
  cs_next : nat;
  cs_world : LogWorld;
  cs_created : gmap CronId nat
}.

Definition with_cell (r : nat) (c : SessionCron) (s : CronState) : CronState :=
  mkCronState (<[r := c]> (cs_cells s)) (cs_crons s) (cs_loaded s) (cs_loops s) (cs_aborted s) (cs_calls s) (cs_next s)
    (cs_world s) (cs_created s).
Definition with_crons (crons : btree (btree nat)) (s : CronState) : CronState :=
  mkCronState (cs_cells s) crons (cs_loaded s) (cs_loops s) (cs_aborted s) (cs_calls s) (cs_next s) (cs_world s)
    (cs_created s).
Definition with_loops (loops : gmap nat RunLoop) (s : CronState) : CronState :=
  mkCronState (cs_cells s) (cs_crons s) (cs_loaded s) loops (cs_aborted s) (cs_calls s) (cs_next s) (cs_world s)
    (cs_created s).
Definition with_call (k : nat) (p : CallPoint) (s : CronState) : CronState :=
  mkCronState (cs_cells s) (cs_crons s) (cs_loaded s) (cs_loops s) (cs_aborted s) (<[k := p]> (cs_calls s)) (cs_next s)
    (cs_world s) (cs_created s).
Definition with_world (w : LogWorld) (s : CronState) : CronState :=
  mkCronState (cs_cells s) (cs_crons s) (cs_loaded s) (cs_loops s) (cs_aborted s) (cs_calls s) (cs_next s) w
    (cs_created s).
Definition with_created (created : gmap CronId nat) (s : CronState) : CronState :=
  mkCronState (cs_cells s) (cs_crons s) (cs_loaded s) (cs_loops s) (cs_aborted s) (cs_calls s) (cs_next s)
    (cs_world s) created.
Definition with_loaded (session_id : SessionId) (s : CronState) : CronState :=
  mkCronState (cs_cells s) (cs_crons s) ({[session_id]} ∪ cs_loaded s) (cs_loops s) (cs_aborted s) (cs_calls s)
    (cs_next s) (cs_world s) (cs_created s).
Definition with_aborted (loops : list nat) (s : CronState) : CronState :=
  mkCronState (cs_cells s) (cs_crons s) (cs_loaded s) (cs_loops s) (list_to_set loops ∪ cs_aborted s) (cs_calls s)
    (cs_next s) (cs_world s) (cs_created s).
Definition fresh_name (s : CronState) : nat * CronState :=
  (cs_next s, mkCronState (cs_cells s) (cs_crons s) (cs_loaded s) (cs_loops s) (cs_aborted s) (cs_calls s)
                (S (cs_next s)) (cs_world s) (cs_created s)).

Definition with_summary (summary : CronSummaryRecord) (c : SessionCron) : SessionCron :=
  mkSessionCron (sc_parent c) summary (sc_task_template c) (sc_run_loop c).

(** ** Events *)

(* apps/code-agent/crates/backend/src/backend/cron_manager.rs, SessionCronManager::require_parent_session *)
Definition require_parent_session (parent : SubagentParentContext) : result (SessionId * AgentSessionId) ToolError :=
  session_id <-? ok_or (par_session_id parent) (ToolErr_InvalidState "cron tools require an attached runtime session");
  agent_session_id <-? ok_or (par_agent_session_id parent)
    (ToolErr_InvalidState "cron tools require an attached runtime agent session");
  Ok (session_id, agent_session_id).

Definition append_cron_event (session_id : SessionId) (agent_session_id : AgentSessionId)
    (parent : SubagentParentContext) (event : SessionEventKind) (w : LogWorld) : result unit ToolError * LogWorld :=
  let '(id, w) := lw_new_id w in
  let '(r, w) := lw_append (SessionEventEnvelope_new id (lw_unix_ms w) session_id agent_session_id (par_turn_id parent)
                              None event) w in
  (match r with Ok _ => Ok tt | Err e => Err (ToolErr_InvalidState (SessionStoreError_display e)) end, w).

(* apps/code-agent/crates/backend/src/backend/cron_manager.rs, SessionCronManager::append_cron_created *)
Definition append_cron_created (parent : SubagentParentContext) (s : CronSummaryRecord) (t : CronTaskTemplateRecord)
    : LogWorld -> result unit ToolError * LogWorld :=
  append_cron_event (CronSummaryRecord_session_id s) (CronSummaryRecord_agent_session_id s) parent (Ev_CronCreated s t).

(* apps/code-agent/crates/backend/src/backend/cron_manager.rs, SessionCronManager::append_cron_updated *)
Definition append_cron_updated (parent : SubagentParentContext) (s : CronSummaryRecord)
    : LogWorld -> result unit ToolError * LogWorld :=
  append_cron_event (CronSummaryRecord_session_id s) (CronSummaryRecord_agent_session_id s) parent (Ev_CronUpdated s).

(** The event stream to the front ends is not modelled. *)
(* apps/code-agent/crates/backend/src/backend/cron_manager.rs, SessionCronManager::append_notification *)
Definition append_notification (parent : SubagentParentContext) (message : string) (w : LogWorld)
    : result unit ToolError * LogWorld :=
  match require_parent_session parent with
  | Err e => (Err e, w)
  | Ok (session_id, agent_session_id) =>
      append_cron_event session_id agent_session_id parent (Ev_Notification "automation" message) w
  end.

(** ** Restoring a session from its log *)

(* apps/code-agent/crates/backend/src/backend/cron_manager.rs, SessionCronManager::restore_session@match envelope.event { *)
Definition restore_event (session_id : SessionId) (restored : btree (CronSummaryRecord * CronTaskTemplateRecord))
    (event : SessionEventEnvelope) : btree (CronSummaryRecord * CronTaskTemplateRecord) :=
  match env_event event with
  | Ev_CronCreated summary template =>
      if String.eqb (CronSummaryRecord_session_id summary) session_id then
        bt_insert (cron_id_of summary) (summary, template) restored
      else restored
  | Ev_CronUpdated summary =>
      if String.eqb (CronSummaryRecord_session_id summary) session_id then
        match bt_get (cron_id_of summary) restored with
        | Some (_, template) => bt_insert (cron_id_of summary) (summary, template) restored
        | None => restored
        end
      else restored
  | _ => restored
  end.

(* apps/code-agent/crates/backend/src/backend/cron_manager.rs, SessionCronManager::restore_session@let mut restored ~~ // Startup restore *)
Definition restored_crons (session_id : SessionId) (events : list SessionEventEnvelope)
    : btree (CronSummaryRecord * CronTaskTemplateRecord) := foldl (restore_event session_id) [] events.

(** A new run loop for a cell; one it had before is told to stop. *)
(* apps/code-agent/crates/backend/src/backend/cron_manager.rs, SessionCronManager::spawn_run_loop *)
Definition spawn_run_loop (r : nat) (s : CronState) : CronState :=
  match cs_cells s !! r with
  | None => s
  | Some c =>
      let '(l, s) := fresh_name s in
      let s := with_loops (<[l := mkRunLoop (cron_id_of (sc_summary c)) L_Top]> (cs_loops s)) s in
      let s := with_aborted (option_list (sc_run_loop c)) s in
      with_cell r (mkSessionCron (sc_parent c) (sc_summary c) (sc_task_template c) (Some l)) s
  end.

(** One cell per restored cron. *)
(* apps/code-agent/crates/backend/src/backend/cron_manager.rs, SessionCronManager::restore_session@let session_crons = restored ~~ let active_states *)
Fixpoint make_cells (restored : btree (CronSummaryRecord * CronTaskTemplateRecord)) (s : CronState)
    : btree nat * CronState :=
  match restored with
  | [] => ([], s)
  | (cron_id, (summary, template)) :: rest =>
      let '(r, s) := fresh_name s in
      let cell := mkSessionCron (parent_from_cron_records summary template) summary (task_template_from_record template) None in
      let s := with_created (<[cron_id := N.to_nat (CronSummaryRecord_run_count summary)]> (cs_created s)) (with_cell r cell s) in
      let '(cells, s) := make_cells rest s in
      ((cron_id, r) :: cells, s)
  end.

Definition cell_summary (s : CronState) (r : nat) : option CronSummaryRecord := sc_summary <$> cs_cells s !! r.
Definition cell_active (s : CronState) (r : nat) : bool :=
  match cell_summary s r with Some summary => negb (CronStatus_is_terminal (status_of summary)) | None => false end.

(** What [restore_session] does with the events it read: the entry of the session is
    replaced, and a loop is started for every cron that is active. *)
(* apps/code-agent/crates/backend/src/backend/cron_manager.rs, SessionCronManager::restore_session *)
Definition install_session (session_id : SessionId) (events : list SessionEventEnvelope) (s : CronState) : CronState :=
  let '(cells, s) := make_cells (restored_crons session_id events) s in
  let active := List.filter (cell_active s) cells.*2 in
  foldl (fun s r => spawn_run_loop r s) (with_crons (bt_insert session_id cells (cs_crons s)) s) active.

(** ** Run loops *)

(** The task manager: the id of the record it created. *)
Class TaskCreation := {
  create_task : SubagentParentContext -> AgentTaskSpec -> LogWorld -> result TaskId ToolError * LogWorld
}.
Context {T : TaskCreation}.

(* apps/code-agent/crates/backend/src/backend/cron_manager.rs, SessionCronManager::run_schedule@.find_map ~~ let current *)
Definition find_cron (s : CronState) (cron_id : CronId) : option nat :=
  find_map (fun e : string * btree nat => bt_get cron_id e.2) (cs_crons s).

(** Where the loop goes next, or that it ends. *)
Definition loop_to (l : nat) (p : LoopPoint) (s : CronState) : CronState :=
  match cs_loops s !! l with
  | Some loop => with_loops (<[l := mkRunLoop (rl_cron_id loop) p]> (cs_loops s)) s
  | None => s
  end.
Definition loop_ends (l : nat) (s : CronState) : CronState := with_loops (delete l (cs_loops s)) s.

(** [fire_schedule] up to the call of the task manager. *)
(* apps/code-agent/crates/backend/src/backend/cron_manager.rs, SessionCronManager::fire_schedule@let current = state.summary() ~~ .create_task *)
Definition start_firing (l r : nat) (s : CronState) : CronState :=
  match cs_cells s !! r with
  | None => s
  | Some c =>
      let current := sc_summary c in
      if CronStatus_is_terminal (status_of current) then loop_ends l s
      else
        let next_run_index := u32_saturating_succ (CronSummaryRecord_run_count current) in
        let '(task, w) := task_from_template (sc_task_template c) next_run_index (cs_world s) in
        loop_to l (L_Creating r current task) (with_world w s)
  end.

(* apps/code-agent/crates/backend/src/backend/cron_manager.rs, SessionCronManager::fire_schedule@let message = format! ~~ let updated_summary *)
Definition firing_message (current : CronSummaryRecord) (outcome : result TaskId ToolError) : string :=
  match outcome with
  | Ok task_id => "automation " +:+ cron_id_of current +:+ " queued task " +:+ task_id
  | Err error => "automation " +:+ cron_id_of current +:+ " failed: " +:+ ToolError_display error
  end.

(** One segment of a run loop; [None] when it cannot go on. *)
(* apps/code-agent/crates/backend/src/backend/cron_manager.rs, SessionCronManager::run_schedule *)
Definition loop_step (l : nat) (s : CronState) : option CronState :=
  loop ← cs_loops s !! l;
  match rl_at loop with
  | L_Top =>
      Some (match find_cron s (rl_cron_id loop) with
            | None => loop_ends l s
            | Some r =>
                match cell_summary s r with
                | None => loop_ends l s
                | Some current =>
                    if CronStatus_is_terminal (status_of current) then loop_ends l s
                    else
                      let now := lw_unix_s (cs_world s) in
                      let wait_seconds := wait_seconds_until_next_run now current in
                      if (0 <? wait_seconds)%N then loop_to l (L_Asleep r (saturating_add now wait_seconds)) s
                      else start_firing l r s
                end
            end)
  | L_Asleep r until => if (until <=? lw_unix_s (cs_world s))%N then Some (start_firing l r s) else None
  | L_Creating r current task =>
      c ← cs_cells s !! r;
      let '(outcome, w) := create_task (sc_parent c) task (cs_world s) in
      let s := with_world w s in
      Some (loop_to l (L_Noting r current outcome)
              (match outcome with
               | Ok _ => with_created (<[rl_cron_id loop := S (default 0%nat (cs_created s !! rl_cron_id loop))]> (cs_created s)) s
               | Err _ => s
               end))
  | L_Noting r current outcome =>
      c ← cs_cells s !! r;
      let '(_, w) := append_notification (sc_parent c) (firing_message current outcome) (cs_world s) in
      Some (loop_to l (L_Updating r outcome) (with_world w s))
  | L_Updating r outcome =>
      c ← cs_cells s !! r;
      let updated := match outcome with
                     | Ok task_id => update_summary_after_run (lw_unix_s (cs_world s)) task_id (sc_summary c)
                     | Err _ => with_status CronStatus_Failed (sc_summary c)
                     end in
      Some (loop_to l (L_Persisting r updated outcome) (with_cell r (with_summary updated c) s))
  | L_Persisting r updated outcome =>
      c ← cs_cells s !! r;
      let '(stored, w) := append_cron_updated (sc_parent c) updated (cs_world s) in
      let s := with_world w s in
      Some (match outcome, stored with
            | Err _, _ => loop_ends l s
            | Ok _, Ok _ => if CronStatus_is_terminal (status_of updated) then loop_ends l s else loop_to l L_Top s
            | Ok _, Err _ => loop_ends l (with_cell r (with_summary (with_status CronStatus_Failed (sc_summary c)) c) s)
            end)
  end.

(** ** Calls *)

(* apps/code-agent/crates/backend/src/backend/cron_manager.rs, SessionCronManager::list_cron_summaries *)
Definition list_cron_summaries (s : CronState) (session_id : SessionId) : list CronSummaryRecord :=
  merge_sort cron_before (omap (cell_summary s) (default [] (bt_get session_id (cs_crons s))).*2).

(* apps/code-agent/crates/backend/src/backend/cron_manager.rs, SessionCronManager::cron_state *)
Definition cron_state (s : CronState) (session_id : SessionId) (cron_id : CronId) : option nat :=
  session_crons ← bt_get session_id (cs_crons s); bt_get cron_id session_crons.

(* apps/code-agent/crates/backend/src/backend/cron_manager.rs, SessionCronManager::insert_cron *)
Definition insert_cron (r : nat) (c : SessionCron) (s : CronState) : CronState :=
  let session_id := CronSummaryRecord_session_id (sc_summary c) in
  let session_crons := default [] (bt_get session_id (cs_crons s)) in
  with_crons (bt_insert session_id (bt_insert (cron_id_of (sc_summary c)) r session_crons) (cs_crons s)) (with_cell r c s).

(** The record of a new schedule. *)
(* apps/code-agent/crates/backend/src/backend/cron_manager.rs, SessionCronManager::create_schedule@let created_at_unix_s ~~ self.append_cron_created *)
Definition new_cron (parent : SubagentParentContext) (request : CronCreateRequest) (session_id : SessionId)
    (agent_session_id : AgentSessionId) (w : LogWorld) : SessionCron * LogWorld :=
  let created_at_unix_s := lw_unix_s w in
  let '(id, w) := lw_new_id w in
  let template := ccr_task_template request in
  (mkSessionCron parent
     (mkCronSummaryRecord ("cron_" +:+ id) session_id agent_session_id (par_parent_agent_id parent) None
        (ctt_role template) (ctt_summary template) CronStatus_Scheduled
        (schedule_record_from_input (ccr_schedule request) created_at_unix_s) created_at_unix_s None 0) template None, w).

(* apps/code-agent/crates/backend/src/backend/cron_manager.rs, SessionCronManager::delete_schedule@let state = self ~~ self.append_cron_updated *)
Definition cancel_cron (k : nat) (parent : SubagentParentContext) (session_id : SessionId) (cron_id : CronId)
    (s : CronState) : CronState :=
  match (r ← cron_state s session_id cron_id; c ← cs_cells s !! r; Some (r, c)) with
  | None => with_call k (K_Done (Err (ToolErr_InvalidInput ("unknown automation " +:+ cron_id)))) s
  | Some (r, c) =>
      if CronStatus_is_terminal (status_of (sc_summary c)) then with_call k (K_Done (Ok (Ans_Summary (sc_summary c)))) s
      else
        let summary := with_status CronStatus_Cancelled (sc_summary c) in
        let cancelled := mkSessionCron (sc_parent c) summary (sc_task_template c) None in
        with_call k (K_StoreCancelled (sc_parent c) summary)
          (with_aborted (option_list (sc_run_loop c)) (with_cell r cancelled s))
  end.

(** The events of a session that is not loaded are read first. *)
(* apps/code-agent/crates/backend/src/backend/cron_manager.rs, SessionCronManager::ensure_session_loaded *)
Definition ensure_session_loaded (k : nat) (parent : SubagentParentContext) (request : CronRequest)
    (session_id : SessionId) (agent : AgentSessionId) (s : CronState) : CronState :=
  if bool_decide (session_id ∈ cs_loaded s) then with_call k (K_Ready parent request session_id agent) s
  else match session_events (cs_world s) session_id with
       | Err e => with_call k (K_Done (Err e)) s
       | Ok events => with_call k (K_Install parent request session_id agent events) s
       end.

(* apps/code-agent/crates/backend/src/backend/cron_manager.rs, SessionCronManager::list_schedules *)
Definition list_schedules (k : nat) (session_id : SessionId) (s : CronState) : CronState :=
  with_call k (K_Done (Ok (Ans_List (list_cron_summaries s session_id)))) s.

(** One segment of a call: [ensure_session_loaded], then the handler. *)
(* apps/code-agent/crates/backend/src/backend/cron_manager.rs, SessionCronManager::create_schedule *)
Definition call_step (k : nat) (s : CronState) : option CronState :=
  call ← cs_calls s !! k;
  match call with
  | K_Load parent request =>
      Some (match require_parent_session parent with
            | Err e => with_call k (K_Done (Err e)) s
            | Ok (session_id, agent) => ensure_session_loaded k parent request session_id agent s
            end)
  | K_Install parent request session_id agent events =>
      Some (with_call k (K_Ready parent request session_id agent)
              (with_loaded session_id (install_session session_id events s)))
  | K_Ready parent (Req_Create request) session_id agent =>
      let '(cron, w) := new_cron parent request session_id agent (cs_world s) in
      Some (with_call k (K_StoreCreated cron)
              (with_created (<[cron_id_of (sc_summary cron) := 0%nat]> (cs_created s)) (with_world w s)))
  | K_Ready parent Req_List session_id agent => Some (list_schedules k session_id s)
  | K_Ready parent (Req_Delete cron_id) session_id agent => Some (cancel_cron k parent session_id cron_id s)
  | K_StoreCreated cron =>
      let '(stored, w) := append_cron_created (sc_parent cron) (sc_summary cron)
                            (task_template_record_from_state (sc_parent cron) (sc_task_template cron)) (cs_world s) in
      Some (with_call k (match stored with Ok _ => K_Insert cron | Err e => K_Done (Err e) end) (with_world w s))
  | K_Insert cron =>
      let '(r, s) := fresh_name s in
      Some (with_call k (K_Done (Ok (Ans_Summary (sc_summary cron)))) (spawn_run_loop r (insert_cron r cron s)))
  | K_StoreCancelled parent summary =>
      let '(stored, w) := append_cron_updated parent summary (cs_world s) in
      Some (with_call k (match stored with Ok _ => K_NoteCancelled parent summary | Err e => K_Done (Err e) end)
              (with_world w s))
  | K_NoteCancelled parent summary =>
      let '(_, w) := append_notification parent ("automation " +:+ cron_id_of summary +:+ " cancelled") (cs_world s) in
      Some (with_call k (K_Done (Ok (Ans_Summary summary))) (with_world w s))
  | K_Done _ => None
  end.

(** ** The tools *)

(** The serialized records of the answers. *)
Class CronPayloads := {
  cron_json : CronSummaryRecord -> Value;
  cron_list_json : nat -> list CronSummaryRecord -> Value
}.
Context {P : CronPayloads}.

(* crates/tools/src/agentic/cron.rs, CRON_CREATE_TOOL_NAME *)
Definition CRON_CREATE_TOOL_NAME : string := "cron_create".
(* crates/tools/src/agentic/cron.rs, CRON_LIST_TOOL_NAME *)
Definition CRON_LIST_TOOL_NAME : string := "cron_list".
(* crates/tools/src/agentic/cron.rs, CRON_DELETE_TOOL_NAME *)
Definition CRON_DELETE_TOOL_NAME : string := "cron_delete".

(** What the tools make of the answers of the manager. *)
(* crates/tools/src/agentic/cron.rs, CronCreateTool::execute@Ok(ToolResult::text *)
Definition cron_create_result (call_id : ToolCallId) (summary : CronSummaryRecord) : ToolResult :=
  with_structured (ToolResult_text call_id call_id CRON_CREATE_TOOL_NAME (render_cron_create_text summary))
    (cron_json summary).
(* crates/tools/src/agentic/cron.rs, CronListTool::execute@Ok( *)
Definition cron_list_result (call_id : ToolCallId) (crons : list CronSummaryRecord) : ToolResult :=
  with_structured (ToolResult_text call_id call_id CRON_LIST_TOOL_NAME (render_cron_list_text crons))
    (cron_list_json (length crons) crons).
(* crates/tools/src/agentic/cron.rs, CronDeleteTool::execute@Ok(ToolResult::text *)
Definition cron_delete_result (call_id : ToolCallId) (summary : CronSummaryRecord) : ToolResult :=
  with_structured (ToolResult_text call_id call_id CRON_DELETE_TOOL_NAME (render_cron_delete_text summary))
    (cron_json summary).

(** ** Interleavings *)

(** A call begins, a call or a loop goes on, a loop that was told to stop is woken up or
    stops, and the rest of the world (the clock, other events) moves on. *)
Inductive CronAction :=
| Act_Begin (parent : SubagentParentContext) (request : CronRequest)
| Act_Call (k : nat)
| Act_Loop (l : nat)
| Act_Wake (l : nat)
| Act_Stop (l : nat)
| Act_World (w : LogWorld).

Definition act (a : CronAction) (s : CronState) : option CronState :=
  match a with
  | Act_Begin parent request => let '(k, s) := fresh_name s in Some (with_call k (K_Load parent request) s)
  | Act_Call k => call_step k s
  | Act_Loop l => loop_step l s
  | Act_Wake l =>
      loop ← cs_loops s !! l;
      match rl_at loop with
      | L_Asleep _ _ => if bool_decide (l ∈ cs_aborted s) then Some (loop_to l L_Top s) else None
      | _ => None
      end
  | Act_Stop l => if bool_decide (l ∈ cs_aborted s) then Some (loop_ends l s) else None
  | Act_World w => Some (with_world w s)
  end.

Fixpoint acts (l : list CronAction) (s : CronState) : option CronState :=
  match l with [] => Some s | a :: rest => s ← act a s; acts rest s end.

Definition no_crons (w : LogWorld) : CronState := mkCronState ∅ [] ∅ ∅ ∅ ∅ 0 w ∅.

(** The start of the program: every session of the store is restored before the tools are there. *)
(* apps/code-agent/crates/backend/src/backend/cron_manager.rs, SessionCronManager::restore_all_sessions *)
Fixpoint restore_all_sessions (sessions : list SessionId) (s : CronState) : result CronState ToolError :=
  match sessions with
  | [] => Ok s
  | session_id :: rest =>
      events <-? session_events (cs_world s) session_id;
      restore_all_sessions rest (with_loaded session_id (install_session session_id events s))
  end.

End Crons.
