(* ===== verification/CronProps.v ===== *)
(** * What the interleavings of schedules keep

    As long as no cron is restored twice, every cron has one cell and at most one run loop, and creates at most as many tasks as its schedule allows, however calls, loops and
    cancellations interleave.  The defects at the end are interleavings that go wrong. *)

From Stdlib Require Import Ascii String.
From stdpp Require Import base list gmap sorting strings relations.
From Stdlib Require Import Lia.
From S2P Require Import Prelude Text BTree Message Events Errors WriteLease Tools SubagentPlan StoreSearch SessionStores.
From S2P Require Import Checkpoints CheckpointProps Crons.

Notation cron_id_of := CronSummaryRecord_cron_id.
Notation status_of := CronSummaryRecord_status.
Notation schedule_of := CronSummaryRecord_schedule.
Notation run_count_of := CronSummaryRecord_run_count.
Notation cell_id c := (cron_id_of (sc_summary c)).

(** How many tasks a schedule may create. *)
Definition run_limit (schedule : CronScheduleRecord) : option N :=
  match schedule with CronSchedule_Once _ => Some 1%N | CronSchedule_Recurring _ _ max_runs => max_runs end.

(** A summary that agrees with [n] created tasks: a schedule that is still to run has room
    for a run, and neither the runs it counts nor the tasks exceed the limit. *)
Definition sound (u : CronSummaryRecord) (n : nat) : Prop :=
  forall m, run_limit (schedule_of u) = Some m ->
    (m <= u32_max)%N /\ (run_count_of u <= m)%N /\ (N.of_nat n <= m)%N
    /\ (status_of u = CronStatus_Scheduled -> (run_count_of u < m)%N).

(** What holds of the counts at each point of a run loop. *)
Definition point_ok (p : LoopPoint) (u : CronSummaryRecord) (n : nat) : Prop :=
  forall m, run_limit (schedule_of u) = Some m ->
    match p with
    | L_Creating _ _ _ => (N.of_nat n <= run_count_of u < m)%N
    | L_Noting _ _ (Ok _) | L_Updating _ (Ok _) => (N.of_nat n <= run_count_of u + 1 <= m)%N
    | _ => (N.of_nat n <= run_count_of u)%N
    end.

Definition point_cell (p : LoopPoint) : option nat :=
  match p with
  | L_Top => None
  | L_Asleep r _ | L_Creating r _ _ | L_Noting r _ _ | L_Updating r _ | L_Persisting r _ _ => Some r
  end.

(** A request the tool has validated; its numbers have the width of their types. *)
Definition valid_request (q : CronRequest) : Prop :=
  match q with
  | Req_Create q =>
      validate_cron_schedule (ccr_schedule q) = Ok tt
      /\ match ccr_schedule q with EverySeconds _ _ (Some m) => (m <= u32_max)%N | _ => True end
  | _ => True
  end.

Lemma bt_insert_elem {V} k (v : V) m k' v' : (k', v') ∈ bt_insert k v m -> (k' = k /\ v' = v) \/ (k', v') ∈ m.
Proof.
  unfold bt_insert. destruct (bt_get k m).
  - induction m as [|[x w] m IH]; cbn [bt_replace]; [tauto|]. destruct (String.eqb_spec k x) as [->|].
    + intros [[= -> ->]|Hin]%elem_of_cons; [by left | right; by right].
    + intros [[= -> ->]|Hin]%elem_of_cons; [right; by left|]. destruct (IH Hin); [by left | right; by right].
  - rewrite bt_add_perm. intros [[= -> ->]|Hin]%elem_of_cons; [by left | by right].
Qed.

Section Invariant.
Context {J : SerdeJson} {H : LogHost} {T : TaskCreation}.

(** The cron a call is about to add. *)
Definition pending (p : CallPoint) : option SessionCron :=
  match p with K_StoreCreated c | K_Insert c => Some c | _ => None end.

Record cron_inv (s : CronState) : Prop := {
  ci_cell_name : forall r c, cs_cells s !! r = Some c -> (r < cs_next s)%nat;
  ci_loop_name : forall l p, cs_loops s !! l = Some p -> (l < cs_next s)%nat;
  ci_one_cell : forall r1 r2 c1 c2, cs_cells s !! r1 = Some c1 -> cs_cells s !! r2 = Some c2 ->
    cell_id c1 = cell_id c2 -> r1 = r2;
  ci_one_loop : forall l1 l2 p1 p2, cs_loops s !! l1 = Some p1 -> cs_loops s !! l2 = Some p2 ->
    rl_cron_id p1 = rl_cron_id p2 -> l1 = l2;
  ci_cell : forall r c, cs_cells s !! r = Some c ->
    exists n, cs_created s !! cell_id c = Some n /\ sound (sc_summary c) n;
  ci_loop : forall l p, cs_loops s !! l = Some p -> exists r c n,
    cs_cells s !! r = Some c /\ cell_id c = rl_cron_id p /\ cs_created s !! rl_cron_id p = Some n
    /\ (point_cell (rl_at p) = None \/ point_cell (rl_at p) = Some r) /\ point_ok (rl_at p) (sc_summary c) n;
  ci_crons : forall session_id m cron_id r, (session_id, m) ∈ cs_crons s -> bt_get cron_id m = Some r ->
    exists c, cs_cells s !! r = Some c /\ cell_id c = cron_id;
  ci_call : forall k p, cs_calls s !! k = Some p ->
    match p with K_Load _ q | K_Install _ q _ _ _ | K_Ready _ q _ _ => valid_request q | _ => True end;
  ci_pending : forall k p c, cs_calls s !! k = Some p -> pending p = Some c ->
    cs_created s !! cell_id c = Some 0%nat /\ sound (sc_summary c) 0
    /\ forall r c', cs_cells s !! r = Some c' -> cell_id c' <> cell_id c;
  ci_one_pending : forall k1 k2 p1 p2 c1 c2, cs_calls s !! k1 = Some p1 -> cs_calls s !! k2 = Some p2 ->
    pending p1 = Some c1 -> pending p2 = Some c2 -> cell_id c1 = cell_id c2 -> k1 = k2
}.

(** ** What the parts of a step keep *)

Lemma inv_world w s : cron_inv s -> cron_inv (with_world w s).
Proof. by intros []. Qed.

Lemma inv_aborted ls s : cron_inv s -> cron_inv (with_aborted ls s).
Proof. by intros []. Qed.

Lemma inv_loop_ends l s : cron_inv s -> cron_inv (loop_ends l s).
Proof.
  intros []. split; cbn; try done.
  - intros l' p [_ Hl]%lookup_delete_Some. eauto.
  - intros l1 l2 p1 p2 [_ H1]%lookup_delete_Some [_ H2]%lookup_delete_Some. eauto.
  - intros l' p [_ Hl]%lookup_delete_Some. eauto.
Qed.

(** A call that goes on without a cron to add. *)
Lemma inv_call k p s : cron_inv s -> pending p = None ->
  match p with K_Load _ q | K_Install _ q _ _ _ | K_Ready _ q _ _ => valid_request q | _ => True end ->
  cron_inv (with_call k p s).
Proof.
  intros [] Hp Hok. split; cbn; try done.
  - intros k' p' [[<- <-]|[_ Hk]]%lookup_insert_Some; [done | exact (ci_call0 _ _ Hk)].
  - intros k' p' c [[<- <-]|[_ Hk]]%lookup_insert_Some; [congruence | eauto].
  - intros k1 k2 p1 p2 c1 c2 [[<- <-]|[_ H1]]%lookup_insert_Some [[<- <-]|[_ H2]]%lookup_insert_Some; [congruence..|eauto].
Qed.

(** A pending creation that goes on. *)
Lemma inv_call_pending k p p' c s : cron_inv s -> cs_calls s !! k = Some p -> pending p = Some c -> pending p' = Some c ->
  cron_inv (with_call k p' s).
Proof.
  intros [] Hk Hp Hp'. split; cbn; try done.
  - intros k' q [[<- <-]|[_ Hq]]%lookup_insert_Some; [by destruct p' | exact (ci_call0 _ _ Hq)].
  - intros k' q c' [[<- <-]|[_ Hq]]%lookup_insert_Some Hc; [|eauto]. rewrite Hp' in Hc. injection Hc as <-. eauto.
  - intros k1 k2 p1 p2 c1 c2 [[<- <-]|[Hn1 H1]]%lookup_insert_Some [[<- <-]|[Hn2 H2]]%lookup_insert_Some Hc1 Hc2 He;
      [done | | | eauto].
    + rewrite Hp' in Hc1. injection Hc1 as <-. by eapply (ci_one_pending0 k k2).
    + rewrite Hp' in Hc2. injection Hc2 as <-. by eapply (ci_one_pending0 k1 k).
Qed.

(** A loop that goes on without changing the counts. *)
Lemma inv_loop_to l lp p r c n s : cron_inv s -> cs_loops s !! l = Some lp -> cs_cells s !! r = Some c ->
  cell_id c = rl_cron_id lp -> cs_created s !! rl_cron_id lp = Some n ->
  (point_cell p = None \/ point_cell p = Some r) -> point_ok p (sc_summary c) n -> cron_inv (loop_to l p s).
Proof.
  intros Hinv Hl Hr Hid Hn Hcell Hok. unfold loop_to. rewrite Hl. destruct Hinv. split; cbn; try done.
  - intros l' q [[<- <-]|[_ Hq]]%lookup_insert_Some; eauto.
  - intros l1 l2 p1 p2 [[<- <-]|[Hn1 H1]]%lookup_insert_Some [[<- <-]|[Hn2 H2]]%lookup_insert_Some; cbn; eauto.
  - intros l' q [[<- <-]|[_ Hq]]%lookup_insert_Some; [|eauto]. cbn. by exists r, c, n.
Qed.

(** A new status that is terminal. *)
Lemma inv_terminal r c status loop s : cron_inv s -> cs_cells s !! r = Some c -> status <> CronStatus_Scheduled ->
  cron_inv (with_cell r (mkSessionCron (sc_parent c) (with_status status (sc_summary c)) (sc_task_template c) loop) s).
Proof.
  intros Hinv Hr Hst. destruct Hinv. split; cbn; try done.
  - intros r' c' [[<- <-]|[_ Hc]]%lookup_insert_Some; eauto.
  - intros r1 r2 c1 c2 [[<- <-]|[Hn1 H1]]%lookup_insert_Some [[<- <-]|[Hn2 H2]]%lookup_insert_Some; cbn; eauto.
  - intros r' c' [[<- <-]|[_ Hc]]%lookup_insert_Some; [|eauto]. destruct (ci_cell0 r c Hr) as (n & Hn & Hs).
    exists n. split; [done|]. intros m Hm. destruct (Hs m Hm) as (? & ? & ? & _). by split_and!.
  - intros l p Hl. destruct (ci_loop0 l p Hl) as (r' & c' & n & Hr' & Hid & Hn & Hcell & Hok).
    destruct (decide (r' = r)) as [->|Hne].
    + rewrite Hr in Hr'. injection Hr' as <-. eexists r, _, n. by rewrite lookup_insert_eq.
    + exists r', c', n. by rewrite lookup_insert_ne.
  - intros session_id m cron_id r' Hm Hg. destruct (ci_crons0 _ _ _ _ Hm Hg) as (c' & Hc' & Hid).
    destruct (decide (r' = r)) as [->|Hne].
    + rewrite Hr in Hc'. injection Hc' as <-. rewrite lookup_insert_eq. by eexists.
    + rewrite lookup_insert_ne by done. by exists c'.
  - intros k p c' Hk Hp. destruct (ci_pending0 _ _ _ Hk Hp) as (Hc0 & Hs & Hno). split_and!; [done..|].
    intros r' c'' [[<- <-]|[_ Hc]]%lookup_insert_Some; cbn; eauto.
Qed.

(** A run of the loop is counted in the summary. *)
Lemma inv_counted l lp p r c u n s : cron_inv s -> cs_loops s !! l = Some lp -> cs_cells s !! r = Some c ->
  cell_id c = rl_cron_id lp -> cs_created s !! rl_cron_id lp = Some n -> cron_id_of u = cell_id c ->
  point_cell p = Some r -> point_ok p u n -> sound u n ->
  cron_inv (loop_to l p (with_cell r (with_summary u c) s)).
Proof.
  intros Hinv Hl Hr Hid Hn Hu Hcell Hok Hs. unfold loop_to. cbn [with_cell cs_loops]. rewrite Hl.
  destruct Hinv. split; cbn; try done.
  - intros r' c' [[<- <-]|[_ Hc]]%lookup_insert_Some; eauto.
  - intros l' q [[<- <-]|[_ Hq]]%lookup_insert_Some; eauto.
  - intros r1 r2 c1 c2 [[<- <-]|[Hn1 H1]]%lookup_insert_Some [[<- <-]|[Hn2 H2]]%lookup_insert_Some; cbn; rewrite ?Hu; eauto.
  - intros l1 l2 p1 p2 [[<- <-]|[Hn1 H1]]%lookup_insert_Some [[<- <-]|[Hn2 H2]]%lookup_insert_Some; cbn; eauto.
  - intros r' c' [[<- <-]|[_ Hc]]%lookup_insert_Some; [|eauto]. cbn. exists n. by rewrite Hu, Hid.
  - intros l' q [[<- <-]|[Hne Hq]]%lookup_insert_Some; cbn.
    { eexists r, _, n. rewrite lookup_insert_eq. split_and!; [done | cbn; congruence | done | by right | done]. }
    destruct (ci_loop0 l' q Hq) as (r' & c' & n' & Hr' & Hid' & Hn' & Hcell' & Hok').
    destruct (decide (r' = r)) as [->|Hner].
    + rewrite Hr in Hr'. injection Hr' as <-. destruct Hne. eapply (ci_one_loop0 l l'); [done..|congruence].
    + exists r', c', n'. by rewrite lookup_insert_ne.
  - intros session_id m cron_id r' Hm Hg. destruct (ci_crons0 _ _ _ _ Hm Hg) as (c' & Hc' & Hid').
    destruct (decide (r' = r)) as [->|Hne].
    + rewrite Hr in Hc'. injection Hc' as <-. rewrite lookup_insert_eq. eexists. split; [done|]. cbn. congruence.
    + rewrite lookup_insert_ne by done. by exists c'.
  - intros k q c' Hk Hp. destruct (ci_pending0 _ _ _ Hk Hp) as (Hc0 & Hs0 & Hno). split_and!; [done..|].
    intros r' c'' [[<- <-]|[_ Hc]]%lookup_insert_Some; cbn; rewrite ?Hu; eauto.
Qed.

(** A task was created. *)
Lemma inv_created l lp p r c n s : cron_inv s -> cs_loops s !! l = Some lp -> cs_cells s !! r = Some c ->
  cell_id c = rl_cron_id lp -> cs_created s !! rl_cron_id lp = Some n ->
  point_cell p = Some r -> point_ok p (sc_summary c) (S n) -> sound (sc_summary c) (S n) ->
  cron_inv (loop_to l p (with_created (<[rl_cron_id lp := S n]> (cs_created s)) s)).
Proof.
  intros Hinv Hl Hr Hid Hn Hcell Hok Hs. unfold loop_to. cbn [with_created cs_loops]. rewrite Hl.
  destruct Hinv. split; cbn; try done.
  - intros l' q [[<- <-]|[_ Hq]]%lookup_insert_Some; eauto.
  - intros l1 l2 p1 p2 [[<- <-]|[Hn1 H1]]%lookup_insert_Some [[<- <-]|[Hn2 H2]]%lookup_insert_Some; cbn; eauto.
  - intros r' c' Hc. destruct (decide (r' = r)) as [->|Hne].
    + rewrite Hr in Hc. injection Hc as <-. exists (S n). by rewrite Hid, lookup_insert_eq.
    + rewrite lookup_insert_ne; [eauto|]. intros He. apply Hne. eapply ci_one_cell0; [done..|congruence].
  - intros l' q [[<- <-]|[Hne Hq]]%lookup_insert_Some; cbn.
    { exists r, c, (S n). rewrite lookup_insert_eq. by split_and!; [..|right|]. }
    destruct (ci_loop0 l' q Hq) as (r' & c' & n' & Hr' & Hid' & Hn' & Hcell' & Hok').
    exists r', c', n'. rewrite lookup_insert_ne; [done|]. intros He. apply Hne. by eapply ci_one_loop0.
  - intros k q c' Hk Hp. destruct (ci_pending0 _ _ _ Hk Hp) as (Hc0 & Hs0 & Hno). split_and!; [|done..].
    rewrite lookup_insert_ne; [done|]. intros He. apply (Hno r c Hr). congruence.
Qed.

(** A cron of its own id becomes pending. *)
Lemma inv_new k c s : cron_inv s -> cs_created s !! cell_id c = None -> sound (sc_summary c) 0 ->
  cron_inv (with_call k (K_StoreCreated c) (with_created (<[cell_id c := 0%nat]> (cs_created s)) s)).
Proof.
  intros Hinv Hfresh Hs. destruct Hinv.
  assert (Hne : forall r c', cs_cells s !! r = Some c' -> cell_id c' <> cell_id c).
  { intros r c' Hc' He. destruct (ci_cell0 _ _ Hc') as (n & Hn & _). congruence. }
  split; cbn; try done.
  - intros r c' Hc'. destruct (ci_cell0 _ _ Hc') as (n & Hn & Hs'). exists n. split; [|done].
    rewrite lookup_insert_ne; [done|]. intros He. by destruct (Hne _ _ Hc').
  - intros l p Hl. destruct (ci_loop0 _ _ Hl) as (r & c' & n & Hr & Hid & Hn & Hrest). exists r, c', n.
    rewrite lookup_insert_ne; [done|]. intros He. destruct (Hne _ _ Hr). congruence.
  - intros k' p [[<- <-]|[_ Hk]]%lookup_insert_Some; [done | exact (ci_call0 _ _ Hk)].
  - intros k' p c' [[<- <-]|[_ Hk]]%lookup_insert_Some Hp.
    + injection Hp as <-. by rewrite lookup_insert_eq.
    + destruct (ci_pending0 _ _ _ Hk Hp) as (Hc0 & Hs0 & Hno). split_and!; [|done..].
      rewrite lookup_insert_ne; [done | congruence].
  - intros k1 k2 p1 p2 c1 c2 [[<- <-]|[_ H1]]%lookup_insert_Some [[<- <-]|[_ H2]]%lookup_insert_Some Hp1 Hp2 He;
      [done | | | eauto].
    + injection Hp1 as <-. destruct (ci_pending0 _ _ _ H2 Hp2) as (Hc0 & _ & _). congruence.
    + injection Hp2 as <-. destruct (ci_pending0 _ _ _ H1 Hp1) as (Hc0 & _ & _). congruence.
Qed.

(** A pending cron gets its cell and its run loop. *)
Lemma inv_insert k c answer s : cron_inv s -> cs_calls s !! k = Some (K_Insert c) ->
  cron_inv (with_call k (K_Done answer) (spawn_run_loop (cs_next s) (insert_cron (cs_next s) c (fresh_name s).2))).
Proof.
  intros Hinv Hk. unfold spawn_run_loop. cbn [insert_cron with_crons with_cell fresh_name snd cs_cells].
  rewrite lookup_insert_eq. destruct Hinv. destruct (ci_pending0 k _ c Hk eq_refl) as (Hc0 & Hs & Hno).
  set (new := mkSessionCron _ _ _ _).
  assert (Hcells : forall r c', <[cs_next s := new]> (<[cs_next s := c]> (cs_cells s)) !! r = Some c' ->
            (r = cs_next s /\ c' = new) \/ cs_cells s !! r = Some c').
  { intros r c' Hc'. rewrite insert_insert_eq in Hc'.
    apply lookup_insert_Some in Hc' as [[<- <-]|[_ Hc']]; auto. }
  assert (Hold : forall r c', cs_cells s !! r = Some c' ->
            <[cs_next s := new]> (<[cs_next s := c]> (cs_cells s)) !! r = Some c').
  { intros r c' Hc'. pose proof (ci_cell_name0 _ _ Hc'). rewrite !lookup_insert_ne by lia. done. }
  assert (Hnewid : cell_id new = cell_id c) by done.
  split; cbn.
  - intros r c' [[-> ->]|Hc']%Hcells; [lia|]. pose proof (ci_cell_name0 _ _ Hc'). lia.
  - intros l p [[<- <-]|[_ Hl]]%lookup_insert_Some; [lia|]. pose proof (ci_loop_name0 _ _ Hl). lia.
  - intros r1 r2 c1 c2 [[-> ->]|H1]%Hcells [[-> ->]|H2]%Hcells He; [done | | | eauto].
    + by destruct (Hno _ _ H2).
    + by destruct (Hno _ _ H1).
  - intros l1 l2 p1 p2 [[<- <-]|[_ H1]]%lookup_insert_Some [[<- <-]|[_ H2]]%lookup_insert_Some He; cbn in He; [done | | | eauto].
    + destruct (ci_loop0 _ _ H2) as (r & c' & n & Hr & Hid & _). destruct (Hno _ _ Hr). congruence.
    + destruct (ci_loop0 _ _ H1) as (r & c' & n & Hr & Hid & _). destruct (Hno _ _ Hr). congruence.
  - intros r c' [[-> ->]|Hc']%Hcells; [by exists 0%nat | eauto].
  - intros l p [[<- <-]|[_ Hl]]%lookup_insert_Some.
    + cbn. exists (cs_next s), new, 0%nat. rewrite lookup_insert_eq. split_and!; [done..| by left |].
      intros m Hm. cbn. lia.
    + destruct (ci_loop0 _ _ Hl) as (r & c' & n & Hr & Hrest). exists r, c', n. split; [by apply Hold | done].
  - intros session_id m cron_id r [[-> ->]|Hm]%bt_insert_elem Hg.
    + rewrite bt_get_insert in Hg. destruct (String.eqb_spec cron_id (cell_id c)) as [->|Hne].
      * injection Hg as <-. exists new. by rewrite lookup_insert_eq.
      * destruct (bt_get _ (cs_crons s)) as [m|] eqn:Em; [|done]. cbn in Hg.
        destruct (ci_crons0 _ _ _ _ (bt_get_In _ _ _ Em) Hg) as (c' & Hc' & Hid). exists c'. split; [by apply Hold | done].
    + destruct (ci_crons0 _ _ _ _ Hm Hg) as (c' & Hc' & Hid). exists c'. split; [by apply Hold | done].
  - intros k' p [[<- <-]|[_ Hk']]%lookup_insert_Some; [done | exact (ci_call0 _ _ Hk')].
  - intros k' p c' [[<- <-]|[Hne Hk']]%lookup_insert_Some Hp; [done|].
    destruct (ci_pending0 _ _ _ Hk' Hp) as (Hc0' & Hs' & Hno'). split_and!; [done..|].
    intros r c'' [[-> ->]|Hc'']%Hcells; [|eauto]. rewrite Hnewid. intros He. apply Hne.
    by apply (ci_one_pending0 k k' _ _ c c' Hk Hk' eq_refl Hp).
  - intros k1 k2 p1 p2 c1 c2 [[<- <-]|[_ H1]]%lookup_insert_Some [[<- <-]|[_ H2]]%lookup_insert_Some Hp1 Hp2; [done..|eauto].
Qed.

(** ** Loading a session *)

(** A summary that agrees with the runs it counts itself. *)
Definition logged_sound (u : CronSummaryRecord) : Prop := sound u (N.to_nat (run_count_of u)).

Lemma restored_keys session_id events :
  bt_ok (restored_crons session_id events)
  /\ forall cron_id u t, (cron_id, (u, t)) ∈ restored_crons session_id events -> cron_id_of u = cron_id.
Proof.
  unfold restored_crons.
  apply (foldl_inv (fun _ restored => bt_ok restored
    /\ forall cron_id u t, (cron_id, (u, t)) ∈ restored -> cron_id_of u = cron_id)).
  - split; [constructor | by intros cron_id u t Hin%elem_of_nil].
  - intros done_ event rest restored _ [Hok Hkeys]. unfold restore_event.
    assert (Hins : forall u t, bt_ok (bt_insert (cron_id_of u) (u, t) restored)
      /\ forall cron_id u' t', (cron_id, (u', t')) ∈ bt_insert (cron_id_of u) (u, t) restored -> cron_id_of u' = cron_id).
    { intros u t. split; [by apply bt_ok_insert|]. intros cron_id u' t' [[-> [= -> ->]]|Hin]%bt_insert_elem; [done | eauto]. }
    destruct (env_event event); try done; case_match; try done. case_match; [|done]. by case_match.
Qed.

(** What holds of the cells made for a list of restored crons. *)
Record cells_made (s s' : CronState) (restored : btree (CronSummaryRecord * CronTaskTemplateRecord)) (cells : btree nat)
    : Prop := {
  cm_inv : cron_inv s';
  cm_same : cs_calls s' = cs_calls s /\ cs_loops s' = cs_loops s /\ cs_crons s' = cs_crons s
    /\ cs_world s' = cs_world s /\ cs_loaded s' = cs_loaded s;
  cm_kept : forall r c, cs_cells s !! r = Some c -> cs_cells s' !! r = Some c;
  cm_cells : forall cron_id r, (cron_id, r) ∈ cells -> (cs_next s <= r)%nat /\ cron_id ∈ restored.*1
    /\ exists c n, cs_cells s' !! r = Some c /\ cell_id c = cron_id /\ cs_created s' !! cron_id = Some n
         /\ (N.of_nat n <= run_count_of (sc_summary c))%N;
  cm_nodup : NoDup cells.*2;
  cm_created : forall cron_id, cron_id ∉ restored.*1 -> cs_created s' !! cron_id = cs_created s !! cron_id
}.

Lemma make_cells_inv restored s cells s' : make_cells restored s = (cells, s') -> cron_inv s ->
  NoDup restored.*1 ->
  (forall cron_id u t, (cron_id, (u, t)) ∈ restored ->
     cron_id_of u = cron_id /\ logged_sound u /\ cs_created s !! cron_id = None) ->
  cells_made s s' restored cells.
Proof.
  revert s cells. induction restored as [|[cron_id [u t]] rest IH]; intros s cells; cbn [make_cells].
  { intros [= <- <-] Hinv _ _. split; try done; [by intros cron_id r Hr%elem_of_nil | constructor]. }
  cbn [fresh_name]. set (cell := mkSessionCron _ _ _ _). set (s1 := with_created _ _).
  destruct (make_cells rest s1) as [made s2] eqn:Em. intros [= <- <-] Hinv [Hnin Hnd]%NoDup_cons Hres.
  destruct (Hres cron_id u t (list_elem_of_here _ _)) as (Hid & Hs & Hfresh).
  assert (Hne : forall r c, cs_cells s !! r = Some c -> cell_id c <> cron_id).
  { intros r c Hr He. destruct (ci_cell s Hinv r c Hr) as (n & Hn & _). congruence. }
  assert (H1 : cron_inv s1).
  { destruct Hinv. split; cbn [s1 with_created with_cell cs_cells cs_loops cs_crons cs_calls cs_created cs_next].
    - intros r c [[<- <-]|[_ Hr]]%lookup_insert_Some; [lia|]. pose proof (ci_cell_name0 r c Hr). lia.
    - intros l p Hl. pose proof (ci_loop_name0 l p Hl). lia.
    - intros r1 r2 c1 c2 [[<- <-]|[_ A]]%lookup_insert_Some [[<- <-]|[_ B]]%lookup_insert_Some He; cbn in He; [done | | | eauto].
      + destruct (Hne _ _ B). congruence.
      + destruct (Hne _ _ A). congruence.
    - done.
    - intros r c [[<- <-]|[_ Hr]]%lookup_insert_Some; cbn.
      + rewrite Hid, lookup_insert_eq. by eexists.
      + destruct (ci_cell0 r c Hr) as (n & Hn & Hsn). exists n. rewrite lookup_insert_ne; [done|].
        intros He. by destruct (Hne r c Hr).
    - intros l p Hl. destruct (ci_loop0 l p Hl) as (r & c & n & Hr & Hrid & Hn & Hrest). exists r, c, n.
      pose proof (ci_cell_name0 r c Hr). rewrite !lookup_insert_ne; [done | | lia]. intros He. destruct (Hne r c Hr). congruence.
    - intros session_id m id r Hm Hg. destruct (ci_crons0 _ _ _ _ Hm Hg) as (c & Hr & Hc). exists c.
      pose proof (ci_cell_name0 r c Hr). rewrite lookup_insert_ne by lia. done.
    - done.
    - intros k p c Hk Hp. destruct (ci_pending0 k p c Hk Hp) as (Hc0 & Hs0 & Hno).
      assert (cell_id c <> cron_id) by congruence. split_and!; [by rewrite lookup_insert_ne | done |].
      intros r c' [[<- <-]|[_ Hr]]%lookup_insert_Some; [cbn; congruence | eauto].
    - done. }
  destruct (IH s1 made Em H1 Hnd) as [Hi Hsame Hkept Hcells Hnd2 Hcreated].
  { intros id u' t' Hin. destruct (Hres id u' t' (list_elem_of_further _ _ _ Hin)) as (? & ? & Hf). split_and!; [done..|].
    cbn. rewrite lookup_insert_ne; [done|]. intros <-. apply Hnin. apply list_elem_of_fmap; by exists (cron_id, (u', t')). }
  split.
  - done.
  - done.
  - intros r c Hr. apply Hkept. cbn. pose proof (ci_cell_name s Hinv r c Hr). rewrite lookup_insert_ne by lia. done.
  - intros id r [[= -> ->]|Hin]%elem_of_cons.
    + split; [done|]. split; [by left|]. exists cell, (N.to_nat (run_count_of u)). split_and!.
      * apply Hkept. cbn. apply lookup_insert_eq.
      * done.
      * rewrite Hcreated by done. cbn. apply lookup_insert_eq.
      * cbn. lia.
    + destruct (Hcells id r Hin) as (Hr & Hid' & Hrest). cbn in Hr. split; [lia|]. split; [by right | done].
  - cbn. apply NoDup_cons. split; [|done]. intros ([id r] & He & Hin)%list_elem_of_fmap. cbn in He. subst r.
    destruct (Hcells id _ Hin) as (Hr & _). cbn in Hr. lia.
  - intros id [Hn Hni]%not_elem_of_cons. rewrite Hcreated by done. cbn. by rewrite lookup_insert_ne.
Qed.

(** A loop for a cell that has none. *)
Lemma inv_spawn r c n s : cron_inv s -> cs_cells s !! r = Some c -> cs_created s !! cell_id c = Some n ->
  (N.of_nat n <= run_count_of (sc_summary c))%N ->
  (forall l p, cs_loops s !! l = Some p -> rl_cron_id p <> cell_id c) -> cron_inv (spawn_run_loop r s).
Proof.
  intros Hinv Hr Hn Hle Hno. unfold spawn_run_loop. rewrite Hr. cbn [fresh_name]. set (new := mkSessionCron _ _ _ _).
  destruct Hinv.
  assert (Hcells : forall r' c', <[r := new]> (cs_cells s) !! r' = Some c' ->
     exists c0, cs_cells s !! r' = Some c0 /\ sc_summary c' = sc_summary c0).
  { intros r' c' [[<- <-]|[_ Hc]]%lookup_insert_Some; [by exists c | by exists c']. }
  assert (Hnew : forall r' c', cs_cells s !! r' = Some c' -> exists c0, <[r := new]> (cs_cells s) !! r' = Some c0
     /\ sc_summary c0 = sc_summary c').
  { intros r' c' Hc. destruct (decide (r' = r)) as [->|Hne].
    - rewrite lookup_insert_eq. exists new. split; [done|]. by assert (c' = c) as -> by congruence.
    - rewrite lookup_insert_ne by done. by exists c'. }
  split; cbn.
  - intros r' c' (c0 & Hc & _)%Hcells. pose proof (ci_cell_name0 r' c0 Hc). lia.
  - intros l p [[<- <-]|[_ Hl]]%lookup_insert_Some; [lia|]. pose proof (ci_loop_name0 l p Hl). lia.
  - intros r1 r2 c1 c2 (d1 & H1 & E1)%Hcells (d2 & H2 & E2)%Hcells. rewrite E1, E2. eauto.
  - intros l1 l2 p1 p2 [[<- <-]|[_ H1]]%lookup_insert_Some [[<- <-]|[_ H2]]%lookup_insert_Some He; cbn in He; [done | | | eauto].
    + by destruct (Hno _ _ H2).
    + by destruct (Hno _ _ H1).
  - intros r' c' (c0 & Hc & E)%Hcells. rewrite E. eauto.
  - intros l p [[<- <-]|[_ Hl]]%lookup_insert_Some; cbn.
    + exists r, new, n. rewrite lookup_insert_eq. split_and!; [done | done | done | by left |]. intros m Hm. done.
    + destruct (ci_loop0 l p Hl) as (r' & c' & n' & Hr' & Hid & Hn' & Hcell & Hok).
      destruct (Hnew r' c' Hr') as (c0 & Hc0 & E). exists r', c0, n'. by rewrite E.
  - intros session_id m cron_id r' Hm Hg. destruct (ci_crons0 _ _ _ _ Hm Hg) as (c' & Hc' & Hid).
    destruct (Hnew r' c' Hc') as (c0 & Hc0 & E). exists c0. by rewrite E.
  - done.
  - intros k p c' Hk Hp. destruct (ci_pending0 _ _ _ Hk Hp) as (A & B & C). split_and!; [done..|].
    intros r' c'' (c0 & Hc & E)%Hcells. rewrite E. eauto.
  - done.
Qed.

Lemma spawn_frame r s : cs_calls (spawn_run_loop r s) = cs_calls s /\ cs_created (spawn_run_loop r s) = cs_created s
  /\ cs_world (spawn_run_loop r s) = cs_world s.
Proof. unfold spawn_run_loop. by destruct (cs_cells s !! r). Qed.

(** The loops of the active cells. *)
Lemma spawn_all_inv rs s : cron_inv s -> NoDup rs ->
  (forall r, r ∈ rs -> exists c n, cs_cells s !! r = Some c /\ cs_created s !! cell_id c = Some n
     /\ (N.of_nat n <= run_count_of (sc_summary c))%N
     /\ forall l p, cs_loops s !! l = Some p -> rl_cron_id p <> cell_id c) ->
  cron_inv (foldl (fun s r => spawn_run_loop r s) s rs)
  /\ cs_calls (foldl (fun s r => spawn_run_loop r s) s rs) = cs_calls s
  /\ cs_created (foldl (fun s r => spawn_run_loop r s) s rs) = cs_created s
  /\ cs_world (foldl (fun s r => spawn_run_loop r s) s rs) = cs_world s
  /\ forall l p, cs_loops (foldl (fun s r => spawn_run_loop r s) s rs) !! l = Some p -> is_Some (cs_created s !! rl_cron_id p).
Proof.
  revert s. induction rs as [|r rs IH]; intros s Hinv Hnd Hrs; cbn [foldl].
  { split_and!; try done. intros l p Hl. destruct (ci_loop s Hinv l p Hl) as (r & c & n & _ & _ & Hn & _). by eexists. }
  apply NoDup_cons in Hnd as [Hnin Hnd]. destruct (Hrs r (list_elem_of_here _ _)) as (c & n & Hr & Hn & Hle & Hno).
  destruct (spawn_frame r s) as (Hcalls & Hcreated & Hworld).
  destruct (IH (spawn_run_loop r s)) as (Hi & A & B & C & E); [by eapply inv_spawn | done | |].
  - intros r' Hr'. destruct (Hrs r' (list_elem_of_further _ _ _ Hr')) as (c' & n' & Hc' & Hn' & Hle' & Hno').
    exists c', n'. rewrite Hcreated. unfold spawn_run_loop. rewrite Hr. cbn. split_and!; [|done..|].
    + rewrite lookup_insert_ne; [done|]. by intros ->.
    + intros l p [[<- <-]|[_ Hl]]%lookup_insert_Some; [|exact (Hno' l p Hl)]. cbn. intros He. apply Hnin.
      by rewrite (ci_one_cell s Hinv r r' c c' Hr Hc' He).
  - rewrite Hcalls in A. rewrite Hcreated in B. rewrite Hworld in C. split_and!; [done..|].
    intros l p Hl. destruct (E l p Hl) as [x Hx]. rewrite Hcreated in Hx. by eexists.
Qed.

(** Restoring a session whose crons are not known yet. *)
Lemma install_inv session_id events s : cron_inv s ->
  (forall cron_id u t, (cron_id, (u, t)) ∈ restored_crons session_id events ->
     logged_sound u /\ cs_created s !! cron_id = None) ->
  let s' := install_session session_id events s in
  cron_inv s' /\ cs_world s' = cs_world s
  /\ forall cron_id, cron_id ∉ (restored_crons session_id events).*1 -> cs_created s' !! cron_id = cs_created s !! cron_id.
Proof.
  intros Hinv Hres. unfold install_session. destruct (restored_keys session_id events) as [Hok Hkeys].
  destruct (make_cells _ s) as [cells s1] eqn:Em.
  destruct (make_cells_inv _ _ _ _ Em Hinv Hok) as [Hi (Hc1 & Hl1 & Hr1 & Hw1 & _) Hkept Hcells Hnd Hcreated].
  { intros cron_id u t Hin. destruct (Hres _ _ _ Hin). split_and!; [by eapply Hkeys | done..]. }
  assert (H2 : cron_inv (with_crons (bt_insert session_id cells (cs_crons s1)) s1)).
  { destruct Hi. split; cbn; try done. intros sid m cron_id r [[-> ->]|Hm]%bt_insert_elem Hg; [|eauto].
    destruct (Hcells cron_id r (bt_get_In _ _ _ Hg)) as (_ & _ & c & n & Hc & Hid & _). by exists c. }
  destruct (spawn_all_inv (List.filter (cell_active s1) cells.*2) _ H2) as (A & B & C & W & _).
  - pose proof (NoDup_map_filter (fun r : nat => r) (cell_active s1) cells.*2) as Hf. rewrite !list_fmap_id in Hf. by apply Hf.
  - intros r [([cron_id r'] & -> & Hin)%list_elem_of_fmap _]%elem_of_filter_b.
    destruct (Hcells cron_id r' Hin) as (_ & Hin2 & c & n & Hc & Hid & Hn & Hle). exists c, n. cbn. rewrite Hid. split_and!; [done..|].
    intros l p Hl He. rewrite Hl1 in Hl. destruct (ci_loop s Hinv l p Hl) as (_ & _ & n' & _ & _ & Hn' & _).
    apply list_elem_of_fmap in Hin2 as ([id [u t]] & -> & Hin2). destruct (Hres _ _ _ Hin2) as [_ Hf]. cbn in *. congruence.
  - split_and!; [done | by rewrite W |]. intros cron_id Hn. rewrite C. by apply Hcreated.
Qed.

(** ** Live interleavings *)

(** The requests are validated, the ids that are drawn were not used before, and a session that is
    loaded brings crons that are not known yet, whose logged counts are sound. *)
Definition live (s : CronState) (a : CronAction) : Prop :=
  match a with
  | Act_Begin _ q => valid_request q
  | Act_Call k =>
      match cs_calls s !! k with
      | Some (K_Install _ _ session_id _ events) => forall cron_id u t,
          (cron_id, (u, t)) ∈ restored_crons session_id events -> logged_sound u /\ cs_created s !! cron_id = None
      | Some (K_Ready parent (Req_Create q) session_id agent) =>
          cs_created s !! cell_id (new_cron parent q session_id agent (cs_world s)).1 = None
      | _ => True
      end
  | _ => True
  end.

Definition live_step (s s' : CronState) : Prop := exists a, live s a /\ act a s = Some s'.

Lemma new_cron_sound parent q session_id agent w : valid_request (Req_Create q) ->
  sound (sc_summary (new_cron parent q session_id agent w).1) 0.
Proof.
  unfold new_cron. destruct (lw_new_id w) as [id w1]. cbn. intros [Hv Hw] m Hm. cbn in *.
  unfold u32_max in *. destruct (ccr_schedule q) as [delay|interval start [max|]]; cbn in *; [| |done]; injection Hm as <-.
  - lia.
  - revert Hv. case_match; [done|]. case_bool_decide as Hz; [done|]. intros _.
    assert (max <> 0%N) by congruence. lia.
Qed.

Lemma start_firing_inv l lp r c n s : cron_inv s -> cs_loops s !! l = Some lp -> cs_cells s !! r = Some c ->
  cell_id c = rl_cron_id lp -> cs_created s !! rl_cron_id lp = Some n -> point_ok L_Top (sc_summary c) n ->
  cron_inv (start_firing l r s).
Proof.
  intros Hinv Hl Hr Hid Hn Hok. unfold start_firing. rewrite Hr.
  destruct (CronStatus_is_terminal (status_of (sc_summary c))) eqn:Et; [by apply inv_loop_ends|].
  destruct (task_from_template _ _ _) as [task w]. eapply inv_loop_to; try done; [by apply inv_world | by right|].
  intros m Hm. destruct (ci_cell s Hinv r c Hr) as (n' & Hn' & Hs). destruct (Hs m Hm) as (_ & _ & _ & Hroom).
  specialize (Hok m Hm). cbn in Hok. split; [done|]. apply Hroom. by destruct (status_of (sc_summary c)).
Qed.

Lemma updated_sound now task_id u n : sound u n -> point_ok (L_Updating 0 (Ok task_id)) u n ->
  sound (update_summary_after_run now task_id u) n /\ point_ok L_Top (update_summary_after_run now task_id u) n.
Proof.
  intros Hs Hok.
  assert (Hlimit : run_limit (schedule_of (update_summary_after_run now task_id u)) = run_limit (schedule_of u)).
  { unfold update_summary_after_run. destruct (schedule_of u) as [|i t [m|]]; cbn; [done | by destruct (_ <=? _)%N | done]. }
  assert (Hcount : run_count_of (update_summary_after_run now task_id u) = u32_saturating_succ (run_count_of u)).
  { unfold update_summary_after_run. destruct (schedule_of u) as [|i t [m|]]; cbn; [done | by destruct (_ <=? _)%N | done]. }
  split; intros m; rewrite Hlimit, Hcount; intros Hm; specialize (Hok m Hm); destruct (Hs m Hm) as (Hw & Hr & Hnm & _);
    cbn in Hok; unfold u32_saturating_succ; cbn; [|lia].
  split_and!; [done | lia | done|]. clear Hlimit Hcount. unfold update_summary_after_run. destruct (schedule_of u) as [|i t mx]; cbn in *; [done|].
  subst mx. unfold u32_saturating_succ. destruct (N.leb_spec m (N.min u32_max (run_count_of u + 1))); cbn; [done | lia].
Qed.

(** Every segment of a run loop keeps the invariant. *)
Lemma loop_step_inv l s s' : cron_inv s -> loop_step l s = Some s' -> cron_inv s'.
Proof.
  intros Hinv. unfold loop_step. destruct (cs_loops s !! l) as [lp|] eqn:Hl; [|done]. cbn [mbind option_bind].
  destruct (ci_loop s Hinv l lp Hl) as (r & c & n & Hr & Hid & Hn & Hcell & Hok).
  destruct (rl_at lp) as [|r' until|r' current task|r' current outcome|r' outcome|r' updated outcome] eqn:Ep;
    cbn [point_cell] in Hcell; [|destruct Hcell as [|[= ->]]; [done|]; rewrite ?Hr; cbn [mbind option_bind]..].
  - intros [= <-]. destruct (find_cron s (rl_cron_id lp)) as [r'|] eqn:Ef; [|by apply inv_loop_ends].
    unfold find_cron in Ef. apply find_map_Some in Ef as (pre & [session_id m] & post & Hsplit & Hg & _).
    assert (Hm : (session_id, m) ∈ cs_crons s) by (rewrite Hsplit; apply elem_of_app; right; by left).
    destruct (ci_crons s Hinv session_id m _ _ Hm Hg) as (c' & Hc' & Hid').
    assert (r' = r) as -> by (eapply (ci_one_cell s Hinv); [done..|congruence]).
    rewrite Hr in Hc'. injection Hc' as <-. unfold cell_summary. rewrite Hr. cbn [fmap option_fmap option_map].
    destruct (CronStatus_is_terminal _); [by apply inv_loop_ends|]. case_match; [|by eapply start_firing_inv].
    eapply inv_loop_to; try done. by right.
  - case_match; [|done]. intros [= <-]. by eapply start_firing_inv.
  - destruct (create_task _ _ _) as [[task_id|e] w]; intros [= <-].
    + cbn [with_world cs_created]. rewrite Hn. cbn [default from_option id].
      change (cs_created s) with (cs_created (with_world w s)).
      destruct (ci_cell s Hinv r c Hr) as (n' & Hn' & Hs). assert (n' = n) as -> by congruence.
      eapply inv_created; try done; [by apply inv_world | |].
      * intros m Hm. specialize (Hok m Hm). cbn in *. lia.
      * intros m Hm. specialize (Hok m Hm). destruct (Hs m Hm) as (? & ? & ? & ?). cbn in *. split_and!; [done | done | lia | done].
    + eapply inv_loop_to; try done; [by apply inv_world | by right|]. intros m Hm. specialize (Hok m Hm). cbn in *. lia.
  - destruct (append_notification _ _ _) as [r0 w]; intros [= <-].
    eapply inv_loop_to; try done; [by apply inv_world | by right].
  - intros [= <-]. destruct outcome as [task_id|e].
    + destruct (ci_cell s Hinv r c Hr) as (n' & Hn' & Hs). assert (n' = n) as -> by congruence.
      destruct (updated_sound (lw_unix_s (cs_world s)) task_id (sc_summary c) n Hs Hok) as [Hs' Hok'].
      eapply inv_counted; try done. unfold update_summary_after_run. by repeat case_match.
    + apply (inv_loop_to l lp _ r (with_summary (with_status CronStatus_Failed (sc_summary c)) c) n);
        [by apply inv_terminal | done | apply lookup_insert_eq | done | done | by right | done].
  - destruct (append_cron_updated _ _ _) as [stored w]; intros [= <-]. apply (inv_world w) in Hinv.
    destruct outcome as [task_id|e]; [|by apply inv_loop_ends]. destruct stored as [[]|e].
    + destruct (CronStatus_is_terminal _); [by apply inv_loop_ends|]. eapply inv_loop_to; try done. by left.
    + by apply inv_loop_ends, inv_terminal.
Qed.

(** So does every segment of a call that is live. *)
Lemma call_step_inv k s s' : cron_inv s -> live s (Act_Call k) -> call_step k s = Some s' -> cron_inv s'.
Proof.
  intros Hinv Hlive. unfold call_step. cbn [live] in Hlive. destruct (cs_calls s !! k) as [p|] eqn:Hk; [|done].
  cbn [mbind option_bind]. pose proof (ci_call s Hinv k p Hk) as Hp.
  destruct p as [parent q|parent q sid agent events|parent [q| |cron_id] sid agent|c|c|parent summary|parent summary|a];
    [..|done].
  - intros [= <-]. unfold require_parent_session. destruct (par_session_id parent) as [sid|] eqn:Es; [|by apply inv_call].
    cbn [ok_or result_bind]. destruct (par_agent_session_id parent) as [agent|]; [|by apply inv_call].
    cbn [ok_or result_bind]. unfold ensure_session_loaded. case_bool_decide; [by apply inv_call|].
    destruct (session_events _ _); by apply inv_call.
  - intros [= <-]. destruct (install_inv sid events s Hinv Hlive) as [Hi _]. apply inv_call; [by destruct Hi | done..].
  - pose proof (new_cron_sound parent q sid agent (cs_world s) Hp) as Hs.
    destruct (new_cron parent q sid agent (cs_world s)) as [c w]. cbn [fst] in *. intros [= <-].
    by apply (inv_new k c (with_world w s)); [apply inv_world|..].
  - intros [= <-]. by apply inv_call.
  - intros [= <-]. unfold cancel_cron. destruct (cron_state s sid cron_id) as [r|]; cbn [mbind option_bind]; [|by apply inv_call].
    destruct (cs_cells s !! r) as [c|] eqn:Hr; cbn [mbind option_bind]; [|by apply inv_call].
    destruct (CronStatus_is_terminal _); [by apply inv_call|]. apply inv_call; [|done..].
    by apply inv_aborted, inv_terminal.
  - destruct (append_cron_created _ _ _ _) as [[[]|e] w]; intros [= <-].
    + eapply inv_call_pending; [by apply inv_world | done..].
    + by apply inv_call; [apply inv_world|..].
  - intros [= <-]. by apply inv_insert.
  - destruct (append_cron_updated _ _ _) as [[[]|e] w]; intros [= <-]; by apply inv_call; [apply inv_world|..].
  - destruct (append_notification _ _ _) as [r w]. intros [= <-]. by apply inv_call; [apply inv_world|..].
Qed.

Lemma live_step_inv s s' : cron_inv s -> live_step s s' -> cron_inv s'.
Proof.
  intros Hinv (a & Hlive & Ha). destruct a as [parent q|k|l|l|l|w]; cbn [act] in Ha.
  - injection Ha as <-. apply inv_call; [|done..]. destruct Hinv. split; cbn; try done.
    + intros r c Hr. pose proof (ci_cell_name0 r c Hr). lia.
    + intros l p Hl. pose proof (ci_loop_name0 l p Hl). lia.
  - by eapply call_step_inv.
  - by eapply loop_step_inv.
  - destruct (cs_loops s !! l) as [lp|] eqn:Hl; [|done]. cbn [mbind option_bind] in Ha.
    destruct (ci_loop s Hinv l lp Hl) as (r & c & n & Hr & Hid & Hn & Hcell & Hok).
    destruct (rl_at lp) eqn:Ep; try done. case_bool_decide; [|done]. injection Ha as <-.
    eapply inv_loop_to; try done. by left.
  - case_bool_decide; [|done]. injection Ha as <-. by apply inv_loop_ends.
  - injection Ha as <-. by apply inv_world.
Qed.

Lemma live_run_inv s s' : cron_inv s -> rtc live_step s s' -> cron_inv s'.
Proof. intros Hinv Hr. induction Hr as [|s s1 s2 Hs _ IH]; [done|]. by apply IH, (live_step_inv s). Qed.

(** ** The start of the program *)

Lemma inv_no_crons w : cron_inv (no_crons w).
Proof. split; cbn; intros *; rewrite ?lookup_empty; try done. by intros Hm%elem_of_nil. Qed.

(** Logs of sessions that the manager can restore: the summaries agree with their own counts,
    and no two sessions have a cron with the same id. *)
Definition sound_logs (sessions : list SessionId) (w : LogWorld) : Prop :=
  NoDup sessions
  /\ (forall session_id events cron_id u t, session_id ∈ sessions -> session_events w session_id = Ok events ->
        (cron_id, (u, t)) ∈ restored_crons session_id events -> logged_sound u)
  /\ forall id1 id2 e1 e2 cron_id, id1 ∈ sessions -> id2 ∈ sessions -> id1 <> id2 ->
       session_events w id1 = Ok e1 -> session_events w id2 = Ok e2 ->
       cron_id ∈ (restored_crons id1 e1).*1 -> cron_id ∉ (restored_crons id2 e2).*1.

Lemma restore_all_inv sessions w s s0 : sound_logs sessions w -> cron_inv s -> cs_world s = w ->
  (forall session_id events cron_id, session_id ∈ sessions -> session_events w session_id = Ok events ->
     cron_id ∈ (restored_crons session_id events).*1 -> cs_created s !! cron_id = None) ->
  restore_all_sessions sessions s = Ok s0 -> cron_inv s0.
Proof.
  revert s. induction sessions as [|sid rest IH]; intros s (Hnd & Hs & Hdis) Hinv Hw Hfresh; cbn [restore_all_sessions].
  { by intros [= <-]. }
  rewrite Hw. destruct (session_events w sid) as [events|] eqn:Ee; [|done]. cbn [result_bind].
  apply NoDup_cons in Hnd as [Hnin Hnd].
  destruct (install_inv sid events s Hinv) as (Hi & Hw' & Hcr).
  { intros cron_id u t Hin. split; [by eapply Hs; [left|..]|]. eapply Hfresh; [by left | exact Ee|].
    apply list_elem_of_fmap; by exists (cron_id, (u, t)). }
  apply IH.
  - split_and!; [done | |].
    + intros session_id e cron_id u t Hin. apply Hs. by right.
    + intros id1 id2 e1 e2 cron_id H1 H2. apply Hdis; by right.
  - by destruct Hi.
  - cbn. by rewrite Hw'.
  - intros session_id e cron_id Hin He Hk. cbn. rewrite Hcr; [eapply Hfresh; [by right | done..]|].
    eapply (Hdis session_id sid e events); [by right | by left | by intros -> | done..].
Qed.

(** A run of live actions, as a computation. *)
Definition valid_requestb (q : CronRequest) : bool :=
  match q with
  | Req_Create q =>
      is_ok (validate_cron_schedule (ccr_schedule q))
      && match ccr_schedule q with EverySeconds _ _ (Some m) => (m <=? u32_max)%N | _ => true end
  | _ => true
  end.

Definition liveb (s : CronState) (a : CronAction) : bool :=
  match a with
  | Act_Begin _ q => valid_requestb q
  | Act_Call k =>
      match cs_calls s !! k with
      | Some (K_Install _ _ session_id _ events) =>
          match restored_crons session_id events with [] => true | _ => false end
      | Some (K_Ready parent (Req_Create q) session_id agent) =>
          bool_decide (cs_created s !! cell_id (new_cron parent q session_id agent (cs_world s)).1 = None)
      | _ => true
      end
  | _ => true
  end.

Lemma liveb_live s a : liveb s a = true -> live s a.
Proof.
  destruct a as [parent [q| |]|k| | | |]; try done; cbn.
  - intros [Hv Hw]%andb_prop. split; [by destruct (validate_cron_schedule _) as [[]|]|].
    destruct (ccr_schedule q) as [|? ? [m|]]; [done | by apply N.leb_le | done].
  - destruct (cs_calls s !! k) as [[]|]; try done.
    + destruct (restored_crons _ _); [|done]. by intros _ cron_id u t Hin%elem_of_nil.
    + destruct request; try done. apply bool_decide_eq_true.
Qed.

Fixpoint live_acts (l : list CronAction) (s : CronState) : option CronState :=
  match l with [] => Some s | a :: rest => if liveb s a then s ← act a s; live_acts rest s else None end.

Lemma live_acts_run l s s' : live_acts l s = Some s' -> rtc live_step s s'.
Proof.
  revert s. induction l as [|a l IH]; cbn; intros s; [by intros [= ->]|].
  destruct (liveb s a) eqn:Ea; [|done]. destruct (act a s) as [s1|] eqn:E1; [|done]. cbn. intros Hl.
  eapply rtc_l; [by exists a; split; [apply liveb_live|] | by apply IH].
Qed.

(** C10.  No schedule overruns: from a start over sound logs, however calls, run loops, cancellations and
    aborts interleave (as long as ids are not reused, and no session brings crons that are
    known already when its first call loads it), no two run loops ever serve one cron, and neither the tasks that were created for a cron (those its log
    tells of included) nor the runs it counts exceed what its schedule allows: one for
    a deferred task, [max_runs] for a recurring one. *)
Theorem schedules_never_overrun sessions w s0 s :
  sound_logs sessions w -> restore_all_sessions sessions (no_crons w) = Ok s0 -> rtc live_step s0 s ->
  (forall l1 l2 p1 p2, cs_loops s !! l1 = Some p1 -> cs_loops s !! l2 = Some p2 ->
     rl_cron_id p1 = rl_cron_id p2 -> l1 = l2)
  /\ forall r c m, cs_cells s !! r = Some c -> run_limit (schedule_of (sc_summary c)) = Some m ->
       exists n, cs_created s !! cell_id c = Some n /\ (N.of_nat n <= m)%N /\ (run_count_of (sc_summary c) <= m)%N.
Proof.
  intros Hlogs Hr Hrun.
  assert (H0 : cron_inv s0).
  { eapply restore_all_inv; [done | apply inv_no_crons | done..|exact Hr]. }
  pose proof (live_run_inv s0 s H0 Hrun) as Hinv. split; [apply (ci_one_loop s Hinv)|].
  intros r c m Hc Hm. destruct (ci_cell s Hinv r c Hc) as (n & Hn & Hs). exists n.
  destruct (Hs m Hm) as (_ & ? & ? & _). done.
Qed.

End Invariant.

(** ** A concrete manager, over the memory store *)

#[local] Existing Instance json_text.

#[local] Instance creates_tasks : TaskCreation :=
  {| create_task := fun _ task w => (Ok (AgentTaskSpec_task_id task), w) |}.

Definition cron_parent : SubagentParentContext :=
  mkSubagentParentContext (Some "s") (Some "a") (Some "t") None None None.

Definition cron_request (schedule : CronScheduleInput) : CronRequest :=
  Req_Create (mkCronCreateRequest schedule (mkCronTaskTemplate "general-purpose" "look" None [] [] None "look" None)).

(** The manager when the program starts and the session has no events. *)
Definition cron_start : CronState :=
  with_loaded "s" (install_session "s" [] (no_crons ((∅, 0%nat) : @LogWorld json_text memory_log))).

(** A call that makes a schedule: it begins, is loaded, stores the creation and installs the cron. *)
Definition makes_cron (k : nat) (q : CronRequest) : list CronAction :=
  [Act_Begin cron_parent q; Act_Call k; Act_Call k; Act_Call k; Act_Call k].

(** One firing of a run loop: it looks the cron up, creates the task, notes it, counts it and stores the count. *)
Definition fires_once (l : nat) : list CronAction := [Act_Loop l; Act_Loop l; Act_Loop l; Act_Loop l; Act_Loop l].

Definition statuses (s : CronState) : list (CronId * CronStatus * N) :=
  map (fun u => (cron_id_of u, status_of u, run_count_of u)) (list_cron_summaries s "s").

(** A call that cancels a schedule. *)
Definition cancels_cron (k : nat) (cron_id : CronId) : list CronAction :=
  [Act_Begin cron_parent (Req_Delete cron_id); Act_Call k; Act_Call k; Act_Call k; Act_Call k].

Definition logged_statuses (w : LogWorld) : list (CronId * CronStatus) :=
  match session_events w "s" with
  | Ok events => map (fun e => (e.1, status_of e.2.1)) (restored_crons "s" events)
  | Err _ => []
  end.

(** A deferred task and a schedule of two runs, at every second, which both run out. *)
Definition two_schedules : list CronAction :=
  (makes_cron 0 (cron_request (OnceAfter 0)) ++ fires_once 2
   ++ makes_cron 3 (cron_request (EverySeconds 1 (Some 0%N) (Some 2%N))) ++ fires_once 5 ++ fires_once 5)%list.

Definition after_both : CronState := default cron_start (live_acts two_schedules cron_start).

Lemma both_ran : live_acts two_schedules cron_start = Some after_both
  /\ statuses after_both = [("cron_0", CronStatus_Completed, 1%N); ("cron_5", CronStatus_Completed, 2%N)]
  /\ map_to_list (cs_created after_both) = [("cron_5", 2%nat); ("cron_0", 1%nat)].
Proof. split_and!; vm_compute; reflexivity. Qed.

Lemma schedules_never_overrun_witness :
  restore_all_sessions ["s"] (no_crons (∅, 0%nat)) = Ok cron_start /\ rtc live_step cron_start after_both
  /\ exists c, cs_cells after_both !! 4%nat = Some c /\ run_limit (schedule_of (sc_summary c)) = Some 2%N
     /\ exists n, cs_created after_both !! cell_id c = Some n /\ (N.of_nat n <= 2)%N /\ (run_count_of (sc_summary c) <= 2)%N.
Proof.
  assert (Hr : rtc live_step cron_start after_both) by (apply (live_acts_run two_schedules), both_ran).
  assert (Hlogs : sound_logs ["s"] ((∅, 0%nat) : @LogWorld json_text memory_log)).
  { split_and!; [apply NoDup_singleton | |].
    - intros session_id events cron_id u t ->%list_elem_of_singleton [= <-] Hin. by apply elem_of_nil in Hin.
    - intros id1 id2 e1 e2 cron_id ->%list_elem_of_singleton ->%list_elem_of_singleton []. done. }
  destruct (schedules_never_overrun ["s"] _ cron_start after_both Hlogs eq_refl Hr) as [_ Hall].
  split; [done|]. split; [done|].
  destruct (cs_cells after_both !! 4%nat) as [c|] eqn:Ec; [|by vm_compute in Ec].
  assert (Hm : run_limit (schedule_of (sc_summary c)) = Some 2%N).
  { vm_compute in Ec. by injection Ec as <-. }
  exists c. split_and!; [done | done | exact (Hall 4%nat c 2%N Ec Hm)].
Defined.

(** ** Interleavings that go wrong *)

(** Two first calls of a session that is not loaded, at once: the second one read the events
    before the first stored its cron, and then replaces what the first installed.  The caller was told that
    the automation is scheduled and the log says so too, but it is not listed and never runs. *)
Theorem concurrent_loads_lose_schedule :
  let start := no_crons ((∅, 0%nat) : @LogWorld json_text memory_log) in
  match acts [Act_Begin cron_parent (cron_request (OnceAfter 0)); Act_Call 0;
              Act_Begin cron_parent Req_List; Act_Call 1;
              Act_Call 0; Act_Call 0; Act_Call 0; Act_Call 0;
              Act_Call 1; Act_Call 1; Act_Loop 3] start with
  | Some s =>
      match cs_calls s !! 0%nat with
      | Some (K_Done (Ok (Ans_Summary u))) => cron_id_of u = "cron_0" /\ status_of u = CronStatus_Scheduled
      | _ => False
      end
      /\ statuses s = [] /\ cs_loops s = ∅ /\ logged_statuses (cs_world s) = [("cron_0", CronStatus_Scheduled)]
  | None => False
  end.
Proof. vm_compute. by split_and!. Qed.

(** A cancellation between the count of a run and its storing: the log ends with the count, so
    the automation that was cancelled is scheduled again when the program starts the next time. *)
Theorem cancelled_schedule_returns :
  match live_acts (makes_cron 0 (cron_request (EverySeconds 1 (Some 0%N) None))
                   ++ [Act_Loop 2; Act_Loop 2; Act_Loop 2; Act_Loop 2] ++ cancels_cron 3 "cron_0" ++ [Act_Loop 2])%list
          cron_start with
  | Some s =>
      statuses s = [("cron_0", CronStatus_Cancelled, 1%N)]
      /\ logged_statuses (cs_world s) = [("cron_0", CronStatus_Scheduled)]
      /\ match restore_all_sessions ["s"] (no_crons (cs_world s)) with
         | Ok s => statuses s = [("cron_0", CronStatus_Scheduled, 1%N)]
         | Err _ => False
         end
  | None => False
  end.
Proof. vm_compute. by split_and!. Qed.

(** A cancellation while the task of a deferred automation is made: the call answers that it is
    cancelled, then the run loop makes it completed. *)
Theorem cancelled_schedule_completes :
  match live_acts (makes_cron 0 (cron_request (OnceAfter 0)) ++ [Act_Loop 2; Act_Loop 2; Act_Loop 2]
                   ++ cancels_cron 3 "cron_0" ++ [Act_Loop 2; Act_Loop 2])%list cron_start with
  | Some s =>
      match cs_calls s !! 3%nat with
      | Some (K_Done (Ok (Ans_Summary u))) => status_of u = CronStatus_Cancelled
      | _ => False
      end
      /\ statuses s = [("cron_0", CronStatus_Completed, 1%N)]
  | None => False
  end.
Proof. vm_compute. by split_and!. Qed.
