(* ===== verification/MemoryFiles.v ===== *)
(** * Managed memory files

    Models the data of [crates/memory/src/backend.rs], the layout of [state.rs], the parsing
    and chunking of [corpus.rs], and the text functions of [managed_files.rs].  YAML front
    matter and the text of a time stamp are parameters ([MemoryText]).  Line and character
    counters are [nat]: no document reaches the width of [usize]. *)

From Stdlib Require Import Ascii String.
From stdpp Require Import base list gmap sorting strings.
From Stdlib Require Import Lia.
From S2P Require Import Prelude Text Message Errors TextBuffer WriteLease SandboxPolicy Tools PathPolicy StoreSearch.

(** ** Data *)

(* crates/memory/src/backend.rs, MemoryScope *)
Inductive MemoryScope := Scope_Procedural | Scope_Semantic | Scope_Episodic | Scope_Working.
(* crates/memory/src/backend.rs, MemoryScope::as_str *)
Definition scope_as_str (s : MemoryScope) : string :=
  match s with
  | Scope_Procedural => "procedural" | Scope_Semantic => "semantic" | Scope_Episodic => "episodic"
  | Scope_Working => "working"
  end.
#[global] Instance MemoryScope_eq_dec : EqDecision MemoryScope.
Proof. solve_decision. Defined.

(* crates/memory/src/backend.rs, MemoryType *)
Inductive MemoryType := MType_User | MType_Feedback | MType_Project | MType_Reference.
(* crates/memory/src/backend.rs, MemoryType::as_str *)
Definition mtype_as_str (t : MemoryType) : string :=
  match t with
  | MType_User => "user" | MType_Feedback => "feedback" | MType_Project => "project" | MType_Reference => "reference"
  end.
#[global] Instance MemoryType_eq_dec : EqDecision MemoryType.
Proof. solve_decision. Defined.

(* crates/memory/src/backend.rs, MemoryStatus *)
Inductive MemoryStatus := Status_Ready | Status_Stale | Status_Superseded | Status_Archived.
(* crates/memory/src/backend.rs, MemoryStatus::as_str *)
Definition mstatus_as_str (s : MemoryStatus) : string :=
  match s with
  | Status_Ready => "ready" | Status_Stale => "stale" | Status_Superseded => "superseded"
  | Status_Archived => "archived"
  end.
#[global] Instance MemoryStatus_eq_dec : EqDecision MemoryStatus.
Proof. solve_decision. Defined.

(* crates/memory/src/backend.rs, MemoryRecordMode *)
Inductive MemoryRecordMode := Mode_Append | Mode_Replace.
(* crates/memory/src/backend.rs, MemoryRecordMode::as_str *)
Definition mode_as_str (m : MemoryRecordMode) : string :=
  match m with Mode_Append => "append" | Mode_Replace => "replace" end.

(* crates/memory/src/backend.rs, MemoryDocumentMetadata *)
Record MemoryDocumentMetadata := mkMemoryMetadata {
  mm_scope : MemoryScope;
  mm_memory_type : option MemoryType;
  mm_description : option string;
  mm_layer : string;
  mm_session_id : option SessionId;
  mm_agent_session_id : option AgentSessionId;
  mm_agent_name : option string;
  mm_task_id : option string;
  mm_updated_at_ms : option N;
  mm_promoted_from : option string;
  mm_supersedes : list string;
  mm_tags : list string;
  mm_status : MemoryStatus
}.

(** [Default]. *)
Definition default_metadata : MemoryDocumentMetadata :=
  mkMemoryMetadata Scope_Semantic None None "" None None None None None None [] [] Status_Ready.

(* crates/memory/src/backend.rs, MemoryRecordRequest *)
Record MemoryRecordRequest := mkMemoryRecordRequest {
  mr_scope : MemoryScope;
  mr_title : string;
  mr_content : string;
  mr_mode : MemoryRecordMode;
  mr_memory_type : option MemoryType;
  mr_description : option string;
  mr_layer : option string;
  mr_tags : list string;
  mr_session_id : option SessionId;
  mr_agent_session_id : option AgentSessionId;
  mr_agent_name : option string;
  mr_task_id : option string
}.

(* crates/memory/src/backend.rs, MemoryPromoteRequest *)
Record MemoryPromoteRequest := mkMemoryPromoteRequest {
  mp_source_path : string;
  mp_target_scope : MemoryScope;
  mp_title : string;
  mp_content : string;
  mp_memory_type : option MemoryType;
  mp_description : option string;
  mp_layer : option string;
  mp_tags : list string
}.

(* crates/memory/src/backend.rs, MemoryForgetRequest *)
Record MemoryForgetRequest := mkMemoryForgetRequest { mf_path : string; mf_status : MemoryStatus }.

(* crates/memory/src/backend.rs, MemoryMutationResponse *)
Record MemoryMutationResponse := mkMemoryMutationResponse {
  mx_action : string;
  mx_path : string;
  mx_snapshot_id : string;
  mx_metadata : MemoryDocumentMetadata
}.

(* crates/memory/src/error.rs, MemoryError *)
Inductive MemoryError :=
| MemErr_Io (error : IoError)
| MemErr_Json (error : string)
| MemErr_TomlDecode (error : string)
| MemErr_TomlEncode (error : string)
| MemErr_Regex (error : string)
| MemErr_Glob (error : string)
| MemErr_InvalidInput (message : string)
| MemErr_PathOutsideWorkspace (path : string)
| MemErr_PathNotInCorpus (path : string).

(** ** The layout of the state *)

Definition memory_root : PathBuf := [".nanoclaw"; "memory"].

(* crates/memory/src/state.rs, ResolvedStatePath *)
Record ResolvedStatePath := mkResolvedStatePath { rsp_absolute : PathBuf; rsp_relative : PathBuf }.

(* crates/memory/src/state.rs, reject_parent_components *)
Definition reject_parent_components (path : PathBuf) : result unit MemoryError :=
  if existsb (String.eqb "..") path then
    Err (MemErr_InvalidInput ("path " +:+ bt +:+ path_display path +:+ bt +:+ " cannot contain parent traversal"))
  else Ok tt.

(* crates/memory/src/state.rs, MemoryStateLayout::resolve_path_within_state_root *)
Definition resolve_path_within_state_root (workspace_root configured : PathBuf)
    : result ResolvedStatePath MemoryError :=
  _ <-? reject_parent_components configured;
  let absolute := if is_absolute configured then configured else path_join workspace_root configured in
  if negb (path_starts_with absolute workspace_root) then
    Err (MemErr_PathOutsideWorkspace (path_display configured))
  else if negb (path_starts_with absolute (path_join workspace_root memory_root)) then
    Err (MemErr_PathOutsideWorkspace (path_display configured))
  else Ok (mkResolvedStatePath absolute (drop (length workspace_root) absolute)).

(* crates/memory/src/state.rs, MemoryStateLayout::resolve_managed_memory_path *)
Definition resolve_managed_memory_path (workspace_root : PathBuf) (relative : string)
    : result ResolvedStatePath MemoryError :=
  resolve_path_within_state_root workspace_root (path_of_string relative).

(** ** Strings *)

Definition string_le (a b : string) : Prop := String.compare a b <> Gt.
#[global] Instance string_le_dec a b : Decision (string_le a b).
Proof. unfold string_le. apply _. Defined.

(** [Vec::dedup]. *)
Fixpoint dedup (l : list string) : list string :=
  match l with
  | x :: ((y :: _) as rest) => if String.eqb x y then dedup rest else x :: dedup rest
  | _ => l
  end.

Definition trimmed_non_empty (s : string) : option string := if str_is_empty (trim s) then None else Some (trim s).

(* crates/memory/src/managed_files.rs, normalize_optional *)
Definition normalize_optional (value : option string) : option string := value ≫= trimmed_non_empty.

(* crates/memory/src/corpus.rs, normalize_string_list *)
Definition normalize_string_list (values : list string) : list string :=
  dedup (merge_sort string_le (omap trimmed_non_empty values)).

(* crates/memory/src/managed_files.rs, merge_lists *)
Definition merge_lists (existing added : list string) : list string := normalize_string_list (existing ++ added).

Definition slug_char (a : ascii) : option ascii :=
  let n := nat_of_ascii a in
  if ((97 <=? n) && (n <=? 122) || (48 <=? n) && (n <=? 57))%nat then Some a
  else if ((65 <=? n) && (n <=? 90))%nat then Some (ascii_of_nat (n + 32)) else None.

(** [started] is [!out.is_empty()].  A character outside ASCII gives one dash: the bytes
    that continue it follow a dash. *)
Fixpoint slug_loop (s : string) (started prev_dash : bool) : string :=
  match s with
  | "" => ""
  | String a s =>
      match slug_char a with
      | Some c => String c (slug_loop s true false)
      | None => if negb prev_dash && started then String "-" (slug_loop s started true)
                else slug_loop s started prev_dash
      end
  end.

(** [trim_matches('-')]. *)
Fixpoint strip_dashes (s : string) : string :=
  match s with String a s' => if Ascii.eqb a "-" then strip_dashes s' else s | "" => "" end.
Definition trim_dashes (s : string) : string := str_rev (strip_dashes (str_rev (strip_dashes s))).

(* crates/memory/src/managed_files.rs, slugify *)
Definition slugify (value : string) : string := trim_dashes (slug_loop value false false).

(* crates/memory/src/corpus.rs, file_stem *)
Definition file_stem (path : string) : option string :=
  name ← last (split_on "/" path); strip_suffix ".md" name.

Definition ascii_digits (n : nat) (s : string) : bool :=
  (String.length s =? n)%nat
  && forallb (fun a => (48 <=? nat_of_ascii a)%nat && (nat_of_ascii a <=? 57)%nat) (list_ascii_of_string s).

(* crates/memory/src/corpus.rs, is_daily_log_path *)
Definition is_daily_log_path (path : string) : bool :=
  match split_on "-" <$> file_stem path with
  | Some [year; month; day] => ascii_digits 4 year && ascii_digits 2 month && ascii_digits 2 day
  | _ => false
  end.

(** ** Front matter *)

(* crates/memory/src/corpus.rs, MemoryFrontmatter *)
Record MemoryFrontmatter := mkMemoryFrontmatter {
  fm_scope : option MemoryScope;
  fm_memory_type : option MemoryType;
  fm_description : option string;
  fm_layer : option string;
  fm_session_id : option SessionId;
  fm_agent_session_id : option AgentSessionId;
  fm_agent_name : option string;
  fm_task_id : option string;
  fm_updated_at_ms : option N;
  fm_promoted_from : option string;
  fm_supersedes : option (list string);
  fm_tags : option (list string);
  fm_status : option MemoryStatus
}.

(** [MemoryFrontmatter::default()]. *)
Definition default_frontmatter : MemoryFrontmatter :=
  mkMemoryFrontmatter None None None None None None None None None None None None None.

(** [serde_yaml::from_str], and the RFC 3339 text of a time stamp in milliseconds
    ([OffsetDateTime::from_unix_timestamp_nanos] and [format]; [None] when either fails). *)
Class MemoryText := {
  yaml_frontmatter : string -> result MemoryFrontmatter string;
  rfc3339_ms : N -> option string
}.

(* crates/memory/src/corpus.rs, ParsedFrontmatter *)
Record ParsedFrontmatter := mkParsedFrontmatter {
  pf_body_start_line : nat;
  pf_frontmatter : option MemoryFrontmatter
}.

(** The lines before the closing [---], and whether it was found. *)
(* crates/memory/src/corpus.rs, parse_frontmatter@for line in text.lines().skip(1) *)
Fixpoint yaml_lines (lines : list string) : list string * bool :=
  match lines with
  | [] => ([], false)
  | line :: rest =>
      if String.eqb (trim line) "---" then ([], true)
      else let '(ls, closed) := yaml_lines rest in (line :: ls, closed)
  end.

Definition has_frontmatter (text : string) : bool :=
  starts_with text ("---" +:+ nl) || String.eqb (trim text) "---".

(* crates/memory/src/corpus.rs, parse_lines *)
Definition parse_lines (text : string) : list string := if str_is_empty text then [] else str_lines text.

Section Parsing.
Context {M : MemoryText}.

(* crates/memory/src/corpus.rs, parse_frontmatter *)
Definition parse_frontmatter (text : string) : result ParsedFrontmatter MemoryError :=
  if negb (has_frontmatter text) then Ok (mkParsedFrontmatter 1 None)
  else
    let '(ls, closed) := yaml_lines (tail (str_lines text)) in
    if negb closed then Ok (mkParsedFrontmatter 1 None)
    else
      let encoded := str_join nl ls in
      frontmatter <-?
        (if str_is_empty (trim encoded) then Ok default_frontmatter
         else match yaml_frontmatter encoded with
              | Ok f => Ok f
              | Err error => Err (MemErr_InvalidInput ("failed to parse memory frontmatter: " +:+ error))
              end);
      Ok (mkParsedFrontmatter (S (S (S (length ls)))) (Some frontmatter)).

(** A record that differs from the default in scope and layer. *)
Definition placed (scope : MemoryScope) (layer : string) : MemoryDocumentMetadata :=
  mkMemoryMetadata scope None None layer None None None None None None [] [] Status_Ready.
Definition placed_tagged scope layer tags : MemoryDocumentMetadata :=
  mkMemoryMetadata scope None None layer None None None None None None [] tags Status_Ready.
Definition placed_session scope layer id : MemoryDocumentMetadata :=
  mkMemoryMetadata scope None None layer (Some id) None None None None None [] [] Status_Ready.
Definition placed_agent_session scope layer id : MemoryDocumentMetadata :=
  mkMemoryMetadata scope None None layer None (Some id) None None None None [] [] Status_Ready.
Definition placed_agent scope layer name : MemoryDocumentMetadata :=
  mkMemoryMetadata scope None None layer None None (Some name) None None None [] [] Status_Ready.
Definition placed_task scope layer id : MemoryDocumentMetadata :=
  mkMemoryMetadata scope None None layer None None None (Some id) None None [] [] Status_Ready.

(** The chain of tests on a managed note named [stem]. *)
(* crates/memory/src/corpus.rs, infer_metadata_from_path@if let Some(stem) = file_stem(path) *)
Definition infer_managed (path stem : string) : option MemoryDocumentMetadata :=
  if starts_with path ".nanoclaw/memory/procedural/" then Some (placed Scope_Procedural "managed-procedural")
  else if starts_with path ".nanoclaw/memory/semantic/" then Some (placed Scope_Semantic "managed-semantic")
  else if starts_with path ".nanoclaw/memory/episodic/sessions/" then
    Some (placed_session Scope_Episodic "runtime-session" stem)
  else if starts_with path ".nanoclaw/memory/episodic/agent-sessions/" then
    Some (placed_agent_session Scope_Episodic "runtime-agent-session" stem)
  else if starts_with path ".nanoclaw/memory/episodic/subagents/" then
    Some (placed_agent Scope_Episodic "runtime-subagent" stem)
  else if starts_with path ".nanoclaw/memory/episodic/tasks/" then
    Some (placed_task Scope_Episodic "runtime-task" stem)
  else if starts_with path ".nanoclaw/memory/working/agent-sessions/" then
    Some (placed_agent_session Scope_Working "working-agent-session" stem)
  else if starts_with path ".nanoclaw/memory/working/sessions/" then
    Some (placed_session Scope_Working "working-session" stem)
  else if starts_with path ".nanoclaw/memory/working/tasks/" then
    Some (placed_task Scope_Working "working-task" stem)
  else if starts_with path ".nanoclaw/memory/coordination/plans/" then
    Some (placed_task Scope_Working "coordination-plan" stem)
  else if starts_with path ".nanoclaw/memory/coordination/claims/" then
    Some (placed_task Scope_Working "coordination-claim" stem)
  else if starts_with path ".nanoclaw/memory/coordination/handoffs/" then
    Some (placed_task Scope_Working "coordination-handoff" stem)
  else None.

(* crates/memory/src/corpus.rs, infer_metadata_from_path *)
Definition infer_metadata_from_path (path : string) : MemoryDocumentMetadata :=
  if String.eqb path ".nanoclaw/memory/MEMORY.md" then
    placed_tagged Scope_Semantic "auto-memory-index" ["auto-memory"]
  else if String.eqb path "MEMORY.md" then placed Scope_Semantic "curated"
  else if String.eqb path "AGENTS.md" then placed_tagged Scope_Procedural "project-instructions" ["instructions"]
  else if ends_with path "/AGENTS.md" then placed_tagged Scope_Procedural "path-instructions" ["instructions"]
  else match file_stem path ≫= infer_managed path with
       | Some metadata => metadata
       | None =>
           if is_daily_log_path path then placed Scope_Episodic "daily-log"
           else if starts_with path "memory/" then placed Scope_Semantic "workspace-note"
           else placed Scope_Semantic "workspace-extra"
       end.

Definition over {A} (new old : option A) : option A := match new with Some _ => new | None => old end.

(* crates/memory/src/corpus.rs, merge_metadata *)
Definition merge_metadata (inferred : MemoryDocumentMetadata) (frontmatter : option MemoryFrontmatter)
    (modified_at_ms : option N) : MemoryDocumentMetadata :=
  let inferred :=
    match frontmatter with
    | None => inferred
    | Some f =>
        mkMemoryMetadata
          (default (mm_scope inferred) (fm_scope f))
          (over (fm_memory_type f) (mm_memory_type inferred))
          (over (normalize_optional (fm_description f)) (mm_description inferred))
          (default (mm_layer inferred) (normalize_optional (fm_layer f)))
          (over (fm_session_id f) (mm_session_id inferred))
          (over (fm_agent_session_id f) (mm_agent_session_id inferred))
          (over (normalize_optional (fm_agent_name f)) (mm_agent_name inferred))
          (over (normalize_optional (fm_task_id f)) (mm_task_id inferred))
          (over (fm_updated_at_ms f) (mm_updated_at_ms inferred))
          (over (normalize_optional (fm_promoted_from f)) (mm_promoted_from inferred))
          (match fm_supersedes f with Some l => normalize_string_list l | None => mm_supersedes inferred end)
          (match fm_tags f with Some l => normalize_string_list l | None => mm_tags inferred end)
          (default (mm_status inferred) (fm_status f))
    end in
  let 'mkMemoryMetadata sc ty de la si ai an ti up pr su ta st := inferred in
  mkMemoryMetadata sc ty de la si ai an ti (over up modified_at_ms) pr su ta st.

(* crates/memory/src/corpus.rs, extract_title *)
Definition extract_title (lines : list string) (body_start_line : nat) (path : string) : string :=
  match find_map (fun line => strip_prefix "# " (trim line) ≫= trimmed_non_empty)
          (drop (body_start_line - 1) lines) with
  | Some title => title
  | None => default path (file_stem path)
  end.

(* crates/memory/src/corpus.rs, parse_memory_text *)
Definition parse_memory_text (path text : string) (updated_at_ms : option N)
    : result (MemoryDocumentMetadata * string) MemoryError :=
  let lines := parse_lines text in
  parsed <-? parse_frontmatter text;
  Ok (merge_metadata (infer_metadata_from_path path) (pf_frontmatter parsed) updated_at_ms,
      extract_title lines (pf_body_start_line parsed) path).

(* crates/memory/src/managed_files.rs, format_timestamp_ms *)
Definition format_timestamp_ms (timestamp_ms : N) : string :=
  default (fmt_N timestamp_ms) (rfc3339_ms timestamp_ms).

End Parsing.

(** ** The text of a managed file *)

Definition opt_line {A} (key : string) (show : A -> string) (value : option A) : list string :=
  match value with Some v => [key +:+ ": " +:+ show v] | None => [] end.
Definition list_lines (key : string) (entries : list string) : list string :=
  match entries with [] => [] | _ => (key +:+ ":") :: map (fun e => "  - " +:+ e) entries end.

(** The lines between the two [---]. *)
(* crates/memory/src/managed_files.rs, render_memory_markdown@let mut out = vec![ *)
Definition frontmatter_lines (m : MemoryDocumentMetadata) : list string :=
  ["scope: " +:+ scope_as_str (mm_scope m)]
  ++ opt_line "type" mtype_as_str (mm_memory_type m)
  ++ opt_line "description" id (mm_description m)
  ++ ["layer: " +:+ mm_layer m; "status: " +:+ mstatus_as_str (mm_status m)]
  ++ opt_line "session_id" id (mm_session_id m)
  ++ opt_line "agent_session_id" id (mm_agent_session_id m)
  ++ opt_line "agent_name" id (mm_agent_name m)
  ++ opt_line "task_id" id (mm_task_id m)
  ++ opt_line "updated_at_ms" fmt_N (mm_updated_at_ms m)
  ++ opt_line "promoted_from" id (mm_promoted_from m)
  ++ list_lines "supersedes" (mm_supersedes m)
  ++ list_lines "tags" (mm_tags m).

(** The last test of the code, [trimmed_body.ends_with('\n')], is of a trimmed text. *)
(* crates/memory/src/managed_files.rs, render_memory_markdown *)
Definition render_memory_markdown (title body : string) (metadata : MemoryDocumentMetadata) : string :=
  let trimmed_body := trim body in
  str_join nl
    (["---"] ++ frontmatter_lines metadata ++ ["---"; ""]
     ++ (if str_is_empty trimmed_body then ["# " +:+ title; ""]
         else trimmed_body :: (if ends_with trimmed_body nl then [] else [""])))%list.

(* crates/memory/src/managed_files.rs, strip_frontmatter *)
Definition strip_frontmatter (text : string) : string :=
  if negb (has_frontmatter text) then trim text
  else
    let lines := tail (str_lines text) in
    let '(yaml, closed) := yaml_lines lines in
    if closed then trim (str_join nl (drop (S (length yaml)) lines)) else trim text.

(* crates/memory/src/managed_files.rs, append_section *)
Definition append_section (existing_body document_title heading content : string) : string :=
  (if str_is_empty (trim existing_body) then "# " +:+ document_title else trim existing_body)
  +:+ nl +:+ nl +:+ heading +:+ nl +:+ nl +:+ trim content.

(** *** Daily logs *)

(** [trimmed] without its bullet or number. *)
Definition bullet_body (trimmed : string) : option string :=
  let bullet :=
    match strip_prefix "- " trimmed with
    | Some b => Some b
    | None => match strip_prefix "* " trimmed with Some b => Some b | None => strip_prefix "+ " trimmed end
    end in
  match bullet with
  | Some b => Some b
  | None =>
      match split_first ". " trimmed with
      | Some (prefix, rest) => if ascii_digits (String.length prefix) prefix then Some rest else None
      | None => None
      end
  end.

(** One line of the content; the state is the finished entries and the lines of the
    current one. *)
(* crates/memory/src/managed_files.rs, normalize_daily_log_entries@for line in content.lines() *)
Definition daily_log_line (st : list string * list string) (line : string) : list string * list string :=
  let '(entries, current) := st in
  let trimmed := trim line in
  if str_is_empty trimmed then (entries, current)
  else match bullet_body trimmed with
       | Some body =>
           match current with
           | [] => (entries, [trim body])
           | _ => (entries ++ [str_join nl current], [trim body])
           end
       | None => (entries, current ++ [trimmed])
       end.

(* crates/memory/src/managed_files.rs, normalize_daily_log_entries *)
Definition normalize_daily_log_entries (content : string) : list string :=
  let '(entries, current) := foldl daily_log_line ([], []) (str_lines content) in
  match current with [] => entries | _ => (entries ++ [str_join nl current])%list end.

Section DailyLog.
Context {M : MemoryText}.

(* crates/memory/src/managed_files.rs, render_daily_log_entry *)
Definition render_daily_log_entry (timestamp_ms : N) (entry : string) : string :=
  let normalized_lines := omap trimmed_non_empty (str_lines entry) in
  let first_line := default "[empty daily log entry]" (head normalized_lines) in
  foldl (fun rendered line => rendered +:+ nl +:+ "  " +:+ line)
    ("- " +:+ format_timestamp_ms timestamp_ms +:+ " — " +:+ first_line) (drop 1 normalized_lines).

(* crates/memory/src/managed_files.rs, append_daily_log_entries *)
Definition append_daily_log_entries (existing_body document_title : string) (timestamp_ms : N)
    (entries : list string) : string :=
  foldl (fun body entry => body +:+ nl +:+ nl +:+ render_daily_log_entry timestamp_ms entry)
    (if str_is_empty (trim existing_body) then "# " +:+ document_title else trim existing_body) entries.

End DailyLog.

(** ** Where a record goes *)

(* crates/memory/src/corpus.rs, stable_hash *)
Definition stable_hash `{Sha256} (value : string) : string :=
  str_join "" (map hex_byte (take 6 (sha256_digest value))).

(* crates/memory/src/managed_files.rs, stable_memory_slug *)
Definition stable_memory_slug `{Sha256} (value prefix : string) : string :=
  let slug := slugify value in
  if str_is_empty slug then prefix +:+ "-" +:+ substring 0 12 (stable_hash (trim value)) else slug.

(** [OffsetDateTime::now_utc().date()]: the year, the month and the date's text. *)
Record Today := mkToday { td_year : N; td_month : N; td_text : string }.

(** [format!("{:0width$}")]. *)
Fixpoint zeros (n : nat) : string := match n with O => "" | S n => String "0" (zeros n) end.
Definition zero_pad (width : nat) (n : N) : string := zeros (width - String.length (fmt_N n)) +:+ fmt_N n.

(* crates/memory/src/managed_files.rs, RecordTarget *)
Record RecordTarget := mkRecordTarget {
  rt_relative_path : string;
  rt_layer : string;
  rt_document_title : string
}.

(** The directory and the layer of a coordination collection. *)
Definition coordination_root (collection : string) : option (string * string) :=
  if String.eqb collection "plans" then Some (".nanoclaw/memory/coordination/plans", "coordination-plan")
  else if String.eqb collection "claims" then Some (".nanoclaw/memory/coordination/claims", "coordination-claim")
  else if String.eqb collection "handoffs" then
    Some (".nanoclaw/memory/coordination/handoffs", "coordination-handoff")
  else None.

(* crates/memory/src/managed_files.rs, resolve_record_target@MemoryScope::Working => { *)
Definition resolve_working_target `{Sha256} (request : MemoryRecordRequest) (session_id : option SessionId)
    (agent_session_id : option AgentSessionId) : result RecordTarget MemoryError :=
  let collection := default "agent-session" (normalize_optional (mr_layer request)) in
  match coordination_root collection with
  | Some (root, layer) =>
      let slug_source :=
        match mr_task_id request with
        | Some id => if str_is_empty (trim id) then mr_title request else id
        | None => mr_title request
        end in
      let slug := slugify slug_source in
      if str_is_empty slug then
        Err (MemErr_InvalidInput ("working coordination memory requires a non-empty " +:+ bt +:+ "title" +:+ bt
               +:+ " or " +:+ bt +:+ "task_id" +:+ bt))
      else Ok (mkRecordTarget (root +:+ "/" +:+ slug +:+ ".md") layer (trim (mr_title request)))
  | None =>
      if existsb (String.eqb collection) ["session"; "sessions"; "session-continuation"] then
        match session_id with
        | None => Err (MemErr_InvalidInput ("working session memory record requires " +:+ bt +:+ "session_id" +:+ bt))
        | Some id => Ok (mkRecordTarget (".nanoclaw/memory/working/sessions/" +:+ id +:+ ".md") "working-session"
                           ("Session " +:+ id))
        end
      else
        match normalize_optional (mr_task_id request) with
        | Some task_id =>
            Ok (mkRecordTarget (".nanoclaw/memory/working/tasks/" +:+ stable_memory_slug task_id "task" +:+ ".md")
                  "working-task" ("Task " +:+ task_id))
        | None =>
            if negb (String.eqb collection "agent-session") then
              Err (MemErr_InvalidInput ("working memory layer must be one of " +:+ bt +:+ "session" +:+ bt +:+ ", "
                     +:+ bt +:+ "agent-session" +:+ bt +:+ ", or empty unless " +:+ bt +:+ "task_id" +:+ bt
                     +:+ " is present"))
            else
              match agent_session_id with
              | None => Err (MemErr_InvalidInput ("working memory record requires " +:+ bt +:+ "agent_session_id"
                               +:+ bt +:+ " or " +:+ bt +:+ "task_id" +:+ bt))
              | Some id => Ok (mkRecordTarget (".nanoclaw/memory/working/agent-sessions/" +:+ id +:+ ".md")
                                 "working-agent-session" ("Session " +:+ id))
              end
        end
  end.

(* crates/memory/src/managed_files.rs, resolve_record_target *)
Definition resolve_record_target `{Sha256} (today : Today) (request : MemoryRecordRequest)
    (session_id : option SessionId) (agent_session_id : option AgentSessionId)
    : result RecordTarget MemoryError :=
  match mr_scope request with
  | Scope_Working => resolve_working_target request session_id agent_session_id
  | Scope_Episodic =>
      let collection := default "daily-log" (normalize_optional (mr_layer request)) in
      if existsb (String.eqb collection) ["daily-log"; "daily"; "log"; "logs"] then
        Ok (mkRecordTarget (".nanoclaw/memory/episodic/logs/" +:+ zero_pad 4 (td_year today) +:+ "/"
                              +:+ zero_pad 2 (td_month today) +:+ "/" +:+ td_text today +:+ ".md")
              "daily-log" ("Daily Log " +:+ td_text today))
      else Err (MemErr_InvalidInput ("episodic memory layer must be " +:+ bt +:+ "daily-log" +:+ bt +:+ " or empty"))
  | Scope_Procedural | Scope_Semantic =>
      Err (MemErr_InvalidInput ("memory_record currently supports working memories (including " +:+ bt +:+ "plans"
             +:+ bt +:+ "/" +:+ bt +:+ "claims" +:+ bt +:+ "/" +:+ bt +:+ "handoffs" +:+ bt
             +:+ " layers) or episodic daily-log memories"))
  end.
