(* ===== verification/MemoryOps.v ===== *)
(** * Recording, promoting and forgetting memories

    Models [crates/memory/src/managed_files.rs] ([record_memory], [load_managed_memory_file],
    [write_memory_file]), [promotion.rs], [retention.rs] and [auto_index.rs] over the disk of
    [PathPolicy].  [MemoryDisk] adds the metadata of a file and the walk of the state
    directory.  A mutex per file guards the section of [record_memory] from the load to the
    write, and the write alone in [write_memory_file]; an operation here is one uninterrupted
    run, and [set_memory_status] is composed of the load and the write between which another
    operation may run. *)

From Stdlib Require Import Ascii String.
From stdpp Require Import base list gmap sorting strings.
From Stdlib Require Import Lia.
From S2P Require Import Prelude Text Message Errors TextBuffer WriteLease SandboxPolicy Tools PathPolicy.
From S2P Require Import StoreSearch FileQueries MemoryFiles.

(** [std::fs::Metadata]; the time of modification is the time since the epoch in
    nanoseconds, [None] where the platform has none or it is before the epoch. *)
Record FileMetadata := mkFileMetadata {
  fmd_is_file : bool;
  fmd_is_dir : bool;
  fmd_len : N;
  fmd_modified_ns : option N
}.

(** [fs::metadata], and the walk of [discover_markdown_paths]: the paths under a directory
    with whether each is a regular file. *)
Class MemoryDisk (D : Disk) := {
  disk_metadata : DiskState -> PathBuf -> result FileMetadata IoError;
  walk_managed : DiskState -> PathBuf -> list (PathBuf * bool)
}.

(** The times at which one operation reads the clock. *)
Record MemoryClock := mkMemoryClock {
  mc_now_ms : N;
  mc_today : Today;
  mc_index_ms : N;
  mc_status_ms : N;
  mc_status_index_ms : N
}.

(* crates/memory/src/managed_files.rs, ManagedMemoryFile *)
Record ManagedMemoryFile := mkManagedMemoryFile {
  mmf_path : string;
  mmf_title : string;
  mmf_body : string;
  mmf_metadata : MemoryDocumentMetadata
}.

(* crates/memory/src/managed_files.rs, resolve_workspace_path *)
Definition resolve_workspace_path (workspace_root : PathBuf) (relative_path : string) : result PathBuf MemoryError :=
  let absolute_path := path_join workspace_root (path_of_string relative_path) in
  if negb (path_starts_with absolute_path workspace_root) then Err (MemErr_PathOutsideWorkspace relative_path)
  else Ok absolute_path.

(** Milliseconds of a duration in nanoseconds, at most [u64::MAX]. *)
Definition capped_millis (ns : N) : N := N.min (ns / 1000000) u64_max.

(** ** The index of the state directory *)

(* crates/memory/src/auto_index.rs, AutoMemoryIndexEntry *)
Record AutoMemoryIndexEntry := mkAutoMemoryIndexEntry {
  ai_path : string;
  ai_title : string;
  ai_metadata : MemoryDocumentMetadata
}.

(* crates/memory/src/auto_index.rs, MAX_AUTO_INDEX_LINES *)
Definition MAX_AUTO_INDEX_LINES : nat := 200.
(* crates/memory/src/auto_index.rs, MAX_AUTO_INDEX_BYTES *)
Definition MAX_AUTO_INDEX_BYTES : N := 25000.
(* crates/memory/src/auto_index.rs, MAX_INDEX_HOOK_CHARS *)
Definition MAX_INDEX_HOOK_CHARS : nat := 120.
(* crates/memory/src/state.rs, MEMORY_AUTO_INDEX_RELATIVE *)
Definition MEMORY_AUTO_INDEX_RELATIVE : string := ".nanoclaw/memory/MEMORY.md".

Definition scope_rank (s : MemoryScope) : nat :=
  match s with Scope_Procedural => 0 | Scope_Semantic => 1 | Scope_Episodic => 2 | Scope_Working => 3 end.
Definition option_N_compare (a b : option N) : comparison :=
  match a, b with
  | None, None => Eq | None, Some _ => Lt | Some _, None => Gt | Some x, Some y => N.compare x y
  end.

(* crates/memory/src/auto_index.rs, collect_auto_memory_entries@entries.sort_by *)
Definition compare_index_entry (left right : AutoMemoryIndexEntry) : comparison :=
  then_with (Nat.compare (scope_rank (mm_scope (ai_metadata left))) (scope_rank (mm_scope (ai_metadata right))))
  (then_with (option_N_compare (mm_updated_at_ms (ai_metadata right)) (mm_updated_at_ms (ai_metadata left)))
     (String.compare (ai_path left) (ai_path right))).
Definition index_entry_le (left right : AutoMemoryIndexEntry) : Prop := compare_index_entry left right <> Gt.
#[global] Instance index_entry_le_dec left right : Decision (index_entry_le left right).
Proof. unfold index_entry_le. apply _. Defined.

(** The order of [PathBuf]: by components. *)
Fixpoint path_compare (p q : PathBuf) : comparison :=
  match p, q with
  | [], [] => Eq | [], _ => Lt | _, [] => Gt
  | c :: p, d :: q => then_with (String.compare c d) (path_compare p q)
  end.
Definition path_le (p q : PathBuf) : Prop := path_compare p q <> Gt.
#[global] Instance path_le_dec p q : Decision (path_le p q).
Proof. unfold path_le. apply _. Defined.

(* crates/memory/src/auto_index.rs, managed_memory_link *)
Definition managed_memory_link (path : string) : string := default path (strip_prefix ".nanoclaw/memory/" path).

(* crates/memory/src/auto_index.rs, entry_hook *)
Definition entry_hook (entry : AutoMemoryIndexEntry) : string :=
  match mm_description (ai_metadata entry) with
  | Some description => description
  | None =>
      match mm_memory_type (ai_metadata entry) with
      | Some MType_User => "user profile and collaboration context"
      | Some MType_Feedback => "validated guidance about how to approach future work"
      | Some MType_Project => "project context that is not derivable from the code"
      | Some MType_Reference => "pointer to external context worth checking"
      | None =>
          match mm_scope (ai_metadata entry) with
          | Scope_Procedural => "durable procedural guidance"
          | Scope_Semantic => "durable project memory"
          | Scope_Episodic => "runtime-derived episodic note"
          | Scope_Working =>
              if starts_with (mm_layer (ai_metadata entry)) "coordination-"
              then "coordination state shared across agents" else "active working note for the current task"
          end
      end
  end.

(* crates/memory/src/auto_index.rs, truncate_hook *)
Definition truncate_hook (hook : string) (max_chars : nat) : string :=
  let trimmed := trim hook in
  if (chars_count trimmed <=? max_chars)%nat then trimmed else take_chars (max_chars - 1) trimmed +:+ "…".

(* crates/memory/src/auto_index.rs, render_durable_hook_line *)
Definition render_durable_hook_line (entry : AutoMemoryIndexEntry) : string :=
  "- [" +:+ ai_title entry +:+ "](" +:+ managed_memory_link (ai_path entry) +:+ ") — "
  +:+ truncate_hook (entry_hook entry) MAX_INDEX_HOOK_CHARS.

(** [iter.max_by_key(key)]: the last of the greatest. *)
Definition max_by_key {A} (key : A -> N) (l : list A) : option A :=
  foldl (fun best x => match best with
                       | Some b => if (key b <=? key x)%N then Some x else best
                       | None => Some x
                       end) None l.

Section Index.
Context {M : MemoryText}.

(* crates/memory/src/auto_index.rs, format_timestamp_ms *)
Definition index_timestamp (updated_at_ms : option N) : string :=
  match updated_at_ms with Some ms => format_timestamp_ms ms | None => "unknown" end.

(** The line pushed. *)
(* crates/memory/src/auto_index.rs, push_runtime_scope_summary *)
Definition runtime_scope_summary (entries : list AutoMemoryIndexEntry) (scope : MemoryScope) (label : string)
    : string :=
  let scoped := List.filter (fun e => bool_decide (mm_scope (ai_metadata e) = scope)) entries in
  match max_by_key (fun e => default 0%N (mm_updated_at_ms (ai_metadata e))) scoped with
  | Some latest =>
      "- " +:+ label +:+ ": " +:+ fmt_nat (length scoped) +:+ " notes, latest [" +:+ ai_title latest +:+ "]("
      +:+ managed_memory_link (ai_path latest) +:+ ") — " +:+ truncate_hook (entry_hook latest) MAX_INDEX_HOOK_CHARS
      +:+ " (" +:+ match mm_memory_type (ai_metadata latest) with Some t => mtype_as_str t | None => "runtime" end
      +:+ ", updated " +:+ index_timestamp (mm_updated_at_ms (ai_metadata latest)) +:+ ")"
  | None => "- " +:+ label +:+ ": 0 notes"
  end.

End Index.

Definition overflow_note : string :=
  "> Additional entries were omitted to keep this index concise. Use " +:+ bt +:+ "memory_list" +:+ bt
  +:+ " for the full inventory.".

Definition byte_length (s : string) : N := N.of_nat (String.length s).

Definition tentative_index (lines : list string) : string :=
  str_join nl lines
  +:+ (match last lines with Some "" => nl | _ => nl +:+ nl end) +:+ overflow_note.

(** The [while !lines.is_empty()] loop; the lines are given last first. *)
(* crates/memory/src/auto_index.rs, finalize_index@while !lines.is_empty() *)
Fixpoint shrink_index (reversed : list string) : string :=
  match reversed with
  | [] => overflow_note
  | _ :: shorter =>
      let tentative := tentative_index (rev reversed) in
      if (byte_length tentative <=? MAX_AUTO_INDEX_BYTES)%N then tentative else shrink_index shorter
  end.

(* crates/memory/src/auto_index.rs, finalize_index *)
Definition finalize_index (lines : list string) : string :=
  if (length lines <=? MAX_AUTO_INDEX_LINES)%nat && (byte_length (str_join nl lines) <=? MAX_AUTO_INDEX_BYTES)%N
  then str_join nl lines
  else shrink_index (rev (take (MAX_AUTO_INDEX_LINES - 2) lines)).

(* crates/memory/src/auto_index.rs, render_auto_memory_index *)
Definition render_auto_memory_index `{MemoryText} (entries : list AutoMemoryIndexEntry) : string :=
  let durable := List.filter (fun e =>
    (bool_decide (mm_scope (ai_metadata e) = Scope_Procedural) || bool_decide (mm_scope (ai_metadata e) = Scope_Semantic))
    && negb (String.eqb (mm_layer (ai_metadata e)) "auto-memory-index")) entries in
  finalize_index
    (["# Managed Memory Index"; "";
      "This file is generated from " +:+ bt +:+ ".nanoclaw/memory/" +:+ bt
      +:+ " and should stay as a concise map of durable memories."; "";
      "## Durable Memory"; ""]
     ++ match durable with
        | [] => ["- No durable memories yet."]
        | _ => map render_durable_hook_line durable
        end
     ++ [""; "## Runtime Memory Summary"; "";
         runtime_scope_summary entries Scope_Episodic "Episodic";
         runtime_scope_summary entries Scope_Working "Working"; ""])%list.

(** ** Operations on the disk *)

Section Operations.
Context {D : Disk} {K : MemoryDisk D} {M : MemoryText} {Sh : Sha256}.

(** An operation that may fail and changes the disk. *)
Definition DiskOp (A : Type) : Type := DiskState -> result A MemoryError * DiskState.
Definition op_ret {A} (a : A) : DiskOp A := fun d => (Ok a, d).
Definition op_result {A} (r : result A MemoryError) : DiskOp A := fun d => (r, d).
Definition op_bind {A B} (m : DiskOp A) (k : A -> DiskOp B) : DiskOp B := fun d =>
  match m d with (Ok a, d') => k a d' | (Err e, d') => (Err e, d') end.
Local Notation "x <-$ m ; k" := (op_bind m (fun x => k)) (at level 20, m at level 100, k at level 200, right associativity).

Definition op_create_dir_all (p : PathBuf) : DiskOp unit := fun d =>
  let '(r, d') := disk_create_dir_all d p in
  (match r with Ok _ => Ok tt | Err e => Err (MemErr_Io (Io_Other e)) end, d').
Definition op_write (p : PathBuf) (content : string) : DiskOp unit := fun d =>
  let '(r, d') := disk_write d p content in
  (match r with Ok _ => Ok tt | Err e => Err (MemErr_Io (Io_Other e)) end, d').
Definition op_create_parent (p : PathBuf) : DiskOp unit :=
  match path_parent p with Some parent => op_create_dir_all parent | None => op_ret tt end.

Definition mem_io {A} (r : result A IoError) : result A MemoryError :=
  match r with Ok a => Ok a | Err e => Err (MemErr_Io e) end.

(* crates/memory/src/managed_files.rs, file_timestamp_ms *)
Definition file_timestamp_ms (d : DiskState) (path : PathBuf) : result (option N) MemoryError :=
  metadata <-? mem_io (disk_metadata d path);
  Ok (capped_millis <$> fmd_modified_ns metadata).

(* crates/memory/src/managed_files.rs, load_managed_memory_file *)
Definition load_managed_memory_file (workspace_root : PathBuf) (relative_path : string) (d : DiskState)
    : result ManagedMemoryFile MemoryError :=
  absolute_path <-? resolve_workspace_path workspace_root relative_path;
  text <-? mem_io (disk_read d absolute_path);
  modified_at_ms <-? file_timestamp_ms d absolute_path;
  parsed <-? parse_memory_text relative_path text modified_at_ms;
  Ok (mkManagedMemoryFile relative_path parsed.2 (strip_frontmatter text) parsed.1).

(* crates/memory/src/managed_files.rs, write_memory_file_resolved *)
Definition write_memory_file_resolved (resolved : ResolvedStatePath) (title body : string)
    (metadata : MemoryDocumentMetadata) (action : string) : DiskOp MemoryMutationResponse :=
  _ <-$ op_create_parent (rsp_absolute resolved);
  let encoded := render_memory_markdown title body metadata in
  _ <-$ op_write (rsp_absolute resolved) encoded;
  op_ret (mkMemoryMutationResponse action (path_display (rsp_relative resolved)) (stable_hash encoded) metadata).

(** *** The index *)

(* crates/memory/src/auto_index.rs, discover_markdown_paths *)
Definition discover_markdown_paths (d : DiskState) (root_dir : PathBuf) : list PathBuf :=
  merge_sort path_le
    (List.filter (fun p => match path_extension p with
                           | Some ext => String.eqb (to_ascii_lowercase ext) "md"
                           | None => false
                           end)
       (map fst (List.filter snd (walk_managed d root_dir)))).

(** [strip_prefix(workspace_root).expect(..)] and [normalize_relative_path]: the walk of
    [root_dir] gives paths under it. *)
(* crates/memory/src/auto_index.rs, normalize_relative_path *)
Definition normalize_relative_path (workspace_root path : PathBuf) : string :=
  str_join "/" (drop (length workspace_root) path).

(* crates/memory/src/auto_index.rs, collect_auto_memory_entries *)
Definition collect_auto_memory_entries (d : DiskState) (workspace_root root_dir : PathBuf)
    : result (list AutoMemoryIndexEntry) MemoryError :=
  entries <-? map_result (fun absolute_path =>
    let relative := normalize_relative_path workspace_root absolute_path in
    if String.eqb relative MEMORY_AUTO_INDEX_RELATIVE then Ok None
    else
      text <-? mem_io (disk_read d absolute_path);
      modified_at_ms <-? file_timestamp_ms d absolute_path;
      parsed <-? parse_memory_text relative text modified_at_ms;
      Ok (Some (mkAutoMemoryIndexEntry relative parsed.2 parsed.1)))
    (discover_markdown_paths d root_dir);
  Ok (merge_sort index_entry_le (omap id entries)).

Definition index_metadata (now_ms : N) : MemoryDocumentMetadata :=
  mkMemoryMetadata Scope_Semantic None (Some "Index of durable auto memories and transient memory summaries.")
    "auto-memory-index" None None None None (Some now_ms) None [] ["auto-memory"] Status_Ready.

(* crates/memory/src/auto_index.rs, refresh_auto_memory_index *)
Definition refresh_auto_memory_index (workspace_root : PathBuf) (now_ms : N) : DiskOp unit :=
  let root_dir := path_join workspace_root memory_root in
  _ <-$ op_create_dir_all root_dir;
  entries <-$ (fun d => (collect_auto_memory_entries d workspace_root root_dir, d));
  let rendered := render_auto_memory_index entries in
  resolved <-$ op_result (resolve_managed_memory_path workspace_root MEMORY_AUTO_INDEX_RELATIVE);
  _ <-$ op_create_parent (rsp_absolute resolved);
  op_write (rsp_absolute resolved)
    (render_memory_markdown "Managed Memory Index" rendered (index_metadata now_ms)).

(* crates/memory/src/managed_files.rs, write_memory_file *)
Definition write_memory_file (workspace_root : PathBuf) (relative_path title body : string)
    (metadata : MemoryDocumentMetadata) (action : string) (index_ms : N) : DiskOp MemoryMutationResponse :=
  resolved <-$ op_result (resolve_managed_memory_path workspace_root relative_path);
  response <-$ write_memory_file_resolved resolved title body metadata action;
  _ <-$ refresh_auto_memory_index workspace_root index_ms;
  op_ret response.

(** *** Recording *)

Definition or_option {A} (a b : option A) : option A := match a with Some _ => a | None => b end.

(** The metadata of the file after a record. *)
(* crates/memory/src/managed_files.rs, record_memory@let mut metadata = existing *)
Definition recorded_metadata (request : MemoryRecordRequest) (existing : option ManagedMemoryFile) (layer : string)
    (session_id : option SessionId) (agent_session_id : option AgentSessionId) (now_ms : N)
    : MemoryDocumentMetadata :=
  let metadata := default default_metadata (mmf_metadata <$> existing) in
  mkMemoryMetadata (mr_scope request)
    (or_option (mr_memory_type request) (mm_memory_type metadata))
    (or_option (normalize_optional (mr_description request)) (mm_description metadata))
    layer session_id agent_session_id
    (normalize_optional (mr_agent_name request)) (normalize_optional (mr_task_id request))
    (Some now_ms) (mm_promoted_from metadata) (mm_supersedes metadata)
    (merge_lists (default [] ((fun f => mm_tags (mmf_metadata f)) <$> existing)) (mr_tags request))
    Status_Ready.

(** The body of the file after a record, and the name of the action. *)
(* crates/memory/src/managed_files.rs, record_memory@let (body, action) = match *)
Definition recorded_body (request : MemoryRecordRequest) (existing_body : string) (target : RecordTarget) (now_ms : N)
    : result (string * string) MemoryError :=
  let section_heading := "## " +:+ trim (mr_title request) +:+ " [" +:+ format_timestamp_ms now_ms +:+ "]" in
  if String.eqb (rt_layer target) "daily-log" then
    match mr_mode request with
    | Mode_Replace => Err (MemErr_InvalidInput ("episodic daily-log records are append-only and do not support "
                             +:+ bt +:+ "replace" +:+ bt +:+ " mode"))
    | Mode_Append =>
        match normalize_daily_log_entries (mr_content request) with
        | [] => Err (MemErr_InvalidInput "episodic daily-log records require non-empty bullet content")
        | entries => Ok (append_daily_log_entries existing_body (rt_document_title target) now_ms entries, "recorded")
        end
    end
  else
    match mr_mode request with
    | Mode_Append =>
        Ok (append_section existing_body (rt_document_title target) section_heading (mr_content request), "recorded")
    | Mode_Replace =>
        Ok (append_section "" (rt_document_title target) section_heading (mr_content request), "replaced")
    end.

(** [.ok()]. *)
Definition result_ok {A E} (r : result A E) : option A := match r with Ok a => Some a | Err _ => None end.

(* crates/memory/src/managed_files.rs, record_memory *)
Definition record_memory (workspace_root : PathBuf) (request : MemoryRecordRequest)
    (default_session_id : option SessionId) (default_agent_session_id : option AgentSessionId)
    (clock : MemoryClock) : DiskOp MemoryMutationResponse :=
  let now_ms := mc_now_ms clock in
  let session_id := or_option (mr_session_id request) default_session_id in
  let agent_session_id := or_option (mr_agent_session_id request) default_agent_session_id in
  target <-$ op_result (resolve_record_target (mc_today clock) request session_id agent_session_id);
  resolved <-$ op_result (resolve_managed_memory_path workspace_root (rt_relative_path target));
  existing <-$ (fun d => (Ok (result_ok (load_managed_memory_file workspace_root (rt_relative_path target) d)), d));
  let metadata := recorded_metadata request existing (rt_layer target) session_id agent_session_id now_ms in
  recorded <-$ op_result (recorded_body request (default "" (mmf_body <$> existing)) target now_ms);
  response <-$ write_memory_file_resolved resolved (rt_document_title target) recorded.1 metadata recorded.2;
  _ <-$ refresh_auto_memory_index workspace_root (mc_index_ms clock);
  op_ret response.

(** *** Retention and promotion *)

Definition with_status (m : MemoryDocumentMetadata) (status : MemoryStatus) (now_ms : N) : MemoryDocumentMetadata :=
  let 'mkMemoryMetadata sc ty de la si ai an ti _ pr su ta _ := m in
  mkMemoryMetadata sc ty de la si ai an ti (Some now_ms) pr su ta status.

(** What [set_memory_status] does with the file it loaded. *)
(* crates/memory/src/retention.rs, set_memory_status@document.metadata.status = status *)
Definition write_status (workspace_root : PathBuf) (document : ManagedMemoryFile) (status : MemoryStatus)
    (action : string) (now_ms index_ms : N) : DiskOp MemoryMutationResponse :=
  write_memory_file workspace_root (mmf_path document) (mmf_title document) (mmf_body document)
    (with_status (mmf_metadata document) status now_ms) action index_ms.

(* crates/memory/src/retention.rs, set_memory_status *)
Definition set_memory_status (workspace_root : PathBuf) (path : string) (status : MemoryStatus) (action : string)
    (now_ms index_ms : N) : DiskOp MemoryMutationResponse :=
  document <-$ (fun d => (load_managed_memory_file workspace_root path d, d));
  write_status workspace_root document status action now_ms index_ms.

(* crates/memory/src/retention.rs, forget_memory *)
Definition forget_memory (workspace_root : PathBuf) (request : MemoryForgetRequest) (clock : MemoryClock)
    : DiskOp MemoryMutationResponse :=
  match mf_status request with
  | Status_Ready =>
      op_result (Err (MemErr_InvalidInput ("memory_forget requires " +:+ bt +:+ "stale" +:+ bt +:+ ", " +:+ bt
                        +:+ "superseded" +:+ bt +:+ ", or " +:+ bt +:+ "archived" +:+ bt +:+ " status")))
  | status => set_memory_status workspace_root (mf_path request) status "forgotten" (mc_status_ms clock)
                (mc_status_index_ms clock)
  end.

(** The directory and the default layer of a promotion. *)
Definition promotion_target (scope : MemoryScope) : option (string * string) :=
  match scope with
  | Scope_Procedural => Some (".nanoclaw/memory/procedural", "promoted-procedural")
  | Scope_Semantic => Some (".nanoclaw/memory/semantic", "promoted-semantic")
  | Scope_Episodic | Scope_Working => None
  end.

(* crates/memory/src/promotion.rs, promote_memory *)
Definition promote_memory (workspace_root : PathBuf) (request : MemoryPromoteRequest) (clock : MemoryClock)
    : DiskOp MemoryMutationResponse :=
  match promotion_target (mp_target_scope request) with
  | None => op_result (Err (MemErr_InvalidInput ("memory_promote target scope must be " +:+ bt +:+ "procedural" +:+ bt
                              +:+ " or " +:+ bt +:+ "semantic" +:+ bt)))
  | Some (target_root, default_layer) =>
      source <-$ (fun d => (load_managed_memory_file workspace_root (mp_source_path request) d, d));
      let target_slug := slugify (mp_title request) in
      if str_is_empty target_slug then
        op_result (Err (MemErr_InvalidInput ("memory_promote requires a non-empty " +:+ bt +:+ "title" +:+ bt)))
      else
        let target_path := target_root +:+ "/" +:+ target_slug +:+ ".md" in
        let layer := default default_layer (mp_layer request) in
        let body := if str_is_empty (trim (mp_content request)) then mmf_body source
                    else "# " +:+ trim (mp_title request) +:+ nl +:+ nl +:+ trim (mp_content request) in
        let metadata :=
          mkMemoryMetadata (mp_target_scope request)
            (or_option (mp_memory_type request) (mm_memory_type (mmf_metadata source)))
            (or_option (mp_description request) (mm_description (mmf_metadata source)))
            layer None None None None (Some (mc_now_ms clock)) (Some (mp_source_path request))
            [mp_source_path request] (merge_lists (mm_tags (mmf_metadata source)) (mp_tags request)) Status_Ready in
        response <-$ write_memory_file workspace_root target_path (trim (mp_title request)) body metadata "promoted"
                       (mc_index_ms clock);
        _ <-$ set_memory_status workspace_root (mp_source_path request) Status_Stale "staled" (mc_status_ms clock)
                (mc_status_index_ms clock);
        op_ret response
  end.

End Operations.
