(* ===== verification/MemoryProps.v ===== *)
(** * Properties of memory files

    Confinement of what the operations write, the round trip between the rendered file and
    its body, accumulation of recorded notes, the bound of the index, and the defects found:
    an unreadable note is treated as absent, a promotion is not atomic, and a change of
    status overwrites a record that ran since its load. *)

From Stdlib Require Import Ascii String.
From stdpp Require Import base list gmap sorting strings.
From Stdlib Require Import Lia.
From S2P Require Import Prelude Text Message Errors TextBuffer WriteLease SandboxPolicy Tools PathPolicy.
From S2P Require Import StoreSearch FileQueries Mutation PatchFilesProps MemoryFiles MemoryOps.

(** ** Confinement *)

(** A path under the state directory of [root], written without [..]. *)
Definition managed (root p : PathBuf) : Prop := exists rel, p = (root ++ memory_root ++ rel)%list /\ ".." ∉ rel.

Lemma path_starts_with_app (p root : PathBuf) : path_starts_with p root = true <-> exists rel, p = (root ++ rel)%list.
Proof.
  revert p. induction root as [|c root IH]; intros p; simpl.
  - split; [by exists p | by destruct p].
  - destruct p as [|d p]; simpl; [split; [done | by intros [? ?]]|]. rewrite andb_true_iff, String.eqb_eq, IH.
    split; [intros [-> [rel ->]]; by exists rel | intros [rel [= -> ->]]; split; eauto].
Qed.

Lemma path_join_memory root : path_join root memory_root = (root ++ memory_root)%list.
Proof. by destruct root. Qed.

Lemma reject_parent_ok p : reject_parent_components p = Ok tt -> ".." ∉ p.
Proof.
  unfold reject_parent_components. destruct (existsb _ p) eqn:E; [done|]. intros _ Hin.
  apply not_true_iff_false in E. apply E, existsb_exists. exists "..". by rewrite <- list_elem_of_In, String.eqb_refl.
Qed.

(** What the resolution accepts is a managed path; a relative path keeps its components. *)
Lemma resolve_managed_ok root s r : resolve_managed_memory_path root s = Ok r -> managed root (rsp_absolute r).
Proof.
  unfold resolve_managed_memory_path, resolve_path_within_state_root. set (c := path_of_string s). intros Hr.
  destruct (reject_parent_components c) as [[]|] eqn:Ep; [|done]. cbn [result_bind] in Hr. apply reject_parent_ok in Ep.
  set (a := if is_absolute c then c else path_join root c) in Hr.
  destruct (path_starts_with a root); [|done]. cbn [negb] in Hr. rewrite path_join_memory in Hr.
  destruct (path_starts_with a (root ++ memory_root)) eqn:Es; [|done]. cbn [negb] in Hr.
  injection Hr as <-. cbn [rsp_absolute]. apply path_starts_with_app in Es as [rel Hrel].
  exists rel. rewrite <- app_assoc in Hrel. split; [done|]. intros Hin. apply Ep.
  unfold a, path_join in Hrel. destruct (is_absolute c) eqn:Ea.
  - rewrite Hrel. set_solver.
  - destruct root as [|x root]; [rewrite Hrel; set_solver|].
    apply (inj (app (x :: root))) in Hrel.
    assert (Hf : ".." ∈ List.filter not_dot c) by (rewrite Hrel; set_solver). by apply elem_of_filter_b in Hf as [].
Qed.

(** The file of the index. *)
Definition index_path (root : PathBuf) : PathBuf := (root ++ memory_root ++ ["MEMORY.md"])%list.

Lemma index_managed root : managed root (index_path root).
Proof. exists ["MEMORY.md"]. split; [done | by rewrite list_elem_of_singleton]. Qed.

Lemma resolve_index root r :
  resolve_managed_memory_path root MEMORY_AUTO_INDEX_RELATIVE = Ok r -> rsp_absolute r = index_path root.
Proof.
  unfold resolve_managed_memory_path, resolve_path_within_state_root.
  change (path_of_string MEMORY_AUTO_INDEX_RELATIVE) with [".nanoclaw"; "memory"; "MEMORY.md"]. cbn [is_absolute].
  assert (Hj : path_join root [".nanoclaw"; "memory"; "MEMORY.md"] = index_path root) by by destruct root.
  intros Hr. inv_result. rewrite Hj in Hr. by repeat case_match; inv_result.
Qed.

Section Confinement.
Context {D : Disk} {L : DiskLaws D} {K : MemoryDisk D} {M : MemoryText} {Sh : Sha256}.

(** An operation that changes the text of files at the paths of [P] only. *)
Definition op_within {A} (P : PathBuf -> Prop) (m : DiskOp A) : Prop := forall d q,
  (forall p, P p -> disk_same p q = false) -> file_text (m d).2 q = file_text d q.

Implicit Type P : PathBuf -> Prop.

Lemma within_read {A} P (r : DiskState -> result A MemoryError) : op_within P (fun d => (r d, d)).
Proof. by intros d q. Qed.
Lemma within_result {A} P (r : result A MemoryError) : op_within P (op_result r).
Proof. by intros d q. Qed.
Lemma within_ret {A} P (a : A) : op_within P (op_ret a).
Proof. by intros d q. Qed.

Lemma within_weaken {A} P Q (m : DiskOp A) : (forall p, P p -> Q p) -> op_within P m -> op_within Q m.
Proof. intros H Hm d q Hq. apply Hm. auto. Qed.

Lemma within_bind {A B} P (m : DiskOp A) (k : A -> DiskOp B) :
  op_within P m -> (forall a, op_within P (k a)) -> op_within P (op_bind m k).
Proof.
  intros Hm Hk d q Hq. unfold op_bind. specialize (Hm d q Hq). destruct (m d) as [[a|e] d1]; simpl in *; [|done].
  rewrite <- Hm. by apply Hk.
Qed.

(** What is known of the value of a computation may be used by what follows. *)
Lemma within_bind_result {A B} P (r : result A MemoryError) (k : A -> DiskOp B) :
  (forall a, r = Ok a -> op_within P (k a)) -> op_within P (op_bind (op_result r) k).
Proof. intros Hk d q Hq. unfold op_bind, op_result. destruct r as [a|e]; [by apply Hk | done]. Qed.

Lemma within_create P p : op_within P (op_create_dir_all p).
Proof.
  intros d q _. unfold op_create_dir_all. destruct (disk_create_dir_all d p) as [r d'] eqn:E. simpl.
  by rewrite <- (create_dir_text d p q), E.
Qed.
Lemma within_parent P p : op_within P (op_create_parent p).
Proof. unfold op_create_parent. destruct (path_parent p); [apply within_create | apply within_ret]. Qed.
Lemma within_write P p c : P p -> op_within P (op_write p c).
Proof.
  intros Hp d q Hq. unfold op_write. destruct (disk_write d p c) as [r d'] eqn:E. simpl.
  by rewrite <- (write_other d p c q), E by auto.
Qed.

Hint Resolve within_read within_result within_ret within_bind within_create within_parent within_write
  resolve_managed_ok : nano.

Lemma within_file P r title body m action :
  P (rsp_absolute r) -> op_within P (write_memory_file_resolved r title body m action).
Proof. intros Hr. unfold write_memory_file_resolved. auto 6 with nano. Qed.
Hint Resolve within_file : nano.

Lemma refresh_within root now : op_within (eq (index_path root)) (refresh_auto_memory_index root now).
Proof.
  unfold refresh_auto_memory_index. apply within_bind; [auto with nano|]. intros _.
  apply within_bind; [auto with nano|]. intros es. apply within_bind_result.
  intros r Hr%resolve_index. auto with nano.
Qed.
Lemma within_refresh root now : op_within (managed root) (refresh_auto_memory_index root now).
Proof. eapply within_weaken, refresh_within. intros p <-. apply index_managed. Qed.
Hint Resolve within_refresh : nano.

Lemma within_write_file root path title body m action ms :
  op_within (managed root) (write_memory_file root path title body m action ms).
Proof. unfold write_memory_file. apply within_bind_result. intros r Hr%resolve_managed_ok. auto 6 with nano. Qed.
Hint Resolve within_write_file : nano.

Lemma within_status root path st action now ms :
  op_within (managed root) (set_memory_status root path st action now ms).
Proof. unfold set_memory_status, write_status. auto with nano. Qed.
Hint Resolve within_status : nano.

(** C31.  Whatever a request says, recording, promoting and forgetting a memory change the text
    of files only at paths written [root/.nanoclaw/memory/..] with no [..] component: any file
    that is not one of these (also through a link) keeps its text, also when the operation fails. *)
Theorem memory_writes_confined root record promote forget ds das clock d q :
  (forall p, managed root p -> disk_same p q = false) ->
  file_text (record_memory root record ds das clock d).2 q = file_text d q /\
  file_text (promote_memory root promote clock d).2 q = file_text d q /\
  file_text (forget_memory root forget clock d).2 q = file_text d q.
Proof.
  intros Hq. split_and!; [enough (H : op_within (managed root) (record_memory root record ds das clock)) by by apply H |
    enough (H : op_within (managed root) (promote_memory root promote clock)) by by apply H |
    enough (H : op_within (managed root) (forget_memory root forget clock)) by by apply H].
  - unfold record_memory. apply within_bind; [auto with nano|]. intros t. apply within_bind_result.
    intros r Hr%resolve_managed_ok. auto 10 with nano.
  - unfold promote_memory. destruct (promotion_target _) as [[dir lay]|]; [|auto with nano].
    apply within_bind; [auto with nano|]. intros s. destruct (str_is_empty _); auto 8 with nano.
  - unfold forget_memory. destruct (mf_status forget); auto with nano.
Qed.

End Confinement.

(** ** The bound of the index *)

Lemma overflow_note_short : (byte_length overflow_note <= MAX_AUTO_INDEX_BYTES)%N.
Proof. vm_compute. discriminate. Qed.

Lemma shrink_index_cases (l : list string) :
  shrink_index (rev l) = overflow_note \/
  exists kept, kept `prefix_of` l /\ kept <> [] /\ shrink_index (rev l) = tentative_index kept
    /\ (byte_length (tentative_index kept) <= MAX_AUTO_INDEX_BYTES)%N.
Proof.
  induction l as [|x l IH] using rev_ind; [by left|]. rewrite rev_unit. cbn [shrink_index].
  rewrite <- (rev_unit l x), rev_involutive. case_match eqn:E.
  - right. exists (l ++ [x])%list. apply N.leb_le in E. split_and!; [done | by destruct l | done..].
  - destruct IH as [?|(kept & Hp & Hn & He & Hb)]; [by left|]. right. exists kept. split_and!; [|done..].
    by apply prefix_app_r.
Qed.

Lemma note_lacks_newline : lacks newline overflow_note.
Proof. vm_compute. reflexivity. Qed.

Lemma split_tentative (l : list string) : l <> [] -> Forall (lacks newline) l ->
  (length (split_on newline (tentative_index l)) <= length l + 2)%nat.
Proof.
  intros Hn Hl. unfold tentative_index.
  assert (Hs : forall t, split_on newline (str_join nl l +:+ nl +:+ t) = (l ++ split_on newline t)%list).
  { intros t. change (nl +:+ t) with (String newline t). rewrite split_on_app. f_equal. by apply split_join. }
  assert (H2 : (length (split_on newline (str_join nl l +:+ (nl +:+ nl) +:+ overflow_note)) <= length l + 2)%nat).
  { change ((nl +:+ nl) +:+ overflow_note) with (nl +:+ String newline overflow_note). rewrite Hs.
    change (String newline overflow_note) with ("" +:+ String newline overflow_note).
    rewrite split_on_app, note_lacks_newline, !length_app. simpl. lia. }
  destruct (last l) as [[|a s]|]; [|exact H2..]. rewrite Hs, note_lacks_newline, length_app. simpl. lia.
Qed.

(** The generated index stays small whatever the notes say: at most 25,000 bytes and, when no
    line holds a newline, at most 200 lines.  It is either all the lines, or a prefix of them
    followed by the note that entries were omitted. *)
Theorem index_is_concise (lines : list string) :
  (byte_length (finalize_index lines) <= MAX_AUTO_INDEX_BYTES)%N /\
  (Forall (lacks newline) lines ->
   (length (split_on newline (finalize_index lines)) <= MAX_AUTO_INDEX_LINES)%nat) /\
  (finalize_index lines = str_join nl lines \/
   exists kept, kept `prefix_of` lines /\
     finalize_index lines = match kept with [] => overflow_note | _ => tentative_index kept end).
Proof.
  unfold finalize_index. case_match eqn:E.
  - apply andb_true_iff in E as [El%Nat.leb_le Eb%N.leb_le]. split_and!; [done | | by left]. intros Hl.
    destruct lines as [|x l]; [simpl; unfold MAX_AUTO_INDEX_LINES; lia|]. unfold nl. by rewrite split_join.
  - pose proof (prefix_take lines (MAX_AUTO_INDEX_LINES - 2)) as Hp.
    destruct (shrink_index_cases (take (MAX_AUTO_INDEX_LINES - 2) lines)) as [->|(kept & Hk & Hn & -> & Hb)].
    + split_and!; [exact overflow_note_short | | right; exists []; split; [apply prefix_nil | done]].
      intros _. rewrite note_lacks_newline. simpl. unfold MAX_AUTO_INDEX_LINES. lia.
    + split_and!; [done | | right; exists kept; split; [by trans (take (MAX_AUTO_INDEX_LINES - 2) lines) | by destruct kept]].
      intros Hl. assert (Hkl : Forall (lacks newline) kept).
      { destruct Hk as [k1 Hk], Hp as [k2 Hp]. rewrite Hp, Hk in Hl. apply Forall_app in Hl as [Hl _].
        by apply Forall_app in Hl as [Hl _]. }
      pose proof (split_tentative kept Hn Hkl). apply prefix_length in Hk. rewrite length_take in Hk.
      unfold MAX_AUTO_INDEX_LINES in *. lia.
Qed.

(** ** Trimming *)

Lemma trim_end_prefix s : exists w, s = trim_end s +:+ w.
Proof.
  unfold trim_end. destruct (trim_start_rev_suffix (str_rev s)) as [p Hp]. exists (str_rev p).
  rewrite <- str_rev_app, <- Hp. by rewrite str_rev_involutive.
Qed.

Lemma trim_clean s : starts_ws false s = false -> trim s = trim_end s.
Proof. intros H. unfold trim. by rewrite (proj2 (trim_start_clean s) H). Qed.

Lemma trimmed_clean s : starts_ws false (trim s) = false.
Proof.
  unfold trim. destruct (trim_end_prefix (trim_start s)) as [w Hw]. apply (starts_ws_prefix _ w). rewrite <- Hw.
  apply trim_start_clean.
Qed.

(** A trimmed text does not end in a newline. *)
Lemma trimmed_no_newline s : ends_with (trim s) nl = false.
Proof.
  unfold ends_with, strip_suffix, trim, trim_end. rewrite str_rev_involutive. set (t := trim_start_rev _).
  assert (Ht : starts_ws true t = false) by apply trim_start_rev_clean. change (str_rev nl) with nl.
  destruct t as [|a t]; [done|]. unfold nl. cbn [strip_prefix]. destruct (Ascii.eqb_spec newline a) as [<-|]; [|done].
  exfalso. destruct t as [|b [|c t]]; cbn in Ht; discriminate.
Qed.

Lemma trim_newline s : trim (String newline s) = trim s.
Proof. done. Qed.

(** The end of [a ++ b] is trimmed inside [b] when three bytes of [b] remain. *)
Lemma trim_start_rev_app u v :
  (3 <= String.length (trim_start_rev u))%nat -> trim_start_rev (u +:+ v) = trim_start_rev u +:+ v.
Proof.
  induction u as [|a|a b IH|a b c s IH0 IH1 IH2] using string_ind3.
  - simpl. lia.
  - simpl. destruct (ws1 a); simpl; lia.
  - cbn [trim_start_rev]. repeat case_match; simpl; lia.
  - change (String a (String b (String c s)) +:+ v) with (String a (String b (String c (s +:+ v)))).
    change (trim_start_rev (String a (String b (String c (s +:+ v))))) with
      (if ws1 a then trim_start_rev (String b (String c s) +:+ v)
       else if ws2 b a then trim_start_rev (String c s +:+ v)
       else if ws3 c b a then trim_start_rev (s +:+ v) else String a (String b (String c (s +:+ v)))).
    change (trim_start_rev (String a (String b (String c s)))) with
      (if ws1 a then trim_start_rev (String b (String c s))
       else if ws2 b a then trim_start_rev (String c s)
       else if ws3 c b a then trim_start_rev s else String a (String b (String c s))).
    destruct (ws1 a); [exact IH2|]. destruct (ws2 b a); [exact IH1|]. destruct (ws3 c b a); [exact IH0 | done].
Qed.

Lemma str_rev_length s : String.length (str_rev s) = String.length s.
Proof.
  assert (Hl : forall l, String.length (string_of_list_ascii l) = length l)
    by (intros l; induction l as [|a l IH]; [done | exact (f_equal S IH)]).
  unfold str_rev. rewrite Hl, length_rev. induction s as [|a s IH]; [done | exact (f_equal S IH)].
Qed.

Lemma trim_end_app a b : (3 <= String.length (trim_end b))%nat -> trim_end (a +:+ b) = a +:+ trim_end b.
Proof.
  unfold trim_end. rewrite str_rev_length. intros H. rewrite str_rev_app, trim_start_rev_app by done.
  by rewrite str_rev_app, str_rev_involutive.
Qed.

(** A byte that belongs to no white-space character. *)
Definition solid (c : ascii) : bool := ((33 <=? nat_of_ascii c) && (nat_of_ascii c <=? 126))%nat.

Lemma solid_ws c a b : solid c = true ->
  ws1 c = false /\ ws2 c a = false /\ ws2 a c = false /\
  ws3 c a b = false /\ ws3 a c b = false /\ ws3 a b c = false.
Proof.
  unfold solid, ws1, ws2, ws3. cbv zeta. generalize (nat_of_ascii c) (nat_of_ascii a) (nat_of_ascii b). intros k m n.
  rewrite andb_true_iff, !Nat.leb_le. intros Hk.
  split_and!; apply not_true_iff_false; rewrite ?orb_true_iff, ?andb_true_iff, ?orb_true_iff, ?andb_true_iff,
    ?Nat.leb_le, ?Nat.eqb_eq; lia.
Qed.

Lemma trim_rev_step a b c s :
  trim_start_rev (String a (String b (String c s))) =
  if ws1 a then trim_start_rev (String b (String c s))
  else if ws2 b a then trim_start_rev (String c s)
  else if ws3 c b a then trim_start_rev s else String a (String b (String c s)).
Proof. done. Qed.

Lemma trim_rev_solid c w : solid c = true -> trim_start_rev (String c w) = String c w.
Proof.
  intros Hc. apply trim_start_rev_clean. destruct w as [|b [|e w]]; simpl.
  - by destruct (solid_ws c c c Hc) as (-> & _).
  - by destruct (solid_ws c b b Hc) as (-> & _ & -> & _).
  - by destruct (solid_ws c b e Hc) as (-> & _ & -> & _), (solid_ws c e b Hc) as (_ & _ & _ & _ & _ & ->).
Qed.

(** Trimming the end stops at a solid byte. *)
Lemma trim_rev_keeps u c w : solid c = true -> exists u', trim_start_rev (u +:+ String c w) = u' +:+ String c w.
Proof.
  intros Hc. induction u as [|a|a b IH|a b e s IH0 IH1 IH2] using string_ind3.
  - exists "". by apply trim_rev_solid.
  - change (String a "" +:+ String c w) with (String a (String c w)).
    destruct (solid_ws c a a Hc) as (_ & H2 & _). destruct w as [|b w].
    + simpl. rewrite H2. destruct (ws1 a); [|by exists (String a "")]. exists "". by apply (trim_rev_solid c "").
    + destruct (solid_ws c b a Hc) as (_ & _ & _ & _ & H3 & _). rewrite trim_rev_step, H2, H3.
      destruct (ws1 a); [|by exists (String a "")]. exists "". by apply trim_rev_solid.
  - change (String a (String b "") +:+ String c w) with (String a (String b (String c w))).
    destruct (solid_ws c b a Hc) as (_ & _ & _ & H3 & _). rewrite trim_rev_step, H3.
    destruct (ws1 a); [exact IH|]. destruct (ws2 b a); [|by exists (String a (String b ""))].
    exists "". by apply trim_rev_solid.
  - change (String a (String b (String e s)) +:+ String c w) with (String a (String b (String e (s +:+ String c w)))).
    rewrite trim_rev_step. destruct (ws1 a); [exact IH2|]. destruct (ws2 b a); [exact IH1|].
    destruct (ws3 e b a); [exact IH0 | by exists (String a (String b (String e s)))].
Qed.

Lemma trim_end_keeps u c w : solid c = true -> exists w', trim_end (u +:+ String c w) = u +:+ String c w'.
Proof.
  intros Hc. unfold trim_end. change (String c w) with (String c "" +:+ w). rewrite !str_rev_app.
  change (str_rev (String c "")) with (String c ""). rewrite sapp_assoc.
  change (String c "" +:+ str_rev u) with (String c (str_rev u)).
  destruct (trim_rev_keeps (str_rev w) c (str_rev u) Hc) as [u' ->]. exists (str_rev u').
  change (String c (str_rev u)) with (String c "" +:+ str_rev u). rewrite !str_rev_app, str_rev_involutive.
  by rewrite sapp_assoc.
Qed.

(** ** Notes appended to a body *)

(** The text a note is appended to. *)
Definition note_base (existing_body document_title : string) : string :=
  if str_is_empty (trim existing_body) then "# " +:+ document_title else trim existing_body.

Lemma note_base_clean b t : starts_ws false (note_base b t) = false /\ note_base b t <> "".
Proof.
  unfold note_base. destruct (trim b) as [|a s] eqn:E; [by destruct t|].
  split; [|done]. pose proof (trimmed_clean b) as Hb. by rewrite E in Hb.
Qed.

Lemma clean_newline a s : a <> "" -> starts_ws false a = false -> starts_ws false (a +:+ nl +:+ nl +:+ s) = false.
Proof.
  assert (H2 : forall x, ws2 x newline = false) by (intros; unfold ws2; simpl; apply andb_false_r).
  assert (H3 : forall x y, ws3 x y newline = false)
    by (intros; unfold ws3; simpl; rewrite ?andb_false_r; done).
  destruct a as [|x [|y [|z a]]]; intros Hn; [done | | |done]; unfold nl; simpl; rewrite ?H2, ?H3, ?orb_false_r; done.
Qed.

(** A note that starts with a solid byte after an empty line is added behind the base. *)
Lemma note_appended base c w : base <> "" -> starts_ws false base = false -> solid c = true ->
  trim (base +:+ nl +:+ nl +:+ String c w) = base +:+ trim_end (nl +:+ nl +:+ String c w).
Proof.
  intros Hn Hs Hc. rewrite trim_clean by by apply clean_newline. apply trim_end_app.
  rewrite <- sapp_assoc. destruct (trim_end_keeps (nl +:+ nl) c w Hc) as [w' ->]. rewrite slength_app. simpl. lia.
Qed.

Section Notes.
Context {M : MemoryText}.

(** What a record adds to the body, before the end is trimmed. *)
Definition note_text (request : MemoryRecordRequest) (target : RecordTarget) (now_ms : N) : string :=
  if String.eqb (rt_layer target) "daily-log" then
    str_join "" (map (fun entry => nl +:+ nl +:+ render_daily_log_entry now_ms entry)
                   (normalize_daily_log_entries (mr_content request)))
  else nl +:+ nl +:+ ("## " +:+ trim (mr_title request) +:+ " [" +:+ format_timestamp_ms now_ms +:+ "]")
       +:+ nl +:+ nl +:+ trim (mr_content request).

Lemma foldl_append {A} (f : A -> string) l b :
  foldl (fun body x => body +:+ f x) b l = b +:+ str_join "" (map f l).
Proof.
  revert b. induction l as [|x l IH]; intros b; [by rewrite sapp_nil_r|].
  change (map f (x :: l)) with (f x :: map f l). cbn [foldl]. rewrite IH, sapp_assoc. f_equal.
  destruct l; [by rewrite sapp_nil_r | done].
Qed.

Lemma entry_starts ms entry : exists w, render_daily_log_entry ms entry = String "-" w.
Proof.
  unfold render_daily_log_entry.
  rewrite (foldl_append (fun line => nl +:+ "  " +:+ line)). eexists. reflexivity.
Qed.

(** A record in append mode keeps the base and adds its note. *)
Lemma recorded_append request b target now body action :
  mr_mode request = Mode_Append -> recorded_body request b target now = Ok (body, action) ->
  body = note_base b (rt_document_title target) +:+ note_text request target now /\
  exists c w, solid c = true /\ note_text request target now = nl +:+ nl +:+ String c w.
Proof.
  unfold recorded_body, note_text. intros ->. destruct (String.eqb (rt_layer target) "daily-log").
  - destruct (normalize_daily_log_entries (mr_content request)) as [|e es] eqn:E; [done|]. intros [= <- <-].
    unfold append_daily_log_entries. split.
    + exact (foldl_append (fun x => nl +:+ nl +:+ render_daily_log_entry now x) (e :: es) _).
    + destruct (entry_starts now e) as [w Hw]. exists "-"%char.
      change (map ?f (e :: es)) with (f e :: map f es).
      destruct es as [|e' es]; cbn [map str_join]; rewrite Hw; [by exists w|]. eexists. split; [done|].
      rewrite !sapp_assoc. reflexivity.
  - intros [= <- <-]. unfold append_section. split; [done|]. exists "#"%char. eexists. split; [done|].
    rewrite !sapp_assoc. reflexivity.
Qed.

End Notes.

(** ** Rendering and stripping *)

Definition carriage_return : ascii := byte_at 13.

(** Metadata whose rendered lines hold no newline. *)
Definition plain_metadata (m : MemoryDocumentMetadata) : Prop := Forall (lacks newline) (frontmatter_lines m).

Lemma strip_cr_cases s : strip_cr s = s \/ s = strip_cr s +:+ cr.
Proof.
  unfold strip_cr. destruct (strip_suffix cr s) as [r|] eqn:E; [|by left]. right. by apply strip_suffix_Some in E.
Qed.

Lemma strip_cr_prefix s : exists w, s = strip_cr s +:+ w.
Proof. destruct (strip_cr_cases s) as [->|H]; [exists ""; by rewrite sapp_nil_r | by exists cr]. Qed.

Lemma strip_cr_free s : lacks carriage_return s -> strip_cr s = s.
Proof.
  intros Hl. unfold strip_cr. destruct (strip_suffix cr s) as [r|] eqn:E; [|done]. apply strip_suffix_Some in E as ->.
  unfold lacks in Hl. change (r +:+ cr) with (r +:+ String carriage_return "") in Hl. rewrite split_on_app in Hl.
  pose proof (split_on_ne carriage_return r). apply (f_equal length) in Hl. rewrite length_app in Hl. simpl in Hl.
  destruct (split_on carriage_return r); [done | simpl in Hl; lia].
Qed.

Lemma starts_solid c w : solid c = true -> starts_ws false (String c w) = false.
Proof.
  intros Hc. destruct w as [|a [|b w]]; simpl.
  - by destruct (solid_ws c c c Hc) as (-> & _).
  - by destruct (solid_ws c a a Hc) as (-> & -> & _).
  - by destruct (solid_ws c a b Hc) as (-> & -> & _ & -> & _).
Qed.

Lemma trim_solid_prefix c w t : solid c = true -> trim (String c w) = t -> exists r, String c w = t +:+ r.
Proof. intros Hc <-. rewrite trim_clean by by apply starts_solid. apply trim_end_prefix. Qed.

Lemma strip_cr_app a b : b <> "" -> strip_cr (a +:+ b) = a +:+ strip_cr b.
Proof.
  intros Hb. unfold strip_cr. destruct (strip_suffix cr b) as [r|] eqn:E.
  - apply strip_suffix_Some in E as ->. rewrite <- sapp_assoc.
    by rewrite (proj2 (strip_suffix_Some cr _ (a +:+ r)) eq_refl).
  - cbn [default]. destruct (strip_suffix cr (a +:+ b)) as [r|] eqn:E2; [|done]. exfalso.
    unfold strip_suffix in *. rewrite str_rev_app in E2. change (str_rev cr) with cr in *.
    destruct (str_rev b) as [|x y] eqn:Er; [apply Hb; by rewrite <- (str_rev_involutive b), Er|].
    rewrite str_append_cons in E2. unfold cr in *. cbn [strip_prefix] in *. by destruct (Ascii.eqb _ x).
Qed.

(** Lines that do not close the front matter. *)
Definition open_line (line : string) : Prop := trim (strip_cr line) <> "---".

Lemma open_key c w : solid c = true -> c <> "-"%char -> open_line (String c w).
Proof.
  intros Hc Hn Ht. destruct (strip_cr_prefix (String c w)) as [r Hr]. destruct (strip_cr (String c w)) as [|x y] eqn:E; [done|].
  injection Hr as <- _. apply trim_solid_prefix in Ht as [q Hq]; [|done]. by injection Hq as ->.
Qed.

Lemma open_item e : open_line ("  - " +:+ e).
Proof.
  unfold open_line. intros Ht. assert (exists e', strip_cr ("  - " +:+ e) = "  - " +:+ e') as [e' He].
  { destruct e as [|a e]; [by exists ""|]. eexists. by apply strip_cr_app. }
  rewrite He in Ht. change (trim (String "-" (" " +:+ e')) = "---") in Ht.
  apply trim_solid_prefix in Ht as [r Hr]; done.
Qed.

Lemma open_opt_line {A} key (show : A -> string) o :
  (forall w, open_line (key +:+ w)) -> Forall open_line (opt_line key show o).
Proof. intros H. destruct o; repeat constructor. apply H. Qed.

Lemma open_list_lines key l : (forall w, open_line (key +:+ w)) -> Forall open_line (list_lines key l).
Proof.
  intros H. unfold list_lines. destruct l as [|x l]; [done|]. constructor; [apply H|].
  apply Forall_forall. intros y Hy. change (map ?f ?l) with (f <$> l) in Hy. apply list_elem_of_fmap in Hy as (e & -> & _).
  apply open_item.
Qed.

Lemma frontmatter_open m : Forall open_line (frontmatter_lines m).
Proof.
  unfold frontmatter_lines. rewrite ?Forall_app, ?Forall_cons, ?Forall_nil.
  split_and!; try done; try (apply open_opt_line; intros w); try (apply open_list_lines; intros w); by apply open_key.
Qed.

Lemma yaml_lines_close ls rest :
  Forall (fun l => trim l <> "---") ls -> yaml_lines (ls ++ "---" :: rest)%list = (ls, true).
Proof.
  induction 1 as [|l ls Hl Hls IH]; [done|]. cbn [yaml_lines app]. rewrite IH.
  by destruct (String.eqb_spec (trim l) "---").
Qed.

Lemma lacks_split c d s : lacks c s -> Forall (lacks c) (split_on d s).
Proof.
  induction s as [|a s IH]; [by repeat constructor|]. intros [Ha Hs]%lacks_cons. specialize (IH Hs). simpl.
  destruct (Ascii.eqb a d); [by constructor|]. destruct (split_on d s) as [|p ps]; [by repeat constructor; apply lacks_cons|].
  apply Forall_cons in IH as [Hp Hps]. constructor; [by apply lacks_cons | done].
Qed.

Lemma drop_past {A} (l : list A) x r : drop (S (length l)) (l ++ x :: r)%list = r.
Proof. induction l; simpl; [by rewrite drop_0 | done]. Qed.

(** The text of the body in a rendered file. *)
Definition rendered_body (title body : string) : string :=
  if str_is_empty (trim body) then "# " +:+ title else trim body.

Section Rendered.
Context (title body : string) (m : MemoryDocumentMetadata) (Hm : plain_metadata m).
Let text := render_memory_markdown title body m.
Let pre : list string := ("---" :: frontmatter_lines m ++ ["---"; ""])%list.

Lemma rendered_text : text = str_join nl pre +:+ String newline (rendered_body title body +:+ String newline "").
Proof.
  unfold text, render_memory_markdown, rendered_body, pre. rewrite trimmed_no_newline. cbv zeta.
  change (["---"] ++ ?a ++ ?b ++ ?c)%list with ("---" :: a ++ b ++ c)%list.
  rewrite (app_assoc (frontmatter_lines m)), app_comm_cons, join_app; [|done | by destruct (str_is_empty _)].
  by destruct (str_is_empty (trim body)).
Qed.

Lemma rendered_lines : str_lines text =
  ("---" :: map strip_cr (frontmatter_lines m) ++ "---" :: "" :: map strip_cr (split_on newline (rendered_body title body)))%list.
Proof.
  unfold str_lines. rewrite rendered_text, !split_on_app. unfold nl. rewrite split_join; [|done|].
  - change (split_on newline "") with [""]. rewrite app_assoc, last_snoc, removelast_last. simpl. rewrite app_nil_r, !map_app. simpl. by rewrite <- app_assoc.
  - unfold pre. rewrite Forall_cons, Forall_app. split_and!; [done | exact Hm | by repeat constructor].
Qed.

Lemma rendered_has_frontmatter : has_frontmatter text = true.
Proof.
  unfold has_frontmatter. apply orb_true_iff. left. apply starts_with_spec. rewrite rendered_text. unfold pre.
  rewrite join_cons by by destruct (frontmatter_lines m). eexists. rewrite !sapp_assoc. reflexivity.
Qed.

Lemma rendered_yaml : yaml_lines (tail (str_lines text)) = (map strip_cr (frontmatter_lines m), true).
Proof.
  rewrite rendered_lines. cbn [tail]. apply yaml_lines_close.
  apply Forall_forall. intros l Hl. change (map ?f ?l) with (f <$> l) in Hl. apply list_elem_of_fmap in Hl as (x & -> & Hx).
  pose proof (frontmatter_open m) as Ho. rewrite Forall_forall in Ho. by apply Ho.
Qed.

(** The body that is read back: that of the file, with the line ends normalised. *)
Lemma strip_rendered : lacks carriage_return (rendered_body title body) ->
  strip_frontmatter text = trim (rendered_body title body).
Proof.
  intros Hc. unfold strip_frontmatter. rewrite rendered_has_frontmatter, rendered_yaml, rendered_lines. cbn [negb tail].
  rewrite drop_past, join_cons by (intros H%map_eq_nil; by apply split_on_ne in H).
  change ("" +:+ nl +:+ ?t) with (String newline t). rewrite trim_newline. f_equal.
  rewrite <- (join_split newline (rendered_body title body)) at 2. f_equal.
  pose proof (lacks_split carriage_return newline _ Hc) as Hl. rewrite <- (map_id (split_on newline _)) at 2.
  apply map_ext_Forall. eapply Forall_impl; [exact Hl | apply strip_cr_free].
Qed.

End Rendered.

(** ** A concrete state directory *)

(** Every file is a regular file; the walk lists the files under a directory. *)
Definition plain_metadata_of (d : gmap PathBuf string) (p : PathBuf) : result FileMetadata IoError :=
  match d !! fold_dots p [] with
  | Some t => Ok (mkFileMetadata true false (byte_length t) (Some 1000000%N))
  | None => Err Io_NotFound
  end.
Definition plain_walk (d : gmap PathBuf string) (root : PathBuf) : list (PathBuf * bool) :=
  map (fun p => (p, true)) (List.filter (fun p => path_starts_with p root) (map_to_list d).*1).
#[export] Instance plain_memory_disk : MemoryDisk dot_disk :=
  @Build_MemoryDisk dot_disk plain_metadata_of plain_walk.

(** A reader of [key: value] lines, which refuses a second [: ] in a line. *)
#[export] Instance key_value_text : MemoryText := {|
  yaml_frontmatter := fun text =>
    if forallb (fun line => match split_first ": " line with
                            | Some (_, value) => negb (str_contains value ": ")
                            | None => true
                            end) (split_on newline text)
    then Ok default_frontmatter else Err "mapping values are not allowed in this context";
  rfc3339_ms := fun _ => None
|}.

Definition demo_root : PathBuf := ["/"; "work"].
Definition demo_clock : MemoryClock := mkMemoryClock 7 (mkToday 2026 3 "2026-03-28") 8 9 10.
Definition task_note (title content : string) (description : option string) : MemoryRecordRequest :=
  mkMemoryRecordRequest Scope_Working title content Mode_Append None description None [] None None None (Some "Build 1").
Definition demo_promotion (source title : string) : MemoryPromoteRequest :=
  mkMemoryPromoteRequest source Scope_Semantic title "" None None None [].

Lemma fold_dots_plain p acc : ".." ∉ p -> fold_dots p acc = (acc ++ p)%list.
Proof.
  revert acc. induction p as [|c p IH]; intros acc Hp; cbn [fold_dots]; [by rewrite app_nil_r|].
  apply not_elem_of_cons in Hp as [Hc Hp]. destruct (String.eqb_spec c ".."); [congruence|].
  by rewrite IH, <- app_assoc.
Qed.

Definition outside_disk : @DiskState dot_disk := ({[ ["/"; "etc"; "passwd"] := "# x" ]} : gmap PathBuf string).
Definition passwd : PathBuf := ["/"; "etc"; "passwd"].

Lemma memory_writes_confined_witness :
  file_text (record_memory demo_root (task_note "a" "b" None) None None demo_clock outside_disk).2 passwd
    = file_text outside_disk passwd /\
  file_text (promote_memory demo_root (demo_promotion "../etc/passwd" "x") demo_clock outside_disk).2 passwd
    = file_text outside_disk passwd /\
  file_text (forget_memory demo_root (mkMemoryForgetRequest "../etc/passwd" Status_Stale) demo_clock outside_disk).2 passwd
    = file_text outside_disk passwd.
Proof.
  apply (memory_writes_confined demo_root (task_note "a" "b" None) (demo_promotion "../etc/passwd" "x")
    (mkMemoryForgetRequest "../etc/passwd" Status_Stale) None None demo_clock outside_disk passwd).
  intros p (rel & -> & Hrel). apply bool_decide_eq_false. rewrite fold_dots_plain; [by vm_compute|].
  rewrite !elem_of_app. unfold demo_root, memory_root. set_solver.
Defined.
