(* ===== verification/MemoryRecords.v ===== *)
(** * What recorded memories keep

    A file written by a record reads back as its body; a sequence of records in append mode
    adds their notes one behind the other; and the cases where a note is lost. *)

From Stdlib Require Import Ascii String.
From stdpp Require Import base list gmap sorting strings.
From Stdlib Require Import Lia.
From S2P Require Import Prelude Text Message Errors TextBuffer WriteLease SandboxPolicy Tools PathPolicy.
From S2P Require Import StoreSearch FileQueries Mutation PatchFilesProps MemoryFiles MemoryOps MemoryProps.

(** A file that can be read has metadata. *)
Class MemoryDiskLaws (D : Disk) {K : MemoryDisk D} : Prop := {
  metadata_readable : forall d p t, disk_read d p = Ok t -> exists m, disk_metadata d p = Ok m
}.

Section Records.
Context {D : Disk} {L : DiskLaws D} {K : MemoryDisk D} {KL : MemoryDiskLaws D} {M : MemoryText} {Sh : Sha256}.

(** Metadata that a later load accepts: it renders to lines without a newline, and the YAML
    reader accepts them. *)
Definition readable (m : MemoryDocumentMetadata) : Prop :=
  plain_metadata m /\ is_ok (yaml_frontmatter (str_join nl (map strip_cr (frontmatter_lines m)))) = true.

Lemma op_bind_Ok {A B} (m : DiskOp A) (k : A -> DiskOp B) d b d' :
  op_bind m k d = (Ok b, d') -> exists a d1, m d = (Ok a, d1) /\ k a d1 = (Ok b, d').
Proof. unfold op_bind. destruct (m d) as [[a|e] d1]; [|done]. intros H. by exists a, d1. Qed.

Lemma op_result_Ok {A} (r : result A MemoryError) d a d' : op_result r d = (Ok a, d') -> r = Ok a /\ d' = d.
Proof. unfold op_result. by intros [= -> ->]. Qed.

(** The path a load opens is the one the write resolves. *)
Lemma resolve_same root s r :
  resolve_managed_memory_path root s = Ok r -> resolve_workspace_path root s = Ok (rsp_absolute r).
Proof.
  unfold resolve_managed_memory_path, resolve_path_within_state_root, resolve_workspace_path. set (c := path_of_string s).
  assert (Hj : (if is_absolute c then c else path_join root c) = path_join root c)
    by (unfold path_join; by destruct (is_absolute c)).
  rewrite Hj. destruct (reject_parent_components c) as [[]|]; [|done]. cbn [result_bind].
  destruct (path_starts_with (path_join root c) root); cbn [negb]; [|done]. destruct (negb _); [done|]. by intros [= <-].
Qed.

Lemma write_file_text r title body m action d resp d' :
  write_memory_file_resolved r title body m action d = (Ok resp, d') ->
  file_text d' (rsp_absolute r) = Some (render_memory_markdown title body m) /\ mx_metadata resp = m.
Proof.
  unfold write_memory_file_resolved. intros (u & d1 & _ & H)%op_bind_Ok. apply op_bind_Ok in H as (v & d2 & Hw & H).
  injection H as <- <-. split; [|done]. unfold op_write in Hw.
  destruct (disk_write d1 (rsp_absolute r) _) as [[[]|] d3] eqn:E; [|done]. injection Hw as _ <-.
  by rewrite <- (write_same d1 (rsp_absolute r) (render_memory_markdown title body m)), E by (by rewrite E).
Qed.

Lemma rendered_parses title body m path t :
  readable m -> exists r, parse_memory_text path (render_memory_markdown title body m) t = Ok r.
Proof.
  intros [Hp Hy]. unfold parse_memory_text, parse_frontmatter.
  rewrite rendered_has_frontmatter, rendered_yaml by done. cbn [negb].
  destruct (yaml_frontmatter _) as [f|] eqn:E; [|done]. by destruct (str_is_empty _); eexists.
Qed.

(** A rendered file is loaded with its body. *)
Lemma load_rendered root s r title body m d :
  resolve_managed_memory_path root s = Ok r -> readable m -> lacks carriage_return (rendered_body title body) ->
  file_text d (rsp_absolute r) = Some (render_memory_markdown title body m) ->
  exists f, load_managed_memory_file root s d = Ok f /\ mmf_body f = trim (rendered_body title body).
Proof.
  intros Hr Hm Hc Ht. unfold load_managed_memory_file. rewrite (resolve_same _ _ _ Hr). cbn [result_bind].
  unfold file_text in Ht. destruct (disk_read d (rsp_absolute r)) as [t|] eqn:Ed; [|done]. injection Ht as ->.
  unfold file_timestamp_ms. destruct (metadata_readable _ _ _ Ed) as [md ->]. cbn [mem_io result_bind].
  destruct (rendered_parses title body m s (capped_millis <$> fmd_modified_ns md) Hm) as [p ->]. cbn [result_bind].
  eexists. split; [done|]. cbn [mmf_body]. apply strip_rendered; [by apply Hm | done].
Qed.

Lemma load_path root path d f : load_managed_memory_file root path d = Ok f -> mmf_path f = path.
Proof. unfold load_managed_memory_file. intros Hl. by inv_result. Qed.

(** The body a record finds. *)
Definition found_body (root : PathBuf) (path : string) (d : DiskState) : string :=
  default "" (mmf_body <$> result_ok (load_managed_memory_file root path d)).

Lemma record_inv root request ds das clock d resp d' :
  record_memory root request ds das clock d = (Ok resp, d') ->
  exists target r body d1,
    resolve_record_target (mc_today clock) request (or_option (mr_session_id request) ds)
      (or_option (mr_agent_session_id request) das) = Ok target /\
    resolve_managed_memory_path root (rt_relative_path target) = Ok r /\
    recorded_body request (found_body root (rt_relative_path target) d) target (mc_now_ms clock) = Ok body /\
    file_text d1 (rsp_absolute r) = Some (render_memory_markdown (rt_document_title target) body.1 (mx_metadata resp)) /\
    refresh_auto_memory_index root (mc_index_ms clock) d1 = (Ok tt, d').
Proof.
  unfold record_memory. intros (target & d0 & [Ht ->]%op_result_Ok & H)%op_bind_Ok.
  apply op_bind_Ok in H as (r & d0 & [Hr ->]%op_result_Ok & H).
  apply op_bind_Ok in H as (existing & d0 & [= <- <-] & H).
  apply op_bind_Ok in H as (body & d0 & [Hb ->]%op_result_Ok & H).
  apply op_bind_Ok in H as (resp0 & d1 & [Hw Hm]%write_file_text & H).
  apply op_bind_Ok in H as ([] & d2 & Hf & [= <- <-]). exists target, r, body, d1. rewrite Hm. split_and!; done.
Qed.

Lemma found_body_text root s r d d' : resolve_managed_memory_path root s = Ok r ->
  file_text d' (rsp_absolute r) = file_text d (rsp_absolute r) -> found_body root s d' = found_body root s d.
Proof.
  assert (Hb : forall d p, resolve_workspace_path root s = Ok p -> found_body root s d =
    match file_text d p with
    | Some t => if is_ok (parse_frontmatter t) then strip_frontmatter t else ""
    | None => ""
    end).
  { intros d0 p Hp. unfold found_body, load_managed_memory_file, file_text. rewrite Hp. cbn [result_bind].
    destruct (disk_read d0 p) as [t|] eqn:E; [|done]. unfold file_timestamp_ms.
    destruct (metadata_readable _ _ _ E) as [md ->]. cbn [mem_io result_bind]. unfold parse_memory_text.
    by destruct (parse_frontmatter t). }
  intros Hr Ht. apply resolve_same in Hr. by rewrite !(Hb _ _ Hr), Ht.
Qed.

Lemma lacks_app_iff c a b : lacks c (a +:+ b) <-> lacks c a /\ lacks c b.
Proof.
  induction a as [|x a IH]; [change ("" +:+ b) with b; split; [done | by intros []]|].
  rewrite str_append_cons, !lacks_cons, IH. tauto.
Qed.

Lemma lacks_trim_end c s : lacks c s -> lacks c (trim_end s).
Proof. destruct (trim_end_prefix s) as [w Hw]. rewrite Hw at 1. by intros []%lacks_app_iff. Qed.

(** One record in append mode. *)
Lemma record_step root request ds das clock d resp d' t r :
  record_memory root request ds das clock d = (Ok resp, d') -> mr_mode request = Mode_Append ->
  resolve_record_target (mc_today clock) request (or_option (mr_session_id request) ds)
    (or_option (mr_agent_session_id request) das) = Ok t ->
  resolve_managed_memory_path root (rt_relative_path t) = Ok r ->
  disk_same (index_path root) (rsp_absolute r) = false ->
  readable (mx_metadata resp) ->
  lacks carriage_return (note_base (found_body root (rt_relative_path t) d) (rt_document_title t)) ->
  lacks carriage_return (note_text request t (mc_now_ms clock)) ->
  found_body root (rt_relative_path t) d' =
    note_base (found_body root (rt_relative_path t) d) (rt_document_title t)
    +:+ trim_end (note_text request t (mc_now_ms clock)).
Proof.
  intros (t' & r' & [body action] & d1 & Ht' & Hr' & Hb & Hf & Href)%record_inv Happ Ht Hr Hi Hm Hc1 Hc2.
  rewrite Ht in Ht'. injection Ht' as <-. rewrite Hr in Hr'. injection Hr' as <-. cbn [fst] in Hf.
  set (b := found_body root (rt_relative_path t) d) in *. set (base := note_base b (rt_document_title t)) in *.
  destruct (recorded_append _ _ _ _ _ _ Happ Hb) as [-> (c & w & Hs & Hn)].
  fold base in Hf. set (note := note_text request t (mc_now_ms clock)) in *.
  destruct (note_base_clean b (rt_document_title t)) as [Hcl Hne]. fold base in Hcl, Hne.
  assert (Htr : trim (base +:+ note) = base +:+ trim_end note) by (rewrite Hn; by apply note_appended).
  assert (Hrb : rendered_body (rt_document_title t) (base +:+ note) = base +:+ trim_end note).
  { unfold rendered_body. rewrite Htr. by destruct base. }
  assert (Hf' : file_text d' (rsp_absolute r) = file_text d1 (rsp_absolute r)).
  { pose proof (refresh_within root (mc_index_ms clock) d1 (rsp_absolute r)) as H. rewrite Href in H. apply H.
    by intros p <-. }
  assert (Hcr : lacks carriage_return (rendered_body (rt_document_title t) (base +:+ note)))
    by (rewrite Hrb; apply lacks_app_iff; split; [done | by apply lacks_trim_end]).
  rewrite <- Hf' in Hf. destruct (load_rendered _ _ _ _ _ _ _ Hr Hm Hcr Hf) as (f & Hl & Hbody).
  unfold found_body. rewrite Hl. cbn. rewrite Hbody, Hrb, <- Htr. apply trim_idem.
Qed.

(** A run of records in append mode for one target, in which anything else happens that keeps
    the text of its file; the notes are the texts added. *)
Inductive records (root : PathBuf) (ds : option SessionId) (das : option AgentSessionId) (t : RecordTarget)
    (r : ResolvedStatePath) : DiskState -> list string -> DiskState -> Prop :=
| records_nil d : records root ds das t r d [] d
| records_other d d1 notes d' :
    file_text d1 (rsp_absolute r) = file_text d (rsp_absolute r) ->
    records root ds das t r d1 notes d' -> records root ds das t r d notes d'
| records_note request clock d resp d1 notes d' :
    mr_mode request = Mode_Append ->
    resolve_record_target (mc_today clock) request (or_option (mr_session_id request) ds)
      (or_option (mr_agent_session_id request) das) = Ok t ->
    record_memory root request ds das clock d = (Ok resp, d1) ->
    readable (mx_metadata resp) ->
    lacks carriage_return (note_text request t (mc_now_ms clock)) ->
    records root ds das t r d1 notes d' ->
    records root ds das t r d (trim_end (note_text request t (mc_now_ms clock)) :: notes) d'.

Lemma found_body_trimmed root s d : trim (found_body root s d) = found_body root s d.
Proof.
  assert (Hs : forall t, trim (strip_frontmatter t) = strip_frontmatter t)
    by (intros t; unfold strip_frontmatter; repeat case_match; apply trim_idem).
  unfold found_body, load_managed_memory_file.
  destruct (resolve_workspace_path root s); cbn [result_bind result_ok]; [|done].
  destruct (mem_io _); cbn [result_bind result_ok]; [|done]. destruct (file_timestamp_ms d _); cbn [result_bind result_ok]; [|done].
  destruct (parse_memory_text _ _ _); cbn [result_bind result_ok]; [apply Hs | done].
Qed.

Lemma note_base_found root s d title : found_body root s d <> "" -> note_base (found_body root s d) title = found_body root s d.
Proof. intros Hn. unfold note_base. rewrite found_body_trimmed. by destruct (found_body root s d). Qed.

Lemma sapp_empty (a b : string) : a +:+ b = "" -> a = "".
Proof. by destruct a. Qed.

Lemma records_bases root ds das t r d notes d' :
  resolve_managed_memory_path root (rt_relative_path t) = Ok r ->
  disk_same (index_path root) (rsp_absolute r) = false ->
  records root ds das t r d notes d' ->
  lacks carriage_return (note_base (found_body root (rt_relative_path t) d) (rt_document_title t)) ->
  note_base (found_body root (rt_relative_path t) d') (rt_document_title t) =
    note_base (found_body root (rt_relative_path t) d) (rt_document_title t) +:+ str_join "" notes /\
  (notes <> [] \/ found_body root (rt_relative_path t) d <> "" -> found_body root (rt_relative_path t) d' <> "").
Proof.
  intros Hr Hi. induction 1 as [d|d d1 notes d' Ho _ IH|request clock d resp d1 notes d' Ha Ht Hrec Hm Hn _ IH]; intros Hc.
  - split; [by rewrite sapp_nil_r | by intros [|]].
  - by rewrite (found_body_text _ _ _ _ _ Hr Ho) in IH; auto.
  - pose proof (record_step _ _ _ _ _ _ _ _ _ _ Hrec Ha Ht Hr Hi Hm Hc Hn) as Hs.
    assert (Hne : found_body root (rt_relative_path t) d1 <> "")
      by (rewrite Hs; intros Hx%sapp_empty; by apply note_base_clean in Hx).
    rewrite (note_base_found _ _ _ _ Hne), Hs in IH. destruct IH as [IH1 IH2].
    + apply lacks_app_iff. split; [done | by apply lacks_trim_end].
    + split; [|intros _; apply IH2; by right; rewrite <- Hs]. rewrite IH1, sapp_assoc. f_equal.
      destruct notes; [by rewrite sapp_nil_r | done].
Qed.


(** ** Notes that are lost *)

(** A defect.  When the file of a record exists but does not load (an earlier description that is
    not a YAML scalar is enough), the record takes the file for absent: it succeeds, and the file
    afterwards is the one a first record writes, so every earlier note is gone. *)
Theorem unreadable_note_is_replaced root request ds das clock d resp d' t r e :
  record_memory root request ds das clock d = (Ok resp, d') ->
  resolve_record_target (mc_today clock) request (or_option (mr_session_id request) ds)
    (or_option (mr_agent_session_id request) das) = Ok t ->
  resolve_managed_memory_path root (rt_relative_path t) = Ok r ->
  disk_same (index_path root) (rsp_absolute r) = false ->
  load_managed_memory_file root (rt_relative_path t) d = Err e ->
  exists body, recorded_body request "" t (mc_now_ms clock) = Ok body /\
    file_text d' (rsp_absolute r) = Some (render_memory_markdown (rt_document_title t) body.1 (mx_metadata resp)).
Proof.
  intros (t' & r' & body & d1 & Ht' & Hr' & Hb & Hf & Href)%record_inv Ht Hr Hi He.
  rewrite Ht in Ht'. injection Ht' as <-. rewrite Hr in Hr'. injection Hr' as <-. exists body.
  unfold found_body in Hb. rewrite He in Hb. split; [done|]. rewrite <- Hf.
  pose proof (refresh_within root (mc_index_ms clock) d1 (rsp_absolute r)) as H. rewrite Href in H. apply H. by intros p <-.
Qed.

Lemma write_file_inv root path title body m action ms d resp d' r :
  write_memory_file root path title body m action ms d = (Ok resp, d') ->
  resolve_managed_memory_path root path = Ok r -> disk_same (index_path root) (rsp_absolute r) = false ->
  file_text d' (rsp_absolute r) = Some (render_memory_markdown title body m) /\ mx_metadata resp = m.
Proof.
  unfold write_memory_file. intros (r' & d0 & [Hr' ->]%op_result_Ok & H)%op_bind_Ok Hr Hi.
  rewrite Hr in Hr'. injection Hr' as <-. apply op_bind_Ok in H as (resp' & d1 & [Hw Hm]%write_file_text & H).
  apply op_bind_Ok in H as ([] & d2 & Hf & [= <- <-]). split; [|done]. rewrite <- Hw.
  pose proof (refresh_within root ms d1 (rsp_absolute r)) as Hx. rewrite Hf in Hx. apply Hx. by intros p <-.
Qed.

(** A defect.  A change of status loads the file before it takes the file's lock, so a record that
    runs between the load and the write is undone: the record succeeds and its note is in the file,
    and after the write of the status the body is again what was loaded. *)
Theorem status_undoes_concurrent_record root request ds das clock path status action now ms d f resp d1 resp' d2 t r :
  load_managed_memory_file root path d = Ok f -> mmf_body f <> "" -> lacks carriage_return (mmf_body f) ->
  record_memory root request ds das clock d = (Ok resp, d1) -> mr_mode request = Mode_Append ->
  resolve_record_target (mc_today clock) request (or_option (mr_session_id request) ds)
    (or_option (mr_agent_session_id request) das) = Ok t ->
  path = rt_relative_path t -> resolve_managed_memory_path root path = Ok r ->
  disk_same (index_path root) (rsp_absolute r) = false ->
  readable (mx_metadata resp) -> lacks carriage_return (note_text request t (mc_now_ms clock)) ->
  write_status root f status action now ms d1 = (Ok resp', d2) -> readable (mx_metadata resp') ->
  found_body root path d1 = mmf_body f +:+ trim_end (note_text request t (mc_now_ms clock)) /\
  found_body root path d2 = mmf_body f.
Proof.
  intros Hl Hne Hcr Hrec Ha Ht -> Hr Hi Hm Hn Hw Hm'.
  assert (Hfound : found_body root (rt_relative_path t) d = mmf_body f) by (unfold found_body; by rewrite Hl).
  assert (Hbase : forall title, note_base (mmf_body f) title = mmf_body f)
    by (intros title; rewrite <- Hfound; apply note_base_found; by rewrite Hfound).
  split.
  - rewrite (record_step _ _ _ _ _ _ _ _ _ _ Hrec Ha Ht Hr Hi Hm); rewrite ?Hfound, ?Hbase; done.
  - pose proof (load_path _ _ _ _ Hl) as Hp.
    unfold write_status in Hw. rewrite Hp in Hw. destruct (write_file_inv _ _ _ _ _ _ _ _ _ _ _ Hw Hr Hi) as [Hf Hmx].
    rewrite Hmx in Hm'.
    assert (Htrim : trim (mmf_body f) = mmf_body f) by (rewrite <- Hfound; apply found_body_trimmed).
    assert (Hrb : rendered_body (mmf_title f) (mmf_body f) = mmf_body f).
    { unfold rendered_body. rewrite Htrim. by destruct (mmf_body f) eqn:Eb; [destruct Hne |]. }
    destruct (load_rendered _ _ _ _ _ _ _ Hr Hm' (eq_rect_r (lacks carriage_return) Hcr Hrb) Hf) as (f' & Hl' & Hb').
    unfold found_body. rewrite Hl'. cbn. by rewrite Hb', Hrb.
Qed.

(** What a promotion writes before it turns to its source. *)
Lemma promote_inv root request clock dir lay d res d' :
  promotion_target (mp_target_scope request) = Some (dir, lay) -> slugify (mp_title request) <> "" ->
  promote_memory root request clock d = (res, d') ->
  (exists e, load_managed_memory_file root (mp_source_path request) d = Err e /\ res = Err e /\ d' = d) \/
  exists title body m w d1,
    write_memory_file root (dir +:+ "/" +:+ slugify (mp_title request) +:+ ".md") title body m "promoted"
      (mc_index_ms clock) d = (w, d1) /\ mm_status m = Status_Ready /\
    match w with
    | Err e => res = Err e /\ d' = d1
    | Ok response =>
        let status := set_memory_status root (mp_source_path request) Status_Stale "staled" (mc_status_ms clock)
                        (mc_status_index_ms clock) d1 in
        d' = status.2 /\ res = match status.1 with Ok _ => Ok response | Err e => Err e end
    end.
Proof.
  intros Ht Hs. unfold promote_memory. rewrite Ht. unfold op_bind at 1.
  destruct (load_managed_memory_file root (mp_source_path request) d) as [f|e]; [|intros [= <- <-]; left; by exists e].
  cbv zeta. destruct (str_is_empty _) eqn:Es; [by destruct (slugify (mp_title request))|]. unfold op_bind at 1.
  destruct (write_memory_file _ _ _ _ _ _ _ d) as [[response|e] d1] eqn:Ew; intros Hp; right;
    eexists _, _, _, _, _; (split; [exact Ew | split; [done|]]); cbv zeta beta in *.
  - unfold op_bind in Hp. destruct (set_memory_status _ _ _ _ _ _ d1) as [[u|e] d2]; by injection Hp as <- <-.
  - by injection Hp as <- <-.
Qed.

Lemma status_outside root path status action now ms e d :
  resolve_managed_memory_path root path = Err e ->
  exists e', set_memory_status root path status action now ms d = (Err e', d).
Proof.
  intros He. unfold set_memory_status, op_bind at 1.
  destruct (load_managed_memory_file root path d) as [f|e'] eqn:Hl; [|by exists e']. exists e.
  pose proof (load_path _ _ _ _ Hl) as Hp.
  unfold write_status, write_memory_file. by rewrite Hp, He.
Qed.

(** A defect: promoting a note that is not under the state directory (one of [memory/], say) never
    succeeds, because the source may not be marked; what the promotion wrote before stays. *)
Theorem outside_promotion_fails_late root request clock dir lay d e :
  promotion_target (mp_target_scope request) = Some (dir, lay) -> slugify (mp_title request) <> "" ->
  resolve_managed_memory_path root (mp_source_path request) = Err e ->
  exists e', (promote_memory root request clock d).1 = Err e' /\
    ((promote_memory root request clock d).2 = d \/
     exists title body m, (promote_memory root request clock d).2 =
       (write_memory_file root (dir +:+ "/" +:+ slugify (mp_title request) +:+ ".md") title body m "promoted"
          (mc_index_ms clock) d).2).
Proof.
  intros Ht Hs He. destruct (promote_memory root request clock d) as [res d'] eqn:Hp.
  destruct (promote_inv _ _ _ _ _ _ _ _ Ht Hs Hp) as [(e' & _ & -> & ->)|(title & body & m & [w|e'] & d1 & Hw & _ & H)];
    [exists e'; auto | | destruct H as [-> ->]; exists e'; split; [done | right; exists title, body, m; by rewrite Hw]].
  destruct (status_outside root (mp_source_path request) Status_Stale "staled" (mc_status_ms clock)
    (mc_status_index_ms clock) e d1 He) as [e' Hst]. cbv zeta in H. rewrite Hst in H. destruct H as [-> ->]. exists e'.
  split; [done|]. right. exists title, body, m. by rewrite Hw.
Qed.

(** A defect: promoting a durable note to its own place answers that it is ready, and leaves it stale. *)
Theorem self_promotion_stales root request clock dir lay d resp d' r :
  promotion_target (mp_target_scope request) = Some (dir, lay) -> slugify (mp_title request) <> "" ->
  mp_source_path request = dir +:+ "/" +:+ slugify (mp_title request) +:+ ".md" ->
  resolve_managed_memory_path root (mp_source_path request) = Ok r ->
  disk_same (index_path root) (rsp_absolute r) = false ->
  promote_memory root request clock d = (Ok resp, d') ->
  mm_status (mx_metadata resp) = Status_Ready /\
  exists title body m, file_text d' (rsp_absolute r) = Some (render_memory_markdown title body m) /\
    mm_status m = Status_Stale.
Proof.
  intros Ht Hs Hsrc Hr Hi Hp.
  destruct (promote_inv _ _ _ _ _ _ _ _ Ht Hs Hp) as [(e & _ & [=] & _)|(title & body & m & [w|e] & d1 & Hw & Hm & H)];
    [|by destruct H].
  rewrite <- Hsrc in Hw. destruct (write_file_inv _ _ _ _ _ _ _ _ _ _ _ Hw Hr Hi) as [_ Hmx]. cbv zeta in H.
  destruct (set_memory_status _ _ _ _ _ _ d1) as [[st|e] d2] eqn:Est; destruct H as [-> [= ->]]. split; [by rewrite Hmx|].
  unfold set_memory_status in Est. apply op_bind_Ok in Est as (f & d3 & [= Hl <-] & Hst). unfold write_status in Hst.
  pose proof (load_path _ _ _ _ Hl) as Hp'.
  rewrite Hp' in Hst. destruct (write_file_inv _ _ _ _ _ _ _ _ _ _ _ Hst Hr Hi) as [Hf _].
  eexists _, _, _. split; [exact Hf | by destruct (mmf_metadata f)].
Qed.

(** A defect: one note that does not parse makes the refresh of the index fail, and with it every
    operation, after its write. *)
Theorem unreadable_note_blocks_index d root dir p t e :
  p ∈ discover_markdown_paths d dir -> normalize_relative_path root p <> MEMORY_AUTO_INDEX_RELATIVE ->
  disk_read d p = Ok t -> parse_frontmatter t = Err e ->
  exists e', collect_auto_memory_entries d root dir = Err e'.
Proof.
  intros Hp Hn Hr Hf. unfold collect_auto_memory_entries. destruct (map_result _ _) as [l|e'] eqn:E; [|by exists e'].
  apply map_result_Ok in E. destruct (Forall2_in_l _ _ _ _ E Hp) as (y & _ & Hy). exfalso. cbv beta zeta in Hy.
  destruct (String.eqb_spec (normalize_relative_path root p) MEMORY_AUTO_INDEX_RELATIVE); [done|].
  rewrite Hr in Hy. unfold file_timestamp_ms, parse_memory_text in Hy.
  destruct (metadata_readable _ _ _ Hr) as [md Hmd]. rewrite Hmd in Hy. cbn [mem_io result_bind] in Hy.
  by rewrite Hf in Hy.
Qed.

End Records.

(** ** Concrete runs *)

#[export] Instance plain_memory_laws : MemoryDiskLaws dot_disk.
Proof.
  split. intros d p t. unfold disk_read, disk_metadata. cbn. unfold plain_metadata_of.
  destruct (_ !! _); [by eexists | done].
Qed.

Definition build_target : RecordTarget :=
  mkRecordTarget ".nanoclaw/memory/working/tasks/build-1.md" "working-task" "Task Build 1".
Definition build_path : ResolvedStatePath :=
  mkResolvedStatePath ["/"; "work"; ".nanoclaw"; "memory"; "working"; "tasks"; "build-1.md"]
    [".nanoclaw"; "memory"; "working"; "tasks"; "build-1.md"].

(** The answer of a record, when it succeeds. *)
Definition answer (r : result MemoryMutationResponse MemoryError * @DiskState dot_disk) : MemoryMutationResponse :=
  match r.1 with Ok response => response | Err _ => mkMemoryMutationResponse "" "" "" default_metadata end.

Lemma answered r : is_ok r.1 = true -> r = (Ok (answer r), r.2).
Proof. by destruct r as [[|] ?]. Qed.

Definition first_record := record_memory demo_root (task_note "One" "alpha" None) None None demo_clock ∅.
Definition second_record := record_memory demo_root (task_note "Two" "beta" None) None None demo_clock first_record.2.

Lemma demo_readable m :
  forallb (fun l => bool_decide (split_on newline l = [l])) (frontmatter_lines m) = true ->
  is_ok (yaml_frontmatter (str_join nl (map strip_cr (frontmatter_lines m)))) = true -> readable m.
Proof.
  intros Hp Hy. split; [|done]. apply Forall_forall. intros l Hl. rewrite forallb_forall in Hp.
  apply list_elem_of_In, Hp, bool_decide_eq_true in Hl. exact Hl.
Qed.

(** The premises of a run: what a call answers is not computed, the rest is. *)
Ltac premise :=
  lazymatch goal with
  | |- record_memory _ _ _ _ _ _ = (Ok (answer ?r), _) => apply (answered r); vm_compute; reflexivity
  | |- write_status _ _ _ _ _ _ _ = (Ok (answer ?r), _) => apply (answered r); vm_compute; reflexivity
  | |- readable _ => apply demo_readable; vm_compute; reflexivity
  | |- records _ _ _ _ _ _ _ _ => idtac
  | |- _ <> _ => vm_compute; discriminate
  | |- _ => vm_compute; reflexivity
  end.


(** The body after the two records. *)
Example two_notes : found_body demo_root ".nanoclaw/memory/working/tasks/build-1.md" second_record.2 =
  str_join nl ["# Task Build 1"; ""; "## One [7]"; ""; "alpha"; ""; "## Two [7]"; ""; "beta"].
Proof. vm_compute. reflexivity. Qed.

(** A first record whose description is no YAML scalar, and a second one. *)
Definition unreadable_record :=
  record_memory demo_root (task_note "One" "alpha" (Some "status: broken")) None None demo_clock ∅.
Definition replacing_record :=
  record_memory demo_root (task_note "Two" "beta" None) None None demo_clock unreadable_record.2.

(** The first record fails, at the index, after its note was written; the second one succeeds and
    the first note is gone. *)
Example unreadable_then_lost :
  is_ok unreadable_record.1 = false /\ is_ok replacing_record.1 = true /\
  str_contains (default "" (file_text unreadable_record.2 (rsp_absolute build_path))) "alpha" = true /\
  str_contains (default "" (file_text replacing_record.2 (rsp_absolute build_path))) "alpha" = false.
Proof. vm_compute. done. Qed.

Lemma unreadable_note_is_replaced_witness :
  exists body, recorded_body (task_note "Two" "beta" None) "" build_target 7 = Ok body /\
    file_text replacing_record.2 (rsp_absolute build_path) =
      Some (render_memory_markdown "Task Build 1" body.1 (mx_metadata (answer replacing_record))).
Proof.
  apply (unreadable_note_is_replaced demo_root (task_note "Two" "beta" None) None None demo_clock unreadable_record.2
    (answer replacing_record) replacing_record.2 build_target build_path
    (MemErr_InvalidInput "failed to parse memory frontmatter: mapping values are not allowed in this context"));
    premise.
Defined.

(** The document the change of status loaded, and the state after it. *)
Definition loaded_note : ManagedMemoryFile :=
  match load_managed_memory_file demo_root (rt_relative_path build_target) first_record.2 with
  | Ok f => f | Err _ => mkManagedMemoryFile "" "" "" default_metadata
  end.
#[local] Notation late_status := (write_status demo_root loaded_note Status_Stale "forgotten" 9 10 second_record.2).

Lemma status_undoes_concurrent_record_witness :
  found_body demo_root (rt_relative_path build_target) second_record.2 =
    mmf_body loaded_note +:+ trim_end (note_text (task_note "Two" "beta" None) build_target 7) /\
  found_body demo_root (rt_relative_path build_target) late_status.2 = mmf_body loaded_note.
Proof.
  apply (status_undoes_concurrent_record demo_root (task_note "Two" "beta" None) None None demo_clock
    (rt_relative_path build_target) Status_Stale "forgotten" 9 10 first_record.2 loaded_note (answer second_record)
    second_record.2 (answer late_status) late_status.2 build_target build_path);
    premise.
Defined.

(** A note of [memory/] promoted: the answer is an error, and the copy is there. *)
Definition workspace_note : @DiskState dot_disk := ({[ ["/"; "work"; "memory"; "howto.md"] := "# Deploy" ]} : gmap PathBuf string).
Definition outside_promotion := promote_memory demo_root (demo_promotion "memory/howto.md" "Deploy") demo_clock workspace_note.
Example outside_promotion_leaves_copy :
  outside_promotion.1 = Err (MemErr_PathOutsideWorkspace "memory/howto.md") /\
  is_Some (file_text outside_promotion.2 ["/"; "work"; ".nanoclaw"; "memory"; "semantic"; "deploy.md"]).
Proof. vm_compute. split; [done | by eexists]. Qed.

(** Text outside the workspace is read by a promotion that names it with [..]. *)
Definition escaping_promotion := promote_memory demo_root (demo_promotion "../etc/passwd" "Notes") demo_clock
  ({[ ["/"; "etc"; "passwd"] := "secret" ]} : gmap PathBuf string).
Example promotion_reads_outside :
  str_contains (default "" (file_text escaping_promotion.2 ["/"; "work"; ".nanoclaw"; "memory"; "semantic"; "notes.md"]))
    "secret" = true.
Proof. vm_compute. reflexivity. Qed.
