(* ===== verification/MemoryCorpus.v ===== *)
(** * The memory corpus

    Models [crates/memory/src/corpus.rs]: the discovery of documents, the cache of loaded
    documents, and the split of a document into overlapping chunks; and the filters of
    [retrieval_policy.rs].  Glob sets and the walk of the workspace are parameters
    ([CorpusWalk]). *)

From Stdlib Require Import Ascii String.
From stdpp Require Import base list gmap sorting strings.
From Stdlib Require Import Lia.
From S2P Require Import Prelude Text BTree Message Errors TextBuffer WriteLease SandboxPolicy Tools PathPolicy.
From S2P Require Import StoreSearch FileQueries MemoryFiles MemoryOps.

(** ** Documents and chunks *)

(* crates/memory/src/corpus.rs, MemoryCorpusDocument *)
Record MemoryCorpusDocument := mkMemoryCorpusDocument {
  doc_path : string;
  doc_absolute_path : PathBuf;
  doc_snapshot_id : string;
  doc_title : string;
  doc_lines : list string;
  doc_metadata : MemoryDocumentMetadata
}.

(* crates/memory/src/corpus.rs, MemoryCorpus *)
Record MemoryCorpus := mkMemoryCorpus { corpus_documents : list MemoryCorpusDocument }.

(* crates/memory/src/corpus.rs, MemoryCorpus::total_lines *)
Definition total_lines (c : MemoryCorpus) : nat := sum_list_with (fun doc => length (doc_lines doc)) (corpus_documents c).

(* crates/memory/src/corpus.rs, MemoryCorpusChunk *)
Record MemoryCorpusChunk := mkMemoryCorpusChunk {
  ck_path : string;
  ck_snapshot_id : string;
  ck_start_line : nat;
  ck_end_line : nat;
  ck_text : string;
  ck_indexed_text : string;
  ck_metadata : MemoryDocumentMetadata
}.

(* crates/memory/src/config.rs, MemoryChunkingConfig *)
Record MemoryChunkingConfig := mkMemoryChunkingConfig { target_tokens : nat; overlap_tokens : nat }.

(* crates/memory/src/corpus.rs, build_indexed_chunk_text *)
Definition build_indexed_chunk_text (document : MemoryCorpusDocument) (body_text : string) : string :=
  let title := find_map (fun line => trim <$> strip_prefix "#" line) (doc_lines document) in
  str_join nl
    (match title with Some t => if str_is_empty t then [] else ["title: " +:+ t] | None => [] end
     ++ match mm_description (doc_metadata document) with Some d => ["description: " +:+ trim d] | None => [] end
     ++ match mm_memory_type (doc_metadata document) with Some t => ["type: " +:+ mtype_as_str t] | None => [] end
     ++ [trim body_text])%list.

(** The number of lines of a chunk that starts with [lines]. *)
(* crates/memory/src/corpus.rs, chunk_corpus@while end < document.lines.len() *)
Fixpoint chunk_lines (target_chars : nat) (lines : list string) (first : bool) (char_count : nat) : nat :=
  match lines with
  | [] => 0
  | line :: rest =>
      let next := (String.length line + 1)%nat in
      if negb first && (target_chars <? char_count + next)%nat then 0
      else S (chunk_lines target_chars rest false (char_count + next))
  end.

(** The [while overlap_start > start + 1] loop. *)
(* crates/memory/src/corpus.rs, chunk_corpus@let mut overlap_start = end; *)
Fixpoint overlap_from (overlap_chars start : nat) (lines : list string) (overlap_start overlap_size : nat) : nat :=
  match overlap_start with
  | O => O
  | S previous =>
      if (start + 1 <? S previous)%nat then
        let candidate := (String.length (nth previous lines "") + 1)%nat in
        if (overlap_chars <? overlap_size + candidate)%nat then S previous
        else overlap_from overlap_chars start lines previous (overlap_size + candidate)
      else S previous
  end.

(* crates/memory/src/corpus.rs, chunk_corpus@let next_start = if end == start + 1 *)
Definition next_start (overlap_chars : nat) (lines : list string) (start end_ : nat) : nat :=
  if (end_ =? start + 1)%nat then end_
  else Nat.min (overlap_from overlap_chars start lines end_ 0) (end_ - 1).

(** The ranges of the chunks of a document, from [start]; a range per line is enough. *)
(* crates/memory/src/corpus.rs, chunk_corpus@while start < document.lines.len() *)
Fixpoint chunk_ranges (fuel target_chars overlap_chars : nat) (lines : list string) (start : nat) : list (nat * nat) :=
  match fuel with
  | O => []
  | S fuel =>
      if (start <? length lines)%nat then
        let end_ := (start + chunk_lines target_chars (drop start lines) true 0)%nat in
        (start, end_) ::
          (if (length lines <=? end_)%nat then []
           else chunk_ranges fuel target_chars overlap_chars lines (next_start overlap_chars lines start end_))
      else []
  end.

(* crates/memory/src/corpus.rs, chunk_corpus@chunks.push(MemoryCorpusChunk *)
Definition chunk_of (document : MemoryCorpusDocument) (range : nat * nat) : MemoryCorpusChunk :=
  let '(start, end_) := range in
  let text := str_join nl (drop start (take end_ (doc_lines document))) in
  mkMemoryCorpusChunk (doc_path document) (doc_snapshot_id document) (start + 1) end_ text
    (build_indexed_chunk_text document text) (doc_metadata document).

Definition target_chars (config : MemoryChunkingConfig) : nat := Nat.max (Nat.max (target_tokens config) 1 * 4) 32.
Definition overlap_chars (config : MemoryChunkingConfig) : nat := (Nat.max (overlap_tokens config) 1 * 4)%nat.

Definition document_ranges (config : MemoryChunkingConfig) (document : MemoryCorpusDocument) : list (nat * nat) :=
  chunk_ranges (length (doc_lines document)) (target_chars config) (overlap_chars config) (doc_lines document) 0.

(* crates/memory/src/corpus.rs, chunk_corpus *)
Definition chunk_corpus (corpus : MemoryCorpus) (config : MemoryChunkingConfig) : list MemoryCorpusChunk :=
  List.flat_map (fun document => map (chunk_of document) (document_ranges config document)) (corpus_documents corpus).

(** ** Chunks cover a document *)

Definition line_sizes (lines : list string) : nat := sum_list_with (fun line => String.length line + 1)%nat lines.

Lemma chunk_lines_bounds target lines first n :
  (chunk_lines target lines first n <= length lines)%nat /\ (lines <> [] -> first = true -> (0 < chunk_lines target lines first n)%nat).
Proof.
  revert first n. induction lines as [|l lines IH]; intros first n; simpl; [split; [lia | done]|].
  destruct (negb first && _) eqn:E; [split; [lia|]; intros _ ->; done|].
  destruct (IH false (n + (String.length l + 1))%nat) as [H _]. split; [lia | intros; lia].
Qed.

(** Lines after the first are taken while the target is kept. *)
Lemma chunk_rest_size target lines n : (n <= target)%nat ->
  (n + line_sizes (take (chunk_lines target lines false n) lines) <= target)%nat.
Proof.
  revert n. induction lines as [|l lines IH]; intros n Hn; [simpl; lia|]. cbn [chunk_lines negb andb].
  destruct (Nat.ltb_spec target (n + (String.length l + 1))); [simpl; lia|].
  specialize (IH (n + (String.length l + 1))%nat ltac:(lia)). simpl. unfold line_sizes in *. lia.
Qed.

Lemma chunk_size target lines :
  (chunk_lines target lines true 0 <= 1)%nat \/
  (line_sizes (take (chunk_lines target lines true 0) lines) <= target)%nat.
Proof.
  destruct lines as [|l lines]; [left; simpl; lia|]. cbn [chunk_lines negb andb].
  destruct (Nat.le_gt_cases (0 + (String.length l + 1)) target) as [Hl|Hl].
  - right. pose proof (chunk_rest_size target lines _ Hl). simpl in *. unfold line_sizes in *. lia.
  - left. destruct lines as [|l' lines]; [simpl; lia|]. cbn [chunk_lines negb andb].
    destruct (Nat.ltb_spec target (0 + (String.length l + 1) + (String.length l' + 1))); lia.
Qed.

Lemma overlap_from_bounds chars start lines o size :
  (start + 1 <= o -> start + 1 <= overlap_from chars start lines o size <= o)%nat.
Proof.
  revert size. induction o as [|o IH]; intros size Ho; [lia|]. cbn [overlap_from].
  destruct (Nat.ltb_spec (start + 1) (S o)); [|lia]. case_match; [lia|].
  specialize (IH (size + (String.length (nth o lines "") + 1))%nat ltac:(lia)). lia.
Qed.

(** The next chunk starts behind the last one's start and leaves no gap. *)
Lemma next_start_bounds chars lines start end_ :
  (start < end_ -> start < next_start chars lines start end_ <= end_)%nat.
Proof.
  intros H. unfold next_start. destruct (Nat.eqb_spec end_ (start + 1)); [lia|].
  pose proof (overlap_from_bounds chars start lines end_ 0). lia.
Qed.

(** A range of lines of a chunk. *)
Definition range_ok (target : nat) (lines : list string) (range : nat * nat) : Prop :=
  (range.1 < range.2 <= length lines)%nat /\
  (range.2 = S range.1 \/ (line_sizes (drop range.1 (take range.2 lines)) <= target)%nat).

Lemma first_range target lines start : (start < length lines)%nat ->
  range_ok target lines (start, start + chunk_lines target (drop start lines) true 0)%nat.
Proof.
  intros H. destruct (chunk_lines_bounds target (drop start lines) true 0) as [Hb Hp]. rewrite length_drop in Hb.
  assert (Hn : drop start lines <> []) by (intros Hx%(f_equal length); rewrite length_drop in Hx; simpl in Hx; lia).
  specialize (Hp Hn eq_refl). unfold range_ok. simpl. split; [lia|].
  destruct (chunk_size target (drop start lines)); [left; lia|]. right.
  by rewrite <- take_drop_commute.
Qed.

Lemma chunk_ranges_cover target overlap lines fuel start : (length lines <= start + fuel)%nat ->
  Forall (range_ok target lines) (chunk_ranges fuel target overlap lines start) /\
  Forall (fun range => start <= range.1)%nat (chunk_ranges fuel target overlap lines start) /\
  StronglySorted lt (map fst (chunk_ranges fuel target overlap lines start)) /\
  forall i, (start <= i < length lines)%nat ->
    exists range, range ∈ chunk_ranges fuel target overlap lines start /\ (range.1 <= i < range.2)%nat.
Proof.
  revert start. induction fuel as [|fuel IH]; intros start Hf; cbn [chunk_ranges].
  { split_and!; [done | done | constructor | intros; lia]. }
  destruct (Nat.ltb_spec start (length lines)) as [Hs|Hs]; [|split_and!; [done | done | constructor | intros; lia]].
  pose proof (first_range target lines start Hs) as Hr. set (end_ := (start + chunk_lines target (drop start lines) true 0)%nat) in *.
  destruct Hr as [[Hlt Hle] Hsize] eqn:Hr'. simpl in Hlt, Hle.
  destruct (Nat.leb_spec (length lines) end_) as [He|He].
  { split_and!; [by constructor | by constructor | by repeat constructor | intros i Hi; exists (start, end_); split; [by left | simpl; lia]]. }
  pose proof (next_start_bounds overlap lines start end_ Hlt) as Hn.
  destruct (IH (next_start overlap lines start end_) ltac:(lia)) as (H1 & H2 & H3 & H4). split_and!.
  - by constructor.
  - constructor; [done|]. eapply Forall_impl; [exact H2|]. simpl. lia.
  - simpl. constructor; [done|]. apply Forall_forall. intros x Hx. rewrite Forall_forall in H2.
    change (map ?f ?l) with (f <$> l) in Hx. apply list_elem_of_fmap in Hx as (y & -> & Hy). specialize (H2 _ Hy). lia.
  - intros i Hi. destruct (Nat.lt_ge_cases i end_); [exists (start, end_); split; [by left | simpl; lia]|].
    destruct (H4 i ltac:(lia)) as (range & Hin & Hrange). exists range. split; [by right | done].
Qed.

Lemma join_size lines : lines <> [] -> S (String.length (str_join nl lines)) = line_sizes lines.
Proof.
  induction lines as [|l lines IH]; [done|]. intros _. destruct lines as [|l' lines]; [simpl; unfold line_sizes; simpl; lia|].
  rewrite join_cons, !slength_app by done. specialize (IH ltac:(done)). unfold line_sizes in *. simpl sum_list_with in *.
  change (String.length nl) with 1%nat. lia.
Qed.

(** A joined text has each of its lines in it. *)
Lemma join_has_line lines line : line ∈ lines -> exists before after, str_join nl lines = before +:+ line +:+ after.
Proof.
  induction 1 as [line lines|line l lines Hin (a & b & IH)]; destruct lines as [|l' lines].
  - exists "", "". cbn. by rewrite sapp_nil_r.
  - rewrite join_cons by done. by exists "", (nl +:+ str_join nl (l' :: lines)).
  - by apply elem_of_nil in Hin.
  - rewrite join_cons, IH by done. exists (l +:+ nl +:+ a), b. by rewrite !sapp_assoc.
Qed.

(** A chunk as a piece of a document: lines of it, numbered from one, with the document's data; a
    single line, or a text shorter than the target of four characters a token. *)
Record piece_of (config : MemoryChunkingConfig) (document : MemoryCorpusDocument) (chunk : MemoryCorpusChunk) : Prop := {
  pc_path : ck_path chunk = doc_path document;
  pc_snapshot : ck_snapshot_id chunk = doc_snapshot_id document;
  pc_metadata : ck_metadata chunk = doc_metadata document;
  pc_lines : (1 <= ck_start_line chunk <= ck_end_line chunk)%nat /\ (ck_end_line chunk <= length (doc_lines document))%nat;
  pc_text : ck_text chunk =
    str_join nl (drop (ck_start_line chunk - 1) (take (ck_end_line chunk) (doc_lines document)));
  pc_indexed : exists heading, ck_indexed_text chunk = heading +:+ trim (ck_text chunk);
  pc_size : ck_end_line chunk = ck_start_line chunk \/
    (String.length (ck_text chunk) < Nat.max (Nat.max (target_tokens config) 1 * 4) 32)%nat
}.

(** The chunks of a document: pieces of it, each starting behind the one before, with every line in one. *)
Record split_of (config : MemoryChunkingConfig) (document : MemoryCorpusDocument) (chunks : list MemoryCorpusChunk) : Prop := {
  so_pieces : Forall (piece_of config document) chunks;
  so_order : StronglySorted (fun c c' => ck_start_line c < ck_start_line c')%nat chunks;
  so_lines : forall i line, doc_lines document !! i = Some line ->
    exists chunk before after, chunk ∈ chunks /\ (ck_start_line chunk <= i + 1 <= ck_end_line chunk)%nat /\
      ck_text chunk = before +:+ line +:+ after
}.

Lemma indexed_text_ends document text : exists heading, build_indexed_chunk_text document text = heading +:+ trim text.
Proof.
  unfold build_indexed_chunk_text. cbv zeta. generalize (trim text) as t. intros t. rewrite !app_assoc.
  match goal with |- context [str_join nl (?h ++ [t])%list] => generalize h as front end. intros [|x front]; [by exists ""|].
  rewrite join_app by done. exists (str_join nl (x :: front) +:+ nl). by rewrite !sapp_assoc.
Qed.

Lemma chunk_is_piece config document range : range_ok (target_chars config) (doc_lines document) range ->
  piece_of config document (chunk_of document range).
Proof.
  destruct range as [start end_]. intros [[Hlt Hle] Hsize]. cbn [fst snd] in *. unfold chunk_of.
  split; cbn [ck_path ck_snapshot_id ck_metadata ck_start_line ck_end_line ck_text ck_indexed_text]; try done.
  - lia.
  - f_equal. f_equal. lia.
  - apply indexed_text_ends.
  - destruct Hsize as [->|Hsize]; [left; lia|]. right. fold (target_chars config).
    rewrite <- join_size in Hsize; [lia|]. intros Hn%(f_equal length). rewrite length_drop, length_take in Hn. cbn in Hn. lia.
Qed.

Lemma document_is_split config document : split_of config document (map (chunk_of document) (document_ranges config document)).
Proof.
  destruct (chunk_ranges_cover (target_chars config) (overlap_chars config) (doc_lines document)
              (length (doc_lines document)) 0 ltac:(lia)) as (H1 & _ & H3 & H4).
  fold (document_ranges config document) in *. split.
  - apply Forall_fmap. eapply Forall_impl; [exact H1|]. intros range Hr. by apply chunk_is_piece.
  - clear -H3. induction (document_ranges config document) as [|[a b] l IH]; [constructor|]. cbn in *.
    inversion H3 as [|? ? Hs Hf]; subst. constructor; [by apply IH|]. apply Forall_fmap.
    apply (Forall_fmap fst) in Hf. eapply Forall_impl; [exact Hf|]. intros [a' b']. cbn. lia.
  - intros i line Hi. destruct (H4 i) as ([a b] & Hin & Hr); [apply lookup_lt_Some in Hi; lia|]. cbn in Hr.
    assert (Hl : line ∈ drop a (take b (doc_lines document))).
    { apply list_elem_of_lookup. exists (i - a)%nat. rewrite lookup_drop, lookup_take_lt by lia.
      by replace (a + (i - a))%nat with i by lia. }
    destruct (join_has_line _ _ Hl) as (before & after & He).
    exists (chunk_of document (a, b)), before, after. split_and!; [|cbn; lia..|done].
    change (map ?f ?l) with (f <$> l). apply list_elem_of_fmap. eauto.
Qed.


Definition plain_document (path : string) (lines : list string) : MemoryCorpusDocument :=
  mkMemoryCorpusDocument path [] "" path lines default_metadata.
Example chunk_examples :
  map (fun c => (ck_start_line c, ck_end_line c))
    (chunk_corpus (mkMemoryCorpus [plain_document "MEMORY.md"
       ["semantic line one"; "semantic line two"; "semantic line three"; "semantic line four"]])
       (mkMemoryChunkingConfig 8 1)) = [(1, 1); (2, 2); (3, 3); (4, 4)]%nat /\
  map (fun c => (ck_start_line c, ck_end_line c))
    (chunk_corpus (mkMemoryCorpus [plain_document "MEMORY.md" ["line1"; "line2"; "line3"; "line4"; "line5"; "line6"]])
       (mkMemoryChunkingConfig 2 1)) = [(1, 5); (5, 6)]%nat.
Proof. vm_compute. done. Qed.

(** ** Filters *)

(* crates/memory/src/backend.rs, MemorySearchRequest *)
Record MemorySearchRequest := mkMemorySearchRequest {
  sr_query : string;
  sr_limit : option N;
  sr_path_prefix : option string;
  sr_scopes : option (list MemoryScope);
  sr_types : option (list MemoryType);
  sr_tags : option (list string);
  sr_session_id : option SessionId;
  sr_agent_session_id : option AgentSessionId;
  sr_agent_name : option string;
  sr_task_id : option string;
  sr_include_stale : option bool
}.

(* crates/memory/src/backend.rs, MemoryListRequest *)
Record MemoryListRequest := mkMemoryListRequest {
  lr_limit : option N;
  lr_path_prefix : option string;
  lr_scopes : option (list MemoryScope);
  lr_types : option (list MemoryType);
  lr_tags : option (list string);
  lr_session_id : option SessionId;
  lr_agent_session_id : option AgentSessionId;
  lr_agent_name : option string;
  lr_task_id : option string;
  lr_include_stale : option bool
}.

(** [str::eq_ignore_ascii_case]. *)
Definition eq_ignore_ascii_case (a b : string) : bool := String.eqb (to_ascii_lowercase a) (to_ascii_lowercase b).

(* crates/memory/src/retrieval_policy.rs, tag_eq *)
Definition tag_eq (left right : string) : bool := eq_ignore_ascii_case left right.

(* crates/memory/src/retrieval_policy.rs, status_visible_in_retrieval *)
Definition status_visible_in_retrieval (status : MemoryStatus) (include_stale : bool) : bool :=
  include_stale || bool_decide (status = Status_Ready).

(* crates/memory/src/retrieval_policy.rs, matches_filters *)
Definition matches_filters (path : string) (metadata : MemoryDocumentMetadata) (path_prefix : option string)
    (scopes : option (list MemoryScope)) (types : option (list MemoryType)) (tags : option (list string))
    (session_id : option SessionId) (agent_session_id : option AgentSessionId) (agent_name task_id : option string)
    (include_stale : bool) : bool :=
  if match normalize_optional path_prefix with Some prefix => negb (starts_with path prefix) | None => false end then false
  else if match scopes with
          | Some scopes => negb (is_nil scopes) && negb (bool_decide (mm_scope metadata ∈ scopes))
          | None => false
          end then false
  else if match types with
          | Some types => negb (is_nil types)
              && negb (match mm_memory_type metadata with Some t => bool_decide (t ∈ types) | None => false end)
          | None => false
          end then false
  else if match tags with
          | Some tags => negb (is_nil tags)
              && negb (forallb (fun tag => existsb (fun candidate => tag_eq candidate tag) (mm_tags metadata)) tags)
          | None => false
          end then false
  else if match session_id with Some id => negb (bool_decide (mm_session_id metadata = Some id)) | None => false end
  then false
  else if match agent_session_id with
          | Some id => negb (bool_decide (mm_agent_session_id metadata = Some id)) | None => false end
  then false
  else if match agent_name with
          | Some name => match mm_agent_name metadata with
                         | Some candidate => negb (eq_ignore_ascii_case candidate name) | None => true end
          | None => false
          end then false
  else if match task_id with Some id => negb (bool_decide (mm_task_id metadata = Some id)) | None => false end then false
  else status_visible_in_retrieval (mm_status metadata) include_stale.

(* crates/memory/src/retrieval_policy.rs, matches_search_filters *)
Definition matches_search_filters (path : string) (metadata : MemoryDocumentMetadata) (request : MemorySearchRequest) : bool :=
  matches_filters path metadata (sr_path_prefix request) (sr_scopes request) (sr_types request) (sr_tags request)
    (sr_session_id request) (sr_agent_session_id request) (sr_agent_name request) (sr_task_id request)
    (default false (sr_include_stale request)).

(* crates/memory/src/retrieval_policy.rs, matches_list_filters *)
Definition matches_list_filters (path : string) (metadata : MemoryDocumentMetadata) (request : MemoryListRequest) : bool :=
  matches_filters path metadata (lr_path_prefix request) (lr_scopes request) (lr_types request) (lr_tags request)
    (lr_session_id request) (lr_agent_session_id request) (lr_agent_name request) (lr_task_id request)
    (default false (lr_include_stale request)).

(** ** Discovery *)

(* crates/memory/src/config.rs, MemoryRuntimeExportConfig *)
Record MemoryRuntimeExportConfig := mkMemoryRuntimeExportConfig {
  enabled : bool;
  output_dir : PathBuf;
  max_sessions : N;
  include_search_corpus : bool;
  max_search_corpus_chars : N
}.

(* crates/memory/src/config.rs, MemoryCorpusConfig *)
Record MemoryCorpusConfig := mkMemoryCorpusConfig {
  include_globs : list string;
  extra_paths : list PathBuf;
  runtime_export : MemoryRuntimeExportConfig
}.

(* crates/memory/src/corpus.rs, MemoryCorpusFileFingerprint *)
Record MemoryCorpusFileFingerprint := mkFileFingerprint {
  ff_len : N;
  ff_modified_at_ms : option N;
  ff_modified_at_ns : option N
}.
#[global] Instance FileFingerprint_eq_dec : EqDecision MemoryCorpusFileFingerprint.
Proof. solve_decision. Defined.

(* crates/memory/src/corpus.rs, MemoryCorpusDirectoryFingerprint *)
Record MemoryCorpusDirectoryFingerprint := mkDirectoryFingerprint {
  df_exists : bool;
  df_is_dir : bool;
  df_modified_at_ns : option N
}.
#[global] Instance DirectoryFingerprint_eq_dec : EqDecision MemoryCorpusDirectoryFingerprint.
Proof. solve_decision. Defined.

(** [BTreeMap<PathBuf, MemoryCorpusDirectoryFingerprint>], by ascending key. *)
Definition Directories : Type := list (PathBuf * MemoryCorpusDirectoryFingerprint).

(** [entry(path).or_insert_with(..)]: an entry that is there stays. *)
Fixpoint dir_or_insert (p : PathBuf) (v : MemoryCorpusDirectoryFingerprint) (m : Directories) : Directories :=
  match m with
  | [] => [(p, v)]
  | (q, w) :: m' =>
      match path_compare p q with
      | Lt => (p, v) :: m
      | Eq => m
      | Gt => (q, w) :: dir_or_insert p v m'
      end
  end.

(** [insert]: the new value replaces the old one. *)
Fixpoint dir_insert (p : PathBuf) (v : MemoryCorpusDirectoryFingerprint) (m : Directories) : Directories :=
  match m with
  | [] => [(p, v)]
  | (q, w) :: m' =>
      match path_compare p q with
      | Lt => (p, v) :: m
      | Eq => (q, v) :: m'
      | Gt => (q, w) :: dir_insert p v m'
      end
  end.

(* crates/memory/src/corpus.rs, MemoryCorpusDiscoverySnapshot *)
Record MemoryCorpusDiscoverySnapshot := mkDiscovery { ds_candidates : list PathBuf; ds_directories : Directories }.

(** [Vec::dedup]. *)
Fixpoint dedup_paths (l : list PathBuf) : list PathBuf :=
  match l with
  | p :: ((q :: _) as rest) => if bool_decide (p = q) then dedup_paths rest else p :: dedup_paths rest
  | _ => l
  end.

(* crates/memory/src/corpus.rs, MemoryCorpusDiscoverySnapshot::extend *)
Definition discovery_extend (a b : MemoryCorpusDiscoverySnapshot) : MemoryCorpusDiscoverySnapshot :=
  mkDiscovery (ds_candidates a ++ ds_candidates b)
    (foldl (fun m e => dir_insert e.1 e.2 m) (ds_directories a) (ds_directories b)).

(* crates/memory/src/corpus.rs, MemoryCorpusDiscoverySnapshot::sort_and_dedup *)
Definition sort_and_dedup (s : MemoryCorpusDiscoverySnapshot) : MemoryCorpusDiscoverySnapshot :=
  mkDiscovery (dedup_paths (merge_sort path_le (ds_candidates s))) (ds_directories s).

(** [GlobSet] of the include patterns, and the walk of the [ignore] crate with hidden files and
    without links (the paths of the entries that were read). *)
Class CorpusWalk (D : Disk) := {
  globset : list string -> result (PathBuf -> bool) string;
  walk_corpus : DiskState -> PathBuf -> list PathBuf
}.

Section Corpus.
Context {D : Disk} {K : MemoryDisk D} {W : CorpusWalk D} {M : MemoryText} {Sh : Sha256}.

(** [Path::is_dir] and [Path::is_file]. *)
Definition is_dir (d : DiskState) (p : PathBuf) : bool :=
  match disk_metadata d p with Ok m => fmd_is_dir m | Err _ => false end.
Definition is_file (d : DiskState) (p : PathBuf) : bool :=
  match disk_metadata d p with Ok m => fmd_is_file m | Err _ => false end.

Definition capped_nanos (ns : N) : N := N.min ns u64_max.

(* crates/memory/src/corpus.rs, load_file_fingerprint *)
Definition load_file_fingerprint (d : DiskState) (path : PathBuf)
    : result (option MemoryCorpusFileFingerprint) MemoryError :=
  match disk_metadata d path with
  | Ok m => if fmd_is_file m then
              Ok (Some (mkFileFingerprint (fmd_len m) (capped_millis <$> fmd_modified_ns m)
                          (capped_nanos <$> fmd_modified_ns m)))
            else Ok None
  | Err Io_NotFound => Ok None
  | Err error => Err (MemErr_Io error)
  end.

(* crates/memory/src/corpus.rs, directory_fingerprint_from_metadata *)
Definition directory_fingerprint_from_metadata (m : FileMetadata) : MemoryCorpusDirectoryFingerprint :=
  mkDirectoryFingerprint true (fmd_is_dir m) (capped_nanos <$> fmd_modified_ns m).

(* crates/memory/src/corpus.rs, load_directory_fingerprint *)
Definition load_directory_fingerprint (d : DiskState) (path : PathBuf)
    : result MemoryCorpusDirectoryFingerprint MemoryError :=
  match disk_metadata d path with
  | Ok m => Ok (directory_fingerprint_from_metadata m)
  | Err Io_NotFound => Ok (mkDirectoryFingerprint false false None)
  | Err error => Err (MemErr_Io error)
  end.

(* crates/memory/src/corpus.rs, load_directory_fingerprint_sync *)
Definition load_directory_fingerprint_sync (d : DiskState) (path : PathBuf) : MemoryCorpusDirectoryFingerprint :=
  match disk_metadata d path with
  | Ok m => directory_fingerprint_from_metadata m
  | Err Io_NotFound => mkDirectoryFingerprint false false None
  | Err _ => mkDirectoryFingerprint true false None
  end.

(* crates/memory/src/corpus.rs, insert_directory_fingerprint_sync *)
Definition insert_directory_fingerprint_sync (d : DiskState) (directories : Directories) (path : PathBuf) : Directories :=
  dir_or_insert path (load_directory_fingerprint_sync d path) directories.

(** One entry of a walk; [keep] is the test on a file. *)
(* crates/memory/src/corpus.rs, discover_default_candidates@for entry in walker.build() *)
Definition discover_entry (d : DiskState) (keep : PathBuf -> bool) (s : MemoryCorpusDiscoverySnapshot) (path : PathBuf)
    : MemoryCorpusDiscoverySnapshot :=
  if is_dir d path then
    mkDiscovery (ds_candidates s) (insert_directory_fingerprint_sync d (ds_directories s) path)
  else if is_file d path && keep path then mkDiscovery (ds_candidates s ++ [path]) (ds_directories s)
  else s.

(* crates/memory/src/corpus.rs, discover_default_candidates *)
Definition discover_default_candidates (d : DiskState) (workspace_root : PathBuf) (include_set : PathBuf -> bool)
    : MemoryCorpusDiscoverySnapshot :=
  foldl (discover_entry d (fun path => path_starts_with path workspace_root
                                       && include_set (drop (length workspace_root) path)))
    (mkDiscovery [] (insert_directory_fingerprint_sync d [] workspace_root)) (walk_corpus d workspace_root).

Definition extra_absolute (workspace_root value : PathBuf) : PathBuf :=
  if is_absolute value then value else path_join workspace_root value.

(* crates/memory/src/corpus.rs, resolve_extra_paths@for value in extras *)
Definition resolve_extra_path (d : DiskState) (workspace_root : PathBuf) (s : MemoryCorpusDiscoverySnapshot)
    (value : PathBuf) : result MemoryCorpusDiscoverySnapshot MemoryError :=
  let absolute := extra_absolute workspace_root value in
  if negb (path_starts_with absolute workspace_root) then Err (MemErr_PathOutsideWorkspace (path_display value))
  else if is_dir d absolute then
    Ok (foldl (discover_entry d (fun path => bool_decide (path_extension path = Some "md")))
          (mkDiscovery (ds_candidates s) (insert_directory_fingerprint_sync d (ds_directories s) absolute))
          (walk_corpus d absolute))
  else if is_file d absolute then Ok (mkDiscovery (ds_candidates s ++ [absolute]) (ds_directories s))
  else Ok s.

(* crates/memory/src/corpus.rs, resolve_extra_paths *)
Fixpoint resolve_extra_paths (d : DiskState) (workspace_root : PathBuf) (extras : list PathBuf)
    (s : MemoryCorpusDiscoverySnapshot) : result MemoryCorpusDiscoverySnapshot MemoryError :=
  match extras with
  | [] => Ok s
  | value :: rest => s <-? resolve_extra_path d workspace_root s value; resolve_extra_paths d workspace_root rest s
  end.

(** The discovery of [load_memory_corpus_inner]. *)
(* crates/memory/src/corpus.rs, load_memory_corpus_inner@let mut discovery = discover_default_candidates *)
Definition discover (d : DiskState) (workspace_root : PathBuf) (include_set : PathBuf -> bool)
    (config : MemoryCorpusConfig) : result MemoryCorpusDiscoverySnapshot MemoryError :=
  let discovery := discover_default_candidates d workspace_root include_set in
  extra <-? resolve_extra_paths d workspace_root (extra_paths config) (mkDiscovery [] []);
  Ok (sort_and_dedup (discovery_extend discovery extra)).

(* crates/memory/src/corpus.rs, is_extra_path *)
Definition is_extra_path (d : DiskState) (workspace_root : PathBuf) (config : MemoryCorpusConfig) (absolute_path : PathBuf)
    : bool :=
  existsb (fun value => let path := extra_absolute workspace_root value in
                        if is_dir d path then path_starts_with absolute_path path else bool_decide (absolute_path = path))
    (extra_paths config).

(** ** Loading, with the cache *)

(* crates/memory/src/corpus.rs, CachedMemoryCorpusDocument *)
Record CachedMemoryCorpusDocument := mkCachedDocument {
  cd_fingerprint : MemoryCorpusFileFingerprint;
  cd_document : MemoryCorpusDocument
}.

(* crates/memory/src/corpus.rs, MemoryCorpusCacheEntry *)
Record MemoryCorpusCacheEntry := mkCacheEntry {
  ce_discovery : MemoryCorpusDiscoverySnapshot;
  ce_documents : btree CachedMemoryCorpusDocument
}.

(** [MemoryCorpusCacheKey], and the map of the process. *)
(* crates/memory/src/corpus.rs, MemoryCorpusCacheKey *)
Definition CacheKey : Type := PathBuf * list string * list PathBuf.
Definition CorpusCache : Type := gmap (PathBuf * list string * list PathBuf) MemoryCorpusCacheEntry.
Definition cache_key (workspace_root : PathBuf) (config : MemoryCorpusConfig) : CacheKey :=
  (workspace_root, include_globs config, extra_paths config).

(* crates/memory/src/corpus.rs, cached_discovery_is_fresh *)
Fixpoint discovery_is_fresh (d : DiskState) (directories : Directories) : result bool MemoryError :=
  match directories with
  | [] => Ok true
  | (path, expected) :: rest =>
      actual <-? load_directory_fingerprint d path;
      if bool_decide (actual = expected) then discovery_is_fresh d rest else Ok false
  end.

(* crates/memory/src/corpus.rs, cached_documents_are_fresh *)
Fixpoint documents_are_fresh (d : DiskState) (documents : btree CachedMemoryCorpusDocument) : result bool MemoryError :=
  match documents with
  | [] => Ok true
  | (_, cached) :: rest =>
      current <-? load_file_fingerprint d (doc_absolute_path (cd_document cached));
      match current with
      | None => Ok false
      | Some current =>
          if bool_decide (current = cd_fingerprint cached) then documents_are_fresh d rest else Ok false
      end
  end.

(* crates/memory/src/corpus.rs, reuse_cached_document *)
Definition reuse_cached_document (cached : option MemoryCorpusCacheEntry) (relative_path : string)
    (absolute_path : PathBuf) (fingerprint : MemoryCorpusFileFingerprint) : option MemoryCorpusDocument :=
  cached ← cached;
  document ← bt_get relative_path (ce_documents cached);
  if bool_decide (doc_absolute_path (cd_document document) = absolute_path)
     && bool_decide (cd_fingerprint document = fingerprint)
  then Some (cd_document document) else None.

(* crates/memory/src/corpus.rs, load_document_from_disk *)
Definition load_document_from_disk (d : DiskState) (absolute_path : PathBuf) (relative_path : string)
    (modified_at_ms : option N) : result MemoryCorpusDocument MemoryError :=
  text <-? mem_io (disk_read d absolute_path);
  let lines := parse_lines text in
  parsed <-? parse_frontmatter text;
  Ok (mkMemoryCorpusDocument relative_path absolute_path (stable_hash text)
        (extract_title lines (pf_body_start_line parsed) relative_path) lines
        (merge_metadata (infer_metadata_from_path relative_path) (pf_frontmatter parsed) modified_at_ms)).

(* crates/memory/src/corpus.rs, load_memory_corpus_inner@for absolute_path in &discovery.candidates *)
Fixpoint load_candidates (d : DiskState) (workspace_root : PathBuf) (include_set : PathBuf -> bool)
    (config : MemoryCorpusConfig) (cached : option MemoryCorpusCacheEntry) (candidates : list PathBuf)
    (documents : btree CachedMemoryCorpusDocument) : result (btree CachedMemoryCorpusDocument) MemoryError :=
  match candidates with
  | [] => Ok documents
  | absolute_path :: rest =>
      fingerprint <-? load_file_fingerprint d absolute_path;
      match fingerprint with
      | None => load_candidates d workspace_root include_set config cached rest documents
      | Some fingerprint =>
          if negb (path_starts_with absolute_path workspace_root) then
            Err (MemErr_PathOutsideWorkspace (path_display absolute_path))
          else
            let relative := drop (length workspace_root) absolute_path in
            let relative_path := str_join "/" relative in
            if negb (include_set relative) && negb (is_extra_path d workspace_root config absolute_path) then
              load_candidates d workspace_root include_set config cached rest documents
            else
              document <-?
                match reuse_cached_document cached relative_path absolute_path fingerprint with
                | Some document => Ok document
                | None => load_document_from_disk d absolute_path relative_path (ff_modified_at_ms fingerprint)
                end;
              load_candidates d workspace_root include_set config cached rest
                (bt_insert relative_path (mkCachedDocument fingerprint document) documents)
      end
  end.

(** Whether the cached entry answers the load. *)
(* crates/memory/src/corpus.rs, load_memory_corpus_inner@if let Some(cached) = cached.as_deref() *)
Definition cache_is_fresh (d : DiskState) (entry : MemoryCorpusCacheEntry) : result bool MemoryError :=
  discovery_fresh <-? discovery_is_fresh d (ds_directories (ce_discovery entry));
  if discovery_fresh then documents_are_fresh d (ce_documents entry) else Ok false.

Definition corpus_of (documents : btree CachedMemoryCorpusDocument) : MemoryCorpus :=
  mkMemoryCorpus (map (fun e => cd_document e.2) documents).

(** The corpus of a discovery that is run now. *)
Definition load_fresh (d : DiskState) (workspace_root : PathBuf) (include_set : PathBuf -> bool)
    (config : MemoryCorpusConfig) (cached : option MemoryCorpusCacheEntry) : result MemoryCorpusCacheEntry MemoryError :=
  discovery <-? discover d workspace_root include_set config;
  documents <-? load_candidates d workspace_root include_set config cached (ds_candidates discovery) [];
  Ok (mkCacheEntry discovery documents).

(* crates/memory/src/corpus.rs, load_memory_corpus_inner *)
Definition load_memory_corpus_inner (d : DiskState) (workspace_root : PathBuf) (config : MemoryCorpusConfig)
    (cache : CorpusCache) : result MemoryCorpus MemoryError * CorpusCache :=
  match globset (include_globs config) with
  | Err e => (Err (MemErr_Glob e), cache)
  | Ok include_set =>
      let cached := cache !! cache_key workspace_root config in
      match match cached with Some entry => cache_is_fresh d entry | None => Ok false end with
      | Err e => (Err e, cache)
      | Ok true => (Ok (corpus_of (default [] (ce_documents <$> cached))), cache)
      | Ok false =>
          match load_fresh d workspace_root include_set config cached with
          | Err e => (Err e, cache)
          | Ok entry => (Ok (corpus_of (ce_documents entry)), <[cache_key workspace_root config := entry]> cache)
          end
      end
  end.

End Corpus.
