(* ===== verification/MemoryCache.v ===== *)
(** * The cache of the memory corpus

    A load that answers from the cache, or that reuses cached documents, gives the corpus a load
    without a cache gives, as long as a fingerprint that is unchanged means that the file or
    directory is, and extra paths lie where the discovery looks. *)

From Stdlib Require Import Ascii String.
From stdpp Require Import base list gmap sorting strings.
From Stdlib Require Import Lia.
From S2P Require Import Prelude Text BTree Message Errors TextBuffer WriteLease SandboxPolicy Tools PathPolicy.
From S2P Require Import StoreSearch FileQueries Mutation PatchFilesProps MemoryFiles MemoryOps MemoryProps MemoryCorpus.

(** A walk lists paths under the directory it starts from. *)
Class CorpusWalkLaws (D : Disk) {W : CorpusWalk D} : Prop := {
  walk_under : forall d r p, p ∈ walk_corpus d r -> path_starts_with p r = true
}.

Section Cache.
Context {D : Disk} {K : MemoryDisk D} {W : CorpusWalk D} {WL : CorpusWalkLaws D} {M : MemoryText} {Sh : Sha256}.
Context (root : PathBuf) (config : MemoryCorpusConfig) (include_set : PathBuf -> bool).

(** ** Every candidate is loaded *)

(** A candidate is a file of the workspace that is included or an extra path. *)
Definition candidate_ok (d : DiskState) (p : PathBuf) : Prop :=
  is_file d p = true /\ path_starts_with p root = true /\
  include_set (drop (length root) p) || is_extra_path d root config p = true.

Lemma path_starts_trans p q r : path_starts_with p q = true -> path_starts_with q r = true -> path_starts_with p r = true.
Proof. rewrite !path_starts_with_app. intros [a ->] [b ->]. exists (b ++ a)%list. by rewrite app_assoc. Qed.

Lemma discover_entries_ok (P : PathBuf -> Prop) d keep s l :
  Forall P (ds_candidates s) -> (forall p, p ∈ l -> is_file d p = true -> keep p = true -> P p) ->
  Forall P (ds_candidates (foldl (discover_entry d keep) s l)).
Proof.
  revert s. induction l as [|p l IH]; intros s Hs Hl; [done|]. cbn [foldl]. apply IH; [|intros q Hq; apply Hl; by right].
  unfold discover_entry. destruct (is_dir d p); [done|]. destruct (is_file d p && keep p) eqn:E; [|done].
  apply andb_true_iff in E as [Hf Hk]. apply Forall_app. split; [done|]. constructor; [|done]. apply Hl; [by left | done..].
Qed.

Lemma extra_ok d value p : value ∈ extra_paths config ->
  (if is_dir d (extra_absolute root value) then path_starts_with p (extra_absolute root value) = true
   else p = extra_absolute root value) -> is_extra_path d root config p = true.
Proof.
  intros Hv Hp. unfold is_extra_path. apply existsb_exists. exists value. rewrite <- list_elem_of_In. split; [done|].
  cbv zeta. destruct (is_dir d (extra_absolute root value)); [done | by apply bool_decide_eq_true].
Qed.

Lemma resolve_extra_ok d extras s s' : (forall v, v ∈ extras -> v ∈ extra_paths config) ->
  Forall (candidate_ok d) (ds_candidates s) -> resolve_extra_paths d root extras s = Ok s' ->
  Forall (candidate_ok d) (ds_candidates s').
Proof.
  revert s. induction extras as [|v extras IH]; intros s Hv Hs; cbn [resolve_extra_paths]; [by intros [= <-]|].
  destruct (resolve_extra_path d root s v) as [s1|] eqn:E; [|done]. cbn [result_bind]. apply IH; [set_solver|].
  specialize (Hv v (list_elem_of_here _ _)). unfold resolve_extra_path in E. cbv zeta in E.
  pose proof (extra_ok d v) as Hx. set (a := extra_absolute root v) in *.
  destruct (path_starts_with a root) eqn:Ea; [|done]. cbn [negb] in E. destruct (is_dir d a) eqn:Ed.
  - injection E as <-. apply discover_entries_ok; [done|]. intros p Hp%walk_under Hf _.
    split_and!; [done | by eapply path_starts_trans|]. apply orb_true_iff. right. by apply Hx.
  - destruct (is_file d a) eqn:Ef; injection E as <-; [|done]. apply Forall_app. split; [done|]. constructor; [|done].
    split_and!; [done..|]. apply orb_true_iff. right. by apply Hx.
Qed.

Lemma dedup_paths_sub p l : p ∈ dedup_paths l -> p ∈ l.
Proof.
  induction l as [|q [|r l] IH]; [done | done|]. cbn [dedup_paths]. case_match; [intros Hp; right; by apply IH|].
  intros [->|Hp]%elem_of_cons; [by left | right; by apply IH].
Qed.

Lemma discover_ok d s : discover d root include_set config = Ok s -> Forall (candidate_ok d) (ds_candidates s).
Proof.
  unfold discover. destruct (resolve_extra_paths _ _ _ _) as [extra|] eqn:E; [|done]. cbn [result_bind]. intros [= <-].
  apply Forall_forall. intros p Hp%dedup_paths_sub. rewrite merge_sort_Permutation in Hp. cbn in Hp.
  apply elem_of_app in Hp as [Hp|Hp].
  - revert p Hp. apply Forall_forall. apply discover_entries_ok; [done|].
    intros p Hp Hf [Hr Hi]%andb_true_iff. split_and!; [done..|]. by rewrite Hi.
  - revert p Hp. apply Forall_forall. eapply resolve_extra_ok; [| |exact E]; done.
Qed.

(** ** Documents loaded from a list of candidates *)

Definition relative_key (p : PathBuf) : string := str_join "/" (drop (length root) p).

(** What the files of a document tell, at [d]. *)
Definition loaded_as (d : DiskState) (k : string) (v : CachedMemoryCorpusDocument) : Prop :=
  load_file_fingerprint d (doc_absolute_path (cd_document v)) = Ok (Some (cd_fingerprint v)) /\
  load_document_from_disk d (doc_absolute_path (cd_document v)) k (ff_modified_at_ms (cd_fingerprint v))
    = Ok (cd_document v).

Lemma is_file_fingerprint d p : is_file d p = true -> exists f, load_file_fingerprint d p = Ok (Some f).
Proof.
  unfold is_file, load_file_fingerprint. destruct (disk_metadata d p) as [m|]; [|done]. intros ->. by eexists.
Qed.

(** One step of the loop on a candidate that is one. *)
Lemma load_candidate d cached p rest docs : candidate_ok d p ->
  exists f, load_file_fingerprint d p = Ok (Some f) /\
  load_candidates d root include_set config cached (p :: rest) docs =
  result_bind
    (match reuse_cached_document cached (relative_key p) p f with
     | Some document => Ok document
     | None => load_document_from_disk d p (relative_key p) (ff_modified_at_ms f)
     end)
    (fun document => load_candidates d root include_set config cached rest
                       (bt_insert (relative_key p) (mkCachedDocument f document) docs)).
Proof.
  intros (Hf & Hr & Hi). destruct (is_file_fingerprint _ _ Hf) as [f Hl]. exists f. split; [done|].
  cbn [load_candidates]. rewrite Hl. cbn [result_bind]. rewrite Hr. cbn [negb]. cbv zeta. fold (relative_key p).
  by rewrite <- negb_orb, Hi.
Qed.

Lemma load_document_path d p k ms doc : load_document_from_disk d p k ms = Ok doc -> doc_absolute_path doc = p.
Proof. unfold load_document_from_disk. intros H. by inv_result. Qed.

Lemma load_candidates_get d cs docs0 docs : Forall (candidate_ok d) cs -> NoDup (relative_key <$> cs) ->
  load_candidates d root include_set config None cs docs0 = Ok docs ->
  (forall p, p ∈ cs -> exists v, bt_get (relative_key p) docs = Some v /\
     doc_absolute_path (cd_document v) = p /\ loaded_as d (relative_key p) v) /\
  (forall k, k ∉ relative_key <$> cs -> bt_get k docs = bt_get k docs0).
Proof.
  revert docs0. induction cs as [|p cs IH]; intros docs0 Hok Hnd; [intros [= <-]; split; [set_solver | done]|].
  apply Forall_cons in Hok as [Hp Hok]. rewrite fmap_cons, NoDup_cons in Hnd. destruct Hnd as [Hn Hnd].
  destruct (load_candidate d None p cs docs0 Hp) as (f & Hf & ->). cbn [reuse_cached_document mbind option_bind].
  destruct (load_document_from_disk d p _ _) as [doc|] eqn:Ed; [|done]. cbn [result_bind]. intros Hl.
  destruct (IH _ Hok Hnd Hl) as [H1 H2]. pose proof (load_document_path _ _ _ _ _ Ed) as Hpath. split.
  - intros q [->|Hq]%elem_of_cons; [|by apply H1]. exists (mkCachedDocument f doc).
    rewrite H2, bt_get_insert, String.eqb_refl by done. split_and!; [done..|]. unfold loaded_as. cbn. by rewrite Hpath.
  - intros k [Hk1 Hk2]%not_elem_of_cons. rewrite H2, bt_get_insert by done. by destruct (String.eqb_spec k (relative_key p)).
Qed.

Lemma load_candidates_loaded d cs docs : Forall (candidate_ok d) cs -> NoDup (relative_key <$> cs) ->
  load_candidates d root include_set config None cs [] = Ok docs -> forall k v, bt_get k docs = Some v -> loaded_as d k v.
Proof.
  intros Hok Hnd Hl k v Hv. destruct (load_candidates_get d cs [] docs Hok Hnd Hl) as [H1 H2].
  destruct (decide (k ∈ relative_key <$> cs)) as [Hk|Hk]; [|by rewrite (H2 k Hk) in Hv].
  apply list_elem_of_fmap in Hk as (p & -> & Hp). destruct (H1 p Hp) as (w & Hw & _ & Hload). congruence.
Qed.

(** ** Honest fingerprints *)

(** A file whose fingerprint is the same at two times has the same text. *)
Definition files_honest (d0 d : DiskState) : Prop := forall p f,
  load_file_fingerprint d0 p = Ok (Some f) -> load_file_fingerprint d p = Ok (Some f) -> disk_read d p = disk_read d0 p.

Lemma load_document_ext d0 d p k ms : disk_read d p = disk_read d0 p ->
  load_document_from_disk d p k ms = load_document_from_disk d0 p k ms.
Proof. intros H. unfold load_document_from_disk. by rewrite H. Qed.

(** A document that is reused is the one on the disk. *)
Lemma reuse_exact d0 d entry p f doc :
  files_honest d0 d -> (forall k v, bt_get k (ce_documents entry) = Some v -> loaded_as d0 k v) ->
  load_file_fingerprint d p = Ok (Some f) -> reuse_cached_document (Some entry) (relative_key p) p f = Some doc ->
  load_document_from_disk d p (relative_key p) (ff_modified_at_ms f) = Ok doc.
Proof.
  intros Hh Hv Hf. cbn [reuse_cached_document mbind option_bind].
  destruct (bt_get (relative_key p) (ce_documents entry)) as [v|] eqn:E; [|done]. cbn [mbind option_bind].
  case_match eqn:Ec; [|done]. intros [= <-]. apply andb_true_iff in Ec as [Ha%bool_decide_eq_true Hb%bool_decide_eq_true].
  destruct (Hv _ _ E) as [H1 H2]. rewrite Ha, Hb in H1, H2. by rewrite (load_document_ext d0 d) by eauto.
Qed.

Lemma load_with_reuse d0 d entry cs docs :
  files_honest d0 d -> (forall k v, bt_get k (ce_documents entry) = Some v -> loaded_as d0 k v) ->
  Forall (candidate_ok d) cs ->
  load_candidates d root include_set config (Some entry) cs docs = load_candidates d root include_set config None cs docs.
Proof.
  intros Hh Hv. revert docs. induction cs as [|p cs IH]; intros docs; [done|]. intros [Hp Hok]%Forall_cons.
  destruct (load_candidate d (Some entry) p cs docs Hp) as (f & Hf & ->).
  destruct (load_candidate d None p cs docs Hp) as (f' & Hf' & ->). rewrite Hf in Hf'. injection Hf' as <-.
  change (reuse_cached_document None (relative_key p) p f) with (@None MemoryCorpusDocument). cbv iota.
  destruct (reuse_cached_document (Some entry) (relative_key p) p f) as [doc|] eqn:E.
  - rewrite (reuse_exact d0 d entry p f doc Hh Hv Hf E). cbn [result_bind]. by apply IH.
  - destruct (load_document_from_disk _ _ _ _); cbn [result_bind]; [by apply IH | done].
Qed.

Lemma documents_fresh d docs : documents_are_fresh d docs = Ok true ->
  forall k v, (k, v) ∈ docs -> load_file_fingerprint d (doc_absolute_path (cd_document v)) = Ok (Some (cd_fingerprint v)).
Proof.
  induction docs as [|[k0 v0] docs IH]; [set_solver|]. cbn [documents_are_fresh].
  destruct (load_file_fingerprint d _) as [[f|]|] eqn:E; cbn [result_bind]; [|done..].
  case_bool_decide as Hf; [|done]. intros H k v [[= -> ->]|Hin]%elem_of_cons; [by rewrite E, Hf | by eapply IH].
Qed.

(** Fresh documents are what is on the disk now. *)
Lemma load_fresh_documents d0 d cs docs : files_honest d0 d ->
  Forall (candidate_ok d0) cs -> Forall (candidate_ok d) cs -> NoDup (relative_key <$> cs) ->
  load_candidates d0 root include_set config None cs [] = Ok docs -> documents_are_fresh d docs = Ok true ->
  load_candidates d root include_set config None cs [] = Ok docs.
Proof.
  intros Hh H0 H1 Hnd Hl Hfresh.
  assert (Hsame : forall p, p ∈ cs -> load_file_fingerprint d p = load_file_fingerprint d0 p /\ disk_read d p = disk_read d0 p).
  { intros p Hp. destruct (load_candidates_get d0 cs [] docs H0 Hnd Hl) as [Hg _].
    destruct (Hg p Hp) as (v & Hv & Ha & [Hf _]). pose proof (documents_fresh d docs Hfresh _ _ (bt_get_In _ _ _ Hv)) as Hd.
    rewrite Ha in *. split; [by rewrite Hf, Hd | by eapply Hh]. }
  rewrite <- Hl. clear Hl Hfresh Hnd. generalize (@nil (string * CachedMemoryCorpusDocument)) as acc.
  induction cs as [|p cs IH]; intros acc; [done|]. apply Forall_cons in H0 as [Hp0 H0], H1 as [Hp1 H1].
  destruct (load_candidate d None p cs acc Hp1) as (f & Hf & ->).
  destruct (load_candidate d0 None p cs acc Hp0) as (f' & Hf' & ->).
  destruct (Hsame p (list_elem_of_here _ _)) as [Hs1 Hs2]. rewrite Hs1, Hf' in Hf. injection Hf as <-.
  change (reuse_cached_document None (relative_key p) p f') with (@None MemoryCorpusDocument). cbv iota.
  rewrite (load_document_ext d0 d) by done. destruct (load_document_from_disk _ _ _ _); [|done]. cbn [result_bind].
  apply IH; [done..|]. intros q Hq. apply Hsame. by right.
Qed.

(** ** The cache is transparent *)

(** *** What a discovery records *)

Notation fingerprint_at := load_directory_fingerprint_sync.

Lemma path_order_eq p q : path_compare p q = Eq -> p = q.
Proof.
  revert q. induction p as [|a p IH]; intros [|b q]; cbn [path_compare]; [done..|]. unfold then_with.
  destruct (String.compare a b) eqn:E; [|done..]. apply String.compare_eq_iff in E as ->. intros ->%IH. done.
Qed.

Definition recorded (d : DiskState) (m : Directories) : Prop := forall p w, (p, w) ∈ m -> w = fingerprint_at d p.

Lemma dir_or_insert_spec p v m :
  p ∈ (dir_or_insert p v m).*1 /\ (forall q w, (q, w) ∈ dir_or_insert p v m -> (q, w) ∈ m \/ (q, w) = (p, v))
  /\ m.*1 ⊆ (dir_or_insert p v m).*1.
Proof.
  induction m as [|[q w] m (H1 & H2 & H3)]; cbn [dir_or_insert]; [split_and!; set_solver|].
  destruct (path_compare p q) eqn:E.
  - apply path_order_eq in E as ->. split_and!; set_solver.
  - split_and!; set_solver.
  - cbn [fmap list_fmap fst]. split_and!; [set_solver | | set_solver].
    intros q' w' [[= -> ->]|Hin%H2]%elem_of_cons; [left; by left | destruct Hin; [left; by right | by right]].
Qed.

Lemma dir_insert_spec p v m :
  p ∈ (dir_insert p v m).*1 /\ (forall q w, (q, w) ∈ dir_insert p v m -> (q, w) ∈ m \/ (q, w) = (p, v))
  /\ m.*1 ⊆ (dir_insert p v m).*1.
Proof.
  induction m as [|[q w] m (H1 & H2 & H3)]; cbn [dir_insert]; [split_and!; set_solver|].
  destruct (path_compare p q) eqn:E.
  - apply path_order_eq in E as ->. split_and!; set_solver.
  - split_and!; set_solver.
  - cbn [fmap list_fmap fst]. split_and!; [set_solver | | set_solver].
    intros q' w' [[= -> ->]|Hin%H2]%elem_of_cons; [left; by left | destruct Hin; [left; by right | by right]].
Qed.

(** [s'] has recorded what [s] has, and the directories of [visited]. *)
Definition records (d : DiskState) (visited : list PathBuf) (s s' : MemoryCorpusDiscoverySnapshot) : Prop :=
  (recorded d (ds_directories s) -> recorded d (ds_directories s'))
  /\ (ds_directories s).*1 ⊆ (ds_directories s').*1
  /\ forall p, p ∈ visited -> is_dir d p = true -> p ∈ (ds_directories s').*1.

Lemma records_insert d p m cs cs' :
  records d [p] (mkDiscovery cs m) (mkDiscovery cs' (insert_directory_fingerprint_sync d m p)).
Proof.
  unfold records, insert_directory_fingerprint_sync. cbn [ds_directories].
  destruct (dir_or_insert_spec p (fingerprint_at d p) m) as (H1 & H2 & H3). split_and!; [|done|].
  - intros Hr q w [Hin|[= -> ->]]%H2; [by apply Hr | done].
  - by intros q ->%list_elem_of_singleton _.
Qed.

Lemma records_trans d l k s s1 s2 : records d l s s1 -> records d k s1 s2 -> records d (l ++ k) s s2.
Proof.
  intros (R1 & K1 & V1) (R2 & K2 & V2). split_and!; [auto | set_solver|].
  intros p [Hp|Hp]%elem_of_app Hd; [by apply K2, V1 | by apply V2].
Qed.

Lemma records_entry d keep s p : records d [p] s (discover_entry d keep s p).
Proof.
  unfold discover_entry. destruct (is_dir d p) eqn:Ed; [destruct s; apply records_insert|].
  assert (Hno : forall q, q ∈ [p] -> is_dir d q = true -> False) by (intros q ->%list_elem_of_singleton; congruence).
  destruct (is_file d p && keep p); (split_and!; [done | done | by intros q Hq Hd; destruct (Hno q Hq Hd)]).
Qed.

Lemma records_walk d keep s l : records d l s (foldl (discover_entry d keep) s l).
Proof.
  revert s. induction l as [|p l IH]; intros s; [by split_and!; [..|intros p ?%elem_of_nil]|]. cbn [foldl].
  change (p :: l) with ([p] ++ l)%list. eapply records_trans; [apply records_entry | apply IH].
Qed.

(** The directories an extra path leads to. *)
Definition extra_visits (d : DiskState) (value : PathBuf) : list PathBuf :=
  let e := extra_absolute root value in if is_dir d e then e :: walk_corpus d e else [].

Lemma records_extras d extras s s' : resolve_extra_paths d root extras s = Ok s' ->
  records d (flat_map (extra_visits d) extras) s s'.
Proof.
  revert s. induction extras as [|v extras IH]; intros s; cbn [resolve_extra_paths flat_map].
  { intros [= <-]. by split_and!; [..|intros p ?%elem_of_nil]. }
  destruct (resolve_extra_path d root s v) as [s1|] eqn:E; [|done]. cbn [result_bind]. intros H.
  eapply records_trans; [|by apply IH]. unfold resolve_extra_path in E. unfold extra_visits. cbv zeta in *.
  set (e := extra_absolute root v) in *. destruct (path_starts_with e root); [|done]. cbn [negb] in E.
  destruct (is_dir d e) eqn:Ed.
  - injection E as <-. change (e :: walk_corpus d e) with ([e] ++ walk_corpus d e)%list.
    eapply records_trans; [|apply records_walk]. destruct s. apply records_insert.
  - destruct (is_file d e); injection E as <-; by split_and!; [..|intros p ?%elem_of_nil].
Qed.

Lemma extend_directories d a b :
  recorded d (ds_directories a) -> recorded d (ds_directories b) ->
  recorded d (ds_directories (discovery_extend a b))
  /\ (ds_directories a).*1 ⊆ (ds_directories (discovery_extend a b)).*1
  /\ (ds_directories b).*1 ⊆ (ds_directories (discovery_extend a b)).*1.
Proof.
  unfold discovery_extend. cbn [ds_directories]. generalize (ds_directories a) as m. induction (ds_directories b) as [|[p w] l IH];
    intros m Hm Hl; cbn [foldl fst snd]; [split_and!; set_solver|].
  destruct (dir_insert_spec p w m) as (H1 & H2 & H3). destruct (IH (dir_insert p w m)) as (I1 & I2 & I3).
  - intros q x [Hin|[= -> ->]]%H2; [by apply Hm | apply Hl; by left].
  - intros q x Hin. apply Hl. by right.
  - split_and!; [done | set_solver | set_solver].
Qed.

(** Every directory a discovery goes through is recorded, with its fingerprint of the time. *)
Lemma discover_records d s : discover d root include_set config = Ok s ->
  recorded d (ds_directories s) /\ root ∈ (ds_directories s).*1
  /\ (forall p, p ∈ walk_corpus d root ++ flat_map (extra_visits d) (extra_paths config) -> is_dir d p = true ->
       p ∈ (ds_directories s).*1).
Proof.
  unfold discover. destruct (resolve_extra_paths _ _ _ _) as [extra|] eqn:E; [|done]. cbn [result_bind]. intros [= <-].
  destruct (records_extras _ _ _ _ E) as (Re & _ & Ve). cbn [ds_directories] in Re.
  set (start := mkDiscovery [] (insert_directory_fingerprint_sync d [] root)).
  assert (Hs : recorded d (ds_directories start) /\ root ∈ (ds_directories start).*1).
  { destruct (dir_or_insert_spec root (fingerprint_at d root) []) as (H1 & H2 & _). split; [|done].
    intros q w [?%elem_of_nil|[= -> ->]]%H2; done. }
  unfold discover_default_candidates. fold start.
  set (def := foldl _ start (walk_corpus d root)). destruct (records_walk d (fun path => path_starts_with path root
    && include_set (drop (length root) path)) start (walk_corpus d root)) as (Rd & Kd & Vd). fold def in Rd, Kd, Vd.
  destruct (extend_directories d def extra) as (R & K1 & K2); [by apply Rd, Hs | by apply Re; intros ? ? ?%elem_of_nil|].
  unfold sort_and_dedup. cbn [ds_directories] in *. split_and!; [done | by apply K1, Kd, Hs|].
  intros p [Hp|Hp]%elem_of_app Hd; [by apply K1, Vd | by apply K2, Ve].
Qed.

(** *** What does not change *)

Definition same_kind (d0 d : DiskState) (p : PathBuf) : Prop := is_dir d p = is_dir d0 p /\ is_file d p = is_file d0 p.

(** Fingerprints have been honest since [d0]: a file with the same fingerprint has the same text; a
    directory with the same fingerprint has the same entries, and a walk through directories with
    the same fingerprints visits the same paths (no ignore file was edited in place). *)
Record honest_since (d0 d : DiskState) : Prop := {
  hs_files : files_honest d0 d;
  hs_entries : forall p, fingerprint_at d (removelast p) = fingerprint_at d0 (removelast p) -> same_kind d0 d p;
  hs_walks : forall r, fingerprint_at d r = fingerprint_at d0 r ->
    (forall p, p ∈ walk_corpus d0 r -> is_dir d0 p = true -> fingerprint_at d p = fingerprint_at d0 p) ->
    walk_corpus d r = walk_corpus d0 r /\ forall p, p ∈ walk_corpus d0 r -> same_kind d0 d p
}.

(** An extra path that was no directory lies in a directory that was recorded. *)
Definition extras_watched (d0 : DiskState) (s : MemoryCorpusDiscoverySnapshot) : Prop := forall v,
  v ∈ extra_paths config -> is_dir d0 (extra_absolute root v) = false ->
  removelast (extra_absolute root v) ∈ (ds_directories s).*1.

Lemma fingerprint_is_dir d p : is_dir d p = df_is_dir (fingerprint_at d p).
Proof. unfold is_dir, load_directory_fingerprint_sync. destruct (disk_metadata d p) as [|[]]; done. Qed.

Lemma discovery_fresh_all d m : discovery_is_fresh d m = Ok true -> forall p w, (p, w) ∈ m -> fingerprint_at d p = w.
Proof.
  induction m as [|[q v] m IH]; cbn [discovery_is_fresh]; [by intros _ p w ?%elem_of_nil|].
  destruct (load_directory_fingerprint d q) as [actual|] eqn:El; [|done]. cbn [result_bind]. case_bool_decide as Hv; [|done].
  intros Hf p w [[= -> ->]|Hin]%elem_of_cons; [|by apply IH]. subst actual.
  unfold load_directory_fingerprint in El. unfold load_directory_fingerprint_sync.
  destruct (disk_metadata d q) as [md|[]]; congruence.
Qed.

Lemma walk_same d0 d keep s l :
  (forall p, p ∈ l -> same_kind d0 d p /\ (is_dir d0 p = true -> fingerprint_at d p = fingerprint_at d0 p)) ->
  foldl (discover_entry d keep) s l = foldl (discover_entry d0 keep) s l.
Proof.
  revert s. induction l as [|p l IH]; intros s Hl; [done|]. cbn [foldl].
  assert (He : discover_entry d keep s p = discover_entry d0 keep s p).
  { destruct (Hl p (list_elem_of_here _ _)) as [[Hd Hf] Hfp]. unfold discover_entry, insert_directory_fingerprint_sync.
    rewrite Hd, Hf. destruct (is_dir d0 p); [by rewrite Hfp | done]. }
  rewrite He. apply IH. intros q Hq. apply Hl. by right.
Qed.

Lemma extras_same d0 d extras s :
  (forall v, v ∈ extras -> is_dir d (extra_absolute root v) = is_dir d0 (extra_absolute root v)
     /\ (is_dir d0 (extra_absolute root v) = false ->
         is_file d (extra_absolute root v) = is_file d0 (extra_absolute root v))) ->
  (forall v, v ∈ extras -> is_dir d0 (extra_absolute root v) = true ->
     walk_corpus d (extra_absolute root v) = walk_corpus d0 (extra_absolute root v)
     /\ fingerprint_at d (extra_absolute root v) = fingerprint_at d0 (extra_absolute root v)
     /\ forall p, p ∈ walk_corpus d0 (extra_absolute root v) ->
          same_kind d0 d p /\ (is_dir d0 p = true -> fingerprint_at d p = fingerprint_at d0 p)) ->
  resolve_extra_paths d root extras s = resolve_extra_paths d0 root extras s.
Proof.
  revert s. induction extras as [|v extras IH]; intros s Hk Hw; [done|]. cbn [resolve_extra_paths].
  assert (He : resolve_extra_path d root s v = resolve_extra_path d0 root s v).
  { destruct (Hk v (list_elem_of_here _ _)) as [Hd Hf]. specialize (Hw v (list_elem_of_here _ _)).
    unfold resolve_extra_path, insert_directory_fingerprint_sync. rewrite Hd. destruct (is_dir d0 _); [|by rewrite Hf].
    destruct (Hw eq_refl) as (Hwalk & Hfp & Hall). rewrite Hwalk, Hfp. by rewrite (walk_same d0 d) by done. }
  rewrite He. destruct (resolve_extra_path d0 root s v); [|done]. cbn [result_bind].
  apply IH; intros u Hu; [apply Hk | apply Hw]; by right.
Qed.

(** While the recorded directories have their fingerprints, a discovery finds what it found. *)
Lemma discover_same d0 d s : honest_since d0 d -> discover d0 root include_set config = Ok s -> extras_watched d0 s ->
  discovery_is_fresh d (ds_directories s) = Ok true -> discover d root include_set config = Ok s.
Proof.
  intros Hh Hs Hwatch Hfresh. destruct (discover_records d0 s Hs) as (Hrec & Hroot & Hvis).
  assert (Hfp : forall p, p ∈ (ds_directories s).*1 -> fingerprint_at d p = fingerprint_at d0 p).
  { intros p ([q w] & -> & Hin)%list_elem_of_fmap. cbn [fst]. rewrite (discovery_fresh_all _ _ Hfresh _ _ Hin). by apply Hrec. }
  assert (Hwalk : forall r, r ∈ (ds_directories s).*1 ->
    (forall p, p ∈ walk_corpus d0 r -> is_dir d0 p = true -> p ∈ (ds_directories s).*1) ->
    walk_corpus d r = walk_corpus d0 r /\ forall p, p ∈ walk_corpus d0 r ->
      same_kind d0 d p /\ (is_dir d0 p = true -> fingerprint_at d p = fingerprint_at d0 p)).
  { intros r Hr Hin. destruct (hs_walks _ _ Hh r (Hfp r Hr)) as [Hw Hk]; [by intros p Hp Hd; apply Hfp, Hin|].
    split; [done|]. intros p Hp. split; [by apply Hk | intros Hd; by apply Hfp, Hin]. }
  assert (Hextra : forall v p, v ∈ extra_paths config -> p ∈ extra_visits d0 v -> is_dir d0 p = true -> p ∈ (ds_directories s).*1).
  { intros v p Hv Hp. apply Hvis, elem_of_app. right. apply list_elem_of_In, in_flat_map. exists v.
    by rewrite <- !list_elem_of_In. }
  destruct (Hwalk root Hroot) as [Hwr Hkr]; [intros p Hp; apply Hvis, elem_of_app; by left|].
  unfold discover in *. unfold discover_default_candidates. rewrite Hwr, (walk_same d0 d) by done.
  unfold insert_directory_fingerprint_sync. rewrite (Hfp root Hroot). rewrite (extras_same d0 d); [exact Hs| |].
  - intros v Hv. destruct (is_dir d0 (extra_absolute root v)) eqn:Ed.
    + split; [|done]. rewrite fingerprint_is_dir, Hfp; [by rewrite <- fingerprint_is_dir|].
      apply (Hextra v); [done | unfold extra_visits; rewrite Ed; by left | done].
    + rewrite <- Ed. destruct (hs_entries _ _ Hh (extra_absolute root v)); [by apply Hfp, Hwatch | by split].
  - intros v Hv Hd. assert (He : extra_absolute root v ∈ (ds_directories s).*1).
    { apply (Hextra v); [done | unfold extra_visits; rewrite Hd; by left | done]. }
    destruct (Hwalk _ He) as [Hw Hk]; [|split_and!; [done | by apply Hfp | done]].
    intros p Hp Hdp. apply (Hextra v); [done | unfold extra_visits; rewrite Hd; by right | done].
Qed.

(** A cached entry was loaded at [d0], its extra paths are watched, and fingerprints have been honest since. *)
Definition entry_honest (d0 d : DiskState) (entry : MemoryCorpusCacheEntry) : Prop :=
  load_fresh d0 root include_set config None = Ok entry /\
  NoDup (relative_key <$> ds_candidates (ce_discovery entry)) /\ honest_since d0 d /\
  extras_watched d0 (ce_discovery entry).

Lemma cache_fresh_inv d entry : cache_is_fresh d entry = Ok true ->
  discovery_is_fresh d (ds_directories (ce_discovery entry)) = Ok true /\ documents_are_fresh d (ce_documents entry) = Ok true.
Proof. unfold cache_is_fresh. by destruct (discovery_is_fresh d _) as [[]|]. Qed.


End Cache.

(** ** A concrete workspace *)

(** Directories are the prefixes of files; the time of a directory counts its files, and that of a
    file is its length.  The walk does not enter the ignored directory [target]. *)
Definition tree_metadata (d : gmap PathBuf string) (p : PathBuf) : result FileMetadata IoError :=
  match d !! fold_dots p [] with
  | Some t => Ok (mkFileMetadata true false (byte_length t) (Some (byte_length t)))
  | None =>
      let below := List.filter (fun q => path_starts_with q p) (map_to_list d).*1 in
      if is_nil below then Err Io_NotFound
      else Ok (mkFileMetadata false true 0 (Some (N.of_nat (length (List.filter (fun q => bool_decide (removelast q = p)) below)))))
  end.
Definition tree_walk (d : gmap PathBuf string) (r : PathBuf) : list PathBuf :=
  List.filter (fun p => path_starts_with p r && negb (bool_decide ("target" ∈ drop (length r) p))) (map_to_list d).*1.
Definition tree_disk : MemoryDisk dot_disk := @Build_MemoryDisk dot_disk tree_metadata plain_walk.
Definition markdown_set (globs : list string) : result (PathBuf -> bool) string :=
  Ok (fun p => match p with [name] => ends_with name ".md" | _ => false end).
Definition tree_corpus : CorpusWalk dot_disk := @Build_CorpusWalk dot_disk markdown_set tree_walk.

Lemma tree_walk_laws : @CorpusWalkLaws dot_disk tree_corpus.
Proof. split. intros d r p [_ [H _]%andb_true_iff]%elem_of_filter_b. done. Qed.

Definition demo_config : MemoryCorpusConfig :=
  mkMemoryCorpusConfig ["*.md"] [["target"; "x.md"]] (mkMemoryRuntimeExportConfig false [] 0 false 0).
Definition note_file : PathBuf := ["/"; "work"; "MEMORY.md"].
Definition work_files (note : string) : gmap PathBuf string :=
  <[note_file := note]> {[ ["/"; "work"; "target"; "keep.txt"] := "" ]}.
Definition demo_load := @load_memory_corpus_inner dot_disk tree_disk tree_corpus key_value_text bytes_digest.
Definition demo_cache : CorpusCache := (demo_load (work_files "# One") demo_root demo_config ∅).2.
Definition demo_include : PathBuf -> bool := fun p => match p with [name] => ends_with name ".md" | _ => false end.

Lemma demo_honest : @files_honest dot_disk tree_disk (work_files "# One") (work_files "# One and two").
Proof.
  intros p f. unfold load_file_fingerprint, disk_metadata, disk_read. cbn. unfold tree_metadata, work_files.
  destruct (decide (fold_dots p [] = note_file)) as [->|Hn]; [rewrite !lookup_insert_eq; by vm_compute; intros [= <-]|].
  by rewrite !lookup_insert_ne by done.
Qed.

(** The same workspace with an extra path that is watched: its directory is the root. *)
Definition watched_config : MemoryCorpusConfig :=
  mkMemoryCorpusConfig ["*.md"] [["notes.txt"]] (mkMemoryRuntimeExportConfig false [] 0 false 0).
Definition watched_cache : CorpusCache := (demo_load (work_files "# One") demo_root watched_config ∅).2.
Definition watched_entry : MemoryCorpusCacheEntry :=
  default (mkCacheEntry (mkDiscovery [] []) []) (watched_cache !! cache_key demo_root watched_config).

Lemma demo_keys : (map_to_list (work_files "# One and two")).*1 = (map_to_list (work_files "# One")).*1.
Proof. vm_compute. reflexivity. Qed.

Lemma demo_same_kind p : @same_kind dot_disk tree_disk (work_files "# One") (work_files "# One and two") p.
Proof.
  unfold same_kind, is_dir, is_file.
  change (@disk_metadata dot_disk tree_disk) with tree_metadata.
  unfold tree_metadata. rewrite demo_keys. unfold work_files.
  destruct (decide (fold_dots p [] = note_file)) as [->|Hn]; [by rewrite !lookup_insert_eq|].
  by rewrite !lookup_insert_ne by done.
Qed.

Lemma demo_honest_since : @honest_since dot_disk tree_disk tree_corpus (work_files "# One") (work_files "# One and two").
Proof.
  split; [apply demo_honest | intros p _; apply demo_same_kind | intros r _ _; split; [|intros p _; apply demo_same_kind]].
  change (tree_walk (work_files "# One and two") r = tree_walk (work_files "# One") r). unfold tree_walk. by rewrite demo_keys.
Qed.


(** A defect: a file named by [extra_paths] that appears in a directory the walk ignores is found by
    a load without a cache, and is not in what the cache answers. *)
Definition grown_files : gmap PathBuf string := <[["/"; "work"; "target"; "x.md"] := "# Extra"]> (work_files "# One").
Theorem ignored_extra_path_is_missed :
  (c ← match (demo_load grown_files demo_root demo_config demo_cache).1 with Ok c => Some c | Err _ => None end;
   Some (map doc_path (corpus_documents c))) = Some ["MEMORY.md"] /\
  (c ← match (demo_load grown_files demo_root demo_config ∅).1 with Ok c => Some c | Err _ => None end;
   Some (map doc_path (corpus_documents c))) = Some ["MEMORY.md"; "target/x.md"].
Proof. vm_compute. done. Qed.
