(* ===== verification/MemoryIndex.v ===== *)
(** * The lexical index of the memory

    Models [crates/memory/src/lexical_index.rs] and the lifecycle manifest of [state.rs].  The
    tables of the SQLite file are lists of rows; a transaction is atomic.  Every call on the
    file system or on SQLite may fail: [IndexFaults] says which ones do. *)

From Stdlib Require Import Ascii String.
From stdpp Require Import base list gmap sorting strings.
From Stdlib Require Import Lia.
From S2P Require Import Prelude Text BTree Message Errors TextBuffer WriteLease SandboxPolicy Tools PathPolicy.
From S2P Require Import StoreSearch MemoryFiles MemoryOps MemoryCorpus.

(* crates/memory/src/lexical_index.rs, LexicalIndexChunk *)
Record LexicalIndexChunk := mkLexicalIndexChunk {
  lic_chunk_id : string;
  lic_path : string;
  lic_snapshot_id : string;
  lic_start_line : nat;
  lic_end_line : nat;
  lic_text : string;
  lic_indexed_text : string
}.

(* crates/memory/src/lexical_index.rs, PersistedLexicalIndexMeta *)
Record PersistedLexicalIndexMeta := mkIndexMeta { im_schema_version : N; im_config_fingerprint : string }.

(* crates/memory/src/state.rs, MemorySidecarStatus *)
Inductive MemorySidecarStatus := Sidecar_Ready | Sidecar_Rebuilding | Sidecar_Skipped.
#[global] Instance MemorySidecarStatus_eq_dec : EqDecision MemorySidecarStatus.
Proof. solve_decision. Defined.

(* crates/memory/src/state.rs, MemorySidecarLifecycle *)
Record MemorySidecarLifecycle := mkLifecycle {
  lc_backend : string;
  lc_status : MemorySidecarStatus;
  lc_schema_version : N;
  lc_config_fingerprint : string;
  lc_indexed_chunk_count : nat;
  lc_indexed_document_count : nat;
  lc_exported_session_count : nat;
  lc_exported_agent_session_count : nat;
  lc_exported_subagent_count : nat;
  lc_exported_task_count : nat;
  lc_exported_document_count : nat;
  lc_artifact_path : string;
  lc_document_snapshots : btree string;
  lc_updated_at_ms : N
}.

(** [Display]; the text of a missing file is the one of the operating system. *)
(* crates/memory/src/error.rs, MemoryError *)
Definition memory_error_display (e : MemoryError) : string :=
  match e with
  | MemErr_Io Io_NotFound => "memory I/O error: No such file or directory (os error 2)"
  | MemErr_Io (Io_Other text) => "memory I/O error: " +:+ text
  | MemErr_Json error => "memory JSON error: " +:+ error
  | MemErr_TomlDecode error => "memory TOML decode error: " +:+ error
  | MemErr_TomlEncode error => "memory TOML encode error: " +:+ error
  | MemErr_Regex error => "memory regex error: " +:+ error
  | MemErr_Glob error => "memory glob error: " +:+ error
  | MemErr_InvalidInput message => "memory input error: " +:+ message
  | MemErr_PathOutsideWorkspace path => "memory path " +:+ bt +:+ path +:+ bt +:+ " is outside allowed roots"
  | MemErr_PathNotInCorpus path => "memory path " +:+ bt +:+ path +:+ bt +:+ " is not part of the configured corpus"
  end.

(** ** The sidecar files *)

(** The SQLite file: its meta row and the rows of the two tables. *)
Record Database := mkDatabase {
  db_meta : option PersistedLexicalIndexMeta;
  db_chunks : list LexicalIndexChunk;
  db_fts : list LexicalIndexChunk
}.

(** The manifest: absent, decoded, or a text that does not decode. *)
Inductive LifecycleFile := Lifecycle_Absent | Lifecycle_Manifest (lifecycle : MemorySidecarLifecycle) | Lifecycle_Corrupt.

Record IndexState := mkIndexState {
  ix_artifact : option Database;
  ix_lifecycle : LifecycleFile;
  ix_calls : nat
}.

(** The error of the n-th call, if it fails, and whether a failed write of the manifest leaves a
    text that does not decode. *)
Class IndexFaults := {
  fault : nat -> option string;
  torn_write : nat -> bool
}.

(* crates/memory/src/lexical_index.rs, RefreshPlan *)
Inductive RefreshPlan := Plan_Ready | Plan_Rebuild | Plan_Incremental (changed_paths : list string).

(* crates/memory/src/lexical_index.rs, LexicalIndex *)
Record LexicalIndex := mkLexicalIndex {
  li_workspace_root : PathBuf;
  li_backend_id : string;
  li_default_relative_path : string;
  li_schema_version : N
}.

(** [BTreeSet::insert]. *)
Definition set_insert (k : string) (s : list string) : list string := map fst (bt_insert k tt (map (fun x => (x, tt)) s)).

(* crates/memory/src/lexical_index.rs, changed_document_paths *)
Definition changed_document_paths (previous current : btree string) : list string :=
  let changed := List.filter (fun e => negb (bool_decide (bt_get e.1 previous = Some e.2))) current in
  foldl (fun s k => set_insert k s) (map fst changed)
    (List.filter (fun k => negb (bool_decide (k ∈ current.*1))) previous.*1).

(* crates/memory/src/lexical_index.rs, chunks_for_paths *)
Definition chunks_for_paths (chunks : list LexicalIndexChunk) (paths : list string) : list LexicalIndexChunk :=
  List.filter (fun chunk => bool_decide (lic_path chunk ∈ paths)) chunks.

(** *** Statements of a transaction *)

(* crates/memory/src/lexical_index.rs, delete_chunks_for_paths *)
Definition delete_chunks_for_paths (paths : list string) (db : Database) : Database :=
  let keep := List.filter (fun row => negb (bool_decide (lic_path row ∈ paths))) in
  mkDatabase (db_meta db) (keep (db_chunks db)) (keep (db_fts db)).

(** [x as u32]. *)
Definition as_u32 (n : nat) : nat := N.to_nat (N.of_nat n mod 4294967296).
Definition stored_row (chunk : LexicalIndexChunk) : LexicalIndexChunk :=
  mkLexicalIndexChunk (lic_chunk_id chunk) (lic_path chunk) (lic_snapshot_id chunk) (as_u32 (lic_start_line chunk))
    (as_u32 (lic_end_line chunk)) (lic_text chunk) (lic_indexed_text chunk).

(** The chunk id is the primary key of the first table. *)
(* crates/memory/src/lexical_index.rs, insert_chunks *)
Fixpoint insert_chunks (chunks : list LexicalIndexChunk) (db : Database) : result Database MemoryError :=
  match chunks with
  | [] => Ok db
  | chunk :: rest =>
      if bool_decide (lic_chunk_id chunk ∈ map lic_chunk_id (db_chunks db)) then
        Err (MemErr_InvalidInput "memory lexical sqlite error: UNIQUE constraint failed: chunks.chunk_id")
      else insert_chunks rest (mkDatabase (db_meta db) (db_chunks db ++ [stored_row chunk]) (db_fts db ++ [stored_row chunk]))
  end.

(* crates/memory/src/lexical_index.rs, replace_sqlite_meta *)
Definition replace_sqlite_meta (meta : PersistedLexicalIndexMeta) (db : Database) : Database :=
  mkDatabase (Some meta) (db_chunks db) (db_fts db).

Section Index.
Context {F : IndexFaults}.

Definition IxOp (A : Type) : Type := IndexState -> result A MemoryError * IndexState.
Definition ix_ret {A} (a : A) : IxOp A := fun s => (Ok a, s).
Definition ix_result {A} (r : result A MemoryError) : IxOp A := fun s => (r, s).
Definition ix_bind {A B} (m : IxOp A) (k : A -> IxOp B) : IxOp B := fun s =>
  match m s with (Ok a, s') => k a s' | (Err e, s') => (Err e, s') end.
Local Notation "x <-$ m ; k" := (ix_bind m (fun x => k)) (at level 20, m at level 100, k at level 200, right associativity).

Definition tick (s : IndexState) : IndexState := mkIndexState (ix_artifact s) (ix_lifecycle s) (S (ix_calls s)).
Definition with_artifact (a : option Database) (s : IndexState) : IndexState :=
  mkIndexState a (ix_lifecycle s) (ix_calls s).
Definition with_lifecycle (l : LifecycleFile) (s : IndexState) : IndexState :=
  mkIndexState (ix_artifact s) l (ix_calls s).

(** A call that changes the state when it succeeds. *)
Definition ix_call (effect : IndexState -> IndexState) : IxOp unit := fun s =>
  match fault (ix_calls s) with
  | Some e => (Err (MemErr_InvalidInput e), tick s)
  | None => (Ok tt, effect (tick s))
  end.

(* crates/memory/src/state.rs, MemoryStateLayout::load_lifecycle *)
Definition load_lifecycle : IxOp (option MemorySidecarLifecycle) :=
  _ <-$ ix_call id;
  fun s => match ix_lifecycle s with
           | Lifecycle_Absent => (Ok None, s)
           | Lifecycle_Manifest lifecycle => (Ok (Some lifecycle), s)
           | Lifecycle_Corrupt => (Err (MemErr_InvalidInput "failed to decode lifecycle manifest"), s)
           end.

(* crates/memory/src/state.rs, MemoryStateLayout::write_lifecycle *)
Definition write_lifecycle (lifecycle : MemorySidecarLifecycle) (now_ms : N) : IxOp unit :=
  _ <-$ ix_call id;
  let 'mkLifecycle ba st sv cf cc dc sc ac bc tc ec ap sn up := lifecycle in
  let lifecycle := mkLifecycle ba st sv cf cc dc sc ac bc tc ec ap sn (if (up =? 0)%N then now_ms else up) in
  fun s =>
    match fault (ix_calls s) with
    | Some e => (Err (MemErr_InvalidInput e),
                 if torn_write (ix_calls s) then with_lifecycle Lifecycle_Corrupt (tick s) else tick s)
    | None => (Ok tt, with_lifecycle (Lifecycle_Manifest lifecycle) (tick s))
    end.

(* crates/memory/src/lexical_index.rs, open_sqlite *)
Definition open_sqlite : IxOp unit :=
  ix_call (fun s => with_artifact (Some (default (mkDatabase None [] []) (ix_artifact s))) s).

(** A transaction: the statements run, or nothing changes. *)
Definition transaction (body : Database -> result Database MemoryError) : IxOp unit := fun s =>
  match fault (ix_calls s), ix_artifact s with
  | Some e, _ => (Err (MemErr_InvalidInput e), tick s)
  | None, Some db =>
      match body db with
      | Ok db => (Ok tt, with_artifact (Some db) (tick s))
      | Err e => (Err e, tick s)
      end
  | None, None => (Err (MemErr_InvalidInput "memory lexical sqlite error: unable to open database file"), tick s)
  end.

(** The write-ahead files are removed too, whatever the outcome. *)
(* crates/memory/src/lexical_index.rs, replace_sqlite_index_blocking *)
Definition replace_sqlite_index (chunks : list LexicalIndexChunk) (meta : PersistedLexicalIndexMeta) : IxOp unit :=
  _ <-$ ix_call id;
  _ <-$ (fun s => match ix_artifact s with
                  | Some _ => ix_call (with_artifact None) s
                  | None => (Ok tt, s)
                  end);
  _ <-$ open_sqlite;
  transaction (fun db => insert_chunks chunks (replace_sqlite_meta meta (mkDatabase (db_meta db) [] []))).

(* crates/memory/src/lexical_index.rs, refresh_sqlite_index_blocking *)
Definition refresh_sqlite_index (changed_paths : list string) (chunks : list LexicalIndexChunk)
    (meta : PersistedLexicalIndexMeta) : IxOp unit :=
  _ <-$ ix_call id;
  _ <-$ open_sqlite;
  transaction (fun db => insert_chunks chunks (replace_sqlite_meta meta (delete_chunks_for_paths changed_paths db))).

(* crates/memory/src/lexical_index.rs, LexicalIndex::refresh_plan *)
Definition refresh_plan (ix : LexicalIndex) (artifact_path : ResolvedStatePath)
    (lifecycle : option MemorySidecarLifecycle) (config_fingerprint : string) (document_snapshots : btree string)
    (s : IndexState) : RefreshPlan :=
  match lifecycle with
  | None => Plan_Rebuild
  | Some existing =>
      if negb (String.eqb (lc_backend existing) (li_backend_id ix))
         || negb (bool_decide (lc_status existing = Sidecar_Ready))
         || negb (lc_schema_version existing =? li_schema_version ix)%N
         || negb (String.eqb (lc_config_fingerprint existing) config_fingerprint)
         || negb (String.eqb (lc_artifact_path existing) (path_display (rsp_relative artifact_path)))
         || negb (bool_decide (is_Some (ix_artifact s)))
      then Plan_Rebuild
      else if bool_decide (lc_document_snapshots existing = document_snapshots) then Plan_Ready
      else Plan_Incremental (changed_document_paths (lc_document_snapshots existing) document_snapshots)
  end.

(* crates/memory/src/lexical_index.rs, LexicalIndex::artifact_path *)
Definition artifact_path (ix : LexicalIndex) : result ResolvedStatePath MemoryError :=
  resolve_path_within_state_root (li_workspace_root ix) (path_of_string (li_default_relative_path ix)).

(** The manifest [ensure_ready] writes. *)
Definition sidecar (ix : LexicalIndex) (status : MemorySidecarStatus) (config_fingerprint : string)
    (document_snapshots : btree string) (chunks : list LexicalIndexChunk) (exported_session_count : nat)
    (artifact : ResolvedStatePath) : MemorySidecarLifecycle :=
  mkLifecycle (li_backend_id ix) status (li_schema_version ix) config_fingerprint (length chunks)
    (length document_snapshots) exported_session_count 0 0 0 0 (path_display (rsp_relative artifact)) document_snapshots 0.

(** [if let Err(refresh_error) = .. { fallback.map_err(..)? }]. *)
Definition ix_or_else (m fallback : IxOp unit) : IxOp unit := fun s =>
  match m s with
  | (Ok u, s') => (Ok u, s')
  | (Err refresh_error, s') =>
      match fallback s' with
      | (Ok u, s2) => (Ok u, s2)
      | (Err rebuild_error, s2) =>
          (Err (MemErr_InvalidInput ("memory lexical incremental refresh failed: " +:+ memory_error_display refresh_error
                  +:+ "; full rebuild fallback also failed: " +:+ memory_error_display rebuild_error)), s2)
      end
  end.

(* crates/memory/src/lexical_index.rs, LexicalIndex::ensure_ready *)
Definition ensure_ready (ix : LexicalIndex) (config_fingerprint : string) (document_snapshots : btree string)
    (chunks : list LexicalIndexChunk) (exported_session_count : nat) (now_ms : N) : IxOp ResolvedStatePath :=
  artifact <-$ ix_result (artifact_path ix);
  lifecycle <-$ load_lifecycle;
  let meta := mkIndexMeta (li_schema_version ix) config_fingerprint in
  let manifest status := sidecar ix status config_fingerprint document_snapshots chunks exported_session_count artifact in
  plan <-$ (fun s => (Ok (refresh_plan ix artifact lifecycle config_fingerprint document_snapshots s), s));
  match plan with
  | Plan_Ready => ix_ret artifact
  | Plan_Rebuild =>
      _ <-$ write_lifecycle (manifest Sidecar_Rebuilding) now_ms;
      _ <-$ replace_sqlite_index chunks meta;
      _ <-$ write_lifecycle (manifest Sidecar_Ready) now_ms;
      ix_ret artifact
  | Plan_Incremental changed_paths =>
      _ <-$ write_lifecycle (manifest Sidecar_Rebuilding) now_ms;
      let changed_chunks := chunks_for_paths chunks changed_paths in
      _ <-$ ix_or_else (refresh_sqlite_index changed_paths changed_chunks meta) (replace_sqlite_index chunks meta);
      _ <-$ write_lifecycle (manifest Sidecar_Ready) now_ms;
      ix_ret artifact
  end.

End Index.
