(* ===== verification/MemoryIndexProps.v ===== *)
(** * The lexical index holds the corpus

    Whatever calls fail, and whenever: once [ensure_ready] succeeds, the tables hold exactly the
    chunks of the corpus it was called with. *)

From Stdlib Require Import Ascii String.
From stdpp Require Import base list gmap sorting strings.
From Stdlib Require Import Lia.
From S2P Require Import Prelude Text BTree Message Errors TextBuffer WriteLease SandboxPolicy Tools PathPolicy.
From S2P Require Import StoreSearch MemoryFiles MemoryOps MemoryCorpus MemoryIndex.

(** ** Statements *)

Lemma insert_chunks_ok chunks db db' : insert_chunks chunks db = Ok db' ->
  db_chunks db' = (db_chunks db ++ map stored_row chunks)%list /\ db_fts db' = (db_fts db ++ map stored_row chunks)%list.
Proof.
  revert db. induction chunks as [|c chunks IH]; intros db; cbn [insert_chunks].
  - intros [= <-]. by rewrite !app_nil_r.
  - case_bool_decide; [done|]. intros [-> ->]%IH. cbn. by rewrite <- !app_assoc.
Qed.

Lemma set_insert_elem k x s : x ∈ set_insert k s <-> x = k \/ x ∈ s.
Proof.
  unfold set_insert. set (m := map (fun x => (x, tt)) s).
  assert (Hs : x ∈ s <-> exists v, bt_get x m = Some v).
  { unfold m. clear. induction s as [|y s IH]; cbn; [set_solver|]. rewrite elem_of_cons, IH.
    destruct (String.eqb_spec x y) as [->|]; [split; [by eexists | by left] | naive_solver]. }
  assert (Hg : forall l : btree unit, x ∈ map fst l <-> exists v, bt_get x l = Some v).
  { intros l. induction l as [|[y w] l IH]; cbn; [set_solver|]. rewrite elem_of_cons, IH.
    destruct (String.eqb_spec x y) as [->|]; [split; [by eexists | by left] | naive_solver]. }
  rewrite Hg, Hs, bt_get_insert. destruct (String.eqb_spec x k) as [->|]; [split; [by left | by eexists] | naive_solver].
Qed.

(** The changed paths are those whose snapshot is not the same before and after. *)
Lemma changed_paths_spec previous current x : bt_ok previous -> bt_ok current ->
  x ∈ changed_document_paths previous current <-> bt_get x previous <> bt_get x current.
Proof.
  intros Hp Hc. unfold changed_document_paths.
  assert (Hf : forall l s, x ∈ foldl (fun s k => set_insert k s) s l <-> x ∈ l \/ x ∈ s).
  { intros l. induction l as [|y l IH]; intros s; cbn [foldl]; [set_solver|]. rewrite IH, set_insert_elem. set_solver. }
  rewrite Hf, elem_of_filter_b, negb_true_iff, bool_decide_eq_false.
  assert (Hm : x ∈ map fst (List.filter (fun e => negb (bool_decide (bt_get e.1 previous = Some e.2))) current) <->
    exists y : string * string, x = y.1 /\ y ∈ current /\ bt_get y.1 previous <> Some y.2).
  { change (map fst ?l) with (l.*1). rewrite (list_elem_of_fmap fst). setoid_rewrite elem_of_filter_b.
    setoid_rewrite negb_true_iff. setoid_rewrite bool_decide_eq_false. done. }
  rewrite Hm. clear Hm.
  assert (Hin : forall m : btree string, bt_ok m -> x ∈ m.*1 <-> is_Some (bt_get x m)).
  { intros m Hm. split.
    - rewrite list_elem_of_fmap. intros ([y v] & -> & Hy). exists v. by apply bt_In_get.
    - intros [v Hv%bt_get_In]. apply list_elem_of_fmap. by exists (x, v). }
  rewrite !Hin by done. split.
  - intros [[[v Hv] Hn]|((y & v) & -> & Hy & Hn)]; [rewrite Hv; intros He; apply Hn; by eexists|].
    cbn in *. by rewrite (bt_In_get _ _ _ Hc Hy).
  - intros Hne. destruct (bt_get x current) as [v|] eqn:E; [right; exists (x, v) | left].
    + cbn. split_and!; [done | by apply bt_get_In | done].
    + destruct (bt_get x previous); [split; [by eexists | by intros [? ?]] | done].
Qed.

Section Index.
Context {F : IndexFaults}.
Context (ix : LexicalIndex).
(** The chunks of a document, which its path and snapshot determine under one configuration. *)
Context (rows : string -> string -> string -> list LexicalIndexChunk).
Context (rows_path : forall fp p snap row, row ∈ rows fp p snap -> lic_path row = p).

Definition corpus_chunks (fp : string) (snaps : btree string) : list LexicalIndexChunk :=
  List.flat_map (fun e => rows fp e.1 e.2) snaps.

(** Both tables hold the chunks of a corpus. *)
Definition holds (db : Database) (fp : string) (snaps : btree string) : Prop :=
  db_chunks db ≡ₚ map stored_row (corpus_chunks fp snaps) /\ db_fts db ≡ₚ map stored_row (corpus_chunks fp snaps).

(** A manifest that says ready tells the truth about the artifact beside it. *)
Definition index_ok (s : IndexState) : Prop := forall lc db,
  ix_lifecycle s = Lifecycle_Manifest lc -> lc_status lc = Sidecar_Ready ->
  lc_schema_version lc = li_schema_version ix -> ix_artifact s = Some db ->
  bt_ok (lc_document_snapshots lc) /\ holds db (lc_config_fingerprint lc) (lc_document_snapshots lc).

(** *** An incremental refresh is a rebuild *)

Definition drop_paths (paths : list string) (l : list LexicalIndexChunk) : list LexicalIndexChunk :=
  List.filter (fun row => negb (bool_decide (lic_path row ∈ paths))) l.

Lemma filter_flat_map {A} (f : A -> list LexicalIndexChunk) (t : LexicalIndexChunk -> bool) (u : A -> bool) l :
  (forall a row, row ∈ f a -> t row = u a) ->
  List.filter t (List.flat_map f l) = List.flat_map f (List.filter u l).
Proof.
  intros H. induction l as [|a l IH]; [done|]. cbn. rewrite List.filter_app, IH.
  assert (Ha : List.filter t (f a) = if u a then f a else []).
  { specialize (H a). induction (f a) as [|x k IHk]; [by destruct (u a)|]. cbn. rewrite (H x (list_elem_of_here _ _)).
    rewrite IHk by (intros; apply H; by right). by destruct (u a). }
  rewrite Ha. by destruct (u a).
Qed.

Lemma drop_stored paths l : drop_paths paths (map stored_row l) = map stored_row (drop_paths paths l).
Proof. unfold drop_paths. induction l as [|c l IH]; [done|]. cbn. rewrite IH. by destruct (bool_decide _). Qed.

Lemma filter_perm_b {A} (t : A -> bool) l k : l ≡ₚ k -> List.filter t l ≡ₚ List.filter t k.
Proof. induction 1; cbn; repeat case_match; try done; [by constructor | by constructor | by etransitivity]. Qed.

Lemma flat_map_perm {A B} (f : A -> list B) l k : l ≡ₚ k -> List.flat_map f l ≡ₚ List.flat_map f k.
Proof. apply Permutation_flat_map. Qed.

Lemma filter_partition_perm {A} (t : A -> bool) l : List.filter (fun x => negb (t x)) l ++ List.filter t l ≡ₚ l.
Proof.
  induction l as [|x l IH]; [done|]. cbn. destruct (t x); cbn; [|by rewrite IH].
  rewrite <- Permutation_middle. by rewrite IH.
Qed.

(** What remains of the old rows with the new rows of the changed paths is the new corpus. *)
Lemma incremental_is_rebuild fp old new : bt_ok old -> bt_ok new ->
  (drop_paths (changed_document_paths old new) (corpus_chunks fp old)
   ++ chunks_for_paths (corpus_chunks fp new) (changed_document_paths old new))%list ≡ₚ corpus_chunks fp new.
Proof.
  intros Ho Hn. set (ch := changed_document_paths old new). set (t := fun p => bool_decide (p ∈ ch)).
  unfold drop_paths, chunks_for_paths, corpus_chunks.
  rewrite (filter_flat_map _ _ (fun e => negb (t e.1))) by (intros [p sn] row Hr%rows_path; by rewrite Hr).
  rewrite (filter_flat_map _ _ (fun e => t e.1)) by (intros [p sn] row Hr%rows_path; by rewrite Hr).
  assert (Hp : List.filter (fun e => negb (t e.1)) old ≡ₚ List.filter (fun e => negb (t e.1)) new).
  { assert (Hnd : forall m : btree string, bt_ok m -> NoDup (List.filter (fun e => negb (t e.1)) m)).
    { intros m Hm. apply (NoDup_fmap_1 fst). by apply NoDup_map_filter. }
    apply NoDup_Permutation; [by apply Hnd..|]. intros [p sn]. rewrite !elem_of_filter_b. cbn.
    unfold t. rewrite negb_true_iff, bool_decide_eq_false. unfold ch. rewrite changed_paths_spec by done.
    assert (Hg : forall m : btree string, bt_ok m -> (p, sn) ∈ m <-> bt_get p m = Some sn)
      by (intros m Hm; split; [by apply bt_In_get | apply bt_get_In]).
    rewrite !Hg by done. destruct (decide (bt_get p old = bt_get p new)) as [->|]; tauto. }
  rewrite (flat_map_perm _ _ _ Hp), <- flat_map_app. apply flat_map_perm. apply filter_partition_perm.
Qed.

(** *** Calls *)

Lemma ix_call_spec f s r s' : ix_call f s = (r, s') ->
  (r = Ok tt /\ s' = f (tick s)) \/ (exists e, r = Err e) /\ s' = tick s.
Proof. unfold ix_call. destruct (fault (ix_calls s)); intros [= <- <-]; [right; eauto | by left]. Qed.

Lemma tick_call_spec s r s' : ix_call id s = (r, s') -> s' = tick s.
Proof. by intros [[_ ->]|[_ ->]]%ix_call_spec. Qed.

Lemma ix_bind_inv {A B} (m : IxOp A) (k : A -> IxOp B) s r s' : ix_bind m k s = (r, s') ->
  (exists a s1, m s = (Ok a, s1) /\ k a s1 = (r, s')) \/ (exists e, m s = (Err e, s') /\ r = Err e).
Proof. unfold ix_bind. destruct (m s) as [[a|e] s1]; [left; eauto | intros [= <- <-]; right; eauto]. Qed.

Definition with_updated (lc : MemorySidecarLifecycle) (t : N) : MemorySidecarLifecycle :=
  let 'mkLifecycle ba st sv cf cc dc sc ac bc tc ec ap sn _ := lc in
  mkLifecycle ba st sv cf cc dc sc ac bc tc ec ap sn t.

Lemma write_lifecycle_spec lc now s r s' : write_lifecycle lc now s = (r, s') ->
  ix_artifact s' = ix_artifact s /\
  match r with
  | Ok _ => exists t, ix_lifecycle s' = Lifecycle_Manifest (with_updated lc t)
  | Err _ => ix_lifecycle s' = ix_lifecycle s \/ ix_lifecycle s' = Lifecycle_Corrupt
  end.
Proof.
  unfold write_lifecycle. intros [(u & s1 & ->%tick_call_spec & H)|(e & ->%tick_call_spec & ->)]%ix_bind_inv;
    [|split; [done | by left]].
  destruct lc. cbn in H. destruct (fault _); [|injection H as <- <-; split; [done | by eexists]].
  injection H as <- <-. split; [by destruct (torn_write _) | destruct (torn_write _); auto].
Qed.

Lemma transaction_spec body s r s' : transaction body s = (r, s') ->
  ix_lifecycle s' = ix_lifecycle s /\
  (r = Ok tt -> exists db db', ix_artifact s = Some db /\ body db = Ok db' /\ ix_artifact s' = Some db').
Proof.
  unfold transaction. destruct (fault _); [by intros [= <- <-]|]. destruct (ix_artifact s) as [db|] eqn:E; [|by intros [= <- <-]].
  destruct (body db) as [db'|] eqn:Eb; intros [= <- <-]; [|done]. split; [done|]. intros _. by exists db, db'.
Qed.

Lemma open_spec s r s' : open_sqlite s = (r, s') -> ix_lifecycle s' = ix_lifecycle s /\
  (r = Ok tt -> ix_artifact s' = Some (default (mkDatabase None [] []) (ix_artifact s))).
Proof. unfold open_sqlite. by intros [[-> ->]|[[e ->] ->]]%ix_call_spec. Qed.

Lemma replace_spec chunks meta s r s' : replace_sqlite_index chunks meta s = (r, s') ->
  ix_lifecycle s' = ix_lifecycle s /\
  (r = Ok tt -> exists db, ix_artifact s' = Some db /\ db_chunks db = map stored_row chunks /\ db_fts db = map stored_row chunks).
Proof.
  unfold replace_sqlite_index. intros [(u & s1 & ->%tick_call_spec & H)|(e & ->%tick_call_spec & ->)]%ix_bind_inv; [|done].
  assert (Hrm : forall s0 r0 s2, (match ix_artifact s0 with Some _ => ix_call (with_artifact None) s0 | None => (Ok tt, s0) end) = (r0, s2) ->
    ix_lifecycle s2 = ix_lifecycle s0)
    by (intros s0 r0 s2; destruct (ix_artifact s0); [by intros [[_ ->]|[_ ->]]%ix_call_spec | by intros [= <- <-]]).
  apply ix_bind_inv in H as [(u1 & s2 & H2%Hrm & H)|(e & H2%Hrm & ->)]; [|done].
  apply ix_bind_inv in H as [(u2 & s3 & [H3 _]%open_spec & H)|(e & [H3 _]%open_spec & ->)]; [|split; [by rewrite H3, H2 | done]].
  apply transaction_spec in H as [Hl Ht]. split; [rewrite Hl, H3, H2; done|]. intros Hr.
  destruct (Ht Hr) as (db & db' & _ & Hb & ->). exists db'. by apply insert_chunks_ok in Hb.
Qed.

Lemma refresh_spec paths chunks meta s r s' : refresh_sqlite_index paths chunks meta s = (r, s') ->
  ix_lifecycle s' = ix_lifecycle s /\
  (r = Ok tt -> forall db, ix_artifact s = Some db -> exists db', ix_artifact s' = Some db' /\
     db_chunks db' = (drop_paths paths (db_chunks db) ++ map stored_row chunks)%list /\
     db_fts db' = (drop_paths paths (db_fts db) ++ map stored_row chunks)%list).
Proof.
  unfold refresh_sqlite_index. intros [(u & s1 & ->%tick_call_spec & H)|(e & ->%tick_call_spec & ->)]%ix_bind_inv; [|done].
  apply ix_bind_inv in H as [(u1 & s2 & [H2 Ho]%open_spec & H)|(e & [H2 _]%open_spec & ->)]; [|done].
  apply transaction_spec in H as [Hl Ht]. split; [by rewrite Hl, H2|]. intros Hr db Hdb.
  destruct u1. specialize (Ho eq_refl). cbn in Ho. rewrite Hdb in Ho. destruct (Ht Hr) as (db1 & db' & H1 & Hb & ->).
  rewrite Ho in H1. injection H1 as <-. exists db'. by apply insert_chunks_ok in Hb.
Qed.

(** *** The invariant *)

Lemma not_ready_ok s : (forall lc, ix_lifecycle s = Lifecycle_Manifest lc -> lc_status lc <> Sidecar_Ready) -> index_ok s.
Proof. intros H lc db Hl Hr. by destruct (H lc Hl). Qed.

Lemma index_ok_ext s s' : ix_lifecycle s' = ix_lifecycle s -> ix_artifact s' = ix_artifact s -> index_ok s -> index_ok s'.
Proof. intros Hl Ha H lc db. rewrite Hl, Ha. apply H. Qed.

(** A write of the manifest that says rebuilding. *)
Lemma rebuilding_ok fp snaps chunks n now artifact s r s' : index_ok s ->
  write_lifecycle (sidecar ix Sidecar_Rebuilding fp snaps chunks n artifact) now s = (r, s') ->
  index_ok s' /\ ix_artifact s' = ix_artifact s /\
  (r = Ok tt -> forall lc, ix_lifecycle s' = Lifecycle_Manifest lc -> lc_status lc <> Sidecar_Ready).
Proof.
  intros Hok [Ha Hr]%write_lifecycle_spec. destruct r as [[]|e].
  - destruct Hr as [t Ht]. assert (Hn : forall lc, ix_lifecycle s' = Lifecycle_Manifest lc -> lc_status lc <> Sidecar_Ready)
      by (rewrite Ht; by intros lc [= <-]). split_and!; [by apply not_ready_ok | done..].
  - split_and!; [|done..]. destruct Hr as [Hr|Hr]; [by eapply index_ok_ext|]. apply not_ready_ok. by rewrite Hr.
Qed.

(** The manifest that says ready, written when the tables hold the corpus. *)
Lemma ready_ok fp snaps chunks n now artifact s r s' db :
  (forall lc, ix_lifecycle s = Lifecycle_Manifest lc -> lc_status lc <> Sidecar_Ready) ->
  ix_artifact s = Some db -> holds db fp snaps -> bt_ok snaps ->
  write_lifecycle (sidecar ix Sidecar_Ready fp snaps chunks n artifact) now s = (r, s') ->
  index_ok s' /\ ix_artifact s' = Some db.
Proof.
  intros Hn Ha Hh Hb [Ha' Hr]%write_lifecycle_spec. rewrite Ha in Ha'. split; [|done]. destruct r as [u|e].
  - destruct Hr as [t Ht]. intros lc db' Hl _ _ Hd. rewrite Ht in Hl. injection Hl as <-. rewrite Ha' in Hd. by injection Hd as <-.
  - apply not_ready_ok. intros lc Hl. destruct Hr as [Hr|Hr]; rewrite Hr in Hl; [by apply Hn | done].
Qed.

Lemma load_spec s r s' : load_lifecycle s = (r, s') ->
  ix_artifact s' = ix_artifact s /\ ix_lifecycle s' = ix_lifecycle s /\
  forall lc, r = Ok (Some lc) -> ix_lifecycle s = Lifecycle_Manifest lc.
Proof.
  unfold load_lifecycle. intros [(u & s1 & ->%tick_call_spec & H)|(e & ->%tick_call_spec & ->)]%ix_bind_inv; [|done].
  cbn in H. destruct (ix_lifecycle s) eqn:E; injection H as <- <-; split_and!; try done. by intros lc [= ->].
Qed.

Lemma refresh_plan_spec artifact o fp snaps s :
  match refresh_plan ix artifact o fp snaps s with
  | Plan_Rebuild => True
  | plan => exists lc db, o = Some lc /\ lc_status lc = Sidecar_Ready /\ lc_schema_version lc = li_schema_version ix /\
      lc_config_fingerprint lc = fp /\ ix_artifact s = Some db /\
      match plan with
      | Plan_Ready => lc_document_snapshots lc = snaps
      | _ => plan = Plan_Incremental (changed_document_paths (lc_document_snapshots lc) snaps)
      end
  end.
Proof.
  unfold refresh_plan. destruct o as [lc|]; [|done].
  destruct (String.eqb (lc_backend lc) _), (bool_decide (lc_status lc = _)) eqn:E1,
    (lc_schema_version lc =? li_schema_version ix)%N eqn:E2, (String.eqb_spec (lc_config_fingerprint lc) fp),
    (String.eqb (lc_artifact_path lc) _), (ix_artifact s) as [db|]; try done. cbn.
  apply bool_decide_eq_true in E1. apply N.eqb_eq in E2.
  case_bool_decide; exists lc, db; done.
Qed.

(** A refresh of the changed paths, or the rebuild after it failed, leaves the corpus in the tables. *)
Lemma refresh_or_rebuild_spec fp old new meta s r s' db :
  bt_ok old -> bt_ok new -> ix_artifact s = Some db -> holds db fp old ->
  ix_or_else (refresh_sqlite_index (changed_document_paths old new)
                (chunks_for_paths (corpus_chunks fp new) (changed_document_paths old new)) meta)
    (replace_sqlite_index (corpus_chunks fp new) meta) s = (r, s') ->
  ix_lifecycle s' = ix_lifecycle s /\ (r = Ok tt -> exists db', ix_artifact s' = Some db' /\ holds db' fp new).
Proof.
  intros Ho Hn Hdb [H1 H2]. unfold ix_or_else.
  destruct (refresh_sqlite_index _ _ _ s) as [[[]|e] s1] eqn:Er; apply refresh_spec in Er as [Hl Hr].
  - intros [= <- <-]. split; [done|]. intros _. destruct (Hr eq_refl db Hdb) as (db' & Ha & Hc & Hf). exists db'. split; [done|].
    unfold holds. rewrite Hc, Hf. unfold drop_paths. rewrite (filter_perm_b _ _ _ H1), (filter_perm_b _ _ _ H2).
    fold (drop_paths (changed_document_paths old new) (map stored_row (corpus_chunks fp old))).
    by rewrite drop_stored, <- map_app, incremental_is_rebuild.
  - destruct (replace_sqlite_index _ _ s1) as [[[]|e'] s2] eqn:Ep; apply replace_spec in Ep as [Hl2 Hp]; intros [= <- <-];
      (split; [by rewrite Hl2, Hl|]); [|done]. intros _. destruct (Hp eq_refl) as (db' & Ha & Hc & Hf).
    exists db'. split; [done|]. unfold holds. by rewrite Hc, Hf.
Qed.

Lemma ensure_ready_spec fp snaps n now s r s' :
  index_ok s -> bt_ok snaps -> ensure_ready ix fp snaps (corpus_chunks fp snaps) n now s = (r, s') ->
  index_ok s' /\ (is_ok r = true -> exists db, ix_artifact s' = Some db /\ holds db fp snaps).
Proof.
  intros Hok Hb. unfold ensure_ready.
  intros [(artifact & s1 & [= _ <-] & H)|(e & [= _ <-] & ->)]%ix_bind_inv; [|done].
  apply ix_bind_inv in H as [(o & s1 & (Ha & Hl & Ho)%load_spec & H)|(e & (Ha & Hl & _)%load_spec & ->)];
    [|split; [by eapply index_ok_ext | done]].
  assert (Hok1 : index_ok s1) by by eapply index_ok_ext.
  apply ix_bind_inv in H as [(plan & s2 & [= <- <-] & H)|(e & [=] & _)].
  pose proof (refresh_plan_spec artifact o fp snaps s1) as Hplan.
  destruct (refresh_plan ix artifact o fp snaps s1) as [| |changed].
  - injection H as <- <-. split; [done|]. intros _. destruct Hplan as (lc & db & -> & Hs & Hv & <- & Hdb & <-).
    exists db. split; [done|]. specialize (Ho lc eq_refl). rewrite <- Hl in Ho. by destruct (Hok1 lc db Ho Hs Hv Hdb).
  - apply ix_bind_inv in H as [([] & s2 & (Hok2 & _ & Hn)%rebuilding_ok & H)|(e & (Hok2 & _ & _)%rebuilding_ok & ->)]; [|done..].
    specialize (Hn eq_refl). apply ix_bind_inv in H as [([] & s3 & [Hl3 Hr]%replace_spec & H)|(e & [Hl3 _]%replace_spec & ->)];
      [|split; [apply not_ready_ok; by rewrite Hl3 | done]].
    destruct (Hr eq_refl) as (db & Hdb & Hc & Hf). rewrite <- Hl3 in Hn.
    assert (Hh : holds db fp snaps) by (unfold holds; by rewrite Hc, Hf).
    apply ix_bind_inv in H as [([] & s4 & H4 & [= <- <-])|(e & H4 & ->)];
      destruct (ready_ok _ _ _ _ _ _ _ _ _ _ Hn Hdb Hh Hb H4) as [? ?]; (split; [done|]); [by exists db | done].
  - destruct Hplan as (lc & db & -> & Hs & Hv & <- & Hdb & [= ->]). specialize (Ho lc eq_refl). rewrite <- Hl in Ho.
    destruct (Hok1 lc db Ho Hs Hv Hdb) as [Hbo Hold].
    apply ix_bind_inv in H as [([] & s2 & (Hok2 & Ha2 & Hn)%rebuilding_ok & H)|(e & (Hok2 & _ & _)%rebuilding_ok & ->)]; [|done..].
    specialize (Hn eq_refl). rewrite <- Ha2 in Hdb. cbv zeta in H.
    apply ix_bind_inv in H as [([] & s3 & Hr & H)|(e & Hr & ->)];
      destruct (refresh_or_rebuild_spec _ _ _ _ _ _ _ _ Hbo Hb Hdb Hold Hr) as [Hl3 Hd];
      [|split; [apply not_ready_ok; by rewrite Hl3 | done]].
    destruct (Hd eq_refl) as (db' & Hdb' & Hh). rewrite <- Hl3 in Hn.
    apply ix_bind_inv in H as [([] & s4 & H4 & [= <- <-])|(e & H4 & ->)];
      destruct (ready_ok _ _ _ _ _ _ _ _ _ _ Hn Hdb' Hh Hb H4) as [? ?]; (split; [done|]); [by exists db' | done].
Qed.

(** The states an index can be in: no sidecar, then calls of [ensure_ready] for any corpora, some of
    which fail, and losses of either file. *)
Inductive index_reachable : IndexState -> Prop :=
| reach_empty n : index_reachable (mkIndexState None Lifecycle_Absent n)
| reach_ensure s fp snaps n now r s' : index_reachable s -> bt_ok snaps ->
    ensure_ready ix fp snaps (corpus_chunks fp snaps) n now s = (r, s') -> index_reachable s'
| reach_artifact_lost s : index_reachable s -> index_reachable (with_artifact None s)
| reach_manifest_lost s : index_reachable s -> index_reachable (with_lifecycle Lifecycle_Absent s).

Lemma reachable_index_ok s : index_reachable s -> index_ok s.
Proof.
  induction 1 as [n|s fp snaps n now r s' _ IH Hb He|s _ IH|s _ IH]; [by intros lc db | by eapply ensure_ready_spec | |]; by intros lc db.
Qed.

(** C34.  The lexical index holds the corpus: from any state that earlier calls have left, whichever
    of their steps failed, a call of [ensure_ready] that succeeds, by doing nothing, by refreshing
    the changed documents or by a rebuild, leaves exactly the chunks of its corpus in both tables. *)
Theorem index_holds_corpus fp snaps n now s p s' :
  index_reachable s -> bt_ok snaps -> ensure_ready ix fp snaps (corpus_chunks fp snaps) n now s = (Ok p, s') ->
  exists db, ix_artifact s' = Some db /\ holds db fp snaps.
Proof.
  intros Hs%reachable_index_ok Hb He. by apply (ensure_ready_spec _ _ _ _ _ _ _ Hs Hb He).
Qed.

End Index.

(** ** A concrete run *)

(** The fifth call fails: the rebuild of the first [ensure_ready]. *)
#[local] Instance fifth_fails : IndexFaults :=
  {| fault := fun n => if (n =? 5)%nat then Some "disk I/O error" else None; torn_write := fun _ => false |}.
Definition demo_index : LexicalIndex :=
  mkLexicalIndex ["/"; "work"] "memory-core" ".nanoclaw/memory/indexes/memory-core.sqlite" 2.
Definition demo_rows (fp p snap : string) : list LexicalIndexChunk :=
  [mkLexicalIndexChunk (p +:+ ":1") p snap 1 2 snap snap].
Definition demo_snaps : btree string := [("MEMORY.md", "a1"); ("memory/x.md", "b1")].
Definition demo_later : btree string := [("MEMORY.md", "a1"); ("memory/x.md", "b2"); ("memory/y.md", "c1")].
Definition ensure (snaps : btree string) (s : IndexState) :=
  ensure_ready demo_index "fp" snaps (corpus_chunks demo_rows "fp" snaps) 0 1 s.
Definition empty_index : IndexState := mkIndexState None Lifecycle_Absent 0.

Lemma index_holds_corpus_witness :
  exists db, ix_artifact (ensure demo_later (ensure demo_snaps (ensure demo_snaps empty_index).2).2).2 = Some db /\
    holds demo_rows db "fp" demo_later.
Proof.
  apply (index_holds_corpus demo_index demo_rows ltac:(by intros fp p snap row ->%list_elem_of_singleton) "fp" demo_later 0 1
    (ensure demo_snaps (ensure demo_snaps empty_index).2).2
    (mkResolvedStatePath ["/"; "work"; ".nanoclaw"; "memory"; "indexes"; "memory-core.sqlite"]
       [".nanoclaw"; "memory"; "indexes"; "memory-core.sqlite"])).
  - eapply reach_ensure; [eapply reach_ensure; [apply (reach_empty _ _ 0) | | apply surjective_pairing] | | apply surjective_pairing];
      apply (bool_decide_unpack _); vm_compute; done.
  - apply (bool_decide_unpack _). vm_compute. done.
  - vm_compute. reflexivity.
Defined.

(** The first call fails, the second rebuilds, the third refreshes two documents. *)
Example index_run :
  is_ok (ensure demo_snaps empty_index).1 = false /\ is_ok (ensure demo_snaps (ensure demo_snaps empty_index).2).1 = true /\
  option_map (fun db => map lic_snapshot_id (db_chunks db))
    (ix_artifact (ensure demo_later (ensure demo_snaps (ensure demo_snaps empty_index).2).2).2) = Some ["a1"; "b2"; "c1"].
Proof. vm_compute. done. Qed.
