(* ===== verification/MemorySearch.v ===== *)
(** * Retrieval from the memory

    Models the scores of [crates/memory/src/retrieval_policy.rs], the queries of
    [lexical_index.rs] and the read operations of [memory_core.rs] (search, get, list) over a
    loaded corpus.  The full-text query of SQLite, the powers of two of the half lives, the
    calendar and the alphanumeric characters are parameters. *)

From Stdlib Require Import Ascii String ZArith SpecFloat.
From stdpp Require Import base list gmap sorting strings.
From Stdlib Require Import Lia.
From S2P Require Import Prelude Text BTree Float64 Message Errors TextBuffer WriteLease SandboxPolicy Tools PathPolicy.
From S2P Require Import StoreSearch FileQueries ReadTool MemoryFiles MemoryOps MemoryCorpus MemoryIndex.

(** ** Scores *)

(** [2f64.powf], the age in days of a calendar date ([None] when it is no date), and
    [char::is_alphanumeric] on the bytes of a character. *)
Class Retrieval := {
  exp2 : f64 -> f64;
  days_since : Z -> N -> N -> option Z;
  is_alphanumeric : string -> bool
}.

(** A decimal literal. *)
Definition lit (m e : Z) : f64 := f64_of_decimal false m e.
Definition f64_one : f64 := lit 1 0.

(** [f64::max] and [f64::min]: a NaN yields the other number. *)
Definition f64_max (x y : f64) : f64 :=
  match x, y with S754_nan, _ => y | _, S754_nan => x | _, _ => if SFltb x y then y else x end.
Definition f64_min (x y : f64) : f64 :=
  match x, y with S754_nan, _ => y | _, S754_nan => x | _, _ => if SFltb y x then y else x end.

(* crates/memory/src/retrieval_policy.rs, MemoryRetrievalSignals *)
Record MemoryRetrievalSignals := mkSignals {
  sg_scope_weight : f64;
  sg_recency_multiplier : f64;
  sg_session_match_bonus : f64;
  sg_agent_session_match_bonus : f64;
  sg_agent_match_bonus : f64;
  sg_task_match_bonus : f64;
  sg_stale_penalty : f64
}.

(* crates/memory/src/retrieval_policy.rs, MemoryRetrievalSignals::total_multiplier *)
Definition total_multiplier (s : MemoryRetrievalSignals) : f64 :=
  let context_bonus :=
    f64_add (f64_add (f64_add (f64_add f64_one (sg_session_match_bonus s)) (sg_agent_session_match_bonus s))
      (sg_agent_match_bonus s)) (sg_task_match_bonus s) in
  f64_mul (f64_mul (f64_mul (sg_scope_weight s) (sg_recency_multiplier s)) (sg_stale_penalty s)) context_bonus.

(* crates/memory/src/retrieval_policy.rs, is_coordination_layer *)
Definition is_coordination_layer (layer : string) : bool := starts_with layer "coordination-".

(* crates/memory/src/retrieval_policy.rs, scope_weight *)
Definition scope_weight (m : MemoryDocumentMetadata) : f64 :=
  match mm_scope m with
  | Scope_Procedural => lit 130 (-2)
  | Scope_Semantic => lit 100 (-2)
  | Scope_Episodic => lit 92 (-2)
  | Scope_Working => if is_coordination_layer (mm_layer m) then lit 88 (-2) else lit 70 (-2)
  end.

(* crates/memory/src/retrieval_policy.rs, agent_session_bonus *)
Definition agent_session_bonus (m : MemoryDocumentMetadata) : f64 :=
  match mm_scope m with
  | Scope_Working => if is_coordination_layer (mm_layer m) then lit 25 (-2) else lit 75 (-2)
  | Scope_Episodic => lit 20 (-2)
  | Scope_Procedural | Scope_Semantic => lit 5 (-2)
  end.

(* crates/memory/src/retrieval_policy.rs, agent_bonus *)
Definition agent_bonus (m : MemoryDocumentMetadata) : f64 :=
  match mm_scope m with
  | Scope_Working => if is_coordination_layer (mm_layer m) then lit 35 (-2) else lit 10 (-2)
  | Scope_Episodic => lit 25 (-2)
  | Scope_Procedural | Scope_Semantic => lit 5 (-2)
  end.

(* crates/memory/src/retrieval_policy.rs, task_bonus *)
Definition task_bonus (m : MemoryDocumentMetadata) : f64 :=
  match mm_scope m with
  | Scope_Working => if is_coordination_layer (mm_layer m) then lit 45 (-2) else lit 65 (-2)
  | Scope_Episodic => lit 20 (-2)
  | Scope_Procedural | Scope_Semantic => lit 5 (-2)
  end.

(* crates/memory/src/retrieval_policy.rs, stale_penalty *)
Definition stale_penalty (status : MemoryStatus) : f64 :=
  match status with
  | Status_Ready => f64_one | Status_Stale => lit 70 (-2) | Status_Superseded => lit 20 (-2)
  | Status_Archived => lit 5 (-2)
  end.

(* crates/memory/src/retrieval_policy.rs, match_bonus *)
Definition match_bonus (candidate requested : option string) (bonus : f64) : f64 :=
  match candidate, requested with
  | Some c, Some r => if String.eqb c r then bonus else f64_zero
  | _, _ => f64_zero
  end.

(* crates/memory/src/retrieval_policy.rs, string_match_bonus *)
Definition string_match_bonus (candidate requested : option string) (bonus : f64) : f64 :=
  match candidate, requested with
  | Some c, Some r => if eq_ignore_ascii_case c r then bonus else f64_zero
  | _, _ => f64_zero
  end.

(** [str::parse] of an unsigned number up to [max]: a plus sign and digits. *)
Definition parse_unsigned (max : Z) (s : string) : option Z :=
  let s := default s (strip_prefix "+" s) in
  let '(value, count, rest) := read_digits s 0 0 in
  if (count =? 0)%nat || negb (str_is_empty rest) || (max <? value)%Z then None else Some value.

(** The year, month and day of the name of a daily log; no piece holds a minus sign. *)
(* crates/memory/src/retrieval_policy.rs, parse_daily_log_date *)
Definition daily_log_parts (path : string) : option (Z * N * N) :=
  name ← file_stem path;
  match split_on "-" name with
  | [year; month; day] =>
      year ← parse_unsigned 2147483647 year; month ← parse_unsigned 255 month; day ← parse_unsigned 255 day;
      Some (year, Z.to_N month, Z.to_N day)
  | _ => None
  end.

Section Signals.
Context {R : Retrieval}.

(* crates/memory/src/retrieval_policy.rs, daily_log_multiplier *)
Definition daily_log_multiplier (path : string) : f64 :=
  match '(year, month, day) ← daily_log_parts path; days_since year month day with
  | None => f64_one
  | Some days => exp2 (SFopp (f64_div (f64_of_Z (Z.max days 0)) (lit 30 0)))
  end.

(** The age of a time stamp in units of [unit_ms], as a number of half lives. *)
Definition half_lives (updated_at_ms : option N) (now_ms : Z) (unit_ms half_life : Z) : f64 :=
  match updated_at_ms with
  | None => f64_one
  | Some updated_at_ms =>
      let age_ms := (now_ms - Z.of_N updated_at_ms)%Z in
      if (age_ms <=? 0)%Z then f64_one
      else exp2 (SFopp (f64_div (f64_div (f64_of_Z age_ms) (f64_of_Z unit_ms)) (f64_of_Z half_life)))
  end.

(* crates/memory/src/retrieval_policy.rs, timestamp_half_life *)
Definition timestamp_half_life (updated_at_ms : option N) (now_ms half_life_days : Z) : f64 :=
  half_lives updated_at_ms now_ms 86400000 half_life_days.
(* crates/memory/src/retrieval_policy.rs, timestamp_half_life_hours *)
Definition timestamp_half_life_hours (updated_at_ms : option N) (now_ms half_life_hours : Z) : f64 :=
  half_lives updated_at_ms now_ms 3600000 half_life_hours.

(* crates/memory/src/retrieval_policy.rs, recency_multiplier *)
Definition recency_multiplier (path : string) (m : MemoryDocumentMetadata) (now_ms : Z) : f64 :=
  match mm_scope m with
  | Scope_Procedural | Scope_Semantic =>
      if String.eqb (mm_layer m) "daily-log" then daily_log_multiplier path else f64_one
  | Scope_Episodic =>
      if String.eqb (mm_layer m) "daily-log" then daily_log_multiplier path
      else f64_max (timestamp_half_life (mm_updated_at_ms m) now_ms 14) (lit 55 (-2))
  | Scope_Working =>
      if is_coordination_layer (mm_layer m) then f64_max (timestamp_half_life (mm_updated_at_ms m) now_ms 3) (lit 40 (-2))
      else f64_max (timestamp_half_life_hours (mm_updated_at_ms m) now_ms 12) (lit 25 (-2))
  end.

(* crates/memory/src/retrieval_policy.rs, search_signals_on *)
Definition search_signals_on (path : string) (m : MemoryDocumentMetadata) (request : MemorySearchRequest) (now_ms : Z)
    : MemoryRetrievalSignals :=
  mkSignals (scope_weight m) (recency_multiplier path m now_ms)
    (match_bonus (mm_session_id m) (sr_session_id request) (lit 10 (-2)))
    (match_bonus (mm_agent_session_id m) (sr_agent_session_id request) (agent_session_bonus m))
    (string_match_bonus (mm_agent_name m) (sr_agent_name request) (agent_bonus m))
    (string_match_bonus (mm_task_id m) (sr_task_id request) (task_bonus m))
    (stale_penalty (mm_status m)).

End Signals.

(** ** The full-text query *)

(** The characters of a string, each as its bytes. *)
Fixpoint chars (s : string) : list string :=
  match s with
  | "" => []
  | String a s' =>
      match chars s' with
      | c :: rest =>
          match c with
          | String b _ => if char_start b then String a "" :: c :: rest else String a c :: rest
          | "" => String a "" :: rest
          end
      | [] => [String a ""]
      end
  end.

(** [str::split] on the characters that satisfy [p]. *)
Fixpoint split_chars (p : string -> bool) (l : list string) : list string :=
  match l with
  | [] => [""]
  | c :: rest =>
      if p c then "" :: split_chars p rest
      else match split_chars p rest with piece :: pieces => (c +:+ piece) :: pieces | [] => [c] end
  end.

(* crates/memory/src/lexical_index.rs, build_fts_query *)
Definition build_fts_query `{Retrieval} (raw : string) : option string :=
  let tokens := map (fun v => replace_char (byte_at 34) "" v)
    (List.filter (fun v => negb (str_is_empty v))
       (map trim (split_chars (fun c => negb (is_alphanumeric c || String.eqb c "_")) (chars raw)))) in
  match tokens with
  | [] => None
  | _ => Some (str_join " AND " (map (fun token => dquote +:+ token +:+ dquote) tokens))
  end.

(* crates/memory/src/lexical_index.rs, bm25_rank_to_score *)
Definition bm25_rank_to_score (rank : f64) : f64 :=
  if negb (f64_is_finite rank) then f64_div f64_one (f64_add f64_one (lit 999 0))
  else if SFltb rank f64_zero then
    let relevance := SFopp rank in f64_div relevance (f64_add f64_one relevance)
  else f64_div f64_one (f64_add f64_one rank).

(* crates/memory/src/lexical_index.rs, escape_sql_like_prefix *)
Definition escape_sql_like_prefix (value : string) : string :=
  replace_char "_" (backslash +:+ "_") (replace_char "%" (backslash +:+ "%") (replace_char (byte_at 92) (backslash +:+ backslash) value)).

(** The rows of the full-text table that match a query, by ascending rank, at most as many as the
    limit: each with the snippet SQLite makes and its rank; with a pattern for [LIKE], those
    whose path matches it. *)
Class FullText := {
  fts_match : list LexicalIndexChunk -> string -> option string -> nat ->
    result (list (LexicalIndexChunk * option string * f64)) string
}.

(* crates/memory/src/lexical_index.rs, LexicalSearchMatch *)
Record LexicalSearchMatch := mkLexicalSearchMatch {
  lm_chunk_id : string;
  lm_path : string;
  lm_snapshot_id : string;
  lm_start_line : nat;
  lm_end_line : nat;
  lm_snippet : string;
  lm_score : f64;
  lm_raw_rank : f64
}.

Section Query.
Context {R : Retrieval} {T : FullText}.

Definition lexical_match (row : LexicalIndexChunk * option string * f64) : LexicalSearchMatch :=
  let '(chunk, snippet, raw_rank) := row in
  let lexical_score := bm25_rank_to_score raw_rank in
  mkLexicalSearchMatch (lic_chunk_id chunk) (lic_path chunk) (lic_snapshot_id chunk) (lic_start_line chunk)
    (lic_end_line chunk)
    (match snippet with Some s => if str_is_empty (trim s) then lic_text chunk else s | None => lic_text chunk end)
    (if String.eqb (lic_path chunk) "MEMORY.md" then f64_min (f64_add lexical_score (lit 15 (-2))) f64_one else lexical_score)
    raw_rank.

(* crates/memory/src/lexical_index.rs, search_sqlite_index_blocking *)
Definition search_sqlite_index (artifact : option Database) (query : string) (path_prefix : option string) (limit : nat)
    : result (list LexicalSearchMatch) MemoryError :=
  match artifact with
  | None => Ok []
  | Some db =>
      if (limit =? 0)%nat then Ok []
      else match build_fts_query query with
           | None => Ok []
           | Some fts_query =>
               match fts_match (db_fts db) fts_query ((fun p => escape_sql_like_prefix p +:+ "%") <$> path_prefix)
                       (as_u32 limit) with
               | Ok rows => Ok (map lexical_match rows)
               | Err e => Err (MemErr_InvalidInput ("memory lexical sqlite error: " +:+ e))
               end
           end
  end.

End Query.

(** ** The backend *)

(* crates/memory/src/config.rs, MemorySearchConfig *)
Record MemorySearchConfig := mkMemorySearchConfig { max_results : nat; max_snippet_chars : nat; context_lines : nat }.

(** A JSON value of the metadata map of a hit. *)
Inductive MetaValue := MV_string (s : string) | MV_number (n : N) | MV_float (x : f64) | MV_bool (b : bool).

(* crates/memory/src/backend.rs, MemorySearchHit *)
Record MemorySearchHit := mkMemorySearchHit {
  hit_id : string;
  hit_path : string;
  hit_start_line : nat;
  hit_end_line : nat;
  hit_score : f64;
  hit_snippet : string;
  hit_document_metadata : MemoryDocumentMetadata;
  hit_metadata : btree MetaValue
}.

(* crates/memory/src/backend.rs, MemorySearchResponse *)
Record MemorySearchResponse := mkMemorySearchResponse {
  srs_backend : string;
  srs_hits : list MemorySearchHit;
  srs_metadata : btree MetaValue
}.

(* crates/memory/src/backend.rs, MemoryGetRequest *)
Record MemoryGetRequest := mkMemoryGetRequest { gr_path : string; gr_start_line : option N; gr_line_count : option N }.

(* crates/memory/src/backend.rs, MemoryDocument *)
Record MemoryDocument := mkMemoryDocument {
  md_path : string;
  md_snapshot_id : string;
  md_title : string;
  md_requested_start_line : N;
  md_resolved_start_line : N;
  md_resolved_end_line : N;
  md_total_lines : N;
  md_text : string;
  md_metadata : MemoryDocumentMetadata
}.

(* crates/memory/src/backend.rs, MemoryListEntry *)
Record MemoryListEntry := mkMemoryListEntry {
  mle_path : string;
  mle_title : string;
  mle_snapshot_id : string;
  mle_total_lines : nat;
  mle_metadata : MemoryDocumentMetadata
}.

(* crates/memory/src/backend.rs, MemoryListResponse *)
Record MemoryListResponse := mkMemoryListResponse { lrs_entries : list MemoryListEntry; lrs_metadata : btree MetaValue }.

(* crates/memory/src/runtime_exports.rs, MemoryRuntimeExportStats *)
Record MemoryRuntimeExportStats := mkRuntimeExportStats {
  xs_exported_sessions : nat;
  xs_exported_agent_sessions : nat;
  xs_exported_subagents : nat;
  xs_exported_tasks : nat;
  xs_exported_documents : nat;
  xs_output_dir : option string
}.

Definition insert_all (entries : list (string * MetaValue)) : btree MetaValue :=
  foldl (fun m e => bt_insert e.1 e.2 m) [] entries.

(* crates/memory/src/memory_core.rs, strip_frontmatter_for_snippet *)
Definition strip_frontmatter_for_snippet (text : string) : string :=
  let trimmed := trim text in
  if negb (starts_with trimmed ("---" +:+ nl)) then trimmed
  else match str_lines trimmed with
       | "---" :: lines =>
           let '(yaml, closed) := yaml_lines lines in
           if closed then
             let body := trim (str_join nl (drop (S (length yaml)) lines)) in
             if str_is_empty body then trimmed else body
           else trimmed
       | _ => trimmed
       end.

(* crates/memory/src/memory_core.rs, render_snippet *)
Definition render_snippet (text : string) (max_chars : nat) : string :=
  let text := strip_frontmatter_for_snippet text in
  if (chars_count text <=? max_chars)%nat then text else take_chars (max_chars - 3) text +:+ "...".

(* crates/memory/src/memory_core.rs, summary_memory_lexical_score *)
Definition summary_memory_lexical_score (path : string) (score : f64) : f64 :=
  if String.eqb path "MEMORY.md" || String.eqb path ".nanoclaw/memory/MEMORY.md"
  then f64_max (f64_sub score (lit 15 (-2))) f64_zero else score.

(** [partial_cmp(..).unwrap_or(Equal)]. *)
Definition f64_partial_or_eq (x y : f64) : comparison := default Eq (SFcompare x y).

(* crates/memory/src/memory_core.rs, compare_hit_score *)
Definition compare_hit_score (left right : MemorySearchHit) : comparison :=
  then_with (f64_partial_or_eq (hit_score right) (hit_score left))
  (then_with (String.compare (hit_path left) (hit_path right)) (Nat.compare (hit_start_line left) (hit_start_line right))).
Definition hit_le (left right : MemorySearchHit) : Prop := compare_hit_score left right <> Gt.
#[global] Instance hit_le_dec left right : Decision (hit_le left right).
Proof. unfold hit_le. apply _. Defined.

(* crates/memory/src/memory_core.rs, compare_list_entry *)
Definition compare_memory_entry (left right : MemoryListEntry) : comparison :=
  then_with (option_N_compare (mm_updated_at_ms (mle_metadata right)) (mm_updated_at_ms (mle_metadata left)))
    (String.compare (mle_path left) (mle_path right)).
Definition memory_entry_le (left right : MemoryListEntry) : Prop := compare_memory_entry left right <> Gt.
#[global] Instance memory_entry_le_dec left right : Decision (memory_entry_le left right).
Proof. unfold memory_entry_le. apply _. Defined.

Section Backend.
Context {R : Retrieval} {T : FullText} {Sh : Sha256}.

(* crates/memory/src/memory_core.rs, chunk_id *)
Definition chunk_id (chunk : MemoryCorpusChunk) : string :=
  stable_hash (ck_path chunk +:+ ":" +:+ fmt_nat (ck_start_line chunk)).

(* crates/memory/src/memory_core.rs, lexical_index_chunks *)
Definition lexical_index_chunks (chunks : list MemoryCorpusChunk) : list LexicalIndexChunk :=
  map (fun chunk =>
    mkLexicalIndexChunk (chunk_id chunk) (ck_path chunk) (ck_snapshot_id chunk) (ck_start_line chunk) (ck_end_line chunk)
      (ck_text chunk) ("path: " +:+ ck_path chunk +:+ nl +:+ ck_indexed_text chunk)) chunks.

(* crates/memory/src/memory_core.rs, document_snapshots *)
Definition document_snapshots (corpus : MemoryCorpus) : btree string :=
  foldl (fun m doc => bt_insert (doc_path doc) (doc_snapshot_id doc) m) [] (corpus_documents corpus).

Definition chunk_map (chunks : list MemoryCorpusChunk) : btree MemoryCorpusChunk :=
  foldl (fun m chunk => bt_insert (chunk_id chunk) chunk m) [] chunks.

(** A row of the index as a hit, if its chunk is in the corpus and passes the filters. *)
(* crates/memory/src/memory_core.rs, MemoryCoreBackend::search@.filter_map(|entry| { *)
Definition search_hit (config : MemorySearchConfig) (request : MemorySearchRequest) (chunks : btree MemoryCorpusChunk)
    (now_ms : Z) (entry : LexicalSearchMatch) : option MemorySearchHit :=
  chunk ← bt_get (lm_chunk_id entry) chunks;
  if negb (matches_search_filters (lm_path entry) (ck_metadata chunk) request) then None
  else
    let signals := search_signals_on (lm_path entry) (ck_metadata chunk) request now_ms in
    let lexical_score := summary_memory_lexical_score (lm_path entry) (lm_score entry) in
    let retrieval_score := f64_mul lexical_score (total_multiplier signals) in
    Some (mkMemorySearchHit (lm_chunk_id entry) (lm_path entry) (lm_start_line entry) (lm_end_line entry) retrieval_score
            (render_snippet (lm_snippet entry) (max_snippet_chars config)) (ck_metadata chunk)
            (insert_all
               ([("snapshot_id", MV_string (lm_snapshot_id entry)); ("bm25_rank", MV_float (lm_raw_rank entry));
                 ("lexical_score", MV_float lexical_score);
                 ("memory_scope", MV_string (scope_as_str (mm_scope (ck_metadata chunk))));
                 ("memory_layer", MV_string (mm_layer (ck_metadata chunk)));
                 ("memory_status", MV_string (mstatus_as_str (mm_status (ck_metadata chunk))));
                 ("scope_weight", MV_float (sg_scope_weight signals));
                 ("recency_multiplier", MV_float (sg_recency_multiplier signals));
                 ("agent_session_match_bonus", MV_float (sg_agent_session_match_bonus signals));
                 ("agent_match_bonus", MV_float (sg_agent_match_bonus signals));
                 ("task_match_bonus", MV_float (sg_task_match_bonus signals));
                 ("session_match_bonus", MV_float (sg_session_match_bonus signals));
                 ("stale_penalty", MV_float (sg_stale_penalty signals));
                 ("retrieval_score", MV_float retrieval_score)]
                ++ match mm_updated_at_ms (ck_metadata chunk) with
                   | Some ms => [("updated_at_ms", MV_number ms)] | None => [] end)%list)).

(** The limits of a search: how many hits, and how many rows the index is asked for. *)
Definition search_limit (config : MemorySearchConfig) (request : MemorySearchRequest) : nat :=
  N.to_nat (N.min (N.max (default (N.of_nat (max_results config)) (sr_limit request)) 1) 50).
Definition candidate_limit (limit : nat) : nat := Nat.min (limit * 12) 400.

(** The hits of a search over the chunks of the corpus, once the index is ready. *)
(* crates/memory/src/memory_core.rs, MemoryCoreBackend::search *)
Definition memory_search (config : MemorySearchConfig) (chunking : MemoryChunkingConfig) (corpus : MemoryCorpus)
    (exports : MemoryRuntimeExportStats) (lifecycle : option MemorySidecarLifecycle) (artifact : option Database)
    (request : MemorySearchRequest) (now_ms : Z) : result MemorySearchResponse MemoryError :=
  let chunks := chunk_corpus corpus chunking in
  let limit := search_limit config request in
  match lifecycle with
  | None => Err (MemErr_InvalidInput "memory-core lifecycle manifest missing after sync")
  | Some lifecycle =>
      matches <-? search_sqlite_index artifact (sr_query request) (normalize_optional (sr_path_prefix request))
                    (candidate_limit limit);
      let hits := omap (search_hit config request (chunk_map chunks) now_ms) matches in
      Ok (mkMemorySearchResponse "memory-core" (take limit (merge_sort hit_le hits))
            (insert_all
               ([("query", MV_string (sr_query request));
                 ("indexed_documents", MV_number (N.of_nat (lc_indexed_document_count lifecycle)));
                 ("indexed_chunks", MV_number (N.of_nat (lc_indexed_chunk_count lifecycle)));
                 ("runtime_exported_sessions", MV_number (N.of_nat (xs_exported_sessions exports)));
                 ("runtime_exported_documents", MV_number (N.of_nat (xs_exported_documents exports)));
                 ("candidate_limit", MV_number (N.of_nat (candidate_limit limit)))]
                ++ match xs_output_dir exports with Some dir => [("runtime_export_dir", MV_string dir)] | None => [] end
                ++ [("fallback_used", MV_bool false)])%list))
  end.

(** [&lines[start..end]]: [None] where the code panics. *)
Definition line_range (lines : list string) (start end_ : N) : option (list string) :=
  if (start <=? end_)%N && (end_ <=? N.of_nat (length lines))%N
  then Some (drop (N.to_nat start) (take (N.to_nat end_) lines)) else None.

(** [None] where the code panics; sums wrap around as in a release build. *)
(* crates/memory/src/memory_core.rs, MemoryCoreBackend::get *)
Definition memory_get (corpus : MemoryCorpus) (request : MemoryGetRequest) : option (result MemoryDocument MemoryError) :=
  let requested := replace_char (byte_at 92) "/" (gr_path request) in
  match List.find (fun doc => String.eqb (doc_path doc) requested) (corpus_documents corpus) with
  | None => Some (Err (MemErr_PathNotInCorpus (gr_path request)))
  | Some document =>
      let total := N.of_nat (length (doc_lines document)) in
      let start_line := N.max (default 1%N (gr_start_line request)) 1 in
      if is_nil (doc_lines document) then
        Some (Ok (mkMemoryDocument (doc_path document) (doc_snapshot_id document) (doc_title document) start_line 0 0 0 ""
                    (doc_metadata document)))
      else
        let line_count := N.max (default total (gr_line_count request)) 1 in
        let resolved_start := N.min start_line (N.max total 1) in
        let resolved_end := N.min (usize_sub (usize_add resolved_start line_count) 1) total in
        lines ← line_range (doc_lines document) (resolved_start - 1) resolved_end;
        Some (Ok (mkMemoryDocument (doc_path document) (doc_snapshot_id document) (doc_title document) start_line
                    resolved_start resolved_end total (format_numbered_lines lines (N.to_nat resolved_start))
                    (doc_metadata document)))
  end.

(* crates/memory/src/memory_core.rs, MemoryCoreBackend::list *)
Definition memory_list (corpus : MemoryCorpus) (exports : MemoryRuntimeExportStats) (request : MemoryListRequest)
    : MemoryListResponse :=
  let limit := N.to_nat (N.min (N.max (default 100%N (lr_limit request)) 1) 500) in
  let entries :=
    map (fun doc => mkMemoryListEntry (doc_path doc) (doc_title doc) (doc_snapshot_id doc) (length (doc_lines doc)) (doc_metadata doc))
      (List.filter (fun doc => matches_list_filters (doc_path doc) (doc_metadata doc) request) (corpus_documents corpus)) in
  let entries := take limit (merge_sort memory_entry_le entries) in
  mkMemoryListResponse entries
    (insert_all [("count", MV_number (N.of_nat (length entries)));
                 ("runtime_exported_documents", MV_number (N.of_nat (xs_exported_documents exports)))]).

End Backend.
