(* ===== verification/MemorySearchProps.v ===== *)
(** * What retrieval returns

    The contract of a search, its filters and its ranking, written apart from the code; the hits are
    chunks of the corpus that meet the request, best first; reading a document by lines, and
    where it panics. *)

From Stdlib Require Import Ascii String ZArith SpecFloat.
From stdpp Require Import base list gmap sorting strings.
From Stdlib Require Import Lia.
From S2P Require Import Prelude Text BTree Float64 Message Errors TextBuffer WriteLease SandboxPolicy Tools PathPolicy.
From S2P Require Import StoreSearch StoreOrder FileQueries ReadTool SchedScore Mutation MemoryFiles MemoryOps MemoryCorpus MemoryIndex.
From S2P Require Import MemoryIndexProps MemorySearch.

(** A query of the full-text table returns rows of it, within its limit. *)
Class FullTextLaws (T : FullText) : Prop := {
  fts_sound : forall rows query prefix limit found, fts_match rows query prefix limit = Ok found ->
    Forall (fun r => r.1.1 ∈ rows) found /\ (length found <= limit)%nat
}.

Lemma then_with_opp a b a' b' : a' = CompOpp a -> b' = CompOpp b -> then_with a' b' = CompOpp (then_with a b).
Proof. intros -> ->. by destruct a. Qed.

Lemma compare_hit_opp x y : compare_hit_score y x = CompOpp (compare_hit_score x y).
Proof.
  unfold compare_hit_score. apply then_with_opp; [|apply then_with_opp].
  - unfold f64_partial_or_eq. rewrite (SFcompare_opp (hit_score y) (hit_score x)). by destruct (SFcompare _ _) as [[]|].
  - apply String.compare_antisym.
  - apply Nat.compare_antisym.
Qed.

#[export] Instance hit_le_total : Total hit_le.
Proof. intros x y. unfold hit_le. rewrite (compare_hit_opp x y). destruct (compare_hit_score x y); [left | left | right]; done. Qed.

(** The text of a snippet is cut. *)
Lemma render_snippet_bound text n : (chars_count (render_snippet text n) <= Nat.max n 3)%nat.
Proof.
  unfold render_snippet. case_match eqn:E; [apply Nat.leb_le in E; lia|].
  assert (Ha : forall a b, chars_count (a +:+ b) = (chars_count a + chars_count b)%nat).
  { intros a b. induction a as [|x a IH]; [done|]. rewrite str_append_cons, !chars_count_cons, IH. lia. }
  rewrite Ha. change (chars_count "...") with 3%nat. pose proof (take_chars_count (n - 3) (strip_frontmatter_for_snippet text)). lia.
Qed.

(** ** The contract of a search, apart from the code *)

(** [a] may stand before [b]: its score is higher, or [b]'s is not and [a] comes first by path and then by line. *)
Definition ranks_before (a b : MemorySearchHit) : Prop :=
  SFltb (hit_score b) (hit_score a) = true \/
  SFltb (hit_score a) (hit_score b) = false /\
    (String.compare (hit_path a) (hit_path b) = Lt \/
     hit_path a = hit_path b /\ (hit_start_line a <= hit_start_line b)%nat).

(** What a request asks of a document; a filter that is absent, blank or empty asks for nothing. *)
Record asked_for (request : MemorySearchRequest) (path : string) (m : MemoryDocumentMetadata) : Prop := {
  af_prefix : forall p, sr_path_prefix request = Some p -> trim p <> "" -> exists rest, path = trim p +:+ rest;
  af_scope : forall l, sr_scopes request = Some l -> l <> [] -> mm_scope m ∈ l;
  af_type : forall l, sr_types request = Some l -> l <> [] -> exists t, mm_memory_type m = Some t /\ t ∈ l;
  af_tags : forall l tag, sr_tags request = Some l -> tag ∈ l ->
    exists own, own ∈ mm_tags m /\ to_ascii_lowercase own = to_ascii_lowercase tag;
  af_session : forall id, sr_session_id request = Some id -> mm_session_id m = Some id;
  af_agent_session : forall id, sr_agent_session_id request = Some id -> mm_agent_session_id m = Some id;
  af_agent_name : forall name, sr_agent_name request = Some name ->
    exists own, mm_agent_name m = Some own /\ to_ascii_lowercase own = to_ascii_lowercase name;
  af_task : forall id, sr_task_id request = Some id -> mm_task_id m = Some id;
  af_status : sr_include_stale request <> Some true -> mm_status m = Status_Ready
}.

Lemma hit_le_ranks a b : hit_le a b -> ranks_before a b.
Proof.
  unfold hit_le, compare_hit_score, ranks_before, f64_partial_or_eq, SFltb. rewrite (SFcompare_opp (hit_score b) (hit_score a)).
  destruct (SFcompare (hit_score b) (hit_score a)) as [[]|]; cbn; intros H; [|by left|done|];
    right; (split; [done|]); destruct (String.compare (hit_path a) (hit_path b)) eqn:E; try done; try (by left);
    right; (split; [by apply String.compare_eq_iff|]); by apply Nat.compare_le_iff.
Qed.

Lemma if_false_iff (b c : bool) : (if b then false else c) = true <-> b = false /\ c = true.
Proof. destruct b; naive_solver. Qed.

(** A filter that is an option of a list. *)
Lemma list_filter_iff {A} (o : option (list A)) (test : list A -> bool) (P : list A -> Prop) :
  (forall l, test l = true <-> P l) ->
  match o with Some l => negb (is_nil l) && negb (test l) | None => false end = false <->
  forall l, o = Some l -> l <> [] -> P l.
Proof.
  intros Ht. destruct o as [l|]; [|done]. rewrite andb_false_iff, !negb_false_iff, is_nil_true, Ht. split.
  - intros [->|H] l' [= <-]; done.
  - intros H. destruct l; [by left | right; by apply H].
Qed.

(** A filter that is an option of a value the document must have. *)
Lemma value_filter_iff {A} `{EqDecision A} (o own : option A) :
  match o with Some id => negb (bool_decide (own = Some id)) | None => false end = false <->
  forall id, o = Some id -> own = Some id.
Proof.
  destruct o as [x|]; [|done]. rewrite negb_false_iff, bool_decide_eq_true. split; [by intros H id [= <-] | auto].
Qed.

Lemma tags_filter_iff (tags own : list string) :
  forallb (fun tag => existsb (fun candidate => tag_eq candidate tag) own) tags = true <->
  forall tag, tag ∈ tags -> exists c, c ∈ own /\ to_ascii_lowercase c = to_ascii_lowercase tag.
Proof.
  rewrite forallb_forall. setoid_rewrite existsb_exists. setoid_rewrite <- list_elem_of_In.
  unfold tag_eq, eq_ignore_ascii_case. by setoid_rewrite String.eqb_eq.
Qed.

Lemma prefix_filter_iff (o : option string) path :
  match normalize_optional o with Some prefix => negb (starts_with path prefix) | None => false end = false <->
  forall p, o = Some p -> trim p <> "" -> exists rest, path = trim p +:+ rest.
Proof.
  unfold normalize_optional, trimmed_non_empty. destruct o as [p|]; cbn [mbind option_bind]; [|done].
  destruct (trim p) as [|c t] eqn:E; cbn.
  - split; [|done]. intros _ q [= <-]. by rewrite E.
  - rewrite negb_false_iff, starts_with_spec. split; [intros H q [= <-]; by rewrite E | intros H].
    rewrite <- E. apply H; [done | by rewrite E].
Qed.

(** The filters of the code are the contract. *)
Lemma filters_are_asked_for path m request : matches_search_filters path m request = true <-> asked_for request path m.
Proof.
  unfold matches_search_filters, matches_filters. rewrite !if_false_iff, prefix_filter_iff, !value_filter_iff.
  rewrite (list_filter_iff (sr_scopes request) _ (fun l => mm_scope m ∈ l)) by (intros; apply bool_decide_eq_true).
  rewrite (list_filter_iff (sr_types request) _ (fun l => exists t, mm_memory_type m = Some t /\ t ∈ l)).
  2: { intros l. destruct (mm_memory_type m); [rewrite bool_decide_eq_true|]; naive_solver. }
  rewrite (list_filter_iff (sr_tags request) _ _ (fun l => tags_filter_iff l (mm_tags m))).
  unfold status_visible_in_retrieval. rewrite orb_true_iff, bool_decide_eq_true.
  assert (Hn : match sr_agent_name request with
    | Some name => match mm_agent_name m with Some c => negb (eq_ignore_ascii_case c name) | None => true end
    | None => false end = false <-> forall name, sr_agent_name request = Some name ->
      exists own, mm_agent_name m = Some own /\ to_ascii_lowercase own = to_ascii_lowercase name).
  { unfold eq_ignore_ascii_case. destruct (sr_agent_name request) as [n|]; [|done]. destruct (mm_agent_name m) as [c|].
    - rewrite negb_false_iff, String.eqb_eq. split; [intros H name [= <-]; eauto | intros H].
      by destruct (H n eq_refl) as (own & [= <-] & ?).
    - split; [done | intros H]. by destruct (H n eq_refl) as (own & ? & ?). }
  rewrite Hn. clear Hn. assert (Hs : default false (sr_include_stale request) = true <-> sr_include_stale request = Some true)
    by (destruct (sr_include_stale request) as [[]|]; naive_solver).
  rewrite Hs. split.
  - intros (H1 & H2 & H3 & H4 & H5 & H6 & H7 & H8 & H9). split; try done; [|naive_solver].
    intros l tag Hl Ht. apply (H4 l); [done | by intros ->; apply elem_of_nil in Ht | done].
  - intros []. split_and!; try done; [naive_solver|]. destruct (decide (sr_include_stale request = Some true)); [by left | right; auto].
Qed.

Section Search.
Context {R : Retrieval} {T : FullText} {TL : FullTextLaws T} {Sh : Sha256}.

Lemma chunk_map_get chunks id chunk : bt_get id (chunk_map chunks) = Some chunk -> chunk ∈ chunks /\ chunk_id chunk = id.
Proof.
  unfold chunk_map. enough (H : forall m, (forall i c, bt_get i m = Some c -> chunk_id c = i) ->
    bt_get id (foldl (fun m c => bt_insert (chunk_id c) c m) m chunks) = Some chunk ->
    (chunk ∈ chunks \/ bt_get id m = Some chunk) /\ chunk_id chunk = id).
  { intros Hg. destruct (H [] ltac:(done) Hg) as [[?|?] ?]; [done | done]. }
  induction chunks as [|c chunks IH]; intros m Hm Hg; [split; [by right | by apply Hm]|]. cbn [foldl] in Hg.
  apply IH in Hg as [[Hin|Hg] Hid].
  - split; [left; by right | done].
  - rewrite bt_get_insert in Hg. destruct (String.eqb_spec id (chunk_id c)) as [He|He].
    + injection Hg as <-. split; [left; by left | done].
    + split; [by right | done].
  - intros i c'. rewrite bt_get_insert. destruct (String.eqb_spec i (chunk_id c)); [by intros [= <-] | apply Hm].
Qed.

(** A hit and the chunk it stands for. *)
Definition hit_of_chunk (config : MemorySearchConfig) (request : MemorySearchRequest) (hit : MemorySearchHit)
    (chunk : MemoryCorpusChunk) : Prop :=
  hit_id hit = chunk_id chunk /\ hit_path hit = ck_path chunk /\
  hit_start_line hit = as_u32 (ck_start_line chunk) /\ hit_end_line hit = as_u32 (ck_end_line chunk) /\
  hit_document_metadata hit = ck_metadata chunk /\
  asked_for request (ck_path chunk) (ck_metadata chunk) /\
  (chars_count (hit_snippet hit) <= Nat.max (max_snippet_chars config) 3)%nat.

(** The rows the index answers with are rows of the corpus. *)
Lemma matches_in_corpus db corpus chunking query prefix limit matches :
  db_fts db ≡ₚ map stored_row (lexical_index_chunks (chunk_corpus corpus chunking)) ->
  search_sqlite_index (Some db) query prefix limit = Ok matches ->
  Forall (fun m => exists chunk, chunk ∈ chunk_corpus corpus chunking /\ lm_chunk_id m = chunk_id chunk /\
    lm_path m = ck_path chunk /\ lm_start_line m = as_u32 (ck_start_line chunk) /\ lm_end_line m = as_u32 (ck_end_line chunk)) matches.
Proof.
  intros Hdb. unfold search_sqlite_index. destruct (_ =? 0)%nat; [by intros [= <-]|].
  destruct (build_fts_query _); [|by intros [= <-]]. destruct (fts_match _ _ _ _) as [found|] eqn:Ef; [|done].
  intros [= <-]. apply fts_sound in Ef as [Hf _]. apply Forall_fmap. eapply Forall_impl; [exact Hf|].
  intros [[row snip] rank] Hin. cbn in Hin. rewrite Hdb in Hin.
  change (map stored_row ?l) with (stored_row <$> l) in Hin. apply list_elem_of_fmap in Hin as (lic & -> & Hin).
  unfold lexical_index_chunks in Hin. apply list_elem_of_fmap in Hin as (chunk & -> & Hin). by exists chunk.
Qed.

(** Distinct ids: the map of chunks finds every chunk by its id. *)
Lemma chunk_by_id chunks chunk : NoDup (chunk_id <$> chunks) -> chunk ∈ chunks ->
  bt_get (chunk_id chunk) (chunk_map chunks) = Some chunk.
Proof.
  intros Hnd Hin. destruct (bt_get (chunk_id chunk) (chunk_map chunks)) as [c|] eqn:Ec.
  - apply chunk_map_get in Ec as [Hc Hci]. f_equal.
    apply list_elem_of_lookup in Hin as [i Hi], Hc as [j Hj]. assert (j = i) as ->; [|congruence].
    apply (NoDup_lookup _ _ _ (chunk_id chunk) Hnd); rewrite list_lookup_fmap; [by rewrite Hj, <- Hci | by rewrite Hi].
  - exfalso. revert Ec. unfold chunk_map.
    assert (H : forall l m, chunk ∈ l \/ is_Some (bt_get (chunk_id chunk) m) ->
      is_Some (bt_get (chunk_id chunk) (foldl (fun m c => bt_insert (chunk_id c) c m) m l))).
    { clear. induction l as [|c l IH]; intros m [H|H]; [by apply elem_of_nil in H | done | |]; cbn [foldl]; apply IH.
      - apply elem_of_cons in H as [<-|H]; [right; rewrite bt_get_insert, String.eqb_refl; by eexists | by left].
      - right. rewrite bt_get_insert. destruct (String.eqb _ _); [by eexists | done]. }
    intros E. destruct (H chunks [] (or_introl Hin)) as [x Hx]. congruence.
Qed.

(** The hit of a row, which there is exactly when the request asks for its chunk. *)
Lemma search_hit_of_chunk config request chunks now_ms m chunk :
  NoDup (chunk_id <$> chunks) -> chunk ∈ chunks -> lm_chunk_id m = chunk_id chunk -> lm_path m = ck_path chunk ->
  lm_start_line m = as_u32 (ck_start_line chunk) -> lm_end_line m = as_u32 (ck_end_line chunk) ->
  match search_hit config request (chunk_map chunks) now_ms m with
  | Some hit => hit_of_chunk config request hit chunk
  | None => ~ asked_for request (ck_path chunk) (ck_metadata chunk)
  end.
Proof.
  intros Hnd Hin Hid Hp Hs He. unfold search_hit. rewrite Hid, (chunk_by_id chunks chunk) by done. cbn [mbind option_bind].
  pose proof (filters_are_asked_for (ck_path chunk) (ck_metadata chunk) request) as Hf. rewrite Hp.
  destruct (matches_search_filters _ _ _) eqn:E; cbn [negb]; [|intros Ha%Hf; congruence].
  unfold hit_of_chunk. cbn. split_and!; try done; [by apply Hf | apply render_snippet_bound].
Qed.

Lemma Sorted_take {A} (le : A -> A -> Prop) n l : Sorted le l -> Sorted le (take n l).
Proof.
  intros H. revert n. induction H as [|x l Hs IH Hh]; intros [|n]; cbn [take]; try constructor; [done|].
  destruct l, n; constructor. by inversion Hh.
Qed.

Lemma Sorted_impl {A} (le le' : A -> A -> Prop) l : (forall a b, le a b -> le' a b) -> Sorted le l -> Sorted le' l.
Proof. intros Hi. induction 1 as [|x l Hs IH Hh]; constructor; [done|]. destruct Hh; constructor; auto. Qed.

(** C35.  Searching the memory: once the index holds the corpus (chunk ids being distinct), every hit is a
    chunk of a document of the corpus, with its path, lines and metadata and a bounded snippet, that
    meets the request (path prefix, scope, type, tags, sessions, agent, task; only ready notes unless stale
    ones are asked for).  The hits come by falling score, ties by path and line, no more of them
    than the limit, which is at most 50; and below the limit none is missing: every row the index
    answered whose chunk meets the request is a hit. *)
Theorem memory_search_sound config chunking corpus exports lifecycle db request now_ms response :
  NoDup (chunk_id <$> chunk_corpus corpus chunking) ->
  db_fts db ≡ₚ map stored_row (lexical_index_chunks (chunk_corpus corpus chunking)) ->
  memory_search config chunking corpus exports lifecycle (Some db) request now_ms = Ok response ->
  Forall (fun hit => exists chunk, chunk ∈ chunk_corpus corpus chunking /\ hit_of_chunk config request hit chunk)
    (srs_hits response) /\
  Sorted ranks_before (srs_hits response) /\ (length (srs_hits response) <= search_limit config request <= 50)%nat /\
  exists matches,
    search_sqlite_index (Some db) (sr_query request) (normalize_optional (sr_path_prefix request))
      (candidate_limit (search_limit config request)) = Ok matches /\
    ((length (srs_hits response) < search_limit config request)%nat ->
     forall m chunk, m ∈ matches -> chunk ∈ chunk_corpus corpus chunking -> lm_chunk_id m = chunk_id chunk ->
       asked_for request (ck_path chunk) (ck_metadata chunk) ->
       exists hit, hit ∈ srs_hits response /\ hit_of_chunk config request hit chunk).
Proof.
  intros Hnd Hdb. unfold memory_search. cbv zeta. destruct lifecycle as [lc|]; [|done].
  destruct (search_sqlite_index _ _ _ _) as [matches|] eqn:Em; [|done]. cbn [result_bind]. intros [= <-]. cbn [srs_hits].
  pose proof (matches_in_corpus _ _ _ _ _ _ _ Hdb Em) as Hrows. rewrite Forall_forall in Hrows. clear Em.
  set (chunks := chunk_corpus corpus chunking) in *. set (limit := search_limit config request).
  set (hits := omap _ matches).
  assert (Hhit : forall hit, hit ∈ hits -> exists chunk, chunk ∈ chunks /\ hit_of_chunk config request hit chunk).
  { intros hit (m & Hm & E)%list_elem_of_omap. destruct (Hrows m Hm) as (chunk & Hin & ? & ? & ? & ?).
    pose proof (search_hit_of_chunk config request chunks now_ms m chunk) as Hs. rewrite E in Hs. exists chunk. auto. }
  split_and!.
  - apply Forall_forall. intros hit Hin. apply Hhit. rewrite <- (merge_sort_Permutation hit_le). by eapply subseteq_take.
  - apply Sorted_take, (Sorted_impl hit_le); [apply hit_le_ranks | apply (Sorted_merge_sort hit_le)].
  - rewrite length_take. lia.
  - unfold limit, search_limit. lia.
  - exists matches. split; [done|]. rewrite length_take. intros Hlt m chunk Hm Hin Hid Ha.
    rewrite take_ge by lia. destruct (Hrows m Hm) as (c & Hc & Hidc & ? & ? & ?).
    assert (c = chunk) as ->.
    { enough (Some c = Some chunk) by congruence. by rewrite <- (chunk_by_id chunks c), <- (chunk_by_id chunks chunk), <- Hid, Hidc by done. }
    pose proof (search_hit_of_chunk config request chunks now_ms m chunk) as Hs.
    destruct (search_hit _ _ _ _ m) as [hit|] eqn:E; [|by destruct Hs]. exists hit. split; [|by apply Hs].
    rewrite merge_sort_Permutation. apply list_elem_of_omap. by exists m.
Qed.

End Search.

(** ** Reading a document *)

(** A document read by lines: the lines from the one asked for (or the last), as many as asked for
    and as there are, when the sum of both numbers fits its width. *)
Theorem memory_get_returns_lines corpus request document :
  List.find (fun doc => String.eqb (doc_path doc) (replace_char (byte_at 92) "/" (gr_path request))) (corpus_documents corpus)
    = Some document ->
  doc_lines document <> [] ->
  let total := N.of_nat (length (doc_lines document)) in
  let start := N.min (N.max (default 1%N (gr_start_line request)) 1) total in
  let count := N.max (default total (gr_line_count request)) 1 in
  (start + count <= u64_max)%N ->
  exists d, memory_get corpus request = Some (Ok d) /\
    md_resolved_start_line d = start /\ md_resolved_end_line d = N.min (start + count - 1) total /\
    md_text d = format_numbered_lines
      (drop (N.to_nat (start - 1)) (take (N.to_nat (N.min (start + count - 1) total)) (doc_lines document))) (N.to_nat start).
Proof.
  intros Hf Hne total start count Hfit. unfold memory_get. cbv zeta. rewrite Hf.
  assert (Ht : (1 <= total)%N) by (unfold total; destruct (doc_lines document); [done | simpl; lia]).
  assert (Hnil : is_nil (doc_lines document) = false) by by destruct (doc_lines document).
  rewrite Hnil. fold total. fold count.
  assert (Hs : N.min (N.max (default 1%N (gr_start_line request)) 1) (N.max total 1) = start) by (unfold start; lia).
  rewrite Hs. assert (Hc : (1 <= count)%N) by (unfold count; lia). assert (Hst : (1 <= start <= total)%N) by (unfold start; lia).
  assert (Hadd : usize_sub (usize_add start count) 1 = (start + count - 1)%N).
  { unfold usize_sub, usize_add, u64_max in *. rewrite (N.mod_small (start + count)) by lia.
    replace (start + count + 18446744073709551616 - 1)%N with ((start + count - 1) + 1 * 18446744073709551616)%N by lia.
    rewrite N.Div0.mod_add. apply N.mod_small. lia. }
  rewrite Hadd. unfold line_range. fold total.
  assert (Hle : ((start - 1 <=? N.min (start + count - 1) total) && (N.min (start + count - 1) total <=? total))%N = true)
    by (apply andb_true_iff; split; apply N.leb_le; lia).
  rewrite Hle. cbn [mbind option_bind]. by eexists.
Qed.

(** ** Concrete runs *)

#[local] Instance demo_retrieval : Retrieval :=
  {| exp2 := fun _ => f64_one; days_since := fun _ _ _ => Some 0%Z;
     is_alphanumeric := fun c => negb (String.eqb c " ") |}.
Definition take_rows (rows : list LexicalIndexChunk) (_ : string) (_ : option string) (limit : nat)
    : result (list (LexicalIndexChunk * option string * f64)) string :=
  Ok (map (fun row => (row, None, lit 1 0)) (take limit rows)).
#[local] Instance all_rows : FullText := {| fts_match := take_rows |}.
#[local] Instance all_rows_laws : FullTextLaws all_rows.
Proof.
  split. intros rows query prefix limit found. unfold fts_match, all_rows, take_rows. intros [= <-]. split.
  - apply Forall_fmap, Forall_forall. intros row Hrow. cbn. by eapply subseteq_take.
  - rewrite length_map, length_take. lia.
Qed.

Definition demo_corpus : MemoryCorpus :=
  mkMemoryCorpus [mkMemoryCorpusDocument "a.md" [] "a" "A" ["# A"; "deploy"] default_metadata;
                  mkMemoryCorpusDocument "b.md" [] "b" "B" ["# B"; "canary"] (with_status default_metadata Status_Stale 1)].
Definition demo_database : Database :=
  mkDatabase None [] (map stored_row (lexical_index_chunks (chunk_corpus demo_corpus (mkMemoryChunkingConfig 400 80)))).
Definition demo_request : MemorySearchRequest :=
  mkMemorySearchRequest "deploy" (Some 3%N) None None None None None None None None None.
Definition demo_lifecycle : MemorySidecarLifecycle :=
  mkLifecycle "memory-core" Sidecar_Ready 2 "fp" 2 2 0 0 0 0 0 "" [] 1.
Definition demo_search : result MemorySearchResponse MemoryError :=
  memory_search (mkMemorySearchConfig 6 700 1) (mkMemoryChunkingConfig 400 80) demo_corpus
    (mkRuntimeExportStats 0 0 0 0 0 None) (Some demo_lifecycle) (Some demo_database) demo_request 5.
Definition demo_response : MemorySearchResponse :=
  match demo_search with Ok r => r | Err _ => mkMemorySearchResponse "" [] [] end.

(** The stale note is not among the hits. *)
Example demo_hits : map hit_path (srs_hits demo_response) = ["a.md"].
Proof. vm_compute. reflexivity. Qed.

Lemma memory_search_sound_witness :
  Forall (fun hit => exists chunk, chunk ∈ chunk_corpus demo_corpus (mkMemoryChunkingConfig 400 80) /\
      hit_of_chunk (mkMemorySearchConfig 6 700 1) demo_request hit chunk) (srs_hits demo_response) /\
  Sorted ranks_before (srs_hits demo_response).
Proof.
  destruct (memory_search_sound (mkMemorySearchConfig 6 700 1) (mkMemoryChunkingConfig 400 80) demo_corpus
    (mkRuntimeExportStats 0 0 0 0 0 None) (Some demo_lifecycle) demo_database demo_request 5 demo_response) as (H1 & H2 & _);
    [apply (bool_decide_unpack _); vm_compute; done | done | vm_compute; reflexivity | by split].
Defined.

(** A defect: a line count near the largest number wraps around, and the slice of the lines panics. *)
Theorem memory_get_overflows :
  memory_get demo_corpus (mkMemoryGetRequest "a.md" (Some 2%N) (Some u64_max)) = None /\
  is_Some (memory_get demo_corpus (mkMemoryGetRequest "a.md" (Some 2%N) (Some 100%N))).
Proof. vm_compute. split; [done | by eexists]. Qed.
